(* ===== verification/_CoqProject ===== *)
-Q . S2P
Prelude.v
Config.v
Numeric.v
Probe.v
OrderRefMap.v
Level.v
Lob.v
LobStore.v
BookSpec.v
LobRefine.v
LobTheorems.v
SymbolTable.v
Bytes.v
Text.v
Decode.v
Ring.v
Arena.v
Reconcile.v
Guards.v
Files.v
Recovery.v
AuditLog.v
ExecTypes.v
Risk.v
LedgerSound.v
Gateway.v
Accounts.v
Admission.v
Journals.v
GatewayBooks.v
GatewayTheorems.v
RecoveryLink.v
StopOrders.v
SimRng.v
SimGen.v
SimReorder.v
SimFeed.v
SimReplay.v
FeedVisits.v
Pipeline.v
WsUtf8.v
WsFrame.v
WsKey.v
WsFill.v
WsServer.v
WsConn.v
WsStream.v
WsIndex.v
WsWorker.v
WsBroadcast.v
WsHistory.v
WsTurn.v
WsLease.v
MoldUdp.v
DpdkFeed.v
HttpWire.v
HttpRequest.v
HttpHeaders.v
HttpJson.v
HttpOrder.v
HttpKeys.v
HttpBridge.v
HttpServer.v
HttpExchange.v
HttpConn.v
HttpRead.v
HttpInvariant.v
HttpDispatch.v
HttpTurn.v
HttpHistory.v
Slots.v
Auction.v
DarkPool.v
Mbo.v
OuchFlow.v
FixParse.v
FixSession.v
RingStore.v
DropCopy.v
