(* ===== verification/Prelude.v ===== *)
(** * Fort: verification library

    Fort ("luv") is a limit-order-book simulator and execution gateway in
    header-only C++20.  Market data in the ITCH format enters through a feed,
    is decoded into fixed-size ticks, travels through a single-producer
    single-consumer ring to a consumer thread that rebuilds the order book, and
    orders leave through a risk-checked gateway that keeps durable journals.
    This library models that path, from the bytes of a message to the book and
    from an order intent to the bytes of the venue packet and of the recovery
    file, and proves what each part promises to the next.

    ** Parts of the program and their files

    Shared:
    - Prelude: machine integers as [Z], sparse and indexed memory, the
      development's tactics and hint databases, sums, bounded iteration.
    - Config: [Config] and [TickMsg] of luv_arena.hpp, the message and flag
      constants of luv_decode_itch.hpp.
    - Numeric: luv_numeric_limits.hpp (checked int64 arithmetic).
    - Bytes, Files, Text: byte buffers with bounds-checked reads; append-only
      files with the outcomes of [write] and [fsync]; searching in byte strings.
    - Probe: linear probing over a power-of-two table, used by OrderRefMap,
      SymbolTable and Reconcile.

    The book (luv_lob.hpp, luv_arena.hpp):
    - OrderRefMap: [OrderRefMap], order reference to location.
    - Level: [PriceLevel] and the slot list operations of [LOBEngine].
    - Lob: [LOBEngine], one Definition per method; [process] dispatches.
    - LobStore, BookSpec, LobRefine, LobTheorems: the level slab as lists of
      levels, the abstract price-time priority book, the simulation between
      them, and its consequences for every reachable state.

    Market data (luv_decode_itch.hpp, luv_feed.hpp, luv_feed_sim.hpp,
    luv_consumer.hpp, luv_arena.hpp):
    - SymbolTable, Decode: ticker table and [decode_itch], byte by byte, on
      hosts of either endianness.
    - Ring: [SPSCRing] and [StaticSpscQueue], call by call and as two threads
      that interleave at every atomic access.
    - Arena: the memory layout of [Arena].
    - SimRng, SimGen, SimReorder, SimFeed, SimReplay: [SimFeedSource], its
      generator, its reorder window, its polls and the replay of a file.
    - FeedVisits: the messages a feed has read of its source, in their order,
      and what became of each; stated apart from the polls.
    - Pipeline: [IFeedSource] as a class, [Consumer], and the composition feed,
      ring, consumer, book.

    Execution (luv_execution.hpp, luv_safety.hpp, luv_recovery.hpp):
    - Reconcile, LedgerSound: [ReconciliationLedger].
    - Guards: [OrderRateLimiter], [SequenceTracker], [CircuitBreaker].
    - AuditLog, Recovery: [DurableAuditLog] and [RecoveryLedger], record layout,
      append, open, verification, replay.
    - ExecTypes, Risk: the data of namespace exec, [PreTradeRisk] and
      [OuchPacketTemplates].
    - Gateway: [ExecutionGateway] over a class of journals; Journals gives the
      two durable logs as instances of it.
    - Accounts, Admission, GatewayBooks, GatewayTheorems, RecoveryLink: sums
      over the order slots modulo 2^64 (a setoid), one call of [try_build],
      whole histories, and the replay of the recovery file after a crash.
    - StopOrders: [StopOrderTable] against the gateway.

    Fill notifications (luv_websocket_parse.hpp, luv_websocket.hpp,
    luv_websocket.cpp):
    - WsUtf8, WsFrame: close codes, [valid_utf8] and the in-place frame parser
      with its fragment state, against RFC 3629 and RFC 6455 encodings.
    - WsKey: the handshake key, SHA-1, base64 and [make_accept].
    - WsFill: the JSON text of a fill.
    - WsServer: [Server], its connections, subscription table and buffers, one
      Definition per operation of the worker.
    - WsConn, WsStream: what the operations do to one connection, and whole
      conversations with any outcomes of [recv] and [send].
    - WsIndex: the subscription table and the chains of connections behind its
      buckets, against a partition of the connections by order.
    - WsWorker, WsBroadcast, WsHistory: the worker's invariant with its account
      of descriptors, the delivery of one fill, and what holds after any
      sequence of operations.
    - WsTurn: one turn of the worker's loop, [stop] and [start].
    - WsLease: the admission word that producers and [stop] share.

    The network feed (luv_moldudp64.hpp, luv_feed_dpdk.hpp):
    - MoldUdp: packets of MoldUDP64, their iterator, retransmission requests.
    - DpdkFeed: [DpdkFeedSource] over the answers of the packet I/O layer, as
      another instance of the class of feeds.

    The control plane (luv_wire_parse.hpp, luv_websocket_parse.hpp,
    luv_http_server.hpp, luv_http_server.cpp):
    - HttpWire, HttpRequest: [wire::request], and the request heads it accepts.
    - HttpHeaders: [header], [header_has_token] and [handshake] on those heads.
    - HttpJson, HttpOrder: the reading of an order from a body, and the bodies
      that are read as a given order.
    - HttpKeys: [BearerKeyStore].
    - HttpBridge: [ExecutionBridge], the two queues between the server's thread
      and the owner of the gateway, against a serial execution.
    - HttpServer: [HttpServer], its client table, routing, responses and turns;
      an upgraded connection is handed to [Server] of WsServer.
    - HttpExchange: what the peer of a connection sees, as the exchange that its
      events tell, and what an exchange of each kind owes to the request.
    - HttpConn, HttpRead, HttpInvariant, HttpDispatch, HttpTurn: the server's
      invariant (slots, reservations, the positions body, the ids in flight)
      and that every step keeps it and does to each exchange what it may.
    - HttpHistory: all sequences of turns, restarts, calls of the owner and
      steps of the WebSocket worker.

    Order management (luv_auction.hpp, luv_dark_pool.hpp, luv_mbo.hpp):
    - Slots: tables of slots with an [active] flag, as the collection of their
      active elements; shared by the next three.
    - Auction: [AuctionCrossEngine], the indicative price of a cross.
    - DarkPool: [DarkPoolEngine], crosses by price, display and time; [std::sort]
      is an argument, with the contract [sort_ok].
    - Mbo: [Level3MarketByOrderBook], single orders and the queue ahead of one.

    Venue and clearing sessions (luv_ouch.hpp, luv_fix.hpp, luv_drop_copy.hpp):
    - OuchFlow: the messages of the venue, their parser, and the adapter that
      calls the report functions of the gateway.
    - FixParse, FixSession: [FixMessageView] with its checksum, and
      [FixSession], its numbers and the messages it writes into a buffer.
    - RingStore, DropCopy: arrays written round and round, and
      [DropCopySession], which keeps its copies in one.

    ** How the model corresponds to the code

    A C++ struct or class is a [Record] with the source's fields, a method is a
    [Definition] (or a [Fixpoint] for a loop) that takes the record and returns
    the new one with the method's result.  Two definitions of one name in
    different classes live in Modules named after the class.  Fixed-width
    integers are [Z]; an operation that can wrap in C++ is wrapped with [u8],
    [u32], [u64], [s64] where the expression has that type.  Reads that leave a
    buffer, divisions by zero and other undefined behaviour are [None]; the
    theorems show that they do not occur.  Memory that an object indexes by
    position (slots of a level, tables) is a list or a sparse map with the
    fill value of the source.  Results of system calls, clocks and callbacks
    are arguments of the operations, so the theorems hold for every outcome.
    SHA-256 is a parameter.  Shared-memory concurrency is modelled where two
    threads meet (ring, rate limiter, admission lease) as an interleaving of atomic steps,
    sequentially consistent.

    ** What the theorems show

    - Book: every reachable state of the engine satisfies its invariant, and
      each message does to it what price-time priority prescribes
      ([lob_refines_book]); the reference map is a finite map.
    - Decoder: in bounds on all bytes, independent of the host, accepting only
      ticks the engine's guards let pass.
    - Feed and pipeline: the synthetic stream decodes to the drawn fields, a
      round of polls delivers each prepared message once (without rate limit and
      drops), a replay delivers the decodable messages of its file in order, and
      the ticks the book sees followed by those still in the ring are the
      decodable messages of the source in its order, less those counted as
      dropped ([feed_to_book_exact]).
    - Network feed: the checks of a packet are exact ([mold_packet_exact]); the
      ring receives the decodable messages of the packets up to the first break
      of the sequence, whatever arrives ([dpdk_feed_exact]), and the book what
      the ring received.
    - Concurrency: the ring is a FIFO channel and the rate limiter keeps its
      bound under every interleaving.
    - Gateway: admission is all or nothing; a tripped breaker is final; over the
      histories without reports about finished orders and without reuse of a
      live order id the accounts agree with slots and fills, and, if there is no
      reject report either, replaying the recovery file gives back the live orders
      ([gateway_crash_recovery]).
    - Journals: round trips; a changed byte of a recovery record, but for its
      padding, is detected; an audit file with a change in a covered byte verifies
      to another root or not at all, unless SHA-256 collides on two records of the two files.
    - WebSocket: a complete frame has the effect the protocol prescribes and no
      bytes make the parser leave its buffers; over any sequence of receives
      and flushes the bytes sent are the answers to the frames received
      ([ws_conversation_exact]), up to a close; what may follow the decision to
      close is stated there too.  How the stream was cut matters only for which
      complete frames have been looked at ([ws_chunking_irrelevant]).  In
      every state the server reaches the index lists for each order exactly its
      subscribers ([ws_index_exact]), every descriptor it was handed is open in
      one slot, waiting or closed ([ws_descriptors_accounted]), and a fill goes
      to the subscribers of its order and to no one else ([ws_broadcast_exact]).
      A turn keeps all of it, and [stop] releases every slot and descriptor; no
      producer is inside once [stop] has seen the admission word drained.
    - Control plane: the request parser recognises exactly the prefixes of
      well-formed requests ([http_request_exact]) and the upgrade check exactly
      the heads that ask for it as the code requires ([ws_handshake_exact]; RFC
      6455 asks for a Host field too, and allows absolute targets); an order printed as JSON
      is read back, unless its ticker is spelled like a member ([http_order_exact]); a token is accepted if and only if it
      is one of the first 32 fitting keys offered ([http_keys_exact]); what the gateway executes is the requests
      in the order of their admission, and rounds of the owner and the server answer
      all of them ([http_bridge_serial]).  Over every
      history a connection is sent one response at most, of the text its request
      is entitled to, and nothing is asked of the gateway for a connection
      without one of the server's keys ([http_exchange_exact]); an answer is the
      gateway's answer at the execution of that very request, and a request that
      waits is not lost ([http_answers_executed]).
    - Order management: with a limit order the indicative price pairs no less than any other and
      resolves ties as it should ([auction_price_optimal]); a cross serves the
      resting orders by priority and passes over none but for its minimum
      ([dark_cross_by_priority]); the market-by-order book is a finite map
      ([mbo_refines_map]).
    - Sessions: the venue's stream, cut anywhere, makes exactly the report calls
      of its messages ([ouch_stream_exact]); what a FIX session writes its reader
      reads back, in number order ([fix_session_roundtrip],
      [fix_inbound_in_order]); a replay gives back the last 1024 copies
      ([drop_copy_replay_exact]).
    - Termination of the unbounded probe loops of the symbol table and of the
      ledger's cancellation.

    ** Fuel and bounds

    Loops bounded in the source are iterated by that bound.  The loops without
    a bound are iterated by the capacity of their table ([probe], cluster
    re-insertion), by the bytes that remain (replay, file reads, a received
    stream, the fields of a request), by the capacity of the queue they drain, by the size of the pool (a chain of subscribers) or by a number
    of doublings of one step ([run_pow]); a theorem for each shows that the
    fuel is never exhausted in a state the program can reach.  Capacities
    are the constants of the source.

    ** Not modelled

    Floating-point code (feature extraction, inference, pricing and strategy
    headers: the reals they approximate are not part of their contract),
    sockets, threads and terminal I/O (their outcomes are inputs; the socket
    calls of [HttpServer::start] are one outcome; between two turns of the
    control plane the WebSocket worker may take any step that keeps the worker's
    invariant), the kqueue build of the WebSocket
    worker and its wakeup pipe (entry 0 of its poll set), logging and JSON reports,
    the reporting and regulation headers, which no other part of the engine
    calls, Python, frontend and deployment files, tests and fuzz drivers.
    Weak memory: acquire/release pairs are modelled as sequentially consistent
    accesses. *)
From Stdlib Require Import ZArith Lia ZifyBool.
From stdpp Require Export prelude gmap.
Open Scope Z_scope.

(** ** Machine integers

    A [w]-bit unsigned value is a [Z] in [0, 2^w); a [w]-bit two's complement
    value a [Z] in [-2^(w-1), 2^(w-1)).  Arithmetic is on [Z]; where the C++
    expression has a machine type the result is wrapped explicitly. *)
Definition wrap_u (w z : Z) : Z := z mod 2 ^ w.
Definition wrap_s (w z : Z) : Z := (z + 2 ^ (w - 1)) mod 2 ^ w - 2 ^ (w - 1).

Abbreviation u8 := (wrap_u 8).
Abbreviation u16 := (wrap_u 16).
Abbreviation u32 := (wrap_u 32).
Abbreviation u64 := (wrap_u 64).
Abbreviation s32 := (wrap_s 32).
Abbreviation s64 := (wrap_s 64).

Abbreviation UINT32_MAX := 4294967295 (only parsing).
Abbreviation UINT64_MAX := 18446744073709551615 (only parsing).
Abbreviation INT32_MAX := 2147483647 (only parsing).
Abbreviation INT64_MAX := 9223372036854775807 (only parsing).
Abbreviation INT64_MIN := (-9223372036854775808) (only parsing).

(** Range predicates. *)
Definition in_u (w z : Z) : Prop := 0 <= z < 2 ^ w.
Definition in_s (w z : Z) : Prop := - 2 ^ (w - 1) <= z < 2 ^ (w - 1).

(** A C++ [bool] used as an integer bit. *)
Definition bit (b : bool) : Z := if b then 1 else 0.

(** ** Memory

    [sget d m i] reads cell [i] of a large zero-filled region kept sparsely:
    a cell that was never written holds the fill value [d]. *)
Definition sget {T} (d : T) (m : gmap Z T) (i : Z) : T := default d (m !! i).

(** [lget d l i] reads element [i] of a fixed-size array; an index outside the
    array (undefined behaviour in the source) reads [d], and the invariants of
    the components show that it does not occur. *)
Definition lget {T} (d : T) (l : list T) (i : Z) : T :=
  if 0 <=? i then default d (l !! Z.to_nat i) else d.

Definition lset {T} (i : Z) (x : T) (l : list T) : list T :=
  if 0 <=? i then <[Z.to_nat i := x]> l else l.

(** The indices [a], [a+1], ..., [a+n-1]. *)
Definition zrange (a : Z) (n : nat) : list Z := (fun i => a + Z.of_nat i) <$> seq 0 n.

(** Sum of a list of quantities. *)
Definition zsum (l : list Z) : Z := foldr Z.add 0 l.

(** ** Tactics and hints *)
Create HintDb luv.
Create Rewrite HintDb luv.

(** Split the boolean connectives of the code's guards. *)
Ltac split_guards :=
  repeat match goal with
  | H : (_ && _)%bool = true |- _ => apply andb_true_iff in H; destruct H
  | H : (_ || _)%bool = false |- _ => apply orb_false_iff in H; destruct H
  | H : negb _ = true |- _ => apply negb_true_iff in H
  | H : negb _ = false |- _ => apply negb_false_iff in H
  end.

(** Case on the innermost [if] of the goal, keeping the guard. *)
Ltac case_if :=
  match goal with
  | |- context [if ?b then _ else _] =>
      match type of b with bool => destruct b eqn:? end
  end.

Ltac case_if_in H :=
  match type of H with
  | context [if ?b then _ else _] =>
      match type of b with bool => destruct b eqn:? end
  end.

(** ** Machine-integer lemmas *)
Lemma wrap_u_id w z : in_u w z -> wrap_u w z = z.
Proof. intros [??]. by apply Z.mod_small. Qed.

Lemma wrap_u_range w z : 0 <= w -> in_u w (wrap_u w z).
Proof. intros. apply Z.mod_pos_bound. lia. Qed.

Lemma wrap_s_id w z : 1 <= w -> in_s w z -> wrap_s w z = z.
Proof.
  intros ? [??]. unfold wrap_s.
  assert (2 ^ w = 2 * 2 ^ (w - 1)) by (rewrite <- Z.pow_succ_r by lia; f_equal; lia).
  rewrite Z.mod_small by lia. lia.
Qed.

Lemma wrap_s_range w z : 1 <= w -> in_s w (wrap_s w z).
Proof.
  intros. unfold in_s, wrap_s.
  assert (2 ^ w = 2 * 2 ^ (w - 1)) by (rewrite <- Z.pow_succ_r by lia; f_equal; lia).
  pose proof (Z.mod_pos_bound (z + 2 ^ (w - 1)) (2 ^ w) ltac:(lia)). lia.
Qed.

Lemma land_mask n z : 0 <= n -> Z.land z (2 ^ n - 1) = z mod 2 ^ n.
Proof. intros. rewrite <- Z.land_ones, Z.ones_equiv by lia. f_equal; lia. Qed.

(** Concatenation of bit fields. *)
Lemma lor_shiftl_add n hi lo : 0 <= n -> 0 <= lo < 2 ^ n -> Z.lor (Z.shiftl hi n) lo = hi * 2 ^ n + lo.
Proof.
  intros Hn Hlo. rewrite <- Z.shiftl_mul_pow2, <- Z.add_lor_land by done.
  assert (E : Z.land (Z.shiftl hi n) lo = 0); [|lia]. apply Z.bits_inj'. intros i Hi. rewrite Z.land_spec, Z.bits_0.
  destruct (Z.lt_ge_cases i n); [by rewrite Z.shiftl_spec_low|].
  rewrite <- (Z.mod_small lo (2 ^ n)), Z.mod_pow2_bits_high by lia. apply andb_false_r.
Qed.

(** ** Memory lemmas *)
Lemma sget_insert_eq {T} (d x : T) m i : sget d (<[i := x]> m) i = x.
Proof. unfold sget. by rewrite lookup_insert_eq. Qed.

Lemma sget_insert_ne {T} (d x : T) m i j : i <> j -> sget d (<[i := x]> m) j = sget d m j.
Proof. intros. unfold sget. by rewrite lookup_insert_ne. Qed.

Lemma sget_insert {T} (d x : T) m i j :
  sget d (<[i := x]> m) j = if decide (i = j) then x else sget d m j.
Proof. case_decide; subst; [apply sget_insert_eq | by apply sget_insert_ne]. Qed.

Lemma length_lset {T} i (x : T) l : length (lset i x l) = length l.
Proof. unfold lset. case_if; [apply length_insert | done]. Qed.

Lemma lget_lset_eq {T} (d x : T) l i :
  0 <= i < Z.of_nat (length l) -> lget d (lset i x l) i = x.
Proof.
  intros. unfold lget, lset. destruct (Z.leb_spec 0 i); [|lia].
  rewrite list_lookup_insert_eq by lia. done.
Qed.

Lemma lget_lset_ne {T} (d x : T) l i j : i <> j -> lget d (lset i x l) j = lget d l j.
Proof.
  intros. unfold lget, lset.
  destruct (Z.leb_spec 0 i), (Z.leb_spec 0 j); try done.
  rewrite list_lookup_insert_ne by lia. done.
Qed.

Lemma elem_of_zrange a n x : x ∈ zrange a n <-> a <= x < a + Z.of_nat n.
Proof.
  unfold zrange. rewrite list_elem_of_fmap. setoid_rewrite elem_of_seq. split.
  - intros (i & -> & ?). lia.
  - intros. exists (Z.to_nat (x - a)). lia.
Qed.

Lemma zsum_app l1 l2 : zsum (l1 ++ l2) = zsum l1 + zsum l2.
Proof. induction l1; simpl; [done | unfold zsum in *; simpl; lia]. Qed.

Lemma zsum_cons x l : zsum (x :: l) = x + zsum l.
Proof. done. Qed.

(** ** List lemmas *)
Lemma list_bind_fmap {A B C} (f : A -> B) (g : B -> list C) l : (f <$> l) ≫= g = l ≫= (fun x => g (f x)).
Proof. induction l as [|x l IH]; [done|]. cbn. f_equal. apply IH. Qed.

(** [NoDup_bind] for a list that may have repeated elements. *)
Lemma NoDup_bind_lookup {A B} (f : A -> list B) l :
  (forall i j a b y, l !! i = Some a -> l !! j = Some b -> y ∈ f a -> y ∈ f b -> i = j) ->
  (forall a, a ∈ l -> NoDup (f a)) -> NoDup (l ≫= f).
Proof.
  induction l as [|x l IH]; intros Hinj Hf; [constructor|]. cbn. apply NoDup_app. split_and!.
  - apply Hf. by left.
  - intros y Hy (b & Hb & [j Hj]%list_elem_of_lookup_1)%list_elem_of_bind.
    assert (0%nat = S j) by by eapply Hinj. done.
  - apply IH; [|intros; apply Hf; by right]. intros i j a b y Hi Hj ? ?.
    assert (S i = S j) by by eapply Hinj. lia.
Qed.

(** ** Loops without a structural bound

    [run_pow k f s] makes up to [2 ^ k] iterations of a loop body that either
    goes on from a new state or returns. *)
Fixpoint run_pow {S R} (k : nat) (f : S -> S + R) (s : S) : S + R :=
  match k with
  | O => f s
  | Datatypes.S k => match run_pow k f s with inl s => run_pow k f s | inr r => inr r end
  end.

(** A loop body that keeps an invariant and decreases a measure returns. *)
Lemma run_pow_spec {S R} (f : S -> S + R) (Inv : S -> Prop) (Post : R -> Prop) (mu : S -> Z) :
  (forall s, Inv s -> match f s with inl s' => Inv s' /\ mu s' < mu s | inr r => Post r end) ->
  (forall s, Inv s -> 0 <= mu s) ->
  forall k s, Inv s -> mu s < 2 ^ Z.of_nat k -> exists r, run_pow k f s = inr r /\ Post r.
Proof.
  intros Hstep Hmu k s Hs Hk.
  assert (Hgen : match run_pow k f s with inl s' => Inv s' /\ mu s' + 2 ^ Z.of_nat k <= mu s | inr r => Post r end).
  { clear Hk. revert s Hs. induction k as [|k IH]; intros s Hs; cbn [run_pow].
    - specialize (Hstep s Hs). destruct (f s) as [s'|r]; [|done]. destruct Hstep. split; [done|]. change (2 ^ Z.of_nat 0) with 1. lia.
    - pose proof (IH s Hs) as IH1. destruct (run_pow k f s) as [s1|r1]; [|done]. destruct IH1 as [H1 H2].
      pose proof (IH s1 H1) as IH2. destruct (run_pow k f s1) as [s2|r2]; [|done]. destruct IH2 as [H3 H4]. split; [done|].
      replace (Z.of_nat (Datatypes.S k)) with (Z.of_nat k + 1) by lia. rewrite Z.pow_add_r by lia. lia. }
  destruct (run_pow k f s) as [s'|r]; [|by exists r]. destruct Hgen as [H1 H2]. pose proof (Hmu s' H1). lia.
Qed.

(** ** Sums over a range *)
Lemma zsum_ext {A} (f g : A -> Z) l : (forall x, x ∈ l -> f x = g x) -> zsum (f <$> l) = zsum (g <$> l).
Proof.
  induction l as [|x l IH]; intros H; [done|]. cbn. rewrite H by by left. f_equal. apply IH. intros y Hy. apply H. by right.
Qed.

(** A sum after one term has changed. *)
Lemma zsum_update {A} (f g : A -> Z) l x :
  NoDup l -> x ∈ l -> (forall y, y <> x -> f y = g y) -> zsum (f <$> l) = zsum (g <$> l) + f x - g x.
Proof.
  induction 1 as [|y l Hy Hl IH]; intros Hx Hfg; [by apply not_elem_of_nil in Hx|].
  change (zsum (f <$> y :: l)) with (f y + zsum (f <$> l)). change (zsum (g <$> y :: l)) with (g y + zsum (g <$> l)).
  apply elem_of_cons in Hx as [->|Hx].
  - rewrite (zsum_ext f g l); [lia|]. intros z Hz. apply Hfg. by intros ->.
  - rewrite (Hfg y); [rewrite IH by done; lia|]. by intros ->.
Qed.

Lemma zsum_le {A} (f g : A -> Z) l : (forall x, x ∈ l -> f x <= g x) -> zsum (f <$> l) <= zsum (g <$> l).
Proof.
  induction l as [|x l IH]; intros H; [done|]. change (zsum (f <$> x :: l)) with (f x + zsum (f <$> l)).
  change (zsum (g <$> x :: l)) with (g x + zsum (g <$> l)).
  pose proof (H x ltac:(by left)). pose proof (IH ltac:(intros; apply H; by right)). lia.
Qed.

Lemma zsum_const {A} (c : Z) (l : list A) : zsum ((fun _ => c) <$> l) = c * Z.of_nat (length l).
Proof. induction l as [|x l IH]; [cbn; lia|]. change (zsum ((fun _ => c) <$> x :: l)) with (c + zsum ((fun _ => c) <$> l)). cbn [length]. lia. Qed.

Lemma NoDup_zrange a n : NoDup (zrange a n).
Proof. apply NoDup_fmap_2; [intros ???; lia|apply NoDup_seq]. Qed.

Lemma length_zrange a n : length (zrange a n) = n.
Proof. unfold zrange. by rewrite length_fmap, length_seq. Qed.

#[export] Hint Rewrite @sget_insert_eq @length_lset @zsum_app @zsum_cons : luv.
#[export] Hint Resolve wrap_u_range wrap_s_range : luv.
