(* ===== verification/Config.v ===== *)
(** * Configuration and the decoded tick (Config and TickMsg of luv_arena.hpp,
    message and flag constants of luv_decode_itch.hpp) *)
From Stdlib Require Import ZArith Lia ZifyBool.
From S2P Require Import Prelude.

(** ** Config *)
Definition kSymbols : Z := 512.
Definition kLevelsPerSide : Z := 1024.
Definition kMaxOrdersPerLevel : Z := 16.
Definition kTickCapacity : Z := Z.shiftl 1 22.
Definition kFeaturesPerSymbol : Z := 20.
Definition kLookbackSteps : Z := 64.
Definition kSignalSlots : Z := kSymbols.
Definition kMaxActiveOrders : Z := 64.
Definition kWebSocketConnections : Z := 1000.
Definition kWebSocketConnectionSlotBytes : Z := 10 * 1024.
Definition kTelemCapacity : Z := Z.shiftl 1 16.
Definition kAIBudgetBytes : Z := 64 * 1024 * 1024.

(** ** TickMsg *)
Record TickMsg := mkTick {
  t_msg_type : Z;     (* uint8_t *)
  t_flags : Z;        (* uint8_t *)
  t_symbol_idx : Z;   (* uint16_t *)
  t_timestamp : Z;    (* uint64_t *)
  t_price : Z;        (* int64_t *)
  t_qty : Z;          (* int64_t *)
  t_order_ref : Z;    (* uint64_t *)
  t_match_num : Z;    (* uint64_t *)
}.

(** [TickMsg{}] *)
Definition empty_tick : TickMsg := mkTick 0 0 0 0 0 0 0 0.

(** The field values a C++ [TickMsg] can hold. *)
Record tick_typed (t : TickMsg) : Prop := {
  tt_msg_type : in_u 8 (t_msg_type t);
  tt_flags : in_u 8 (t_flags t);
  tt_symbol : in_u 16 (t_symbol_idx t);
  tt_timestamp : in_u 64 (t_timestamp t);
  tt_price : in_s 64 (t_price t);
  tt_qty : in_s 64 (t_qty t);
  tt_order_ref : in_u 64 (t_order_ref t);
  tt_match_num : in_u 64 (t_match_num t);
}.

Module tick_flags.
Definition kBuy : Z := 0x01.
Definition kPrintable : Z := 0x02.
Definition kCross : Z := 0x04.
Definition kHalted : Z := 0x08.
Definition kShortSaleRestricted : Z := 0x10.
End tick_flags.

Module itch.
Definition kAddOrder : Z := 0x41.
Definition kAddOrderMPID : Z := 0x46.
Definition kOrderExecuted : Z := 0x45.
Definition kOrderExecPrice : Z := 0x43.
Definition kOrderCancel : Z := 0x58.
Definition kOrderDelete : Z := 0x44.
Definition kOrderReplace : Z := 0x55.
Definition kTrade : Z := 0x50.
Definition kCrossTrade : Z := 0x51.
Definition kStockTradingAction : Z := 0x48.
Definition kRegSHO : Z := 0x59.
End itch.
