(* ===== verification/Numeric.v ===== *)
(** * Checked fixed-width arithmetic (luv_numeric_limits.hpp)

    The validity ranges of prices and quantities and the overflow-checked
    int64 operations.  A checked operation returns [Some result] where the
    source stores the result and returns [true], and [None] where it returns
    [false] and leaves the result untouched. *)
From Stdlib Require Import ZArith Lia ZifyBool.
From S2P Require Import Prelude.

Module numeric.

Definition kMinPrice : Z := 1.
Definition kMaxPrice : Z := 0xFFFFFFFF.
Definition kMinQuantity : Z := 1.
Definition kMaxQuantity : Z := 1000000000.

Definition is_valid_price (value : Z) : bool := (kMinPrice <=? value) && (value <=? kMaxPrice).
Definition is_valid_quantity (value : Z) : bool := (kMinQuantity <=? value) && (value <=? kMaxQuantity).

(** The guard compares against [max - rhs] and [min - rhs] computed at width. *)
Definition checked_add (lhs rhs : Z) : option Z :=
  if ((0 <? rhs) && (s64 (INT64_MAX - rhs) <? lhs)) || ((rhs <? 0) && (lhs <? s64 (INT64_MIN - rhs)))
  then None else Some (s64 (lhs + rhs)).

Definition checked_sub (lhs rhs : Z) : option Z :=
  if ((rhs <? 0) && (s64 (INT64_MAX + rhs) <? lhs)) || ((0 <? rhs) && (lhs <? s64 (INT64_MIN + rhs)))
  then None else Some (s64 (lhs - rhs)).

(** What [__builtin_{add,mul}_overflow] computes: the exact result when it is
    representable in an int64. *)
Definition builtin_exact (exact : Z) : option Z :=
  if (INT64_MIN <=? exact) && (exact <=? INT64_MAX) then Some exact else None.

(** [checked_mul] under GCC and Clang. *)
Definition checked_mul (lhs rhs : Z) : option Z := builtin_exact (lhs * rhs).

(** The portable branch of [checked_mul]; C++ division truncates. *)
Definition checked_mul_portable (lhs rhs : Z) : option Z :=
  if (lhs =? 0) || (rhs =? 0) then Some 0
  else
    let ok :=
      if 0 <? lhs then
        if 0 <? rhs then negb (Z.quot INT64_MAX rhs <? lhs)
        else negb (rhs <? Z.quot INT64_MIN lhs)
      else
        if 0 <? rhs then negb (lhs <? Z.quot INT64_MIN rhs)
        else negb (negb (lhs =? 0) && (rhs <? Z.quot INT64_MAX lhs)) in
    if ok then Some (s64 (lhs * rhs)) else None.

Lemma in_s64 z : in_s 64 z <-> INT64_MIN <= z <= INT64_MAX.
Proof. unfold in_s. change (2 ^ (64 - 1)) with 9223372036854775808. lia. Qed.

Lemma s64_id z : INT64_MIN <= z <= INT64_MAX -> s64 z = z.
Proof. intros. apply wrap_s_id; [lia | by apply in_s64]. Qed.

Lemma checked_add_exact lhs rhs :
  in_s 64 lhs -> in_s 64 rhs -> checked_add lhs rhs = builtin_exact (lhs + rhs).
Proof.
  rewrite !in_s64. intros. unfold checked_add, builtin_exact.
  destruct (Z.ltb_spec 0 rhs), (Z.ltb_spec rhs 0); simpl; try lia;
    rewrite ?(s64_id (INT64_MAX - rhs)), ?(s64_id (INT64_MIN - rhs)) by lia;
    repeat case_if; try lia; try done; by rewrite s64_id by lia.
Qed.

Lemma checked_sub_exact lhs rhs :
  in_s 64 lhs -> in_s 64 rhs -> checked_sub lhs rhs = builtin_exact (lhs - rhs).
Proof.
  rewrite !in_s64. intros. unfold checked_sub, builtin_exact.
  destruct (Z.ltb_spec 0 rhs), (Z.ltb_spec rhs 0); simpl; try lia;
    rewrite ?(s64_id (INT64_MAX + rhs)), ?(s64_id (INT64_MIN + rhs)) by lia;
    repeat case_if; try lia; try done; by rewrite s64_id by lia.
Qed.

(** Truncated division by a positive divisor, by cases on the sign. *)
Lemma quot_pos a b : 0 <= a -> 0 < b -> Z.quot a b * b <= a < Z.quot a b * b + b.
Proof. intros. rewrite Z.quot_div_nonneg by lia. pose proof (Z.div_mod a b). pose proof (Z.mod_pos_bound a b). lia. Qed.

Lemma quot_bounds_neg a b : a < 0 -> 0 < b -> Z.quot a b * b - b < a <= Z.quot a b * b.
Proof.
  intros. replace a with (- (- a)) by lia. rewrite Z.quot_opp_l by lia.
  pose proof (quot_pos (- a) b). lia.
Qed.

Lemma checked_mul_portable_exact lhs rhs :
  in_s 64 lhs -> in_s 64 rhs -> checked_mul_portable lhs rhs = checked_mul lhs rhs.
Proof.
  rewrite !in_s64. intros Hl Hr. unfold checked_mul_portable, checked_mul, builtin_exact.
  destruct (Z.eqb_spec lhs 0) as [->|], (Z.eqb_spec rhs 0) as [->|]; simpl; rewrite ?Z.mul_0_r; try done.
  destruct (Z.ltb_spec 0 lhs), (Z.ltb_spec 0 rhs).
  - pose proof (quot_pos INT64_MAX rhs ltac:(lia) ltac:(lia)).
    destruct (Z.ltb_spec (INT64_MAX ÷ rhs) lhs); simpl; case_if; try done; try nia.
    by rewrite s64_id by nia.
  - pose proof (quot_bounds_neg INT64_MIN lhs ltac:(lia) ltac:(lia)).
    destruct (Z.ltb_spec rhs (INT64_MIN ÷ lhs)); simpl; case_if; try done; try nia.
    by rewrite s64_id by nia.
  - pose proof (quot_bounds_neg INT64_MIN rhs ltac:(lia) ltac:(lia)).
    destruct (Z.ltb_spec lhs (INT64_MIN ÷ rhs)); simpl; case_if; try done; try nia.
    by rewrite s64_id by nia.
  - assert (Hq : INT64_MAX ÷ lhs = - (INT64_MAX ÷ (- lhs))) by (rewrite Z.quot_opp_r by lia; lia).
    rewrite Hq. pose proof (quot_pos INT64_MAX (- lhs) ltac:(lia) ltac:(lia)).
    destruct (Z.ltb_spec rhs (- (INT64_MAX ÷ - lhs))); simpl; case_if; try done; try nia.
    by rewrite s64_id by nia.
Qed.

End numeric.
