(* ===== verification/Probe.v ===== *)
(** * Linear probing over a power-of-two table

    The scan shared by the open-addressing tables of the system
    (OrderRefMap, ReconciliationLedger, SymbolTable): the probe sequence
    [hash, hash+1, ...] taken with [& (capacity - 1)], the bounded search loop,
    and the reachability of a stored key along its probe sequence. *)
From Stdlib Require Import ZArith Lia ZifyBool.
From S2P Require Import Prelude.

(** The [d]-th slot of the probe sequence that starts at [h], in a table of
    [2 ^ n] slots. *)
Definition probe_slot (n h d : Z) : Z := (h + d) mod 2 ^ n.

(** The search loop: stop at [key], give up at an empty slot (key 0) or after
    [fuel] probes.  [K] reads the key stored in a slot. *)
Fixpoint probe_find (K : Z -> Z) (mask key : Z) (fuel : nat) (slot : Z) : option Z :=
  match fuel with
  | O => None
  | S fuel =>
      if K slot =? key then Some slot
      else if K slot =? 0 then None
      else probe_find K mask key fuel (Z.land (slot + 1) mask)
  end.

(** [clear_to n K h k d]: the first [d] probes for [k] meet neither an empty
    slot nor [k] itself. *)
Definition clear_to (n : Z) (K : Z -> Z) (h k d : Z) : Prop :=
  forall d', 0 <= d' < d -> K (probe_slot n h d') <> 0 /\ K (probe_slot n h d') <> k.

(** Slot [s] is met by the search for [k] within [limit] probes. *)
Definition reachable (n : Z) (K : Z -> Z) (h k limit s : Z) : Prop :=
  exists d, 0 <= d < limit /\ s = probe_slot n h d /\ clear_to n K h k d.

Section Probing.
Context (n : Z) (Hn : 0 <= n).
Implicit Types (K : Z -> Z) (h k s d : Z).

Lemma probe_slot_range h d : 0 <= probe_slot n h d < 2 ^ n.
Proof. apply Z.mod_pos_bound. lia. Qed.

Lemma probe_slot_0 h : 0 <= h < 2 ^ n -> probe_slot n h 0 = h.
Proof. intros. unfold probe_slot. rewrite Z.add_0_r. by apply Z.mod_small. Qed.

Lemma probe_slot_next h d : Z.land (probe_slot n h d + 1) (2 ^ n - 1) = probe_slot n h (d + 1).
Proof. rewrite land_mask by done. unfold probe_slot. rewrite Zplus_mod_idemp_l. f_equal; lia. Qed.

Lemma probe_slot_inj h d d' :
  0 <= d < 2 ^ n -> 0 <= d' < 2 ^ n -> probe_slot n h d = probe_slot n h d' -> d = d'.
Proof.
  unfold probe_slot. intros Hd Hd' E.
  assert (E' : (h + d - (h + d')) mod 2 ^ n = 0) by (rewrite Zminus_mod, E, Z.sub_diag; apply Z.mod_0_l; lia).
  replace (h + d - (h + d')) with (d - d') in E' by lia.
  apply Z.mod_divide in E' as [q E']; [|lia].
  destruct (Z.lt_total q 0) as [?|[->|?]]; nia.
Qed.

Lemma clear_to_mono K h k d d' : d' <= d -> clear_to n K h k d -> clear_to n K h k d'.
Proof. intros ? H d'' ?. apply H. lia. Qed.

Lemma clear_to_succ K h k d :
  0 <= d -> clear_to n K h k d -> K (probe_slot n h d) <> 0 -> K (probe_slot n h d) <> k ->
  clear_to n K h k (d + 1).
Proof.
  intros ? H ?? d' ?. destruct (Z.eq_dec d' d) as [->|]; [done|]. apply H. lia.
Qed.

(** The loop started at distance [d] after a clear prefix, in full. *)
Lemma probe_find_spec K h k fuel d :
  0 <= d -> clear_to n K h k d ->
  match probe_find K (2 ^ n - 1) k fuel (probe_slot n h d) with
  | Some s => K s = k /\ reachable n K h k (d + Z.of_nat fuel) s
  | None => clear_to n K h k (d + Z.of_nat fuel)
            \/ exists e, d <= e < d + Z.of_nat fuel /\ clear_to n K h k e /\
                         K (probe_slot n h e) = 0 /\ K (probe_slot n h e) <> k
  end.
Proof.
  revert d. induction fuel as [|fuel IH]; intros d Hd Hc; cbn [probe_find].
  { left. by replace (d + Z.of_nat 0) with d by lia. }
  destruct (Z.eqb_spec (K (probe_slot n h d)) k) as [Hk|Hk].
  { split; [done|]. exists d. split; [lia|done]. }
  destruct (Z.eqb_spec (K (probe_slot n h d)) 0) as [H0|H0].
  { right. exists d. split; [lia|done]. }
  rewrite probe_slot_next. specialize (IH (d + 1)).
  replace (d + 1 + Z.of_nat fuel) with (d + Z.of_nat (S fuel)) in IH by lia.
  assert (Hc' : clear_to n K h k (d + 1)) by (apply clear_to_succ; done).
  specialize (IH ltac:(lia) Hc'). destruct (probe_find _ _ _ _ _); [done|].
  destruct IH as [?|(e & ? & ?)]; [by left | right; exists e; split; [lia|done]].
Qed.

(** The search finds exactly the reachable slot that holds the key. *)
Lemma probe_find_Some K h k limit s :
  0 <= h < 2 ^ n -> Z.of_nat limit <= 2 ^ n ->
  probe_find K (2 ^ n - 1) k limit h = Some s <->
  K s = k /\ reachable n K h k (Z.of_nat limit) s.
Proof.
  intros Hh Hl. assert (H0 : clear_to n K h k 0) by (intros ??; lia).
  pose proof (probe_find_spec K h k limit 0 ltac:(lia) H0) as Hspec.
  rewrite probe_slot_0 in Hspec by done. rewrite Z.add_0_l in Hspec.
  destruct (probe_find _ _ _ _ _) as [s'|] eqn:E.
  - split; [by intros [= <-]|]. intros (Hk & d & Hd & -> & Hc).
    destruct Hspec as (Hk' & d' & Hd' & -> & Hc').
    destruct (Z.lt_total d d') as [?|[->|?]]; [|done|].
    + by destruct (Hc' d ltac:(lia)).
    + by destruct (Hc d' ltac:(lia)).
  - split; [done|]. intros (Hk & d & Hd & -> & Hc). exfalso.
    destruct Hspec as [Hall|(e & He & Hce & Hz & Hne)]; [by destruct (Hall d ltac:(lia))|].
    destruct (Z.lt_total d e) as [?|[->|?]].
    + by destruct (Hce d ltac:(lia)).
    + done.
    + by destruct (Hc e ltac:(lia)).
Qed.

(** Two reachable slots that hold the key are the same slot. *)
Lemma reachable_unique K h k limit s s' :
  reachable n K h k limit s -> reachable n K h k limit s' -> K s = k -> K s' = k -> s = s'.
Proof.
  intros (d & ? & -> & Hc) (d' & ? & -> & Hc') E E'.
  destruct (Z.lt_total d d') as [?|[->|?]]; [|done|].
  - by destruct (Hc' d ltac:(lia)).
  - by destruct (Hc d' ltac:(lia)).
Qed.

Lemma reachable_range K h k limit s : reachable n K h k limit s -> 0 <= s < 2 ^ n.
Proof. intros (d & ? & -> & _). apply probe_slot_range. Qed.

(** Writing a non-empty key other than [k] into any slot, or turning a slot
    that does not hold [k] into such a key, keeps [k] reachable. *)
Lemma reachable_write K K' h k limit s t x :
  (forall u, K' u = if decide (t = u) then x else K u) ->
  x <> 0 -> x <> k -> reachable n K h k limit s -> reachable n K' h k limit s.
Proof.
  intros HK' ?? (d & ? & -> & Hc). exists d. split_and!; [lia|lia|done|].
  intros d' ?. rewrite HK'. case_decide; [done|]. by apply Hc.
Qed.

End Probing.

Lemma probe_find_S K mask key fuel slot :
  probe_find K mask key (S fuel) slot =
  if K slot =? key then Some slot else if K slot =? 0 then None else probe_find K mask key fuel (Z.land (slot + 1) mask).
Proof. done. Qed.

#[global] Arguments probe_find : simpl never.
