(* ===== verification/OrderRefMap.v ===== *)
(** * OrderRefMap (luv_lob.hpp): order reference to book location

    The open-addressing table that maps a 64-bit order reference to its
    [OrderLocation].  The backing arrays are kept sparsely: a slot never
    written holds key 0, as after the zero fill of [init].  Log calls write to
    stderr only and are left out. *)
From Stdlib Require Import ZArith Lia ZifyBool.
From S2P Require Import Prelude Config Probe.

(** ** Data *)
Record OrderLocation := mkLoc {
  symbol_idx : Z;   (* uint16_t *)
  side : Z;         (* uint8_t, 0 = bid, 1 = ask *)
  level_idx : Z;    (* uint16_t *)
  slot_idx : Z;     (* int32_t *)
}.

#[export] Instance OrderLocation_eq_dec : EqDecision OrderLocation.
Proof. solve_decision. Defined.

Definition zero_location : OrderLocation := mkLoc 0 0 0 0.

Record OrderRefMap := mkMap {
  om_ready : bool;                    (* _keys != nullptr *)
  om_keys : gmap Z Z;                 (* _keys *)
  om_values : gmap Z OrderLocation;   (* _values *)
  om_count : Z;                       (* _count, uint32_t *)
}.

Module refmap.

Definition kCapacity : Z := u32 (kSymbols * kLevelsPerSide * kMaxOrdersPerLevel).
Definition kMask : Z := kCapacity - 1.
Definition kMaxProbeLength : nat := 256.
Definition kMaxLoadPercent : Z := 80.
Definition kMaxEntries : Z := u32 (kCapacity * kMaxLoadPercent) / 100.
Definition kEmptyKey : Z := 0.
Definition kTombstone : Z := 0xFFFFFFFFFFFFFFFF.

Definition key_at (m : OrderRefMap) (slot : Z) : Z := sget kEmptyKey (om_keys m) slot.
Definition value_at (m : OrderRefMap) (slot : Z) : OrderLocation := sget zero_location (om_values m) slot.

(** The Fibonacci hash with the splitmix finaliser, on uint64_t. *)
Definition kFibMul : Z := 0x9E3779B97F4A7C15.
Definition kShift : Z := 64 - 23.

Definition hash (key : Z) : Z :=
  let key := Z.lxor key (Z.shiftr key 30) in
  let key := u64 (key * 0xBF58476D1CE4E5B9) in
  let key := Z.lxor key (Z.shiftr key 27) in
  let key := u64 (key * 0x94D049BB133111EB) in
  let key := Z.lxor key (Z.shiftr key 31) in
  u32 (Z.shiftr (u64 (key * kFibMul)) kShift).

Definition unmapped : OrderRefMap := mkMap false ∅ ∅ 0.

Definition clear (m : OrderRefMap) : OrderRefMap := mkMap (om_ready m) ∅ (om_values m) 0.

(** [init]: [mapped] says whether mmap succeeded. *)
Definition init (mapped : bool) (m : OrderRefMap) : bool * OrderRefMap :=
  if om_ready m then (false, m)
  else if negb mapped then (false, m)
  else (true, clear (mkMap true ∅ ∅ (om_count m))).

Definition teardown (m : OrderRefMap) : OrderRefMap :=
  if om_ready m then mkMap false ∅ ∅ 0 else m.

Definition invalid_ref (m : OrderRefMap) (order_ref : Z) : bool :=
  negb (om_ready m) || (order_ref =? kEmptyKey) || (order_ref =? kTombstone).

Definition invalid_location (loc : OrderLocation) : bool :=
  (kSymbols <=? symbol_idx loc) || (1 <? side loc) || (kLevelsPerSide <=? level_idx loc) ||
  (slot_idx loc <? 0) || (kMaxOrdersPerLevel <=? slot_idx loc).

Definition set_value (slot : Z) (loc : OrderLocation) (m : OrderRefMap) : OrderRefMap :=
  mkMap (om_ready m) (om_keys m) (<[slot := loc]> (om_values m)) (om_count m).

(** Write key and value into a free slot and count the entry. *)
Definition put (slot order_ref : Z) (loc : OrderLocation) (m : OrderRefMap) : OrderRefMap :=
  mkMap (om_ready m) (<[slot := order_ref]> (om_keys m)) (<[slot := loc]> (om_values m))
        (u32 (om_count m + 1)).

Fixpoint insert_loop (m : OrderRefMap) (order_ref : Z) (loc : OrderLocation)
    (fuel : nat) (slot tombstone_slot : Z) : bool * OrderRefMap :=
  match fuel with
  | O =>
      if negb (tombstone_slot =? kCapacity) && (om_count m <? kMaxEntries)
      then (true, put tombstone_slot order_ref loc m)
      else (false, m)
  | S fuel =>
      let k := key_at m slot in
      if k =? order_ref then (true, set_value slot loc m)
      else if (k =? kTombstone) && (tombstone_slot =? kCapacity) then
        insert_loop m order_ref loc fuel (Z.land (slot + 1) kMask) slot
      else if k =? kEmptyKey then
        if kMaxEntries <=? om_count m then (false, m)
        else (true, put (if tombstone_slot =? kCapacity then slot else tombstone_slot) order_ref loc m)
      else insert_loop m order_ref loc fuel (Z.land (slot + 1) kMask) tombstone_slot
  end.

Definition insert (order_ref : Z) (loc : OrderLocation) (m : OrderRefMap) : bool * OrderRefMap :=
  if invalid_ref m order_ref || invalid_location loc then (false, m)
  else insert_loop m order_ref loc kMaxProbeLength (hash order_ref) kCapacity.

Fixpoint can_insert_loop (m : OrderRefMap) (order_ref : Z) (fuel : nat) (slot : Z) : bool :=
  match fuel with
  | O => false
  | S fuel =>
      let k := key_at m slot in
      if k =? order_ref then false
      else if k =? kEmptyKey then true
      else can_insert_loop m order_ref fuel (Z.land (slot + 1) kMask)
  end.

Definition can_insert (order_ref : Z) (m : OrderRefMap) : bool :=
  if invalid_ref m order_ref then false
  else if kMaxEntries <=? om_count m then false
  else can_insert_loop m order_ref kMaxProbeLength (hash order_ref).

(** The slot whose value [lookup] returns a pointer to. *)
Definition lookup_slot (order_ref : Z) (m : OrderRefMap) : option Z :=
  if invalid_ref m order_ref then None
  else probe_find (key_at m) kMask order_ref kMaxProbeLength (hash order_ref).

Definition lookup (order_ref : Z) (m : OrderRefMap) : option OrderLocation :=
  value_at m <$> lookup_slot order_ref m.

Definition remove (order_ref : Z) (m : OrderRefMap) : OrderRefMap :=
  match lookup_slot order_ref m with
  | Some slot => mkMap (om_ready m) (<[slot := kTombstone]> (om_keys m)) (om_values m) (u32 (om_count m - 1))
  | None => m
  end.

Definition size (m : OrderRefMap) : Z := om_count m.

(** The location of an order after its level moved by [direction]. *)
Definition fixup_location (sym sd from_level direction : Z) (loc : OrderLocation) : OrderLocation :=
  if (symbol_idx loc =? sym) && (side loc =? sd) && (from_level <=? level_idx loc)
  then mkLoc (symbol_idx loc) (side loc) (u16 (level_idx loc + direction)) (slot_idx loc)
  else loc.

(** [fixup_levels] visits every slot; a slot without a live key is skipped. *)
Definition fixup_levels (sym sd from_level direction : Z) (m : OrderRefMap) : OrderRefMap :=
  mkMap (om_ready m) (om_keys m)
    (map_imap (fun i k =>
       if (k =? kEmptyKey) || (k =? kTombstone) then None
       else Some (fixup_location sym sd from_level direction (value_at m i))) (om_keys m) ∪ om_values m)
    (om_count m).

(** ** Specification: a finite map

    [repr m M]: the table [m] stores exactly the associations of [M], each key
    reachable along its probe sequence within the probe limit, and the entry
    counter is the number of associations. *)
Definition live (k : Z) : Prop := k <> kEmptyKey /\ k <> kTombstone.

Definition reach (m : OrderRefMap) (k s : Z) : Prop :=
  reachable 23 (key_at m) (hash k) k (Z.of_nat kMaxProbeLength) s.

Record repr (m : OrderRefMap) (M : gmap Z OrderLocation) : Prop := {
  repr_ready : om_ready m = true;
  repr_sound : forall s, 0 <= s < kCapacity -> live (key_at m s) ->
    M !! key_at m s = Some (value_at m s) /\ reach m (key_at m s) s;
  repr_complete : forall k v, M !! k = Some v ->
    live k /\ exists s, 0 <= s < kCapacity /\ key_at m s = k;
  repr_count : om_count m = Z.of_nat (base.size M);
  repr_max : om_count m <= kMaxEntries;
}.

Lemma kCapacity_eq : kCapacity = 2 ^ 23.
Proof. done. Qed.

Lemma kMask_eq : kMask = 2 ^ 23 - 1.
Proof. done. Qed.

Lemma hash_range k : 0 <= hash k < 2 ^ 23.
Proof.
  unfold hash. cbv zeta. generalize (Z.lxor (u64 (Z.lxor (u64 (Z.lxor k (Z.shiftr k 30) * 0xBF58476D1CE4E5B9))
    (Z.shiftr (u64 (Z.lxor k (Z.shiftr k 30) * 0xBF58476D1CE4E5B9)) 27) * 0x94D049BB133111EB))
    (Z.shiftr (u64 (Z.lxor (u64 (Z.lxor k (Z.shiftr k 30) * 0xBF58476D1CE4E5B9))
    (Z.shiftr (u64 (Z.lxor k (Z.shiftr k 30) * 0xBF58476D1CE4E5B9)) 27) * 0x94D049BB133111EB)) 31)).
  intros z. pose proof (wrap_u_range 64 (z * kFibMul) ltac:(lia)) as [H1 H2].
  rewrite Z.shiftr_div_pow2 by (unfold kShift; lia). change (2 ^ kShift) with (2 ^ 41).
  assert (0 <= u64 (z * kFibMul) / 2 ^ 41 < 2 ^ 23).
  { split; [apply Z.div_pos; lia|]. apply Z.div_lt_upper_bound; lia. }
  rewrite wrap_u_id; [done|]. unfold in_u. lia.
Qed.

Lemma tombstone_nonzero : kTombstone <> kEmptyKey.
Proof. done. Qed.

Lemma invalid_ref_false m k : om_ready m = true -> live k -> invalid_ref m k = false.
Proof. unfold invalid_ref. intros -> [??]. simpl. apply orb_false_iff; split; by apply Z.eqb_neq. Qed.

Lemma invalid_ref_live m k : invalid_ref m k = false -> om_ready m = true /\ live k.
Proof. unfold invalid_ref, live. intros. split_guards. split; [done|]. split; by apply Z.eqb_neq. Qed.

(** *** Search *)
Lemma lookup_slot_Some m k s :
  om_ready m = true -> live k -> lookup_slot k m = Some s <-> key_at m s = k /\ reach m k s.
Proof.
  intros Hr Hk. unfold lookup_slot. rewrite invalid_ref_false, kMask_eq by done.
  apply probe_find_Some; [lia | apply hash_range | done].
Qed.

Lemma lookup_slot_repr m M k s :
  repr m M -> lookup_slot k m = Some s ->
  0 <= s < kCapacity /\ live k /\ key_at m s = k /\ reach m k s /\ M !! k = Some (value_at m s).
Proof.
  intros HR Hs. pose proof (repr_ready _ _ HR) as Hr.
  destruct (invalid_ref m k) eqn:Hi; [unfold lookup_slot in Hs; by rewrite Hi in Hs|].
  apply invalid_ref_live in Hi as [_ Hk].
  apply lookup_slot_Some in Hs as [Hkey Hreach]; [|done..].
  assert (0 <= s < kCapacity) by (rewrite kCapacity_eq; by eapply reachable_range).
  destruct (repr_sound _ _ HR s) as [HM _]; [done | by rewrite Hkey |]. by rewrite Hkey in HM.
Qed.

Lemma lookup_slot_None m M k : repr m M -> lookup_slot k m = None -> M !! k = None.
Proof.
  intros HR Hs. destruct (M !! k) as [v|] eqn:HM; [|done]. exfalso.
  destruct (repr_complete _ _ HR k v HM) as [Hk (s & Hs' & Hkey)].
  destruct (repr_sound _ _ HR s) as [_ Hreach]; [done | by rewrite Hkey |]. rewrite Hkey in Hreach.
  assert (lookup_slot k m = Some s) by (apply lookup_slot_Some; [apply HR | done | done]). congruence.
Qed.

Lemma lookup_repr m M k : repr m M -> lookup k m = M !! k.
Proof.
  intros HR. unfold lookup. destruct (lookup_slot k m) as [s|] eqn:E; simpl.
  - by apply (lookup_slot_repr m M) in E as (_ & _ & _ & _ & ->).
  - by rewrite (lookup_slot_None m M).
Qed.

Lemma repr_keys_live m M k : repr m M -> is_Some (M !! k) -> live k.
Proof. intros HR [v Hv]. by apply (repr_complete _ _ HR k v). Qed.

(** A live key is stored once. *)
Lemma repr_slot_unique m M s t :
  repr m M -> 0 <= s < kCapacity -> 0 <= t < kCapacity -> live (key_at m s) ->
  key_at m s = key_at m t -> s = t.
Proof.
  intros HR Hs Ht Hl E.
  destruct (repr_sound _ _ HR s Hs Hl) as [_ Hrs].
  destruct (repr_sound _ _ HR t Ht) as [_ Hrt]; [by rewrite <- E|]. rewrite <- E in Hrt.
  eapply reachable_unique; [exact Hrs | exact Hrt | done | done].
Qed.

(** *** Writes to a value already stored *)
Lemma key_at_set_value s loc m t : key_at (set_value s loc m) t = key_at m t.
Proof. done. Qed.

Lemma value_at_set_value s loc m t :
  value_at (set_value s loc m) t = if decide (s = t) then loc else value_at m t.
Proof. apply sget_insert. Qed.

Lemma set_value_repr m M k s loc :
  repr m M -> lookup_slot k m = Some s -> repr (set_value s loc m) (<[k := loc]> M).
Proof.
  intros HR Hs. destruct (lookup_slot_repr m M k s HR Hs) as (Hrange & Hlive & Hkey & Hreach & HM).
  split; [apply HR | | | |].
  - intros t Ht Hlt. rewrite key_at_set_value in Hlt |- *. rewrite value_at_set_value.
    destruct (repr_sound _ _ HR t Ht Hlt) as [HMt Hrt]. split; [|done]. case_decide; subst.
    + by rewrite lookup_insert_eq.
    + rewrite lookup_insert_ne; [done|]. intros Heq.
      apply H, (repr_slot_unique m M); rewrite ?Hkey; done.
  - intros k' v. rewrite lookup_insert. case_decide; subst; intros Hv.
    + split; [done|]. by exists s.
    + by apply (repr_complete _ _ HR k' v).
  - simpl. rewrite map_size_insert_Some by (by eexists). apply HR.
  - apply HR.
Qed.

(** *** Removal *)
Lemma remove_repr m M k : repr m M -> repr (remove k m) (delete k M).
Proof.
  intros HR. unfold remove. destruct (lookup_slot k m) as [s|] eqn:Hs; cycle 1.
  { rewrite delete_id by by eapply lookup_slot_None. done. }
  destruct (lookup_slot_repr m M k s HR Hs) as (Hrange & Hlive & Hkey & Hreach & HM).
  set (m' := mkMap _ _ _ _).
  assert (HK : forall t, key_at m' t = if decide (s = t) then kTombstone else key_at m t) by (intros; apply sget_insert).
  pose proof (map_size_delete_Some k M (mk_is_Some _ _ HM)) as Hsize.
  assert (base.size M <> 0)%nat by (intros E; apply map_size_empty_inv in E; subst M; by rewrite lookup_empty in HM).
  pose proof (repr_count _ _ HR) as Hcount. pose proof (repr_max _ _ HR) as Hmax.
  assert (kMaxEntries < 2 ^ 32) by done.
  split; [apply HR | | | |].
  - intros t Ht Hlt. rewrite HK in Hlt |- *. case_decide; [by destruct Hlt|].
    destruct (repr_sound _ _ HR t Ht Hlt) as [HMt Hrt]. split.
    + rewrite lookup_delete_ne; [done|]. intros Heq.
      apply H1, (repr_slot_unique m M); rewrite ?Hkey; done.
    + eapply reachable_write; [done|done|destruct Hlt; congruence|done].
  - intros k' v. rewrite lookup_delete. case_decide; [done|]. intros Hv.
    destruct (repr_complete _ _ HR k' v Hv) as [Hl (t & Ht & Hkt)]. split; [done|].
    exists t. split; [done|]. rewrite HK. case_decide; [congruence|done].
  - simpl. rewrite wrap_u_id by (unfold in_u; lia). lia.
  - simpl. rewrite wrap_u_id by (unfold in_u; lia). lia.
Qed.

(** *** Insertion *)
Lemma key_at_put s k loc m t :
  key_at (put s k loc m) t = if decide (s = t) then k else key_at m t.
Proof. apply sget_insert. Qed.

Lemma value_at_put s k loc m t :
  value_at (put s k loc m) t = if decide (s = t) then loc else value_at m t.
Proof. apply sget_insert. Qed.

(** Storing an absent key in a free slot reachable along its probe sequence. *)
Lemma put_repr m M k s loc :
  repr m M -> live k -> M !! k = None -> ~ live (key_at m s) -> reach m k s ->
  om_count m < kMaxEntries -> repr (put s k loc m) (<[k := loc]> M).
Proof.
  intros HR Hk HM Hfree Hreach Hcount.
  assert (Hs : 0 <= s < kCapacity) by (rewrite kCapacity_eq; by eapply reachable_range).
  assert (Hold : forall t, 0 <= t < kCapacity -> key_at m t <> k).
  { intros t Ht E. destruct (repr_sound _ _ HR t Ht) as [HMt _]; [by rewrite E|]. rewrite E in HMt. congruence. }
  pose proof (repr_count _ _ HR). assert (kMaxEntries < 2 ^ 32) by done.
  split; [apply HR | | | |].
  - intros t Ht. rewrite key_at_put, value_at_put. case_decide as Est; intros Hlt.
    + subst t. rewrite lookup_insert_eq. split; [done|]. destruct Hreach as (d & Hd & -> & Hc).
      exists d. split_and!; [lia|lia|done|]. intros d' Hd'. rewrite key_at_put. case_decide as E.
      * apply probe_slot_inj in E; [lia|lia| |]; unfold kMaxProbeLength in *; lia.
      * apply (Hc d' Hd').
    + destruct (repr_sound _ _ HR t Ht Hlt) as [HMt Hrt].
      assert (key_at m t <> k) by by apply Hold.
      rewrite lookup_insert_ne by congruence. split; [done|].
      eapply reachable_write; [intros; apply key_at_put | destruct Hk; done | done | done].
  - intros k' v. rewrite lookup_insert. case_decide as E; subst; intros Hv.
    + split; [done|]. exists s. split; [done|]. rewrite key_at_put. by case_decide.
    + destruct (repr_complete _ _ HR k' v Hv) as [Hl (t & Ht & Hkt)]. split; [done|].
      exists t. split; [done|]. rewrite key_at_put. case_decide; [|done]. subst. by destruct Hfree.
  - simpl. rewrite map_size_insert_None by done. rewrite wrap_u_id by (unfold in_u; lia). lia.
  - simpl. rewrite wrap_u_id by (unfold in_u; lia). lia.
Qed.

(** Every slot of the probe window of [k] holds a live key. *)
Definition window_full (m : OrderRefMap) (k : Z) : Prop :=
  forall e, 0 <= e < Z.of_nat kMaxProbeLength -> live (key_at m (probe_slot 23 (hash k) e)).

(** An empty slot is left in the probe window of [k]. *)
Definition has_room (m : OrderRefMap) (k : Z) : Prop :=
  exists e, 0 <= e < Z.of_nat kMaxProbeLength /\ key_at m (probe_slot 23 (hash k) e) = kEmptyKey.

(** The probe window of [k] ends, or meets an empty slot, before [k]. *)
Definition absent (m : OrderRefMap) (k : Z) : Prop :=
  clear_to 23 (key_at m) (hash k) k (Z.of_nat kMaxProbeLength) \/
  exists e, 0 <= e /\ clear_to 23 (key_at m) (hash k) k e /\ key_at m (probe_slot 23 (hash k) e) = kEmptyKey.

Lemma stored_reach m M k v : repr m M -> M !! k = Some v -> exists s, key_at m s = k /\ reach m k s.
Proof.
  intros HR HM. destruct (repr_complete _ _ HR k v HM) as [Hk (s & Hs & Hkey)].
  destruct (repr_sound _ _ HR s Hs) as [_ Hr]; [by rewrite Hkey|]. rewrite Hkey in Hr. by exists s.
Qed.

Lemma absent_None m M k : repr m M -> live k -> absent m k -> M !! k = None.
Proof.
  intros HR [Hk _] Ha. destruct (M !! k) as [v|] eqn:HM; [|done]. exfalso.
  destruct (stored_reach _ _ _ _ HR HM) as (s & Hkey & d & Hd & -> & Hcd).
  destruct Ha as [Hc|(e & He & Hc & Hempty)]; [by destruct (Hc d Hd)|].
  destruct (Z.lt_total d e) as [?|[->|?]].
  - by destruct (Hc d ltac:(lia)).
  - congruence.
  - by destruct (Hcd e ltac:(lia)).
Qed.

(** The tombstone remembered by the insertion loop after [d] probes. *)
Definition tomb_ok (m : OrderRefMap) (k d tomb : Z) : Prop :=
  tomb = kCapacity /\ (forall e, 0 <= e < d -> key_at m (probe_slot 23 (hash k) e) <> kTombstone)
  \/ exists t, 0 <= t < d /\ tomb = probe_slot 23 (hash k) t /\ key_at m tomb = kTombstone.

Lemma tomb_reach m k d tomb :
  d <= Z.of_nat kMaxProbeLength -> clear_to 23 (key_at m) (hash k) k d ->
  tomb_ok m k d tomb -> tomb <> kCapacity -> reach m k tomb /\ ~ live (key_at m tomb).
Proof.
  intros Hd Hc [[? _]|(t & Ht & -> & Hkt)] Hne; [done|]. split.
  - exists t. split; [lia|]. split; [done|]. eapply clear_to_mono; [|done]. lia.
  - rewrite Hkt. by intros [_ ?].
Qed.

(** What the insertion loop can do. *)
Definition insert_outcome (m : OrderRefMap) (k : Z) (loc : OrderLocation) (r : bool * OrderRefMap) : Prop :=
  match r with
  | (true, m') =>
      (exists s, key_at m s = k /\ reach m k s /\ m' = set_value s loc m)
      \/ (absent m k /\ om_count m < kMaxEntries /\
          exists s, reach m k s /\ ~ live (key_at m s) /\ m' = put s k loc m)
  | (false, m') => m' = m /\ absent m k /\ (kMaxEntries <= om_count m \/ window_full m k)
  end.

Lemma insert_loop_outcome m k loc fuel d tomb :
  live k -> 0 <= d -> d + Z.of_nat fuel = Z.of_nat kMaxProbeLength ->
  clear_to 23 (key_at m) (hash k) k d -> tomb_ok m k d tomb ->
  insert_outcome m k loc (insert_loop m k loc fuel (probe_slot 23 (hash k) d) tomb).
Proof.
  intros Hk. revert d tomb. induction fuel as [|fuel IH]; intros d tomb Hd Hf Hc Ht; cbn [insert_loop].
  - replace d with (Z.of_nat kMaxProbeLength) in * by lia.
    destruct (Z.eqb_spec tomb kCapacity) as [->|Hne]; simpl.
    { split; [done|]. split; [by left|]. right. destruct Ht as [[_ Ht]|(t & _ & Et & _)].
      - intros e He. split; [by apply (Hc e)|by apply Ht].
      - pose proof (probe_slot_range 23 ltac:(lia) (hash k) t). rewrite kCapacity_eq in Et. lia. }
    destruct (tomb_reach m k _ tomb (Z.le_refl _) Hc Ht Hne).
    case_if; simpl.
    + right. split; [by left|]. split; [lia|]. by exists tomb.
    + split; [done|]. split; [by left|]. left. lia.
  - rewrite kMask_eq, !probe_slot_next by done.
    set (s := probe_slot 23 (hash k) d). set (key := key_at m s).
    assert (Hreach : reach m k s) by (exists d; split; [lia|done]).
    destruct (Z.eqb_spec key k) as [Ek|Ek]; [left; by exists s|].
    destruct (Z.eqb_spec key kEmptyKey) as [E0|E0].
    + assert (Ha : absent m k) by (right; by exists d).
      rewrite E0. simpl. destruct (Z.leb_spec kMaxEntries (om_count m)); simpl; [tauto|].
      right. split; [done|]. split; [lia|]. destruct (Z.eqb_spec tomb kCapacity) as [->|Hne].
      * exists s. fold key. rewrite E0. split_and!; [done|by intros [? _]|done].
      * destruct (tomb_reach m k d tomb ltac:(lia) Hc Ht Hne). by exists tomb.
    + assert (clear_to 23 (key_at m) (hash k) k (d + 1)) by by apply clear_to_succ.
      case_if; [split_guards|]; (apply IH; [lia|lia|done|]).
      * right. exists d. split; [lia|]. split; [done|]. by apply Z.eqb_eq.
      * destruct Ht as [[-> Ht]|(t & ? & ?)]; [left|right; exists t; split; [lia|done]].
        split; [done|]. intros e He. destruct (Z.eq_dec e d) as [->|]; [|apply Ht; lia].
        fold s key. rewrite Z.eqb_refl, andb_true_r in Heqb. by apply Z.eqb_neq.
Qed.

Lemma insert_outcome_ok m k loc :
  om_ready m = true -> live k -> invalid_location loc = false -> insert_outcome m k loc (insert k loc m).
Proof.
  intros Hr Hk Hl. unfold insert. rewrite invalid_ref_false, Hl by done. cbn [orb].
  pose proof (hash_range k). rewrite <- (probe_slot_0 23 (hash k)) at 1 by lia.
  apply insert_loop_outcome; [done|lia|done|by intros ??; lia|]. left. split; [done|intros; lia].
Qed.

Lemma insert_repr m M k loc ok m' :
  repr m M -> insert k loc m = (ok, m') ->
  if ok then live k /\ invalid_location loc = false /\ repr m' (<[k := loc]> M) else m' = m.
Proof.
  intros HR E. destruct (invalid_ref m k || invalid_location loc) eqn:Hi.
  { unfold insert in E. rewrite Hi in E. by injection E as <- <-. }
  apply orb_false_iff in Hi as [Hi Hl]. apply invalid_ref_live in Hi as [Hr Hk].
  pose proof (insert_outcome_ok m k loc Hr Hk Hl) as Ho. rewrite E in Ho. destruct ok; [|apply Ho].
  split_and!; [done..|]. destruct Ho as [(s & Hs & Hrs & ->)|(Ha & Hc & s & Hrs & Hf & ->)].
  - apply set_value_repr; [done|]. by apply lookup_slot_Some.
  - apply put_repr; try done. by apply (absent_None m).
Qed.

Lemma insert_refused m k loc m' :
  om_ready m = true -> live k -> invalid_location loc = false -> insert k loc m = (false, m') ->
  absent m k /\ (kMaxEntries <= om_count m \/ window_full m k).
Proof.
  intros Hr Hk Hl E. pose proof (insert_outcome_ok m k loc Hr Hk Hl) as Ho. rewrite E in Ho. by destruct Ho.
Qed.

Lemma insert_has_room m k loc :
  om_ready m = true -> live k -> invalid_location loc = false -> om_count m < kMaxEntries ->
  has_room m k -> fst (insert k loc m) = true.
Proof.
  intros Hr Hk Hl Hc (e & He & Hkey). destruct (insert k loc m) as [[] m'] eqn:E; [done|].
  apply insert_refused in E as [_ [?|Hfull]]; [lia| |done..].
  destruct (Hfull e He) as [? _]. congruence.
Qed.

(** *** Pre-flight check *)
Lemma can_insert_loop_true m k fuel d :
  0 <= d -> clear_to 23 (key_at m) (hash k) k d ->
  can_insert_loop m k fuel (probe_slot 23 (hash k) d) = true ->
  exists e, d <= e < d + Z.of_nat fuel /\ clear_to 23 (key_at m) (hash k) k e /\
            key_at m (probe_slot 23 (hash k) e) = kEmptyKey.
Proof.
  revert d. induction fuel as [|fuel IH]; intros d Hd Hc; cbn [can_insert_loop]; [done|].
  set (key := key_at m _). destruct (Z.eqb_spec key k); [done|].
  destruct (Z.eqb_spec key kEmptyKey) as [E0|E0].
  - intros _. exists d. split; [lia|done].
  - rewrite kMask_eq, probe_slot_next by done. intros H.
    destruct (IH (d + 1)) as (e & ? & ?); [lia|by apply clear_to_succ|done|].
    exists e. split; [lia|done].
Qed.

Lemma can_insert_spec m M k :
  repr m M -> can_insert k m = true ->
  live k /\ M !! k = None /\ om_count m < kMaxEntries /\ has_room m k.
Proof.
  intros HR. unfold can_insert. case_if; [done|]. case_if; [done|]. intros Hl.
  apply invalid_ref_live in Heqb as [_ Hk]. pose proof (hash_range k).
  rewrite <- (probe_slot_0 23 (hash k)) in Hl by lia.
  apply can_insert_loop_true in Hl as (e & He & Hc & Hkey); [|lia|by intros ??; lia].
  split_and!; [done| |lia|].
  - eapply absent_None; [done|done|]. right. exists e. split; [lia|done].
  - exists e. split; [unfold kMaxProbeLength in *; lia|done].
Qed.

(** Room for a key survives removals and in-place updates. *)
Lemma has_room_set_value m k s loc : has_room m k -> has_room (set_value s loc m) k.
Proof. done. Qed.

Lemma has_room_remove m M k k' : repr m M -> has_room m k -> has_room (remove k' m) k.
Proof.
  intros HR (e & He & Hkey). unfold remove. destruct (lookup_slot k' m) as [s|] eqn:Hs; [|by exists e].
  destruct (lookup_slot_repr m M k' s HR Hs) as (_ & [Hl _] & Hks & _).
  exists e. split; [done|]. unfold key_at. simpl. rewrite sget_insert_ne; [done|]. intros ->. congruence.
Qed.

(** *** Bulk relocation *)
Lemma value_at_fixup sym sd fl dir m s :
  live (key_at m s) ->
  value_at (fixup_levels sym sd fl dir m) s = fixup_location sym sd fl dir (value_at m s).
Proof.
  intros [H0 Ht]. unfold value_at at 1, sget. cbn [fixup_levels om_values].
  rewrite lookup_union, map_lookup_imap. unfold key_at, sget in H0, Ht.
  destruct (om_keys m !! s) as [k|] eqn:E; cbn [default mbind option_bind] in *; [|done].
  destruct (Z.eqb_spec k kEmptyKey); [done|]. destruct (Z.eqb_spec k kTombstone); [done|].
  cbn [orb]. by rewrite union_Some_l.
Qed.

Lemma fixup_repr m M sym sd fl dir :
  repr m M -> repr (fixup_levels sym sd fl dir m) (fixup_location sym sd fl dir <$> M).
Proof.
  intros HR. split; [apply HR | | | |].
  - intros s Hs Hl. destruct (repr_sound _ _ HR s Hs Hl) as [HM Hr].
    change (key_at (fixup_levels sym sd fl dir m) s) with (key_at m s). rewrite lookup_fmap, HM.
    split; [|done]. simpl. f_equal. symmetry. by apply value_at_fixup.
  - intros k v. rewrite lookup_fmap. destruct (M !! k) as [v'|] eqn:E; [|done]. intros _.
    by apply (repr_complete _ _ HR k v').
  - rewrite map_size_fmap. apply HR.
  - apply HR.
Qed.

(** *** Initial state *)
Definition fresh : OrderRefMap := snd (init true unmapped).

Lemma empty_repr vals : repr (mkMap true ∅ vals 0) ∅.
Proof.
  split; [done| | | |done].
  - intros s _ [H _]. unfold key_at, sget in H. simpl in H. by rewrite lookup_empty in H.
  - intros k v. by rewrite lookup_empty.
  - by rewrite map_size_empty.
Qed.

Lemma fresh_repr : repr fresh ∅.
Proof. apply empty_repr. Qed.

#[global] Arguments insert_loop : simpl never.
#[global] Arguments can_insert_loop : simpl never.
#[global] Arguments hash : simpl never.

End refmap.

(** ** Interface: what the book relies on

    The promises of the reference map to its clients, independent of how the
    table is laid out: it behaves as a finite map, and a positive pre-flight
    check guarantees the insertion that follows. *)
Class OrderIndex (R : OrderRefMap -> gmap Z OrderLocation -> Prop)
    (room : OrderRefMap -> Z -> Prop) : Prop := {
  index_lookup m M k : R m M -> refmap.lookup k m = M !! k;
  index_lookup_slot m M k s : R m M -> refmap.lookup_slot k m = Some s -> is_Some (M !! k);
  index_lookup_none m M k : R m M -> refmap.lookup_slot k m = None -> M !! k = None;
  index_live m M k : R m M -> is_Some (M !! k) -> refmap.live k;
  index_ready m M : R m M -> om_ready m = true;
  index_update m M k s loc :
    R m M -> refmap.lookup_slot k m = Some s -> R (refmap.set_value s loc m) (<[k := loc]> M);
  index_remove m M k : R m M -> R (refmap.remove k m) (delete k M);
  index_insert m M k loc ok m' :
    R m M -> refmap.insert k loc m = (ok, m') ->
    if ok then refmap.live k /\ R m' (<[k := loc]> M) else m' = m;
  index_can_insert m M k :
    R m M -> refmap.can_insert k m = true -> refmap.live k /\ M !! k = None /\ room m k;
  index_room m M k loc :
    R m M -> refmap.live k -> room m k -> refmap.invalid_location loc = false ->
    fst (refmap.insert k loc m) = true;
  index_room_update m k s loc : room m k -> room (refmap.set_value s loc m) k;
  index_room_remove m M k k' : R m M -> room m k -> room (refmap.remove k' m) k;
  index_count m M : R m M -> refmap.size m = Z.of_nat (base.size M);
}.

(** The room the pre-flight check establishes. *)
Definition index_has_room (m : OrderRefMap) (k : Z) : Prop :=
  om_count m < refmap.kMaxEntries /\ refmap.has_room m k.

Lemma remove_count_le m M k : refmap.repr m M -> om_count (refmap.remove k m) <= om_count m.
Proof.
  intros HR. pose proof (refmap.repr_count _ _ HR).
  rewrite (refmap.repr_count _ _ (refmap.remove_repr _ _ k HR)).
  destruct (M !! k) eqn:E; [rewrite map_size_delete_Some by done | rewrite map_size_delete_None by done]; lia.
Qed.

#[export] Instance OrderRefMap_index : OrderIndex refmap.repr index_has_room.
Proof.
  split.
  - intros. by apply refmap.lookup_repr.
  - intros ???? HR Hs. apply (refmap.lookup_slot_repr _ _ _ _ HR) in Hs as (_&_&_&_&->). by eexists.
  - apply refmap.lookup_slot_None.
  - apply refmap.repr_keys_live.
  - by intros ?? [].
  - intros. by apply refmap.set_value_repr.
  - apply refmap.remove_repr.
  - intros m M k loc ok m' HR E. apply (refmap.insert_repr _ _ _ _ _ _ HR) in E. by destruct ok; [destruct E as (?&?&?)|].
  - intros m M k HR Hc. apply (refmap.can_insert_spec _ _ _ HR) in Hc as (?&?&?&?). done.
  - intros m M k loc HR ? [??] ?. apply refmap.insert_has_room; try done. apply HR.
  - done.
  - intros m M k k' HR [??]. split; [pose proof (remove_count_le m M k' HR); lia | by eapply refmap.has_room_remove].
  - by intros ?? [].
Qed.

(** ** Histories

    A history of client calls on the table, replayed beside a finite map that
    takes over exactly the calls the table accepted. *)
Inductive map_op :=
  | OpInsert (order_ref : Z) (loc : OrderLocation)
  | OpRemove (order_ref : Z)
  | OpFixup (sym sd from_level direction : Z)
  | OpClear.

Definition step_op (st : OrderRefMap * gmap Z OrderLocation) (op : map_op) : OrderRefMap * gmap Z OrderLocation :=
  let '(m, M) := st in
  match op with
  | OpInsert k loc => let '(ok, m') := refmap.insert k loc m in (m', if ok then <[k := loc]> M else M)
  | OpRemove k => (refmap.remove k m, delete k M)
  | OpFixup sym sd fl dir => (refmap.fixup_levels sym sd fl dir m, refmap.fixup_location sym sd fl dir <$> M)
  | OpClear => (refmap.clear m, ∅)
  end.

Definition run_ops (ops : list map_op) : OrderRefMap * gmap Z OrderLocation :=
  foldl step_op (refmap.fresh, ∅) ops.

Lemma clear_repr m M : refmap.repr m M -> refmap.repr (refmap.clear m) ∅.
Proof. intros HR. unfold refmap.clear. rewrite (refmap.repr_ready _ _ HR). apply refmap.empty_repr. Qed.

Lemma step_op_repr st op : refmap.repr st.1 st.2 -> refmap.repr (step_op st op).1 (step_op st op).2.
Proof.
  destruct st as [m M]. intros HR. destruct op as [k loc|k| |]; simpl.
  - destruct (refmap.insert k loc m) as [ok m'] eqn:E. simpl.
    apply (refmap.insert_repr _ _ _ _ _ _ HR) in E. destruct ok; [apply E|by subst].
  - by apply refmap.remove_repr.
  - by apply refmap.fixup_repr.
  - by eapply clear_repr.
Qed.

Lemma run_ops_repr ops : refmap.repr (run_ops ops).1 (run_ops ops).2.
Proof.
  unfold run_ops. assert (H : refmap.repr (refmap.fresh, ∅ : gmap Z OrderLocation).1 (refmap.fresh, ∅ : gmap Z OrderLocation).2)
    by apply refmap.fresh_repr.
  revert H. generalize (refmap.fresh, ∅ : gmap Z OrderLocation). induction ops as [|op ops IH]; intros st H; [done|].
  simpl. by apply IH, step_op_repr.
Qed.

(** C9: the reference map refines a finite map: after any history of
    insertions, removals, bulk relocations and clears, [lookup] returns for
    every reference exactly what the finite map built from the accepted calls
    holds, and [size] is its number of entries, in spite of the bounded probe
    window and of tombstone reuse. *)
Theorem refmap_refines_finite_map (ops : list map_op) (order_ref : Z) :
  refmap.lookup order_ref (run_ops ops).1 = (run_ops ops).2 !! order_ref
  /\ refmap.size (run_ops ops).1 = Z.of_nat (size (run_ops ops).2).
Proof.
  pose proof (run_ops_repr ops) as HR. split; [by apply refmap.lookup_repr | apply HR].
Qed.

(** an insertion is refused exactly when the reference is a sentinel, the
    location is out of range, or the reference is new and either the load limit
    is reached or all 256 slots of its probe window hold live keys. *)
Theorem refmap_insert_refused_iff (ops : list map_op) (order_ref : Z) (loc : OrderLocation) :
  fst (refmap.insert order_ref loc (run_ops ops).1) = false <->
  ~ refmap.live order_ref \/ refmap.invalid_location loc = true \/
  (run_ops ops).2 !! order_ref = None /\
  (refmap.kMaxEntries <= refmap.size (run_ops ops).1 \/ refmap.window_full (run_ops ops).1 order_ref).
Proof.
  pose proof (run_ops_repr ops) as HR. destruct (run_ops ops) as [m M]; simpl in *.
  pose proof (refmap.repr_ready _ _ HR) as Hr.
  destruct (decide (refmap.invalid_ref m order_ref || refmap.invalid_location loc = true)) as [Hi|Hi].
  { unfold refmap.insert. rewrite Hi. split; [intros _|done]. apply orb_true_iff in Hi as [Hi|Hi]; [left|tauto].
    intros Hl. by rewrite refmap.invalid_ref_false in Hi. }
  apply not_true_iff_false, orb_false_iff in Hi as [Hi Hl]. apply refmap.invalid_ref_live in Hi as [_ Hk].
  pose proof (refmap.insert_outcome_ok m order_ref loc Hr Hk Hl) as Ho.
  destruct (refmap.insert order_ref loc m) as [[] m']; simpl in *; cycle 1.
  { split; [intros _|done]. right; right. destruct Ho as (_ & Ha & ?). split; [|done]. by apply (refmap.absent_None m). }
  split; [done|]. intros [?|[?|[HM Hf]]]; [done|congruence|].
  destruct Ho as [(s & Hs & Hrs & _)|(_ & Hc & s & Hrs & Hfree & _)].
  - assert (Hsl : refmap.lookup_slot order_ref m = Some s) by by apply refmap.lookup_slot_Some.
    apply (refmap.lookup_slot_repr _ _ _ _ HR) in Hsl as (_ & _ & _ & _ & ?). congruence.
  - destruct Hf as [?|Hf]; [unfold refmap.size in *; lia|].
    destruct Hrs as (d & Hd & -> & _). by destruct (Hfree (Hf d Hd)).
Qed.
