(* ===== verification/Level.v ===== *)
(** * Price level (OrderSlot and PriceLevel of luv_arena.hpp, slot list of LOBEngine)

    A price level holds sixteen order slots threaded into an intrusive doubly
    linked list by slot index.  The invariant relates a level to the queue of
    slot indices its list spells out; the list operations of the book engine
    are shown to append to and delete from that queue. *)
From Stdlib Require Import ZArith Lia ZifyBool.
From S2P Require Import Prelude Config.

(** ** Data *)
Record OrderSlot := mkSlot {
  order_id : Z;   (* uint64_t *)
  qty : Z;        (* int64_t *)
  flags : Z;      (* uint32_t *)
  next_idx : Z;   (* int32_t *)
  prev_idx : Z;   (* int32_t *)
}.

Record PriceLevel := mkLevel {
  orders : list OrderSlot;   (* OrderSlot orders[16] *)
  price : Z;                 (* int64_t *)
  total_qty : Z;             (* int64_t *)
  order_count : Z;           (* int32_t *)
  head_idx : Z;              (* int32_t *)
}.

Definition kFlagBid : Z := Z.shiftl 1 0.
Definition kFlagActive : Z := Z.shiftl 1 1.

(** [OrderSlot{}] and the all-zero bytes of a freshly mapped slab. *)
Definition default_slot : OrderSlot := mkSlot 0 0 0 (-1) (-1).
Definition zero_slot : OrderSlot := mkSlot 0 0 0 0 0.
Definition zero_level : PriceLevel := mkLevel (replicate (Z.to_nat kMaxOrdersPerLevel) zero_slot) 0 0 0 0.

Definition is_active (s : OrderSlot) : bool := negb (Z.land (flags s) kFlagActive =? 0).
Definition is_bid (s : OrderSlot) : bool := negb (Z.land (flags s) kFlagBid =? 0).

Definition slot_at (lvl : PriceLevel) (i : Z) : OrderSlot := lget default_slot (orders lvl) i.

(** Field assignments. *)
Definition set_next (v : Z) (s : OrderSlot) := mkSlot (order_id s) (qty s) (flags s) v (prev_idx s).
Definition set_prev (v : Z) (s : OrderSlot) := mkSlot (order_id s) (qty s) (flags s) (next_idx s) v.
Definition set_qty (v : Z) (s : OrderSlot) := mkSlot (order_id s) v (flags s) (next_idx s) (prev_idx s).
Definition upd_slot (i : Z) (f : OrderSlot -> OrderSlot) (lvl : PriceLevel) : PriceLevel :=
  mkLevel (lset i (f (slot_at lvl i)) (orders lvl)) (price lvl) (total_qty lvl) (order_count lvl) (head_idx lvl).
Definition set_head (h : Z) (lvl : PriceLevel) : PriceLevel :=
  mkLevel (orders lvl) (price lvl) (total_qty lvl) (order_count lvl) h.
Definition set_totals (q n : Z) (lvl : PriceLevel) : PriceLevel :=
  mkLevel (orders lvl) (price lvl) q n (head_idx lvl).
Definition set_price (p : Z) (lvl : PriceLevel) : PriceLevel :=
  mkLevel (orders lvl) p (total_qty lvl) (order_count lvl) (head_idx lvl).

(** ** Operations *)
Definition reset (lvl : PriceLevel) : PriceLevel :=
  mkLevel ((fun _ => default_slot) <$> orders lvl) 0 0 0 (-1).

Fixpoint alloc_from (l : list OrderSlot) (i : Z) : Z :=
  match l with
  | [] => -1
  | s :: l => if negb (is_active s) then i else alloc_from l (i + 1)
  end.

Definition alloc_slot (lvl : PriceLevel) : Z := alloc_from (orders lvl) 0.

(** [while (lvl.orders[cur].next_idx != -1) cur = lvl.orders[cur].next_idx;] *)
Fixpoint walk_to_tail (lvl : PriceLevel) (fuel : nat) (cur : Z) : Z :=
  match fuel with
  | O => cur
  | S fuel => if next_idx (slot_at lvl cur) =? -1 then cur else walk_to_tail lvl fuel (next_idx (slot_at lvl cur))
  end.

Definition link_slot (slot_idx : Z) (lvl : PriceLevel) : PriceLevel :=
  let lvl := upd_slot slot_idx (set_next (-1)) lvl in
  if head_idx lvl =? -1 then
    set_head slot_idx (upd_slot slot_idx (set_prev (-1)) lvl)
  else
    let cur := walk_to_tail lvl (Z.to_nat kMaxOrdersPerLevel) (head_idx lvl) in
    upd_slot slot_idx (set_prev cur) (upd_slot cur (set_next slot_idx) lvl).

Definition unlink_slot (slot_idx : Z) (lvl : PriceLevel) : PriceLevel :=
  let slot := slot_at lvl slot_idx in
  let lvl :=
    if negb (prev_idx slot =? -1) then upd_slot (prev_idx slot) (set_next (next_idx slot)) lvl
    else set_head (next_idx slot) lvl in
  let slot := slot_at lvl slot_idx in
  let lvl :=
    if negb (next_idx slot =? -1) then upd_slot (next_idx slot) (set_prev (prev_idx slot)) lvl
    else lvl in
  upd_slot slot_idx (set_next (-1)) (upd_slot slot_idx (set_prev (-1)) lvl).

Definition deactivate_slot (s : OrderSlot) : OrderSlot := mkSlot 0 0 0 (next_idx s) (prev_idx s).

(** The engine fills a free slot and links it ... *)
Definition fill_slot (ref q fl : Z) (s : OrderSlot) : OrderSlot := mkSlot ref q fl (next_idx s) (prev_idx s).
Definition push_order (i ref q fl : Z) (lvl : PriceLevel) : PriceLevel := link_slot i (upd_slot i (fill_slot ref q fl) lvl).

(** ... and unlinks a slot before it clears it. *)
Definition pop_order (i : Z) (lvl : PriceLevel) : PriceLevel := upd_slot i deactivate_slot (unlink_slot i lvl).

(** ** The queue of a level *)

(** [seg O p c q l n]: starting at [c], whose predecessor is [p], the links of
    the slots [O] spell [q], whose last element is [l], followed by [n]. *)
Fixpoint seg (O : Z -> OrderSlot) (p c : Z) (q : list Z) (l n : Z) : Prop :=
  match q with
  | [] => l = p /\ c = n
  | i :: q => c = i /\ prev_idx (O i) = p /\ seg O i (next_idx (O i)) q l n
  end.

Definition valid_slot (i : Z) : Prop := 0 <= i < kMaxOrdersPerLevel.

(** The links of a level spell the queue of slot indices [q]. *)
Record level_links (lvl : PriceLevel) (q : list Z) : Prop := {
  lo_length : length (orders lvl) = Z.to_nat kMaxOrdersPerLevel;
  lo_nodup : NoDup q;
  lo_valid : Forall valid_slot q;
  lo_chain : exists l, seg (slot_at lvl) (-1) (head_idx lvl) q l (-1);
}.

(** The level invariant: the queue holds exactly the active slots, and the
    aggregates are those of the queue. *)
Record level_wf (lvl : PriceLevel) (q : list Z) : Prop := {
  lo_links : level_links lvl q;
  lo_active : forall i, valid_slot i -> is_active (slot_at lvl i) = true <-> i ∈ q;
  lo_count : order_count lvl = Z.of_nat (length q);
  lo_total : total_qty lvl = zsum ((fun i => qty (slot_at lvl i)) <$> q);
}.

(** Between operations every resting order also has a positive quantity. *)
Definition level_ok (lvl : PriceLevel) (q : list Z) : Prop :=
  level_wf lvl q /\ forall i, i ∈ q -> 0 < qty (slot_at lvl i).

(** The orders resting at a level, oldest first. *)
Definition level_queue (lvl : PriceLevel) (q : list Z) : list (Z * Z) :=
  (fun i => (order_id (slot_at lvl i), qty (slot_at lvl i))) <$> q.

(** *** Segments *)
Lemma seg_ext O O' p c q l n :
  (forall i, i ∈ q -> next_idx (O' i) = next_idx (O i) /\ prev_idx (O' i) = prev_idx (O i)) ->
  seg O p c q l n -> seg O' p c q l n.
Proof.
  revert p c. induction q as [|i q IH]; intros p c Hext; simpl; [done|].
  destruct (Hext i) as [-> ->]; [left|]. intros (-> & ? & ?). split_and!; [done..|].
  apply IH; [|done]. intros j Hj. apply Hext. by right.
Qed.

Lemma seg_app O p c q1 q2 l n :
  seg O p c (q1 ++ q2) l n <-> exists m k, seg O p c q1 m k /\ seg O m k q2 l n.
Proof.
  revert p c. induction q1 as [|i q1 IH]; intros p c; simpl.
  - split; [eauto|]. by intros (m & k & [-> ->] & ?).
  - rewrite IH. split.
    + intros (? & ? & m & k & ? & ?). by exists m, k.
    + intros (m & k & (? & ? & ?) & ?). split_and!; [done..|]. by exists m, k.
Qed.

Lemma seg_last O p c q l n : seg O p c q l n -> q = [] /\ l = p \/ exists q', q = q' ++ [l].
Proof.
  revert p c. induction q as [|i q IH]; intros p c; simpl; [by intros [-> _]; left|].
  intros (-> & _ & [[-> ->]|[q' ->]]%IH); right; [by exists []|by exists (i :: q')].
Qed.

Lemma seg_last_elem O p c q l n : q <> [] -> seg O p c q l n -> l ∈ q.
Proof.
  intros Hne Hs. destruct (seg_last _ _ _ _ _ _ Hs) as [[? _]|[q' ->]]; [done|].
  apply elem_of_app. right. by left.
Qed.

(** Redirect the end of a non-empty segment. *)
Lemma seg_set_next O O' p c q l n n' :
  NoDup q -> q <> [] -> (forall i, i ∈ q -> prev_idx (O' i) = prev_idx (O i)) ->
  (forall i, i ∈ q -> next_idx (O' i) = if decide (i = l) then n' else next_idx (O i)) ->
  seg O p c q l n -> seg O' p c q l n'.
Proof.
  intros Hnd Hne Hprev Hnext Hseg. destruct (seg_last _ _ _ _ _ _ Hseg) as [[? _]|[q' ->]]; [done|].
  apply NoDup_app in Hnd as (_ & Hdisj & _). apply seg_app in Hseg as (m & k & H1 & H2).
  simpl in H2. destruct H2 as (-> & Hp & _ & _). apply seg_app. exists m, l. split.
  - eapply seg_ext; [|done]. intros i Hi. rewrite Hprev, Hnext by set_solver.
    rewrite decide_False; [done|]. intros ->. apply (Hdisj l Hi). by left.
  - simpl. rewrite Hprev, Hnext by set_solver. by rewrite decide_True.
Qed.

(** Redirect the start of a non-empty segment. *)
Lemma seg_set_prev O O' p p' c q l n :
  NoDup q -> q <> [] -> (forall i, i ∈ q -> next_idx (O' i) = next_idx (O i)) ->
  (forall i, i ∈ q -> prev_idx (O' i) = if decide (i = c) then p' else prev_idx (O i)) ->
  seg O p c q l n -> seg O' p' c q l n.
Proof.
  destruct q as [|i q]; [done|]. intros [Hi Hnd]%NoDup_cons _ Hnext Hprev (-> & Hp & Hseg). simpl.
  rewrite Hprev, Hnext by set_solver. rewrite decide_True by done. split_and!; [done..|].
  eapply seg_ext; [|done]. intros j Hj. rewrite Hprev, Hnext by set_solver.
  rewrite decide_False; [done|]. by intros ->.
Qed.

Lemma seg_head O p c q l n : seg O p c q l n -> (q = [] /\ c = n) \/ c ∈ q.
Proof. destruct q; simpl; [tauto|]. intros (-> & _). right. by left. Qed.

Lemma walk_to_tail_seg lvl fuel c q l p :
  (length q <= S fuel)%nat -> q <> [] -> Forall valid_slot q ->
  seg (slot_at lvl) p c q l (-1) -> walk_to_tail lvl fuel c = l.
Proof.
  revert p c fuel. induction q as [|i q IH]; intros p c fuel Hlen Hne Hv Hseg; [done|].
  destruct Hseg as (-> & _ & Hseg). apply Forall_cons in Hv as [Hi Hv].
  destruct q as [|j q].
  - destruct Hseg as [-> Hn]. destruct fuel; simpl; [done|]. by rewrite Hn.
  - simpl in Hlen. destruct fuel as [|fuel]; [lia|]. cbn [walk_to_tail].
    pose proof Hseg as (Hc & _). rewrite Hc in Hseg |- *.
    apply Forall_cons in Hv as [Hj Hv]. destruct (Z.eqb_spec j (-1)); [unfold valid_slot in *; lia|].
    eapply IH; [simpl; lia|done|by constructor|done].
Qed.

(** *** Slot updates *)
Lemma slot_at_upd lvl i f j :
  length (orders lvl) = Z.to_nat kMaxOrdersPerLevel -> valid_slot i ->
  slot_at (upd_slot i f lvl) j = if decide (i = j) then f (slot_at lvl i) else slot_at lvl j.
Proof.
  intros Hl Hi. unfold slot_at at 1. simpl. case_decide.
  - subst j. apply lget_lset_eq. rewrite Hl. unfold valid_slot in *. lia.
  - by apply lget_lset_ne.
Qed.

Lemma length_upd lvl i f : length (orders (upd_slot i f lvl)) = length (orders lvl).
Proof. apply length_lset. Qed.

(** Id, quantity and flags of a slot. *)
Definition data (s : OrderSlot) : Z * Z * Z := (order_id s, qty s, flags s).

Lemma data_active s s' : data s = data s' -> is_active s = is_active s'.
Proof. intros [=]. unfold is_active. congruence. Qed.

(** Two levels that differ in their links and totals only. *)
Definition same_data (lvl lvl' : PriceLevel) : Prop :=
  price lvl' = price lvl /\ forall j, data (slot_at lvl' j) = data (slot_at lvl j).

Lemma same_data_refl lvl : same_data lvl lvl.
Proof. done. Qed.

Lemma same_data_trans l1 l2 l3 : same_data l1 l2 -> same_data l2 l3 -> same_data l1 l3.
Proof. intros [E1 H1] [E2 H2]. split; [congruence|]. intros j. by rewrite H2. Qed.

Lemma same_data_upd lvl i f :
  length (orders lvl) = Z.to_nat kMaxOrdersPerLevel -> valid_slot i ->
  (forall s, data (f s) = data s) -> same_data lvl (upd_slot i f lvl).
Proof. intros ?? Hf. split; [done|]. intros j. rewrite slot_at_upd by done. by case_decide; subst. Qed.

Lemma same_data_head lvl h : same_data lvl (set_head h lvl).
Proof. done. Qed.

Lemma lo_range lvl q i : level_links lvl q -> i ∈ q -> valid_slot i.
Proof. intros [_ _ Hv _]. by apply Forall_forall. Qed.

Lemma level_count_bound lvl q : level_links lvl q -> (length q <= 16)%nat.
Proof.
  intros H. assert (q ⊆+ zrange 0 16) as Hsub.
  { apply NoDup_submseteq; [apply H|]. intros i Hi. apply elem_of_zrange.
    pose proof (lo_range _ _ _ H Hi). unfold valid_slot, kMaxOrdersPerLevel in *. lia. }
  apply submseteq_length in Hsub. done.
Qed.

(** *** Linking at the tail *)
Lemma link_slot_data lvl i :
  length (orders lvl) = Z.to_nat kMaxOrdersPerLevel -> valid_slot i ->
  valid_slot (walk_to_tail (upd_slot i (set_next (-1)) lvl) (Z.to_nat kMaxOrdersPerLevel) (head_idx lvl))
  \/ head_idx lvl = -1 ->
  same_data lvl (link_slot i lvl) /\ length (orders (link_slot i lvl)) = Z.to_nat kMaxOrdersPerLevel.
Proof.
  intros Hl Hi Hw. unfold link_slot. cbn [upd_slot head_idx] in *.
  destruct (Z.eqb_spec (head_idx lvl) (-1)) as [E|E].
  - split; [split; [done|]|change (orders (set_head i ?x)) with (orders x); by rewrite !length_upd]. intros j.
    change (slot_at (set_head i ?x) j) with (slot_at x j).
    rewrite !slot_at_upd by (rewrite ?length_upd; done). repeat case_decide; by subst.
  - destruct Hw as [Hw|]; [|done]. set (w := walk_to_tail _ _ _) in *. clearbody w.
    split; [split; [done|]|by rewrite !length_upd]. intros j.
    rewrite !slot_at_upd by (rewrite ?length_upd; done). repeat case_decide; by subst.
Qed.

(** Linking an inactive slot appends it to the queue. *)
Lemma link_slot_ok lvl q i :
  level_links lvl q -> valid_slot i -> i ∉ q ->
  level_links (link_slot i lvl) (q ++ [i]) /\ same_data lvl (link_slot i lvl).
Proof.
  intros Hwf Hi Hnin.
  enough ((exists l, seg (slot_at (link_slot i lvl)) (-1) (head_idx (link_slot i lvl)) (q ++ [i]) l (-1))
    /\ same_data lvl (link_slot i lvl) /\ length (orders (link_slot i lvl)) = Z.to_nat kMaxOrdersPerLevel) as (?&?&?).
  { split; [|done]. split; [done| | |done].
    - apply NoDup_app. split_and!; [apply Hwf| |apply NoDup_singleton]. intros j Hj ->%list_elem_of_singleton. done.
    - apply Forall_app. split; [apply Hwf|by constructor]. }
  revert Hwf Hi Hnin.
  intros Hwf Hi Hnin. pose proof (lo_length _ _ Hwf) as Hlen. destruct (lo_chain _ _ Hwf) as [l Hseg].
  set (lvl1 := upd_slot i (set_next (-1)) lvl).
  assert (Hs1 : forall j, slot_at lvl1 j = if decide (i = j) then set_next (-1) (slot_at lvl i) else slot_at lvl j)
    by (intros; by apply slot_at_upd).
  assert (Hseg1 : seg (slot_at lvl1) (-1) (head_idx lvl) q l (-1)).
  { eapply seg_ext; [|done]. intros j Hj. rewrite Hs1. case_decide; [by subst|done]. }
  destruct q as [|h q].
  - destruct Hseg as [-> Hh]. split.
    + exists i. unfold link_slot. cbn [upd_slot head_idx]. rewrite Hh, Z.eqb_refl. fold lvl1.
      change (slot_at (set_head i ?x)) with (slot_at x). cbn [app seg set_head head_idx].
      rewrite slot_at_upd by (unfold lvl1; rewrite ?length_upd; done).
      rewrite decide_True, Hs1, decide_True by done. done.
    + apply link_slot_data; [done|done|by right].
  - assert (Hh : head_idx lvl = h) by apply Hseg.
    assert (Hhv : valid_slot h) by (eapply lo_range; [done|left]).
    assert (Hw : walk_to_tail lvl1 (Z.to_nat kMaxOrdersPerLevel) (head_idx lvl) = l).
    { eapply (walk_to_tail_seg lvl1 _ _ (h :: q)); [|done|apply Hwf|exact Hseg1].
      pose proof (level_count_bound _ _ Hwf). change (Z.to_nat kMaxOrdersPerLevel) with 16%nat. lia. }
    assert (Hl : l ∈ h :: q) by by eapply seg_last_elem.
    assert (Hlv : valid_slot l) by by eapply lo_range.
    split.
    + exists i. unfold link_slot. cbn [upd_slot head_idx]. fold lvl1. rewrite Hw.
      destruct (Z.eqb_spec (head_idx lvl) (-1)); [unfold valid_slot in *; lia|].
      set (lvl2 := upd_slot l _ lvl1). set (lvl3 := upd_slot i _ lvl2).
      assert (Hs2 : forall j, slot_at lvl2 j = if decide (l = j) then set_next i (slot_at lvl1 l) else slot_at lvl1 j)
        by (intros; apply slot_at_upd; unfold lvl1; rewrite ?length_upd; done).
      assert (Hs3 : forall j, slot_at lvl3 j = if decide (i = j) then set_prev l (slot_at lvl2 i) else slot_at lvl2 j)
        by (intros; apply slot_at_upd; unfold lvl2, lvl1; rewrite ?length_upd; done).
      assert (Hil : i <> l) by (intros ->; done).
      apply seg_app. exists l, i. split.
      * eapply (seg_set_next (slot_at lvl1)); [apply Hwf|done| | |exact Hseg1];
          intros j Hj; rewrite Hs3, decide_False by (by intros ->); rewrite Hs2; case_decide;
          [by subst|done|subst; by rewrite decide_True|by rewrite decide_False].
      * cbn [seg]. rewrite Hs3, decide_True by done. simpl. rewrite Hs2, decide_False by done.
        rewrite Hs1, decide_True by done. done.
    + apply link_slot_data; [done|done|]. fold lvl1. left. by rewrite Hw.
Qed.

(** *** Unlinking *)

(** The slots of a level around one queue element. *)
Lemma seg_around lvl q1 i q2 l n :
  seg (slot_at lvl) (-1) (head_idx lvl) (q1 ++ i :: q2) l n ->
  seg (slot_at lvl) (-1) (head_idx lvl) q1 (prev_idx (slot_at lvl i)) i
  /\ seg (slot_at lvl) i (next_idx (slot_at lvl i)) q2 l n.
Proof.
  intros (m & k & H1 & H2)%seg_app. simpl in H2. destruct H2 as (-> & <- & H2). done.
Qed.

(** The predecessor link of a queue element is -1 exactly at the front, the
    successor link exactly at the back. *)
Lemma seg_prev_front lvl q i :
  seg (slot_at lvl) (-1) (head_idx lvl) q (prev_idx (slot_at lvl i)) i ->
  q = [] /\ prev_idx (slot_at lvl i) = -1 \/ q <> [] /\ prev_idx (slot_at lvl i) ∈ q.
Proof. intros Hs. destruct (decide (q = [])) as [->|]; [left; split; [done|apply Hs]|right; split; [done|by eapply seg_last_elem]]. Qed.

Lemma seg_next_back lvl q i l :
  seg (slot_at lvl) i (next_idx (slot_at lvl i)) q l (-1) ->
  q = [] /\ next_idx (slot_at lvl i) = -1 \/ q <> [] /\ next_idx (slot_at lvl i) ∈ q.
Proof.
  intros Hs. destruct (decide (q = [])) as [->|]; [left; split; [done|apply Hs]|right; split; [done|]].
  by destruct (seg_head _ _ _ _ _ _ Hs) as [[??]|?].
Qed.

(** The links after [unlink_slot], slot by slot. *)
Lemma unlink_slot_at lvl i :
  length (orders lvl) = Z.to_nat kMaxOrdersPerLevel -> valid_slot i ->
  let p := prev_idx (slot_at lvl i) in let n := next_idx (slot_at lvl i) in
  p <> i -> n <> i -> (p <> -1 -> valid_slot p) -> (n <> -1 -> valid_slot n) ->
  head_idx (unlink_slot i lvl) = (if decide (p = -1) then n else head_idx lvl)
  /\ same_data lvl (unlink_slot i lvl)
  /\ length (orders (unlink_slot i lvl)) = Z.to_nat kMaxOrdersPerLevel
  /\ forall j, j <> i -> valid_slot j ->
     next_idx (slot_at (unlink_slot i lvl) j) = (if decide (j = p) then n else next_idx (slot_at lvl j))
     /\ prev_idx (slot_at (unlink_slot i lvl) j) = (if decide (j = n) then p else prev_idx (slot_at lvl j)).
Proof.
  intros Hl Hi p n Hpi Hni Hp Hn. unfold unlink_slot. cbv zeta.
  assert (Ep : prev_idx (slot_at lvl i) = p) by done. assert (En : next_idx (slot_at lvl i) = n) by done.
  clearbody p n. rewrite !Ep, !En.
  set (lvl1 := if negb (p =? -1) then upd_slot p (set_next n) lvl else set_head n lvl).
  assert (Hs1 : forall j, slot_at lvl1 j = if decide (p <> -1 /\ p = j) then set_next n (slot_at lvl p) else slot_at lvl j).
  { intros j. unfold lvl1. destruct (Z.eqb_spec p (-1)); simpl.
    - rewrite decide_False by tauto. done.
    - rewrite slot_at_upd by auto. repeat case_decide; try tauto. }
  assert (Hl1 : length (orders lvl1) = Z.to_nat kMaxOrdersPerLevel)
    by (unfold lvl1; case_if; [by rewrite length_upd|done]).
  assert (Hi1 : slot_at lvl1 i = slot_at lvl i) by (rewrite Hs1, decide_False by tauto; done).
  rewrite Hi1, !Ep, !En.
  set (lvl2 := if negb (n =? -1) then upd_slot n (set_prev p) lvl1 else lvl1).
  assert (Hs2 : forall j, slot_at lvl2 j = if decide (n <> -1 /\ n = j) then set_prev p (slot_at lvl1 n) else slot_at lvl1 j).
  { intros j. unfold lvl2. destruct (Z.eqb_spec n (-1)); simpl.
    - rewrite decide_False by tauto. done.
    - rewrite slot_at_upd by auto. repeat case_decide; try tauto. }
  assert (Hl2 : length (orders lvl2) = Z.to_nat kMaxOrdersPerLevel)
    by (unfold lvl2; case_if; [by rewrite length_upd|done]).
  assert (Hh : head_idx lvl2 = if decide (p = -1) then n else head_idx lvl).
  { unfold lvl2. transitivity (head_idx lvl1); [by case_if|]. unfold lvl1.
    destruct (Z.eqb_spec p (-1)); simpl; [by rewrite decide_True|by rewrite decide_False]. }
  assert (Hpr : price lvl2 = price lvl) by (unfold lvl2, lvl1; by repeat case_if).
  assert (Hs : forall j, slot_at (upd_slot i (set_next (-1)) (upd_slot i (set_prev (-1)) lvl2)) j =
    if decide (i = j) then set_next (-1) (set_prev (-1) (slot_at lvl2 i)) else slot_at lvl2 j).
  { intros j. rewrite !slot_at_upd by (rewrite ?length_upd; done). repeat case_decide; done. }
  split_and!; [done| |by rewrite !length_upd|].
  - assert (same_data lvl lvl1) by (unfold lvl1; destruct (Z.eqb_spec p (-1)); [done|]; apply same_data_upd; auto).
    assert (same_data lvl1 lvl2) by (unfold lvl2; destruct (Z.eqb_spec n (-1)); [done|]; apply same_data_upd; auto).
    eapply same_data_trans; [done|]. eapply same_data_trans; [done|].
    eapply same_data_trans; apply same_data_upd; rewrite ?length_upd; auto.
  - intros j Hj Hv. rewrite Hs, decide_False by done.
    assert (j <> -1) by (unfold valid_slot in *; lia).
    split.
    + transitivity (next_idx (slot_at lvl1 j)); [rewrite Hs2; by destruct (decide (n <> -1 /\ n = j)) as [[_ ->]|]|].
      rewrite Hs1. destruct (decide (j = p)) as [->|]; [by rewrite decide_True|]. rewrite decide_False by naive_solver. done.
    + rewrite Hs2. destruct (decide (j = n)) as [->|]; [by rewrite decide_True|]. rewrite decide_False by naive_solver.
      rewrite Hs1. by destruct (decide (p <> -1 /\ p = j)) as [[_ ->]|].
Qed.

Lemma unlink_slot_ok lvl q1 i q2 :
  level_links lvl (q1 ++ i :: q2) ->
  level_links (unlink_slot i lvl) (q1 ++ q2) /\ same_data lvl (unlink_slot i lvl).
Proof.
  intros Hwf.
  enough ((exists l, seg (slot_at (unlink_slot i lvl)) (-1) (head_idx (unlink_slot i lvl)) (q1 ++ q2) l (-1))
    /\ same_data lvl (unlink_slot i lvl) /\ length (orders (unlink_slot i lvl)) = Z.to_nat kMaxOrdersPerLevel) as (?&?&?).
  { assert (Hsub : sublist (q1 ++ q2) (q1 ++ i :: q2)) by (apply sublist_app; [done|by constructor]).
    split; [|done]. split; [done| | |done].
    - eapply sublist_NoDup; [apply Hwf|done].
    - pose proof (lo_valid _ _ Hwf) as Hv. apply Forall_app in Hv as [? [_ ?]%Forall_cons]. by apply Forall_app. }
  revert Hwf.
  intros Hwf. destruct (lo_chain _ _ Hwf) as [l Hseg]. apply seg_around in Hseg as [H1 H2].
  pose proof (lo_nodup _ _ Hwf) as Hnd. pose proof (lo_valid _ _ Hwf) as Hv.
  apply Forall_app in Hv as [Hv1 [Hvi Hv2]%Forall_cons].
  apply NoDup_app in Hnd as (Hnd1 & Hdis & [Hi2 Hnd2]%NoDup_cons).
  assert (Hi1 : i ∉ q1) by (intros ?; apply (Hdis i); [done|by left]).
  assert (Hdis' : forall j, j ∈ q1 -> j ∉ q2) by (intros j ? ?; apply (Hdis j); [done|by right]).
  pose proof (seg_prev_front lvl q1 i H1) as Hp. pose proof (seg_next_back lvl q2 i l H2) as Hn.
  pose proof (unlink_slot_at lvl i (lo_length _ _ Hwf) Hvi) as Hat. cbv zeta in Hat.
  set (p := prev_idx (slot_at lvl i)) in *. set (n := next_idx (slot_at lvl i)) in *. clearbody p n.
  rewrite Forall_forall in Hv1, Hv2.
  assert (Hneg : forall j, valid_slot j -> j <> -1) by (unfold valid_slot; lia).
  destruct Hat as (Hhead & Hdata & Hlen & Hlinks).
  { destruct Hp as [[_ ->]|[_ ?]]; [symmetry; by apply Hneg|by intros ->]. }
  { destruct Hn as [[_ ->]|[_ ?]]; [symmetry; by apply Hneg|by intros ->]. }
  { destruct Hp as [[_ ->]|[_ ?]]; auto; done. }
  { destruct Hn as [[_ ->]|[_ ?]]; auto; done. }
  split; [|done].
  assert (Hp2 : p ∉ q2) by (destruct Hp as [[_ ->]|[_ ?]]; [intros ?; by apply (Hneg (-1)); auto|auto]).
  assert (Hn1 : n ∉ q1) by (destruct Hn as [[_ ->]|[_ ?]]; [intros ?; by apply (Hneg (-1)); auto|intros ?; by eapply Hdis']).
  assert (Hseg2 : exists l', seg (slot_at (unlink_slot i lvl)) p n q2 l' (-1)).
  { destruct Hn as [[-> ->]|[Hne _]]; [by exists p|]. exists l.
    eapply (seg_set_prev (slot_at lvl) _ i); [done|done| | |exact H2];
      intros j Hj; assert (j <> i) by (by intros ->); destruct (Hlinks j) as [Hx Hy]; auto.
    rewrite Hx. rewrite decide_False; [done|]. by intros ->. }
  destruct Hseg2 as [l' Hseg2]. exists l'. apply seg_app. exists p, n. split; [|done].
  rewrite Hhead. destruct Hp as [[-> ->]|[Hne Hp]]; [by rewrite decide_True|].
  rewrite decide_False by auto.
  eapply (seg_set_next (slot_at lvl) _ _ _ _ _ i); [done|done| | |exact H1];
    intros j Hj; assert (j <> i) by (by intros ->); destruct (Hlinks j) as [Hx Hy]; auto.
  rewrite Hy. rewrite decide_False; [done|]. by intros ->.
Qed.

(** *** Whole-level operations *)
Lemma level_ok_reset lvl :
  length (orders lvl) = Z.to_nat kMaxOrdersPerLevel -> level_wf (reset lvl) [].
Proof.
  intros Hl. split; [split| | |done]; simpl; try done.
  - by rewrite length_fmap.
  - constructor.
  - by exists (-1).
  - intros i Hi. split; [|by intros ?%not_elem_of_nil]. unfold slot_at, lget. simpl. unfold valid_slot in *.
    destruct (Z.leb_spec 0 i); [|done]. rewrite list_lookup_fmap. by destruct (orders lvl !! Z.to_nat i).
Qed.

(** A queue with sixteen entries holds every slot. *)
Lemma level_full lvl q : level_links lvl q -> (forall i, valid_slot i -> i ∈ q) -> length q = 16%nat.
Proof.
  intros Hwf Hall. apply Nat.le_antisymm; [by eapply level_count_bound|].
  change 16%nat with (length (zrange 0 16)). apply submseteq_length, NoDup_submseteq.
  - apply (NoDup_fmap_2 _), NoDup_seq.
  - intros i Hi%elem_of_zrange. apply Hall. unfold valid_slot, kMaxOrdersPerLevel. lia.
Qed.

Lemma alloc_from_spec l i :
  (alloc_from l i = -1 /\ Forall (fun s => is_active s = true) l)
  \/ exists j s, l !! j = Some s /\ is_active s = false /\ alloc_from l i = i + Z.of_nat j.
Proof.
  revert i. induction l as [|s l IH]; intros i; simpl; [by left|].
  destruct (is_active s) eqn:E; simpl.
  - destruct (IH (i + 1)) as [[-> ?]|(j & s' & ? & ? & ->)]; [left; by auto|].
    right. exists (S j), s'. split_and!; [done..|lia].
  - right. exists 0%nat, s. split_and!; [done..|lia].
Qed.

(** [alloc_slot] returns a slot outside the queue, and -1 only when all sixteen
    slots are queued. *)
Lemma alloc_slot_spec lvl q :
  level_wf lvl q ->
  (alloc_slot lvl = -1 /\ length q = 16%nat) \/ (valid_slot (alloc_slot lvl) /\ alloc_slot lvl ∉ q).
Proof.
  intros Hwf. pose proof (lo_length _ _ (lo_links _ _ Hwf)) as Hl. unfold alloc_slot.
  assert (Hat : forall j s, orders lvl !! j = Some s -> valid_slot (Z.of_nat j) /\ slot_at lvl (Z.of_nat j) = s).
  { intros j s Hj. pose proof (lookup_lt_Some _ _ _ Hj). split; [unfold valid_slot; lia|].
    unfold slot_at, lget. destruct (Z.leb_spec 0 (Z.of_nat j)); [|lia]. by rewrite Nat2Z.id, Hj. }
  destruct (alloc_from_spec (orders lvl) 0) as [[-> Hall]|(j & s & Hj & Hs & ->)].
  - left. split; [done|]. apply (level_full lvl); [apply Hwf|]. intros i Hi. apply (lo_active _ _ Hwf i Hi).
    destruct (lookup_lt_is_Some_2 (orders lvl) (Z.to_nat i)) as [s Hs]; [unfold valid_slot in *; lia|].
    rewrite Forall_lookup in Hall. destruct (Hat _ _ Hs) as [_ E].
    rewrite Z2Nat.id in E by (unfold valid_slot in *; lia). rewrite E. by eapply Hall.
  - right. destruct (Hat _ _ Hj) as [Hv E]. split; [done|]. intros Hin.
    apply (lo_active _ _ Hwf _ Hv) in Hin. rewrite E in Hin. congruence.
Qed.

Lemma level_links_upd lvl q i f :
  level_links lvl q -> valid_slot i ->
  (forall s, next_idx (f s) = next_idx s /\ prev_idx (f s) = prev_idx s) -> level_links (upd_slot i f lvl) q.
Proof.
  intros H Hi Hf. destruct H as [Hl ?? [l Hs]]. split; [by rewrite length_upd|done|done|].
  exists l. eapply seg_ext; [|done]. intros j _. rewrite slot_at_upd by done. case_decide; [subst; apply Hf|done].
Qed.

Lemma zsum_fmap_ext {A} (f g : A -> Z) l : (forall x, x ∈ l -> f x = g x) -> zsum (f <$> l) = zsum (g <$> l).
Proof.
  induction l as [|x l IH]; intros H; [done|]. cbn. rewrite H by left. f_equal. apply IH. intros; apply H; by right.
Qed.

(** Filling a free slot and linking it appends it to the queue. *)
Lemma push_order_wf lvl q i ref v fl :
  level_wf lvl q -> valid_slot i -> i ∉ q -> Z.land fl kFlagActive <> 0 ->
  level_wf (set_totals (total_qty lvl + v) (order_count lvl + 1) (push_order i ref v fl lvl)) (q ++ [i])
  /\ price (push_order i ref v fl lvl) = price lvl
  /\ forall j, data (slot_at (push_order i ref v fl lvl) j) =
       if decide (i = j) then (ref, v, fl) else data (slot_at lvl j).
Proof.
  intros Hwf Hi Hnin Hfl. pose proof (lo_links _ _ Hwf) as Hlinks. pose proof (lo_length _ _ Hlinks) as Hl.
  set (lvl1 := upd_slot i (fill_slot ref v fl) lvl).
  destruct (link_slot_ok lvl1 q i) as [Hlk [Hpr Hd]]; [by apply level_links_upd|done|done|].
  assert (Hdata : forall j, data (slot_at (push_order i ref v fl lvl) j) =
       if decide (i = j) then (ref, v, fl) else data (slot_at lvl j)).
  { intros j. unfold push_order. fold lvl1. rewrite Hd. unfold lvl1. rewrite slot_at_upd by done. by case_decide. }
  split; [|by split]. split; [by destruct Hlk; split| | |]; simpl.
  - intros j Hj. change (slot_at (set_totals ?a ?b ?x)) with (slot_at x). specialize (Hdata j).
    rewrite elem_of_app, list_elem_of_singleton. destruct (decide (i = j)) as [<-|].
    + split; [by right|intros _]. injection Hdata as _ _ Hf. unfold is_active. rewrite Hf.
      by apply negb_true_iff, Z.eqb_neq.
    + rewrite (data_active _ _ Hdata), (lo_active _ _ Hwf j Hj). naive_solver.
  - rewrite length_app, (lo_count _ _ Hwf). simpl. lia.
  - rewrite fmap_app, zsum_app, (lo_total _ _ Hwf). f_equal.
    + apply zsum_fmap_ext. intros j Hj. change (slot_at (set_totals ?a ?b ?x)) with (slot_at x).
      specialize (Hdata j). destruct (decide (i = j)); [by subst|]. by injection Hdata as _ -> _.
    + cbn. change (slot_at (set_totals ?a ?b ?x)) with (slot_at x).
      specialize (Hdata i). rewrite decide_True in Hdata by done. injection Hdata as _ -> _. lia.
Qed.

(** Unlinking and clearing a queued slot deletes it from the queue. *)
Lemma pop_order_wf lvl q1 i q2 :
  level_wf lvl (q1 ++ i :: q2) ->
  level_wf (set_totals (total_qty lvl - qty (slot_at lvl i)) (order_count lvl - 1) (pop_order i lvl)) (q1 ++ q2)
  /\ price (pop_order i lvl) = price lvl
  /\ forall j, data (slot_at (pop_order i lvl) j) = if decide (i = j) then (0, 0, 0) else data (slot_at lvl j).
Proof.
  intros Hwf. pose proof (lo_links _ _ Hwf) as Hlinks.
  assert (Hi : valid_slot i) by (eapply lo_range; [done|set_solver]).
  destruct (unlink_slot_ok lvl q1 i q2 Hlinks) as [Hlk [Hpr Hd]]. pose proof (lo_length _ _ Hlk) as Hl.
  assert (Hdata : forall j, data (slot_at (pop_order i lvl) j) = if decide (i = j) then (0, 0, 0) else data (slot_at lvl j)).
  { intros j. unfold pop_order. rewrite slot_at_upd by done. case_decide; [done|apply Hd]. }
  pose proof (lo_nodup _ _ Hlinks) as Hnd. apply NoDup_app in Hnd as (_ & Hdis & [Hi2 _]%NoDup_cons).
  assert (Hnin : i ∉ q1 ++ q2).
  { intros [?|?]%elem_of_app; [|done]. apply (Hdis i); [done|by left]. }
  assert (Hlk' : level_links (pop_order i lvl) (q1 ++ q2)) by by apply level_links_upd.
  split; [|by split]. split; [by destruct Hlk'; split| | |]; simpl.
  - intros j Hj. change (slot_at (set_totals ?a ?b ?x)) with (slot_at x). specialize (Hdata j).
    destruct (decide (i = j)) as [<-|].
    + injection Hdata as _ _ Hf. unfold is_active. rewrite Hf. simpl. naive_solver.
    + rewrite (data_active _ _ Hdata), (lo_active _ _ Hwf j Hj), !elem_of_app, elem_of_cons. naive_solver.
  - rewrite (lo_count _ _ Hwf), !length_app. simpl. lia.
  - transitivity (zsum ((fun j => qty (slot_at (pop_order i lvl) j)) <$> q1 ++ q2)); [|done].
    assert (Hext : forall l, i ∉ l -> zsum ((fun j => qty (slot_at (pop_order i lvl) j)) <$> l) = zsum ((fun j => qty (slot_at lvl j)) <$> l)).
    { intros l Hil. apply zsum_fmap_ext. intros j Hj. specialize (Hdata j). rewrite decide_False in Hdata by (by intros ->).
      by injection Hdata as _ -> _. }
    rewrite Hext by done. rewrite (lo_total _ _ Hwf), !fmap_app, !zsum_app, fmap_cons, zsum_cons. lia.
Qed.

(** Changing the quantity of a queued slot. *)
Lemma set_qty_wf lvl q1 i q2 v :
  level_wf lvl (q1 ++ i :: q2) ->
  level_wf (set_totals (total_qty lvl - (qty (slot_at lvl i) - v)) (order_count lvl) (upd_slot i (set_qty v) lvl)) (q1 ++ i :: q2).
Proof.
  intros Hwf. pose proof (lo_links _ _ Hwf) as Hlinks. pose proof (lo_length _ _ Hlinks) as Hl.
  assert (Hi : valid_slot i) by (eapply lo_range; [done|set_solver]).
  assert (Hlk : level_links (upd_slot i (set_qty v) lvl) (q1 ++ i :: q2)) by by apply level_links_upd.
  assert (Hs : forall j, slot_at (upd_slot i (set_qty v) lvl) j = if decide (i = j) then set_qty v (slot_at lvl i) else slot_at lvl j)
    by (intros; by apply slot_at_upd).
  split; [by destruct Hlk; split| | |]; simpl.
  - intros j Hj. change (slot_at (set_totals ?a ?b ?x)) with (slot_at x). rewrite Hs.
    rewrite <- (lo_active _ _ Hwf j Hj). by case_decide; subst.
  - apply Hwf.
  - pose proof (lo_nodup _ _ Hlinks) as Hnd. apply NoDup_app in Hnd as (_ & Hdis & [Hi2 _]%NoDup_cons).
    transitivity (zsum ((fun j => qty (slot_at (upd_slot i (set_qty v) lvl) j)) <$> q1 ++ i :: q2)); [|done].
    assert (Hext : forall l, i ∉ l -> zsum ((fun j => qty (slot_at (upd_slot i (set_qty v) lvl) j)) <$> l) = zsum ((fun j => qty (slot_at lvl j)) <$> l)).
    { intros l Hil. apply zsum_fmap_ext. intros j Hj. rewrite Hs, decide_False; [done|]. by intros ->. }
    rewrite (lo_total _ _ Hwf), !fmap_app, !zsum_app, !fmap_cons, !zsum_cons, !Hext; [|done|].
    + rewrite Hs, decide_True by done. simpl. lia.
    + intros ?. apply (Hdis i); [done|by left].
Qed.
