(* ===== verification/Lob.v ===== *)
(** * LOBEngine (luv_lob.hpp): reconstruction of the order book

    The engine's state is the level slab of the arena, the reference map, the
    per-symbol level counts and the statistics.  Handlers thread the state
    explicitly.  The mutex of [process] serialises whole calls and is not part
    of the state. *)
From Stdlib Require Import ZArith Lia ZifyBool.
From S2P Require Import Prelude Config Numeric OrderRefMap Level.

(** ** State *)
Record SymbolMeta := mkMeta {
  bid_levels : Z;          (* uint16_t *)
  ask_levels : Z;          (* uint16_t *)
  last_timestamp_ns : Z;   (* uint64_t *)
}.
Definition default_meta : SymbolMeta := mkMeta 0 0 0.

Record LobStats := mkStats {
  stat_adds : Z; stat_executes : Z; stat_cancels : Z; stat_deletes : Z;
  stat_replaces : Z; stat_trades : Z; stat_rejected : Z;   (* uint64_t each *)
}.
Definition zero_stats : LobStats := mkStats 0 0 0 0 0 0 0.

Record LOBEngine := mkEngine {
  e_lob : gmap Z PriceLevel;     (* _arena->lob_flat *)
  e_map : OrderRefMap;           (* _order_map *)
  e_meta : gmap Z SymbolMeta;    (* _meta *)
  e_stats : LobStats;
}.

Definition with_lob (l : gmap Z PriceLevel) (e : LOBEngine) := mkEngine l (e_map e) (e_meta e) (e_stats e).
Definition with_map (m : OrderRefMap) (e : LOBEngine) := mkEngine (e_lob e) m (e_meta e) (e_stats e).
Definition with_meta (m : gmap Z SymbolMeta) (e : LOBEngine) := mkEngine (e_lob e) (e_map e) m (e_stats e).
Definition with_stats (f : LobStats -> LobStats) (e : LOBEngine) :=
  mkEngine (e_lob e) (e_map e) (e_meta e) (f (e_stats e)).

(** Counter increments. *)
Definition inc_adds (s : LobStats) := mkStats (u64 (stat_adds s + 1)) (stat_executes s) (stat_cancels s) (stat_deletes s) (stat_replaces s) (stat_trades s) (stat_rejected s).
Definition inc_executes (s : LobStats) := mkStats (stat_adds s) (u64 (stat_executes s + 1)) (stat_cancels s) (stat_deletes s) (stat_replaces s) (stat_trades s) (stat_rejected s).
Definition inc_cancels (s : LobStats) := mkStats (stat_adds s) (stat_executes s) (u64 (stat_cancels s + 1)) (stat_deletes s) (stat_replaces s) (stat_trades s) (stat_rejected s).
Definition inc_deletes (s : LobStats) := mkStats (stat_adds s) (stat_executes s) (stat_cancels s) (u64 (stat_deletes s + 1)) (stat_replaces s) (stat_trades s) (stat_rejected s).
Definition inc_replaces (s : LobStats) := mkStats (stat_adds s) (stat_executes s) (stat_cancels s) (stat_deletes s) (u64 (stat_replaces s + 1)) (stat_trades s) (stat_rejected s).
Definition inc_trades (s : LobStats) := mkStats (stat_adds s) (stat_executes s) (stat_cancels s) (stat_deletes s) (stat_replaces s) (u64 (stat_trades s + 1)) (stat_rejected s).
Definition inc_rejected (s : LobStats) := mkStats (stat_adds s) (stat_executes s) (stat_cancels s) (stat_deletes s) (stat_replaces s) (stat_trades s) (u64 (stat_rejected s + 1)).
Definition reject (e : LOBEngine) : LOBEngine := with_stats inc_rejected e.

(** ** Arena and metadata accessors *)

(** Arena::level: the flat index of [symbol][side][depth]. *)
Definition level_index (symbol sd depth : Z) : Z := (symbol * 2 + sd) * kLevelsPerSide + depth.

Definition level (e : LOBEngine) (symbol sd depth : Z) : PriceLevel :=
  sget zero_level (e_lob e) (level_index symbol sd depth).

Definition set_level (symbol sd depth : Z) (lvl : PriceLevel) (e : LOBEngine) : LOBEngine :=
  with_lob (<[level_index symbol sd depth := lvl]> (e_lob e)) e.

Definition meta (e : LOBEngine) (sym : Z) : SymbolMeta := sget default_meta (e_meta e) sym.

Definition level_count (e : LOBEngine) (sym sd : Z) : Z :=
  if sd =? 0 then bid_levels (meta e sym) else ask_levels (meta e sym).

Definition set_level_count (sym sd n : Z) (e : LOBEngine) : LOBEngine :=
  let m := meta e sym in
  with_meta (<[sym := if sd =? 0 then mkMeta n (ask_levels m) (last_timestamp_ns m)
                      else mkMeta (bid_levels m) n (last_timestamp_ns m)]> (e_meta e)) e.

(** ** Lifecycle *)

(** [init] on an arena with slab [lob]; [arena_ready] is the arena's
    is_initialised, [mapped] says whether the mmap of the reference map
    succeeded. *)
Definition lob_init (arena_ready : bool) (lob : gmap Z PriceLevel) (mapped : bool) (e : LOBEngine) : bool * LOBEngine :=
  if negb arena_ready then (false, e)
  else
    let '(ok, m) := refmap.init mapped (e_map e) in
    if ok then (true, mkEngine lob m ∅ zero_stats) else (false, mkEngine lob m (e_meta e) (e_stats e)).

(** [teardown] releases the reference map and drops the arena pointer. *)
Definition lob_teardown (e : LOBEngine) : LOBEngine :=
  mkEngine ∅ (refmap.teardown (e_map e)) (e_meta e) (e_stats e).

(** ** Price level management *)

(** The binary search of [find_level]; [before mp] says that the wanted level
    lies before one priced [mp]. *)
Fixpoint find_loop (e : LOBEngine) (sym sd price : Z) (fuel : nat) (low high : Z) : Z :=
  match fuel with
  | O => -1
  | S fuel =>
      if low <=? high then
        let mid := low + Z.quot (high - low) 2 in
        let mp := Level.price (level e sym sd mid) in
        if mp =? price then mid
        else if (if sd =? 0 then mp <? price else price <? mp)
        then find_loop e sym sd price fuel low (mid - 1)
        else find_loop e sym sd price fuel (mid + 1) high
      else -1
  end.

Definition find_level (e : LOBEngine) (sym sd price : Z) : Z :=
  let count := level_count e sym sd in
  if count =? 0 then -1
  else find_loop e sym sd price (S (Z.to_nat count)) 0 (count - 1).

(** Re-register one slot after its level moved. *)
Definition refresh_slot (sym sd li : Z) (e : LOBEngine) (si : Z) : LOBEngine :=
  let s := slot_at (level e sym sd li) si in
  if is_active s then
    match refmap.lookup_slot (order_id s) (e_map e) with
    | Some k => with_map (refmap.set_value k (mkLoc sym sd li si) (e_map e)) e
    | None => e
    end
  else e.

Definition refresh_level_locations (sym sd first last : Z) (e : LOBEngine) : LOBEngine :=
  if last <? first then e
  else foldl (fun e li => foldl (refresh_slot sym sd li) e (zrange 0 (Z.to_nat kMaxOrdersPerLevel)))
             e (zrange first (Z.to_nat (last - first + 1))).

(** [memmove(base + dst, base + src, n * sizeof(PriceLevel))] on one side. *)
Definition move_levels (sym sd dst src n : Z) (e : LOBEngine) : LOBEngine :=
  foldl (fun e' i => set_level sym sd (dst + i) (level e sym sd (src + i)) e') e (zrange 0 (Z.to_nat n)).

Definition remove_level_if_empty (sym sd lvl_idx : Z) (e : LOBEngine) : LOBEngine :=
  if 0 <? order_count (level e sym sd lvl_idx) then e
  else
    let count := level_count e sym sd in
    if count =? 0 then e
    else
      let last := u16 (count - 1) in
      let e :=
        if lvl_idx <? last then
          refresh_level_locations sym sd lvl_idx (last - 1)
            (move_levels sym sd lvl_idx (lvl_idx + 1) (last - lvl_idx) e)
        else e in
      set_level_count sym sd (u16 (count - 1)) (set_level sym sd last (reset (level e sym sd last)) e).

(** The insertion point of a new price, scanning the active levels. *)
Fixpoint insert_pos_loop (e : LOBEngine) (sym sd price : Z) (fuel : nat) (i count : Z) : Z :=
  match fuel with
  | O => count
  | S fuel =>
      if i <? count then
        let lp := Level.price (level e sym sd i) in
        if (if sd =? 0 then lp <? price else price <? lp) then i
        else insert_pos_loop e sym sd price fuel (i + 1) count
      else count
  end.

Definition insert_level_impl (sym sd price : Z) (e : LOBEngine) : Z * LOBEngine :=
  let count := level_count e sym sd in
  if kLevelsPerSide <=? count then (-1, e)
  else
    let insert_pos := insert_pos_loop e sym sd price (Z.to_nat count) 0 count in
    let e :=
      if insert_pos <? count then
        refresh_level_locations sym sd (insert_pos + 1) count
          (move_levels sym sd (insert_pos + 1) insert_pos (count - insert_pos) e)
      else e in
    let e := set_level sym sd insert_pos (set_price price (reset (level e sym sd insert_pos))) e in
    (insert_pos, set_level_count sym sd (u16 (count + 1)) e).

(** ** Order handlers *)
Definition clamped_qty (requested available : Z) : Z :=
  if (requested <=? 0) || (available <=? 0) then 0
  else if requested <? available then requested else available.

Definition valid_location (e : LOBEngine) (order_ref : Z) (loc : OrderLocation) : bool :=
  if (kSymbols <=? symbol_idx loc) || (1 <? side loc) ||
     (level_count e (symbol_idx loc) (side loc) <=? level_idx loc) ||
     (slot_idx loc <? 0) || (kMaxOrdersPerLevel <=? slot_idx loc)
  then false
  else
    let lvl := level e (symbol_idx loc) (side loc) (level_idx loc) in
    let s := slot_at lvl (slot_idx loc) in
    is_active s && (order_id s =? order_ref) && (0 <=? qty s) && (0 <=? total_qty lvl) && (0 <? order_count lvl).

(** The looked-up location of a reference, if it passes [valid_location]. *)
Definition checked_location (e : LOBEngine) (order_ref : Z) : option OrderLocation :=
  match refmap.lookup order_ref (e_map e) with
  | Some loc => if valid_location e order_ref loc then Some loc else None
  | None => None
  end.

Definition upd_level_at (loc : OrderLocation) (f : PriceLevel -> PriceLevel) (e : LOBEngine) : LOBEngine :=
  set_level (symbol_idx loc) (side loc) (level_idx loc)
    (f (level e (symbol_idx loc) (side loc) (level_idx loc))) e.

(** The teardown common to a full fill, a full cancel, a delete and a replace:
    unlink and clear the slot, drop it from the count and from the map, and
    drop the level when it is empty. *)
Definition retire_order (order_ref : Z) (loc : OrderLocation) (e : LOBEngine) : LOBEngine :=
  let e := upd_level_at loc (fun lvl =>
    let lvl := pop_order (slot_idx loc) lvl in
    set_totals (total_qty lvl) (s32 (order_count lvl - 1)) lvl) e in
  let e := with_map (refmap.remove order_ref (e_map e)) e in
  remove_level_if_empty (symbol_idx loc) (side loc) (level_idx loc) e.

(** Find or create the level, take a slot, link the order, add it to the
    aggregates and register it: the body of [on_add_order] and, with the
    original's side, the second half of [on_order_replace].  The two differ in
    whether a refused registration is counted ([count_refusal]). *)
Definition place_order (count_refusal : bool) (sym sd price q order_ref : Z) (e : LOBEngine) : LOBEngine :=
  let found := find_level e sym sd price in
  let '(lvl_idx, e) := if found <? 0 then insert_level_impl sym sd price e else (found, e) in
  if lvl_idx <? 0 then reject e
  else
    let lvl := level e sym sd lvl_idx in
    let slot := alloc_slot lvl in
    if slot <? 0 then reject e
    else
      let fl := Z.lor kFlagActive (if sd =? 0 then kFlagBid else 0) in
      let lvl := push_order slot order_ref q fl lvl in
      match numeric.checked_add (total_qty lvl) q with
      | None =>
          reject (remove_level_if_empty sym sd lvl_idx (set_level sym sd lvl_idx (pop_order slot lvl) e))
      | Some new_total_qty =>
          let lvl := set_totals new_total_qty (s32 (order_count lvl + 1)) lvl in
          let e := set_level sym sd lvl_idx lvl e in
          let '(ok, m) := refmap.insert order_ref (mkLoc sym sd (u16 lvl_idx) slot) (e_map e) in
          let e := with_map m e in
          if ok then e
          else
            let lvl := pop_order slot lvl in
            let lvl := set_totals (s64 (total_qty lvl - q)) (s32 (order_count lvl - 1)) lvl in
            let e := remove_level_if_empty sym sd lvl_idx (set_level sym sd lvl_idx lvl e) in
            if count_refusal then reject e else e
      end.

Definition on_add_order (t : TickMsg) (e : LOBEngine) : LOBEngine :=
  let e := with_stats inc_adds e in
  match refmap.lookup (t_order_ref t) (e_map e) with
  | Some _ => reject e
  | None =>
      let sd := if Z.land (t_flags t) tick_flags.kBuy =? 0 then 1 else 0 in
      place_order true (t_symbol_idx t) sd (t_price t) (t_qty t) (t_order_ref t) e
  end.

(** Subtract a quantity from an order and retire it at zero: the body of
    [on_order_executed] and of [on_order_cancel]. *)
Definition reduce_order (order_ref q : Z) (e : LOBEngine) : LOBEngine :=
  match checked_location e order_ref with
  | None => e
  | Some loc =>
      let lvl := level e (symbol_idx loc) (side loc) (level_idx loc) in
      let s := slot_at lvl (slot_idx loc) in
      let delta := clamped_qty q (qty s) in
      let left_qty := s64 (qty s - delta) in
      let e := upd_level_at loc (fun lvl =>
        set_totals (s64 (total_qty lvl - delta)) (order_count lvl) (upd_slot (slot_idx loc) (set_qty left_qty) lvl)) e in
      if left_qty <=? 0 then retire_order order_ref loc e else e
  end.

Definition on_order_executed (t : TickMsg) (e : LOBEngine) : LOBEngine :=
  reduce_order (t_order_ref t) (t_qty t) (with_stats inc_executes e).

Definition on_order_cancel (t : TickMsg) (e : LOBEngine) : LOBEngine :=
  reduce_order (t_order_ref t) (t_qty t) (with_stats inc_cancels e).

(** Take the remaining quantity off the aggregate and retire the order: the
    body of [on_order_delete] and the first half of [on_order_replace]. *)
Definition drop_order (order_ref : Z) (loc : OrderLocation) (e : LOBEngine) : LOBEngine :=
  retire_order order_ref loc
    (upd_level_at loc (fun lvl =>
       set_totals (s64 (total_qty lvl - clamped_qty (qty (slot_at lvl (slot_idx loc))) (total_qty lvl))) (order_count lvl) lvl) e).

Definition on_order_delete (t : TickMsg) (e : LOBEngine) : LOBEngine :=
  let e := with_stats inc_deletes e in
  match checked_location e (t_order_ref t) with
  | None => e
  | Some loc => drop_order (t_order_ref t) loc e
  end.

Definition on_order_replace (t : TickMsg) (e : LOBEngine) : LOBEngine :=
  let e := with_stats inc_replaces e in
  match checked_location e (t_order_ref t) with
  | None => reject e
  | Some loc =>
      if negb (refmap.can_insert (t_match_num t) (e_map e)) then reject e
      else
        place_order false (symbol_idx loc) (side loc) (t_price t) (t_qty t) (t_match_num t)
          (drop_order (t_order_ref t) loc e)
  end.

Definition on_trade (t : TickMsg) (e : LOBEngine) : LOBEngine := with_stats inc_trades e.

(** ** Dispatch *)
Definition touch_timestamp (sym ts : Z) (e : LOBEngine) : LOBEngine :=
  let m := meta e sym in
  with_meta (<[sym := mkMeta (bid_levels m) (ask_levels m) ts]> (e_meta e)) e.

Definition process_unlocked (t : TickMsg) (e : LOBEngine) : LOBEngine :=
  if kSymbols <=? t_symbol_idx t then reject e
  else
    let e := if 0 <? t_timestamp t then touch_timestamp (t_symbol_idx t) (t_timestamp t) e else e in
    let ty := t_msg_type t in
    let no_ref := t_order_ref t =? 0 in
    let bad_qty := negb (numeric.is_valid_quantity (t_qty t)) in
    let bad_price := negb (numeric.is_valid_price (t_price t)) in
    if (ty =? itch.kAddOrder) || (ty =? itch.kAddOrderMPID) then
      if no_ref || bad_qty || bad_price then reject e else on_add_order t e
    else if (ty =? itch.kOrderExecuted) || (ty =? itch.kOrderExecPrice) then
      if no_ref || bad_qty then reject e else on_order_executed t e
    else if ty =? itch.kOrderCancel then
      if no_ref || bad_qty then reject e else on_order_cancel t e
    else if ty =? itch.kOrderDelete then
      if no_ref then reject e else on_order_delete t e
    else if ty =? itch.kOrderReplace then
      if no_ref || (t_match_num t =? 0) || (t_order_ref t =? t_match_num t) || bad_qty || bad_price
      then reject e else on_order_replace t e
    else if ty =? itch.kTrade then
      if bad_qty || bad_price then reject e else on_trade t e
    else reject e.

(** ** Queries *)
Definition best_bid_price (e : LOBEngine) (sym : Z) : Z :=
  if kSymbols <=? sym then 0
  else if bid_levels (meta e sym) =? 0 then 0 else Level.price (level e sym 0 0).

Definition best_ask_price (e : LOBEngine) (sym : Z) : Z :=
  if kSymbols <=? sym then 0
  else if ask_levels (meta e sym) =? 0 then 0 else Level.price (level e sym 1 0).

Definition mid_price (e : LOBEngine) (sym : Z) : Z :=
  if kSymbols <=? sym then 0
  else
    let bid := best_bid_price e sym in
    let ask := best_ask_price e sym in
    if (bid =? 0) || (ask =? 0) then 0 else Z.quot (s64 (bid + ask)) 2.

Definition spread (e : LOBEngine) (sym : Z) : Z :=
  if kSymbols <=? sym then 0
  else
    let bid := best_bid_price e sym in
    let ask := best_ask_price e sym in
    if (bid =? 0) || (ask =? 0) then 0 else s64 (ask - bid).

Definition depth_qty (e : LOBEngine) (sym sd levels : Z) : Z :=
  if kSymbols <=? sym then 0
  else
    let count := level_count e sym sd in
    let n := if levels <? count then levels else count in
    foldl (fun total i => s64 (total + total_qty (level e sym sd i))) 0 (zrange 0 (Z.to_nat n)).

Definition bid_depth_qty (e : LOBEngine) (sym levels : Z) : Z := depth_qty e sym 0 levels.
Definition ask_depth_qty (e : LOBEngine) (sym levels : Z) : Z := depth_qty e sym 1 levels.

Definition bid_level_count (e : LOBEngine) (sym : Z) : Z := if kSymbols <=? sym then 0 else bid_levels (meta e sym).
Definition ask_level_count (e : LOBEngine) (sym : Z) : Z := if kSymbols <=? sym then 0 else ask_levels (meta e sym).

Definition is_crossed (e : LOBEngine) (sym : Z) : bool :=
  if kSymbols <=? sym then false
  else
    let bid := best_bid_price e sym in
    let ask := best_ask_price e sym in
    (0 <? bid) && (0 <? ask) && (ask <=? bid).

Definition is_stale (e : LOBEngine) (sym now_ns timeout_ns : Z) : bool :=
  if kSymbols <=? sym then true
  else
    let last := last_timestamp_ns (meta e sym) in
    if last =? 0 then false
    else (last <? now_ns) && (timeout_ns <? u64 (now_ns - last)).

Definition last_update_time (e : LOBEngine) (sym : Z) : Z :=
  if kSymbols <=? sym then 0 else last_timestamp_ns (meta e sym).

Definition active_order_count (e : LOBEngine) : Z := refmap.size (e_map e).
