(* ===== verification/LobStore.v ===== *)
(** * The level slab as lists of levels

    The engine keeps the levels of each side of each book in a contiguous run
    of the arena slab and moves them with memmove.  Here the run is read as a
    list, and the level operations of the engine (insertion, removal, update,
    binary search) are shown to be the list operations one expects. *)
From Stdlib Require Import ZArith Lia ZifyBool Sorted.
From S2P Require Import Prelude Config Numeric OrderRefMap Level Lob.

Definition valid_side (sym sd : Z) : Prop := 0 <= sym < kSymbols /\ (sd = 0 \/ sd = 1).

(** The active levels of a side, best price first. *)
Definition levels (e : LOBEngine) (sym sd : Z) : list PriceLevel :=
  level e sym sd <$> zrange 0 (Z.to_nat (level_count e sym sd)).

(** Every level of the slab has its sixteen slots and every side fits the slab. *)
Record store_ok (e : LOBEngine) : Prop := {
  so_slots i : length (orders (sget zero_level (e_lob e) i)) = Z.to_nat kMaxOrdersPerLevel;
  so_count sym sd : valid_side sym sd -> 0 <= level_count e sym sd <= kLevelsPerSide;
}.

(** [e'] differs from [e] in the side [sym], [sd] only, whose levels are [ls]. *)
Record side_becomes (e e' : LOBEngine) (sym sd : Z) (ls : list PriceLevel) : Prop := {
  sb_store : store_ok e';
  sb_levels sym' sd' : valid_side sym' sd' ->
    levels e' sym' sd' = if decide (sym' = sym /\ sd' = sd) then ls else levels e sym' sd';
  sb_stats : e_stats e' = e_stats e;
  sb_time sym' : last_timestamp_ns (meta e' sym') = last_timestamp_ns (meta e sym');
}.

(** ** Slab addressing *)
Lemma level_index_inj s d i s' d' i' :
  valid_side s d -> valid_side s' d' -> 0 <= i < kLevelsPerSide -> 0 <= i' < kLevelsPerSide ->
  level_index s d i = level_index s' d' i' -> s = s' /\ d = d' /\ i = i'.
Proof. unfold valid_side, level_index, kLevelsPerSide. lia. Qed.

Lemma level_set_level s d i l e s' d' i' :
  valid_side s d -> valid_side s' d' -> 0 <= i < kLevelsPerSide -> 0 <= i' < kLevelsPerSide ->
  level (set_level s d i l e) s' d' i' = if decide (s' = s /\ d' = d /\ i' = i) then l else level e s' d' i'.
Proof.
  intros. unfold level at 1, set_level. cbn [with_lob e_lob]. rewrite sget_insert.
  destruct (decide (level_index s d i = level_index s' d' i')) as [E|E].
  - apply level_index_inj in E as (-> & -> & ->); [|done..]. by rewrite decide_True.
  - rewrite decide_False; [done|]. by intros (-> & -> & ->).
Qed.

Lemma level_count_set_count s d n e s' d' :
  (d = 0 \/ d = 1) -> (d' = 0 \/ d' = 1) ->
  level_count (set_level_count s d n e) s' d' = if decide (s' = s /\ d' = d) then n else level_count e s' d'.
Proof.
  intros Hd Hd'. unfold level_count, set_level_count, meta. cbn [with_meta e_meta]. rewrite sget_insert.
  destruct (decide (s = s')) as [->|]; [|by rewrite (decide_False (P := s' = s /\ _)) by naive_solver].
  destruct Hd as [->| ->], Hd' as [->| ->]; simpl.
  all: repeat match goal with |- context [decide ?P] => destruct (decide P) end; naive_solver lia.
Qed.

Lemma timestamp_set_count s d n e s' :
  last_timestamp_ns (meta (set_level_count s d n e) s') = last_timestamp_ns (meta e s').
Proof.
  unfold meta, set_level_count. cbn [with_meta e_meta]. rewrite sget_insert.
  destruct (decide (s = s')) as [->|]; [|done]. by destruct (d =? 0).
Qed.

Lemma levels_lookup e sym sd (i : nat) :
  levels e sym sd !! i = if decide (Z.of_nat i < level_count e sym sd) then Some (level e sym sd (Z.of_nat i)) else None.
Proof.
  unfold levels, zrange. rewrite <- list_fmap_compose, list_lookup_fmap. case_decide.
  - by rewrite lookup_seq_lt by lia.
  - by rewrite lookup_seq_ge by lia.
Qed.

Lemma levels_length e sym sd : length (levels e sym sd) = Z.to_nat (level_count e sym sd).
Proof. unfold levels, zrange. by rewrite !length_fmap, length_seq. Qed.

Lemma levels_lookup_Z e sym sd i :
  0 <= i < level_count e sym sd -> levels e sym sd !! Z.to_nat i = Some (level e sym sd i).
Proof. intros. rewrite levels_lookup, decide_True, Z2Nat.id by lia. done. Qed.

Lemma store_ok_set_level e s d i l :
  store_ok e -> length (orders l) = Z.to_nat kMaxOrdersPerLevel -> store_ok (set_level s d i l e).
Proof.
  intros [Hs Hc] Hl. split; [|exact Hc]. intros j. cbn [set_level with_lob e_lob]. rewrite sget_insert. by case_decide.
Qed.

Lemma store_ok_set_count e s d n :
  store_ok e -> (d = 0 \/ d = 1) -> 0 <= n <= kLevelsPerSide -> store_ok (set_level_count s d n e).
Proof.
  intros [Hs Hc] Hd Hn. split; [exact Hs|]. intros s' d' H. rewrite level_count_set_count by (done || apply H).
  case_decide; [done|by apply Hc].
Qed.

(** ** memmove *)
Lemma move_levels_spec s d dst src n e :
  store_ok e -> valid_side s d -> 0 <= dst -> 0 <= n -> dst + n <= kLevelsPerSide ->
  let e' := move_levels s d dst src n e in
  store_ok e' /\ e_map e' = e_map e /\ e_meta e' = e_meta e /\ e_stats e' = e_stats e /\
  forall s' d' i, valid_side s' d' -> 0 <= i < kLevelsPerSide ->
    level e' s' d' i = if decide (s' = s /\ d' = d /\ dst <= i < dst + n) then level e s d (i - dst + src) else level e s' d' i.
Proof.
  intros Hok Hv Hd Hn Hk. unfold move_levels. pose proof (Z2Nat.id n Hn) as E.
  revert E Hk. generalize (Z.to_nat n) as k. intros k <-. clear Hn. intros Hk.
  set (f := fun (e' : LOBEngine) i => set_level s d (dst + i) (level e s d (src + i)) e').
  induction k as [|k IH].
  - simpl. split_and!; [done..|]. intros. rewrite decide_False; [done|lia].
  - unfold zrange in *. rewrite seq_S, fmap_app, foldl_app. cbn [fmap list_fmap foldl Nat.add].
    destruct IH as (Hok' & Hm & Hme & Hst & IH); [lia|]. set (e1 := foldl f e _) in *. unfold f at 1 2 3 4 5.
    split_and!; [|done..|].
    + apply store_ok_set_level; [done|]. apply Hok.
    + intros s' d' i Hv' Hi. rewrite level_set_level by (done || lia).
      destruct (decide (s' = s /\ d' = d /\ i = dst + (0 + Z.of_nat k))) as [(->&->&->)|Hne].
      * rewrite decide_True by lia. apply (f_equal (level e s d)). lia.
      * rewrite IH by done. destruct (decide (s' = s /\ d' = d /\ dst <= i < dst + Z.of_nat k)).
        -- rewrite decide_True by (rewrite Nat2Z.inj_succ; lia). done.
        -- rewrite decide_False by (rewrite Nat2Z.inj_succ; cbn [Nat.add] in Hne; lia). done.
Qed.

(** ** Re-registering moved orders *)

(** Slot [si] of a level holds the order [ref]. *)
Definition order_in (lvl : PriceLevel) (si ref : Z) : Prop :=
  is_active (slot_at lvl si) = true /\ order_id (slot_at lvl si) = ref.

#[export] Instance order_in_dec lvl si ref : Decision (order_in lvl si ref).
Proof. unfold order_in. apply _. Defined.

(** The slots a refresh of [n] levels from [first] visits. *)
Definition visits (first : Z) (n : nat) : list (Z * Z) :=
  zrange first n ≫= fun li => pair li <$> zrange 0 (Z.to_nat kMaxOrdersPerLevel).

Lemma elem_of_visits first n li si :
  (li, si) ∈ visits first n <-> first <= li < first + Z.of_nat n /\ valid_slot si.
Proof.
  unfold visits, valid_slot, kMaxOrdersPerLevel. rewrite list_elem_of_bind. split.
  - intros (li' & Hin & ?%elem_of_zrange). apply list_elem_of_fmap in Hin as (si' & [= -> ->] & ?%elem_of_zrange). lia.
  - intros. exists li. rewrite list_elem_of_fmap, elem_of_zrange. split; [|lia].
    exists si. rewrite elem_of_zrange. split; [done|lia].
Qed.

(** What a refresh of the visited slots [V] makes of the map [M]: every
    registered order found in a visited slot is re-registered there. *)
Definition refreshed (lv : Z -> PriceLevel) (s d : Z) (V : list (Z * Z)) (M M' : gmap Z OrderLocation) : Prop :=
  forall ref,
    (M' !! ref = M !! ref /\ (M !! ref = None \/ forall li si, (li, si) ∈ V -> ~ order_in (lv li) si ref)) \/
    (exists li si, (li, si) ∈ V /\ order_in (lv li) si ref /\ is_Some (M !! ref) /\ M' !! ref = Some (mkLoc s d li si)).

Lemma refreshed_nil lv s d M : refreshed lv s d [] M M.
Proof. intros ref. left. split; [done|]. right. by intros ?? ?%not_elem_of_nil. Qed.

(** One visit that re-registers the order of the slot, and one that finds none. *)
Lemma refreshed_hit lv s d V M M' li si :
  refreshed lv s d V M M' -> is_active (slot_at (lv li) si) = true ->
  is_Some (M' !! order_id (slot_at (lv li) si)) ->
  refreshed lv s d (V ++ [(li, si)]) M (<[order_id (slot_at (lv li) si) := mkLoc s d li si]> M').
Proof.
  intros HR Ha HM ref. destruct (decide (order_id (slot_at (lv li) si) = ref)) as [<-|Hne].
  - right. exists li, si. rewrite lookup_insert_eq. split_and!; [set_solver|done| |done].
    destruct (HR (order_id (slot_at (lv li) si))) as [[<- _]|(?&?&_&_&?&_)]; done.
  - rewrite lookup_insert_ne by done. destruct (HR ref) as [[E H]|(li' & si' & ? & ?)].
    + left. split; [done|]. destruct H as [?|H]; [by left|right]. intros li' si' [Hin|[= -> ->]%list_elem_of_singleton]%elem_of_app; [auto|].
      by intros [_ ?].
    + right. exists li', si'. split; [set_solver|done].
Qed.

Lemma refreshed_miss lv s d V M M' li si :
  refreshed lv s d V M M' -> (forall ref, order_in (lv li) si ref -> M' !! ref = None) ->
  refreshed lv s d (V ++ [(li, si)]) M M'.
Proof.
  intros HR Hmiss ref. destruct (HR ref) as [[E H]|(li' & si' & ? & ?)].
  - left. split; [done|]. destruct (M !! ref) eqn:HM; [right|by left]. destruct H as [?|H]; [done|].
    intros li' si' [Hin|[= -> ->]%list_elem_of_singleton]%elem_of_app; [auto|]. intros ?%Hmiss. congruence.
  - right. exists li', si'. split; [set_solver|done].
Qed.

Section refresh.
Context {R : OrderRefMap -> gmap Z OrderLocation -> Prop} {room : OrderRefMap -> Z -> Prop} `{!OrderIndex R room}.

Lemma refresh_slots e s d V M :
  R (e_map e) M ->
  exists m' M', foldl (fun e '(li, si) => refresh_slot s d li e si) e V = with_map m' e
    /\ R m' M' /\ refreshed (level e s d) s d V M M' /\ (forall k, room (e_map e) k -> room m' k).
Proof.
  intros HR. induction V as [|[li si] V IH] using rev_ind.
  - exists (e_map e), M. split_and!; [by destruct e|done|apply refreshed_nil|done].
  - destruct IH as (m' & M' & E & HR' & Href & Hroom). rewrite foldl_app, E. simpl. unfold refresh_slot.
    change (level (with_map m' e) s d li) with (level e s d li).
    change (e_map (with_map m' e)) with m'.
    destruct (is_active (slot_at (level e s d li) si)) eqn:Ha; cycle 1.
    { exists m', M'. split_and!; [done..| |done]. apply refreshed_miss; [done|]. intros ref [? _]. congruence. }
    destruct (refmap.lookup_slot _ m') as [k|] eqn:Hk.
    + exists (refmap.set_value k (mkLoc s d li si) m'), (<[order_id (slot_at (level e s d li) si) := mkLoc s d li si]> M').
      split_and!; [done|by apply index_update| |].
      * apply refreshed_hit; [done..|]. by eapply (index_lookup_slot (R := R)).
      * intros. by apply (index_room_update (R := R)), Hroom.
    + exists m', M'. split_and!; [done..| |done]. apply refreshed_miss; [done|]. intros ref [_ <-].
      by eapply (index_lookup_none (R := R)).
Qed.

Lemma foldl_visits (g : LOBEngine -> Z * Z -> LOBEngine) e first n :
  foldl (fun e li => foldl (fun e si => g e (li, si)) e (zrange 0 (Z.to_nat kMaxOrdersPerLevel))) e (zrange first n)
  = foldl g e (visits first n).
Proof.
  unfold visits. generalize (zrange first n) as L. intros L. revert e. induction L as [|li L IH]; intros e; [done|].
  cbn [foldl mbind list_bind]. by rewrite foldl_app, IH, foldl_fmap.
Qed.

Lemma refresh_level_locations_spec e s d first last M :
  R (e_map e) M -> first <= last + 1 ->
  exists m' M', refresh_level_locations s d first last e = with_map m' e
    /\ R m' M' /\ refreshed (level e s d) s d (visits first (Z.to_nat (last - first + 1))) M M'
    /\ (forall k, room (e_map e) k -> room m' k).
Proof.
  intros HR Hfl. unfold refresh_level_locations. destruct (Z.ltb_spec last first).
  - replace (Z.to_nat (last - first + 1)) with 0%nat by lia.
    exists (e_map e), M. split_and!; [by destruct e|done|apply refreshed_nil|done].
  - rewrite (foldl_visits (fun e '(li, si) => refresh_slot s d li e si)). by apply refresh_slots.
Qed.

End refresh.

(** ** Coherence of the map and the slab *)

(** Location [loc] of the book holds the order [ref]. *)
Definition holds (e : LOBEngine) (loc : OrderLocation) (ref : Z) : Prop :=
  valid_side (symbol_idx loc) (side loc) /\ valid_slot (slot_idx loc) /\ 0 <= level_idx loc /\
  exists lvl, levels e (symbol_idx loc) (side loc) !! Z.to_nat (level_idx loc) = Some lvl
    /\ order_in lvl (slot_idx loc) ref.

Definition coherent (e : LOBEngine) (M : gmap Z OrderLocation) : Prop :=
  forall ref loc, M !! ref = Some loc <-> holds e loc ref.

(** Levels moved within one side: level [j] of the new list is level [i] of
    the old one when [rho j i], and the slots of every level whose index
    changed were visited. *)
Record moved (ls ls' : list PriceLevel) (V : list (Z * Z)) (rho : nat -> nat -> Prop) : Prop := {
  mv_back j si ref lvl : ls' !! j = Some lvl -> valid_slot si -> order_in lvl si ref ->
    exists i lvl', rho j i /\ ls !! i = Some lvl' /\ order_in lvl' si ref;
  mv_forth i si ref lvl : ls !! i = Some lvl -> valid_slot si -> order_in lvl si ref ->
    exists j lvl', rho j i /\ ls' !! j = Some lvl' /\ order_in lvl' si ref;
  mv_fun i j j' : rho j i -> rho j' i -> j = j';
  mv_fixed i j si : rho j i -> valid_slot si -> (Z.of_nat j, si) ∉ V -> i = j;
  mv_valid li si : (li, si) ∈ V -> 0 <= li /\ valid_slot si;
}.

Lemma coherent_moved e e' M M' s d ls' V rho lv :
  coherent e M -> valid_side s d ->
  (forall s' d', valid_side s' d' -> levels e' s' d' = if decide (s' = s /\ d' = d) then ls' else levels e s' d') ->
  moved (levels e s d) ls' V rho -> refreshed lv s d V M M' ->
  (forall li si, (li, si) ∈ V -> ls' !! Z.to_nat li = Some (lv li)) ->
  coherent e' M'.
Proof.
  intros HC Hv Hls Hmv Href Hlv ref loc.
  assert (Hls' : levels e' s d = ls') by (rewrite Hls, decide_True; done).
  assert (Hold : forall j si lvl, ls' !! j = Some lvl -> valid_slot si -> order_in lvl si ref ->
     exists i, rho j i /\ M !! ref = Some (mkLoc s d (Z.of_nat i) si)).
  { intros j si lvl Hj Hsi Ho. destruct (mv_back _ _ _ _ Hmv _ _ _ _ Hj Hsi Ho) as (i & lvl' & Hr & Hi & Ho').
    exists i. split; [done|]. apply HC. split_and!; simpl; [done|done|lia|].
    exists lvl'. by rewrite Nat2Z.id. }
  split.
  - intros HM. destruct (Href ref) as [[E Hno]|(li & si & HV & Ho & _ & E)]; cycle 1.
    { rewrite HM in E. injection E as ->. destruct (mv_valid _ _ _ _ Hmv _ _ HV).
      split_and!; simpl; [done..|]. exists (lv li). rewrite Hls'. split; [eauto|done]. }
    destruct Hno as [?|Hno]; [congruence|]. rewrite HM in E. symmetry in E. pose proof E as Hh.
    apply HC in Hh as (Hvl & Hsi & Hl0 & lvl & Hl & Ho). unfold holds. split_and!; [done..|].
    rewrite Hls by done. destruct (decide _) as [[Es Ed]|]; [|by exists lvl]. rewrite Es, Ed in Hl.
    destruct (mv_forth _ _ _ _ Hmv _ _ _ _ Hl Hsi Ho) as (j & lvl' & Hr & Hj & Ho').
    destruct (decide ((Z.of_nat j, slot_idx loc) ∈ V)) as [HV|HV].
    + destruct (Hno _ _ HV). pose proof (Hlv _ _ HV) as E'. rewrite Nat2Z.id, Hj in E'. by injection E' as <-.
    + pose proof (mv_fixed _ _ _ _ Hmv _ _ _ Hr Hsi HV) as Eij. exists lvl'. by rewrite Eij.
  - intros (Hvl & Hsi & Hl0 & lvl & Hl & Ho). rewrite Hls in Hl by done.
    destruct (decide (symbol_idx loc = s /\ side loc = d)) as [[Es Ed]|Hne].
    + destruct (Hold _ _ _ Hl Hsi Ho) as (i & Hr & HM).
      destruct (Href ref) as [[E Hno]|(li & si & HV & Ho' & _ & E)].
      * destruct Hno as [?|Hno]; [congruence|].
        destruct (decide ((level_idx loc, slot_idx loc) ∈ V)) as [HV|HV].
        { destruct (Hno _ _ HV). pose proof (Hlv _ _ HV) as E'. rewrite Hl in E'. by injection E' as <-. }
        rewrite <- (Z2Nat.id (level_idx loc)) in HV by done.
        pose proof (mv_fixed _ _ _ _ Hmv _ _ _ Hr Hsi HV) as Eij.
        rewrite E, HM. f_equal. destruct loc; simpl in *. subst. f_equal. lia.
      * destruct (mv_valid _ _ _ _ Hmv _ _ HV) as [? ?].
        destruct (Hold _ _ _ (Hlv _ _ HV) ltac:(done) Ho') as (i' & Hr' & HM').
        rewrite HM in HM'. injection HM' as ? ?. assert (i' = i) as -> by lia.
        pose proof (mv_fun _ _ _ _ Hmv _ _ _ Hr Hr'). rewrite E. f_equal. destruct loc; simpl in *. subst. f_equal. lia.
    + assert (HM : M !! ref = Some loc) by (apply HC; split_and!; [done..|by exists lvl]).
      destruct (Href ref) as [[E Hno]|(li & si & HV & Ho' & _ & E)]; [congruence|].
      destruct (mv_valid _ _ _ _ Hmv _ _ HV) as [? ?].
      destruct (Hold _ _ _ (Hlv _ _ HV) ltac:(done) Ho') as (i' & Hr' & HM').
      rewrite HM in HM'. injection HM' as ->. by destruct Hne.
Qed.

(** ** Insertion of a level *)

(** [a] is a strictly better price than [b] on side [sd]. *)
Definition better (sd a b : Z) : bool := if sd =? 0 then b <? a else a <? b.

(** A level just created at [p]. *)
Definition empty_level (p : Z) : PriceLevel :=
  mkLevel (replicate (Z.to_nat kMaxOrdersPerLevel) default_slot) p 0 0 (-1).

Lemma reset_empty lvl p :
  length (orders lvl) = Z.to_nat kMaxOrdersPerLevel -> set_price p (reset lvl) = empty_level p.
Proof.
  intros Hl. unfold set_price, reset, empty_level. cbn [orders total_qty order_count head_idx]. rewrite <- Hl. f_equal.
  clear Hl. induction (orders lvl) as [|s l IH]; [done|]. cbn. by rewrite <- IH.
Qed.

Lemma empty_level_order_in p si ref : ~ order_in (empty_level p) si ref.
Proof.
  intros [H _]. unfold slot_at, lget, empty_level in H. cbn [orders] in H. destruct (0 <=? si); [|done].
  destruct (replicate _ _ !! _) eqn:E; simpl in H; [|done].
  apply lookup_replicate in E as [-> _]. done.
Qed.

Lemma insert_pos_loop_spec e s d price fuel i count :
  0 <= i -> count <= i + Z.of_nat fuel -> i <= count ->
  (forall j, 0 <= j < i -> better d price (Level.price (level e s d j)) = false) ->
  let p := insert_pos_loop e s d price fuel i count in
  0 <= p <= count /\ (forall j, 0 <= j < p -> better d price (Level.price (level e s d j)) = false)
  /\ (p < count -> better d price (Level.price (level e s d p)) = true).
Proof.
  revert i. induction fuel as [|fuel IH]; intros i Hi Hf Hic Hlt; cbn [insert_pos_loop].
  - assert (i = count) as -> by lia. split_and!; [lia..|done|lia].
  - destruct (Z.ltb_spec i count); [|assert (i = count) as -> by lia; split_and!; [lia..|done|lia]].
    change (if d =? 0 then Level.price (level e s d i) <? price else price <? Level.price (level e s d i))
      with (better d price (Level.price (level e s d i))).
    destruct (better d price (Level.price (level e s d i))) eqn:E; [split_and!; [lia..|done|done]|].
    apply IH; [lia..|]. intros j Hj. destruct (Z.eq_dec j i) as [->|]; [done|apply Hlt; lia].
Qed.

Lemma levels_ext e s d ls :
  Z.of_nat (length ls) = level_count e s d ->
  (forall i, (i < length ls)%nat -> ls !! i = Some (level e s d (Z.of_nat i))) -> levels e s d = ls.
Proof.
  intros Hl H. apply list_eq. intros i. rewrite levels_lookup. case_decide.
  - symmetry. apply H. lia.
  - symmetry. apply lookup_ge_None. lia.
Qed.

Lemma lookup_insert_at {A} (ls : list A) p x i :
  (p <= length ls)%nat ->
  (take p ls ++ x :: drop p ls) !! i = if decide (i < p)%nat then ls !! i else if decide (i = p) then Some x else ls !! (i - 1)%nat.
Proof.
  intros Hp. repeat case_decide.
  - rewrite lookup_app_l by (rewrite length_take; lia). by rewrite lookup_take_lt.
  - subst. rewrite lookup_app_r, length_take by (rewrite length_take; lia).
    by replace (p - p `min` length ls)%nat with 0%nat by lia.
  - rewrite lookup_app_r, length_take by (rewrite length_take; lia).
    replace (i - p `min` length ls)%nat with (S (i - 1 - p)) by lia. simpl. rewrite lookup_drop. f_equal. lia.
Qed.

Lemma moved_insert ls p x :
  (p <= length ls)%nat -> (forall si ref, ~ order_in x si ref) ->
  moved ls (take p ls ++ x :: drop p ls) (visits (Z.of_nat p + 1) (length ls - p)) 
    (fun j i => i < length ls /\ ((j < p /\ i = j) \/ (p < j /\ j = S i)))%nat.
Proof.
  intros Hp Hx. split.
  - intros j si ref lvl Hj Hsi Ho. rewrite lookup_insert_at in Hj by done. repeat case_decide.
    + exists j, lvl. pose proof (lookup_lt_Some _ _ _ Hj). split; [lia|done].
    + injection Hj as <-. by apply Hx in Ho.
    + exists (j - 1)%nat, lvl. pose proof (lookup_lt_Some _ _ _ Hj). split; [lia|done].
  - intros i si ref lvl Hi Hsi Ho. pose proof (lookup_lt_Some _ _ _ Hi).
    destruct (decide (i < p)%nat) as [|].
    + exists i, lvl. rewrite lookup_insert_at, decide_True by done. split; [lia|done].
    + exists (S i), lvl. rewrite lookup_insert_at, decide_False, decide_False by lia. split; [lia|].
      split; [|done]. rewrite <- Hi. f_equal. lia.
  - lia.
  - intros i j si Hr Hsi HV. rewrite elem_of_visits in HV. unfold valid_slot in *. lia.
  - intros li si [? ?]%elem_of_visits. split; [lia|done].
Qed.

Lemma insert_shift_uniform e s d p count :
  p <= count ->
  (if p <? count then refresh_level_locations s d (p + 1) count (move_levels s d (p + 1) p (count - p) e) else e)
  = refresh_level_locations s d (p + 1) count (move_levels s d (p + 1) p (count - p) e).
Proof.
  intros. destruct (Z.ltb_spec p count); [done|]. assert (p = count) as -> by lia.
  unfold refresh_level_locations, move_levels. rewrite Z.sub_diag. destruct (Z.ltb_spec count (count + 1)); [done|lia].
Qed.

(** Reading the levels of a state whose slab was shifted to make room at [p]. *)
Lemma insert_levels_read e e' s d p x :
  store_ok e -> valid_side s d -> 0 <= p <= level_count e s d -> level_count e s d < kLevelsPerSide ->
  (forall s' d', valid_side s' d' ->
    level_count e' s' d' = if decide (s' = s /\ d' = d) then level_count e s d + 1 else level_count e s' d') ->
  (forall s' d' i, valid_side s' d' -> 0 <= i < kLevelsPerSide ->
    level e' s' d' i =
      if decide (s' = s /\ d' = d /\ i = p) then x
      else if decide (s' = s /\ d' = d /\ p + 1 <= i < p + 1 + (level_count e s d - p)) then level e s d (i - (p + 1) + p)
      else level e s' d' i) ->
  forall s' d', valid_side s' d' ->
    levels e' s' d' = if decide (s' = s /\ d' = d)
                      then take (Z.to_nat p) (levels e s d) ++ x :: drop (Z.to_nat p) (levels e s d) else levels e s' d'.
Proof.
  intros Hok Hv Hp Hc Hcnt Hlev s' d' Hv'. pose proof (so_count _ Hok _ _ Hv').
  specialize (Hcnt s' d' Hv'). apply levels_ext.
  - rewrite Hcnt. case_decide; [|rewrite levels_length; lia].
    rewrite length_app. cbn [length]. rewrite length_take, length_drop, levels_length. lia.
  - intros i. destruct (decide (s' = s /\ d' = d)) as [[-> ->]|Hne].
    + rewrite length_app. cbn [length]. rewrite length_take, length_drop, levels_length. intros Hi.
      rewrite lookup_insert_at by (rewrite levels_length; lia). rewrite Hlev by (done || lia).
      repeat match goal with |- context [decide ?P] => destruct (decide P) end; try lia; try done.
      all: rewrite levels_lookup, decide_True by lia; do 2 f_equal; lia.
    + rewrite levels_length. intros Hi. rewrite levels_lookup, decide_True by lia. rewrite Hlev by (done || lia).
      rewrite !decide_False by naive_solver. done.
Qed.

(** ** Removal of a level *)
Lemma moved_delete ls p x :
  ls !! p = Some x -> (forall si ref, valid_slot si -> ~ order_in x si ref) ->
  moved ls (delete p ls) (visits (Z.of_nat p) (length ls - 1 - p))
    (fun j i => i < length ls /\ ((j < p /\ i = j) \/ (p <= j /\ i = S j)))%nat.
Proof.
  intros Hp Hx. pose proof (lookup_lt_Some _ _ _ Hp). split.
  - intros j si ref lvl Hj Hsi Ho. destruct (decide (j < p)%nat).
    + rewrite list_lookup_delete_lt in Hj by done. exists j, lvl. pose proof (lookup_lt_Some _ _ _ Hj). split; [lia|done].
    + rewrite list_lookup_delete_ge in Hj by lia. exists (S j), lvl. pose proof (lookup_lt_Some _ _ _ Hj). split; [lia|done].
  - intros i si ref lvl Hi Hsi Ho. pose proof (lookup_lt_Some _ _ _ Hi). destruct (decide (i = p)) as [->|].
    { rewrite Hp in Hi. injection Hi as <-. by apply Hx in Ho. }
    destruct (decide (i < p)%nat).
    + exists i, lvl. rewrite list_lookup_delete_lt by done. split; [lia|done].
    + exists (i - 1)%nat, lvl. rewrite list_lookup_delete_ge by lia.
      replace (S (i - 1)) with i by lia. split; [lia|done].
  - lia.
  - intros i j si Hr Hsi HV. rewrite elem_of_visits in HV. unfold valid_slot in *. lia.
  - intros li si [? ?]%elem_of_visits. split; [lia|done].
Qed.

Lemma remove_shift_uniform e s d p last :
  p <= last ->
  (if p <? last then refresh_level_locations s d p (last - 1) (move_levels s d p (p + 1) (last - p) e) else e)
  = refresh_level_locations s d p (last - 1) (move_levels s d p (p + 1) (last - p) e).
Proof.
  intros. destruct (Z.ltb_spec p last); [done|]. assert (p = last) as -> by lia.
  unfold refresh_level_locations, move_levels. rewrite Z.sub_diag. destruct (Z.ltb_spec (last - 1) last); [done|lia].
Qed.

Lemma remove_levels_read e e' s d p :
  store_ok e -> valid_side s d -> 0 <= p < level_count e s d ->
  (forall s' d', valid_side s' d' ->
    level_count e' s' d' = if decide (s' = s /\ d' = d) then level_count e s d - 1 else level_count e s' d') ->
  (forall s' d' i, valid_side s' d' -> 0 <= i < kLevelsPerSide -> ~ (s' = s /\ d' = d /\ i = level_count e s d - 1) ->
    level e' s' d' i =
      if decide (s' = s /\ d' = d /\ p <= i < p + (level_count e s d - 1 - p)) then level e s d (i - p + (p + 1))
      else level e s' d' i) ->
  forall s' d', valid_side s' d' ->
    levels e' s' d' = if decide (s' = s /\ d' = d) then delete (Z.to_nat p) (levels e s d) else levels e s' d'.
Proof.
  intros Hok Hv Hp Hcnt Hlev s' d' Hv'. pose proof (so_count _ Hok _ _ Hv').
  specialize (Hcnt s' d' Hv').
  assert (Hdl : length (delete (Z.to_nat p) (levels e s d)) = Z.to_nat (level_count e s d - 1)).
  { rewrite length_delete; [rewrite levels_length; lia|]. rewrite levels_lookup_Z by lia. done. }
  apply levels_ext.
  - rewrite Hcnt. case_decide; [rewrite Hdl; lia|rewrite levels_length; lia].
  - intros i. destruct (decide (s' = s /\ d' = d)) as [[-> ->]|Hne].
    + rewrite Hdl. intros Hi. rewrite Hlev by (done || lia).
      destruct (decide (i < Z.to_nat p)%nat).
      * rewrite list_lookup_delete_lt by done. rewrite decide_False by lia. rewrite levels_lookup, decide_True by lia. done.
      * rewrite list_lookup_delete_ge by lia. rewrite decide_True by lia. rewrite levels_lookup, decide_True by lia. do 2 f_equal. lia.
    + rewrite levels_length. intros Hi. rewrite levels_lookup, decide_True by lia. rewrite Hlev by (done || lia || naive_solver).
      rewrite !decide_False by naive_solver. done.
Qed.

Section level_ops.
Context {R : OrderRefMap -> gmap Z OrderLocation -> Prop} {room : OrderRefMap -> Z -> Prop} `{!OrderIndex R room}.

(** What a level operation leaves: the side has become [ls], and the map is
    still coherent with the slab and has kept its room. *)
Definition relocated (e e' : LOBEngine) (s d : Z) (ls : list PriceLevel) : Prop :=
  side_becomes e e' s d ls /\ (exists M', R (e_map e') M' /\ coherent e' M') /\
  forall k, room (e_map e) k -> room (e_map e') k.

Lemma insert_level_impl_spec e s d price M :
  store_ok e -> valid_side s d -> R (e_map e) M -> coherent e M -> level_count e s d < kLevelsPerSide ->
  let p := insert_pos_loop e s d price (Z.to_nat (level_count e s d)) 0 (level_count e s d) in
  exists e', insert_level_impl s d price e = (p, e') /\
    relocated e e' s d (take (Z.to_nat p) (levels e s d) ++ empty_level price :: drop (Z.to_nat p) (levels e s d)).
Proof.
  intros Hok Hv HR HC Hc p. pose proof (so_count _ Hok _ _ Hv) as Hc0.
  destruct (insert_pos_loop_spec e s d price (Z.to_nat (level_count e s d)) 0 (level_count e s d)) as [Hp _];
    [lia..|intros; lia|]. fold p in Hp. unfold insert_level_impl.
  destruct (Z.leb_spec kLevelsPerSide (level_count e s d)); [lia|]. fold p. clearbody p.
  rewrite insert_shift_uniform by lia. set (count := level_count e s d) in *.
  destruct (move_levels_spec s d (p + 1) p (count - p) e) as (Hok1 & Em & Eme & Est & Hlev); [done|done|lia..|].
  set (e1 := move_levels s d (p + 1) p (count - p) e) in *. rewrite <- Em in HR.
  destruct (refresh_level_locations_spec (R := R) e1 s d (p + 1) count M HR ltac:(lia)) as (m' & M' & -> & HR' & Href & Hroom).
  rewrite reset_empty by apply Hok1. eexists. split; [done|].
  set (e2 := set_level s d p (empty_level price) (with_map m' e1)).
  set (ls' := take (Z.to_nat p) (levels e s d) ++ empty_level price :: drop (Z.to_nat p) (levels e s d)).
  assert (Hcount : u16 (count + 1) = count + 1) by (apply wrap_u_id; unfold in_u, kLevelsPerSide in *; lia).
  rewrite Hcount.
  assert (Hok2 : store_ok e2) by (apply store_ok_set_level; [by destruct Hok1|done]).
  set (e3 := set_level_count s d (count + 1) e2).
  assert (Hlev3 : forall s' d' i, valid_side s' d' -> 0 <= i < kLevelsPerSide ->
    level e3 s' d' i = if decide (s' = s /\ d' = d /\ i = p) then empty_level price else level e1 s' d' i).
  { intros. unfold e3, e2. change (level (set_level_count s d (count + 1) ?x)) with (level x).
    rewrite level_set_level by (done || lia). done. }
  assert (Hcnt3 : forall s' d', valid_side s' d' ->
    level_count e3 s' d' = if decide (s' = s /\ d' = d) then count + 1 else level_count e s' d').
  { intros s' d' [_ Hd']. unfold e3. rewrite level_count_set_count by (done || apply Hv). case_decide; [done|].
    unfold level_count, meta, e2. cbn [set_level with_lob with_map e_meta]. by rewrite Eme. }
  assert (Hls : forall s' d', valid_side s' d' ->
    levels e3 s' d' = if decide (s' = s /\ d' = d) then ls' else levels e s' d').
  { apply insert_levels_read; try done. intros. rewrite Hlev3 by done. case_decide; [done|]. by apply Hlev. }
  assert (Hok3 : store_ok e3) by (apply store_ok_set_count; [done|apply Hv|lia]).
  split; [split; [done|done|exact Est|]|].
  { intros s'. unfold e3. rewrite timestamp_set_count. unfold meta, e2. cbn. by rewrite Eme. }
  split; [|intros k; rewrite <- Em; apply Hroom].
  exists M'. split; [done|]. eapply coherent_moved; [done|done|exact Hls|..].
  - apply (moved_insert _ (Z.to_nat p)); [rewrite levels_length; lia|]. intros. apply empty_level_order_in.
  - rewrite levels_length, Z2Nat.id by lia.
    replace (Z.to_nat (level_count e s d) - Z.to_nat p)%nat with (Z.to_nat (count - (p + 1) + 1)) by lia. exact Href.
  - intros li si Hin. rewrite levels_length, Z2Nat.id in Hin by lia. apply elem_of_visits in Hin as [Hli _].
    fold ls'. replace ls' with (levels e3 s d) by (rewrite Hls, decide_True; done).
    rewrite levels_lookup_Z by (rewrite Hcnt3, decide_True by done; lia).
    rewrite Hlev3, decide_False by (done || lia). done.
Qed.

Lemma remove_level_spec e s d p M :
  store_ok e -> valid_side s d -> R (e_map e) M -> coherent e M -> 0 <= p < level_count e s d ->
  order_count (level e s d p) <= 0 ->
  (forall si ref, valid_slot si -> ~ order_in (level e s d p) si ref) ->
  relocated e (remove_level_if_empty s d p e) s d (delete (Z.to_nat p) (levels e s d)).
Proof.
  intros Hok Hv HR HC Hp Hoc Hempty. pose proof (so_count _ Hok _ _ Hv) as Hc0. unfold remove_level_if_empty.
  destruct (Z.ltb_spec 0 (order_count (level e s d p))); [lia|].
  destruct (Z.eqb_spec (level_count e s d) 0); [lia|]. set (count := level_count e s d) in *.
  assert (Hcount : u16 (count - 1) = count - 1) by (apply wrap_u_id; unfold in_u, kLevelsPerSide in *; lia).
  rewrite Hcount. rewrite remove_shift_uniform by lia.
  destruct (move_levels_spec s d p (p + 1) (count - 1 - p) e) as (Hok1 & Em & Eme & Est & Hlev); [done|done|lia..|].
  set (e1 := move_levels s d p (p + 1) (count - 1 - p) e) in *. rewrite <- Em in HR.
  destruct (refresh_level_locations_spec (R := R) e1 s d p (count - 1 - 1) M HR ltac:(lia)) as (m' & M' & -> & HR' & Href & Hroom).
  set (lst := reset _). set (e2 := set_level s d (count - 1) lst (with_map m' e1)).
  set (e3 := set_level_count s d (count - 1) e2).
  assert (Hok2 : store_ok e2).
  { apply store_ok_set_level; [by destruct Hok1|]. unfold lst, reset. cbn [orders]. rewrite length_fmap. apply Hok1. }
  assert (Hlev3 : forall s' d' i, valid_side s' d' -> 0 <= i < kLevelsPerSide ->
    ~ (s' = s /\ d' = d /\ i = count - 1) -> level e3 s' d' i = level e1 s' d' i).
  { intros. unfold e3, e2. change (level (set_level_count s d (count - 1) ?x)) with (level x).
    rewrite level_set_level by (done || lia). by rewrite decide_False. }
  assert (Hcnt3 : forall s' d', valid_side s' d' ->
    level_count e3 s' d' = if decide (s' = s /\ d' = d) then count - 1 else level_count e s' d').
  { intros s' d' [_ Hd']. unfold e3. rewrite level_count_set_count by (done || apply Hv). case_decide; [done|].
    unfold level_count, meta, e2. cbn [set_level with_lob with_map e_meta]. by rewrite Eme. }
  assert (Hls : forall s' d', valid_side s' d' ->
    levels e3 s' d' = if decide (s' = s /\ d' = d) then delete (Z.to_nat p) (levels e s d) else levels e s' d').
  { apply remove_levels_read; try done. intros. rewrite Hlev3 by done. by apply Hlev. }
  assert (Hok3 : store_ok e3) by (apply store_ok_set_count; [done|apply Hv|lia]).
  split; [split; [done|done|exact Est|]|].
  { intros s'. unfold e3. rewrite timestamp_set_count. unfold meta, e2. cbn. by rewrite Eme. }
  split; [|intros k; rewrite <- Em; apply Hroom].
  exists M'. split; [done|]. eapply coherent_moved; [done|done|exact Hls|..].
  - eapply (moved_delete _ (Z.to_nat p)); [by apply levels_lookup_Z|done].
  - rewrite levels_length, Z2Nat.id by lia.
    replace (Z.to_nat (level_count e s d) - 1 - Z.to_nat p)%nat with (Z.to_nat (count - 1 - 1 - p + 1)) by lia. exact Href.
  - intros li si Hin. rewrite levels_length, Z2Nat.id in Hin by lia. apply elem_of_visits in Hin as [Hli _].
    replace (delete (Z.to_nat p) (levels e s d)) with (levels e3 s d) by (rewrite Hls, decide_True; done).
    rewrite levels_lookup_Z by (rewrite Hcnt3, decide_True by done; lia).
    rewrite Hlev3 by (done || lia). done.
Qed.

End level_ops.

(** ** Binary search *)

(** The prices of a side improve strictly towards the top of the book. *)
Definition side_sorted (sd : Z) (ls : list PriceLevel) : Prop :=
  StronglySorted (fun a b => better sd (price a) (price b) = true) ls.

Lemma better_trans sd a b c : better sd a b = true -> better sd b c = true -> better sd a c = true.
Proof. unfold better. destruct (sd =? 0); lia. Qed.

Lemma better_irrefl sd a : better sd a a = false.
Proof. unfold better. destruct (sd =? 0); lia. Qed.

Lemma better_total sd a b : better sd a b = false -> a = b \/ better sd b a = true.
Proof. unfold better. destruct (sd =? 0); lia. Qed.

Lemma side_sorted_lookup sd ls i j a b :
  side_sorted sd ls -> (i < j)%nat -> ls !! i = Some a -> ls !! j = Some b -> better sd (price a) (price b) = true.
Proof.
  intros Hs. revert i j. induction Hs as [|x ls Hs IH Hall]; intros i j Hij Hi Hj; [done|].
  destruct i as [|i], j as [|j]; try lia; simpl in *.
  - injection Hi as <-. rewrite Forall_forall in Hall. apply Hall. by eapply list_elem_of_lookup_2.
  - eapply (IH i j); [lia|done|done].
Qed.

Lemma find_loop_spec e s d price fuel low high count :
  (forall i j, 0 <= i -> i < j -> j < count ->
     better d (Level.price (level e s d i)) (Level.price (level e s d j)) = true) ->
  0 <= low -> high < count -> high - low + 1 < Z.of_nat fuel ->
  (forall i, 0 <= i < count -> Level.price (level e s d i) = price -> low <= i <= high) ->
  let r := find_loop e s d price fuel low high in
  (0 <= r < count /\ Level.price (level e s d r) = price)
  \/ (r = -1 /\ forall i, 0 <= i < count -> Level.price (level e s d i) <> price).
Proof.
  intros Hs. revert low high. induction fuel as [|fuel IH]; intros low high Hl Hh Hf Hin; cbn [find_loop].
  { right. split; [done|]. intros i Hi E. specialize (Hin i Hi E). lia. }
  destruct (Z.leb_spec low high); [|right; split; [done|]; intros i Hi E; specialize (Hin i Hi E); lia].
  set (mid := low + Z.quot (high - low) 2).
  assert (low <= mid <= high) by (unfold mid; Z.to_euclidean_division_equations; lia). clearbody mid.
  destruct (Z.eqb_spec (Level.price (level e s d mid)) price) as [E|E]; [left; split; [lia|done]|].
  change (if d =? 0 then Level.price (level e s d mid) <? price else price <? Level.price (level e s d mid))
    with (better d price (Level.price (level e s d mid))).
  destruct (better d price (Level.price (level e s d mid))) eqn:Hb.
  - apply IH; [lia..|]. intros i Hi Ei. specialize (Hin i Hi Ei). destruct (Z.lt_ge_cases i mid); [lia|].
    destruct (Z.eq_dec i mid) as [->|]; [done|]. pose proof (Hs mid i ltac:(lia) ltac:(lia) ltac:(lia)) as Hmi.
    rewrite Ei in Hmi. pose proof (better_trans _ _ _ _ Hb Hmi). by rewrite better_irrefl in *.
  - apply IH; [lia..|]. intros i Hi Ei. specialize (Hin i Hi Ei). destruct (Z.lt_ge_cases mid i); [lia|].
    destruct (Z.eq_dec i mid) as [->|]; [done|]. pose proof (Hs i mid ltac:(lia) ltac:(lia) ltac:(lia)) as Hmi.
    rewrite Ei in Hmi. congruence.
Qed.

Lemma find_level_spec e s d price :
  store_ok e -> valid_side s d -> side_sorted d (levels e s d) ->
  (exists lvl, 0 <= find_level e s d price /\
     levels e s d !! Z.to_nat (find_level e s d price) = Some lvl /\ Level.price lvl = price)
  \/ (find_level e s d price = -1 /\ forall lvl, lvl ∈ levels e s d -> Level.price lvl <> price).
Proof.
  intros Hok Hv Hs. pose proof (so_count _ Hok _ _ Hv). unfold find_level.
  destruct (Z.eqb_spec (level_count e s d) 0) as [E|E].
  { right. split; [done|]. intros lvl Hin. unfold levels in Hin. rewrite E in Hin. by apply not_elem_of_nil in Hin. }
  destruct (find_loop_spec e s d price (S (Z.to_nat (level_count e s d))) 0 (level_count e s d - 1) (level_count e s d))
    as [[Hr Hp]|[Hr Hno]]; [|lia..| | |].
  - intros i j ???. eapply (side_sorted_lookup d (levels e s d) (Z.to_nat i) (Z.to_nat j)); [done|lia|..];
      apply levels_lookup_Z; lia.
  - intros. lia.
  - left. eexists. split; [lia|]. rewrite levels_lookup_Z by lia. done.
  - right. split; [done|]. intros lvl [i Hi]%list_elem_of_lookup_1. rewrite levels_lookup in Hi.
    case_decide; [|done]. injection Hi as <-. apply Hno. lia.
Qed.

(** ** Update of one level *)
Lemma set_level_becomes e s d i l :
  store_ok e -> valid_side s d -> 0 <= i < level_count e s d ->
  length (orders l) = Z.to_nat kMaxOrdersPerLevel ->
  side_becomes e (set_level s d i l e) s d (<[Z.to_nat i := l]> (levels e s d)).
Proof.
  intros Hok Hv Hi Hl. pose proof (so_count _ Hok _ _ Hv). split; [by apply store_ok_set_level| |done|done].
  intros s' d' Hv'. pose proof (so_count _ Hok _ _ Hv'). apply levels_ext.
  - change (level_count (set_level s d i l e)) with (level_count e).
    case_decide as Hd; [destruct Hd as [-> ->]; rewrite length_insert|]; rewrite levels_length; lia.
  - intros j Hj. rewrite level_set_level by (done || case_decide; rewrite ?length_insert, levels_length in Hj; lia || lia).
    destruct (decide (s' = s /\ d' = d)) as [[-> ->]|Hne].
    + rewrite length_insert, levels_length in Hj. destruct (decide (Z.of_nat j = i)) as [<-|].
      * rewrite Nat2Z.id, list_lookup_insert_eq by (rewrite levels_length; lia). by rewrite decide_True.
      * rewrite list_lookup_insert_ne by lia. rewrite decide_False by lia. by rewrite levels_lookup, decide_True by lia.
    + rewrite levels_length in Hj. rewrite decide_False by naive_solver. by rewrite levels_lookup, decide_True by lia.
Qed.
