(* ===== verification/BookSpec.v ===== *)
(** * The price-time priority book: abstract specification

    A side of a book is the list of its prices, best first, each with the
    queue of its resting orders, oldest first.  The specification of a market
    data message is what it does to that list; locations, slots and level
    indices do not occur in it.  Pure lemmas about the specification follow. *)
From Stdlib Require Import ZArith Lia ZifyBool Sorted.
From S2P Require Import Prelude Config Numeric OrderRefMap Level Lob LobStore.

(** Orders are (reference, quantity) pairs. *)
Abbreviation Queue := (list (Z * Z)).
Abbreviation Side := (list (Z * Queue)).
Definition Book : Type := Z -> Z -> Side.

(** Books are compared on the sides that exist. *)
#[export] Instance Book_equiv : Equiv Book := fun B B' =>
  forall s d, valid_side s d -> B s d = B' s d.

#[export] Instance Book_equivalence : Equivalence (≡@{Book}).
Proof.
  split.
  - by intros B s d.
  - intros B B' H s d Hv. by rewrite H.
  - intros B1 B2 B3 H1 H2 s d Hv. by rewrite H1, H2.
Qed.

(** ** Operations *)

(** Append an order at price [p], opening the price in its place. *)
Fixpoint spec_add (d p r q : Z) (L : Side) : Side :=
  match L with
  | [] => [(p, [(r, q)])]
  | (p', l) :: L' =>
      if p =? p' then (p', l ++ [(r, q)]) :: L'
      else if better d p p' then (p, [(r, q)]) :: L
      else (p', l) :: spec_add d p r q L'
  end.

(** Change the quantity of order [r] by [f], which may retire it. *)
Definition edit_queue (r : Z) (f : Z -> option Z) (l : Queue) : Queue :=
  omap (fun o => if fst o =? r then pair (fst o) <$> f (snd o) else Some o) l.

(** Prices whose queue has become empty leave the side. *)
Definition spec_edit (r : Z) (f : Z -> option Z) (L : Side) : Side :=
  filter (fun pl => snd pl <> []) ((fun pl => (fst pl, edit_queue r f (snd pl))) <$> L).

(** A fill or a partial cancel of [n]. *)
Definition take_qty (n q : Z) : option Z := if q - n <=? 0 then None else Some (q - n).

Definition on_side (s d : Z) (f : Side -> Side) (B : Book) : Book :=
  fun s' d' => if decide (s' = s /\ d' = d) then f (B s' d') else B s' d'.

Definition on_all (f : Side -> Side) (B : Book) : Book := fun s d => f (B s d).

#[export] Instance on_side_proper s d f : Proper ((≡) ==> (≡)) (on_side s d f).
Proof. intros B B' H s' d' Hv. unfold on_side. by rewrite (H _ _ Hv). Qed.

#[export] Instance on_all_proper f : Proper ((≡) ==> (≡)) (on_all f).
Proof. intros B B' H s' d' Hv. unfold on_all. by rewrite (H _ _ Hv). Qed.

(** ** Observations *)
Definition side_refs (L : Side) : list Z := L ≫= fun pl => fst <$> snd pl.

(** Order [r] rests on side [s], [d]. *)
Definition rests (B : Book) (s d r : Z) : Prop := valid_side s d /\ r ∈ side_refs (B s d).

(** The fixed capacities of the slab leave no room for one more order at [p]. *)
Definition no_room (p : Z) (L : Side) : Prop :=
  (exists l, (p, l) ∈ L /\ length l = Z.to_nat kMaxOrdersPerLevel)
  \/ ((forall l, (p, l) ∉ L) /\ length L = Z.to_nat kLevelsPerSide).

Definition tick_side (t : TickMsg) : Z := if Z.land (t_flags t) tick_flags.kBuy =? 0 then 1 else 0.

(** ** Steps

    [book_step add_full repl_full B t B']: message [t] takes book [B] to [B'].
    [add_full r] says that the index gives no guarantee for the new reference
    [r]: it may refuse the addition, and only then.  [repl_full r] says that
    the pre-flight check of a replacement fails for [r]. *)
Inductive book_step (add_full repl_full : Z -> Prop) (B : Book) (t : TickMsg) : Book -> Prop :=
  | step_add B' :
      t_msg_type t ∈ [itch.kAddOrder; itch.kAddOrderMPID] ->
      (forall s d, ~ rests B s d (t_order_ref t)) ->
      ~ no_room (t_price t) (B (t_symbol_idx t) (tick_side t)) ->
      B' ≡ on_side (t_symbol_idx t) (tick_side t)
             (spec_add (tick_side t) (t_price t) (t_order_ref t) (t_qty t)) B ->
      book_step add_full repl_full B t B'
  | step_add_refused B' :
      t_msg_type t ∈ [itch.kAddOrder; itch.kAddOrderMPID] ->
      (exists s d, rests B s d (t_order_ref t))
      \/ no_room (t_price t) (B (t_symbol_idx t) (tick_side t)) \/ add_full (t_order_ref t) ->
      B' ≡ B -> book_step add_full repl_full B t B'
  | step_reduce B' :
      t_msg_type t ∈ [itch.kOrderExecuted; itch.kOrderExecPrice; itch.kOrderCancel] ->
      B' ≡ on_all (spec_edit (t_order_ref t) (take_qty (t_qty t))) B ->
      book_step add_full repl_full B t B'
  | step_delete B' :
      t_msg_type t = itch.kOrderDelete ->
      B' ≡ on_all (spec_edit (t_order_ref t) (fun _ => None)) B ->
      book_step add_full repl_full B t B'
  | step_replace B' s d :
      t_msg_type t = itch.kOrderReplace -> rests B s d (t_order_ref t) ->
      (forall s' d', ~ rests B s' d' (t_match_num t)) -> ~ repl_full (t_match_num t) ->
      let B1 := on_all (spec_edit (t_order_ref t) (fun _ => None)) B in
      ~ no_room (t_price t) (B1 s d) ->
      B' ≡ on_side s d (spec_add d (t_price t) (t_match_num t) (t_qty t)) B1 ->
      book_step add_full repl_full B t B'
  | step_replace_refused B' :
      t_msg_type t = itch.kOrderReplace ->
      (forall s d, ~ rests B s d (t_order_ref t))
      \/ (exists s d, rests B s d (t_match_num t)) \/ repl_full (t_match_num t) ->
      B' ≡ B -> book_step add_full repl_full B t B'
  | step_replace_lost B' s d :
      t_msg_type t = itch.kOrderReplace -> rests B s d (t_order_ref t) ->
      (forall s' d', ~ rests B s' d' (t_match_num t)) -> ~ repl_full (t_match_num t) ->
      let B1 := on_all (spec_edit (t_order_ref t) (fun _ => None)) B in
      no_room (t_price t) (B1 s d) -> B' ≡ B1 -> book_step add_full repl_full B t B'
  | step_trade B' : t_msg_type t = itch.kTrade -> B' ≡ B -> book_step add_full repl_full B t B'.

(** The guards of [process_unlocked]: messages that do not pass them change no book. *)
Definition well_formed (t : TickMsg) : bool :=
  let ref_ok := negb (t_order_ref t =? 0) in
  let qty_ok := numeric.is_valid_quantity (t_qty t) in
  let price_ok := numeric.is_valid_price (t_price t) in
  let ty := t_msg_type t in
  (t_symbol_idx t <? kSymbols) &&
  if (ty =? itch.kAddOrder) || (ty =? itch.kAddOrderMPID) then ref_ok && qty_ok && price_ok
  else if (ty =? itch.kOrderExecuted) || (ty =? itch.kOrderExecPrice) || (ty =? itch.kOrderCancel) then ref_ok && qty_ok
  else if ty =? itch.kOrderDelete then ref_ok
  else if ty =? itch.kOrderReplace then
    ref_ok && negb (t_match_num t =? 0) && negb (t_order_ref t =? t_match_num t) && qty_ok && price_ok
  else (ty =? itch.kTrade) && qty_ok && price_ok.

(** ** Lemmas *)
Lemma edit_queue_id r f l : r ∉ fst <$> l -> edit_queue r f l = l.
Proof.
  induction l as [|[r' q] l IH]; intros Hin; [done|]. rewrite fmap_cons, not_elem_of_cons in Hin.
  destruct Hin as [Hne Hin]. cbn in *. destruct (Z.eqb_spec r' r); [congruence|].
  f_equal. by apply IH.
Qed.

Lemma edit_queue_at r f l1 q l2 :
  r ∉ fst <$> l1 -> r ∉ fst <$> l2 ->
  edit_queue r f (l1 ++ (r, q) :: l2) = l1 ++ from_option (fun v => [(r, v)]) [] (f q) ++ l2.
Proof.
  intros H1 H2. unfold edit_queue. rewrite omap_app. cbn [omap list_omap].
  fold (edit_queue r f l1). cbn. rewrite Z.eqb_refl. fold (edit_queue r f l2).
  rewrite !edit_queue_id by done. by destruct (f q).
Qed.

Lemma spec_edit_app r f L1 L2 : spec_edit r f (L1 ++ L2) = spec_edit r f L1 ++ spec_edit r f L2.
Proof. unfold spec_edit. by rewrite fmap_app, filter_app. Qed.

Lemma side_refs_app L1 L2 : side_refs (L1 ++ L2) = side_refs L1 ++ side_refs L2.
Proof. unfold side_refs. by rewrite bind_app. Qed.

Lemma side_refs_cons p l L : side_refs ((p, l) :: L) = (fst <$> l) ++ side_refs L.
Proof. done. Qed.

(** No price of the side is empty. *)
Definition no_empty (L : Side) : Prop := Forall (fun pl => snd pl <> []) L.

Lemma spec_edit_id r f L : no_empty L -> r ∉ side_refs L -> spec_edit r f L = L.
Proof.
  induction 1 as [|[p l] L Hl HL IH]; intros Hr; [done|]. rewrite side_refs_cons, not_elem_of_app in Hr.
  destruct Hr as [Hr1 Hr2]. change ((p, l) :: L) with ([(p, l)] ++ L). rewrite spec_edit_app, IH by done.
  unfold spec_edit. cbn [fmap list_fmap fst snd]. rewrite edit_queue_id by done. by rewrite filter_cons_True.
Qed.

Lemma spec_edit_at r f L1 p l1 q l2 L2 :
  no_empty (L1 ++ (p, l1 ++ (r, q) :: l2) :: L2) -> r ∉ side_refs L1 -> r ∉ side_refs L2 ->
  r ∉ fst <$> l1 -> r ∉ fst <$> l2 ->
  spec_edit r f (L1 ++ (p, l1 ++ (r, q) :: l2) :: L2) =
  L1 ++ filter (fun pl => snd pl <> []) [(p, l1 ++ from_option (fun v => [(r, v)]) [] (f q) ++ l2)] ++ L2.
Proof.
  intros HE H1 H2 H3 H4. unfold no_empty in HE. rewrite Forall_app, Forall_cons in HE. destruct HE as (HE1 & _ & HE2).
  change (?a :: L2) with ([a] ++ L2). rewrite !spec_edit_app, (spec_edit_id r f L1), (spec_edit_id r f L2) by done.
  unfold spec_edit. cbn [fmap list_fmap fst snd]. by rewrite edit_queue_at.
Qed.

Lemma spec_add_here d p r q L1 l L2 :
  Forall (fun pl => fst pl <> p /\ better d p (fst pl) = false) L1 ->
  spec_add d p r q (L1 ++ (p, l) :: L2) = L1 ++ (p, l ++ [(r, q)]) :: L2.
Proof.
  induction 1 as [|[p' l'] L1 [Hne Hb] HL IH]; cbn [spec_add app].
  - by rewrite Z.eqb_refl.
  - simpl in *. destruct (Z.eqb_spec p p'); [congruence|]. by rewrite Hb, IH.
Qed.

Lemma spec_add_new d p r q L1 L2 :
  Forall (fun pl => fst pl <> p /\ better d p (fst pl) = false) L1 ->
  match L2 with [] => True | (p', _) :: _ => better d p p' = true end ->
  spec_add d p r q (L1 ++ L2) = L1 ++ (p, [(r, q)]) :: L2.
Proof.
  intros H1 H2. induction H1 as [|[p' l'] L1 [Hne Hb] HL IH]; cbn [spec_add app].
  - destruct L2 as [|[p' l'] L2]; [done|]. cbn [spec_add]. destruct (Z.eqb_spec p p') as [->|]; [by rewrite better_irrefl in H2|].
    by rewrite H2.
  - simpl in *. destruct (Z.eqb_spec p p'); [congruence|]. by rewrite Hb, IH.
Qed.

(** An edit adds no order. *)
Lemma spec_edit_refs r f L k : k ∈ side_refs (spec_edit r f L) -> k ∈ side_refs L.
Proof.
  unfold side_refs, spec_edit. rewrite !list_elem_of_bind. intros ([p l] & Hk & Hin).
  apply list_elem_of_filter in Hin as [_ Hin]. apply list_elem_of_fmap in Hin as ([p' l'] & [= -> ->] & Hin).
  exists (p', l'). split; [|done]. simpl in *. apply list_elem_of_fmap in Hk as ([k' q] & -> & Hk).
  unfold edit_queue in Hk. apply list_elem_of_omap in Hk as ([k0 q0] & Hk & E). simpl in *. apply list_elem_of_fmap.
  exists (k0, q0). split; [|done]. destruct (k0 =? r); [destruct (f q0)|]; by simplify_eq/=.
Qed.

#[export] Instance rests_proper : Proper ((≡) ==> (=) ==> (=) ==> (=) ==> iff) rests.
Proof.
  assert (Hi : forall B B' s d r, B ≡ B' -> rests B s d r -> rests B' s d r).
  { intros B B' s d r E [Hv Hr]. split; [done|]. by rewrite <- (E s d Hv). }
  intros B B' E s s' <- d d' <- r r' <-. split; apply Hi; by rewrite E.
Qed.

(** A step depends on the sides that exist only. *)
Lemma book_step_equiv a r B B2 t B' :
  B ≡ B2 -> 0 <= t_symbol_idx t < kSymbols -> book_step a r B t B' -> book_step a r B2 t B'.
Proof.
  intros E Hs H. assert (Hv : valid_side (t_symbol_idx t) (tick_side t)).
  { split; [done|]. unfold tick_side. case_if; tauto. }
  assert (Er : forall s d k, rests B s d k <-> rests B2 s d k) by (intros; by rewrite E).
  assert (En : forall f s d p, valid_side s d -> no_room p (on_all f B s d) <-> no_room p (on_all f B2 s d))
    by (intros f s d p Hsd; unfold on_all; by rewrite (E s d Hsd)).
  destruct H as [B' Ht Hr Hn HB|B' Ht Hr HB|B' Ht HB|B' Ht HB|B' s d Ht Hr Hr' Hf B1 Hn HB|B' Ht Hr HB|B' s d Ht Hr Hr' Hf B1 Hn HB|B' Ht HB].
  - apply step_add; [done|by setoid_rewrite <- Er|by rewrite <- (E _ _ Hv)|by rewrite HB, E].
  - apply step_add_refused; [done| |by rewrite HB]. setoid_rewrite <- Er. by rewrite <- (E _ _ Hv).
  - apply step_reduce; [done|by rewrite HB, E].
  - apply step_delete; [done|by rewrite HB, E].
  - eapply (step_replace _ _ _ _ _ s d); [done|by apply Er|by setoid_rewrite <- Er|done|by rewrite <- En by apply Hr|].
    rewrite HB. unfold B1. by rewrite E.
  - apply step_replace_refused; [done|by setoid_rewrite <- Er|by rewrite HB].
  - eapply (step_replace_lost _ _ _ _ _ s d); [done|by apply Er|by setoid_rewrite <- Er|done|by rewrite <- En by apply Hr|].
    rewrite HB. unfold B1. by rewrite E.
  - apply step_trade; [done|by rewrite HB].
Qed.
