(* ===== verification/LobRefine.v ===== *)
(** * LOBEngine implements the price-time priority book

    The invariant of the engine, its preservation by every handler, and the
    refinement of the abstract book of BookSpec. *)
From Stdlib Require Import ZArith Lia ZifyBool Sorted.
From stdpp Require Import sorting.
From S2P Require Import Prelude Config Numeric OrderRefMap Level Lob LobStore BookSpec.

(** ** Abstraction *)

(** The slots of a level in list order: follow [next_idx] from [head_idx]. *)
Fixpoint queue_from (lvl : PriceLevel) (fuel : nat) (i : Z) : list Z :=
  match fuel with
  | O => []
  | S fuel => if i =? -1 then [] else i :: queue_from lvl fuel (next_idx (slot_at lvl i))
  end.

Definition queue_of (lvl : PriceLevel) : list Z := queue_from lvl (Z.to_nat kMaxOrdersPerLevel) (head_idx lvl).

(** The orders of a level, oldest first. *)
Definition resting (lvl : PriceLevel) : Queue := level_queue lvl (queue_of lvl).

Definition view_of (ls : list PriceLevel) : Side := (fun lvl => (price lvl, resting lvl)) <$> ls.

Definition book_view (e : LOBEngine) : Book := fun s d => view_of (levels e s d).

(** ** Invariant *)

(** A level whose links, aggregates and quantities are in order. *)
Definition level_fine (lvl : PriceLevel) : Prop :=
  (exists q, level_wf lvl q /\ forall i, i ∈ q -> numeric.is_valid_quantity (qty (slot_at lvl i)) = true)
  /\ numeric.is_valid_price (price lvl) = true.

(** The client of the index: everything below is proved against the interface
    of the reference map. *)
Section refine.
Context {R : OrderRefMap -> gmap Z OrderLocation -> Prop} {room : OrderRefMap -> Z -> Prop} `{!OrderIndex R room}.

Record book_core (e : LOBEngine) (M : gmap Z OrderLocation) : Prop := {
  bc_store : store_ok e;
  bc_map : R (e_map e) M;
  bc_coherent : coherent e M;
  bc_fine s d : valid_side s d -> Forall level_fine (levels e s d);
  bc_sorted s d : valid_side s d -> side_sorted d (levels e s d);
}.

(** Between messages no level is empty. *)
Definition nonempty (lvl : PriceLevel) : Prop := 0 < order_count lvl.

Definition book_ok (e : LOBEngine) : Prop :=
  (exists M, book_core e M) /\ forall s d, valid_side s d -> Forall nonempty (levels e s d).

(** ** Levels and queues *)
Lemma queue_from_seg lvl fuel q p c l :
  (length q <= fuel)%nat -> Forall valid_slot q -> seg (slot_at lvl) p c q l (-1) -> queue_from lvl fuel c = q.
Proof.
  revert p c q. induction fuel as [|fuel IH]; intros p c q Hlen Hv Hs.
  { destruct q; [done|simpl in Hlen; lia]. }
  destruct q as [|i q]; cbn [queue_from].
  - by destruct Hs as [_ ->].
  - destruct Hs as (-> & _ & Hs). apply Forall_cons in Hv as [Hi Hv].
    destruct (Z.eqb_spec i (-1)); [unfold valid_slot in Hi; lia|]. f_equal. simpl in Hlen. eapply IH; [lia|done|done].
Qed.

Lemma queue_of_links lvl q : level_links lvl q -> queue_of lvl = q.
Proof.
  intros H. destruct (lo_chain _ _ H) as [l Hs]. eapply queue_from_seg; [|apply H|done].
  by apply level_count_bound in H.
Qed.

Lemma resting_wf lvl q : level_wf lvl q -> resting lvl = level_queue lvl q.
Proof. intros H. unfold resting. by rewrite (queue_of_links lvl q) by apply H. Qed.

Lemma resting_ref lvl q r :
  level_wf lvl q -> r ∈ fst <$> resting lvl <-> exists si, valid_slot si /\ order_in lvl si r.
Proof.
  intros H. rewrite (resting_wf lvl q) by done. unfold level_queue. rewrite <- list_fmap_compose, list_elem_of_fmap. split.
  - intros (i & -> & Hi). exists i. assert (valid_slot i) by (eapply lo_range; [apply H|done]).
    split; [done|]. split; [by apply (lo_active _ _ H)|done].
  - intros (si & Hsi & Ha & <-). exists si. split; [done|]. by apply (lo_active _ _ H).
Qed.

Lemma resting_empty lvl q : level_wf lvl q -> resting lvl = [] <-> order_count lvl = 0.
Proof.
  intros H. rewrite (resting_wf lvl q), (lo_count _ _ H) by done. destruct q; simpl; split; try done; lia.
Qed.

Lemma resting_length lvl q : level_wf lvl q -> Z.of_nat (length (resting lvl)) = order_count lvl.
Proof. intros H. rewrite (resting_wf lvl q), (lo_count _ _ H) by done. unfold level_queue. by rewrite length_fmap. Qed.

Lemma view_of_app l1 l2 : view_of (l1 ++ l2) = view_of l1 ++ view_of l2.
Proof. apply fmap_app. Qed.

Lemma view_no_empty ls : Forall level_fine ls -> Forall nonempty ls -> no_empty (view_of ls).
Proof.
  intros Hf Hn. unfold no_empty, view_of. rewrite Forall_fmap. rewrite Forall_forall in *. intros lvl Hl.
  destruct (Hf _ Hl) as [(q & Hq & _) _]. simpl. rewrite (resting_empty lvl q) by done. specialize (Hn _ Hl). unfold nonempty in Hn. lia.
Qed.

Lemma view_ref ls r :
  Forall level_fine ls ->
  r ∈ side_refs (view_of ls) <-> exists i lvl si, ls !! i = Some lvl /\ valid_slot si /\ order_in lvl si r.
Proof.
  intros Hf. unfold side_refs, view_of. rewrite list_elem_of_bind. split.
  - intros (pl & Hr & Hin). apply list_elem_of_fmap in Hin as (lvl & -> & Hin). simpl in Hr.
    rewrite Forall_forall in Hf. destruct (Hf _ Hin) as [(q & Hq & _) _]. apply (resting_ref lvl q) in Hr as (si & ?); [|done].
    apply list_elem_of_lookup_1 in Hin as [i ?]. by exists i, lvl, si.
  - intros (i & lvl & si & Hi & ?). apply list_elem_of_lookup_2 in Hi. exists (price lvl, resting lvl).
    split; [|apply list_elem_of_fmap; by exists lvl]. rewrite Forall_forall in Hf. destruct (Hf _ Hi) as [(q & Hq & _) _].
    apply (resting_ref lvl q); [done|]. by exists si.
Qed.

(** An order rests on a side exactly when the map has it there. *)
Lemma rests_iff e M s d r :
  book_core e M -> rests (book_view e) s d r <-> exists loc, M !! r = Some loc /\ symbol_idx loc = s /\ side loc = d.
Proof.
  intros H. unfold rests, book_view. split.
  - intros [Hv Hr]. apply view_ref in Hr as (i & lvl & si & Hi & Hsi & Ho); [|by eapply bc_fine].
    exists (mkLoc s d (Z.of_nat i) si). split; [|done]. apply (bc_coherent _ _ H). unfold holds. simpl.
    split_and!; [done|done|lia|]. exists lvl. by rewrite Nat2Z.id.
  - intros (loc & HM & <- & <-). apply (bc_coherent _ _ H) in HM as (Hv & Hsi & Hl & lvl & Hlvl & Ho).
    split; [done|]. apply view_ref; [by eapply bc_fine|]. by exists (Z.to_nat (level_idx loc)), lvl, (slot_idx loc).
Qed.

(** ** Replacing one level of a side *)

(** One level at [i] of side [s], [d] is replaced by [lvl']. *)
Lemma holds_replaced e e' s d i lvl' loc r :
  valid_side s d -> (i < length (levels e s d))%nat ->
  (forall s' d', valid_side s' d' ->
     levels e' s' d' = if decide (s' = s /\ d' = d) then <[i := lvl']> (levels e s d) else levels e s' d') ->
  holds e' loc r <->
  if decide (symbol_idx loc = s /\ side loc = d /\ level_idx loc = Z.of_nat i)
  then valid_slot (slot_idx loc) /\ order_in lvl' (slot_idx loc) r else holds e loc r.
Proof.
  intros Hv Hi Hls. unfold holds. destruct (decide _) as [(Es & Ed & El)|Hne].
  - rewrite Es, Ed, El, Nat2Z.id, Hls, decide_True by done. rewrite list_lookup_insert_eq by done. split.
    + intros (_ & ? & _ & lvl & [= <-] & ?). done.
    + intros [??]. split_and!; [apply Hv..|done|lia|]. by exists lvl'.
  - split; intros (Hv' & Hsi & Hl & lvl & Hlvl & Ho); (split_and!; [done..|]); exists lvl; (split; [|done]);
      rewrite Hls in * by done; destruct (decide (symbol_idx loc = s /\ side loc = d)) as [[Es Ed]|]; try done;
      rewrite Es, Ed in *; rewrite list_lookup_insert_ne in * by (intros ->; apply Hne; lia); done.
Qed.

Lemma Forall_replaced (P : PriceLevel -> Prop) e e' s d i lvl' :
  (forall s' d', valid_side s' d' ->
     levels e' s' d' = if decide (s' = s /\ d' = d) then <[i := lvl']> (levels e s d) else levels e s' d') ->
  (forall s' d', valid_side s' d' -> Forall P (levels e s' d')) -> P lvl' ->
  forall s' d', valid_side s' d' -> Forall P (levels e' s' d').
Proof.
  intros Hls HP Hl s' d' Hv. rewrite Hls by done. case_decide as E; [|auto]. destruct E as [-> ->].
  apply Forall_insert; auto.
Qed.

Lemma side_sorted_prices d ls ls' : price <$> ls = price <$> ls' -> side_sorted d ls -> side_sorted d ls'.
Proof.
  unfold side_sorted. intros E. revert ls' E.
  induction ls as [|x ls IH]; intros [|x' ls'] E Hs; try done. injection E as Ex E.
  change (price <$> ls = price <$> ls') in E.
  apply StronglySorted_inv in Hs as [Hs Hall]. constructor; [by apply IH|].
  rewrite Forall_forall in *. intros y Hy. rewrite <- Ex.
  assert (Hp : price y ∈ price <$> ls) by (rewrite E; by apply list_elem_of_fmap_2).
  apply list_elem_of_fmap in Hp as (z & -> & Hz). by apply Hall.
Qed.

(** The location of an order, with everything the invariant says about it. *)
Lemma located e M r loc :
  book_core e M -> M !! r = Some loc ->
  exists lvl q1 q2,
    valid_side (symbol_idx loc) (side loc) /\ valid_slot (slot_idx loc) /\
    0 <= level_idx loc < level_count e (symbol_idx loc) (side loc) /\
    levels e (symbol_idx loc) (side loc) !! Z.to_nat (level_idx loc) = Some lvl /\
    level e (symbol_idx loc) (side loc) (level_idx loc) = lvl /\
    level_fine lvl /\ level_wf lvl (q1 ++ slot_idx loc :: q2) /\ order_in lvl (slot_idx loc) r /\
    (forall i, i ∈ q1 ++ slot_idx loc :: q2 -> numeric.is_valid_quantity (qty (slot_at lvl i)) = true).
Proof.
  intros H HM. pose proof HM as Hh. apply (bc_coherent _ _ H) in Hh as (Hv & Hsi & Hl & lvl & Hlvl & Ho).
  assert (Hf : level_fine lvl) by (eapply Forall_lookup_1; [by apply (bc_fine _ _ H)|done]).
  pose proof Hf as [(q & Hwf & Hq) _].
  assert (Hin : slot_idx loc ∈ q) by (apply (lo_active _ _ Hwf); [done|apply Ho]).
  apply list_elem_of_split in Hin as (q1 & q2 & ->). exists lvl, q1, q2.
  pose proof (lookup_lt_Some _ _ _ Hlvl) as Hlt. rewrite levels_length in Hlt.
  pose proof (so_count _ (bc_store _ _ H) _ _ Hv). split_and!; try done; try lia.
  rewrite levels_lookup_Z in Hlvl by lia. by injection Hlvl.
Qed.

(** ** The three ways a slot changes *)

(** Same orders. *)
Lemma coherent_same e e' M s d i lvl lvl' :
  coherent e M -> valid_side s d -> levels e s d !! i = Some lvl ->
  (forall s' d', valid_side s' d' ->
     levels e' s' d' = if decide (s' = s /\ d' = d) then <[i := lvl']> (levels e s d) else levels e s' d') ->
  (forall j r, valid_slot j -> order_in lvl' j r <-> order_in lvl j r) -> coherent e' M.
Proof.
  intros HC Hv Hi Hls Ho r loc. rewrite (holds_replaced e e' s d i lvl') by (done || by eapply lookup_lt_Some).
  rewrite (HC r loc). case_decide as E; [|done]. destruct E as (Es & Ed & El). unfold holds. rewrite Es, Ed, El, Nat2Z.id, Hi. split.
  - intros (_ & ? & _ & ? & [= <-] & ?). split; [done|by apply Ho].
  - intros [? ?%Ho]; [|done]. split_and!; [done|done|lia|]. by exists lvl.
Qed.

(** One order less. *)
Lemma coherent_pop e e' M r loc i lvl lvl' :
  coherent e M -> M !! r = Some loc -> level_idx loc = Z.of_nat i ->
  levels e (symbol_idx loc) (side loc) !! i = Some lvl ->
  (forall s' d', valid_side s' d' ->
     levels e' s' d' = if decide (s' = symbol_idx loc /\ d' = side loc)
                       then <[i := lvl']> (levels e (symbol_idx loc) (side loc)) else levels e s' d') ->
  (forall j r', valid_slot j -> order_in lvl' j r' <-> j <> slot_idx loc /\ order_in lvl j r') ->
  coherent e' (delete r M).
Proof.
  intros HC HM El Hi Hls Ho r' loc'. pose proof HM as Hh. apply HC in Hh as (Hv & Hsi & _ & lvl0 & Hl & Ho').
  rewrite El, Nat2Z.id, Hi in Hl. injection Hl as <-.
  rewrite (holds_replaced e e' (symbol_idx loc) (side loc) i lvl') by (done || by eapply lookup_lt_Some).
  rewrite lookup_delete_Some, (HC r' loc'). case_decide as E.
  - destruct E as (Es & Ed & El'). unfold holds. rewrite Es, Ed, El', Nat2Z.id, Hi. split.
    + intros (Hne & _ & ? & _ & ? & [= <-] & H0). split; [done|]. apply Ho; [done|]. split; [|done].
      intros E. rewrite E in *. destruct Ho' as [_ Hid], H0 as [_ Hid']. congruence.
    + intros [Hs [Hne H0]%Ho]; [|done]. split; [|split_and!; [done|done|lia|by exists lvl]].
      intros <-. assert (Hh : M !! r = Some loc').
      { apply HC. unfold holds. rewrite Es, Ed, El', Nat2Z.id, Hi. split_and!; [done|done|lia|by exists lvl]. }
      rewrite HM in Hh. injection Hh as ->. done.
  - split; [by intros [_ ?]|]. intros Hh. split; [|done]. intros <-. apply HC in Hh. rewrite HM in Hh.
    injection Hh as <-. by apply E.
Qed.

(** One order more. *)
Lemma coherent_push e e' M r loc i lvl lvl' :
  coherent e M -> M !! r = None -> level_idx loc = Z.of_nat i ->
  valid_side (symbol_idx loc) (side loc) -> valid_slot (slot_idx loc) ->
  levels e (symbol_idx loc) (side loc) !! i = Some lvl ->
  (forall s' d', valid_side s' d' ->
     levels e' s' d' = if decide (s' = symbol_idx loc /\ d' = side loc)
                       then <[i := lvl']> (levels e (symbol_idx loc) (side loc)) else levels e s' d') ->
  (forall j r', valid_slot j -> order_in lvl' j r' <-> if decide (j = slot_idx loc) then r' = r else order_in lvl j r') ->
  (forall r', ~ order_in lvl (slot_idx loc) r') ->
  coherent e' (<[r := loc]> M).
Proof.
  intros HC HM El Hv Hsi Hi Hls Ho Hfree r' loc'.
  rewrite (holds_replaced e e' (symbol_idx loc) (side loc) i lvl') by (done || by eapply lookup_lt_Some).
  assert (Hcase : M !! r' = Some loc' -> r <> r') by (intros ? <-; congruence).
  rewrite lookup_insert_Some. case_decide as E.
  - destruct E as (Es & Ed & El'). split.
    + intros [[<- <-]|[Hne HM']]; [split; [done|]; apply Ho; [done|]; by rewrite decide_True|].
      apply HC in HM' as (_ & ? & _ & lvl0 & Hl & Ho'). rewrite Es, Ed, El', Nat2Z.id, Hi in Hl. injection Hl as <-.
      split; [done|]. apply Ho; [done|]. case_decide as E; [|done]. rewrite E in Ho'. by apply Hfree in Ho'.
    + intros [Hs Hin]. apply Ho in Hin; [|done]. case_decide as E.
      * left. subst r'. split; [done|]. destruct loc, loc'; simpl in *; congruence.
      * right. assert (HM' : M !! r' = Some loc').
        { apply HC. unfold holds. rewrite Es, Ed, El', Nat2Z.id, Hi. split_and!; [done|done|lia|by exists lvl]. }
        auto.
  - rewrite <- (HC r' loc'). split; [|by auto]. intros [[<- <-]|[_ ?]]; [by destruct E|done].
Qed.

(** ** Bounds of the aggregates *)
Definition queue_valid (lvl : PriceLevel) (q : list Z) : Prop :=
  forall i, i ∈ q -> numeric.is_valid_quantity (qty (slot_at lvl i)) = true.

Lemma zsum_bounds {A} (f : A -> Z) l lo hi :
  0 <= lo -> (forall x, x ∈ l -> lo <= f x <= hi) ->
  0 <= zsum (f <$> l) <= Z.of_nat (length l) * hi.
Proof.
  intros Hlo H. induction l as [|x l IH]; [simpl; lia|]. rewrite fmap_cons, zsum_cons. cbn [length].
  pose proof (H x ltac:(left)). destruct IH; [intros; apply H; by right|]. lia.
Qed.

Lemma level_bounds lvl q :
  level_wf lvl q -> queue_valid lvl q ->
  0 <= total_qty lvl <= 16 * numeric.kMaxQuantity /\ 0 <= order_count lvl <= 16.
Proof.
  intros H Hq. pose proof (level_count_bound _ _ (lo_links _ _ H)). rewrite (lo_total _ _ H), (lo_count _ _ H).
  destruct (zsum_bounds (fun i => qty (slot_at lvl i)) q 0 numeric.kMaxQuantity) as [? ?]; [lia| |].
  { intros i Hi%Hq. unfold numeric.is_valid_quantity, numeric.kMinQuantity in Hi. lia. }
  unfold numeric.kMaxQuantity in *. lia.
Qed.

Lemma level_qty_le_total lvl q1 i q2 :
  level_wf lvl (q1 ++ i :: q2) -> queue_valid lvl (q1 ++ i :: q2) -> 0 < qty (slot_at lvl i) <= total_qty lvl.
Proof.
  intros H Hq. rewrite (lo_total _ _ H), fmap_app, fmap_cons, zsum_app, zsum_cons.
  assert (Hv : forall j, j ∈ q1 ++ i :: q2 -> 0 < qty (slot_at lvl j) <= numeric.kMaxQuantity).
  { intros j Hj%Hq. unfold numeric.is_valid_quantity, numeric.kMinQuantity in Hj. lia. }
  destruct (zsum_bounds (fun i => qty (slot_at lvl i)) q1 0 numeric.kMaxQuantity) as [? _]; [lia| |].
  { intros j Hj. specialize (Hv j ltac:(set_solver)). lia. }
  destruct (zsum_bounds (fun i => qty (slot_at lvl i)) q2 0 numeric.kMaxQuantity) as [? _]; [lia| |].
  { intros j Hj. specialize (Hv j ltac:(set_solver)). lia. }
  specialize (Hv i ltac:(set_solver)). lia.
Qed.

(** Every registered location passes the engine's validity check. *)
Lemma checked_location_spec e M r : book_core e M -> checked_location e r = M !! r.
Proof.
  intros H. unfold checked_location. rewrite (index_lookup _ _ _ (bc_map _ _ H)).
  destruct (M !! r) as [loc|] eqn:HM; [|done].
  destruct (located e M r loc H HM) as (lvl & q1 & q2 & [Hs Hd] & Hsi & Hl & _ & El & _ & Hwf & [Ha Hid] & Hq).
  destruct (level_bounds _ _ Hwf Hq). pose proof (level_qty_le_total _ _ _ _ Hwf Hq).
  assert (0 < order_count lvl) by (rewrite (lo_count _ _ Hwf), length_app; simpl; lia).
  assert (Hvl : valid_location e r loc = true); [|by rewrite Hvl].
  unfold valid_location. rewrite El, Ha. unfold valid_slot in Hsi. case_if; lia.
Qed.

(** ** Retiring an order *)
Lemma total_qty_unlink i lvl : total_qty (unlink_slot i lvl) = total_qty lvl /\ order_count (unlink_slot i lvl) = order_count lvl.
Proof. unfold unlink_slot. cbv zeta. repeat case_if; done. Qed.

Lemma pop_order_totals i lvl : total_qty (pop_order i lvl) = total_qty lvl /\ order_count (pop_order i lvl) = order_count lvl.
Proof. apply (total_qty_unlink i lvl). Qed.

Lemma pop_order_set_totals i a b lvl : pop_order i (set_totals a b lvl) = set_totals a b (pop_order i lvl).
Proof.
  unfold pop_order, unlink_slot. cbv zeta.
  change (slot_at (set_totals a b lvl)) with (slot_at lvl).
  destruct (negb (prev_idx (slot_at lvl i) =? -1)).
  - change (upd_slot ?p ?f (set_totals a b lvl)) with (set_totals a b (upd_slot p f lvl)).
    change (slot_at (set_totals a b ?x)) with (slot_at x). by case_if.
  - change (set_head ?p (set_totals a b lvl)) with (set_totals a b (set_head p lvl)).
    change (slot_at (set_totals a b ?x)) with (slot_at x). by case_if.
Qed.

Lemma level_set_level_eq s d i l e : level (set_level s d i l e) s d i = l.
Proof. apply sget_insert_eq. Qed.

Lemma set_level_twice s d i l l' e : set_level s d i l' (set_level s d i l e) = set_level s d i l' e.
Proof. unfold set_level, with_lob. cbn. by rewrite insert_insert_eq. Qed.

Lemma order_in_data s s' r : data s = data s' -> (is_active s = true /\ order_id s = r <-> is_active s' = true /\ order_id s' = r).
Proof. intros E. rewrite (data_active _ _ E). by injection E as -> _ _. Qed.

(** The level after the order at [si] is gone. *)
Definition popped (lvl lvl' : PriceLevel) (q1 : list Z) (si : Z) (q2 : list Z) : Prop :=
  level_wf lvl' (q1 ++ q2) /\ price lvl' = price lvl /\
  forall j, data (slot_at lvl' j) = if decide (si = j) then (0, 0, 0) else data (slot_at lvl j).

Lemma popped_order_in lvl lvl' q1 si q2 j r :
  popped lvl lvl' q1 si q2 -> order_in lvl' j r <-> j <> si /\ order_in lvl j r.
Proof.
  intros (_ & _ & Hd). specialize (Hd j). unfold order_in. destruct (decide (si = j)) as [->|].
  - injection Hd as Hi _ Hf. unfold is_active. rewrite Hf. simpl. naive_solver.
  - rewrite (order_in_data _ _ r Hd). naive_solver.
Qed.

Lemma level_queue_ext lvl lvl' q :
  (forall j, j ∈ q -> data (slot_at lvl' j) = data (slot_at lvl j)) -> level_queue lvl' q = level_queue lvl q.
Proof.
  intros H. unfold level_queue. apply list_fmap_ext. intros i j Hj. apply list_elem_of_lookup_2 in Hj.
  specialize (H _ Hj). by injection H as -> -> _.
Qed.

Lemma popped_fine lvl lvl' q1 si q2 :
  level_wf lvl (q1 ++ si :: q2) -> popped lvl lvl' q1 si q2 -> queue_valid lvl (q1 ++ si :: q2) ->
  numeric.is_valid_price (price lvl) = true ->
  level_fine lvl' /\ resting lvl' = level_queue lvl q1 ++ level_queue lvl q2.
Proof.
  intros Hw (Hwf & Hp & Hd) Hq Hpr. pose proof (lo_nodup _ _ (lo_links _ _ Hw)) as Hnd.
  apply NoDup_app in Hnd as (_ & Hdis & [Hi2 _]%NoDup_cons).
  assert (Hsame : forall j, j ∈ q1 ++ q2 -> data (slot_at lvl' j) = data (slot_at lvl j)).
  { intros j Hj. rewrite Hd, decide_False; [done|]. intros <-. apply elem_of_app in Hj as [?|?]; [|done].
    apply (Hdis si); [done|by left]. }
  split.
  - split; [|by rewrite Hp]. exists (q1 ++ q2). split; [done|]. intros i Hi. specialize (Hsame i Hi).
    injection Hsame as _ -> _. apply Hq. set_solver.
  - rewrite (resting_wf lvl' (q1 ++ q2)) by done. rewrite (level_queue_ext lvl lvl') by done. apply fmap_app.
Qed.

(** ** The outcome of a handler *)

(** [e'] is in order, shows the book [B], and has kept the statistics and the
    timestamps. *)
Record outcome (e e' : LOBEngine) (B : Book) : Prop := {
  oc_ok : book_ok e';
  oc_view : book_view e' ≡ B;
  oc_stats : e_stats e' = e_stats e;
  oc_time sym : last_timestamp_ns (meta e' sym) = last_timestamp_ns (meta e sym);
}.

(** ... and the index has kept its room. *)
Definition handled (e e' : LOBEngine) (B : Book) : Prop :=
  outcome e e' B /\ forall k, room (e_map e) k -> room (e_map e') k.

Lemma handled_refl e B : book_ok e -> book_view e ≡ B -> handled e e B.
Proof. intros. by split; [split|]. Qed.

Lemma handled_view e e' B B' : handled e e' B -> B ≡ B' -> handled e e' B'.
Proof. intros [[] ?] E. split; [split|]; try done. by rewrite <- E. Qed.

(** The core invariant after one level changed. *)
Lemma core_replaced e e' M M' s d i lvl lvl' :
  book_core e M -> valid_side s d -> levels e s d !! i = Some lvl ->
  side_becomes e e' s d (<[i := lvl']> (levels e s d)) ->
  R (e_map e') M' -> coherent e' M' -> level_fine lvl' -> price lvl' = price lvl -> book_core e' M'.
Proof.
  intros H Hv Hi Hsb HR HC Hf Hp. split; [apply Hsb|done|done| |].
  - eapply Forall_replaced; [apply Hsb|apply H|done].
  - intros s' d' Hv'. rewrite (sb_levels _ _ _ _ _ Hsb) by done. case_decide as E; [|by apply H].
    destruct E as [-> ->]. eapply side_sorted_prices; [|by apply (bc_sorted _ _ H)].
    rewrite list_fmap_insert, Hp. symmetry. apply list_insert_id. by rewrite list_lookup_fmap, Hi.
Qed.

(** The core invariant after an empty level left. *)
Lemma core_deleted e e' M M' s d i :
  book_core e M -> valid_side s d -> side_becomes e e' s d (delete i (levels e s d)) ->
  R (e_map e') M' -> coherent e' M' -> book_core e' M'.
Proof.
  intros H Hv Hsb HR HC. split; [apply Hsb|done|done| |]; intros s' d' Hv'; rewrite (sb_levels _ _ _ _ _ Hsb) by done;
    (case_decide as E; [destruct E as [-> ->]|by apply H]).
  - apply Forall_delete. by apply H.
  - rewrite delete_take_drop. pose proof (bc_sorted _ _ H _ _ Hv) as Hs.
    destruct (levels e s d !! i) as [x|] eqn:Hi; cycle 1.
    { apply lookup_ge_None in Hi. rewrite drop_ge, take_ge, app_nil_r by lia. done. }
    unfold side_sorted in *. rewrite <- (take_drop_middle _ _ _ Hi) in Hs.
    rewrite StronglySorted_app, StronglySorted_cons in Hs. apply StronglySorted_app.
    destruct Hs as (Hs1 & Hs2 & _ & Hs3). split_and!; [|done..]. intros a b ? ?. apply Hs1; [done|by right].
Qed.

(** The view of a side around the level of order [r]. *)
Lemma edit_located e M r loc lvl q1 q2 f :
  book_core e M -> (forall s d, valid_side s d -> Forall nonempty (levels e s d)) -> M !! r = Some loc ->
  levels e (symbol_idx loc) (side loc) !! Z.to_nat (level_idx loc) = Some lvl ->
  level_wf lvl (q1 ++ slot_idx loc :: q2) -> order_in lvl (slot_idx loc) r ->
  let ls := levels e (symbol_idx loc) (side loc) in
  let i := Z.to_nat (level_idx loc) in
  on_all (spec_edit r f) (book_view e) ≡
  on_side (symbol_idx loc) (side loc) (fun _ =>
    view_of (take i ls) ++
    filter (fun pl => snd pl <> [])
      [(price lvl, level_queue lvl q1 ++ from_option (fun v => [(r, v)]) [] (f (qty (slot_at lvl (slot_idx loc)))) ++ level_queue lvl q2)]
    ++ view_of (drop (S i) ls)) (book_view e).
Proof.
  intros H Hne HM Hl Hwf [Ha Hid] ls i s d Hv. unfold on_all, on_side.
  assert (Hnr : forall s' d', rests (book_view e) s' d' r -> s' = symbol_idx loc /\ d' = side loc).
  { intros s' d' (loc' & HM' & <- & <-)%(rests_iff _ M); [|done]. rewrite HM in HM'. by injection HM' as <-. }
  destruct (decide (s = symbol_idx loc /\ d = side loc)) as [[-> ->]|Hno]; cycle 1.
  { apply spec_edit_id; [apply view_no_empty; [by eapply bc_fine|by apply Hne]|].
    intros Hin. destruct (Hnr s d); [by split|]. by apply Hno. }
  unfold book_view at 1. fold ls. pose proof (take_drop_middle _ _ _ Hl) as Els. fold ls in Els. fold i in Els.
  assert (Huniq : forall j lvl' sj, ls !! j = Some lvl' -> valid_slot sj -> order_in lvl' sj r -> j = i /\ sj = slot_idx loc).
  { intros j lvl' sj Hj Hsj Ho. assert (Hh : M !! r = Some (mkLoc (symbol_idx loc) (side loc) (Z.of_nat j) sj)).
    { apply (bc_coherent _ _ H). unfold holds. simpl. split_and!; [done|done|lia|]. exists lvl'. by rewrite Nat2Z.id. }
    rewrite HM in Hh. injection Hh as Hh. unfold i. rewrite Hh. cbn [level_idx slot_idx]. by rewrite Nat2Z.id. }
  assert (Hfine : Forall level_fine (take i ls) /\ Forall level_fine (drop (S i) ls)).
  { pose proof (bc_fine _ _ H _ _ Hv) as Hf. fold ls in Hf. rewrite <- Els, Forall_app, Forall_cons in Hf. tauto. }
  rewrite <- Els at 1. rewrite view_of_app. cbn [view_of fmap list_fmap]. fold (view_of (drop (S i) ls)).
  assert (Erest : resting lvl = level_queue lvl q1 ++ (r, qty (slot_at lvl (slot_idx loc))) :: level_queue lvl q2).
  { rewrite (resting_wf lvl _ Hwf). unfold level_queue at 1. by rewrite fmap_app, fmap_cons, Hid. }
  rewrite Erest.
  pose proof (lo_nodup _ _ (lo_links _ _ Hwf)) as Hnd. apply NoDup_app in Hnd as (_ & Hdis & [Hi2 _]%NoDup_cons).
  assert (Hval : forall j, j ∈ q1 ++ slot_idx loc :: q2 -> valid_slot j) by (intros; eapply lo_range; [apply Hwf|done]).
  assert (Hr : forall q, (forall j, j ∈ q -> j ∈ q1 ++ slot_idx loc :: q2) -> slot_idx loc ∉ q -> r ∉ fst <$> level_queue lvl q).
  { intros q Hsub Hnin Hin. unfold level_queue in Hin. rewrite <- list_fmap_compose in Hin.
    apply list_elem_of_fmap in Hin as (j & Ej & Hj). simpl in Ej.
    destruct (Huniq i lvl j) as [_ ->]; [done|auto| |done]. split; [apply (lo_active _ _ Hwf); auto|done]. }
  apply spec_edit_at.
  - rewrite <- Erest. change (no_empty (view_of (take i ls) ++ view_of (lvl :: drop (S i) ls))).
    rewrite <- view_of_app, Els. apply view_no_empty; [by eapply bc_fine|by apply Hne].
  - intros (j & lvl' & sj & Hj & Hsj & Ho)%view_ref; [|apply Hfine]. pose proof (lookup_lt_Some _ _ _ Hj) as Hlt.
    rewrite length_take in Hlt. rewrite lookup_take_lt in Hj by lia. destruct (Huniq j lvl' sj Hj Hsj Ho). lia.
  - intros (j & lvl' & sj & Hj & Hsj & Ho)%view_ref; [|apply Hfine]. rewrite lookup_drop in Hj.
    destruct (Huniq _ lvl' sj Hj Hsj Ho). lia.
  - apply Hr; [set_solver|]. intros ?. apply (Hdis (slot_idx loc)); [done|by left].
  - apply Hr; [set_solver|done].
Qed.

(** ** Retiring, reducing and dropping an order *)
Lemma becomes_trans e e1 e2 s d ls1 ls2 :
  side_becomes e e1 s d ls1 -> side_becomes e1 e2 s d ls2 -> side_becomes e e2 s d ls2.
Proof.
  intros H1 H2. split; [apply H2| | |].
  - intros s' d' Hv. rewrite (sb_levels _ _ _ _ _ H2) by done. case_decide as E; [done|].
    by rewrite (sb_levels _ _ _ _ _ H1), decide_False.
  - by rewrite (sb_stats _ _ _ _ _ H2), (sb_stats _ _ _ _ _ H1).
  - intros k. by rewrite (sb_time _ _ _ _ _ H2), (sb_time _ _ _ _ _ H1).
Qed.

Lemma becomes_refl e s d : store_ok e -> side_becomes e e s d (levels e s d).
Proof. intros. split; [done| |done|done]. intros s' d' Hv. case_decide as E; [by destruct E as [-> ->]|done]. Qed.

Lemma becomes_with_map e e' s d ls m : side_becomes e e' s d ls -> side_becomes e (with_map m e') s d ls.
Proof. intros [[??] ???]. by split; [split|..]. Qed.

Lemma becomes_view e e' s d ls :
  side_becomes e e' s d ls -> book_view e' ≡ on_side s d (fun _ => view_of ls) (book_view e).
Proof.
  intros H s' d' Hv. unfold book_view, on_side. rewrite (sb_levels _ _ _ _ _ H) by done. by case_decide.
Qed.

Lemma on_side_ext s d f g B : (valid_side s d -> f (B s d) = g (B s d)) -> on_side s d f B ≡ on_side s d g B.
Proof. intros H s' d' Hv. unfold on_side. case_decide as E; [destruct E as [-> ->]; auto|done]. Qed.

(** All levels but the one at [i] of side [s], [d] hold orders. *)
Record nonempty_but (e : LOBEngine) (s d : Z) (i : nat) : Prop := {
  nb_others s' d' : valid_side s' d' -> ~ (s' = s /\ d' = d) -> Forall nonempty (levels e s' d');
  nb_take : Forall nonempty (take i (levels e s d));
  nb_drop : Forall nonempty (drop (S i) (levels e s d));
}.

Lemma nonempty_but_replaced e e' s d i lvl' :
  valid_side s d -> side_becomes e e' s d (<[i := lvl']> (levels e s d)) -> nonempty_but e s d i -> nonempty_but e' s d i.
Proof.
  intros Hv Hsb [H1 H2 H3].
  assert (El : levels e' s d = <[i := lvl']> (levels e s d)) by (rewrite (sb_levels _ _ _ _ _ Hsb), decide_True; done).
  split; rewrite ?El, ?take_insert_ge, ?drop_insert_lt by lia; [|done..].
  intros s' d' Hv' Hne. rewrite (sb_levels _ _ _ _ _ Hsb), decide_False by done. by apply H1.
Qed.

Lemma nonempty_but_all e s d i :
  valid_side s d -> (forall s d, valid_side s d -> Forall nonempty (levels e s d)) -> nonempty_but e s d i.
Proof. intros Hv H. split; [auto|apply Forall_take; auto|apply Forall_drop; auto]. Qed.

(** [remove_level_if_empty] drops the level from the side if it holds no order. *)
Lemma sweep_spec e M s d i lvl :
  book_core e M -> valid_side s d -> 0 <= i < level_count e s d -> levels e s d !! Z.to_nat i = Some lvl ->
  nonempty_but e s d (Z.to_nat i) ->
  handled e (remove_level_if_empty s d i e)
    (on_side s d (fun _ =>
       view_of (take (Z.to_nat i) (levels e s d)) ++
       filter (fun pl => snd pl <> []) [(price lvl, resting lvl)] ++ view_of (drop (S (Z.to_nat i)) (levels e s d))) (book_view e)).
Proof.
  intros H Hv Hi Hl [Hot Htk Hdr]. pose proof (bc_fine _ _ H _ _ Hv) as Hf. rewrite Forall_lookup in Hf.
  destruct (Hf _ _ Hl) as [(q & Hwf & _) _].
  assert (El : level e s d i = lvl) by (rewrite levels_lookup_Z in Hl by done; by injection Hl).
  destruct (Z.lt_ge_cases 0 (order_count lvl)) as [Hpos|Hz].
  - assert (Ee : remove_level_if_empty s d i e = e).
    { unfold remove_level_if_empty. rewrite El. destruct (Z.ltb_spec 0 (order_count lvl)); [done|lia]. }
    rewrite Ee. split; [split; [| |done|done]|done].
    + split; [by exists M|]. intros s' d' Hv'. destruct (decide (s' = s /\ d' = d)) as [[-> ->]|]; [|auto].
      rewrite <- (take_drop_middle _ _ _ Hl). apply Forall_app; split; [done|]. by constructor.
    + etransitivity; [exact (becomes_view _ _ _ _ _ (becomes_refl e s d (bc_store _ _ H)))|].
      apply on_side_ext. intros _.
      rewrite <- (take_drop_middle _ _ _ Hl) at 1. rewrite view_of_app, filter_cons_True; [done|].
      simpl. rewrite (resting_empty _ _ Hwf). lia.
  - assert (E0 : order_count lvl = 0) by (rewrite (lo_count _ _ Hwf) in *; lia).
    assert (q = []) as -> by (rewrite (lo_count _ _ Hwf) in E0; destruct q; [done|simpl in E0; lia]).
    destruct (remove_level_spec (R := R) (room := room) e s d i M) as (Hsb & (M2 & HR2 & HC2) & Hroom2);
      [apply H|done|apply H|apply H|done|rewrite El; lia| |].
    { rewrite El. intros si r' Hs [Ha _]. apply (lo_active _ _ Hwf si Hs) in Ha. by apply not_elem_of_nil in Ha. }
    split; [split; [| |apply Hsb|apply Hsb]|done].
    + split; [exists M2; by eapply core_deleted|]. intros s' d' Hv'. rewrite (sb_levels _ _ _ _ _ Hsb) by done.
      case_decide as E; [|by apply Hot]. rewrite delete_take_drop. by apply Forall_app.
    + rewrite (becomes_view _ _ _ _ _ Hsb). apply on_side_ext. intros _.
      rewrite delete_take_drop, view_of_app. f_equal. rewrite filter_cons_False; [done|].
      simpl. rewrite (resting_empty _ _ Hwf). tauto.
Qed.

Lemma handled_after e e1 e2 s d ls B :
  side_becomes e e1 s d ls -> (forall k, room (e_map e) k -> room (e_map e1) k) -> handled e1 e2 B -> handled e e2 B.
Proof.
  intros Hsb Hr [[Hok Hvw Hst Ht] Hrm]. split; [split; [done|done| |]|auto].
  - rewrite Hst. apply Hsb.
  - intros k. rewrite Ht. apply Hsb.
Qed.

Lemma on_side_const s d L e e1 ls :
  side_becomes e e1 s d ls -> on_side s d (fun _ => L) (book_view e1) ≡ on_side s d (fun _ => L) (book_view e).
Proof.
  intros Hsb s' d' Hv. unfold on_side. case_decide; [done|]. unfold book_view.
  by rewrite (sb_levels _ _ _ _ _ Hsb), decide_False.
Qed.

(** The slot has been cleared and its reference removed: the level leaves the
    side if it has become empty, and the book has lost exactly that order. *)
Lemma retire_tail e M r loc lvl q1 q2 lvl' :
  book_core e M -> (forall s d, valid_side s d -> Forall nonempty (levels e s d)) -> M !! r = Some loc ->
  levels e (symbol_idx loc) (side loc) !! Z.to_nat (level_idx loc) = Some lvl ->
  level_wf lvl (q1 ++ slot_idx loc :: q2) -> queue_valid lvl (q1 ++ slot_idx loc :: q2) -> order_in lvl (slot_idx loc) r ->
  popped lvl lvl' q1 (slot_idx loc) q2 ->
  handled e (remove_level_if_empty (symbol_idx loc) (side loc) (level_idx loc)
     (with_map (refmap.remove r (e_map e)) (set_level (symbol_idx loc) (side loc) (level_idx loc) lvl' e)))
    (on_all (spec_edit r (fun _ => None)) (book_view e)).
Proof.
  intros H Hne HM Hl Hwf Hq Ho Hpop.
  destruct (located e M r loc H HM) as (lvl0 & _ & _ & Hv & Hsi & Hli & Hl0 & El & [_ Hpr] & _).
  rewrite Hl in Hl0. injection Hl0 as <-.
  destruct (popped_fine _ _ _ _ _ Hwf Hpop Hq Hpr) as [Hf' Hrest].
  set (s := symbol_idx loc) in *. set (d := side loc) in *. set (i := level_idx loc) in *.
  set (e1 := with_map _ _).
  assert (Hsb : side_becomes e e1 s d (<[Z.to_nat i := lvl']> (levels e s d))).
  { apply becomes_with_map, set_level_becomes; [apply H|done|done|]. apply (lo_length lvl' (q1 ++ q2)). apply Hpop. }
  assert (HC1 : coherent e1 (delete r M)).
  { eapply (coherent_pop e e1 M r loc (Z.to_nat i)); [apply H|done|unfold i; lia|done|apply Hsb|].
    intros. by eapply popped_order_in. }
  assert (Hcore : book_core e1 (delete r M)).
  { eapply core_replaced; [done..| |done|done|apply Hpop]. apply (index_remove (R := R)), H. }
  assert (Hlt : (Z.to_nat i < length (levels e s d))%nat) by by eapply lookup_lt_Some.
  assert (Hl1 : levels e1 s d = <[Z.to_nat i := lvl']> (levels e s d)) by (rewrite (sb_levels _ _ _ _ _ Hsb), decide_True; done).
  eapply handled_after; [exact Hsb|intros; eapply (index_room_remove (R := R)); [apply H|done]|].
  eapply handled_view; [eapply (sweep_spec e1 (delete r M) s d i lvl')|].
  - done.
  - done.
  - done.
  - by rewrite Hl1, list_lookup_insert_eq.
  - eapply nonempty_but_replaced; [done|exact Hsb|]. by apply nonempty_but_all.
  - rewrite (on_side_const _ _ _ _ _ _ Hsb), edit_located by done. fold s d i. apply on_side_ext. intros _. simpl.
    rewrite Hl1, take_insert_ge, drop_insert_lt by lia. destruct Hpop as (_ & -> & _). by rewrite Hrest.
Qed.

Lemma s32_small z : 0 <= z <= 16 -> s32 z = z.
Proof. intros. apply wrap_s_id; [lia|]. unfold in_s. lia. Qed.

Lemma s64_qty z : 0 <= z <= 16 * numeric.kMaxQuantity -> s64 z = z.
Proof. intros. apply wrap_s_id; [lia|]. unfold in_s, numeric.kMaxQuantity in *. lia. Qed.

(** Clearing a slot whose level has already been relieved of its quantity. *)
Lemma pop_after_total lvl q1 i q2 :
  level_wf lvl (q1 ++ i :: q2) -> queue_valid lvl (q1 ++ i :: q2) ->
  let lvl1 := set_totals (s64 (total_qty lvl - clamped_qty (qty (slot_at lvl i)) (total_qty lvl))) (order_count lvl) lvl in
  popped lvl (set_totals (total_qty (pop_order i lvl1)) (s32 (order_count (pop_order i lvl1) - 1)) (pop_order i lvl1)) q1 i q2.
Proof.
  intros Hwf Hq lvl1. pose proof (level_qty_le_total _ _ _ _ Hwf Hq). destruct (level_bounds _ _ Hwf Hq).
  destruct (pop_order_wf lvl q1 i q2 Hwf) as (Hwf' & Hp & Hd).
  assert (order_count lvl <> 0) by (rewrite (lo_count _ _ Hwf), length_app; simpl; lia).
  assert (Ec : clamped_qty (qty (slot_at lvl i)) (total_qty lvl) = qty (slot_at lvl i)).
  { unfold clamped_qty. repeat case_if; lia. }
  destruct (pop_order_totals i lvl1) as [-> ->]. unfold lvl1. cbn [set_totals total_qty order_count].
  rewrite Ec, s64_qty, s32_small by lia. rewrite pop_order_set_totals.
  split_and!; [|exact Hp|exact Hd]. exact Hwf'.
Qed.

(** Clearing a slot whose quantity has reached zero. *)
Lemma pop_after_fill lvl q1 i q2 :
  level_wf lvl (q1 ++ i :: q2) -> queue_valid lvl (q1 ++ i :: q2) ->
  let lvl1 := set_totals (total_qty lvl - qty (slot_at lvl i)) (order_count lvl) (upd_slot i (set_qty 0) lvl) in
  popped lvl (set_totals (total_qty (pop_order i lvl1)) (s32 (order_count (pop_order i lvl1) - 1)) (pop_order i lvl1)) q1 i q2.
Proof.
  intros Hwf Hq lvl1. destruct (level_bounds _ _ Hwf Hq).
  assert (order_count lvl <> 0) by (rewrite (lo_count _ _ Hwf), length_app; simpl; lia).
  assert (Hwf1 : level_wf lvl1 (q1 ++ i :: q2)).
  { pose proof (set_qty_wf lvl q1 i q2 0 Hwf) as Hw. by rewrite Z.sub_0_r in Hw. }
  destruct (pop_order_wf lvl1 q1 i q2 Hwf1) as (Hwf' & Hp & Hd).
  assert (Hi : valid_slot i) by (eapply lo_range; [apply Hwf|set_solver]).
  assert (Hs : forall j, slot_at lvl1 j = if decide (i = j) then set_qty 0 (slot_at lvl i) else slot_at lvl j).
  { intros j. apply (slot_at_upd lvl i (set_qty 0) j); [apply (lo_length _ _ (lo_links _ _ Hwf))|done]. }
  destruct (pop_order_totals i lvl1) as [Et Eo]. rewrite Et, Eo, s32_small by (unfold lvl1; simpl; lia).
  assert (E0 : qty (slot_at lvl1 i) = 0) by (rewrite Hs, decide_True; done). rewrite E0, Z.sub_0_r in Hwf'.
  split_and!; [done|exact Hp|]. intros j. change (slot_at (set_totals ?a ?b ?x)) with (slot_at x). rewrite Hd, Hs.
  by case_decide.
Qed.

Lemma drop_order_spec e M r loc :
  book_core e M -> (forall s d, valid_side s d -> Forall nonempty (levels e s d)) -> M !! r = Some loc ->
  handled e (drop_order r loc e) (on_all (spec_edit r (fun _ => None)) (book_view e)).
Proof.
  intros H Hne HM. destruct (located e M r loc H HM) as (lvl & q1 & q2 & Hv & Hsi & Hli & Hl & El & Hf & Hwf & Ho & Hq).
  unfold drop_order, retire_order, upd_level_at. rewrite El, level_set_level_eq, set_level_twice.
  change (e_map (set_level ?a ?b ?c ?l e)) with (e_map e).
  eapply retire_tail; [done..|]. by apply pop_after_total.
Qed.

(** A partial reduction changes the order's quantity in place. *)
Lemma set_qty_spec e M r loc lvl q1 q2 v :
  book_core e M -> (forall s d, valid_side s d -> Forall nonempty (levels e s d)) -> M !! r = Some loc ->
  levels e (symbol_idx loc) (side loc) !! Z.to_nat (level_idx loc) = Some lvl ->
  level_wf lvl (q1 ++ slot_idx loc :: q2) -> queue_valid lvl (q1 ++ slot_idx loc :: q2) -> order_in lvl (slot_idx loc) r ->
  0 < v <= qty (slot_at lvl (slot_idx loc)) ->
  handled e (set_level (symbol_idx loc) (side loc) (level_idx loc)
      (set_totals (total_qty lvl - (qty (slot_at lvl (slot_idx loc)) - v)) (order_count lvl)
         (upd_slot (slot_idx loc) (set_qty v) lvl)) e)
    (on_all (spec_edit r (fun _ => Some v)) (book_view e)).
Proof.
  intros H Hne HM Hl Hwf Hq Ho Hv0.
  destruct (located e M r loc H HM) as (lvl0 & _ & _ & Hv & Hsi & Hli & Hl0 & El & [_ Hpr] & _).
  rewrite Hl in Hl0. injection Hl0 as <-.
  pose proof (set_qty_wf lvl q1 (slot_idx loc) q2 v Hwf) as Hwf'. set (lvl' := set_totals _ _ _) in *.
  set (s := symbol_idx loc) in *. set (d := side loc) in *. set (i := level_idx loc) in *. set (si := slot_idx loc) in *.
  set (e' := set_level s d i lvl' e).
  assert (Hs : forall j, slot_at lvl' j = if decide (si = j) then set_qty v (slot_at lvl si) else slot_at lvl j).
  { intros j. apply (slot_at_upd lvl si (set_qty v) j); [apply (lo_length _ _ (lo_links _ _ Hwf))|done]. }
  assert (Hsb : side_becomes e e' s d (<[Z.to_nat i := lvl']> (levels e s d))).
  { apply set_level_becomes; [apply H|done|done|]. by apply (lo_length lvl' _ (lo_links _ _ Hwf')). }
  assert (Hlt : (Z.to_nat i < length (levels e s d))%nat) by by eapply lookup_lt_Some.
  pose proof (lo_nodup _ _ (lo_links _ _ Hwf)) as Hnd. apply NoDup_app in Hnd as (_ & Hdis & [Hi2 _]%NoDup_cons).
  assert (Hi1 : si ∉ q1) by (intros ?; apply (Hdis si); [done|by left]).
  assert (HC : coherent e' M).
  { eapply (coherent_same e e' M s d (Z.to_nat i) lvl); [apply H|done|done|apply Hsb|].
    intros j r' _. unfold order_in. rewrite Hs. by case_decide; [subst|]. }
  assert (Hqv : numeric.is_valid_quantity v = true).
  { specialize (Hq si ltac:(set_solver)). unfold numeric.is_valid_quantity, numeric.kMinQuantity in *. lia. }
  assert (Hf' : level_fine lvl').
  { split; [|done]. exists (q1 ++ si :: q2). split; [done|]. intros j Hj. rewrite Hs. case_decide; [done|by apply Hq]. }
  split; [split; [| |done|done]|done].
  - split; [exists M; by eapply core_replaced; [..|apply H|done|done|]|].
    eapply Forall_replaced; [apply Hsb|done|]. unfold nonempty. change (order_count lvl') with (order_count lvl).
    rewrite (lo_count _ _ Hwf), length_app. simpl. lia.
  - rewrite (becomes_view _ _ _ _ _ Hsb), edit_located by done. fold s d i si. apply on_side_ext. intros _. simpl.
    rewrite insert_take_drop by done. rewrite view_of_app. f_equal. cbn [view_of fmap list_fmap].
    rewrite filter_cons_True by (simpl; by destruct (level_queue lvl q1)). cbn [filter list_filter app].
    f_equal. change (price lvl') with (price lvl). f_equal. rewrite (resting_wf lvl' _ Hwf'). unfold level_queue.
    rewrite fmap_app, fmap_cons, Hs, decide_True by done. f_equal; [|f_equal].
    + apply (level_queue_ext lvl lvl' q1). intros j Hj. rewrite Hs, decide_False; [done|]. by intros <-.
    + simpl. by destruct Ho as [_ ->].
    + apply (level_queue_ext lvl lvl' q2). intros j Hj. rewrite Hs, decide_False; [done|]. by intros <-.
Qed.

(** An edit of an order that does not rest anywhere. *)
Lemma edit_absent e M r f :
  book_core e M -> (forall s d, valid_side s d -> Forall nonempty (levels e s d)) -> M !! r = None ->
  on_all (spec_edit r f) (book_view e) ≡ book_view e.
Proof.
  intros H Hne HM s d Hv. apply spec_edit_id; [apply view_no_empty; [by eapply bc_fine|by apply Hne]|].
  intros Hin. assert (Hr : rests (book_view e) s d r) by by split. apply (rests_iff _ M) in Hr as (? & ? & _); [|done]. congruence.
Qed.

Lemma reduce_order_spec e r q :
  book_ok e -> 0 < q -> handled e (reduce_order r q e) (on_all (spec_edit r (take_qty q)) (book_view e)).
Proof.
  intros [[M H] Hne] Hq0. unfold reduce_order. rewrite (checked_location_spec e M r H).
  destruct (M !! r) as [loc|] eqn:HM; cycle 1.
  { apply handled_refl; [split; [by exists M|done]|]. symmetry. by apply edit_absent with M. }
  destruct (located e M r loc H HM) as (lvl & q1 & q2 & Hv & Hsi & Hli & Hl & El & Hf & Hwf & Ho & Hq).
  pose proof (level_qty_le_total _ _ _ _ Hwf Hq). destruct (level_bounds _ _ Hwf Hq).
  assert (Hdelta : clamped_qty q (qty (slot_at lvl (slot_idx loc))) = Z.min q (qty (slot_at lvl (slot_idx loc)))).
  { unfold clamped_qty. repeat case_if; lia. }
  unfold upd_level_at, retire_order. rewrite El, Hdelta. rewrite (s64_qty (qty _ - _)), (s64_qty (total_qty _ - _)) by lia.
  destruct (Z.leb_spec (qty (slot_at lvl (slot_idx loc)) - Z.min q (qty (slot_at lvl (slot_idx loc)))) 0).
  - rewrite Z.min_r by lia. unfold upd_level_at. rewrite level_set_level_eq, set_level_twice, Z.sub_diag.
    change (e_map (set_level ?a ?b ?c ?l e)) with (e_map e).
    eapply handled_view; [eapply retire_tail; [done..|by apply pop_after_fill]|].
    rewrite !edit_located by done. apply on_side_ext. intros _. unfold take_qty. case_if; [done|lia].
  - rewrite Z.min_l by lia. eapply handled_view.
    + pose proof (set_qty_spec e M r loc lvl q1 q2 (qty (slot_at lvl (slot_idx loc)) - q)) as Hs.
      replace (qty (slot_at lvl (slot_idx loc)) - (qty (slot_at lvl (slot_idx loc)) - q)) with q in Hs by lia.
      apply Hs; try done. lia.
    + rewrite !edit_located by done. apply on_side_ext. intros _. unfold take_qty. case_if; [lia|done].
Qed.

(** ** Finding or opening a price *)

(** The state [e1] has a level [lvl] for the price at index [i] of the side,
    possibly a new one, and is otherwise the state [e]. *)
Record opened (e e1 : LOBEngine) (M1 : gmap Z OrderLocation) (s d i price : Z) (lvl : PriceLevel) : Prop := {
  op_core : book_core e1 M1;
  op_index : 0 <= i < level_count e1 s d;
  op_level : levels e1 s d !! Z.to_nat i = Some lvl;
  op_price : Level.price lvl = price;
  op_becomes : side_becomes e e1 s d (levels e1 s d);
  op_others : Forall nonempty (take (Z.to_nat i) (levels e1 s d)) /\ Forall nonempty (drop (S (Z.to_nat i)) (levels e1 s d));
  op_view : book_view e s d =
    view_of (take (Z.to_nat i) (levels e1 s d)) ++
    filter (fun pl => snd pl <> []) [(price, resting lvl)] ++ view_of (drop (S (Z.to_nat i)) (levels e1 s d));
  op_add r q : spec_add d price r q (book_view e s d) =
    view_of (take (Z.to_nat i) (levels e1 s d)) ++ (price, resting lvl ++ [(r, q)]) :: view_of (drop (S (Z.to_nat i)) (levels e1 s d));
  op_full : no_room price (book_view e s d) <-> length (resting lvl) = Z.to_nat kMaxOrdersPerLevel;
  op_room k : room (e_map e) k -> room (e_map e1) k;
}.

Lemma view_elem ls p l : (p, l) ∈ view_of ls -> exists lvl, lvl ∈ ls /\ price lvl = p /\ resting lvl = l.
Proof. intros (lvl & [= -> ->] & ?)%list_elem_of_fmap. by exists lvl. Qed.

Lemma sorted_unique_price d ls i j a b :
  side_sorted d ls -> ls !! i = Some a -> ls !! j = Some b -> price a = price b -> i = j.
Proof.
  intros Hs Hi Hj E. destruct (Nat.lt_trichotomy i j) as [Hlt|[?|Hlt]]; [exfalso|done|exfalso].
  - pose proof (side_sorted_lookup _ _ _ _ _ _ Hs Hlt Hi Hj) as Hb. by rewrite E, better_irrefl in Hb.
  - pose proof (side_sorted_lookup _ _ _ _ _ _ Hs Hlt Hj Hi) as Hb. by rewrite E, better_irrefl in Hb.
Qed.

(** Levels before [i] have strictly better prices. *)
Lemma sorted_prefix d ls i lvl :
  side_sorted d ls -> ls !! i = Some lvl ->
  Forall (fun pl => fst pl <> price lvl /\ better d (price lvl) (fst pl) = false) (view_of (take i ls)).
Proof.
  intros Hs Hi. unfold view_of. rewrite Forall_fmap, Forall_forall. intros x [j Hj]%list_elem_of_lookup_1. simpl.
  pose proof (lookup_lt_Some _ _ _ Hj) as Hlt. rewrite length_take in Hlt. rewrite lookup_take_lt in Hj by lia.
  pose proof (side_sorted_lookup _ _ j i _ _ Hs ltac:(lia) Hj Hi) as Hb. split.
  - intros E. by rewrite E, better_irrefl in Hb.
  - unfold better in *. destruct (d =? 0); lia.
Qed.

Lemma opened_found e M s d price :
  book_core e M -> (forall s d, valid_side s d -> Forall nonempty (levels e s d)) -> valid_side s d ->
  0 <= find_level e s d price -> exists lvl, opened e e M s d (find_level e s d price) price lvl.
Proof.
  intros H Hne Hv Hf.
  destruct (find_level_spec e s d price (bc_store _ _ H) Hv (bc_sorted _ _ H _ _ Hv)) as [(lvl & _ & Hl & Hp)|[E _]]; [|lia].
  exists lvl. set (i := find_level e s d price) in *. pose proof (lookup_lt_Some _ _ _ Hl) as Hlt. rewrite levels_length in Hlt.
  pose proof (so_count _ (bc_store _ _ H) _ _ Hv).
  pose proof (bc_fine _ _ H _ _ Hv) as Hfine. rewrite Forall_lookup in Hfine. destruct (Hfine _ _ Hl) as [(q & Hwf & _) _].
  specialize (Hne _ _ Hv). rewrite Forall_lookup in Hne. pose proof (Hne _ _ Hl) as Hnl. unfold nonempty in Hnl.
  assert (Hr : resting lvl <> []) by (rewrite (resting_empty _ _ Hwf); lia).
  assert (Hview : book_view e s d = view_of (take (Z.to_nat i) (levels e s d)) ++ (price, resting lvl) :: view_of (drop (S (Z.to_nat i)) (levels e s d))).
  { unfold book_view. rewrite <- (take_drop_middle _ _ _ Hl) at 1. rewrite view_of_app. by rewrite <- Hp. }
  split; try done; [lia|apply becomes_refl, H|..].
  - split; [apply Forall_take|apply Forall_drop]; by apply Forall_lookup.
  - rewrite Hview. by rewrite filter_cons_True.
  - intros r v. rewrite Hview. apply spec_add_here. rewrite <- Hp. by apply sorted_prefix; [apply (bc_sorted _ _ H)|].
  - split.
    + intros [(l & Hin & Hlen)|[Hno _]].
      * unfold book_view in Hin. apply view_elem in Hin as (lvl' & Hin & Hp' & <-).
        apply list_elem_of_lookup_1 in Hin as [j Hj].
        assert (j = Z.to_nat i) as -> by (eapply sorted_unique_price; [by apply (bc_sorted _ _ H)|done|done|congruence]).
        rewrite Hl in Hj. by injection Hj as <-.
      * destruct (Hno (resting lvl)). rewrite Hview. set_solver.
    + intros Hlen. left. exists (resting lvl). split; [|done]. rewrite Hview. set_solver.
Qed.

Lemma empty_level_wf p : level_wf (empty_level p) [].
Proof.
  assert (E : empty_level p = set_price p (reset (empty_level p))) by done. rewrite E.
  destruct (level_ok_reset (empty_level p)) as [[]]; [done|]. split; [split|..]; done.
Qed.

Lemma resting_new p : resting (empty_level p) = [].
Proof. by rewrite (resting_wf _ _ (empty_level_wf p)). Qed.

(** Around the insertion point the prices are strictly better before and
    strictly worse after. *)
Lemma insert_point e s d price :
  store_ok e -> valid_side s d -> side_sorted d (levels e s d) ->
  (forall lvl, lvl ∈ levels e s d -> Level.price lvl <> price) ->
  let p := insert_pos_loop e s d price (Z.to_nat (level_count e s d)) 0 (level_count e s d) in
  0 <= p <= level_count e s d /\
  (forall a, a ∈ take (Z.to_nat p) (levels e s d) -> better d (Level.price a) price = true) /\
  (forall b, b ∈ drop (Z.to_nat p) (levels e s d) -> better d price (Level.price b) = true).
Proof.
  intros Hok Hv Hs Hno p. pose proof (so_count _ Hok _ _ Hv) as Hc.
  destruct (insert_pos_loop_spec e s d price (Z.to_nat (level_count e s d)) 0 (level_count e s d)) as (Hp & Hlo & Hhi);
    [lia..|intros; lia|]. fold p in Hp, Hlo, Hhi. clearbody p. split; [done|]. split.
  - intros a [j Hj]%list_elem_of_lookup_1. pose proof (lookup_lt_Some _ _ _ Hj) as Hlt. rewrite length_take in Hlt.
    rewrite lookup_take_lt in Hj by lia. pose proof (list_elem_of_lookup_2 _ _ _ Hj) as Hin. apply Hno in Hin.
    rewrite levels_lookup in Hj. case_decide; [|done]. injection Hj as <-.
    destruct (better_total _ _ _ (Hlo (Z.of_nat j) ltac:(lia))); congruence.
  - intros b [j Hj]%list_elem_of_lookup_1. rewrite lookup_drop in Hj. pose proof (lookup_lt_Some _ _ _ Hj) as Hlt.
    rewrite levels_length in Hlt. specialize (Hhi ltac:(lia)). pose proof (levels_lookup_Z e s d p ltac:(lia)) as Hlp.
    destruct j as [|j]; [rewrite Nat.add_0_r in Hj; rewrite Hlp in Hj; by injection Hj as <-|].
    eapply better_trans; [done|]. eapply (side_sorted_lookup d _ (Z.to_nat p)); [done| |done|done]. lia.
Qed.

Lemma opened_new e M s d price :
  book_core e M -> (forall s d, valid_side s d -> Forall nonempty (levels e s d)) -> valid_side s d ->
  numeric.is_valid_price price = true -> find_level e s d price < 0 -> level_count e s d < kLevelsPerSide ->
  exists p e1 M1, insert_level_impl s d price e = (p, e1) /\ opened e e1 M1 s d p price (empty_level price).
Proof.
  intros H Hne Hv Hpr Hf Hc.
  destruct (find_level_spec e s d price (bc_store _ _ H) Hv (bc_sorted _ _ H _ _ Hv)) as [(lvl & ? & _)|[_ Hno]]; [lia|].
  pose proof (so_count _ (bc_store _ _ H) _ _ Hv) as Hc0.
  destruct (insert_level_impl_spec e s d price M (bc_store _ _ H) Hv (bc_map _ _ H) (bc_coherent _ _ H) Hc)
    as (e1 & E & Hsb & (M1 & HR1 & HC1) & Hroom).
  destruct (insert_point e s d price (bc_store _ _ H) Hv (bc_sorted _ _ H _ _ Hv) Hno) as (Hp & Hlo & Hhi).
  set (p := insert_pos_loop _ _ _ _ _ _ _) in *. clearbody p. set (ls := levels e s d) in *.
  exists p, e1, M1. split; [done|].
  assert (Hl1 : levels e1 s d = take (Z.to_nat p) ls ++ empty_level price :: drop (Z.to_nat p) ls)
    by (rewrite (sb_levels _ _ _ _ _ Hsb), decide_True; done).
  assert (Hlen : length (take (Z.to_nat p) ls) = Z.to_nat p) by (rewrite length_take; unfold ls; rewrite levels_length; lia).
  assert (Hcount : level_count e1 s d = level_count e s d + 1).
  { pose proof (f_equal length Hl1) as El. rewrite levels_length, length_app in El. cbn [length] in El.
    rewrite Hlen, length_drop in El. unfold ls in El. rewrite levels_length in El.
    pose proof (so_count _ (sb_store _ _ _ _ _ Hsb) _ _ Hv). lia. }
  assert (Htake : take (Z.to_nat p) (levels e1 s d) = take (Z.to_nat p) ls) by (rewrite Hl1, take_app_length'; done).
  assert (Hdrop : drop (S (Z.to_nat p)) (levels e1 s d) = drop (Z.to_nat p) ls).
  { rewrite Hl1, drop_app, Hlen. rewrite drop_ge by lia. replace (S (Z.to_nat p) - Z.to_nat p)%nat with 1%nat by lia. done. }
  assert (Hview : book_view e s d = view_of (take (Z.to_nat p) ls) ++ view_of (drop (Z.to_nat p) ls)).
  { unfold book_view. fold ls. by rewrite <- view_of_app, take_drop. }
  split; try done.
  - split; [apply Hsb|done|done| |]; intros s' d' Hv'; rewrite (sb_levels _ _ _ _ _ Hsb) by done;
      (case_decide as E'; [destruct E' as [-> ->]|by apply H]).
    + pose proof (bc_fine _ _ H _ _ Hv) as Hfine. fold ls in Hfine.
      apply Forall_app; split; [by apply Forall_take|]. constructor; [|by apply Forall_drop].
      split; [|done]. exists []. split; [apply empty_level_wf|]. by intros ? ?%not_elem_of_nil.
    + pose proof (bc_sorted _ _ H _ _ Hv) as Hs. fold ls in Hs. rewrite <- (take_drop (Z.to_nat p) ls) in Hs.
      unfold side_sorted in *. rewrite StronglySorted_app in Hs. rewrite StronglySorted_app, StronglySorted_cons.
      destruct Hs as (Hs1 & Hs2 & Hs3). split_and!; try done; [|by apply Forall_forall].
      intros a b Ha [->|Hb]%elem_of_cons; [by apply Hlo|by apply Hs1].
  - lia.
  - by rewrite Hl1, list_lookup_middle.
  - by rewrite Hl1.
  - rewrite Htake, Hdrop. specialize (Hne _ _ Hv). split; [by apply Forall_take|by apply Forall_drop].
  - rewrite Htake, Hdrop, Hview. by rewrite resting_new.
  - intros r v. rewrite Htake, Hdrop, Hview, resting_new. apply spec_add_new.
    + unfold view_of. rewrite Forall_fmap, Forall_forall. intros a Ha. simpl. specialize (Hlo a Ha). split.
      * intros E'. by rewrite E', better_irrefl in Hlo.
      * unfold better in *. destruct (d =? 0); lia.
    + destruct (drop (Z.to_nat p) ls) as [|b l] eqn:Ed; [done|]. apply Hhi. by left.
  - rewrite resting_new. split; [|done]. intros [(l & Hin & _)|[_ Hlen']]; exfalso.
    + unfold book_view in Hin. apply view_elem in Hin as (lvl & Hin & Ep & _). by apply (Hno lvl).
    + unfold book_view, view_of in Hlen'. rewrite length_fmap, levels_length in Hlen'. unfold kLevelsPerSide in *. lia.
Qed.

(** ** Placing an order *)
Lemma link_slot_totals i lvl : total_qty (link_slot i lvl) = total_qty lvl /\ order_count (link_slot i lvl) = order_count lvl.
Proof. unfold link_slot. cbv zeta. by case_if. Qed.

Lemma push_order_totals i r q fl lvl :
  total_qty (push_order i r q fl lvl) = total_qty lvl /\ order_count (push_order i r q fl lvl) = order_count lvl.
Proof. apply (link_slot_totals i (upd_slot i (fill_slot r q fl) lvl)). Qed.

(** A reference that rests nowhere is not registered after opening a level. *)
Lemma opened_absent e M e1 M1 s d i p lvl r :
  book_core e M -> opened e e1 M1 s d i p lvl -> valid_side s d -> M !! r = None -> M1 !! r = None.
Proof.
  intros H Ho Hv HM. destruct (M1 !! r) as [loc|] eqn:HM1; [|done]. exfalso.
  assert (Hr : rests (book_view e1) (symbol_idx loc) (side loc) r).
  { apply (rests_iff _ M1); [apply Ho|]. by exists loc. }
  destruct Hr as [Hv' Hin]. assert (rests (book_view e) (symbol_idx loc) (side loc) r) as Hr.
  { split; [done|]. unfold book_view in Hin. rewrite (sb_levels _ _ _ _ _ (op_becomes _ _ _ _ _ _ _ _ Ho)) in Hin by done.
    case_decide as E; [destruct E as [Es Ed]|done]. rewrite Es, Ed, (op_view _ _ _ _ _ _ _ _ Ho).
    rewrite <- (take_drop_middle _ _ _ (op_level _ _ _ _ _ _ _ _ Ho)) in Hin.
    rewrite view_of_app in Hin. cbn [view_of fmap list_fmap] in Hin. rewrite side_refs_app, side_refs_cons in Hin.
    rewrite !side_refs_app, !elem_of_app in *. destruct Hin as [?|[Hin|?]]; [tauto| |tauto]. right; left.
    rewrite filter_cons_True; [by rewrite side_refs_cons, elem_of_app; left|]. simpl. intros E. by rewrite E in Hin; apply not_elem_of_nil in Hin. }
  apply (rests_iff _ M) in Hr as (? & ? & _); [congruence|done].
Qed.

Lemma opened_nonempty e e1 M1 s d i p lvl :
  opened e e1 M1 s d i p lvl -> (forall s d, valid_side s d -> Forall nonempty (levels e s d)) ->
  nonempty_but e1 s d (Z.to_nat i).
Proof.
  intros Ho Hne. destruct (op_others _ _ _ _ _ _ _ _ Ho) as [? ?]. split; [|done|done].
  intros s' d' Hv' Hno. rewrite (sb_levels _ _ _ _ _ (op_becomes _ _ _ _ _ _ _ _ Ho)), decide_False by done. by apply Hne.
Qed.

Definition slot_flags (sd : Z) : Z := Z.lor kFlagActive (if sd =? 0 then kFlagBid else 0).

Lemma slot_flags_active sd : Z.land (slot_flags sd) kFlagActive <> 0.
Proof. unfold slot_flags. by case_if. Qed.

(** The level after the order was appended. *)
Lemma pushed_level lvl q si r v sd :
  level_wf lvl q -> queue_valid lvl q -> valid_slot si -> si ∉ q -> numeric.is_valid_quantity v = true ->
  let lvl2 := set_totals (total_qty lvl + v) (order_count lvl + 1) (push_order si r v (slot_flags sd) lvl) in
  level_wf lvl2 (q ++ [si]) /\ queue_valid lvl2 (q ++ [si]) /\ price lvl2 = price lvl /\
  resting lvl2 = resting lvl ++ [(r, v)] /\ qty (slot_at lvl2 si) = v /\ level_queue lvl2 q = resting lvl /\
  (forall j r', valid_slot j -> order_in lvl2 j r' <-> if decide (j = si) then r' = r else order_in lvl j r').
Proof.
  intros Hwf Hq Hsi Hnin Hv lvl2.
  destruct (push_order_wf lvl q si r v (slot_flags sd) Hwf Hsi Hnin (slot_flags_active sd)) as (Hwf2 & Hp & Hd).
  fold lvl2 in Hwf2. assert (Hd2 : forall j, data (slot_at lvl2 j) = if decide (si = j) then (r, v, slot_flags sd) else data (slot_at lvl j)) by exact Hd.
  assert (Hold : forall j, j ∈ q -> data (slot_at lvl2 j) = data (slot_at lvl j)).
  { intros j Hj. rewrite Hd2, decide_False; [done|]. by intros <-. }
  assert (Hnew : data (slot_at lvl2 si) = (r, v, slot_flags sd)) by (rewrite Hd2, decide_True; done).
  assert (Hp2 : price lvl2 = price lvl) by exact Hp. clearbody lvl2. split_and!; try done.
  - intros j [Hj| ->%list_elem_of_singleton]%elem_of_app.
    + specialize (Hold j Hj). injection Hold as _ -> _. by apply Hq.
    + by injection Hnew as _ -> _.
  - rewrite (resting_wf _ _ Hwf2), (resting_wf _ _ Hwf). unfold level_queue. rewrite fmap_app. f_equal.
    + by apply (level_queue_ext lvl lvl2 q).
    + cbn. by injection Hnew as -> -> _.
  - by injection Hnew.
  - rewrite (resting_wf _ _ Hwf). by apply level_queue_ext.
  - intros j r' Hj. unfold order_in. destruct (decide (j = si)) as [->|].
    + injection Hnew as -> _ Hf. unfold is_active. rewrite Hf. pose proof (slot_flags_active sd).
      assert (negb (Z.land (slot_flags sd) kFlagActive =? 0) = true) as -> by by apply negb_true_iff, Z.eqb_neq. naive_solver.
    + specialize (Hd2 j). rewrite decide_False in Hd2 by congruence. by apply order_in_data.
Qed.

Lemma slot_free lvl q si r : level_wf lvl q -> valid_slot si -> si ∉ q -> ~ order_in lvl si r.
Proof. intros Hwf Hsi Hn [Ha _]. by apply (lo_active _ _ Hwf si Hsi) in Ha. Qed.

Lemma free_slot_room lvl q si : level_wf lvl q -> valid_slot si -> si ∉ q -> (length q < 16)%nat.
Proof.
  intros Hwf Hsi Hnin.
  destruct (push_order_wf lvl q si 0 0 (slot_flags 0) Hwf Hsi Hnin (slot_flags_active 0)) as (Hw & _).
  pose proof (level_count_bound _ _ (lo_links _ _ Hw)) as Hb. rewrite length_app in Hb. simpl in Hb. lia.
Qed.

(** The tail of [place_order] once the level and a free slot are known. *)
Definition place_in (count_refusal : bool) (s d i si r v : Z) (lvl : PriceLevel) (e : LOBEngine) : LOBEngine :=
  let lvl2 := set_totals (total_qty lvl + v) (order_count lvl + 1) (push_order si r v (slot_flags d) lvl) in
  let e2 := set_level s d i lvl2 e in
  let '(ok, m) := refmap.insert r (mkLoc s d i si) (e_map e) in
  if ok then with_map m e2
  else
    let lvl3 := set_totals (total_qty lvl) (order_count lvl) (pop_order si lvl2) in
    let e' := remove_level_if_empty s d i (set_level s d i lvl3 (with_map m e)) in
    if count_refusal then reject e' else e'.

Lemma place_order_unfold cr s d p v r e found i e1 lvl q :
  find_level e s d p = found ->
  (if found <? 0 then insert_level_impl s d p e else (found, e)) = (i, e1) ->
  0 <= i < kLevelsPerSide -> level e1 s d i = lvl -> level_wf lvl q -> queue_valid lvl q ->
  alloc_slot lvl ∉ q -> valid_slot (alloc_slot lvl) -> numeric.is_valid_quantity v = true ->
  place_order cr s d p v r e = place_in cr s d i (alloc_slot lvl) r v lvl e1.
Proof.
  intros <- E Hi El Hwf Hq Hnin Hsi Hv. unfold place_order. rewrite E. destruct (Z.ltb_spec i 0); [lia|].
  rewrite El. destruct (Z.ltb_spec (alloc_slot lvl) 0); [unfold valid_slot in Hsi; lia|].
  fold (slot_flags d). destruct (push_order_totals (alloc_slot lvl) r v (slot_flags d) lvl) as [-> ->].
  pose proof (free_slot_room _ _ _ Hwf Hsi Hnin) as Hcnt.
  destruct (level_bounds _ _ Hwf Hq) as [Ht Hc]. rewrite (lo_count _ _ Hwf) in *.
  assert (Hv' : 1 <= v <= 1000000000) by (unfold numeric.is_valid_quantity, numeric.kMinQuantity, numeric.kMaxQuantity in Hv; lia).
  unfold numeric.kMaxQuantity in Ht.
  rewrite numeric.checked_add_exact by (apply numeric.in_s64; lia). unfold numeric.builtin_exact. case_if; [|lia].
  rewrite s32_small by lia. unfold place_in. rewrite (lo_count _ _ Hwf). cbn [e_map set_level with_lob].
  assert (u16 i = i) as -> by (apply wrap_u_id; unfold in_u, kLevelsPerSide in *; lia).
  destruct (refmap.insert r _ (e_map e1)) as [[] m]; [done|].
  destruct (pop_order_totals (alloc_slot lvl) (set_totals (total_qty lvl + v) (Z.of_nat (length q) + 1) (push_order (alloc_slot lvl) r v (slot_flags d) lvl))) as [-> ->].
  cbn [total_qty order_count set_totals].
  replace (total_qty lvl + v - v) with (total_qty lvl) by lia. replace (Z.of_nat (length q) + 1 - 1) with (Z.of_nat (length q)) by lia.
  rewrite s64_qty by (unfold numeric.kMaxQuantity; lia). rewrite s32_small by lia.
  set (l3 := set_totals _ _ (pop_order _ _)).
  replace (set_level s d i l3 (with_map m (set_level s d i _ e1))) with (set_level s d i l3 (with_map m e1)); [done|].
  unfold set_level, with_map, with_lob. cbn. by rewrite insert_insert_eq.
Qed.

Lemma place_in_spec cr e M e1 M1 s d i p lvl q r v :
  book_core e M -> (forall s d, valid_side s d -> Forall nonempty (levels e s d)) ->
  opened e e1 M1 s d i p lvl -> valid_side s d -> level_wf lvl q -> queue_valid lvl q ->
  alloc_slot lvl ∉ q -> valid_slot (alloc_slot lvl) -> numeric.is_valid_quantity v = true ->
  M !! r = None ->
  outcome e (place_in cr s d i (alloc_slot lvl) r v lvl e1) (on_side s d (spec_add d p r v) (book_view e))
  \/ (~ (refmap.live r /\ room (e_map e) r) /\ exists e', place_in cr s d i (alloc_slot lvl) r v lvl e1 = (if cr then reject e' else e')
       /\ outcome e e' (book_view e)).
Proof.
  intros H Hne Ho Hv Hwf Hq Hnin Hsi Hqv HM.
  pose proof (opened_absent _ _ _ _ _ _ _ _ _ _ H Ho Hv HM) as HM1. pose proof (opened_nonempty _ _ _ _ _ _ _ _ Ho Hne) as Hnb.
  destruct (pushed_level lvl q (alloc_slot lvl) r v d Hwf Hq Hsi Hnin Hqv) as (Hwf2 & Hq2 & Hp2 & Hr2 & Hv2 & Hlq2 & Ho2).
  unfold place_in. set (lvl2 := set_totals (total_qty lvl + v) _ _) in *. set (si := alloc_slot lvl) in *.
  pose proof (op_core _ _ _ _ _ _ _ _ Ho) as H1. pose proof (op_level _ _ _ _ _ _ _ _ Ho) as Hl1.
  pose proof (op_index _ _ _ _ _ _ _ _ Ho) as Hi. pose proof (so_count _ (bc_store _ _ H1) _ _ Hv) as Hcb.
  pose proof (bc_fine _ _ H1 _ _ Hv) as Hfine. rewrite Forall_lookup in Hfine. destruct (Hfine _ _ Hl1) as [_ Hpr].
  assert (Hlt : (Z.to_nat i < length (levels e1 s d))%nat) by by eapply lookup_lt_Some.
  destruct (refmap.insert r (mkLoc s d i si) (e_map e1)) as [ok m] eqn:Hins.
  pose proof (index_insert _ _ _ _ _ _ (bc_map _ _ H1) Hins) as Hm. destruct ok.
  - left. destruct Hm as [_ Hm].
    set (e2 := with_map m (set_level s d i lvl2 e1)).
    assert (Hsb : side_becomes e1 e2 s d (<[Z.to_nat i := lvl2]> (levels e1 s d))).
    { apply becomes_with_map, set_level_becomes; [apply H1|done|done|]. apply (lo_length _ _ (lo_links _ _ Hwf2)). }
    assert (HC : coherent e2 (<[r := mkLoc s d i si]> M1)).
    { eapply (coherent_push e1 e2 M1 r (mkLoc s d i si) (Z.to_nat i) lvl lvl2); [apply H1|done|simpl; lia|done|done|done|apply Hsb|done|].
      intros r'. by eapply slot_free. }
    pose proof (becomes_trans _ _ _ _ _ _ _ (op_becomes _ _ _ _ _ _ _ _ Ho) Hsb) as Hsb'.
    split; [| |apply Hsb'|apply Hsb'].
    + split.
      * exists (<[r := mkLoc s d i si]> M1). eapply core_replaced; [exact H1|done|done|done|done|done| |done].
        split; [|by rewrite Hp2]. by exists (q ++ [si]).
      * intros s' d' Hv'. rewrite (sb_levels _ _ _ _ _ Hsb) by done. case_decide as E; [|by apply Hnb].
        rewrite insert_take_drop by done. apply Forall_app; split; [apply Hnb|]. constructor; [|apply Hnb].
        unfold nonempty. rewrite (lo_count _ _ Hwf2), length_app. simpl. lia.
    + rewrite (becomes_view _ _ _ _ _ Hsb'). apply on_side_ext. intros _. rewrite (op_add _ _ _ _ _ _ _ _ Ho).
      rewrite insert_take_drop by done. rewrite view_of_app. f_equal. cbn [view_of fmap list_fmap]. f_equal.
      rewrite Hr2, Hp2. by rewrite (op_price _ _ _ _ _ _ _ _ Ho).
  - right. subst m. split.
    { intros [Hlive Hroom%(op_room _ _ _ _ _ _ _ _ Ho)]. assert (Hok : fst (refmap.insert r (mkLoc s d i si) (e_map e1)) = true);
        [|by rewrite Hins in Hok]. eapply (index_room (R := R)); [apply H1|done|done|].
      unfold refmap.invalid_location. simpl. unfold valid_side, valid_slot in *. lia. }
    eexists. split; [reflexivity|].
    destruct (pop_order_wf lvl2 q si [] Hwf2) as (Hwf3 & Hp3 & Hd3). rewrite app_nil_r in Hwf3.
    set (lvl3 := set_totals (total_qty lvl) (order_count lvl) (pop_order si lvl2)) in *.
    rewrite Hv2 in Hwf3. replace (total_qty lvl2 - v) with (total_qty lvl) in Hwf3 by (unfold lvl2; simpl; lia).
    replace (order_count lvl2 - 1) with (order_count lvl) in Hwf3 by (unfold lvl2; simpl; lia). fold lvl3 in Hwf3.
    assert (Hpop : popped lvl2 lvl3 q si []) by (split_and!; [by rewrite app_nil_r|exact Hp3|exact Hd3]).
    destruct (popped_fine _ _ _ _ _ Hwf2 Hpop Hq2) as [Hf3 Hr3]; [by rewrite Hp2|].
    rewrite Hlq2, app_nil_r in Hr3.
    replace (with_map (e_map e1) e1) with e1 by by destruct e1.
    set (e3 := set_level s d i lvl3 e1).
    assert (Hsb : side_becomes e1 e3 s d (<[Z.to_nat i := lvl3]> (levels e1 s d))).
    { apply set_level_becomes; [apply H1|done|done|]. apply (lo_length _ _ (lo_links _ _ Hwf3)). }
    assert (Hl3 : levels e3 s d = <[Z.to_nat i := lvl3]> (levels e1 s d)) by (rewrite (sb_levels _ _ _ _ _ Hsb), decide_True; done).
    assert (Hp3' : price lvl3 = price lvl) by (rewrite <- Hp2; exact Hp3).
    assert (H3 : book_core e3 M1).
    { eapply core_replaced; [exact H1|done|done|done|apply H1| |done|done].
      eapply coherent_same; [apply H1|done|done|apply Hsb|]. intros j r' Hj.
      rewrite (popped_order_in _ _ _ _ _ j r' Hpop), (Ho2 j r' Hj). destruct (decide (j = si)) as [->|]; [|tauto].
      split; [tauto|]. intros Hx. by eapply slot_free in Hx. }
    pose proof (becomes_trans _ _ _ _ _ _ _ (op_becomes _ _ _ _ _ _ _ _ Ho) Hsb) as Hsb'.
    destruct (sweep_spec e3 M1 s d i lvl3 H3 Hv) as [[Hok Hvw Hst Htm] _];
      [done|by rewrite Hl3, list_lookup_insert_eq|by eapply nonempty_but_replaced|].
    split; [done| |by rewrite Hst; apply Hsb'|intros; rewrite Htm; apply Hsb'].
    rewrite Hvw, (on_side_const _ _ _ _ _ _ Hsb'). intros s' d' Hv'. unfold on_side. case_decide as E; [|done].
    destruct E as [-> ->]. rewrite (op_view _ _ _ _ _ _ _ _ Ho), Hl3, take_insert_ge, drop_insert_lt, Hr3, Hp3' by lia.
    by rewrite (op_price _ _ _ _ _ _ _ _ Ho).
Qed.

(** Placing an order that is not yet registered. *)
Lemma place_order_spec cr e M s d p v r :
  book_core e M -> (forall s d, valid_side s d -> Forall nonempty (levels e s d)) -> valid_side s d ->
  numeric.is_valid_price p = true -> numeric.is_valid_quantity v = true -> M !! r = None ->
  (no_room p (book_view e s d) /\ place_order cr s d p v r e = reject e)
  \/ ~ no_room p (book_view e s d) /\
     (outcome e (place_order cr s d p v r e) (on_side s d (spec_add d p r v) (book_view e))
      \/ (~ (refmap.live r /\ room (e_map e) r) /\ exists e', place_order cr s d p v r e = (if cr then reject e' else e')
          /\ outcome e e' (book_view e))).
Proof.
  intros H Hne Hv Hp Hq HM.
  assert (Hgo : forall i e1 M1 lvl, (if find_level e s d p <? 0 then insert_level_impl s d p e else (find_level e s d p, e)) = (i, e1) ->
    opened e e1 M1 s d i p lvl ->
    (alloc_slot lvl = -1 /\ no_room p (book_view e s d))
    \/ ~ no_room p (book_view e s d) /\
     (outcome e (place_order cr s d p v r e) (on_side s d (spec_add d p r v) (book_view e))
      \/ (~ (refmap.live r /\ room (e_map e) r) /\ exists e', place_order cr s d p v r e = (if cr then reject e' else e')
          /\ outcome e e' (book_view e)))).
  { intros i e1 M1 lvl E Ho. pose proof (op_core _ _ _ _ _ _ _ _ Ho) as H1. pose proof (op_index _ _ _ _ _ _ _ _ Ho) as Hi.
    pose proof (op_level _ _ _ _ _ _ _ _ Ho) as Hl. pose proof (so_count _ (bc_store _ _ H1) _ _ Hv) as Hc.
    pose proof (bc_fine _ _ H1 _ _ Hv) as Hf. rewrite Forall_lookup in Hf. destruct (Hf _ _ Hl) as [(q & Hwf & Hqv) _].
    rewrite (op_full _ _ _ _ _ _ _ _ Ho), (resting_wf _ _ Hwf). unfold level_queue. rewrite length_fmap.
    destruct (alloc_slot_spec _ _ Hwf) as [[Ea E16]|[Hsi Hnin]]; [by left|right]. split.
    { change (Z.to_nat kMaxOrdersPerLevel) with 16%nat. pose proof (free_slot_room _ _ _ Hwf Hsi Hnin). lia. }
    rewrite levels_lookup_Z in Hl by lia. injection Hl as El.
    rewrite (place_order_unfold cr s d p v r e _ i e1 lvl q) by (done || lia). by eapply place_in_spec. }
  destruct (Z.lt_ge_cases (find_level e s d p) 0) as [Hf|Hf].
  - destruct (Z.lt_ge_cases (level_count e s d) kLevelsPerSide) as [Hc|Hc].
    + destruct (opened_new e M s d p H Hne Hv Hp Hf Hc) as (i & e1 & M1 & E & Ho).
      destruct (Hgo i e1 M1 (empty_level p)) as [[Ea Hn]|?]; [|done|done|by right].
      destruct (Z.ltb_spec (find_level e s d p) 0); [done|lia].
    + left. destruct (find_level_spec e s d p (bc_store _ _ H) Hv (bc_sorted _ _ H _ _ Hv)) as [(lvl & ? & _)|[Ef Hno]]; [lia|].
      pose proof (so_count _ (bc_store _ _ H) _ _ Hv). split.
      * right. unfold book_view, view_of. rewrite length_fmap, levels_length. split; [|lia].
        intros l (lvl & Hin & Ep & _)%view_elem. by apply (Hno lvl).
      * unfold place_order, insert_level_impl. rewrite Ef. cbn [Z.ltb Z.compare].
        destruct (Z.leb_spec kLevelsPerSide (level_count e s d)); [done|lia].
  - destruct (opened_found e M s d p H Hne Hv Hf) as (lvl & Ho). pose proof (Z.ltb_spec (find_level e s d p) 0) as Hb.
    destruct (Hgo (find_level e s d p) e M lvl) as [[Ea Hn]|?]; [|done| |by right]; [by destruct Hb; [lia|]|].
    left. split; [done|]. unfold place_order. destruct Hb; [lia|]. destruct (Z.ltb_spec (find_level e s d p) 0); [lia|].
    pose proof (op_level _ _ _ _ _ _ _ _ Ho) as Hl. rewrite levels_lookup_Z in Hl by apply (op_index _ _ _ _ _ _ _ _ Ho).
    injection Hl as ->. by rewrite Ea.
Qed.

(** ** Messages *)
Lemma book_ok_stats e f : book_ok e -> book_ok (with_stats f e).
Proof. intros [[M [[??] ????]] Hne]. split; [|done]. exists M. by split; [split|..]. Qed.

Lemma book_ok_reject e : book_ok e -> book_ok (reject e).
Proof. apply book_ok_stats. Qed.

Lemma level_count_touch e sym ts s d : level_count (touch_timestamp sym ts e) s d = level_count e s d.
Proof.
  unfold level_count, touch_timestamp, meta. cbn [with_meta e_meta]. rewrite sget_insert. by case_decide; [subst|].
Qed.

Lemma levels_touch e sym ts s d : levels (touch_timestamp sym ts e) s d = levels e s d.
Proof. unfold levels. rewrite level_count_touch. done. Qed.

Lemma book_ok_touch e sym ts : book_ok e -> book_ok (touch_timestamp sym ts e).
Proof.
  intros [[M [[??] ? HC ? ?]] Hne]. split; [|intros; rewrite levels_touch; auto]. exists M.
  split; [split; [done|]|done| | |]; intros; rewrite ?level_count_touch, ?levels_touch; auto.
  intros r loc. unfold holds. rewrite levels_touch. apply HC.
Qed.

Lemma book_view_touch e sym ts : book_view (touch_timestamp sym ts e) ≡ book_view e.
Proof. intros s d _. unfold book_view. by rewrite levels_touch. Qed.

(** What the index may refuse, read off the state before the message. *)
Definition add_full (e : LOBEngine) (r : Z) : Prop := ~ (refmap.live r /\ room (e_map e) r).
Definition repl_full (e : LOBEngine) (r : Z) : Prop := refmap.can_insert r (e_map e) = false.

Definition simulates (e e' : LOBEngine) (t : TickMsg) : Prop :=
  book_ok e' /\ book_step (add_full e) (repl_full e) (book_view e) t (book_view e').

Lemma rests_none e M r : book_core e M -> M !! r = None <-> forall s d, ~ rests (book_view e) s d r.
Proof.
  intros H. split.
  - intros HM s d (? & ? & _)%(rests_iff _ M); [congruence|done].
  - intros Hn. destruct (M !! r) as [loc|] eqn:HM; [|done]. destruct (Hn (symbol_idx loc) (side loc)).
    apply (rests_iff _ M); [done|]. by exists loc.
Qed.

Ltac done_view := first [reflexivity | assumption].

Lemma on_add_order_sim e t :
  book_ok e -> 0 <= t_symbol_idx t < kSymbols -> t_msg_type t ∈ [itch.kAddOrder; itch.kAddOrderMPID] ->
  numeric.is_valid_quantity (t_qty t) = true -> numeric.is_valid_price (t_price t) = true ->
  simulates e (on_add_order t e) t.
Proof.
  intros Hok Hs Ht Hq Hp. unfold simulates, on_add_order.
  pose proof (book_ok_stats e inc_adds Hok) as [[M H] Hne]. set (e1 := with_stats inc_adds e) in *.
  change (book_view e) with (book_view e1). change (add_full e) with (add_full e1). change (repl_full e) with (repl_full e1).
  rewrite (index_lookup _ _ _ (bc_map _ _ H)). destruct (M !! t_order_ref t) as [loc|] eqn:HM.
  { split; [by apply book_ok_reject; split; [exists M|]|]. apply step_add_refused; [done| |done_view]. left.
    exists (symbol_idx loc), (side loc). apply (rests_iff _ M); [done|]. by exists loc. }
  fold (tick_side t). assert (Hv : valid_side (t_symbol_idx t) (tick_side t)) by (split; [done|]; unfold tick_side; case_if; tauto).
  pose proof HM as Hno. rewrite (rests_none _ M) in Hno by done.
  destruct (place_order_spec true e1 M _ _ (t_price t) (t_qty t) (t_order_ref t) H Hne Hv Hp Hq HM)
    as [[Hn ->]|[Hn [[Hok' Hvw _ _]|(Hfull & e' & -> & [Hok' Hvw _ _])]]].
  - split; [by apply book_ok_reject; split; [exists M|]|]. apply step_add_refused; [done| |done_view]. by right; left.
  - split; [done|]. by apply step_add.
  - split; [by apply book_ok_reject|]. apply step_add_refused; [done| |done_view]. by right; right.
Qed.

Lemma reduce_sim e t f :
  book_ok e -> t_msg_type t ∈ [itch.kOrderExecuted; itch.kOrderExecPrice; itch.kOrderCancel] ->
  numeric.is_valid_quantity (t_qty t) = true ->
  simulates e (reduce_order (t_order_ref t) (t_qty t) (with_stats f e)) t.
Proof.
  intros Hok Ht Hq. assert (0 < t_qty t) by (unfold numeric.is_valid_quantity, numeric.kMinQuantity in Hq; lia).
  destruct (reduce_order_spec (with_stats f e) (t_order_ref t) (t_qty t)) as [[Hok' Hvw _ _] _]; [by apply book_ok_stats|done|].
  split; [done|]. by apply step_reduce.
Qed.

Lemma on_order_delete_sim e t :
  book_ok e -> t_msg_type t = itch.kOrderDelete -> simulates e (on_order_delete t e) t.
Proof.
  intros Hok Ht. unfold simulates, on_order_delete.
  pose proof (book_ok_stats e inc_deletes Hok) as [[M H] Hne]. set (e1 := with_stats inc_deletes e) in *.
  change (book_view e) with (book_view e1). rewrite (checked_location_spec e1 M _ H).
  destruct (M !! t_order_ref t) as [loc|] eqn:HM.
  - destruct (drop_order_spec e1 M _ loc H Hne HM) as [[Hok' Hvw _ _] _]. split; [done|]. by apply step_delete.
  - split; [by split; [exists M|]|]. apply step_delete; [done|]. symmetry. by apply edit_absent with M.
Qed.

Lemma on_order_replace_sim e t :
  book_ok e -> t_msg_type t = itch.kOrderReplace -> t_order_ref t <> t_match_num t ->
  numeric.is_valid_quantity (t_qty t) = true -> numeric.is_valid_price (t_price t) = true ->
  simulates e (on_order_replace t e) t.
Proof.
  intros Hok Ht Hne' Hq Hp. unfold simulates, on_order_replace.
  pose proof (book_ok_stats e inc_replaces Hok) as [[M H] Hne]. set (e1 := with_stats inc_replaces e) in *.
  change (book_view e) with (book_view e1). change (add_full e) with (add_full e1). change (repl_full e) with (repl_full e1).
  assert (Hok1 : book_ok e1) by (by split; [exists M|]).
  rewrite (checked_location_spec e1 M _ H). destruct (M !! t_order_ref t) as [loc|] eqn:HM; cycle 1.
  { split; [by apply book_ok_reject|]. apply step_replace_refused; [done| |done_view]. left. by apply (rests_none _ M). }
  destruct (refmap.can_insert (t_match_num t) (e_map e1)) eqn:Hci; cbn [negb]; cycle 1.
  { split; [by apply book_ok_reject|]. apply step_replace_refused; [done| |done_view]. by right; right. }
  destruct (index_can_insert _ _ _ (bc_map _ _ H) Hci) as (Hlive & HMn & Hroom).
  destruct (drop_order_spec e1 M _ loc H Hne HM) as [[[[M2 H2] Hne2] Hvw2 _ _] Hroom2]. set (e2 := drop_order _ loc e1) in *.
  destruct (located _ _ _ _ H HM) as (_ & _ & _ & Hv & _).
  assert (Hrest : rests (book_view e1) (symbol_idx loc) (side loc) (t_order_ref t)) by (apply (rests_iff _ M); [done|by exists loc]).
  pose proof HMn as Hno. rewrite (rests_none _ M) in Hno by done.
  assert (HM2 : M2 !! t_match_num t = None).
  { apply (rests_none e2); [done|]. intros s d [Hv' Hin]. apply (Hno s d). split; [done|].
    rewrite (Hvw2 s d Hv') in Hin. by eapply spec_edit_refs. }
  destruct (place_order_spec false e2 M2 _ _ (t_price t) (t_qty t) (t_match_num t) H2 Hne2 Hv Hp Hq HM2)
    as [[Hn ->]|[Hn [[Hok' Hvw _ _]|(Hfull & _)]]].
  - split; [by apply book_ok_reject; split; [exists M2|]|]. eapply step_replace_lost; [done..|unfold repl_full; congruence| |done_view].
    by rewrite <- (Hvw2 _ _ Hv).
  - split; [done|]. eapply step_replace; [done..|unfold repl_full; congruence| |]; [by rewrite <- (Hvw2 _ _ Hv)|]. rewrite Hvw. by rewrite Hvw2.
  - destruct Hfull. auto.
Qed.

Lemma process_sim e t :
  book_ok e -> 0 <= t_symbol_idx t ->
  book_ok (process_unlocked t e) /\
  if well_formed t then book_step (add_full e) (repl_full e) (book_view e) t (book_view (process_unlocked t e))
  else book_view (process_unlocked t e) ≡ book_view e.
Proof.
  intros Hok H0. unfold process_unlocked. destruct (Z.leb_spec kSymbols (t_symbol_idx t)) as [Hs|Hs].
  { unfold well_formed. destruct (Z.ltb_spec (t_symbol_idx t) kSymbols); [lia|]. split; [by apply book_ok_reject|done]. }
  set (e1 := if 0 <? t_timestamp t then touch_timestamp (t_symbol_idx t) (t_timestamp t) e else e).
  assert (Hok1 : book_ok e1) by (unfold e1; case_if; [by apply book_ok_touch|done]).
  assert (Hv1 : book_view e1 ≡ book_view e) by (unfold e1; case_if; [apply book_view_touch|done]).
  assert (Hm : e_map e1 = e_map e) by (unfold e1; by case_if).
  assert (Hrej : book_ok (reject e1) /\ book_view (reject e1) ≡ book_view e) by (split; [by apply book_ok_reject|exact Hv1]).
  assert (Hsim : forall e', simulates e1 e' t ->
    book_ok e' /\ book_step (add_full e) (repl_full e) (book_view e) t (book_view e')).
  { intros e' [Hok' Hst]. split; [done|]. unfold add_full, repl_full in *. rewrite Hm in Hst.
    eapply book_step_equiv; [exact Hv1|done|exact Hst]. }
  unfold well_formed. destruct (Z.ltb_spec (t_symbol_idx t) kSymbols); [|lia]. cbn [andb]. cbv zeta.
  destruct (_ || _) eqn:EA.
  { destruct (t_order_ref t =? 0), (numeric.is_valid_quantity (t_qty t)) eqn:Eq, (numeric.is_valid_price (t_price t)) eqn:Ep;
      cbn [negb andb orb]; try exact Hrej. apply Hsim, on_add_order_sim; try done. set_unfold. lia. }
  destruct ((t_msg_type t =? itch.kOrderExecuted) || (t_msg_type t =? itch.kOrderExecPrice)) eqn:EE; cbn [orb].
  { destruct (t_order_ref t =? 0), (numeric.is_valid_quantity (t_qty t)) eqn:Eq; cbn [negb andb orb]; try exact Hrej.
    apply Hsim, reduce_sim; try done. set_unfold. lia. }
  destruct (Z.eqb_spec (t_msg_type t) itch.kOrderCancel) as [EC|EC]; cbn [orb].
  { destruct (t_order_ref t =? 0), (numeric.is_valid_quantity (t_qty t)) eqn:Eq; cbn [negb andb orb]; try exact Hrej.
    apply Hsim, reduce_sim; try done. set_unfold. lia. }
  destruct (Z.eqb_spec (t_msg_type t) itch.kOrderDelete) as [ED|ED].
  { destruct (t_order_ref t =? 0); cbn [negb]; [exact Hrej|]. by apply Hsim, on_order_delete_sim. }
  destruct (Z.eqb_spec (t_msg_type t) itch.kOrderReplace) as [ER|ER].
  { destruct (t_order_ref t =? 0), (t_match_num t =? 0), (Z.eqb_spec (t_order_ref t) (t_match_num t)),
      (numeric.is_valid_quantity (t_qty t)) eqn:Eq, (numeric.is_valid_price (t_price t)) eqn:Ep;
      cbn [negb andb orb]; try exact Hrej. by apply Hsim, on_order_replace_sim. }
  destruct (Z.eqb_spec (t_msg_type t) itch.kTrade) as [ET|ET]; cbn [andb]; [|exact Hrej].
  destruct (numeric.is_valid_quantity (t_qty t)), (numeric.is_valid_price (t_price t)); cbn [negb andb orb]; try exact Hrej.
  split; [by apply book_ok_stats|]. apply step_trade; [done|exact Hv1].
Qed.

End refine.
