(* ===== verification/LobTheorems.v ===== *)
(** * What the book engine guarantees in every reachable state

    The engine is run from its initial state on arbitrary messages; the
    theorems are those of LobRefine with the reference map in the place of its
    interface. *)
From Stdlib Require Import ZArith Lia ZifyBool Sorted.
From stdpp Require Import sorting.
From S2P Require Import Prelude Config Numeric OrderRefMap Level Lob LobStore BookSpec LobRefine.

(** The engine after [init] on a freshly mapped arena. *)
Definition lob_fresh : LOBEngine := snd (lob_init true ∅ true (mkEngine ∅ refmap.unmapped ∅ zero_stats)).

Definition run_ticks (ts : list TickMsg) : LOBEngine := foldl (fun e t => process_unlocked t e) lob_fresh ts.

Abbreviation engine_ok := (book_ok (R := refmap.repr)).
Abbreviation engine_core := (book_core (R := refmap.repr)).

Lemma lob_fresh_ok : engine_ok lob_fresh.
Proof.
  assert (Hl : forall s d, levels lob_fresh s d = []).
  { intros s d. unfold levels. replace (level_count lob_fresh s d) with 0; [done|]. unfold level_count. by case_if. }
  split; [|intros; rewrite Hl; constructor]. exists ∅. split.
  - split; [done|]. intros s d _. replace (level_count lob_fresh s d) with 0; [done|]. unfold level_count. by case_if.
  - apply refmap.fresh_repr.
  - intros r loc. rewrite lookup_empty. split; [done|]. intros (_ & _ & _ & lvl & Hlvl & _). by rewrite Hl in Hlvl.
  - intros. rewrite Hl. constructor.
  - intros. rewrite Hl. constructor.
Qed.

Lemma run_ticks_ok ts : Forall tick_typed ts -> engine_ok (run_ticks ts).
Proof.
  unfold run_ticks. intros H. pose proof lob_fresh_ok as Hok. revert Hok. generalize lob_fresh.
  induction H as [|t ts Ht Hts IH]; intros e Hok; [done|]. simpl. apply IH.
  apply (process_sim (room := index_has_room)); [done|]. apply Ht.
Qed.

(** ** Concrete messages for the witnesses *)
Definition add_tick (buy : bool) (sym price qty ref : Z) : TickMsg :=
  mkTick itch.kAddOrder (if buy then 1 else 0) sym 1 price qty ref 0.
Definition delete_tick (sym ref : Z) : TickMsg := mkTick itch.kOrderDelete 0 sym 1 0 0 ref 0.
Definition exec_tick (sym qty ref : Z) : TickMsg := mkTick itch.kOrderExecuted 0 sym 1 0 qty ref 0.
Definition replace_tick (sym price qty ref new_ref : Z) : TickMsg := mkTick itch.kOrderReplace 0 sym 1 price qty ref new_ref.

Definition tick_typed_b (t : TickMsg) : bool :=
  (0 <=? t_msg_type t) && (t_msg_type t <? 2 ^ 8) && (0 <=? t_flags t) && (t_flags t <? 2 ^ 8) &&
  (0 <=? t_symbol_idx t) && (t_symbol_idx t <? 2 ^ 16) && (0 <=? t_timestamp t) && (t_timestamp t <? 2 ^ 64) &&
  (- 2 ^ 63 <=? t_price t) && (t_price t <? 2 ^ 63) && (- 2 ^ 63 <=? t_qty t) && (t_qty t <? 2 ^ 63) &&
  (0 <=? t_order_ref t) && (t_order_ref t <? 2 ^ 64) && (0 <=? t_match_num t) && (t_match_num t <? 2 ^ 64).

Lemma tick_typed_b_sound t : tick_typed_b t = true -> tick_typed t.
Proof. unfold tick_typed_b. intros. split_guards. split; unfold in_u, in_s; simpl in *; lia. Qed.

Lemma ticks_typed ts : forallb tick_typed_b ts = true -> Forall tick_typed ts.
Proof.
  rewrite forallb_forall, Forall_forall. intros H t Ht. by apply tick_typed_b_sound, H, list_elem_of_In.
Qed.

(** A book with two bids, one of them partially executed, and an ask. *)
Definition sample_ticks : list TickMsg :=
  [add_tick true 3 1000000 500 11; add_tick true 3 1000100 200 12; add_tick false 3 1000200 300 13;
   add_tick true 3 1000000 700 14; exec_tick 3 100 11].

Lemma sample_typed : Forall tick_typed sample_ticks.
Proof. by apply ticks_typed. Qed.

(** ** Refinement *)

(** C1: the engine implements the price-time priority book: from every
    reachable state, a message that passes the validity guards takes the book
    the slab shows (prices in order, queues in arrival order) to the book the
    specification step gives, and any other message leaves the book unchanged. *)
Theorem lob_refines_book (ts : list TickMsg) (t : TickMsg) (Hts : Forall tick_typed ts) (Ht : tick_typed t) :
  let e := run_ticks ts in
  let e' := process_unlocked t e in
  if well_formed t
  then book_step (add_full (room := index_has_room) e) (repl_full e) (book_view e) t (book_view e')
  else book_view e' ≡ book_view e.
Proof. apply (process_sim (R := refmap.repr)); [by apply run_ticks_ok|apply Ht]. Qed.

Lemma lob_refines_book_witness :
  let e := run_ticks sample_ticks in
  let t := delete_tick 3 12 in
  book_step (add_full (room := index_has_room) e) (repl_full e) (book_view e) t (book_view (process_unlocked t e)).
Proof.
  exact (lob_refines_book sample_ticks (delete_tick 3 12) sample_typed (tick_typed_b_sound (delete_tick 3 12) eq_refl)).
Defined.

Definition level_consistent (lvl : PriceLevel) : Prop :=
  numeric.is_valid_price (price lvl) = true
  /\ total_qty lvl = zsum (snd <$> resting lvl)
  /\ order_count lvl = Z.of_nat (length (resting lvl))
  /\ 1 <= order_count lvl <= kMaxOrdersPerLevel
  /\ Forall (fun o => numeric.is_valid_quantity (snd o) = true) (resting lvl).

Lemma level_fine_consistent lvl : level_fine lvl -> nonempty lvl -> level_consistent lvl.
Proof.
  intros [(q & Hwf & Hq) Hp] Hne. unfold level_consistent. rewrite (resting_wf _ _ Hwf). unfold level_queue.
  rewrite <- list_fmap_compose, length_fmap, Forall_fmap. pose proof (level_count_bound _ _ (lo_links _ _ Hwf)).
  unfold nonempty in Hne. rewrite (lo_count _ _ Hwf) in *. split_and!; try done; try (unfold kMaxOrdersPerLevel; lia).
  - apply (lo_total _ _ Hwf).
  - apply Forall_forall. intros i Hi. by apply Hq.
Qed.

(** C2: the book invariant: in every reachable state each side has its prices
    strictly sorted (bids descending, asks ascending) and at most 1024 levels,
    and every level has a valid price, between one and sixteen orders of valid
    quantity, and aggregates equal to the sum and the number of its queue. *)
Theorem lob_invariant (ts : list TickMsg) (s d : Z) (Hts : Forall tick_typed ts) (Hv : valid_side s d) :
  let ls := levels (run_ticks ts) s d in
  side_sorted d ls /\ Forall level_consistent ls /\ (length ls <= Z.to_nat kLevelsPerSide)%nat.
Proof.
  destruct (run_ticks_ok ts Hts) as [[M H] Hne]. split_and!.
  - by apply H.
  - apply Forall_forall. intros lvl Hl. pose proof (bc_fine _ _ H _ _ Hv) as Hf. specialize (Hne _ _ Hv).
    rewrite Forall_forall in Hf, Hne. apply level_fine_consistent; auto.
  - rewrite levels_length. pose proof (so_count _ (bc_store _ _ H) _ _ Hv). lia.
Qed.

Lemma lob_invariant_witness :
  let ls := levels (run_ticks sample_ticks) 3 0 in
  side_sorted 0 ls /\ Forall level_consistent ls /\ (length ls <= Z.to_nat kLevelsPerSide)%nat.
Proof. apply (lob_invariant sample_ticks 3 0 sample_typed). split; [done|by left]. Defined.

(** the reference map and the slab agree: in every reachable state a
    lookup of a reference returns a location exactly when the slot at that
    location of an active level is active and carries that reference. *)
Theorem lob_lookup_coherent (ts : list TickMsg) (Hts : Forall tick_typed ts) (r : Z) (loc : OrderLocation) :
  refmap.lookup r (e_map (run_ticks ts)) = Some loc <-> holds (run_ticks ts) loc r.
Proof.
  destruct (run_ticks_ok ts Hts) as [[M H] _]. rewrite (index_lookup _ _ _ (bc_map _ _ H)). apply H.
Qed.

Lemma lob_lookup_coherent_witness : holds (run_ticks sample_ticks) (mkLoc 3 0 1 1) 14.
Proof. apply (lob_lookup_coherent sample_ticks sample_typed). vm_compute. reflexivity. Defined.

(** ** Queries *)

(** The prices of a side, best first. *)
Definition side_prices (e : LOBEngine) (s d : Z) : list Z := fst <$> book_view e s d.

Lemma top_of_side e s d p :
  engine_ok e -> valid_side s d -> 0 < level_count e s d -> Level.price (level e s d 0) = p ->
  p ∈ side_prices e s d /\ (forall p', p' ∈ side_prices e s d -> p' = p \/ better d p p' = true)
  /\ numeric.is_valid_price p = true.
Proof.
  intros [[M H] _] Hv Hc Hp. pose proof (levels_lookup_Z e s d 0 ltac:(lia)) as H0. change (Z.to_nat 0) with 0%nat in H0.
  unfold side_prices, book_view, view_of. rewrite <- list_fmap_compose. split_and!.
  - apply list_elem_of_fmap. exists (level e s d 0). split; [by rewrite <- Hp|]. by eapply list_elem_of_lookup_2.
  - intros p' (lvl & -> & [i Hi]%list_elem_of_lookup_1)%list_elem_of_fmap. simpl. destruct i as [|i].
    + left. rewrite H0 in Hi. injection Hi as <-. done.
    + right. rewrite <- Hp. eapply (side_sorted_lookup d _ 0); [by apply (bc_sorted _ _ H)| |exact H0|exact Hi]. lia.
  - pose proof (bc_fine _ _ H _ _ Hv) as Hf. rewrite Forall_lookup in Hf. rewrite <- Hp. by apply (Hf _ _ H0).
Qed.

Lemma side_prices_empty e s d : engine_ok e -> valid_side s d -> level_count e s d = 0 <-> side_prices e s d = [].
Proof.
  intros [[M H] _] Hv. pose proof (so_count _ (bc_store _ _ H) _ _ Hv). unfold side_prices, book_view, view_of.
  rewrite <- list_fmap_compose. split.
  - intros E. apply length_zero_iff_nil. rewrite length_fmap, levels_length, E. done.
  - intros E%(f_equal length). rewrite length_fmap, levels_length in E. simpl in E. lia.
Qed.

Lemma valid_bid s : 0 <= s < kSymbols -> valid_side s 0.
Proof. split; [done|by left]. Qed.

Lemma valid_ask s : 0 <= s < kSymbols -> valid_side s 1.
Proof. split; [done|by right]. Qed.

Lemma best_bid_spec e s :
  engine_ok e -> 0 <= s < kSymbols ->
  if decide (side_prices e s 0 = []) then best_bid_price e s = 0
  else best_bid_price e s ∈ side_prices e s 0 /\ (forall p, p ∈ side_prices e s 0 -> p <= best_bid_price e s)
       /\ numeric.is_valid_price (best_bid_price e s) = true.
Proof.
  intros Hok Hs. unfold best_bid_price. destruct (Z.leb_spec kSymbols s); [lia|].
  change (bid_levels (meta e s)) with (level_count e s 0).
  pose proof (side_prices_empty e s 0 Hok (valid_bid s Hs)) as He. destruct Hok as [[M H0] Hne].
  pose proof (so_count _ (bc_store _ _ H0) _ _ (valid_bid s Hs)).
  destruct (Z.eqb_spec (level_count e s 0) 0); case_decide; try tauto.
  destruct (top_of_side e s 0 (Level.price (level e s 0 0))) as (? & Hb & ?); [by split; [exists M|]|by apply valid_bid|lia|done|].
  split_and!; [done| |done]. intros p [->|Hp]%Hb; [done|]. unfold better in Hp. simpl in Hp. lia.
Qed.

Lemma best_ask_spec e s :
  engine_ok e -> 0 <= s < kSymbols ->
  if decide (side_prices e s 1 = []) then best_ask_price e s = 0
  else best_ask_price e s ∈ side_prices e s 1 /\ (forall p, p ∈ side_prices e s 1 -> best_ask_price e s <= p)
       /\ numeric.is_valid_price (best_ask_price e s) = true.
Proof.
  intros Hok Hs. unfold best_ask_price. destruct (Z.leb_spec kSymbols s); [lia|].
  change (ask_levels (meta e s)) with (level_count e s 1).
  pose proof (side_prices_empty e s 1 Hok (valid_ask s Hs)) as He. destruct Hok as [[M H0] Hne].
  pose proof (so_count _ (bc_store _ _ H0) _ _ (valid_ask s Hs)).
  destruct (Z.eqb_spec (level_count e s 1) 0); case_decide; try tauto.
  destruct (top_of_side e s 1 (Level.price (level e s 1 0))) as (? & Hb & ?); [by split; [exists M|]|by apply valid_ask|lia|done|].
  split_and!; [done| |done]. intros p [->|Hp]%Hb; [done|]. unfold better in Hp. simpl in Hp. lia.
Qed.

(** the top of the book: in every reachable state [best_bid_price] is the
    highest and [best_ask_price] the lowest price with a resting order, and 0
    exactly when the side is empty; when both sides have orders, [mid_price]
    and [spread] are the exact integer midpoint and difference (no int64
    wrap-around), and [is_crossed] says that the spread is not positive. *)
Theorem lob_top_of_book (ts : list TickMsg) (s : Z) (Hts : Forall tick_typed ts) (Hs : 0 <= s < kSymbols) :
  let e := run_ticks ts in
  let bid := best_bid_price e s in
  let ask := best_ask_price e s in
  (if decide (side_prices e s 0 = []) then bid = 0
   else bid ∈ side_prices e s 0 /\ forall p, p ∈ side_prices e s 0 -> p <= bid)
  /\ (if decide (side_prices e s 1 = []) then ask = 0
      else ask ∈ side_prices e s 1 /\ forall p, p ∈ side_prices e s 1 -> ask <= p)
  /\ (side_prices e s 0 <> [] -> side_prices e s 1 <> [] ->
      mid_price e s = (bid + ask) / 2 /\ spread e s = ask - bid /\ (is_crossed e s = true <-> spread e s <= 0)).
Proof.
  intros e bid ask. pose proof (run_ticks_ok ts Hts) as Hok. fold e in Hok.
  pose proof (best_bid_spec e s Hok Hs) as Hb. pose proof (best_ask_spec e s Hok Hs) as Ha. fold bid in Hb. fold ask in Ha.
  split_and!;
    [destruct (decide (side_prices e s 0 = [])); tauto|destruct (decide (side_prices e s 1 = [])); tauto|]. intros Hb0 Ha0. rewrite decide_False in Hb by done. rewrite decide_False in Ha by done.
  destruct Hb as (_ & _ & Hb), Ha as (_ & _ & Ha).
  unfold mid_price, spread, is_crossed. fold bid ask. destruct (Z.leb_spec kSymbols s); [lia|].
  unfold numeric.is_valid_price, numeric.kMinPrice, numeric.kMaxPrice in *.
  assert (E0 : (bid =? 0) || (ask =? 0) = false) by lia. rewrite E0.
  rewrite !numeric.s64_id by lia. rewrite Z.quot_div_nonneg by lia. split_and!; [done|done|]. lia.
Qed.

Lemma lob_top_of_book_witness :
  best_bid_price (run_ticks sample_ticks) 3 = 1000100 /\
  mid_price (run_ticks sample_ticks) 3 = (1000100 + 1000200) / 2 /\ spread (run_ticks sample_ticks) 3 = 1000200 - 1000100.
Proof.
  pose proof (lob_top_of_book sample_ticks 3 sample_typed ltac:(unfold kSymbols; lia)) as (_ & _ & H).
  destruct H as (H1 & H2 & _); [by vm_compute|by vm_compute|]. split; [by vm_compute|].
  split; [exact H1|exact H2].
Defined.

(** the binary search of [find_level] is the linear search: in every
    reachable state it returns the index of the level with that price, and -1
    exactly when no level has it. *)
Theorem lob_find_level (ts : list TickMsg) (s d p : Z) (Hts : Forall tick_typed ts) (Hv : valid_side s d) :
  find_level (run_ticks ts) s d p =
  match list_find (fun lvl => price lvl = p) (levels (run_ticks ts) s d) with
  | Some (i, _) => Z.of_nat i
  | None => -1
  end.
Proof.
  destruct (run_ticks_ok ts Hts) as [[M H] _]. set (e := run_ticks ts) in *.
  destruct (find_level_spec e s d p (bc_store _ _ H) Hv (bc_sorted _ _ H _ _ Hv)) as [(lvl & H0 & Hl & Hp)|[-> Hno]].
  - destruct (list_find _ _) as [[i lvl']|] eqn:E.
    + apply list_find_Some in E as (Hi & Hp' & _).
      pose proof (sorted_unique_price _ _ _ _ _ _ (bc_sorted _ _ H _ _ Hv) Hl Hi ltac:(congruence)). lia.
    + apply list_find_None in E. rewrite Forall_forall in E. destruct (E lvl); [by eapply list_elem_of_lookup_2|done].
  - destruct (list_find _ _) as [[i lvl']|] eqn:E; [|done]. apply list_find_Some in E as (Hi & Hp' & _).
    destruct (Hno lvl'); [by eapply list_elem_of_lookup_2|done].
Qed.

Lemma lob_find_level_witness :
  find_level (run_ticks sample_ticks) 3 0 1000000 =
  match list_find (fun lvl => price lvl = 1000000) (levels (run_ticks sample_ticks) 3 0) with
  | Some (i, _) => Z.of_nat i
  | None => -1
  end.
Proof. apply (lob_find_level sample_ticks 3 0 1000000 sample_typed). split; [done|by left]. Defined.

(** *** Depth *)
Lemma depth_fold e s d (n : nat) :
  engine_ok e -> valid_side s d -> Z.of_nat n <= level_count e s d ->
  foldl (fun total i => s64 (total + total_qty (level e s d i))) 0 (zrange 0 n)
  = zsum (total_qty <$> take n (levels e s d))
  /\ 0 <= zsum (total_qty <$> take n (levels e s d)) <= Z.of_nat n * (16 * numeric.kMaxQuantity).
Proof.
  intros Hok Hv. pose proof Hok as [[M H] _]. pose proof (so_count _ (bc_store _ _ H) _ _ Hv) as Hc. unfold kLevelsPerSide in Hc.
  induction n as [|n IH]; intros Hn; [simpl; lia|]. destruct IH as [IH Hb]; [lia|].
  unfold zrange in *. rewrite seq_S, fmap_app, foldl_app, IH. cbn [foldl fmap list_fmap Nat.add].
  assert (Hl : levels e s d !! n = Some (level e s d (Z.of_nat n))) by (rewrite levels_lookup, decide_True by lia; done).
  rewrite (take_S_r _ _ _ Hl), fmap_app, zsum_app. cbn [fmap list_fmap].
  rewrite zsum_cons. change (zsum []) with 0.
  pose proof (bc_fine _ _ H _ _ Hv) as Hf. rewrite Forall_lookup in Hf. destruct (Hf _ _ Hl) as [(q & Hwf & Hq) _].
  destruct (level_bounds _ _ Hwf Hq) as [Ht _]. unfold numeric.kMaxQuantity in *. change (0 + Z.of_nat n) with (Z.of_nat n).
  rewrite numeric.s64_id by lia. split; lia.
Qed.

(** [bid_depth_qty] and [ask_depth_qty] are exact: in every reachable
    state the depth over the top [n] levels is the sum of the quantities of all
    orders resting there, with no int64 wrap-around. *)
Theorem lob_depth_exact (ts : list TickMsg) (s d n : Z) (Hts : Forall tick_typed ts) (Hv : valid_side s d) (Hn : 0 <= n) :
  depth_qty (run_ticks ts) s d n =
  zsum ((fun pl => zsum (snd <$> snd pl)) <$> take (Z.to_nat n) (book_view (run_ticks ts) s d)).
Proof.
  pose proof (run_ticks_ok ts Hts) as Hok. set (e := run_ticks ts) in *. pose proof Hok as [[M H] Hne].
  pose proof (so_count _ (bc_store _ _ H) _ _ Hv) as Hc. unfold depth_qty. destruct (Z.leb_spec kSymbols s); [unfold valid_side in Hv; lia|].
  set (k := if n <? level_count e s d then n else level_count e s d).
  assert (Hk : 0 <= k <= level_count e s d) by (unfold k; case_if; lia).
  destruct (depth_fold e s d (Z.to_nat k) Hok Hv) as [-> _]; [lia|].
  assert (Htake : take (Z.to_nat k) (levels e s d) = take (Z.to_nat n) (levels e s d)).
  { unfold k. destruct (Z.ltb_spec n (level_count e s d)); [done|]. rewrite !take_ge by (rewrite levels_length; lia). done. }
  rewrite Htake. unfold book_view, view_of. rewrite <- fmap_take, <- list_fmap_compose. f_equal.
  apply list_fmap_ext. intros i lvl Hi. apply lookup_take_Some in Hi as [Hi _]. simpl.
  pose proof (bc_fine _ _ H _ _ Hv) as Hf. specialize (Hne _ _ Hv). rewrite Forall_lookup in Hf, Hne.
  by apply (level_fine_consistent _ (Hf _ _ Hi) (Hne _ _ Hi)).
Qed.

Lemma lob_depth_exact_witness :
  depth_qty (run_ticks sample_ticks) 3 0 2 = 1300 /\
  depth_qty (run_ticks sample_ticks) 3 0 2 =
  zsum ((fun pl => zsum (snd <$> snd pl)) <$> take (Z.to_nat 2) (book_view (run_ticks sample_ticks) 3 0)).
Proof.
  split; [by vm_compute|]. apply (lob_depth_exact sample_ticks 3 0 2 sample_typed); [split; [done|by left]|lia].
Defined.

(** *** Number of orders *)

(** The references resting in the whole book. *)
Definition all_refs (e : LOBEngine) : list Z :=
  zrange 0 (Z.to_nat kSymbols) ≫= fun s => [0; 1] ≫= fun d => side_refs (book_view e s d).

Lemma elem_of_all_refs e M r : engine_core e M -> r ∈ all_refs e <-> is_Some (M !! r).
Proof.
  intros H. unfold all_refs. rewrite list_elem_of_bind. setoid_rewrite list_elem_of_bind. split.
  - intros (s & (d & Hr & Hd) & Hs%elem_of_zrange).
    assert (Hrest : rests (book_view e) s d r) by (split; [split; [unfold kSymbols in *; lia|set_solver]|done]).
    apply (rests_iff (R := refmap.repr) e M) in Hrest as (loc & -> & _); [done|done].
  - intros [loc HM]. assert (Hrest : rests (book_view e) (symbol_idx loc) (side loc) r) by (apply (rests_iff (R := refmap.repr) e M); [done|by exists loc]).
    destruct Hrest as [[Hs Hd] Hr]. exists (symbol_idx loc). rewrite elem_of_zrange. split; [|unfold kSymbols in *; lia].
    exists (side loc). split; [done|]. set_solver.
Qed.

(** No reference occurs twice on a side. *)
Lemma NoDup_side_refs e M s d : engine_core e M -> valid_side s d -> NoDup (side_refs (book_view e s d)).
Proof.
  intros H Hv. pose proof (bc_fine _ _ H _ _ Hv) as Hf. rewrite Forall_forall in Hf.
  assert (Huniq : forall i j a b sa sb r, levels e s d !! i = Some a -> levels e s d !! j = Some b ->
    valid_slot sa -> valid_slot sb -> order_in a sa r -> order_in b sb r -> i = j /\ sa = sb).
  { intros i j a b sa sb r Hi Hj Ha Hb Hoa Hob.
    assert (Hh : forall i a sa, levels e s d !! i = Some a -> valid_slot sa -> order_in a sa r -> M !! r = Some (mkLoc s d (Z.of_nat i) sa)).
    { intros i' a' sa' ???. apply (bc_coherent _ _ H). unfold holds. simpl. rewrite Nat2Z.id. split_and!; [done|done|lia|by exists a']. }
    pose proof (Hh _ _ _ Hi Ha Hoa) as E1. rewrite (Hh _ _ _ Hj Hb Hob) in E1. injection E1. lia. }
  unfold side_refs, book_view, view_of. rewrite list_bind_fmap. apply NoDup_bind_lookup.
  - intros i j a b r Hi Hj Ha Hb. simpl in *.
    destruct (Hf a (list_elem_of_lookup_2 _ _ _ Hi)) as [(qa & Hwa & _) _], (Hf b (list_elem_of_lookup_2 _ _ _ Hj)) as [(qb & Hwb & _) _].
    apply (resting_ref _ _ _ Hwa) in Ha as (sa & ? & ?). apply (resting_ref _ _ _ Hwb) in Hb as (sb & ? & ?).
    by destruct (Huniq i j a b sa sb r).
  - intros a [i Hi]%list_elem_of_lookup_1. simpl. destruct (Hf a (list_elem_of_lookup_2 _ _ _ Hi)) as [(q & Hwf & _) _].
    rewrite (resting_wf _ _ Hwf). unfold level_queue. rewrite <- list_fmap_compose. apply NoDup_fmap_2_strong; [|apply (lo_nodup _ _ (lo_links _ _ Hwf))].
    intros x y Hx Hy E. simpl in E.
    assert (Hv' : forall z, z ∈ q -> valid_slot z /\ order_in a z (order_id (slot_at a z))).
    { intros z Hz. assert (valid_slot z) by (eapply lo_range; [apply Hwf|done]). split; [done|]. split; [by apply (lo_active _ _ Hwf)|done]. }
    destruct (Hv' x Hx) as [? Hox], (Hv' y Hy) as [? Hoy]. rewrite <- E in Hoy.
    by destruct (Huniq i i a a x y _ Hi Hi ltac:(done) ltac:(done) Hox Hoy).
Qed.

Lemma NoDup_all_refs e M : engine_core e M -> NoDup (all_refs e).
Proof.
  intros H.
  assert (Hloc : forall s d r, s ∈ zrange 0 (Z.to_nat kSymbols) -> d ∈ [0; 1] -> r ∈ side_refs (book_view e s d) ->
    exists loc, M !! r = Some loc /\ symbol_idx loc = s /\ side loc = d).
  { intros s d r Hs%elem_of_zrange Hd Hr. apply (rests_iff (R := refmap.repr) e M); [done|]. split; [|done]. split; [unfold kSymbols in *; lia|set_solver]. }
  unfold all_refs. apply NoDup_bind.
  - intros s1 s2 r Hs1 Hs2 (d1 & Hr1 & Hd1)%list_elem_of_bind (d2 & Hr2 & Hd2)%list_elem_of_bind.
    destruct (Hloc _ _ _ Hs1 Hd1 Hr1) as (l1 & E1 & <- & _), (Hloc _ _ _ Hs2 Hd2 Hr2) as (l2 & E2 & <- & _). congruence.
  - intros s Hs. apply NoDup_bind; [| |repeat constructor; set_solver].
    + intros d1 d2 r Hd1 Hd2 Hr1 Hr2.
      destruct (Hloc _ _ _ Hs Hd1 Hr1) as (l1 & E1 & _ & <-), (Hloc _ _ _ Hs Hd2 Hr2) as (l2 & E2 & _ & <-). congruence.
    + intros d Hd. eapply NoDup_side_refs; [done|]. apply elem_of_zrange in Hs. split; [unfold kSymbols in *; lia|set_solver].
  - apply (NoDup_fmap_2 _), NoDup_seq.
Qed.

(** [active_order_count] is the number of orders resting in the whole
    book, over all symbols and both sides, and no reference rests twice. *)
Theorem lob_active_order_count (ts : list TickMsg) (Hts : Forall tick_typed ts) :
  NoDup (all_refs (run_ticks ts)) /\ active_order_count (run_ticks ts) = Z.of_nat (length (all_refs (run_ticks ts))).
Proof.
  destruct (run_ticks_ok ts Hts) as [[M H] _]. set (e := run_ticks ts) in *. pose proof (NoDup_all_refs e M H) as Hnd.
  split; [done|]. unfold active_order_count. rewrite (index_count _ _ (bc_map _ _ H)). f_equal.
  rewrite <- (size_dom M), <- (size_list_to_set (C := gset Z)) by done. f_equal. apply leibniz_equiv. intros r.
  by rewrite elem_of_dom, elem_of_list_to_set, (elem_of_all_refs e M r H).
Qed.

Lemma lob_active_order_count_witness :
  NoDup (all_refs (run_ticks sample_ticks)) /\
  active_order_count (run_ticks sample_ticks) = Z.of_nat (length (all_refs (run_ticks sample_ticks))).
Proof. apply (lob_active_order_count sample_ticks sample_typed). Defined.

(** ** Histories of messages *)

(** Deleting an order just added gives back the side. *)
Lemma spec_delete_add d p r q L :
  no_empty L -> r ∉ side_refs L -> spec_edit r (fun _ => None) (spec_add d p r q L) = L.
Proof.
  intros HE. induction HE as [|[p' l] L Hl HL IH]; intros Hr.
  - unfold spec_edit. cbn. by rewrite Z.eqb_refl.
  - rewrite side_refs_cons, not_elem_of_app in Hr. destruct Hr as [Hr1 Hr2]. cbn [spec_add].
    assert (Hid : spec_edit r (fun _ => None) ((p', l) :: L) = (p', l) :: L).
    { apply spec_edit_id; [by constructor|]. rewrite side_refs_cons. set_solver. }
    destruct (p =? p').
    + change ((p', l ++ [(r, q)]) :: L) with ([] ++ (p', l ++ (r, q) :: []) :: L). rewrite spec_edit_at; try done.
      * simpl. rewrite app_nil_r. by rewrite filter_cons_True.
      * constructor; [by destruct l|done].
      * by intros ?%not_elem_of_nil.
      * by intros ?%not_elem_of_nil.
    + destruct (better d p p').
      * change ((p, [(r, q)]) :: (p', l) :: L) with ([(p, [(r, q)])] ++ (p', l) :: L). rewrite spec_edit_app, Hid.
        unfold spec_edit. cbn. by rewrite Z.eqb_refl.
      * change ((p', l) :: spec_add d p r q L) with ([(p', l)] ++ spec_add d p r q L). rewrite spec_edit_app, IH by done.
        change ((p', l) :: L) with ([(p', l)] ++ L). f_equal. apply spec_edit_id; [by constructor|].
        rewrite side_refs_cons. set_solver.
Qed.

(** The symbol and timestamps of a deletion play no role. *)
Lemma delete_process e s r :
  engine_ok e -> 0 <= s < kSymbols -> r <> 0 ->
  book_view (process_unlocked (delete_tick s r) e) ≡ on_all (spec_edit r (fun _ => None)) (book_view e).
Proof.
  intros Hok Hs Hr. destruct (process_sim (room := index_has_room) e (delete_tick s r) Hok) as [_ H]; [simpl; lia|].
  assert (E : well_formed (delete_tick s r) = true).
  { unfold well_formed. cbn. destruct (Z.ltb_spec s kSymbols); [|lia]. by destruct (Z.eqb_spec r 0). }
  rewrite E in H. inversion H as [B' Ht|B' Ht|B' Ht|B' Ht HB|B' s' d Ht|B' Ht|B' s' d Ht|B' Ht]; try (by vm_compute in Ht);
    try (by exfalso; set_unfold; vm_compute in Ht; naive_solver).
Qed.

(** adding an order and deleting it gives back the book: if an add message
    made a new reference rest in the book, the delete of that reference that
    follows restores every side of every book, the price level included. *)
Theorem lob_add_delete_roundtrip (ts : list TickMsg) (t : TickMsg) (s : Z)
  (Hts : Forall tick_typed ts) (Ht : tick_typed t) (Hs : 0 <= s < kSymbols)
  (Hty : t_msg_type t = itch.kAddOrder) (Hwf : well_formed t = true)
  (Hnew : forall s' d', ~ rests (book_view (run_ticks ts)) s' d' (t_order_ref t)) :
  book_view (run_ticks (ts ++ [t; delete_tick s (t_order_ref t)])) ≡ book_view (run_ticks ts).
Proof.
  unfold run_ticks in *. rewrite foldl_app. cbn [foldl]. fold (run_ticks ts) in *. pose proof (run_ticks_ok ts Hts) as Hok.
  destruct (process_sim (room := index_has_room) (run_ticks ts) t Hok) as [Hok' H]; [apply Ht|]. rewrite Hwf in H.
  assert (Hr0 : t_order_ref t <> 0).
  { unfold well_formed in Hwf. rewrite Hty in Hwf. cbn in Hwf. lia. }
  rewrite delete_process by done. destruct Hok as [[M Hc] Hne].
  assert (Hid : on_all (spec_edit (t_order_ref t) (fun _ => None)) (book_view (run_ticks ts)) ≡ book_view (run_ticks ts)).
  { apply (edit_absent (R := refmap.repr) _ M); [done..|]. by apply (rests_none (R := refmap.repr) (run_ticks ts)). }
  inversion H as [B' Ht' Hn Hroom HB|B' Ht' Hn HB|B' Ht'|B' Ht' HB|B' s' d Ht'|B' Ht'|B' s' d Ht'|B' Ht'];
    try (by rewrite Hty in Ht'; exfalso; set_unfold; vm_compute in Ht'; naive_solver).
  - rewrite HB. intros s' d' Hv. unfold on_all, on_side. case_decide as E; [|by apply Hid].
    destruct E as [-> ->]. apply spec_delete_add; [|intros Hin; by destruct (Hnew _ _ (conj Hv Hin))].
    apply view_no_empty; [by apply (bc_fine _ _ Hc)|by apply Hne].
  - by rewrite HB.
Qed.

Lemma lob_add_delete_roundtrip_witness :
  let t := add_tick false 3 1000150 100 77 in
  rests (book_view (run_ticks (sample_ticks ++ [t]))) 3 1 77 /\
  book_view (run_ticks (sample_ticks ++ [t; delete_tick 3 77])) ≡ book_view (run_ticks sample_ticks).
Proof.
  split; [split; [split; [done|by right]|by vm_compute; left]|].
  apply (lob_add_delete_roundtrip sample_ticks (add_tick false 3 1000150 100 77) 3 sample_typed);
    [by apply tick_typed_b_sound|done|done|done|].
  intros s d. destruct (run_ticks_ok sample_ticks sample_typed) as [[M H] _].
  apply (rests_none (R := refmap.repr) _ M); [done|]. rewrite <- (index_lookup _ _ _ (bc_map _ _ H)). by vm_compute.
Defined.

(** a message that fails the validity guards is counted as rejected and
    changes nothing else than the symbol's timestamp. *)
Theorem lob_ill_formed_rejected (t : TickMsg) (e : LOBEngine) (Hwf : well_formed t = false) :
  process_unlocked t e =
  reject (if (t_symbol_idx t <? kSymbols) && (0 <? t_timestamp t) then touch_timestamp (t_symbol_idx t) (t_timestamp t) e else e).
Proof.
  unfold process_unlocked, well_formed in *. rewrite (Z.ltb_antisym kSymbols) in *. destruct (kSymbols <=? t_symbol_idx t); [done|].
  cbn [negb andb] in *. cbv zeta in *.
  destruct (_ || _); [|destruct ((t_msg_type t =? itch.kOrderExecuted) || _); [|destruct (t_msg_type t =? itch.kOrderCancel);
    [|destruct (t_msg_type t =? itch.kOrderDelete); [|destruct (t_msg_type t =? itch.kOrderReplace);
    [|destruct (t_msg_type t =? itch.kTrade)]]]]]; cbn [orb andb] in *;
  destruct (t_order_ref t =? 0), (t_match_num t =? 0), (t_order_ref t =? t_match_num t),
    (numeric.is_valid_quantity (t_qty t)), (numeric.is_valid_price (t_price t)); done.
Qed.

Lemma lob_ill_formed_rejected_witness :
  process_unlocked (add_tick true 3 0 100 5) lob_fresh = reject (touch_timestamp 3 1 lob_fresh).
Proof. exact (lob_ill_formed_rejected (add_tick true 3 0 100 5) lob_fresh eq_refl). Defined.

(** Sixteen orders at one price, and one at another. *)
Definition full_level_ticks : list TickMsg :=
  ((fun i => add_tick true 7 500 10 (100 + i)) <$> zrange 0 16) ++ [add_tick true 7 600 10 300].

(** A replacement whose target level is full loses the original order: from
    this reachable state a well-formed replace message removes the resting
    order, does not add the replacement, and counts one rejection. *)
Theorem lob_replace_full_level_loses_order :
  let e := run_ticks full_level_ticks in
  let t := replace_tick 7 500 20 300 301 in
  let e' := process_unlocked t e in
  well_formed t = true /\ (300 ∈ side_refs (book_view e 7 0))
  /\ (300 ∉ side_refs (book_view e' 7 0)) /\ (301 ∉ side_refs (book_view e' 7 0))
  /\ stat_rejected (e_stats e') = stat_rejected (e_stats e) + 1
  /\ refmap.lookup 300 (e_map e') = None /\ refmap.lookup 301 (e_map e') = None.
Proof.
  assert (Hb : forall (l : list Z) (x : Z), bool_decide (x ∈ l) = true -> x ∈ l) by (intros l x; apply bool_decide_eq_true_1).
  assert (Hb' : forall (l : list Z) (x : Z), bool_decide (x ∈ l) = false -> x ∉ l) by (intros l x; apply bool_decide_eq_false_1).
  split_and!; [by vm_compute|apply Hb; by vm_compute|apply Hb'; by vm_compute|apply Hb'; by vm_compute|by vm_compute|by vm_compute|by vm_compute].
Qed.
