(* ===== verification/SymbolTable.v ===== *)
(** * SymbolTable (luv_decode_itch.hpp): ticker to symbol index

    The open-addressing table that resolves the 8-byte stock field of a
    message.  An empty slot is one whose value is 0xFFFF; nothing is ever
    removed.  A ticker is the uint64 its eight bytes load as, [None] for a null
    pointer. *)
From Stdlib Require Import ZArith Lia ZifyBool.
From S2P Require Import Prelude Config Probe.

Record SymbolTable := mkSym {
  st_keys : gmap Z Z;     (* uint64_t _keys[kCapacity] *)
  st_values : gmap Z Z;   (* uint16_t _values[kCapacity] *)
  st_count : Z;           (* uint32_t _count *)
}.

Module symtab.

Definition kCapacity : Z := u32 (kSymbols * 2).
Definition kMask : Z := kCapacity - 1.
Definition kNotFound : Z := 0xFFFF.
Definition kFibMul : Z := 0x9E3779B97F4A7C15.
Definition kShift : Z := 64 - 10.

Definition hash (key : Z) : Z := u32 (Z.shiftr (u64 (key * kFibMul)) kShift).

(** [clear] writes key 0 and value kNotFound everywhere. *)
Definition clear (t : SymbolTable) : SymbolTable := mkSym ∅ ∅ 0.

Definition key_at (t : SymbolTable) (slot : Z) : Z := sget 0 (st_keys t) slot.
Definition value_at (t : SymbolTable) (slot : Z) : Z := sget kNotFound (st_values t) slot.

(** The while loop of [insert]; [None] would be a loop that has visited every
    slot without finding a free one. *)
Fixpoint insert_loop (t : SymbolTable) (key idx : Z) (fuel : nat) (slot : Z) : option (bool * SymbolTable) :=
  match fuel with
  | O => None
  | S fuel =>
      if negb (value_at t slot =? kNotFound) then
        if key_at t slot =? key then Some (true, mkSym (st_keys t) (<[slot := idx]> (st_values t)) (st_count t))
        else insert_loop t key idx fuel (Z.land (slot + 1) kMask)
      else
        Some (true, mkSym (<[slot := key]> (st_keys t)) (<[slot := idx]> (st_values t)) (u32 (st_count t + 1)))
  end.

Definition insert (ticker : option Z) (idx : Z) (t : SymbolTable) : option (bool * SymbolTable) :=
  match ticker with
  | None => Some (false, t)
  | Some key =>
      if (kSymbols <=? idx) || (kCapacity / 2 <=? st_count t) then Some (false, t)
      else insert_loop t key idx (Z.to_nat kCapacity) (hash key)
  end.

Fixpoint lookup_loop (t : SymbolTable) (key : Z) (fuel : nat) (slot : Z) : Z :=
  match fuel with
  | O => kNotFound
  | S fuel =>
      let val := value_at t slot in
      if val =? kNotFound then kNotFound
      else if key_at t slot =? key then val
      else lookup_loop t key fuel (Z.land (slot + 1) kMask)
  end.

Definition lookup (key : Z) (t : SymbolTable) : Z := lookup_loop t key (Z.to_nat (kCapacity / 2)) (hash key).

Definition size (t : SymbolTable) : Z := st_count t.

(** ** Specification: a finite map

    Occupied slots are seen through the probing library with their key tagged
    as an odd number, 0 standing for an empty slot. *)
Definition odd (k : Z) : Z := 2 * k + 1.
Definition tag (t : SymbolTable) (slot : Z) : Z := if value_at t slot =? kNotFound then 0 else odd (key_at t slot).

Definition kWindow : Z := 512.

Record repr (t : SymbolTable) (M : gmap Z Z) : Prop := {
  repr_sound s : 0 <= s < 2 ^ 10 -> tag t s <> 0 ->
    M !! key_at t s = Some (value_at t s) /\
    reachable 10 (tag t) (hash (key_at t s)) (odd (key_at t s)) kWindow s;
  repr_complete k v : M !! k = Some v ->
    0 <= v < kSymbols /\ exists s, 0 <= s < 2 ^ 10 /\ tag t s = odd k;
  repr_count : st_count t = Z.of_nat (base.size M);
  repr_max : st_count t <= kWindow;
}.

Lemma sym_hash_range k : 0 <= hash k < 2 ^ 10.
Proof.
  unfold hash, kShift. pose proof (wrap_u_range 64 (k * kFibMul) ltac:(lia)) as [H1 H2].
  rewrite Z.shiftr_div_pow2 by lia.
  assert (0 <= u64 (k * kFibMul) / 2 ^ (64 - 10) < 2 ^ 10).
  { split; [apply Z.div_pos; lia|]. apply Z.div_lt_upper_bound; lia. }
  rewrite wrap_u_id; [done|]. unfold in_u. lia.
Qed.

Lemma tag_odd t s k : tag t s = odd k <-> key_at t s = k /\ value_at t s <> kNotFound.
Proof. unfold tag, odd. destruct (Z.eqb_spec (value_at t s) kNotFound); lia. Qed.

Lemma tag_nonzero t s : tag t s <> 0 <-> value_at t s <> kNotFound.
Proof. unfold tag, odd. destruct (Z.eqb_spec (value_at t s) kNotFound); lia. Qed.

Lemma lookup_loop_probe t k fuel slot :
  lookup_loop t k fuel slot =
  match probe_find (tag t) kMask (odd k) fuel slot with Some s => value_at t s | None => kNotFound end.
Proof.
  revert slot. induction fuel as [|fuel IH]; intros slot; cbn [lookup_loop]; [done|].
  rewrite IH, probe_find_S.
  pose proof (tag_odd t slot k). pose proof (tag_nonzero t slot).
  destruct (Z.eqb_spec (value_at t slot) kNotFound), (Z.eqb_spec (tag t slot) (odd k)), (Z.eqb_spec (tag t slot) 0),
    (Z.eqb_spec (key_at t slot) k); try done; tauto.
Qed.

Lemma sym_kMask_eq : kMask = 2 ^ 10 - 1.
Proof. done. Qed.

Lemma probe_lookup t k s :
  probe_find (tag t) kMask (odd k) (Z.to_nat (kCapacity / 2)) (hash k) = Some s <->
  tag t s = odd k /\ reachable 10 (tag t) (hash k) (odd k) kWindow s.
Proof. rewrite sym_kMask_eq. apply probe_find_Some; [lia|apply sym_hash_range|done]. Qed.

Lemma repr_slot t M k v : repr t M -> M !! k = Some v -> exists s, 0 <= s < 2 ^ 10 /\ tag t s = odd k /\
  reachable 10 (tag t) (hash k) (odd k) kWindow s /\ value_at t s = v.
Proof.
  intros HR HM. destruct (repr_complete _ _ HR k v HM) as (_ & s & Hs & Ht). pose proof Ht as [Hk Hv]%tag_odd.
  destruct (repr_sound _ _ HR s Hs) as [HM' Hr]; [by apply tag_nonzero|]. rewrite Hk in *. exists s. split_and!; try done; lia || congruence.
Qed.

(** What [lookup] returns for a finite map. *)
Definition resolve (M : gmap Z Z) (k : Z) : Z := default kNotFound (M !! k).

Lemma sym_lookup_repr t M k : repr t M -> lookup k t = resolve M k.
Proof.
  intros HR. unfold lookup, resolve. rewrite lookup_loop_probe. destruct (probe_find _ _ _ _ _) as [s|] eqn:E.
  - apply probe_lookup in E as [Ht Hr]. pose proof Ht as [Hk Hv]%tag_odd.
    destruct (repr_sound _ _ HR s) as [HM _]; [by eapply reachable_range in Hr|by apply tag_nonzero|]. rewrite Hk in HM. by rewrite HM.
  - destruct (M !! k) as [v|] eqn:HM; [|done]. destruct (repr_slot t M k v HR HM) as (s & Hs & Ht & Hr & _).
    assert (Hp : probe_find (tag t) kMask (odd k) (Z.to_nat (kCapacity / 2)) (hash k) = Some s) by by apply probe_lookup. congruence.
Qed.

(** An occupied prefix of a probe sequence is no longer than the map. *)
Lemma occupied_prefix t M h (n : nat) :
  repr t M -> Z.of_nat n <= 2 ^ 10 ->
  (forall d, 0 <= d < Z.of_nat n -> tag t (probe_slot 10 h d) <> 0) -> Z.of_nat n <= st_count t.
Proof.
  intros HR Hn Hocc. rewrite (repr_count _ _ HR). apply Nat2Z.inj_le.
  set (l := (fun d => key_at t (probe_slot 10 h d)) <$> zrange 0 n).
  assert (Hnd : NoDup l).
  { unfold l. apply NoDup_fmap_2_strong; [|apply (NoDup_fmap_2 _), NoDup_seq].
    intros d d' Hd%elem_of_zrange Hd'%elem_of_zrange E. apply (probe_slot_inj 10 ltac:(lia) h); [lia..|].
    pose proof (probe_slot_range 10 ltac:(lia) h d) as R1. pose proof (probe_slot_range 10 ltac:(lia) h d') as R2.
    destruct (repr_sound _ _ HR _ R1) as [_ Hr1]; [apply Hocc; lia|]. destruct (repr_sound _ _ HR _ R2) as [_ Hr2]; [apply Hocc; lia|].
    rewrite <- E in Hr2. eapply reachable_unique; [exact Hr1|exact Hr2|..]; apply tag_odd; (split; [done|]); apply tag_nonzero, Hocc; lia. }
  assert (Hlen : length l = n) by (unfold l, zrange; by rewrite !length_fmap, length_seq). rewrite <- Hlen.
  rewrite <- (size_list_to_set (C := gset Z)) by done. rewrite <- (size_dom M). apply subseteq_size. intros k Hk.
  apply elem_of_list_to_set, list_elem_of_fmap in Hk as (d & -> & Hd%elem_of_zrange).
  apply elem_of_dom. destruct (repr_sound _ _ HR (probe_slot 10 h d)) as [-> _]; [by apply probe_slot_range|apply Hocc; lia|done].
Qed.

(** Writing to an occupied slot of the same key, or to a free one. *)
Lemma update_repr t M k s v :
  repr t M -> 0 <= v < kSymbols -> 0 <= s < 2 ^ 10 -> tag t s = odd k ->
  repr (mkSym (st_keys t) (<[s := v]> (st_values t)) (st_count t)) (<[k := v]> M).
Proof.
  intros HR Hv Hs Ht. pose proof Ht as [Hk Hval]%tag_odd. set (t' := mkSym _ _ _).
  assert (Hva : forall u, value_at t' u = if decide (s = u) then v else value_at t u) by (intros; apply sget_insert).
  assert (Hka : forall u, key_at t' u = key_at t u) by done.
  assert (Hne : v <> kNotFound) by (unfold kSymbols, kNotFound in *; lia).
  assert (Htag : forall u, tag t' u = tag t u).
  { intros u. unfold tag. rewrite Hva, Hka. case_decide as E; [subst u|done].
    by destruct (Z.eqb_spec v kNotFound), (Z.eqb_spec (value_at t s) kNotFound). }
  destruct (repr_sound _ _ HR s Hs) as [HM Hr]; [by apply tag_nonzero|]. rewrite Hk in *.
  split.
  - intros u Hu Hnz. rewrite Htag in Hnz. destruct (repr_sound _ _ HR u Hu Hnz) as [HMu Hru]. rewrite Hka, Hva. split.
    + case_decide as E; [subst u; by rewrite Hk, lookup_insert_eq|]. rewrite lookup_insert_ne; [done|]. intros Ek. apply E.
      rewrite <- Ek in Hru. eapply reachable_unique; [exact Hr|exact Hru|done|]. apply tag_odd. split; [done|]. by apply tag_nonzero.
    + destruct Hru as (d & Hd & Eu & Hc). exists d. split; [done|]. split; [exact Eu|]. intros d' Hd'. rewrite Htag. by apply Hc.
  - intros k' v'. rewrite lookup_insert. case_decide as E; intros HM'.
    + injection HM' as <-. split; [done|]. exists s. rewrite Htag. by subst.
    + destruct (repr_complete _ _ HR k' v' HM') as (? & u & ? & ?). split; [done|]. exists u. by rewrite Htag.
  - simpl. rewrite map_size_insert_Some by by eexists. apply HR.
  - apply HR.
Qed.

Lemma sym_put_repr t M k s v d :
  repr t M -> 0 <= v < kSymbols -> M !! k = None -> tag t s = 0 -> 0 <= d < kWindow -> s = probe_slot 10 (hash k) d ->
  clear_to 10 (tag t) (hash k) (odd k) d -> st_count t < kWindow ->
  repr (mkSym (<[s := k]> (st_keys t)) (<[s := v]> (st_values t)) (u32 (st_count t + 1))) (<[k := v]> M).
Proof.
  intros HR Hv HM Hfree Hd -> Hc Hcnt. set (s := probe_slot 10 (hash k) d) in *. set (t' := mkSym _ _ _).
  assert (Hva : forall u, value_at t' u = if decide (s = u) then v else value_at t u) by (intros; apply sget_insert).
  assert (Hka : forall u, key_at t' u = if decide (s = u) then k else key_at t u) by (intros; apply sget_insert).
  assert (Hne : v <> kNotFound) by (unfold kSymbols, kNotFound in *; lia).
  assert (Htag : forall u, tag t' u = if decide (s = u) then odd k else tag t u).
  { intros u. unfold tag. rewrite Hva, Hka. case_decide; [|done]. by destruct (Z.eqb_spec v kNotFound). }
  assert (Hodd : odd k <> 0) by (unfold odd; lia).
  assert (Hnew : forall u, 0 <= u < 2 ^ 10 -> tag t u <> 0 -> key_at t u <> k).
  { intros u Hu Hnz E. destruct (repr_sound _ _ HR u Hu Hnz) as [HMu _]. rewrite E in HMu. congruence. }
  pose proof (repr_count _ _ HR). unfold kWindow in *.
  split.
  - intros u Hu. rewrite Htag, Hka, Hva. case_decide as E; intros Hnz.
    + subst u. rewrite lookup_insert_eq. split; [done|]. exists d. split; [unfold kWindow; lia|]. split; [done|].
      intros d' Hd'. rewrite Htag. case_decide as E; [|by apply Hc].
      apply (probe_slot_inj 10 ltac:(lia)) in E; lia.
    + destruct (repr_sound _ _ HR u Hu Hnz) as [HMu Hru]. pose proof (Hnew u Hu Hnz).
      rewrite lookup_insert_ne by congruence. split; [done|]. eapply reachable_write; [exact Htag|done| |exact Hru].
      unfold odd. lia.
  - intros k' v'. rewrite lookup_insert. case_decide as E; intros HM'.
    + injection HM' as <-. split; [done|]. exists s. subst k'. split; [apply probe_slot_range; lia|]. by rewrite Htag, decide_True.
    + destruct (repr_complete _ _ HR k' v' HM') as (? & u & ? & Hu). split; [done|]. exists u. split; [done|].
      rewrite Htag. case_decide; [|done]. subst u. rewrite Hfree in Hu. unfold odd in Hu. lia.
  - simpl. rewrite map_size_insert_None by done. rewrite wrap_u_id by (unfold in_u; lia). lia.
  - simpl. rewrite wrap_u_id by (unfold in_u; lia). unfold kWindow. lia.
Qed.

(** The loop of [insert] ends: after at most [_count] occupied slots it finds
    the key or a free slot. *)
Lemma insert_loop_ok t M k v fuel d :
  repr t M -> 0 <= v < kSymbols -> st_count t < kWindow ->
  0 <= d <= st_count t -> d + Z.of_nat fuel = 2 ^ 10 -> clear_to 10 (tag t) (hash k) (odd k) d ->
  exists t', insert_loop t k v fuel (probe_slot 10 (hash k) d) = Some (true, t') /\ repr t' (<[k := v]> M).
Proof.
  intros HR Hv Hcnt. unfold kWindow in *. revert d. induction fuel as [|fuel IH]; intros d Hd Hf Hc; [lia|].
  cbn [insert_loop]. rewrite sym_kMask_eq, probe_slot_next by lia. set (s := probe_slot 10 (hash k) d).
  pose proof (probe_slot_range 10 ltac:(lia) (hash k) d) as Hs. fold s in Hs.
  pose proof (tag_nonzero t s) as Hnz. pose proof (tag_odd t s k) as Ho.
  destruct (Z.eqb_spec (value_at t s) kNotFound) as [Hval|Hval]; cbn [negb].
  - eexists. split; [done|].
    assert (HM : M !! k = None).
    { destruct (M !! k) as [v'|] eqn:HM; [|done]. exfalso. destruct (repr_slot t M k v' HR HM) as (u & Hu & Htu & (d' & Hd' & -> & Hc') & _).
      destruct (Z.lt_total d' d) as [?|[->|?]].
      - destruct (Hc d'); [lia|done].
      - apply tag_odd in Htu as [_ ?]. done.
      - destruct (Hc' d); [lia|]. fold s in H0. tauto. }
    apply (sym_put_repr t M k s v d); [done|done|done| |unfold kWindow; lia|done|done|unfold kWindow; lia]. destruct (decide (tag t s = 0)); [done|tauto].
  - destruct (Z.eqb_spec (key_at t s) k) as [Hk|Hk]; [eexists; split; [done|]; apply update_repr; tauto|].
    apply IH; [|lia|apply clear_to_succ; [lia|done|tauto|fold s; tauto]].
    assert (Hocc : Z.of_nat (Z.to_nat (d + 1)) <= st_count t); [|lia].
    apply (occupied_prefix t M (hash k)); [done|lia|]. intros d' Hd'.
    destruct (Z.eq_dec d' d) as [->|]; [fold s; tauto|]. by apply (Hc d' ltac:(lia)).
Qed.

(** [insert] in full. *)
Lemma sym_insert_repr t M ticker idx :
  repr t M -> 0 <= idx ->
  match ticker with
  | Some k =>
      if (idx <? kSymbols) && (st_count t <? kWindow)
      then exists t', insert ticker idx t = Some (true, t') /\ repr t' (<[k := idx]> M)
      else insert ticker idx t = Some (false, t)
  | None => insert ticker idx t = Some (false, t)
  end.
Proof.
  intros HR Hi. destruct ticker as [k|]; [|done]. unfold insert. change (kCapacity / 2) with kWindow.
  destruct (Z.ltb_spec idx kSymbols), (Z.leb_spec kSymbols idx); try lia; cbn [andb orb]; [|done].
  destruct (Z.ltb_spec (st_count t) kWindow), (Z.leb_spec kWindow (st_count t)); try lia; [|done].
  pose proof (repr_count _ _ HR). pose proof (insert_loop_ok t M k idx (Z.to_nat kCapacity) 0) as Hl.
  rewrite probe_slot_0 in Hl by (lia || apply sym_hash_range).
  apply Hl; [done|lia|done|lia|done|]. intros ? ?. lia.
Qed.

Lemma sym_clear_repr t : repr (clear t) ∅.
Proof.
  split; [|by intros ??; rewrite lookup_empty|by rewrite map_size_empty|done].
  intros s _ Hnz. destruct Hnz. unfold tag, value_at, sget. simpl. by rewrite lookup_empty.
Qed.

End symtab.

(** ** Histories of calls *)
Inductive sym_op :=
  | SymInsert (ticker : option Z) (idx : Z)
  | SymClear.

(** The table beside the finite map of the accepted insertions. *)
Definition step_sym (st : option (SymbolTable * gmap Z Z)) (op : sym_op) : option (SymbolTable * gmap Z Z) :=
  '(t, M) ← st;
  match op with
  | SymInsert ticker idx =>
      '(ok, t') ← symtab.insert ticker (u16 idx) t;
      Some (t', match ticker with Some k => if (ok : bool) then <[k := u16 idx]> M else M | None => M end)
  | SymClear => Some (symtab.clear t, ∅)
  end.

Definition run_sym (ops : list sym_op) : option (SymbolTable * gmap Z Z) :=
  foldl step_sym (Some (symtab.clear (mkSym ∅ ∅ 0), ∅)) ops.

Lemma run_sym_repr ops : exists t M, run_sym ops = Some (t, M) /\ symtab.repr t M.
Proof.
  unfold run_sym. assert (H : exists t M, Some (symtab.clear (mkSym ∅ ∅ 0), ∅ : gmap Z Z) = Some (t, M) /\ symtab.repr t M)
    by (eexists _, _; split; [done|apply symtab.sym_clear_repr]).
  revert H. generalize (Some (symtab.clear (mkSym ∅ ∅ 0), ∅ : gmap Z Z)). induction ops as [|op ops IH]; intros st H; [done|].
  cbn [foldl]. apply IH. destruct H as (t & M & -> & HR). destruct op as [ticker idx|]; cbn [step_sym mbind option_bind].
  - pose proof (wrap_u_range 16 idx ltac:(lia)) as [Hi _].
    pose proof (symtab.sym_insert_repr t M ticker (u16 idx) HR Hi) as Hins. destruct ticker as [k|].
    + case_if_in Hins; [destruct Hins as (t' & -> & HR')|rewrite Hins]; by eexists _, _.
    + rewrite Hins. by eexists _, _.
  - eexists _, _. split; [done|]. apply symtab.sym_clear_repr.
Qed.

(** the symbol table refines a finite map: any history of insertions and
    clears ends (no probe loop runs forever), and afterwards [lookup] returns
    for every key the index last accepted for it, 0xFFFF when there is none, in
    spite of the lookup's bound of 512 probes; [size] is the number of tickers. *)
Theorem symtab_refines_finite_map (ops : list sym_op) :
  exists t M, run_sym ops = Some (t, M) /\
    (forall key, symtab.lookup key t = default symtab.kNotFound (M !! key)) /\
    symtab.size t = Z.of_nat (size M) /\ map_Forall (fun _ idx => 0 <= idx < kSymbols) M.
Proof.
  destruct (run_sym_repr ops) as (t & M & E & HR). exists t, M. split_and!; [done| |apply HR|].
  - intros key. by apply symtab.sym_lookup_repr.
  - intros k v Hv. by apply (symtab.repr_complete _ _ HR k v).
Qed.
