(* ===== verification/Bytes.v ===== *)
(** * Byte buffers

    Buffers as lists of integers in [0, 256), bounds-checked reads in the option
    monad ([None] is a read outside the buffer), the host's multi-byte loads and
    the byte swap of the compiler. *)
From Stdlib Require Import ZArith Lia ZifyBool.
From Stdlib Require String Ascii.
From S2P Require Import Prelude.

Definition bytes_ok (l : list Z) : Prop := Forall (in_u 8) l.

Definition rd (raw : list Z) (off : Z) : option Z := if 0 <=? off then raw !! Z.to_nat off else None.

(** [memcpy] of [n] bytes out of the buffer. *)
Definition slice (raw : list Z) (off n : Z) : option (list Z) :=
  if (0 <=? off) && (off + n <=? Z.of_nat (length raw)) then Some (take (Z.to_nat n) (drop (Z.to_nat off) raw)) else None.

Definition be_value (bs : list Z) : Z := foldl (fun acc b => acc * 256 + b) 0 bs.
Definition le_value (bs : list Z) : Z := foldr (fun b acc => b + 256 * acc) 0 bs.

(** The [n] bytes of a value, least significant first. *)
Fixpoint le_split (n : nat) (v : Z) : list Z :=
  match n with
  | O => []
  | S n => v mod 256 :: le_split n (v / 256)
  end.

(** [__builtin_bswap{16,32,64}]. *)
Definition bswap (n : nat) (v : Z) : Z := be_value (le_split n v).

(** A load of [n] bytes into an integer on a host of the given endianness. *)
Definition load (host_be : bool) (raw : list Z) (off n : Z) : option Z :=
  bs ← slice raw off n; Some (if host_be then be_value bs else le_value bs).

(** Bytes written at an offset of a buffer. *)
Definition put (off : Z) (bs : list Z) (buf : list Z) : list Z := list_inserts (Z.to_nat off) bs buf.

(** The characters of a string literal. *)
Definition bytes_of_string (s : String.string) : list Z :=
  (fun a => Z.of_N (Ascii.N_of_ascii a)) <$> String.list_ascii_of_string s.

(** ** Lemmas *)

(** A decidable fact about every byte value, by inspection of the 256 cases. *)
Lemma all_bytes (P : Z -> bool) : forallb P (zrange 0 256) = true -> forall b, in_u 8 b -> P b = true.
Proof.
  rewrite forallb_forall. intros H b Hb. apply H. apply list_elem_of_In, elem_of_zrange. unfold in_u in Hb. lia.
Qed.

Lemma be_value_app l1 l2 : be_value (l1 ++ l2) = be_value l1 * 256 ^ Z.of_nat (length l2) + be_value l2.
Proof.
  unfold be_value. rewrite foldl_app. generalize (foldl (fun acc b => acc * 256 + b) 0 l1) as a. revert l1.
  induction l2 as [|x l2 IH] using rev_ind; intros l1 a; [simpl; lia|].
  rewrite !foldl_app, length_app. cbn [foldl length]. rewrite (IH l1 a).
  replace (Z.of_nat (length l2 + 1)) with (Z.of_nat (length l2) + 1) by lia. rewrite Z.pow_add_r by lia. lia.
Qed.

Lemma be_value_cons x l : be_value (x :: l) = x * 256 ^ Z.of_nat (length l) + be_value l.
Proof. change (x :: l) with ([x] ++ l). rewrite be_value_app. unfold be_value at 1. simpl. lia. Qed.

Lemma be_value_range l : bytes_ok l -> 0 <= be_value l < 256 ^ Z.of_nat (length l).
Proof.
  induction 1 as [|x l Hx Hl IH]; [unfold be_value; simpl; lia|]. rewrite be_value_cons. cbn [length].
  replace (Z.of_nat (S (length l))) with (Z.of_nat (length l) + 1) by lia. rewrite Z.pow_add_r by lia.
  unfold in_u in Hx. change (2 ^ 8) with 256 in Hx. nia.
Qed.

Lemma le_split_value l : bytes_ok l -> le_split (length l) (le_value l) = l.
Proof.
  induction 1 as [|x l Hx Hl IH]; [done|]. cbn [length le_split]. change (le_value (x :: l)) with (x + 256 * le_value l).
  unfold in_u in Hx. change (2 ^ 8) with 256 in Hx. f_equal.
  - rewrite Z.mul_comm, Z_mod_plus_full. by apply Z.mod_small.
  - rewrite Z.mul_comm, Z.div_add by lia. rewrite Z.div_small by done. apply IH.
Qed.

Lemma le_value_split n v : 0 <= v < 256 ^ Z.of_nat n -> le_value (le_split n v) = v.
Proof.
  revert v. induction n as [|n IH]; intros v Hv; [cbn in *; lia|]. cbn [le_split].
  change (le_value (v mod 256 :: le_split n (v / 256))) with (v mod 256 + 256 * le_value (le_split n (v / 256))).
  rewrite IH; [pose proof (Z.div_mod v 256); lia|]. rewrite Nat2Z.inj_succ, Z.pow_succ_r in Hv by lia.
  split; [apply Z.div_pos; lia|apply Z.div_lt_upper_bound; lia].
Qed.

Lemma le_split_length n v : length (le_split n v) = n.
Proof. revert v. induction n; intros; simpl; [done|by f_equal]. Qed.

Lemma le_split_bytes n v : bytes_ok (le_split n v).
Proof. revert v. induction n as [|n IH]; intros v; [constructor|]. constructor; [|apply IH]. apply Z.mod_pos_bound. lia. Qed.

(** Swapping the bytes of a little-endian load gives the big-endian value. *)
Lemma bswap_le l n : bytes_ok l -> length l = n -> bswap n (le_value l) = be_value l.
Proof. intros Hl <-. unfold bswap. by rewrite le_split_value. Qed.

Lemma slice_length raw off n l : 0 <= n -> slice raw off n = Some l -> length l = Z.to_nat n.
Proof.
  unfold slice. intros Hn. case_if; [|done]. intros [= <-]. rewrite length_take, length_drop. lia.
Qed.

Lemma slice_bytes raw off n l : bytes_ok raw -> slice raw off n = Some l -> bytes_ok l.
Proof. unfold slice. intros Hr. case_if; [|done]. intros [= <-]. by apply Forall_take, Forall_drop. Qed.

Lemma slice_is_Some raw off n : 0 <= off -> off + n <= Z.of_nat (length raw) -> is_Some (slice raw off n).
Proof. intros. unfold slice. case_if; [by eexists|lia]. Qed.

Lemma rd_is_Some raw off : 0 <= off < Z.of_nat (length raw) -> is_Some (rd raw off).
Proof. intros. unfold rd. case_if; [|lia]. apply lookup_lt_is_Some. lia. Qed.

Lemma rd_range raw off b : bytes_ok raw -> rd raw off = Some b -> in_u 8 b.
Proof. unfold rd. intros Hr. case_if; [|done]. intros Hb. by eapply Forall_lookup_1 in Hr. Qed.

(** A buffer that is the concatenation of its fields. *)
Lemma slice_app pre l post off n :
  off = Z.of_nat (length pre) -> n = Z.of_nat (length l) -> slice (pre ++ l ++ post) off n = Some l.
Proof.
  intros -> ->. unfold slice. rewrite !length_app. case_if; [|lia].
  rewrite !Nat2Z.id, drop_app_length, take_app_length. done.
Qed.

Lemma rd_app pre b post off : off = Z.of_nat (length pre) -> rd (pre ++ b :: post) off = Some b.
Proof. intros ->. unfold rd. case_if; [|lia]. rewrite Nat2Z.id. by apply list_lookup_middle. Qed.
