(* ===== verification/Text.v ===== *)
(** * Byte strings

    A [std::string_view] is the list of its bytes, a C string the list of the
    bytes before its NUL.  Searching, prefixes and C strings in a buffer, as
    the HTTP parser uses them. *)
From Stdlib Require Import ZArith Lia ZifyBool.
From S2P Require Import Prelude Bytes.

(** [starts_with]. *)
Fixpoint starts (p s : list Z) : bool :=
  match p, s with
  | [], _ => true
  | a :: p, b :: s => (a =? b) && starts p s
  | _ :: _, [] => false
  end.

(** [string_view::find] and [strstr]: the first occurrence. *)
Fixpoint find (p s : list Z) : option nat :=
  if starts p s then Some O
  else match s with
       | [] => None
       | _ :: s => S <$> find p s
       end.

Definition find_at (p s : list Z) (pos : nat) : option nat := Nat.add pos <$> find p (drop pos s).

(** [substr(pos, n)]. *)
Definition substr (pos n : nat) (s : list Z) : list Z := take n (drop pos s).

(** The C string at the start of a buffer; [None] when no NUL ends it. *)
Fixpoint cstr (buf : list Z) : option (list Z) :=
  match buf with
  | [] => None
  | c :: buf => if c =? 0 then Some [] else cons c <$> cstr buf
  end.

Definition CRLF : list Z := [13; 10].

(** ** Lemmas *)
Lemma starts_app p s : starts p (p ++ s) = true.
Proof. induction p; cbn; [done|]. by rewrite Z.eqb_refl. Qed.

Lemma starts_iff p s : starts p s = true <-> exists r, s = p ++ r.
Proof.
  revert s. induction p as [|a p IH]; intros s; cbn; [split; [by exists s|done]|].
  destruct s as [|b s]; [split; [done|by intros [r [=]]]|].
  rewrite andb_true_iff, Z.eqb_eq, IH. split.
  - intros [-> [r ->]]. by exists r.
  - intros [r [= -> ->]]. split; [done|by exists r].
Qed.

(** The first occurrence: here, and not before. *)
Lemma find_first_Some p s k : find p s = Some k <->
  (exists l r, s = l ++ p ++ r /\ length l = k) /\ (forall l r, s = l ++ p ++ r -> (k <= length l)%nat).
Proof.
  revert k. induction s as [|c s IH]; intros k; cbn [find]; destruct (starts p _) eqn:E.
  - rewrite starts_iff in E. destruct E as [r E]. split.
    + intros [= <-]. split; [by exists [], r|]. intros; lia.
    + intros [_ Hmin]. specialize (Hmin [] r E). cbn in Hmin. f_equal. lia.
  - split; [done|]. intros [(l & r & E' & _) _]. destruct l, p, r; discriminate || (cbn in *; congruence).
  - rewrite starts_iff in E. destruct E as [r E]. split.
    + intros [= <-]. split; [by exists [], r|]. intros; lia.
    + intros [_ Hmin]. specialize (Hmin [] r E). cbn in Hmin. f_equal. lia.
  - assert (Hne : forall r, c :: s <> p ++ r).
    { intros r Hr. assert (starts p (c :: s) = true) by (apply starts_iff; by exists r). congruence. }
    rewrite fmap_Some. split.
    + intros (k' & [(l & r & -> & Hl) Hmin]%IH & ->). split; [exists (c :: l), r; cbn; by rewrite Hl|].
      intros [|c' l'] r'; cbn; [intros E'; by destruct (Hne r')|]. intros [= -> E']. specialize (Hmin _ _ E'). lia.
    + intros [(l & r & E' & Hl) Hmin]. destruct l as [|c' l]; [by destruct (Hne r)|]. injection E' as -> E'.
      exists (length l). split; [|by cbn in Hl]. apply IH. split; [by exists l, r|].
      intros l' r' Er. specialize (Hmin (c' :: l') r' ltac:(by rewrite Er)). cbn in *. lia.
Qed.

Lemma find_first_None p s : find p s = None <-> forall l r, s <> l ++ p ++ r.
Proof.
  induction s as [|c s IH]; cbn [find]; destruct (starts p _) eqn:E.
  - rewrite starts_iff in E. destruct E as [r E]. split; [done|]. intros H. by destruct (H [] r).
  - split; [|done]. intros _ l r E'. destruct l, p, r; discriminate || (cbn in *; congruence).
  - rewrite starts_iff in E. destruct E as [r E]. split; [done|]. intros H. by destruct (H [] r).
  - rewrite fmap_None, IH. split.
    + intros H [|c' l] r E'; [|injection E' as -> E'; by destruct (H l r)].
      assert (starts p (c :: s) = true) by (apply starts_iff; by exists r). congruence.
    + intros H l r E'. apply (H (c :: l) r). by rewrite E'.
Qed.

Lemma find_split p s k : find p s = Some k -> s = take k s ++ p ++ drop (k + length p) s.
Proof.
  intros [(l & r & -> & <-) _]%find_first_Some.
  by rewrite take_app_length, <- drop_drop, drop_app_length, drop_app_length.
Qed.

Lemma find_Some_length p s k : find p s = Some k -> (k + length p <= length s)%nat.
Proof. intros [(l & r & -> & <-) _]%find_first_Some. rewrite !length_app. lia. Qed.

(** A separator whose first byte does not occur before it. *)
Lemma find_after c p l r : c ∉ l -> find (c :: p) (l ++ (c :: p) ++ r) = Some (length l).
Proof.
  intros Hc. apply find_first_Some. split; [by exists l, r|]. intros l' r' E.
  destruct (decide (length l <= length l')%nat); [done|]. exfalso. apply Hc.
  apply list_elem_of_lookup. exists (length l').
  assert (E' : (l ++ (c :: p) ++ r) !! length l' = Some c) by (rewrite E; apply list_lookup_middle; done).
  rewrite lookup_app_l in E' by lia. done.
Qed.

Lemma find_char_None c s : find [c] s = None <-> c ∉ s.
Proof.
  rewrite find_first_None. split.
  - intros H (l & r & ->)%list_elem_of_split. by apply (H l r).
  - intros H l r ->. apply H. set_solver.
Qed.

Lemma find_char_Some c s k : find [c] s = Some k -> s = take k s ++ c :: drop (S k) s /\ c ∉ take k s.
Proof.
  intros Hf. pose proof (find_split _ _ _ Hf) as E. cbn [length app] in E. rewrite Nat.add_1_r in E. split; [done|].
  intros (l & r & El)%list_elem_of_split. apply find_first_Some in Hf as [(l0 & r0 & E0 & Hl0) Hmin].
  specialize (Hmin l (r ++ c :: drop (S k) s)). cbn in Hmin.
  assert (Ht : length (take k s) = k) by (rewrite length_take, E0, !length_app; cbn; lia).
  rewrite El, length_app in Ht. cbn in Ht.
  enough ((k <= length l)%nat) by lia. apply Hmin. rewrite E at 1. rewrite El, <- app_assoc. done.
Qed.

Lemma find_at_spec p s pos k : (pos <= length s)%nat -> find_at p s pos = Some k -> (pos <= k)%nat /\ drop pos s = take (k - pos) (drop pos s) ++ p ++ drop (k + length p) s.
Proof.
  intros Hp. unfold find_at. rewrite fmap_Some. intros (j & Hj & ->). split; [lia|].
  rewrite (find_split _ _ _ Hj) at 1. rewrite drop_drop. f_equal; [f_equal; lia|]. f_equal. f_equal. lia.
Qed.

Lemma cstr_app l r : 0 ∉ l -> cstr (l ++ 0 :: r) = Some l.
Proof.
  induction l as [|c l IH]; [done|]. intros Hn. cbn.
  destruct (Z.eqb_spec c 0) as [->|]; [destruct Hn; left|]. rewrite IH by set_solver. done.
Qed.

Lemma cstr_Some buf l : cstr buf = Some l -> 0 ∉ l /\ exists r, buf = l ++ 0 :: r.
Proof.
  revert l. induction buf as [|c buf IH]; intros l; cbn; [done|]. destruct (Z.eqb_spec c 0) as [->|Hc].
  - intros [= <-]. split; [set_solver|by exists buf].
  - rewrite fmap_Some. intros (l' & (Hl & r & ->)%IH & ->). split; [set_solver|by exists r].
Qed.

Lemma cstr_is_Some buf : is_Some (cstr buf) <-> 0 ∈ buf.
Proof.
  induction buf as [|c buf IH]; cbn; [split; [by intros [? [=]]|set_solver]|]. destruct (Z.eqb_spec c 0) as [->|Hc].
  - split; [left|eauto].
  - rewrite fmap_is_Some, IH. set_solver.
Qed.
