(* ===== verification/Decode.v ===== *)
(** * ITCH decoder (luv_decode_itch.hpp)

    [decode_itch] on a raw message.  Reads are bounds-checked: the result
    [None] stands for a read outside the message, [Some (b, out)] for the
    returned bool and the output tick, which the code overwrites before all of
    its guards have passed.  [host_be] is the endianness of the host. *)
From Stdlib Require Import ZArith Lia ZifyBool.
From S2P Require Import Prelude Config Numeric Bytes SymbolTable BookSpec.

Module detail.

Definition be16 (host_be : bool) (raw : list Z) (off : Z) : option Z :=
  v ← load host_be raw off 2; Some (if host_be then v else bswap 2 v).
Definition be32 (host_be : bool) (raw : list Z) (off : Z) : option Z :=
  v ← load host_be raw off 4; Some (if host_be then v else bswap 4 v).
Definition be64 (host_be : bool) (raw : list Z) (off : Z) : option Z :=
  v ← load host_be raw off 8; Some (if host_be then v else bswap 8 v).

Definition be_timestamp48 (host_be : bool) (raw : list Z) (off : Z) : option Z :=
  hi ← be16 host_be raw off;
  lo ← be32 host_be raw (off + 2);
  Some (Z.lor (u64 (Z.shiftl hi 32)) lo).

Definition load_ticker_key (host_be : bool) (raw : list Z) (off : Z) : option Z := load host_be raw off 8.

End detail.

(** ** Message lengths *)
Definition kLenAddOrder : Z := 36.
Definition kLenAddOrderMPID : Z := 40.
Definition kLenOrderExecuted : Z := 31.
Definition kLenOrderExecPrice : Z := 36.
Definition kLenOrderCancel : Z := 23.
Definition kLenOrderDelete : Z := 19.
Definition kLenOrderReplace : Z := 35.
Definition kLenTrade : Z := 44.
Definition kLenCrossTrade : Z := 40.
Definition kLenStockTradingAction : Z := 25.
Definition kLenRegSHO : Z := 20.

Definition minimum_length (type : Z) : Z :=
  if type =? itch.kAddOrder then kLenAddOrder
  else if type =? itch.kAddOrderMPID then kLenAddOrderMPID
  else if type =? itch.kOrderExecuted then kLenOrderExecuted
  else if type =? itch.kOrderExecPrice then kLenOrderExecPrice
  else if type =? itch.kOrderCancel then kLenOrderCancel
  else if type =? itch.kOrderDelete then kLenOrderDelete
  else if type =? itch.kOrderReplace then kLenOrderReplace
  else if type =? itch.kTrade then kLenTrade
  else if type =? itch.kCrossTrade then kLenCrossTrade
  else if type =? itch.kStockTradingAction then kLenStockTradingAction
  else if type =? itch.kRegSHO then kLenRegSHO
  else 0.

(** Characters of the wire format. *)
Definition ch_B : Z := 0x42.
Definition ch_S : Z := 0x53.
Definition ch_Y : Z := 0x59.
Definition ch_N : Z := 0x4E.
Definition ch_H : Z := 0x48.
Definition ch_P : Z := 0x50.
Definition ch_1 : Z := 0x31.
Definition ch_2 : Z := 0x32.

(** [out = TickMsg{}] with type and timestamp, and the later field writes. *)
Definition header_tick (ty ts : Z) : TickMsg := mkTick ty 0 0 ts 0 0 0 0.
Definition with_symbol (sym : Z) (t : TickMsg) : TickMsg :=
  mkTick (t_msg_type t) (t_flags t) sym (t_timestamp t) (t_price t) (t_qty t) (t_order_ref t) (t_match_num t).

Section decode.
Context (host_be : bool) (raw : list Z) (len : Z) (symbols : SymbolTable).

Local Abbreviation be16 := (detail.be16 host_be raw).
Local Abbreviation be32 := (detail.be32 host_be raw).
Local Abbreviation be64 := (detail.be64 host_be raw).

Definition lookup_at (off : Z) : option Z :=
  key ← detail.load_ticker_key host_be raw off; Some (symtab.lookup key symbols).

Definition decode_add (out : TickMsg) : option (bool * TickMsg) :=
  let min_len := if t_msg_type out =? itch.kAddOrder then kLenAddOrder else kLenAddOrderMPID in
  if len <? min_len then Some (false, out)
  else
    sym_idx ← lookup_at 24;
    if sym_idx =? symtab.kNotFound then Some (false, out)
    else
      ref ← be64 11; qty ← be32 20; price ← be32 32; side ← rd raw 19;
      if (ref =? 0) || negb (numeric.is_valid_quantity qty) || negb (numeric.is_valid_price price) ||
         (negb (side =? ch_B) && negb (side =? ch_S))
      then Some (false, out)
      else Some (true, mkTick (t_msg_type out) (if side =? ch_B then tick_flags.kBuy else 0) sym_idx (t_timestamp out)
                         price qty ref 0).

Definition decode_executed (out : TickMsg) : option (bool * TickMsg) :=
  if len <? kLenOrderExecuted then Some (false, out)
  else
    sym ← be16 1;
    let out := with_symbol sym out in
    ref ← be64 11; qty ← be32 19;
    if (kSymbols <=? sym) || (ref =? 0) || negb (numeric.is_valid_quantity qty) then Some (false, out)
    else
      match_num ← be64 23;
      Some (true, mkTick (t_msg_type out) tick_flags.kPrintable sym (t_timestamp out) 0 qty ref match_num).

Definition decode_executed_price (out : TickMsg) : option (bool * TickMsg) :=
  if len <? kLenOrderExecPrice then Some (false, out)
  else
    sym ← be16 1;
    let out := with_symbol sym out in
    ref ← be64 11; qty ← be32 19; price ← be32 32; printable ← rd raw 31;
    if (kSymbols <=? sym) || (ref =? 0) || negb (numeric.is_valid_quantity qty) || negb (numeric.is_valid_price price) ||
       (negb (printable =? ch_Y) && negb (printable =? ch_N))
    then Some (false, out)
    else
      match_num ← be64 23;
      Some (true, mkTick (t_msg_type out) (if printable =? ch_Y then tick_flags.kPrintable else 0) sym (t_timestamp out)
                    price qty ref match_num).

Definition decode_cancel (out : TickMsg) : option (bool * TickMsg) :=
  if len <? kLenOrderCancel then Some (false, out)
  else
    sym ← be16 1;
    let out := with_symbol sym out in
    ref ← be64 11; qty ← be32 19;
    if (kSymbols <=? sym) || (ref =? 0) || negb (numeric.is_valid_quantity qty) then Some (false, out)
    else Some (true, mkTick (t_msg_type out) 0 sym (t_timestamp out) 0 qty ref 0).

Definition decode_delete (out : TickMsg) : option (bool * TickMsg) :=
  if len <? kLenOrderDelete then Some (false, out)
  else
    sym ← be16 1;
    let out := with_symbol sym out in
    ref ← be64 11;
    if (kSymbols <=? sym) || (ref =? 0) then Some (false, out)
    else Some (true, mkTick (t_msg_type out) 0 sym (t_timestamp out) 0 0 ref 0).

Definition decode_replace (out : TickMsg) : option (bool * TickMsg) :=
  if len <? kLenOrderReplace then Some (false, out)
  else
    sym ← be16 1;
    let out := with_symbol sym out in
    ref ← be64 11; new_ref ← be64 19; qty ← be32 27; price ← be32 31;
    if (kSymbols <=? sym) || (ref =? 0) || (new_ref =? 0) || (ref =? new_ref) ||
       negb (numeric.is_valid_quantity qty) || negb (numeric.is_valid_price price)
    then Some (false, out)
    else Some (true, mkTick (t_msg_type out) 0 sym (t_timestamp out) price qty ref new_ref).

Definition decode_trade (out : TickMsg) : option (bool * TickMsg) :=
  if len <? kLenTrade then Some (false, out)
  else
    sym_idx ← lookup_at 24;
    qty ← be32 20; price ← be32 32; side ← rd raw 19;
    if (sym_idx =? symtab.kNotFound) || negb (numeric.is_valid_quantity qty) || negb (numeric.is_valid_price price) ||
       (negb (side =? ch_B) && negb (side =? ch_S))
    then Some (false, out)
    else
      ref ← be64 11; match_num ← be64 36;
      Some (true, mkTick (t_msg_type out) (Z.lor tick_flags.kPrintable (if side =? ch_B then tick_flags.kBuy else 0)) sym_idx
                    (t_timestamp out) price qty ref match_num).

Definition decode_cross (out : TickMsg) : option (bool * TickMsg) :=
  if len <? kLenCrossTrade then Some (false, out)
  else
    sym_idx ← lookup_at 19;
    shares ← be64 11; price ← be32 27;
    if (sym_idx =? symtab.kNotFound) || (numeric.kMaxQuantity <? shares) || negb (numeric.is_valid_price price)
    then Some (false, out)
    else
      match_num ← be64 31;
      Some (true, mkTick (t_msg_type out) (Z.lor tick_flags.kPrintable tick_flags.kCross) sym_idx (t_timestamp out)
                    price shares 0 match_num).

Definition decode_trading_action (out : TickMsg) : option (bool * TickMsg) :=
  if len <? kLenStockTradingAction then Some (false, out)
  else
    sym_idx ← lookup_at 11;
    if sym_idx =? symtab.kNotFound then Some (false, out)
    else
      trading_state ← rd raw 19;
      Some (true, mkTick (t_msg_type out)
                    (if (trading_state =? ch_H) || (trading_state =? ch_P) then tick_flags.kHalted else 0) sym_idx
                    (t_timestamp out) 0 0 0 0).

Definition decode_reg_sho (out : TickMsg) : option (bool * TickMsg) :=
  if len <? kLenRegSHO then Some (false, out)
  else
    sym_idx ← lookup_at 11;
    if sym_idx =? symtab.kNotFound then Some (false, out)
    else
      action ← rd raw 19;
      Some (true, mkTick (t_msg_type out)
                    (if (action =? ch_1) || (action =? ch_2) then tick_flags.kShortSaleRestricted else 0) sym_idx
                    (t_timestamp out) 0 0 0 0).

(** The switch over the message type. *)
Definition decode_body (out : TickMsg) : option (bool * TickMsg) :=
  let ty := t_msg_type out in
  if (ty =? itch.kAddOrder) || (ty =? itch.kAddOrderMPID) then decode_add out
  else if ty =? itch.kOrderExecuted then decode_executed out
  else if ty =? itch.kOrderExecPrice then decode_executed_price out
  else if ty =? itch.kOrderCancel then decode_cancel out
  else if ty =? itch.kOrderDelete then decode_delete out
  else if ty =? itch.kOrderReplace then decode_replace out
  else if ty =? itch.kTrade then decode_trade out
  else if ty =? itch.kCrossTrade then decode_cross out
  else if ty =? itch.kStockTradingAction then decode_trading_action out
  else if ty =? itch.kRegSHO then decode_reg_sho out
  else Some (false, out).

End decode.

(** [raw] is [None] for a null pointer. *)
Definition decode_itch (host_be : bool) (raw : option (list Z)) (len : Z) (symbols : SymbolTable) (out : TickMsg)
    : option (bool * TickMsg) :=
  match raw with
  | None => Some (false, out)
  | Some raw =>
      if len <? 11 then Some (false, out)
      else
        msg_type ← rd raw 0;
        let min_len := minimum_length msg_type in
        if negb (min_len =? 0) && (len <? min_len) then Some (false, out)
        else
          timestamp ← detail.be_timestamp48 host_be raw 5;
          if 86400000000000 <=? timestamp then Some (false, out)
          else decode_body host_be raw len symbols (header_tick msg_type timestamp)
  end.

(** ** Reads *)
Lemma load_swap (host_be : bool) (raw : list Z) (off n : Z) :
  bytes_ok raw -> 0 <= n ->
  (v ← load host_be raw off n; Some (if host_be then v else bswap (Z.to_nat n) v)) = be_value <$> slice raw off n.
Proof.
  intros Hr Hn. unfold load. destruct (slice raw off n) as [l|] eqn:E; [|done]. simpl. destruct host_be; [done|].
  rewrite bswap_le; [done|by eapply slice_bytes|by eapply slice_length].
Qed.

Lemma be16_slice host_be raw off : bytes_ok raw -> detail.be16 host_be raw off = be_value <$> slice raw off 2.
Proof. intros. by apply (load_swap host_be raw off 2). Qed.
Lemma be32_slice host_be raw off : bytes_ok raw -> detail.be32 host_be raw off = be_value <$> slice raw off 4.
Proof. intros. by apply (load_swap host_be raw off 4). Qed.
Lemma be64_slice host_be raw off : bytes_ok raw -> detail.be64 host_be raw off = be_value <$> slice raw off 8.
Proof. intros. by apply (load_swap host_be raw off 8). Qed.

Lemma slice_be_range raw off n v :
  bytes_ok raw -> 0 <= n -> be_value <$> slice raw off n = Some v -> in_u (8 * n) v.
Proof.
  intros Hr Hn. destruct (slice raw off n) as [l|] eqn:E; [|done]. intros [= <-].
  pose proof (be_value_range l (slice_bytes _ _ _ _ Hr E)) as Hb. rewrite (slice_length _ _ _ _ Hn E), Z2Nat.id in Hb by done.
  unfold in_u. rewrite Z.pow_mul_r by lia. done.
Qed.

(** The two halves of the timestamp are its six bytes, most significant first. *)
Lemma be_timestamp48_slice host_be raw off :
  bytes_ok raw -> 0 <= off -> detail.be_timestamp48 host_be raw off = be_value <$> slice raw off 6.
Proof.
  intros Hr Ho. unfold detail.be_timestamp48. rewrite be16_slice, be32_slice by done.
  destruct (slice raw off 6) as [l|] eqn:E; cycle 1.
  - assert (E4 : slice raw (off + 2) 4 = None).
    { unfold slice in *. case_if_in E; [done|]. case_if; [lia|done]. }
    rewrite E4. destruct (slice raw off 2); done.
  - assert (Hl : l = take 2 l ++ drop 2 l) by by rewrite take_drop.
    assert (E2 : slice raw off 2 = Some (take 2 l)).
    { unfold slice in *. case_if_in E; [|done]. injection E as <-. case_if; [|lia]. rewrite take_take. done. }
    assert (E4 : slice raw (off + 2) 4 = Some (drop 2 l)).
    { unfold slice in *. case_if_in E; [|done]. injection E as <-. case_if; [|lia]. rewrite skipn_firstn_comm, drop_drop.
      repeat f_equal; lia. }
    pose proof (slice_be_range raw off 2) as H2. pose proof (slice_be_range raw (off + 2) 4) as H4.
    rewrite E2 in *. rewrite E4 in *. cbn [fmap option_fmap option_map mbind option_bind] in *.
    specialize (H2 (be_value (take 2 l)) Hr ltac:(lia) eq_refl). specialize (H4 (be_value (drop 2 l)) Hr ltac:(lia) eq_refl).
    unfold in_u in *. f_equal. rewrite Hl at 3. rewrite be_value_app. rewrite (slice_length raw (off + 2) 4 _ ltac:(lia) E4).
    rewrite wrap_u_id by (unfold in_u; rewrite Z.shiftl_mul_pow2 by lia; lia).
    by rewrite lor_shiftl_add by lia.
Qed.

(** Every read of a field inside the message succeeds, with a value of its width. *)
Lemma be16_ok host_be raw off :
  bytes_ok raw -> 0 <= off -> off + 2 <= Z.of_nat (length raw) -> exists v, detail.be16 host_be raw off = Some v /\ 0 <= v < 65536.
Proof.
  intros Hr Ho Hl. rewrite be16_slice by done. destruct (slice_is_Some raw off 2 Ho Hl) as [l E]. rewrite E.
  eexists. split; [done|]. apply (slice_be_range raw off 2); [done|lia|by rewrite E].
Qed.
Lemma be32_ok host_be raw off :
  bytes_ok raw -> 0 <= off -> off + 4 <= Z.of_nat (length raw) -> exists v, detail.be32 host_be raw off = Some v /\ 0 <= v < 4294967296.
Proof.
  intros Hr Ho Hl. rewrite be32_slice by done. destruct (slice_is_Some raw off 4 Ho Hl) as [l E]. rewrite E.
  eexists. split; [done|]. apply (slice_be_range raw off 4); [done|lia|by rewrite E].
Qed.
Lemma be64_ok host_be raw off :
  bytes_ok raw -> 0 <= off -> off + 8 <= Z.of_nat (length raw) -> exists v, detail.be64 host_be raw off = Some v /\ 0 <= v < 18446744073709551616.
Proof.
  intros Hr Ho Hl. rewrite be64_slice by done. destruct (slice_is_Some raw off 8 Ho Hl) as [l E]. rewrite E.
  eexists. split; [done|]. apply (slice_be_range raw off 8); [done|lia|by rewrite E].
Qed.
Lemma timestamp_ok host_be raw off :
  bytes_ok raw -> 0 <= off -> off + 6 <= Z.of_nat (length raw) -> exists v, detail.be_timestamp48 host_be raw off = Some v /\ 0 <= v < 281474976710656.
Proof.
  intros Hr Ho Hl. rewrite be_timestamp48_slice by done. destruct (slice_is_Some raw off 6 Ho Hl) as [l E]. rewrite E.
  eexists. split; [done|]. apply (slice_be_range raw off 6); [done|lia|by rewrite E].
Qed.
Lemma rd_ok raw off :
  bytes_ok raw -> 0 <= off < Z.of_nat (length raw) -> exists v, rd raw off = Some v /\ 0 <= v < 256.
Proof. intros Hr Ho. destruct (rd_is_Some raw off Ho) as [b E]. exists b. split; [done|by eapply rd_range]. Qed.

(** The symbol a lookup resolves to, for a table in order. *)
Definition symbols_ok (t : SymbolTable) : Prop := forall key, symtab.lookup key t = symtab.kNotFound \/ 0 <= symtab.lookup key t < kSymbols.

Lemma lookup_at_ok host_be raw symbols off :
  symbols_ok symbols -> 0 <= off -> off + 8 <= Z.of_nat (length raw) ->
  exists v, lookup_at host_be raw symbols off = Some v /\ (v = symtab.kNotFound \/ 0 <= v < kSymbols).
Proof.
  intros Hs Ho Hl. unfold lookup_at, detail.load_ticker_key, load. destruct (slice_is_Some raw off 8 Ho Hl) as [l ->].
  eexists. split; [done|]. apply Hs.
Qed.

(** Read every field of the goal in turn. *)
Ltac read_fields :=
  repeat match goal with
  | |- context [detail.be16 ?h ?r ?o] => destruct (be16_ok h r o) as (? & -> & ?); [done|lia|lia|]
  | |- context [detail.be32 ?h ?r ?o] => destruct (be32_ok h r o) as (? & -> & ?); [done|lia|lia|]
  | |- context [detail.be64 ?h ?r ?o] => destruct (be64_ok h r o) as (? & -> & ?); [done|lia|lia|]
  | |- context [rd ?r ?o] => destruct (rd_ok r o) as (? & -> & ?); [done|lia|]
  | |- context [lookup_at ?h ?r ?s ?o] => destruct (lookup_at_ok h r s o) as (? & -> & ?); [done|lia|lia|]
  end; cbn [mbind option_bind].

(** ** What a decoded message satisfies *)

(** The tables the engine builds. *)
Definition table_of (ops : list sym_op) : SymbolTable :=
  match run_sym ops with Some (t, _) => t | None => symtab.clear (mkSym ∅ ∅ 0) end.

Lemma table_of_repr ops : exists M, symtab.repr (table_of ops) M.
Proof. unfold table_of. destruct (run_sym_repr ops) as (t & M & -> & HR). by exists M. Qed.

Lemma table_of_ok ops : symbols_ok (table_of ops).
Proof.
  destruct (table_of_repr ops) as [M HR]. intros key. rewrite (symtab.sym_lookup_repr _ M) by done. unfold symtab.resolve.
  destruct (M !! key) as [v|] eqn:E; [right|by left]. by apply (symtab.repr_complete _ _ HR key).
Qed.

(** A tick the book engine takes: typed, and passing the guards of
    [process_unlocked] when it is a book message. *)
Definition book_types : list Z :=
  [itch.kAddOrder; itch.kAddOrderMPID; itch.kOrderExecuted; itch.kOrderExecPrice; itch.kOrderCancel;
   itch.kOrderDelete; itch.kOrderReplace; itch.kTrade].

Definition acceptable (t : TickMsg) : Prop := tick_typed t /\ (t_msg_type t ∈ book_types -> well_formed t = true).

(** The result of a body decoder: no read outside the message, and an
    acceptable tick of the type of the header. *)
Definition body_ok (out : TickMsg) (r : option (bool * TickMsg)) : Prop :=
  exists b t, r = Some (b, t) /\ (b = true -> acceptable t /\ t_msg_type t = t_msg_type out /\ t_timestamp t = t_timestamp out).

Lemma body_reject out t : body_ok out (Some (false, t)).
Proof. by exists false, t. Qed.

Lemma body_accept out t :
  acceptable t -> t_msg_type t = t_msg_type out -> t_timestamp t = t_timestamp out -> body_ok out (Some (true, t)).
Proof. by exists true, t. Qed.

Ltac use_validity :=
  unfold numeric.is_valid_quantity, numeric.is_valid_price, numeric.kMinQuantity, numeric.kMaxQuantity,
    numeric.kMinPrice, numeric.kMaxPrice, symtab.kNotFound, kSymbols in *.

Lemma tick_typed_intro ty fl sym ts price qty ref num :
  0 <= ty < 256 -> 0 <= fl < 256 -> 0 <= sym < 65536 -> 0 <= ts < 18446744073709551616 ->
  -9223372036854775808 <= price < 9223372036854775808 -> -9223372036854775808 <= qty < 9223372036854775808 ->
  0 <= ref < 18446744073709551616 -> 0 <= num < 18446744073709551616 ->
  tick_typed (mkTick ty fl sym ts price qty ref num).
Proof. by split. Qed.

(** Close a rejection, or the typing and guards of an accepted tick. *)
Ltac finish_body :=
  match goal with
  | |- body_ok _ (Some (false, _)) => apply body_reject
  | |- body_ok _ (Some (true, _)) =>
      apply body_accept; [|done|done]; split_guards; use_validity;
      split; [cbn [with_symbol header_tick t_msg_type t_timestamp]; apply tick_typed_intro; repeat case_if; first [lia|split; done]
             |intros _; subst; unfold well_formed; cbn; use_validity; lia]
  end.

Section body.
Context (host_be : bool) (raw : list Z) (symbols : SymbolTable) (ty ts : Z).
Hypothesis (Hr : bytes_ok raw) (Hsym : symbols_ok symbols) (Hty : 0 <= ty < 256) (Hts : 0 <= ts < 281474976710656).
Local Abbreviation len := (Z.of_nat (length raw)).
Local Abbreviation out := (header_tick ty ts).

Lemma decode_delete_ok : ty = itch.kOrderDelete -> body_ok out (decode_delete host_be raw len out).
Proof.
  intros E. unfold decode_delete, kLenOrderDelete. destruct (Z.ltb_spec len 19); [apply body_reject|].
  read_fields. case_if; finish_body.
Qed.

Lemma decode_cancel_ok : ty = itch.kOrderCancel -> body_ok out (decode_cancel host_be raw len out).
Proof.
  intros E. unfold decode_cancel, kLenOrderCancel. destruct (Z.ltb_spec len 23); [apply body_reject|].
  read_fields. case_if; finish_body.
Qed.

Lemma decode_executed_ok : ty = itch.kOrderExecuted -> body_ok out (decode_executed host_be raw len out).
Proof.
  intros E. unfold decode_executed, kLenOrderExecuted. destruct (Z.ltb_spec len 31); [apply body_reject|].
  read_fields. case_if; finish_body.
Qed.

Lemma decode_executed_price_ok : ty = itch.kOrderExecPrice -> body_ok out (decode_executed_price host_be raw len out).
Proof.
  intros E. unfold decode_executed_price, kLenOrderExecPrice. destruct (Z.ltb_spec len 36); [apply body_reject|].
  read_fields. case_if; finish_body.
Qed.

Lemma decode_replace_ok : ty = itch.kOrderReplace -> body_ok out (decode_replace host_be raw len out).
Proof.
  intros E. unfold decode_replace, kLenOrderReplace. destruct (Z.ltb_spec len 35); [apply body_reject|].
  read_fields. case_if; finish_body.
Qed.

Lemma decode_add_ok : ty = itch.kAddOrder \/ ty = itch.kAddOrderMPID -> body_ok out (decode_add host_be raw len symbols out).
Proof.
  intros E. unfold decode_add. set (min_len := if t_msg_type out =? itch.kAddOrder then kLenAddOrder else kLenAddOrderMPID).
  assert (36 <= min_len) by (unfold min_len; case_if; done). destruct (Z.ltb_spec len min_len); [apply body_reject|]. clearbody min_len.
  read_fields. case_if; [apply body_reject|]. case_if; [apply body_reject|]. destruct E as [-> | ->]; finish_body.
Qed.

Lemma decode_trade_ok : ty = itch.kTrade -> body_ok out (decode_trade host_be raw len symbols out).
Proof.
  intros E. unfold decode_trade, kLenTrade. destruct (Z.ltb_spec len 44); [apply body_reject|].
  read_fields. case_if; finish_body.
Qed.

(** The messages that carry no book change. *)
Lemma acceptable_other t : tick_typed t -> t_msg_type t ∉ book_types -> acceptable t.
Proof. by split. Qed.

Ltac finish_other E :=
  match goal with
  | |- body_ok _ (Some (false, _)) => apply body_reject
  | |- body_ok _ (Some (true, _)) =>
      apply body_accept; [|done|done]; split_guards; use_validity; apply acceptable_other;
      [cbn [with_symbol header_tick t_msg_type t_timestamp]; apply tick_typed_intro; repeat case_if; first [lia|split; done]
      |cbn; rewrite E; by apply (bool_decide_eq_false_1 (_ ∈ book_types))]
  end.

Lemma decode_cross_ok : ty = itch.kCrossTrade -> body_ok out (decode_cross host_be raw len symbols out).
Proof.
  intros E. unfold decode_cross, kLenCrossTrade. destruct (Z.ltb_spec len 40); [apply body_reject|].
  read_fields. case_if; finish_other E.
Qed.

Lemma decode_trading_action_ok : ty = itch.kStockTradingAction -> body_ok out (decode_trading_action host_be raw len symbols out).
Proof.
  intros E. unfold decode_trading_action, kLenStockTradingAction. destruct (Z.ltb_spec len 25); [apply body_reject|].
  read_fields. case_if; finish_other E.
Qed.

Lemma decode_reg_sho_ok : ty = itch.kRegSHO -> body_ok out (decode_reg_sho host_be raw len symbols out).
Proof.
  intros E. unfold decode_reg_sho, kLenRegSHO. destruct (Z.ltb_spec len 20); [apply body_reject|].
  read_fields. case_if; finish_other E.
Qed.

Lemma decode_body_ok : body_ok out (decode_body host_be raw len symbols out).
Proof.
  unfold decode_body. cbn [header_tick t_msg_type].
  destruct (_ || _) eqn:E0; [apply decode_add_ok; lia|]. clear E0.
  destruct (Z.eqb_spec ty itch.kOrderExecuted); [by apply decode_executed_ok|].
  destruct (Z.eqb_spec ty itch.kOrderExecPrice); [by apply decode_executed_price_ok|].
  destruct (Z.eqb_spec ty itch.kOrderCancel); [by apply decode_cancel_ok|].
  destruct (Z.eqb_spec ty itch.kOrderDelete); [by apply decode_delete_ok|].
  destruct (Z.eqb_spec ty itch.kOrderReplace); [by apply decode_replace_ok|].
  destruct (Z.eqb_spec ty itch.kTrade); [by apply decode_trade_ok|].
  destruct (Z.eqb_spec ty itch.kCrossTrade); [by apply decode_cross_ok|].
  destruct (Z.eqb_spec ty itch.kStockTradingAction); [by apply decode_trading_action_ok|].
  destruct (Z.eqb_spec ty itch.kRegSHO); [by apply decode_reg_sho_ok|]. apply body_reject.
Qed.

End body.

Lemma decode_itch_ok host_be raw symbols out :
  bytes_ok raw -> symbols_ok symbols ->
  exists b t, decode_itch host_be (Some raw) (Z.of_nat (length raw)) symbols out = Some (b, t) /\
    (b = true -> acceptable t /\ t_timestamp t < 86400000000000 /\ rd raw 0 = Some (t_msg_type t)).
Proof.
  intros Hr Hs. unfold decode_itch. destruct (Z.ltb_spec (Z.of_nat (length raw)) 11); [by exists false, out|].
  destruct (rd_ok raw 0) as (ty & E & Hty); [done|lia|]. rewrite E. cbn [mbind option_bind].
  case_if; [by exists false, out|].
  destruct (timestamp_ok host_be raw 5) as (ts & -> & Hts); [done|lia|lia|]. cbn [mbind option_bind].
  destruct (Z.leb_spec 86400000000000 ts); [by exists false, out|].
  destruct (decode_body_ok host_be raw symbols ty ts Hr Hs Hty Hts) as (b & t & Hb & Ht). exists b, t. split; [done|].
  intros ->. destruct (Ht eq_refl) as (Ha & Hty' & Hts'). cbn in Hty', Hts'. rewrite Hty', Hts'. done.
Qed.

Lemma u8_bytes l : bytes_ok (u8 <$> l).
Proof. unfold bytes_ok. rewrite Forall_fmap. apply Forall_forall. intros x _. apply wrap_u_range. lia. Qed.

(** C16: the decoder never reads outside the message: for any bytes of any
    length, on either host endianness and with any table built by the engine,
    every load of [decode_itch] stays inside the buffer, and a tick it accepts has
    values of its field types. *)
Theorem decode_itch_in_bounds (host_be : bool) (ops : list sym_op) (raw : list Z) (out : TickMsg) :
  exists accepted t, decode_itch host_be (Some (u8 <$> raw)) (Z.of_nat (length raw)) (table_of ops) out = Some (accepted, t) /\
    (accepted = false \/ tick_typed t).
Proof.
  destruct (decode_itch_ok host_be (u8 <$> raw) (table_of ops) out) as (b & t & E & Ht); [apply u8_bytes|apply table_of_ok|].
  rewrite length_fmap in E. exists b, t. split; [done|]. destruct b; [right; by apply Ht|by left].
Qed.

(** C15: what the decoder accepts, the book engine accepts: a decoded tick has
    values of its field types, a timestamp within the day and the type byte of
    the message, and if it is a book message it passes every validity guard of
    [process_unlocked]. *)
Theorem decode_itch_accepts_well_formed (host_be : bool) (ops : list sym_op) (raw : list Z) (out t : TickMsg)
  (Hraw : bytes_ok raw)
  (Hdec : decode_itch host_be (Some raw) (Z.of_nat (length raw)) (table_of ops) out = Some (true, t)) :
  tick_typed t /\ (t_msg_type t ∈ book_types -> well_formed t = true) /\
  t_timestamp t < 86400000000000 /\ rd raw 0 = Some (t_msg_type t).
Proof.
  destruct (decode_itch_ok host_be raw (table_of ops) out Hraw (table_of_ok ops)) as (b & t' & E & Ht).
  rewrite Hdec in E. injection E as <- <-. destruct (Ht eq_refl) as ((? & ?) & ? & ?). done.
Qed.

(** A delete message for symbol 5, order 0x0102, at 10 ns. *)
Definition delete_message (locate : Z) : list Z :=
  [0x44; locate / 256; locate mod 256; 0; 0; 0; 0; 0; 0; 0; 10; 0; 0; 0; 0; 0; 0; 1; 2].

Lemma decode_itch_accepts_well_formed_witness : well_formed (mkTick 0x44 0 5 10 0 0 0x0102 0) = true.
Proof.
  apply (decode_itch_accepts_well_formed false [] (delete_message 5) empty_tick (mkTick 0x44 0 5 10 0 0 0x0102 0)).
  - repeat (constructor; [done|]). constructor.
  - by vm_compute.
  - by apply (bool_decide_eq_true_1 (_ ∈ book_types)).
Defined.

(** A rejected message still overwrites the output: decoding a delete
    message for an unknown symbol returns false, yet the output tick is no
    longer the one passed in. *)
Theorem decode_itch_rejection_overwrites_out (host_be : bool) (out : TickMsg) :
  decode_itch host_be (Some (delete_message 512)) 19 (table_of []) out = Some (false, mkTick 0x44 0 512 10 0 0 0 0).
Proof. by destruct host_be; vm_compute. Qed.

(** ** Independence of the host's endianness *)

(** A ticker as the wire has it: eight bytes, right-padded with spaces. *)
Definition ticker8 (name : list Z) : list Z := take 8 ((u8 <$> name) ++ replicate 8 0x20).

(** The key its bytes load as. *)
Definition ticker_key (host_be : bool) (name : list Z) : Z :=
  if host_be then be_value (ticker8 name) else le_value (ticker8 name).

Definition ticker_ops (host_be : bool) (tickers : list (list Z * Z)) : list sym_op :=
  (fun '(name, idx) => SymInsert (Some (ticker_key host_be name)) idx) <$> tickers.

Definition is_ticker (bs : list Z) : Prop := bytes_ok bs /\ length bs = 8%nat.

Lemma ticker8_ok name : is_ticker (ticker8 name).
Proof.
  split.
  - apply Forall_take, Forall_app. split; [apply u8_bytes|]. by apply Forall_replicate.
  - unfold ticker8. rewrite length_take, length_app, length_replicate. lia.
Qed.

Lemma le_value_inj l l' : bytes_ok l -> bytes_ok l' -> length l = length l' -> le_value l = le_value l' -> l = l'.
Proof. intros Hl Hl' Hlen E. rewrite <- (le_split_value l Hl), <- (le_split_value l' Hl'). by rewrite Hlen, E. Qed.

Lemma be_value_inj l l' : bytes_ok l -> bytes_ok l' -> length l = length l' -> be_value l = be_value l' -> l = l'.
Proof.
  intros Hl. revert l'. induction Hl as [|x l Hx Hl IH]; intros [|y l'] Hl' Hlen E; try done.
  apply Forall_cons in Hl' as [Hy Hl']. injection Hlen as Hlen. rewrite !be_value_cons, Hlen in E.
  pose proof (be_value_range l Hl). pose proof (be_value_range l' Hl'). rewrite Hlen in H.
  assert (x = y) as -> by (unfold in_u in *; nia). f_equal. apply IH; [done|done|lia].
Qed.

(** Two tables that agree up to the host's representation of tickers. *)
Definition hosts_agree (Mb Ml : gmap Z Z) : Prop :=
  (forall bs, is_ticker bs -> Mb !! be_value bs = Ml !! le_value bs) /\ size Mb = size Ml.

Lemma hosts_agree_insert Mb Ml bs v :
  is_ticker bs -> hosts_agree Mb Ml -> hosts_agree (<[be_value bs := v]> Mb) (<[le_value bs := v]> Ml).
Proof.
  intros [Hb Hl] [Ha Hs]. split.
  - intros bs' [Hb' Hl']. destruct (decide (bs = bs')) as [->|Hne]; [by rewrite !lookup_insert_eq|].
    rewrite !lookup_insert_ne; [by apply Ha| |].
    + intros E. apply Hne, le_value_inj; [done|done|congruence|done].
    + intros E. apply Hne, be_value_inj; [done|done|congruence|done].
  - rewrite !map_size_insert, (Ha bs) by done. destruct (Ml !! le_value bs); simpl; lia.
Qed.

Lemma run_tickers_agree tickers :
  exists tb Mb tl Ml, run_sym (ticker_ops true tickers) = Some (tb, Mb) /\ run_sym (ticker_ops false tickers) = Some (tl, Ml)
    /\ symtab.repr tb Mb /\ symtab.repr tl Ml /\ hosts_agree Mb Ml.
Proof.
  unfold ticker_ops. induction tickers as [|[name idx] tickers IH] using rev_ind.
  { eexists _, _, _, _. split_and!; [done|done|apply symtab.sym_clear_repr|apply symtab.sym_clear_repr|done]. }
  destruct IH as (tb & Mb & tl & Ml & Eb & El & Rb & Rl & Ha). unfold run_sym in *. rewrite !fmap_app, !foldl_app, Eb, El.
  cbn [fmap list_fmap foldl step_sym mbind option_bind]. pose proof (wrap_u_range 16 idx ltac:(lia)) as [Hi _].
  pose proof (symtab.sym_insert_repr tb Mb (Some (ticker_key true name)) (u16 idx) Rb Hi) as Ib.
  pose proof (symtab.sym_insert_repr tl Ml (Some (ticker_key false name)) (u16 idx) Rl Hi) as Il.
  assert (Ec : st_count tb = st_count tl).
  { rewrite (symtab.repr_count _ _ Rb), (symtab.repr_count _ _ Rl). destruct Ha as [_ ->]. done. }
  rewrite Ec in Ib. destruct ((u16 idx <? kSymbols) && (st_count tl <? symtab.kWindow)).
  - destruct Ib as (tb' & -> & Rb'), Il as (tl' & -> & Rl'). eexists _, _, _, _. split_and!; [done|done|done|done|].
    apply hosts_agree_insert; [apply ticker8_ok|done].
  - rewrite Ib, Il. by eexists _, _, _, _.
Qed.

Lemma lookup_at_host tickers raw off :
  bytes_ok raw ->
  lookup_at true raw (table_of (ticker_ops true tickers)) off = lookup_at false raw (table_of (ticker_ops false tickers)) off.
Proof.
  intros Hr. unfold lookup_at, detail.load_ticker_key, load, table_of.
  destruct (run_tickers_agree tickers) as (tb & Mb & tl & Ml & -> & -> & Rb & Rl & Ha).
  destruct (slice raw off 8) as [bs|] eqn:E; [|done]. cbn [mbind option_bind]. f_equal.
  rewrite (symtab.sym_lookup_repr _ _ _ Rb), (symtab.sym_lookup_repr _ _ _ Rl). unfold symtab.resolve. f_equal. apply Ha.
  split; [by eapply slice_bytes|by eapply slice_length in E].
Qed.

(** the decoder is correct on both big-endian and little-endian hosts: for
    tables built from the same tickers on the respective host, every message
    decodes to the same result and the same tick. *)
Theorem decode_itch_host_independent (tickers : list (list Z * Z)) (raw : list Z) (out : TickMsg) :
  decode_itch true (Some (u8 <$> raw)) (Z.of_nat (length raw)) (table_of (ticker_ops true tickers)) out =
  decode_itch false (Some (u8 <$> raw)) (Z.of_nat (length raw)) (table_of (ticker_ops false tickers)) out.
Proof.
  pose proof (u8_bytes raw) as Hr. set (bytes := u8 <$> raw) in *. clearbody bytes.
  unfold decode_itch, decode_body, decode_add, decode_executed, decode_executed_price, decode_cancel, decode_delete,
    decode_replace, decode_trade, decode_cross, decode_trading_action, decode_reg_sho.
  rewrite !lookup_at_host, !be_timestamp48_slice, !be16_slice, !be32_slice, !be64_slice by (done || lia). done.
Qed.
