(* ===== verification/Ring.v ===== *)
(** * SPSCRing (luv_arena.hpp) and StaticSpscQueue (luv_consumer.hpp)

    The single-producer single-consumer ring.  First the sequential operations
    (what each call does to head, tail and slots), then the ring as two threads
    that interleave at every atomic access, with the specification of a FIFO
    queue.  The interleavings are sequentially consistent: the acquire/release
    pairs of the code order the accesses to a slot with those to the index that
    publishes it. *)
From Stdlib Require Import ZArith Lia ZifyBool.
From S2P Require Import Prelude.

(** ** Sequential operations

    [r_cells] is [None] before the arena wires the slots. *)
Record SPSCRing (T : Type) := mkRing {
  r_head : Z;                      (* std::atomic<uint64_t> *)
  r_tail : Z;                      (* std::atomic<uint64_t> *)
  r_cells : option (gmap Z T);     (* T* slots *)
}.
Arguments mkRing {T}.
Arguments r_head {T}.
Arguments r_tail {T}.
Arguments r_cells {T}.

Module ring.
Section ops.
Context {T : Type} (capacity : Z) (blank : T).

Definition kMask : Z := capacity - 1.

(** The slot a successful [try_claim] points to. *)
Definition try_claim (r : SPSCRing T) : option Z :=
  match r_cells r with
  | None => None
  | Some _ => if capacity <=? u64 (r_head r - r_tail r) then None else Some (Z.land (r_head r) kMask)
  end.

Definition write_slot (s : Z) (v : T) (r : SPSCRing T) : SPSCRing T :=
  mkRing (r_head r) (r_tail r) ((fun c => <[s := v]> c) <$> r_cells r).

Definition read_slot (s : Z) (r : SPSCRing T) : T := sget blank (default ∅ (r_cells r)) s.

Definition commit (r : SPSCRing T) : SPSCRing T := mkRing (u64 (r_head r + 1)) (r_tail r) (r_cells r).

Definition try_peek (r : SPSCRing T) : option Z :=
  match r_cells r with
  | None => None
  | Some _ => if r_head r =? r_tail r then None else Some (Z.land (r_tail r) kMask)
  end.

Definition consume (r : SPSCRing T) : SPSCRing T := mkRing (r_head r) (u64 (r_tail r + 1)) (r_cells r).

Definition size (r : SPSCRing T) : Z := u64 (r_head r - r_tail r).

(** StaticSpscQueue: claim, write and commit in one call; peek, read and
    consume in one call. *)
Definition try_push (v : T) (r : SPSCRing T) : bool * SPSCRing T :=
  match try_claim r with
  | None => (false, r)
  | Some s => (true, commit (write_slot s v r))
  end.

Definition try_pop (r : SPSCRing T) : option T * SPSCRing T :=
  match try_peek r with
  | None => (None, r)
  | Some s => (Some (read_slot s r), consume r)
  end.

Definition empty (r : SPSCRing T) : bool := r_head r =? r_tail r.

(** *** Back-pressure

    The capacity is a power of two, so the double [occupancy_ratio] is exact;
    the literals 0.70, 0.85 and 0.95 are the doubles
    6305039478318694, 7656119366529843 and 8556839292003942 times 2^-53. *)
Inductive MemoryPressureTier := kNormal | kWarning | kShedLoad | kEmergencyHalt.

Definition occupancy_at_least (r : SPSCRing T) (literal : Z) : bool := literal * capacity <=? size r * 2 ^ 53.

Definition pressure_tier (r : SPSCRing T) : MemoryPressureTier :=
  if occupancy_at_least r 8556839292003942 then kEmergencyHalt
  else if occupancy_at_least r 7656119366529843 then kShedLoad
  else if occupancy_at_least r 6305039478318694 then kWarning
  else kNormal.

Definition allow_ingress (r : SPSCRing T) (is_cancellation : bool) : bool :=
  match pressure_tier r with
  | kNormal | kWarning => true
  | kShedLoad => is_cancellation
  | kEmergencyHalt => false
  end.

End ops.
End ring.

(** ** The ring as a bounded FIFO queue *)
Section queue.
Context {T : Type} (k : Z) (Hk : 0 <= k <= 63) (blank : T).
Local Abbreviation cap := (2 ^ k).

(** [live c base q]: from index [base] the cells hold [q]. *)
Definition live (c : gmap Z T) (base : Z) (q : list T) : Prop :=
  forall i v, q !! i = Some v -> sget blank c ((base + Z.of_nat i) mod cap) = v.

(** The ring holds the queue [q]; [base] counts the elements ever consumed. *)
Record holds_queue (r : SPSCRing T) (base : Z) (q : list T) : Prop := {
  hq_tail : r_tail r = u64 base;
  hq_head : r_head r = u64 (base + Z.of_nat (length q));
  hq_size : Z.of_nat (length q) <= cap;
  hq_cells : exists c, r_cells r = Some c /\ live c base q;
}.

Lemma cap_pos : 1 <= cap <= 2 ^ 63.
Proof. split; [pose proof (Z.pow_pos_nonneg 2 k); lia|apply Z.pow_le_mono_r; lia]. Qed.

Lemma slot_index z : Z.land (u64 z) (ring.kMask cap) = z mod cap.
Proof.
  unfold ring.kMask. rewrite land_mask by lia. unfold wrap_u. apply Z.mod_mod_divide.
  exists (2 ^ (64 - k)). rewrite <- Z.pow_add_r by lia. f_equal. lia.
Qed.

Lemma distance a n : 0 <= n < 2 ^ 64 -> u64 (u64 (a + n) - u64 a) = n.
Proof. intros. unfold wrap_u. rewrite <- Zminus_mod. replace (a + n - a) with n by lia. by apply Z.mod_small. Qed.

Lemma hq_distance r base q : holds_queue r base q -> ring.size r = Z.of_nat (length q).
Proof.
  intros H. pose proof cap_pos. pose proof (hq_size _ _ _ H). unfold ring.size. rewrite (hq_head _ _ _ H), (hq_tail _ _ _ H).
  apply distance. assert (2 ^ 63 < 2 ^ 64) by done. lia.
Qed.

(** Two indices less than a capacity apart are in different cells. *)
Lemma cells_differ a b : a < b < a + cap -> a mod cap <> b mod cap.
Proof.
  intros Hab E. pose proof cap_pos.
  assert (E' : (b - a) mod cap = 0) by (rewrite Zminus_mod, E, Z.sub_diag; apply Z.mod_0_l; lia).
  rewrite Z.mod_small in E' by lia. lia.
Qed.

Lemma try_claim_spec r base q :
  holds_queue r base q ->
  ring.try_claim cap r = if Z.of_nat (length q) <? cap then Some ((base + Z.of_nat (length q)) mod cap) else None.
Proof.
  intros H. unfold ring.try_claim. destruct (hq_cells _ _ _ H) as (c & -> & _).
  change (u64 (r_head r - r_tail r)) with (ring.size r). rewrite (hq_distance _ _ _ H), (hq_head _ _ _ H), slot_index.
  rewrite Z.ltb_antisym. by destruct (_ <=? _).
Qed.

Lemma try_peek_spec r base q :
  holds_queue r base q -> ring.try_peek cap r = match q with [] => None | _ => Some (base mod cap) end.
Proof.
  intros H. unfold ring.try_peek. destruct (hq_cells _ _ _ H) as (c & -> & _).
  assert (Hd : (r_head r =? r_tail r) = (Z.of_nat (length q) =? 0)).
  { pose proof (hq_distance _ _ _ H) as Hs. unfold ring.size in Hs. destruct (Z.eqb_spec (r_head r) (r_tail r)) as [E|E].
    - rewrite E, Z.sub_diag in Hs. change (u64 0) with 0 in Hs. lia.
    - destruct (Z.eqb_spec (Z.of_nat (length q)) 0) as [E0|]; [|done]. destruct E.
      rewrite (hq_head _ _ _ H), (hq_tail _ _ _ H), E0. f_equal. lia. }
  rewrite Hd, (hq_tail _ _ _ H), slot_index. destruct q; [done|]. by destruct (Z.eqb_spec (Z.of_nat (length (t :: q))) 0).
Qed.

Lemma u64_succ z : u64 (u64 z + 1) = u64 (z + 1).
Proof. unfold wrap_u. by rewrite Zplus_mod_idemp_l. Qed.

(** Writing the next free cell does not disturb the queue. *)
Lemma write_queue r base q v :
  holds_queue r base q -> Z.of_nat (length q) < cap ->
  let s := (base + Z.of_nat (length q)) mod cap in
  holds_queue (ring.write_slot s v r) base q /\ ring.read_slot blank s (ring.write_slot s v r) = v.
Proof.
  intros H Hlen s. destruct (hq_cells _ _ _ H) as (c & Ec & Hl). split; [split; simpl; try apply H|].
  - rewrite Ec. simpl. eexists. split; [done|]. intros i w Hi. pose proof (lookup_lt_Some _ _ _ Hi).
    rewrite sget_insert_ne; [by apply Hl|]. intros E. symmetry in E. revert E. apply cells_differ. lia.
  - unfold ring.read_slot. simpl. rewrite Ec. apply sget_insert_eq.
Qed.

(** Committing publishes the value in that cell. *)
Lemma commit_queue r base q v :
  holds_queue r base q -> Z.of_nat (length q) < cap ->
  ring.read_slot blank ((base + Z.of_nat (length q)) mod cap) r = v -> holds_queue (ring.commit r) base (q ++ [v]).
Proof.
  intros H Hlen Hv. destruct (hq_cells _ _ _ H) as (c & Ec & Hl). split; simpl.
  - apply H.
  - rewrite (hq_head _ _ _ H), u64_succ, length_app. simpl. f_equal. lia.
  - rewrite length_app. simpl. lia.
  - exists c. split; [done|]. intros i w Hi. apply lookup_app_Some in Hi as [Hi|[Hi Hw]]; [by apply Hl|].
    destruct (i - length q)%nat as [|j] eqn:E; [|by destruct j]. injection Hw as <-.
    replace i with (length q) by lia. unfold ring.read_slot in Hv. by rewrite Ec in Hv.
Qed.

Lemma push_queue r base q v :
  holds_queue r base q -> Z.of_nat (length q) < cap ->
  holds_queue (ring.commit (ring.write_slot ((base + Z.of_nat (length q)) mod cap) v r)) base (q ++ [v]).
Proof. intros H Hlen. destruct (write_queue r base q v H Hlen). by apply commit_queue. Qed.

Lemma live_tail c base v q : live c base (v :: q) -> live c (base + 1) q.
Proof. intros H i w Hi. replace (base + 1 + Z.of_nat i) with (base + Z.of_nat (S i)) by lia. by apply H. Qed.

Lemma pop_queue r base v q : holds_queue r base (v :: q) -> holds_queue (ring.consume r) (base + 1) q.
Proof.
  intros H. destruct (hq_cells _ _ _ H) as (c & Ec & Hl). split; simpl.
  - rewrite (hq_tail _ _ _ H). apply u64_succ.
  - rewrite (hq_head _ _ _ H). simpl length. f_equal. lia.
  - pose proof (hq_size _ _ _ H) as Hs. simpl in Hs. lia.
  - exists c. split; [done|]. by eapply live_tail.
Qed.

Lemma read_queue r base v q : holds_queue r base (v :: q) -> ring.read_slot blank (base mod cap) r = v.
Proof.
  intros H. destruct (hq_cells _ _ _ H) as (c & Ec & Hl). unfold ring.read_slot. rewrite Ec. simpl.
  rewrite <- (Z.add_0_r base). by apply (Hl 0%nat).
Qed.

End queue.

(** A ring freshly wired to zeroed storage. *)
Definition fresh_ring {T} : SPSCRing T := mkRing 0 0 (Some ∅).

Lemma fresh_holds {T} k (blank : T) : 0 <= k -> holds_queue k blank fresh_ring 0 [].
Proof. intros. split; [done|done|simpl; lia|]. exists ∅. by split. Qed.

(** ** The two threads *)
Section threads.
Context {T : Type} (k : Z) (Hk : 0 <= k <= 63) (blank : T).
Local Abbreviation cap := (2 ^ k).

(** Program counters: between two atomic accesses a thread remembers what it
    has loaded. *)
Inductive producer := PIdle | PLoaded (h : Z) | PClaimed (s : Z) | PWritten (v : T).
Inductive consumer := CIdle | CLoaded (t : Z) | CPeeked (s : Z) | CRead (v : T).

Record rstate := mkState {
  rs_ring : SPSCRing T;
  rs_prod : producer;
  rs_cons : consumer;
  rs_sent : list T;       (* values committed, in order *)
  rs_received : list T;   (* values consumed, in order *)
}.

Definition rinit : rstate := mkState fresh_ring PIdle CIdle [] [].

(** One atomic access of one of the threads. *)
Inductive rstep : rstate -> rstate -> Prop :=
  | p_load_head r c xs ys : rstep (mkState r PIdle c xs ys) (mkState r (PLoaded (r_head r)) c xs ys)
  | p_full r h c xs ys :
      cap <= u64 (h - r_tail r) -> rstep (mkState r (PLoaded h) c xs ys) (mkState r PIdle c xs ys)
  | p_claim r h c xs ys :
      u64 (h - r_tail r) < cap ->
      rstep (mkState r (PLoaded h) c xs ys) (mkState r (PClaimed (Z.land h (ring.kMask cap))) c xs ys)
  | p_write r s v c xs ys :
      rstep (mkState r (PClaimed s) c xs ys) (mkState (ring.write_slot s v r) (PWritten v) c xs ys)
  | p_commit r v c xs ys :
      rstep (mkState r (PWritten v) c xs ys) (mkState (ring.commit r) PIdle c (xs ++ [v]) ys)
  | c_load_tail r p xs ys : rstep (mkState r p CIdle xs ys) (mkState r p (CLoaded (r_tail r)) xs ys)
  | c_empty r p t xs ys : r_head r = t -> rstep (mkState r p (CLoaded t) xs ys) (mkState r p CIdle xs ys)
  | c_peek r p t xs ys :
      r_head r <> t ->
      rstep (mkState r p (CLoaded t) xs ys) (mkState r p (CPeeked (Z.land t (ring.kMask cap))) xs ys)
  | c_read r p s xs ys :
      rstep (mkState r p (CPeeked s) xs ys) (mkState r p (CRead (ring.read_slot blank s r)) xs ys)
  | c_consume r p v xs ys :
      rstep (mkState r p (CRead v) xs ys) (mkState (ring.consume r) p CIdle xs (ys ++ [v])).

Inductive reachable_state : rstate -> Prop :=
  | reach_init : reachable_state rinit
  | reach_step s s' : reachable_state s -> rstep s s' -> reachable_state s'.

(** The invariant: the ring holds the values sent and not yet received, and
    what each thread remembers is still true of it. *)
Record rinv (s : rstate) : Prop := {
  ri_prefix : exists q, rs_sent s = rs_received s ++ q /\
    holds_queue k blank (rs_ring s) (Z.of_nat (length (rs_received s))) q /\
    match rs_prod s with
    | PIdle => True
    | PLoaded h => h = r_head (rs_ring s)
    | PClaimed i => i = Z.of_nat (length (rs_sent s)) mod cap /\ Z.of_nat (length q) < cap
    | PWritten v => Z.of_nat (length q) < cap /\
        ring.read_slot blank (Z.of_nat (length (rs_sent s)) mod cap) (rs_ring s) = v
    end /\
    match rs_cons s with
    | CIdle => True
    | CLoaded t => t = r_tail (rs_ring s)
    | CPeeked i => i = Z.of_nat (length (rs_received s)) mod cap /\ q <> []
    | CRead v => head q = Some v
    end;
}.

Lemma read_slot_commit i (r : SPSCRing T) : ring.read_slot blank i (ring.commit r) = ring.read_slot blank i r.
Proof. done. Qed.

Lemma rinv_init : rinv rinit.
Proof. split. exists []. split_and!; [done|apply fresh_holds; lia|done|done]. Qed.

Lemma rinv_step s s' : rinv s -> rstep s s' -> rinv s'.
Proof.
  intros [(q & Hsent & Hq & Hp & Hc)] Hstep.
  destruct Hstep as [r c xs ys|r h c xs ys Hf|r h c xs ys Hf|r i v c xs ys|r v c xs ys|r p xs ys|r p t xs ys Ht|r p t xs ys Ht|r p i xs ys|r p v xs ys];
    cbn [rs_ring rs_prod rs_cons rs_sent rs_received] in *; split; cbn [rs_ring rs_prod rs_cons rs_sent rs_received].
  - by exists q.
  - by exists q.
  - exists q. subst h. change (u64 (r_head r - r_tail r)) with (ring.size r) in Hf.
    rewrite (hq_distance k Hk blank _ _ _ Hq) in Hf. split_and!; try done.
    rewrite (hq_head _ _ _ _ _ Hq), slot_index, Hsent, length_app by done. f_equal. lia.
  - destruct Hp as [-> Hlen]. rewrite Hsent, length_app, Nat2Z.inj_add in *.
    destruct (write_queue k Hk blank r _ q v Hq Hlen) as [Hq' Hv]. exists q. split_and!; try done.
  - destruct Hp as [Hlen Hv]. rewrite Hsent, length_app, Nat2Z.inj_add in Hv. exists (q ++ [v]).
    split_and!; [by rewrite Hsent, app_assoc|by apply commit_queue|done|].
    destruct c; try done; [destruct Hc; split; [done|by destruct q]|]. by destruct q.
  - by exists q.
  - by exists q.
  - exists q. subst t. split_and!; try done.
    + by rewrite (hq_tail _ _ _ _ _ Hq), slot_index.
    + intros ->. destruct Ht. rewrite (hq_head _ _ _ _ _ Hq), (hq_tail _ _ _ _ _ Hq). simpl. f_equal. lia.
  - destruct Hc as [-> Hne]. exists q. split_and!; try done. destruct q as [|v q]; [done|]. simpl. f_equal. symmetry.
    by eapply read_queue.
  - destruct q as [|w q]; [done|]. injection Hc as ->. exists q.
    assert (Hlen : Z.of_nat (length (ys ++ [v])) = Z.of_nat (length ys) + 1) by (rewrite length_app; simpl; lia).
    rewrite Hlen. split_and!; [by rewrite Hsent, <- app_assoc|by eapply pop_queue| |done].
    destruct p; try done.
    + destruct Hp as [-> Hl]. split; [done|]. simpl in Hl. lia.
    + destruct Hp as [Hl Hv]. split; [simpl in Hl; lia|done].
Qed.

Lemma reachable_inv s : reachable_state s -> rinv s.
Proof. induction 1 as [|s s' _ IH Hstep]; [apply rinv_init|by eapply rinv_step]. Qed.

End threads.

(** C10: the ring is a FIFO channel under every interleaving: in every state the
    producer and the consumer can reach by single atomic accesses, the values
    received are a prefix of the values sent, at most [capacity] values are in
    flight, and while the producer is about to write a slot and the consumer
    about to read one, the two slots differ. *)
Theorem spsc_fifo {T} (k : Z) (blank : T) (s : rstate (T := T)) (Hk : 0 <= k <= 63)
    (Hs : reachable_state k blank s) :
  (exists q, rs_sent s = rs_received s ++ q /\ Z.of_nat (length q) <= 2 ^ k /\ ring.size (rs_ring s) = Z.of_nat (length q))
  /\ (forall i j, rs_prod s = PClaimed i -> rs_cons s = CPeeked j -> i <> j).
Proof.
  destruct (reachable_inv k Hk blank s Hs) as [(q & Hsent & Hq & Hp & Hc)]. split.
  - exists q. split; [done|]. split; [apply Hq|by apply (hq_distance k Hk blank) in Hq].
  - intros i j Ep Ec. rewrite Ep in Hp. rewrite Ec in Hc. destruct Hp as [-> Hlt], Hc as [-> Hne].
    rewrite Hsent, length_app, Nat2Z.inj_add. intros E. symmetry in E. revert E. apply (cells_differ k Hk).
    destruct q; [done|]. simpl. simpl in Hlt. lia.
Qed.

(** One value sent; then, while the consumer is about to read its slot, the
    producer has claimed the next one. *)
Lemma spsc_fifo_witness : exists s : rstate (T := Z),
  reachable_state 2 0 s /\ rs_prod s = PClaimed 1 /\ rs_cons s = CPeeked 0 /\ (1 <> 0)%Z.
Proof.
  pose (r1 := ring.commit (ring.write_slot 0 7 (fresh_ring (T := Z)))).
  assert (Hs : reachable_state 2 0 (mkState r1 (PClaimed 1) (CPeeked 0) [7] [])).
  { eapply reach_step; [|apply (c_peek 2 0 r1 (PClaimed 1) 0); done].
    eapply reach_step; [|apply c_load_tail].
    eapply reach_step; [|apply (p_claim 2 0 r1 1); done].
    eapply reach_step; [|apply p_load_head].
    eapply reach_step; [|apply (p_commit 2 0 (ring.write_slot 0 7 fresh_ring) 7 CIdle [] [])].
    eapply reach_step; [|apply (p_write 2 0 fresh_ring 0 7)].
    eapply reach_step; [|apply (p_claim 2 0 fresh_ring 0); done].
    eapply reach_step; [|apply p_load_head]. apply reach_init. }
  exists (mkState r1 (PClaimed 1) (CPeeked 0) [7] []). split; [exact Hs|]. split; [done|]. split; [done|].
  destruct (spsc_fifo 2 0 _ ltac:(lia) Hs) as [_ H]. by apply (H 1 0).
Defined.

(** [try_push] and [try_pop] of the queue are those of a bounded FIFO: on a
    ring holding [q], a push is refused exactly when [q] has [capacity]
    elements and else appends, and a pop returns and removes the oldest
    element, or nothing when [q] is empty, across any wrap-around of the
    64-bit counters. *)
Theorem static_queue_fifo {T} (k : Z) (blank : T) (r : SPSCRing T) (base : Z) (q : list T) (v : T)
    (Hk : 0 <= k <= 63) (Hq : holds_queue k blank r base q) :
  (if Z.of_nat (length q) <? 2 ^ k
   then exists r', ring.try_push (2 ^ k) v r = (true, r') /\ holds_queue k blank r' base (q ++ [v])
   else ring.try_push (2 ^ k) v r = (false, r))
  /\ match q with
     | [] => ring.try_pop (2 ^ k) blank r = (None, r)
     | x :: q' => exists r', ring.try_pop (2 ^ k) blank r = (Some x, r') /\ holds_queue k blank r' (base + 1) q'
     end.
Proof.
  unfold ring.try_push, ring.try_pop. rewrite (try_claim_spec k Hk blank _ _ _ Hq), (try_peek_spec k Hk blank _ _ _ Hq). split.
  - destruct (Z.ltb_spec (Z.of_nat (length q)) (2 ^ k)); [|done]. eexists. split; [done|]. by apply push_queue.
  - destruct q as [|x q]; [done|]. eexists. split; [by rewrite (read_queue k blank _ _ _ _ Hq)|]. by eapply pop_queue.
Qed.

Lemma static_queue_fifo_witness :
  exists r', ring.try_push (2 ^ 2) 7 (fresh_ring (T := Z)) = (true, r') /\ holds_queue 2 0 r' 0 ([] ++ [7]).
Proof. apply (static_queue_fifo 2 0 fresh_ring 0 [] 7); [lia|by apply fresh_holds]. Defined.
