(* ===== verification/Arena.v ===== *)
(** * Arena (luv_arena.hpp): alignment, slab sizes and the memory layout

    Addresses and sizes are [size_t] values.  The results of [mmap] and [mlock]
    are parameters; the arena keeps the address and the element count of every
    span it hands out. *)
From Stdlib Require Import ZArith Lia ZifyBool.
From S2P Require Import Prelude Config.

(** ** Alignment helpers *)
Definition kCacheLine : Z := 64.
Definition kPageSize : Z := 4096.
Definition kHugePage : Z := 2 * 1024 * 1024.

Definition align_up (n align : Z) : Z := Z.land (u64 (n + align - 1)) (u64 (Z.lnot (u64 (align - 1)))).

Definition can_align_up (n align : Z) : bool :=
  negb (align =? 0) && (Z.land align (u64 (align - 1)) =? 0) && (n <=? UINT64_MAX - (align - 1)).

(** ** Slab sizes

    Object sizes are those the [static_assert]s of the header fix. *)
Definition sizeof_PriceLevel : Z := 576.
Definition sizeof_TickMsg : Z := 64.
Definition sizeof_FeatureRow : Z := 5120.
Definition sizeof_SignalOutput : Z := 16.
Definition sizeof_SymbolExecState : Z := 4096 + 128 + 128.
Definition sizeof_TelemSnapshot : Z := 128.

Module slab_sizes.
Definition kLOB : Z := kSymbols * 2 * kLevelsPerSide * sizeof_PriceLevel.
Definition kTickRing : Z := kTickCapacity * sizeof_TickMsg.
Definition kFeatures : Z := kSymbols * sizeof_FeatureRow.
Definition kSignals : Z := kSignalSlots * sizeof_SignalOutput.
Definition kExecState : Z := kSymbols * sizeof_SymbolExecState.
Definition kTelemetry : Z := kTelemCapacity * sizeof_TelemSnapshot.
Definition kWebSocketControlPlane : Z := kWebSocketConnections * kWebSocketConnectionSlotBytes.
Definition kInfraRaw : Z :=
  kLOB + kTickRing + kFeatures + kSignals + kExecState + kTelemetry + kWebSocketControlPlane.
Definition kInfraTotal : Z := align_up kInfraRaw kHugePage.
Definition kAIRegion : Z := kAIBudgetBytes.
Definition kGrandTotal : Z := kInfraTotal + kAIRegion.
End slab_sizes.
Import slab_sizes.

(** ** The arena *)
Inductive CapacityMode := kFull | kInfrastructureOnly.

(** [std::span]: address of the first element, number of elements. *)
Record span := mkSpan { sp_ptr : Z; sp_count : Z }.
Definition no_span : span := mkSpan 0 0.

(** The indices of a ring whose slots live in the arena. *)
Record ring_head := mkRingHead { rh_head : Z; rh_tail : Z; rh_slots : option Z }.

Record Arena := mkArena {
  ar_lob_flat : span;
  ar_tick_slots : span;
  ar_feature_rows : span;
  ar_signal_slots : span;
  ar_exec_states : span;
  ar_telem_slots : span;
  ar_websocket_storage : span;
  ar_tick_ring : ring_head;
  ar_telem_ring : ring_head;
  ar_ai_region : option Z;
  ar_ai_region_size : Z;
  ar_base : option Z;
  ar_total_size : Z;
  ar_capacity_mode : CapacityMode;
  ar_initialised : bool;
  ar_mlocked : bool;
}.

Definition empty_arena : Arena :=
  mkArena no_span no_span no_span no_span no_span no_span no_span
    (mkRingHead 0 0 None) (mkRingHead 0 0 None) None 0 None 0 kFull false false.

Definition set_mode (m : CapacityMode) (a : Arena) : Arena :=
  mkArena (ar_lob_flat a) (ar_tick_slots a) (ar_feature_rows a) (ar_signal_slots a) (ar_exec_states a)
    (ar_telem_slots a) (ar_websocket_storage a) (ar_tick_ring a) (ar_telem_ring a) (ar_ai_region a)
    (ar_ai_region_size a) (ar_base a) (ar_total_size a) m (ar_initialised a) (ar_mlocked a).

(** The typed spans, from the lowest address up. *)
Definition wire (mem total : Z) (m : CapacityMode) (locked : bool) (a : Arena) : Arena :=
  let lob_ptr := mem in
  let tick_ptr := lob_ptr + kLOB in
  let feat_ptr := tick_ptr + kTickRing in
  let sig_ptr := feat_ptr + kFeatures in
  let exec_ptr := sig_ptr + kSignals in
  let telem_ptr := exec_ptr + kExecState in
  let websocket_ptr := telem_ptr + kTelemetry in
  mkArena
    (mkSpan lob_ptr (kLOB / sizeof_PriceLevel))
    (mkSpan tick_ptr kTickCapacity)
    (mkSpan feat_ptr kSymbols)
    (mkSpan sig_ptr kSignalSlots)
    (mkSpan exec_ptr kSymbols)
    (mkSpan telem_ptr kTelemCapacity)
    (mkSpan websocket_ptr kWebSocketControlPlane)
    (mkRingHead (rh_head (ar_tick_ring a)) (rh_tail (ar_tick_ring a)) (Some tick_ptr))
    (mkRingHead (rh_head (ar_telem_ring a)) (rh_tail (ar_telem_ring a)) (Some telem_ptr))
    (match m with kFull => Some (mem + kInfraTotal) | kInfrastructureOnly => None end)
    (match m with kFull => kAIRegion | kInfrastructureOnly => 0 end)
    (Some mem) total m true locked.

Section lifecycle.
Context (mmap : Z -> option Z)          (* size -> address, None for MAP_FAILED *)
        (mlock : Z -> Z -> bool)        (* address, size -> success *)
        (require_mlock : bool).         (* LUV_REQUIRE_MLOCK *)

(** The reservation: the whole arena, or the infrastructure alone. *)
Definition reserve : option (Z * Z * CapacityMode) :=
  match mmap kGrandTotal with
  | Some mem => Some (mem, kGrandTotal, kFull)
  | None =>
      match mmap kInfraTotal with
      | Some mem => Some (mem, kInfraTotal, kInfrastructureOnly)
      | None => None
      end
  end.

Definition init (a : Arena) : bool * Arena :=
  match ar_base a with
  | Some _ => (false, a)
  | None =>
      if negb (can_align_up kInfraRaw kHugePage) || (kGrandTotal =? 0) then (false, a)
      else match reserve with
      | None => (false, set_mode kFull a)
      | Some (mem, total, m) =>
          if mlock mem kInfraTotal then (true, wire mem total m true a)
          else if require_mlock then (false, set_mode m a)
          else (true, wire mem total m false a)
      end
  end.

End lifecycle.

Definition teardown (a : Arena) : Arena :=
  match ar_base a with
  | None => a
  | Some _ =>
      mkArena (ar_lob_flat a) (ar_tick_slots a) (ar_feature_rows a) (ar_signal_slots a) (ar_exec_states a)
        (ar_telem_slots a) no_span (ar_tick_ring a) (ar_telem_ring a) None 0 None (ar_total_size a) kFull
        false (ar_mlocked a)
  end.

Definition ai_capacity_available (a : Arena) : bool :=
  match ar_capacity_mode a with kFull => true | kInfrastructureOnly => false end.

(** Address of [lob_flat[idx]] for a level. *)
Definition level_address (a : Arena) (symbol side depth : Z) : Z :=
  sp_ptr (ar_lob_flat a) + ((symbol * 2 + side) * kLevelsPerSide + depth) * sizeof_PriceLevel.

Record MemoryReport := mkReport {
  mr_lob_bytes : Z;
  mr_tick_ring_bytes : Z;
  mr_feature_bytes : Z;
  mr_signal_bytes : Z;
  mr_exec_bytes : Z;
  mr_telem_bytes : Z;
  mr_websocket_control_plane_bytes : Z;
  mr_infra_total_bytes : Z;
  mr_ai_region_bytes : Z;
  mr_grand_total_bytes : Z;
  mr_mlocked : bool;
}.

Definition report (a : Arena) : MemoryReport :=
  mkReport kLOB kTickRing kFeatures kSignals kExecState kTelemetry kWebSocketControlPlane kInfraTotal
    (ar_ai_region_size a) (ar_total_size a) (ar_mlocked a).

(** ** ShardedTickRing *)
Section sharded.
Context (NumShards ShardCapacity : Z).

Record ShardedTickRing := mkSharded { sh_rings : list ring_head; sh_initialised : bool }.

Definition kShardMask : Z := NumShards - 1.

Definition sharded_init (storage_base : option Z) (s : ShardedTickRing) : bool * ShardedTickRing :=
  match storage_base with
  | None => (false, s)
  | Some b =>
      (true, mkSharded ((fun i => mkRingHead 0 0 (Some (b + i * ShardCapacity * sizeof_TickMsg))) <$> zrange 0 (Z.to_nat NumShards)) true)
  end.

Definition shard_for_symbol (symbol_idx : Z) : Z := Z.land symbol_idx kShardMask.
Definition total_capacity : Z := NumShards * ShardCapacity.
End sharded.

(** ** Lemmas *)
Lemma land_lnot_mask n z : 0 <= n -> Z.land z (Z.lnot (2 ^ n - 1)) = z - z mod 2 ^ n.
Proof.
  intros Hn. replace (2 ^ n - 1) with (Z.ones n) by (rewrite Z.ones_equiv; lia).
  rewrite <- Z.ldiff_land, Z.ldiff_ones_r, Z.shiftr_div_pow2, Z.shiftl_mul_pow2 by done.
  pose proof (Z.div_mod z (2 ^ n)). lia.
Qed.

Lemma pow2_le_u64 k : 0 <= k < 64 -> 1 <= 2 ^ k /\ 2 * 2 ^ k <= 2 ^ 64.
Proof.
  intros. split; [pose proof (Z.pow_pos_nonneg 2 k); lia|].
  rewrite <- Z.pow_succ_r by lia. apply Z.pow_le_mono_r; lia.
Qed.

(** The mask [~(align - 1)] as a [size_t] keeps the high bits. *)
Lemma land_u64_lnot z k : 0 <= k < 64 -> in_u 64 z -> Z.land z (u64 (Z.lnot (u64 (2 ^ k - 1)))) = z - z mod 2 ^ k.
Proof.
  intros Hk Hz. destruct (pow2_le_u64 k Hk).
  rewrite (wrap_u_id 64 (2 ^ k - 1)) by (unfold in_u; lia).
  rewrite <- land_lnot_mask by lia. unfold wrap_u. rewrite <- (Z.land_ones _ 64) by lia.
  rewrite (Z.land_comm _ (Z.ones 64)), Z.land_assoc, Z.land_ones by lia.
  by rewrite (Z.mod_small z) by done.
Qed.

(** [align & (align - 1)] is zero only for powers of two. *)
Lemma land_pred_pow2 a : 0 < a < 2 ^ 64 -> Z.land a (u64 (a - 1)) = 0 -> exists k, 0 <= k < 64 /\ a = 2 ^ k.
Proof.
  intros Ha E. rewrite wrap_u_id in E by (unfold in_u; lia). exists (Z.log2 a).
  pose proof (Z.log2_spec a ltac:(lia)) as [Hlo Hhi]. pose proof (Z.log2_nonneg a).
  assert (Z.log2 a < 64) by (apply Z.log2_lt_pow2; lia). split; [lia|].
  destruct (Z.eq_dec a (2 ^ Z.log2 a)) as [|Hne]; [done|]. exfalso.
  assert (H1 : Z.testbit a (Z.log2 a) = true) by (apply Z.bit_log2; lia).
  assert (H2 : Z.testbit (a - 1) (Z.log2 a) = true).
  { assert (El : Z.log2 (a - 1) = Z.log2 a) by (apply Z.log2_unique; lia). rewrite <- El. apply Z.bit_log2.
    pose proof (Z.pow_pos_nonneg 2 (Z.log2 a) ltac:(lia) ltac:(lia)). lia. }
  assert (H3 : Z.testbit (Z.land a (a - 1)) (Z.log2 a) = true) by by rewrite Z.land_spec, H1, H2.
  by rewrite E, Z.bits_0 in H3.
Qed.

Lemma can_align_up_spec n align :
  0 <= align < 2 ^ 64 -> can_align_up n align = true ->
  exists k, 0 <= k < 64 /\ align = 2 ^ k /\ n + align <= 2 ^ 64.
Proof.
  intros Ha Hc. unfold can_align_up in Hc. split_guards. destruct (land_pred_pow2 align) as (k & Hk & ->); [lia|lia|].
  exists k. split_and!; lia.
Qed.

(** Whenever [can_align_up] accepts its arguments, [align_up] returns the
    least multiple of the alignment that is not below [n], with no wrap-around
    of [size_t]. *)
Theorem align_up_least (n align : Z) (Hn : 0 <= n) (Ha : 0 <= align < 2 ^ 64) (Hc : can_align_up n align = true) :
  (align | align_up n align) /\ n <= align_up n align < 2 ^ 64
  /\ (forall m, (align | m) -> n <= m -> align_up n align <= m).
Proof.
  destruct (can_align_up_spec n align Ha Hc) as (k & Hk & -> & Hmax). destruct (pow2_le_u64 k Hk) as [H1 H2].
  unfold align_up. rewrite (wrap_u_id 64 (n + 2 ^ k - 1)) by (unfold in_u; lia).
  rewrite land_u64_lnot by (unfold in_u; lia).
  pose proof (Z.div_mod (n + 2 ^ k - 1) (2 ^ k) ltac:(lia)). pose proof (Z.mod_pos_bound (n + 2 ^ k - 1) (2 ^ k) ltac:(lia)).
  split_and!; [exists ((n + 2 ^ k - 1) / 2 ^ k); lia|lia|lia|].
  intros m [q ->] Hm. assert ((n + 2 ^ k - 1) / 2 ^ k <= q); [|nia].
  assert ((n + 2 ^ k - 1) / 2 ^ k < q + 1); [apply Z.div_lt_upper_bound; lia|lia].
Qed.

Lemma align_up_least_witness : 2097152 <= align_up 2097000 kHugePage < 2 ^ 64.
Proof. destruct (align_up_least 2097000 kHugePage) as (_ & H & _); [lia|done|done|]. split; [done|apply H]. Defined.

(** *** Layout *)

(** The address ranges of the arena's regions, in the order of the header. *)
Definition regions (a : Arena) : list (Z * Z) :=
  [(sp_ptr (ar_lob_flat a), sp_count (ar_lob_flat a) * sizeof_PriceLevel);
   (sp_ptr (ar_tick_slots a), sp_count (ar_tick_slots a) * sizeof_TickMsg);
   (sp_ptr (ar_feature_rows a), sp_count (ar_feature_rows a) * sizeof_FeatureRow);
   (sp_ptr (ar_signal_slots a), sp_count (ar_signal_slots a) * sizeof_SignalOutput);
   (sp_ptr (ar_exec_states a), sp_count (ar_exec_states a) * sizeof_SymbolExecState);
   (sp_ptr (ar_telem_slots a), sp_count (ar_telem_slots a) * sizeof_TelemSnapshot);
   (sp_ptr (ar_websocket_storage a), sp_count (ar_websocket_storage a));
   (default 0 (ar_ai_region a), ar_ai_region_size a)].

(** Consecutive ranges do not overlap and stay below [hi]. *)
Fixpoint packed (lo hi : Z) (l : list (Z * Z)) : Prop :=
  match l with
  | [] => lo <= hi
  | (p, n) :: l' => lo <= p /\ 0 <= n /\ packed (p + n) hi l'
  end.

(** Rewrite the slab sizes to their numerals. *)
Ltac slab_numbers :=
  unfold kGrandTotal, kAIRegion, kAIBudgetBytes, kSignalSlots, kSymbols, kLevelsPerSide, sizeof_PriceLevel, sizeof_TickMsg,
    sizeof_FeatureRow, sizeof_SignalOutput, sizeof_SymbolExecState, sizeof_TelemSnapshot in *;
  change kInfraTotal with 897581056 in *; change kLOB with 603979776 in *; change kTickRing with 268435456 in *;
  change kFeatures with 2621440 in *; change kSignals with 8192 in *; change kExecState with 2228224 in *;
  change kTelemetry with 8388608 in *; change kWebSocketControlPlane with 10240000 in *;
  change kTickCapacity with 4194304 in *; change kTelemCapacity with 65536 in *.

Lemma wire_packed mem m locked a :
  let total := match m with kFull => kGrandTotal | kInfrastructureOnly => kInfraTotal end in
  packed mem (mem + total) (take 7 (regions (wire mem total m locked a)))
  /\ (m = kFull -> packed mem (mem + total) (regions (wire mem total m locked a))).
Proof.
  intros total. subst total. unfold regions, wire.
  cbn [packed take default ar_lob_flat ar_tick_slots ar_feature_rows ar_signal_slots ar_exec_states ar_telem_slots
    ar_websocket_storage ar_ai_region ar_ai_region_size sp_ptr sp_count].
  change (kLOB / sizeof_PriceLevel) with 1048576.
  split; [destruct m|intros ->; cbn [packed default from_option id]]; slab_numbers; lia.
Qed.

Lemma wire_aligned mem m locked a :
  let total := match m with kFull => kGrandTotal | kInfrastructureOnly => kInfraTotal end in
  (kPageSize | mem) -> Forall (fun r => (kCacheLine | r.1)) (take 7 (regions (wire mem total m locked a))).
Proof.
  intros total [q ->]. subst total. unfold regions, wire. cbn [take]. unfold kPageSize, kCacheLine.
  repeat constructor; cbn [fst ar_lob_flat ar_tick_slots ar_feature_rows ar_signal_slots ar_exec_states ar_telem_slots
    ar_websocket_storage sp_ptr]; slab_numbers; apply Z.mod_divide; try lia; Z.div_mod_to_equations; lia.
Qed.

(** The reservation that [init] turns into the arena. *)
Lemma init_wires mmap mlock rq a a' :
  init mmap mlock rq a = (true, a') ->
  exists mem m locked, ar_base a = None /\
    a' = wire mem (match m with kFull => kGrandTotal | kInfrastructureOnly => kInfraTotal end) m locked a /\
    (mmap kGrandTotal = Some mem /\ m = kFull \/ mmap kInfraTotal = Some mem /\ m = kInfrastructureOnly).
Proof.
  unfold init, reserve. destruct (ar_base a); [done|]. case_if; [done|]. intros H.
  destruct (mmap kGrandTotal) as [mem|] eqn:E1; [|destruct (mmap kInfraTotal) as [mem|] eqn:E2; [|done]];
    destruct (mlock mem kInfraTotal); [|destruct rq; [done|]| |destruct rq; [done|]]; injection H as <-;
    first [by (exists mem, kFull; eexists; split_and!; [|reflexivity|auto])
          |by (exists mem, kInfrastructureOnly; eexists; split_and!; [|reflexivity|auto])].
Qed.

(** a successful [init] carves the reservation into regions that do not
    overlap, lie inside it and start on cache lines, and gives every
    (symbol, side, depth) its own price level inside the order-book slab. *)
Theorem arena_init_layout (mmap : Z -> option Z) (mlock : Z -> Z -> bool) (rq : bool) (a a' : Arena)
    (Hmmap : forall n p, mmap n = Some p -> (kPageSize | p))
    (Hinit : init mmap mlock rq a = (true, a')) :
  exists base, ar_base a' = Some base /\
    packed base (base + ar_total_size a') (take 7 (regions a')) /\
    (ai_capacity_available a' = true -> packed base (base + ar_total_size a') (regions a')) /\
    Forall (fun r => (kCacheLine | r.1)) (take 7 (regions a')) /\
    (forall s d l, 0 <= s < kSymbols -> 0 <= d < 2 -> 0 <= l < kLevelsPerSide ->
       base <= level_address a' s d l /\
       level_address a' s d l + sizeof_PriceLevel <= sp_ptr (ar_tick_slots a')) /\
    (forall s d l s2 d2 l2, 0 <= d < 2 -> 0 <= l < kLevelsPerSide -> 0 <= d2 < 2 -> 0 <= l2 < kLevelsPerSide ->
       level_address a' s d l = level_address a' s2 d2 l2 -> s = s2 /\ d = d2 /\ l = l2).
Proof.
  destruct (init_wires _ _ _ _ _ Hinit) as (mem & m & locked & _ & -> & Hm). exists mem.
  destruct (wire_packed mem m locked a) as [Hp1 Hp2].
  assert (Hal : (kPageSize | mem)) by (destruct Hm as [[Hm _]|[Hm _]]; by eapply Hmmap).
  split_and!; [done|done|intros Hai; apply Hp2; by destruct m|by apply wire_aligned|..];
    unfold level_address, wire; cbn [ar_lob_flat ar_tick_slots sp_ptr]; slab_numbers; lia.
Qed.

Lemma arena_init_layout_witness : exists a',
  init (fun n => if n =? kInfraTotal then Some 8192 else None) (fun _ _ => false) false empty_arena = (true, a')
  /\ level_address a' 0 0 0 = 8192 /\ 8192 <= level_address a' 511 1 1023.
Proof.
  eexists. split; [vm_compute; reflexivity|]. split; [vm_compute; reflexivity|].
  destruct (arena_init_layout (fun n => if n =? kInfraTotal then Some 8192 else None) (fun _ _ => false) false empty_arena
    (wire 8192 kInfraTotal kInfrastructureOnly false empty_arena)) as (base & Hb & _ & _ & _ & H & _).
  - intros n p E. destruct (n =? kInfraTotal); [|done]. injection E as <-. by exists 2.
  - vm_compute. reflexivity.
  - injection Hb as <-. destruct (H 511 1 1023); [done|done|done|]. vm_compute. done.
Defined.

(** [init] succeeds exactly when the arena is not yet mapped, one of the two
    reservations succeeds and, where residency is required, the region was
    locked; when it fails nothing stays mapped that was not mapped before, and
    [teardown] after a success allows another [init]. *)
Theorem arena_init_outcome (mmap : Z -> option Z) (mlock : Z -> Z -> bool) (rq : bool) (a : Arena) :
  let '(ok, a') := init mmap mlock rq a in
  ok = match ar_base a with
       | Some _ => false
       | None => match (match mmap kGrandTotal with Some p => Some p | None => mmap kInfraTotal end) with
                 | Some p => negb rq || mlock p kInfraTotal
                 | None => false
                 end
       end
  /\ (ok = false -> ar_base a' = ar_base a /\ ar_initialised a' = ar_initialised a)
  /\ (ok = true -> ar_initialised a' = true /\ (ar_ai_region a' = None <-> mmap kGrandTotal = None)
        /\ ar_base (teardown a') = None /\ ar_initialised (teardown a') = false).
Proof.
  unfold init, reserve. destruct (ar_base a) eqn:Eb; [by rewrite ?Eb; split_and!|].
  change (negb (can_align_up kInfraRaw kHugePage) || (kGrandTotal =? 0)) with false. cbn [negb orb].
  destruct (mmap kGrandTotal) as [p|] eqn:E1; [|destruct (mmap kInfraTotal) as [p|] eqn:E2; [|by cbn; rewrite ?Eb; split_and!]];
    destruct (mlock p kInfraTotal), rq; cbn; rewrite ?Eb; split_and!; done.
Qed.

(** Routing by the low bits of the symbol spreads the symbols evenly and the
    shards' slots do not overlap. *)
Lemma shard_for_symbol_range k s : 0 <= k -> shard_for_symbol (2 ^ k) s = s mod 2 ^ k.
Proof. intros. unfold shard_for_symbol, kShardMask. by apply land_mask. Qed.
