(* ===== verification/Reconcile.v ===== *)
(** * ReconciliationLedger (luv_safety.hpp): open orders and their remaining quantity

    An open-addressing table without tombstones: a cancelled entry is removed
    by re-inserting the entries that follow it.  The capacity is [2 ^ n]; the
    execution gateway uses the default of [2 ^ 16]. *)
From Stdlib Require Import ZArith Lia ZifyBool.
From S2P Require Import Prelude Probe.

Record ExecutionReport := mkExecReport {
  er_order_id : Z;          (* uint64_t *)
  er_filled_quantity : Z;   (* int64_t *)
  er_terminal : bool;
}.

Record Entry := mkEntry {
  en_order_id : Z;          (* uint64_t, 0 = free *)
  en_remaining : Z;         (* int64_t *)
}.

(** [Entry{}] *)
Definition no_entry : Entry := mkEntry 0 0.

Record ReconciliationLedger := mkLedger {
  rl_entries : gmap Z Entry;   (* std::array<Entry, Capacity> _entries, zero-filled *)
  rl_open : Z;                 (* uint32_t _open *)
  rl_mismatches : Z;           (* uint64_t _mismatches *)
}.

Definition fresh_ledger : ReconciliationLedger := mkLedger ∅ 0 0.

Module reconcile.
Section ops.
Context (n : Z).
Local Abbreviation Capacity := (2 ^ n).

Definition hash (key : Z) : Z :=
  let key := Z.lxor key (Z.shiftr key 30) in
  let key := u64 (key * 0xBF58476D1CE4E5B9) in
  let key := Z.lxor key (Z.shiftr key 27) in
  let key := u64 (key * 0x94D049BB133111EB) in
  let key := Z.lxor key (Z.shiftr key 31) in
  Z.land (u32 key) (Capacity - 1).

Definition entry_at (E : gmap Z Entry) (slot : Z) : Entry := sget no_entry E slot.
Definition id_at (E : gmap Z Entry) (slot : Z) : Z := en_order_id (entry_at E slot).

Definition find (order_id : Z) (E : gmap Z Entry) : option Z :=
  probe_find (id_at E) (Capacity - 1) order_id (Z.to_nat Capacity) (hash order_id).

Fixpoint find_or_empty_loop (order_id : Z) (E : gmap Z Entry) (fuel : nat) (slot : Z) : option Z :=
  match fuel with
  | O => None
  | S fuel =>
      if (id_at E slot =? order_id) || (id_at E slot =? 0) then Some slot
      else find_or_empty_loop order_id E fuel (Z.land (slot + 1) (Capacity - 1))
  end.

Definition find_or_empty (order_id : Z) (E : gmap Z Entry) : option Z :=
  find_or_empty_loop order_id E (Z.to_nat Capacity) (hash order_id).

(** One iteration of the while loop of [reinsert_cluster]: the table and the
    slot to look at next, or the table when the loop ends. *)
Definition reinsert_step (st : gmap Z Entry * Z) : (gmap Z Entry * Z) + gmap Z Entry :=
  let '(E, slot) := st in
  if id_at E slot =? 0 then inr E
  else
    let displaced := entry_at E slot in
    let E := <[slot := no_entry]> E in
    match find_or_empty (en_order_id displaced) E with
    | None => inr E
    | Some destination => inl (<[destination := displaced]> E, Z.land (slot + 1) (Capacity - 1))
    end.

(** Up to [2 ^ (3 n)] iterations, which is shown below to be enough for any
    table; [None] when they are not. *)
Definition reinsert_cluster (removed : Z) (E : gmap Z Entry) : option (gmap Z Entry) :=
  match run_pow (Z.to_nat (3 * n)) reinsert_step (E, Z.land (removed + 1) (Capacity - 1)) with
  | inr E => Some E
  | inl _ => None
  end.

Definition register_order (order_id quantity : Z) (L : ReconciliationLedger) : bool * ReconciliationLedger :=
  if (order_id =? 0) || (quantity <=? 0) then (false, L)
  else match find_or_empty order_id (rl_entries L) with
  | None => (false, L)
  | Some s =>
      if negb (id_at (rl_entries L) s =? 0) then (false, L)
      else (true, mkLedger (<[s := mkEntry order_id quantity]> (rl_entries L)) (u32 (rl_open L + 1)) (rl_mismatches L))
  end.

Definition replace (order_id new_quantity : Z) (L : ReconciliationLedger) : bool * ReconciliationLedger :=
  if (order_id =? 0) || (new_quantity <=? 0) then (false, L)
  else match find order_id (rl_entries L) with
  | None => (false, L)
  | Some s =>
      (true, mkLedger (<[s := mkEntry (id_at (rl_entries L) s) new_quantity]> (rl_entries L)) (rl_open L) (rl_mismatches L))
  end.

Definition mismatch (L : ReconciliationLedger) : ReconciliationLedger :=
  mkLedger (rl_entries L) (rl_open L) (u64 (rl_mismatches L + 1)).

Definition apply (report : ExecutionReport) (L : ReconciliationLedger) : bool * ReconciliationLedger :=
  if (er_order_id report =? 0) || (er_filled_quantity report <=? 0) then (false, L)
  else match find (er_order_id report) (rl_entries L) with
  | None => (false, mismatch L)
  | Some s =>
      let entry := entry_at (rl_entries L) s in
      if en_remaining entry <? er_filled_quantity report then (false, mismatch L)
      else
        let left_qty := en_remaining entry - er_filled_quantity report in
        if er_terminal report || (left_qty =? 0)
        then (true, mkLedger (<[s := no_entry]> (rl_entries L)) (u32 (rl_open L - 1)) (rl_mismatches L))
        else (true, mkLedger (<[s := mkEntry (en_order_id entry) left_qty]> (rl_entries L)) (rl_open L) (rl_mismatches L))
  end.

Definition contains (order_id : Z) (L : ReconciliationLedger) : bool :=
  negb (order_id =? 0) && (match find order_id (rl_entries L) with Some _ => true | None => false end).

Definition cancel (order_id : Z) (L : ReconciliationLedger) : option (bool * ReconciliationLedger) :=
  match find order_id (rl_entries L) with
  | None => Some (false, L)
  | Some s =>
      E ← reinsert_cluster s (<[s := no_entry]> (rl_entries L));
      Some (true, mkLedger E (u32 (rl_open L - 1)) (rl_mismatches L))
  end.

Definition open_orders (L : ReconciliationLedger) : Z := rl_open L.
Definition mismatches (L : ReconciliationLedger) : Z := rl_mismatches L.

End ops.
End reconcile.

(** ** Specification: a finite map from order id to remaining quantity *)
Inductive ledger_op :=
  | LRegister (order_id quantity : Z)
  | LReplace (order_id new_quantity : Z)
  | LApply (report : ExecutionReport)
  | LCancel (order_id : Z).

Definition ledger_run (n : Z) (op : ledger_op) (L : ReconciliationLedger) : option (bool * ReconciliationLedger) :=
  match op with
  | LRegister id q => Some (reconcile.register_order n id q L)
  | LReplace id q => Some (reconcile.replace n id q L)
  | LApply r => Some (reconcile.apply n r L)
  | LCancel id => reconcile.cancel n id L
  end.

Definition ledger_spec (op : ledger_op) (M : gmap Z Z) : bool * gmap Z Z :=
  match op with
  | LRegister id q =>
      if (id =? 0) || (q <=? 0) || bool_decide (is_Some (M !! id)) then (false, M) else (true, <[id := q]> M)
  | LReplace id q =>
      if (id =? 0) || (q <=? 0) || bool_decide (M !! id = None) then (false, M) else (true, <[id := q]> M)
  | LApply r =>
      match M !! er_order_id r with
      | Some rem =>
          if (er_order_id r =? 0) || (er_filled_quantity r <=? 0) || (rem <? er_filled_quantity r) then (false, M)
          else if er_terminal r || (rem =? er_filled_quantity r) then (true, delete (er_order_id r) M)
          else (true, <[er_order_id r := rem - er_filled_quantity r]> M)
      | None => (false, M)
      end
  | LCancel id => if bool_decide (is_Some (M !! id)) then (true, delete id M) else (false, M)
  end.

(** The calls for which the table keeps its probe chains: identifiers are not
    0, a slot stays free, and a fill leaves its order open (a complete fill
    clears the entry without re-inserting its cluster). *)
Definition ledger_admissible (n : Z) (op : ledger_op) (M : gmap Z Z) : bool :=
  match op with
  | LRegister id q => Z.of_nat (size M) + 1 <? 2 ^ n
  | LReplace id q => true
  | LApply r =>
      match M !! er_order_id r with
      | Some rem =>
          (er_filled_quantity r <=? 0) || (rem <? er_filled_quantity r)
          || negb (er_terminal r || (rem =? er_filled_quantity r))
      | None => true
      end
  | LCancel id => negb (id =? 0)
  end.

(** ** Table invariant *)
Section proofs.
Context (n : Z) (Hn : 0 <= n <= 31).
Local Abbreviation Capacity := (2 ^ n).
Implicit Types (E : gmap Z Entry) (M : gmap Z Z).
Import reconcile.

(** Entry by entry: the table stores the map, each key where its probe sequence
    finds it. *)
Record stores E M : Prop := {
  sto_sound s : 0 <= s < Capacity -> id_at E s <> 0 ->
    M !! id_at E s = Some (en_remaining (entry_at E s)) /\
    reachable n (id_at E) (hash n (id_at E s)) (id_at E s) Capacity s;
  sto_complete k v : M !! k = Some v -> k <> 0 /\ exists s, 0 <= s < Capacity /\ id_at E s = k;
}.

Lemma capacity_bounds : 1 <= Capacity <= 2 ^ 31.
Proof. split; [pose proof (Z.pow_pos_nonneg 2 n); lia|apply Z.pow_le_mono_r; lia]. Qed.

Lemma ledger_hash_range k : 0 <= hash n k < Capacity.
Proof. unfold hash. cbv zeta. rewrite land_mask by lia. apply Z.mod_pos_bound. pose proof capacity_bounds. lia. Qed.

Lemma id_at_insert E s x u : id_at (<[s := x]> E) u = if decide (s = u) then en_order_id x else id_at E u.
Proof. unfold id_at, entry_at. rewrite sget_insert. by destruct (decide (s = u)). Qed.

Lemma entry_at_insert E s x u : entry_at (<[s := x]> E) u = if decide (s = u) then x else entry_at E u.
Proof. apply sget_insert. Qed.

(** A key occupies one slot. *)
Lemma stores_unique E M s s' :
  stores E M -> 0 <= s < Capacity -> 0 <= s' < Capacity -> id_at E s <> 0 -> id_at E s = id_at E s' -> s = s'.
Proof.
  intros HS Hs Hs' Hne Eq. destruct (sto_sound _ _ HS s Hs Hne) as [_ R1].
  destruct (sto_sound _ _ HS s' Hs') as [_ R2]; [congruence|]. rewrite <- Eq in R2.
  by eapply reachable_unique.
Qed.

Lemma find_Some E k s : find n k E = Some s <-> id_at E s = k /\ reachable n (id_at E) (hash n k) k Capacity s.
Proof.
  unfold find. rewrite probe_find_Some by (lia || apply ledger_hash_range || (pose proof capacity_bounds; lia)).
  by rewrite Z2Nat.id by (pose proof capacity_bounds; lia).
Qed.

Lemma find_stored E M k : stores E M -> k <> 0 ->
  match find n k E with
  | Some s => 0 <= s < Capacity /\ id_at E s = k /\ M !! k = Some (en_remaining (entry_at E s))
  | None => M !! k = None
  end.
Proof.
  intros HS Hk. destruct (find n k E) as [s|] eqn:Ef.
  - apply find_Some in Ef as [Eid Hr]. pose proof (reachable_range n ltac:(lia) _ _ _ _ _ Hr).
    destruct (sto_sound _ _ HS s) as [HM _]; [done|congruence|]. by rewrite Eid in HM.
  - destruct (M !! k) as [v|] eqn:HM; [|done]. destruct (sto_complete _ _ HS k v HM) as (_ & s & Hs & Eid).
    destruct (sto_sound _ _ HS s Hs) as [_ Hr]; [congruence|]. rewrite Eid in Hr.
    assert (find n k E = Some s) by by apply find_Some. congruence.
Qed.

(** The scan of [find_or_empty] stops at the first slot that is free or holds
    the key. *)
Lemma find_or_empty_loop_spec E k fuel d :
  0 <= d -> clear_to n (id_at E) (hash n k) k d ->
  match find_or_empty_loop n k E fuel (probe_slot n (hash n k) d) with
  | Some s => exists d', d <= d' < d + Z.of_nat fuel /\ s = probe_slot n (hash n k) d' /\
                clear_to n (id_at E) (hash n k) k d' /\ (id_at E s = k \/ id_at E s = 0)
  | None => clear_to n (id_at E) (hash n k) k (d + Z.of_nat fuel)
  end.
Proof.
  revert d. induction fuel as [|fuel IH]; intros d Hd Hc; cbn [find_or_empty_loop].
  { by replace (d + Z.of_nat 0) with d by lia. }
  destruct ((id_at E (probe_slot n (hash n k) d) =? k) || (id_at E (probe_slot n (hash n k) d) =? 0)) eqn:Eb.
  { exists d. apply orb_true_iff in Eb. split_and!; [lia|lia|done|done|lia]. }
  apply orb_false_iff in Eb as [E1 E2]. rewrite probe_slot_next by lia.
  specialize (IH (d + 1) ltac:(lia)). replace (d + 1 + Z.of_nat fuel) with (d + Z.of_nat (S fuel)) in IH by lia.
  specialize (IH (clear_to_succ n _ _ _ _ Hd Hc ltac:(lia) ltac:(lia))).
  destruct (find_or_empty_loop _ _ _ _ _); [|done]. destruct IH as (d' & ? & IH). exists d'. split; [lia|done].
Qed.

Lemma find_or_empty_spec E k :
  match find_or_empty n k E with
  | Some s => exists d, 0 <= d < Capacity /\ s = probe_slot n (hash n k) d /\
                clear_to n (id_at E) (hash n k) k d /\ (id_at E s = k \/ id_at E s = 0)
  | None => clear_to n (id_at E) (hash n k) k Capacity
  end.
Proof.
  pose proof (find_or_empty_loop_spec E k (Z.to_nat Capacity) 0 ltac:(lia)) as H. pose proof capacity_bounds.
  rewrite probe_slot_0, Z2Nat.id, Z.add_0_l in H by (lia || apply ledger_hash_range). apply H. intros ??. lia.
Qed.

(** Every slot is a probe of every key. *)
Lemma probe_covers h s : 0 <= s < Capacity -> exists d, 0 <= d < Capacity /\ s = probe_slot n h d.
Proof.
  intros Hs. pose proof capacity_bounds. exists ((s - h) mod Capacity). split; [apply Z.mod_pos_bound; lia|].
  unfold probe_slot. rewrite Zplus_mod_idemp_r. replace (h + (s - h)) with s by lia. by rewrite Z.mod_small.
Qed.

(** With fewer keys than slots, some slot is free. *)
Lemma free_slot E M : stores E M -> Z.of_nat (size M) < Capacity -> exists e, 0 <= e < Capacity /\ id_at E e = 0.
Proof.
  intros HS Hsz. pose proof capacity_bounds.
  destruct (decide (Exists (fun s => id_at E s = 0) (zrange 0 (Z.to_nat Capacity)))) as [Hex|Hno].
  { apply Exists_exists in Hex as (e & He%elem_of_zrange & ?). exists e. split; [lia|done]. }
  exfalso. assert (Hocc : forall s, 0 <= s < Capacity -> id_at E s <> 0).
  { intros s Hs E0. apply Hno, Exists_exists. exists s. split; [apply elem_of_zrange; lia|done]. }
  set (l := id_at E <$> zrange 0 (Z.to_nat Capacity)).
  assert (Hnd : NoDup l).
  { apply NoDup_fmap_2_strong; [|apply (NoDup_fmap_2 _), NoDup_seq]. intros s s' Hs%elem_of_zrange Hs'%elem_of_zrange Eq.
    eapply stores_unique; [done|lia|lia| |done]. apply Hocc. lia. }
  assert (Hlen : length l = Z.to_nat Capacity) by (unfold l, zrange; by rewrite !length_fmap, length_seq).
  assert (length l <= size M)%nat; [|lia].
  rewrite <- (size_list_to_set (C := gset Z)) by done. rewrite <- (size_dom M). apply subseteq_size. intros k Hk.
  apply elem_of_list_to_set, list_elem_of_fmap in Hk as (s & -> & Hs%elem_of_zrange).
  apply elem_of_dom. destruct (sto_sound _ _ HS s) as [-> _]; [lia|apply Hocc; lia|done].
Qed.

(** *** Writing one slot *)
Lemma stores_put E M k q s d :
  stores E M -> k <> 0 -> M !! k = None -> 0 <= d < Capacity -> s = probe_slot n (hash n k) d ->
  clear_to n (id_at E) (hash n k) k d -> id_at E s = 0 ->
  stores (<[s := mkEntry k q]> E) (<[k := q]> M).
Proof.
  intros HS Hk HM Hd Es Hc Hfree.
  assert (Hs : 0 <= s < Capacity) by (subst s; apply probe_slot_range; lia).
  assert (Hid : forall u, id_at (<[s := mkEntry k q]> E) u = if decide (s = u) then k else id_at E u)
    by (intros; apply id_at_insert).
  split.
  - intros u Hu. rewrite Hid, entry_at_insert. destruct (decide (s = u)) as [<-|Hne]; intros Hnz.
    + rewrite lookup_insert_eq. split; [done|]. exists d. split_and!; [lia|lia|done|].
      intros d' Hd'. rewrite Hid. destruct (decide (s = _)) as [E'|]; [|by apply Hc].
      subst s. apply (probe_slot_inj n ltac:(lia)) in E'; lia.
    + destruct (sto_sound _ _ HS u Hu Hnz) as [HMu Hru].
      assert (k <> id_at E u) by (intros Ek; rewrite <- Ek in HMu; congruence). rewrite lookup_insert_ne by done. split; [done|].
      by eapply reachable_write.
  - intros k' v'. rewrite lookup_insert. destruct (decide (k = k')) as [<-|]; intros HM'.
    + split; [done|]. exists s. split; [done|]. by rewrite Hid, decide_True.
    + destruct (sto_complete _ _ HS k' v' HM') as (? & u & ? & Eu). split; [done|]. exists u. split; [done|].
      rewrite Hid, decide_False; [done|]. intros <-. congruence.
Qed.

Lemma stores_update E M s q :
  stores E M -> 0 <= s < Capacity -> id_at E s <> 0 ->
  stores (<[s := mkEntry (id_at E s) q]> E) (<[id_at E s := q]> M).
Proof.
  intros HS Hs Hne.
  assert (Hid : forall u, id_at (<[s := mkEntry (id_at E s) q]> E) u = id_at E u).
  { intros u. rewrite id_at_insert. by destruct (decide (s = u)) as [<-|]. }
  split.
  - intros u Hu. rewrite Hid, entry_at_insert. intros Hnz. destruct (sto_sound _ _ HS u Hu Hnz) as [HMu (d & ? & Ed & Hc)]. split.
    + destruct (decide (s = u)) as [<-|Hsu]; [by rewrite lookup_insert_eq|]. rewrite lookup_insert_ne; [done|].
      intros Eq. by apply Hsu, (stores_unique E M).
    + exists d. split_and!; [lia|lia|done|]. intros d' ?. rewrite Hid. by apply Hc.
  - intros k' v'. rewrite lookup_insert. destruct (decide (id_at E s = k')) as [<-|]; intros HM'.
    + split; [done|]. exists s. by rewrite Hid.
    + destruct (sto_complete _ _ HS k' v' HM') as (? & u & ? & Eu). split; [done|]. exists u. by rewrite Hid.
Qed.

(** *** Removing an entry and re-inserting its cluster

    Positions are counted from a free slot [e]: no probe sequence crosses it, so
    along the positions every key lies at or after its hash. *)
Section reinsert.
Context (e : Z).

Definition slot_of (p : Z) : Z := probe_slot n e p.
Definition home (k : Z) : Z := (hash n k - e) mod Capacity.

Lemma slot_of_home k d : slot_of (home k + d) = probe_slot n (hash n k) d.
Proof.
  unfold slot_of, home, probe_slot. replace (e + ((hash n k - e) mod Capacity + d)) with ((hash n k - e) mod Capacity + (e + d)) by lia.
  rewrite Zplus_mod_idemp_l. f_equal. lia.
Qed.

Lemma home_range k : 0 <= home k < Capacity.
Proof. apply Z.mod_pos_bound. pose proof capacity_bounds. lia. Qed.

Lemma slot_of_next p : Z.land (slot_of p + 1) (Capacity - 1) = slot_of (p + 1).
Proof. apply probe_slot_next. lia. Qed.

Lemma slot_of_inj p q : 0 <= p < Capacity -> 0 <= q < Capacity -> slot_of p = slot_of q -> p = q.
Proof. apply probe_slot_inj. lia. Qed.

Lemma slot_of_covers s : 0 <= s < Capacity -> exists p, 0 <= p < Capacity /\ s = slot_of p.
Proof. apply probe_covers. Qed.

Lemma slot_of_cycle : 0 <= e < Capacity -> slot_of Capacity = e /\ slot_of 0 = e.
Proof.
  intros He. unfold slot_of, probe_slot. rewrite Z.add_0_r, <- (Z.mul_1_l Capacity) at 1.
  rewrite Z.mod_add by (pose proof capacity_bounds; lia). by rewrite Z.mod_small.
Qed.

(** The loop invariant at position [p]: a chain may have holes only before [p],
    and only if its key lies at or after [p]. *)
Record mending E M (p : Z) : Prop := {
  md_free : id_at E e = 0;
  md_entry q : 0 <= q < Capacity -> id_at E (slot_of q) <> 0 ->
    M !! id_at E (slot_of q) = Some (en_remaining (entry_at E (slot_of q))) /\
    1 <= home (id_at E (slot_of q)) <= q /\
    forall t, home (id_at E (slot_of q)) <= t < q -> id_at E (slot_of t) <> 0 \/ (t < p /\ p <= q);
  md_unique q q' : 0 <= q < Capacity -> 0 <= q' < Capacity -> id_at E (slot_of q) <> 0 ->
    id_at E (slot_of q) = id_at E (slot_of q') -> q = q';
  md_complete k v : M !! k = Some v -> k <> 0 /\ exists q, 0 <= q < Capacity /\ id_at E (slot_of q) = k;
}.

(** No chain of a well-formed table crosses the free slot. *)
Lemma stores_linear E M q : 0 <= e < Capacity ->
  stores E M -> id_at E e = 0 -> 0 <= q < Capacity -> id_at E (slot_of q) <> 0 ->
  1 <= home (id_at E (slot_of q)) <= q /\
  forall t, home (id_at E (slot_of q)) <= t < q -> id_at E (slot_of t) <> 0.
Proof.
  intros He HS Hfree Hq Hne. pose proof (probe_slot_range n ltac:(lia) e q) as Hs.
  destruct (sto_sound _ _ HS (slot_of q) Hs Hne) as [_ (d & Hd & Ed & Hc)].
  set (k := id_at E (slot_of q)) in *. pose proof (home_range k) as Hh.
  destruct slot_of_cycle as [Ecyc Ezero]; [done|].
  assert (Hin : home k + d < Capacity).
  { destruct (Z.lt_ge_cases (home k + d) Capacity) as [|Hge]; [done|exfalso].
    assert (Ee : probe_slot n (hash n k) (Capacity - home k) = e).
    { rewrite <- slot_of_home. replace (home k + (Capacity - home k)) with Capacity by lia. done. }
    destruct (Z.eq_dec d (Capacity - home k)) as [Edk|].
    - rewrite <- Edk, <- Ed in Ee. unfold k in Hne. rewrite Ee in Hne. done.
    - destruct (Hc (Capacity - home k)) as [H0 _]; [lia|]. by rewrite Ee in H0. }
  rewrite <- slot_of_home in Ed. apply slot_of_inj in Ed; [|lia|lia].
  assert (Hall : forall t, home k <= t < q -> id_at E (slot_of t) <> 0); [|split; [|done]].
  2:{ destruct (Z.eq_dec (home k) 0) as [E0|]; [|lia]. exfalso. destruct (Z.eq_dec q 0) as [Eq|].
      - apply Hne. unfold k. by rewrite Eq, Ezero.
      - apply (Hall 0); [lia|]. by rewrite Ezero. }
  intros t Ht. destruct (Hc (t - home k)) as [H0 _]; [lia|]. rewrite <- slot_of_home in H0.
  by replace (home k + (t - home k)) with t in H0 by lia.
Qed.

Lemma mending_start E M r : 0 <= e < Capacity ->
  stores E M -> id_at E e = 0 -> 0 <= r < Capacity -> id_at E (slot_of r) <> 0 ->
  mending (<[slot_of r := no_entry]> E) (delete (id_at E (slot_of r)) M) (r + 1).
Proof.
  intros He HS Hfree Hr Hne.
  assert (Hid : forall q, 0 <= q < Capacity ->
    id_at (<[slot_of r := no_entry]> E) (slot_of q) = if decide (r = q) then 0 else id_at E (slot_of q)).
  { intros q Hq. rewrite id_at_insert. destruct (decide (slot_of r = slot_of q)) as [Eq|Eq].
    - apply slot_of_inj in Eq; [|done|done]. by rewrite decide_True.
    - rewrite decide_False; [done|]. by intros ->. }
  split.
  - rewrite id_at_insert. by destruct (decide (slot_of r = e)).
  - intros q Hq. rewrite Hid, entry_at_insert by done. destruct (decide (r = q)) as [|Hrq]; [done|]. intros Hnz.
    rewrite decide_False by (intros Eq; by apply slot_of_inj in Eq).
    destruct (stores_linear E M q He HS Hfree Hq Hnz) as [Hh Hp]. pose proof (home_range (id_at E (slot_of q))) as Hhr.
    assert (Hk : id_at E (slot_of r) <> id_at E (slot_of q)).
    { intros Eq. apply Hrq, (slot_of_inj r q); [done|done|].
      apply (stores_unique E M); [done|by apply probe_slot_range; lia|by apply probe_slot_range; lia|done|done]. }
    rewrite lookup_delete_ne by done. split; [|split; [done|]].
    + apply (sto_sound _ _ HS); [by apply probe_slot_range; lia|done].
    + intros t Ht. rewrite Hid by lia. destruct (decide (r = t)); [right; lia|left; apply Hp; lia].
  - intros q q' Hq Hq'. rewrite !Hid by done. destruct (decide (r = q)); [done|]. destruct (decide (r = q')); [intros; congruence|].
    intros Hnz Eq. apply (slot_of_inj q q'); [done|done|].
    apply (stores_unique E M); [done|by apply probe_slot_range; lia|by apply probe_slot_range; lia|done|done].
  - intros k v [Hk HM]%lookup_delete_Some. destruct (sto_complete _ _ HS k v HM) as (H0 & s & Hs & Es). split; [done|].
    destruct (slot_of_covers s Hs) as (q & Hq & ->). exists q. split; [done|]. rewrite Hid by done.
    rewrite decide_False; [done|]. intros ->. congruence.
Qed.

(** When the scan meets a free slot, all chains are whole again. *)
Lemma mending_end E M p : 0 <= e < Capacity ->
  mending E M p -> 0 < p <= Capacity -> id_at E (slot_of p) = 0 -> stores E M.
Proof.
  intros He Hm Hp Hz. split.
  - intros s Hs Hnz. destruct (slot_of_covers s Hs) as (q & Hq & ->).
    destruct (md_entry _ _ _ Hm q Hq Hnz) as (HM & Hh & Hpath). split; [done|].
    set (k := id_at E (slot_of q)) in *. pose proof (home_range k). exists (q - home k). split; [lia|]. split.
    { rewrite <- slot_of_home. f_equal. lia. }
    intros d' Hd'. rewrite <- slot_of_home. set (t := home k + d'). assert (Ht : home k <= t < q) by lia.
    assert (Hocc : id_at E (slot_of t) <> 0).
    { destruct (Hpath t Ht) as [|[Htp Hpq]]; [done|]. exfalso.
      destruct (Z.eq_dec q p) as [->|]; [done|]. destruct (Hpath p) as [?|[? ?]]; [lia|done|lia]. }
    split; [done|]. intros Ek. assert (t = q); [|lia]. by apply (md_unique _ _ _ Hm); [lia..|done|].
  - intros k v HM. destruct (md_complete _ _ _ Hm k v HM) as (? & q & Hq & Eq). split; [done|].
    exists (slot_of q). split; [by apply probe_slot_range; lia|done].
Qed.

(** The table after the entry at position [p] has moved to position [g]. *)
Lemma moved_entry E p g q : 0 <= p < Capacity -> 0 <= g < Capacity -> 0 <= q < Capacity ->
  entry_at (<[slot_of g := entry_at E (slot_of p)]> (<[slot_of p := no_entry]> E)) (slot_of q) =
  if decide (g = q) then entry_at E (slot_of p) else if decide (p = q) then no_entry else entry_at E (slot_of q).
Proof.
  intros Hp Hg Hq. rewrite !entry_at_insert.
  destruct (decide (slot_of g = slot_of q)) as [Eq|Eq]; [apply slot_of_inj in Eq; [|done|done]; by rewrite decide_True|].
  rewrite (decide_False (P := g = q)) by (by intros ->).
  destruct (decide (slot_of p = slot_of q)) as [Eq'|Eq']; [apply slot_of_inj in Eq'; [|done|done]; by rewrite decide_True|].
  rewrite (decide_False (P := p = q)) by (by intros ->). done.
Qed.

Lemma moved_id E p g q : 0 <= p < Capacity -> 0 <= g < Capacity -> 0 <= q < Capacity ->
  id_at (<[slot_of g := entry_at E (slot_of p)]> (<[slot_of p := no_entry]> E)) (slot_of q) =
  if decide (g = q) then id_at E (slot_of p) else if decide (p = q) then 0 else id_at E (slot_of q).
Proof.
  intros. unfold id_at at 1. rewrite moved_entry by done. destruct (decide (g = q)); [done|]. by destruct (decide (p = q)).
Qed.

(** Moving the entry at [p] to a free position [g], all positions from its home
    to [g] being occupied. *)
Lemma mending_move E M p g : 0 <= e < Capacity ->
  mending E M p -> 0 < p < Capacity -> id_at E (slot_of p) <> 0 ->
  home (id_at E (slot_of p)) <= g <= p -> (g <> p -> id_at E (slot_of g) = 0) ->
  (forall t, home (id_at E (slot_of p)) <= t < g -> id_at E (slot_of t) <> 0) ->
  mending (<[slot_of g := entry_at E (slot_of p)]> (<[slot_of p := no_entry]> E)) M (p + 1).
Proof.
  intros He Hm Hp Hnz Hg Hfree Hpath. destruct (md_entry _ _ _ Hm p ltac:(lia) Hnz) as (_ & Hr & _).
  assert (Hp' : 0 <= p < Capacity) by lia. assert (Hg' : 0 <= g < Capacity) by lia.
  split.
  - destruct slot_of_cycle as [_ Ez]; [done|]. pose proof (moved_id E p g 0) as H0. rewrite Ez in H0.
    rewrite H0, !decide_False by lia. apply Hm.
  - intros q Hq. rewrite moved_id, moved_entry by lia. destruct (decide (g = q)) as [<-|Hgq].
    + intros _. split; [by apply (md_entry _ _ _ Hm)|]. split; [lia|]. intros t Ht. left. rewrite moved_id by lia.
      rewrite !decide_False by lia. by apply Hpath.
    + destruct (decide (p = q)) as [|Hpq]; [done|]. intros Hq0. destruct (md_entry _ _ _ Hm q Hq Hq0) as (HMq & Hhq & Hpq').
      pose proof (home_range (id_at E (slot_of q))). split; [done|]. split; [done|]. intros t Ht. rewrite moved_id by lia.
      destruct (decide (g = t)); [by left|]. destruct (Hpq' t Ht) as [Ho|Ho]; destruct (decide (p = t)); [right; lia|by left|lia|right; lia].
  - intros q q' Hq Hq'. rewrite !moved_id by lia. destruct (decide (g = q)) as [<-|Hgq], (decide (g = q')) as [<-|Hgq']; try done.
    + destruct (decide (p = q')) as [<-|Hpq]; [congruence|]. intros _ Eq. destruct Hpq. by apply (md_unique _ _ _ Hm).
    + destruct (decide (p = q)) as [<-|Hpq]; [done|]. intros _ Eq. destruct Hpq. by apply (md_unique _ _ _ Hm).
    + destruct (decide (p = q)) as [<-|], (decide (p = q')) as [<-|]; try done. intros Hq0 Eq. by apply (md_unique _ _ _ Hm).
  - intros k v HM. destruct (md_complete _ _ _ Hm k v HM) as (H0 & q & Hq & Eq). split; [done|].
    destruct (decide (q = p)) as [->|Hqp].
    + exists g. split; [done|]. by rewrite moved_id, decide_True by lia.
    + exists q. split; [done|]. rewrite moved_id by lia. rewrite (decide_False (P := p = q)) by done.
      rewrite decide_False; [done|]. intros ->. rewrite Hfree in Eq by done. congruence.
Qed.

(** One iteration: the displaced entry goes to the first free position from its
    home, which is not after its old one. *)
Lemma mending_step E M p : 0 <= e < Capacity ->
  mending E M p -> 0 < p < Capacity -> id_at E (slot_of p) <> 0 ->
  exists dst, find_or_empty n (id_at E (slot_of p)) (<[slot_of p := no_entry]> E) = Some dst /\
    mending (<[dst := entry_at E (slot_of p)]> (<[slot_of p := no_entry]> E)) M (p + 1).
Proof.
  intros He Hm Hp Hnz. set (y := id_at E (slot_of p)) in *. set (E1 := <[slot_of p := no_entry]> E).
  destruct (md_entry _ _ _ Hm p ltac:(lia) Hnz) as (_ & Hhy & _). fold y in Hhy. pose proof (home_range y) as Hr.
  assert (Hid1 : forall q, 0 <= q < Capacity -> id_at E1 (slot_of q) = if decide (p = q) then 0 else id_at E (slot_of q)).
  { intros q Hq. unfold E1. rewrite id_at_insert. destruct (decide (slot_of p = slot_of q)) as [Eq|Eq].
    - apply slot_of_inj in Eq; [|lia|done]. by rewrite decide_True.
    - rewrite decide_False; [done|]. by intros ->. }
  assert (Hstop : forall d, p - home y < d -> ~ clear_to n (id_at E1) (hash n y) y d).
  { intros d Hd Hc. destruct (Hc (p - home y)) as [H0 _]; [lia|]. rewrite <- slot_of_home in H0.
    replace (home y + (p - home y)) with p in H0 by lia. by rewrite Hid1, decide_True in H0 by (lia || done). }
  pose proof (find_or_empty_spec E1 y) as Hf. destruct (find_or_empty n y E1) as [dst|]; [|by apply Hstop in Hf; lia].
  exists dst. split; [done|]. destruct Hf as (d & Hd & -> & Hc & Hfree). rewrite <- slot_of_home in *.
  assert (Hdp : home y + d <= p) by (destruct (Z.le_gt_cases (home y + d) p); [done|]; by apply Hstop in Hc; lia).
  set (g := home y + d) in *.
  assert (Hpath : forall t, home y <= t < g -> id_at E (slot_of t) <> 0).
  { intros t Ht. destruct (Hc (t - home y)) as [H0 _]; [lia|]. rewrite <- slot_of_home in H0.
    replace (home y + (t - home y)) with t in H0 by lia. by rewrite Hid1, decide_False in H0 by lia. }
  rewrite Hid1 in Hfree by lia.
  apply mending_move; [done|done|done|done|unfold g; fold y; lia| |by fold y].
  intros Hgp. rewrite decide_False in Hfree by done. destruct Hfree as [Hbad|]; [|done]. destruct Hgp.
  apply (md_unique _ _ _ Hm); [lia|lia|congruence|done].
Qed.

(** The position of a slot, in [1, Capacity]. *)
Definition pos_of (s : Z) : Z := (s - e - 1) mod Capacity + 1.

Lemma pos_of_slot p : 0 < p <= Capacity -> pos_of (slot_of p) = p.
Proof.
  intros Hp. unfold pos_of, slot_of, probe_slot. rewrite <- Z.sub_add_distr, Zminus_mod_idemp_l.
  replace (e + p - (e + 1)) with (p - 1) by lia. rewrite Z.mod_small by lia. lia.
Qed.

(** The loop from position [p] on: each iteration advances, and position
    [Capacity] is the free slot [e]. *)
Lemma reinsert_run E M p k : 0 <= e < Capacity ->
  mending E M p -> 0 < p <= Capacity -> Capacity - p < 2 ^ Z.of_nat k ->
  exists E', run_pow k (reinsert_step n) (E, slot_of p) = inr E' /\ stores E' M.
Proof.
  intros He Hm Hp Hk.
  apply (run_pow_spec _ (fun st => exists p, st.2 = slot_of p /\ mending st.1 M p /\ 0 < p <= Capacity)
    (fun E' => stores E' M) (fun st => Capacity - pos_of st.2)).
  - clear E p Hm Hp Hk. intros [E s] (p & Es & Hm & Hp). cbn [fst snd reinsert_step] in *. subst s.
    destruct (Z.eqb_spec (id_at E (slot_of p)) 0) as [Hz|Hnz]; [by apply (mending_end E M p)|].
    assert (p <> Capacity) by (intros ->; apply Hnz; destruct slot_of_cycle as [-> _]; [done|apply Hm]).
    destruct (mending_step E M p He Hm ltac:(lia) Hnz) as (dst & Ef & Hm'). fold (id_at E (slot_of p)). rewrite Ef.
    rewrite slot_of_next. cbn [fst snd]. rewrite !pos_of_slot by lia. split; [|lia]. exists (p + 1). split_and!; [done|done|lia|lia].
  - intros [E' s] (q & Es & _ & Hq). cbn [snd] in *. subst s. rewrite pos_of_slot by done. lia.
  - exists p. done.
  - cbn [snd]. by rewrite pos_of_slot.
Qed.

End reinsert.

(** Removing an entry when another slot is free: the loop ends within one round
    and the table stores the map without the key. *)
Lemma remove_stores E M s :
  stores E M -> Z.of_nat (size M) < Capacity -> 0 <= s < Capacity -> id_at E s <> 0 ->
  exists E', reinsert_cluster n s (<[s := no_entry]> E) = Some E' /\ stores E' (delete (id_at E s) M).
Proof.
  intros HS Hsz Hs Hne. destruct (free_slot E M HS Hsz) as (e & He & Hfree).
  destruct (slot_of_covers e s Hs) as (r & Hr & ->). unfold reinsert_cluster. rewrite slot_of_next.
  pose proof capacity_bounds. destruct (reinsert_run e (<[slot_of e r := no_entry]> E) (delete (id_at E (slot_of e r)) M) (r + 1) (Z.to_nat (3 * n)))
    as (E' & -> & HS'); [done|by apply mending_start|lia| |by exists E'].
  rewrite Z2Nat.id by lia. assert (Capacity <= 2 ^ (3 * n)) by (apply Z.pow_le_mono_r; lia). lia.
Qed.

(** *** Termination on any table

    Each iteration leaves the entry where it is, and the scan comes closer to a
    free slot, or moves it closer to its hash. *)
Definition displacement E s : Z := if id_at E s =? 0 then 0 else (s - hash n (id_at E s)) mod Capacity.
Definition total_displacement E : Z := zsum (displacement E <$> zrange 0 (Z.to_nat Capacity)).

(** How far the scan from a slot is from a free one. *)
Fixpoint free_distance E (fuel : nat) (slot : Z) : Z :=
  match fuel with
  | O => 0
  | S fuel => if id_at E slot =? 0 then 0 else 1 + free_distance E fuel (Z.land (slot + 1) (Capacity - 1))
  end.

Definition has_free E : Prop := exists e, 0 <= e < Capacity /\ id_at E e = 0.

Lemma free_distance_ext E E' fuel slot : (forall u, id_at E u = id_at E' u) -> free_distance E fuel slot = free_distance E' fuel slot.
Proof. intros H. revert slot. induction fuel as [|fuel IH]; intros slot; cbn [free_distance]; [done|]. by rewrite H, IH. Qed.

Lemma free_distance_nonneg E fuel slot : 0 <= free_distance E fuel slot.
Proof. revert slot. induction fuel as [|fuel IH]; intros slot; cbn [free_distance]; [lia|]. pose proof (IH (Z.land (slot + 1) (Capacity - 1))). case_if; lia. Qed.

Lemma free_distance_le E fuel s d d0 : 0 <= d0 <= d -> d < d0 + Z.of_nat fuel ->
  id_at E (probe_slot n s d) = 0 -> free_distance E fuel (probe_slot n s d0) <= d - d0.
Proof.
  revert d0. induction fuel as [|fuel IH]; intros d0 Hd Hf Hz; [lia|]. cbn [free_distance].
  destruct (Z.eqb_spec (id_at E (probe_slot n s d0)) 0); [lia|]. rewrite probe_slot_next by lia.
  destruct (Z.eq_dec d0 d) as [->|]; [done|]. pose proof (IH (d0 + 1) ltac:(lia) ltac:(lia) Hz). lia.
Qed.

Lemma free_distance_S E fuel slot : free_distance E (S fuel) slot =
  if id_at E slot =? 0 then 0 else 1 + free_distance E fuel (Z.land (slot + 1) (Capacity - 1)).
Proof. done. Qed.

Lemma free_distance_more E fuel slot : free_distance E fuel slot < Z.of_nat fuel ->
  free_distance E (S fuel) slot = free_distance E fuel slot.
Proof.
  revert slot. induction fuel as [|fuel IH]; intros slot Hlt; [cbn in Hlt; lia|].
  rewrite (free_distance_S E fuel slot) in Hlt. rewrite (free_distance_S E (S fuel) slot), (free_distance_S E fuel slot).
  destruct (id_at E slot =? 0); [done|]. rewrite IH by lia. done.
Qed.

(** The scan ahead of an occupied slot is one shorter. *)
Lemma free_distance_next E slot : has_free E -> 0 <= slot < Capacity -> id_at E slot <> 0 ->
  free_distance E (Z.to_nat Capacity) (Z.land (slot + 1) (Capacity - 1)) < free_distance E (Z.to_nat Capacity) slot.
Proof.
  intros (e & He & Hz) Hs Hne. pose proof capacity_bounds. destruct (probe_covers slot e He) as (d & Hd & ->).
  pose proof (free_distance_le E (Z.to_nat Capacity) slot d 0 ltac:(lia) ltac:(lia) Hz) as Hle. rewrite probe_slot_0 in Hle by done.
  destruct (Z.to_nat Capacity) as [|f] eqn:Ef; [lia|]. cbn [free_distance] in Hle. destruct (Z.eqb_spec (id_at E slot) 0); [done|].
  rewrite free_distance_more by lia. cbn [free_distance]. destruct (Z.eqb_spec (id_at E slot) 0); lia.
Qed.

Lemma displacement_range E s : 0 <= displacement E s <= Capacity - 1.
Proof.
  unfold displacement. pose proof capacity_bounds. case_if; [lia|]. pose proof (Z.mod_pos_bound (s - hash n (id_at E s)) Capacity ltac:(lia)). lia.
Qed.

Lemma displacement_at E s k d : 0 <= d < Capacity -> s = probe_slot n (hash n k) d -> id_at E s = k -> k <> 0 -> displacement E s = d.
Proof.
  intros Hd -> Hk Hk0. unfold displacement. rewrite Hk. destruct (Z.eqb_spec k 0); [done|]. unfold probe_slot.
  rewrite Zminus_mod_idemp_l. replace (hash n k + d - hash n k) with d by lia. by apply Z.mod_small.
Qed.

Lemma total_displacement_range E : 0 <= total_displacement E <= (Capacity - 1) * Capacity.
Proof.
  pose proof capacity_bounds. unfold total_displacement. split.
  - etrans; [|apply (zsum_le (fun _ => 0)); intros; apply displacement_range]. rewrite zsum_const. lia.
  - etrans; [apply (zsum_le _ (fun _ => Capacity - 1)); intros; apply displacement_range|]. rewrite zsum_const, length_zrange. lia.
Qed.

Lemma total_displacement_insert E s x : 0 <= s < Capacity ->
  total_displacement (<[s := x]> E) = total_displacement E + displacement (<[s := x]> E) s - displacement E s.
Proof.
  intros Hs. apply (zsum_update _ _ _ s); [apply NoDup_zrange|apply elem_of_zrange; lia|].
  intros y Hy. unfold displacement. by rewrite id_at_insert, decide_False.
Qed.

(** One iteration. *)
Lemma reinsert_step_decreases E slot : has_free E -> 0 <= slot < Capacity ->
  match reinsert_step n (E, slot) with
  | inr _ => True
  | inl (E', slot') => has_free E' /\ 0 <= slot' < Capacity /\
      (total_displacement E' < total_displacement E \/
       total_displacement E' = total_displacement E /\
       free_distance E' (Z.to_nat Capacity) slot' < free_distance E (Z.to_nat Capacity) slot)
  end.
Proof.
  intros Hfree Hs. cbn [reinsert_step]. destruct (Z.eqb_spec (id_at E slot) 0) as [|Hne]; [done|].
  fold (id_at E slot). set (k := id_at E slot) in *. set (E1 := <[slot := no_entry]> E).
  destruct (probe_covers (hash n k) slot Hs) as (d0 & Hd0 & Eslot).
  assert (Hz1 : id_at E1 slot = 0) by (unfold E1; by rewrite id_at_insert, decide_True).
  pose proof (find_or_empty_spec E1 k) as Hf. destruct (find_or_empty n k E1) as [dst|]; [|done].
  destruct Hf as (d & Hd & Edst & Hc & Hdst).
  assert (Hle : d <= d0).
  { destruct (Z.le_gt_cases d d0); [done|]. destruct (Hc d0) as [H0 _]; [lia|]. by rewrite <- Eslot in H0. }
  assert (Hnext : 0 <= Z.land (slot + 1) (Capacity - 1) < Capacity).
  { rewrite land_mask by lia. apply Z.mod_pos_bound. pose proof capacity_bounds. lia. }
  assert (Hdr : 0 <= dst < Capacity) by (subst dst; apply probe_slot_range; lia).
  assert (Hdisp : displacement E slot = d0) by (by apply (displacement_at E slot k)).
  destruct (Z.eq_dec d d0) as [->|Hlt].
  - assert (dst = slot) as -> by congruence.
    assert (Hid : forall u, id_at (<[slot := entry_at E slot]> E1) u = id_at E u).
    { intros u. unfold E1. rewrite !id_at_insert. by destruct (decide (slot = u)) as [<-|]. }
    split_and!; [destruct Hfree as (e & ? & ?); exists e; by rewrite Hid|lia|lia|].
    right. split.
    + apply zsum_ext. intros u _. unfold displacement. by rewrite Hid.
    + rewrite (free_distance_ext _ E) by apply Hid. by apply free_distance_next.
  - assert (Hds : dst <> slot).
    { intros Eq. apply Hlt. apply (probe_slot_inj n ltac:(lia) (hash n k)); [lia|lia|congruence]. }
    split_and!; [|lia|lia|left].
    + exists slot. split; [done|]. by rewrite id_at_insert, decide_False.
    + rewrite total_displacement_insert by done. unfold E1 at 1. rewrite total_displacement_insert by done. fold E1. rewrite Hdisp.
      assert (H1 : displacement E1 slot = 0) by (unfold displacement; by rewrite Hz1).
      assert (H2 : displacement (<[dst := entry_at E slot]> E1) dst = d).
      { apply (displacement_at _ dst k); [done|done| |done]. by rewrite id_at_insert, decide_True. }
      pose proof (displacement_range E1 dst). lia.
Qed.

Lemma reinsert_returns E slot : has_free E -> 0 <= slot < Capacity ->
  exists E', run_pow (Z.to_nat (3 * n)) (reinsert_step n) (E, slot) = inr E'.
Proof.
  intros Hfree Hs. pose proof capacity_bounds.
  set (mu := fun st : gmap Z Entry * Z => total_displacement st.1 * Capacity + free_distance st.1 (Z.to_nat Capacity) st.2).
  assert (Hb : forall st, has_free st.1 -> 0 <= st.2 < Capacity -> 0 <= mu st <= total_displacement st.1 * Capacity + Capacity - 1).
  { intros [E0 s0] (e & He & Hz) H0. unfold mu. cbn [fst snd] in *. pose proof (total_displacement_range E0).
    pose proof (free_distance_nonneg E0 (Z.to_nat Capacity) s0). destruct (probe_covers s0 e He) as (d & Hd & ->).
    pose proof (free_distance_le E0 (Z.to_nat Capacity) s0 d 0 ltac:(lia) ltac:(lia) Hz) as Hle. rewrite probe_slot_0 in Hle by done. nia. }
  destruct (run_pow_spec (reinsert_step n) (fun st => has_free st.1 /\ 0 <= st.2 < Capacity) (fun _ => True) mu)
    with (k := Z.to_nat (3 * n)) (s := (E, slot)) as (E' & HE' & _); [| |done| |by exists E'].
  - intros [E0 s0] [H1 H2]. pose proof (reinsert_step_decreases E0 s0 H1 H2) as Hstep. destruct (reinsert_step n (E0, s0)) as [[E1 s1]|]; [|done].
    destruct Hstep as (H3 & H4 & H5). split; [done|]. pose proof (Hb (E1, s1) H3 H4). unfold mu in *. cbn [fst snd] in *.
    pose proof (free_distance_nonneg E0 (Z.to_nat Capacity) s0). destruct H5 as [H5|[-> H5]]; [|lia]. nia.
  - intros st [H1 H2]. by apply Hb.
  - pose proof (Hb (E, slot) Hfree Hs) as Hmu. cbn [fst] in Hmu. pose proof (total_displacement_range E).
    rewrite Z2Nat.id by lia. replace (3 * n) with (n + n + n) by lia. rewrite !Z.pow_add_r by lia. nia.
Qed.

(** Every operation returns, whatever the table holds. *)
Lemma cancel_returns id L : exists r, cancel n id L = Some r.
Proof.
  unfold cancel. destruct (find n id (rl_entries L)) as [s|] eqn:Ef; [|by eexists].
  apply find_Some in Ef as [_ Hr]. pose proof (reachable_range n ltac:(lia) _ _ _ _ _ Hr) as Hs. unfold reinsert_cluster.
  assert (Hnext : 0 <= Z.land (s + 1) (Capacity - 1) < Capacity).
  { rewrite land_mask by lia. apply Z.mod_pos_bound. pose proof capacity_bounds. lia. }
  destruct (reinsert_returns (<[s := no_entry]> (rl_entries L)) (Z.land (s + 1) (Capacity - 1))) as [E' ->]; [|done|by eexists].
  exists s. split; [done|]. by rewrite id_at_insert, decide_True.
Qed.

(** *** The ledger *)
Record ledger_ok (L : ReconciliationLedger) M : Prop := {
  lo_stores : stores (rl_entries L) M;
  lo_open : rl_open L = Z.of_nat (size M);
  lo_room : Z.of_nat (size M) < Capacity;
}.

Lemma fresh_ledger_ok : ledger_ok fresh_ledger ∅.
Proof.
  split; [split| |].
  - intros s _ Hne. destruct Hne. unfold id_at, entry_at, sget. simpl. by rewrite lookup_empty.
  - intros k v. by rewrite lookup_empty.
  - done.
  - rewrite map_size_empty. pose proof capacity_bounds. lia.
Qed.

Lemma mismatch_ok L M : ledger_ok L M -> ledger_ok (mismatch L) M.
Proof. intros []. by split. Qed.

Lemma u32_small z : 0 <= z <= Capacity -> u32 z = z.
Proof. intros. pose proof capacity_bounds. assert (2 ^ 31 < 2 ^ 32) by done. apply wrap_u_id. unfold in_u. lia. Qed.

(** What one call must do. *)
Definition ledger_simulates (op : ledger_op) L M : Prop :=
  exists L', ledger_run n op L = Some ((ledger_spec op M).1, L') /\ ledger_ok L' (ledger_spec op M).2.

Lemma register_sim id q L M :
  ledger_ok L M -> ledger_admissible n (LRegister id q) M = true -> ledger_simulates (LRegister id q) L M.
Proof.
  intros HL Hadm. unfold ledger_simulates. cbn [ledger_run ledger_spec ledger_admissible] in *. unfold register_order.
  destruct ((id =? 0) || (q <=? 0)) eqn:Eg; cbn [orb]; [by eexists|].
  apply orb_false_iff in Eg as [Eid Eq]. pose proof (find_or_empty_spec (rl_entries L) id) as Hf.
  pose proof (lo_stores _ _ HL) as HS. destruct (find_or_empty n id (rl_entries L)) as [s|].
  - destruct Hf as (d & Hd & Es & Hc & Hs). assert (Hrange : 0 <= s < Capacity) by (subst s; apply probe_slot_range; lia).
    destruct (Z.eqb_spec (id_at (rl_entries L) s) 0) as [Hz|Hz]; cbn [negb].
    + assert (HM : M !! id = None).
      { pose proof (find_stored _ _ id HS ltac:(lia)) as Hfi. destruct (find n id (rl_entries L)) as [s'|] eqn:Ef; [|done].
        exfalso. apply find_Some in Ef as [Ei (d' & Hd' & -> & Hc')]. destruct (Z.lt_total d' d) as [?|[->|?]].
        - destruct (Hc d'); [lia|done].
        - subst s. lia.
        - destruct (Hc' d); [lia|]. subst s. done. }
      rewrite bool_decide_false by (rewrite HM; by intros [? ?]). eexists. split; [done|].
      pose proof (lo_room _ _ HL). pose proof (lo_open _ _ HL). split; cbn [rl_entries rl_open snd].
      * eapply stores_put; [done|lia|done|exact Hd|done|done|done].
      * rewrite map_size_insert_None by done. rewrite u32_small by lia. lia.
      * rewrite map_size_insert_None by done. lia.
    + destruct Hs as [Hs|]; [|done]. destruct (sto_sound _ _ HS s Hrange Hz) as [HM _]. rewrite Hs in HM.
      rewrite bool_decide_true by (by eexists). by eexists.
  - exfalso. destruct (free_slot _ _ HS (lo_room _ _ HL)) as (e & He & Hfree).
    destruct (probe_covers (hash n id) e He) as (d & Hd & ->). by destruct (Hf d Hd).
Qed.

Lemma replace_sim id q L M : ledger_ok L M -> ledger_simulates (LReplace id q) L M.
Proof.
  intros HL. unfold ledger_simulates. cbn [ledger_run ledger_spec]. unfold replace.
  destruct ((id =? 0) || (q <=? 0)) eqn:Eg; cbn [orb]; [by eexists|].
  apply orb_false_iff in Eg as [Eid Eq]. pose proof (find_stored _ _ id (lo_stores _ _ HL) ltac:(lia)) as Hf.
  destruct (find n id (rl_entries L)) as [s|]; [|rewrite bool_decide_true by done; by eexists].
  destruct Hf as (Hs & Ei & HM). rewrite bool_decide_false by congruence. eexists. split; [done|].
  split; cbn [rl_entries rl_open snd].
  - rewrite <- Ei. apply stores_update; [apply HL|done|lia].
  - rewrite map_size_insert_Some by by eexists. apply HL.
  - rewrite map_size_insert_Some by by eexists. apply HL.
Qed.

Lemma fill_sim r L M :
  ledger_ok L M -> ledger_admissible n (LApply r) M = true -> ledger_simulates (LApply r) L M.
Proof.
  intros HL. unfold ledger_simulates. cbn [ledger_run ledger_spec ledger_admissible]. unfold apply.
  destruct ((er_order_id r =? 0) || (er_filled_quantity r <=? 0)) eqn:Eg; cbn [orb].
  { intros _. destruct (M !! er_order_id r); by eexists. }
  apply orb_false_iff in Eg as [Eid Eq]. rewrite Eq. cbn [orb].
  pose proof (find_stored _ _ (er_order_id r) (lo_stores _ _ HL) ltac:(lia)) as Hf.
  destruct (find n (er_order_id r) (rl_entries L)) as [s|].
  2:{ rewrite Hf. intros _. eexists. split; [done|]. by apply mismatch_ok. }
  destruct Hf as (Hs & Ei & HM). rewrite HM. set (rem := en_remaining _).
  destruct (Z.ltb_spec rem (er_filled_quantity r)); cbn [orb]; [intros _; eexists; split; [done|by apply mismatch_ok]|].
  intros Hadm%negb_true_iff. replace (rem - er_filled_quantity r =? 0) with (rem =? er_filled_quantity r) by lia. rewrite Hadm.
  eexists. split; [done|]. fold (id_at (rl_entries L) s). split; cbn [rl_entries rl_open snd].
  - rewrite <- Ei. apply stores_update; [apply HL|done|lia].
  - rewrite map_size_insert_Some by by eexists. apply HL.
  - rewrite map_size_insert_Some by by eexists. apply HL.
Qed.

Lemma cancel_sim id L M : ledger_ok L M -> ledger_admissible n (LCancel id) M = true -> ledger_simulates (LCancel id) L M.
Proof.
  intros HL Hadm. unfold ledger_simulates. cbn [ledger_run ledger_spec ledger_admissible] in *. unfold cancel.
  pose proof (find_stored _ _ id (lo_stores _ _ HL) ltac:(lia)) as Hf.
  destruct (find n id (rl_entries L)) as [s|]; [|rewrite bool_decide_false by (rewrite Hf; by intros [? ?]); by eexists].
  destruct Hf as (Hs & Ei & HM). rewrite bool_decide_true by by eexists.
  destruct (remove_stores _ _ s (lo_stores _ _ HL) (lo_room _ _ HL) Hs ltac:(lia)) as (E' & -> & HS'). rewrite Ei in HS'.
  eexists. split; [done|]. pose proof (lo_room _ _ HL). pose proof (lo_open _ _ HL).
  assert (Hsz : size (delete id M) = Nat.pred (size M)) by (by apply map_size_delete_Some; eexists).
  assert (size M <> 0%nat) by (intros E0; apply map_size_empty_inv in E0; by rewrite E0, lookup_empty in HM).
  split; cbn [rl_entries rl_open snd]; [done| |lia]. rewrite u32_small by lia. lia.
Qed.

Lemma ledger_step_sim op L M : ledger_ok L M -> ledger_admissible n op M = true -> ledger_simulates op L M.
Proof. destruct op; [apply register_sim|intros; by apply replace_sim|apply fill_sim|apply cancel_sim]. Qed.

End proofs.

(** ** Histories *)
Fixpoint ledger_history (n : Z) (ops : list ledger_op) (L : ReconciliationLedger) : option (list bool * ReconciliationLedger) :=
  match ops with
  | [] => Some ([], L)
  | op :: ops =>
      '(ok, L) ← ledger_run n op L;
      '(oks, L) ← ledger_history n ops L;
      Some (ok :: oks, L)
  end.

Fixpoint ledger_history_spec (ops : list ledger_op) (M : gmap Z Z) : list bool * gmap Z Z :=
  match ops with
  | [] => ([], M)
  | op :: ops => let '(ok, M) := ledger_spec op M in let '(oks, M) := ledger_history_spec ops M in (ok :: oks, M)
  end.

Fixpoint ledger_history_admissible (n : Z) (ops : list ledger_op) (M : gmap Z Z) : bool :=
  match ops with
  | [] => true
  | op :: ops => ledger_admissible n op M && ledger_history_admissible n ops (ledger_spec op M).2
  end.

Lemma ledger_history_sim n ops L M : 0 <= n <= 31 ->
  ledger_ok n L M -> ledger_history_admissible n ops M = true ->
  exists L', ledger_history n ops L = Some ((ledger_history_spec ops M).1, L') /\ ledger_ok n L' (ledger_history_spec ops M).2.
Proof.
  intros Hn. revert L M. induction ops as [|op ops IH]; intros L M HL Hadm; [by eexists|].
  cbn [ledger_history ledger_history_spec ledger_history_admissible] in *. apply andb_true_iff in Hadm as [H1 H2].
  destruct (ledger_step_sim n Hn op L M HL H1) as (L1 & -> & HL1). cbn [mbind option_bind].
  destruct (ledger_spec op M) as [ok M1]. cbn [fst snd] in *. destruct (IH L1 M1 HL1 H2) as (L2 & -> & HL2).
  cbn [mbind option_bind]. destruct (ledger_history_spec ops M1). by eexists.
Qed.

(** C12: the reconciliation ledger refines a finite map from order id to
    remaining quantity: over any history of registrations, replacements,
    partial fills and cancellations in which no fill completes an order, no call cancels
    identifier 0 (which the guard of [cancel] does not refuse) and every registration leaves a slot free, every call returns,
    with the answer of the map, and afterwards [contains] and [open_orders]
    are those of the map.  In particular the cluster re-insertion of [cancel]
    ends and leaves every other order findable. *)
Theorem ledger_refines_finite_map (n : Z) (ops : list ledger_op) (Hn : 0 <= n <= 31)
    (Hadm : ledger_history_admissible n ops ∅ = true) :
  exists L, ledger_history n ops fresh_ledger = Some ((ledger_history_spec ops ∅).1, L) /\
    let M := (ledger_history_spec ops ∅).2 in
    reconcile.open_orders L = Z.of_nat (size M) /\
    forall id, reconcile.contains n id L = bool_decide (is_Some (M !! id)).
Proof.
  destruct (ledger_history_sim n ops fresh_ledger ∅ Hn (fresh_ledger_ok n Hn) Hadm) as (L & E & HL).
  exists L. split; [done|]. intros M. fold M in HL. split; [apply HL|]. intros id. unfold reconcile.contains.
  destruct (Z.eqb_spec id 0) as [->|Hid]; cbn [negb andb].
  - symmetry. apply bool_decide_false. intros [v Hv]. by destruct (sto_complete n _ _ (lo_stores _ _ _ HL) 0 v Hv).
  - pose proof (find_stored n Hn _ _ id (lo_stores _ _ _ HL) Hid) as Hf. destruct (reconcile.find n id (rl_entries L)).
    + destruct Hf as (_ & _ & HM). symmetry. apply bool_decide_true. by eexists.
    + symmetry. apply bool_decide_false. rewrite Hf. by intros [? ?].
Qed.

(** Orders 196 and 312 have the same hash in a table of [2 ^ 16] slots. *)
Lemma ledger_refines_finite_map_witness : exists L,
  ledger_history 16 [LRegister 196 10; LRegister 312 20; LCancel 196] fresh_ledger = Some ([true; true; true], L)
  /\ reconcile.contains 16 312 L = true.
Proof.
  destruct (ledger_refines_finite_map 16 [LRegister 196 10; LRegister 312 20; LCancel 196]) as (L & E & _ & H);
    [lia|vm_compute; reflexivity|].
  exists L. split; [exact E|]. rewrite H. vm_compute. reflexivity.
Defined.

(** a fill that completes an order clears its entry without re-inserting the
    entries behind it.  After two orders of the same hash are registered and
    the first one is filled, the second is still open but can no longer be
    found: a fill for it is counted as a mismatch. *)
Theorem ledger_complete_fill_loses_collision :
  let L := default fresh_ledger (snd <$> ledger_history 16 [LRegister 196 10; LRegister 312 20] fresh_ledger) in
  let '(filled, L') := reconcile.apply 16 (mkExecReport 196 10 false) L in
  let '(filled', L'') := reconcile.apply 16 (mkExecReport 312 20 false) L' in
  reconcile.contains 16 312 L = true /\ filled = true /\
  reconcile.open_orders L' = 1 /\ reconcile.contains 16 312 L' = false /\
  filled' = false /\ reconcile.mismatches L'' = 1.
Proof. vm_compute. split_and!; reflexivity. Qed.

(** cancelling order id 0 matches a free slot: the call succeeds and the
    count of open orders wraps around to the largest uint32. *)
Theorem ledger_cancel_zero_underflows :
  prod_map id reconcile.open_orders <$> reconcile.cancel 16 0 fresh_ledger = Some (true, UINT32_MAX).
Proof. vm_compute. reflexivity. Qed.

(** C14: the while loop of [reinsert_cluster] is not bounded in the code, and it
    ends: on any table whatsoever - full, inconsistent, with duplicate
    identifiers - [cancel] returns, because each iteration moves an entry
    closer to its hash or brings the scan closer to a free slot. *)
Theorem ledger_cancel_terminates (n : Z) (id : Z) (L : ReconciliationLedger) (Hn : 0 <= n <= 31) :
  exists r, reconcile.cancel n id L = Some r.
Proof. by apply cancel_returns. Qed.

(** A full table of four slots in which every entry sits at the wrong place. *)
Lemma ledger_cancel_terminates_witness :
  let L := mkLedger (list_to_map [(0, mkEntry 5 1); (1, mkEntry 6 1); (2, mkEntry 5 1); (3, mkEntry 9 1)]) 4 0 in
  (exists r, reconcile.cancel 2 5 L = Some r) /\ fst <$> reconcile.cancel 2 5 L = Some true.
Proof.
  intros L. split; [apply (ledger_cancel_terminates 2 5 L); lia|vm_compute; reflexivity].
Defined.
