(* ===== verification/Guards.v ===== *)
(** * Guards (luv_safety.hpp): OrderRateLimiter, SequenceTracker, CircuitBreaker

    The rate limiter is a compare-and-swap loop shared by several threads and
    is modelled as a step relation; the tracker and the breaker are driven by
    one caller and are modelled call by call. *)
From Stdlib Require Import ZArith Lia ZifyBool.
From S2P Require Import Prelude.

(** ** OrderRateLimiter *)
Module limiter.
Section limiter.
Context (max_pending : Z).

(** One thread: idle, or inside [try_acquire] / [release] with the value of
    [current] it last read. *)
Inductive pc := Idle | Acquiring (current : Z) | Releasing (current : Z).

Record state := mkLimiter {
  pending : Z;              (* std::atomic<uint32_t> _pending *)
  threads : gmap nat pc;
  acquired : Z;             (* try_acquire calls that returned true *)
  released : Z;             (* release calls that decremented *)
}.

Definition initial : state := mkLimiter 0 ∅ 0 0.

Definition pc_of (s : state) (i : nat) : pc := default Idle (threads s !! i).
Definition goto (i : nat) (p : pc) (s : state) : state :=
  mkLimiter (pending s) (<[i := p]> (threads s)) (acquired s) (released s).

(** One atomic access.  [compare_exchange_weak] may fail spuriously; a failure
    reloads [current]. *)
Inductive step : state -> state -> Prop :=
  | acquire_load s i : pc_of s i = Idle -> step s (goto i (Acquiring (pending s)) s)
  | acquire_refused s i c : pc_of s i = Acquiring c -> max_pending <= c -> step s (goto i Idle s)
  | acquire_cas s i c :
      pc_of s i = Acquiring c -> c < max_pending -> pending s = c ->
      step s (mkLimiter (u32 (c + 1)) (<[i := Idle]> (threads s)) (acquired s + 1) (released s))
  | acquire_retry s i c :
      pc_of s i = Acquiring c -> c < max_pending -> step s (goto i (Acquiring (pending s)) s)
  | release_load s i : pc_of s i = Idle -> step s (goto i (Releasing (pending s)) s)
  | release_none s i c : pc_of s i = Releasing c -> c = 0 -> step s (goto i Idle s)
  | release_cas s i c :
      pc_of s i = Releasing c -> c <> 0 -> pending s = c ->
      step s (mkLimiter (u32 (c - 1)) (<[i := Idle]> (threads s)) (acquired s) (released s + 1))
  | release_retry s i c :
      pc_of s i = Releasing c -> c <> 0 -> step s (goto i (Releasing (pending s)) s).

Inductive reachable : state -> Prop :=
  | reach_initial : reachable initial
  | reach_step s s' : reachable s -> step s s' -> reachable s'.

(** The calls without interference. *)
Definition try_acquire (current : Z) : bool * Z :=
  if current <? max_pending then (true, u32 (current + 1)) else (false, current).
Definition release (current : Z) : Z := if current =? 0 then 0 else u32 (current - 1).

End limiter.
End limiter.

(** ** SequenceTracker *)
Inductive SequenceResult := kFirst | kNext | kDuplicate | kGap | kOutOfOrder.
Inductive SequenceGapClass := kNone | kRecoverable | kFatal.
#[global] Instance SequenceResult_eq_dec : EqDecision SequenceResult.
Proof. solve_decision. Defined.
#[global] Instance SequenceGapClass_eq_dec : EqDecision SequenceGapClass.
Proof. solve_decision. Defined.

Record SequenceTracker := mkTracker {
  sq_initialized : bool;
  sq_next : Z;              (* uint64_t *)
  sq_last : Z;              (* uint64_t *)
  sq_gaps : Z;              (* uint64_t *)
  sq_gap_size : Z;          (* uint64_t *)
  sq_gap_class : SequenceGapClass;
  sq_gap_pending : bool;
  sq_invalid : bool;
}.

Module seqtrack.
Definition kMaxRecoverableGap : Z := 100.

Definition fresh : SequenceTracker := mkTracker false 0 0 0 0 kNone false false.

Definition observe (sequence : Z) (t : SequenceTracker) : SequenceResult * SequenceTracker :=
  if negb (sq_initialized t) then
    (kFirst, mkTracker true (u64 (sequence + 1)) sequence (sq_gaps t) (sq_gap_size t) (sq_gap_class t)
               (sq_gap_pending t) (sq_invalid t))
  else if sequence =? sq_next t then
    (kNext, mkTracker true (u64 (sq_next t + 1)) sequence (sq_gaps t) (sq_gap_size t) (sq_gap_class t)
              (sq_gap_pending t) (sq_invalid t))
  else if sequence <? sq_next t then
    (if u64 (sequence + 1) =? sq_next t then kDuplicate else kOutOfOrder, t)
  else
    let gap := sequence - sq_next t in
    let cls := if gap <=? kMaxRecoverableGap then kRecoverable else kFatal in
    (kGap, mkTracker true (u64 (sequence + 1)) sequence (u64 (sq_gaps t + gap)) gap cls
             (bool_decide (cls = kRecoverable)) (bool_decide (cls = kFatal))).

Definition acknowledge_retransmit (first_missing last_missing : Z) (t : SequenceTracker) : bool * SequenceTracker :=
  if negb (sq_gap_pending t) || (last_missing <? first_missing)
     || negb (u64 (last_missing - first_missing + 1) =? sq_gap_size t)
  then (false, t)
  else (true, mkTracker (sq_initialized t) (sq_next t) (sq_last t) (sq_gaps t) 0 kNone false (sq_invalid t)).

Definition reset (t : SequenceTracker) : SequenceTracker := fresh.
End seqtrack.

(** ** CircuitBreaker *)
Inductive CircuitBreakerState := kClosed | kOpen | kHalfOpen.
#[global] Instance CircuitBreakerState_eq_dec : EqDecision CircuitBreakerState.
Proof. solve_decision. Defined.

Record CircuitBreaker := mkBreaker {
  cb_max_failures : Z;                 (* const uint32_t *)
  cb_cool_down_ns : Z;                 (* uint64_t *)
  cb_trip_timestamp_ns : Z;            (* uint64_t *)
  cb_failures : Z;                     (* uint32_t *)
  cb_consecutive_rejections : Z;       (* uint32_t *)
  cb_max_consecutive_rejections : Z;   (* uint32_t *)
  cb_half_open_enabled : bool;
  cb_half_open_max_probes : Z;         (* uint32_t *)
  cb_half_open_successes_needed : Z;   (* uint32_t *)
  cb_half_open_probes_issued : Z;      (* uint32_t *)
  cb_half_open_successes : Z;          (* uint32_t *)
  cb_max_rate_per_window : Z;          (* uint32_t *)
  cb_rate_window_ns : Z;               (* uint64_t *)
  cb_window_start_ns : Z;              (* uint64_t *)
  cb_window_count : Z;                 (* uint32_t *)
  cb_max_loss_limit : Z;               (* int64_t *)
  cb_state : CircuitBreakerState;
  cb_tripped : bool;
}.

Module breaker.

(** Field updates. *)
Definition set_failures (x : Z) (b : CircuitBreaker) : CircuitBreaker :=
  mkBreaker (cb_max_failures b) (cb_cool_down_ns b) (cb_trip_timestamp_ns b) x (cb_consecutive_rejections b)
  (cb_max_consecutive_rejections b) (cb_half_open_enabled b) (cb_half_open_max_probes b)
  (cb_half_open_successes_needed b) (cb_half_open_probes_issued b) (cb_half_open_successes b)
  (cb_max_rate_per_window b) (cb_rate_window_ns b) (cb_window_start_ns b) (cb_window_count b) (cb_max_loss_limit b)
  (cb_state b) (cb_tripped b).
Definition set_rejections (x : Z) (b : CircuitBreaker) : CircuitBreaker :=
  mkBreaker (cb_max_failures b) (cb_cool_down_ns b) (cb_trip_timestamp_ns b) (cb_failures b) x
  (cb_max_consecutive_rejections b) (cb_half_open_enabled b) (cb_half_open_max_probes b)
  (cb_half_open_successes_needed b) (cb_half_open_probes_issued b) (cb_half_open_successes b)
  (cb_max_rate_per_window b) (cb_rate_window_ns b) (cb_window_start_ns b) (cb_window_count b) (cb_max_loss_limit b)
  (cb_state b) (cb_tripped b).
Definition set_probes (issued successes : Z) (b : CircuitBreaker) : CircuitBreaker :=
  mkBreaker (cb_max_failures b) (cb_cool_down_ns b) (cb_trip_timestamp_ns b) (cb_failures b)
  (cb_consecutive_rejections b) (cb_max_consecutive_rejections b) (cb_half_open_enabled b)
  (cb_half_open_max_probes b) (cb_half_open_successes_needed b) issued successes (cb_max_rate_per_window b)
  (cb_rate_window_ns b) (cb_window_start_ns b) (cb_window_count b) (cb_max_loss_limit b) (cb_state b) (cb_tripped b).
Definition set_window (start count : Z) (b : CircuitBreaker) : CircuitBreaker :=
  mkBreaker (cb_max_failures b) (cb_cool_down_ns b) (cb_trip_timestamp_ns b) (cb_failures b)
  (cb_consecutive_rejections b) (cb_max_consecutive_rejections b) (cb_half_open_enabled b)
  (cb_half_open_max_probes b) (cb_half_open_successes_needed b) (cb_half_open_probes_issued b)
  (cb_half_open_successes b) (cb_max_rate_per_window b) (cb_rate_window_ns b) start count (cb_max_loss_limit b)
  (cb_state b) (cb_tripped b).
Definition set_state (st : CircuitBreakerState) (b : CircuitBreaker) : CircuitBreaker :=
  mkBreaker (cb_max_failures b) (cb_cool_down_ns b) (cb_trip_timestamp_ns b) (cb_failures b)
  (cb_consecutive_rejections b) (cb_max_consecutive_rejections b) (cb_half_open_enabled b)
  (cb_half_open_max_probes b) (cb_half_open_successes_needed b) (cb_half_open_probes_issued b)
  (cb_half_open_successes b) (cb_max_rate_per_window b) (cb_rate_window_ns b) (cb_window_start_ns b)
  (cb_window_count b) (cb_max_loss_limit b) st (cb_tripped b).

Definition create (max_failures cool_down_ns : Z) : CircuitBreaker :=
  mkBreaker (if max_failures =? 0 then 1 else max_failures) cool_down_ns 0 0 0 0 false 1 1 0 0 0 0 0 0 0 kClosed false.

Definition trip (timestamp_ns : Z) (b : CircuitBreaker) : CircuitBreaker :=
  mkBreaker (cb_max_failures b) (cb_cool_down_ns b) timestamp_ns (cb_failures b) (cb_consecutive_rejections b)
  (cb_max_consecutive_rejections b) (cb_half_open_enabled b) (cb_half_open_max_probes b)
  (cb_half_open_successes_needed b) (cb_half_open_probes_issued b) (cb_half_open_successes b)
  (cb_max_rate_per_window b) (cb_rate_window_ns b) (cb_window_start_ns b) (cb_window_count b) (cb_max_loss_limit b)
  kOpen true.

Definition reset (b : CircuitBreaker) : CircuitBreaker :=
  mkBreaker (cb_max_failures b) (cb_cool_down_ns b) 0 0 0 (cb_max_consecutive_rejections b) (cb_half_open_enabled b)
  (cb_half_open_max_probes b) (cb_half_open_successes_needed b) 0 0 (cb_max_rate_per_window b) (cb_rate_window_ns b)
  (cb_window_start_ns b) (cb_window_count b) (cb_max_loss_limit b) kClosed false.

(** The failure counter stops at the limit; [failures] is the value before. *)
Definition record_failure (timestamp_ns : Z) (b : CircuitBreaker) : CircuitBreaker :=
  match cb_state b with
  | kHalfOpen => trip timestamp_ns b
  | _ =>
      let failures := cb_failures b in
      let b := if failures <? cb_max_failures b then set_failures (u32 (failures + 1)) b else b in
      if cb_max_failures b <=? u32 (failures + 1) then trip timestamp_ns b else b
  end.

Definition record_rejection (timestamp_ns : Z) (b : CircuitBreaker) : CircuitBreaker :=
  if 0 <? cb_max_consecutive_rejections b then
    let rejections := u32 (cb_consecutive_rejections b + 1) in
    let b := set_rejections rejections b in
    if cb_max_consecutive_rejections b <=? rejections then trip timestamp_ns b else record_failure timestamp_ns b
  else record_failure timestamp_ns b.

Definition record_success (b : CircuitBreaker) : CircuitBreaker :=
  match cb_state b with
  | kHalfOpen =>
      let successes := u32 (cb_half_open_successes b + 1) in
      let b := set_probes (cb_half_open_probes_issued b) successes b in
      if cb_half_open_successes_needed b <=? successes then reset b else b
  | kClosed => set_rejections 0 (set_failures 0 b)
  | kOpen => b
  end.

Definition set_cool_down_ns (cool_down_ns : Z) (b : CircuitBreaker) : CircuitBreaker :=
  mkBreaker (cb_max_failures b) cool_down_ns (cb_trip_timestamp_ns b) (cb_failures b) (cb_consecutive_rejections b)
  (cb_max_consecutive_rejections b) (cb_half_open_enabled b) (cb_half_open_max_probes b)
  (cb_half_open_successes_needed b) (cb_half_open_probes_issued b) (cb_half_open_successes b)
  (cb_max_rate_per_window b) (cb_rate_window_ns b) (cb_window_start_ns b) (cb_window_count b) (cb_max_loss_limit b)
  (cb_state b) (cb_tripped b).

Definition set_half_open_params (max_probes successes_needed : Z) (b : CircuitBreaker) : CircuitBreaker :=
  mkBreaker (cb_max_failures b) (cb_cool_down_ns b) (cb_trip_timestamp_ns b) (cb_failures b)
  (cb_consecutive_rejections b) (cb_max_consecutive_rejections b) true (if max_probes =? 0 then 1 else max_probes)
  (if successes_needed =? 0 then 1 else successes_needed) (cb_half_open_probes_issued b) (cb_half_open_successes b)
  (cb_max_rate_per_window b) (cb_rate_window_ns b) (cb_window_start_ns b) (cb_window_count b) (cb_max_loss_limit b)
  (cb_state b) (cb_tripped b).

Definition set_max_consecutive_rejections (max_rejections : Z) (b : CircuitBreaker) : CircuitBreaker :=
  mkBreaker (cb_max_failures b) (cb_cool_down_ns b) (cb_trip_timestamp_ns b) (cb_failures b)
  (cb_consecutive_rejections b) max_rejections (cb_half_open_enabled b) (cb_half_open_max_probes b)
  (cb_half_open_successes_needed b) (cb_half_open_probes_issued b) (cb_half_open_successes b)
  (cb_max_rate_per_window b) (cb_rate_window_ns b) (cb_window_start_ns b) (cb_window_count b) (cb_max_loss_limit b)
  (cb_state b) (cb_tripped b).

Definition set_rate_limit (max_rate window_ns : Z) (b : CircuitBreaker) : CircuitBreaker :=
  mkBreaker (cb_max_failures b) (cb_cool_down_ns b) (cb_trip_timestamp_ns b) (cb_failures b)
  (cb_consecutive_rejections b) (cb_max_consecutive_rejections b) (cb_half_open_enabled b)
  (cb_half_open_max_probes b) (cb_half_open_successes_needed b) (cb_half_open_probes_issued b)
  (cb_half_open_successes b) max_rate window_ns (cb_window_start_ns b) (cb_window_count b) (cb_max_loss_limit b)
  (cb_state b) (cb_tripped b).

Definition set_max_loss_limit (loss_limit : Z) (b : CircuitBreaker) : CircuitBreaker :=
  mkBreaker (cb_max_failures b) (cb_cool_down_ns b) (cb_trip_timestamp_ns b) (cb_failures b)
  (cb_consecutive_rejections b) (cb_max_consecutive_rejections b) (cb_half_open_enabled b)
  (cb_half_open_max_probes b) (cb_half_open_successes_needed b) (cb_half_open_probes_issued b)
  (cb_half_open_successes b) (cb_max_rate_per_window b) (cb_rate_window_ns b) (cb_window_start_ns b)
  (cb_window_count b) loss_limit (cb_state b) (cb_tripped b).

Definition check_loss_limit (current_loss timestamp_ns : Z) (b : CircuitBreaker) : bool * CircuitBreaker :=
  if (0 <? cb_max_loss_limit b) && (cb_max_loss_limit b <=? current_loss) then (false, trip timestamp_ns b)
  else (true, b).

(** The three parts of [allow(now_ns)]. *)
Definition allow_closed (now_ns : Z) (b : CircuitBreaker) : bool * CircuitBreaker :=
  if (0 <? cb_max_rate_per_window b) && (0 <? cb_rate_window_ns b) && (0 <? now_ns) then
    if (now_ns <? cb_window_start_ns b) || (cb_rate_window_ns b <=? now_ns - cb_window_start_ns b)
    then (true, set_window now_ns 1 b)
    else
      let count := u32 (cb_window_count b + 1) in
      let b := set_window (cb_window_start_ns b) count b in
      if cb_max_rate_per_window b <? count then (false, trip now_ns b) else (true, b)
  else (true, b).

Definition allow_half_open (b : CircuitBreaker) : bool * CircuitBreaker :=
  let probes := cb_half_open_probes_issued b in
  (probes <? cb_half_open_max_probes b, set_probes (u32 (probes + 1)) (cb_half_open_successes b) b).

Definition allow (now_ns : Z) (b : CircuitBreaker) : bool * CircuitBreaker :=
  match cb_state b with
  | kClosed => allow_closed now_ns b
  | kOpen =>
      if (0 <? cb_cool_down_ns b) && (0 <? now_ns)
         && (cb_trip_timestamp_ns b <=? now_ns) && (cb_cool_down_ns b <=? now_ns - cb_trip_timestamp_ns b)
      then
        if cb_half_open_enabled b then allow_half_open (set_probes 0 0 (set_state kHalfOpen b))
        else (true, reset b)
      else (false, b)
  | kHalfOpen => allow_half_open b
  end.

(** [allow() const], [is_open] and [tripped] read the state. *)
Definition allow_const (b : CircuitBreaker) : bool := bool_decide (cb_state b = kClosed).
Definition is_open (b : CircuitBreaker) : bool := bool_decide (cb_state b = kOpen).
Definition is_half_open (b : CircuitBreaker) : bool := bool_decide (cb_state b = kHalfOpen).

End breaker.

(** ** Rate limiter: the bound holds under every interleaving *)
Section limiter_proofs.
Context (max_pending : Z) (Hmax : 0 <= max_pending < 2 ^ 32).
Import limiter.

Definition limiter_inv (s : state) : Prop :=
  0 <= pending s <= max_pending /\ pending s = acquired s - released s.

Lemma limiter_inv_step s s' : limiter_inv s -> step max_pending s s' -> limiter_inv s'.
Proof.
  intros [Hb Ha] Hs. destruct Hs as [s i Hp|s i c Hp Hc|s i c Hp Hc Hq|s i c Hp Hc|s i Hp|s i c Hp Hc|s i c Hp Hc Hq|s i c Hp Hc];
    try by split.
  - split; cbn [pending acquired released]; rewrite wrap_u_id by (unfold in_u; lia); lia.
  - split; cbn [pending acquired released]; rewrite wrap_u_id by (unfold in_u; lia); lia.
Qed.

Lemma limiter_reachable_inv s : reachable max_pending s -> limiter_inv s.
Proof.
  induction 1 as [|s s' _ IH Hs]; [unfold limiter_inv, initial; cbn; lia|]. by eapply limiter_inv_step.
Qed.
End limiter_proofs.

(** under every interleaving of any number of threads, with spurious failures
    of the compare-and-swap, the limiter never has more than [max_pending]
    permits out: the counter is the number of successful [try_acquire] calls
    less the number of effective [release] calls, and stays in range. *)
Theorem limiter_bound (max_pending : Z) (s : limiter.state) (Hmax : 0 <= max_pending < 2 ^ 32)
    (Hs : limiter.reachable max_pending s) :
  limiter.acquired s - limiter.released s = limiter.pending s /\ 0 <= limiter.pending s <= max_pending.
Proof. destruct (limiter_reachable_inv max_pending Hmax s Hs). lia. Qed.

(** Two threads race for the only permit: both have read 0, one wins. *)
Lemma limiter_bound_witness : exists s,
  limiter.reachable 1 s /\ limiter.acquired s = 1 /\ 0 <= limiter.pending s <= 1.
Proof.
  pose (s1 := limiter.goto 1 (limiter.Acquiring 0) limiter.initial).
  pose (s2 := limiter.goto 2 (limiter.Acquiring 0) s1).
  assert (H1 : limiter.reachable 1 s1).
  { eapply limiter.reach_step; [apply limiter.reach_initial|]. by apply (limiter.acquire_load 1 limiter.initial 1). }
  assert (H2 : limiter.reachable 1 s2).
  { eapply limiter.reach_step; [exact H1|]. by apply (limiter.acquire_load 1 s1 2). }
  assert (Hs : limiter.reachable 1 (limiter.mkLimiter (u32 (0 + 1)) (<[1%nat := limiter.Idle]> (limiter.threads s2)) (0 + 1) 0)).
  { eapply limiter.reach_step; [exact H2|]. by apply (limiter.acquire_cas 1 s2 1 0). }
  eexists. split; [exact Hs|]. split; [done|]. apply (limiter_bound 1 _ ltac:(lia) Hs).
Defined.

(** ** Sequence tracker: accounting *)
Fixpoint observe_all (xs : list Z) (t : SequenceTracker) : list SequenceResult * SequenceTracker :=
  match xs with
  | [] => ([], t)
  | x :: xs =>
      let '(r, t) := seqtrack.observe x t in
      let '(rs, t) := observe_all xs t in (r :: rs, t)
  end.

(** A sequence number that was neither a duplicate nor late. *)
Definition accepted (r : SequenceResult) : bool :=
  match r with kFirst | kNext | kGap => true | kDuplicate | kOutOfOrder => false end.

Definition accepted_count (rs : list SequenceResult) : Z := zsum ((fun r => bit (accepted r)) <$> rs).

Lemma accepted_count_cons r rs : accepted_count (r :: rs) = bit (accepted r) + accepted_count rs.
Proof. done. Qed.

(** From a tracker past its first message, [next] advances by the accepted
    messages and by the gaps. *)
Lemma observe_all_account xs t :
  sq_initialized t = true -> 0 <= sq_gaps t <= sq_next t -> sq_next t < 2 ^ 64 ->
  Forall (fun x => 0 <= x < 2 ^ 64 - 1) xs ->
  let '(rs, t') := observe_all xs t in
  sq_initialized t' = true /\ sq_next t <= sq_next t' < 2 ^ 64 /\ 0 <= sq_gaps t' <= sq_next t' /\
  sq_next t' - sq_next t = accepted_count rs + (sq_gaps t' - sq_gaps t).
Proof.
  revert t. induction xs as [|x xs IH]; intros t Hi Hg Hn Hxs; cbn [observe_all].
  { unfold accepted_count. cbn. split_and!; lia || done. }
  inversion Hxs as [|?? Hx Hxs']; subst. unfold seqtrack.observe. rewrite Hi. cbn [negb].
  destruct (Z.eqb_spec x (sq_next t)) as [->|Hne].
  - match goal with |- context [observe_all xs ?u] => specialize (IH u); destruct (observe_all xs u) as [rs t'] end.
    cbn [sq_initialized sq_next sq_gaps] in IH. rewrite wrap_u_id in IH by (unfold in_u; lia).
    destruct IH as (? & ? & ? & Ha); [done|lia|lia|done|]. split; [done|]. rewrite accepted_count_cons. cbn [bit accepted]. lia.
  - destruct (Z.ltb_spec x (sq_next t)) as [Hlt|Hge].
    + specialize (IH t Hi Hg Hn Hxs'). destruct (observe_all xs t) as [rs t']. destruct IH as (? & ? & ? & Ha).
      split; [done|]. rewrite accepted_count_cons. by destruct (_ =? _); cbn [bit accepted].
    + match goal with |- context [observe_all xs ?u] => specialize (IH u); destruct (observe_all xs u) as [rs t'] end.
      cbn [sq_initialized sq_next sq_gaps] in IH. rewrite !wrap_u_id in IH by (unfold in_u; lia).
      destruct IH as (? & ? & ? & Ha); [done|lia|lia|done|]. split; [done|]. rewrite accepted_count_cons. cbn [bit accepted]. lia.
Qed.

(** the tracker accounts for every sequence number.  Over any stream of
    64-bit numbers (the last one excepted), [next] less the first number is
    the number of accepted messages plus [gaps], so [gaps] is exactly the
    number of messages that were skipped. *)
Theorem tracker_accounting (x : Z) (xs : list Z) (Hxs : Forall (fun y => 0 <= y < 2 ^ 64 - 1) (x :: xs)) :
  let '(rs, t) := observe_all (x :: xs) seqtrack.fresh in
  sq_next t - x = accepted_count rs + sq_gaps t /\ 0 <= sq_gaps t /\ x < sq_next t < 2 ^ 64.
Proof.
  inversion Hxs as [|?? Hx Hxs']; subst. cbn [observe_all]. unfold seqtrack.observe. cbn [negb sq_initialized seqtrack.fresh].
  rewrite wrap_u_id by (unfold in_u; lia).
  match goal with |- context [observe_all xs ?u] => pose proof (observe_all_account xs u) as H; destruct (observe_all xs u) as [rs t] end.
  cbn in H. destruct H as (? & ? & ? & Ha); [done|lia|lia|done|]. rewrite accepted_count_cons. cbn [bit accepted]. lia.
Qed.

Lemma tracker_accounting_witness :
  let '(rs, t) := observe_all [5; 6; 9; 9; 7; 10] seqtrack.fresh in
  rs = [kFirst; kNext; kGap; kDuplicate; kOutOfOrder; kNext] /\ sq_next t - 5 = accepted_count rs + sq_gaps t.
Proof.
  pose proof (tracker_accounting 5 [6; 9; 9; 7; 10]) as H. cbv zeta beta in H.
  assert (Hf : Forall (fun y => 0 <= y < 2 ^ 64 - 1) [5; 6; 9; 9; 7; 10])
    by (repeat (apply Forall_cons; split; [lia|]); apply Forall_nil; done).
  specialize (H Hf). vm_compute in H. vm_compute. split; [reflexivity|apply H].
Defined.

(** A gap too large to recover marks the feed invalid, but the next gap of at
    most 100 messages clears the mark and leaves only its own messages to
    recover; acknowledging a retransmission of that length (whatever its
    position) then leaves no trace of the loss. *)
Theorem tracker_fatal_gap_forgotten :
  let '(_, t1) := observe_all [1; 500] seqtrack.fresh in
  let '(_, t2) := observe_all [1; 500; 503] seqtrack.fresh in
  let '(ok, t3) := seqtrack.acknowledge_retransmit 7 8 t2 in
  sq_invalid t1 = true /\ sq_invalid t2 = false /\ sq_gap_pending t2 = true /\ ok = true /\
  sq_gap_class t3 = kNone /\ sq_gap_pending t3 = false /\ sq_invalid t3 = false.
Proof. vm_compute. split_and!; reflexivity. Qed.

(** ** Circuit breaker: histories of calls at run time *)
Inductive breaker_op :=
  | BFailure (ts : Z)
  | BRejection (ts : Z)
  | BSuccess
  | BAllow (now : Z)
  | BLoss (loss ts : Z)
  | BTrip (ts : Z).

(** The answer of [allow], [None] for the other calls. *)
Definition breaker_step (op : breaker_op) (b : CircuitBreaker) : option bool * CircuitBreaker :=
  match op with
  | BFailure ts => (None, breaker.record_failure ts b)
  | BRejection ts => (None, breaker.record_rejection ts b)
  | BSuccess => (None, breaker.record_success b)
  | BAllow now => prod_map Some id (breaker.allow now b)
  | BLoss loss ts => (None, (breaker.check_loss_limit loss ts b).2)
  | BTrip ts => (None, breaker.trip ts b)
  end.

Fixpoint breaker_run (ops : list breaker_op) (b : CircuitBreaker) : list bool * CircuitBreaker :=
  match ops with
  | [] => ([], b)
  | op :: ops =>
      let '(r, b) := breaker_step op b in
      let '(rs, b) := breaker_run ops b in
      (match r with Some a => a :: rs | None => rs end, b)
  end.

Definition op_time (op : breaker_op) : option Z :=
  match op with
  | BFailure ts | BRejection ts | BTrip ts | BLoss _ ts => Some ts
  | BAllow now => Some now
  | BSuccess => None
  end.

(** A call whose clock is inside the cool-down that started at [t0]. *)
Definition cooling (t0 cool_down : Z) (op : breaker_op) : Prop :=
  match op_time op with None => True | Some t => t0 <= t /\ (cool_down = 0 \/ t < t0 + cool_down) end.

(** Open, tripped no earlier than [t0]. *)
Definition open_since (t0 cd : Z) (b : CircuitBreaker) : Prop :=
  cb_state b = kOpen /\ t0 <= cb_trip_timestamp_ns b /\ cb_cool_down_ns b = cd.

Lemma open_since_failure t0 cd ts b : t0 <= ts -> open_since t0 cd b -> open_since t0 cd (breaker.record_failure ts b).
Proof.
  intros Ht (Hs & Hb & Hc). unfold breaker.record_failure. rewrite Hs. cbv zeta.
  destruct (cb_failures b <? cb_max_failures b); cbn [cb_max_failures breaker.set_failures]; case_if; done.
Qed.

Lemma open_since_step t0 cd op b : 0 <= cd -> cooling t0 cd op -> open_since t0 cd b ->
  open_since t0 cd (breaker_step op b).2 /\ (breaker_step op b).1 <> Some true.
Proof.
  intros Hcd Hop Hb. pose proof Hb as (Hs & Ht & Hc). destruct op as [ts|ts| |now|loss ts|ts]; cbn [breaker_step fst snd].
  - split; [|done]. apply open_since_failure; [apply Hop|done].
  - split; [|done]. unfold breaker.record_rejection. destruct Hop as [Hop _]. cbv zeta.
    case_if; [case_if; [by split_and!|]|]; apply open_since_failure; try done; by split_and!.
  - split; [|done]. unfold breaker.record_success. by rewrite Hs.
  - unfold breaker.allow. rewrite Hs. destruct Hop as [Hop1 Hop2]. rewrite Hc.
    replace ((0 <? cd) && (0 <? now) && (cb_trip_timestamp_ns b <=? now) && (cd <=? now - cb_trip_timestamp_ns b)) with false by lia.
    done.
  - split; [|done]. unfold breaker.check_loss_limit. destruct Hop as [Hop _]. case_if; by split_and!.
  - split; [|done]. destruct Hop as [Hop _]. by split_and!.
Qed.

Lemma open_since_run t0 cd ops b : 0 <= cd -> Forall (cooling t0 cd) ops -> open_since t0 cd b ->
  Forall (fun a => a = false) (breaker_run ops b).1 /\ open_since t0 cd (breaker_run ops b).2.
Proof.
  intros Hcd. revert b. induction ops as [|op ops IH]; intros b Hops Hb; [by split|].
  inversion Hops as [|?? Hop Hops']; subst. cbn [breaker_run]. destruct (open_since_step t0 cd op b Hcd Hop Hb) as [Hb' Hr].
  destruct (breaker_step op b) as [r b1]. cbn [fst snd] in *. destruct (IH b1 Hops' Hb') as [H1 H2].
  destruct (breaker_run ops b1) as [rs b2]. cbn [fst snd] in *. split; [|done].
  destruct r as [[|]|]; [done|by constructor|done].
Qed.

(** an open breaker admits nothing during its cool-down.  From a breaker
    tripped at [t0], whatever failures, rejections, successes, loss checks and
    trips follow with clocks in [[t0, t0 + cool_down)] (for ever, when no
    cool-down is set), every [allow] answers no and the breaker stays open. *)
Theorem breaker_open_blocks (b : CircuitBreaker) (ops : list breaker_op)
    (Hcd : 0 <= cb_cool_down_ns b) (Hopen : cb_state b = kOpen)
    (Hops : Forall (cooling (cb_trip_timestamp_ns b) (cb_cool_down_ns b)) ops) :
  let '(answers, b') := breaker_run ops b in
  Forall (fun a => a = false) answers /\ cb_state b' = kOpen.
Proof.
  destruct (open_since_run _ _ ops b Hcd Hops) as [H1 H2]; [by split_and!|].
  destruct (breaker_run ops b) as [answers b']. by destruct H2.
Qed.

Lemma breaker_open_blocks_witness :
  let b := breaker.trip 1000 (breaker.create 3 500) in
  let '(answers, b') := breaker_run [BAllow 1001; BFailure 1100; BSuccess; BAllow 1499] b in
  length answers = 2%nat /\ Forall (fun a => a = false) answers /\ cb_state b' = kOpen.
Proof.
  pose proof (breaker_open_blocks (breaker.trip 1000 (breaker.create 3 500)) [BAllow 1001; BFailure 1100; BSuccess; BAllow 1499]) as H.
  cbv zeta. destruct (breaker_run _ _) as [answers b'] eqn:E.
  assert (Hlen : answers = [false; false]) by (vm_compute in E; by injection E as <- _).
  split; [by rewrite Hlen|]. apply H; [done|done|]. repeat (apply Forall_cons; split; [unfold cooling; cbn; lia || done|]). by apply Forall_nil.
Defined.

(** A failure recorded with the default time stamp 0 while the breaker is open
    erases the time it tripped: a breaker tripped at 1000 with a cool-down of
    500 that sees one more failure admits an order at 1001. *)
Theorem breaker_default_timestamp_ends_cool_down :
  let b := breaker.trip 1000 (breaker.create 1 500) in
  (breaker_run [BAllow 1001] b).1 = [false] /\ (breaker_run [BFailure 0; BAllow 1001] b).1 = [true].
Proof. vm_compute. split; reflexivity. Qed.

(** *** Half-open probes *)

(** The run never leaves the half-open state. *)
Fixpoint stays_half_open (ops : list breaker_op) (b : CircuitBreaker) : bool :=
  breaker.is_half_open b &&
  match ops with
  | [] => true
  | op :: ops => stays_half_open ops (breaker_step op b).2
  end.

Definition is_allow (op : breaker_op) : bool := match op with BAllow _ => true | _ => false end.
Definition allow_count (ops : list breaker_op) : Z := zsum ((fun op => bit (is_allow op)) <$> ops).
Definition granted (answers : list bool) : Z := zsum (bit <$> answers).

Lemma granted_cons a rs : granted (a :: rs) = bit a + granted rs.
Proof. done. Qed.

Lemma allow_count_cons op ops : allow_count (op :: ops) = bit (is_allow op) + allow_count ops.
Proof. done. Qed.

Lemma allow_count_nonneg ops : 0 <= allow_count ops.
Proof. induction ops as [|op ops IH]; [done|]. rewrite allow_count_cons. unfold bit. destruct (is_allow op); lia. Qed.

Lemma half_open_step op b :
  cb_state b = kHalfOpen -> cb_state (breaker_step op b).2 = kHalfOpen ->
  cb_half_open_max_probes (breaker_step op b).2 = cb_half_open_max_probes b /\
  cb_half_open_probes_issued (breaker_step op b).2 =
    (if is_allow op then u32 (cb_half_open_probes_issued b + 1) else cb_half_open_probes_issued b) /\
  (breaker_step op b).1 =
    (if is_allow op then Some (cb_half_open_probes_issued b <? cb_half_open_max_probes b) else None).
Proof.
  intros Hs. destruct op as [ts|ts| |now|loss ts|ts]; cbn [breaker_step is_allow fst snd].
  - unfold breaker.record_failure. by rewrite Hs.
  - unfold breaker.record_rejection. cbv zeta. case_if; [case_if; [done|]|]; unfold breaker.record_failure; cbn; by rewrite Hs.
  - unfold breaker.record_success. rewrite Hs. cbv zeta. case_if; done.
  - unfold breaker.allow. by rewrite Hs.
  - unfold breaker.check_loss_limit. case_if; done.
  - done.
Qed.

Lemma half_open_run ops b :
  stays_half_open ops b = true -> 0 <= cb_half_open_probes_issued b ->
  0 <= cb_half_open_max_probes b -> cb_half_open_probes_issued b + allow_count ops < 2 ^ 32 ->
  granted (breaker_run ops b).1 =
  Z.max 0 (Z.min (allow_count ops) (cb_half_open_max_probes b - cb_half_open_probes_issued b)).
Proof.
  revert b. induction ops as [|op ops IH]; intros b Hst H0 Hm Hlen; [cbn; lia|].
  cbn [stays_half_open breaker_run] in *. apply andb_true_iff in Hst as [Hs Hst]. apply bool_decide_eq_true in Hs.
  assert (Hs' : cb_state (breaker_step op b).2 = kHalfOpen).
  { destruct ops; cbn [stays_half_open] in Hst; apply andb_true_iff in Hst as [Hst _]; by apply bool_decide_eq_true in Hst. }
  destruct (half_open_step op b Hs Hs') as (Em & Ei & Er). destruct (breaker_step op b) as [r b1]. cbn [fst snd] in *.
  specialize (IH b1 Hst). rewrite allow_count_cons in *.
  pose proof (allow_count_nonneg ops).
  destruct (breaker_run ops b1) as [rs b2]. cbn [fst snd] in *. rewrite Er, Ei, Em in *. destruct (is_allow op); cbn [bit] in *.
  - rewrite wrap_u_id in IH by (unfold in_u; lia). rewrite granted_cons, IH by lia. unfold bit. destruct (Z.ltb_spec (cb_half_open_probes_issued b) (cb_half_open_max_probes b)); lia.
  - apply IH; lia.
Qed.

(** a half-open breaker admits exactly its probe budget: as long as it stays
    half-open, of the [allow] calls since it became half-open the first
    [max_probes] are granted and no more (for fewer than 2^32 calls). *)
Theorem breaker_half_open_probes (b : CircuitBreaker) (ops : list breaker_op)
    (Hst : stays_half_open ops b = true) (H0 : cb_half_open_probes_issued b = 0)
    (Hm : 0 <= cb_half_open_max_probes b) (Hlen : allow_count ops < 2 ^ 32) :
  granted (breaker_run ops b).1 = Z.min (allow_count ops) (cb_half_open_max_probes b).
Proof.
  rewrite half_open_run by (done || lia). pose proof (allow_count_nonneg ops). lia.
Qed.

Lemma breaker_half_open_probes_witness :
  let b := breaker.set_probes 0 0 (breaker.set_state kHalfOpen (breaker.set_half_open_params 2 3 (breaker.trip 1000 (breaker.create 1 500)))) in
  granted (breaker_run [BAllow 1500; BSuccess; BAllow 1501; BAllow 1502] b).1 = 2.
Proof. cbv zeta. rewrite breaker_half_open_probes; vm_compute; done. Defined.
