(* ===== verification/Files.v ===== *)
(** * Append-only files

    What the audit log and the recovery ledger do to their file: a file is the
    list of its bytes, opened with O_APPEND.  The results of [write] and
    [fsync] are parameters of every call, given as the outcomes of the system
    calls in the order they are made. *)
From Stdlib Require Import ZArith Lia ZifyBool.
From S2P Require Import Prelude Bytes.

(** One [write]: a number of bytes, an error, or an interruption (EINTR). *)
Inductive write_outcome := Written (k : nat) | WriteError | Interrupted.

(** The loop of [write_all]: bytes left, file, outcomes of the next writes.
    When the outcomes are used up, the next write takes all that is left. *)
Fixpoint write_all (outcomes : list write_outcome) (data file : list Z) : bool * list Z :=
  match data with
  | [] => (true, file)
  | _ =>
      match outcomes with
      | [] => (true, file ++ data)
      | Interrupted :: outcomes => write_all outcomes data file
      | WriteError :: _ => (false, file)
      | Written k :: outcomes =>
          match k with
          | O => (false, file)
          | _ => write_all outcomes (drop k data) (file ++ take k data)
          end
      end
  end.

(** What one append sees of the system. *)
Record io := mkIo {
  io_writes : list write_outcome;
  io_sync : bool;                   (* fsync succeeds *)
}.

Definition good_io : io := mkIo [] true.

(** A write either completes or leaves a proper prefix. *)
Lemma write_all_spec outcomes data file :
  match write_all outcomes data file with
  | (true, file') => file' = file ++ data
  | (false, file') => exists k, (k < length data)%nat /\ file' = file ++ take k data
  end.
Proof.
  revert data file. induction outcomes as [|o outcomes IH]; intros data file.
  { destruct data; cbn [write_all]; [by rewrite app_nil_r|done]. }
  destruct data as [|x data]; [cbn [write_all]; by rewrite app_nil_r|]. remember (x :: data) as l eqn:El.
  assert (Hl : (0 < length l)%nat) by (subst l; simpl; lia).
  assert (E : write_all (o :: outcomes) l file =
    match o with
    | Interrupted => write_all outcomes l file
    | WriteError => (false, file)
    | Written O => (false, file)
    | Written (S k) => write_all outcomes (drop (S k) l) (file ++ take (S k) l)
    end) by (subst l; by destruct o as [[|k]| |]).
  rewrite E. destruct o as [[|k]| |].
  - exists 0%nat. split; [done|]. by rewrite take_0, app_nil_r.
  - specialize (IH (drop (S k) l) (file ++ take (S k) l)). destruct (write_all _ _ _) as [[|] file'].
    + by rewrite IH, <- app_assoc, take_drop.
    + destruct IH as (j & Hj & ->). rewrite length_drop in Hj. exists (S k + j)%nat. split; [lia|].
      rewrite <- app_assoc. f_equal. apply take_take_drop.
  - exists 0%nat. split; [done|]. by rewrite take_0, app_nil_r.
  - apply IH.
Qed.

Lemma write_all_nil data file : write_all [] data file = (true, file ++ data).
Proof. destruct data; cbn [write_all]; [by rewrite app_nil_r|done]. Qed.

(** ** Records of a fixed size *)

(** The [i]-th record of [size] bytes. *)
Definition record_at (size : nat) (i : nat) (file : list Z) : list Z := take size (drop (i * size) file).

Fixpoint records (size : nat) (n : nat) (file : list Z) : list (list Z) :=
  match n with
  | O => []
  | S n => take size file :: records size n (drop size file)
  end.

Definition record_count (size : nat) (file : list Z) : Z := Z.of_nat (length file) / Z.of_nat size.

Lemma records_concat size l : (0 < size)%nat -> Forall (fun r => length r = size) l ->
  records size (length l) (concat l) = l /\ length (concat l) = (length l * size)%nat.
Proof.
  intros Hs. induction 1 as [|r l Hr Hl [IH1 IH2]]; [done|]. cbn [length records concat].
  rewrite length_app, IH2, Hr. split; [|lia].
  by rewrite <- Hr, take_app_length, drop_app_length, Hr, IH1.
Qed.

Lemma records_length size n file : length (records size n file) = n.
Proof. revert file. induction n as [|n IH]; intros file; [done|]. cbn [records length]. by rewrite IH. Qed.

Lemma records_sizes size n file : (n * size <= length file)%nat -> Forall (fun r => length r = size) (records size n file).
Proof.
  revert file. induction n as [|n IH]; intros file Hl; cbn [records]; [by constructor|]. constructor.
  - rewrite length_take. lia.
  - apply IH. rewrite length_drop. lia.
Qed.
