(* ===== verification/Recovery.v ===== *)
(** * RecoveryLedger (luv_recovery.hpp): the write-ahead log of open orders

    Records are 64 bytes in the host's (little-endian) layout.  The file is
    the list of its bytes; the ledger keeps only the descriptor and the next
    sequence number. *)
From Stdlib Require Import ZArith Lia ZifyBool.
From S2P Require Import Prelude Bytes Files.

Inductive RecoveryEventType := kAdd | kFill | kCancel | kAck | kNew | kReplace | kTerminalFill.

Definition event_code (t : RecoveryEventType) : Z :=
  match t with
  | kAdd => 1 | kFill => 2 | kCancel => 3 | kAck => 4 | kNew => 5 | kReplace => 6 | kTerminalFill => 7
  end.

Definition kRecoveryRecordVersion : Z := 2.
Definition kRecoveryMagic : Z := 0x31564352.

Record RecoveryEvent := mkEvent {
  ev_type : RecoveryEventType;
  ev_order_id : Z;        (* uint64_t *)
  ev_quantity : Z;        (* int64_t *)
  ev_price : Z;           (* int64_t *)
  ev_side : Z;            (* uint8_t *)
  ev_timestamp_ns : Z;    (* uint64_t *)
}.

(** The fields of a record the code reads or writes with a value; the reserved
    ones stay zero. *)
Record RecoveryRecord := mkRecord {
  rr_magic : Z;           (* uint32_t, offset 0 *)
  rr_version : Z;         (* uint8_t, 4 *)
  rr_type : Z;            (* uint8_t, 5 *)
  rr_sequence : Z;        (* uint64_t, 8 *)
  rr_order_id : Z;        (* uint64_t, 16 *)
  rr_quantity : Z;        (* int64_t, 24 *)
  rr_price : Z;           (* int64_t, 32 *)
  rr_side : Z;            (* uint8_t, 40 *)
  rr_timestamp_ns : Z;    (* uint64_t, 48 *)
  rr_checksum : Z;        (* uint32_t, 56 *)
}.

Definition record_size : nat := 64.

(** The object representation up to [offsetof(checksum)]. *)
Definition record_body (r : RecoveryRecord) : list Z :=
  le_split 4 (rr_magic r) ++ [rr_version r] ++ [rr_type r] ++ [0; 0] ++ le_split 8 (rr_sequence r) ++ le_split 8 (rr_order_id r)
  ++ le_split 8 (u64 (rr_quantity r)) ++ le_split 8 (u64 (rr_price r)) ++ [rr_side r] ++ replicate 7 0
  ++ le_split 8 (rr_timestamp_ns r).

Definition record_bytes (r : RecoveryRecord) : list Z :=
  record_body r ++ le_split 4 (rr_checksum r) ++ [0; 0; 0; 0].

(** The field of [n] bytes at an offset of a mapped record. *)
Definition field (raw : list Z) (off n : nat) : Z := le_value (take n (drop off raw)).

Definition read_record (raw : list Z) : RecoveryRecord :=
  mkRecord (field raw 0 4) (field raw 4 1) (field raw 5 1) (field raw 8 8) (field raw 16 8) (s64 (field raw 24 8))
    (s64 (field raw 32 8)) (field raw 40 1) (field raw 48 8) (field raw 56 4).

(** FNV-1a over the 56 bytes before the checksum. *)
Definition fnv_step (hash byte : Z) : Z := u32 (Z.lxor hash byte * 16777619).
Definition checksum (raw : list Z) : Z := foldl fnv_step 2166136261 (take 56 raw).

Record RecoveryLedger := mkRecovery {
  rl_open : bool;         (* _fd >= 0 *)
  rl_sequence : Z;        (* uint64_t _sequence *)
}.

Definition fresh_recovery : RecoveryLedger := mkRecovery false 0.

(** [open] on a file whose [open(2)] succeeds. *)
Definition open (file : list Z) (L : RecoveryLedger) : bool * RecoveryLedger :=
  if rl_open L then (false, L)
  else if negb (Z.of_nat (length file) mod Z.of_nat record_size =? 0) then (false, mkRecovery false (rl_sequence L))
  else (true, mkRecovery true (record_count record_size file)).

Definition close (L : RecoveryLedger) : RecoveryLedger := mkRecovery false (rl_sequence L).

(** The header check shared by [verify_wal_integrity] and [replay]. *)
Definition valid_record (expected_seq : Z) (raw : list Z) : bool :=
  let rec := read_record raw in
  (rr_magic rec =? kRecoveryMagic) && (rr_version rec =? kRecoveryRecordVersion)
  && (rr_sequence rec =? expected_seq) && (checksum raw =? rr_checksum rec).

(** [verify_wal_integrity]: answer, valid records, sequence of the first bad one. *)
Fixpoint verify_loop (recs : list (list Z)) (expected_seq : Z) : bool * Z * Z :=
  match recs with
  | [] => (true, expected_seq, 0)
  | raw :: recs =>
      if negb (valid_record expected_seq raw) then (false, expected_seq, expected_seq)
      else verify_loop recs (u64 (expected_seq + 1))
  end.

Definition verify_wal_integrity (file : list Z) : bool * Z * Z :=
  if negb (Z.of_nat (length file) mod Z.of_nat record_size =? 0) then (false, 0, 0)
  else verify_loop (records record_size (Z.to_nat (record_count record_size file)) file) 0.

Definition append_with_side (type : RecoveryEventType) (order_id quantity price side timestamp_ns : Z)
    (x : io) (file : list Z) (L : RecoveryLedger) : bool * list Z * RecoveryLedger :=
  if negb (rl_open L) || (order_id =? 0) || (quantity <=? 0) then (false, file, L)
  else
    let record := mkRecord kRecoveryMagic kRecoveryRecordVersion (event_code type) (rl_sequence L) order_id quantity
                    price side timestamp_ns 0 in
    let record := mkRecord kRecoveryMagic kRecoveryRecordVersion (event_code type) (rl_sequence L) order_id quantity
                    price side timestamp_ns (checksum (record_bytes record)) in
    let '(written, file) := write_all (io_writes x) (record_bytes record) file in
    if negb written then (false, file, L)
    else if negb (io_sync x) then (false, file, L)
    else (true, file, mkRecovery (rl_open L) (u64 (rl_sequence L + 1))).

Definition append_and_flush (event : RecoveryEvent) : io -> list Z -> RecoveryLedger -> bool * list Z * RecoveryLedger :=
  append_with_side (ev_type event) (ev_order_id event) (ev_quantity event) (ev_price event) (ev_side event)
    (ev_timestamp_ns event).

(** ** Replay *)
Record RecoveredOrder := mkRecovered {
  ro_order_id : Z;
  ro_remaining : Z;
  ro_price : Z;
  ro_side : Z;
  ro_timestamp_ns : Z;
}.

(** The index of the order, [None] for [index == count]. *)
Fixpoint find_order (order_id : Z) (output : list RecoveredOrder) : option nat :=
  match output with
  | [] => None
  | o :: output => if ro_order_id o =? order_id then Some O else S <$> find_order order_id output
  end.

(** [remove]: the last order takes the place of the removed one. *)
Definition remove (output : list RecoveredOrder) (index : nat) : list RecoveredOrder :=
  match last output with
  | Some o => take (length output - 1) (<[index := o]> output)
  | None => output
  end.

(** [apply]; the output array is the list of its first [count] entries. *)
Definition apply (capacity : Z) (rec : RecoveryRecord) (output : list RecoveredOrder) : option (list RecoveredOrder) :=
  let index := find_order (rr_order_id rec) output in
  if (rr_type rec =? event_code kAdd) || (rr_type rec =? event_code kNew) then
    match index with
    | Some _ => None
    | None =>
        if Z.of_nat (length output) =? capacity then None
        else Some (output ++ [mkRecovered (rr_order_id rec) (rr_quantity rec) (rr_price rec) (rr_side rec) (rr_timestamp_ns rec)])
    end
  else match index with
  | None => None
  | Some i =>
      o ← output !! i;
      if rr_type rec =? event_code kTerminalFill then
        if (rr_quantity rec <=? 0) || (ro_remaining o <? rr_quantity rec) then None else Some (remove output i)
      else if rr_type rec =? event_code kFill then
        if ro_remaining o <? rr_quantity rec then None
        else
          let left_qty := s64 (ro_remaining o - rr_quantity rec) in
          let output := <[i := mkRecovered (ro_order_id o) left_qty (ro_price o) (ro_side o) (ro_timestamp_ns o)]> output in
          Some (if left_qty =? 0 then remove output i else output)
      else if rr_type rec =? event_code kReplace then
        if rr_quantity rec <=? 0 then None
        else Some (<[i := mkRecovered (ro_order_id o) (rr_quantity rec)
                            (if 0 <? rr_price rec then rr_price rec else ro_price o) (ro_side o) (ro_timestamp_ns o)]> output)
      else if rr_type rec =? event_code kCancel then Some (remove output i)
      else None
  end.

(** The loop of [replay]: the answer and the orders recovered so far. *)
Fixpoint replay_loop (capacity : Z) (recs : list (list Z)) (expected_sequence : Z) (output : list RecoveredOrder) :
    bool * list RecoveredOrder :=
  match recs with
  | [] => (true, output)
  | raw :: recs =>
      if negb (valid_record expected_sequence raw) then (false, output)
      else match apply capacity (read_record raw) output with
      | None => (false, output)
      | Some output => replay_loop capacity recs (u64 (expected_sequence + 1)) output
      end
  end.

Definition replay (capacity : Z) (file : list Z) (L : RecoveryLedger) : bool * list RecoveredOrder :=
  if negb (rl_open L) || (capacity =? 0) then (false, [])
  else if negb (Z.of_nat (length file) mod Z.of_nat record_size =? 0) then (false, [])
  else replay_loop capacity (records record_size (Z.to_nat (record_count record_size file)) file) 0 [].

(** ** Record layout *)
Record record_typed (r : RecoveryRecord) : Prop := {
  rt_magic : in_u 32 (rr_magic r);
  rt_version : in_u 8 (rr_version r);
  rt_type : in_u 8 (rr_type r);
  rt_sequence : in_u 64 (rr_sequence r);
  rt_order_id : in_u 64 (rr_order_id r);
  rt_quantity : in_s 64 (rr_quantity r);
  rt_price : in_s 64 (rr_price r);
  rt_side : in_u 8 (rr_side r);
  rt_timestamp_ns : in_u 64 (rr_timestamp_ns r);
  rt_checksum : in_u 32 (rr_checksum r);
}.

Lemma s64_u64 z : in_s 64 z -> s64 (u64 z) = z.
Proof.
  unfold in_s, wrap_s, wrap_u. change (2 ^ (64 - 1)) with 9223372036854775808. change (2 ^ 64) with 18446744073709551616.
  intros. rewrite Zplus_mod_idemp_l, Z.mod_small by lia. lia.
Qed.

Lemma u64_range z : 0 <= u64 z < 256 ^ Z.of_nat 8.
Proof. apply Z.mod_pos_bound. done. Qed.

(** A field of a buffer that is a concatenation. *)
Lemma field_skip l raw off n : (length l <= off)%nat -> field (l ++ raw) off n = field raw (off - length l) n.
Proof. intros. unfold field. by rewrite drop_app_ge. Qed.

Lemma field_here l raw n : length l = n -> field (l ++ raw) 0 n = le_value l.
Proof. intros <-. unfold field. by rewrite drop_0, take_app_length. Qed.

Ltac read_field :=
  repeat (rewrite field_skip by (rewrite ?le_split_length; cbn; lia)); rewrite ?le_split_length; cbn [length Nat.sub];
  rewrite field_here by (by rewrite ?le_split_length).

Lemma record_body_length r : length (record_body r) = 56%nat.
Proof. unfold record_body. rewrite !length_app, !le_split_length. done. Qed.

Lemma record_bytes_length r : length (record_bytes r) = record_size.
Proof. unfold record_bytes. rewrite !length_app, record_body_length, le_split_length. done. Qed.

Lemma le_value_byte x : le_value [x] = x.
Proof. unfold le_value. simpl. lia. Qed.

Lemma read_record_bytes r : record_typed r -> read_record (record_bytes r) = r.
Proof.
  intros []. unfold read_record, record_bytes, record_body. rewrite <- !app_assoc.
  destruct r as [m v t s i q p sd ts c]. cbn [rr_magic rr_version rr_type rr_sequence rr_order_id rr_quantity rr_price
    rr_side rr_timestamp_ns rr_checksum] in *.
  f_equal; read_field; rewrite ?le_value_byte, ?le_value_split by (done || apply u64_range); by rewrite ?s64_u64.
Qed.

(** The checksum does not read its own field. *)
Lemma checksum_body r : checksum (record_bytes r) = foldl fnv_step 2166136261 (record_body r).
Proof. unfold checksum, record_bytes. by rewrite <- (record_body_length r), take_app_length. Qed.

Lemma fnv_step_range h x : in_u 32 (fnv_step h x).
Proof. apply wrap_u_range. lia. Qed.

Lemma checksum_range raw : in_u 32 (checksum raw).
Proof.
  unfold checksum. destruct (take 56 raw) as [|x l] using rev_ind; [done|]. rewrite foldl_app. apply fnv_step_range.
Qed.

(** ** The log after a list of accepted events *)

(** The record [append_with_side] writes. *)
Definition event_record (seq : Z) (e : RecoveryEvent) : RecoveryRecord :=
  let body := mkRecord kRecoveryMagic kRecoveryRecordVersion (event_code (ev_type e)) seq (ev_order_id e) (ev_quantity e)
                (ev_price e) (ev_side e) (ev_timestamp_ns e) 0 in
  mkRecord kRecoveryMagic kRecoveryRecordVersion (event_code (ev_type e)) seq (ev_order_id e) (ev_quantity e)
    (ev_price e) (ev_side e) (ev_timestamp_ns e) (checksum (record_bytes body)).

(** Events the gateway can pass. *)
Record event_typed (e : RecoveryEvent) : Prop := {
  et_order_id : 0 < ev_order_id e < 2 ^ 64;
  et_quantity : 0 < ev_quantity e < 2 ^ 63;
  et_price : in_s 64 (ev_price e);
  et_side : in_u 8 (ev_side e);
  et_timestamp_ns : in_u 64 (ev_timestamp_ns e);
}.

Lemma event_code_range t : 1 <= event_code t <= 7.
Proof. destruct t; simpl; lia. Qed.

Lemma event_record_typed seq e : in_u 64 seq -> event_typed e -> record_typed (event_record seq e).
Proof.
  intros Hs []. pose proof (event_code_range (ev_type e)). split; cbn [event_record rr_magic rr_version rr_type rr_sequence
    rr_order_id rr_quantity rr_price rr_side rr_timestamp_ns rr_checksum]; try done; try apply checksum_range;
    unfold in_u, in_s, kRecoveryMagic, kRecoveryRecordVersion in *; change (2 ^ (64 - 1)) with (2 ^ 63);
    change (2 ^ 8) with 256; change (2 ^ 32) with 4294967296; lia.
Qed.

Lemma event_record_valid seq e : in_u 64 seq -> event_typed e -> valid_record seq (record_bytes (event_record seq e)) = true.
Proof.
  intros Hs He. unfold valid_record. rewrite read_record_bytes by by apply event_record_typed.
  rewrite !checksum_body. cbn [event_record rr_magic rr_version rr_sequence rr_checksum]. rewrite checksum_body.
  by rewrite !Z.eqb_refl.
Qed.

Fixpoint log_bytes (seq : Z) (evs : list RecoveryEvent) : list Z :=
  match evs with
  | [] => []
  | e :: evs => record_bytes (event_record seq e) ++ log_bytes (seq + 1) evs
  end.

Lemma log_bytes_records seq evs :
  length (log_bytes seq evs) = (length evs * record_size)%nat /\
  records record_size (length evs) (log_bytes seq evs) = imap (fun i e => record_bytes (event_record (seq + Z.of_nat i) e)) evs.
Proof.
  revert seq. induction evs as [|e evs IH]; intros seq; [done|]. cbn [log_bytes length records imap].
  rewrite length_app, record_bytes_length. destruct (IH (seq + 1)) as [-> H2]. split; [lia|].
  rewrite <- (record_bytes_length (event_record seq e)), take_app_length, drop_app_length, (record_bytes_length _), H2.
  f_equal; [by rewrite Z.add_0_r|]. apply imap_ext. intros i x _. simpl. do 2 f_equal. lia.
Qed.

Lemma log_record_count evs seq : record_count record_size (log_bytes seq evs) = Z.of_nat (length evs)
  /\ Z.of_nat (length (log_bytes seq evs)) mod Z.of_nat record_size = 0.
Proof.
  unfold record_count. destruct (log_bytes_records seq evs) as [-> _]. rewrite Nat2Z.inj_mul.
  split; [apply Z.div_mul|apply Z.mod_mul]; done.
Qed.

(** *** A session of appends *)
Fixpoint append_all (evs : list (RecoveryEvent * io)) (file : list Z) (L : RecoveryLedger) :
    list bool * list Z * RecoveryLedger :=
  match evs with
  | [] => ([], file, L)
  | (e, x) :: evs =>
      let '(ok, file, L) := append_and_flush e x file L in
      let '(oks, file, L) := append_all evs file L in
      (ok :: oks, file, L)
  end.

Lemma append_ok e x file L : event_typed e ->
  rl_open L = true ->
  let '(ok, file', L') := append_and_flush e x file L in
  if ok then file' = file ++ record_bytes (event_record (rl_sequence L) e) /\ L' = mkRecovery true (u64 (rl_sequence L + 1))
  else L' = L /\ exists k, (k <= record_size)%nat /\ file' = file ++ take k (record_bytes (event_record (rl_sequence L) e))
         /\ (k = record_size -> io_sync x = false).
Proof.
  intros He HL. pose proof (et_order_id _ He). pose proof (et_quantity _ He). unfold append_and_flush, append_with_side.
  rewrite HL. cbn [negb orb]. destruct (Z.eqb_spec (ev_order_id e) 0), (Z.leb_spec (ev_quantity e) 0); try lia. cbn [orb].
  cbv zeta. fold (event_record (rl_sequence L) e). pose proof (write_all_spec (io_writes x) (record_bytes (event_record (rl_sequence L) e)) file) as Hw.
  destruct (write_all _ _ _) as [[|] file']; cbn [negb].
  - destruct (io_sync x) eqn:Es; cbn [negb]; [done|]. split; [done|]. exists record_size. split; [done|].
    rewrite <- (record_bytes_length (event_record (rl_sequence L) e)), take_ge by done. done.
  - destruct Hw as (k & Hk & ->). rewrite record_bytes_length in Hk. split; [done|]. exists k. split_and!; [lia|done|lia].
Qed.

Lemma append_all_ok evs file seq :
  Forall (fun p => event_typed p.1) evs -> 0 <= seq -> seq + Z.of_nat (length evs) < 2 ^ 64 ->
  let '(oks, file', L') := append_all evs file (mkRecovery true seq) in
  Forall (fun ok => ok = true) oks -> file' = file ++ log_bytes seq (fst <$> evs) /\
    L' = mkRecovery true (seq + Z.of_nat (length evs)).
Proof.
  revert file seq. induction evs as [|[e x] evs IH]; intros file seq Ht Hs Hl; cbn [append_all fmap list_fmap log_bytes].
  { intros _. rewrite app_nil_r, Z.add_0_r. done. }
  inversion Ht as [|?? He Ht']; subst. cbn [length fst] in *.
  pose proof (append_ok e x file (mkRecovery true seq) He eq_refl) as Ha. cbn [rl_sequence] in Ha.
  destruct (append_and_flush e x file (mkRecovery true seq)) as [[[|] file1] L1].
  - destruct Ha as [-> ->]. rewrite wrap_u_id by (unfold in_u; lia).
    specialize (IH (file ++ record_bytes (event_record seq e)) (seq + 1) Ht' ltac:(lia) ltac:(lia)).
    destruct (append_all evs _ _) as [[oks file2] L2]. intros Hok. inversion Hok as [|??? Hok']; subst.
    destruct (IH Hok') as [-> ->]. rewrite <- app_assoc. split; [done|]. f_equal. lia.
  - destruct (append_all evs file1 L1) as [[oks file2] L2]. intros Hok. by inversion Hok.
Qed.

(** ** Replay against a finite map *)

(** What an event does to the open orders. *)
Definition spec_event (capacity : Z) (M : gmap Z RecoveredOrder) (e : RecoveryEvent) : option (gmap Z RecoveredOrder) :=
  let id := ev_order_id e in
  match ev_type e, M !! id with
  | (kAdd | kNew), Some _ => None
  | (kAdd | kNew), None =>
      if Z.of_nat (size M) =? capacity then None
      else Some (<[id := mkRecovered id (ev_quantity e) (ev_price e) (ev_side e) (ev_timestamp_ns e)]> M)
  | _, None => None
  | kTerminalFill, Some o => if ro_remaining o <? ev_quantity e then None else Some (delete id M)
  | kFill, Some o =>
      if ro_remaining o <? ev_quantity e then None
      else if ro_remaining o =? ev_quantity e then Some (delete id M)
      else Some (<[id := mkRecovered id (ro_remaining o - ev_quantity e) (ro_price o) (ro_side o) (ro_timestamp_ns o)]> M)
  | kReplace, Some o =>
      Some (<[id := mkRecovered id (ev_quantity e) (if 0 <? ev_price e then ev_price e else ro_price o) (ro_side o) (ro_timestamp_ns o)]> M)
  | kCancel, Some _ => Some (delete id M)
  | kAck, Some _ => None
  end.

Fixpoint spec_events (capacity : Z) (M : gmap Z RecoveredOrder) (evs : list RecoveryEvent) : option (gmap Z RecoveredOrder) :=
  match evs with
  | [] => Some M
  | e :: evs => M ← spec_event capacity M e; spec_events capacity M evs
  end.

(** The output array lists the map's orders. *)
Record lists (output : list RecoveredOrder) (M : gmap Z RecoveredOrder) : Prop := {
  ls_perm : output ≡ₚ (map_to_list M).*2;
  ls_keyed id o : M !! id = Some o -> ro_order_id o = id;
  ls_remaining id o : M !! id = Some o -> 0 < ro_remaining o < 2 ^ 63;
}.

Lemma lists_lookup output M o : lists output M -> o ∈ output <-> M !! ro_order_id o = Some o.
Proof.
  intros HL. rewrite (ls_perm _ _ HL), list_elem_of_fmap. split.
  - intros ([id o'] & -> & Hin%elem_of_map_to_list). cbn [snd]. by rewrite (ls_keyed _ _ HL id o').
  - intros HM. exists (ro_order_id o, o). split; [done|]. by apply elem_of_map_to_list.
Qed.

Lemma lists_length output M : lists output M -> length output = size M.
Proof. intros HL. rewrite (ls_perm _ _ HL). by rewrite length_fmap, length_map_to_list. Qed.

Lemma find_order_Some id output i : find_order id output = Some i -> exists o, output !! i = Some o /\ ro_order_id o = id.
Proof.
  revert i. induction output as [|o output IH]; intros i; cbn [find_order]; [done|].
  destruct (Z.eqb_spec (ro_order_id o) id); [intros [= <-]; by eexists|].
  destruct (find_order id output); [|done]. intros [= <-]. by apply IH.
Qed.

Lemma find_order_None id output : find_order id output = None -> forall o, o ∈ output -> ro_order_id o <> id.
Proof.
  induction output as [|o output IH]; cbn [find_order]; [intros _ o' Hin; by apply not_elem_of_nil in Hin|].
  destruct (Z.eqb_spec (ro_order_id o) id); [done|]. destruct (find_order id output); [done|]. intros _ o' [->|]%elem_of_cons; [done|].
  by apply IH.
Qed.

(** The scan of [apply] finds the map's entry. *)
Lemma find_order_lists id output M : lists output M ->
  match find_order id output with
  | Some i => exists o, output !! i = Some o /\ M !! id = Some o
  | None => M !! id = None
  end.
Proof.
  intros HL. destruct (find_order id output) as [i|] eqn:Ef.
  - apply find_order_Some in Ef as (o & Hi & <-). exists o. split; [done|]. apply (lists_lookup output); [done|].
    by eapply list_elem_of_lookup_2.
  - destruct (M !! id) as [o|] eqn:HM; [|done]. exfalso. pose proof (ls_keyed _ _ HL id o HM) as <-.
    by eapply find_order_None; [exact Ef|apply (lists_lookup output M o HL)|].
Qed.

(** Overwriting and removing by swapping with the last. *)
Lemma perm_insert (output : list RecoveredOrder) i o z :
  output !! i = Some o -> o :: <[i := z]> output ≡ₚ z :: output.
Proof.
  intros Hi. pose proof (lookup_lt_Some _ _ _ Hi). rewrite <- (take_drop_middle output i o Hi) at 2.
  rewrite insert_take_drop by done. by rewrite <- !Permutation_middle, perm_swap.
Qed.

Lemma remove_perm output i o : output !! i = Some o -> o :: remove output i ≡ₚ output.
Proof.
  intros Hi. unfold remove. destruct (last output) as [z|] eqn:Hz; [|by apply last_None in Hz; subst].
  apply last_Some in Hz as (l & ->). rewrite length_app. cbn [length]. replace (length l + 1 - 1)%nat with (length l) by lia.
  destruct (decide (i < length l)%nat) as [Hlt|Hge].
  - rewrite insert_app_l by done. rewrite <- (length_insert l i z), take_app_length.
    rewrite lookup_app_l in Hi by done. rewrite (perm_insert l i o z Hi). apply Permutation_cons_append.
  - pose proof (lookup_lt_Some _ _ _ Hi) as Hlt. rewrite length_app in Hlt. cbn [length] in Hlt.
    assert (i = length l) as -> by lia. rewrite list_lookup_middle in Hi by done. injection Hi as ->.
    rewrite insert_app_r_alt by done. rewrite take_app_length. apply Permutation_cons_append.
Qed.

Lemma map_values_delete (M : gmap Z RecoveredOrder) id o :
  M !! id = Some o -> (map_to_list M).*2 ≡ₚ o :: (map_to_list (delete id M)).*2.
Proof. intros HM. by rewrite <- (map_to_list_delete M id o HM). Qed.

Lemma lists_delete output M i id o :
  lists output M -> output !! i = Some o -> M !! id = Some o -> lists (remove output i) (delete id M).
Proof.
  intros HL Hi HM. split.
  - apply (Permutation_cons_inv (a := o)). rewrite (remove_perm output i o Hi), (ls_perm _ _ HL). by apply map_values_delete.
  - intros id' o' [_ HM']%lookup_delete_Some. by eapply ls_keyed.
  - intros id' o' [_ HM']%lookup_delete_Some. by eapply ls_remaining.
Qed.

Lemma lists_insert_key output output' M id o' :
  lists output M -> output' ≡ₚ (map_to_list (<[id := o']> M)).*2 -> ro_order_id o' = id -> 0 < ro_remaining o' < 2 ^ 63 ->
  lists output' (<[id := o']> M).
Proof.
  intros HL Hp Hid Hrem. split; [done| |]; intros id' o [[<- <-]|[_ HM]]%lookup_insert_Some; try done.
  - by eapply ls_keyed.
  - by eapply ls_remaining.
Qed.

Lemma lists_update output M i id o o' :
  lists output M -> output !! i = Some o -> M !! id = Some o -> ro_order_id o' = id -> 0 < ro_remaining o' < 2 ^ 63 ->
  lists (<[i := o']> output) (<[id := o']> M).
Proof.
  intros HL Hi HM Hid Hrem. eapply lists_insert_key; [done| |done|done]. apply (Permutation_cons_inv (a := o)).
  rewrite (perm_insert output i o o' Hi), (ls_perm _ _ HL), (map_values_delete M id o HM), <- insert_delete_eq.
  rewrite map_to_list_insert by apply lookup_delete_eq. cbn [fmap list_fmap snd]. apply perm_swap.
Qed.

Lemma lists_add output M o' :
  lists output M -> M !! ro_order_id o' = None -> 0 < ro_remaining o' < 2 ^ 63 ->
  lists (output ++ [o']) (<[ro_order_id o' := o']> M).
Proof.
  intros HL HM Hrem. eapply lists_insert_key; [done| |done|done].
  rewrite map_to_list_insert by done. cbn [fmap list_fmap snd]. rewrite <- Permutation_cons_append. constructor. apply HL.
Qed.

Lemma apply_sim capacity seq e output M : lists output M -> event_typed e ->
  match spec_event capacity M e with
  | Some M' => exists output', apply capacity (event_record seq e) output = Some output' /\ lists output' M'
  | None => apply capacity (event_record seq e) output = None
  end.
Proof.
  intros HL He. pose proof (find_order_lists (ev_order_id e) output M HL) as Hf. pose proof (et_quantity _ He) as Hq.
  unfold spec_event, apply. cbn [event_record rr_order_id rr_type rr_quantity rr_price rr_side rr_timestamp_ns].
  destruct (find_order (ev_order_id e) output) as [i|].
  - destruct Hf as (o & Hi & HM). rewrite HM, Hi. cbn [mbind option_bind]. pose proof (ls_remaining _ _ HL _ _ HM) as Hrem.
    destruct (ev_type e); cbn [event_code Z.eqb Pos.eqb orb]; try done.
    + destruct (Z.ltb_spec (ro_remaining o) (ev_quantity e)); [done|].
      assert (Hs : s64 (ro_remaining o - ev_quantity e) = ro_remaining o - ev_quantity e)
        by (apply wrap_s_id; [lia|unfold in_s; change (2 ^ (64 - 1)) with (2 ^ 63); lia]).
      rewrite Hs. replace (ro_remaining o - ev_quantity e =? 0) with (ro_remaining o =? ev_quantity e) by lia.
      rewrite (ls_keyed _ _ HL _ _ HM).
      destruct (Z.eqb_spec (ro_remaining o) (ev_quantity e)); eexists; (split; [done|]).
      * set (o' := mkRecovered _ _ _ _ _).
        assert (Hp : o' :: remove (<[i := o']> output) i ≡ₚ <[i := o']> output).
        { apply remove_perm, list_lookup_insert_eq. by eapply lookup_lt_Some. }
        split; [|by intros ?? [_ ?]%lookup_delete_Some; eapply ls_keyed|by intros ?? [_ ?]%lookup_delete_Some; eapply ls_remaining].
        apply (Permutation_cons_inv (a := o)), (Permutation_cons_inv (a := o')).
        rewrite perm_swap, Hp, (perm_insert output i o o' Hi). constructor. rewrite (ls_perm _ _ HL). by apply map_values_delete.
      * eapply lists_update; [done|done|done|done|]. cbn [ro_remaining]. lia.
    + eexists. split; [done|]. by eapply lists_delete.
    + destruct (Z.leb_spec (ev_quantity e) 0); [lia|]. rewrite (ls_keyed _ _ HL _ _ HM). eexists. split; [done|]. by eapply lists_update.
    + destruct (Z.leb_spec (ev_quantity e) 0); [lia|]. cbn [orb]. destruct (ro_remaining o <? ev_quantity e); [done|].
      eexists. split; [done|]. by eapply lists_delete.
  - rewrite Hf. rewrite <- (lists_length output M HL).
    destruct (ev_type e); cbn [event_code Z.eqb Pos.eqb orb]; try done; destruct (_ =? capacity); try done;
      (eexists; split; [done|]; by apply (lists_add output M (mkRecovered _ _ _ _ _))).
Qed.

Lemma replay_loop_sim capacity evs seq output M :
  lists output M -> Forall event_typed evs -> 0 <= seq -> seq + Z.of_nat (length evs) < 2 ^ 64 ->
  match spec_events capacity M evs with
  | Some M' => exists output', replay_loop capacity (records record_size (length evs) (log_bytes seq evs)) seq output = (true, output')
      /\ lists output' M'
  | None => (replay_loop capacity (records record_size (length evs) (log_bytes seq evs)) seq output).1 = false
  end.
Proof.
  revert seq output M. induction evs as [|e evs IH]; intros seq output M HL Ht Hs Hl; [by eexists|].
  inversion Ht as [|?? He Ht']; subst. cbn [length log_bytes records spec_events] in *.
  rewrite <- (record_bytes_length (event_record seq e)), take_app_length, drop_app_length. cbn [replay_loop].
  rewrite event_record_valid by (done || (unfold in_u; lia)). cbn [negb].
  rewrite read_record_bytes by (apply event_record_typed; [unfold in_u; lia|done]).
  pose proof (apply_sim capacity seq e output M HL He) as Ha. rewrite record_bytes_length.
  destruct (spec_event capacity M e) as [M1|]; cbn [mbind option_bind].
  - destruct Ha as (output1 & -> & HL1). rewrite wrap_u_id by (unfold in_u; lia). apply IH; [done|done|lia|lia].
  - by rewrite Ha.
Qed.

Lemma verify_loop_ok evs seq : Forall event_typed evs -> 0 <= seq -> seq + Z.of_nat (length evs) < 2 ^ 64 ->
  verify_loop (records record_size (length evs) (log_bytes seq evs)) seq = (true, seq + Z.of_nat (length evs), 0).
Proof.
  revert seq. induction evs as [|e evs IH]; intros seq Ht Hs Hl; [by rewrite Z.add_0_r|].
  inversion Ht as [|?? He Ht']; subst. cbn [length log_bytes records verify_loop] in *.
  rewrite <- (record_bytes_length (event_record seq e)), take_app_length, drop_app_length.
  rewrite event_record_valid by (done || (unfold in_u; lia)). cbn [negb verify_loop]. rewrite wrap_u_id by (unfold in_u; lia).
  rewrite record_bytes_length, IH by (done || lia). f_equal. f_equal. lia.
Qed.

(** Reopening, checking and replaying a log of typed events. *)
Lemma reopen_log capacity es : Forall event_typed es -> Z.of_nat (length es) < 2 ^ 63 -> capacity <> 0 ->
  let file := log_bytes 0 es in
  let '(opened, L) := open file fresh_recovery in
  opened = true /\ rl_sequence L = Z.of_nat (length es) /\
  verify_wal_integrity file = (true, Z.of_nat (length es), 0) /\
  match spec_events capacity ∅ es with
  | Some M => (replay capacity file L).1 = true /\ (replay capacity file L).2 ≡ₚ (map_to_list M).*2
  | None => (replay capacity file L).1 = false
  end.
Proof.
  intros Ht' Hlen Hcap file. subst file. assert (H63 : 2 ^ 63 < 2 ^ 64) by done.
  destruct (log_record_count es 0) as [Hc Hm]. unfold open, fresh_recovery. cbn [rl_open]. rewrite Hm. cbn [Z.eqb negb].
  split_and!; [done|by rewrite Hc| |].
  - unfold verify_wal_integrity. rewrite Hm, Hc, Nat2Z.id. cbn [Z.eqb negb]. rewrite verify_loop_ok by (done || lia). done.
  - unfold replay. cbn [rl_open negb orb]. destruct (Z.eqb_spec capacity 0); [done|]. rewrite Hm, Hc, Nat2Z.id. cbn [Z.eqb negb].
    pose proof (replay_loop_sim capacity es 0 [] ∅) as Hr. destruct (spec_events capacity ∅ es) as [M|].
    + destruct Hr as (output & -> & HL); [|done|lia|lia|]; [|split; [done|apply HL]].
      split; [by rewrite map_to_list_empty|..]; intros ??; by rewrite lookup_empty.
    + apply Hr; [|done|lia|lia]. split; [by rewrite map_to_list_empty|..]; intros ??; by rewrite lookup_empty.
Qed.

(** C11: crash recovery gives back the open orders.  After a session in which every
    append succeeded, whatever short or interrupted writes it took, reopening
    the log finds every record, the integrity check passes, and [replay]
    accepts exactly the histories that make sense for a book of at most
    [capacity] open orders and then returns those orders, each once, with
    their remaining quantity, price, side and time. *)
Theorem recovery_roundtrip (capacity : Z) (evs : list (RecoveryEvent * io))
    (Ht : Forall (fun p => event_typed p.1) evs) (Hlen : Z.of_nat (length evs) < 2 ^ 63) (Hcap : capacity <> 0)
    (Hok : Forall (fun ok => ok = true) (append_all evs [] (mkRecovery true 0)).1.1) :
  let file := (append_all evs [] (mkRecovery true 0)).1.2 in
  let '(opened, L) := open file fresh_recovery in
  opened = true /\ rl_sequence L = Z.of_nat (length evs) /\
  verify_wal_integrity file = (true, Z.of_nat (length evs), 0) /\
  match spec_events capacity ∅ (fst <$> evs) with
  | Some M => (replay capacity file L).1 = true /\ (replay capacity file L).2 ≡ₚ (map_to_list M).*2
  | None => (replay capacity file L).1 = false
  end.
Proof.
  intros file. assert (Ht' : Forall event_typed (fst <$> evs)) by by apply Forall_fmap.
  assert (H63 : 2 ^ 63 < 2 ^ 64) by done.
  pose proof (append_all_ok evs [] 0 Ht ltac:(lia) ltac:(lia)) as Ha.
  assert (Hfile : file = log_bytes 0 (fst <$> evs)).
  { subst file. destruct (append_all evs [] _) as [[oks file'] L']. cbn [fst snd] in *. by destruct (Ha Hok) as [-> _]. }
  clearbody file. subst file. rewrite <- (length_fmap fst evs) in *. by apply reopen_log.
Qed.

(** Short and interrupted writes, a partial fill and a cancel. *)
Lemma recovery_roundtrip_witness :
  let evs := [(mkEvent kAdd 7 10 100 0 1, mkIo [Written 3; Interrupted; Written 9] true);
              (mkEvent kNew 8 5 101 1 2, good_io); (mkEvent kFill 7 4 100 0 3, good_io); (mkEvent kCancel 8 5 101 1 4, good_io)] in
  let file := (append_all evs [] (mkRecovery true 0)).1.2 in
  (replay 64 file (open file fresh_recovery).2).2 ≡ₚ [mkRecovered 7 6 100 0 1].
Proof.
  intros evs file. pose proof (recovery_roundtrip 64 evs) as H.
  assert (Ht : Forall (fun p => event_typed p.1) evs).
  { repeat (apply Forall_cons; split; [by split|]). by apply Forall_nil. }
  assert (Hok : Forall (fun ok => ok = true) (append_all evs [] (mkRecovery true 0)).1.1).
  { assert (E : (append_all evs [] (mkRecovery true 0)).1.1 = [true; true; true; true]) by (vm_compute; reflexivity).
    rewrite E. repeat (apply Forall_cons; split; [done|]). by apply Forall_nil. }
  specialize (H Ht ltac:(done) ltac:(done) Hok). cbv zeta in H. fold file in H.
  destruct (open file fresh_recovery) as [opened L]. destruct H as (_ & _ & _ & H).
  destruct (spec_events 64 ∅ (fst <$> evs)) as [M|] eqn:E; [|vm_compute in E; discriminate E].
  cbn [snd]. destruct H as [_ ->].
  assert (EM : (fun M : gmap Z RecoveredOrder => (map_to_list M).*2) <$> spec_events 64 ∅ (fst <$> evs) = Some [mkRecovered 7 6 100 0 1])
    by (vm_compute; reflexivity).
  rewrite E in EM. by injection EM as ->.
Defined.

(** ** The checksum *)
Lemma fnv_prime_inverse x : in_u 32 x -> u32 (u32 (x * 16777619) * 899433627) = x.
Proof.
  intros Hx. unfold wrap_u. rewrite Zmult_mod_idemp_l, <- Z.mul_assoc.
  rewrite <- Zmult_mod_idemp_r. change ((16777619 * 899433627) mod 2 ^ 32) with 1. rewrite Z.mul_1_r. by apply Z.mod_small.
Qed.

Lemma lxor_range h x : in_u 32 h -> in_u 8 x -> in_u 32 (Z.lxor h x).
Proof.
  unfold in_u. intros [H1 H2] [H3 H4]. split; [by apply Z.lxor_nonneg; split|].
  destruct (Z.eq_dec (Z.lxor h x) 0) as [->|]; [lia|]. assert (0 <= Z.lxor h x) by (by apply Z.lxor_nonneg; split).
  assert (2 ^ 8 < 2 ^ 32) by done. apply Z.log2_lt_pow2; [lia|]. eapply Z.le_lt_trans; [by apply Z.log2_lxor|].
  apply Z.max_lub_lt; (destruct (Z.eq_dec h 0), (Z.eq_dec x 0); subst; try (simpl; lia); apply Z.log2_lt_pow2; lia).
Qed.

Lemma lxor_inj_r h x y : Z.lxor h x = Z.lxor h y -> x = y.
Proof.
  intros E. rewrite <- (Z.lxor_0_l x), <- (Z.lxor_0_l y), <- (Z.lxor_nilpotent h), !Z.lxor_assoc. by rewrite E.
Qed.

Lemma fnv_step_inj h x h' x' : in_u 32 h -> in_u 32 h' -> in_u 8 x -> in_u 8 x' ->
  fnv_step h x = fnv_step h' x' -> Z.lxor h x = Z.lxor h' x'.
Proof.
  intros Hh Hh' Hx Hx' E. unfold fnv_step in E.
  rewrite <- (fnv_prime_inverse (Z.lxor h x)), <- (fnv_prime_inverse (Z.lxor h' x')) by (by apply lxor_range). by rewrite E.
Qed.

Lemma fnv_fold_inj l h h' : bytes_ok l -> in_u 32 h -> in_u 32 h' -> foldl fnv_step h l = foldl fnv_step h' l -> h = h'.
Proof.
  revert h h'. induction l as [|x l IH]; intros h h' Hl Hh Hh' E; [done|]. inversion Hl as [|?? Hx Hl']; subst.
  cbn [foldl] in E. apply IH in E; [|done|apply fnv_step_range|apply fnv_step_range].
  apply fnv_step_inj in E; [|done..]. rewrite !(Z.lxor_comm _ x) in E. by eapply lxor_inj_r.
Qed.

(** A changed byte before the checksum changes the sum. *)
Lemma checksum_changes raw i b : bytes_ok raw -> length raw = record_size -> in_u 8 b -> (i < 56)%nat -> raw !! i <> Some b ->
  checksum (<[i := b]> raw) <> checksum raw.
Proof.
  intros Hraw Hlen Hb Hi Hne. destruct (lookup_lt_is_Some_2 raw i) as [x Hx]; [unfold record_size in *; lia|].
  assert (Hix : in_u 8 x) by by eapply Forall_lookup_1 in Hx.
  assert (Hxt : take 56 raw !! i = Some x) by by rewrite lookup_take_lt.
  unfold checksum. rewrite take_insert_lt by done. intros E.
  assert (Hlt : (i < length (take 56 raw))%nat) by by eapply lookup_lt_Some.
  rewrite insert_take_drop, <- (take_drop_middle (take 56 raw) i x Hxt), !foldl_app in E by done. cbn [foldl] in E.
  rewrite !(take_drop_middle (take 56 raw) i x Hxt) in E.
  set (h := foldl fnv_step 2166136261 (take i (take 56 raw))) in E.
  assert (Hh : in_u 32 h).
  { unfold h. destruct (take i (take 56 raw)) as [|y l _] using rev_ind; [done|]. rewrite foldl_app. apply fnv_step_range. }
  apply fnv_fold_inj in E; [|by apply Forall_drop, Forall_take|apply fnv_step_range|apply fnv_step_range].
  apply fnv_step_inj in E; [|done..]. apply lxor_inj_r in E. by subst.
Qed.

(** A changed byte of the checksum changes the stored sum. *)
Lemma stored_sum_changes raw i b : bytes_ok raw -> length raw = record_size -> in_u 8 b -> (56 <= i < 60)%nat -> raw !! i <> Some b ->
  field (<[i := b]> raw) 56 4 <> field raw 56 4.
Proof.
  intros Hraw Hlen Hb Hi Hne E. unfold field in E. rewrite drop_insert_ge, take_insert_lt in E by lia.
  set (l := take 4 (drop 56 raw)) in E. assert (Hl : bytes_ok l) by (by apply Forall_take, Forall_drop).
  apply Hne. rewrite <- (Nat.sub_add 56 i), Nat.add_comm by lia. rewrite <- lookup_drop.
  rewrite <- (lookup_take_lt (drop 56 raw) 4) by lia. fold l.
  rewrite <- (le_split_value l Hl), <- E, <- (length_insert l (i - 56) b), le_split_value by (by apply Forall_insert).
  apply list_lookup_insert_eq. unfold l. rewrite length_take, length_drop, Hlen. unfold record_size. lia.
Qed.

(** C19: the checksum detects any change of a single byte: if a record on disk passes
    the header check, then the same record with any one of its first 60 bytes
    replaced by another value does not, whatever sequence number is
    expected.  The four bytes of padding behind them are not covered. *)
Theorem recovery_detects_byte_change (raw : list Z) (i : nat) (b : Z) (seq seq' : Z)
    (Hraw : bytes_ok raw) (Hlen : length raw = record_size) (Hb : in_u 8 b)
    (Hi : (i < 60)%nat) (Hne : raw !! i <> Some b) (Hv : valid_record seq raw = true) :
  valid_record seq' (<[i := b]> raw) = false.
Proof.
  unfold valid_record in *. split_guards. repeat (apply andb_false_iff; right). apply Z.eqb_neq. apply Z.eqb_eq in H0.
  destruct (decide (i < 56)%nat) as [Hlt|Hge].
  - replace (rr_checksum (read_record (<[i := b]> raw))) with (rr_checksum (read_record raw))
      by (unfold read_record, field; cbn [rr_checksum]; by rewrite drop_insert_lt by lia).
    rewrite <- H0. by apply checksum_changes.
  - replace (checksum (<[i := b]> raw)) with (checksum raw) by (unfold checksum; by rewrite take_insert_ge by lia).
    rewrite H0. intros E. symmetry in E. revert E. apply stored_sum_changes; [done|done|done|lia|done].
Qed.

Lemma recovery_detects_byte_change_witness :
  let raw := record_bytes (event_record 0 (mkEvent kAdd 7 10 100 0 1)) in
  valid_record 0 raw = true /\ valid_record 0 (<[24%nat := 11]> raw) = false.
Proof.
  intros raw. assert (Hv : valid_record 0 raw = true) by (vm_compute; reflexivity).
  assert (Hb : bytes_ok raw) by (apply (bool_decide_unpack _); vm_compute; exact I).
  assert (Hl : length raw = record_size) by (vm_compute; reflexivity).
  assert (Hne : raw !! 24%nat <> Some 11) by (vm_compute; discriminate).
  clearbody raw. split; [exact Hv|]. apply (recovery_detects_byte_change raw 24 11 0 0 Hb Hl); [done|lia|exact Hne|exact Hv].
Defined.

(** An append whose write completes. *)
Lemma append_written e sync file seq : event_typed e ->
  append_and_flush e (mkIo [] sync) file (mkRecovery true seq) =
  (sync, file ++ record_bytes (event_record seq e), mkRecovery true (if sync then u64 (seq + 1) else seq)).
Proof.
  intros He. pose proof (et_order_id _ He). pose proof (et_quantity _ He). unfold append_and_flush, append_with_side.
  cbn [rl_open negb orb rl_sequence io_writes io_sync].
  destruct (Z.eqb_spec (ev_order_id e) 0), (Z.leb_spec (ev_quantity e) 0); try lia. cbn [orb]. cbv zeta.
  fold (event_record seq e). rewrite write_all_nil. cbn [negb]. by destruct sync.
Qed.

(** A record whose fsync fails is on disk although the append reported failure
    and the sequence number did not advance.  The next accepted record repeats
    the number, and from then on the log fails the integrity check and cannot
    be replayed. *)
Theorem recovery_fsync_failure_poisons_log (e1 e2 : RecoveryEvent) (H1 : event_typed e1) (H2 : event_typed e2) :
  let '(ok1, file1, L1) := append_and_flush e1 (mkIo [] false) [] (mkRecovery true 0) in
  let '(ok2, file2, L2) := append_and_flush e2 good_io file1 L1 in
  ok1 = false /\ ok2 = true /\ (open file2 fresh_recovery).1 = true /\
  (verify_wal_integrity file2).1.1 = false /\
  forall capacity, (replay capacity file2 (mkRecovery true 2)).1 = false.
Proof.
  rewrite append_written by done. unfold good_io. rewrite append_written by done. cbn [app].
  assert (H0 : in_u 64 0) by done. pose proof (event_record_valid 0 e1 H0 H1) as Hv1.
  pose proof (read_record_bytes _ (event_record_typed 0 e2 H0 H2)) as Hread.
  set (r1 := record_bytes (event_record 0 e1)) in *. set (r2 := record_bytes (event_record 0 e2)) in *.
  assert (Hlen : length (r1 ++ r2) = 128%nat) by (rewrite length_app; unfold r1, r2; by rewrite !record_bytes_length).
  assert (Hrec : records record_size 2 (r1 ++ r2) = [r1; r2]).
  { pose proof (records_concat record_size [r1; r2] ltac:(unfold record_size; lia)) as [H _].
    - repeat constructor; apply record_bytes_length.
    - cbn [concat] in H. by rewrite app_nil_r in H. }
  assert (Hc : record_count record_size (r1 ++ r2) = 2) by (unfold record_count; by rewrite Hlen).
  assert (Hm : Z.of_nat (length (r1 ++ r2)) mod Z.of_nat record_size = 0) by by rewrite Hlen.
  assert (Hv2 : valid_record 1 r2 = false).
  { unfold valid_record. rewrite Hread. cbn [event_record rr_sequence].
    change (0 =? 1) with false. rewrite andb_false_r. done. }
  split_and!; [done|done|unfold open, fresh_recovery; cbn [rl_open]; by rewrite Hm| |].
  - unfold verify_wal_integrity. rewrite Hm, Hc. change (Z.to_nat 2) with 2%nat.
    rewrite Hrec. cbn [Z.eqb negb verify_loop]. rewrite Hv1. cbn [negb verify_loop].
    change (u64 (0 + 1)) with 1. by rewrite Hv2.
  - intros capacity. unfold replay. cbn [rl_open negb orb]. destruct (capacity =? 0); [done|]. rewrite Hm, Hc.
    change (Z.to_nat 2) with 2%nat. rewrite Hrec. cbn [Z.eqb negb replay_loop]. rewrite Hv1. cbn [negb].
    destruct (apply capacity (read_record r1) []) as [output|]; [|done]. change (u64 (0 + 1)) with 1. cbn [replay_loop].
    by rewrite Hv2.
Qed.

Lemma recovery_fsync_failure_poisons_log_witness : exists file2,
  (verify_wal_integrity file2).1.1 = false /\ (replay 64 file2 (mkRecovery true 2)).1 = false.
Proof.
  pose proof (recovery_fsync_failure_poisons_log (mkEvent kAdd 7 10 100 0 1) (mkEvent kAdd 8 5 100 0 2)) as H.
  assert (H1 : event_typed (mkEvent kAdd 7 10 100 0 1)) by by split.
  assert (H2 : event_typed (mkEvent kAdd 8 5 100 0 2)) by by split.
  specialize (H H1 H2). destruct (append_and_flush _ _ [] _) as [[ok1 file1] L1]. destruct (append_and_flush _ _ file1 L1) as [[ok2 file2] L2].
  exists file2. split; [apply H|]. destruct H as (_ & _ & _ & _ & H). apply (H 64).
Defined.
