(* ===== verification/AuditLog.v ===== *)
(** * DurableAuditLog (luv_safety.hpp): the hash-chained audit trail

    Events are 112 bytes in the host's (little-endian) layout.  SHA-256 is a
    parameter ([None] when the library fails); the file is the list of its
    bytes. *)
From Stdlib Require Import ZArith Lia ZifyBool.
From S2P Require Import Prelude Bytes Files.

Record AuditEvent := mkAudit {
  ae_sequence : Z;              (* uint64_t, offset 0 *)
  ae_timestamp_ns : Z;          (* uint64_t, 8 *)
  ae_order_id : Z;              (* uint64_t, 16 *)
  ae_price : Z;                 (* int64_t, 24 *)
  ae_quantity : Z;              (* int64_t, 32 *)
  ae_trader_id : Z;             (* uint16_t, 40 *)
  ae_side : Z;                  (* uint8_t, 42 *)
  ae_type : Z;                  (* uint8_t, 43 *)
}.

Definition event_size : nat := 112.
Definition zero_hash : list Z := replicate 32 0.

(** The fields before the hashes. *)
Definition event_fields (e : AuditEvent) : list Z :=
  le_split 8 (ae_sequence e) ++ le_split 8 (ae_timestamp_ns e) ++ le_split 8 (ae_order_id e) ++ le_split 8 (u64 (ae_price e))
  ++ le_split 8 (u64 (ae_quantity e)) ++ le_split 2 (ae_trader_id e) ++ [ae_side e] ++ [ae_type e].

(** The object representation; the last four bytes are padding. *)
Definition event_bytes (e : AuditEvent) (previous_hash hash : list Z) : list Z :=
  event_fields e ++ previous_hash ++ hash ++ [0; 0; 0; 0].

(** What the checks read of 112 bytes. *)
Definition raw_sequence (raw : list Z) : Z := le_value (take 8 raw).
Definition raw_timestamp (raw : list Z) : Z := le_value (take 8 (drop 8 raw)).
Definition raw_previous_hash (raw : list Z) : list Z := take 32 (drop 44 raw).
Definition raw_hash (raw : list Z) : list Z := take 32 (drop 76 raw).

Record DurableAuditLog := mkLog {
  al_open : bool;               (* _fd >= 0 *)
  al_sync_interval : Z;         (* uint32_t *)
  al_pending : Z;               (* uint32_t *)
  al_sequence : Z;              (* uint64_t *)
  al_tail : list Z;             (* std::array<uint8_t, 32> *)
}.

Definition fresh_log : DurableAuditLog := mkLog false 100 0 0 zero_hash.

Section log.
Context (sha256 : list Z -> option (list Z)).

(** [sha256(previous_hash, 32, &sequence, 48)]: the second part is the 44 bytes
    of fields and the first four bytes of the previous hash, which follows. *)
Definition digest (raw : list Z) : option (list Z) := sha256 (raw_previous_hash raw ++ take 48 raw).

Definition valid_event (raw : list Z) : bool := bool_decide (digest raw = Some (raw_hash raw)).

(** The loops of [verify_log_integrity] and [validate_existing_records]: the
    answer, the sequence reached and the last hash. *)
Fixpoint verify_loop (recs : list (list Z)) (seq : Z) (previous : list Z) : bool * Z * list Z :=
  match recs with
  | [] => (true, seq, previous)
  | raw :: recs =>
      if negb (raw_sequence raw =? seq) || negb (bool_decide (raw_previous_hash raw = previous)) || negb (valid_event raw)
      then (false, seq, previous)
      else verify_loop recs (u64 (seq + 1)) (raw_hash raw)
  end.

(** Answer, valid events and, on success, the root hash. *)
Definition verify_log_integrity (file : list Z) : bool * Z * list Z :=
  if negb (Z.of_nat (length file) mod Z.of_nat event_size =? 0) then (false, 0, zero_hash)
  else verify_loop (records event_size (Z.to_nat (record_count event_size file)) file) 0 zero_hash.

(** [open] on a file whose [open(2)] succeeds; a refusal closes it again. *)
Definition open (file : list Z) (sync_interval : Z) (L : DurableAuditLog) : bool * DurableAuditLog :=
  if al_open L || (sync_interval =? 0) then (false, L)
  else if negb (Z.of_nat (length file) mod Z.of_nat event_size =? 0)
  then (false, mkLog false sync_interval 0 (al_sequence L) zero_hash)
  else
    let '(valid, seq, previous) := verify_loop (records event_size (Z.to_nat (record_count event_size file)) file) 0 zero_hash in
    if valid then (true, mkLog true sync_interval 0 seq previous)
    else (false, mkLog false sync_interval 0 seq zero_hash).

Definition flush (sync : bool) (L : DurableAuditLog) : bool * DurableAuditLog :=
  if negb (al_open L) then (false, L)
  else if negb sync then (false, L)
  else (true, mkLog (al_open L) (al_sync_interval L) 0 (al_sequence L) (al_tail L)).

Definition append (timestamp_ns order_id price quantity trader_id side type : Z) (x : io) (file : list Z) (L : DurableAuditLog) :
    bool * list Z * DurableAuditLog :=
  if negb (al_open L) || (order_id =? 0) || (quantity <=? 0) || (1 <? side) then (false, file, L)
  else
    let event := mkAudit (al_sequence L) timestamp_ns order_id price quantity trader_id side type in
    match digest (event_bytes event (al_tail L) zero_hash) with
    | None => (false, file, L)
    | Some hash =>
        let '(written, file) := write_all (io_writes x) (event_bytes event (al_tail L) hash) file in
        if negb written then (false, file, L)
        else
          let L := mkLog (al_open L) (al_sync_interval L) (u32 (al_pending L + 1)) (u64 (al_sequence L + 1)) hash in
          if al_pending L <? al_sync_interval L then (true, file, L)
          else let '(ok, L) := flush (io_sync x) L in (ok, file, L)
    end.

Definition close (sync : bool) (L : DurableAuditLog) : DurableAuditLog :=
  if negb (al_open L) then L
  else let '(_, L) := flush sync L in mkLog false (al_sync_interval L) (al_pending L) (al_sequence L) (al_tail L).

(** ** Reading back *)

(** [pread] of one event. *)
Definition pread_event (file : list Z) (offset : Z) : option (list Z) :=
  if (0 <=? offset) && (offset + Z.of_nat event_size <=? Z.of_nat (length file))
  then Some (take event_size (drop (Z.to_nat offset) file)) else None.

Definition event_offset (seq : Z) : Z := s64 (u64 (seq * Z.of_nat event_size)).

Fixpoint read_loop (file : list Z) (start_offset i : Z) (n : nat) : list (list Z) :=
  match n with
  | O => []
  | S n =>
      match pread_event file (s64 (start_offset + s64 (i * Z.of_nat event_size))) with
      | None => []
      | Some raw => raw :: read_loop file start_offset (i + 1) n
      end
  end.

Definition read_range (start_seq end_seq max_events : Z) (file : list Z) (L : DurableAuditLog) : bool * list (list Z) :=
  if negb (al_open L) || (max_events =? 0) || (end_seq <? start_seq) then (false, [])
  else
    let req_count := u64 (end_seq - start_seq + 1) in
    let to_read := if req_count <? max_events then req_count else max_events in
    let out := read_loop file (event_offset start_seq) 0 (Z.to_nat to_read) in
    (negb (Z.of_nat (length out) =? 0), out).

(** ** Manifest checkpoints (144 bytes) *)
Definition manifest_body (start_seq end_seq start_ts end_ts count : Z) (start_hash end_hash : list Z) : list Z :=
  le_split 4 0x4D4E4653 ++ le_split 4 1 ++ le_split 8 start_seq ++ le_split 8 end_seq ++ le_split 8 start_ts
  ++ le_split 8 end_ts ++ le_split 8 count ++ start_hash ++ end_hash.

(** The bytes appended to the manifest file, [None] when the checkpoint is
    refused. *)
Definition write_manifest_checkpoint (start_seq end_seq : Z) (file : list Z) (L : DurableAuditLog) : option (list Z) :=
  if negb (al_open L) || (end_seq <? start_seq) || (al_sequence L <=? end_seq) then None
  else
    let count := u64 (end_seq - start_seq + 1) in
    first_event ← pread_event file (event_offset start_seq);
    last_event ← pread_event file (event_offset end_seq);
    let body := manifest_body start_seq end_seq (raw_timestamp first_event) (raw_timestamp last_event) count
                  (raw_previous_hash first_event) (raw_hash last_event) in
    hash ← sha256 body;
    Some (body ++ hash).

(** The loop of [verify_manifest] over the events of the checkpoint. *)
Fixpoint manifest_loop (recs : list (list Z)) (expected : list Z) : option (list Z) :=
  match recs with
  | [] => Some expected
  | raw :: recs =>
      if negb (bool_decide (raw_previous_hash raw = expected)) || negb (valid_event raw) then None
      else manifest_loop recs (raw_hash raw)
  end.

Definition verify_manifest (file manifest : list Z) : bool :=
  if (length manifest <? 144)%nat then false
  else
    let checkpoint := take 144 manifest in
    let start_sequence := le_value (take 8 (drop 8 checkpoint)) in
    let end_sequence := le_value (take 8 (drop 16 checkpoint)) in
    if negb (le_value (take 4 checkpoint) =? 0x4D4E4653) || negb (le_value (take 4 (drop 4 checkpoint)) =? 1) then false
    else if negb (bool_decide (sha256 (take 112 checkpoint) = Some (drop 112 checkpoint))) then false
    else if record_count event_size file <=? end_sequence then false
    else if event_offset start_sequence <? 0 then false
    else if end_sequence <? start_sequence then bool_decide (zero_hash = take 32 (drop 80 checkpoint))
    else
      match manifest_loop (records event_size (Z.to_nat (end_sequence - start_sequence + 1))
                             (drop (Z.to_nat (event_offset start_sequence)) file)) (take 32 (drop 48 checkpoint)) with
      | None => false
      | Some last => bool_decide (last = take 32 (drop 80 checkpoint))
      end.

End log.

(** ** Layout lemmas *)
Lemma event_fields_length e : length (event_fields e) = 44%nat.
Proof. unfold event_fields. by rewrite !length_app, !le_split_length. Qed.

Lemma event_bytes_length e p h : length p = 32%nat -> length h = 32%nat -> length (event_bytes e p h) = event_size.
Proof. intros Hp Hh. unfold event_bytes. by rewrite !length_app, event_fields_length, Hp, Hh. Qed.


(** Cutting the fields back out of an event. *)
Lemma event_bytes_parts e p h : length p = 32%nat -> length h = 32%nat ->
  raw_previous_hash (event_bytes e p h) = p /\ raw_hash (event_bytes e p h) = h /\
  take 76 (event_bytes e p h) = event_fields e ++ p.
Proof.
  intros Hp Hh. pose proof (event_fields_length e) as Hf. unfold raw_previous_hash, raw_hash, event_bytes. split_and!.
  - by rewrite <- Hf, drop_app_length, <- Hp, take_app_length.
  - rewrite (app_assoc (event_fields e)). replace 76%nat with (length (event_fields e ++ p)) by (by rewrite length_app, Hf, Hp).
    by rewrite drop_app_length, <- Hh, take_app_length.
  - rewrite (app_assoc (event_fields e)). replace 76%nat with (length (event_fields e ++ p)) by (by rewrite length_app, Hf, Hp).
    by rewrite take_app_length.
Qed.

Lemma event_bytes_sequence e p h : in_u 64 (ae_sequence e) -> raw_sequence (event_bytes e p h) = ae_sequence e.
Proof.
  intros Hs. unfold raw_sequence, event_bytes, event_fields. rewrite <- !app_assoc.
  rewrite <- (le_split_length 8 (ae_sequence e)) at 1. rewrite take_app_length. by apply le_value_split.
Qed.

Section proofs.
Context (sha256 : list Z -> option (list Z)).

(** The digest does not read the hash field. *)
Lemma digest_event e p h h' : length p = 32%nat ->
  digest sha256 (event_bytes e p h) = digest sha256 (event_bytes e p h').
Proof.
  intros Hp. pose proof (event_fields_length e) as Hf. unfold digest, raw_previous_hash, event_bytes.
  rewrite <- Hf, !drop_app_length, <- Hp, !take_app_length, Hf. do 2 f_equal.
  rewrite !(app_assoc (event_fields e)). by rewrite !(take_app_le (event_fields e ++ p)) by (rewrite length_app; lia).
Qed.

(** *** Tamper evidence

    [chain recs p h]: the events follow one another from the hash [p] to the
    hash [h] and every digest is right. *)
Fixpoint chain (recs : list (list Z)) (p h : list Z) : Prop :=
  match recs with
  | [] => p = h
  | raw :: recs => raw_previous_hash raw = p /\ digest sha256 raw = Some (raw_hash raw) /\ chain recs (raw_hash raw) h
  end.

Lemma verify_loop_chain recs seq p seq' h : verify_loop sha256 recs seq p = (true, seq', h) -> chain recs p h.
Proof.
  revert seq p. induction recs as [|raw recs IH]; intros seq p; cbn [verify_loop chain]; [by intros [= _ <-]|].
  case_if; [done|]. intros Hv. apply orb_false_iff in Heqb as [Hb%orb_false_iff Hd]. destruct Hb as [_ Hp].
  apply negb_false_iff, bool_decide_eq_true in Hp, Hd. split; [done|]. split; [done|]. by eapply IH.
Qed.

Lemma chain_snoc recs raw p h : chain (recs ++ [raw]) p h <->
  chain recs p (raw_previous_hash raw) /\ digest sha256 raw = Some (raw_hash raw) /\ raw_hash raw = h.
Proof.
  revert p. induction recs as [|r recs IH]; intros p; cbn [app chain]; [naive_solver|]. rewrite IH. naive_solver.
Qed.

(** The bytes of an event that its digest covers, and the digest itself. *)
Definition covered (raw : list Z) : list Z := take 108 raw.

Lemma covered_parts raw raw' : length raw = event_size -> length raw' = event_size ->
  take 48 raw = take 48 raw' -> raw_previous_hash raw = raw_previous_hash raw' -> raw_hash raw = raw_hash raw' ->
  covered raw = covered raw'.
Proof.
  unfold covered, raw_previous_hash, raw_hash. intros Hl Hl' H1 H2 H3.
  assert (H44 : take 44 raw = take 44 raw').
  { change 44%nat with (44 `min` 48)%nat. by rewrite <- !take_take, H1. }
  assert (E : forall r : list Z, length r = event_size -> take 108 r = take 44 r ++ take 32 (drop 44 r) ++ take 32 (drop 76 r)).
  { intros r Hr. change 108%nat with (44 + (32 + 32))%nat. rewrite <- (take_take_drop r 44 (32 + 32)). f_equal.
    rewrite <- (take_take_drop (drop 44 r) 32 32), drop_drop. done. }
  rewrite !E by done. congruence.
Qed.

(** The events of a file, and what the verifier feeds to SHA-256 for each. *)
Definition events_of (file : list Z) : list (list Z) := records event_size (Z.to_nat (record_count event_size file)) file.
Definition digest_input (raw : list Z) : list Z := raw_previous_hash raw ++ take 48 raw.

(** No two different ones of the given inputs have the same digest. *)
Definition collision_free (inputs : list (list Z)) : Prop := forall x y, x ∈ inputs -> y ∈ inputs -> sha256 x = sha256 y -> x = y.

Lemma collision_free_sub l l' : l' ⊆ l -> collision_free l -> collision_free l'.
Proof. intros Hs Hc x y Hx Hy. apply Hc; by apply Hs. Qed.

Lemma chain_determines recs recs' p h : Forall (fun r => length r = event_size) recs -> Forall (fun r => length r = event_size) recs' ->
  length recs = length recs' -> chain recs p h -> chain recs' p h -> collision_free (digest_input <$> recs ++ recs') ->
  (covered <$> recs) = (covered <$> recs').
Proof.
  revert recs' h. induction recs as [|raw recs IH] using rev_ind; intros recs' h Hf Hf' Hlen Hc Hc' Hfree.
  { destruct recs'; done. }
  destruct recs' as [|raw' recs' _] using rev_ind; [rewrite length_app in Hlen; simpl in Hlen; lia|].
  rewrite !length_app in Hlen. cbn [length] in Hlen. apply Forall_app in Hf as [Hf [Hr _]%Forall_cons]. apply Forall_app in Hf' as [Hf' [Hr' _]%Forall_cons].
  apply chain_snoc in Hc as (Hc & Hd & Hh). apply chain_snoc in Hc' as (Hc' & Hd' & Hh').
  assert (E : digest_input raw = digest_input raw').
  { apply Hfree; [apply list_elem_of_fmap_2; set_solver..|]. unfold digest, digest_input in *. congruence. }
  apply app_inj_1 in E as [Ep E48]; [|unfold raw_previous_hash; rewrite !length_take, !length_drop, Hr, Hr'; done].
  rewrite <- Ep in Hc'. rewrite !fmap_app. f_equal.
  - apply (IH recs' (raw_previous_hash raw) Hf Hf' ltac:(lia) Hc Hc'). eapply collision_free_sub; [|exact Hfree]. rewrite !fmap_app. set_solver.
  - cbn. f_equal. apply covered_parts; [done|done|done|done|congruence].
Qed.

(** The last event of a verified log is numbered by those before it. *)
Lemma verify_loop_last recs raw seq p seq' h : verify_loop sha256 (recs ++ [raw]) seq p = (true, seq', h) ->
  raw_sequence raw = if recs is [] then seq else u64 (seq + Z.of_nat (length recs)).
Proof.
  revert seq p. induction recs as [|r recs IH]; intros seq p; cbn [app verify_loop].
  - destruct (Z.eqb_spec (raw_sequence raw) seq) as [|]; [done|]. cbn [negb orb]. done.
  - case_if; [done|]. intros Hv. rewrite (IH _ _ Hv). destruct recs; cbn [length]; [done|]. unfold wrap_u. rewrite Zplus_mod_idemp_l. f_equal. lia.
Qed.

Lemma verified_events file n root : verify_log_integrity sha256 file = (true, n, root) ->
  verify_loop sha256 (events_of file) 0 zero_hash = (true, n, root) /\ Forall (fun r => length r = event_size) (events_of file) /\
  Z.of_nat (length file) = Z.of_nat (length (events_of file)) * Z.of_nat event_size.
Proof.
  unfold verify_log_integrity. destruct (Z.eqb_spec (Z.of_nat (length file) mod Z.of_nat event_size) 0) as [Hm|]; [|done]. cbn [negb]. intros Hv.
  assert (Hk : length file = (Z.to_nat (record_count event_size file) * event_size)%nat).
  { unfold record_count. apply Nat2Z.inj. rewrite Nat2Z.inj_mul, Z2Nat.id by (apply Z.div_pos; lia || done). rewrite Z.mul_comm. apply Z_div_exact_2; [done|done]. }
  split; [exact Hv|]. split; [apply records_sizes; lia|]. unfold events_of. rewrite records_length. rewrite Hk at 1. lia.
Qed.

(** C18: the chain is tamper-evident.  Take a log that [verify_log_integrity]
    accepts, with its root hash, and any other file: changed, cut, extended or
    made up anew, with its hashes left or recomputed.  If their events differ in
    any byte but the padding, the other file is not accepted with that root hash,
    provided SHA-256 does not map two different ones of the very inputs that these
    two files make the verifier hash to one digest. *)
Theorem audit_tamper_evident (file file' : list Z) (n : Z) (root : list Z)
    (Hv : verify_log_integrity sha256 file = (true, n, root)) (Hne : file <> []) (Hne' : file' <> [])
    (Hsize : Z.of_nat (length file) < 2 ^ 63) (Hsize' : Z.of_nat (length file') < 2 ^ 63)
    (Hfree : collision_free (digest_input <$> events_of file ++ events_of file'))
    (Htampered : covered <$> events_of file <> covered <$> events_of file') :
  forall n', verify_log_integrity sha256 file' <> (true, n', root).
Proof.
  intros n' Hv'. destruct (verified_events _ _ _ Hv) as (Hl & Hf & Hn). destruct (verified_events _ _ _ Hv') as (Hl' & Hf' & Hn'). unfold event_size in Hn, Hn'.
  apply Htampered. pose proof (verify_loop_chain _ _ _ _ _ Hl) as Hc. pose proof (verify_loop_chain _ _ _ _ _ Hl') as Hc'.
  apply (chain_determines _ _ zero_hash root); [done|done| |done|done|done].
  destruct (events_of file) as [|raw recs _] using rev_ind; [destruct file; [done|cbn [length] in Hn; lia]|].
  destruct (events_of file') as [|raw' recs' _] using rev_ind; [destruct file'; [done|cbn [length] in Hn'; lia]|].
  apply chain_snoc in Hc as (_ & Hd & Hh). apply chain_snoc in Hc' as (_ & Hd' & Hh').
  assert (E : digest_input raw = digest_input raw').
  { apply Hfree; [apply list_elem_of_fmap_2; set_solver..|]. unfold digest, digest_input in *. congruence. }
  apply Forall_app in Hf as [_ [Hr _]%Forall_cons]. apply Forall_app in Hf' as [_ [Hr' _]%Forall_cons].
  apply app_inj_1 in E as [_ E48]; [|unfold raw_previous_hash; rewrite !length_take, !length_drop, Hr, Hr'; done].
  assert (Es : raw_sequence raw = raw_sequence raw') by (unfold raw_sequence; change 8%nat with (8 `min` 48)%nat; by rewrite <- !take_take, E48).
  rewrite (verify_loop_last _ _ _ _ _ _ Hl), (verify_loop_last _ _ _ _ _ _ Hl') in Es. rewrite !length_app in *. cbn [length] in *.
  assert (Hu : forall l : list (list Z), Z.of_nat (length l) < 2 ^ 63 -> (if l is [] then 0 else u64 (0 + Z.of_nat (length l))) = Z.of_nat (length l)).
  { intros [|x l] Hlen; [done|]. rewrite wrap_u_id; [lia|]. unfold in_u. lia. }
  rewrite !Hu in Es by lia. lia.
Qed.

(** *** Appending keeps the log valid *)
Hypothesis sha256_size : forall x h, sha256 x = Some h -> length h = 32%nat.

(** An event as the caller passes it; the sequence number is the log's. *)
Definition numbered (seq : Z) (e : AuditEvent) : AuditEvent :=
  mkAudit seq (ae_timestamp_ns e) (ae_order_id e) (ae_price e) (ae_quantity e) (ae_trader_id e) (ae_side e) (ae_type e).

Definition append_event (e : AuditEvent) : io -> list Z -> DurableAuditLog -> bool * list Z * DurableAuditLog :=
  append sha256 (ae_timestamp_ns e) (ae_order_id e) (ae_price e) (ae_quantity e) (ae_trader_id e) (ae_side e) (ae_type e).

(** The file is a chain of the given events that ends in the log's tail. *)
Record log_of (evs : list AuditEvent) (file : list Z) (L : DurableAuditLog) : Prop := {
  lg_open : al_open L = true;
  lg_tail : length (al_tail L) = 32%nat;
  lg_sequence : al_sequence L = Z.of_nat (length evs);
  lg_records : exists recs, file = concat recs /\ Forall (fun r => length r = event_size) recs /\
    verify_loop sha256 recs 0 zero_hash = (true, Z.of_nat (length evs), al_tail L) /\
    (take 44 <$> recs) = imap (fun i e => event_fields (numbered (Z.of_nat i) e)) evs;
}.

Lemma verify_loop_app l1 l2 s p :
  verify_loop sha256 (l1 ++ l2) s p =
  match verify_loop sha256 l1 s p with (true, s', p') => verify_loop sha256 l2 s' p' | r => r end.
Proof. revert s p. induction l1 as [|r l1 IH]; intros s p; [done|]. cbn [app verify_loop]. by case_if. Qed.

Lemma append_log e x evs file L : log_of evs file L -> Z.of_nat (length evs) < 2 ^ 63 ->
  let '(ok, file', L') := append_event e x file L in ok = true -> log_of (evs ++ [e]) file' L'.
Proof.
  intros HL Hlen. destruct HL as [Ho Ht Hs (recs & -> & Hf & Hv & Hfields)]. unfold append_event, append. rewrite Ho. cbn [negb orb].
  destruct ((ae_order_id e =? 0) || (ae_quantity e <=? 0) || (1 <? ae_side e)); [done|].
  set (event := mkAudit _ _ _ _ _ _ _ _). destruct (digest sha256 _) as [hash|] eqn:Ed; [|done].
  pose proof (sha256_size _ _ Ed) as Hhash.
  pose proof (write_all_spec (io_writes x) (event_bytes event (al_tail L) hash) (concat recs)) as Hw.
  destruct (write_all _ _ _) as [[|] file']; cbn [negb]; [|done]. cbv zeta. subst file'.
  rewrite (digest_event event _ zero_hash hash Ht) in Ed.
  destruct (event_bytes_parts event (al_tail L) hash Ht Hhash) as (Hp & Hh & _).
  assert (Htake : take 44 (event_bytes event (al_tail L) hash) = event_fields event)
    by (unfold event_bytes; by rewrite <- (event_fields_length event), take_app_length).
  assert (H63 : 2 ^ 63 < 2 ^ 64) by done.
  assert (Hnew : forall pending interval, log_of (evs ++ [e]) (concat recs ++ event_bytes event (al_tail L) hash)
    (mkLog true interval pending (u64 (al_sequence L + 1)) hash)).
  { intros pending interval. split; [done|done| |].
    - cbn [al_sequence]. rewrite Hs, wrap_u_id, length_app by (unfold in_u; lia). cbn [length]. lia.
    - exists (recs ++ [event_bytes event (al_tail L) hash]). cbn [al_tail]. rewrite concat_app, length_app. cbn [concat length].
      rewrite app_nil_r. split; [done|]. split; [by apply Forall_app_2, Forall_singleton, event_bytes_length|]. split.
      + rewrite verify_loop_app, Hv. cbn [verify_loop]. rewrite event_bytes_sequence by (cbn; rewrite Hs; unfold in_u; lia).
        cbn [event ae_sequence]. rewrite Hs, Z.eqb_refl, Hp, bool_decide_true by done. unfold valid_event. rewrite Ed, Hh, bool_decide_true by done.
        cbn [negb orb]. rewrite wrap_u_id by (unfold in_u; lia). do 2 f_equal. lia.
      + rewrite fmap_app, Hfields, imap_app. f_equal. cbn [fmap list_fmap imap]. rewrite Htake. unfold event, numbered.
        rewrite Nat.add_0_r, <- Hs. done. }
  case_if; [intros _; apply Hnew|]. unfold flush. cbn [al_open negb]. destruct (io_sync x); [|done]. intros _. apply Hnew.
Qed.

Fixpoint append_events (evs : list (AuditEvent * io)) (file : list Z) (L : DurableAuditLog) : list bool * list Z * DurableAuditLog :=
  match evs with
  | [] => ([], file, L)
  | (e, x) :: evs =>
      let '(ok, file, L) := append_event e x file L in
      let '(oks, file, L) := append_events evs file L in
      (ok :: oks, file, L)
  end.

Lemma append_events_log evs evs0 file L : log_of evs0 file L -> Z.of_nat (length evs0 + length evs) < 2 ^ 63 ->
  let '(oks, file', L') := append_events evs file L in
  Forall (fun ok => ok = true) oks -> log_of (evs0 ++ (fst <$> evs)) file' L'.
Proof.
  revert evs0 file L. induction evs as [|[e x] evs IH]; intros evs0 file L HL Hlen; cbn [append_events fmap list_fmap length] in *.
  { intros _. by rewrite app_nil_r. }
  pose proof (append_log e x evs0 file L HL ltac:(lia)) as Ha. destruct (append_event e x file L) as [[ok file1] L1].
  destruct ok.
  - specialize (IH (evs0 ++ [e]) file1 L1 (Ha eq_refl)). rewrite length_app in IH. cbn [length] in IH. specialize (IH ltac:(lia)).
    destruct (append_events evs file1 L1) as [[oks file2] L2]. intros Hok. inversion Hok as [|??? Hok']; subst.
    specialize (IH Hok'). by rewrite <- app_assoc in IH.
  - destruct (append_events evs file1 L1) as [[oks file2] L2]. intros Hok. by inversion Hok.
Qed.

End proofs.

(** C17: the audit log round-trips: after a session in which every append reported
    success, whatever short or interrupted writes it took, the file passes the
    integrity check with as many events as were appended, reopening it gives
    back the sequence number and the hash to continue from, and the stored
    fields of the events are those passed in. *)
Theorem audit_roundtrip (sha256 : list Z -> option (list Z)) (interval interval' : Z) (evs : list (AuditEvent * io))
    (Hsha : forall x h, sha256 x = Some h -> length h = 32%nat)
    (Hlen : Z.of_nat (length evs) < 2 ^ 63) (Hi' : interval' <> 0)
    (Hok : Forall (fun ok => ok = true) (append_events sha256 evs [] (mkLog true interval 0 0 zero_hash)).1.1) :
  let '(oks, file, L) := append_events sha256 evs [] (mkLog true interval 0 0 zero_hash) in
  verify_log_integrity sha256 file = (true, Z.of_nat (length evs), al_tail L) /\
  open sha256 file interval' fresh_log = (true, mkLog true interval' 0 (al_sequence L) (al_tail L)) /\
  (take 44 <$> records event_size (length evs) file) = imap (fun i e => event_fields (numbered (Z.of_nat i) e)) (fst <$> evs).
Proof.
  pose proof (append_events_log sha256 Hsha evs [] [] (mkLog true interval 0 0 zero_hash)) as Ha.
  destruct (append_events sha256 evs [] _) as [[oks file] L]. cbn [fst] in Hok.
  destruct Ha as [Ho Ht Hs (recs & -> & Hf & Hv & Hfields)]; [|done|done|].
  { split; [done|done|done|]. exists []. by split_and!. }
  cbn [app] in *. rewrite length_fmap in *.
  assert (Hn : length recs = length evs).
  { apply (f_equal length) in Hfields. by rewrite length_fmap, length_imap, length_fmap in Hfields. }
  destruct (records_concat event_size recs ltac:(unfold event_size; lia) Hf) as [Hrec Hl]. rewrite Hn in *.
  assert (Hm : Z.of_nat (length (concat recs)) mod Z.of_nat event_size = 0) by (rewrite Hl, Nat2Z.inj_mul; by apply Z.mod_mul).
  assert (Hc : Z.to_nat (record_count event_size (concat recs)) = length evs).
  { unfold record_count. rewrite Hl, Nat2Z.inj_mul, Z.div_mul by done. apply Nat2Z.id. }
  split_and!.
  - unfold verify_log_integrity. by rewrite Hm, Hc, Hrec.
  - unfold open, fresh_log. cbn [al_open orb]. destruct (Z.eqb_spec interval' 0); [done|]. rewrite Hm, Hc, Hrec, Hv, Hs. done.
  - by rewrite Hrec.
Qed.

(** A toy digest of the right size: the first byte of the sum, 32 times. *)
Definition toy_digest (x : list Z) : option (list Z) := Some (replicate 32 (u8 (zsum x))).

Lemma audit_roundtrip_witness :
  let evs := [(mkAudit 0 5 7 100 10 1 0 65, mkIo [Written 50; Interrupted] true); (mkAudit 0 6 8 101 20 1 1 65, good_io)] in
  let '(oks, file, L) := append_events toy_digest evs [] (mkLog true 100 0 0 zero_hash) in
  open toy_digest file 100 fresh_log = (true, mkLog true 100 0 2 (al_tail L)).
Proof.
  intros evs. pose proof (audit_roundtrip toy_digest 100 100 evs) as H.
  assert (Hsha : forall x h, toy_digest x = Some h -> length h = 32%nat) by (intros x h E; apply (inj Some) in E; subst h; apply length_replicate).
  assert (Hok : (append_events toy_digest evs [] (mkLog true 100 0 0 zero_hash)).1.1 = [true; true]) by (vm_compute; reflexivity).
  assert (Hseq : al_sequence (append_events toy_digest evs [] (mkLog true 100 0 0 zero_hash)).2 = 2) by (vm_compute; reflexivity).
  rewrite Hok in H. specialize (H Hsha ltac:(done) ltac:(done) ltac:(repeat constructor)).
  destruct (append_events toy_digest evs [] _) as [[oks file] L]. cbn [snd] in Hseq. rewrite Hseq in H. apply H.
Defined.

(** A log of two events, its first quantity changed from 10 to 12. *)
Definition audit_sample : list Z :=
  (append_events toy_digest [(mkAudit 0 5 7 100 10 1 0 65, good_io); (mkAudit 0 6 8 101 20 1 1 65, good_io)] [] (mkLog true 100 0 0 zero_hash)).1.2.
Definition audit_sample_changed : list Z := <[32%nat := 12]> audit_sample.

(** The same with the hashes of both events recomputed. *)
Definition audit_sample_rehashed : list Z :=
  (append_events toy_digest [(mkAudit 0 5 7 100 12 1 0 65, good_io); (mkAudit 0 6 8 101 20 1 1 65, good_io)] [] (mkLog true 100 0 0 zero_hash)).1.2.

Lemma collision_free_pairs sha256 (l : list (list Z)) :
  forallb (fun x => forallb (fun y => negb (bool_decide (sha256 x = sha256 y)) || bool_decide (x = y)) l) l = true -> collision_free sha256 l.
Proof.
  intros Hb x y Hx Hy E. rewrite forallb_forall in Hb. specialize (Hb x (proj1 (list_elem_of_In _ _) Hx)). rewrite forallb_forall in Hb.
  specialize (Hb y (proj1 (list_elem_of_In _ _) Hy)). rewrite bool_decide_eq_true_2 in Hb by done. cbn [negb orb] in Hb. by apply bool_decide_eq_true in Hb.
Qed.

Lemma audit_tamper_evident_witness :
  exists root, verify_log_integrity toy_digest audit_sample = (true, 2, root) /\
    (forall n', verify_log_integrity toy_digest audit_sample_changed <> (true, n', root)) /\
    (exists root', verify_log_integrity toy_digest audit_sample_rehashed = (true, 2, root')) /\
    (forall n', verify_log_integrity toy_digest audit_sample_rehashed <> (true, n', root)).
Proof.
  eexists. split; [vm_compute; reflexivity|]. split; [|split; [eexists; vm_compute; reflexivity|]].
  - apply (audit_tamper_evident toy_digest audit_sample audit_sample_changed 2); [vm_compute; reflexivity|done|done|done|done|apply collision_free_pairs; vm_compute; reflexivity|].
    intros E. apply (bool_decide_eq_true_2 _) in E. revert E. by vm_compute.
  - apply (audit_tamper_evident toy_digest audit_sample audit_sample_rehashed 2); [vm_compute; reflexivity|done|done|done|done|apply collision_free_pairs; vm_compute; reflexivity|].
    intros E. apply (bool_decide_eq_true_2 _) in E. revert E. by vm_compute.
Defined.

(** *** Appends whose system calls are known *)

(** The bytes an append tries to write. *)
Definition append_event_bytes (sha256 : list Z -> option (list Z)) (e : AuditEvent) (L : DurableAuditLog) : list Z :=
  event_bytes (numbered (al_sequence L) e) (al_tail L)
    (default zero_hash (digest sha256 (event_bytes (numbered (al_sequence L) e) (al_tail L) zero_hash))).

Definition entry_valid (e : AuditEvent) : Prop := 0 < ae_order_id e /\ 0 < ae_quantity e /\ ae_side e <= 1.

Section outcomes.
Context (sha256 : list Z -> option (list Z)).
Hypothesis sha256_size : forall x h, sha256 x = Some h -> length h = 32%nat.
Hypothesis sha256_total : forall x, sha256 x <> None.

Lemma append_event_bytes_length e L : length (al_tail L) = 32%nat -> length (append_event_bytes sha256 e L) = event_size.
Proof.
  intros Ht. apply event_bytes_length; [done|]. unfold digest. destruct (sha256 _) as [h|] eqn:E; [by eapply sha256_size|].
  by apply sha256_total in E.
Qed.

(** A valid event up to the write. *)
Lemma append_event_eq e x file L : entry_valid e -> al_open L = true ->
  append_event sha256 e x file L =
  let '(written, file) := write_all (io_writes x) (append_event_bytes sha256 e L) file in
  if negb written then (false, file, L)
  else
    let L' := mkLog true (al_sync_interval L) (u32 (al_pending L + 1)) (u64 (al_sequence L + 1))
               (default zero_hash (digest sha256 (event_bytes (numbered (al_sequence L) e) (al_tail L) zero_hash))) in
    if al_pending L' <? al_sync_interval L then (true, file, L') else let '(ok, L') := flush (io_sync x) L' in (ok, file, L').
Proof.
  intros (H1 & H2 & H3) Ho. unfold append_event, append, append_event_bytes. rewrite Ho.
  destruct (Z.eqb_spec (ae_order_id e) 0), (Z.leb_spec (ae_quantity e) 0), (Z.ltb_spec 1 (ae_side e)); try lia. cbn [negb orb].
  fold (numbered (al_sequence L) e). destruct (digest sha256 _) as [h|] eqn:E; [done|]. unfold digest in E. by apply sha256_total in E.
Qed.

Lemma append_torn e k interval : entry_valid e -> (0 < k < 112)%nat ->
  let L := mkLog true interval 0 0 zero_hash in
  append_event sha256 e (mkIo [Written k; WriteError] true) [] L = (false, take k (append_event_bytes sha256 e L), L).
Proof.
  intros He Hk L. rewrite append_event_eq by done. cbn [io_writes].
  pose proof (append_event_bytes_length e L eq_refl) as Hl. set (data := append_event_bytes sha256 e L) in *.
  assert (E : write_all [Written k; WriteError] data [] = (false, take k data)); [|by rewrite E].
  destruct data as [|b data]; [done|]. destruct k as [|k]; [lia|]. cbn [write_all].
  assert (Hd : drop (S k) (b :: data) <> []).
  { intros E. apply (f_equal length) in E. rewrite length_drop, Hl in E. unfold event_size in E. cbn in E. lia. }
  by destruct (drop (S k) (b :: data)).
Qed.

Lemma append_events_length evs file L : Forall entry_valid evs -> al_open L = true -> length (al_tail L) = 32%nat ->
  let '(oks, file', L') := append_events sha256 ((fun e => (e, good_io)) <$> evs) file L in
  Forall (fun ok => ok = true) oks /\ length file' = (length file + length evs * event_size)%nat.
Proof.
  revert file L. induction evs as [|e evs IH]; intros file L Hv Ho Ht; cbn [fmap list_fmap append_events]; [split; [done|simpl; lia]|].
  inversion Hv as [|?? He Hv']; subst. rewrite append_event_eq by done. cbn [io_writes good_io]. rewrite write_all_nil. cbn [negb io_sync].
  set (L' := mkLog _ _ _ _ _). cbv zeta.
  assert (Htail : length (al_tail L') = 32%nat).
  { unfold L'. cbn [al_tail]. unfold digest. destruct (sha256 _) as [h|] eqn:E; [by eapply sha256_size|]. by apply sha256_total in E. }
  assert (Hlen : length (file ++ append_event_bytes sha256 e L) = (length file + event_size)%nat)
    by (by rewrite length_app, append_event_bytes_length).
  assert (Hgo : forall L1, al_open L1 = true -> length (al_tail L1) = 32%nat ->
    let '(oks, file', L') := append_events sha256 ((fun e => (e, good_io)) <$> evs) (file ++ append_event_bytes sha256 e L) L1 in
    Forall (fun ok => ok = true) (true :: oks) /\ length file' = (length file + length (e :: evs) * event_size)%nat).
  { intros L1 H1 H2. specialize (IH (file ++ append_event_bytes sha256 e L) L1 Hv' H1 H2).
    destruct (append_events _ _ _ _) as [[oks file'] L2]. destruct IH as [IH1 IH2]. split; [by constructor|]. rewrite IH2, Hlen. cbn [length]. unfold event_size. lia. }
  destruct (al_pending L' <? al_sync_interval L).
  - specialize (Hgo L' eq_refl Htail). by destruct (append_events _ _ _ _) as [[oks file'] L2].
  - unfold flush. cbn [al_open L' negb io_sync good_io]. specialize (Hgo (mkLog true (al_sync_interval L) 0 (u64 (al_sequence L + 1)) (al_tail L')) eq_refl Htail).
    by destruct (append_events _ _ _ _) as [[oks file'] L2].
Qed.

End outcomes.

(** A torn write is not noticed until the log is reopened: after an append
    that failed with part of its event on disk, later appends succeed, yet the
    file they leave is refused by [open] and by the integrity check. *)
Theorem audit_torn_write_blocks_reopen (sha256 : list Z -> option (list Z)) (k : nat) (torn : AuditEvent)
    (interval : Z) (evs : list AuditEvent)
    (Hsha : forall x h, sha256 x = Some h -> length h = 32%nat) (Htotal : forall x, sha256 x <> None)
    (Hk : (0 < k < 112)%nat) (Hvalid : Forall entry_valid (torn :: evs)) :
  let '(ok, file, L) := append_event sha256 torn (mkIo [Written k; WriteError] true) [] (mkLog true interval 0 0 zero_hash) in
  let '(oks, file', L') := append_events sha256 ((fun e => (e, good_io)) <$> evs) file L in
  ok = false /\ L = mkLog true interval 0 0 zero_hash /\ Forall (fun ok => ok = true) oks /\
  (open sha256 file' 100 fresh_log).1 = false /\ (verify_log_integrity sha256 file').1.1 = false.
Proof.
  inversion Hvalid as [|?? Ht Hvs]; subst. set (L0 := mkLog true interval 0 0 zero_hash).
  assert (Ha : append_event sha256 torn (mkIo [Written k; WriteError] true) [] L0 =
    (false, take k (append_event_bytes sha256 torn L0), L0)).
  { by apply append_torn. }
  rewrite Ha. pose proof (append_events_length sha256 Hsha Htotal evs (take k (append_event_bytes sha256 torn L0)) L0 Hvs eq_refl eq_refl) as Hl.
  destruct (append_events sha256 _ _ _) as [[oks file'] L']. destruct Hl as (Hok & Hlen).
  rewrite length_take, append_event_bytes_length in Hlen by done. unfold event_size in Hlen.
  assert (Hm : Z.of_nat (length file') mod Z.of_nat event_size <> 0).
  { rewrite Hlen. unfold event_size. replace (k `min` 112)%nat with k by lia. rewrite Nat2Z.inj_add, Nat2Z.inj_mul, Z.mod_add by done.
    rewrite Z.mod_small; lia. }
  split_and!; [done|done|done| |].
  - unfold open, fresh_log. cbn [al_open orb]. change (100 =? 0) with false. cbn iota. destruct (Z.eqb_spec (Z.of_nat (length file') mod Z.of_nat event_size) 0); done.
  - unfold verify_log_integrity. destruct (Z.eqb_spec (Z.of_nat (length file') mod Z.of_nat event_size) 0); done.
Qed.


Lemma audit_torn_write_blocks_reopen_witness :
  let e := mkAudit 0 5 7 100 10 1 0 65 in
  let '(_, file, L) := append_event toy_digest e (mkIo [Written 60; WriteError] true) [] (mkLog true 100 0 0 zero_hash) in
  let '(_, file', _) := append_events toy_digest [(e, good_io)] file L in
  (open toy_digest file' 100 fresh_log).1 = false.
Proof.
  cbv zeta. pose proof (audit_torn_write_blocks_reopen toy_digest 60 (mkAudit 0 5 7 100 10 1 0 65) 100 [mkAudit 0 5 7 100 10 1 0 65]) as H.
  cbn [fmap list_fmap] in H. destruct (append_event toy_digest _ _ [] _) as [[ok file] L].
  destruct (append_events toy_digest _ file L) as [[oks file'] L']. apply H.
  - intros x h E. apply (inj Some) in E. subst h. apply length_replicate.
  - done.
  - lia.
  - by repeat constructor.
Defined.
