(* ===== verification/ExecTypes.v ===== *)
(** * Execution data (luv_execution.hpp, luv_arena.hpp)

    Enumerations, order intents and packets of the execution gateway, the
    per-symbol execution state the arena holds, and the integer helpers of
    namespace exec. *)
From Stdlib Require Import ZArith Lia ZifyBool.
From S2P Require Import Prelude Config Numeric Bytes.

Module exec.
(** enum Side *)
Definition kBuy : Z := 0.
Definition kSell : Z := 1.

(** enum Reject *)
Definition kRejectNone : Z := 0.
Definition kRejectQty : Z := Z.shiftl 1 0.
Definition kRejectPosition : Z := Z.shiftl 1 1.
Definition kRejectStaleAlpha : Z := Z.shiftl 1 2.
Definition kRejectHalted : Z := Z.shiftl 1 3.
Definition kRejectFlatSignal : Z := Z.shiftl 1 4.
Definition kRejectOrderCapacity : Z := Z.shiftl 1 5.
Definition kRejectInvalidSymbol : Z := Z.shiftl 1 6.
Definition kRejectPrice : Z := Z.shiftl 1 7.

(** enum TimeInForce *)
Definition kDay : Z := 0.
Definition kIOC : Z := 1.
Definition kFOK : Z := 2.
Definition kGTC : Z := 3.

Definition store_u32_be (v : Z) : list Z :=
  [u8 (Z.shiftr v 24); u8 (Z.shiftr v 16); u8 (Z.shiftr v 8); u8 v].

Definition clamp_u32 (v : Z) : Z :=
  let non_negative := bit (0 <=? v) in
  let fits_u32 := bit (u64 v <=? 0xFFFFFFFF) in
  let ok := Z.land non_negative fits_u32 in
  let clipped := if v <? 0 then 0 else 0xFFFFFFFF in
  if ok =? 0 then clipped else u32 v.

Definition signed_qty_delta (side qty : Z) : Z :=
  let sign_mask := - Z.land side 1 in
  s64 (Z.lxor qty sign_mask - sign_mask).

Definition abs_i64 (v : Z) : Z :=
  let bits := u64 v in
  let sign := Z.shiftr bits 63 in
  u64 (Z.lxor bits (u64 (0 - sign)) + sign).
End exec.

(** enum class TriggerType *)
Inductive TriggerType := kStopLoss | kStopLimit | kPeggedBid | kPeggedAsk | kPeggedMid.
#[global] Instance TriggerType_eq_dec : EqDecision TriggerType.
Proof. solve_decision. Defined.

Record ConditionalOrder := mkConditional {
  co_trigger_id : Z;         (* uint32_t *)
  co_symbol_idx : Z;         (* uint16_t *)
  co_side : Z;               (* uint8_t *)
  co_trigger_type : TriggerType;
  co_stop_price : Z;         (* int64_t *)
  co_limit_price : Z;        (* int64_t *)
  co_peg_offset : Z;         (* int64_t *)
  co_qty : Z;                (* int64_t *)
  co_client_order_id : Z;    (* uint32_t *)
  co_time_in_force : Z;      (* uint8_t *)
  co_active : Z;             (* uint8_t *)
}.

(** [ConditionalOrder{}] *)
Definition no_conditional : ConditionalOrder := mkConditional 0 0 exec.kBuy kStopLoss 0 0 0 0 0 exec.kDay 0.

Record RiskLimits := mkLimits {
  lim_max_order_qty : Z;          (* int64_t *)
  lim_max_abs_position : Z;       (* int64_t *)
  lim_max_alpha_age_ns : Z;       (* uint64_t *)
  lim_min_price : Z;              (* int64_t *)
  lim_max_price : Z;              (* int64_t *)
  lim_reference_price : Z;        (* int64_t, 0 = no collar *)
  lim_max_price_collar_pct : Z;   (* int64_t *)
  lim_max_gross_loss : Z;         (* int64_t, 0 = disabled *)
  lim_max_consecutive_rejections : Z; (* uint32_t *)
}.

(** [RiskLimits{}] *)
Definition default_limits : RiskLimits := mkLimits 1000 100000 250000 numeric.kMinPrice numeric.kMaxPrice 0 10 0 5.

Definition limits_is_valid (l : RiskLimits) : bool :=
  numeric.is_valid_quantity (lim_max_order_qty l) && (0 <=? lim_max_abs_position l) &&
  numeric.is_valid_price (lim_min_price l) && (lim_min_price l <=? lim_max_price l) &&
  (lim_max_price l <=? numeric.kMaxPrice) && (0 <=? lim_reference_price l) &&
  (0 <=? lim_max_price_collar_pct l) && (lim_max_price_collar_pct l <=? 100) &&
  (0 <=? lim_max_gross_loss l).

Record OrderIntent := mkIntent {
  oi_symbol_idx : Z;          (* uint16_t *)
  oi_side : Z;                (* uint8_t *)
  oi_qty : Z;                 (* int64_t *)
  oi_price : Z;               (* int64_t, x 10^4 *)
  oi_alpha_timestamp_ns : Z;  (* uint64_t *)
  oi_now_ns : Z;              (* uint64_t *)
  oi_client_order_id : Z;     (* uint32_t *)
  oi_time_in_force : Z;       (* uint8_t *)
}.

Record OrderReplaceIntent := mkReplaceIntent {
  ori_symbol_idx : Z;            (* uint16_t *)
  ori_original_order_id : Z;     (* uint32_t *)
  ori_replacement_order_id : Z;  (* uint32_t *)
  ori_new_qty : Z;               (* int64_t *)
  ori_new_price : Z;             (* int64_t *)
  ori_alpha_timestamp_ns : Z;    (* uint64_t *)
  ori_now_ns : Z;                (* uint64_t *)
  ori_time_in_force : Z;         (* uint8_t *)
}.

Record RiskDecision := mkDecision {
  rd_pass : Z;                (* uint8_t, 1 = accepted *)
  rd_reject_mask : Z;         (* uint8_t, bits of Reject *)
}.
#[global] Instance RiskDecision_eq_dec : EqDecision RiskDecision.
Proof. solve_decision. Defined.

Record OutboundPacket := mkPacket {
  op_len : Z;                 (* uint16_t *)
  op_bytes : list Z;          (* uint8_t[64] *)
}.
Definition empty_packet : OutboundPacket := mkPacket 0 (replicate 64 0).
Definition set_len (len : Z) (p : OutboundPacket) : OutboundPacket := mkPacket len (op_bytes p).

(** ** The execution state the arena holds for each symbol *)
Record ActiveOrder := mkActive {
  ao_order_id : Z;            (* uint64_t *)
  ao_price : Z;               (* int64_t *)
  ao_qty : Z;                 (* int64_t *)
  ao_filled_qty : Z;          (* int64_t *)
  ao_symbol_idx : Z;          (* uint32_t *)
  ao_side : Z;                (* uint8_t, 0 = bid, 1 = ask *)
  ao_state : Z;               (* uint8_t, 0 = pending, 1 = live, 2 = partial, 3 = done *)
  ao_time_in_force : Z;       (* uint8_t *)
}.
#[global] Instance ActiveOrder_eq_dec : EqDecision ActiveOrder.
Proof. solve_decision. Defined.

(** [ActiveOrder{}] *)
Definition no_active : ActiveOrder := mkActive 0 0 0 0 0 0 0 0.

Record RiskState := mkRisk {
  rs_net_position : Z;        (* int64_t *)
  rs_gross_exposure : Z;      (* int64_t *)
  rs_daily_pnl : Z;           (* int64_t *)
  rs_max_drawdown : Z;        (* int64_t *)
  rs_current_drawdown : Z;    (* int64_t *)
  rs_order_count : Z;         (* uint32_t *)
  rs_reject_count : Z;        (* uint32_t *)
  rs_halted : Z;              (* uint8_t *)
}.
Definition fresh_risk : RiskState := mkRisk 0 0 0 0 0 0 0 0.

Definition set_reserved (net_position gross_exposure order_count : Z) (r : RiskState) : RiskState :=
  mkRisk net_position gross_exposure (rs_daily_pnl r) (rs_max_drawdown r) (rs_current_drawdown r) order_count
    (rs_reject_count r) (rs_halted r).
Definition set_reject_count (x : Z) (r : RiskState) : RiskState :=
  mkRisk (rs_net_position r) (rs_gross_exposure r) (rs_daily_pnl r) (rs_max_drawdown r) (rs_current_drawdown r)
    (rs_order_count r) x (rs_halted r).
Definition set_halted (x : Z) (r : RiskState) : RiskState :=
  mkRisk (rs_net_position r) (rs_gross_exposure r) (rs_daily_pnl r) (rs_max_drawdown r) (rs_current_drawdown r)
    (rs_order_count r) (rs_reject_count r) x.

Record SymbolExecState := mkExecState {
  se_orders : list ActiveOrder;   (* ActiveOrder orders[kMaxActiveOrders] *)
  se_risk : RiskState;
}.
Definition fresh_exec_state : SymbolExecState :=
  mkExecState (replicate (Z.to_nat kMaxActiveOrders) no_active) fresh_risk.

(** [Arena::exec_states], zero-filled. *)
Definition exec_states : Type := gmap Z SymbolExecState.
Definition state_of (E : exec_states) (symbol : Z) : SymbolExecState := sget fresh_exec_state E symbol.
Definition risk_of (E : exec_states) (symbol : Z) : RiskState := se_risk (state_of E symbol).
Definition update_risk (f : RiskState -> RiskState) (symbol : Z) (E : exec_states) : exec_states :=
  <[symbol := mkExecState (se_orders (state_of E symbol)) (f (risk_of E symbol))]> E.

(** ** The integer helpers compute what they are named after *)
Lemma be_store_u32 v : in_u 32 v -> be_value (exec.store_u32_be v) = v.
Proof.
  unfold in_u, be_value, exec.store_u32_be, wrap_u. cbn [foldl]. intros H. rewrite !Z.shiftr_div_pow2 by lia.
  change (2 ^ 8) with 256 in *. change (2 ^ 16) with 65536. change (2 ^ 24) with 16777216. change (2 ^ 32) with 4294967296 in H.
  Z.to_euclidean_division_equations. lia.
Qed.

Lemma clamp_u32_eq v : INT64_MIN <= v <= INT64_MAX -> exec.clamp_u32 v = Z.max 0 (Z.min v 0xFFFFFFFF).
Proof.
  intros H. unfold exec.clamp_u32. assert (INT64_MAX < 2 ^ 64) by done.
  destruct (Z.leb_spec 0 v); [rewrite (wrap_u_id 64) by (unfold in_u; lia)|].
  - destruct (Z.leb_spec v 0xFFFFFFFF); cbn [bit].
    + change (Z.land 1 1 =? 0) with false. cbv iota. rewrite wrap_u_id by (unfold in_u; lia). lia.
    + change (Z.land 1 0 =? 0) with true. cbv iota. destruct (Z.ltb_spec v 0); lia.
  - cbn [bit]. rewrite Z.land_0_l. change (0 =? 0) with true. cbv iota. destruct (Z.ltb_spec v 0); lia.
Qed.

(** A buy adds the quantity, a sell subtracts it. *)
Definition side_sign (side : Z) : Z := if Z.land side 1 =? 0 then 1 else -1.

Lemma land_1_cases side : Z.land side 1 = 0 \/ Z.land side 1 = 1.
Proof. rewrite (land_mask 1) by lia. pose proof (Z.mod_pos_bound side (2 ^ 1) ltac:(done)). lia. Qed.

Lemma signed_qty_delta_eq side qty : INT64_MIN < qty <= INT64_MAX -> exec.signed_qty_delta side qty = side_sign side * qty.
Proof.
  intros H. unfold exec.signed_qty_delta, side_sign. destruct (land_1_cases side) as [-> | ->]; cbn [Z.eqb].
  - rewrite Z.lxor_0_r, Z.sub_0_r, numeric.s64_id by lia. lia.
  - change (- (1)) with (-1). rewrite Z.lxor_m1_r. unfold Z.lnot. rewrite numeric.s64_id; lia.
Qed.

Lemma lxor_ones n x : 0 <= x < 2 ^ n -> Z.lxor x (Z.ones n) = Z.ones n - x.
Proof.
  intros H. destruct (Z.le_gt_cases 0 n); [|rewrite Z.pow_neg_r in H by lia; lia].
  pose proof (Z.sub_lor_land x (Z.ones n)). pose proof (Z.add_lor_land x (Z.ones n)).
  rewrite Z.land_ones, Z.mod_small in * by lia. lia.
Qed.

Lemma abs_i64_eq v : INT64_MIN <= v <= INT64_MAX -> exec.abs_i64 v = Z.abs v.
Proof.
  intros H. unfold exec.abs_i64. rewrite Z.shiftr_div_pow2 by lia.
  unfold wrap_u. destruct (Z.le_gt_cases 0 v).
  - rewrite (Z.mod_small v) by lia. rewrite (Z.div_small v) by lia. rewrite Z.lxor_0_r, Z.add_0_r, Z.mod_small by lia. lia.
  - assert (v mod 2 ^ 64 = v + 2 ^ 64) as -> by (symmetry; apply (Z.mod_unique _ _ (-1)); lia).
    assert ((v + 2 ^ 64) / 2 ^ 63 = 1) as -> by (symmetry; apply (Z.div_unique _ _ _ (v + 2 ^ 64 - 2 ^ 63)); lia).
    change ((0 - 1) mod 2 ^ 64) with (Z.ones 64).
    rewrite lxor_ones by lia. unfold Z.ones. rewrite Z.shiftl_mul_pow2 by lia.
    rewrite Z.mod_small by lia. lia.
Qed.
