(* ===== verification/Risk.v ===== *)
(** * PreTradeRisk (luv_execution.hpp): the authoritative pre-trade check

    The checks are computed with the one-bit flags and masks of the source. *)
From Stdlib Require Import ZArith Lia ZifyBool.
From S2P Require Import Prelude Config Numeric Bytes ExecTypes.

Record PreTradeRisk := mkPreTradeRisk {
  pr_arena : bool;                (* Arena* _arena: set by init *)
  pr_limits : gmap Z RiskLimits;  (* RiskLimits _limits[kSymbols] *)
}.
Definition fresh_pre_trade_risk : PreTradeRisk := mkPreTradeRisk false ∅.

Module risk.
Definition limits_at (r : PreTradeRisk) (sym : Z) : RiskLimits := sget default_limits (pr_limits r) sym.

(** [init]; the argument is [arena.is_initialised()]. *)
Definition init (arena_initialised : bool) (r : PreTradeRisk) : bool * PreTradeRisk :=
  if negb arena_initialised then (false, r) else (true, mkPreTradeRisk true ∅).

Definition set_limits (sym : Z) (limits : RiskLimits) (r : PreTradeRisk) : bool * PreTradeRisk :=
  if (kSymbols <=? sym) || negb (limits_is_valid limits) then (false, r)
  else (true, mkPreTradeRisk (pr_arena r) (<[sym := limits]> (pr_limits r))).

Definition limits (sym : Z) (r : PreTradeRisk) : RiskLimits := limits_at r (if sym <? kSymbols then sym else 0).

Definition valid_price (lim : RiskLimits) (price : Z) : Z :=
  Z.land (Z.land (bit ((if 0 <? lim_min_price lim then lim_min_price lim else 1) <=? price))
                 (bit (u64 price <=? u64 (if 0 <? lim_max_price lim then lim_max_price lim else 0xFFFFFFFF))))
         (bit (u64 price <=? 0xFFFFFFFF)).

Definition collar_ok (lim : RiskLimits) (intent_price : Z) : Z :=
  if (0 <? lim_reference_price lim) && (0 <? lim_max_price_collar_pct lim) then
    let price := u64 intent_price in
    let reference := u64 (lim_reference_price lim) in
    let diff := if reference <=? price then price - reference else reference - price in
    let max_allowed_diff := u64 (reference * u64 (lim_max_price_collar_pct lim)) / 100 in
    bit (diff <=? max_allowed_diff)
  else 1.

(** The body of [evaluate] once the symbol is known to be valid. *)
Definition evaluate_state (limits : RiskLimits) (risk : RiskState) (intent : OrderIntent) : RiskDecision :=
  let valid_qty := Z.land (bit (0 <? oi_qty intent)) (bit (oi_qty intent <=? lim_max_order_qty limits)) in
  let safe_qty := if valid_qty =? 0 then 0 else oi_qty intent in
  let signed_delta := exec.signed_qty_delta (oi_side intent) safe_qty in
  let sum := rs_net_position risk + signed_delta in
  let projected := s64 sum in
  let position_add_ok := bit (match numeric.builtin_exact sum with Some _ => true | None => false end) in
  let timestamp_ordered := bit (oi_alpha_timestamp_ns intent <=? oi_now_ns intent) in
  let age_ns := if timestamp_ordered =? 0 then 0 else oi_now_ns intent - oi_alpha_timestamp_ns intent in
  let valid_pos := Z.land (Z.land position_add_ok (bit (0 <=? lim_max_abs_position limits)))
                     (bit (exec.abs_i64 projected <=? u64 (lim_max_abs_position limits))) in
  let valid_alpha := Z.land timestamp_ordered (bit (age_ns <=? lim_max_alpha_age_ns limits)) in
  let valid_halt := bit (rs_halted risk =? 0) in
  let valid_price_final := Z.land (valid_price limits (oi_price intent)) (collar_ok limits (oi_price intent)) in
  let loss_ok := bit ((lim_max_gross_loss limits <=? 0) || (rs_current_drawdown risk <=? lim_max_gross_loss limits)) in
  let product := oi_price intent * safe_qty in
  let order_notional := s64 product in
  let notional_mul_ok := bit (match numeric.builtin_exact product with Some _ => true | None => false end) in
  let exposure_add_ok :=
    bit (match numeric.builtin_exact (rs_gross_exposure risk + order_notional) with Some _ => true | None => false end) in
  let valid_notional := Z.land (Z.land (Z.land valid_price_final notional_mul_ok) exposure_add_ok)
                          (bit (0 <=? rs_gross_exposure risk)) in
  let pass := Z.land (Z.land (Z.land (Z.land (Z.land (Z.land valid_qty valid_pos) valid_alpha) valid_halt)
                valid_price_final) valid_notional) loss_ok in
  let reject :=
    Z.lor (Z.lor (Z.lor (Z.lor
      (u8 (Z.lxor valid_qty 1 * exec.kRejectQty))
      (u8 (Z.lxor valid_pos 1 * exec.kRejectPosition)))
      (u8 (Z.lxor valid_alpha 1 * exec.kRejectStaleAlpha)))
      (u8 (Z.lxor (Z.land valid_halt loss_ok) 1 * exec.kRejectHalted)))
      (u8 (Z.lxor (Z.land valid_price_final valid_notional) 1 * exec.kRejectPrice)) in
  let fail_mask := u8 (pass - 1) in
  mkDecision pass (u8 (Z.land reject fail_mask)).

Definition evaluate (r : PreTradeRisk) (E : exec_states) (intent : OrderIntent) : RiskDecision :=
  if negb (pr_arena r) || (kSymbols <=? oi_symbol_idx intent) then mkDecision 0 exec.kRejectInvalidSymbol
  else evaluate_state (limits_at r (oi_symbol_idx intent)) (risk_of E (oi_symbol_idx intent)) intent.
End risk.

(** ** The limits a symbol can have *)
Definition limits_typed (l : RiskLimits) : Prop :=
  limits_is_valid l = true /\ in_s 64 (lim_max_abs_position l) /\ in_u 64 (lim_max_alpha_age_ns l) /\
  in_s 64 (lim_reference_price l) /\ in_s 64 (lim_max_gross_loss l).

Lemma default_limits_typed : limits_typed default_limits.
Proof. unfold limits_typed, in_s, in_u. cbn. lia. Qed.

(** ** What the check means *)
Record risk_typed (rs : RiskState) (it : OrderIntent) : Prop := {
  rt_position : in_s 64 (rs_net_position rs);
  rt_exposure : in_s 64 (rs_gross_exposure rs);
  rt_qty : in_s 64 (oi_qty it);
  rt_price : in_s 64 (oi_price it);
}.

(** The conditions, in exact arithmetic. *)
Module risk_spec.
Section spec.
Context (l : RiskLimits) (rs : RiskState) (it : OrderIntent).

Definition qty_ok : bool := (0 <? oi_qty it) && (oi_qty it <=? lim_max_order_qty l).
(** A quantity that is refused counts as none in the other checks. *)
Definition counted_qty : Z := if qty_ok then oi_qty it else 0.
Definition position_ok : bool :=
  Z.abs (rs_net_position rs + side_sign (oi_side it) * counted_qty) <=? lim_max_abs_position l.
Definition alpha_ok : bool :=
  (oi_alpha_timestamp_ns it <=? oi_now_ns it) &&
  (oi_now_ns it <=? oi_alpha_timestamp_ns it + lim_max_alpha_age_ns l).
Definition loss_ok : bool :=
  (lim_max_gross_loss l =? 0) || (rs_current_drawdown rs <=? lim_max_gross_loss l).
Definition halt_ok : bool := (rs_halted rs =? 0) && loss_ok.
(** Within the limits, and within the percentage of the reference price. *)
Definition price_ok : bool :=
  (lim_min_price l <=? oi_price it) && (oi_price it <=? lim_max_price l) &&
  ((lim_reference_price l =? 0) || (lim_max_price_collar_pct l =? 0) ||
   (100 * Z.abs (oi_price it - lim_reference_price l) <=? lim_max_price_collar_pct l * lim_reference_price l)).
Definition notional_ok : bool :=
  (0 <=? rs_gross_exposure rs) && (rs_gross_exposure rs + oi_price it * counted_qty <=? INT64_MAX).

Definition reject_mask : Z :=
  (if qty_ok then 0 else exec.kRejectQty) + (if position_ok then 0 else exec.kRejectPosition) +
  (if alpha_ok then 0 else exec.kRejectStaleAlpha) + (if halt_ok then 0 else exec.kRejectHalted) +
  (if price_ok && notional_ok then 0 else exec.kRejectPrice).

Definition decision : RiskDecision := mkDecision (bit (reject_mask =? 0)) reject_mask.
End spec.
End risk_spec.

Section evaluate_proofs.
Context (l : RiskLimits) (rs : RiskState) (it : OrderIntent).
Context (Hl : limits_typed l) (Ht : risk_typed rs it).
Context (Hcollar : 100 * lim_reference_price l < 2 ^ 64).

Lemma limits_bounds :
  1 <= lim_max_order_qty l <= 1000000000 /\ 0 <= lim_max_abs_position l <= INT64_MAX /\
  1 <= lim_min_price l <= lim_max_price l /\ lim_max_price l <= 0xFFFFFFFF /\
  0 <= lim_reference_price l <= INT64_MAX /\ 0 <= lim_max_price_collar_pct l <= 100 /\ 0 <= lim_max_gross_loss l.
Proof.
  destruct Hl as (Hv & Hp%numeric.in_s64 & _ & Hr%numeric.in_s64 & Hg%numeric.in_s64). unfold limits_is_valid, numeric.is_valid_quantity, numeric.is_valid_price,
    numeric.kMinQuantity, numeric.kMaxQuantity, numeric.kMinPrice, numeric.kMaxPrice in Hv. lia.
Qed.

Lemma bit_land b c : Z.land (bit b) (bit c) = bit (b && c).
Proof. by destruct b, c. Qed.

Lemma bit_if {A} b (x y : A) : (if bit b =? 0 then x else y) = if b then y else x.
Proof. by destruct b. Qed.

Lemma price_flag :
  Z.land (risk.valid_price l (oi_price it)) (risk.collar_ok l (oi_price it)) = bit (risk_spec.price_ok l it).
Proof.
  pose proof limits_bounds as Hb. destruct Ht as [_ _ _ Hp%numeric.in_s64]. unfold risk.valid_price, risk.collar_ok, risk_spec.price_ok.
  assert (INT64_MAX < 2 ^ 63) by done. assert (2 ^ 64 = 2 * 2 ^ 63) by done.
  destruct (Z.ltb_spec 0 (lim_min_price l)) as [_|]; [|lia]. destruct (Z.ltb_spec 0 (lim_max_price l)) as [_|]; [|lia].
  rewrite !bit_land. destruct (Z.leb_spec (lim_min_price l) (oi_price it)) as [Hmin|]; [|cbn [andb bit]; apply Z.land_0_l].
  rewrite (wrap_u_id 64 (oi_price it)), (wrap_u_id 64 (lim_max_price l)), (wrap_u_id 64 (lim_reference_price l)),
    (wrap_u_id 64 (lim_max_price_collar_pct l)) by (unfold in_u; lia).
  assert (0 <= lim_reference_price l * lim_max_price_collar_pct l <= lim_reference_price l * 100) by nia.
  rewrite wrap_u_id by (unfold in_u; lia).
  set (prod := lim_reference_price l * lim_max_price_collar_pct l) in *.
  replace (lim_max_price_collar_pct l * lim_reference_price l) with prod by (unfold prod; lia).
  destruct (Z.leb_spec (oi_price it) (lim_max_price l)); cbn [andb bit]; [|by rewrite Z.land_0_l].
  destruct (Z.leb_spec (oi_price it) 0xFFFFFFFF); [|lia]. cbn [bit].
  assert (Hdiv : forall d, (d <=? prod / 100) = (100 * d <=? prod)) by (intros d; Z.to_euclidean_division_equations; lia).
  rewrite Hdiv. destruct (_ && _) eqn:Ec.
  - assert (Hd : (if lim_reference_price l <=? oi_price it then oi_price it - lim_reference_price l else lim_reference_price l - oi_price it)
      = Z.abs (oi_price it - lim_reference_price l)) by (case_if; lia).
    rewrite Hd. change 1 with (bit true) at 1. rewrite bit_land. f_equal. lia.
  - change (Z.land 1 1) with (bit true). f_equal. lia.
Qed.

Lemma builtin_exact_fits z : match numeric.builtin_exact z with Some _ => true | None => false end = (INT64_MIN <=? z) && (z <=? INT64_MAX).
Proof. unfold numeric.builtin_exact. by case_if. Qed.

Lemma counted_qty_range : 0 <= risk_spec.counted_qty l it <= 1000000000.
Proof. pose proof limits_bounds. unfold risk_spec.counted_qty, risk_spec.qty_ok. case_if; lia. Qed.

(** The flags of the source, one by one. *)
Lemma position_flag :
  let sum := rs_net_position rs + exec.signed_qty_delta (oi_side it) (risk_spec.counted_qty l it) in
  ((INT64_MIN <=? sum) && (sum <=? INT64_MAX)) && (0 <=? lim_max_abs_position l) &&
  (exec.abs_i64 (s64 sum) <=? u64 (lim_max_abs_position l)) = risk_spec.position_ok l rs it.
Proof.
  pose proof limits_bounds as Hb. pose proof counted_qty_range as Hc. rewrite signed_qty_delta_eq by lia. cbv zeta.
  unfold risk_spec.position_ok. set (sum := _ + _). assert (INT64_MAX < 2 ^ 64) by done.
  rewrite (wrap_u_id 64) by (unfold in_u; lia).
  destruct (Z.leb_spec INT64_MIN sum), (Z.leb_spec sum INT64_MAX); cbn [andb]; try lia.
  rewrite numeric.s64_id, abs_i64_eq by lia. lia.
Qed.

Lemma alpha_flag :
  (oi_alpha_timestamp_ns it <=? oi_now_ns it) &&
  ((if oi_alpha_timestamp_ns it <=? oi_now_ns it then oi_now_ns it - oi_alpha_timestamp_ns it else 0) <=? lim_max_alpha_age_ns l)
  = risk_spec.alpha_ok l it.
Proof. unfold risk_spec.alpha_ok. destruct (Z.leb_spec (oi_alpha_timestamp_ns it) (oi_now_ns it)); lia. Qed.

Lemma notional_flag :
  let product := oi_price it * risk_spec.counted_qty l it in
  let sum := rs_gross_exposure rs + s64 product in
  risk_spec.price_ok l it && ((INT64_MIN <=? product) && (product <=? INT64_MAX)) &&
    ((INT64_MIN <=? sum) && (sum <=? INT64_MAX)) && (0 <=? rs_gross_exposure rs)
  = risk_spec.price_ok l it && risk_spec.notional_ok l rs it.
Proof.
  pose proof limits_bounds as Hb. pose proof counted_qty_range as Hc. destruct Ht as [_ Hexp%numeric.in_s64 _ _]. cbv zeta.
  destruct (risk_spec.price_ok l it) eqn:Ep; [|done]. unfold risk_spec.price_ok in Ep. cbn [andb].
  assert (Hprice : 1 <= oi_price it <= 0xFFFFFFFF) by lia. unfold risk_spec.notional_ok. set (q := risk_spec.counted_qty l it) in *.
  assert (0 <= oi_price it * q <= 0xFFFFFFFF * 1000000000) by nia.
  rewrite numeric.s64_id by lia. lia.
Qed.

(** Assembling the decision from the flags. *)
Lemma assemble_decision q p a h lo pr nt :
  let pass := bit (q && p && a && h && pr && nt && lo) in
  mkDecision pass
    (u8 (Z.land
      (Z.lor (Z.lor (Z.lor (Z.lor (u8 (Z.lxor (bit q) 1 * exec.kRejectQty)) (u8 (Z.lxor (bit p) 1 * exec.kRejectPosition)))
        (u8 (Z.lxor (bit a) 1 * exec.kRejectStaleAlpha))) (u8 (Z.lxor (bit (h && lo)) 1 * exec.kRejectHalted)))
        (u8 (Z.lxor (bit (pr && nt)) 1 * exec.kRejectPrice)))
      (u8 (pass - 1)))) =
  let mask := (if q then 0 else exec.kRejectQty) + (if p then 0 else exec.kRejectPosition) +
    (if a then 0 else exec.kRejectStaleAlpha) + (if h && lo then 0 else exec.kRejectHalted) +
    (if pr && nt then 0 else exec.kRejectPrice) in
  mkDecision (bit (mask =? 0)) mask.
Proof. by destruct q, p, a, h, lo, pr, nt. Qed.

Lemma evaluate_state_exact : risk.evaluate_state l rs it = risk_spec.decision l rs it.
Proof.
  pose proof limits_bounds as Hb. pose proof price_flag as Hpf. pose proof position_flag as Hpos. pose proof alpha_flag as Hal.
  pose proof notional_flag as Hn. unfold risk.evaluate_state. rewrite Hpf. cbv zeta in *. rewrite !bit_land, !bit_if, !builtin_exact_fits.
  change (if (0 <? oi_qty it) && (oi_qty it <=? lim_max_order_qty l) then oi_qty it else 0) with (risk_spec.counted_qty l it).
  rewrite Hpos, Hal, Hn. change ((0 <? oi_qty it) && (oi_qty it <=? lim_max_order_qty l)) with (risk_spec.qty_ok l it).
  assert (Hlo : (lim_max_gross_loss l <=? 0) || (rs_current_drawdown rs <=? lim_max_gross_loss l) = risk_spec.loss_ok l rs)
    by (unfold risk_spec.loss_ok; lia).
  rewrite Hlo, assemble_decision. unfold risk_spec.decision, risk_spec.reject_mask, risk_spec.halt_ok.
  by rewrite andb_assoc, andb_diag.
Qed.
End evaluate_proofs.

(** C13: the pre-trade check decides exactly the stated conditions: with typed
    inputs, valid limits and a reference price whose collar product fits 64
    bits, [evaluate] passes an order if and only if the quantity, projected
    position, signal age, halt and loss state, price band and collar, and
    notional conditions hold in exact arithmetic, and each reject bit is set
    exactly when its condition fails. *)
Theorem evaluate_exact (r : PreTradeRisk) (E : exec_states) (it : OrderIntent)
    (Hinit : pr_arena r = true) (Hsym : oi_symbol_idx it < kSymbols)
    (Hl : limits_typed (risk.limits_at r (oi_symbol_idx it)))
    (Hcollar : 100 * lim_reference_price (risk.limits_at r (oi_symbol_idx it)) < 2 ^ 64)
    (Ht : risk_typed (risk_of E (oi_symbol_idx it)) it) :
  risk.evaluate r E it =
  risk_spec.decision (risk.limits_at r (oi_symbol_idx it)) (risk_of E (oi_symbol_idx it)) it.
Proof.
  unfold risk.evaluate. rewrite Hinit. destruct (Z.leb_spec kSymbols (oi_symbol_idx it)); [lia|]. cbn [negb orb].
  by apply evaluate_state_exact.
Qed.

(** A sell of 600 that would take the position below the limit, at a stale
    signal. *)
Lemma evaluate_exact_witness :
  let E := update_risk (set_reserved (-99500) 0 0) 3 ∅ in
  let it := mkIntent 3 1 600 1500000 1000 300000 7 0 in
  risk.evaluate (mkPreTradeRisk true ∅) E it = mkDecision 0 (exec.kRejectPosition + exec.kRejectStaleAlpha).
Proof.
  intros E it. rewrite (evaluate_exact (mkPreTradeRisk true ∅) E it eq_refl).
  - vm_compute. reflexivity.
  - unfold kSymbols. cbn. lia.
  - exact default_limits_typed.
  - vm_compute. reflexivity.
  - split; unfold in_s; vm_compute; split; congruence.
Defined.

(** ** The limits in force are always valid *)
Inductive limits_op := InitRisk (arena_initialised : bool) | SetLimits (sym : Z) (limits : RiskLimits).

Definition limits_step (op : limits_op) (r : PreTradeRisk) : PreTradeRisk :=
  match op with
  | InitRisk i => (risk.init i r).2
  | SetLimits sym limits => (risk.set_limits sym limits r).2
  end.

(** C40: whatever limits were submitted, the limits in force for every symbol
    satisfy [is_valid], and [set_limits] changes those of no other symbol. *)
Theorem limits_always_valid (ops : list limits_op) (sym : Z) :
  let r := foldl (fun r op => limits_step op r) fresh_pre_trade_risk ops in
  limits_is_valid (risk.limits sym r) = true /\
  forall sym' l, sym' <> sym -> risk.limits_at (risk.set_limits sym' l r).2 sym = risk.limits_at r sym.
Proof.
  intros r. assert (Hall : forall s, limits_is_valid (risk.limits_at r s) = true).
  { subst r. induction ops as [|op ops IH] using rev_ind; [by intros s|]. rewrite foldl_app. cbn [foldl]. intros s.
    set (r := foldl _ _ ops) in *. destruct op as [i|s' l]; cbn [limits_step].
    - unfold risk.init. destruct i; [done|apply IH].
    - unfold risk.set_limits. destruct (_ || _) eqn:Eg; [apply IH|]. apply orb_false_iff in Eg as [_ Ev%negb_false_iff].
      unfold risk.limits_at. cbn [snd pr_limits]. rewrite sget_insert. by case_decide; [|apply IH]. }
  split; [apply Hall|]. intros s' l Hne. unfold risk.set_limits. case_if; [done|]. unfold risk.limits_at. cbn [snd pr_limits].
  by rewrite sget_insert_ne.
Qed.

(** * OuchPacketTemplates: fixed-offset packets *)
Module ouch.
Definition kEnterOrderLen : Z := 48.
Definition kReplaceOrderLen : Z := 32.
Definition kMaxSymbolText : Z := 8.
Definition kMsgTypeOffset : Z := 0.
Definition kTokenOffset : Z := 1.
Definition kSideOffset : Z := 5.
Definition kQtyOffset : Z := 6.
Definition kSymbolOffset : Z := 10.
Definition kPriceOffset : Z := 18.
Definition kTimeInForceOffset : Z := 22.
Definition kFirmOffset : Z := 26.
Definition kDisplayOffset : Z := 30.
Definition kCapacityOffset : Z := 31.
Definition kIntermarketSweepOffset : Z := 32.
Definition kMinQtyOffset : Z := 33.
Definition kCrossTypeOffset : Z := 37.
Definition kCustomerTypeOffset : Z := 38.
Definition kReplaceMsgTypeOffset : Z := 0.
Definition kReplaceExistingTokenOffset : Z := 1.
Definition kReplaceReplacementTokenOffset : Z := 5.
Definition kReplaceQtyOffset : Z := 9.
Definition kReplacePriceOffset : Z := 13.
Definition kReplaceTimeInForceOffset : Z := 17.
Definition kReplaceDisplayOffset : Z := 21.

(** The decimal digits of [v], most significant first. *)
Fixpoint digits (fuel : nat) (v : Z) : list Z :=
  match fuel with
  | O => []
  | S fuel => if v <? 10 then [0x30 + v] else digits fuel (v / 10) ++ [0x30 + v mod 10]
  end.

(** [snprintf(tmp, 9, "S%03u    ", sym)]: at most eight characters and the
    terminator. *)
Definition format_S03u (sym : Z) : list Z :=
  let d := digits 10 sym in
  0x53 :: replicate (3 - length d) 0x30 ++ d ++ [0x20; 0x20; 0x20; 0x20].

Definition make_symbol (sym : Z) : list Z :=
  let tmp := take (Z.to_nat kMaxSymbolText) (format_S03u sym) ++ [0] in
  take (Z.to_nat kMaxSymbolText) tmp.

Definition init_template (sym side : Z) : list Z :=
  let t := replicate (Z.to_nat kEnterOrderLen) 0 in
  let t := put kMsgTypeOffset [0x4F] t in
  let t := put kSideOffset [if side =? exec.kBuy then 0x42 else 0x53] t in
  let t := put kSymbolOffset (make_symbol sym) t in
  let t := put kTimeInForceOffset (exec.store_u32_be 0) t in
  let t := put (kFirmOffset + 0) [0x4C] t in
  let t := put (kFirmOffset + 1) [0x55] t in
  let t := put (kFirmOffset + 2) [0x56] t in
  let t := put (kFirmOffset + 3) [0x20] t in
  let t := put kDisplayOffset [0x59] t in
  let t := put kCapacityOffset [0x41] t in
  let t := put kIntermarketSweepOffset [0x4E] t in
  let t := put kMinQtyOffset (exec.store_u32_be 0) t in
  let t := put kCrossTypeOffset [0x4E] t in
  put kCustomerTypeOffset [0x20] t.
End ouch.

Record OuchPacketTemplates := mkTemplates {
  pt_templates : gmap (Z * Z) (list Z);   (* Template _templates[kSymbols][2] *)
  pt_initialised : bool;
}.
Definition fresh_templates : OuchPacketTemplates := mkTemplates ∅ false.
Definition template_at (t : OuchPacketTemplates) (sym side : Z) : list Z :=
  default (replicate (Z.to_nat ouch.kEnterOrderLen) 0) (pt_templates t !! (sym, side)).

Module packets.
Definition init (t : OuchPacketTemplates) : bool * OuchPacketTemplates :=
  let m := foldl (fun m sym =>
             <[(sym, exec.kSell) := ouch.init_template sym exec.kSell]>
               (<[(sym, exec.kBuy) := ouch.init_template sym exec.kBuy]> m))
             (pt_templates t) (zrange 0 (Z.to_nat kSymbols)) in
  (true, mkTemplates m true).

(** The packet is copied from the template and four fields are filled in; the
    bytes from 48 on keep what the caller's buffer held. *)
Definition build_enter_order (t : OuchPacketTemplates) (intent : OrderIntent) (out : OutboundPacket) : bool * OutboundPacket :=
  if negb (pt_initialised t) || (kSymbols <=? oi_symbol_idx intent) then (false, out)
  else
    let side := Z.land (oi_side intent) 1 in
    let bytes := put 0 (template_at t (oi_symbol_idx intent) side) (op_bytes out) in
    let bytes := put ouch.kTokenOffset (exec.store_u32_be (oi_client_order_id intent)) bytes in
    let bytes := put ouch.kQtyOffset (exec.store_u32_be (exec.clamp_u32 (oi_qty intent))) bytes in
    let bytes := put ouch.kPriceOffset (exec.store_u32_be (exec.clamp_u32 (oi_price intent))) bytes in
    let bytes := put ouch.kTimeInForceOffset (exec.store_u32_be (u32 (oi_time_in_force intent))) bytes in
    (true, mkPacket ouch.kEnterOrderLen bytes).

Definition build_replace_order (t : OuchPacketTemplates) (intent : OrderReplaceIntent) (out : OutboundPacket) : bool * OutboundPacket :=
  if negb (pt_initialised t) || (kSymbols <=? ori_symbol_idx intent) then (false, out)
  else
    let bytes := replicate 64 0 in
    let bytes := put ouch.kReplaceMsgTypeOffset [0x55] bytes in
    let bytes := put ouch.kReplaceExistingTokenOffset (exec.store_u32_be (ori_original_order_id intent)) bytes in
    let bytes := put ouch.kReplaceReplacementTokenOffset (exec.store_u32_be (ori_replacement_order_id intent)) bytes in
    let bytes := put ouch.kReplaceQtyOffset (exec.store_u32_be (exec.clamp_u32 (ori_new_qty intent))) bytes in
    let bytes := put ouch.kReplacePriceOffset (exec.store_u32_be (exec.clamp_u32 (ori_new_price intent))) bytes in
    let bytes := put ouch.kReplaceTimeInForceOffset (exec.store_u32_be (u32 (ori_time_in_force intent))) bytes in
    let bytes := put ouch.kReplaceDisplayOffset [0x59] bytes in
    (true, mkPacket ouch.kReplaceOrderLen bytes).
End packets.

(** ** A receiver that reads the documented offsets gets the intent back *)
Module ouch_spec.
Definition symbol_number (text : list Z) : option Z :=
  match text with
  | 0x53 :: a :: b :: c :: _ => Some (100 * (a - 0x30) + 10 * (b - 0x30) + (c - 0x30))
  | _ => None
  end.

(** Message type, token, side, quantity, symbol, price, time in force. *)
Definition parse_enter (bs : list Z) : option (Z * Z * Z * Z * Z * Z * Z) :=
  kind ← rd bs 0;
  token ← load true bs 1 4;
  side ← rd bs 5;
  qty ← load true bs 6 4;
  sym ← slice bs 10 8 ≫= symbol_number;
  price ← load true bs 18 4;
  tif ← load true bs 22 4;
  Some (kind, token, side, qty, sym, price, tif).

(** Message type, tokens, quantity, price, time in force. *)
Definition parse_replace (bs : list Z) : option (Z * Z * Z * Z * Z * Z) :=
  kind ← rd bs 0;
  existing ← load true bs 1 4;
  replacement ← load true bs 5 4;
  qty ← load true bs 9 4;
  price ← load true bs 13 4;
  tif ← load true bs 17 4;
  Some (kind, existing, replacement, qty, price, tif).
End ouch_spec.

Lemma foldl_insert_pair_lookup (f : Z -> Z -> list Z) (l : list Z) (m : gmap (Z * Z) (list Z)) s d : (d = 0 \/ d = 1) -> s ∈ l ->
  foldl (fun m s => <[(s, 1) := f s 1]> (<[(s, 0) := f s 0]> m)) m l !! (s, d) = Some (f s d).
Proof.
  intros Hd. revert m. induction l as [|x l IH] using rev_ind; intros m Hin; [by apply not_elem_of_nil in Hin|].
  rewrite foldl_app. cbn [foldl]. destruct (decide (x = s)) as [->|Hne].
  - destruct Hd as [-> | ->]; [rewrite lookup_insert_ne by congruence|]; by rewrite lookup_insert_eq.
  - rewrite !lookup_insert_ne by congruence. apply IH. rewrite elem_of_app, list_elem_of_singleton in Hin. by destruct Hin.
Qed.

Lemma template_of_init t sym side : 0 <= sym < kSymbols -> (side = 0 \/ side = 1) ->
  template_at (packets.init t).2 sym side = ouch.init_template sym side.
Proof.
  intros Hs Hd. unfold template_at, packets.init. cbn [snd pt_templates]. unfold exec.kSell, exec.kBuy.
  rewrite (foldl_insert_pair_lookup ouch.init_template); [done|done|]. apply elem_of_zrange. unfold kSymbols in *. lia.
Qed.

Lemma make_symbol_digits sym : 0 <= sym < kSymbols -> exists a b c,
  ouch.make_symbol sym = [0x53; a; b; c; 0x20; 0x20; 0x20; 0x20] /\ 100 * (a - 0x30) + 10 * (b - 0x30) + (c - 0x30) = sym.
Proof.
  intros H. exists (0x30 + sym / 100), (0x30 + sym / 10 mod 10), (0x30 + sym mod 10).
  split; [|Z.to_euclidean_division_equations; lia].
  assert (Hall : Forall (fun s => ouch.make_symbol s =
    [0x53; 0x30 + s / 100; 0x30 + s / 10 mod 10; 0x30 + s mod 10; 0x20; 0x20; 0x20; 0x20]) (zrange 0 (Z.to_nat kSymbols))).
  { eapply (bool_decide_unpack _). vm_compute. exact I. }
  rewrite Forall_forall in Hall. apply Hall, elem_of_zrange. unfold kSymbols in *. lia.
Qed.

Lemma store_u32_cells v : in_u 32 v -> exists a b c d, exec.store_u32_be v = [a; b; c; d] /\ be_value [a; b; c; d] = v.
Proof. intros H. do 4 eexists. split; [reflexivity|]. by apply be_store_u32. Qed.

Lemma clamp_u32_range v : INT64_MIN <= v <= INT64_MAX -> in_u 32 (exec.clamp_u32 v).
Proof. intros H. rewrite clamp_u32_eq by done. unfold in_u. lia. Qed.

Ltac cells v := let a := fresh "a" in let b := fresh "b" in let c := fresh "c" in let d := fresh "d" in let E := fresh "E" in let Hv := fresh "Hv" in
  destruct (store_u32_cells v) as (a & b & c & d & E & Hv); [try done|rewrite E].

Lemma enter_order_bytes t it out : 0 <= oi_symbol_idx it < kSymbols -> length (op_bytes out) = 64%nat ->
  in_u 32 (oi_client_order_id it) -> in_s 64 (oi_qty it) -> in_s 64 (oi_price it) -> in_u 8 (oi_time_in_force it) ->
  let '(ok, p) := packets.build_enter_order (packets.init t).2 it out in
  ok = true /\ op_len p = ouch.kEnterOrderLen /\ length (op_bytes p) = 64%nat /\ drop 48 (op_bytes p) = drop 48 (op_bytes out) /\
  ouch_spec.parse_enter (op_bytes p) = Some (0x4F, oi_client_order_id it, if Z.land (oi_side it) 1 =? 0 then 0x42 else 0x53,
     Z.max 0 (Z.min (oi_qty it) 0xFFFFFFFF), oi_symbol_idx it, Z.max 0 (Z.min (oi_price it) 0xFFFFFFFF), oi_time_in_force it).
Proof.
  destruct out as [len bs]. cbn [op_bytes].
  intros Hs Hlen Hid Hq%numeric.in_s64 Hp%numeric.in_s64 Ht.
  pose proof (template_of_init t _ _ Hs (land_1_cases (oi_side it))) as Htm. unfold packets.build_enter_order.
  replace (pt_initialised (packets.init t).2) with true by done. destruct (Z.leb_spec kSymbols (oi_symbol_idx it)); [lia|].
  cbn [negb orb op_bytes]. rewrite Htm. rewrite <- !clamp_u32_eq by done. unfold ouch.init_template.
  destruct (make_symbol_digits _ Hs) as (sa & sb & sc & -> & Hsym).
  assert (u32 (oi_time_in_force it) = oi_time_in_force it) as -> by (unfold in_u in Ht; apply wrap_u_id; unfold in_u; lia).
  cells (oi_client_order_id it). cells (exec.clamp_u32 (oi_qty it)); [by apply clamp_u32_range|].
  cells (exec.clamp_u32 (oi_price it)); [by apply clamp_u32_range|]. cells (oi_time_in_force it); [unfold in_u in *; lia|].
  change exec.kBuy with 0. set (side := if Z.land (oi_side it) 1 =? 0 then _ else _).
  rewrite <- Hv, <- Hv0, <- Hv1, <- Hv2.
  assert (Hsn : ouch_spec.symbol_number [0x53; sa; sb; sc; 0x20; 0x20; 0x20; 0x20] = Some (oi_symbol_idx it)) by (cbn [ouch_spec.symbol_number]; by rewrite Hsym).
  clearbody side. clear -Hlen Hsn. generalize dependent (oi_symbol_idx it). intros sym Hsn.
  do 64 (destruct bs as [|? bs]; [done|]). destruct bs; [|done].
  cbv -[be_value ouch_spec.symbol_number]. by rewrite Hsn.
Qed.

Lemma replace_order_bytes t it p0 : ori_symbol_idx it < kSymbols ->
  in_u 32 (ori_original_order_id it) -> in_u 32 (ori_replacement_order_id it) ->
  in_s 64 (ori_new_qty it) -> in_s 64 (ori_new_price it) -> in_u 8 (ori_time_in_force it) ->
  let '(ok, p) := packets.build_replace_order (packets.init t).2 it p0 in
  ok = true /\ op_len p = ouch.kReplaceOrderLen /\ length (op_bytes p) = 64%nat /\
  ouch_spec.parse_replace (op_bytes p) = Some (0x55, ori_original_order_id it, ori_replacement_order_id it,
    Z.max 0 (Z.min (ori_new_qty it) 0xFFFFFFFF), Z.max 0 (Z.min (ori_new_price it) 0xFFFFFFFF), ori_time_in_force it).
Proof.
  intros Hs Ho Hr Hq%numeric.in_s64 Hp%numeric.in_s64 Ht. unfold packets.build_replace_order.
  replace (pt_initialised (packets.init t).2) with true by done. destruct (Z.leb_spec kSymbols (ori_symbol_idx it)); [lia|].
  cbn [negb orb]. rewrite <- !clamp_u32_eq by done.
  assert (u32 (ori_time_in_force it) = ori_time_in_force it) as -> by (unfold in_u in Ht; apply wrap_u_id; unfold in_u; lia).
  cells (ori_original_order_id it). cells (ori_replacement_order_id it).
  cells (exec.clamp_u32 (ori_new_qty it)); [by apply clamp_u32_range|].
  cells (exec.clamp_u32 (ori_new_price it)); [by apply clamp_u32_range|]. cells (ori_time_in_force it); [unfold in_u in *; lia|].
  rewrite <- Hv, <- Hv0, <- Hv1, <- Hv2, <- Hv3. by cbv -[be_value].
Qed.

(** an Enter Order packet read at its documented offsets gives the intent
    back: message type O, the client order id as token, the side, quantity and
    price clamped to 32 bits, the symbol's number in its text and the time in
    force; nothing past byte 48 is written.  A Replace Order packet likewise
    gives back both tokens, the quantity, the price and the time in force. *)
Theorem ouch_packet_roundtrip (t : OuchPacketTemplates) (it : OrderIntent) (rt : OrderReplaceIntent) (buf : OutboundPacket)
    (Hbuf : length (op_bytes buf) = 64%nat)
    (Hs : 0 <= oi_symbol_idx it < kSymbols) (Hid : in_u 32 (oi_client_order_id it)) (Hq : in_s 64 (oi_qty it))
    (Hp : in_s 64 (oi_price it)) (Ht : in_u 8 (oi_time_in_force it))
    (Hs' : ori_symbol_idx rt < kSymbols) (Ho' : in_u 32 (ori_original_order_id rt))
    (Hr' : in_u 32 (ori_replacement_order_id rt)) (Hq' : in_s 64 (ori_new_qty rt))
    (Hp' : in_s 64 (ori_new_price rt)) (Ht' : in_u 8 (ori_time_in_force rt)) :
  let t' := (packets.init t).2 in
  let '(ok, p) := packets.build_enter_order t' it buf in
  let '(ok', p') := packets.build_replace_order t' rt buf in
  (ok = true /\ op_len p = 48 /\ drop 48 (op_bytes p) = drop 48 (op_bytes buf) /\
   ouch_spec.parse_enter (op_bytes p) = Some (0x4F, oi_client_order_id it, if Z.land (oi_side it) 1 =? 0 then 0x42 else 0x53,
     Z.max 0 (Z.min (oi_qty it) UINT32_MAX), oi_symbol_idx it, Z.max 0 (Z.min (oi_price it) UINT32_MAX), oi_time_in_force it)) /\
  (ok' = true /\ op_len p' = 32 /\
   ouch_spec.parse_replace (op_bytes p') = Some (0x55, ori_original_order_id rt, ori_replacement_order_id rt,
     Z.max 0 (Z.min (ori_new_qty rt) UINT32_MAX), Z.max 0 (Z.min (ori_new_price rt) UINT32_MAX), ori_time_in_force rt)).
Proof.
  intros t'. pose proof (enter_order_bytes t it buf Hs Hbuf Hid Hq Hp Ht) as H1.
  pose proof (replace_order_bytes t rt buf Hs' Ho' Hr' Hq' Hp' Ht') as H2. fold t' in H1, H2.
  destruct (packets.build_enter_order t' it buf) as [ok p], (packets.build_replace_order t' rt buf) as [ok' p'].
  destruct H1 as (? & ? & _ & ? & ?), H2 as (? & ? & _ & ?). by split_and!.
Qed.

Lemma ouch_packet_roundtrip_witness :
  let it := mkIntent 37 1 600 1500000 0 0 77 exec.kIOC in
  let rt := mkReplaceIntent 37 77 78 700 1510000 0 0 exec.kGTC in
  let t := (packets.init fresh_templates).2 in
  ouch_spec.parse_enter (op_bytes (packets.build_enter_order t it empty_packet).2) = Some (0x4F, 77, 0x53, 600, 37, 1500000, 1) /\
  ouch_spec.parse_replace (op_bytes (packets.build_replace_order t rt empty_packet).2) = Some (0x55, 77, 78, 700, 1510000, 3).
Proof.
  intros it rt t.
  assert (H := ouch_packet_roundtrip fresh_templates it rt empty_packet eq_refl).
  assert (Hu : forall w z, (0 <=? z) && (z <? 2 ^ w) = true -> in_u w z) by (unfold in_u; intros; lia).
  assert (Hi : forall z, (INT64_MIN <=? z) && (z <=? INT64_MAX) = true -> in_s 64 z) by (intros; apply numeric.in_s64; lia).
  cbv zeta in H. revert H. change (packets.init fresh_templates).2 with t. generalize t. intros t0 H. clear t.
  destruct (packets.build_enter_order t0 it empty_packet) as [ok p], (packets.build_replace_order t0 rt empty_packet) as [ok' p'].
  destruct H as [(_ & _ & _ & H1) (_ & _ & H2)]; [split; vm_compute; congruence|apply Hu; reflexivity|apply Hi; reflexivity|apply Hi; reflexivity|
    apply Hu; reflexivity|vm_compute; reflexivity|apply Hu; reflexivity|apply Hu; reflexivity|apply Hi; reflexivity|apply Hi; reflexivity|apply Hu; reflexivity|].
  split; [exact H1|exact H2].
Defined.
