(* ===== verification/LedgerSound.v ===== *)
(** * ReconciliationLedger: what it holds after any history

    A complete fill can make other orders unfindable (see
    [ledger_complete_fill_loses_collision]), so the table is no finite map over
    all histories.  It stays sound: each order is held at most once, and with
    its remaining quantity.  The clients that check [contains] first rely on
    nothing more. *)
From Stdlib Require Import ZArith Lia ZifyBool.
From S2P Require Import Prelude Probe Reconcile.

Lemma run_pow_inv {S R} (f : S -> S + R) (Inv : S -> Prop) (Post : R -> Prop) :
  (forall s, Inv s -> match f s with inl s' => Inv s' | inr r => Post r end) ->
  forall k s, Inv s -> match run_pow k f s with inl s' => Inv s' | inr r => Post r end.
Proof.
  intros Hstep k. induction k as [|k IH]; intros s Hs; cbn [run_pow]; [by apply Hstep|].
  pose proof (IH s Hs) as H1. destruct (run_pow k f s) as [s1|]; [by apply IH|done].
Qed.

Section sound.
Context (n : Z) (Hn : 0 <= n <= 31).
Local Abbreviation Capacity := (2 ^ n).
Implicit Types (E : gmap Z Entry) (Q : gmap Z Z) (L : ReconciliationLedger).
Import reconcile.

Record sound E Q : Prop := {
  sd_held s : 0 <= s < Capacity -> id_at E s <> 0 -> Q !! id_at E s = Some (en_remaining (entry_at E s));
  sd_once s s' : 0 <= s < Capacity -> 0 <= s' < Capacity -> id_at E s <> 0 -> id_at E s = id_at E s' -> s = s';
}.

Lemma sound_mono E Q Q' : Q ⊆ Q' -> sound E Q -> sound E Q'.
Proof. intros Hsub [H1 H2]. split; [|done]. intros s Hs Hne. eapply lookup_weaken; [by apply H1|done]. Qed.

Lemma find_range k E s : find n k E = Some s -> 0 <= s < Capacity /\ id_at E s = k.
Proof.
  intros [Hid Hr]%find_Some; [|done]. split; [|done]. by apply (reachable_range n ltac:(lia) _ _ _ _ _ Hr).
Qed.

Lemma find_sound k E Q s : sound E Q -> k <> 0 -> find n k E = Some s ->
  0 <= s < Capacity /\ id_at E s = k /\ Q !! k = Some (en_remaining (entry_at E s)).
Proof.
  intros HS Hk (Hs & Hid)%find_range. split_and!; [lia|lia|done|]. rewrite <- Hid. apply (sd_held _ _ HS); [done|congruence].
Qed.

Lemma sound_put E Q s k v : sound E Q -> id_at E s = 0 \/ id_at E s = k -> k <> 0 ->
  (forall u, 0 <= u < Capacity -> u <> s -> id_at E u <> k) -> sound (<[s := mkEntry k v]> E) (<[k := v]> Q).
Proof.
  intros [H1 H2] Hfree Hk Hnone. split.
  - intros u Hu. rewrite id_at_insert, entry_at_insert. case_decide; [intros _; apply lookup_insert_eq|].
    intros Hne. rewrite lookup_insert_ne by (intros E0; by apply (Hnone u)). by apply H1.
  - intros u u' Hu Hu'. rewrite !id_at_insert. cbn [en_order_id]. repeat case_decide; subst; try done.
    + intros _ Eq. exfalso. by apply (Hnone u').
    + intros _ Eq. exfalso. by apply (Hnone u).
    + by apply H2.
Qed.

Lemma sound_clear E Q s : sound E Q -> 0 <= s < Capacity -> sound (<[s := no_entry]> E) (delete (id_at E s) Q).
Proof.
  intros [H1 H2] Hs. split.
  - intros u Hu. rewrite id_at_insert, entry_at_insert. case_decide; [done|]. intros Hne.
    rewrite lookup_delete_ne; [by apply H1|]. intros Eq. by apply H, (H2 s u); [..|congruence|].
  - intros u u' Hu Hu'. rewrite !id_at_insert. cbn [en_order_id no_entry]. repeat case_decide; subst; try done.
    by apply H2.
Qed.

Lemma cleared_absent E Q s u : sound E Q -> 0 <= s < Capacity -> 0 <= u < Capacity -> id_at E s <> 0 ->
  id_at (<[s := no_entry]> E) u <> id_at E s.
Proof.
  intros [_ H2] Hs Hu Hne. rewrite id_at_insert. case_decide; [done|]. intros Eq. by apply H, (H2 s u).
Qed.

Lemma sound_reinsert_step E Q slot : 0 <= slot < Capacity -> sound E Q ->
  match reinsert_step n (E, slot) with inl (E', slot') => 0 <= slot' < Capacity /\ sound E' Q | inr E' => sound E' Q end.
Proof.
  intros Hs HS. cbn [reinsert_step]. destruct (Z.eqb_spec (id_at E slot) 0) as [|Hne]; [done|]. fold (id_at E slot).
  pose proof (sound_clear _ _ _ HS Hs) as HS1. pose proof (sd_held _ _ HS slot Hs Hne) as HQ.
  pose proof (find_or_empty_spec n Hn (<[slot := no_entry]> E) (id_at E slot)) as Hf.
  destruct (find_or_empty n (id_at E slot) _) as [dst|].
  - destruct Hf as (d & Hd & Edst & _ & Hdst). split.
    { rewrite land_mask by lia. apply Z.mod_pos_bound. pose proof (capacity_bounds n Hn). lia. }
    rewrite <- (insert_id _ _ _ HQ), <- (insert_delete_eq Q).
    replace (entry_at E slot) with (mkEntry (id_at E slot) (en_remaining (entry_at E slot))) at 1 by (unfold id_at; by destruct (entry_at E slot)).
    apply sound_put; [done|destruct Hdst; [by right|by left]|done|]. intros u Hu _. by eapply cleared_absent.
  - eapply sound_mono; [apply delete_subseteq|done].
Qed.

Lemma sound_cancel id L Q s : sound (rl_entries L) Q -> id <> 0 -> find n id (rl_entries L) = Some s ->
  exists L', cancel n id L = Some (true, L') /\ sound (rl_entries L') (delete id Q).
Proof.
  intros HS Hid Hf. destruct (find_range _ _ _ Hf) as [Hs Hids]. destruct (cancel_returns n Hn id L) as [r Hr]. revert Hr.
  unfold cancel. rewrite Hf. unfold reinsert_cluster.
  pose proof (run_pow_inv (reinsert_step n) (fun st => 0 <= st.2 < Capacity /\ sound st.1 (delete id Q)) (fun E => sound E (delete id Q))) as Hp.
  specialize (Hp ltac:(intros [E0 s0] [H1 H2]; pose proof (sound_reinsert_step E0 _ s0 H1 H2) as H3; by destruct (reinsert_step n (E0, s0)) as [[? ?]|])
    (Z.to_nat (3 * n)) (<[s := no_entry]> (rl_entries L), Z.land (s + 1) (Capacity - 1))).
  destruct (run_pow _ _ _) as [st|E'] eqn:Erun; [done|]. intros _. eexists. split; [done|]. cbn [rl_entries]. apply Hp. split.
  - cbn [snd]. rewrite land_mask by lia. apply Z.mod_pos_bound. pose proof (capacity_bounds n Hn). lia.
  - cbn [fst]. rewrite <- Hids. by apply sound_clear.
Qed.

Lemma sound_register id q L L' Q : sound (rl_entries L) Q -> Q !! id = None -> register_order n id q L = (true, L') ->
  id <> 0 /\ 0 < q /\ sound (rl_entries L') (<[id := q]> Q) /\ is_Some (find n id (rl_entries L')).
Proof.
  intros HS HQ. unfold register_order. destruct (_ || _) eqn:Eg; [done|]. apply orb_false_iff in Eg as [E0 Eq].
  pose proof (find_or_empty_spec n Hn (rl_entries L) id) as Hf. destruct (find_or_empty n id _) as [s|]; [|done].
  destruct Hf as (d & Hd & Es & Hc & _). destruct (Z.eqb_spec (id_at (rl_entries L) s) 0) as [Hz|]; [|done]. cbn [negb].
  intros [= <-]. cbn [rl_entries]. assert (Hid : id <> 0) by lia. split_and!; [done|lia| |].
  - apply sound_put; [done|by left|done|]. intros u Hu _ Eq'. pose proof (sd_held _ _ HS u Hu) as Hh. rewrite Eq' in Hh.
    rewrite Hh in HQ by done. done.
  - exists s. apply find_Some; [done|]. rewrite id_at_insert, decide_True by done. split; [done|].
    exists d. split; [done|]. split; [done|]. intros d' Hd'. rewrite id_at_insert. case_decide as Hsd.
    + exfalso. subst s. apply (probe_slot_inj n ltac:(lia)) in Hsd; lia.
    + by apply Hc.
Qed.

Lemma sound_replace id q L Q : sound (rl_entries L) Q -> contains n id L = true -> 0 < q ->
  exists L', replace n id q L = (true, L') /\ sound (rl_entries L') (<[id := q]> Q).
Proof.
  intros HS [Hid Hf]%andb_true_iff Hq. destruct (find n id (rl_entries L)) as [s|] eqn:Ef; [|done].
  assert (Hne : id <> 0) by lia. destruct (find_range _ _ _ Ef) as [Hs Hids]. unfold replace. rewrite Ef.
  destruct (Z.eqb_spec id 0), (Z.leb_spec q 0); try lia. cbn [orb]. eexists. split; [done|]. cbn [rl_entries]. rewrite Hids.
  apply sound_put; [done|by right|done|]. intros u Hu Hus Eq. apply Hus. symmetry. apply (sd_once _ _ HS); congruence || done.
Qed.

Lemma sound_apply r L Q v : sound (rl_entries L) Q -> contains n (er_order_id r) L = true -> Q !! er_order_id r = Some v ->
  0 < er_filled_quantity r <= v ->
  exists L', apply n r L = (true, L') /\
    sound (rl_entries L') (if er_terminal r || (v - er_filled_quantity r =? 0) then delete (er_order_id r) Q
                           else <[er_order_id r := v - er_filled_quantity r]> Q).
Proof.
  intros HS [Hid Hf]%andb_true_iff HQ Hfill. destruct (find n (er_order_id r) (rl_entries L)) as [s|] eqn:Ef; [|done].
  assert (Hne : er_order_id r <> 0) by lia. destruct (find_sound _ _ _ _ HS Hne Ef) as (Hs & Hids & HQ'). unfold apply. rewrite Ef.
  assert (Hv : en_remaining (entry_at (rl_entries L) s) = v) by congruence. rewrite Hv.
  destruct (Z.eqb_spec (er_order_id r) 0), (Z.leb_spec (er_filled_quantity r) 0); try lia. cbn [orb].
  destruct (Z.ltb_spec v (er_filled_quantity r)); [lia|]. cbv zeta.
  case_if; eexists; (split; [done|]); cbn [rl_entries].
  - rewrite <- Hids. by apply sound_clear.
  - fold (id_at (rl_entries L) s). rewrite Hids. apply sound_put; [done|by right|done|].
    intros u Hu Hus Eq. apply Hus. symmetry. apply (sd_once _ _ HS); congruence || done.
Qed.

Lemma sound_contains_zero L : contains n 0 L = false.
Proof. done. Qed.
End sound.

Lemma fresh_ledger_sound n : sound n (rl_entries fresh_ledger) ∅.
Proof. split; [intros s _ []; done|intros s s' _ _ []; done]. Qed.
