(* ===== verification/Gateway.v ===== *)
(** * ExecutionGateway (luv_execution.hpp)

    Order admission, replacement, venue reports and cancellation, over the
    breaker, the rate limiter, the pre-trade check, the reconciliation ledger
    and two journals.  The gateway is owned by one thread; the clocks it reads
    and the answer of the fill callback are arguments of the calls. *)
From Stdlib Require Import ZArith Lia ZifyBool.
From S2P Require Import Prelude Config Numeric Bytes Guards Reconcile Recovery AuditLog ExecTypes Risk.

(** ** The journals the gateway writes to

    What the gateway asks of the audit log and of the recovery ledger: record
    an event, and say whether it was accepted. *)
Class Journal (J Ev : Type) := journal_append : Ev -> J -> bool * J.

(** [ReconciliationLedger<>] has 2^16 slots. *)
Definition ledger_bits : Z := 16.
Definition ledger_contains : Z -> ReconciliationLedger -> bool := reconcile.contains ledger_bits.
Definition ledger_register : Z -> Z -> ReconciliationLedger -> bool * ReconciliationLedger := reconcile.register_order ledger_bits.
Definition ledger_replace : Z -> Z -> ReconciliationLedger -> bool * ReconciliationLedger := reconcile.replace ledger_bits.
Definition ledger_apply : ExecutionReport -> ReconciliationLedger -> bool * ReconciliationLedger := reconcile.apply ledger_bits.
(** [reconcile.cancel] always returns (see [cancel_returns]). *)
Definition ledger_cancel (id : Z) (L : ReconciliationLedger) : bool * ReconciliationLedger :=
  default (false, L) (reconcile.cancel ledger_bits id L).

Lemma ledger_cancel_eq id L r : reconcile.cancel ledger_bits id L = Some r -> ledger_cancel id L = r.
Proof. unfold ledger_cancel. by intros ->. Qed.

Record FillEvent := mkFillEvent {
  fe_order_id : Z;            (* uint64_t *)
  fe_filled_qty : Z;          (* int64_t, cumulative *)
  fe_fill_price : Z;          (* int64_t *)
  fe_timestamp_ns : Z;        (* uint64_t *)
}.

(** ** Order slots *)
Module slots.
(** The first slot that satisfies a test, with its index. *)
Definition find_slot (p : ActiveOrder -> bool) (orders : list ActiveOrder) : option (nat * ActiveOrder) :=
  list_find (fun o => p o = true) orders.

Definition is_free (o : ActiveOrder) : bool := (ao_state o =? 0) || (ao_state o =? 3).
Definition is_live (o : ActiveOrder) : bool := negb (is_free o).
(** The slots the report handlers look at. *)
Definition occupied_by (order_id : Z) (o : ActiveOrder) : bool := (ao_order_id o =? order_id) && negb (ao_state o =? 0).
Definition live_by (order_id : Z) (o : ActiveOrder) : bool := (ao_order_id o =? order_id) && is_live o.
End slots.

(** ** Reservations in the risk state *)
Definition release_reservation (side qty price : Z) (r : RiskState) : RiskState :=
  let delta := exec.signed_qty_delta side qty in
  let net := match numeric.checked_sub (rs_net_position r) delta with
             | Some next_pos => next_pos
             | None => s64 (rs_net_position r - delta)
             end in
  let gross := match numeric.checked_mul price qty with
               | Some released_exposure =>
                   match numeric.checked_sub (rs_gross_exposure r) released_exposure with
                   | Some next_gross => next_gross
                   | None => s64 (rs_gross_exposure r - s64 (price * qty))
                   end
               | None => s64 (rs_gross_exposure r - s64 (price * qty))
               end in
  set_reserved net gross (rs_order_count r) r.

Definition drop_order_count (r : RiskState) : RiskState :=
  if 0 <? rs_order_count r then set_reserved (rs_net_position r) (rs_gross_exposure r) (u32 (rs_order_count r - 1)) r else r.

Definition reserve_position (side qty price : Z) (r : RiskState) : RiskState :=
  set_reserved (s64 (rs_net_position r + exec.signed_qty_delta side qty))
    (s64 (rs_gross_exposure r + s64 (price * qty))) (u32 (rs_order_count r + 1)) r.

Definition count_rejection (r : RiskState) : RiskState := set_reject_count (u32 (rs_reject_count r + 1)) r.

(** [reserve_order_slot]; [false] leaves the slots as they are. *)
Definition reserve_order_slot (intent : OrderIntent) (s : SymbolExecState) : bool * SymbolExecState :=
  if kMaxActiveOrders <=? rs_order_count (se_risk s)
  then (false, mkExecState (se_orders s) (count_rejection (set_halted 1 (se_risk s))))
  else match slots.find_slot slots.is_free (se_orders s) with
  | None => (false, s)
  | Some (slot, _) =>
      let order := mkActive (oi_client_order_id intent) (oi_price intent) (oi_qty intent) 0 (oi_symbol_idx intent)
                     (Z.land (oi_side intent) 1) 1 (oi_time_in_force intent) in
      (true, mkExecState (<[slot := order]> (se_orders s))
               (reserve_position (oi_side intent) (oi_qty intent) (oi_price intent) (se_risk s)))
  end.

Definition release_order_slot (intent : OrderIntent) (s : SymbolExecState) : SymbolExecState :=
  match slots.find_slot (fun o => ao_order_id o =? oi_client_order_id intent) (se_orders s) with
  | None => s
  | Some (slot, _) =>
      mkExecState (<[slot := no_active]> (se_orders s))
        (release_reservation (oi_side intent) (oi_qty intent) (oi_price intent) (drop_order_count (se_risk s)))
  end.

(** ** The gateway *)
Record ExecutionGateway (AJ RJ : Type) := mkGateway {
  gw_arena : option exec_states;      (* Arena* _arena; its exec_states *)
  gw_risk : PreTradeRisk;
  gw_ouch : OuchPacketTemplates;
  gw_breaker : CircuitBreaker;
  gw_reconciliation : ReconciliationLedger;
  gw_pending : Z;                     (* OrderRateLimiter _rate_limiter *)
  gw_max_pending : Z;
  gw_audit_log : option AJ;           (* DurableAuditLog* *)
  gw_recovery_ledger : option RJ;     (* RecoveryLedger* *)
  gw_fill_callback : bool;            (* FillEventCallback installed *)
  gw_last_fill_timestamp_ns : Z;      (* uint64_t *)
  gw_fill_report_count : Z;           (* uint64_t *)
  gw_dropped_fill_notifications : Z;  (* uint64_t *)
}.
Arguments mkGateway {AJ RJ}.
Arguments gw_arena {AJ RJ}.
Arguments gw_risk {AJ RJ}.
Arguments gw_ouch {AJ RJ}.
Arguments gw_breaker {AJ RJ}.
Arguments gw_reconciliation {AJ RJ}.
Arguments gw_pending {AJ RJ}.
Arguments gw_max_pending {AJ RJ}.
Arguments gw_audit_log {AJ RJ}.
Arguments gw_recovery_ledger {AJ RJ}.
Arguments gw_fill_callback {AJ RJ}.
Arguments gw_last_fill_timestamp_ns {AJ RJ}.
Arguments gw_fill_report_count {AJ RJ}.
Arguments gw_dropped_fill_notifications {AJ RJ}.

Module gateway.
Section ops.
Context {AJ RJ : Type} `{Journal AJ AuditEvent} `{Journal RJ RecoveryEvent}.
Abbreviation Gateway := (ExecutionGateway AJ RJ).

(** Field updates. *)
Definition set_exec (f : exec_states -> exec_states) (g : Gateway) : Gateway :=
  mkGateway (f <$> gw_arena g) (gw_risk g) (gw_ouch g) (gw_breaker g) (gw_reconciliation g) (gw_pending g) (gw_max_pending g)
    (gw_audit_log g) (gw_recovery_ledger g) (gw_fill_callback g) (gw_last_fill_timestamp_ns g) (gw_fill_report_count g)
    (gw_dropped_fill_notifications g).
Definition set_breaker (b : CircuitBreaker) (g : Gateway) : Gateway :=
  mkGateway (gw_arena g) (gw_risk g) (gw_ouch g) b (gw_reconciliation g) (gw_pending g) (gw_max_pending g)
    (gw_audit_log g) (gw_recovery_ledger g) (gw_fill_callback g) (gw_last_fill_timestamp_ns g) (gw_fill_report_count g)
    (gw_dropped_fill_notifications g).
Definition set_reconciliation (L : ReconciliationLedger) (g : Gateway) : Gateway :=
  mkGateway (gw_arena g) (gw_risk g) (gw_ouch g) (gw_breaker g) L (gw_pending g) (gw_max_pending g)
    (gw_audit_log g) (gw_recovery_ledger g) (gw_fill_callback g) (gw_last_fill_timestamp_ns g) (gw_fill_report_count g)
    (gw_dropped_fill_notifications g).
Definition set_pending (x : Z) (g : Gateway) : Gateway :=
  mkGateway (gw_arena g) (gw_risk g) (gw_ouch g) (gw_breaker g) (gw_reconciliation g) x (gw_max_pending g)
    (gw_audit_log g) (gw_recovery_ledger g) (gw_fill_callback g) (gw_last_fill_timestamp_ns g) (gw_fill_report_count g)
    (gw_dropped_fill_notifications g).
Definition set_audit_log (j : option AJ) (g : Gateway) : Gateway :=
  mkGateway (gw_arena g) (gw_risk g) (gw_ouch g) (gw_breaker g) (gw_reconciliation g) (gw_pending g) (gw_max_pending g)
    j (gw_recovery_ledger g) (gw_fill_callback g) (gw_last_fill_timestamp_ns g) (gw_fill_report_count g)
    (gw_dropped_fill_notifications g).
Definition set_recovery_ledger (j : option RJ) (g : Gateway) : Gateway :=
  mkGateway (gw_arena g) (gw_risk g) (gw_ouch g) (gw_breaker g) (gw_reconciliation g) (gw_pending g) (gw_max_pending g)
    (gw_audit_log g) j (gw_fill_callback g) (gw_last_fill_timestamp_ns g) (gw_fill_report_count g)
    (gw_dropped_fill_notifications g).
Definition set_fill_event_callback (installed : bool) (g : Gateway) : Gateway :=
  mkGateway (gw_arena g) (gw_risk g) (gw_ouch g) (gw_breaker g) (gw_reconciliation g) (gw_pending g) (gw_max_pending g)
    (gw_audit_log g) (gw_recovery_ledger g) installed (gw_last_fill_timestamp_ns g) (gw_fill_report_count g)
    (gw_dropped_fill_notifications g).
Definition set_fill_stats (last count dropped : Z) (g : Gateway) : Gateway :=
  mkGateway (gw_arena g) (gw_risk g) (gw_ouch g) (gw_breaker g) (gw_reconciliation g) (gw_pending g) (gw_max_pending g)
    (gw_audit_log g) (gw_recovery_ledger g) (gw_fill_callback g) last count dropped.

(** The symbol's execution state, and an update of it. *)
Definition set_state (symbol : Z) (s : SymbolExecState) : Gateway -> Gateway := set_exec (fun E => <[symbol := s]> E).
Definition set_risk (symbol : Z) (f : RiskState -> RiskState) : Gateway -> Gateway := set_exec (update_risk f symbol).

(** [OrderRateLimiter::try_acquire] and [release], without interference. *)
Definition acquire_permit (g : Gateway) : bool * Gateway :=
  let '(ok, p) := limiter.try_acquire (gw_max_pending g) (gw_pending g) in (ok, set_pending p g).
Definition release_permit (g : Gateway) : Gateway := set_pending (limiter.release (gw_pending g)) g.
Definition cancel_reconciliation (id : Z) (g : Gateway) : bool * Gateway :=
  let '(ok, L) := ledger_cancel id (gw_reconciliation g) in (ok, set_reconciliation L g).
Definition record_failure (now_ns : Z) (g : Gateway) : Gateway := set_breaker (breaker.record_failure now_ns (gw_breaker g)) g.

(** [_log && !_log->append(...)]: [true] when there is no log. *)
Definition audit (e : AuditEvent) (g : Gateway) : bool * Gateway :=
  match gw_audit_log g with
  | None => (true, g)
  | Some j => let '(ok, j) := journal_append e j in (ok, set_audit_log (Some j) g)
  end.
Definition recover (e : RecoveryEvent) (g : Gateway) : bool * Gateway :=
  match gw_recovery_ledger g with
  | None => (true, g)
  | Some j => let '(ok, j) := journal_append e j in (ok, set_recovery_ledger (Some j) g)
  end.

Definition fresh (rate_limit : Z) : Gateway :=
  mkGateway None fresh_pre_trade_risk fresh_templates (breaker.create 1 0) fresh_ledger 0 rate_limit None None false 0 0 0.

(** [init]; the arguments are [arena.is_initialised()] and the arena's states. *)
Definition init (arena_initialised : bool) (E : exec_states) (g : Gateway) : bool * Gateway :=
  if negb arena_initialised then (false, g)
  else
    let '(risk_ok, r) := risk.init arena_initialised (gw_risk g) in
    let '(ouch_ok, o) := packets.init (gw_ouch g) in
    if negb risk_ok then (false, mkGateway (Some E) r (gw_ouch g) (gw_breaker g) (gw_reconciliation g) (gw_pending g)
      (gw_max_pending g) (gw_audit_log g) (gw_recovery_ledger g) (gw_fill_callback g) (gw_last_fill_timestamp_ns g)
      (gw_fill_report_count g) (gw_dropped_fill_notifications g))
    else if negb ouch_ok then (false, mkGateway (Some E) r o (gw_breaker g) (gw_reconciliation g) (gw_pending g)
      (gw_max_pending g) (gw_audit_log g) (gw_recovery_ledger g) (gw_fill_callback g) (gw_last_fill_timestamp_ns g)
      (gw_fill_report_count g) (gw_dropped_fill_notifications g))
    else (true, mkGateway (Some E) r o (breaker.reset (gw_breaker g)) (gw_reconciliation g) (gw_pending g)
      (gw_max_pending g) (gw_audit_log g) (gw_recovery_ledger g) (gw_fill_callback g) (gw_last_fill_timestamp_ns g) 0 0).

(** *** Admission *)
Definition add_event (intent : OrderIntent) : RecoveryEvent :=
  mkEvent kAdd (oi_client_order_id intent) (oi_qty intent) (oi_price intent) (oi_side intent) (oi_now_ns intent).

Definition reject_bits (d : RiskDecision) (bits : Z) : RiskDecision := mkDecision 0 (u8 (Z.lor (rd_reject_mask d) bits)).

(** Undo the ledger entry, the slot and the permit after a failed journal. *)
Definition undo_admission (intent : OrderIntent) (g : Gateway) : Gateway :=
  let g := (cancel_reconciliation (oi_client_order_id intent) g).2 in
  let g := set_exec (fun E => <[oi_symbol_idx intent := release_order_slot intent (state_of E (oi_symbol_idx intent))]> E) g in
  let g := release_permit g in
  let g := set_risk (oi_symbol_idx intent) count_rejection g in
  record_failure (oi_now_ns intent) g.

(** Register with the ledger, reserve a slot, write the audit record. *)
Definition admit_order (E : exec_states) (intent : OrderIntent) (decision : RiskDecision) (packet : OutboundPacket) (g : Gateway) :
    RiskDecision * OutboundPacket * Gateway :=
  let sym := oi_symbol_idx intent in
  let '(registered, L) := ledger_register (oi_client_order_id intent) (oi_qty intent) (gw_reconciliation g) in
  let g := set_reconciliation L g in
  if negb registered then
    let g := set_risk sym count_rejection (release_permit g) in
    (reject_bits decision exec.kRejectPosition, set_len 0 packet, record_failure (oi_now_ns intent) g)
  else
    let '(reserved, s) := reserve_order_slot intent (state_of E sym) in
    let g := set_state sym s g in
    if negb reserved then
      let g := release_permit (cancel_reconciliation (oi_client_order_id intent) g).2 in
      (reject_bits decision exec.kRejectPosition, set_len 0 packet, record_failure (oi_now_ns intent) g)
    else
      let '(logged, g) := audit (mkAudit 0 (oi_now_ns intent) (oi_client_order_id intent) (oi_price intent) (oi_qty intent)
                                   0 (oi_side intent) 0x41) g in
      if negb logged then (reject_bits decision exec.kRejectHalted, set_len 0 packet, undo_admission intent g)
      else (decision, packet, g).

Definition journal_admission (intent : OrderIntent) (decision : RiskDecision) (packet : OutboundPacket) (g : Gateway) :
    RiskDecision * OutboundPacket * Gateway :=
  if rd_pass decision =? 0 then (decision, packet, g)
  else
    let '(recovered, g) := recover (add_event intent) g in
    if negb recovered then (reject_bits decision exec.kRejectHalted, set_len 0 packet, undo_admission intent g)
    else (decision, packet, g).

Definition try_build (intent : OrderIntent) (packet : OutboundPacket) (g : Gateway) : RiskDecision * OutboundPacket * Gateway :=
  let packet := set_len 0 packet in
  let sym := oi_symbol_idx intent in
  match gw_arena g with
  | None => (mkDecision 0 exec.kRejectInvalidSymbol, packet, g)
  | Some E =>
      if kSymbols <=? sym then (mkDecision 0 exec.kRejectInvalidSymbol, packet, g)
      else
        let '(allowed, b) := breaker.allow (oi_now_ns intent) (gw_breaker g) in
        let g := set_breaker b g in
        let refuse := fun g => set_risk sym (fun r => set_halted 1 (count_rejection r)) g in
        if negb allowed then (mkDecision 0 exec.kRejectHalted, packet, refuse g)
        else
          let '(acquired, g) := acquire_permit g in
          if negb acquired then (mkDecision 0 exec.kRejectHalted, packet, refuse g)
          else
            let decision := risk.evaluate (gw_risk g) E intent in
            let risk_pass := rd_pass decision in
            let capacity_ok := bit (rs_order_count (risk_of E sym) <? kMaxActiveOrders) in
            let decision := mkDecision (Z.land (rd_pass decision) capacity_ok)
              (Z.lor (rd_reject_mask decision) (u8 (Z.lxor capacity_ok 1 * exec.kRejectOrderCapacity))) in
            if risk_pass =? 0 then (decision, set_len 0 packet, set_risk sym count_rejection (release_permit g))
            else if capacity_ok =? 0 then (decision, set_len 0 packet, refuse (release_permit g))
            else
              let '(built, packet) := if rd_pass decision =? 0 then (false, packet)
                                      else packets.build_enter_order (gw_ouch g) intent packet in
              let decision := mkDecision (Z.land (rd_pass decision) (bit built))
                (Z.lor (rd_reject_mask decision) (u8 (Z.lxor (bit built) 1 * exec.kRejectFlatSignal))) in
              if rd_pass decision =? 0 then (decision, set_len 0 packet, set_risk sym count_rejection (release_permit g))
              else
                let pass_mask := u8 (- wrap_s 8 (rd_pass decision)) in
                let packet := set_len (u16 (Z.land (op_len packet) pass_mask)) packet in
                let '(decision, packet, g) := admit_order E intent decision packet g in
                journal_admission intent decision packet g
  end.

(** *** Replacement requests *)
Definition try_replace (intent : OrderReplaceIntent) (packet : OutboundPacket) (g : Gateway) :
    RiskDecision * OutboundPacket * Gateway :=
  let packet := set_len 0 packet in
  let sym := ori_symbol_idx intent in
  match gw_arena g with
  | None => (mkDecision 0 exec.kRejectInvalidSymbol, packet, g)
  | Some E =>
      if kSymbols <=? sym then (mkDecision 0 exec.kRejectInvalidSymbol, packet, g)
      else
        let '(allowed, b) := breaker.allow (ori_now_ns intent) (gw_breaker g) in
        let g := set_breaker b g in
        let count := fun g => set_risk sym count_rejection g in
        if negb allowed then
          (mkDecision 0 exec.kRejectHalted, packet, set_risk sym (fun r => set_halted 1 (count_rejection r)) g)
        else if negb (ledger_contains (ori_original_order_id intent) (gw_reconciliation g)) then
          (mkDecision 0 exec.kRejectPosition, packet, count g)
        else match slots.find_slot (slots.live_by (ori_original_order_id intent)) (se_orders (state_of E sym)) with
        | None => (mkDecision 0 exec.kRejectPosition, packet, count g)
        | Some (_, existing_order) =>
            let test_intent := mkIntent sym (ao_side existing_order) (ori_new_qty intent) (ori_new_price intent)
              (ori_alpha_timestamp_ns intent) (ori_now_ns intent) (ori_replacement_order_id intent) (ori_time_in_force intent) in
            let decision := risk.evaluate (gw_risk g) E test_intent in
            if rd_pass decision =? 0 then (decision, set_len 0 packet, count g)
            else
              let '(built, packet) := packets.build_replace_order (gw_ouch g) intent packet in
              if negb built then (reject_bits decision exec.kRejectFlatSignal, set_len 0 packet, count g)
              else
                let '(logged, g) := audit (mkAudit 0 (ori_now_ns intent) (ori_replacement_order_id intent) (ori_new_price intent)
                                             (ori_new_qty intent) 0 (ao_side existing_order) 0x55) g in
                if negb logged then
                  (reject_bits decision exec.kRejectHalted, set_len 0 packet, record_failure (ori_now_ns intent) (count g))
                else (decision, packet, g)
        end
  end.

(** *** Venue reports *)
(** [_breaker.trip()], with the default time stamp. *)
Definition trip (g : Gateway) : Gateway := set_breaker (breaker.trip 0 (gw_breaker g)) g.
Definition halt_and_trip (symbol : Z) (g : Gateway) : Gateway := trip (set_risk symbol (set_halted 1) g).

Definition next_utc_fill_timestamp_ns (utc_now : Z) (g : Gateway) : Z :=
  if (utc_now <=? gw_last_fill_timestamp_ns g) && negb (gw_last_fill_timestamp_ns g =? UINT64_MAX)
  then u64 (gw_last_fill_timestamp_ns g + 1) else utc_now.

(** The callback part of a fill: the event delivered and the new counters;
    [accepts] is the callback's answer. *)
Definition notify_fill (order_id filled_qty price utc_now : Z) (accepts : bool) (g : Gateway) : option FillEvent * Gateway :=
  let count := u64 (gw_fill_report_count g + 1) in
  if gw_fill_callback g then
    let timestamp := next_utc_fill_timestamp_ns utc_now g in
    (Some (mkFillEvent order_id filled_qty price timestamp),
     set_fill_stats timestamp count
       (if accepts then gw_dropped_fill_notifications g else u64 (gw_dropped_fill_notifications g + 1)) g)
  else (None, set_fill_stats (gw_last_fill_timestamp_ns g) count (gw_dropped_fill_notifications g) g).

(** The slot and the risk state after a fill, and whether the order is done. *)
Definition settle_fill (report : ExecutionReport) (order : ActiveOrder) (r : RiskState) : ActiveOrder * RiskState * bool :=
  let remaining := ao_qty order - er_filled_quantity report in
  let filled := s64 (ao_filled_qty order + er_filled_quantity report) in
  let slot := fun state => mkActive (ao_order_id order) (ao_price order) remaining filled (ao_symbol_idx order) (ao_side order)
                             state (ao_time_in_force order) in
  if er_terminal report || (remaining =? 0) then
    let r := if er_terminal report && (0 <? remaining)
             then release_reservation (ao_side order) remaining (ao_price order) r else r in
    (slot 3, drop_order_count r, true)
  else (slot 2, r, false).

Definition apply_execution_report (symbol : Z) (report : ExecutionReport) (now_ns utc_now : Z) (accepts : bool) (g : Gateway) :
    bool * option FillEvent * Gateway :=
  match gw_arena g with
  | None => (false, None, trip g)
  | Some E =>
      if kSymbols <=? symbol then (false, None, trip g)
      else
        let s := state_of E symbol in
        match slots.find_slot (slots.occupied_by (er_order_id report)) (se_orders s) with
        | None => (false, None, halt_and_trip symbol g)
        | Some (i, order) =>
            if (er_filled_quantity report <=? 0) || (ao_qty order <? er_filled_quantity report)
               || negb (ledger_contains (er_order_id report) (gw_reconciliation g))
            then (false, None, halt_and_trip symbol g)
            else
              let remaining_quantity := ao_qty order - er_filled_quantity report in
              let recovery_event := if er_terminal report && (0 <? remaining_quantity) then kTerminalFill else kFill in
              let '(recovered, g) := recover (mkEvent recovery_event (ao_order_id order) (er_filled_quantity report)
                                                (ao_price order) (ao_side order) now_ns) g in
              if negb recovered then (false, None, halt_and_trip symbol g)
              else
                let '(applied, L) := ledger_apply report (gw_reconciliation g) in
                let g := set_reconciliation L g in
                if negb applied then (false, None, halt_and_trip symbol g)
                else
                  let '(order', r, done_) := settle_fill report order (se_risk s) in
                  let '(event, g) := notify_fill (ao_order_id order) (ao_filled_qty order') (ao_price order) utc_now accepts g in
                  let g := set_state symbol (mkExecState (<[i := order']> (se_orders s)) r) g in
                  (true, event, if done_ then release_permit g else g)
        end
  end.

Definition apply_cancel_report (symbol order_id now_ns : Z) (g : Gateway) : bool * Gateway :=
  match gw_arena g with
  | None => (false, trip g)
  | Some E =>
      if kSymbols <=? symbol then (false, trip g)
      else
        let s := state_of E symbol in
        match slots.find_slot (slots.occupied_by order_id) (se_orders s) with
        | None => (false, halt_and_trip symbol g)
        | Some (i, order) =>
            if ao_state order =? 3 then (false, g)
            else if negb (ledger_contains order_id (gw_reconciliation g)) then (false, halt_and_trip symbol g)
            else
              let '(recovered, g) := recover (mkEvent kCancel (ao_order_id order) (ao_qty order) (ao_price order)
                                                (ao_side order) now_ns) g in
              if negb recovered then (false, halt_and_trip symbol g)
              else
                let '(cancelled, g) := cancel_reconciliation order_id g in
                if negb cancelled then (false, halt_and_trip symbol g)
                else
                  let r := release_reservation (ao_side order) (ao_qty order) (ao_price order) (se_risk s) in
                  let g := set_state symbol (mkExecState (<[i := no_active]> (se_orders s)) (drop_order_count r)) g in
                  (true, release_permit g)
        end
  end.

(** The position and exposure are adjusted with unchecked int64 arithmetic. *)
Definition adjust_position (side old_qty old_price new_qty new_price : Z) (r : RiskState) : RiskState :=
  let old_signed := exec.signed_qty_delta side old_qty in
  let new_signed := exec.signed_qty_delta side new_qty in
  set_reserved (s64 (rs_net_position r + s64 (new_signed - old_signed)))
    (s64 (rs_gross_exposure r + s64 (s64 (new_price * new_qty) - s64 (old_price * old_qty)))) (rs_order_count r) r.

Definition apply_replace_report (symbol order_id new_qty new_price now_ns : Z) (g : Gateway) : bool * Gateway :=
  match gw_arena g with
  | None => (false, trip g)
  | Some E =>
      if kSymbols <=? symbol then (false, trip g)
      else
        let s := state_of E symbol in
        match slots.find_slot (slots.live_by order_id) (se_orders s) with
        | None => (false, halt_and_trip symbol g)
        | Some (i, order) =>
            if negb (ledger_contains order_id (gw_reconciliation g)) || (new_qty <=? 0) || (new_price <=? 0)
            then (false, halt_and_trip symbol g)
            else
              let '(recovered, g) := recover (mkEvent kReplace (ao_order_id order) new_qty new_price (ao_side order) now_ns) g in
              if negb recovered then (false, halt_and_trip symbol g)
              else
                let '(replaced, L) := ledger_replace order_id new_qty (gw_reconciliation g) in
                let g := set_reconciliation L g in
                if negb replaced then (false, halt_and_trip symbol g)
                else
                  let r := adjust_position (ao_side order) (ao_qty order) (ao_price order) new_qty new_price (se_risk s) in
                  let order' := mkActive (ao_order_id order) new_price new_qty (ao_filled_qty order) (ao_symbol_idx order)
                                  (ao_side order) (ao_state order) (ao_time_in_force order) in
                  (true, set_state symbol (mkExecState (<[i := order']> (se_orders s)) r) g)
        end
  end.

Definition apply_reject_report (symbol order_id now_ns : Z) (g : Gateway) : bool * Gateway :=
  match gw_arena g with
  | None => (false, record_failure now_ns g)
  | Some E =>
      if kSymbols <=? symbol then (false, record_failure now_ns g)
      else
        let s := state_of E symbol in
        let matching := slots.find_slot (slots.occupied_by order_id) (se_orders s) in
        let stale := match matching with Some (_, order) => ao_state order =? 3 | None => false end in
        if stale then (false, g)
        else
          let r := count_rejection (se_risk s) in
          let g := set_breaker (breaker.record_rejection now_ns (gw_breaker g)) g in
          let r := if lim_max_consecutive_rejections (risk.limits symbol (gw_risk g)) <=? rs_reject_count r
                   then set_halted 1 r else r in
          match matching with
          | None => (false, set_state symbol (mkExecState (se_orders s) r) g)
          | Some (i, order) =>
              let g := (cancel_reconciliation order_id g).2 in
              let r := set_reserved (s64 (rs_net_position r - exec.signed_qty_delta (ao_side order) (ao_qty order)))
                         (s64 (rs_gross_exposure r - s64 (ao_price order * ao_qty order))) (rs_order_count r) r in
              (true, release_permit (set_state symbol (mkExecState (<[i := no_active]> (se_orders s)) (drop_order_count r)) g))
          end
  end.

(** *** Control plane *)
Definition halt_symbol (sym : Z) (g : Gateway) : Gateway :=
  match gw_arena g with Some _ => if sym <? kSymbols then set_risk sym (set_halted 1) g else g | None => g end.
Definition resume_symbol (sym : Z) (g : Gateway) : Gateway :=
  match gw_arena g with Some _ => if sym <? kSymbols then set_risk sym (set_halted 0) g else g | None => g end.
Definition is_symbol_halted (sym : Z) (g : Gateway) : bool :=
  match gw_arena g with
  | Some E => if kSymbols <=? sym then true else negb (rs_halted (risk_of E sym) =? 0)
  | None => true
  end.

Definition query_order (order_id : Z) (g : Gateway) : option ActiveOrder :=
  match gw_arena g with
  | None => None
  | Some E =>
      if order_id =? 0 then None
      else
        let hits := omap (fun symbol => snd <$> slots.find_slot (slots.occupied_by order_id) (se_orders (state_of E symbol)))
                      (zrange 0 (Z.to_nat kSymbols)) in
        head hits
  end.

Definition query_position (symbol : Z) (g : Gateway) : option RiskState :=
  match gw_arena g with
  | Some E => if kSymbols <=? symbol then None else Some (risk_of E symbol)
  | None => None
  end.

Definition cancel_order (order_id now_ns : Z) (g : Gateway) : bool * Gateway :=
  match gw_arena g with
  | None => (false, g)
  | Some E =>
      if order_id =? 0 then (false, g)
      else match head (filter (fun symbol => is_Some (slots.find_slot (slots.live_by order_id) (se_orders (state_of E symbol))))
                         (zrange 0 (Z.to_nat kSymbols))) with
      | Some symbol => apply_cancel_report symbol order_id now_ns g
      | None => (false, g)
      end
  end.
End ops.
End gateway.
