(* ===== verification/Accounts.v ===== *)
(** * Accounts: what the gateway's slots add up to

    Arithmetic modulo 2^64 as a setoid, the sums over the live orders of a
    symbol, and what each change of a slot does to them. *)
From Stdlib Require Import ZArith Lia ZifyBool Setoid Morphisms.
From S2P Require Import Prelude Config Numeric Guards Reconcile Recovery AuditLog ExecTypes Risk Gateway.

(** ** Congruence modulo 2^64 *)
Record eqm64 (a b : Z) : Prop := eqm64_intro { eqm64_mod : a mod 2 ^ 64 = b mod 2 ^ 64 }.
Infix "≡64" := eqm64 (at level 70).

#[global] Instance eqm64_equivalence : Equivalence eqm64.
Proof. split; [by intros ?|intros ? ? [E1]; by split|intros ? ? ? [E1] [E2]; split; by etrans]. Qed.
#[global] Instance eqm64_add : Proper (eqm64 ==> eqm64 ==> eqm64) Z.add.
Proof. intros a a' [Ha] b b' [Hb]. split. by rewrite Zplus_mod, Ha, Hb, <- Zplus_mod. Qed.
#[global] Instance eqm64_sub : Proper (eqm64 ==> eqm64 ==> eqm64) Z.sub.
Proof. intros a a' [Ha] b b' [Hb]. split. by rewrite Zminus_mod, Ha, Hb, <- Zminus_mod. Qed.
#[global] Instance eqm64_s64 : Proper (eqm64 ==> eq) (wrap_s 64).
Proof.
  intros a b H. unfold wrap_s. f_equal. assert (E : a + 2 ^ (64 - 1) ≡64 b + 2 ^ (64 - 1)) by by rewrite H. apply E.
Qed.

Lemma s64_eqm z : s64 z ≡64 z.
Proof. split. unfold wrap_s. rewrite Zminus_mod_idemp_l. f_equal. lia. Qed.

Lemma s64_in z : in_s 64 (s64 z).
Proof. apply wrap_s_range. lia. Qed.

Lemma s64_of z : in_s 64 z -> s64 z = z.
Proof. intros. apply wrap_s_id; [lia|done]. Qed.

(** Equal integers are congruent. *)
Lemma eqm64_eq a b : a = b -> a ≡64 b.
Proof. by intros ->. Qed.
Ltac eq_lia := apply eqm64_eq; lia.

(** The sign flip of [signed_qty_delta], for any quantity. *)
Lemma signed_qty_delta_eqm side qty : exec.signed_qty_delta side qty ≡64 side_sign side * qty.
Proof.
  unfold exec.signed_qty_delta. rewrite s64_eqm. unfold side_sign. destruct (land_1_cases side) as [-> | ->]; cbn [Z.eqb].
  - rewrite Z.lxor_0_r. replace (qty - - 0) with (1 * qty) by lia. reflexivity.
  - change (- (1)) with (-1). rewrite Z.lxor_m1_r. unfold Z.lnot. replace (Z.pred (- qty) - -1) with (-1 * qty) by lia. reflexivity.
Qed.

Lemma side_sign_land side : side_sign (Z.land side 1) = side_sign side.
Proof. unfold side_sign. by rewrite <- Z.land_assoc. Qed.

Lemma checked_sub_wraps a b : in_s 64 a -> in_s 64 b ->
  match numeric.checked_sub a b with Some x => x | None => s64 (a - b) end = s64 (a - b).
Proof.
  intros Ha Hb. rewrite numeric.checked_sub_exact by done. unfold numeric.builtin_exact. case_if; [|done].
  symmetry. apply numeric.s64_id. lia.
Qed.

(** ** Sums over the live orders *)
Definition live_orders (l : list ActiveOrder) : list ActiveOrder := filter (fun o => slots.is_live o = true) l.
Definition open_total (f : ActiveOrder -> Z) (l : list ActiveOrder) : Z := zsum (f <$> live_orders l).
Definition signed (o : ActiveOrder) : Z := side_sign (ao_side o) * ao_qty o.
Definition notional (o : ActiveOrder) : Z := ao_price o * ao_qty o.
Definition count_one (o : ActiveOrder) : Z := 1.

(** What one slot contributes. *)
Definition part (f : ActiveOrder -> Z) (o : ActiveOrder) : Z := if slots.is_live o then f o else 0.

Lemma open_total_parts f l : open_total f l = zsum (part f <$> l).
Proof.
  unfold open_total, live_orders. induction l as [|o l IH]; [done|]. rewrite filter_cons, fmap_cons, zsum_cons. unfold part at 1.
  destruct (slots.is_live o) eqn:E; case_decide; try congruence; [|lia]. rewrite fmap_cons, zsum_cons. lia.
Qed.

Lemma zsum_insert (l : list Z) i x y : l !! i = Some x -> zsum (<[i := y]> l) = zsum l - x + y.
Proof.
  revert i. induction l as [|z l IH]; intros [|i] H; [done|done| |].
  - cbn in *. injection H as ->. lia.
  - cbn in H. cbn [list_insert]. change (<[S i := y]> (z :: l)) with (z :: <[i := y]> l). rewrite !zsum_cons, (IH i) by done. lia.
Qed.

Lemma open_total_insert f l i x y : l !! i = Some x -> open_total f (<[i := y]> l) = open_total f l - part f x + part f y.
Proof.
  intros H. rewrite !open_total_parts, list_fmap_insert. apply zsum_insert. by rewrite list_lookup_fmap, H.
Qed.

Lemma open_total_count l : open_total count_one l = Z.of_nat (length (live_orders l)).
Proof. unfold open_total. generalize (live_orders l). intros k. induction k as [|o k IH]; [done|]. rewrite fmap_cons, zsum_cons, IH. unfold count_one. cbn [length]. lia. Qed.

(** Replacing a slot that is not live by another that is not live. *)
Lemma live_orders_insert_dead l i x y : l !! i = Some x -> slots.is_live x = false -> slots.is_live y = false ->
  live_orders (<[i := y]> l) = live_orders l.
Proof.
  intros H Hx Hy. rewrite <- (take_drop_middle l i x H) at 2. rewrite insert_take_drop by (by eapply lookup_lt_Some).
  unfold live_orders. rewrite !filter_app, !filter_cons. by rewrite !decide_False by congruence.
Qed.

(** Filling a free slot adds the order. *)
Lemma live_orders_insert_live l i x y : l !! i = Some x -> slots.is_live x = false -> slots.is_live y = true ->
  live_orders (<[i := y]> l) ≡ₚ y :: live_orders l.
Proof.
  intros H Hx Hy. rewrite <- (take_drop_middle l i x H) at 2. rewrite insert_take_drop by (by eapply lookup_lt_Some).
  unfold live_orders. rewrite !filter_app, !filter_cons. rewrite decide_True by done. rewrite decide_False by congruence.
  by rewrite <- Permutation_middle.
Qed.

(** ** A symbol's account *)
Record same_account (s s' : SymbolExecState) : Prop := {
  sa_length : length (se_orders s') = length (se_orders s);
  sa_live : live_orders (se_orders s') = live_orders (se_orders s);
  sa_net : rs_net_position (se_risk s') = rs_net_position (se_risk s);
  sa_gross : rs_gross_exposure (se_risk s') = rs_gross_exposure (se_risk s);
  sa_count : rs_order_count (se_risk s') = rs_order_count (se_risk s);
}.

#[global] Instance same_account_preorder : PreOrder same_account.
Proof. split; [by intros ?|intros ? ? ? [] []; split; congruence]. Qed.

(** The risk state agrees with the slots: the position is what was settled plus
    the signed open quantity, and so on. *)
Record account_ok (s : SymbolExecState) (settled_position settled_notional : Z) : Prop := {
  ac_length : length (se_orders s) = Z.to_nat kMaxActiveOrders;
  ac_count : rs_order_count (se_risk s) = open_total count_one (se_orders s);
  ac_net : rs_net_position (se_risk s) = s64 (settled_position + open_total signed (se_orders s));
  ac_gross : rs_gross_exposure (se_risk s) = s64 (settled_notional + open_total notional (se_orders s));
}.

Lemma same_account_ok s s' p q : same_account s s' -> account_ok s p q -> account_ok s' p q.
Proof. intros [Hl Hv Hn Hg Hc] [H1 H2 H3 H4]. split; unfold open_total in *; rewrite ?Hl, ?Hv, ?Hn, ?Hg, ?Hc; done. Qed.

Lemma account_count_range s p q : account_ok s p q -> 0 <= rs_order_count (se_risk s) <= kMaxActiveOrders.
Proof.
  intros [Hl -> _ _]. rewrite open_total_count. unfold live_orders.
  pose proof (length_filter (fun o => slots.is_live o = true) (se_orders s)). unfold kMaxActiveOrders in *. lia.
Qed.

(** What a change of one slot and of the risk state must do. *)
Lemma account_update s p q i o o' r p' q' : account_ok s p q -> se_orders s !! i = Some o ->
  rs_order_count r = rs_order_count (se_risk s) - part count_one o + part count_one o' ->
  rs_net_position r = s64 (rs_net_position (se_risk s) - part signed o + part signed o' + (p' - p)) ->
  rs_gross_exposure r = s64 (rs_gross_exposure (se_risk s) - part notional o + part notional o' + (q' - q)) ->
  account_ok (mkExecState (<[i := o']> (se_orders s)) r) p' q'.
Proof.
  intros [Hl Hc Hn Hg] Ho Hc' Hn' Hg'. split; cbn [se_orders se_risk].
  - by rewrite length_insert.
  - rewrite (open_total_insert _ _ _ _ _ Ho). lia.
  - rewrite (open_total_insert _ _ _ _ _ Ho), Hn', Hn. apply eqm64_s64. rewrite s64_eqm. eq_lia.
  - rewrite (open_total_insert _ _ _ _ _ Ho), Hg', Hg. apply eqm64_s64. rewrite s64_eqm. eq_lia.
Qed.

(** ** The operations on a risk state, modulo 2^64 *)
Definition risk_in (r : RiskState) : Prop := in_s 64 (rs_net_position r) /\ in_s 64 (rs_gross_exposure r).

Lemma account_risk_in s p q : account_ok s p q -> risk_in (se_risk s).
Proof. intros [_ _ Hn Hg]. split; [rewrite Hn|rewrite Hg]; apply s64_in. Qed.

Lemma drop_order_count_fields r :
  rs_net_position (drop_order_count r) = rs_net_position r /\ rs_gross_exposure (drop_order_count r) = rs_gross_exposure r /\
  (1 <= rs_order_count r <= kMaxActiveOrders -> rs_order_count (drop_order_count r) = rs_order_count r - 1).
Proof.
  unfold drop_order_count. split_and!; [by case_if|by case_if|]. unfold kMaxActiveOrders. intros Hc.
  destruct (Z.ltb_spec 0 (rs_order_count r)); [|lia]. cbn [rs_order_count set_reserved]. apply wrap_u_id. unfold in_u. lia.
Qed.

Lemma release_reservation_fields side qty price r : risk_in r ->
  rs_net_position (release_reservation side qty price r) = s64 (rs_net_position r - side_sign side * qty) /\
  rs_gross_exposure (release_reservation side qty price r) = s64 (rs_gross_exposure r - price * qty) /\
  rs_order_count (release_reservation side qty price r) = rs_order_count r /\
  risk_in (release_reservation side qty price r).
Proof.
  intros [Hn Hg]. assert (Hnet : rs_net_position (release_reservation side qty price r) = s64 (rs_net_position r - side_sign side * qty)).
  { unfold release_reservation. cbn [rs_net_position set_reserved]. rewrite checked_sub_wraps; [|done|].
    - apply eqm64_s64. by rewrite signed_qty_delta_eqm.
    - unfold exec.signed_qty_delta. apply s64_in. }
  assert (Hgross : rs_gross_exposure (release_reservation side qty price r) = s64 (rs_gross_exposure r - price * qty)).
  { unfold release_reservation. cbn [rs_gross_exposure set_reserved]. unfold numeric.checked_mul, numeric.builtin_exact.
    case_if.
    - rewrite (numeric.s64_id (price * qty)) by lia. apply checked_sub_wraps; [done|apply numeric.in_s64; lia].
    - apply eqm64_s64. by rewrite s64_eqm. }
  split_and!; [done|done|done|]. split; [rewrite Hnet|rewrite Hgross]; apply s64_in.
Qed.

(** ** Slots *)
Lemma find_slot_Some p l i o : slots.find_slot p l = Some (i, o) ->
  l !! i = Some o /\ p o = true /\ forall j x, l !! j = Some x -> (j < i)%nat -> p x = false.
Proof.
  unfold slots.find_slot. rewrite list_find_Some. intros (H1 & H2 & H3). split_and!; [done|done|].
  intros j x Hj Hlt. pose proof (H3 j x Hj Hlt). by destruct (p x).
Qed.

Lemma find_slot_None p l : slots.find_slot p l = None -> Forall (fun o => p o = false) l.
Proof. unfold slots.find_slot. rewrite list_find_None. intros H. eapply Forall_impl; [exact H|]. intros o Ho. destruct (p o) eqn:E; [by destruct Ho|done]. Qed.

Lemma find_slot_first p l i o : l !! i = Some o -> p o = true -> (forall j x, l !! j = Some x -> (j < i)%nat -> p x = false) ->
  slots.find_slot p l = Some (i, o).
Proof. intros H1 H2 H3. unfold slots.find_slot. apply list_find_Some. split_and!; [done|done|]. intros j x Hj Hlt. by rewrite (H3 j x). Qed.

(** No live order of the symbol has the identifier. *)
Definition id_unused (id : Z) (l : list ActiveOrder) : Prop := Forall (fun o => ao_order_id o <> id) (live_orders l).

Lemma live_in l i o : l !! i = Some o -> slots.is_live o = true -> o ∈ live_orders l.
Proof. intros Hi Ho. apply list_elem_of_filter. split; [done|by eapply list_elem_of_lookup_2]. Qed.

(** A symbol with fewer orders than slots has a free slot. *)
Lemma free_slot_exists s p q : account_ok s p q -> rs_order_count (se_risk s) < kMaxActiveOrders ->
  exists i o, slots.find_slot slots.is_free (se_orders s) = Some (i, o).
Proof.
  intros [Hl Hc _ _] Hlt. destruct (slots.find_slot slots.is_free (se_orders s)) as [[i o]|] eqn:E; [by exists i, o|].
  apply find_slot_None in E. rewrite Hc, open_total_count in Hlt. unfold live_orders in Hlt.
  assert (filter (fun o => slots.is_live o = true) (se_orders s) = se_orders s) as Hf.
  { revert E. clear. induction (se_orders s) as [|o l IH]; [done|]. intros [Ho Hl]%Forall_cons. rewrite filter_cons, decide_True, IH; [done|done|].
    unfold slots.is_live. by rewrite Ho. }
  rewrite Hf, Hl in Hlt. unfold kMaxActiveOrders in Hlt. lia.
Qed.

(** The order an accepted intent becomes. *)
Definition order_of (it : OrderIntent) : ActiveOrder :=
  mkActive (oi_client_order_id it) (oi_price it) (oi_qty it) 0 (oi_symbol_idx it) (Z.land (oi_side it) 1) 1 (oi_time_in_force it).

(** Reserving a slot. *)
Lemma reserve_slot_eq it s p q : account_ok s p q -> rs_order_count (se_risk s) < kMaxActiveOrders ->
  exists i o, slots.find_slot slots.is_free (se_orders s) = Some (i, o) /\
    reserve_order_slot it s = (true, mkExecState (<[i := order_of it]> (se_orders s))
                                       (reserve_position (oi_side it) (oi_qty it) (oi_price it) (se_risk s))).
Proof.
  intros Ha Hlt. destruct (free_slot_exists _ _ _ Ha Hlt) as (i & o & E). exists i, o. split; [done|].
  unfold reserve_order_slot. rewrite E. destruct (Z.leb_spec kMaxActiveOrders (rs_order_count (se_risk s))); [lia|done].
Qed.

Lemma reserve_position_fields side qty price r :
  rs_net_position (reserve_position side qty price r) = s64 (rs_net_position r + side_sign side * qty) /\
  rs_gross_exposure (reserve_position side qty price r) = s64 (rs_gross_exposure r + price * qty) /\
  (0 <= rs_order_count r <= kMaxActiveOrders -> rs_order_count (reserve_position side qty price r) = rs_order_count r + 1).
Proof.
  unfold reserve_position, kMaxActiveOrders. cbn [rs_net_position rs_gross_exposure rs_order_count set_reserved]. split_and!.
  - apply eqm64_s64. by rewrite signed_qty_delta_eqm.
  - apply eqm64_s64. by rewrite s64_eqm.
  - intros. apply wrap_u_id. unfold in_u. lia.
Qed.

Lemma reserve_account it s s' p q : account_ok s p q -> rs_order_count (se_risk s) < kMaxActiveOrders ->
  reserve_order_slot it s = (true, s') ->
  account_ok s' p q /\ rs_order_count (se_risk s') = rs_order_count (se_risk s) + 1 /\
  live_orders (se_orders s') ≡ₚ order_of it :: live_orders (se_orders s).
Proof.
  intros Ha Hlt. pose proof (account_count_range _ _ _ Ha) as Hr. destruct (reserve_slot_eq it s p q Ha Hlt) as (i & o & Hf & ->).
  intros [= <-]. apply find_slot_Some in Hf as (Hi & Ho & _). assert (Hdead : slots.is_live o = false) by (unfold slots.is_live; by rewrite Ho).
  destruct (reserve_position_fields (oi_side it) (oi_qty it) (oi_price it) (se_risk s)) as (Hn & Hg & Hc). cbn [se_orders se_risk].
  split_and!; [|by apply Hc|by eapply live_orders_insert_live].
  assert (Hp : forall f, part f o = 0) by (intros f; unfold part; by rewrite Hdead).
  assert (Hp' : forall f, part f (order_of it) = f (order_of it)) by done.
  apply (account_update s p q i o (order_of it) _ p q Ha Hi); rewrite ?Hp, ?Hp'.
  - rewrite Hc by done. unfold count_one. lia.
  - rewrite Hn. f_equal. unfold signed, order_of. cbn [ao_side ao_qty]. rewrite side_sign_land. lia.
  - rewrite Hg. f_equal. unfold notional, order_of. cbn [ao_price ao_qty]. lia.
Qed.

(** Undoing the reservation. *)
Lemma release_reserved it s s' p q : account_ok s p q -> rs_order_count (se_risk s) < kMaxActiveOrders ->
  id_unused (oi_client_order_id it) (se_orders s) -> reserve_order_slot it s = (true, s') -> same_account s (release_order_slot it s').
Proof.
  intros Ha Hlt Hid. pose proof (account_count_range _ _ _ Ha) as Hr. destruct (reserve_slot_eq it s p q Ha Hlt) as (i & o & Hf & ->).
  intros [= <-]. apply find_slot_Some in Hf as (Hi & Ho & Hbefore). assert (Hdead : slots.is_live o = false) by (unfold slots.is_live; by rewrite Ho).
  assert (Hlen : (i < length (se_orders s))%nat) by (by eapply lookup_lt_Some).
  unfold release_order_slot. cbn [se_orders se_risk].
  rewrite (find_slot_first _ _ i (order_of it)); [|by rewrite list_lookup_insert_eq|cbn; lia|].
  2:{ intros j x Hj Hji. rewrite list_lookup_insert_ne in Hj by lia. pose proof (Hbefore j x Hj Hji) as Hx.
      assert (Hx' : x ∈ live_orders (se_orders s)) by (eapply live_in; [done|unfold slots.is_live; by rewrite Hx]).
      unfold id_unused in Hid. rewrite Forall_forall in Hid. pose proof (Hid x Hx'). lia. }
  destruct (reserve_position_fields (oi_side it) (oi_qty it) (oi_price it) (se_risk s)) as (Hn & Hg & Hc).
  set (r := reserve_position _ _ _ _) in *. destruct (drop_order_count_fields r) as (Hn' & Hg' & Hc').
  destruct (account_risk_in _ _ _ Ha) as [Hin Hig].
  assert (Hri : risk_in (drop_order_count r)) by (split; [rewrite Hn', Hn|rewrite Hg', Hg]; apply s64_in).
  destruct (release_reservation_fields (oi_side it) (oi_qty it) (oi_price it) _ Hri) as (Hn2 & Hg2 & Hc2 & _).
  split; cbn [se_orders se_risk].
  - by rewrite !length_insert.
  - rewrite list_insert_insert_eq. by eapply live_orders_insert_dead.
  - rewrite Hn2, Hn', Hn. rewrite <- (s64_of _ Hin) at 2. apply eqm64_s64. rewrite s64_eqm. eq_lia.
  - rewrite Hg2, Hg', Hg. rewrite <- (s64_of _ Hig) at 2. apply eqm64_s64. rewrite s64_eqm. eq_lia.
  - rewrite Hc2, Hc', Hc by lia. lia.
Qed.

(** ** Venue reports *)
Section report.
Context (s : SymbolExecState) (p q : Z) (i : nat) (o : ActiveOrder).
Context (Ha : account_ok s p q) (Hi : se_orders s !! i = Some o) (Hlive : slots.is_live o = true).

Lemma part_live f : part f o = f o.
Proof. unfold part. by rewrite Hlive. Qed.

Lemma live_count : 1 <= rs_order_count (se_risk s) <= kMaxActiveOrders.
Proof.
  pose proof (account_count_range _ _ _ Ha) as Hr. split; [|lia]. rewrite (ac_count _ _ _ Ha), open_total_count.
  pose proof (live_in _ _ _ Hi Hlive) as Hin. destruct (live_orders (se_orders s)); [by apply not_elem_of_nil in Hin|cbn; lia].
Qed.

(** A slot that is emptied or marked done, with the reservation given back. *)
Lemma close_slot o' r p' q' : slots.is_live o' = false ->
  rs_order_count r = rs_order_count (se_risk s) ->
  rs_net_position r ≡64 rs_net_position (se_risk s) - signed o + (p' - p) -> in_s 64 (rs_net_position r) ->
  rs_gross_exposure r ≡64 rs_gross_exposure (se_risk s) - notional o + (q' - q) -> in_s 64 (rs_gross_exposure r) ->
  account_ok (mkExecState (<[i := o']> (se_orders s)) (drop_order_count r)) p' q' /\
  rs_order_count (drop_order_count r) = rs_order_count (se_risk s) - 1.
Proof.
  intros Hd Hc Hn Hin Hg Hig. destruct (drop_order_count_fields r) as (Hn' & Hg' & Hc'). pose proof live_count as Hlc.
  assert (Hp' : forall f, part f o' = 0) by (intros f; unfold part; by rewrite Hd).
  split; [|rewrite Hc'; lia]. apply (account_update s p q i o o' _ p' q' Ha Hi); rewrite ?part_live, ?Hp'.
  - rewrite Hc' by lia. unfold count_one. lia.
  - rewrite Hn', <- (s64_of _ Hin). apply eqm64_s64. rewrite Hn. eq_lia.
  - rewrite Hg', <- (s64_of _ Hig). apply eqm64_s64. rewrite Hg. eq_lia.
Qed.

Lemma settle_account report o' r fin : 0 < er_filled_quantity report <= ao_qty o ->
  gateway.settle_fill report o (se_risk s) = (o', r, fin) ->
  account_ok (mkExecState (<[i := o']> (se_orders s)) r)
    (p + side_sign (ao_side o) * er_filled_quantity report) (q + ao_price o * er_filled_quantity report) /\
  rs_order_count r = rs_order_count (se_risk s) - bit fin.
Proof.
  intros Hf. destruct (account_risk_in _ _ _ Ha) as [Hin Hig]. unfold gateway.settle_fill.
  set (rem := ao_qty o - er_filled_quantity report). assert (Hrem : 0 <= rem) by lia.
  assert (Hsg : signed o = side_sign (ao_side o) * rem + side_sign (ao_side o) * er_filled_quantity report) by (unfold signed, rem; lia).
  assert (Hnt : notional o = ao_price o * rem + ao_price o * er_filled_quantity report) by (unfold notional, rem; lia).
  destruct (er_terminal report || (rem =? 0)) eqn:Ed; intros [= <- <- <-]; cbn [bit].
  - apply close_slot; [done| | | | |].
    + case_if; [|done]. by destruct (release_reservation_fields (ao_side o) rem (ao_price o) _ (conj Hin Hig)) as (_ & _ & ? & _).
    + case_if.
      * destruct (release_reservation_fields (ao_side o) rem (ao_price o) _ (conj Hin Hig)) as (-> & _). rewrite s64_eqm. eq_lia.
      * assert (rem = 0) as -> by lia. eq_lia.
    + case_if; [|done]. by destruct (release_reservation_fields (ao_side o) rem (ao_price o) _ (conj Hin Hig)) as (_ & _ & _ & ? & ?).
    + case_if.
      * destruct (release_reservation_fields (ao_side o) rem (ao_price o) _ (conj Hin Hig)) as (_ & -> & _). rewrite s64_eqm. eq_lia.
      * assert (rem = 0) as -> by lia. eq_lia.
    + case_if; [|done]. by destruct (release_reservation_fields (ao_side o) rem (ao_price o) _ (conj Hin Hig)) as (_ & _ & _ & ? & ?).
  - split; [|lia]. match goal with |- account_ok (mkExecState (<[_ := ?x]> _) _) _ _ => set (o' := x) end.
    assert (Hp' : forall f, part f o' = f o') by done.
    apply (account_update s p q i o o' _ _ _ Ha Hi); rewrite ?part_live, ?Hp'.
    + unfold count_one. lia.
    + rewrite <- (s64_of _ Hin) at 1. f_equal. unfold o', signed at 2. cbn [ao_side ao_qty]. lia.
    + rewrite <- (s64_of _ Hig) at 1. f_equal. unfold o', notional at 2. cbn [ao_price ao_qty]. lia.
Qed.

Lemma cancel_account :
  let r := release_reservation (ao_side o) (ao_qty o) (ao_price o) (se_risk s) in
  account_ok (mkExecState (<[i := no_active]> (se_orders s)) (drop_order_count r)) p q /\
  rs_order_count (drop_order_count r) = rs_order_count (se_risk s) - 1.
Proof.
  destruct (account_risk_in _ _ _ Ha) as [Hin Hig]. intros r.
  destruct (release_reservation_fields (ao_side o) (ao_qty o) (ao_price o) _ (conj Hin Hig)) as (Hn & Hg & Hc & Hin' & Hig').
  fold r in Hn, Hg, Hc, Hin', Hig'. apply close_slot; [done|done| |done| |done].
  - rewrite Hn, s64_eqm. unfold signed. eq_lia.
  - rewrite Hg, s64_eqm. unfold notional. eq_lia.
Qed.

Lemma reject_account r0 : rs_net_position r0 = rs_net_position (se_risk s) -> rs_gross_exposure r0 = rs_gross_exposure (se_risk s) ->
  rs_order_count r0 = rs_order_count (se_risk s) ->
  let r := set_reserved (s64 (rs_net_position r0 - exec.signed_qty_delta (ao_side o) (ao_qty o)))
             (s64 (rs_gross_exposure r0 - s64 (ao_price o * ao_qty o))) (rs_order_count r0) r0 in
  account_ok (mkExecState (<[i := no_active]> (se_orders s)) (drop_order_count r)) p q /\
  rs_order_count (drop_order_count r) = rs_order_count (se_risk s) - 1.
Proof.
  intros Hn0 Hg0 Hc0 r. apply close_slot; [done|done| |apply s64_in| |apply s64_in]; unfold r; cbn [rs_net_position rs_gross_exposure set_reserved].
  - rewrite s64_eqm, signed_qty_delta_eqm, Hn0. unfold signed. eq_lia.
  - rewrite !s64_eqm, Hg0. unfold notional. eq_lia.
Qed.

Lemma replace_account new_qty new_price :
  let o' := mkActive (ao_order_id o) new_price new_qty (ao_filled_qty o) (ao_symbol_idx o) (ao_side o) (ao_state o) (ao_time_in_force o) in
  let r := gateway.adjust_position (ao_side o) (ao_qty o) (ao_price o) new_qty new_price (se_risk s) in
  account_ok (mkExecState (<[i := o']> (se_orders s)) r) p q /\ rs_order_count r = rs_order_count (se_risk s).
Proof.
  intros o' r. split; [|done]. assert (Hp' : forall f, part f o' = f o') by (intros f; unfold part; by replace (slots.is_live o') with true).
  apply (account_update s p q i o o' _ p q Ha Hi); rewrite ?part_live, ?Hp'; unfold r, gateway.adjust_position;
    cbn [rs_net_position rs_gross_exposure rs_order_count set_reserved].
  - unfold count_one. lia.
  - apply eqm64_s64. rewrite s64_eqm, !signed_qty_delta_eqm. unfold signed, o'. cbn [ao_side ao_qty]. eq_lia.
  - apply eqm64_s64. rewrite !s64_eqm. unfold notional, o'. cbn [ao_price ao_qty]. eq_lia.
Qed.
End report.
