(* ===== verification/Admission.v ===== *)
(** * Admission: what one call of try_build does to the books

    A refused order leaves every account, the permits and the ledger as they
    were; an accepted one is registered, reserved and counted once. *)
From Stdlib Require Import ZArith Lia ZifyBool.
From S2P Require Import Prelude Config Numeric Probe Guards Reconcile Recovery AuditLog ExecTypes Risk Gateway Accounts.

(** The decision is a bit, and an accepted order has no reject bit. *)
Lemma evaluate_pass r E it : exists b, rd_pass (risk.evaluate r E it) = bit b /\ (b = true -> rd_reject_mask (risk.evaluate r E it) = 0).
Proof.
  unfold risk.evaluate. case_if; [by exists false|]. unfold risk.evaluate_state. cbv zeta.
  set (l := risk.limits_at r _). assert (exists c, risk.collar_ok l (oi_price it) = bit c) as [c ->].
  { unfold risk.collar_ok. case_if; [by eexists|by exists true]. }
  unfold risk.valid_price. rewrite !bit_land, !bit_if. cbn [rd_pass rd_reject_mask]. eexists. split; [reflexivity|].
  intros ->. cbn [bit]. change (u8 (1 - 1)) with 0. by rewrite Z.land_0_r.
Qed.

Lemma build_enter_len t it pk pk' : packets.build_enter_order t it pk = (true, pk') -> op_len pk' = 48.
Proof. unfold packets.build_enter_order. case_if; [done|]. by intros [= <-]. Qed.

Lemma register_refused id q L L' : ledger_register id q L = (false, L') -> L' = L.
Proof.
  unfold ledger_register, reconcile.register_order. case_if; [by intros [= <-]|].
  destruct (reconcile.find_or_empty _ _ _); [|by intros [= <-]]. by case_if; intros [= <-].
Qed.

Section admission.
Context {AJ RJ : Type} `{Journal AJ AuditEvent} `{Journal RJ RecoveryEvent}.
Abbreviation Gateway := (ExecutionGateway AJ RJ).
Implicit Types (g : Gateway) (it : OrderIntent).
Import gateway.

(** The part of the gateway the accounts depend on. *)
Record same_books g g' : Prop := {
  sb_arena : gw_arena g' = gw_arena g;
  sb_pending : gw_pending g' = gw_pending g;
  sb_ledger : gw_reconciliation g' = gw_reconciliation g;
}.

#[local] Instance same_books_preorder : PreOrder same_books.
Proof. split; [by intros ?|intros ? ? ? [] []; split; congruence]. Qed.

Lemma audit_same e g : same_books g (audit e g).2.
Proof. unfold audit. destruct (gw_audit_log g); [|done]. by destruct (journal_append e _). Qed.

Lemma recover_same e g : same_books g (recover e g).2.
Proof. unfold recover. destruct (gw_recovery_ledger g); [|done]. by destruct (journal_append e _). Qed.

Lemma audit_same' e g ok g' : audit e g = (ok, g') -> same_books g g'.
Proof. intros E. pose proof (audit_same e g) as H1. by rewrite E in H1. Qed.
Lemma recover_same' e g ok g' : recover e g = (ok, g') -> same_books g g'.
Proof. intros E. pose proof (recover_same e g) as H1. by rewrite E in H1. Qed.

Lemma audit_recovery e g : gw_recovery_ledger (audit e g).2 = gw_recovery_ledger g.
Proof. unfold audit. destruct (gw_audit_log g); [|done]. by destruct (journal_append e _). Qed.
Lemma audit_recovery' e g ok g' : audit e g = (ok, g') -> gw_recovery_ledger g' = gw_recovery_ledger g.
Proof. intros E. rewrite <- (audit_recovery e g). by rewrite E. Qed.

(** The recovery ledger was asked to record the event, and answered [ok]. *)
Definition recorded (e : RecoveryEvent) (ok : bool) g g' : Prop :=
  match gw_recovery_ledger g with
  | None => ok = true /\ gw_recovery_ledger g' = None
  | Some j => exists j', journal_append e j = (ok, j') /\ gw_recovery_ledger g' = Some j'
  end.

Lemma recover_recorded e g ok g' : recover e g = (ok, g') -> recorded e ok g g'.
Proof.
  unfold recover, recorded. destruct (gw_recovery_ledger g) as [j|] eqn:Ej; [|by intros [= <- <-]].
  destruct (journal_append e j) as [ok' j'] eqn:E. intros [= <- <-]. by exists j'.
Qed.

(** ** States of the arena *)
Lemma state_of_insert (E : exec_states) sym s sym' : state_of (<[sym := s]> E) sym' = if decide (sym = sym') then s else state_of E sym'.
Proof. apply sget_insert. Qed.

Definition other_symbols sym (E E' : exec_states) : Prop := forall sym', sym' <> sym -> state_of E' sym' = state_of E sym'.

Lemma other_symbols_insert sym s E : other_symbols sym E (<[sym := s]> E).
Proof. intros sym' Hne. by rewrite state_of_insert, decide_False. Qed.

(** Updates of the risk state that leave the account alone. *)
Definition keeps_account (f : RiskState -> RiskState) : Prop := forall r,
  rs_net_position (f r) = rs_net_position r /\ rs_gross_exposure (f r) = rs_gross_exposure r /\ rs_order_count (f r) = rs_order_count r.

Lemma count_rejection_keeps : keeps_account count_rejection.
Proof. by intros r. Qed.
Lemma set_halted_keeps x : keeps_account (set_halted x).
Proof. by intros r. Qed.
Lemma refuse_keeps x : keeps_account (fun r => set_halted x (count_rejection r)).
Proof. by intros r. Qed.

Lemma update_risk_account f sym E : keeps_account f -> same_account (state_of E sym) (state_of (update_risk f sym E) sym).
Proof.
  intros Hf. unfold update_risk. rewrite state_of_insert, decide_True by done. destruct (Hf (risk_of E sym)) as (H1 & H2 & H3).
  by split.
Qed.

Lemma update_risk_other f sym E : other_symbols sym E (update_risk f sym E).
Proof. apply other_symbols_insert. Qed.

(** ** Permits *)
Lemma release_after_acquire p : 0 <= p < 2 ^ 32 - 1 -> limiter.release (u32 (p + 1)) = p.
Proof.
  intros Hp. unfold limiter.release. rewrite (wrap_u_id 32 (p + 1)) by (unfold in_u; lia).
  destruct (Z.eqb_spec (p + 1) 0); [lia|]. rewrite wrap_u_id by (unfold in_u; lia). lia.
Qed.

(** ** The two outcomes *)

(** The order was refused: nothing but the rejection counter, the halt flag, a
    dead slot and the breaker changed. *)
Record refused it (E : exec_states) g g' (d : RiskDecision) (pk : OutboundPacket) : Prop := {
  rf_pass : rd_pass d = 0;
  rf_len : op_len pk = 0;
  rf_arena : exists E', gw_arena g' = Some E' /\ other_symbols (oi_symbol_idx it) E E' /\
                        same_account (state_of E (oi_symbol_idx it)) (state_of E' (oi_symbol_idx it));
  rf_pending : gw_pending g' = gw_pending g;
  rf_ledger : gw_reconciliation g' = gw_reconciliation g \/
    exists L, ledger_register (oi_client_order_id it) (oi_qty it) (gw_reconciliation g) = (true, L) /\
              gw_reconciliation g' = (ledger_cancel (oi_client_order_id it) L).2;
  rf_recovery : gw_recovery_ledger g' = gw_recovery_ledger g \/ recorded (add_event it) false g g';
}.

(** The order was accepted. *)
Record accepted it (E : exec_states) g g' (d : RiskDecision) (pk : OutboundPacket) : Prop := {
  ac_pass : rd_pass d = 1;
  ac_mask : rd_reject_mask d = 0;
  ac_len : op_len pk = 48;
  ac_room : rs_order_count (risk_of E (oi_symbol_idx it)) < kMaxActiveOrders;
  ac_arena : exists s', gw_arena g' = Some (<[oi_symbol_idx it := s']> E) /\
                        reserve_order_slot it (state_of E (oi_symbol_idx it)) = (true, s');
  ac_pending : gw_pending g' = u32 (gw_pending g + 1);
  ac_ledger : ledger_register (oi_client_order_id it) (oi_qty it) (gw_reconciliation g) = (true, gw_reconciliation g');
  ac_recovery : recorded (add_event it) true g g';
}.

(** After the ledger and the slot are taken: [g] has the permit but not yet
    the order, [g'] has both. *)
Record reserved it (E : exec_states) g g' : Prop := {
  rv_arena : exists s', gw_arena g' = Some (<[oi_symbol_idx it := s']> E) /\
                        reserve_order_slot it (state_of E (oi_symbol_idx it)) = (true, s');
  rv_pending : gw_pending g' = gw_pending g;
  rv_ledger : ledger_register (oi_client_order_id it) (oi_qty it) (gw_reconciliation g) = (true, gw_reconciliation g');
}.


Lemma reserved_same it E g g1 g2 : reserved it E g g1 -> same_books g1 g2 -> reserved it E g g2.
Proof. intros [(s' & ? & ?) ? ?] []. split; [exists s'; split|..]; congruence. Qed.

Lemma refused_same it E g0 g g' d pk : refused it E g0 g d pk -> same_books g g' ->
  gw_recovery_ledger g' = gw_recovery_ledger g -> refused it E g0 g' d pk.
Proof. intros [? ? ? ? ? ?] [Ha Hp Hl] Hr. split; unfold recorded in *; rewrite ?Ha, ?Hp, ?Hl, ?Hr; done. Qed.

Context (it : OrderIntent) (E : exec_states) (p q : Z).
Let sym := oi_symbol_idx it.
Context (Ha : account_ok (state_of E sym) p q) (Hid : id_unused (oi_client_order_id it) (se_orders (state_of E sym))).

(** Undoing an admission gives the permit and the reservation back. *)
Lemma undo_refused g0 g g' d pk : rd_pass d = 0 -> op_len pk = 0 ->
  rs_order_count (risk_of E sym) < kMaxActiveOrders -> 0 <= gw_pending g0 < 2 ^ 32 - 1 ->
  gw_pending g = u32 (gw_pending g0 + 1) -> gw_reconciliation g = gw_reconciliation g0 ->
  reserved it E g g' -> gw_recovery_ledger g' = gw_recovery_ledger g0 \/ recorded (add_event it) false g0 g' ->
  refused it E g0 (undo_admission it g') d pk.
Proof.
  intros Hd Hpk Hroom Hp0 Hp HL [(s' & Ha' & Hs') Hp' HL'] Hrec. unfold undo_admission, cancel_reconciliation.
  destruct (ledger_cancel (oi_client_order_id it) (gw_reconciliation g')) as [ok L2] eqn:Ec. split; [done|done| | | |done].
  - cbn [snd gw_arena set_exec set_reconciliation set_risk release_permit set_pending record_failure set_breaker]. rewrite Ha'.
    cbn [fmap option_fmap option_map]. eexists. split; [done|]. fold sym. split.
    + intros x Hx. unfold update_risk. by rewrite !state_of_insert, !decide_False by done.
    + etrans; [|by apply update_risk_account, count_rejection_keeps]. rewrite state_of_insert, decide_True by done.
      rewrite state_of_insert, decide_True by done. by eapply release_reserved.
  - cbn [snd gw_pending set_exec set_reconciliation set_risk release_permit set_pending record_failure set_breaker]. rewrite Hp', Hp.
    by apply release_after_acquire.
  - right. exists (gw_reconciliation g'). rewrite <- HL. split; [done|]. by rewrite Ec.
Qed.

(** Refusals before anything was reserved. *)
Lemma early_refused g0 g d pk f : rd_pass d = 0 -> op_len pk = 0 -> keeps_account f -> gw_arena g = Some E ->
  gw_pending g = gw_pending g0 -> gw_reconciliation g = gw_reconciliation g0 ->
  gw_recovery_ledger g = gw_recovery_ledger g0 -> refused it E g0 (set_risk sym f g) d pk.
Proof.
  intros Hd Hpk Hf HE Hp HL Hr. split; [done|done| |done|by left|by left]. cbn [gw_arena set_risk set_exec]. rewrite HE. eexists. split; [done|].
  split; [apply update_risk_other|by apply update_risk_account].
Qed.

Lemma admit_cases g0 g d pk : gw_arena g = Some E -> gw_pending g = u32 (gw_pending g0 + 1) ->
  gw_reconciliation g = gw_reconciliation g0 -> gw_recovery_ledger g = gw_recovery_ledger g0 ->
  rs_order_count (risk_of E sym) < kMaxActiveOrders -> 0 <= gw_pending g0 < 2 ^ 32 - 1 ->
  let '(d', pk', g') := admit_order E it d pk g in
  refused it E g0 g' d' pk' \/ (d' = d /\ pk' = pk /\ reserved it E g g' /\ gw_recovery_ledger g' = gw_recovery_ledger g0).
Proof.
  intros HE Hp HL Hrg Hroom Hp0. unfold admit_order. destruct (ledger_register _ _ _) as [registered L] eqn:Er.
  destruct registered; cbn [negb].
  2:{ left. apply register_refused in Er as ->. 
      apply (refused_same it E g0 (set_risk sym count_rejection (release_permit (set_reconciliation (gw_reconciliation g) g)))); [|done|done].
      apply early_refused; [done|done|apply count_rejection_keeps|done| |done|done]. cbn [gw_pending release_permit set_reconciliation set_pending]. rewrite Hp. by apply release_after_acquire. }
  fold sym. destruct (reserve_slot_eq it _ p q Ha Hroom) as (i & o & Hf & Hs). rewrite Hs. cbn [negb].
  set (s' := mkExecState _ _) in *. set (g1 := set_state sym s' (set_reconciliation L g)).
  assert (Hr1 : reserved it E g g1).
  { split; [exists s'; split; [|done]|done|by rewrite Er]. unfold g1. cbn [gw_arena set_state set_exec set_reconciliation]. by rewrite HE. }
  destruct (audit _ g1) as [logged g2] eqn:Eau. pose proof (reserved_same _ _ _ _ _ Hr1 (audit_same' _ _ _ _ Eau)) as Hr2.
  apply audit_recovery' in Eau. assert (Hrec : gw_recovery_ledger g2 = gw_recovery_ledger g0) by by rewrite Eau.
  destruct logged; cbn [negb]; [by right|]. left. eapply undo_refused; [done..|by left].
Qed.

Lemma journal_cases g0 g g1 d pk : rd_pass d = 1 -> gw_pending g = u32 (gw_pending g0 + 1) ->
  gw_reconciliation g = gw_reconciliation g0 -> rs_order_count (risk_of E sym) < kMaxActiveOrders -> 0 <= gw_pending g0 < 2 ^ 32 - 1 ->
  reserved it E g g1 -> gw_recovery_ledger g1 = gw_recovery_ledger g0 ->
  let '(d', pk', g') := journal_admission it d pk g1 in
  refused it E g0 g' d' pk' \/ (d' = d /\ pk' = pk /\ reserved it E g g' /\ recorded (add_event it) true g0 g').
Proof.
  intros Hd Hp HL Hroom Hp0 Hr Hr1. unfold journal_admission. rewrite Hd. cbn [Z.eqb].
  destruct (recover _ g1) as [recovered g2] eqn:Er. pose proof (reserved_same _ _ _ _ _ Hr (recover_same' _ _ _ _ Er)) as Hr2.
  apply recover_recorded in Er. assert (Hrec : recorded (add_event it) recovered g0 g2) by (unfold recorded in *; by rewrite <- Hr1).
  destruct recovered; cbn [negb]; [by right|]. left. eapply undo_refused; [done..|by right].
Qed.

Lemma try_build_cases g pk : gw_arena g = Some E -> sym < kSymbols -> 0 <= gw_pending g < 2 ^ 32 - 1 ->
  let '(d, pk', g') := try_build it pk g in refused it E g g' d pk' \/ accepted it E g g' d pk'.
Proof.
  intros HE Hs Hp0. unfold try_build. rewrite HE. fold sym. destruct (Z.leb_spec kSymbols sym); [lia|].
  destruct (breaker.allow _ _) as [allowed b]. set (g1 := set_breaker b g).
  destruct allowed; cbn [negb]; [|left; by apply early_refused].
  unfold acquire_permit, limiter.try_acquire. change (gw_pending g1) with (gw_pending g). change (gw_max_pending g1) with (gw_max_pending g).
  destruct (gw_pending g <? gw_max_pending g); cbn [negb]; [|left; by apply early_refused].
  set (g2 := set_pending _ g1). assert (Hrel : gw_pending (release_permit g2) = gw_pending g) by (by apply release_after_acquire).
  change (gw_risk g2) with (gw_risk g). destruct (evaluate_pass (gw_risk g) E it) as (b0 & -> & Hmask).
  destruct b0; cbn [bit Z.eqb]; [|left; by apply early_refused]. rewrite Hmask by done.
  destruct (Z.ltb_spec (rs_order_count (risk_of E sym)) kMaxActiveOrders) as [Hroom|]; cbn [bit Z.eqb]; [|left; by apply early_refused].
  cbn [rd_pass]. change (Z.land 1 1) with 1. cbn [Z.eqb]. destruct (packets.build_enter_order _ _ _) as [built pk1] eqn:Eb.
  destruct built; cbn [bit rd_pass]; [|left; by apply early_refused]. change (Z.land 1 1 =? 0) with false. cbv iota.
  pose proof (build_enter_len _ _ _ _ Eb) as Hlen. rewrite Hlen. change (Z.land 1 1) with 1.
  change (Z.lor _ (u8 (Z.lxor 1 1 * exec.kRejectFlatSignal))) with 0.
  change (u16 (Z.land 48 (u8 (- wrap_s 8 1)))) with 48.
  match goal with |- context [admit_order E it ?d ?k g2] => pose proof (admit_cases g g2 d k HE eq_refl eq_refl eq_refl Hroom Hp0) as Hadm;
    destruct (admit_order E it d k g2) as [[d3 pk3] g3] end.
  destruct Hadm as [Href|(-> & -> & Hres & Hrec)].
  { unfold journal_admission. rewrite (rf_pass _ _ _ _ _ _ Href). by left. }
  match goal with |- context [journal_admission it ?d ?k g3] =>
    pose proof (journal_cases g g2 g3 d k eq_refl eq_refl eq_refl Hroom Hp0 Hres Hrec) as Hj; destruct (journal_admission it d k g3) as [[d4 pk4] g4] end.
  destruct Hj as [Href|(-> & -> & [Harena Hpend Hledger] & Hrec')]; [by left|]. right. by split.
Qed.
End admission.
