(* ===== verification/Journals.v ===== *)
(** * The durable journals as implementations of the gateway's interface

    The audit log and the recovery ledger, each with its file and the outcomes
    of the system calls it makes, are journals. *)
From Stdlib Require Import ZArith Lia ZifyBool.
From S2P Require Import Prelude Bytes Files AuditLog Recovery Gateway.

(** A log with its file; [dj_io i] is the outcome of the system calls of the
    [i]-th append. *)
Record DurableJournal (L : Type) := mkJournal {
  dj_io : nat -> io;
  dj_calls : nat;
  dj_file : list Z;
  dj_log : L;
}.
Arguments mkJournal {L}.
Arguments dj_io {L}.
Arguments dj_calls {L}.
Arguments dj_file {L}.
Arguments dj_log {L}.

Definition journal_of {L Ev : Type} (append : Ev -> io -> list Z -> L -> bool * list Z * L) :
    Journal (DurableJournal L) Ev :=
  fun e j =>
    let '(ok, file, log) := append e (dj_io j (dj_calls j)) (dj_file j) (dj_log j) in
    (ok, mkJournal (dj_io j) (S (dj_calls j)) file log).

#[global] Instance recovery_journal : Journal (DurableJournal RecoveryLedger) RecoveryEvent := journal_of append_and_flush.

Section audit.
Context (sha256 : list Z -> option (list Z)).
Definition audit_journal : Journal (DurableJournal DurableAuditLog) AuditEvent := journal_of (append_event sha256).
End audit.

(** A recovery ledger opened on an empty file, with a disk that does not fail. *)
Definition new_recovery_journal : DurableJournal RecoveryLedger := mkJournal (fun _ => good_io) 0 [] (mkRecovery true 0).
