(* ===== verification/GatewayBooks.v ===== *)
(** * The gateway's books over whole histories

    Positions, exposures, order counts and permits agree with the order slots
    and the fills after any history of orders and venue reports. *)
From Stdlib Require Import ZArith Lia ZifyBool.
From S2P Require Import Prelude Config Numeric Guards Reconcile Recovery AuditLog ExecTypes Risk Gateway Accounts Admission.

(** ** Fills *)
Record Fill := mkFill {
  fl_symbol : Z;
  fl_side : Z;
  fl_qty : Z;
  fl_price : Z;
}.
Definition fills_of (sym : Z) (F : list Fill) : list Fill := filter (fun f => fl_symbol f = sym) F.
Definition settled_position (F : list Fill) (sym : Z) : Z := zsum ((fun f => side_sign (fl_side f) * fl_qty f) <$> fills_of sym F).
Definition settled_notional (F : list Fill) (sym : Z) : Z := zsum ((fun f => fl_price f * fl_qty f) <$> fills_of sym F).

Lemma settled_add F f sym :
  settled_position (F ++ [f]) sym = settled_position F sym + (if decide (fl_symbol f = sym) then side_sign (fl_side f) * fl_qty f else 0) /\
  settled_notional (F ++ [f]) sym = settled_notional F sym + (if decide (fl_symbol f = sym) then fl_price f * fl_qty f else 0).
Proof.
  unfold settled_position, settled_notional, fills_of. rewrite filter_app, !fmap_app, !zsum_app, filter_cons, filter_nil.
  by case_decide; cbn; rewrite ?Z.add_0_r.
Qed.

(** ** Operations *)
Inductive gateway_op :=
  | TryBuild (it : OrderIntent)
  | TryReplace (it : OrderReplaceIntent)
  | ExecReport (symbol : Z) (report : ExecutionReport) (now_ns utc_now : Z) (accepts : bool)
  | CancelReport (symbol order_id now_ns : Z)
  | ReplaceReport (symbol order_id new_qty new_price now_ns : Z)
  | RejectReport (symbol order_id now_ns : Z)
  | CancelOrder (order_id now_ns : Z)
  | HaltSymbol (symbol : Z)
  | ResumeSymbol (symbol : Z).

Section books.
Context {AJ RJ : Type} `{Journal AJ AuditEvent} `{Journal RJ RecoveryEvent}.
Abbreviation Gateway := (ExecutionGateway AJ RJ).
Implicit Types (g : Gateway) (F : list Fill).
Import gateway.

Definition order_at g (symbol : Z) (p : ActiveOrder -> bool) : option ActiveOrder :=
  E ← gw_arena g; snd <$> slots.find_slot p (se_orders (state_of E symbol)).

(** The calls, and the fill a successful execution report settles. *)
Definition gateway_step (op : gateway_op) g : list Fill * Gateway :=
  match op with
  | TryBuild it => ([], (try_build it empty_packet g).2)
  | TryReplace it => ([], (try_replace it empty_packet g).2)
  | ExecReport symbol report now_ns utc_now accepts =>
      let '(ok, _, g') := apply_execution_report symbol report now_ns utc_now accepts g in
      (match order_at g symbol (slots.occupied_by (er_order_id report)) with
       | Some o => if ok then [mkFill symbol (ao_side o) (er_filled_quantity report) (ao_price o)] else []
       | None => []
       end, g')
  | CancelReport symbol order_id now_ns => ([], (apply_cancel_report symbol order_id now_ns g).2)
  | ReplaceReport symbol order_id new_qty new_price now_ns => ([], (apply_replace_report symbol order_id new_qty new_price now_ns g).2)
  | RejectReport symbol order_id now_ns => ([], (apply_reject_report symbol order_id now_ns g).2)
  | CancelOrder order_id now_ns => ([], (cancel_order order_id now_ns g).2)
  | HaltSymbol symbol => ([], halt_symbol symbol g)
  | ResumeSymbol symbol => ([], resume_symbol symbol g)
  end.

(** Client order ids are not used twice at a time, and an execution report is
    about a live order of the symbol or about no order of it. *)
Definition gateway_admissible (op : gateway_op) g : bool :=
  match op with
  | TryBuild it =>
      (0 <=? oi_symbol_idx it) &&
      (match order_at g (oi_symbol_idx it) (slots.live_by (oi_client_order_id it)) with Some _ => false | None => true end)
  | ExecReport symbol report _ _ _ =>
      (0 <=? symbol) &&
      (match order_at g symbol (slots.occupied_by (er_order_id report)) with Some o => negb (ao_state o =? 3) | None => true end)
  | TryReplace it => 0 <=? ori_symbol_idx it
  | CancelReport symbol _ _ | ReplaceReport symbol _ _ _ _ | RejectReport symbol _ _ | HaltSymbol symbol | ResumeSymbol symbol => 0 <=? symbol
  | CancelOrder _ _ => true
  end.

Fixpoint gateway_history (ops : list gateway_op) g : list Fill * Gateway :=
  match ops with
  | [] => ([], g)
  | op :: ops =>
      let '(f, g) := gateway_step op g in
      let '(F, g) := gateway_history ops g in
      (f ++ F, g)
  end.

Fixpoint history_admissible (ops : list gateway_op) g : bool :=
  match ops with
  | [] => true
  | op :: ops => gateway_admissible op g && history_admissible ops (gateway_step op g).2
  end.

(** ** The invariant *)
Definition symbols : list Z := zrange 0 (Z.to_nat kSymbols).
Definition order_counts (E : exec_states) : Z := zsum ((fun sym => rs_order_count (risk_of E sym)) <$> symbols).
Definition accounts_ok (E : exec_states) F : Prop := forall sym, 0 <= sym < kSymbols ->
  account_ok (state_of E sym) (settled_position F sym) (settled_notional F sym).

(** [k] permits are held beyond those of the live orders. *)
Record books_ok g F (k : Z) : Prop := {
  bo_arena : exists E, gw_arena g = Some E /\ accounts_ok E F /\ gw_pending g = order_counts E + k;
}.

Lemma elem_symbols sym : sym ∈ symbols <-> 0 <= sym < kSymbols.
Proof. unfold symbols. rewrite elem_of_zrange. unfold kSymbols. lia. Qed.

Lemma order_counts_range E F : accounts_ok E F -> 0 <= order_counts E <= 64 * 512.
Proof.
  intros Ha. unfold order_counts. assert (Hr : forall sym, sym ∈ symbols -> 0 <= rs_order_count (risk_of E sym) <= 64).
  { intros sym Hs%elem_symbols. pose proof (account_count_range _ _ _ (Ha sym Hs)). unfold kMaxActiveOrders in *. done. }
  split.
  - etrans; [|apply (zsum_le (fun _ => 0)); intros; by apply Hr]. by rewrite zsum_const.
  - etrans; [apply (zsum_le _ (fun _ => 64)); intros; by apply Hr|]. rewrite zsum_const. unfold symbols. by rewrite length_zrange.
Qed.

Lemma order_counts_insert E sym s : 0 <= sym < kSymbols ->
  order_counts (<[sym := s]> E) = order_counts E - rs_order_count (risk_of E sym) + rs_order_count (se_risk s).
Proof.
  intros Hs. unfold order_counts.
  rewrite (zsum_update (fun x => rs_order_count (risk_of E x)) (fun x => rs_order_count (risk_of (<[sym := s]> E) x)) symbols sym).
  - unfold risk_of. rewrite state_of_insert, decide_True by done. lia.
  - apply NoDup_zrange.
  - by apply elem_symbols.
  - intros y Hy. unfold risk_of. by rewrite state_of_insert, decide_False by done.
Qed.

(** Replacing one symbol's state. *)
Lemma accounts_insert E F F' sym s : accounts_ok E F ->
  account_ok s (settled_position F' sym) (settled_notional F' sym) ->
  (forall sym', sym' <> sym -> settled_position F' sym' = settled_position F sym' /\ settled_notional F' sym' = settled_notional F sym') ->
  accounts_ok (<[sym := s]> E) F'.
Proof.
  intros Ha Hs Hf sym' Hr. rewrite state_of_insert. case_decide as Hd; [by subst|].
  destruct (Hf sym' ltac:(done)) as [-> ->]. by apply Ha.
Qed.

(** Symbols whose accounts did not change. *)
Lemma accounts_same E E' F sym : 0 <= sym < kSymbols -> accounts_ok E F -> other_symbols sym E E' ->
  same_account (state_of E sym) (state_of E' sym) -> accounts_ok E' F /\ order_counts E' = order_counts E.
Proof.
  intros Hr Ha Ho Hs. split.
  - intros sym' Hr'. destruct (decide (sym' = sym)) as [->|Hne]; [by eapply same_account_ok, Ha|]. rewrite Ho by done. by apply Ha.
  - unfold order_counts. apply zsum_ext. intros sym' _. unfold risk_of. destruct (decide (sym' = sym)) as [->|Hne]; [apply Hs|by rewrite Ho].
Qed.

(** The books only depend on the arena and the permits. *)
Definition same_fields g g' : Prop := gw_arena g' = gw_arena g /\ gw_pending g' = gw_pending g.

Lemma same_books_fields g g' : same_books g g' -> same_fields g g'.
Proof. by intros [? ? _]. Qed.

Lemma books_same g g' F k : same_fields g g' -> books_ok g F k -> books_ok g' F k.
Proof. intros [Ha Hp] [(E & HE & ? & ?)]. split. exists E. by rewrite Ha, Hp. Qed.

Lemma books_risk g F k sym f : keeps_account f -> 0 <= sym < kSymbols -> books_ok g F k -> books_ok (set_risk sym f g) F k.
Proof.
  intros Hf Hs [(E & HE & Ha & Hp)]. split. exists (update_risk f sym E). cbn [gw_arena gw_pending set_risk set_exec]. rewrite HE.
  destruct (accounts_same E _ F sym Hs Ha (update_risk_other f sym E) (update_risk_account f sym E Hf)) as [? ->]. done.
Qed.

Lemma books_release g F : books_ok g F 1 -> books_ok (release_permit g) F 0.
Proof.
  intros [(E & HE & Ha & Hp)]. split. exists E. split_and!; [done|done|]. cbn [gw_pending release_permit set_pending].
  pose proof (order_counts_range _ _ Ha). unfold limiter.release. destruct (Z.eqb_spec (gw_pending g) 0); [lia|].
  rewrite wrap_u_id by (unfold in_u; lia). lia.
Qed.

Lemma books_set_state g0 g F F' k d sym s E : books_ok g0 F k -> gw_arena g0 = Some E -> same_fields g0 g -> 0 <= sym < kSymbols ->
  account_ok s (settled_position F' sym) (settled_notional F' sym) ->
  (forall sym', sym' <> sym -> settled_position F' sym' = settled_position F sym' /\ settled_notional F' sym' = settled_notional F sym') ->
  rs_order_count (se_risk s) = rs_order_count (risk_of E sym) - d ->
  books_ok (set_state sym s g) F' (k + d).
Proof.
  intros [(E0 & HE0 & Ha & Hp)] HE [Harena Hpend] Hs Hacc Hf Hc. rewrite HE in HE0. injection HE0 as <-. split. exists (<[sym := s]> E).
  cbn [gw_arena gw_pending set_state set_exec]. rewrite Harena, HE, Hpend. split_and!; [done|by eapply accounts_insert|].
  rewrite order_counts_insert by done. lia.
Qed.

Lemma books_halt g F k sym : 0 <= sym < kSymbols -> books_ok g F k -> books_ok (halt_and_trip sym g) F k.
Proof. intros Hs Hb. apply (books_same (set_risk sym (set_halted 1) g)); [done|]. by apply books_risk, Hb. Qed.

Lemma books_account g F k E sym : books_ok g F k -> gw_arena g = Some E -> 0 <= sym < kSymbols ->
  account_ok (state_of E sym) (settled_position F sym) (settled_notional F sym).
Proof. intros [(E0 & HE0 & Ha & _)] HE. rewrite HE in HE0. injection HE0 as <-. apply Ha. Qed.

(** *** Each call *)
Lemma live_by_unused id l : slots.find_slot (slots.live_by id) l = None -> id_unused id l.
Proof.
  intros Hf%find_slot_None. unfold id_unused, live_orders. apply Forall_forall. intros o [Hl Ho]%list_elem_of_filter.
  rewrite Forall_forall in Hf. pose proof (Hf o Ho) as Hx. unfold slots.live_by in Hx. rewrite Hl in Hx. lia.
Qed.

Lemma try_build_books it pk g F : gateway_admissible (TryBuild it) g = true -> books_ok g F 0 -> books_ok (try_build it pk g).2 F 0.
Proof.
  intros Hadm Hb. pose proof Hb as [(E & HE & Ha & Hp)]. cbn [gateway_admissible] in Hadm. apply andb_true_iff in Hadm as [Hs0 Hid].
  destruct (Z.le_gt_cases kSymbols (oi_symbol_idx it)) as [Hs|Hs].
  { unfold try_build. rewrite HE. destruct (Z.leb_spec kSymbols (oi_symbol_idx it)); [done|lia]. }
  assert (Hr : 0 <= oi_symbol_idx it < kSymbols) by lia. unfold order_at in Hid. rewrite HE in Hid. cbn [mbind option_bind] in Hid.
  destruct (slots.find_slot (slots.live_by (oi_client_order_id it)) (se_orders (state_of E (oi_symbol_idx it)))) eqn:Ef; [done|].
  pose proof (order_counts_range _ _ Ha) as Hoc.
  pose proof (try_build_cases it E _ _ (Ha _ Hr) (live_by_unused _ _ Ef) g pk HE Hs ltac:(lia)) as Hcases.
  destruct (try_build it pk g) as [[d pk'] g']. cbn [snd]. destruct Hcases as [[_ _ (E' & HE' & Ho & Hsame) Hpend _ _]|[_ _ _ Hroom (s' & HE' & Hres) Hpend _ _]].
  - destruct (accounts_same E E' F _ Hr Ha Ho Hsame) as [Ha' Hc']. split. exists E'. split_and!; [done|done|]. lia.
  - destruct (reserve_account it _ _ _ _ (Ha _ Hr) Hroom Hres) as (Hacc & Hcount & _). split. exists (<[oi_symbol_idx it := s']> E).
    split_and!; [done|by apply (accounts_insert E F)|]. rewrite order_counts_insert by done. rewrite Hcount, Hpend, wrap_u_id by (unfold in_u; lia).
    unfold risk_of. lia.
Qed.

Lemma try_replace_books it pk g F : 0 <= ori_symbol_idx it -> books_ok g F 0 -> books_ok (try_replace it pk g).2 F 0.
Proof.
  intros Hs0 Hb. pose proof Hb as [(E & HE & _)]. unfold try_replace. rewrite HE.
  destruct (Z.leb_spec kSymbols (ori_symbol_idx it)); [done|]. destruct (breaker.allow _ _) as [allowed b]. set (g1 := set_breaker b g).
  assert (Hb1 : books_ok g1 F 0) by by apply (books_same g).
  assert (Hcount : forall g', books_ok g' F 0 -> books_ok (set_risk (ori_symbol_idx it) count_rejection g') F 0).
  { intros g' Hg'. by apply books_risk. }
  destruct allowed; cbn [negb]; [|by apply books_risk]. case_if; [by apply Hcount|].
  destruct (slots.find_slot _ _) as [[i o]|]; [|by apply Hcount]. case_if; [by apply Hcount|].
  destruct (packets.build_replace_order _ _ _) as [built pk1]. destruct built; cbn [negb]; [|by apply Hcount].
  destruct (audit _ g1) as [logged g2] eqn:Ea. pose proof (books_same _ _ _ _ (same_books_fields _ _ (audit_same' _ _ _ _ Ea)) Hb1) as Hb2.
  destruct logged; cbn [negb]; [done|]. by apply (books_same (set_risk (ori_symbol_idx it) count_rejection g2)); [|apply Hcount].
Qed.

(** The slot a report is about, when it is live. *)
Lemma occupied_live id l i o : slots.find_slot (slots.occupied_by id) l = Some (i, o) -> ao_state o <> 3 ->
  l !! i = Some o /\ slots.is_live o = true.
Proof.
  intros (Hi & Ho & _)%find_slot_Some H3. split; [done|]. unfold slots.occupied_by in Ho. unfold slots.is_live, slots.is_free. lia.
Qed.

Lemma cancel_reconciliation_same id g ok g' : cancel_reconciliation id g = (ok, g') -> same_fields g g'.
Proof. unfold cancel_reconciliation. destruct (ledger_cancel id _). by intros [= _ <-]. Qed.

Lemma notify_fill_same id fq pr utc acc g e g' : notify_fill id fq pr utc acc g = (e, g') -> same_fields g g'.
Proof. unfold notify_fill. case_if; by intros [= _ <-]. Qed.

Lemma cancel_report_books sym id now g F : 0 <= sym -> books_ok g F 0 -> books_ok (apply_cancel_report sym id now g).2 F 0.
Proof.
  intros Hs0 Hb. pose proof Hb as [(E & HE & _)]. unfold apply_cancel_report. rewrite HE.
  destruct (Z.leb_spec kSymbols sym); [by apply (books_same g)|].
  destruct (slots.find_slot _ _) as [[i o]|] eqn:Ef; [|by apply books_halt].
  destruct (Z.eqb_spec (ao_state o) 3) as [|H3]; [done|]. case_if; [by apply books_halt|].
  destruct (recover _ g) as [recovered g1] eqn:Er. pose proof (same_books_fields _ _ (recover_same' _ _ _ _ Er)) as Hsame.
  pose proof (books_same _ _ _ _ Hsame Hb) as Hb1. destruct recovered; cbn [negb]; [|by apply books_halt].
  destruct (cancel_reconciliation id g1) as [cancelled g2] eqn:Ec. apply cancel_reconciliation_same in Ec as Hs2.
  assert (Hb2 : books_ok g2 F 0) by (by apply (books_same g1)).
  destruct cancelled; cbn [negb]; [|by apply books_halt]. destruct (occupied_live _ _ _ _ Ef H3) as [Hi Hl].
  destruct (cancel_account _ _ _ _ _ (books_account _ _ _ _ sym Hb HE ltac:(lia)) Hi Hl) as [Hacc Hc]. cbn [snd].
  apply books_release. replace 1 with (0 + 1) by lia. eapply (books_set_state g2 _ _ _ _ _ _ _ E); [done|by rewrite (proj1 Hs2), (proj1 Hsame)|done|lia|done|done|done].
Qed.

Lemma replace_report_books sym id nq np now g F : 0 <= sym -> books_ok g F 0 -> books_ok (apply_replace_report sym id nq np now g).2 F 0.
Proof.
  intros Hs0 Hb. pose proof Hb as [(E & HE & _)]. unfold apply_replace_report. rewrite HE.
  destruct (Z.leb_spec kSymbols sym); [by apply (books_same g)|].
  destruct (slots.find_slot _ _) as [[i o]|] eqn:Ef; [|by apply books_halt]. case_if; [by apply books_halt|].
  destruct (recover _ g) as [recovered g1] eqn:Er. pose proof (same_books_fields _ _ (recover_same' _ _ _ _ Er)) as Hsame.
  pose proof (books_same _ _ _ _ Hsame Hb) as Hb1. destruct recovered; cbn [negb]; [|by apply books_halt].
  destruct (ledger_replace _ _ _) as [replaced L]. destruct replaced; cbn [negb]; [|by apply books_halt, (books_same g1)].
  apply find_slot_Some in Ef as (Hi & Ho & _). unfold slots.live_by in Ho. apply andb_true_iff in Ho as [_ Hl].
  destruct (replace_account _ _ _ _ _ (books_account _ _ _ _ sym Hb HE ltac:(lia)) Hi Hl nq np) as [Hacc Hc]. cbn [snd].
  replace 0 with (0 + 0) by lia. eapply (books_set_state g1 _ _ _ _ _ _ _ E); [done|by rewrite (proj1 Hsame)|done|lia|done|done|].
  cbn [se_risk]. rewrite Hc. unfold risk_of. lia.
Qed.

Lemma reject_report_books sym id now g F : 0 <= sym -> books_ok g F 0 -> books_ok (apply_reject_report sym id now g).2 F 0.
Proof.
  intros Hs0 Hb. pose proof Hb as [(E & HE & _)]. unfold apply_reject_report. rewrite HE.
  destruct (Z.leb_spec kSymbols sym); [by apply (books_same g)|]. set (s := state_of E sym).
  assert (Hacc : account_ok s (settled_position F sym) (settled_notional F sym)) by (by eapply books_account; [| |lia]).
  set (r := if _ <=? _ then _ else count_rejection _). set (g1 := set_breaker _ g). assert (Hb1 : books_ok g1 F 0) by (by apply (books_same g)).
  assert (Hr : rs_net_position r = rs_net_position (se_risk s) /\ rs_gross_exposure r = rs_gross_exposure (se_risk s) /\ rs_order_count r = rs_order_count (se_risk s)).
  { unfold r. by case_if. }
  destruct Hr as (Hn & Hg & Hc). destruct (slots.find_slot _ _) as [[i o]|] eqn:Ef.
  - destruct (Z.eqb_spec (ao_state o) 3) as [|H3]; [done|]. destruct (occupied_live _ _ _ _ Ef H3) as [Hi Hl].
    destruct (cancel_reconciliation id g1) as [cancelled g2] eqn:Ec. apply cancel_reconciliation_same in Ec as Hs2.
    assert (Hb2 : books_ok g2 F 0) by (by apply (books_same g1)).
    destruct (reject_account _ _ _ _ _ Hacc Hi Hl r Hn Hg Hc) as [Hacc' Hc']. cbn [snd].
    apply books_release. replace 1 with (0 + 1) by lia. eapply (books_set_state g2 _ _ _ _ _ _ _ E); [done|by rewrite (proj1 Hs2)|done|lia|done|done|done].
  - cbn [snd]. replace 0 with (0 + 0) by lia. eapply (books_set_state g1 _ _ _ _ _ _ _ E); [done|done|done|lia| |done|].
    + apply (same_account_ok s); [|done]. by split.
    + cbn [se_risk]. rewrite Hc. unfold risk_of. fold s. lia.
Qed.

Lemma execution_report_books sym report now utc acc g F :
  gateway_admissible (ExecReport sym report now utc acc) g = true -> books_ok g F 0 ->
  let '(f, g') := gateway_step (ExecReport sym report now utc acc) g in books_ok g' (F ++ f) 0.
Proof.
  intros Hadm Hb. pose proof Hb as [(E & HE & _)]. cbn [gateway_admissible gateway_step] in *. unfold order_at in *. rewrite HE in *.
  cbn [mbind option_bind] in *. apply andb_true_iff in Hadm as [Hs0 Hadm]. unfold apply_execution_report. rewrite HE.
  set (hit := slots.find_slot (slots.occupied_by (er_order_id report)) (se_orders (state_of E sym))) in *.
  assert (Hfail : forall g', books_ok g' F 0 -> books_ok g' (F ++ match snd <$> hit with Some o => [] | None => [] end) 0).
  { intros g' Hg'. by destruct hit; rewrite app_nil_r. }
  destruct (Z.leb_spec kSymbols sym); [by apply Hfail, (books_same g)|]. assert (Hr : 0 <= sym < kSymbols) by lia.
  destruct hit as [[i o]|] eqn:Ef; cbn [fmap option_fmap option_map snd] in *; [|by apply Hfail, books_halt].
  destruct (_ || _) eqn:Eg; [by apply Hfail, books_halt|].
  destruct (recover _ g) as [recovered g1] eqn:Er. pose proof (same_books_fields _ _ (recover_same' _ _ _ _ Er)) as Hsame.
  pose proof (books_same _ _ _ _ Hsame Hb) as Hb1. destruct recovered; cbn [negb]; [|by apply Hfail, books_halt].
  destruct (ledger_apply _ _) as [applied L]. destruct applied; cbn [negb]; [|by apply Hfail, books_halt, (books_same g1)].
  destruct (settle_fill report o (se_risk (state_of E sym))) as [[o' r] fin] eqn:Es.
  destruct (notify_fill _ _ _ _ _ _) as [e g2] eqn:En.
  destruct (occupied_live _ _ _ _ Ef ltac:(lia)) as [Hi Hl].
  assert (Hs2 : same_fields g1 g2) by (by apply (notify_fill_same _ _ _ _ _ _ _ _ En)).
  destruct (settle_account _ _ _ i o (books_account _ _ _ _ sym Hb HE Hr) Hi Hl report o' r fin ltac:(lia) Es) as [Hacc Hc].
  assert (Hb3 : books_ok (set_state sym (mkExecState (<[i := o']> (se_orders (state_of E sym))) r) g2)
                  (F ++ [mkFill sym (ao_side o) (er_filled_quantity report) (ao_price o)]) (0 + bit fin)).
  { assert (Hb2 : books_ok g2 F 0) by (by apply (books_same g1)).
    eapply (books_set_state g2 _ _ _ _ _ _ _ E); [done|by rewrite (proj1 Hs2), (proj1 Hsame)|done|lia| | |done].
    - destruct (settled_add F (mkFill sym (ao_side o) (er_filled_quantity report) (ao_price o)) sym) as [-> ->].
      cbn [fl_symbol fl_side fl_qty fl_price]. by rewrite !decide_True.
    - intros sym' Hne. destruct (settled_add F (mkFill sym (ao_side o) (er_filled_quantity report) (ao_price o)) sym') as [-> ->].
      cbn [fl_symbol]. rewrite !decide_False by congruence. lia. }
  destruct fin; cbn [bit] in Hb3; [by apply books_release|done].
Qed.

Lemma cancel_order_books id now g F : books_ok g F 0 -> books_ok (cancel_order id now g).2 F 0.
Proof.
  intros Hb. pose proof Hb as [(E & HE & _)]. unfold cancel_order. rewrite HE. case_if; [done|].
  destruct (head _) as [sym|] eqn:Eh; [|done]. apply cancel_report_books; [|done]. apply head_Some_elem_of in Eh.
  apply list_elem_of_filter in Eh as [_ Hin]. apply elem_symbols in Hin. lia.
Qed.

Lemma halt_resume_books sym x g F : 0 <= sym -> books_ok g F 0 ->
  books_ok (match gw_arena g with Some _ => if sym <? kSymbols then set_risk sym (set_halted x) g else g | None => g end) F 0.
Proof.
  intros Hs Hb. destruct (gw_arena g); [|done]. destruct (Z.ltb_spec sym kSymbols); [|done]. by apply books_risk.
Qed.

Lemma gateway_step_books op g F : gateway_admissible op g = true -> books_ok g F 0 ->
  let '(f, g') := gateway_step op g in books_ok g' (F ++ f) 0.
Proof.
  intros Hadm Hb. destruct op as [it|it|sym r now utc acc|sym id now|sym id nq np now|sym id now|id now|sym|sym];
    [| |by apply execution_report_books| | | | | |]; cbn [gateway_step]; cbv beta iota; rewrite ?app_nil_r; cbn [gateway_admissible] in Hadm.
  - by apply try_build_books.
  - apply try_replace_books; [lia|done].
  - apply cancel_report_books; [lia|done].
  - apply replace_report_books; [lia|done].
  - apply reject_report_books; [lia|done].
  - by apply cancel_order_books.
  - apply halt_resume_books; [lia|done].
  - apply halt_resume_books; [lia|done].
Qed.

Lemma gateway_history_books ops g F : history_admissible ops g = true -> books_ok g F 0 ->
  let '(F', g') := gateway_history ops g in books_ok g' (F ++ F') 0.
Proof.
  revert g F. induction ops as [|op ops IH]; intros g F Hadm Hb; [cbn [gateway_history]; by rewrite app_nil_r|].
  cbn [history_admissible gateway_history] in *. apply andb_true_iff in Hadm as [H1 H2].
  pose proof (gateway_step_books op g F H1 Hb) as Hstep. destruct (gateway_step op g) as [f g1]. cbn [snd] in H2.
  pose proof (IH g1 (F ++ f) H2 Hstep) as Hrest. destruct (gateway_history ops g1) as [F' g2]. by rewrite app_assoc.
Qed.

Lemma init_books rate : books_ok (init true ∅ (fresh rate)).2 [] 0.
Proof.
  split. exists ∅. split_and!; [done| |].
  - intros sym Hs. change (state_of ∅ sym) with fresh_exec_state. by split.
  - cbn [gw_pending]. unfold order_counts. assert (H1 : forall l : list Z, zsum ((fun sym => rs_order_count (risk_of ∅ sym)) <$> l) = 0).
    { intros l. induction l as [|x l IH]; [done|]. rewrite fmap_cons, zsum_cons, IH. reflexivity. }
    by rewrite H1.
Qed.
End books.

(** ** Properties *)

(** C5: the gateway's books are exact.  After any history of orders, replacements,
    venue reports, cancellations, halts and resumes, with any journals that
    fail at any point, in which no client order id is used for two live orders
    of a symbol and no execution report is about a finished order: for every
    symbol the order count is the number of live slots and at most 64, the net
    position is what the accepted fills settled plus the signed open quantity,
    the gross exposure is what they settled plus the open notional (both as
    int64), and the rate limiter holds exactly one permit for each live order. *)
Theorem gateway_books_exact {AJ RJ} `{Journal AJ AuditEvent} `{Journal RJ RecoveryEvent}
    (rate : Z) (audit_log : option AJ) (recovery : option RJ) (ops : list gateway_op) :
  let g0 := gateway.set_recovery_ledger recovery (gateway.set_audit_log audit_log (gateway.init true ∅ (gateway.fresh rate)).2) in
  forall (Hadm : history_admissible ops g0 = true),
  let '(F, g) := gateway_history ops g0 in
  exists E, gw_arena g = Some E /\
    gw_pending g = zsum ((fun sym => rs_order_count (risk_of E sym)) <$> symbols) /\
    forall sym, 0 <= sym < kSymbols ->
      let live := live_orders (se_orders (state_of E sym)) in
      rs_order_count (risk_of E sym) = Z.of_nat (length live) /\
      rs_order_count (risk_of E sym) <= kMaxActiveOrders /\
      rs_net_position (risk_of E sym) = s64 (settled_position F sym + zsum (signed <$> live)) /\
      rs_gross_exposure (risk_of E sym) = s64 (settled_notional F sym + zsum (notional <$> live)).
Proof.
  intros g0 Hadm. assert (Hb : books_ok g0 [] 0) by (apply (books_same (gateway.init true ∅ (gateway.fresh rate)).2); [done|apply init_books]).
  pose proof (gateway_history_books ops g0 [] Hadm Hb) as Hh. destruct (gateway_history ops g0) as [F g]. cbn [app] in Hh.
  destruct Hh as [(E & HE & Ha & Hp)]. exists E. split_and!; [done|unfold order_counts in Hp; lia|]. intros sym Hs live.
  pose proof (Ha sym Hs) as Hacc. pose proof (account_count_range _ _ _ Hacc). destruct Hacc as [_ Hc Hn Hg].
  rewrite open_total_count in Hc. unfold risk_of. by split_and!; [|lia| |].
Qed.

(** A journal that accepts everything. *)
Definition accepting {J Ev : Type} : Journal J Ev := fun _ j => (true, j).

(** A buy of 100 of which 60 trade, and a sell of 40 that is cancelled. *)
Definition sample_history : list gateway_op :=
  [TryBuild (mkIntent 1 0 100 1500000 1000 1000 7 0);
   TryBuild (mkIntent 1 1 40 1510000 1000 1000 8 0);
   ExecReport 1 (mkExecReport 7 60 false) 1100 5000 true;
   CancelReport 1 8 1200].

Lemma gateway_books_exact_witness :
  let g := (@gateway_history unit unit accepting accepting sample_history
              (gateway.set_recovery_ledger (Some tt) (gateway.set_audit_log (Some tt) (gateway.init true ∅ (gateway.fresh 10)).2))).2 in
  exists E, gw_arena g = Some E /\ gw_pending g = 1 /\ rs_net_position (risk_of E 1) = 100.
Proof.
  assert (H := @gateway_books_exact unit unit accepting accepting 10 (Some tt) (Some tt) sample_history). cbv zeta in H. cbv zeta.
  destruct (@gateway_history unit unit accepting accepting sample_history _) as [F g] eqn:Eh. cbn [snd].
  destruct H as (E & HE & Hp & Hall); [vm_compute; reflexivity|]. exists E.
  assert (EE : Some E = gw_arena (F, g).2) by done. assert (EF : F = (F, g).1) by done. rewrite <- Eh in EE, EF.
  vm_compute in EE. injection EE as ->. split; [done|]. split; [rewrite Hp; vm_compute; reflexivity|].
  destruct (Hall 1) as (_ & _ & Hn & _); [unfold kSymbols; lia|]. rewrite Hn, EF. vm_compute. reflexivity.
Defined.
