(* ===== verification/GatewayTheorems.v ===== *)
(** * ExecutionGateway: admission is all or nothing, and what a trip means *)
From Stdlib Require Import ZArith Lia ZifyBool.
From S2P Require Import Prelude Config Numeric Probe Guards Reconcile Recovery AuditLog ExecTypes Risk Gateway Accounts Admission GatewayBooks.

(** ** The ledger across an admission *)
Lemma ledger_bits_range : 0 <= ledger_bits <= 31.
Proof. unfold ledger_bits. lia. Qed.

Lemma register_accepted id q L L' M : ledger_ok ledger_bits L M -> Z.of_nat (size M) + 1 < 2 ^ 16 ->
  ledger_register id q L = (true, L') -> id <> 0 /\ M !! id = None /\ ledger_ok ledger_bits L' (<[id := q]> M).
Proof.
  intros HL Hroom Hr. destruct (register_sim ledger_bits ledger_bits_range id q L M HL) as (L1 & Hrun & HL1).
  { cbn [ledger_admissible]. unfold ledger_bits. lia. }
  cbn [ledger_run] in Hrun. change (reconcile.register_order ledger_bits id q L) with (ledger_register id q L) in Hrun. rewrite Hr in Hrun.
  injection Hrun as Hok <-. cbn [ledger_spec] in *. destruct (_ || _) eqn:Eg; cbn [fst snd] in *; [done|].
  apply orb_false_iff in Eg as [Eg Em]. apply orb_false_iff in Eg as [E0 _]. split_and!; [lia| |done].
  apply bool_decide_eq_false in Em. destruct (M !! id); [|done]. destruct Em. by eexists.
Qed.

Lemma ledger_run_cancel n id L : ledger_run n (LCancel id) L = reconcile.cancel n id L.
Proof. reflexivity. Qed.
Lemma ledger_run_register n id q L : ledger_run n (LRegister id q) L = Some (reconcile.register_order n id q L).
Proof. reflexivity. Qed.

Lemma cancel_registered id L M : ledger_ok ledger_bits L M -> id <> 0 -> ledger_ok ledger_bits (ledger_cancel id L).2 (delete id M).
Proof.
  intros HL Hid. assert (Hadm : ledger_admissible ledger_bits (LCancel id) M = true) by (cbn [ledger_admissible]; lia).
  destruct (cancel_sim ledger_bits ledger_bits_range id L M HL Hadm) as (L1 & Hrun & HL1).
  rewrite ledger_run_cancel in Hrun. rewrite (ledger_cancel_eq id L _ Hrun). cbn [snd]. cbn [ledger_spec] in HL1.
  destruct (bool_decide (is_Some (M !! id))) eqn:Em; cbn [snd] in HL1; [done|].
  apply bool_decide_eq_false in Em. rewrite delete_id; [done|]. destruct (M !! id); [|done]. destruct Em. by eexists.
Qed.

(** ** Admission *)
(** What one symbol's account is, for a client that only sees the live orders. *)
Record ready (AJ RJ : Type) (it : OrderIntent) (g : ExecutionGateway AJ RJ) (E : exec_states) (M : gmap Z Z) : Prop := {
  rd_arena : gw_arena g = Some E;
  rd_symbol : 0 <= oi_symbol_idx it < kSymbols;
  rd_account : exists p q, account_ok (state_of E (oi_symbol_idx it)) p q;
  rd_fresh : id_unused (oi_client_order_id it) (se_orders (state_of E (oi_symbol_idx it)));
  rd_pending : 0 <= gw_pending g < 2 ^ 32 - 1;
  rd_ledger : ledger_ok ledger_bits (gw_reconciliation g) M;
  rd_room : Z.of_nat (size M) + 1 < 2 ^ 16;
}.

(** C4: admission is all or nothing.  From a state whose books agree, with a
    client order id no live order of the symbol has, [try_build] either accepts - the mask is
    empty, the packet has 48 bytes, the order is the one new live order of its
    symbol and the one new entry of the reconciliation ledger, and one permit
    is taken - or refuses, whatever failed (breaker, limiter, risk, capacity,
    ledger, audit log or recovery ledger), and then the packet is empty and
    every live order, position, exposure and count, the permits and the
    ledger's contents are as they were. *)
Theorem try_build_all_or_nothing {AJ RJ} `{Journal AJ AuditEvent} `{Journal RJ RecoveryEvent}
    (it : OrderIntent) (pk : OutboundPacket) (g : ExecutionGateway AJ RJ) (E : exec_states) (M : gmap Z Z)
    (Hready : ready AJ RJ it g E M) :
  let '(d, pk', g') := gateway.try_build it pk g in
  let sym := oi_symbol_idx it in
  exists E', gw_arena g' = Some E' /\ (forall sym', sym' <> sym -> state_of E' sym' = state_of E sym') /\
  if rd_pass d =? 1 then
    rd_reject_mask d = 0 /\ op_len pk' = 48 /\
    live_orders (se_orders (state_of E' sym)) ≡ₚ order_of it :: live_orders (se_orders (state_of E sym)) /\
    rs_order_count (risk_of E' sym) = rs_order_count (risk_of E sym) + 1 /\
    rs_order_count (risk_of E sym) < kMaxActiveOrders /\
    rs_net_position (risk_of E' sym) = s64 (rs_net_position (risk_of E sym) + side_sign (oi_side it) * oi_qty it) /\
    rs_gross_exposure (risk_of E' sym) = s64 (rs_gross_exposure (risk_of E sym) + oi_price it * oi_qty it) /\
    gw_pending g' = gw_pending g + 1 /\
    M !! oi_client_order_id it = None /\
    ledger_ok ledger_bits (gw_reconciliation g') (<[oi_client_order_id it := oi_qty it]> M)
  else
    rd_pass d = 0 /\ op_len pk' = 0 /\ same_account (state_of E sym) (state_of E' sym) /\
    gw_pending g' = gw_pending g /\ ledger_ok ledger_bits (gw_reconciliation g') M.
Proof.
  destruct Hready as [HE [Hs0 Hs] (p & q & Ha) Hid Hp HL Hroom].
  pose proof (try_build_cases it E p q Ha Hid g pk HE Hs Hp) as Hc. destruct (gateway.try_build it pk g) as [[d pk'] g']. cbv zeta.
  destruct Hc as [[Hd Hlen (E' & HE' & Ho & Hsame) Hpend Hled _]|[Hd Hm Hlen Hcap (s' & HE' & Hres) Hpend Hled _]]; rewrite Hd;
    [change (0 =? 1) with false|change (1 =? 1) with true]; cbv iota.
  - exists E'. split_and!; try done. destruct Hled as [->|(L & Hreg & ->)]; [done|].
    destruct (register_accepted _ _ _ _ M HL Hroom Hreg) as (Hne & HM & HL'). apply (cancel_registered (oi_client_order_id it)) in HL'; [|done].
    rewrite delete_insert_id in HL' by done. done.
  - destruct (register_accepted _ _ _ _ M HL Hroom Hled) as (H0' & HM & HL').
    destruct (reserve_account it _ _ _ _ Ha Hcap Hres) as (_ & Hcount & Hlive).
    destruct (reserve_slot_eq it _ _ _ Ha Hcap) as (i & o & _ & Hres'). rewrite Hres in Hres'. injection Hres' as Hs'.
    destruct (reserve_position_fields (oi_side it) (oi_qty it) (oi_price it) (risk_of E (oi_symbol_idx it))) as (Hn & Hg & _).
    exists (<[oi_symbol_idx it := s']> E). split_and!; [done|by apply other_symbols_insert|done|done|..]; unfold risk_of in *;
      rewrite ?state_of_insert, ?decide_True by done; try done.
    + by rewrite Hs'.
    + by rewrite Hs'.
    + rewrite Hpend. apply wrap_u_id. unfold in_u. lia.
Qed.

(** The journal of the recovery ledger refuses: the admission is undone. *)
Definition refusing {J Ev : Type} : Journal J Ev := fun _ j => (false, j).

Definition sample_intent : OrderIntent := mkIntent 1 0 100 1500000 1000 1000 7 0.
Definition sample_gateway : ExecutionGateway unit unit :=
  gateway.set_recovery_ledger (Some tt) (gateway.set_audit_log (Some tt) (gateway.init true ∅ (gateway.fresh 10)).2).

Lemma sample_ready : ready unit unit sample_intent sample_gateway ∅ ∅.
Proof.
  split; [done|unfold kSymbols; cbn; lia|exists 0, 0; by split|by vm_compute; constructor|cbn; lia|apply fresh_ledger_ok, ledger_bits_range|].
  rewrite map_size_empty. lia.
Qed.

Lemma try_build_all_or_nothing_witness :
  let '(d, _, g') := @gateway.try_build unit unit accepting refusing sample_intent empty_packet sample_gateway in
  rd_pass d = 0 /\ gw_pending g' = 0 /\ ledger_ok ledger_bits (gw_reconciliation g') ∅ /\
  rd_pass (@gateway.try_build unit unit accepting accepting sample_intent empty_packet sample_gateway).1.1 = 1.
Proof.
  pose proof (@try_build_all_or_nothing unit unit accepting refusing sample_intent empty_packet sample_gateway ∅ ∅ sample_ready) as H.
  destruct (@gateway.try_build unit unit accepting refusing sample_intent empty_packet sample_gateway) as [[d pk] g'] eqn:Eb.
  assert (Hd : rd_pass d = 0).
  { change d with (d, pk, g').1.1. rewrite <- Eb. vm_compute. reflexivity. }
  destruct H as (E' & _ & _ & H). rewrite Hd in H. destruct H as (_ & _ & _ & Hp & HL).
  split; [exact Hd|]. split; [rewrite Hp; reflexivity|]. split; [exact HL|vm_compute; reflexivity].
Defined.

(** ** A tripped gateway *)
Section tripped.
Context {AJ RJ : Type} `{Journal AJ AuditEvent} `{Journal RJ RecoveryEvent}.
Abbreviation Gateway := (ExecutionGateway AJ RJ).
Implicit Types g : Gateway.
Import gateway.

(** The breaker is open and has no cool-down: the gateway's breaker is built
    with a cool-down of 0, and [allow] then never lets it close. *)
Definition shut (b : CircuitBreaker) : Prop := cb_state b = kOpen /\ cb_cool_down_ns b = 0.

Lemma shut_allow now b : shut b -> breaker.allow now b = (false, b).
Proof. intros [Ho Hc]. unfold breaker.allow. by rewrite Ho, Hc. Qed.
Lemma shut_trip t b : cb_cool_down_ns b = 0 -> shut (breaker.trip t b).
Proof. by split. Qed.
Lemma shut_failure t b : shut b -> shut (breaker.record_failure t b).
Proof. intros [Ho Hc]. unfold breaker.record_failure. rewrite Ho. repeat case_if; by split. Qed.
Lemma shut_rejection t b : shut b -> shut (breaker.record_rejection t b).
Proof.
  intros Hs. unfold breaker.record_rejection. case_if; [|by apply shut_failure].
  case_if; [apply shut_trip, Hs|apply shut_failure; by destruct Hs].
Qed.

Lemma recover_breaker e g : gw_breaker (recover e g).2 = gw_breaker g.
Proof. unfold recover. destruct (gw_recovery_ledger g); [|done]. by destruct (journal_append e _). Qed.
Lemma recover_breaker' e g ok g' : recover e g = (ok, g') -> gw_breaker g' = gw_breaker g.
Proof. intros E. rewrite <- (recover_breaker e g). by rewrite E. Qed.
Lemma cancel_breaker id g ok g' : cancel_reconciliation id g = (ok, g') -> gw_breaker g' = gw_breaker g.
Proof. unfold cancel_reconciliation. destruct (ledger_cancel id _). by intros [= _ <-]. Qed.
Lemma notify_breaker id fq pr utc acc g e g' : notify_fill id fq pr utc acc g = (e, g') -> gw_breaker g' = gw_breaker g.
Proof. unfold notify_fill. case_if; by intros [= _ <-]. Qed.

Lemma shut_halt sym g : shut (gw_breaker g) -> shut (gw_breaker (halt_and_trip sym g)).
Proof. intros [_ Hc]. by apply shut_trip. Qed.

Lemma shut_cancel_report sym id now g : shut (gw_breaker g) -> shut (gw_breaker (apply_cancel_report sym id now g).2).
Proof.
  intros Hs. unfold apply_cancel_report. destruct (gw_arena g); [|by apply shut_trip, Hs]. case_if; [by apply shut_trip, Hs|].
  destruct (slots.find_slot _ _) as [[i o]|]; [|by apply shut_halt]. case_if; [done|]. case_if; [by apply shut_halt|].
  destruct (recover _ g) as [ok g1] eqn:Er. apply recover_breaker' in Er. rewrite <- Er in Hs. case_if; [by apply shut_halt|].
  destruct (cancel_reconciliation id g1) as [ok2 g2] eqn:Ec. apply cancel_breaker in Ec. rewrite <- Ec in Hs.
  case_if; [by apply shut_halt|done].
Qed.

Lemma shut_step op g : shut (gw_breaker g) -> shut (gw_breaker (gateway_step op g).2).
Proof.
  intros Hs. destruct op as [it|it|sym r now utc acc|sym id now|sym id nq np now|sym id now|id now|sym|sym]; cbn [gateway_step snd].
  - unfold try_build. destruct (gw_arena g); [|done]. case_if; [done|]. by rewrite shut_allow.
  - unfold try_replace. destruct (gw_arena g); [|done]. case_if; [done|]. by rewrite shut_allow.
  - unfold apply_execution_report. destruct (gw_arena g); [|by apply shut_trip, Hs]. case_if; [by apply shut_trip, Hs|].
    destruct (slots.find_slot _ _) as [[i o]|]; [|by apply shut_halt]. case_if; [by apply shut_halt|].
    destruct (recover _ g) as [ok g1] eqn:Er. apply recover_breaker' in Er. rewrite <- Er in Hs. destruct ok; cbn [negb]; [|by apply shut_halt].
    destruct (ledger_apply _ _) as [ok L]. destruct ok; cbn [negb]; [|by apply shut_halt]. destruct (settle_fill _ _ _) as [[o' r'] fin].
    destruct (notify_fill _ _ _ _ _ _) as [ev g2] eqn:En. apply notify_breaker in En.
    change (gw_breaker (set_reconciliation L g1)) with (gw_breaker g1) in En. rewrite <- En in Hs. by destruct fin.
  - by apply shut_cancel_report.
  - unfold apply_replace_report. destruct (gw_arena g); [|by apply shut_trip, Hs]. case_if; [by apply shut_trip, Hs|].
    destruct (slots.find_slot _ _) as [[i o]|]; [|by apply shut_halt]. case_if; [by apply shut_halt|].
    destruct (recover _ g) as [ok g1] eqn:Er. apply recover_breaker' in Er. rewrite <- Er in Hs. case_if; [by apply shut_halt|].
    destruct (ledger_replace _ _ _) as [ok2 L]. case_if; [by apply shut_halt|done].
  - unfold apply_reject_report. destruct (gw_arena g); [|by apply shut_failure]. case_if; [by apply shut_failure|].
    destruct (match slots.find_slot _ _ with Some _ => _ | None => _ end); [done|].
    destruct (slots.find_slot _ _) as [[i o]|]; [|by apply shut_rejection].
    destruct (cancel_reconciliation id _) as [ok g2] eqn:Ec. apply cancel_breaker in Ec. cbn [snd].
    change (shut (gw_breaker g2)). rewrite Ec. by apply shut_rejection.
  - unfold cancel_order. destruct (gw_arena g); [|done]. case_if; [done|]. destruct (head _); [by apply shut_cancel_report|done].
  - unfold halt_symbol. destruct (gw_arena g); [|done]. by case_if.
  - unfold resume_symbol. destruct (gw_arena g); [|done]. by case_if.
Qed.

Lemma shut_history ops g : shut (gw_breaker g) -> shut (gw_breaker (gateway_history ops g).2).
Proof.
  revert g. induction ops as [|op ops IH]; intros g Hs; [done|]. cbn [gateway_history].
  pose proof (shut_step op g Hs) as H1. destruct (gateway_step op g) as [f g1]. cbn [snd] in H1. pose proof (IH g1 H1) as H2.
  by destruct (gateway_history ops g1).
Qed.

Lemma shut_refuses it pk g : shut (gw_breaker g) -> rd_pass (try_build it pk g).1.1 = 0 /\ op_len (try_build it pk g).1.2 = 0.
Proof.
  intros Hs. unfold try_build. destruct (gw_arena g); [|done]. case_if; [done|]. rewrite shut_allow by done. by split.
Qed.

Lemma shut_refuses_replace it pk g : shut (gw_breaker g) -> rd_pass (try_replace it pk g).1.1 = 0 /\ op_len (try_replace it pk g).1.2 = 0.
Proof.
  intros Hs. unfold try_replace. destruct (gw_arena g); [|done]. case_if; [done|]. rewrite shut_allow by done. by split.
Qed.
End tripped.

(** a trip of the gateway is final.  The breaker of the gateway has no
    cool-down, so once it is open then, whatever calls and venue reports
    follow, no order and no replacement is ever accepted again and no packet
    leaves, at any time, until [circuit_breaker().reset()] is called. *)
Theorem gateway_trip_is_final {AJ RJ} `{Journal AJ AuditEvent} `{Journal RJ RecoveryEvent}
    (ops : list gateway_op) (g : ExecutionGateway AJ RJ) (it : OrderIntent) (rt : OrderReplaceIntent) (pk : OutboundPacket)
    (Hopen : breaker.is_open (gw_breaker g) = true) (Hcool : cb_cool_down_ns (gw_breaker g) = 0) :
  let g' := (gateway_history ops g).2 in
  breaker.is_open (gw_breaker g') = true /\
  rd_pass (gateway.try_build it pk g').1.1 = 0 /\ op_len (gateway.try_build it pk g').1.2 = 0 /\
  rd_pass (gateway.try_replace rt pk g').1.1 = 0 /\ op_len (gateway.try_replace rt pk g').1.2 = 0.
Proof.
  intros g'. apply bool_decide_eq_true in Hopen. assert (Hs : shut (gw_breaker g')) by by apply shut_history.
  destruct (shut_refuses it pk g' Hs), (shut_refuses_replace rt pk g' Hs). split_and!; [|done..].
  apply bool_decide_eq_true, Hs.
Qed.

Lemma gateway_trip_is_final_witness :
  let g := (@gateway.apply_cancel_report unit unit accepting 1 99 0 sample_gateway).2 in
  breaker.is_open (gw_breaker g) = true /\
  rd_pass (@gateway.try_build unit unit accepting accepting sample_intent empty_packet
             (@gateway_history unit unit accepting accepting [ResumeSymbol 1] g).2).1.1 = 0.
Proof.
  intros g. assert (Ho : breaker.is_open (gw_breaker g) = true) by (vm_compute; reflexivity). split; [exact Ho|].
  apply (@gateway_trip_is_final unit unit accepting accepting [ResumeSymbol 1] g sample_intent (mkReplaceIntent 0 0 0 0 0 0 0 0) empty_packet Ho).
  vm_compute. reflexivity.
Defined.

(** one reject report shuts the whole gateway.  The gateway's breaker opens at
    the first failure, and [apply_reject_report] records one for every report,
    also for an order the symbol does not have: on a fresh gateway any single
    reject report, for any symbol and any order id, makes every later order on
    every symbol be refused, although the per-symbol limit of consecutive
    rejections is 5. *)
Theorem gateway_single_reject_shuts_down {AJ RJ} `{Journal AJ AuditEvent} `{Journal RJ RecoveryEvent}
    (rate symbol order_id now_ns : Z) (it : OrderIntent) (pk : OutboundPacket) :
  let g := (gateway.apply_reject_report symbol order_id now_ns (gateway.init (AJ := AJ) (RJ := RJ) true ∅ (gateway.fresh rate)).2).2 in
  breaker.is_open (gw_breaker g) = true /\ rd_pass (gateway.try_build it pk g).1.1 = 0 /\
  lim_max_consecutive_rejections default_limits = 5.
Proof.
  intros g. assert (Hs : shut (gw_breaker g)).
  { unfold g, gateway.apply_reject_report. cbn [gateway.init negb risk.init packets.init snd gw_arena]. case_if; [by split|].
    change (state_of ∅ symbol) with fresh_exec_state.
    replace (slots.find_slot (slots.occupied_by order_id) (se_orders fresh_exec_state)) with (@None (nat * ActiveOrder)); [by split|].
    symmetry. apply list_find_None, Forall_replicate. unfold slots.occupied_by. cbn [ao_state no_active]. by rewrite andb_false_r. }
  split_and!; [apply bool_decide_eq_true, Hs|by apply shut_refuses|done].
Qed.

(** A finished order can be filled again through a reused id.  Order 7 of
    symbol 1 ends with a partial fill; the id is then used on symbol 2.  A late
    report for symbol 1 is matched with the finished slot: it consumes the
    quantity of the live order in the ledger and gives back its permit, so that
    one live order is left with no permit. *)
Theorem gateway_stale_report_steals_permit :
  let ops := [TryBuild (mkIntent 1 0 10 1500000 1000 1000 7 0);
              ExecReport 1 (mkExecReport 7 4 true) 1100 5000 true;
              TryBuild (mkIntent 2 0 10 1500000 1200 1200 7 0);
              ExecReport 1 (mkExecReport 7 6 false) 1300 6000 true] in
  let g := (@gateway_history unit unit accepting accepting ops sample_gateway).2 in
  gw_pending g = 0 /\ gw_fill_report_count g = 2 /\ rs_order_count (risk_of (default ∅ (gw_arena g)) 2) = 1 /\
  ledger_contains 7 (gw_reconciliation g) = true.
Proof. vm_compute. split_and!; reflexivity. Qed.
