(* ===== verification/RecoveryLink.v ===== *)
(** * Crash recovery of the gateway

    The recovery ledger the gateway writes, replayed, gives back exactly the
    gateway's live orders. *)
From Stdlib Require Import ZArith Lia ZifyBool.
From S2P Require Import Prelude Config Numeric Bytes Files Guards Reconcile LedgerSound Recovery AuditLog ExecTypes Risk Gateway.
From S2P Require Import Accounts Admission Journals GatewayBooks.

(** ** A journal that loses nothing *)
Class ReliableJournal (RJ : Type) `{Journal RJ RecoveryEvent} := {
  holds_events : RJ -> list RecoveryEvent -> Prop;
  reliable_append j evs e : holds_events j evs -> event_typed e -> Z.of_nat (length evs) + 1 < 2 ^ 63 ->
    exists j', journal_append e j = (true, j') /\ holds_events j' (evs ++ [e]);
  reliable_refuse j evs e j' : holds_events j evs -> journal_append e j = (false, j') -> holds_events j' evs;
}.

(** The recovery ledger on a disk that does not fail. *)
Record good_recovery (j : DurableJournal RecoveryLedger) (evs : list RecoveryEvent) : Prop := {
  gr_io i : dj_io j i = good_io;
  gr_file : dj_file j = log_bytes 0 evs;
  gr_log : dj_log j = mkRecovery true (Z.of_nat (length evs));
  gr_typed : Forall event_typed evs;
}.

Lemma log_bytes_app seq evs1 evs2 : log_bytes seq (evs1 ++ evs2) = log_bytes seq evs1 ++ log_bytes (seq + Z.of_nat (length evs1)) evs2.
Proof.
  revert seq. induction evs1 as [|e evs1 IH]; intros seq; cbn [app log_bytes length]; [by rewrite Z.add_0_r|].
  rewrite IH, <- app_assoc. do 3 f_equal. lia.
Qed.

(** With a good disk the only refusals are those of the guard, which writes nothing. *)
Lemma append_good e file L :
  append_and_flush e good_io file L =
  if negb (rl_open L) || (ev_order_id e =? 0) || (ev_quantity e <=? 0) then (false, file, L)
  else (true, file ++ record_bytes (event_record (rl_sequence L) e), mkRecovery (rl_open L) (u64 (rl_sequence L + 1))).
Proof.
  unfold append_and_flush, append_with_side. destruct (_ || _); [done|]. cbv zeta. fold (event_record (rl_sequence L) e).
  cbn [io_writes good_io]. by rewrite write_all_nil.
Qed.

#[global] Instance durable_reliable : ReliableJournal (DurableJournal RecoveryLedger).
Proof.
  refine {| holds_events := good_recovery |}.
  - intros j evs e [Hio Hf Hl Ht] He Hlen. unfold journal_append, recovery_journal, journal_of. rewrite Hio, append_good, Hl.
    cbn [rl_open rl_sequence negb orb]. pose proof (et_order_id _ He). pose proof (et_quantity _ He).
    destruct (Z.eqb_spec (ev_order_id e) 0), (Z.leb_spec (ev_quantity e) 0); try lia. cbn [orb]. eexists. split; [done|].
    split; cbn [dj_io dj_file dj_log]; [done| | |by apply Forall_app_2, Forall_singleton].
    + rewrite log_bytes_app, Hf. cbn [log_bytes]. by rewrite app_nil_r.
    + rewrite length_app. cbn [length]. f_equal. assert (2 ^ 63 < 2 ^ 64) by done. rewrite wrap_u_id by (unfold in_u; lia). lia.
  - intros j evs e j' [Hio Hf Hl Ht]. unfold journal_append, recovery_journal, journal_of. rewrite Hio, append_good.
    case_if; [|done]. by intros [= <-].
Defined.

(** ** The live orders and the recovered orders *)
Definition all_live (E : exec_states) : list ActiveOrder := symbols ≫= (fun sym => live_orders (se_orders (state_of E sym))).

Record order_typed (o : ActiveOrder) : Prop := {
  ot_id : 0 < ao_order_id o < 2 ^ 64;
  ot_qty : 0 < ao_qty o < 2 ^ 63;
  ot_price : in_s 64 (ao_price o);
  ot_side : in_u 8 (ao_side o);
}.

Definition mirrors (o : ActiveOrder) (r : RecoveredOrder) : Prop :=
  ro_order_id r = ao_order_id o /\ ro_remaining r = ao_qty o /\ ro_price r = ao_price o /\ ro_side r = ao_side o.

Record tracks (l : list ActiveOrder) (R : gmap Z RecoveredOrder) : Prop := {
  tr_nodup : NoDup (ao_order_id <$> l);
  tr_live o : o ∈ l -> order_typed o /\ exists r, R !! ao_order_id o = Some r /\ mirrors o r;
  tr_back id r : R !! id = Some r -> exists o, o ∈ l /\ ao_order_id o = id;
}.

#[global] Instance tracks_proper : Proper ((≡ₚ) ==> eq ==> iff) tracks.
Proof.
  assert (H : forall l l' R, l ≡ₚ l' -> tracks l R -> tracks l' R).
  { intros l l' R Hp [H1 H2 H3]. split; [by rewrite <- Hp| |].
    - intros o Ho. apply H2. by rewrite Hp.
    - intros id r Hr. destruct (H3 id r Hr) as (o & Ho & <-). exists o. by rewrite <- Hp. }
  intros l l' Hp R R' <-. split; apply H; [done|by symmetry].
Qed.

Lemma tracks_remove o K R : tracks (o :: K) R -> tracks K (delete (ao_order_id o) R).
Proof.
  intros [Hn Hl Hb]. rewrite fmap_cons in Hn. apply NoDup_cons in Hn as [Hni Hn]. split; [done| |].
  - intros x Hx. destruct (Hl x ltac:(by right)) as [Ht (r & Hr & Hm)]. split; [done|]. exists r. split; [|done].
    rewrite lookup_delete_ne; [done|]. intros Eq. apply Hni. rewrite Eq. by apply list_elem_of_fmap_2.
  - intros id r [Hne Hr]%lookup_delete_Some. destruct (Hb id r Hr) as (x & [->|Hx]%elem_of_cons & <-); [done|by exists x].
Qed.

Lemma tracks_add o K R r : tracks K R -> order_typed o -> mirrors o r -> R !! ao_order_id o = None ->
  tracks (o :: K) (<[ao_order_id o := r]> R).
Proof.
  intros [Hn Hl Hb] Ht Hm HR. split.
  - rewrite fmap_cons. apply NoDup_cons. split; [|done]. intros (x & Eq & Hx)%list_elem_of_fmap.
    destruct (Hl x Hx) as [_ (r' & Hr' & _)]. congruence.
  - intros x [->|Hx]%elem_of_cons; [split; [done|]; exists r; by rewrite lookup_insert_eq|].
    destruct (Hl x Hx) as [Htx (r' & Hr' & Hmx)]. split; [done|]. exists r'. split; [|done]. rewrite lookup_insert_ne; [done|]. congruence.
  - intros id r' [[<- <-]|[Hne Hr]]%lookup_insert_Some; [exists o; split; [by left|done]|].
    destruct (Hb id r' Hr) as (x & Hx & <-). exists x. split; [by right|done].
Qed.

Lemma tracks_update o o' K R r : tracks (o :: K) R -> ao_order_id o' = ao_order_id o -> order_typed o' -> mirrors o' r ->
  tracks (o' :: K) (<[ao_order_id o := r]> R).
Proof.
  intros HT Hid Ht Hm. rewrite <- insert_delete_eq, <- Hid. apply tracks_add; [|done|done|by rewrite lookup_delete_eq].
  rewrite Hid. by apply tracks_remove.
Qed.

(** ** Changing one slot *)
Lemma Permutation_refl' {A} (l l' : list A) : l = l' -> l ≡ₚ l'.
Proof. by intros ->. Qed.

Lemma bind_extract {A B} `{EqDecision A} (f : A -> list B) l x : NoDup l -> x ∈ l ->
  l ≫= f ≡ₚ f x ++ (filter (fun y => y <> x) l ≫= f).
Proof.
  induction 1 as [|y l Hy Hl IH]; intros Hx; [by apply not_elem_of_nil in Hx|]. rewrite filter_cons.
  destruct (decide (y = x)) as [->|Hne].
  - rewrite decide_False by tauto. change ((x :: l) ≫= f) with (f x ++ (l ≫= f)). f_equiv.
    assert (filter (fun y => y <> x) l = l) as ->; [|done]. clear -Hy. induction l as [|z l IH]; [done|].
    rewrite filter_cons, decide_True, IH; [done|..]; [intros H; apply Hy; by right|intros ->; apply Hy; by left].
  - rewrite decide_True by done. apply elem_of_cons in Hx as [->|Hx]; [done|].
    change ((y :: l) ≫= f) with (f y ++ (l ≫= f)).
    change ((y :: filter (fun y => y <> x) l) ≫= f) with (f y ++ (filter (fun y => y <> x) l ≫= f)).
    rewrite (IH Hx), !app_assoc. f_equiv. apply Permutation_app_comm.
Qed.

Lemma bind_ext_list {A B} (f g : A -> list B) l : (forall x, x ∈ l -> f x = g x) -> l ≫= f = l ≫= g.
Proof.
  induction l as [|x l IH]; intros H; [done|]. change ((x :: l) ≫= f) with (f x ++ (l ≫= f)). change ((x :: l) ≫= g) with (g x ++ (l ≫= g)).
  rewrite H by by left. f_equal. apply IH. intros y Hy. apply H. by right.
Qed.

Definition if_live (o : ActiveOrder) : list ActiveOrder := if slots.is_live o then [o] else [].

Lemma live_orders_split l i o : l !! i = Some o -> live_orders l ≡ₚ if_live o ++ live_orders (take i l ++ drop (S i) l).
Proof.
  intros Hi. rewrite <- (take_drop_middle l i o Hi) at 1. unfold live_orders, if_live. rewrite !filter_app, filter_cons.
  destruct (slots.is_live o) eqn:El; case_decide; try congruence; [|done]. by rewrite <- Permutation_middle.
Qed.

Lemma all_live_update E sym i o o' r : 0 <= sym < kSymbols -> se_orders (state_of E sym) !! i = Some o -> exists K,
  all_live E ≡ₚ if_live o ++ K /\
  all_live (<[sym := mkExecState (<[i := o']> (se_orders (state_of E sym))) r]> E) ≡ₚ if_live o' ++ K.
Proof.
  intros Hs Hi. set (s' := mkExecState _ _). set (f := fun E sym => live_orders (se_orders (state_of E sym))).
  assert (Hx : sym ∈ symbols) by by apply elem_symbols. pose proof (lookup_lt_Some _ _ _ Hi) as Hlt.
  exists (live_orders (take i (se_orders (state_of E sym)) ++ drop (S i) (se_orders (state_of E sym))) ++ (filter (fun y => y <> sym) symbols ≫= f E)).
  rewrite !app_assoc. change (all_live E) with (symbols ≫= f E). change (all_live (<[sym := s']> E)) with (symbols ≫= f (<[sym := s']> E)). split.
  - rewrite (bind_extract (f E) symbols sym (NoDup_zrange _ _) Hx). f_equiv. unfold f. by apply live_orders_split.
  - rewrite (bind_extract (f (<[sym := s']> E)) symbols sym (NoDup_zrange _ _) Hx). f_equiv.
    + unfold f. rewrite state_of_insert, decide_True by done. cbn [se_orders s'].
      rewrite (live_orders_split (<[i := o']> (se_orders (state_of E sym))) i o') by by apply list_lookup_insert_eq.
      by rewrite take_insert_ge, drop_insert_lt by lia.
    + apply Permutation_refl', bind_ext_list. intros y [Hy _]%list_elem_of_filter. unfold f. by rewrite state_of_insert, decide_False.
Qed.

(** ** The link *)
Section link.
Context {AJ RJ : Type} `{Journal AJ AuditEvent} `{HJ : Journal RJ RecoveryEvent} `{!ReliableJournal RJ} (capacity : Z) (Hcap : 32768 < capacity).
Abbreviation Gateway := (ExecutionGateway AJ RJ).
Implicit Types (g : Gateway) (F : list Fill).
Import gateway.

Definition remaining_of (R : gmap Z RecoveredOrder) : gmap Z Z := ro_remaining <$> R.

(** The live orders, the ledger and the journal agree on [R]. *)
Record linked_to g (evs : list RecoveryEvent) E R j : Prop := {
  lk_arena : gw_arena g = Some E;
  lk_tracks : tracks (all_live E) R;
  lk_ledger : sound ledger_bits (rl_entries (gw_reconciliation g)) (remaining_of R);
  lk_journal : gw_recovery_ledger g = Some j;
  lk_events : holds_events j evs;
  lk_replay : spec_events capacity ∅ evs = Some R;
}.
Definition linked g evs : Prop := exists E R j, linked_to g evs E R j.

Lemma spec_events_app evs e M : spec_events capacity M (evs ++ [e]) = spec_events capacity M evs ≫= fun M => spec_event capacity M e.
Proof.
  revert M. induction evs as [|x evs IH]; intros M; cbn [app spec_events mbind option_bind].
  - by destruct (spec_event capacity M e).
  - destruct (spec_event capacity M x); [apply IH|done].
Qed.

(** Recording one more event. *)
Lemma record_event g evs E R j e R' : linked_to g evs E R j -> event_typed e -> Z.of_nat (length evs) + 1 < 2 ^ 63 ->
  spec_event capacity R e = Some R' ->
  exists j', recover e g = (true, set_recovery_ledger (Some j') g) /\ holds_events j' (evs ++ [e]) /\
             spec_events capacity ∅ (evs ++ [e]) = Some R'.
Proof.
  intros [_ _ _ Hj Hev Hrep] He Hlen Hspec. destruct (reliable_append j evs e Hev He Hlen) as (j' & Ha & Hev').
  exists j'. unfold recover. rewrite Hj, Ha. split_and!; [done|done|]. by rewrite spec_events_app, Hrep.
Qed.

(** Only fields the link does not read changed. *)
Lemma linked_keep g g' evs E R j E' : linked_to g evs E R j -> gw_arena g' = Some E' -> all_live E' = all_live E ->
  gw_reconciliation g' = gw_reconciliation g -> gw_recovery_ledger g' = gw_recovery_ledger g -> linked g' evs.
Proof. intros [H1 H2 H3 H4 H5 H6] Ha Hl Hr Hj. exists E', R, j. split; rewrite ?Hl, ?Hr, ?Hj; done. Qed.

Lemma all_live_risk sym f E : all_live (update_risk f sym E) = all_live E.
Proof.
  apply bind_ext_list. intros y _. unfold update_risk. rewrite state_of_insert. by case_decide; subst.
Qed.

Lemma linked_risk g g' evs sym f : linked g evs -> gw_arena g' = gw_arena (set_risk sym f g) ->
  gw_reconciliation g' = gw_reconciliation g -> gw_recovery_ledger g' = gw_recovery_ledger g -> linked g' evs.
Proof.
  intros (E & R & j & Hk) Ha Hr Hj. eapply (linked_keep _ _ _ _ _ _ (update_risk f sym E) Hk); [|apply all_live_risk|done|done].
  rewrite Ha. cbn [gw_arena set_risk set_exec]. by rewrite (lk_arena _ _ _ _ _ Hk).
Qed.

Lemma linked_fields g g' evs : linked g evs -> gw_arena g' = gw_arena g ->
  gw_reconciliation g' = gw_reconciliation g -> gw_recovery_ledger g' = gw_recovery_ledger g -> linked g' evs.
Proof.
  intros (E & R & j & Hk) Ha Hr Hj. eapply (linked_keep _ _ _ _ _ _ E Hk); [|done|done|done]. by rewrite Ha, (lk_arena _ _ _ _ _ Hk).
Qed.

Lemma linked_halt g evs sym : linked g evs -> linked (halt_and_trip sym g) evs.
Proof. intros Hk. by apply (linked_risk g _ evs sym (set_halted 1)). Qed.

Lemma tracks_live g evs E R j sym i o : linked_to g evs E R j -> 0 <= sym < kSymbols ->
  se_orders (state_of E sym) !! i = Some o -> slots.is_live o = true ->
  exists r, R !! ao_order_id o = Some r /\ mirrors o r /\ order_typed o /\ remaining_of R !! ao_order_id o = Some (ao_qty o).
Proof.
  intros Hk Hs Hi Hl. destruct (tr_live _ _ (lk_tracks _ _ _ _ _ Hk) o) as [Ht (r & Hr & Hm)].
  - unfold all_live. apply list_elem_of_bind. exists sym. split; [by eapply live_in|by apply elem_symbols].
  - exists r. split_and!; [done|done|done|]. unfold remaining_of. rewrite lookup_fmap, Hr. cbn. by destruct Hm as (_ & -> & _).
Qed.

Lemma tracks_size l R : tracks l R -> (size R <= length l)%nat.
Proof.
  intros HT. rewrite <- size_dom, <- (length_fmap ao_order_id l), <- (size_list_to_set (C := gset Z) _ (tr_nodup _ _ HT)).
  apply subseteq_size. intros id [r Hr]%elem_of_dom. destruct (tr_back _ _ HT id r Hr) as (o & Ho & <-).
  apply elem_of_list_to_set. by apply list_elem_of_fmap_2.
Qed.

Lemma all_live_length g F E : books_ok g F 0 -> gw_arena g = Some E -> Z.of_nat (length (all_live E)) <= 32768.
Proof.
  intros [(E0 & HE0 & Ha & _)] HE. rewrite HE in HE0. injection HE0 as <-.
  assert (H1 : forall l, Forall (fun sym => 0 <= sym < kSymbols) l ->
    Z.of_nat (length (l ≫= (fun sym => live_orders (se_orders (state_of E sym))))) = zsum ((fun sym => rs_order_count (risk_of E sym)) <$> l)).
  { intros l. induction 1 as [|sym l Hs Hl IH]; [done|]. rewrite fmap_cons, zsum_cons, <- IH.
    change ((sym :: l) ≫= ?f) with (f sym ++ (l ≫= f)). rewrite length_app.
    pose proof (ac_count _ _ _ (Ha sym Hs)) as Hc. rewrite open_total_count in Hc. unfold risk_of. lia. }
  pose proof (order_counts_range _ _ Ha) as Hr. unfold order_counts in Hr.
  assert (Hall : Forall (fun sym => 0 <= sym < kSymbols) symbols) by (apply Forall_forall; intros x; by apply elem_symbols).
  pose proof (H1 symbols Hall) as H2. unfold all_live. lia.
Qed.

(** *** The three changes of a slot *)
Section slot.
Context (g g' : Gateway) (evs evs' : list RecoveryEvent) (E : exec_states) (R : gmap Z RecoveredOrder) (j j' : RJ).
Context (sym : Z) (i : nat) (o o' : ActiveOrder) (rs : RiskState).
Context (Hk : linked_to g evs E R j) (Hs : 0 <= sym < kSymbols) (Hi : se_orders (state_of E sym) !! i = Some o).
Context (Ha' : gw_arena g' = Some (<[sym := mkExecState (<[i := o']> (se_orders (state_of E sym))) rs]> E)).
Context (Hj' : gw_recovery_ledger g' = Some j') (Hev' : holds_events j' evs').

Lemma link_close : slots.is_live o = true -> slots.is_live o' = false ->
  sound ledger_bits (rl_entries (gw_reconciliation g')) (delete (ao_order_id o) (remaining_of R)) ->
  spec_events capacity ∅ evs' = Some (delete (ao_order_id o) R) -> linked g' evs'.
Proof.
  intros Hl Hl' HL Hrep. destruct (all_live_update E sym i o o' rs Hs Hi) as (K & H1 & H2).
  eexists _, _, _. split; [exact Ha'| | |exact Hj'|exact Hev'|exact Hrep].
  - rewrite H2. unfold if_live. rewrite Hl'. cbn [app]. apply tracks_remove. pose proof (lk_tracks _ _ _ _ _ Hk) as HT. rewrite H1 in HT.
    unfold if_live in HT. by rewrite Hl in HT.
  - unfold remaining_of in *. by rewrite fmap_delete.
Qed.

Lemma link_change r : slots.is_live o = true -> slots.is_live o' = true -> ao_order_id o' = ao_order_id o -> order_typed o' -> mirrors o' r ->
  sound ledger_bits (rl_entries (gw_reconciliation g')) (<[ao_order_id o := ao_qty o']> (remaining_of R)) ->
  spec_events capacity ∅ evs' = Some (<[ao_order_id o := r]> R) -> linked g' evs'.
Proof.
  intros Hl Hl' Hid Ht Hm HL Hrep. destruct (all_live_update E sym i o o' rs Hs Hi) as (K & H1 & H2).
  eexists _, _, _. split; [exact Ha'| | |exact Hj'|exact Hev'|exact Hrep].
  - rewrite H2. unfold if_live. rewrite Hl'. cbn [app]. apply tracks_update; [|done|done|done]. pose proof (lk_tracks _ _ _ _ _ Hk) as HT. rewrite H1 in HT.
    unfold if_live in HT. by rewrite Hl in HT.
  - unfold remaining_of in *. rewrite fmap_insert. by destruct Hm as (_ & -> & _).
Qed.

Lemma link_add r : slots.is_live o = false -> slots.is_live o' = true -> order_typed o' -> mirrors o' r -> R !! ao_order_id o' = None ->
  sound ledger_bits (rl_entries (gw_reconciliation g')) (<[ao_order_id o' := ao_qty o']> (remaining_of R)) ->
  spec_events capacity ∅ evs' = Some (<[ao_order_id o' := r]> R) -> linked g' evs'.
Proof.
  intros Hl Hl' Ht Hm HR HL Hrep. destruct (all_live_update E sym i o o' rs Hs Hi) as (K & H1 & H2).
  eexists _, _, _. split; [exact Ha'| | |exact Hj'|exact Hev'|exact Hrep].
  - rewrite H2. unfold if_live. rewrite Hl'. cbn [app]. apply tracks_add; [|done|done|done]. pose proof (lk_tracks _ _ _ _ _ Hk) as HT. rewrite H1 in HT.
    unfold if_live in HT. by rewrite Hl in HT.
  - unfold remaining_of in *. rewrite fmap_insert. by destruct Hm as (_ & -> & _).
Qed.
End slot.

(** *** Each call *)
Definition op_typed (op : gateway_op) : Prop :=
  match op with
  | TryBuild it => in_u 32 (oi_client_order_id it) /\ in_s 64 (oi_qty it) /\ in_s 64 (oi_price it) /\
                   0 <= oi_side it <= 1 /\ in_u 64 (oi_now_ns it)
  | ExecReport _ _ now_ns _ _ | CancelReport _ _ now_ns | CancelOrder _ now_ns => in_u 64 now_ns
  | ReplaceReport _ _ new_qty new_price now_ns => in_s 64 new_qty /\ in_s 64 new_price /\ in_u 64 now_ns
  | RejectReport _ _ _ | TryReplace _ | HaltSymbol _ | ResumeSymbol _ => True
  end.

(** Reject reports write no recovery event, and a client order id is not used
    for two live orders at a time, on any symbol. *)
Definition link_admissible (op : gateway_op) g : bool :=
  gateway_admissible op g &&
  match op with
  | TryBuild it => forallb (fun sym => match order_at g sym (slots.live_by (oi_client_order_id it)) with Some _ => false | None => true end) symbols
  | RejectReport _ _ _ => false
  | _ => true
  end.

Definition extends (evs evs' : list RecoveryEvent) : Prop := Z.of_nat (length evs') <= Z.of_nat (length evs) + 1.
Definition links_on g evs : Prop := exists evs', linked g evs' /\ extends evs evs'.

Lemma links_stay g evs : linked g evs -> links_on g evs.
Proof. intros Hk. exists evs. split; [done|]. unfold extends. lia. Qed.

Lemma contains_found id (L : ReconciliationLedger) : ledger_contains id L = true ->
  id <> 0 /\ exists s, reconcile.find ledger_bits id (rl_entries L) = Some s.
Proof.
  unfold ledger_contains, reconcile.contains. intros [Hid Hf]%andb_true_iff.
  destruct (reconcile.find ledger_bits id (rl_entries L)) as [s|]; [|done]. split; [lia|by exists s].
Qed.

Lemma ledger_bits_small : 0 <= ledger_bits <= 31.
Proof. unfold ledger_bits. lia. Qed.

Lemma cancel_report_links sym id now g evs : 0 <= sym -> in_u 64 now -> Z.of_nat (length evs) + 1 < 2 ^ 63 ->
  linked g evs -> links_on (apply_cancel_report sym id now g).2 evs.
Proof.
  intros Hs0 Hnow Hlen Hl. pose proof Hl as (E & R & j & Hk). unfold apply_cancel_report. rewrite (lk_arena _ _ _ _ _ Hk).
  destruct (Z.leb_spec kSymbols sym); [by apply links_stay, (linked_fields g)|]. assert (Hs : 0 <= sym < kSymbols) by lia.
  destruct (slots.find_slot _ _) as [[i o]|] eqn:Ef; [|by apply links_stay, linked_halt].
  destruct (Z.eqb_spec (ao_state o) 3) as [|H3]; [by apply links_stay|].
  destruct (ledger_contains id (gw_reconciliation g)) eqn:Ec; cbn [negb]; [|by apply links_stay, linked_halt].
  destruct (occupied_live _ _ _ _ Ef H3) as [Hi Hlive]. apply find_slot_Some in Ef as (_ & Hocc & _).
  assert (Hid : ao_order_id o = id) by (unfold slots.occupied_by in Hocc; lia).
  destruct (tracks_live _ _ _ _ _ _ _ _ Hk Hs Hi Hlive) as (r & Hr & Hm & Ht & Hq).
  destruct (contains_found _ _ Ec) as (Hne & s & Hfind).
  destruct (record_event g evs E R j (mkEvent kCancel (ao_order_id o) (ao_qty o) (ao_price o) (ao_side o) now) (delete (ao_order_id o) R) Hk)
    as (j' & -> & Hev' & Hrep'); [destruct Ht; by split|done|cbn [spec_event ev_type ev_order_id]; by rewrite Hr|]. cbn [negb].
  destruct (sound_cancel ledger_bits ledger_bits_small id (gw_reconciliation g) _ s (lk_ledger _ _ _ _ _ Hk) Hne Hfind) as (L' & Hc & HL').
  unfold cancel_reconciliation. cbn [gw_reconciliation set_recovery_ledger]. rewrite (ledger_cancel_eq _ _ _ Hc). cbn [negb snd].
  exists (evs ++ [mkEvent kCancel (ao_order_id o) (ao_qty o) (ao_price o) (ao_side o) now]). split; [|unfold extends; rewrite length_app; cbn [length]; lia].
  eapply (link_close g _ _ _ E R j j' sym i o no_active); [done|done|done| |done|done|done|done| |done].
  - cbn [gw_arena release_permit set_pending set_state set_exec set_reconciliation set_recovery_ledger]. by rewrite (lk_arena _ _ _ _ _ Hk).
  - by rewrite Hid.
Qed.

Lemma replace_report_links sym id nq np now g evs : 0 <= sym -> in_s 64 nq -> in_s 64 np -> in_u 64 now ->
  Z.of_nat (length evs) + 1 < 2 ^ 63 -> linked g evs -> links_on (apply_replace_report sym id nq np now g).2 evs.
Proof.
  intros Hs0 Hnq Hnp Hnow Hlen Hl. pose proof Hl as (E & R & j & Hk). unfold apply_replace_report. rewrite (lk_arena _ _ _ _ _ Hk).
  destruct (Z.leb_spec kSymbols sym); [by apply links_stay, (linked_fields g)|]. assert (Hs : 0 <= sym < kSymbols) by lia.
  destruct (slots.find_slot _ _) as [[i o]|] eqn:Ef; [|by apply links_stay, linked_halt].
  destruct (_ || _) eqn:Eg; [by apply links_stay, linked_halt|].
  apply orb_false_iff in Eg as [[Ec%negb_false_iff Eq]%orb_false_iff Ep].
  apply find_slot_Some in Ef as (Hi & Hocc & _). unfold slots.live_by in Hocc. apply andb_true_iff in Hocc as [Hid Hlive].
  apply Z.eqb_eq in Hid. destruct (tracks_live _ _ _ _ _ _ _ _ Hk Hs Hi Hlive) as (r & Hr & Hm & Ht & Hq).
  set (e := mkEvent kReplace (ao_order_id o) nq np (ao_side o) now).
  set (r' := mkRecovered (ao_order_id o) nq np (ro_side r) (ro_timestamp_ns r)).
  assert (Hnq' : 0 < nq < 2 ^ 63) by (unfold in_s in Hnq; change (2 ^ (64 - 1)) with (2 ^ 63) in Hnq; lia).
  destruct (record_event g evs E R j e (<[ao_order_id o := r']> R) Hk) as (j' & -> & Hev' & Hrep'); [destruct Ht; by split|done| |].
  { unfold e. cbn [spec_event ev_type ev_order_id ev_quantity ev_price]. rewrite Hr. destruct (Z.ltb_spec 0 np); [done|lia]. }
  cbn [negb]. destruct (sound_replace ledger_bits ledger_bits_small id nq (gw_reconciliation g) _ (lk_ledger _ _ _ _ _ Hk) Ec ltac:(lia))
    as (L' & Hc & HL'). change (gw_reconciliation (set_recovery_ledger (Some j') g)) with (gw_reconciliation g).
  unfold ledger_replace. rewrite Hc. cbn [negb snd].
  exists (evs ++ [e]). split; [|unfold extends; rewrite length_app; cbn [length]; lia].
  set (o' := mkActive (ao_order_id o) np nq (ao_filled_qty o) (ao_symbol_idx o) (ao_side o) (ao_state o) (ao_time_in_force o)).
  eapply (link_change g _ _ _ E R j j' sym i o o' _ Hk Hs Hi) with (r := r'); [|done|exact Hev'|done|done|done| | | |exact Hrep'].
  - cbn [gw_arena set_state set_exec set_reconciliation set_recovery_ledger]. by rewrite (lk_arena _ _ _ _ _ Hk).
  - destruct Ht. by split.
  - destruct Hm as (_ & _ & _ & ?). by split.
  - by rewrite Hid.
Qed.

Lemma notify_fill_keeps id fq pr utc acc g e g' : notify_fill id fq pr utc acc g = (e, g') ->
  gw_arena g' = gw_arena g /\ gw_reconciliation g' = gw_reconciliation g /\ gw_recovery_ledger g' = gw_recovery_ledger g.
Proof. unfold notify_fill. case_if; by intros [= _ <-]. Qed.

(** The event of a fill, and what it leaves open. *)
Lemma fill_event_spec report o r now R : R !! ao_order_id o = Some r -> mirrors o r -> 0 < er_filled_quantity report <= ao_qty o ->
  let rem := ao_qty o - er_filled_quantity report in
  let e := mkEvent (if er_terminal report && (0 <? rem) then kTerminalFill else kFill) (ao_order_id o) (er_filled_quantity report)
             (ao_price o) (ao_side o) now in
  spec_event capacity R e = Some (if er_terminal report || (rem =? 0) then delete (ao_order_id o) R
     else <[ao_order_id o := mkRecovered (ao_order_id o) rem (ro_price r) (ro_side r) (ro_timestamp_ns r)]> R).
Proof.
  intros Hr (_ & Hrem & _) Hf rem e. unfold e, spec_event. cbn [ev_type ev_order_id ev_quantity].
  destruct (er_terminal report); cbn [andb orb]; [destruct (Z.ltb_spec 0 rem)|]; rewrite Hr, Hrem;
    destruct (Z.ltb_spec (ao_qty o) (er_filled_quantity report)); try lia; [done| |].
  - destruct (Z.eqb_spec (ao_qty o) (er_filled_quantity report)); [done|lia].
  - unfold rem in *. replace (ao_qty o - er_filled_quantity report =? 0) with (ao_qty o =? er_filled_quantity report) by lia. by case_if.
Qed.

Lemma execution_report_links sym report now utc acc g evs :
  gateway_admissible (ExecReport sym report now utc acc) g = true -> in_u 64 now -> Z.of_nat (length evs) + 1 < 2 ^ 63 ->
  linked g evs -> links_on (apply_execution_report sym report now utc acc g).2 evs.
Proof.
  intros Hadm Hnow Hlen Hl. pose proof Hl as (E & R & j & Hk). cbn [gateway_admissible] in Hadm. unfold order_at in Hadm.
  unfold apply_execution_report. rewrite (lk_arena _ _ _ _ _ Hk) in *. cbn [mbind option_bind] in Hadm.
  apply andb_true_iff in Hadm as [Hs0 Hadm].
  destruct (Z.leb_spec kSymbols sym); [by apply links_stay, (linked_fields g)|]. assert (Hs : 0 <= sym < kSymbols) by lia.
  destruct (slots.find_slot _ _) as [[i o]|] eqn:Ef; [|by apply links_stay, linked_halt]. cbn [fmap option_fmap option_map snd] in Hadm.
  destruct (_ || _) eqn:Eg; [by apply links_stay, linked_halt|]. apply orb_false_iff in Eg as [Eg Ec%negb_false_iff].
  assert (Hf : 0 < er_filled_quantity report <= ao_qty o) by lia.
  destruct (occupied_live _ _ _ _ Ef ltac:(lia)) as [Hi Hlive]. apply find_slot_Some in Ef as (_ & Hocc & _).
  assert (Hid : ao_order_id o = er_order_id report) by (unfold slots.occupied_by in Hocc; lia).
  destruct (tracks_live _ _ _ _ _ _ _ _ Hk Hs Hi Hlive) as (r & Hr & Hm & Ht & Hq).
  pose proof (fill_event_spec report o r now R Hr Hm Hf) as Hspec. cbv zeta in Hspec. set (rem := ao_qty o - er_filled_quantity report) in *.
  match type of Hspec with spec_event _ _ ?x = _ => set (e := x) in * end.
  destruct (record_event g evs E R j e _ Hk ltac:(destruct Ht; split; cbn; (done || lia)) Hlen Hspec) as (j' & Hrec & Hev' & Hrep').
  rewrite Hrec. cbn [negb]. rewrite Hid in Hq.
  destruct (sound_apply ledger_bits ledger_bits_small report (gw_reconciliation g) _ _ (lk_ledger _ _ _ _ _ Hk) Ec Hq Hf) as (L' & Hc & HL').
  change (gw_reconciliation (set_recovery_ledger (Some j') g)) with (gw_reconciliation g). unfold ledger_apply. rewrite Hc. cbn [negb].
  unfold settle_fill. fold rem. fold rem in HL'. rewrite <- Hid in HL'.
  destruct (er_terminal report || (rem =? 0)) eqn:Ed; (destruct (notify_fill _ _ _ _ _ _) as [ev g2] eqn:En);
    apply notify_fill_keeps in En as (Ha2 & HL2 & Hj2); cbn [snd];
    (exists (evs ++ [e]); split; [|unfold extends; rewrite length_app; cbn [length]; lia]).
  - eapply (link_close g _ _ _ E R j j' sym i o _ _ Hk Hs Hi); [| |exact Hev'|done| | |exact Hrep'].
    + cbn [gw_arena release_permit set_pending set_state set_exec]. rewrite Ha2.
      cbn [gw_arena set_reconciliation set_recovery_ledger]. by rewrite (lk_arena _ _ _ _ _ Hk).
    + cbn [gw_recovery_ledger release_permit set_pending set_state set_exec]. by rewrite Hj2.
    + done.
    + cbn [gw_reconciliation release_permit set_pending set_state set_exec]. by rewrite HL2.
  - eapply (link_change g _ _ _ E R j j' sym i o _ _ Hk Hs Hi)
      with (r := mkRecovered (ao_order_id o) rem (ro_price r) (ro_side r) (ro_timestamp_ns r)); [| |exact Hev'|done| | | | | |exact Hrep'].
    + cbn [gw_arena release_permit set_pending set_state set_exec]. rewrite Ha2.
      cbn [gw_arena set_reconciliation set_recovery_ledger]. by rewrite (lk_arena _ _ _ _ _ Hk).
    + cbn [gw_recovery_ledger release_permit set_pending set_state set_exec]. by rewrite Hj2.
    + done.
    + done.
    + destruct Ht. split; cbn; (done || lia).
    + destruct Hm as (_ & _ & ? & ?). by split.
    + cbn [gw_reconciliation release_permit set_pending set_state set_exec]. rewrite HL2. exact HL'.
Qed.

Lemma unused_everywhere g evs E R j id : linked_to g evs E R j ->
  forallb (fun sym => match order_at g sym (slots.live_by id) with Some _ => false | None => true end) symbols = true ->
  R !! id = None.
Proof.
  intros Hk Hall. destruct (R !! id) as [r|] eqn:Hr; [|done]. exfalso.
  destruct (tr_back _ _ (lk_tracks _ _ _ _ _ Hk) id r Hr) as (o & Ho & Hid). apply list_elem_of_bind in Ho as (sym & Ho & Hsym).
  rewrite forallb_forall in Hall. specialize (Hall sym ltac:(by apply list_elem_of_In)). unfold order_at in Hall.
  rewrite (lk_arena _ _ _ _ _ Hk) in Hall. cbn [mbind option_bind] in Hall.
  destruct (slots.find_slot (slots.live_by id) (se_orders (state_of E sym))) as [[i x]|] eqn:Ef; [done|].
  pose proof (live_by_unused _ _ Ef) as Hun. unfold id_unused in Hun. rewrite Forall_forall in Hun. by apply (Hun o Ho).
Qed.

Lemma same_account_all_live E E' sym : other_symbols sym E E' -> same_account (state_of E sym) (state_of E' sym) -> all_live E' = all_live E.
Proof.
  intros Ho Hs. apply bind_ext_list. intros y _. destruct (decide (y = sym)) as [->|Hne]; [apply Hs|by rewrite Ho].
Qed.

Lemma try_build_links it pk g F evs : link_admissible (TryBuild it) g = true -> op_typed (TryBuild it) ->
  Z.of_nat (length evs) + 1 < 2 ^ 63 -> books_ok g F 0 -> linked g evs -> links_on (try_build it pk g).2 evs.
Proof.
  intros Hadm (Hid & Hqty & Hprice & Hside & Hnow) Hlen Hb Hl. pose proof Hl as (E & R & j & Hk). pose proof (lk_arena _ _ _ _ _ Hk) as HE.
  apply andb_true_iff in Hadm as [Hadm Hall]. pose proof (unused_everywhere _ _ _ _ _ _ Hk Hall) as HR.
  cbn [gateway_admissible] in Hadm. apply andb_true_iff in Hadm as [Hs0 Hun].
  destruct (Z.le_gt_cases kSymbols (oi_symbol_idx it)) as [Hs|Hs].
  { unfold try_build. rewrite HE. destruct (Z.leb_spec kSymbols (oi_symbol_idx it)); [by apply links_stay|lia]. }
  assert (Hr : 0 <= oi_symbol_idx it < kSymbols) by lia. unfold order_at in Hun. rewrite HE in Hun. cbn [mbind option_bind] in Hun.
  destruct (slots.find_slot (slots.live_by (oi_client_order_id it)) (se_orders (state_of E (oi_symbol_idx it)))) eqn:Ef; [done|].
  pose proof Hb as [(E0 & HE0 & Ha & Hp)]. rewrite HE in HE0. injection HE0 as <-. pose proof (order_counts_range _ _ Ha) as Hoc.
  assert (HQ : remaining_of R !! oi_client_order_id it = None) by (unfold remaining_of; by rewrite lookup_fmap, HR).
  pose proof (try_build_cases it E _ _ (Ha _ Hr) (live_by_unused _ _ Ef) g pk HE Hs ltac:(lia)) as Hcases.
  destruct (try_build it pk g) as [[d pk'] g']. cbn [snd]. destruct Hcases as [Href|Hacc].
  - apply links_stay. destruct Href as [_ _ (E' & HE' & Ho & Hsame) _ Hled Hrec].
    assert (Hsound : sound ledger_bits (rl_entries (gw_reconciliation g')) (remaining_of R)).
    { destruct Hled as [->|(L1 & Hreg & ->)]; [apply Hk|].
      destruct (sound_register ledger_bits ledger_bits_small _ _ _ _ _ (lk_ledger _ _ _ _ _ Hk) HQ Hreg) as (Hne & _ & Hs1 & [s Hf]).
      destruct (sound_cancel ledger_bits ledger_bits_small _ _ _ s Hs1 Hne Hf) as (L2 & Hc & Hs2). rewrite (ledger_cancel_eq _ _ _ Hc).
      by rewrite delete_insert_id in Hs2. }
    assert (Hjour : exists j', gw_recovery_ledger g' = Some j' /\ holds_events j' evs).
    { destruct Hrec as [->|Hrec]; [exists j; split; apply Hk|]. unfold recorded in Hrec. rewrite (lk_journal _ _ _ _ _ Hk) in Hrec.
      destruct Hrec as (j' & Ha' & ->). exists j'. split; [done|]. eapply reliable_refuse; [apply Hk|done]. }
    destruct Hjour as (j' & Hj' & Hev'). exists E', R, j'. split; [done| |done|done|done|apply Hk].
    rewrite (same_account_all_live E E' _ Ho Hsame). apply Hk.
  - destruct Hacc as [_ _ _ Hroom (s' & HE' & Hres) _ Hreg Hrec].
    destruct (reserve_slot_eq it _ _ _ (Ha _ Hr) Hroom) as (i & o & Hfree & Hres'). rewrite Hres in Hres'. injection Hres' as ->.
    apply find_slot_Some in Hfree as (Hi & Hfree & _).
    destruct (sound_register ledger_bits ledger_bits_small _ _ _ _ _ (lk_ledger _ _ _ _ _ Hk) HQ Hreg) as (Hne & Hpos & Hs1 & _).
    assert (Hte : event_typed (add_event it)).
    { unfold in_u, in_s in *. assert (2 ^ 32 < 2 ^ 64) by done. split; cbn [add_event ev_order_id ev_quantity ev_price ev_side ev_timestamp_ns];
        unfold in_u, in_s; try done; change (2 ^ (64 - 1)) with (2 ^ 63) in *; try lia. }
    unfold recorded in Hrec. rewrite (lk_journal _ _ _ _ _ Hk) in Hrec. destruct Hrec as (j' & Happ & Hj').
    destruct (reliable_append j evs (add_event it) (lk_events _ _ _ _ _ Hk) Hte Hlen) as (j2 & Happ2 & Hev').
    rewrite Happ in Happ2. injection Happ2 as <-.
    exists (evs ++ [add_event it]). split; [|unfold extends; rewrite length_app; cbn [length]; lia].
    assert (Hland : Z.land (oi_side it) 1 = oi_side it) by (assert (oi_side it = 0 \/ oi_side it = 1) as [-> | ->] by lia; done).
    eapply (link_add g _ _ _ E R j j' _ i o (order_of it) _ Hk Hr Hi HE' Hj' Hev')
      with (r := mkRecovered (oi_client_order_id it) (oi_qty it) (oi_price it) (oi_side it) (oi_now_ns it)).
    + unfold slots.is_live. by rewrite Hfree.
    + done.
    + destruct Hte as [H1 H2 H3 H4 _]. split; cbn [order_of ao_order_id ao_qty ao_price ao_side]; rewrite ?Hland; done.
    + split_and!; cbn [order_of ao_order_id ao_qty ao_price ao_side]; by rewrite ?Hland.
    + done.
    + done.
    + rewrite spec_events_app, (lk_replay _ _ _ _ _ Hk). cbn [mbind option_bind spec_event add_event ev_type ev_order_id]. rewrite HR.
      pose proof (tracks_size _ _ (lk_tracks _ _ _ _ _ Hk)). pose proof (all_live_length g F E Hb HE).
      destruct (Z.eqb_spec (Z.of_nat (size R)) capacity); [lia|done].
Qed.

Lemma try_replace_links it pk g evs : linked g evs -> linked (try_replace it pk g).2 evs.
Proof.
  intros Hl. pose proof Hl as (E & R & j & Hk). unfold try_replace. rewrite (lk_arena _ _ _ _ _ Hk). case_if; [done|].
  destruct (breaker.allow _ _) as [allowed b]. set (g1 := set_breaker b g).
  assert (Hcount : forall f g', gw_arena g' = gw_arena (set_risk (ori_symbol_idx it) f g) -> gw_reconciliation g' = gw_reconciliation g ->
    gw_recovery_ledger g' = gw_recovery_ledger g -> linked g' evs) by (intros f g'; by apply linked_risk).
  destruct allowed; cbn [negb]; [|by apply (Hcount (fun r => set_halted 1 (count_rejection r)))].
  case_if; [by apply (Hcount count_rejection)|]. destruct (slots.find_slot _ _) as [[i o]|]; [|by apply (Hcount count_rejection)].
  case_if; [by apply (Hcount count_rejection)|].
  destruct (packets.build_replace_order _ _ _) as [built pk1]. destruct built; cbn [negb]; [|by apply (Hcount count_rejection)].
  destruct (audit _ g1) as [logged g2] eqn:Ea. pose proof (audit_recovery' _ _ _ _ Ea) as Hr2. apply audit_same' in Ea as [Ha2 _ HL2].
  destruct logged; cbn [negb snd].
  - by apply (linked_fields g).
  - apply (Hcount count_rejection); [|done|done]. cbn [gw_arena record_failure set_breaker set_risk set_exec]. by rewrite Ha2.
Qed.

Lemma halt_links sym x g evs : linked g evs ->
  linked (match gw_arena g with Some _ => if sym <? kSymbols then set_risk sym (set_halted x) g else g | None => g end) evs.
Proof. intros Hl. destruct (gw_arena g); [|done]. case_if; [|done]. by apply (linked_risk g _ evs sym (set_halted x)). Qed.

Lemma step_links op g F evs : link_admissible op g = true -> op_typed op -> Z.of_nat (length evs) + 1 < 2 ^ 63 ->
  books_ok g F 0 -> linked g evs -> links_on (gateway_step op g).2 evs.
Proof.
  intros Hadm Ht Hlen Hb Hl. pose proof Hadm as [Hga Hop]%andb_true_iff.
  destruct op as [it|it|sym r now utc acc|sym id now|sym id nq np now|sym id now|id now|sym|sym]; cbn [gateway_step snd] in *.
  - by eapply try_build_links.
  - by apply links_stay, try_replace_links.
  - pose proof (execution_report_links sym r now utc acc g evs Hga Ht Hlen Hl) as Hx.
    by destruct (apply_execution_report sym r now utc acc g) as [[ok ev] g'].
  - apply cancel_report_links; [cbn in Hga; lia|done..].
  - destruct Ht as (? & ? & ?). apply replace_report_links; [cbn in Hga; lia|done..].
  - done.
  - unfold cancel_order. destruct (gw_arena g); [|by apply links_stay]. case_if; [by apply links_stay|].
    destruct (head _) as [sym|] eqn:Eh; [|by apply links_stay]. apply cancel_report_links; [|done..]. apply head_Some_elem_of in Eh.
    apply list_elem_of_filter in Eh as [_ Hin]. apply elem_symbols in Hin. lia.
  - by apply links_stay, halt_links.
  - by apply links_stay, halt_links.
Qed.

Fixpoint link_history_admissible (ops : list gateway_op) g : bool :=
  match ops with
  | [] => true
  | op :: ops => link_admissible op g && link_history_admissible ops (gateway_step op g).2
  end.

Lemma history_links ops g F evs : link_history_admissible ops g = true -> Forall op_typed ops ->
  Z.of_nat (length evs) + Z.of_nat (length ops) < 2 ^ 63 -> books_ok g F 0 -> linked g evs ->
  exists evs', linked (gateway_history ops g).2 evs' /\ Z.of_nat (length evs') < 2 ^ 63.
Proof.
  revert g F evs. induction ops as [|op ops IH]; intros g F evs Hadm Ht Hlen Hb Hl; [exists evs; split; [done|]; cbn in Hlen; lia|].
  cbn [link_history_admissible gateway_history length] in *. apply andb_true_iff in Hadm as [H1 H2]. apply Forall_cons in Ht as [Ht1 Ht2].
  destruct (step_links op g F evs H1 Ht1 ltac:(lia) Hb Hl) as (evs1 & Hl1 & Hext). unfold extends in Hext.
  pose proof (gateway_step_books op g F) as Hbk. specialize (Hbk (proj1 (andb_prop _ _ H1)) Hb).
  destruct (gateway_step op g) as [f g1]. cbn [snd] in *.
  destruct (IH g1 (F ++ f) evs1 H2 Ht2 ltac:(lia) Hbk Hl1) as (evs2 & ? & ?). exists evs2. by destruct (gateway_history ops g1).
Qed.
End link.

(** The recovered orders are the live ones. *)
Definition order_summary (o : ActiveOrder) : Z * Z * Z * Z := (ao_order_id o, ao_qty o, ao_price o, ao_side o).
Definition recovered_summary (r : RecoveredOrder) : Z * Z * Z * Z := (ro_order_id r, ro_remaining r, ro_price r, ro_side r).

Lemma tracks_summary l R : tracks l R -> recovered_summary <$> (map_to_list R).*2 ≡ₚ order_summary <$> l.
Proof.
  revert R. induction l as [|o l IH]; intros R HT.
  - assert (R = ∅) as ->; [|by rewrite map_to_list_empty]. apply map_empty. intros id. destruct (R !! id) as [r|] eqn:Hr; [|done].
    destruct (tr_back _ _ HT id r Hr) as (o & Ho & _). by apply not_elem_of_nil in Ho.
  - destruct (tr_live _ _ HT o ltac:(by left)) as [_ (r & Hr & H1 & H2 & H3 & H4)].
    rewrite (map_values_delete R (ao_order_id o) r Hr), !fmap_cons, (IH _ (tracks_remove _ _ _ HT)).
    unfold recovered_summary, order_summary at 1. by rewrite H1, H2, H3, H4.
Qed.

Lemma init_linked {AJ} `{Journal AJ AuditEvent} capacity rate (audit_log : option AJ) :
  linked capacity (gateway.set_recovery_ledger (Some new_recovery_journal) (gateway.set_audit_log audit_log (gateway.init true ∅ (gateway.fresh rate)).2)) [].
Proof.
  exists ∅, ∅, new_recovery_journal. split; [done| | |done|by split|done].
  - assert (all_live ∅ = []) as ->.
    { unfold all_live. generalize symbols. intros l. induction l as [|x l IH]; [done|]. cbn. rewrite IH. reflexivity. }
    split; [by apply NoDup_nil|by intros o ?%not_elem_of_nil|by intros id r; rewrite lookup_empty].
  - unfold remaining_of. rewrite fmap_empty. apply fresh_ledger_sound.
Qed.

(** C3: the gateway survives a crash.  Run the gateway from initialisation with the
    recovery ledger (to be replayed into more than 32768 entries) on a disk that does not fail, with any audit log, through
    any history of orders, replacements, fills, cancellations, halts and
    resumes with typed arguments, in which client order ids are not shared by
    live orders, execution reports are not about finished orders and no reject
    report arrives (a reject report is not journalled).  Then the file reopens, passes its check, and replaying it
    gives exactly the live orders of the gateway, with their remaining
    quantities, prices and sides - also after complete fills, which leave the
    reconciliation ledger unable to find some orders. *)
Theorem gateway_crash_recovery {AJ} `{Journal AJ AuditEvent} (capacity rate : Z) (audit_log : option AJ) (ops : list gateway_op)
    (Hcap : 32768 < capacity) (Hlen : Z.of_nat (length ops) < 2 ^ 63) (Ht : Forall op_typed ops) :
  let g0 := gateway.set_recovery_ledger (Some new_recovery_journal)
              (gateway.set_audit_log audit_log (gateway.init true ∅ (gateway.fresh rate)).2) in
  forall (Hadm : link_history_admissible ops g0 = true),
  let g := (gateway_history ops g0).2 in
  exists E j, gw_arena g = Some E /\ gw_recovery_ledger g = Some j /\
    let '(opened, L) := Recovery.open (dj_file j) fresh_recovery in
    opened = true /\ (verify_wal_integrity (dj_file j)).1.1 = true /\ (replay capacity (dj_file j) L).1 = true /\
    recovered_summary <$> (replay capacity (dj_file j) L).2 ≡ₚ order_summary <$> all_live E.
Proof.
  intros g0 Hadm g. assert (Hb : books_ok g0 [] 0) by (apply (books_same (gateway.init true ∅ (gateway.fresh rate)).2); [done|apply init_books]).
  destruct (history_links capacity Hcap ops g0 [] [] Hadm Ht Hlen Hb (init_linked capacity rate audit_log)) as (evs & (E & R & j & Hk) & Hevs).
  destruct Hk as [HE HT _ Hj [_ Hf _ Htyped] Hrep]. exists E, j. split; [done|]. split; [done|]. rewrite Hf.
  pose proof (reopen_log capacity evs Htyped Hevs ltac:(lia)) as Hopen. cbv zeta in Hopen.
  destruct (Recovery.open (log_bytes 0 evs) fresh_recovery) as [opened L]. rewrite Hrep in Hopen. destruct Hopen as (Ho & _ & Hv & Hr & Hperm).
  split_and!; [done|by rewrite Hv|done|]. rewrite Hperm. by apply tracks_summary.
Qed.

(** A buy that fills completely, a sell that fills in part and is replaced. *)
Definition crash_history : list gateway_op :=
  [TryBuild (mkIntent 1 0 100 1500000 1000 1000 7 0);
   TryBuild (mkIntent 2 1 40 1510000 1000 1000 8 0);
   ExecReport 1 (mkExecReport 7 100 false) 1100 5000 true;
   ExecReport 2 (mkExecReport 8 10 false) 1100 5000 true;
   ReplaceReport 2 8 25 1520000 1200].

Lemma gateway_crash_recovery_witness :
  let g := (@gateway_history unit _ accepting _ crash_history
              (gateway.set_recovery_ledger (Some new_recovery_journal)
                (gateway.set_audit_log None (gateway.init true ∅ (gateway.fresh 10)).2))).2 in
  exists j L, gw_recovery_ledger g = Some j /\ recovered_summary <$> (replay 40000 (dj_file j) L).2 ≡ₚ [(8, 25, 1520000, 1)].
Proof.
  assert (H := @gateway_crash_recovery unit accepting 40000 10 None crash_history). cbv zeta in H. cbv zeta.
  destruct H as (E & j & HE & Hj & H).
  - lia.
  - vm_compute. reflexivity.
  - repeat (apply Forall_cons; split; [unfold op_typed, in_u, in_s; cbn; lia|]). by apply Forall_nil.
  - vm_compute. reflexivity.
  - exists j, (Recovery.open (dj_file j) fresh_recovery).2. split; [exact Hj|].
    destruct (Recovery.open (dj_file j) fresh_recovery) as [opened L]. destruct H as (_ & _ & _ & ->).
    assert (EE : Some (order_summary <$> all_live E) = Some [(8, 25, 1520000, 1)]); [|by injection EE as ->].
    change (Some (order_summary <$> all_live E)) with ((fun E => order_summary <$> all_live E) <$> Some E). rewrite <- HE.
    vm_compute. reflexivity.
Defined.
