(* ===== verification/StopOrders.v ===== *)
(** * StopOrderTable (luv_execution.hpp): conditional orders routed to the gateway *)
From Stdlib Require Import ZArith Lia ZifyBool.
From S2P Require Import Prelude Config Numeric Guards Reconcile Recovery AuditLog ExecTypes Risk Gateway Accounts Admission GatewayBooks.

(** [StopOrderTable<MaxTriggers>]; the length of the list is [MaxTriggers]. *)
Record StopOrderTable := mkStops {
  st_triggers : list ConditionalOrder;
  st_active_count : Z;                 (* size_t *)
}.

Module stops.
Definition fresh (MaxTriggers : nat) : StopOrderTable := mkStops (replicate MaxTriggers no_conditional) 0.

Definition is_active (t : ConditionalOrder) : bool := negb (co_active t =? 0).

Definition set_active (active : Z) (t : ConditionalOrder) : ConditionalOrder :=
  mkConditional (co_trigger_id t) (co_symbol_idx t) (co_side t) (co_trigger_type t) (co_stop_price t) (co_limit_price t)
    (co_peg_offset t) (co_qty t) (co_client_order_id t) (co_time_in_force t) active.
Definition set_trigger_id (id : Z) (t : ConditionalOrder) : ConditionalOrder :=
  mkConditional id (co_symbol_idx t) (co_side t) (co_trigger_type t) (co_stop_price t) (co_limit_price t)
    (co_peg_offset t) (co_qty t) (co_client_order_id t) (co_time_in_force t) (co_active t).

Definition drop_active (count : Z) : Z := if 0 <? count then count - 1 else count.

Definition register_trigger (order : ConditionalOrder) (t : StopOrderTable) : bool * StopOrderTable :=
  if (co_client_order_id order =? 0) || (co_qty order <=? 0) || (kSymbols <=? co_symbol_idx order) then (false, t)
  else match list_find (fun x => is_active x = false) (st_triggers t) with
  | None => (false, t)
  | Some (i, _) =>
      (true, mkStops (<[i := set_trigger_id (u32 (Z.of_nat i + 1)) (set_active 1 order)]> (st_triggers t)) (u64 (st_active_count t + 1)))
  end.

Definition cancel_trigger (client_order_id : Z) (t : StopOrderTable) : bool * StopOrderTable :=
  if client_order_id =? 0 then (false, t)
  else match list_find (fun x => is_active x && (co_client_order_id x =? client_order_id) = true) (st_triggers t) with
  | None => (false, t)
  | Some (i, x) => (true, mkStops (<[i := set_active 0 x]> (st_triggers t)) (drop_active (st_active_count t)))
  end.

Definition active_count (t : StopOrderTable) : Z := st_active_count t.

Definition get (index : nat) (t : StopOrderTable) : option ConditionalOrder :=
  x ← st_triggers t !! index; if is_active x then Some x else None.

(** Whether a trigger fires at the best bid and offer, and the order's price. *)
Definition fires (best_bid best_ask : Z) (trig : ConditionalOrder) : bool * Z :=
  let order_price := co_limit_price trig in
  match co_trigger_type trig with
  | kStopLoss =>
      if (co_side trig =? exec.kBuy) && (0 <? best_ask) && (co_stop_price trig <=? best_ask) then (true, best_ask)
      else if (co_side trig =? exec.kSell) && (0 <? best_bid) && (best_bid <=? co_stop_price trig) then (true, best_bid)
      else (false, order_price)
  | kStopLimit =>
      if (co_side trig =? exec.kBuy) && (0 <? best_ask) && (co_stop_price trig <=? best_ask)
      then (true, if 0 <? co_limit_price trig then co_limit_price trig else best_ask)
      else if (co_side trig =? exec.kSell) && (0 <? best_bid) && (best_bid <=? co_stop_price trig)
      then (true, if 0 <? co_limit_price trig then co_limit_price trig else best_bid)
      else (false, order_price)
  | kPeggedBid => if 0 <? best_bid then (true, s64 (best_bid + co_peg_offset trig)) else (false, order_price)
  | kPeggedAsk => if 0 <? best_ask then (true, s64 (best_ask + co_peg_offset trig)) else (false, order_price)
  | kPeggedMid =>
      if (0 <? best_bid) && (0 <? best_ask) then (true, s64 (Z.quot (s64 (best_bid + best_ask)) 2 + co_peg_offset trig))
      else (false, order_price)
  end.

Definition intent_of (trig : ConditionalOrder) (order_price now_ns : Z) : OrderIntent :=
  mkIntent (co_symbol_idx trig) (co_side trig) (co_qty trig) order_price now_ns now_ns (co_client_order_id trig) (co_time_in_force trig).

Section ops.
Context {AJ RJ : Type} `{Journal AJ AuditEvent} `{Journal RJ RecoveryEvent}.
Abbreviation Gateway := (ExecutionGateway AJ RJ).

(** The scan of [evaluate_bbo]: the triggers still to visit, the packets still
    free in [out_packets], and the number routed.  Returns the visited part of
    the table, the count, the packets, the gateway and the number routed. *)
Fixpoint evaluate_loop (symbol best_bid best_ask now_ns : Z) (trigs : list ConditionalOrder) (count : Z) (free : list OutboundPacket)
    (g : Gateway) (routed : Z) : list ConditionalOrder * Z * list OutboundPacket * Gateway * Z :=
  match trigs, free with
  | [], _ | _, [] => (trigs, count, free, g, routed)
  | trig :: trigs, out :: free' =>
      let skip := let '(ts, c, ps, g, r) := evaluate_loop symbol best_bid best_ask now_ns trigs count free g routed in
                  (trig :: ts, c, ps, g, r) in
      if negb (is_active trig) || negb (co_symbol_idx trig =? symbol) then skip
      else
        let '(triggered, order_price) := fires best_bid best_ask trig in
        if negb (triggered && (0 <? order_price)) then skip
        else
          let '(decision, out', g) := gateway.try_build (intent_of trig order_price now_ns) out g in
          if rd_pass decision =? 0 then
            let '(ts, c, ps, g, r) := evaluate_loop symbol best_bid best_ask now_ns trigs count (out' :: free') g routed in
            (trig :: ts, c, ps, g, r)
          else
            let '(ts, c, ps, g, r) := evaluate_loop symbol best_bid best_ask now_ns trigs (drop_active count) free' g (routed + 1) in
            (set_active 0 trig :: ts, c, out' :: ps, g, r)
  end.

(** [out_packets] is [None] for a null pointer; its length is [max_packets]. *)
Definition evaluate_bbo (symbol best_bid best_ask now_ns : Z) (g : Gateway) (out_packets : option (list OutboundPacket)) (t : StopOrderTable) :
    Z * Gateway * option (list OutboundPacket) * StopOrderTable :=
  match out_packets with
  | None => (0, g, None, t)
  | Some packets =>
      if (kSymbols <=? symbol) || (st_active_count t =? 0) || (Z.of_nat (length packets) =? 0) then (0, g, Some packets, t)
      else
        let '(trigs, count, packets, g, routed) := evaluate_loop symbol best_bid best_ask now_ns (st_triggers t) (st_active_count t) packets g 0 in
        (routed, g, Some packets, mkStops trigs count)
  end.
End ops.
End stops.

(** ** Specification *)

(** What an armed trigger is to do, told without the code.

    The quote an order of a side is executed against: the offer for a buyer, the
    bid for a seller; a quote that is not positive is none. *)
Definition shown (q : Z) : option Z := if decide (0 < q) then Some q else None.
Definition quote_against (side best_bid best_ask : Z) : option Z :=
  if decide (side = exec.kBuy) then shown best_ask else if decide (side = exec.kSell) then shown best_bid else None.

(** The market has moved through the stop price: up for a buyer, down for a
    seller. *)
Definition through_stop (t : ConditionalOrder) (q : Z) : Prop :=
  (co_side t = exec.kBuy /\ co_stop_price t <= q) \/ (co_side t = exec.kSell /\ q <= co_stop_price t).
#[export] Instance through_stop_dec t q : Decision (through_stop t q).
Proof. unfold through_stop. apply _. Defined.

(** The quote that sets a stop order off. *)
Definition stop_quote (best_bid best_ask : Z) (t : ConditionalOrder) : option Z :=
  q ← quote_against (co_side t) best_bid best_ask; if decide (through_stop t q) then Some q else None.

(** The price of the order a trigger sends now: a stop loss at the quote, a stop
    limit at its limit if it has one, a pegged order at its offset (added as
    64-bit integers) from the quote or the midpoint it follows. *)
Definition trigger_price (best_bid best_ask : Z) (t : ConditionalOrder) : option Z :=
  match co_trigger_type t with
  | kStopLoss => stop_quote best_bid best_ask t
  | kStopLimit => (fun q => if decide (0 < co_limit_price t) then co_limit_price t else q) <$> stop_quote best_bid best_ask t
  | kPeggedBid => bid ← shown best_bid; Some (s64 (bid + co_peg_offset t))
  | kPeggedAsk => ask ← shown best_ask; Some (s64 (ask + co_peg_offset t))
  | kPeggedMid => bid ← shown best_bid; ask ← shown best_ask; Some (s64 (Z.quot (s64 (bid + ask)) 2 + co_peg_offset t))
  end.

(** The order that a trigger of the symbol has to send now: its own side,
    quantity, client order id and time in force, at a positive price. *)
Definition due_order (symbol best_bid best_ask now_ns : Z) (t : ConditionalOrder) : option OrderIntent :=
  if decide (co_active t <> 0 /\ co_symbol_idx t = symbol) then
    price ← trigger_price best_bid best_ask t;
    if decide (0 < price) then
      Some {| oi_symbol_idx := symbol; oi_side := co_side t; oi_qty := co_qty t; oi_price := price; oi_alpha_timestamp_ns := now_ns; oi_now_ns := now_ns;
              oi_client_order_id := co_client_order_id t; oi_time_in_force := co_time_in_force t |}
    else None
  else None.

Fixpoint due_from (symbol best_bid best_ask now_ns : Z) (k : nat) (l : list ConditionalOrder) : list (nat * OrderIntent) :=
  match l with
  | [] => []
  | t :: l =>
      match due_order symbol best_bid best_ask now_ns t with Some it => [(k, it)] | None => [] end ++
      due_from symbol best_bid best_ask now_ns (S k) l
  end.

(** A trigger that has done its work, and the triggers with those at the given
    positions disarmed. *)
Definition disarmed (t : ConditionalOrder) : ConditionalOrder :=
  {| co_trigger_id := co_trigger_id t; co_symbol_idx := co_symbol_idx t; co_side := co_side t; co_trigger_type := co_trigger_type t; co_stop_price := co_stop_price t;
     co_limit_price := co_limit_price t; co_peg_offset := co_peg_offset t; co_qty := co_qty t; co_client_order_id := co_client_order_id t;
     co_time_in_force := co_time_in_force t; co_active := 0 |}.
Fixpoint close_from (closed : list nat) (k : nat) (l : list ConditionalOrder) : list ConditionalOrder :=
  match l with
  | [] => []
  | t :: l => (if bool_decide (k ∈ closed) then disarmed t else t) :: close_from closed (S k) l
  end.

Definition active_triggers (l : list ConditionalOrder) : list ConditionalOrder := filter (fun t => stops.is_active t = true) l.
Definition active_total (l : list ConditionalOrder) : Z := Z.of_nat (length (active_triggers l)).

(** What the table says of the trigger in slot [i]. *)
Record slot_ok (i : nat) (t : ConditionalOrder) : Prop := {
  sl_id : co_trigger_id t = Z.of_nat i + 1;
  sl_order : co_client_order_id t <> 0;
  sl_qty : 0 < co_qty t;
  sl_symbol : co_symbol_idx t < kSymbols;
}.

Record stops_ok (t : StopOrderTable) : Prop := {
  so_size : Z.of_nat (length (st_triggers t)) < 2 ^ 32;
  so_count : st_active_count t = active_total (st_triggers t);
  so_slots i x : st_triggers t !! i = Some x -> stops.is_active x = true -> slot_ok i x;
}.

Section spec.
Context {AJ RJ : Type} `{Journal AJ AuditEvent} `{Journal RJ RecoveryEvent}.
Abbreviation Gateway := (ExecutionGateway AJ RJ).
Implicit Types g : Gateway.

(** Sends the orders to the gateway in turn; the positions it accepts. *)
Fixpoint attempt (tries : list (nat * OrderIntent)) g : list nat * Gateway :=
  match tries with
  | [] => ([], g)
  | (i, it) :: tries =>
      let '(decision, _, g) := gateway.try_build it empty_packet g in
      let '(accepted, g) := attempt tries g in
      (if rd_pass decision =? 0 then accepted else i :: accepted, g)
  end.
End spec.

(** ** The table *)
Lemma length_filter_seq {A} (p : A -> bool) (q : nat -> Prop) `{forall i, Decision (q i)} (l : list A) k :
  (forall i x, l !! i = Some x -> q (k + i)%nat <-> p x = true) -> length (filter q (seq k (length l))) = length (filter (fun x => p x = true) l).
Proof.
  revert k. induction l as [|x l IH]; intros k Hq; [done|]. cbn [length seq]. rewrite !filter_cons.
  specialize (IH (S k)). pose proof (Hq 0%nat x eq_refl) as H0. rewrite Nat.add_0_r in H0.
  assert (E : length (filter q (seq (S k) (length l))) = length (filter (fun x => p x = true) l)).
  { apply IH. intros i y Hi. rewrite Nat.add_succ_comm. by apply Hq. }
  destruct (decide (q k)), (decide (p x = true)); cbn [length]; rewrite ?E; tauto.
Qed.
Lemma active_total_insert l i x y : l !! i = Some x ->
  active_total (<[i := y]> l) = active_total l - bit (stops.is_active x) + bit (stops.is_active y).
Proof.
  assert (E : forall l, active_total l = zsum ((fun t => bit (stops.is_active t)) <$> l)).
  { clear. induction l as [|t l IH]; [done|]. unfold active_total, active_triggers in *. rewrite filter_cons, fmap_cons.
    cbn [zsum foldr]. fold (zsum ((fun t => bit (stops.is_active t)) <$> l)). rewrite <- IH.
    destruct (stops.is_active t); simpl; lia. }
  intros Hi. rewrite !E, list_fmap_insert. apply zsum_insert. by rewrite list_lookup_fmap, Hi.
Qed.

Lemma active_total_range l : 0 <= active_total l <= Z.of_nat (length l).
Proof. unfold active_total, active_triggers. pose proof (length_filter (fun t => stops.is_active t = true) l). lia. Qed.

Lemma stops_fresh n : Z.of_nat n < 2 ^ 32 -> stops_ok (stops.fresh n).
Proof.
  intros Hn. split; cbn.
  - by rewrite length_replicate.
  - unfold active_total, active_triggers. clear Hn. induction n; [done|]. cbn [replicate]. by rewrite filter_cons_False.
  - intros i x [-> _]%lookup_replicate. done.
Qed.

Lemma register_ok order t : stops_ok t -> stops_ok (stops.register_trigger order t).2.
Proof.
  intros Hok. unfold stops.register_trigger. destruct (_ || _) eqn:Hg; [done|]. destruct (list_find _ _) as [[i x]|] eqn:Ef; [|done].
  apply list_find_Some in Ef as (Hi & Hx & _). destruct Hok as [Hs Hc Hsl]. pose proof (lookup_lt_Some _ _ _ Hi) as Hlt.
  apply orb_false_iff in Hg as [[Hg1 Hg2]%orb_false_iff Hg3]. pose proof (active_total_range (st_triggers t)).
  split; cbn [st_triggers st_active_count snd].
  - by rewrite length_insert.
  - rewrite (active_total_insert _ _ _ _ Hi), Hx, Hc. change (bit false) with 0. cbn. rewrite Z.sub_0_r. apply wrap_u_id. unfold in_u. lia.
  - intros j y Hj Hy. apply list_lookup_insert_Some in Hj as [(-> & <- & _)|(Hne & Hj)]; [|by apply Hsl].
    split; cbn; [rewrite wrap_u_id by (unfold in_u; lia); done|lia..].
Qed.

Lemma close_slot_ok t i x : stops_ok t -> st_triggers t !! i = Some x -> stops.is_active x = true ->
  stops_ok (mkStops (<[i := stops.set_active 0 x]> (st_triggers t)) (stops.drop_active (st_active_count t))).
Proof.
  intros [Hs Hc Hsl] Hi Hx. pose proof (active_total_insert _ _ _ (stops.set_active 0 x) Hi) as Ht. rewrite Hx in Ht. cbn in Ht. pose proof (active_total_range (<[i := stops.set_active 0 x]> (st_triggers t))).
  split; cbn [st_triggers st_active_count]; [by rewrite length_insert| |].
  - unfold stops.drop_active. rewrite Ht in *. destruct (Z.ltb_spec 0 (st_active_count t)); lia.
  - intros j y Hj Hy. apply list_lookup_insert_Some in Hj as [(-> & <- & _)|(Hne & Hj)]; [done|by apply Hsl].
Qed.

Lemma cancel_ok id t : stops_ok t -> stops_ok (stops.cancel_trigger id t).2.
Proof.
  intros Hok. unfold stops.cancel_trigger. case_if; [done|]. destruct (list_find _ _) as [[i x]|] eqn:Ef; [|done].
  apply list_find_Some in Ef as (Hi & [Hx _]%andb_true_iff & _). by apply close_slot_ok.
Qed.

(** ** Routing *)
Section routing.
Context {AJ RJ : Type} `{Journal AJ AuditEvent} `{Journal RJ RecoveryEvent}.
Abbreviation Gateway := (ExecutionGateway AJ RJ).
Implicit Types (g : Gateway) (it : OrderIntent) (pk : OutboundPacket).
Import gateway.

(** The buffer handed to the gateway does not influence what the gateway does. *)
Definition same_outcome (x y : RiskDecision * OutboundPacket * Gateway) : Prop := x.1.1 = y.1.1 /\ x.2 = y.2.

Lemma build_enter_flag t it pk pk' : (packets.build_enter_order t it pk).1 = (packets.build_enter_order t it pk').1.
Proof. unfold packets.build_enter_order. by case_if. Qed.

Lemma admit_outcome E it d pk pk' g : same_outcome (admit_order E it d pk g) (admit_order E it d pk' g).
Proof.
  unfold admit_order. destruct (ledger_register _ _ _) as [[] L]; cbn [negb]; [|done].
  destruct (reserve_order_slot _ _) as [[] s]; cbn [negb]; [|done]. destruct (audit _ _) as [[] ?]; done.
Qed.

Lemma journal_outcome it d pk pk' g : same_outcome (journal_admission it d pk g) (journal_admission it d pk' g).
Proof. unfold journal_admission. case_if; [done|]. destruct (recover _ _) as [[] ?]; done. Qed.

Lemma admission_outcome E it d pk pk' g :
  same_outcome (let '(d, pk, g) := admit_order E it d pk g in journal_admission it d pk g)
               (let '(d, pk, g) := admit_order E it d pk' g in journal_admission it d pk g).
Proof.
  pose proof (admit_outcome E it d pk pk' g) as Ha. destruct (admit_order E it d pk g) as [[d1 p1] g1], (admit_order E it d pk' g) as [[d2 p2] g2].
  destruct Ha as [Hd Hg]. cbn in Hd, Hg. subst. apply journal_outcome.
Qed.

Lemma try_build_outcome it pk pk' g : same_outcome (try_build it pk g) (try_build it pk' g).
Proof.
  unfold try_build. destruct (gw_arena g) as [E|]; [|done]. case_if; [done|]. destruct (breaker.allow _ _) as [[] b]; cbn [negb]; [|done].
  destruct (acquire_permit _) as [[] g1]; cbn [negb]; [|done]. cbv zeta. case_if; [done|]. case_if; [done|].
  match goal with |- context [if ?c =? 0 then (false, _) else _] => destruct (c =? 0) end.
  - case_if; [done|apply admission_outcome].
  - pose proof (build_enter_flag (gw_ouch g1) it (set_len 0 pk) (set_len 0 pk')) as Hb.
    destruct (packets.build_enter_order _ _ (set_len 0 pk)) as [built p], (packets.build_enter_order _ _ (set_len 0 pk')) as [built' p'].
    cbn in Hb. subst built'. case_if; [done|apply admission_outcome].
Qed.

(** An accepted order has its packet: 48 bytes. *)
Lemma admit_passes E it d pk g d' pk' g' : admit_order E it d pk g = (d', pk', g') -> rd_pass d' <> 0 -> d' = d /\ pk' = pk.
Proof.
  unfold admit_order. destruct (ledger_register _ _ _) as [[] L]; cbn [negb]; [|by intros [= <- <- <-]].
  destruct (reserve_order_slot _ _) as [[] s]; cbn [negb]; [|by intros [= <- <- <-]]. destruct (audit _ _) as [[] ?]; by intros [= <- <- <-].
Qed.

Lemma journal_passes it d pk g d' pk' g' : journal_admission it d pk g = (d', pk', g') -> rd_pass d' <> 0 -> d' = d /\ pk' = pk.
Proof.
  unfold journal_admission. case_if; [by intros [= <- <- <-]|]. destruct (recover _ _) as [[] ?]; by intros [= <- <- <-].
Qed.

Lemma accepted_packet it pk g d pk' g' : try_build it pk g = (d, pk', g') -> rd_pass d <> 0 -> op_len pk' = 48.
Proof.
  unfold try_build. destruct (gw_arena g) as [E|]; [|by intros [= <- <- <-]]. case_if; [by intros [= <- <- <-]|].
  destruct (breaker.allow _ _) as [[] b]; cbn [negb]; [|by intros [= <- <- <-]].
  destruct (acquire_permit _) as [[] g1]; cbn [negb]; [|by intros [= <- <- <-]]. cbv zeta.
  destruct (evaluate_pass (gw_risk g1) E it) as (b0 & Hb0 & _). rewrite Hb0.
  destruct b0; cbn [bit Z.eqb]; [|by intros [= <- <- <-]]. destruct (_ <? kMaxActiveOrders); cbn [bit Z.eqb]; [|by intros [= <- <- <-]].
  cbn [rd_pass]. change (Z.land 1 1 =? 0) with false. cbv iota. destruct (packets.build_enter_order _ _ _) as [built p] eqn:Eb.
  destruct built; cbn [bit Z.eqb]; [|by intros [= <- <- <-]]. change (Z.land (Z.land 1 1) 1 =? 0) with false. cbv iota.
  apply build_enter_len in Eb. destruct (admit_order _ _ _ _ _) as [[d1 p1] g2] eqn:Ea. intros Hj Hd.
  destruct (journal_passes _ _ _ _ _ _ _ Hj Hd) as [-> ->]. destruct (admit_passes _ _ _ _ _ _ _ _ Ea Hd) as [-> ->].
  cbn [op_len set_len]. by rewrite Eb.
Qed.
End routing.

(** ** The scan *)
Lemma due_from_index symbol bb ba now k l i it : (i, it) ∈ due_from symbol bb ba now k l -> (k <= i)%nat.
Proof.
  revert k. induction l as [|t l IH]; intros k; [by intros ?%not_elem_of_nil|]. cbn [due_from]. intros [Hin|Hin]%elem_of_app.
  - destruct (due_order _ _ _ _ t); [|by apply not_elem_of_nil in Hin]. apply list_elem_of_singleton in Hin. by injection Hin as -> ->.
  - apply IH in Hin. lia.
Qed.

Lemma close_from_ext c c' k l : (forall i, (k <= i)%nat -> i ∈ c <-> i ∈ c') -> close_from c k l = close_from c' k l.
Proof.
  revert k. induction l as [|t l IH]; intros k Hc; [done|]. cbn [close_from].
  rewrite (bool_decide_ext (k ∈ c) (k ∈ c')) by (apply Hc; lia). rewrite (IH (S k)); [done|]. intros i Hi. apply Hc. lia.
Qed.

Lemma close_from_none k l : close_from [] k l = l.
Proof. revert k. induction l as [|t l IH]; intros k; [done|]. cbn [close_from]. by rewrite IH, bool_decide_eq_false_2 by apply not_elem_of_nil. Qed.

Lemma close_from_lookup c k l i x : close_from c k l !! i = Some x ->
  exists y, l !! i = Some y /\ x = if bool_decide ((k + i)%nat ∈ c) then disarmed y else y.
Proof.
  revert k i. induction l as [|t l IH]; intros k i Hi; [done|]. destruct i as [|i]; cbn [close_from] in Hi.
  - injection Hi as <-. exists t. by rewrite Nat.add_0_r.
  - destruct (IH (S k) i Hi) as (y & ? & ->). exists y. by rewrite Nat.add_succ_comm.
Qed.

Lemma close_from_length c k l : length (close_from c k l) = length l.
Proof. revert k. induction l as [|t l IH]; intros k; [done|]. cbn [close_from length]. by rewrite IH. Qed.

Lemma active_total_cons t l : active_total (t :: l) = bit (stops.is_active t) + active_total l.
Proof. unfold active_total, active_triggers. rewrite filter_cons. destruct (stops.is_active t); simpl; lia. Qed.

Section scan.
Context {AJ RJ : Type} `{Journal AJ AuditEvent} `{Journal RJ RecoveryEvent}.
Abbreviation Gateway := (ExecutionGateway AJ RJ).
Implicit Types (g : Gateway) (tries : list (nat * OrderIntent)).

Lemma attempt_index tries g i : i ∈ (attempt tries g).1 -> i ∈ tries.*1.
Proof.
  revert g. induction tries as [|[j it] tries IH]; intros g; [done|]. cbn [attempt fmap list_fmap fst].
  destruct (gateway.try_build it empty_packet g) as [[d p] g1]. specialize (IH g1). destruct (attempt tries g1) as [acc g2]. cbn [fst] in *.
  case_if; [by right; apply IH|]. intros [->|Hi]%elem_of_cons; [by left|right; by apply IH].
Qed.

Lemma attempt_sublist tries g : (attempt tries g).1 `sublist_of` tries.*1.
Proof.
  revert g. induction tries as [|[j it] tries IH]; intros g; [done|]. cbn [attempt fmap list_fmap fst].
  destruct (gateway.try_build it empty_packet g) as [[d p] g1]. specialize (IH g1). destruct (attempt tries g1) as [acc g2]. cbn [fst] in *.
  case_if; by constructor.
Qed.

(** The attempts are calls of the gateway's history. *)
Lemma attempt_history tries g : (attempt tries g).2 = (gateway_history (TryBuild <$> tries.*2) g).2.
Proof.
  revert g. induction tries as [|[j it] tries IH]; intros g; [done|]. cbn [attempt fmap list_fmap snd gateway_history gateway_step].
  destruct (gateway.try_build it empty_packet g) as [[d p] g1]. cbn [snd]. specialize (IH g1). unfold fmap in IH.
  destruct (attempt tries g1) as [acc g2], (gateway_history _ g1) as [F g3]. cbn [snd] in *. by rewrite IH.
Qed.

Context (symbol bb ba now : Z).
Abbreviation due := (due_from symbol bb ba now).

(** What the rest of the scan does, from slot [k] on. *)
Definition scanned k l (count : Z) (free : list OutboundPacket) g routed
    (out : list ConditionalOrder * Z * list OutboundPacket * Gateway * Z) : Prop :=
  let '(ts, c, ps, g', r) := out in
  exists tried rest, due k l = tried ++ rest /\
    let '(accepted, g2) := attempt tried g in
    g' = g2 /\ ts = close_from accepted k l /\ r = routed + Z.of_nat (length accepted) /\
    c = count - Z.of_nat (length accepted) /\ active_total ts = active_total l - Z.of_nat (length accepted) /\
    length ps = length free /\ (length accepted <= length free)%nat /\ Forall (fun p => op_len p = 48) (take (length accepted) ps) /\
    (rest = [] \/ length accepted = length free).

(** The scan's condition and price are those of the specification. *)
Lemma fires_price t : trigger_price bb ba t = let '(triggered, price) := stops.fires bb ba t in if triggered then Some price else None.
Proof.
  unfold trigger_price, stops.fires, stop_quote, quote_against, through_stop, shown, exec.kBuy, exec.kSell. destruct (co_trigger_type t).
  1, 2: destruct (Z.eqb_spec (co_side t) 0), (Z.eqb_spec (co_side t) 1), (Z.ltb_spec 0 ba), (Z.ltb_spec 0 bb), (Z.leb_spec (co_stop_price t) ba), (Z.leb_spec bb (co_stop_price t)),
      (Z.ltb_spec 0 (co_limit_price t)); try lia; cbn [andb]; repeat case_decide; try lia; cbn [mbind option_bind fmap option_fmap option_map]; repeat case_decide; done || lia.
  all: destruct (Z.ltb_spec 0 ba), (Z.ltb_spec 0 bb); cbn [andb]; repeat case_decide; try lia; done.
Qed.

Lemma due_of t : due_order symbol bb ba now t =
  if negb (stops.is_active t) || negb (co_symbol_idx t =? symbol) then None
  else let '(triggered, price) := stops.fires bb ba t in
       if negb (triggered && (0 <? price)) then None else Some (stops.intent_of t price now).
Proof.
  unfold due_order, stops.is_active. rewrite negb_involutive. pose proof (fires_price t) as Hf. destruct (stops.fires bb ba t) as [tr p]. rewrite Hf. clear Hf.
  destruct (Z.eqb_spec (co_active t) 0), (Z.eqb_spec (co_symbol_idx t) symbol) as [Es|]; cbn [negb orb];
    [rewrite decide_False by tauto; done..| |rewrite decide_False by tauto; done]. rewrite decide_True by done.
  destruct tr; cbn [andb mbind option_bind]; [|done]. destruct (Z.ltb_spec 0 p); cbn [negb]; [rewrite decide_True by done|by rewrite decide_False by lia].
  unfold stops.intent_of. by rewrite Es.
Qed.

(** The positions accepted further on do not include this one. *)
Lemma tried_not_in tried rest k l g : due (S k) l = tried ++ rest -> k ∉ (attempt tried g).1.
Proof.
  intros Hdue Hin%attempt_index. apply list_elem_of_fmap in Hin as ([i it] & -> & Hin).
  assert (Hi : (i, it) ∈ due (S i) l) by (cbn in Hdue; rewrite Hdue; set_solver). apply due_from_index in Hi. lia.
Qed.

Lemma scanned_skip k t l count free g routed out : due_order symbol bb ba now t = None ->
  scanned (S k) l count free g routed out ->
  scanned k (t :: l) count free g routed (let '(ts, c, ps, g, r) := out in (t :: ts, c, ps, g, r)).
Proof.
  destruct out as [[[[ts c] ps] g'] r]. intros Hd (tried & rest & Hdue & Hs). exists tried, rest. cbn [due_from]. rewrite Hd. split; [done|].
  pose proof (tried_not_in tried rest k l g Hdue) as Hk. destruct (attempt tried g) as [acc g2]. destruct Hs as (-> & -> & -> & -> & Ht & Hlen & Hle & Hf & Hr).
  cbn [close_from]. rewrite bool_decide_eq_false_2 by done. rewrite !active_total_cons, Ht. split_and!; done || lia.
Qed.

Lemma scanned_refused k t l count free' o o' g g1 routed out it d : due_order symbol bb ba now t = Some it ->
  gateway.try_build it o g = (d, o', g1) -> rd_pass d = 0 ->
  scanned (S k) l count (o' :: free') g1 routed out ->
  scanned k (t :: l) count (o :: free') g routed (let '(ts, c, ps, g, r) := out in (t :: ts, c, ps, g, r)).
Proof.
  destruct out as [[[[ts c] ps] g'] r]. intros Hd Hb Hp (tried & rest & Hdue & Hs). exists ((k, it) :: tried), rest. cbn [due_from]. rewrite Hd, Hdue.
  split; [done|]. cbn [attempt]. pose proof (try_build_outcome it o empty_packet g) as Ho. rewrite Hb in Ho.
  destruct (gateway.try_build it empty_packet g) as [[d1 p1] g3]. destruct Ho as [Hod Hog]. cbn in Hod, Hog. subst d1 g3. rewrite Hp.
  pose proof (tried_not_in tried rest k l g1 Hdue) as Hk. destruct (attempt tried g1) as [acc g2].
  destruct Hs as (-> & -> & -> & -> & Ht & Hlen & Hle & Hf & Hr). cbn [Z.eqb close_from]. rewrite bool_decide_eq_false_2 by done.
  rewrite !active_total_cons, Ht. cbn [length] in *. split_and!; done || lia.
Qed.

Lemma scanned_accepted k t l count free' o o' g g1 routed out it d : due_order symbol bb ba now t = Some it ->
  gateway.try_build it o g = (d, o', g1) -> rd_pass d <> 0 -> stops.is_active t = true -> 0 < count ->
  scanned (S k) l (stops.drop_active count) free' g1 (routed + 1) out ->
  scanned k (t :: l) count (o :: free') g routed (let '(ts, c, ps, g, r) := out in (stops.set_active 0 t :: ts, c, o' :: ps, g, r)).
Proof.
  destruct out as [[[[ts c] ps] g'] r]. intros Hd Hb Hp Hact Hcnt (tried & rest & Hdue & Hs). exists ((k, it) :: tried), rest. cbn [due_from]. rewrite Hd, Hdue.
  split; [done|]. cbn [attempt]. pose proof (try_build_outcome it o empty_packet g) as Ho. rewrite Hb in Ho.
  pose proof (accepted_packet _ _ _ _ _ _ Hb Hp) as Hlen48.
  destruct (gateway.try_build it empty_packet g) as [[d1 p1] g3]. destruct Ho as [Hod Hog]. cbn in Hod, Hog. subst d1 g3.
  destruct (Z.eqb_spec (rd_pass d) 0); [done|]. destruct (attempt tried g1) as [acc g2].
  destruct Hs as (-> & -> & -> & -> & Ht & Hlen & Hle & Hf & Hr). unfold stops.drop_active. destruct (Z.ltb_spec 0 count); [|lia].
  cbn [close_from length take]. rewrite bool_decide_eq_true_2 by by left.
  rewrite (close_from_ext (k :: acc) acc) by (intros i Hi; rewrite elem_of_cons; split; [intros [->|?]; [lia|done]|by right]).
  rewrite !active_total_cons, Ht, Hact. change (stops.is_active (stops.set_active 0 t)) with false. cbn [bit length].
  split_and!; try done; try lia; [by constructor|]. destruct Hr as [->|Hr]; [by left|right; lia].
Qed.

Lemma scan_spec l : forall k count free g routed, active_total l <= count ->
  scanned k l count free g routed (stops.evaluate_loop symbol bb ba now l count free g routed).
Proof.
  induction l as [|t l IH]; intros k count free g routed Hc.
  - exists [], []. cbn. split; [done|]. split_and!; [done|done|lia|lia|done|done|lia|constructor|by left].
  - destruct free as [|o free'].
    { exists [], (due k (t :: l)). cbn [stops.evaluate_loop attempt]. split; [done|]. rewrite close_from_none. cbn [length take].
      split_and!; [done|done|lia|lia|lia|done|lia|constructor|by right]. }
    pose proof (active_total_cons t l) as Hat. pose proof (active_total_range l). cbn [stops.evaluate_loop].
    pose proof (due_of t) as Hdue. destruct (_ || _) eqn:Hg.
    { apply scanned_skip; [done|]. apply IH. destruct (stops.is_active t); cbn [bit] in Hat; lia. }
    apply orb_false_iff in Hg as [Hact _]. apply negb_false_iff in Hact. rewrite Hact in Hat. cbn [bit] in Hat.
    destruct (stops.fires bb ba t) as [tr price]. destruct (negb _).
    { apply scanned_skip; [done|]. apply IH. lia. }
    destruct (gateway.try_build _ o g) as [[d o'] g1] eqn:Eb. destruct (Z.eqb_spec (rd_pass d) 0).
    + eapply scanned_refused; [done..|]. apply IH. lia.
    + eapply scanned_accepted; [done..|lia|]. apply IH. unfold stops.drop_active. destruct (Z.ltb_spec 0 count); lia.
Qed.
End scan.

(** ** Histories of the table *)
Inductive stop_op :=
  | RegisterTrigger (order : ConditionalOrder)
  | CancelTrigger (client_order_id : Z)
  | EvaluateBbo (symbol best_bid best_ask now_ns : Z) (max_packets : nat).

Section history.
Context {AJ RJ : Type} `{Journal AJ AuditEvent} `{Journal RJ RecoveryEvent}.
Abbreviation Gateway := (ExecutionGateway AJ RJ).
Implicit Types g : Gateway.

Definition stop_step (st : Gateway * StopOrderTable) (op : stop_op) : Gateway * StopOrderTable :=
  let '(g, t) := st in
  match op with
  | RegisterTrigger order => (g, (stops.register_trigger order t).2)
  | CancelTrigger id => (g, (stops.cancel_trigger id t).2)
  | EvaluateBbo symbol bb ba now n =>
      let '(_, g, _, t) := stops.evaluate_bbo symbol bb ba now g (Some (replicate n empty_packet)) t in (g, t)
  end.

Definition stop_history (n : nat) (ops : list stop_op) g : Gateway * StopOrderTable := foldl stop_step (g, stops.fresh n) ops.

(** One evaluation, for a table whose counter is right. *)
Definition evaluation_exact symbol bb ba now g (packets : list OutboundPacket) t : Prop :=
  let '(routed, g', packets', t') := stops.evaluate_bbo symbol bb ba now g (Some packets) t in
  exists tried rest, due_from symbol bb ba now 0 (st_triggers t) = tried ++ rest /\
    let '(accepted, g2) := attempt tried g in
    g' = g2 /\ st_triggers t' = close_from accepted 0 (st_triggers t) /\ routed = Z.of_nat (length accepted) /\
    (exists ps, packets' = Some ps /\ length ps = length packets /\ Forall (fun p => op_len p = 48) (take (length accepted) ps)) /\
    routed <= Z.of_nat (length packets) /\ (rest = [] \/ routed = Z.of_nat (length packets)) /\
    stops.active_count t' = stops.active_count t - routed.

Lemma no_due symbol bb ba now k l : active_total l = 0 -> due_from symbol bb ba now k l = [].
Proof.
  revert k. induction l as [|t l IH]; intros k Ht; [done|]. rewrite active_total_cons in Ht. pose proof (active_total_range l).
  cbn [due_from]. rewrite due_of. destruct (stops.is_active t); cbn [bit negb orb] in *; [lia|]. apply IH. lia.
Qed.

Lemma evaluation_correct symbol bb ba now g packets t : stops_ok t -> symbol < kSymbols -> evaluation_exact symbol bb ba now g packets t.
Proof.
  intros [Hs Hc Hsl] Hsym. unfold evaluation_exact, stops.evaluate_bbo. destruct (Z.leb_spec kSymbols symbol); [lia|]. cbn [orb].
  destruct (_ || _) eqn:Hg.
  - exists [], (due_from symbol bb ba now 0 (st_triggers t)). split; [done|]. cbn [attempt]. rewrite close_from_none. cbn [length take].
    assert (Hor : due_from symbol bb ba now 0 (st_triggers t) = [] \/ 0 = Z.of_nat (length packets)).
    { apply orb_true_iff in Hg as [Hz|Hz]; [left; apply no_due; lia|right; lia]. }
    split_and!; [done|done|done|by exists packets|lia|done|lia].
  - pose proof (scan_spec symbol bb ba now (st_triggers t) 0 (st_active_count t) packets g 0 ltac:(lia)) as Hscan.
    destruct (stops.evaluate_loop _ _ _ _ _ _ _ _ _) as [[[[ts c] ps] g'] r]. destruct Hscan as (tried & rest & Hdue & Hsc).
    exists tried, rest. split; [done|]. destruct (attempt tried g) as [acc g2]. destruct Hsc as (-> & -> & -> & -> & Ht & Hlen & Hle & Hf & Hr).
    split_and!; [done|done|lia|by exists ps|lia|destruct Hr; [by left|right; lia]|unfold stops.active_count; cbn; lia].
Qed.

Lemma evaluate_ok symbol bb ba now g packets t : stops_ok t -> stops_ok (stops.evaluate_bbo symbol bb ba now g (Some packets) t).2.
Proof.
  intros Hok. unfold stops.evaluate_bbo. destruct (_ || _); [done|]. destruct Hok as [Hs Hc Hsl].
  pose proof (scan_spec symbol bb ba now (st_triggers t) 0 (st_active_count t) packets g 0 ltac:(lia)) as Hscan.
  destruct (stops.evaluate_loop _ _ _ _ _ _ _ _ _) as [[[[ts c] ps] g'] r]. destruct Hscan as (tried & rest & Hdue & Hsc).
  destruct (attempt tried g) as [acc g2]. destruct Hsc as (-> & -> & -> & -> & Ht & _). split; cbn [st_triggers st_active_count snd].
  - by rewrite close_from_length.
  - lia.
  - intros i x Hi Hx. apply close_from_lookup in Hi as (y & Hi & ->). case_bool_decide; [done|]. by apply Hsl.
Qed.

Lemma evaluate_history symbol bb ba now g packets t : stops_ok t ->
  exists its, (stops.evaluate_bbo symbol bb ba now g (Some packets) t).1.1.2 = (gateway_history (TryBuild <$> its) g).2.
Proof.
  intros Hok. unfold stops.evaluate_bbo. destruct (_ || _); [by exists []|]. destruct Hok as [Hs Hc Hsl].
  pose proof (scan_spec symbol bb ba now (st_triggers t) 0 (st_active_count t) packets g 0 ltac:(lia)) as Hscan.
  destruct (stops.evaluate_loop _ _ _ _ _ _ _ _ _) as [[[[ts c] ps] g'] r]. destruct Hscan as (tried & rest & Hdue & Hsc).
  exists tried.*2. rewrite <- attempt_history. destruct (attempt tried g) as [acc g2]. by destruct Hsc as (-> & _).
Qed.

Lemma evaluate_length symbol bb ba now g packets t : stops_ok t ->
  length (st_triggers (stops.evaluate_bbo symbol bb ba now g (Some packets) t).2) = length (st_triggers t).
Proof.
  intros Hok. unfold stops.evaluate_bbo. destruct (_ || _); [done|]. destruct Hok as [Hs Hc Hsl].
  pose proof (scan_spec symbol bb ba now (st_triggers t) 0 (st_active_count t) packets g 0 ltac:(lia)) as Hscan.
  destruct (stops.evaluate_loop _ _ _ _ _ _ _ _ _) as [[[[ts c] ps] g'] r]. destruct Hscan as (tried & rest & Hdue & Hsc).
  destruct (attempt tried g) as [acc g2]. destruct Hsc as (-> & -> & _). apply close_from_length.
Qed.

Lemma gateway_history_app ops1 ops2 g : (gateway_history (ops1 ++ ops2) g).2 = (gateway_history ops2 (gateway_history ops1 g).2).2.
Proof.
  revert g. induction ops1 as [|op ops1 IH]; intros g; [done|]. cbn [app gateway_history]. destruct (gateway_step op g) as [f g1].
  specialize (IH g1). destruct (gateway_history (ops1 ++ ops2) g1), (gateway_history ops1 g1). cbn [snd] in *. done.
Qed.

Lemma stop_history_ok n ops g : Z.of_nat n < 2 ^ 32 ->
  let '(g', t) := stop_history n ops g in
  stops_ok t /\ length (st_triggers t) = n /\ exists its, g' = (gateway_history (TryBuild <$> its) g).2.
Proof.
  intros Hn. unfold stop_history. induction ops as [|op ops IH] using rev_ind.
  { cbn [foldl]. split_and!; [by apply stops_fresh|apply length_replicate|by exists []]. }
  rewrite foldl_app. destruct (foldl stop_step (g, stops.fresh n) ops) as [g1 t]. destruct IH as (Hok & Hlen & its & ->).
  cbn [foldl stop_step]. destruct op as [order|id|symbol bb ba now m]; cbn [stop_step].
  - split_and!; [by apply register_ok| |by exists its]. unfold stops.register_trigger. case_if; [done|].
    destruct (list_find _ _) as [[i x]|]; [|done]. cbn [snd st_triggers]. by rewrite length_insert.
  - split_and!; [by apply cancel_ok| |by exists its]. unfold stops.cancel_trigger. case_if; [done|].
    destruct (list_find _ _) as [[i x]|]; [|done]. cbn [snd st_triggers]. by rewrite length_insert.
  - pose proof (evaluate_ok symbol bb ba now (gateway_history (TryBuild <$> its) g).2 (replicate m empty_packet) t Hok) as He.
    pose proof (evaluate_history symbol bb ba now (gateway_history (TryBuild <$> its) g).2 (replicate m empty_packet) t Hok) as [its' Hh].
    pose proof (evaluate_length symbol bb ba now (gateway_history (TryBuild <$> its) g).2 (replicate m empty_packet) t Hok) as Hl.
    destruct (stops.evaluate_bbo _ _ _ _ _ _ _) as [[[r g2] ps] t']. cbn [fst snd] in *. split_and!; [done|congruence|].
    exists (its ++ its'). by rewrite fmap_app, gateway_history_app.
Qed.
End history.

(** the table of conditional orders stays consistent, whatever is
    registered, cancelled and evaluated: [active_count] is the number of active
    triggers, an active trigger carries the id of its slot, a client order id,
    a positive quantity and a symbol of the engine, [get] shows exactly the
    active ones, and the gateway is only ever changed through [try_build], so
    that every theorem on histories of gateway calls covers these orders. *)
Theorem stop_table_invariant {AJ RJ} `{Journal AJ AuditEvent} `{Journal RJ RecoveryEvent} (n : nat) (ops : list stop_op)
    (g : ExecutionGateway AJ RJ) (Hn : Z.of_nat n < 2 ^ 32) :
  let '(g', t) := stop_history n ops g in
  length (st_triggers t) = n /\
  stops.active_count t = Z.of_nat (length (filter (fun i => is_Some (stops.get i t)) (seq 0 n))) /\
  (forall i x, stops.get i t = Some x -> slot_ok i x) /\
  exists its, g' = (gateway_history (TryBuild <$> its) g).2.
Proof.
  pose proof (stop_history_ok n ops g Hn) as Hh. destruct (stop_history n ops g) as [g' t]. destruct Hh as ([_ Hc Hsl] & Hlen & Hits).
  split_and!; [done| | |done].
  - unfold stops.active_count. rewrite Hc. unfold active_total, active_triggers. f_equal. rewrite <- Hlen. symmetry. apply length_filter_seq.
    intros i x Hi. unfold stops.get. cbn [plus]. rewrite Hi. cbn [mbind option_bind]. by destruct (stops.is_active x).
  - intros i x Hg. unfold stops.get in Hg. apply bind_Some in Hg as (y & Hy & Hg). destruct (stops.is_active y) eqn:Ha; [|done].
    injection Hg as <-. by apply Hsl.
Qed.

(** A buy stop of 100 at 15.00, cancelled orders around it. *)
Definition sample_trigger (id stop : Z) : ConditionalOrder := mkConditional 0 1 exec.kBuy kStopLoss stop 0 0 100 id exec.kDay 0.
Definition stop_gateway : ExecutionGateway unit unit := (gateway.init true ∅ (gateway.fresh 10)).2.
Definition sample_stops : list stop_op :=
  [RegisterTrigger (sample_trigger 7 150000); RegisterTrigger (sample_trigger 8 200000); RegisterTrigger (sample_trigger 9 140000);
   CancelTrigger 9].

Lemma stop_table_invariant_witness :
  stops.active_count (@stop_history unit unit accepting accepting 4 (sample_stops ++ [EvaluateBbo 1 149000 160000 1000 4]) stop_gateway).2 = 1.
Proof.
  pose proof (@stop_table_invariant unit unit accepting accepting 4 (sample_stops ++ [EvaluateBbo 1 149000 160000 1000 4]) stop_gateway) as H.
  destruct (@stop_history unit unit accepting accepting 4 (sample_stops ++ _) stop_gateway) as [g t] eqn:E.
  destruct H as (_ & Hc & _); [lia|]. cbn [snd]. rewrite Hc. assert (Ht : t = (g, t).2) by done. rewrite <- E in Ht. rewrite Ht. vm_compute. reflexivity.
Defined.

(** C39: what an evaluation at a best bid and offer sends: with the table in any
    state a history can reach, [evaluate_bbo] offers to the gateway the orders
    due: of each active trigger of the symbol that the quotes set off (a stop
    once the quote it would be executed against is through the stop price, a
    peg while the quotes it follows are there), with its side, quantity and id,
    at the price its type calls for if that is positive; in slot order, one
    [try_build] each and no other call, until the packets run out; exactly the triggers whose order is accepted become inactive, the
    others stay armed, the result and [active_count] count them, and each
    accepted order has a 48-byte packet. *)
Theorem evaluate_bbo_exact {AJ RJ} `{Journal AJ AuditEvent} `{Journal RJ RecoveryEvent} (n : nat) (ops : list stop_op)
    (g : ExecutionGateway AJ RJ) (symbol best_bid best_ask now_ns : Z) (packets : list OutboundPacket)
    (Hn : Z.of_nat n < 2 ^ 32) (Hsym : symbol < kSymbols) :
  let '(g', t) := stop_history n ops g in evaluation_exact symbol best_bid best_ask now_ns g' packets t.
Proof.
  pose proof (stop_history_ok n ops g Hn) as Hh. destruct (stop_history n ops g) as [g' t]. by apply evaluation_correct; [apply Hh|].
Qed.

Lemma evaluate_bbo_exact_witness :
  let '(g, t) := @stop_history unit unit accepting accepting 4 sample_stops stop_gateway in
  @evaluation_exact unit unit accepting accepting 1 149000 160000 1000 g [empty_packet; empty_packet] t /\
  (@stops.evaluate_bbo unit unit accepting accepting 1 149000 160000 1000 g (Some [empty_packet; empty_packet]) t).1.1.1 = 1.
Proof.
  pose proof (@evaluate_bbo_exact unit unit accepting accepting 4 sample_stops stop_gateway 1 149000 160000 1000 [empty_packet; empty_packet]) as H.
  destruct (@stop_history unit unit accepting accepting 4 sample_stops stop_gateway) as [g t] eqn:E.
  split; [exact (H ltac:(lia) eq_refl)|]. assert (Ht : t = (g, t).2) by done. assert (Hg : g = (g, t).1) by done. rewrite <- E in Ht, Hg.
  rewrite Ht, Hg. vm_compute. reflexivity.
Defined.
