(* ===== verification/SimRng.v ===== *)
(** * Xoshiro256 (luv_feed_sim.hpp): the simulator's random numbers

    The generator is modelled bit for bit.  [uniform] reduces modulo the length
    of the interval; a length that wraps to 0 is a division by zero in the
    source, which is the result [None]. *)
From Stdlib Require Import ZArith Lia ZifyBool.
From S2P Require Import Prelude.

(** [uint64_t s[4]] *)
Record Xoshiro256 := mkXoshiro { xo_0 : Z; xo_1 : Z; xo_2 : Z; xo_3 : Z }.

Module xoshiro.

Definition rotl (x k : Z) : Z := Z.lor (u64 (Z.shiftl x k)) (Z.shiftr x (64 - k)).

(** One step of the seeding generator: the new seed and the value it yields. *)
Definition splitmix (seed : Z) : Z * Z :=
  let seed := u64 (seed + 0x9E3779B97F4A7C15) in
  let z := seed in
  let z := u64 (Z.lxor z (Z.shiftr z 30) * 0xBF58476D1CE4E5B9) in
  let z := u64 (Z.lxor z (Z.shiftr z 27) * 0x94D049BB133111EB) in
  (seed, Z.lxor z (Z.shiftr z 31)).

Definition seeded (seed : Z) : Xoshiro256 :=
  let '(seed, v0) := splitmix seed in
  let '(seed, v1) := splitmix seed in
  let '(seed, v2) := splitmix seed in
  let '(_, v3) := splitmix seed in
  mkXoshiro v0 v1 v2 v3.

Definition next (x : Xoshiro256) : Z * Xoshiro256 :=
  let '(mkXoshiro s0 s1 s2 s3) := x in
  let result := u64 (rotl (u64 (s1 * 5)) 7 * 9) in
  let t := u64 (Z.shiftl s1 17) in
  let s2 := Z.lxor s2 s0 in
  let s3 := Z.lxor s3 s1 in
  let s1 := Z.lxor s1 s2 in
  let s0 := Z.lxor s0 s3 in
  let s2 := Z.lxor s2 t in
  let s3 := rotl s3 45 in
  (result, mkXoshiro s0 s1 s2 s3).

(** Uniform in [lo, hi]; the difference is an int64, the sum wraps. *)
Definition uniform (lo hi : Z) (x : Xoshiro256) : option (Z * Xoshiro256) :=
  let range := u64 (u64 (s64 (hi - lo)) + 1) in
  let '(v, x) := next x in
  if range =? 0 then None else Some (s64 (lo + s64 (v mod range)), x).

Definition uniform_u32 (lo hi : Z) (x : Xoshiro256) : option (Z * Xoshiro256) :=
  let range := u32 (u32 (hi - lo) + 1) in
  let '(v, x) := next x in
  if range =? 0 then None else Some (u32 (lo + u32 (v mod range)), x).

End xoshiro.

(** An interval that is not the full width gives a value inside it. *)
Lemma uniform_ok lo hi x : lo <= hi -> 0 <= lo -> hi < 2 ^ 63 - 1 ->
  exists v x', xoshiro.uniform lo hi x = Some (v, x') /\ lo <= v <= hi.
Proof.
  intros Hle H0 Hhi. unfold xoshiro.uniform. rewrite (wrap_s_id 64 (hi - lo)) by (unfold in_s; lia).
  rewrite (wrap_u_id 64 (hi - lo)) by (unfold in_u; lia). rewrite (wrap_u_id 64 (hi - lo + 1)) by (unfold in_u; lia).
  destruct (xoshiro.next x) as [w x']. destruct (Z.eqb_spec (hi - lo + 1) 0); [lia|].
  pose proof (Z.mod_pos_bound w (hi - lo + 1) ltac:(lia)). eexists _, x'. split; [done|].
  rewrite (wrap_s_id 64 (w mod _)) by (unfold in_s; lia). rewrite wrap_s_id by (unfold in_s; lia). lia.
Qed.

Lemma uniform_u32_ok lo hi x : 0 <= lo <= hi -> hi < 2 ^ 32 - 1 ->
  exists v x', xoshiro.uniform_u32 lo hi x = Some (v, x') /\ lo <= v <= hi.
Proof.
  intros Hle Hhi. unfold xoshiro.uniform_u32. rewrite (wrap_u_id 32 (hi - lo)) by (unfold in_u; lia).
  rewrite (wrap_u_id 32 (hi - lo + 1)) by (unfold in_u; lia).
  destruct (xoshiro.next x) as [w x']. destruct (Z.eqb_spec (hi - lo + 1) 0); [lia|].
  pose proof (Z.mod_pos_bound w (hi - lo + 1) ltac:(lia)). eexists _, x'. split; [done|].
  rewrite (wrap_u_id 32 (w mod _)) by (unfold in_u; lia). rewrite wrap_u_id by (unfold in_u; lia). lia.
Qed.

(** The first values for the default seed of the simulator. *)
Example xoshiro_default_seed :
  let x := xoshiro.seeded 0xDEADBEEFCAFEBABE in
  0 <= (xoshiro.next x).1 < 2 ^ 64 /\ xoshiro.uniform_u32 0 UINT32_MAX x = None.
Proof. vm_compute. done. Qed.
