(* ===== verification/SimGen.v ===== *)
(** * The synthetic ITCH generator of SimFeedSource (luv_feed_sim.hpp)

    The raw messages [init_synthetic] prepares, byte by byte, and the theorem
    that the production decoder accepts every one of them and reads back the
    fields that were drawn. *)
From Stdlib Require Import ZArith Lia ZifyBool.
From Stdlib Require SpecFloat.
From S2P Require Import Prelude Config Numeric Bytes SymbolTable BookSpec Decode SimRng.

(** ** Configuration *)
Inductive Mode := kSynthetic | kReplay.

(** A [double] is an IEEE-754 binary64 value of the Standard Library's
    specification of floating point. *)
Abbreviation double := SpecFloat.spec_float.

Record SimConfig := mkSim {
  sc_mode : Mode;
  sc_synthetic_symbols : Z;    (* uint32_t *)
  sc_target_rate_hz : Z;       (* uint64_t *)
  sc_seed : Z;                 (* uint64_t *)
  sc_prebuf_count : Z;         (* uint32_t *)
  sc_drop_rate : double;
  sc_reorder_window : Z;       (* uint32_t *)
  sc_burst_size : Z;           (* uint32_t *)
  sc_burst_interval : Z;       (* uint32_t *)
  sc_replay_path : option (list Z);
  sc_min_price : Z;            (* int64_t *)
  sc_max_price : Z;
  sc_min_qty : Z;
  sc_max_qty : Z;
}.

(** [SimConfig{}] *)
Definition default_sim : SimConfig :=
  mkSim kSynthetic 128 1000000 0xDEADBEEFCAFEBABE (Z.shiftl 1 16) (SpecFloat.S754_zero false) 0 0 0 None 1000000 5000000 1 10000.

Definition kSimMaxMsgLen : Z := 50.

(** ** Encoding *)
Definition put_u16_be (v : Z) : list Z := [u8 (Z.shiftr v 8); u8 v].
Definition put_u32_be (v : Z) : list Z := [u8 (Z.shiftr v 24); u8 (Z.shiftr v 16); u8 (Z.shiftr v 8); u8 v].
Definition put_u48_be (v : Z) : list Z :=
  [u8 (Z.shiftr v 40); u8 (Z.shiftr v 32); u8 (Z.shiftr v 24); u8 (Z.shiftr v 16); u8 (Z.shiftr v 8); u8 v].
Definition put_u64_be (v : Z) : list Z :=
  [u8 (Z.shiftr v 56); u8 (Z.shiftr v 48); u8 (Z.shiftr v 40); u8 (Z.shiftr v 32);
   u8 (Z.shiftr v 24); u8 (Z.shiftr v 16); u8 (Z.shiftr v 8); u8 v].

(** The loop of [format_stock]: [n] decimal digits, the last one first. *)
Fixpoint stock_digits (n : nat) (symbol_index : Z) : list Z :=
  match n with
  | O => []
  | S n => stock_digits n (symbol_index / 10) ++ [0x30 + symbol_index mod 10]
  end.

(** [char stock[9]] *)
Definition format_stock (symbol_index : Z) : list Z := ch_S :: stock_digits 7 symbol_index ++ [0].

Definition write_itch_header (msg_type locate ts : Z) (dst : list Z) : list Z :=
  let dst := put 0 [msg_type] dst in
  let dst := put 1 (put_u16_be locate) dst in
  let dst := put 3 (put_u16_be 0) dst in
  put 5 (put_u48_be ts) dst.

(** ** Generation *)
Section generate.
Context (cfg : SimConfig).

(** Each generator returns the length, the message buffer and the random state. *)
Definition draw_symbol (x : Xoshiro256) : option (Z * Xoshiro256) :=
  '(sym, x) ← xoshiro.uniform_u32 0 (u32 (sc_synthetic_symbols cfg - 1)) x; Some (u16 sym, x).

Definition gen_add_order (ts order_ref : Z) (dst : list Z) (x : Xoshiro256) : option (Z * list Z * Xoshiro256) :=
  '(sym_idx, x) ← draw_symbol x;
  let dst := write_itch_header itch.kAddOrder sym_idx ts dst in
  let dst := put 11 (put_u64_be order_ref) dst in
  let '(r, x) := xoshiro.next x in
  let dst := put 19 [if negb (Z.land r 1 =? 0) then ch_B else ch_S] dst in
  '(shares, x) ← xoshiro.uniform (sc_min_qty cfg) (sc_max_qty cfg) x;
  let dst := put 20 (put_u32_be (u32 shares)) dst in
  let dst := put 24 (take 8 (format_stock sym_idx)) dst in
  '(price, x) ← xoshiro.uniform (sc_min_price cfg) (sc_max_price cfg) x;
  let dst := put 32 (put_u32_be (u32 price)) dst in
  Some (36, dst, x).

(** A reference of an order that was added before. *)
Definition draw_ref (order_ref_max : Z) (x : Xoshiro256) : option (Z * Xoshiro256) :=
  if 1 <? order_ref_max then '(ref, x) ← xoshiro.uniform 1 (s64 (order_ref_max - 1)) x; Some (u64 ref, x) else Some (1, x).

Definition gen_order_executed (ts order_ref_max : Z) (dst : list Z) (x : Xoshiro256) : option (Z * list Z * Xoshiro256) :=
  '(sym_idx, x) ← draw_symbol x;
  let dst := write_itch_header itch.kOrderExecuted sym_idx ts dst in
  '(ref, x) ← draw_ref order_ref_max x;
  let dst := put 11 (put_u64_be ref) dst in
  '(exec_shares, x) ← xoshiro.uniform 1 (Z.quot (sc_max_qty cfg) 2) x;
  let dst := put 19 (put_u32_be (u32 exec_shares)) dst in
  let '(match_num, x) := xoshiro.next x in
  let dst := put 23 (put_u64_be match_num) dst in
  Some (31, dst, x).

Definition gen_order_cancel (ts order_ref_max : Z) (dst : list Z) (x : Xoshiro256) : option (Z * list Z * Xoshiro256) :=
  '(sym_idx, x) ← draw_symbol x;
  let dst := write_itch_header itch.kOrderCancel sym_idx ts dst in
  '(ref, x) ← draw_ref order_ref_max x;
  let dst := put 11 (put_u64_be ref) dst in
  '(cancel_shares, x) ← xoshiro.uniform 1 (sc_max_qty cfg) x;
  let dst := put 19 (put_u32_be (u32 cancel_shares)) dst in
  Some (23, dst, x).

Definition gen_order_delete (ts order_ref_max : Z) (dst : list Z) (x : Xoshiro256) : option (Z * list Z * Xoshiro256) :=
  '(sym_idx, x) ← draw_symbol x;
  let dst := write_itch_header itch.kOrderDelete sym_idx ts dst in
  '(ref, x) ← draw_ref order_ref_max x;
  let dst := put 11 (put_u64_be ref) dst in
  Some (19, dst, x).

(** One round of the loop: the length, the message, the next order reference. *)
Definition gen_message (ts order_ref_seq : Z) (x : Xoshiro256) : option (Z * list Z * Z * Xoshiro256) :=
  let dst := replicate (Z.to_nat kSimMaxMsgLen) 0 in
  '(roll, x) ← xoshiro.uniform_u32 0 99 x;
  if roll <? 60 then '(len, dst, x) ← gen_add_order ts order_ref_seq dst x; Some (len, dst, u64 (order_ref_seq + 1), x)
  else if roll <? 75 then '(len, dst, x) ← gen_order_executed ts order_ref_seq dst x; Some (len, dst, order_ref_seq, x)
  else if roll <? 90 then '(len, dst, x) ← gen_order_cancel ts order_ref_seq dst x; Some (len, dst, order_ref_seq, x)
  else '(len, dst, x) ← gen_order_delete ts order_ref_seq dst x; Some (len, dst, order_ref_seq, x).

(** The loop over the buffer: the messages with their lengths. *)
Fixpoint gen_messages (n : nat) (ts order_ref_seq : Z) (x : Xoshiro256) : option (list (Z * list Z) * Xoshiro256) :=
  match n with
  | O => Some ([], x)
  | S n =>
      '(len, dst, seq, x) ← gen_message ts order_ref_seq x;
      '(gap, x) ← xoshiro.uniform 100 10000 x;
      '(rest, x) ← gen_messages n (u64 (ts + gap)) seq x;
      Some ((len, dst) :: rest, x)
  end.

Definition generate_synthetic_messages (x : Xoshiro256) : option (list (Z * list Z) * Xoshiro256) :=
  gen_messages (Z.to_nat (sc_prebuf_count cfg)) 34200000000000 1 x.

(** The tickers [init_synthetic] inserts; the insertion reads 8 of the 9 chars. *)
Definition sim_ticker (host_be : bool) (i : Z) : Z :=
  let bytes := take 8 (format_stock i) in if host_be then be_value bytes else le_value bytes.
Definition sim_symbol_ops (host_be : bool) : list sym_op :=
  (fun i => SymInsert (Some (sim_ticker host_be i)) i) <$> zrange 0 (Z.to_nat (sc_synthetic_symbols cfg)).

End generate.

(** ** The wire format read back *)
Lemma put_bytes off bs buf : bytes_ok bs -> bytes_ok buf -> bytes_ok (put off bs buf).
Proof.
  unfold put. generalize (Z.to_nat off) as i. intros i Hbs Hbuf. revert i. induction Hbs as [|b bs Hb Hbs IH]; intros i; [done|].
  cbn [list_inserts]. apply Forall_insert; [apply IH|done].
Qed.

Lemma u8_in v : in_u 8 (u8 v).
Proof. apply wrap_u_range. lia. Qed.

Lemma be_value_rev_split n v : be_value (rev (le_split n v)) = v mod 256 ^ Z.of_nat n.
Proof.
  revert v. induction n as [|n IH]; intros v; [by rewrite Z.mod_1_r|]. cbn [le_split rev]. rewrite be_value_app, IH. cbn [length].
  change (Z.of_nat 1) with 1. rewrite Z.pow_1_r, Nat2Z.inj_succ, Z.pow_succ_r by lia. rewrite Z.rem_mul_r by (try apply Z.pow_pos_nonneg; lia).
  change (be_value [v mod 256]) with (v mod 256). lia.
Qed.

(** The shifts take the bytes of the value, most significant first. *)
Ltac shifted_bytes := cbn [le_split rev app]; rewrite ?Z.shiftr_div_pow2 by lia; rewrite ?Z.div_div by lia; reflexivity.

Lemma put_u16_split v : put_u16_be v = rev (le_split 2 v).
Proof. unfold put_u16_be. shifted_bytes. Qed.
Lemma put_u32_split v : put_u32_be v = rev (le_split 4 v).
Proof. unfold put_u32_be. shifted_bytes. Qed.
Lemma put_u48_split v : put_u48_be v = rev (le_split 6 v).
Proof. unfold put_u48_be. shifted_bytes. Qed.
Lemma put_u64_split v : put_u64_be v = rev (le_split 8 v).
Proof. unfold put_u64_be. shifted_bytes. Qed.

Lemma put_u16_value v : in_u 16 v -> be_value (put_u16_be v) = v.
Proof. intros Hv. rewrite put_u16_split, be_value_rev_split. by apply Z.mod_small. Qed.
Lemma put_u32_value v : in_u 32 v -> be_value (put_u32_be v) = v.
Proof. intros Hv. rewrite put_u32_split, be_value_rev_split. by apply Z.mod_small. Qed.
Lemma put_u48_value v : in_u 48 v -> be_value (put_u48_be v) = v.
Proof. intros Hv. rewrite put_u48_split, be_value_rev_split. by apply Z.mod_small. Qed.
Lemma put_u64_value v : in_u 64 v -> be_value (put_u64_be v) = v.
Proof. intros Hv. rewrite put_u64_split, be_value_rev_split. by apply Z.mod_small. Qed.

(** ** Tickers *)
Lemma stock_digits_length n v : length (stock_digits n v) = n.
Proof. revert v. induction n as [|n IH]; intros v; [done|]. cbn [stock_digits]. rewrite length_app, IH. simpl. lia. Qed.

Lemma stock_digits_bytes n v : bytes_ok (stock_digits n v).
Proof.
  revert v. induction n as [|n IH]; intros v; [constructor|]. cbn [stock_digits]. apply Forall_app. split; [apply IH|].
  constructor; [|done]. pose proof (Z.mod_pos_bound v 10 ltac:(lia)). unfold in_u. lia.
Qed.

Lemma stock_digits_inj n v w : 0 <= v < 10 ^ Z.of_nat n -> 0 <= w < 10 ^ Z.of_nat n -> stock_digits n v = stock_digits n w -> v = w.
Proof.
  revert v w. induction n as [|n IH]; intros v w Hv Hw E; [cbn in *; lia|]. cbn [stock_digits] in E. apply app_inj_tail in E as [E1 E2].
  rewrite Nat2Z.inj_succ, Z.pow_succ_r in Hv, Hw by lia.
  assert (Hd : v / 10 = w / 10).
  { apply IH; [..|done]; (split; [apply Z.div_pos; lia|apply Z.div_lt_upper_bound; lia]). }
  pose proof (Z.div_mod v 10). pose proof (Z.div_mod w 10). lia.
Qed.

Definition ticker_bytes (i : Z) : list Z := take 8 (format_stock i).

Lemma ticker_bytes_ok i : is_ticker (ticker_bytes i).
Proof.
  unfold ticker_bytes, format_stock. pose proof (stock_digits_length 7 i) as Hl. pose proof (stock_digits_bytes 7 i) as Hb. split.
  - apply Forall_take. constructor; [by unfold in_u|]. apply Forall_app. split; [done|]. by constructor.
  - rewrite length_take. cbn [length]. rewrite length_app, Hl. simpl. lia.
Qed.

Lemma ticker_bytes_inj i j : 0 <= i < 10 ^ 7 -> 0 <= j < 10 ^ 7 -> ticker_bytes i = ticker_bytes j -> i = j.
Proof.
  intros Hi Hj E%(f_equal tail). change (stock_digits 7 i = stock_digits 7 j) in E.
  by apply (stock_digits_inj 7).
Qed.

Lemma sim_ticker_inj host_be i j : 0 <= i < 10 ^ 7 -> 0 <= j < 10 ^ 7 -> sim_ticker host_be i = sim_ticker host_be j -> i = j.
Proof.
  intros Hi Hj E. pose proof (ticker_bytes_ok i) as [Hbi Hli]. pose proof (ticker_bytes_ok j) as [Hbj Hlj].
  apply ticker_bytes_inj; [done..|]. unfold sim_ticker in E. fold (ticker_bytes i) (ticker_bytes j) in E. destruct host_be;
    [apply be_value_inj|apply le_value_inj]; try done; congruence.
Qed.

Lemma zrange_succ a n : zrange a (S n) = zrange a n ++ [a + Z.of_nat n].
Proof. unfold zrange. by rewrite seq_S, fmap_app. Qed.

Lemma run_sym_snoc ops op : run_sym (ops ++ [op]) = step_sym (run_sym ops) op.
Proof. unfold run_sym. by rewrite foldl_app. Qed.

(** The table holds exactly the tickers of the configured symbols. *)
Lemma sim_symbols_run host_be (n : nat) : Z.of_nat n <= kSymbols ->
  exists t M, run_sym ((fun i => SymInsert (Some (sim_ticker host_be i)) i) <$> zrange 0 n) = Some (t, M) /\ symtab.repr t M /\
    size M = n /\ (forall i, 0 <= i < Z.of_nat n -> M !! sim_ticker host_be i = Some i) /\
    (forall k v, M !! k = Some v -> exists i, 0 <= i < Z.of_nat n /\ k = sim_ticker host_be i).
Proof.
  unfold kSymbols. induction n as [|n IH]; intros Hn.
  { eexists _, ∅. split_and!; [done|apply symtab.sym_clear_repr|apply map_size_empty|lia|]. intros k v. by rewrite lookup_empty. }
  destruct IH as (t & M & E & HR & Hsz & Hin & Hof); [lia|]. rewrite zrange_succ, fmap_app.
  set (ops := _ <$> zrange 0 n) in *. cbn [fmap list_fmap]. rewrite run_sym_snoc, E. cbn [step_sym mbind option_bind]. rewrite Z.add_0_l, !(wrap_u_id 16 (Z.of_nat n)) by (unfold in_u; lia).
  pose proof (symtab.sym_insert_repr t M (Some (sim_ticker host_be (Z.of_nat n))) (Z.of_nat n) HR ltac:(lia)) as Hins.
  pose proof (symtab.repr_count _ _ HR) as Hcnt. rewrite Hsz in Hcnt. unfold kSymbols, symtab.kWindow in Hins.
  destruct (Z.ltb_spec (Z.of_nat n) 512), (Z.ltb_spec (st_count t) 512); try lia. destruct Hins as (t' & -> & HR').
  assert (Hnew : M !! sim_ticker host_be (Z.of_nat n) = None).
  { destruct (M !! sim_ticker _ _) as [v|] eqn:EM; [|done]. destruct (Hof _ _ EM) as (i & Hi & Ei). apply sim_ticker_inj in Ei; lia. }
  eexists t', _. split_and!; [done|done|rewrite map_size_insert_None by done; lia|..].
  - intros i Hi. destruct (decide (i = Z.of_nat n)) as [->|]; [apply lookup_insert_eq|]. rewrite lookup_insert_ne; [apply Hin; lia|].
    intros Ei. apply sim_ticker_inj in Ei; lia.
  - intros k v Hk. apply lookup_insert_Some in Hk as [[<- _]|[_ Hk]]; [exists (Z.of_nat n); split; [lia|done]|].
    destruct (Hof k v Hk) as (i & ? & ->). exists i. split; [lia|done].
Qed.

Lemma sim_lookup cfg host_be raw off i : sc_synthetic_symbols cfg <= kSymbols -> 0 <= i < sc_synthetic_symbols cfg ->
  slice raw off 8 = Some (ticker_bytes i) -> lookup_at host_be raw (table_of (sim_symbol_ops cfg host_be)) off = Some i.
Proof.
  intros Hn Hi Hs. unfold lookup_at, detail.load_ticker_key, load, table_of, sim_symbol_ops. rewrite Hs. cbn [mbind option_bind]. f_equal.
  destruct (sim_symbols_run host_be (Z.to_nat (sc_synthetic_symbols cfg))) as (t & M & E & HR & _ & Hin & _); [lia|]. rewrite E.
  rewrite (symtab.sym_lookup_repr _ _ _ HR). unfold symtab.resolve. fold (sim_ticker host_be i).
  change (if host_be then be_value (ticker_bytes i) else le_value (ticker_bytes i)) with (sim_ticker host_be i). by rewrite Hin by lia.
Qed.

(** ** Decoding a generated message *)
Section decoded.
Context (host_be : bool) (raw : list Z) (Hraw : bytes_ok raw).

Lemma be16_field off v : slice raw off 2 = Some (put_u16_be v) -> in_u 16 v -> detail.be16 host_be raw off = Some v.
Proof. intros Hs Hv. rewrite be16_slice, Hs by done. cbn [fmap option_fmap option_map]. by rewrite put_u16_value. Qed.
Lemma be32_field off v : slice raw off 4 = Some (put_u32_be v) -> in_u 32 v -> detail.be32 host_be raw off = Some v.
Proof. intros Hs Hv. rewrite be32_slice, Hs by done. cbn [fmap option_fmap option_map]. by rewrite put_u32_value. Qed.
Lemma be64_field off v : slice raw off 8 = Some (put_u64_be v) -> in_u 64 v -> detail.be64 host_be raw off = Some v.
Proof. intros Hs Hv. rewrite be64_slice, Hs by done. cbn [fmap option_fmap option_map]. by rewrite put_u64_value. Qed.

Lemma decode_header len symbols out ty ts : rd raw 0 = Some ty -> slice raw 5 6 = Some (put_u48_be ts) ->
  0 <= ts < 86400000000000 -> 11 <= len -> minimum_length ty <= len ->
  decode_itch host_be (Some raw) len symbols out = decode_body host_be raw len symbols (header_tick ty ts).
Proof.
  intros Hty Hts Hr Hlen Hmin. unfold decode_itch. destruct (Z.ltb_spec len 11); [lia|]. rewrite Hty. cbn [mbind option_bind].
  destruct (Z.ltb_spec len (minimum_length ty)); [lia|]. rewrite andb_false_r. rewrite be_timestamp48_slice, Hts by (done || lia).
  cbn [fmap option_fmap option_map mbind option_bind]. rewrite put_u48_value by (unfold in_u; lia).
  destruct (Z.leb_spec 86400000000000 ts); [lia|done].
Qed.
End decoded.

(** The buffer before the fields are written. *)
Definition blank_message : list Z := replicate (Z.to_nat kSimMaxMsgLen) 0.
Definition header_message (ty sym ts : Z) : list Z := write_itch_header ty sym ts blank_message.

Definition add_message (sym ts ref side shares price : Z) : list Z :=
  put 32 (put_u32_be price) (put 24 (ticker_bytes sym) (put 20 (put_u32_be shares) (put 19 [side]
    (put 11 (put_u64_be ref) (header_message itch.kAddOrder sym ts))))).
Definition executed_message (sym ts ref shares mn : Z) : list Z :=
  put 23 (put_u64_be mn) (put 19 (put_u32_be shares) (put 11 (put_u64_be ref) (header_message itch.kOrderExecuted sym ts))).
Definition cancel_message (sym ts ref shares : Z) : list Z :=
  put 19 (put_u32_be shares) (put 11 (put_u64_be ref) (header_message itch.kOrderCancel sym ts)).
Definition deletion_message (sym ts ref : Z) : list Z := put 11 (put_u64_be ref) (header_message itch.kOrderDelete sym ts).

Lemma byte_lists : (forall v, bytes_ok (put_u16_be v)) /\ (forall v, bytes_ok (put_u32_be v)) /\ (forall v, bytes_ok (put_u48_be v)) /\
  (forall v, bytes_ok (put_u64_be v)) /\ bytes_ok blank_message.
Proof. split_and!; [intros v; repeat constructor; apply u8_in..|]. by apply Forall_replicate. Qed.

Lemma header_bytes ty sym ts : in_u 8 ty -> bytes_ok (header_message ty sym ts).
Proof.
  intros Hty. destruct byte_lists as (H16 & H32 & H48 & H64 & Hb). unfold header_message, write_itch_header.
  repeat apply put_bytes; auto; by (constructor; [done|constructor]).
Qed.

Ltac message_bytes := destruct byte_lists as (? & ? & ? & ? & ?);
  repeat lazymatch goal with |- bytes_ok (put _ _ _) => apply put_bytes end; auto;
  first [by apply header_bytes | by apply ticker_bytes_ok | idtac].

Lemma decode_add_message cfg host_be out sym ts ref side shares price :
  sc_synthetic_symbols cfg <= kSymbols -> 0 <= sym < sc_synthetic_symbols cfg -> 0 <= ts < 86400000000000 ->
  0 < ref < 2 ^ 64 -> side = ch_B \/ side = ch_S -> 1 <= shares <= numeric.kMaxQuantity -> 1 <= price <= numeric.kMaxPrice ->
  decode_itch host_be (Some (add_message sym ts ref side shares price)) 36 (table_of (sim_symbol_ops cfg host_be)) out =
  Some (true, mkTick itch.kAddOrder (if side =? ch_B then tick_flags.kBuy else 0) sym ts price shares ref 0).
Proof.
  intros Hn Hsym Hts Href Hside Hq Hp. unfold numeric.kMaxQuantity, numeric.kMaxPrice in *.
  assert (Hraw : bytes_ok (add_message sym ts ref side shares price)).
  { assert (bytes_ok [side]) by (destruct Hside as [-> | ->]; (constructor; [done|constructor])). unfold add_message. message_bytes. }
  rewrite (decode_header host_be _ Hraw 36 _ _ itch.kAddOrder ts eq_refl eq_refl Hts ltac:(lia) ltac:(done)).
  unfold decode_body, decode_add. cbn [header_tick t_msg_type].
  change ((itch.kAddOrder =? itch.kAddOrder) || (itch.kAddOrder =? itch.kAddOrderMPID)) with true. cbv iota.
  change (36 <? (if itch.kAddOrder =? itch.kAddOrder then kLenAddOrder else kLenAddOrderMPID)) with false. cbv iota.
  rewrite (sim_lookup cfg host_be (add_message sym ts ref side shares price) 24 sym Hn Hsym eq_refl). cbn [mbind option_bind].
  rewrite (be64_field host_be _ Hraw 11 ref eq_refl) by (unfold in_u; lia). rewrite (be32_field host_be _ Hraw 20 shares eq_refl) by (unfold in_u; lia).
  rewrite (be32_field host_be _ Hraw 32 price eq_refl) by (unfold in_u; lia). cbn [mbind option_bind].
  change (rd (add_message sym ts ref side shares price) 19) with (Some side). cbn [mbind option_bind].
  unfold symtab.kNotFound, kSymbols, numeric.is_valid_quantity, numeric.is_valid_price, numeric.kMinQuantity, numeric.kMaxQuantity,
    numeric.kMinPrice, numeric.kMaxPrice in *. case_if; [lia|]. destruct (_ || _) eqn:Hg; [|done]. exfalso. destruct Hside as [-> | ->]; unfold ch_B, ch_S in *; lia.
Qed.

(** The other three messages name their symbol by the locate field. *)
Lemma decode_executed_message host_be symbols out sym ts ref shares mn :
  0 <= sym < kSymbols -> 0 <= ts < 86400000000000 -> 0 < ref < 2 ^ 64 -> 1 <= shares <= numeric.kMaxQuantity -> in_u 64 mn ->
  decode_itch host_be (Some (executed_message sym ts ref shares mn)) 31 symbols out =
  Some (true, mkTick itch.kOrderExecuted tick_flags.kPrintable sym ts 0 shares ref mn).
Proof.
  intros Hsym Hts Href Hq Hmn. unfold kSymbols, numeric.kMaxQuantity in *.
  assert (Hraw : bytes_ok (executed_message sym ts ref shares mn)) by (unfold executed_message; message_bytes).
  rewrite (decode_header host_be _ Hraw 31 _ _ itch.kOrderExecuted ts eq_refl eq_refl Hts ltac:(lia) ltac:(done)).
  change (decode_body host_be ?raw 31 symbols ?t) with (decode_executed host_be raw 31 t). unfold decode_executed.
  change (31 <? kLenOrderExecuted) with false. cbv iota.
  rewrite (be16_field host_be _ Hraw 1 sym eq_refl) by (unfold in_u; lia). cbn [mbind option_bind].
  rewrite (be64_field host_be _ Hraw 11 ref eq_refl) by (unfold in_u; lia). rewrite (be32_field host_be _ Hraw 19 shares eq_refl) by (unfold in_u; lia).
  rewrite (be64_field host_be _ Hraw 23 mn eq_refl) by done. cbn [mbind option_bind].
  unfold kSymbols, numeric.is_valid_quantity, numeric.kMinQuantity, numeric.kMaxQuantity. case_if; [lia|done].
Qed.

Lemma decode_cancel_message host_be symbols out sym ts ref shares :
  0 <= sym < kSymbols -> 0 <= ts < 86400000000000 -> 0 < ref < 2 ^ 64 -> 1 <= shares <= numeric.kMaxQuantity ->
  decode_itch host_be (Some (cancel_message sym ts ref shares)) 23 symbols out = Some (true, mkTick itch.kOrderCancel 0 sym ts 0 shares ref 0).
Proof.
  intros Hsym Hts Href Hq. unfold kSymbols, numeric.kMaxQuantity in *.
  assert (Hraw : bytes_ok (cancel_message sym ts ref shares)) by (unfold cancel_message; message_bytes).
  rewrite (decode_header host_be _ Hraw 23 _ _ itch.kOrderCancel ts eq_refl eq_refl Hts ltac:(lia) ltac:(done)).
  change (decode_body host_be ?raw 23 symbols ?t) with (decode_cancel host_be raw 23 t). unfold decode_cancel.
  change (23 <? kLenOrderCancel) with false. cbv iota.
  rewrite (be16_field host_be _ Hraw 1 sym eq_refl) by (unfold in_u; lia). cbn [mbind option_bind].
  rewrite (be64_field host_be _ Hraw 11 ref eq_refl) by (unfold in_u; lia). rewrite (be32_field host_be _ Hraw 19 shares eq_refl) by (unfold in_u; lia).
  cbn [mbind option_bind]. unfold kSymbols, numeric.is_valid_quantity, numeric.kMinQuantity, numeric.kMaxQuantity. case_if; [lia|done].
Qed.

Lemma decode_deletion_message host_be symbols out sym ts ref :
  0 <= sym < kSymbols -> 0 <= ts < 86400000000000 -> 0 < ref < 2 ^ 64 ->
  decode_itch host_be (Some (deletion_message sym ts ref)) 19 symbols out = Some (true, mkTick itch.kOrderDelete 0 sym ts 0 0 ref 0).
Proof.
  intros Hsym Hts Href. unfold kSymbols in *.
  assert (Hraw : bytes_ok (deletion_message sym ts ref)) by (unfold deletion_message; message_bytes).
  rewrite (decode_header host_be _ Hraw 19 _ _ itch.kOrderDelete ts eq_refl eq_refl Hts ltac:(lia) ltac:(done)).
  change (decode_body host_be ?raw 19 symbols ?t) with (decode_delete host_be raw 19 t). unfold decode_delete.
  change (19 <? kLenOrderDelete) with false. cbv iota.
  rewrite (be16_field host_be _ Hraw 1 sym eq_refl) by (unfold in_u; lia). cbn [mbind option_bind].
  rewrite (be64_field host_be _ Hraw 11 ref eq_refl) by (unfold in_u; lia). cbn [mbind option_bind].
  unfold kSymbols. case_if; [lia|done].
Qed.

(** ** The generated stream *)

(** The configurations the generator is meant for. *)
Record sim_ok (cfg : SimConfig) : Prop := {
  so_symbols : 1 <= sc_synthetic_symbols cfg <= kSymbols;
  so_qty : 1 <= sc_min_qty cfg <= sc_max_qty cfg;
  so_max_qty : 2 <= sc_max_qty cfg <= numeric.kMaxQuantity;
  so_price : 1 <= sc_min_price cfg <= sc_max_price cfg;
  so_max_price : sc_max_price cfg <= numeric.kMaxPrice;
  so_count : in_u 32 (sc_prebuf_count cfg);
}.

(** An order that was added before, or 1 when there is none. *)
Definition referable (ref seq : Z) : Prop := 1 <= ref /\ (ref < seq \/ ref = 1).

(** A message the generator can draw at time [ts] when [seq] is the next order
    reference, and the reference after it. *)
Inductive generated (cfg : SimConfig) (ts seq : Z) : TickMsg -> Z -> Prop :=
  | generated_add side sym price qty : 0 <= sym < sc_synthetic_symbols cfg -> side = 0 \/ side = tick_flags.kBuy ->
      sc_min_price cfg <= price <= sc_max_price cfg -> sc_min_qty cfg <= qty <= sc_max_qty cfg ->
      generated cfg ts seq (mkTick itch.kAddOrder side sym ts price qty seq 0) (seq + 1)
  | generated_executed sym qty ref mn : 0 <= sym < sc_synthetic_symbols cfg -> 1 <= qty <= sc_max_qty cfg / 2 -> referable ref seq ->
      in_u 64 mn -> generated cfg ts seq (mkTick itch.kOrderExecuted tick_flags.kPrintable sym ts 0 qty ref mn) seq
  | generated_cancel sym qty ref : 0 <= sym < sc_synthetic_symbols cfg -> 1 <= qty <= sc_max_qty cfg -> referable ref seq ->
      generated cfg ts seq (mkTick itch.kOrderCancel 0 sym ts 0 qty ref 0) seq
  | generated_delete sym ref : 0 <= sym < sc_synthetic_symbols cfg -> referable ref seq ->
      generated cfg ts seq (mkTick itch.kOrderDelete 0 sym ts 0 0 ref 0) seq.

(** What every message of the stream is: a tick the decoder reads from its
    bytes on either host, at a time 100 to 10000 ns after the one before. *)
Definition decodes_to cfg (msg : Z * list Z) (t : TickMsg) : Prop :=
  length msg.2 = Z.to_nat kSimMaxMsgLen /\
  forall host_be out, decode_itch host_be (Some msg.2) msg.1 (table_of (sim_symbol_ops cfg host_be)) out = Some (true, t).

Inductive stream (cfg : SimConfig) : Z -> Z -> list (Z * list Z) -> Prop :=
  | stream_nil ts seq : stream cfg ts seq []
  | stream_cons ts seq msg t seq' gap msgs : generated cfg ts seq t seq' -> decodes_to cfg msg t -> 100 <= gap <= 10000 ->
      stream cfg (ts + gap) seq' msgs -> stream cfg ts seq (msg :: msgs).

Section draws.
Context (cfg : SimConfig) (Hcfg : sim_ok cfg).

Lemma draw_symbol_ok x : exists sym x', draw_symbol cfg x = Some (sym, x') /\ 0 <= sym < sc_synthetic_symbols cfg.
Proof.
  pose proof (so_symbols cfg Hcfg) as Hn. unfold draw_symbol, kSymbols in *. rewrite (wrap_u_id 32) by (unfold in_u; lia).
  destruct (uniform_u32_ok 0 (sc_synthetic_symbols cfg - 1) x) as (v & x' & -> & Hv); [lia..|]. exists (u16 v), x'. cbn [mbind option_bind].
  rewrite wrap_u_id by (unfold in_u; lia). split; [done|lia].
Qed.

Lemma draw_ref_ok seq x : 1 <= seq < 2 ^ 63 -> exists ref x', draw_ref seq x = Some (ref, x') /\ referable ref seq /\ 0 < ref < 2 ^ 64.
Proof.
  intros Hs. unfold draw_ref. destruct (Z.ltb_spec 1 seq).
  - rewrite (wrap_s_id 64) by (unfold in_s; lia). destruct (uniform_ok 1 (seq - 1) x) as (v & x' & -> & Hv); [lia..|]. exists (u64 v), x'. cbn [mbind option_bind].
    rewrite wrap_u_id by (unfold in_u; lia). unfold referable. split; [done|lia].
  - exists 1, x. unfold referable. split; [done|lia].
Qed.

Lemma draw_next x : exists v x', xoshiro.next x = (v, x') /\ in_u 64 v.
Proof. destruct x as [s0 s1 s2 s3]. eexists _, _. split; [done|]. apply wrap_u_range. lia. Qed.

Definition message_drawn (ts seq : Z) (res : option (Z * list Z * Z * Xoshiro256)) : Prop :=
  exists len raw seq' x' t, res = Some (len, raw, seq', x') /\ generated cfg ts seq t seq' /\ decodes_to cfg (len, raw) t.

Context (ts seq : Z) (Hts : 0 <= ts < 86400000000000) (Hseq : 1 <= seq < 2 ^ 63).

Ltac drawn lemma := let v := fresh "v" in destruct lemma as (v & ? & -> & ?); cbn [mbind option_bind].

Lemma add_drawn x : message_drawn ts seq ('(len, dst, x) ← gen_add_order cfg ts seq blank_message x; Some (len, dst, u64 (seq + 1), x)).
Proof.
  destruct Hcfg as [Hn Hq Hq2 Hp Hp2 _]. unfold gen_add_order, numeric.kMaxQuantity, numeric.kMaxPrice in *.
  drawn (draw_symbol_ok x). drawn (draw_next x0). drawn (uniform_ok (sc_min_qty cfg) (sc_max_qty cfg) x1 ltac:(lia) ltac:(lia) ltac:(lia)).
  drawn (uniform_ok (sc_min_price cfg) (sc_max_price cfg) x2 ltac:(lia) ltac:(lia) ltac:(lia)). set (side := if _ : bool then ch_B else ch_S).
  assert (Hside : side = ch_B \/ side = ch_S) by (subst side; destruct (negb _); auto).
  rewrite !(wrap_u_id 32) by (unfold in_u; lia). rewrite (wrap_u_id 64) by (unfold in_u; lia).
  eexists 36, (add_message v ts seq side v1 v2), _, _, _. split; [reflexivity|]. split.
  - apply (generated_add cfg ts seq (if side =? ch_B then tick_flags.kBuy else 0)); try done. destruct (_ =? _); auto.
  - split; [reflexivity|]. intros host_be out. unfold kSymbols in *. apply decode_add_message; unfold numeric.kMaxQuantity, numeric.kMaxPrice, kSymbols; try done; lia.
Qed.

Lemma executed_drawn x : message_drawn ts seq ('(len, dst, x) ← gen_order_executed cfg ts seq blank_message x; Some (len, dst, seq, x)).
Proof.
  destruct Hcfg as [Hn Hq Hq2 _ _ _]. unfold gen_order_executed, numeric.kMaxQuantity in *. rewrite Z.quot_div_nonneg by lia.
  pose proof (Z.div_le_lower_bound (sc_max_qty cfg) 2 1). pose proof (Z.div_le_upper_bound (sc_max_qty cfg) 2 500000000).
  drawn (draw_symbol_ok x). destruct (draw_ref_ok seq x0 Hseq) as (ref & x1 & -> & Hr & Hr2). cbn [mbind option_bind].
  drawn (uniform_ok 1 (sc_max_qty cfg / 2) x1 ltac:(lia) ltac:(lia) ltac:(lia)). drawn (draw_next x2). rewrite !(wrap_u_id 32) by (unfold in_u; lia).
  eexists 31, (executed_message v ts ref v0 v1), _, _, _. split; [reflexivity|]. split; [by apply generated_executed|].
  split; [reflexivity|]. intros host_be out. apply decode_executed_message; unfold numeric.kMaxQuantity, kSymbols in *; try done; lia.
Qed.

Lemma cancel_drawn x : message_drawn ts seq ('(len, dst, x) ← gen_order_cancel cfg ts seq blank_message x; Some (len, dst, seq, x)).
Proof.
  destruct Hcfg as [Hn Hq Hq2 _ _ _]. unfold gen_order_cancel, numeric.kMaxQuantity in *.
  drawn (draw_symbol_ok x). destruct (draw_ref_ok seq x0 Hseq) as (ref & x1 & -> & Hr & Hr2). cbn [mbind option_bind].
  drawn (uniform_ok 1 (sc_max_qty cfg) x1 ltac:(lia) ltac:(lia) ltac:(lia)). rewrite !(wrap_u_id 32) by (unfold in_u; lia).
  eexists 23, (cancel_message v ts ref v0), _, _, _. split; [reflexivity|]. split; [by apply generated_cancel|].
  split; [reflexivity|]. intros host_be out. apply decode_cancel_message; unfold numeric.kMaxQuantity, kSymbols in *; try done; lia.
Qed.

Lemma delete_drawn x : message_drawn ts seq ('(len, dst, x) ← gen_order_delete cfg ts seq blank_message x; Some (len, dst, seq, x)).
Proof.
  pose proof (so_symbols cfg Hcfg) as Hn. unfold gen_order_delete. drawn (draw_symbol_ok x). destruct (draw_ref_ok seq x0 Hseq) as (ref & x1 & -> & Hr & Hr2). cbn [mbind option_bind].
  eexists 19, (deletion_message v ts ref), _, _, _. split; [reflexivity|]. split; [by apply generated_delete|].
  split; [reflexivity|]. intros host_be out. apply decode_deletion_message; unfold kSymbols in *; try done; lia.
Qed.

Lemma gen_message_ok x : message_drawn ts seq (gen_message cfg ts seq x).
Proof.
  unfold gen_message. fold blank_message. destruct (uniform_u32_ok 0 99 x) as (roll & x' & -> & _); [lia..|]. cbn [mbind option_bind].
  case_if; [apply add_drawn|]. case_if; [apply executed_drawn|]. case_if; [apply cancel_drawn|apply delete_drawn].
Qed.
End draws.

Lemma generated_next cfg ts seq t seq' : generated cfg ts seq t seq' -> seq <= seq' <= seq + 1.
Proof. destruct 1; lia. Qed.

Lemma gen_messages_ok cfg : sim_ok cfg -> forall n ts seq x,
  0 <= ts -> ts + 10000 * Z.of_nat n < 86400000000000 -> 1 <= seq -> seq + Z.of_nat n < 2 ^ 63 ->
  exists msgs x', gen_messages cfg n ts seq x = Some (msgs, x') /\ length msgs = n /\ stream cfg ts seq msgs.
Proof.
  intros Hcfg. induction n as [|n IH]; intros ts seq x Ht0 Ht Hs0 Hs.
  { exists [], x. split_and!; [done|done|constructor]. }
  cbn [gen_messages]. destruct (gen_message_ok cfg Hcfg ts seq ltac:(lia) ltac:(lia) x) as (len & raw & seq' & x1 & t & -> & Hg & Hd).
  pose proof (generated_next _ _ _ _ _ Hg). cbn [mbind option_bind].
  destruct (uniform_ok 100 10000 x1 ltac:(lia) ltac:(lia) ltac:(lia)) as (gap & x2 & -> & Hgap). cbn [mbind option_bind].
  rewrite wrap_u_id by (unfold in_u; lia). destruct (IH (ts + gap) seq' x2) as (msgs & x3 & -> & Hlen & Hst); [lia..|].
  eexists _, x3. split_and!; [done|by cbn [length]; rewrite Hlen|]. by eapply stream_cons.
Qed.

(** the simulator exercises the production decoder: for every meaningful
    configuration (1 to 512 symbols, a quantity range with a maximum of at least
    2, prices the book accepts) and every seed, [generate_synthetic_messages]
    terminates without a division by zero and fills the buffer; every message
    decodes, on a host of either endianness and with the symbol table that
    [init_synthetic] builds, to exactly the fields that were drawn; timestamps
    increase by 100 to 10000 ns and stay within the trading day for any 32-bit
    number of messages; added orders are numbered 1, 2, 3, ..., and executions,
    cancels and deletes name an order added before. *)
Theorem synthetic_stream_decodes (cfg : SimConfig) (Hcfg : sim_ok cfg) :
  exists msgs x, generate_synthetic_messages cfg (xoshiro.seeded (sc_seed cfg)) = Some (msgs, x) /\
    Z.of_nat (length msgs) = sc_prebuf_count cfg /\ stream cfg 34200000000000 1 msgs.
Proof.
  pose proof (so_count cfg Hcfg) as Hc. unfold in_u in Hc. unfold generate_synthetic_messages.
  destruct (gen_messages_ok cfg Hcfg (Z.to_nat (sc_prebuf_count cfg)) 34200000000000 1 (xoshiro.seeded (sc_seed cfg))) as (msgs & x & -> & Hl & Hst); [lia..|].
  exists msgs, x. split_and!; [done|lia|done].
Qed.

Definition small_sim (count : Z) : SimConfig :=
  mkSim kSynthetic 4 0 42 count (SpecFloat.S754_zero false) 0 0 0 None 1000000 5000000 1 100.

Lemma small_sim_ok count : in_u 32 count -> sim_ok (small_sim count).
Proof. intros Hc. split; cbn; unfold kSymbols, numeric.kMaxQuantity, numeric.kMaxPrice; try lia. done. Qed.

Lemma synthetic_stream_decodes_witness :
  exists msgs x, generate_synthetic_messages (small_sim 5) (xoshiro.seeded 42) = Some (msgs, x) /\ length msgs = 5%nat /\
    stream (small_sim 5) 34200000000000 1 msgs /\ msgs.*1 = [36; 36; 36; 19; 36].
Proof.
  destruct (synthetic_stream_decodes (small_sim 5)) as (msgs & x & E & Hl & Hs); [apply small_sim_ok; unfold in_u; lia|].
  exists msgs, x. split; [exact E|]. split; [cbn in Hl; lia|]. split; [exact Hs|].
  assert (E2 : (fun r => r.1.*1) <$> generate_synthetic_messages (small_sim 5) (xoshiro.seeded 42) = Some (msgs.*1)) by (change (sc_seed (small_sim 5)) with 42 in E; by rewrite E).
  vm_compute in E2. injection E2 as E3. symmetry. exact E3.
Defined.
