(* ===== verification/SimReorder.v ===== *)
(** * The order of the simulated feed (next_synthetic_index of luv_feed_sim.hpp)

    The prepared messages are emitted round-robin, shuffled inside a window.
    The fields of SimFeedSource that this uses form a record of their own. *)
From Stdlib Require Import ZArith Lia ZifyBool.
From S2P Require Import Prelude SimRng.

Record Shuffle := mkShuffle {
  sh_prebuf_count : Z;               (* uint32_t *)
  sh_prebuf_idx : Z;                 (* uint32_t, the round-robin cursor *)
  sh_pending_idx : list Z;           (* uint32_t*, _reorder_capacity cells *)
  sh_pending_count : Z;              (* uint32_t *)
  sh_reorder_capacity : Z;           (* uint32_t *)
  sh_source_remaining : Z;           (* uint32_t *)
}.

Module shuffle.

(** [None] is an access outside the pending array or a modulo by zero. *)
Definition store (i v : Z) (l : list Z) : option (list Z) :=
  if (0 <=? i) && (i <? Z.of_nat (length l)) then Some (<[Z.to_nat i := v]> l) else None.
Definition load (i : Z) (l : list Z) : option Z := if 0 <=? i then l !! Z.to_nat i else None.

Definition succ_idx (s : Shuffle) : option Z :=
  if sh_prebuf_count s =? 0 then None else Some (u32 (sh_prebuf_idx s + 1) mod sh_prebuf_count s).

(** [_pending_idx[_pending_count++] = _prebuf_idx; _prebuf_idx = (_prebuf_idx + 1) % _prebuf_count;] *)
Definition take_next (s : Shuffle) : option Shuffle :=
  pending ← store (sh_pending_count s) (sh_prebuf_idx s) (sh_pending_idx s);
  idx ← succ_idx s;
  Some (mkShuffle (sh_prebuf_count s) idx pending (u32 (sh_pending_count s + 1)) (sh_reorder_capacity s) (sh_source_remaining s)).

(** The while loop that fills the window; it runs at most [_reorder_capacity] times. *)
Fixpoint fill (fuel : nat) (s : Shuffle) : option Shuffle :=
  if sh_pending_count s <? sh_reorder_capacity s then
    match fuel with O => None | S fuel => s ← take_next s; fill fuel s end
  else Some s.

Definition set_remaining (r : Z) (s : Shuffle) : Shuffle :=
  mkShuffle (sh_prebuf_count s) (sh_prebuf_idx s) (sh_pending_idx s) (sh_pending_count s) (sh_reorder_capacity s) r.

(** Draws one of the pending indices; the last one takes its place. *)
Definition choose (s : Shuffle) (x : Xoshiro256) : option (Z * Shuffle * Xoshiro256) :=
  '(choice, x) ← xoshiro.uniform_u32 0 (u32 (sh_pending_count s - 1)) x;
  index ← load choice (sh_pending_idx s);
  let count := u32 (sh_pending_count s - 1) in
  last ← load count (sh_pending_idx s);
  pending ← store choice last (sh_pending_idx s);
  Some (index, mkShuffle (sh_prebuf_count s) (sh_prebuf_idx s) pending count (sh_reorder_capacity s) (sh_source_remaining s), x).

Definition next_synthetic_index (s : Shuffle) (x : Xoshiro256) : option (Z * Shuffle * Xoshiro256) :=
  if sh_reorder_capacity s =? 0 then
    idx ← succ_idx s;
    Some (sh_prebuf_idx s, mkShuffle (sh_prebuf_count s) idx (sh_pending_idx s) (sh_pending_count s) (sh_reorder_capacity s) (sh_source_remaining s), x)
  else if sh_pending_count s =? 0 then
    s ← fill (Z.to_nat (sh_reorder_capacity s)) s;
    choose (set_remaining (u32 (sh_prebuf_count s - sh_reorder_capacity s)) s) x
  else if negb (sh_source_remaining s =? 0) then
    s ← take_next s;
    choose (set_remaining (u32 (sh_source_remaining s - 1)) s) x
  else choose s x.

(** [n] calls in a row. *)
Fixpoint next_indices (n : nat) (s : Shuffle) (x : Xoshiro256) : option (list Z * Shuffle * Xoshiro256) :=
  match n with
  | O => Some ([], s, x)
  | S n =>
      '(i, s, x) ← next_synthetic_index s x;
      '(rest, s, x) ← next_indices n s x;
      Some (i :: rest, s, x)
  end.

End shuffle.

(** ** The window holds what was taken and not yet emitted *)
Definition pending (s : Shuffle) : list Z := take (Z.to_nat (sh_pending_count s)) (sh_pending_idx s).

(** Dimensions that no call changes. *)
Record shuffle_ok (N cap : Z) (s : Shuffle) : Prop := {
  sk_count : sh_prebuf_count s = N;
  sk_cap : sh_reorder_capacity s = cap;
  sk_bounds : 1 <= N < 2 ^ 32 /\ 0 <= cap <= N;
  sk_cells : Z.of_nat (length (sh_pending_idx s)) = cap;
  sk_pending : 0 <= sh_pending_count s <= cap;
  sk_idx : 0 <= sh_prebuf_idx s < N;
}.

(** The [k] indices from the round-robin cursor [a] on. *)
Definition from (N a : Z) (k : nat) : list Z := (fun j => (a + j) mod N) <$> zrange 0 k.

Lemma from_succ N a k : from N a (S k) = from N a k ++ [(a + Z.of_nat k) mod N].
Proof. unfold from, zrange. by rewrite seq_S, !fmap_app. Qed.

Lemma from_start N k : Z.of_nat k <= N -> from N 0 k = zrange 0 k.
Proof.
  intros Hk. unfold from. etrans; [|apply map_id]. apply map_ext_in. intros j Hj%list_elem_of_In%elem_of_zrange.
  apply Z.mod_small. lia.
Qed.

Lemma from_app N a k l : from N a (k + l) = from N a k ++ from N (a + Z.of_nat k) l.
Proof.
  induction l as [|l IH]; [by rewrite Nat.add_0_r, app_nil_r|]. rewrite Nat.add_succ_r, !from_succ, IH, <- app_assoc.
  do 4 f_equal. lia.
Qed.

Lemma succ_idx_ok N cap s : shuffle_ok N cap s -> shuffle.succ_idx s = Some ((sh_prebuf_idx s + 1) mod N).
Proof.
  intros [HN Hc [Hb1 Hb2] _ _ Hi]. unfold shuffle.succ_idx. rewrite HN. destruct (Z.eqb_spec N 0); [lia|].
  rewrite wrap_u_id by (unfold in_u; lia). done.
Qed.

(** After [k] indices were taken since the cursor was at [a]. *)
Definition taken (N a : Z) (k : nat) (emitted : list Z) (s : Shuffle) : Prop :=
  sh_prebuf_idx s = (a + Z.of_nat k) mod N /\ emitted ++ pending s ≡ₚ from N a k.

Lemma take_next_ok N cap a k emitted s : shuffle_ok N cap s -> sh_pending_count s < cap -> taken N a k emitted s ->
  exists s', shuffle.take_next s = Some s' /\ shuffle_ok N cap s' /\ taken N a (S k) emitted s' /\
    sh_pending_count s' = sh_pending_count s + 1 /\ sh_source_remaining s' = sh_source_remaining s.
Proof.
  intros Hok Hlt [Hidx Hperm]. pose proof Hok as [HN Hc [Hb1 Hb2] Hcells Hp Hi]. unfold shuffle.take_next, shuffle.store.
  destruct (_ && _) eqn:Hg; [|lia]. cbn [mbind option_bind]. rewrite (succ_idx_ok N cap) by done. cbn [mbind option_bind].
  rewrite wrap_u_id by (unfold in_u; lia). eexists. split; [done|]. pose proof (Z.mod_pos_bound (sh_prebuf_idx s + 1) N ltac:(lia)).
  split_and!; [|split; unfold pending; cbn [sh_prebuf_idx sh_pending_idx sh_pending_count]|done..].
  - split; cbn; rewrite ?length_insert; try done; lia.
  - rewrite Hidx, Z.add_mod_idemp_l by lia. f_equal. lia.
  - rewrite from_succ, <- Hperm, <- app_assoc, <- Hidx. f_equiv. unfold pending.
    replace (Z.to_nat (sh_pending_count s + 1)) with (S (Z.to_nat (sh_pending_count s))) by lia.
    erewrite take_S_r by (apply list_lookup_insert_eq; lia). rewrite take_insert_ge by lia. done.
Qed.

Lemma fill_ok N cap a : forall fuel k emitted s, shuffle_ok N cap s -> taken N a k emitted s ->
  cap - sh_pending_count s <= Z.of_nat fuel ->
  exists s', shuffle.fill fuel s = Some s' /\ shuffle_ok N cap s' /\
    taken N a (k + Z.to_nat (cap - sh_pending_count s)) emitted s' /\ sh_pending_count s' = cap.
Proof.
  induction fuel as [|fuel IH]; intros k emitted s Hok Ht Hf; pose proof Hok as [HN Hc _ _ Hp _]; cbn [shuffle.fill]; rewrite Hc;
    (destruct (Z.ltb_spec (sh_pending_count s) cap); [|exists s; replace (Z.to_nat _) with 0%nat by lia; rewrite Nat.add_0_r; split_and!; [done..|lia]]).
  { lia. }
  destruct (take_next_ok N cap a k emitted s Hok) as (s1 & -> & Hok1 & Ht1 & Hc1 & _); [done..|]. cbn [mbind option_bind].
  destruct (IH (S k) emitted s1 Hok1 Ht1) as (s2 & -> & Hok2 & Ht2 & Hc2); [lia|]. exists s2. split_and!; [done|done| |done].
  replace (k + _)%nat with (S k + Z.to_nat (cap - sh_pending_count s1))%nat by lia. done.
Qed.

(** Removing a cell by overwriting it with the last one. *)
Lemma swap_remove (l : list Z) (n j : nat) v w : (j < n)%nat -> (n <= length l)%nat -> l !! j = Some v -> l !! (n - 1)%nat = Some w ->
  take n l ≡ₚ v :: take (n - 1) (<[j := w]> l).
Proof.
  intros Hj Hn Hv Hw. replace n with (S (n - 1))%nat at 1 by lia. rewrite (take_S_r _ _ w) by done.
  destruct (decide (j = n - 1)%nat) as [->|Hne].
  - rewrite take_insert_ge by lia. rewrite Hv in Hw. injection Hw as <-. by rewrite Permutation_app_comm.
  - rewrite take_insert_lt by lia. assert (Hj' : take (n - 1) l !! j = Some v) by (by rewrite lookup_take_lt by lia).
    rewrite <- (take_drop_middle _ _ _ Hj') at 1. rewrite insert_take_drop by (rewrite length_take; lia).
    rewrite <- !app_assoc. cbn [app]. rewrite <- (Permutation_middle _ _ v). f_equiv. f_equiv. by rewrite Permutation_app_comm.
Qed.

Lemma choose_ok N cap a k emitted s x : shuffle_ok N cap s -> 1 <= sh_pending_count s -> taken N a k emitted s ->
  exists i s' x', shuffle.choose s x = Some (i, s', x') /\ shuffle_ok N cap s' /\ taken N a k (emitted ++ [i]) s' /\
    sh_pending_count s' = sh_pending_count s - 1 /\ sh_source_remaining s' = sh_source_remaining s.
Proof.
  intros Hok Hp1 [Hidx Hperm]. pose proof Hok as [HN Hc [Hb1 Hb2] Hcells Hp Hi]. unfold shuffle.choose.
  rewrite (wrap_u_id 32 (sh_pending_count s - 1)) by (unfold in_u; lia).
  destruct (uniform_u32_ok 0 (sh_pending_count s - 1) x) as (j & x' & -> & Hj); [lia..|]. cbn [mbind option_bind].
  unfold shuffle.load, shuffle.store. destruct (Z.leb_spec 0 j); [|lia]. destruct (Z.leb_spec 0 (sh_pending_count s - 1)); [|lia].
  destruct (lookup_lt_is_Some_2 (sh_pending_idx s) (Z.to_nat j)) as [v Hv]; [lia|]. rewrite Hv. cbn [mbind option_bind].
  destruct (lookup_lt_is_Some_2 (sh_pending_idx s) (Z.to_nat (sh_pending_count s - 1))) as [w Hw]; [lia|]. rewrite Hw. cbn [mbind option_bind].
  destruct (_ && _) eqn:Hg; [|lia]. cbn [mbind option_bind]. eexists v, _, x'. split; [done|]. split_and!; [|split; unfold pending; cbn [sh_prebuf_idx sh_pending_idx sh_pending_count]; [done|]|done..].
  - split; cbn; rewrite ?length_insert; try done; lia.
  - rewrite <- Hperm, <- app_assoc. f_equiv. unfold pending.
    replace (Z.to_nat (sh_pending_count s - 1)) with (Z.to_nat (sh_pending_count s) - 1)%nat in * by lia. symmetry. apply swap_remove; lia || done.
Qed.

Lemma taken_count N cap a k emitted s : shuffle_ok N cap s -> taken N a k emitted s -> sh_pending_count s = Z.of_nat k - Z.of_nat (length emitted).
Proof.
  intros [_ _ _ Hcells Hp _] [_ Hperm]. apply Permutation_length in Hperm. unfold pending, from in Hperm.
  rewrite length_app, length_take, length_fmap, length_zrange in Hperm. lia.
Qed.

(** ** One round *)

(** The indices taken when [m] were emitted in this round. *)
Definition window (N cap m : Z) : Z := if m =? 0 then 0 else Z.min N (m + Z.max cap 1 - 1).

Lemma window_pos N cap m : 1 <= m -> window N cap m = Z.min N (m + Z.max cap 1 - 1).
Proof. intros Hm. unfold window. by destruct (Z.eqb_spec m 0); [lia|]. Qed.

Lemma window_cases N cap m : 0 <= m -> m = 0 /\ window N cap m = 0 \/ 1 <= m /\ window N cap m = Z.min N (m + Z.max cap 1 - 1).
Proof. intros Hm. destruct (Z.eq_dec m 0) as [->|]; [by left|right]. split; [lia|]. apply window_pos. lia. Qed.

Record in_round (N cap a : Z) (emitted : list Z) (s : Shuffle) : Prop := {
  ir_ok : shuffle_ok N cap s;
  ir_taken : taken N a (Z.to_nat (window N cap (Z.of_nat (length emitted)))) emitted s;
  ir_remaining : 2 <= cap -> emitted <> [] -> sh_source_remaining s = N - window N cap (Z.of_nat (length emitted));
}.

Lemma choose_round N cap a k emitted s x : shuffle_ok N cap s -> taken N a k emitted s -> 1 <= sh_pending_count s ->
  Z.of_nat k = window N cap (Z.of_nat (length emitted) + 1) -> (2 <= cap -> sh_source_remaining s = N - Z.of_nat k) ->
  exists i s' x', shuffle.choose s x = Some (i, s', x') /\ in_round N cap a (emitted ++ [i]) s'.
Proof.
  intros Hok Ht Hp Hk Hr. destruct (choose_ok N cap a k emitted s x Hok Hp Ht) as (i & s' & x' & -> & Hok' & Ht' & _ & Hr').
  exists i, s', x'. split; [done|]. assert (Hlen : Z.of_nat (length (emitted ++ [i])) = Z.of_nat (length emitted) + 1) by (rewrite length_app; simpl; lia).
  split; [done|..]; rewrite Hlen, <- Hk; [by rewrite Nat2Z.id|]. intros H2 _. rewrite Hr'. by apply Hr.
Qed.

Lemma next_index_round N cap a emitted s x : in_round N cap a emitted s -> Z.of_nat (length emitted) < N ->
  exists i s' x', shuffle.next_synthetic_index s x = Some (i, s', x') /\ in_round N cap a (emitted ++ [i]) s'.
Proof.
  intros [Hok Ht Hr] Hm. pose proof Hok as [HN Hc [Hb1 Hb2] Hcells Hp Hi]. pose proof (taken_count _ _ _ _ _ _ Hok Ht) as Hcnt.
  set (m := Z.of_nat (length emitted)) in *. pose proof (window_cases N cap m ltac:(lia)) as Hw. pose proof (window_pos N cap (m + 1) ltac:(lia)) as Hw1.
  set (w := window N cap m) in *. rewrite Z2Nat.id in Hcnt by lia.
  assert (Hm0 : emitted = [] -> m = 0) by (intros E; subst m; by rewrite E).
  unfold shuffle.next_synthetic_index. rewrite Hc. destruct (Z.eqb_spec cap 0) as [Hc0|Hc0].
  - rewrite (succ_idx_ok N cap) by done. cbn [mbind option_bind]. eexists _, _, x. split; [done|].
    assert (Hwm : w = m) by lia. assert (Hnil : sh_pending_idx s = []) by (apply nil_length_inv; lia).
    assert (Hlen : Z.of_nat (length (emitted ++ [sh_prebuf_idx s])) = m + 1) by (rewrite length_app; simpl; lia).
    rewrite Hwm in Ht. destruct Ht as [Hidx Hperm].
    pose proof (Z.mod_pos_bound (sh_prebuf_idx s + 1) N ltac:(lia)).
    split; [by split|rewrite Hlen, Hw1|lia]. replace (Z.to_nat (Z.min N (m + 1 + Z.max cap 1 - 1))) with (S (Z.to_nat m)) by lia.
    split; unfold pending in *; cbn [sh_prebuf_idx sh_pending_idx sh_pending_count].
    + rewrite Hidx, Z.add_mod_idemp_l by lia. f_equal. lia.
    + rewrite from_succ, <- Hidx. rewrite Hnil, take_nil, app_nil_r in *. by f_equiv.
  - destruct (Z.eqb_spec (sh_pending_count s) 0) as [Hz|Hz].
    + destruct (fill_ok N cap a (Z.to_nat cap) _ _ s Hok Ht) as (s1 & -> & Hok1 & Ht1 & Hc1); [lia|]. cbn [mbind option_bind].
      rewrite (sk_count _ _ _ Hok1), (sk_cap _ _ _ Hok1), wrap_u_id by (unfold in_u; lia). rewrite Hz, Z.sub_0_r in Ht1.
      eapply (choose_round N cap a); [by destruct Hok1|exact Ht1|cbn; lia|fold m; lia|cbn; lia].
    + assert (H2 : 2 <= cap) by lia.
      assert (Hne : emitted <> []) by (intros E; apply Hm0 in E; lia). rewrite (Hr H2 Hne). destruct (Z.eqb_spec (N - w) 0) as [Hz2|Hz2]; cbn [negb].
      * eapply (choose_round N cap a); [done|exact Ht|lia|fold m; lia|]. intros _. rewrite (Hr H2 Hne). lia.
      * destruct (take_next_ok N cap a (Z.to_nat w) emitted s Hok) as (s1 & -> & Hok1 & Ht1 & Hc1 & Hr1); [lia|done|].
        cbn [mbind option_bind]. rewrite Hr1, (Hr H2 Hne), wrap_u_id by (unfold in_u; lia).
        eapply (choose_round N cap a); [by destruct Hok1|exact Ht1|cbn; lia|fold m; lia|cbn; lia].
Qed.

(** Without a window nothing is pending between calls, so the order is kept. *)
Lemma round_in_order N cap a emitted i s : in_round N cap a (emitted ++ [i]) s -> cap <= 1 -> Z.of_nat (length emitted) < N ->
  emitted = from N a (length emitted) -> emitted ++ [i] = from N a (length (emitted ++ [i])).
Proof.
  intros [Hok Ht _] Hc Hm He. pose proof (taken_count _ _ _ _ _ _ Hok Ht) as Hcnt. destruct Ht as [_ Hperm].
  rewrite window_pos in * by (rewrite length_app; simpl; lia).
  assert (Hn : Z.to_nat (Z.min N (Z.of_nat (length (emitted ++ [i])) + Z.max cap 1 - 1)) = S (length emitted)) by (rewrite length_app; simpl; lia).
  rewrite Hn in *. rewrite length_app in Hcnt |- *. simpl in Hcnt. unfold pending in Hperm.
  replace (sh_pending_count s) with 0 in Hperm by lia. cbn [Z.to_nat take] in Hperm. rewrite app_nil_r, from_succ, <- He in Hperm.
  apply (inj (app emitted)) in Hperm. apply Permutation_singleton_inj in Hperm as ->.
  rewrite Nat.add_1_r, from_succ. by rewrite <- He.
Qed.

Lemma next_indices_round N cap a n : forall emitted s x, in_round N cap a emitted s -> Z.of_nat (length emitted) + Z.of_nat n <= N ->
  exists l s' x', shuffle.next_indices n s x = Some (l, s', x') /\ length l = n /\ in_round N cap a (emitted ++ l) s' /\
    (cap <= 1 -> emitted = from N a (length emitted) -> emitted ++ l = from N a (length (emitted ++ l))).
Proof.
  induction n as [|n IH]; intros emitted s x Hin Hn; cbn [shuffle.next_indices].
  - exists [], s, x. by rewrite app_nil_r.
  - destruct (next_index_round N cap a emitted s x Hin) as (i & s1 & x1 & -> & Hin1); [lia|]. cbn [mbind option_bind].
    destruct (IH _ s1 x1 Hin1) as (l & s2 & x2 & -> & Hl & Hin2 & Ho2); [rewrite length_app; simpl; lia|]. cbn [mbind option_bind].
    exists (i :: l), s2, x2. rewrite <- app_assoc in *. cbn [app] in *. split_and!; [done|by simpl; rewrite Hl|done|].
    intros Hc He. apply Ho2; [done|]. eapply round_in_order; [exact Hin1|done|lia|done].
Qed.

Lemma from_round N a : 1 <= N -> from N a (Z.to_nat N) ≡ₚ zrange 0 (Z.to_nat N).
Proof.
  intros HN. assert (Hnd : NoDup (from N a (Z.to_nat N))).
  { unfold from. apply NoDup_fmap_2_strong; [|apply NoDup_zrange]. intros i j Hi%elem_of_zrange Hj%elem_of_zrange E.
    assert (E0 : (i - j) mod N = 0).
    { replace (i - j) with ((a + i) - (a + j)) by lia. rewrite Zminus_mod, E, Z.sub_diag. apply Z.mod_0_l. lia. }
    destruct (Z.lt_total i j) as [?|[?|?]]; [|done|].
    - rewrite <- (Z.mod_add _ 1), Z.mod_small in E0 by lia. lia.
    - rewrite Z.mod_small in E0 by lia. lia. }
  apply NoDup_Permutation; [done|apply NoDup_zrange|]. intros v. unfold from. rewrite list_elem_of_fmap, elem_of_zrange. split.
  - intros (j & -> & _). pose proof (Z.mod_pos_bound (a + j) N ltac:(lia)). lia.
  - intros Hv. pose proof (Z.mod_pos_bound (v - a) N ltac:(lia)). exists ((v - a) mod N). rewrite elem_of_zrange. split; [|lia].
    rewrite Z.add_mod_idemp_r by lia. replace (a + (v - a)) with v by lia. rewrite Z.mod_small; lia.
Qed.

(** A buffer of [N] messages before any was emitted. *)
Definition fresh_shuffle (N cap : Z) : Shuffle := mkShuffle N 0 (replicate (Z.to_nat cap) 0) 0 cap 0.
Definition round_start (s : Shuffle) : Prop :=
  shuffle_ok (sh_prebuf_count s) (sh_reorder_capacity s) s /\ sh_pending_count s = 0.

Lemma fresh_round_start N cap : 1 <= N < 2 ^ 32 -> 0 <= cap <= N -> round_start (fresh_shuffle N cap).
Proof. intros HN Hc. split; [|done]. split; cbn; rewrite ?length_replicate; lia. Qed.

Lemma reorder_round (s : Shuffle) (x : Xoshiro256) (Hstart : round_start s) :
  exists l s' x', shuffle.next_indices (Z.to_nat (sh_prebuf_count s)) s x = Some (l, s', x') /\
    l ≡ₚ zrange 0 (Z.to_nat (sh_prebuf_count s)) /\
    (sh_reorder_capacity s <= 1 -> l = from (sh_prebuf_count s) (sh_prebuf_idx s) (Z.to_nat (sh_prebuf_count s))) /\
    round_start s' /\ sh_prebuf_idx s' = sh_prebuf_idx s /\ sh_prebuf_count s' = sh_prebuf_count s.
Proof.
  destruct Hstart as [Hok Hz]. set (N := sh_prebuf_count s) in *. set (cap := sh_reorder_capacity s) in *. set (a := sh_prebuf_idx s).
  pose proof Hok as [_ _ [HN Hcap] _ _ Hidx].
  assert (Hin : in_round N cap a [] s).
  { split; [done| |done]. split; cbn [Z.of_nat length window Z.eqb Z.to_nat]; [by rewrite Z.add_0_r, Z.mod_small|]. unfold pending. by rewrite Hz. }
  destruct (next_indices_round N cap a (Z.to_nat N) [] s x Hin) as (l & s' & x' & -> & Hl & Hr & Ho); [simpl; lia|].
  exists l, s', x'. cbn [app] in *. destruct Hr as [Hok' Ht _].
  assert (Hw : Z.to_nat (window N cap (Z.of_nat (length l))) = Z.to_nat N) by (rewrite window_pos by lia; lia). rewrite Hw in Ht.
  pose proof (taken_count _ _ _ _ _ _ Hok' Ht) as Hcnt. destruct Ht as [Hidx' Hperm]. rewrite Hl, Z.sub_diag in Hcnt.
  unfold pending in Hperm. rewrite Hcnt in Hperm. cbn [Z.to_nat take] in Hperm. rewrite app_nil_r in Hperm.
  split_and!; [done| | | |rewrite Hidx', Z2Nat.id by lia|apply Hok'].
  - rewrite Hperm. apply from_round. lia.
  - intros Hc1. rewrite <- Hl. by apply Ho.
  - split; [|done]. by rewrite (sk_count _ _ _ Hok'), (sk_cap _ _ _ Hok').
  - rewrite <- Z.add_mod_idemp_r, Z.mod_same, Z.add_0_r by lia. by apply Z.mod_small.
Qed.

(** ** Any number of calls *)
Definition cycling (N cap : Z) (s : Shuffle) : Prop := exists a emitted, in_round N cap a emitted s /\ Z.of_nat (length emitted) < N.

Lemma round_start_cycling s : round_start s -> cycling (sh_prebuf_count s) (sh_reorder_capacity s) s.
Proof.
  intros [Hok Hz]. pose proof Hok as [_ _ [HN _] _ _ Hidx]. exists (sh_prebuf_idx s), []. split; [|simpl; lia].
  split; [done| |done]. split; cbn [Z.of_nat length window Z.eqb Z.to_nat]; [by rewrite Z.add_0_r, Z.mod_small|]. unfold pending. by rewrite Hz.
Qed.

Lemma next_index_cycling N cap s x : cycling N cap s ->
  exists i s' x', shuffle.next_synthetic_index s x = Some (i, s', x') /\ cycling N cap s' /\ 0 <= i < N.
Proof.
  intros (a & emitted & Hin & Hlt). destruct (next_index_round N cap a emitted s x Hin Hlt) as (i & s' & x' & E & Hin').
  exists i, s', x'. split; [done|]. pose proof Hin' as [Hok Ht _]. pose proof Hok as [HN Hc [HN1 _] _ _ _].
  assert (Hlen : Z.of_nat (length (emitted ++ [i])) = Z.of_nat (length emitted) + 1) by (rewrite length_app; simpl; lia). split.
  - destruct (Z.eq_dec (Z.of_nat (length (emitted ++ [i]))) N) as [HeqN|]; [|exists a, (emitted ++ [i]); split; [done|lia]].
    rewrite <- HN, <- Hc. apply round_start_cycling. split; [by rewrite HN, Hc|].
    pose proof (taken_count _ _ _ _ _ _ Hok Ht) as Hcnt. rewrite window_pos in Hcnt by lia. lia.
  - destruct Ht as [_ Hp]. assert (Hi : i ∈ from N a (Z.to_nat (window N cap (Z.of_nat (length (emitted ++ [i])))))) by (rewrite <- Hp; set_solver).
    unfold from in Hi. apply list_elem_of_fmap in Hi as (j & -> & _). apply Z.mod_pos_bound. lia.
Qed.

(** the reorder window permutes the feed, it never loses or repeats a
    message: whatever the random numbers, [_prebuf_count] successive calls of
    [next_synthetic_index] emit every prepared message exactly once (in order
    when there is no window), never touch a cell outside the pending array, and
    leave the feed ready for the next round with the same cursor. *)
Theorem reorder_round_permutes (s : Shuffle) (x : Xoshiro256) (Hstart : round_start s) :
  exists l s' x', shuffle.next_indices (Z.to_nat (sh_prebuf_count s)) s x = Some (l, s', x') /\
    l ≡ₚ zrange 0 (Z.to_nat (sh_prebuf_count s)) /\
    (sh_reorder_capacity s <= 1 -> l = from (sh_prebuf_count s) (sh_prebuf_idx s) (Z.to_nat (sh_prebuf_count s))) /\
    round_start s' /\ sh_prebuf_idx s' = sh_prebuf_idx s /\ sh_prebuf_count s' = sh_prebuf_count s.
Proof. by apply reorder_round. Qed.

Lemma reorder_round_permutes_witness :
  exists l s' x', shuffle.next_indices 6 (fresh_shuffle 6 3) (xoshiro.seeded 42) = Some (l, s', x') /\ l ≡ₚ [0; 1; 2; 3; 4; 5] /\
    l = [0; 2; 4; 5; 3; 1].
Proof.
  destruct (reorder_round_permutes (fresh_shuffle 6 3) (xoshiro.seeded 42)) as (l & s' & x' & E & Hp & _); [apply fresh_round_start; lia|].
  exists l, s', x'. split; [exact E|]. split; [exact Hp|].
  assert (E2 : (fun r => r.1.1) <$> shuffle.next_indices 6 (fresh_shuffle 6 3) (xoshiro.seeded 42) = Some l) by (change (Z.to_nat (sh_prebuf_count (fresh_shuffle 6 3))) with 6%nat in E; by rewrite E).
  vm_compute in E2. injection E2 as E3. symmetry. exact E3.
Defined.
