(* ===== verification/SimFeed.v ===== *)
(** * SimFeedSource (luv_feed_sim.hpp): the simulated and the replayed feed

    [init], [poll] and the counters.  The clock is an argument of the calls, the
    memory mappings are booleans (mapped or not) and, for a replay, the bytes of
    the file.  [None] is undefined behaviour of the source: a read outside the
    file or a buffer, or a division by zero. *)
From Stdlib Require Import ZArith Lia ZifyBool.
From Stdlib Require SpecFloat.
From S2P Require Import Prelude Config Numeric Bytes SymbolTable BookSpec Decode Ring Arena SimRng SimGen SimReorder.

Record Pacing := mkPacing {
  pa_ns_per_msg : Z;               (* uint64_t *)
  pa_last_emit_ns : Z;             (* uint64_t *)
  pa_messages_since_burst : Z;     (* uint32_t *)
  pa_burst_remaining : Z;          (* uint32_t *)
}.

Record Totals := mkTotals { to_msgs : Z; to_bytes : Z; to_dropped : Z }. (* uint64_t *)

(** [sf_messages] is [_raw_buf] with [_msg_lengths], [sf_replay] the mapped file. *)
Record SimFeedSource := mkFeed {
  sf_cfg : SimConfig;
  sf_totals : Totals;
  sf_messages : list (Z * list Z);
  sf_shuffle : Shuffle;
  sf_rng : Xoshiro256;
  sf_symbols : SymbolTable;
  sf_pacing : Pacing;
  sf_replay : list Z;
  sf_replay_cursor : Z;
}.

Module simfeed.

(** [SimFeedSource(cfg)] *)
Definition fresh (cfg : SimConfig) : SimFeedSource :=
  mkFeed cfg (mkTotals 0 0 0) [] (mkShuffle 0 0 [] 0 0 0) (xoshiro.seeded 0) (symtab.clear (mkSym ∅ ∅ 0)) (mkPacing 0 0 0 0) [] 0.

Definition set_totals (t : Totals) (f : SimFeedSource) : SimFeedSource :=
  mkFeed (sf_cfg f) t (sf_messages f) (sf_shuffle f) (sf_rng f) (sf_symbols f) (sf_pacing f) (sf_replay f) (sf_replay_cursor f).
Definition set_order (s : Shuffle) (x : Xoshiro256) (f : SimFeedSource) : SimFeedSource :=
  mkFeed (sf_cfg f) (sf_totals f) (sf_messages f) s x (sf_symbols f) (sf_pacing f) (sf_replay f) (sf_replay_cursor f).
Definition set_pacing (p : Pacing) (f : SimFeedSource) : SimFeedSource :=
  mkFeed (sf_cfg f) (sf_totals f) (sf_messages f) (sf_shuffle f) (sf_rng f) (sf_symbols f) p (sf_replay f) (sf_replay_cursor f).
Definition set_cursor (c : Z) (f : SimFeedSource) : SimFeedSource :=
  mkFeed (sf_cfg f) (sf_totals f) (sf_messages f) (sf_shuffle f) (sf_rng f) (sf_symbols f) (sf_pacing f) (sf_replay f) c.

Definition add_bytes (n : Z) (t : Totals) : Totals := mkTotals (to_msgs t) (u64 (to_bytes t + n)) (to_dropped t).
Definition count_message (t : Totals) : Totals := mkTotals (u64 (to_msgs t + 1)) (to_bytes t) (to_dropped t).
Definition count_drop (t : Totals) : Totals := mkTotals (to_msgs t) (to_bytes t) (u64 (to_dropped t + 1)).

Definition total_messages (f : SimFeedSource) : Z := to_msgs (sf_totals f).
Definition total_bytes (f : SimFeedSource) : Z := to_bytes (sf_totals f).
Definition total_dropped (f : SimFeedSource) : Z := to_dropped (sf_totals f).

(** *** Pacing *)
Definition burst_active (p : Pacing) : bool := negb (pa_burst_remaining p =? 0).

Definition note_attempt (cfg : SimConfig) (p : Pacing) : Pacing :=
  if negb (pa_burst_remaining p =? 0) then
    mkPacing (pa_ns_per_msg p) (pa_last_emit_ns p) (pa_messages_since_burst p) (u32 (pa_burst_remaining p - 1))
  else if (0 <? sc_burst_size cfg) && (0 <? sc_burst_interval cfg) then
    let since := u32 (pa_messages_since_burst p + 1) in
    if sc_burst_interval cfg <=? since then mkPacing (pa_ns_per_msg p) (pa_last_emit_ns p) 0 (sc_burst_size cfg)
    else mkPacing (pa_ns_per_msg p) (pa_last_emit_ns p) since (pa_burst_remaining p)
  else p.

(** The rate limit at the top of both polls: [false] is "too soon". *)
Definition pace (now : Z) (p : Pacing) : bool * Pacing :=
  if negb (burst_active p) && (0 <? pa_ns_per_msg p) then
    if u64 (now - pa_last_emit_ns p) <? pa_ns_per_msg p then (false, p)
    else (true, mkPacing (pa_ns_per_msg p) now (pa_messages_since_burst p) (pa_burst_remaining p))
  else (true, p).

(** *** Drop injection, in binary64 *)
Definition double_of (z : Z) : double := SpecFloat.binary_normalize 53 1024 z 0 false.

Definition should_drop (cfg : SimConfig) (x : Xoshiro256) : option (bool * Xoshiro256) :=
  if SpecFloat.SFleb (sc_drop_rate cfg) (double_of 0) then Some (false, x)
  else if SpecFloat.SFleb (double_of 1) (sc_drop_rate cfg) then Some (true, x)
  else
    '(v, x) ← xoshiro.uniform_u32 0 999 x;
    Some (SpecFloat.SFltb (double_of v) (SpecFloat.SFmul 53 1024 (sc_drop_rate cfg) (double_of 1000)), x).

(** *** Initialisation *)
Fixpoint insert_symbols (host_be : bool) (l : list Z) (t : SymbolTable) : option SymbolTable :=
  match l with
  | [] => Some t
  | i :: l => '(_, t) ← symtab.insert (Some (sim_ticker host_be i)) (u16 i) t; insert_symbols host_be l t
  end.

Definition ns_per_msg (cfg : SimConfig) (old : Z) : Z :=
  if 0 <? sc_target_rate_hz cfg then 1000000000 / sc_target_rate_hz cfg else old.

Definition init_synthetic (host_be mapped : bool) (now : Z) (f : SimFeedSource) : option (bool * SimFeedSource) :=
  let cfg := sf_cfg f in
  let x := xoshiro.seeded (sc_seed cfg) in
  let count := sc_prebuf_count cfg in
  let s := sf_shuffle f in
  let p := sf_pacing f in
  let p := mkPacing (ns_per_msg cfg (pa_ns_per_msg p)) (pa_last_emit_ns p) (pa_messages_since_burst p) (pa_burst_remaining p) in
  symbols ← insert_symbols host_be (zrange 0 (Z.to_nat (sc_synthetic_symbols cfg))) (sf_symbols f);
  let set := fun cap pending msgs x p => mkFeed cfg (sf_totals f) msgs
    (mkShuffle count (sh_prebuf_idx s) pending (sh_pending_count s) cap (sh_source_remaining s)) x symbols p (sf_replay f) (sf_replay_cursor f) in
  if count =? 0 then Some (false, set (sh_reorder_capacity s) (sh_pending_idx s) (sf_messages f) x p)
  else
    let capacity := if sc_reorder_window cfg <? count then sc_reorder_window cfg else count in
    let fail := Some (false, set capacity (sh_pending_idx s) (sf_messages f) x p) in
    let msg_slab := count * kSimMaxMsgLen in
    let len_slab := count * 4 in
    let reorder_slab := capacity * 4 in
    if (UINT64_MAX - len_slab <? msg_slab) || (UINT64_MAX - reorder_slab <? msg_slab + len_slab) then fail
    else if negb (can_align_up (msg_slab + len_slab + reorder_slab) 4096) then fail
    else if negb mapped then fail
    else
      '(msgs, x) ← generate_synthetic_messages cfg x;
      Some (true, set capacity (replicate (Z.to_nat capacity) 0) msgs x
                    (mkPacing (pa_ns_per_msg p) now (pa_messages_since_burst p) (pa_burst_remaining p))).

(** [file] is the content of the file, [None] when it cannot be opened or mapped. *)
Definition init_replay (file : option (list Z)) (now : Z) (f : SimFeedSource) : bool * SimFeedSource :=
  match sc_replay_path (sf_cfg f), file with
  | Some _, Some bytes =>
      if Z.of_nat (length bytes) =? 0 then (false, f)
      else
        let p := sf_pacing f in
        (true, mkFeed (sf_cfg f) (sf_totals f) (sf_messages f) (sf_shuffle f) (sf_rng f) (sf_symbols f)
                 (mkPacing (ns_per_msg (sf_cfg f) (pa_ns_per_msg p)) now (pa_messages_since_burst p) (pa_burst_remaining p)) bytes 0)
  | _, _ => (false, f)
  end.

Definition init (arena_ok host_be mapped : bool) (file : option (list Z)) (now : Z) (f : SimFeedSource) : option (bool * SimFeedSource) :=
  if negb arena_ok then Some (false, f)
  else if negb (SpecFloat.SFleb (double_of 0) (sc_drop_rate (sf_cfg f)) && SpecFloat.SFleb (sc_drop_rate (sf_cfg f)) (double_of 1))
  then Some (false, f)
  else match sc_mode (sf_cfg f) with
       | kSynthetic => init_synthetic host_be mapped now f
       | kReplay => Some (init_replay file now f)
       end.

(** *** Polling *)
Abbreviation TickRing := (SPSCRing TickMsg).

(** Claims a slot, decodes into it and commits it when the message is good;
    [inl] is a full ring. *)
Definition publish (host_be : bool) (raw : list Z) (len : Z) (symbols : SymbolTable) (r : TickRing) : option (unit + bool * TickRing) :=
  match ring.try_claim kTickCapacity r with
  | None => Some (inl tt)
  | Some slot =>
      '(ok, out) ← decode_itch host_be (Some raw) len symbols (ring.read_slot empty_tick slot r);
      let r := ring.write_slot slot out r in
      Some (inr (ok, if (ok : bool) then ring.commit r else r))
  end.

Definition poll_synthetic (host_be : bool) (now : Z) (f : SimFeedSource) (r : TickRing) : option (Z * SimFeedSource * TickRing) :=
  let '(ready, p) := pace now (sf_pacing f) in
  let f := set_pacing p f in
  if negb ready then Some (0, f, r)
  else if kTickCapacity <=? ring.size r then Some (0, f, r)
  else
    '(source_idx, s, x) ← shuffle.next_synthetic_index (sf_shuffle f) (sf_rng f);
    '(len, raw) ← sf_messages f !! Z.to_nat source_idx;
    let f := set_pacing (note_attempt (sf_cfg f) (sf_pacing f)) (set_order s x f) in
    '(drop, x) ← should_drop (sf_cfg f) (sf_rng f);
    let f := set_order s x f in
    if drop : bool then Some (0, set_totals (add_bytes len (count_drop (sf_totals f))) f, r)
    else
      published ← publish host_be raw len (sf_symbols f) r;
      match published with
      | inl _ => Some (0, f, r)
      | inr (true, r) => Some (1, set_totals (add_bytes len (count_message (sf_totals f))) f, r)
      | inr (false, r) => Some (0, set_totals (add_bytes len (sf_totals f)) f, r)
      end.

(** The frame at the cursor. *)
Definition msg_len_at (file : list Z) (cursor : Z) : option Z :=
  hi ← rd file cursor; lo ← rd file (cursor + 1); Some (Z.lor (u16 (Z.shiftl hi 8)) lo).

Definition poll_replay (host_be : bool) (now : Z) (f : SimFeedSource) (r : TickRing) : option (Z * SimFeedSource * TickRing) :=
  let '(ready, p) := pace now (sf_pacing f) in
  let f := set_pacing p f in
  let size := Z.of_nat (length (sf_replay f)) in
  if negb ready then Some (0, f, r)
  else if kTickCapacity <=? ring.size r then Some (0, f, r)
  else
    let f := if size <? sf_replay_cursor f + 2 then set_cursor 0 f else f in
    if size <? sf_replay_cursor f + 2 then Some (0, f, r)
    else
      msg_len ← msg_len_at (sf_replay f) (sf_replay_cursor f);
      if (msg_len =? 0) || (size <? sf_replay_cursor f + 2 + msg_len) then Some (0, set_cursor 0 f, r)
      else
        raw ← slice (sf_replay f) (sf_replay_cursor f + 2) msg_len;
        let f := set_pacing (note_attempt (sf_cfg f) (sf_pacing f)) f in
        '(drop, x) ← should_drop (sf_cfg f) (sf_rng f);
        let f := set_order (sf_shuffle f) x f in
        let advance := fun t => set_cursor (sf_replay_cursor f + 2 + msg_len) (set_totals (add_bytes (2 + msg_len) t) f) in
        if drop : bool then Some (0, advance (count_drop (sf_totals f)), r)
        else
          published ← publish host_be raw msg_len (sf_symbols f) r;
          match published with
          | inl _ => Some (0, f, r)
          | inr (true, r) => Some (1, advance (count_message (sf_totals f)), r)
          | inr (false, r) => Some (0, advance (sf_totals f), r)
          end.

Definition poll (host_be : bool) (now : Z) (f : SimFeedSource) (r : TickRing) : option (Z * SimFeedSource * TickRing) :=
  match sc_mode (sf_cfg f) with kSynthetic => poll_synthetic host_be now f r | kReplay => poll_replay host_be now f r end.

(** [poll] at the given times: the sum of the results. *)
Fixpoint polls (host_be : bool) (times : list Z) (f : SimFeedSource) (r : TickRing) : option (Z * SimFeedSource * TickRing) :=
  match times with
  | [] => Some (0, f, r)
  | now :: times =>
      '(k, f, r) ← poll host_be now f r;
      '(n, f, r) ← polls host_be times f r;
      Some (k + n, f, r)
  end.

End simfeed.

(** ** Publishing into the ring *)
Abbreviation tick_queue := (holds_queue 22 empty_tick).

Lemma tick_capacity : kTickCapacity = 2 ^ 22.
Proof. done. Qed.

Lemma publish_ok host_be raw len symbols r base q b t : tick_queue r base q -> Z.of_nat (length q) < kTickCapacity ->
  (forall out, decode_itch host_be (Some raw) len symbols out = Some (b, t out)) ->
  exists r' t', simfeed.publish host_be raw len symbols r = Some (inr (b, r')) /\ (exists out, t' = t out) /\
    tick_queue r' base (if b then q ++ [t'] else q).
Proof.
  intros Hq Hlen Hd. unfold simfeed.publish. rewrite tick_capacity in *. rewrite (try_claim_spec 22 ltac:(lia) empty_tick r base q Hq).
  destruct (Z.ltb_spec (Z.of_nat (length q)) (2 ^ 22)); [|lia]. rewrite Hd. cbn [mbind option_bind].
  set (t' := t _). destruct b.
  - eexists _, t'. split_and!; [done|by eexists|]. apply push_queue; done || lia.
  - eexists _, t'. split_and!; [done|by eexists|]. apply (write_queue 22 ltac:(lia) empty_tick r base q); done || lia.
Qed.

(** A feed that neither waits nor drops. *)
Record steady (f : SimFeedSource) : Prop := {
  sd_pace : pa_ns_per_msg (sf_pacing f) = 0;
  sd_drop : SpecFloat.SFleb (sc_drop_rate (sf_cfg f)) (simfeed.double_of 0) = true;
}.

Lemma pace_steady now p : pa_ns_per_msg p = 0 -> simfeed.pace now p = (true, p).
Proof. intros E. unfold simfeed.pace. rewrite E. by rewrite andb_false_r. Qed.

Lemma note_steady cfg p : pa_ns_per_msg p = 0 -> pa_ns_per_msg (simfeed.note_attempt cfg p) = 0.
Proof. intros E. unfold simfeed.note_attempt. repeat case_if; done. Qed.

Lemma ring_not_full r base q : tick_queue r base q -> Z.of_nat (length q) < kTickCapacity -> (kTickCapacity <=? ring.size r) = false.
Proof. intros Hq Hlen. rewrite (hq_distance 22 ltac:(lia) empty_tick _ _ _ Hq). lia. Qed.

(** ** Synthetic polls *)
Section synthetic.
Context (host_be : bool) (cfg : SimConfig) (msgs : list (Z * list Z)) (ticks : list TickMsg).
Context (Hmode : sc_mode cfg = kSynthetic) (Hticks : Forall2 (decodes_to cfg) msgs ticks).

(** The feed after its initialisation, somewhere in a run. *)
Record prepared (f : SimFeedSource) s x : Prop := {
  pr_cfg : sf_cfg f = cfg;
  pr_msgs : sf_messages f = msgs;
  pr_symbols : sf_symbols f = table_of (sim_symbol_ops cfg host_be);
  pr_shuffle : sf_shuffle f = s;
  pr_rng : sf_rng f = x;
  pr_total : in_u 64 (simfeed.total_messages f);
}.

Record running (f : SimFeedSource) s x : Prop := {
  rn_prepared : prepared f s x;
  rn_steady : steady f;
}.

Lemma poll_running f s x r base q i s' x' t now : running f s x -> tick_queue r base q -> Z.of_nat (length q) < kTickCapacity ->
  shuffle.next_synthetic_index s x = Some (i, s', x') -> ticks !! Z.to_nat i = Some t ->
  exists f' r', simfeed.poll host_be now f r = Some (1, f', r') /\ running f' s' x' /\ tick_queue r' base (q ++ [t]) /\
    sf_totals f' = simfeed.add_bytes (match msgs !! Z.to_nat i with Some m => m.1 | None => 0 end) (simfeed.count_message (sf_totals f)).
Proof.
  intros [[Hc Hm Hsy Hs Hx Htot] [Hp Hd]] Hq Hlen Hi Ht. unfold simfeed.poll. rewrite Hc, Hmode. unfold simfeed.poll_synthetic.
  rewrite pace_steady by done. cbn [negb]. rewrite (ring_not_full r base q) by done.
  cbn [sf_shuffle sf_rng sf_messages sf_cfg sf_pacing sf_totals sf_symbols simfeed.set_pacing simfeed.set_order]. rewrite Hs, Hx, Hi. cbn [mbind option_bind].
  destruct (Forall2_lookup_r _ _ _ _ _ Hticks Ht) as (msg & Hmsg & _ & Hdec). rewrite Hm, Hmsg. destruct msg as [len raw]. cbn [mbind option_bind].
  unfold simfeed.should_drop. rewrite Hd. cbn [mbind option_bind]. rewrite Hsy.
  destruct (publish_ok host_be raw len (table_of (sim_symbol_ops cfg host_be)) r base q true (fun _ => t) Hq Hlen) as (r' & t' & -> & [_ ->] & Hq'); [by apply Hdec|].
  cbn [mbind option_bind]. eexists _, r'. split_and!; [done| |done|done]. split; [|split; [by apply note_steady|done]]. split; try done. apply wrap_u_range. lia.
Qed.

Lemma polls_running times : forall f s x r base q l s' x', running f s x -> tick_queue r base q ->
  Z.of_nat (length q) + Z.of_nat (length times) <= kTickCapacity -> shuffle.next_indices (length times) s x = Some (l, s', x') ->
  Forall (fun i => 0 <= i < Z.of_nat (length ticks)) l ->
  exists f' r' new, simfeed.polls host_be times f r = Some (Z.of_nat (length times), f', r') /\ running f' s' x' /\ tick_queue r' base (q ++ new) /\
    Forall2 (fun i t => ticks !! Z.to_nat i = Some t) l new /\ simfeed.total_messages f' = u64 (simfeed.total_messages f + Z.of_nat (length times)) /\
    simfeed.total_dropped f' = simfeed.total_dropped f.
Proof.
  induction times as [|now times IH]; intros f s x r base q l s' x' Hrun Hq Hroom Hl Hrange; cbn [length shuffle.next_indices simfeed.polls] in *.
  - injection Hl as <- <- <-. exists f, r, []. rewrite app_nil_r, Z.add_0_r, wrap_u_id by (destruct Hrun as [[] _]; done). by split_and!.
  - destruct (shuffle.next_synthetic_index s x) as [[[i s1] x1]|] eqn:Ei; [|done]. cbn [mbind option_bind] in Hl.
    destruct (shuffle.next_indices (length times) s1 x1) as [[[l1 s2] x2]|] eqn:El; [|done]. injection Hl as <- <- <-.
    apply Forall_cons in Hrange as [Hi Hrange]. destruct (lookup_lt_is_Some_2 ticks (Z.to_nat i)) as [t Ht]; [lia|].
    destruct (poll_running f s x r base q i s1 x1 t now Hrun Hq ltac:(lia) Ei Ht) as (f1 & r1 & -> & Hrun1 & Hq1 & Htot1). cbn [mbind option_bind].
    destruct (IH f1 s1 x1 r1 base (q ++ [t]) l1 s2 x2 Hrun1 Hq1) as (f2 & r2 & new & -> & Hrun2 & Hq2 & Hnew & Hm2 & Hd2); [rewrite length_app; simpl; lia|done|done|].
    cbn [mbind option_bind]. exists f2, r2, (t :: new). split_and!; [do 3 f_equal; lia|done|by rewrite <- app_assoc in Hq2|by constructor| |].
    + rewrite Hm2. unfold simfeed.total_messages. rewrite Htot1. cbn [to_msgs simfeed.add_bytes simfeed.count_message]. unfold wrap_u.
      rewrite Zplus_mod_idemp_l. f_equal. lia.
    + rewrite Hd2. unfold simfeed.total_dropped. by rewrite Htot1.
Qed.
End synthetic.

(** ** Initialisation *)
Lemma insert_symbols_run host_be l : forall t M t' M',
  foldl step_sym (Some (t, M)) ((fun i => SymInsert (Some (sim_ticker host_be i)) i) <$> l) = Some (t', M') ->
  simfeed.insert_symbols host_be l t = Some t'.
Proof.
  induction l as [|i l IH]; intros t M t' M' E; [by injection E as ->|]. cbn [fmap list_fmap foldl step_sym mbind option_bind] in E. cbn [simfeed.insert_symbols].
  destruct (symtab.insert (Some (sim_ticker host_be i)) (u16 i) t) as [[ok t1]|]; cbn [mbind option_bind] in *; [by eapply IH|].
  exfalso. clear IH. induction (_ <$> l) as [|op ops IH]; [done|]. cbn [foldl] in E. by apply IH.
Qed.

Lemma stream_ticks cfg ts seq msgs : stream cfg ts seq msgs -> exists ticks, Forall2 (decodes_to cfg) msgs ticks.
Proof. induction 1 as [|ts seq msg t seq' gap msgs _ Hd _ _ [ticks IH]]; [by exists []|]. exists (t :: ticks). by constructor. Qed.

Lemma init_prepared host_be cfg now : sim_ok cfg -> sc_mode cfg = kSynthetic -> 1 <= sc_prebuf_count cfg -> 0 <= sc_reorder_window cfg ->
  SpecFloat.SFleb (simfeed.double_of 0) (sc_drop_rate cfg) = true -> SpecFloat.SFleb (sc_drop_rate cfg) (simfeed.double_of 1) = true ->
  exists f msgs, simfeed.init true host_be true None now (simfeed.fresh cfg) = Some (true, f) /\ stream cfg 34200000000000 1 msgs /\
    Z.of_nat (length msgs) = sc_prebuf_count cfg /\ simfeed.total_messages f = 0 /\ simfeed.total_dropped f = 0 /\
    pa_ns_per_msg (sf_pacing f) = simfeed.ns_per_msg cfg 0 /\
    exists x, prepared host_be cfg msgs f (fresh_shuffle (sc_prebuf_count cfg) (Z.min (sc_reorder_window cfg) (sc_prebuf_count cfg))) x.
Proof.
  intros Hok Hmode Hcount Hwin Hd0' Hd1. pose proof (so_count cfg Hok) as Hc. unfold in_u in Hc.
  unfold simfeed.init. cbn [negb simfeed.fresh sf_cfg]. rewrite Hd0', Hd1, Hmode. cbn [andb negb]. unfold simfeed.init_synthetic, simfeed.fresh.
  cbn [sf_cfg sf_shuffle sf_pacing sf_symbols sf_messages sf_totals sf_replay sf_replay_cursor sh_prebuf_idx sh_pending_count sh_source_remaining].
  pose proof (so_symbols cfg Hok) as Hn. unfold kSymbols in Hn.
  destruct (sim_symbols_run host_be (Z.to_nat (sc_synthetic_symbols cfg))) as (t & M & Erun & _); [unfold kSymbols; lia|].
  rewrite (insert_symbols_run host_be _ _ ∅ t M) by done. cbn [mbind option_bind]. destruct (Z.eqb_spec (sc_prebuf_count cfg) 0); [lia|].
  set (cap := if sc_reorder_window cfg <? sc_prebuf_count cfg then sc_reorder_window cfg else sc_prebuf_count cfg). assert (Hcap : cap = Z.min (sc_reorder_window cfg) (sc_prebuf_count cfg)) by (subst cap; case_if; lia).
  unfold kSimMaxMsgLen. rewrite orb_false_intro by lia. unfold can_align_up.
  destruct (gen_messages_ok cfg Hok (Z.to_nat (sc_prebuf_count cfg)) 34200000000000 1 (xoshiro.seeded (sc_seed cfg))) as (msgs & x & E & Hl & Hst); [lia..|].
  unfold generate_synthetic_messages. rewrite E.
  match goal with |- context [if negb ?c then _ else _] => replace c with true by (change (u64 (4096 - 1)) with 4095; change (Z.land 4096 4095) with 0; lia) end.
  cbn [negb mbind option_bind].
  eexists _, msgs. split; [done|]. split_and!; [done|lia|done..|]. exists x. split; try done.
  - cbn. unfold table_of, sim_symbol_ops. by rewrite Erun.
  - cbn. unfold fresh_shuffle. by rewrite Hcap.
Qed.

(** The emitted messages are a permutation of the prepared ones. *)
Lemma emitted_omap {A} (xs : list A) (l : list Z) (new : list A) :
  Forall2 (fun i t => xs !! Z.to_nat i = Some t) l new -> new = omap (fun i => xs !! Z.to_nat i) l.
Proof. induction 1 as [|i t l new Hi _ IH]; [done|]. cbn [omap list_omap]. by rewrite Hi, <- IH. Qed.

Lemma omap_all {A} (xs : list A) : omap (fun i => xs !! Z.to_nat i) (zrange 0 (length xs)) = xs.
Proof.
  symmetry. apply emitted_omap, Forall2_same_length_lookup_2; [apply length_zrange|]. intros i z t Hz Ht.
  unfold zrange in Hz. rewrite list_lookup_fmap in Hz. apply fmap_Some in Hz as (n & Hn & ->). apply lookup_seq in Hn as [-> _].
  by rewrite Z.add_0_l, Nat2Z.id.
Qed.

Lemma emitted_permutation {A} (xs : list A) (l : list Z) (new : list A) : l ≡ₚ zrange 0 (length xs) ->
  Forall2 (fun i t => xs !! Z.to_nat i = Some t) l new -> new ≡ₚ xs.
Proof. intros Hp ->%emitted_omap. rewrite Hp. by rewrite omap_all. Qed.

Lemma emitted_in_order {A} (xs : list A) (l : list Z) (new : list A) : l = zrange 0 (length xs) ->
  Forall2 (fun i t => xs !! Z.to_nat i = Some t) l new -> new = xs.
Proof. intros -> ->%emitted_omap. apply omap_all. Qed.

(** A configuration that emits every message, as fast as it is polled. *)
Record lossless (cfg : SimConfig) : Prop := {
  ll_ok : sim_ok cfg;
  ll_mode : sc_mode cfg = kSynthetic;
  ll_rate : sc_target_rate_hz cfg = 0;
  ll_count : 1 <= sc_prebuf_count cfg <= kTickCapacity;
  ll_window : 0 <= sc_reorder_window cfg;
  ll_drop : sc_drop_rate cfg = SpecFloat.S754_zero false;
}.


