(* ===== verification/SimReplay.v ===== *)
(** * Replaying a file (poll_replay of luv_feed_sim.hpp)

    What polling a replayed file does: memory safety on arbitrary bytes, and
    what arrives in the tick ring from a file in the documented format. *)
From Stdlib Require Import ZArith Lia ZifyBool.
From Stdlib Require SpecFloat.
From S2P Require Import Prelude Config Numeric Bytes SymbolTable BookSpec Decode Ring Arena SimRng SimGen SimReorder SimFeed.

(** The verdict of the decoder does not depend on what the slot held. *)
Lemma decode_out host_be raw len symbols out out' t :
  decode_itch host_be (Some raw) len symbols out = Some (true, t) -> decode_itch host_be (Some raw) len symbols out' = Some (true, t).
Proof.
  unfold decode_itch. case_if; [done|]. destruct (rd raw 0); [|done]. cbn [mbind option_bind]. case_if; [done|].
  destruct (detail.be_timestamp48 _ _ _); [|done]. cbn [mbind option_bind]. by case_if.
Qed.

Definition decoded (host_be : bool) (symbols : SymbolTable) (raw : list Z) : option TickMsg :=
  match decode_itch host_be (Some raw) (Z.of_nat (length raw)) symbols empty_tick with Some (true, t) => Some t | _ => None end.

Lemma decode_decoded host_be symbols raw out : bytes_ok raw -> symbols_ok symbols -> exists t',
  decode_itch host_be (Some raw) (Z.of_nat (length raw)) symbols out =
  Some (match decoded host_be symbols raw with Some t => (true, t) | None => (false, t') end).
Proof.
  intros Hr Hs. destruct (decode_itch_ok host_be raw symbols out Hr Hs) as (b & t & E & _).
  destruct (decode_itch_ok host_be raw symbols empty_tick Hr Hs) as (b' & t' & E' & _). unfold decoded. rewrite E'. exists t.
  destruct b'; [by rewrite (decode_out _ _ _ _ _ out _ E')|]. destruct b; [|done]. rewrite (decode_out _ _ _ _ _ empty_tick _ E) in E'. done.
Qed.

Lemma publish_decoded host_be symbols raw r base q : tick_queue r base q -> bytes_ok raw -> symbols_ok symbols ->
  Z.of_nat (length q) < kTickCapacity ->
  exists r', simfeed.publish host_be raw (Z.of_nat (length raw)) symbols r = Some (inr (bool_decide (is_Some (decoded host_be symbols raw)), r')) /\
    tick_queue r' base (q ++ option_list (decoded host_be symbols raw)).
Proof.
  intros Hq Hr Hs Hlen. unfold simfeed.publish. rewrite tick_capacity in *. rewrite (try_claim_spec 22 ltac:(lia) empty_tick r base q Hq).
  destruct (Z.ltb_spec (Z.of_nat (length q)) (2 ^ 22)); [|lia].
  destruct (decode_decoded host_be symbols raw (ring.read_slot empty_tick ((base + Z.of_nat (length q)) mod 2 ^ 22) r) Hr Hs) as (t' & ->).
  cbn [mbind option_bind]. destruct (decoded host_be symbols raw) as [t|]; cbn [option_list].
  - eexists. split; [done|]. apply push_queue; done || lia.
  - rewrite app_nil_r. eexists. split; [done|]. apply (write_queue 22 ltac:(lia) empty_tick r base q); done || lia.
Qed.

Lemma should_drop_total cfg x : exists b x', simfeed.should_drop cfg x = Some (b, x').
Proof.
  unfold simfeed.should_drop. case_if; [by eexists _, _|]. case_if; [by eexists _, _|].
  destruct (uniform_u32_ok 0 999 x) as (v & x' & -> & _); [lia..|]. by eexists _, _.
Qed.

Lemma msg_len_range file cursor n : bytes_ok file -> simfeed.msg_len_at file cursor = Some n -> 0 <= n < 2 ^ 16.
Proof.
  intros Hf. unfold simfeed.msg_len_at. destruct (rd file cursor) as [hi|] eqn:Eh; [|done]. cbn [mbind option_bind].
  destruct (rd file (cursor + 1)) as [lo|] eqn:El; [|done]. intros [= <-]. apply rd_range in Eh, El; [|done..]. unfold in_u in *.
  rewrite wrap_u_id by (unfold in_u; rewrite Z.shiftl_mul_pow2 by lia; lia). rewrite lor_shiftl_add by lia. lia.
Qed.

(** A feed replaying a file with the table the object was built with. *)
Record replaying (f : SimFeedSource) (file : list Z) : Prop := {
  rp_mode : sc_mode (sf_cfg f) = kReplay;
  rp_file : sf_replay f = file;
  rp_symbols : sf_symbols f = table_of [];
  rp_cursor : 0 <= sf_replay_cursor f;
}.

(** One poll of any file: no read outside it, and at most one tick, decoded
    from bytes of the file. *)
Lemma poll_replay_any host_be now f r file q base : replaying f file -> bytes_ok file -> tick_queue r base q ->
  exists f' r' new, simfeed.poll host_be now f r = Some (Z.of_nat (length new), f', r') /\ replaying f' file /\ tick_queue r' base (q ++ new) /\
    (new = [] \/ exists raw t, bytes_ok raw /\ new = [t] /\ decoded host_be (table_of []) raw = Some t).
Proof.
  intros [Hm Hf Hs Hc] Hb Hq. unfold simfeed.poll. rewrite Hm. unfold simfeed.poll_replay. destruct (simfeed.pace now _) as [ready p].
  destruct ready; cbn [negb]; [|exists (simfeed.set_pacing p f), r, []; rewrite app_nil_r; split_and!; [done|by split|done|by left]].
  destruct (kTickCapacity <=? ring.size r) eqn:Hfull; [exists (simfeed.set_pacing p f), r, []; rewrite app_nil_r; split_and!; [done|by split|done|by left]|].
  rewrite (hq_distance 22 ltac:(lia) empty_tick _ _ _ Hq) in Hfull.
  set (g0 := simfeed.set_pacing p f). change (sf_replay g0) with (sf_replay f). rewrite Hf.
  set (g := if _ <? _ then simfeed.set_cursor 0 g0 else g0).
  assert (Hg : replaying g file) by (subst g; case_if; by split). clearbody g. clear Hm Hf Hs Hc g0. destruct Hg as [Hm Hf Hs Hc].
  destruct (Z.ltb_spec (Z.of_nat (length file)) (sf_replay_cursor g + 2)) as [|Hroom];
    [exists g, r, []; rewrite app_nil_r; split_and!; [done|by split|done|by left]|].
  rewrite Hf. assert (Hn : exists n, simfeed.msg_len_at file (sf_replay_cursor g) = Some n).
  { unfold simfeed.msg_len_at. destruct (rd_ok file (sf_replay_cursor g) Hb ltac:(lia)) as (hi & -> & _).
    destruct (rd_ok file (sf_replay_cursor g + 1) Hb ltac:(lia)) as (lo & -> & _). by eexists. }
  destruct Hn as [n Hn]. pose proof (msg_len_range _ _ _ Hb Hn). rewrite Hn. cbn [mbind option_bind]. destruct (_ || _) eqn:Hbad;
    [exists (simfeed.set_cursor 0 g), r, []; rewrite app_nil_r; split_and!; [done|by split|done|by left]|].
  destruct (slice_is_Some file (sf_replay_cursor g + 2) n) as [raw Hraw]; [lia..|]. rewrite Hraw. cbn [mbind option_bind].
  pose proof (slice_bytes _ _ _ _ Hb Hraw) as Hrb. pose proof (slice_length _ _ _ _ (proj1 H) Hraw) as Hrl.
  match goal with |- context [simfeed.should_drop ?c ?x] => destruct (should_drop_total c x) as (drop & x' & ->) end. cbn [mbind option_bind].
  destruct drop.
  { eexists _, r, []. rewrite app_nil_r. split_and!; [done| |done|by left]. by split; cbn; [..|lia]. }
  replace n with (Z.of_nat (length raw)) by lia. cbn [sf_symbols simfeed.set_pacing simfeed.set_order]. rewrite Hs.
  destruct (publish_decoded host_be (table_of []) raw r base q Hq Hrb (table_of_ok []) ltac:(lia)) as (r' & -> & Hq'). cbn [mbind option_bind].
  destruct (decoded host_be (table_of []) raw) as [t|] eqn:Ed.
  - rewrite bool_decide_eq_true_2 by by eexists. eexists _, r', [t]. split_and!; [done| |done|right; by exists raw, t]. by split; cbn; [..|lia].
  - rewrite bool_decide_eq_false_2 by by intros []. eexists _, r', []. split_and!; [done| |done|by left]. by split; cbn; [..|lia].
Qed.

Lemma polls_replay_any host_be times : forall f r file q base, replaying f file -> bytes_ok file -> tick_queue r base q ->
  exists k f' r' new, simfeed.polls host_be times f r = Some (k, f', r') /\ tick_queue r' base (q ++ new) /\
    Forall (fun t => exists raw, bytes_ok raw /\ decoded host_be (table_of []) raw = Some t) new.
Proof.
  induction times as [|now times IH]; intros f r file q base Hf Hb Hq; cbn [simfeed.polls].
  { exists 0, f, r, []. rewrite app_nil_r. split_and!; [done|done|constructor]. }
  destruct (poll_replay_any host_be now f r file q base Hf Hb Hq) as (f1 & r1 & new1 & -> & Hf1 & Hq1 & Hnew1). cbn [mbind option_bind].
  destruct (IH f1 r1 file _ base Hf1 Hb Hq1) as (k2 & f2 & r2 & new2 & -> & Hq2 & Hnew2). cbn [mbind option_bind].
  exists (Z.of_nat (length new1) + k2), f2, r2, (new1 ++ new2). split_and!; [done|by rewrite app_assoc|]. apply Forall_app. split; [|done].
  destruct Hnew1 as [->|(raw & t & Hr & -> & Ht)]; [constructor|]. constructor; [by exists raw|constructor].
Qed.

Lemma init_replaying host_be cfg path file now : sc_mode cfg = kReplay -> sc_replay_path cfg = Some path -> file <> [] ->
  SpecFloat.SFleb (simfeed.double_of 0) (sc_drop_rate cfg) = true -> SpecFloat.SFleb (sc_drop_rate cfg) (simfeed.double_of 1) = true ->
  exists f, simfeed.init true host_be true (Some file) now (simfeed.fresh cfg) = Some (true, f) /\ replaying f file /\
    sf_cfg f = cfg /\ sf_replay_cursor f = 0 /\ pa_ns_per_msg (sf_pacing f) = simfeed.ns_per_msg cfg 0 /\ sf_totals f = mkTotals 0 0 0.
Proof.
  intros Hm Hp Hne H0 H1. unfold simfeed.init. cbn [negb simfeed.fresh sf_cfg]. rewrite H0, H1, Hm. cbn [andb negb].
  unfold simfeed.init_replay. cbn [simfeed.fresh sf_cfg]. rewrite Hp. destruct (Z.eqb_spec (Z.of_nat (length file)) 0); [by destruct file|].
  eexists. split; [done|]. by split_and!.
Qed.

(** *** A file of well-formed frames *)

(** A message with its two-byte length, as the comment on [poll_replay] has it. *)
Definition frame (raw : list Z) : list Z := put_u16_be (Z.of_nat (length raw)) ++ raw.
Definition frames (msgs : list (list Z)) : list Z := msgs ≫= frame.
Definition framable (raw : list Z) : Prop := bytes_ok raw /\ 1 <= Z.of_nat (length raw) < 2 ^ 16.

Lemma frame_length raw : Z.of_nat (length (frame raw)) = Z.of_nat (length raw) + 2.
Proof. unfold frame. rewrite length_app. simpl. lia. Qed.

Lemma frame_len_at pre raw post : framable raw ->
  simfeed.msg_len_at (pre ++ frame raw ++ post) (Z.of_nat (length pre)) = Some (Z.of_nat (length raw)).
Proof.
  intros [_ Hl]. unfold simfeed.msg_len_at, frame. set (n := Z.of_nat (length raw)) in *. unfold put_u16_be. cbn [app].
  rewrite (rd_app pre _ _ (Z.of_nat (length pre))) by done. cbn [mbind option_bind].
  change (pre ++ u8 (Z.shiftr n 8) :: u8 n :: raw ++ post) with (pre ++ [u8 (Z.shiftr n 8)] ++ u8 n :: (raw ++ post)).
  rewrite app_assoc, rd_app by (rewrite length_app; simpl; lia). cbn [mbind option_bind]. f_equal.
  rewrite Z.shiftr_div_pow2 by lia. change (2 ^ 8) with 256.
  assert (Hd : 0 <= n / 256 < 256) by (split; [apply Z.div_pos; lia|apply Z.div_lt_upper_bound; lia]).
  rewrite (wrap_u_id 8 (n / 256)) by (unfold in_u; lia). pose proof (Z.mod_pos_bound n 256 ltac:(lia)). unfold wrap_u at 2. change (2 ^ 8) with 256.
  rewrite wrap_u_id by (unfold in_u; rewrite Z.shiftl_mul_pow2 by lia; lia). rewrite lor_shiftl_add by lia. pose proof (Z.div_mod n 256). lia.
Qed.

Lemma poll_frame host_be now f r q pre raw post : replaying f (pre ++ frame raw ++ post) -> steady f -> framable raw ->
  sf_replay_cursor f = Z.of_nat (length pre) \/
    (pre = [] /\ sf_replay_cursor f = Z.of_nat (length (frame raw ++ post))) -> tick_queue r 0 q -> Z.of_nat (length q) < kTickCapacity ->
  exists f' r', let new := option_list (decoded host_be (table_of []) raw) in
    simfeed.poll host_be now f r = Some (Z.of_nat (length new), f', r') /\ replaying f' (pre ++ frame raw ++ post) /\ steady f' /\
    sf_replay_cursor f' = Z.of_nat (length (pre ++ frame raw)) /\ tick_queue r' 0 (q ++ new) /\
    sf_totals f' = simfeed.add_bytes (Z.of_nat (length (frame raw))) (if new is [] then sf_totals f else simfeed.count_message (sf_totals f)).
Proof.
  intros [Hm Hf Hs Hc0] [Hp Hd] Hfr Hc Hq Hlen. pose proof Hfr as [Hrb Hl]. pose proof (frame_length raw) as Hfl.
  set (file := pre ++ frame raw ++ post) in *. assert (Hsz : Z.of_nat (length file) = Z.of_nat (length pre) + Z.of_nat (length raw) + 2 + Z.of_nat (length post)).
  { unfold file. rewrite !length_app. lia. }
  unfold simfeed.poll. rewrite Hm. unfold simfeed.poll_replay. rewrite pace_steady by done. cbn [negb]. rewrite (ring_not_full r 0 q) by done.
  cbn [sf_replay simfeed.set_pacing sf_replay_cursor]. rewrite Hf. set (g0 := simfeed.set_pacing (sf_pacing f) f).
  set (g := if _ <? _ then simfeed.set_cursor 0 g0 else g0).
  assert (Hg : sf_replay_cursor g = Z.of_nat (length pre) /\ sf_replay g = file /\ sf_cfg g = sf_cfg f /\ sf_symbols g = table_of [] /\
            sf_pacing g = sf_pacing f /\ sf_totals g = sf_totals f).
  { subst g. destruct (Z.ltb_spec (Z.of_nat (length file)) (sf_replay_cursor f + 2)); cbn; split_and!; try done;
      destruct Hc as [Hc|[-> Hc]]; simpl in *; rewrite ?length_app in *; lia. }
  clearbody g. destruct Hg as (Hgc & Hgf & Hgcfg & Hgs & Hgp & Hgt). rewrite Hgc, Hgf.
  destruct (Z.ltb_spec (Z.of_nat (length file)) (Z.of_nat (length pre) + 2)); [lia|]. rewrite (frame_len_at pre raw post Hfr : simfeed.msg_len_at file _ = _). cbn [mbind option_bind].
  rewrite orb_false_intro by lia.
  assert (Hsl : slice file (Z.of_nat (length pre) + 2) (Z.of_nat (length raw)) = Some raw).
  { unfold file, frame. rewrite <- app_assoc, app_assoc. apply slice_app; [rewrite length_app; simpl; lia|done]. }
  rewrite Hsl. cbn [mbind option_bind sf_cfg simfeed.set_pacing]. unfold simfeed.should_drop. rewrite Hgcfg, Hd. cbn [mbind option_bind].
  cbn [sf_symbols simfeed.set_order simfeed.set_pacing]. rewrite Hgs.
  destruct (publish_decoded host_be (table_of []) raw r 0 q Hq Hrb (table_of_ok []) Hlen) as (r' & -> & Hq'). cbn [mbind option_bind].
  assert (Hst : forall x t, steady (simfeed.set_cursor x (simfeed.set_totals t (simfeed.set_order (sf_shuffle g) (sf_rng g)
             (simfeed.set_pacing (simfeed.note_attempt (sf_cfg f) (sf_pacing g)) g))))).
  { intros x t. split; cbn; [apply note_steady; by rewrite Hgp|by rewrite Hgcfg]. }
  assert (Hcur : Z.of_nat (length pre) + 2 + Z.of_nat (length raw) = Z.of_nat (length (pre ++ frame raw))) by (rewrite length_app; lia).
  assert (Hby : 2 + Z.of_nat (length raw) = Z.of_nat (length (frame raw))) by lia.
  destruct (decoded host_be (table_of []) raw) as [t|]; cbn [option_list length].
  - rewrite bool_decide_eq_true_2 by by eexists. eexists _, r'. split_and!; [done| |apply Hst|rewrite <- Hcur, <- Hgc; done|done|].
    + split; cbn; [by rewrite Hgcfg|done..|lia].
    + rewrite <- Hby, <- Hgt. done.
  - rewrite bool_decide_eq_false_2 by by intros []. eexists _, r'. split_and!; [done| |apply Hst|rewrite <- Hcur, <- Hgc; done|done|].
    + split; cbn; [by rewrite Hgcfg|done..|lia].
    + rewrite <- Hby, <- Hgt. done.
Qed.

Lemma omap_shorter {A B} (f : A -> option B) l : (length (omap f l) <= length l)%nat.
Proof. induction l as [|x l IH]; [done|]. cbn [omap list_omap length]. destruct (f x); simpl; unfold omap in *; lia. Qed.

(** Counting what a run published. *)
Definition totals_typed (t : Totals) : Prop := in_u 64 (to_msgs t) /\ in_u 64 (to_bytes t).
Definition totals_add (n b : Z) (t : Totals) : Totals := mkTotals (u64 (to_msgs t + n)) (u64 (to_bytes t + b)) (to_dropped t).

Lemma totals_add_0 t : totals_typed t -> totals_add 0 0 t = t.
Proof. intros [Hm Hb]. destruct t. unfold totals_add. cbn in *. by rewrite !Z.add_0_r, (wrap_u_id 64 _ Hm), (wrap_u_id 64 _ Hb). Qed.

Lemma totals_add_add n b n' b' t : totals_add n' b' (totals_add n b t) = totals_add (n + n') (b + b') t.
Proof. unfold totals_add. cbn. unfold wrap_u. rewrite !Zplus_mod_idemp_l. by rewrite !Z.add_assoc. Qed.

Lemma totals_add_typed n b t : totals_typed (totals_add n b t).
Proof. split; apply wrap_u_range; lia. Qed.

Lemma totals_frame (new : list TickMsg) b t : totals_typed t -> (length new <= 1)%nat ->
  simfeed.add_bytes b (if new is [] then t else simfeed.count_message t) = totals_add (Z.of_nat (length new)) b t.
Proof.
  intros [Hm _] Hl. destruct new as [|x [|? ?]]; cbn in Hl; [|done|lia]. unfold totals_add, simfeed.add_bytes. cbn.
  change (Z.of_nat 0) with 0. by rewrite Z.add_0_r, (wrap_u_id 64 _ Hm).
Qed.

Lemma polls_app host_be ts1 ts2 f r : simfeed.polls host_be (ts1 ++ ts2) f r =
  ('(k, f, r) ← simfeed.polls host_be ts1 f r; '(n, f, r) ← simfeed.polls host_be ts2 f r; Some (k + n, f, r)).
Proof.
  revert f r. induction ts1 as [|now ts1 IH]; intros f r; cbn [app simfeed.polls mbind option_bind].
  { by destruct (simfeed.polls host_be ts2 f r) as [[[n ?] ?]|]. }
  destruct (simfeed.poll host_be now f r) as [[[k f1] r1]|]; [|done]. cbn [mbind option_bind]. rewrite IH.
  destruct (simfeed.polls host_be ts1 f1 r1) as [[[k2 f2] r2]|]; [|done]. cbn [mbind option_bind].
  destruct (simfeed.polls host_be ts2 f2 r2) as [[[k3 f3] r3]|]; [|done]. cbn [mbind option_bind]. do 3 f_equal. lia.
Qed.

Section rounds.
Context (host_be : bool) (msgs : list (list Z)) (Hmsgs : Forall framable msgs).
Let file := frames msgs.
Abbreviation dec := (decoded host_be (table_of [])).

(** The feed at a cursor, with what it has published. *)
Record replay_at (f : SimFeedSource) (r : SPSCRing TickMsg) (cursor : Z) (q : list TickMsg) (t : Totals) : Prop := {
  ra_feed : replaying f file;
  ra_steady : steady f;
  ra_cursor : sf_replay_cursor f = cursor;
  ra_ring : tick_queue r 0 q;
  ra_totals : sf_totals f = t;
  ra_typed : totals_typed t;
}.

Lemma frames_app l1 l2 : frames (l1 ++ l2) = frames l1 ++ frames l2.
Proof. unfold frames. apply bind_app. Qed.

Lemma polls_frames l2 : forall l1 times f r c q t, msgs = l1 ++ l2 -> length times = length l2 ->
  Z.of_nat (length q) + Z.of_nat (length l2) <= kTickCapacity ->
  c = Z.of_nat (length (frames l1)) \/ (l1 = [] /\ c = Z.of_nat (length file)) -> replay_at f r c q t ->
  exists f' r', simfeed.polls host_be times f r = Some (Z.of_nat (length (omap dec l2)), f', r') /\
    replay_at f' r' (Z.of_nat (length file)) (q ++ omap dec l2) (totals_add (Z.of_nat (length (omap dec l2))) (Z.of_nat (length (frames l2))) t).
Proof.
  induction l2 as [|raw l2 IH]; intros l1 times f r c q t Hm Ht Hroom Hat [Hf Hs Hc Hq Htot Hty].
  { destruct times; [|done]. exists f, r. cbn [simfeed.polls omap list_omap length frames mbind list_bind]. rewrite app_nil_r, totals_add_0 by done.
    rewrite app_nil_r in Hm. split; [done|]. split; try done. rewrite Hc.
    destruct Hat as [->|[_ ->]]; [by unfold file; rewrite Hm|done]. }
  destruct times as [|now times]; [done|]. cbn [length] in *. injection Ht as Ht.
  assert (Hfr : framable raw) by (rewrite Hm in Hmsgs; by apply Forall_app in Hmsgs as [_ [? _]%Forall_cons]).
  assert (Hfile : file = frames l1 ++ frame raw ++ frames l2) by (unfold file; rewrite Hm, frames_app; done).
  rewrite Hfile in Hf. destruct (poll_frame host_be now f r q (frames l1) raw (frames l2) Hf Hs Hfr) as
    (f1 & r1 & Hp & Hf1 & Hs1 & Hc1 & Hq1 & Ht1); [|done|lia|].
  { rewrite Hc. destruct Hat as [->|[-> ->]]; [by left|right]. split; [done|]. by rewrite Hfile. }
  assert (Hnew : (length (option_list (dec raw)) <= 1)%nat) by (by destruct (dec raw); simpl; lia).
  rewrite totals_frame in Ht1 by (try done; by rewrite Htot). rewrite Htot in Ht1.
  destruct (IH (l1 ++ [raw]) times f1 r1 (Z.of_nat (length (frames (l1 ++ [raw])))) (q ++ option_list (dec raw)) (totals_add (Z.of_nat (length (option_list (dec raw)))) (Z.of_nat (length (frame raw))) t))
    as (f2 & r2 & Hps & Hra2).
  { by rewrite <- app_assoc. }
  { done. }
  { rewrite length_app. lia. }
  { by left. }
  { split; [by rewrite Hfile|done| |done|done|apply totals_add_typed]. rewrite Hc1, frames_app. cbn [frames mbind list_bind]. by rewrite app_nil_r. }
  exists f2, r2. cbn [simfeed.polls]. rewrite Hp. cbn [mbind option_bind]. rewrite Hps. cbn [mbind option_bind].
  rewrite totals_add_add, <- Nat2Z.inj_add, <- Nat2Z.inj_add, <- !length_app, <- app_assoc in Hra2.
  assert (Hom : omap dec (raw :: l2) = option_list (dec raw) ++ omap dec l2) by (cbn [omap list_omap]; by destruct (dec raw)).
  rewrite Hom. split; [|exact Hra2]. rewrite length_app. do 3 f_equal. lia.
Qed.

(** From either end of the file, a round delivers the whole file. *)
Lemma polls_round times f r c q t : length times = length msgs -> c = 0 \/ c = Z.of_nat (length file) ->
  Z.of_nat (length q) + Z.of_nat (length msgs) <= kTickCapacity -> replay_at f r c q t ->
  exists f' r', simfeed.polls host_be times f r = Some (Z.of_nat (length (omap dec msgs)), f', r') /\
    replay_at f' r' (Z.of_nat (length file)) (q ++ omap dec msgs) (totals_add (Z.of_nat (length (omap dec msgs))) (Z.of_nat (length file)) t).
Proof.
  intros Ht Hc Hroom Hra. apply (polls_frames msgs [] times f r c q t); try done. destruct Hc as [-> | ->]; [by left|by right].
Qed.

Lemma polls_rounds k : forall times f r c q t, length times = (k * length msgs)%nat -> c = 0 \/ c = Z.of_nat (length file) ->
  Z.of_nat (length q) + Z.of_nat (k * length msgs) <= kTickCapacity -> replay_at f r c q t ->
  exists f' r' c', simfeed.polls host_be times f r = Some (Z.of_nat (k * length (omap dec msgs)), f', r') /\
    replay_at f' r' c' (q ++ concat (replicate k (omap dec msgs)))
      (totals_add (Z.of_nat (k * length (omap dec msgs))) (Z.of_nat (k * length file)) t).
Proof.
  induction k as [|k IH]; intros times f r c q t Ht Hc Hroom Hra.
  { destruct times; [|done]. exists f, r, c. cbn [Nat.mul replicate concat]. rewrite app_nil_r, totals_add_0 by apply Hra. done. }
  assert (Hsplit : times = take (length msgs) times ++ drop (length msgs) times) by by rewrite take_drop. rewrite Hsplit, polls_app.
  assert (Hom : (length (omap dec msgs) <= length msgs)%nat) by apply omap_shorter.
  destruct (polls_round (take (length msgs) times) f r c q t) as (f1 & r1 & -> & Hra1); [rewrite length_take; lia|done|lia|done|]. cbn [mbind option_bind].
  destruct (IH (drop (length msgs) times) f1 r1 (Z.of_nat (length file)) (q ++ omap dec msgs) _ ltac:(rewrite length_drop; lia) (or_intror eq_refl) ltac:(rewrite length_app; lia) Hra1) as (f2 & r2 & c2 & -> & Hra2).
  cbn [mbind option_bind]. exists f2, r2, c2. rewrite totals_add_add, <- !Nat2Z.inj_add, <- app_assoc in Hra2. split; [do 3 f_equal; lia|exact Hra2].
Qed.
End rounds.

(** The messages that name their symbol by a ticker. *)
Definition ticker_types : list Z :=
  [itch.kAddOrder; itch.kAddOrderMPID; itch.kTrade; itch.kCrossTrade; itch.kStockTradingAction; itch.kRegSHO].

Lemma lookup_unknown host_be raw off : lookup_at host_be raw (table_of []) off = Some symtab.kNotFound \/ lookup_at host_be raw (table_of []) off = None.
Proof.
  unfold lookup_at. destruct (detail.load_ticker_key host_be raw off) as [key|]; [left|by right]. cbn [mbind option_bind].
  rewrite (symtab.sym_lookup_repr _ ∅) by apply symtab.sym_clear_repr. unfold symtab.resolve. by rewrite lookup_empty.
Qed.

Lemma decoded_unnamed host_be raw t : bytes_ok raw -> decoded host_be (table_of []) raw = Some t -> t_msg_type t ∉ ticker_types.
Proof.
  intros Hr. unfold decoded. destruct (decode_itch_ok host_be raw (table_of []) empty_tick Hr (table_of_ok [])) as (b & t' & E & Ht).
  rewrite E. destruct b; [|done]. intros [= ->]. destruct (Ht eq_refl) as (_ & _ & Hty). clear Ht. unfold decode_itch in E. case_if_in E; [done|].
  rewrite Hty in E. cbn [mbind option_bind] in E. case_if_in E; [done|]. destruct (detail.be_timestamp48 _ _ _) as [ts|]; [|done].
  cbn [mbind option_bind] in E. case_if_in E; [done|]. intros Hin. revert E. unfold ticker_types in Hin.
  repeat (apply elem_of_cons in Hin as [->|Hin]); [..|by apply not_elem_of_nil in Hin]; unfold decode_body; cbn [header_tick t_msg_type];
    repeat match goal with |- context [if ?b then _ else _] => let v := eval vm_compute in b in change b with v; cbv iota end;
    unfold decode_add, decode_trade, decode_cross, decode_trading_action, decode_reg_sho.
  all: match goal with |- (if ?b then _ else _) = _ -> _ => destruct b end; [done|];
    match goal with |- context [lookup_at _ _ _ ?off] => destruct (lookup_unknown host_be raw off) as [-> | ->] end;
    cbn [mbind option_bind]; [|done]; rewrite Z.eqb_refl; cbn [orb]; try done;
    repeat match goal with |- context [?x ≫= _] => destruct x; cbn [mbind option_bind]; [|done] end; done.
Qed.

(** a replay never reads outside its file, whatever bytes the file holds,
    at whatever times it is polled and with any drop rate and pacing the
    configuration allows; what it commits to the ring is decoded from bytes of
    the file, so the ring only receives ticks the book engine accepts or
    ignores. *)
Theorem replay_any_file_safe (cfg : SimConfig) (path file : list Z) (host_be : bool) (now : Z) (times : list Z)
    (Hmode : sc_mode cfg = kReplay) (Hpath : sc_replay_path cfg = Some path) (Hfile : bytes_ok file) (Hne : file <> [])
    (H0 : SpecFloat.SFleb (simfeed.double_of 0) (sc_drop_rate cfg) = true)
    (H1 : SpecFloat.SFleb (sc_drop_rate cfg) (simfeed.double_of 1) = true) :
  exists f k f' r' q, simfeed.init true host_be true (Some file) now (simfeed.fresh cfg) = Some (true, f) /\
    simfeed.polls host_be times f fresh_ring = Some (k, f', r') /\ tick_queue r' 0 q /\
    Forall (fun t => tick_typed t /\ (t_msg_type t ∈ book_types -> well_formed t = true)) q.
Proof.
  destruct (init_replaying host_be cfg path file now Hmode Hpath Hne H0 H1) as (f & Hi & Hf & _).
  destruct (polls_replay_any host_be times f fresh_ring file [] 0 Hf Hfile) as (k & f' & r' & q & Hp & Hq & Hall); [by apply fresh_holds|].
  exists f, k, f', r', q. split_and!; [done..|]. eapply Forall_impl; [exact Hall|]. intros t (raw & Hr & Ht). unfold decoded in Ht.
  destruct (decode_itch_ok host_be raw (table_of []) empty_tick Hr (table_of_ok [])) as (b & t' & E & Hok). rewrite E in Ht. destruct b; [|done].
  injection Ht as ->. by destruct (Hok eq_refl) as ((? & ?) & _).
Qed.

(** a replayed file never adds an order to the book.  [init_replay] does
    not fill the symbol table, the replay path offers no other way to fill it,
    and the decoder rejects every message whose ticker is unknown: whatever the
    file holds, no Add Order, trade, cross, halt or Reg SHO message of it ever
    reaches the tick ring. *)
Theorem replay_never_adds (cfg : SimConfig) (path file : list Z) (host_be : bool) (now : Z) (times : list Z)
    (Hmode : sc_mode cfg = kReplay) (Hpath : sc_replay_path cfg = Some path) (Hfile : bytes_ok file) (Hne : file <> [])
    (H0 : SpecFloat.SFleb (simfeed.double_of 0) (sc_drop_rate cfg) = true)
    (H1 : SpecFloat.SFleb (sc_drop_rate cfg) (simfeed.double_of 1) = true) :
  exists f k f' r' q, simfeed.init true host_be true (Some file) now (simfeed.fresh cfg) = Some (true, f) /\
    simfeed.polls host_be times f fresh_ring = Some (k, f', r') /\ tick_queue r' 0 q /\
    Forall (fun t => t_msg_type t ∉ ticker_types) q.
Proof.
  destruct (init_replaying host_be cfg path file now Hmode Hpath Hne H0 H1) as (f & Hi & Hf & _).
  destruct (polls_replay_any host_be times f fresh_ring file [] 0 Hf Hfile) as (k & f' & r' & q & Hp & Hq & Hall); [by apply fresh_holds|].
  exists f, k, f', r', q. split_and!; [done..|]. eapply Forall_impl; [exact Hall|]. intros t (raw & Hr & Ht). by eapply decoded_unnamed.
Qed.

(** what a replay delivers from a file in the documented format (each
    message behind its length as two big-endian bytes): without pacing and
    drops, [k] times as many polls as the file has messages, at any times,
    commit to the ring, in file order and [k] times over, exactly those
    messages that the decoder accepts; the cursor starts again at the first
    message after the last; and [total_messages] and [total_bytes] count them. *)
Theorem replay_delivers_file (cfg : SimConfig) (path : list Z) (msgs : list (list Z)) (host_be : bool) (now : Z) (k : nat) (times : list Z)
    (Hmode : sc_mode cfg = kReplay) (Hpath : sc_replay_path cfg = Some path) (Hrate : sc_target_rate_hz cfg = 0)
    (Hdrop : sc_drop_rate cfg = SpecFloat.S754_zero false) (Hmsgs : Forall framable msgs) (Hne : msgs <> [])
    (Htimes : length times = (k * length msgs)%nat) (Hroom : Z.of_nat (k * length msgs) <= kTickCapacity) :
  let ticks := omap (decoded host_be (table_of [])) msgs in
  exists f f' r', simfeed.init true host_be true (Some (frames msgs)) now (simfeed.fresh cfg) = Some (true, f) /\
    simfeed.polls host_be times f fresh_ring = Some (Z.of_nat (k * length ticks), f', r') /\
    tick_queue r' 0 (concat (replicate k ticks)) /\
    simfeed.total_messages f' = Z.of_nat (k * length ticks) /\ simfeed.total_bytes f' = Z.of_nat (k * length (frames msgs)) /\
    simfeed.total_dropped f' = 0.
Proof.
  intros ticks. assert (Hfne : frames msgs <> []) by (by destruct msgs).
  destruct (init_replaying host_be cfg path (frames msgs) now Hmode Hpath Hfne) as (f & Hi & Hf & Hcfg & Hc & Hp & Ht); [by rewrite Hdrop..|].
  destruct (polls_rounds host_be msgs Hmsgs k times f fresh_ring 0 [] (mkTotals 0 0 0) Htimes (or_introl eq_refl)) as (f' & r' & c' & Hps & [_ _ _ Hq Htot _]).
  { simpl. lia. }
  { split; [done| |done|by apply fresh_holds|done|by split]. split; [rewrite Hp; unfold simfeed.ns_per_msg; by rewrite Hrate|by rewrite Hcfg, Hdrop]. }
  exists f, f', r'. fold ticks in Hps, Hq, Htot. split_and!; [done|done|done|..]; unfold simfeed.total_messages, simfeed.total_bytes, simfeed.total_dropped;
    rewrite Htot; cbn [totals_add to_msgs to_bytes to_dropped]; [| |done]; rewrite Z.add_0_l; apply wrap_u_id; unfold in_u.
  - assert (length ticks <= length msgs)%nat by apply omap_shorter. unfold kTickCapacity in Hroom. change (Z.shiftl 1 22) with 4194304 in Hroom. nia.
  - assert (Hlen : Z.of_nat (length (frames msgs)) <= 65537 * Z.of_nat (length msgs)).
    { clear -Hmsgs. induction Hmsgs as [|raw l [_ Hl] _ IH]; [done|]. cbn [frames mbind list_bind length]. rewrite length_app.
      pose proof (frame_length raw). unfold frames in IH. lia. }
    unfold kTickCapacity in Hroom. change (Z.shiftl 1 22) with 4194304 in Hroom. nia.
Qed.

Definition replay_sim : SimConfig :=
  mkSim kReplay 0 0 0 0 (SpecFloat.S754_zero false) 0 0 0 (Some []) 0 0 0 0.

(** An Add Order and a Delete, replayed twice: only the Delete arrives. *)
Definition replay_messages : list (list Z) := [take 36 (add_message 1 10 7 ch_B 100 1500000); take 19 (deletion_message 1 20 7)].

Lemma replay_bytes : Forall framable replay_messages.
Proof. repeat (constructor; [split; [apply (bool_decide_eq_true_1 (Forall (fun b => 0 <= b < 256) _)); vm_compute; reflexivity|vm_compute; done]|]). constructor. Qed.

Lemma replay_delivers_file_witness :
  exists f f' r', simfeed.init true false true (Some (frames replay_messages)) 0 (simfeed.fresh replay_sim) = Some (true, f) /\
    simfeed.polls false [0; 0; 0; 0] f fresh_ring = Some (2, f', r') /\
    tick_queue r' 0 [mkTick 0x44 0 1 20 0 0 7 0; mkTick 0x44 0 1 20 0 0 7 0].
Proof.
  destruct (replay_delivers_file replay_sim [] replay_messages false 0 2 [0; 0; 0; 0]) as (f & f' & r' & Hi & Hp & Hq & _);
    [reflexivity..|exact replay_bytes|done|reflexivity|vm_compute; done|].
  exists f, f', r'. split; [exact Hi|]. split; [rewrite Hp; vm_compute; reflexivity|].
  replace [_; _] with (concat (replicate 2 (omap (decoded false (table_of [])) replay_messages))) by (vm_compute; reflexivity). exact Hq.
Defined.

Lemma replay_any_file_safe_witness :
  exists f k f' r' q, simfeed.init true false true (Some [0; 3; 1; 2]) 0 (simfeed.fresh replay_sim) = Some (true, f) /\
    simfeed.polls false [0; 5; 9] f fresh_ring = Some (k, f', r') /\ tick_queue r' 0 q.
Proof.
  destruct (replay_any_file_safe replay_sim [] [0; 3; 1; 2] false 0 [0; 5; 9]) as (f & k & f' & r' & q & H1 & H2 & H3 & _);
    [reflexivity|reflexivity|repeat (constructor; [unfold in_u; lia|]); constructor|done|reflexivity|reflexivity|by exists f, k, f', r', q].
Defined.

Lemma replay_never_adds_witness :
  exists f k f' r' q, simfeed.init true false true (Some (frames replay_messages)) 0 (simfeed.fresh replay_sim) = Some (true, f) /\
    simfeed.polls false [0; 0] f fresh_ring = Some (k, f', r') /\ tick_queue r' 0 q /\ Forall (fun t => t_msg_type t ∉ ticker_types) q.
Proof.
  apply (replay_never_adds replay_sim [] (frames replay_messages) false 0 [0; 0]); [reflexivity|reflexivity| |done|reflexivity|reflexivity].
  apply (bool_decide_eq_true_1 (Forall (fun b => 0 <= b < 256) _)). vm_compute. reflexivity.
Defined.
