(* ===== verification/FeedVisits.v ===== *)
(** * What a feed takes from its source

    A log of the messages a simulated feed has read from its source, in the
    order of reading, told without the ring: the prepared messages in rounds,
    or the frames of the replayed file from its start again and again; and for
    each one what the decoder makes of it and whether the feed dropped it. *)
From Stdlib Require Import ZArith Lia ZifyBool.
From Stdlib Require SpecFloat.
From S2P Require Import Prelude Config Numeric Bytes SymbolTable BookSpec Decode Ring Arena.
From S2P Require Import SimRng SimGen SimReorder SimFeed SimReplay.

(** A message read from the source. *)
Record Visit := mkVisit { vi_tick : option TickMsg; vi_dropped : bool }.

(** The ticks of the messages that were neither dropped nor refused. *)
Definition forwarded (v : list Visit) : list TickMsg := omap (fun m => if vi_dropped m then None else vi_tick m) v.
Definition dropped (v : list Visit) : list Visit := filter (fun m => vi_dropped m = true) v.

(** The orders in which the prepared messages may be read: one round after the
    other, each message once in a round, and in the order of preparation when
    there is no reorder window. *)
Definition in_rounds (N window : Z) (idx : list Z) : Prop :=
  exists rounds rest, idx = concat rounds ++ rest /\
    Forall (fun l => l ≡ₚ zrange 0 (Z.to_nat N)) rounds /\ rest ⊆+ zrange 0 (Z.to_nat N) /\
    (window <= 1 -> Forall (fun l => l = zrange 0 (Z.to_nat N)) rounds /\ rest = zrange 0 (length rest)).

(** The frames of a file: each has its length in two bytes before it; an empty
    or an incomplete frame ends the file. *)
Fixpoint frames_upto (fuel : nat) (file : list Z) : list (list Z) :=
  match fuel, file with
  | S fuel, hi :: lo :: rest =>
      let n := hi * 256 + lo in
      if (n =? 0) || (Z.of_nat (length rest) <? n) then [] else take (Z.to_nat n) rest :: frames_upto fuel (drop (Z.to_nat n) rest)
  | _, _ => []
  end.
Definition frames_in (file : list Z) : list (list Z) := frames_upto (length file) file.

(** The messages read from the source of a configuration. *)
Definition source_order (host_be : bool) (cfg : SimConfig) (file : option (list Z)) (v : list Visit) : Prop :=
  match sc_mode cfg with
  | kSynthetic => exists msgs ticks idx, stream cfg 34200000000000 1 msgs /\ Forall2 (decodes_to cfg) msgs ticks /\
      Z.of_nat (length ticks) = sc_prebuf_count cfg /\ in_rounds (sc_prebuf_count cfg) (sc_reorder_window cfg) idx /\
      vi_tick <$> v = (fun i => ticks !! Z.to_nat i) <$> idx
  | kReplay => let frames := frames_in (default [] file) in
      forall k m, v !! k = Some m -> exists raw, frames !! (k mod length frames)%nat = Some raw /\ vi_tick m = decoded host_be (table_of []) raw
  end.

(** What the drop rate says of them. *)
Definition drops_allowed (cfg : SimConfig) (v : list Visit) : Prop :=
  (SpecFloat.SFleb (sc_drop_rate cfg) (simfeed.double_of 0) = true -> dropped v = []) /\
  (SpecFloat.SFleb (simfeed.double_of 1) (sc_drop_rate cfg) = true -> forwarded v = []).

Lemma delivered_snoc v m : forwarded (v ++ [m]) = forwarded v ++ option_list (if vi_dropped m then None else vi_tick m).
Proof. unfold forwarded. by rewrite omap_app. Qed.

Lemma dropped_snoc v m : dropped (v ++ [m]) = dropped v ++ (if vi_dropped m then [m] else []).
Proof. unfold dropped. rewrite filter_app. f_equal. destruct m as [o []]; [by rewrite filter_cons_True|by rewrite filter_cons_False]. Qed.

(** The counters of the feed, the log and the drop rate. *)
Record counted (cfg : SimConfig) (v : list Visit) (f : SimFeedSource) : Prop := {
  cn_messages : simfeed.total_messages f = u64 (Z.of_nat (length (forwarded v)));
  cn_dropped : simfeed.total_dropped f = u64 (Z.of_nat (length (dropped v)));
  cn_allowed : drops_allowed cfg v;
}.

Lemma drop_rate_one cfg : SpecFloat.SFleb (sc_drop_rate cfg) (simfeed.double_of 0) = true -> SpecFloat.SFleb (simfeed.double_of 1) (sc_drop_rate cfg) = true -> False.
Proof. destruct (sc_drop_rate cfg) as [[]|[]| |[] m e]; vm_compute; done. Qed.

Lemma should_drop_allowed cfg x : exists b x', simfeed.should_drop cfg x = Some (b, x') /\
  (SpecFloat.SFleb (sc_drop_rate cfg) (simfeed.double_of 0) = true -> b = false) /\ (SpecFloat.SFleb (simfeed.double_of 1) (sc_drop_rate cfg) = true -> b = true).
Proof.
  unfold simfeed.should_drop. pose proof (drop_rate_one cfg) as Hne. destruct (SpecFloat.SFleb (sc_drop_rate cfg) _) eqn:E0.
  { exists false, x. split; [done|]. split; [done|]. intros E1. by destruct (Hne eq_refl). }
  destruct (SpecFloat.SFleb _ (sc_drop_rate cfg)) eqn:E1; [by exists true, x|].
  destruct (uniform_u32_ok 0 999 x) as (v & x' & -> & _); [lia..|]. by eexists _, x'.
Qed.

Lemma allowed_snoc cfg v m : drops_allowed cfg v ->
  (SpecFloat.SFleb (sc_drop_rate cfg) (simfeed.double_of 0) = true -> vi_dropped m = false) ->
  (SpecFloat.SFleb (simfeed.double_of 1) (sc_drop_rate cfg) = true -> vi_dropped m = true) -> drops_allowed cfg (v ++ [m]).
Proof. intros [H0 H1] Hf Ht. split; intros E; rewrite ?delivered_snoc, ?dropped_snoc; [by rewrite H0, Hf|by rewrite H1, Ht]. Qed.

Lemma u64_snoc n : u64 (u64 (Z.of_nat n) + 1) = u64 (Z.of_nat (n + 1)).
Proof. unfold wrap_u. rewrite Zplus_mod_idemp_l. f_equal. lia. Qed.

(** One more message, dropped, forwarded or refused. *)
Lemma counted_dropped cfg v f f' t : counted cfg v f -> drops_allowed cfg (v ++ [mkVisit t true]) ->
  simfeed.total_messages f' = simfeed.total_messages f -> simfeed.total_dropped f' = u64 (simfeed.total_dropped f + 1) -> counted cfg (v ++ [mkVisit t true]) f'.
Proof.
  intros [C1 C2 _] Ha E1 E2. split; [by rewrite E1, delivered_snoc, app_nil_r| |done]. rewrite E2, C2, dropped_snoc, length_app. cbn [vi_dropped length]. apply u64_snoc.
Qed.

Lemma counted_delivered cfg v f f' t : counted cfg v f -> drops_allowed cfg (v ++ [mkVisit (Some t) false]) ->
  simfeed.total_messages f' = u64 (simfeed.total_messages f + 1) -> simfeed.total_dropped f' = simfeed.total_dropped f -> counted cfg (v ++ [mkVisit (Some t) false]) f'.
Proof.
  intros [C1 C2 _] Ha E1 E2. split; [|by rewrite E2, dropped_snoc, app_nil_r|done]. rewrite E1, C1, delivered_snoc, length_app. cbn [vi_dropped vi_tick option_list length]. apply u64_snoc.
Qed.

Lemma counted_refused cfg v f f' : counted cfg v f -> drops_allowed cfg (v ++ [mkVisit None false]) ->
  simfeed.total_messages f' = simfeed.total_messages f -> simfeed.total_dropped f' = simfeed.total_dropped f -> counted cfg (v ++ [mkVisit None false]) f'.
Proof. intros [C1 C2 _] Ha E1 E2. split; [by rewrite E1, delivered_snoc, app_nil_r|by rewrite E2, dropped_snoc, app_nil_r|done]. Qed.

(** ** The prepared messages *)
Section synthetic.
Context (host_be : bool) (cfg : SimConfig) (msgs : list (Z * list Z)) (ticks : list TickMsg).
Context (Hmode : sc_mode cfg = kSynthetic) (Hticks : Forall2 (decodes_to cfg) msgs ticks).
Abbreviation N := (Z.of_nat (length ticks)).

(** [rounds] complete rounds, and [rest] of the current one. *)
Record reading (cap : Z) (rounds : list (list Z)) (rest : list Z) : Prop := {
  rd_rounds : Forall (fun l => l ≡ₚ zrange 0 (Z.to_nat N)) rounds;
  rd_ordered : cap <= 1 -> Forall (fun l => l = zrange 0 (Z.to_nat N)) rounds /\ rest = zrange 0 (length rest);
}.

(** The feed having read [v]. *)
Definition synthetic_at (cap : Z) (v : list Visit) (f : SimFeedSource) : Prop := exists s x rounds rest,
  prepared host_be cfg msgs f s x /\ in_round N cap 0 rest s /\ Z.of_nat (length rest) < N /\ reading cap rounds rest /\
  vi_tick <$> v = (fun i => ticks !! Z.to_nat i) <$> (concat rounds ++ rest) /\ counted cfg v f.

Lemma round_end cap rest s : in_round N cap 0 rest s -> Z.of_nat (length rest) = N -> in_round N cap 0 [] s /\ rest ≡ₚ zrange 0 (Z.to_nat N).
Proof.
  intros [Hok Ht _] Hlen. pose proof Hok as [_ _ [HN Hcap] _ _ _].
  assert (Hw : Z.to_nat (window N cap (Z.of_nat (length rest))) = Z.to_nat N) by (rewrite window_pos by lia; lia). rewrite Hw in Ht.
  pose proof (taken_count _ _ _ _ _ _ Hok Ht) as Hcnt. destruct Ht as [Hidx Hperm]. rewrite Z2Nat.id in Hcnt, Hidx by lia.
  assert (Hz : sh_pending_count s = 0) by lia. unfold pending in Hperm. rewrite Hz in Hperm. cbn [Z.to_nat take] in Hperm. rewrite app_nil_r in Hperm.
  split; [|rewrite Hperm; apply from_round; lia]. split; [done| |done]. cbn [length Z.of_nat window Z.eqb Z.to_nat]. split.
  - rewrite Hidx, !Z.add_0_l, Z.mod_same by lia. symmetry. apply Z.mod_small; lia.
  - unfold pending. by rewrite Hz.
Qed.

(** Reading one more message. *)
Lemma reading_next cap rounds rest s x : in_round N cap 0 rest s -> Z.of_nat (length rest) < N -> reading cap rounds rest ->
  exists i s' x' rounds' rest', shuffle.next_synthetic_index s x = Some (i, s', x') /\ is_Some (ticks !! Z.to_nat i) /\
    in_round N cap 0 rest' s' /\ Z.of_nat (length rest') < N /\ reading cap rounds' rest' /\ concat rounds' ++ rest' = (concat rounds ++ rest) ++ [i].
Proof.
  intros Hin Hlt [Hr Ho]. pose proof (ir_ok _ _ _ _ _ Hin) as [_ _ [HN _] _ _ _].
  destruct (next_index_round N cap 0 rest s x Hin Hlt) as (i & s' & x' & Ei & Hin').
  assert (Hcyc : cycling N cap s) by by exists 0, rest. destruct (next_index_cycling N cap s x Hcyc) as (i2 & s2 & x2 & E2 & _ & Hrange).
  assert (Hi : is_Some (ticks !! Z.to_nat i)) by (apply lookup_lt_is_Some_2; rewrite Ei in E2; injection E2 as <- _ _; lia).
  assert (Hord : cap <= 1 -> rest ++ [i] = zrange 0 (length (rest ++ [i]))).
  { intros Hc. destruct (Ho Hc) as [_ Hrest]. rewrite <- (from_start N) by (rewrite length_app; cbn [length]; lia).
    apply (round_in_order N cap 0 rest i s' Hin'); [done|lia|]. rewrite from_start by lia. exact Hrest. }
  assert (Hlen : Z.of_nat (length (rest ++ [i])) = Z.of_nat (length rest) + 1) by (rewrite length_app; cbn [length]; lia).
  exists i, s', x'. destruct (Z.eq_dec (Z.of_nat (length (rest ++ [i]))) N) as [Hend|Hne].
  - destruct (round_end cap _ s' Hin' Hend) as [Hin0 Hperm]. exists (rounds ++ [rest ++ [i]]), []. split; [done|]. split; [done|]. split; [done|]. split; [cbn [length]; lia|].
    split; [|rewrite concat_app; cbn [concat]; by rewrite !app_nil_r, app_assoc]. split; [apply Forall_app; by split; [|constructor]|].
    intros Hc. split; [|done]. destruct (Ho Hc) as [Hro _]. apply Forall_app. split; [done|]. constructor; [|constructor].
    rewrite (Hord Hc). f_equal. lia.
  - exists rounds, (rest ++ [i]). split; [done|]. split; [done|]. split; [done|]. split; [lia|]. split; [|by rewrite app_assoc].
    split; [done|]. intros Hc. split; [by apply Ho|by apply Hord].
Qed.

Lemma reading_in_rounds cap rounds rest s w : in_round N cap 0 rest s -> Z.of_nat (length rest) < N -> reading cap rounds rest -> cap = Z.min w N ->
  in_rounds N w (concat rounds ++ rest).
Proof.
  intros [Hok Ht _] Hlt [Hr Ho] Hcap. exists rounds, rest. split; [done|]. split; [done|]. split; [|intros Hw; apply Ho; lia].
  destruct Ht as [_ Hp]. pose proof (window_cases N cap (Z.of_nat (length rest)) ltac:(lia)) as Hwin. pose proof Hok as [_ _ [HN Hc] _ _ _].
  set (k := Z.to_nat (window N cap (Z.of_nat (length rest)))) in *. assert (Hk : Z.of_nat k <= N) by lia. rewrite from_start in Hp by done.
  etrans; [|replace (Z.to_nat N) with (k + (Z.to_nat N - k))%nat by lia]. { apply (submseteq_inserts_r (pending s)). reflexivity. }
  rewrite Hp. unfold zrange. rewrite seq_app, fmap_app. apply submseteq_inserts_r. reflexivity.
Qed.

(** One poll: the feed waits, or reads the next message. *)
Lemma synthetic_poll cap v now f r base q : synthetic_at cap v f -> tick_queue r base q ->
  exists f' r' new, simfeed.poll host_be now f r = Some (Z.of_nat (length (forwarded new)), f', r') /\ synthetic_at cap (v ++ new) f' /\
    tick_queue r' base (q ++ forwarded new) /\ Forall (fun t => t ∈ ticks) (forwarded new).
Proof.
  intros (s & x & rounds & rest & [Hc Hm Hsy Hs Hx Htot] & Hin & Hlt & Hread & Hv & Hcnt) Hq. unfold simfeed.poll. rewrite Hc, Hmode.
  unfold simfeed.poll_synthetic. destruct (simfeed.pace now _) as [ready p]. set (f0 := simfeed.set_pacing p f).
  assert (Hsame : exists f' r' new, Some (0, f0, r) = Some (Z.of_nat (length (forwarded new)), f', r') /\ synthetic_at cap (v ++ new) f' /\
            tick_queue r' base (q ++ forwarded new) /\ Forall (fun t => t ∈ ticks) (forwarded new)).
  { exists f0, r, []. cbn [forwarded omap list_omap]. rewrite !app_nil_r. split; [done|]. split; [|done]. exists s, x, rounds, rest. do 5 (split; [done|]). by destruct Hcnt. }
  destruct ready; cbn [negb]; [|exact Hsame]. destruct (kTickCapacity <=? ring.size r) eqn:Hfull; [exact Hsame|].
  rewrite (hq_distance 22 ltac:(lia) empty_tick _ _ _ Hq) in Hfull.
  destruct (reading_next cap rounds rest s x Hin Hlt Hread) as (i & s' & x' & rounds' & rest' & Ei & [t Ht] & Hin' & Hlt' & Hread' & Econcat).
  change (sf_shuffle f0) with (sf_shuffle f). change (sf_rng f0) with (sf_rng f). rewrite Hs, Hx, Ei. cbn [mbind option_bind].
  destruct (Forall2_lookup_r _ _ _ _ _ Hticks Ht) as ([len raw] & Hmsg & _ & Hdec).
  change (sf_messages f0) with (sf_messages f). rewrite Hm, Hmsg. cbn [mbind option_bind]. cbn [sf_cfg simfeed.set_order simfeed.set_pacing f0]. rewrite Hc.
  cbn [sf_rng simfeed.set_order simfeed.set_pacing]. destruct (should_drop_allowed cfg x') as (drop & x2 & -> & Hd0 & Hd1). cbn [mbind option_bind].
  assert (Hall : drops_allowed cfg (v ++ [mkVisit (Some t) drop])) by (apply allowed_snoc; [apply Hcnt|exact Hd0|exact Hd1]).
  assert (Hv' : vi_tick <$> (v ++ [mkVisit (Some t) drop]) = (fun i => ticks !! Z.to_nat i) <$> (concat rounds' ++ rest')).
  { rewrite Econcat, (fmap_app vi_tick), (fmap_app (fun i => ticks !! Z.to_nat i)), Hv. cbn [fmap list_fmap vi_tick]. by rewrite Ht. }
  destruct drop.
  - eexists _, r, [mkVisit (Some t) true]. cbn [forwarded omap list_omap vi_dropped]. rewrite app_nil_r. split; [done|]. split; [|done].
    exists s', x2, rounds', rest'. split; [by split|]. do 4 (split; [done|]). by eapply counted_dropped.
  - cbn [sf_symbols simfeed.set_order simfeed.set_pacing f0]. rewrite Hsy.
    destruct (publish_ok host_be raw len (table_of (sim_symbol_ops cfg host_be)) r base q true (fun _ => t) Hq ltac:(lia)) as (r' & t' & -> & [_ ->] & Hq'); [by apply Hdec|].
    cbn [mbind option_bind]. eexists _, r', [mkVisit (Some t) false]. cbn [forwarded omap list_omap vi_dropped vi_tick]. split; [done|]. split; [|split; [done|]].
    + exists s', x2, rounds', rest'. split; [split; try done; apply wrap_u_range; lia|]. do 4 (split; [done|]). by eapply counted_delivered.
    + constructor; [|constructor]. by apply list_elem_of_lookup_2 in Ht.
Qed.

End synthetic.

(** ** The replayed file *)

(** What is left behind the last frame of a file. *)
Definition no_frame (junk : list Z) : Prop :=
  match junk with hi :: lo :: rest => hi * 256 + lo = 0 \/ Z.of_nat (length rest) < hi * 256 + lo | _ => True end.

Lemma put_u16_bytes_of hi lo : 0 <= hi < 256 -> 0 <= lo < 256 -> put_u16_be (hi * 256 + lo) = [hi; lo].
Proof.
  intros Hhi Hlo. unfold put_u16_be. rewrite Z.shiftr_div_pow2 by lia. change (2 ^ 8) with 256. rewrite Z.div_add_l, Z.div_small by lia.
  unfold wrap_u. change (2 ^ 8) with 256. rewrite (Z.add_comm (hi * 256)), Z.mod_add, !Z.mod_small by lia. by rewrite Z.add_0_r.
Qed.

Lemma frames_spec fuel : forall file, bytes_ok file -> (length file <= fuel)%nat ->
  exists junk, file = frames (frames_upto fuel file) ++ junk /\ Forall framable (frames_upto fuel file) /\ no_frame junk.
Proof.
  induction fuel as [|fuel IH]; intros file Hb Hf; [destruct file; [by exists []|cbn in Hf; lia]|].
  destruct file as [|hi [|lo rest]]; [by exists []|by exists [hi]|]. cbn [frames_upto length] in *.
  apply Forall_cons in Hb as [Hhi Hb]. apply Forall_cons in Hb as [Hlo Hb]. unfold in_u in Hhi, Hlo.
  destruct (_ || _) eqn:Eb; [exists (hi :: lo :: rest); split; [done|]; split; [constructor|]; cbn [no_frame]; lia|].
  set (n := Z.to_nat (hi * 256 + lo)). assert (Hn : (n <= length rest)%nat) by lia.
  destruct (IH (drop n rest)) as (junk & E & Hfr & Hj); [by apply Forall_drop|rewrite length_drop; lia|].
  exists junk. assert (Hl : Z.of_nat (length (take n rest)) = hi * 256 + lo) by (rewrite length_take; lia). split; [|split; [|done]].
  - unfold frames. cbn [mbind list_bind]. unfold frame at 1. rewrite Hl, put_u16_bytes_of by lia. fold (frames (frames_upto fuel (drop n rest))).
    rewrite <- !app_assoc, <- E. cbn [app]. by rewrite take_drop.
  - constructor; [|done]. split; [by apply Forall_take|lia].
Qed.

Lemma frames_take_S fs j raw : fs !! j = Some raw -> frames (take (S j) fs) = frames (take j fs) ++ frame raw.
Proof. intros Hj. rewrite (take_S_r _ _ _ Hj), frames_app. unfold frames at 2. cbn [mbind list_bind]. by rewrite app_nil_r. Qed.

Lemma frames_split fs j raw : fs !! j = Some raw -> frames fs = frames (take j fs) ++ frame raw ++ frames (drop (S j) fs).
Proof. intros Hj. rewrite <- (take_drop_middle _ _ _ Hj) at 1. rewrite frames_app. unfold frames at 2. cbn [mbind list_bind]. done. Qed.

Lemma junk_len_at pre hi lo rest : bytes_ok [hi; lo] -> simfeed.msg_len_at (pre ++ hi :: lo :: rest) (Z.of_nat (length pre)) = Some (hi * 256 + lo).
Proof.
  intros [Hhi [Hlo _]%Forall_cons]%Forall_cons. unfold in_u in *. unfold simfeed.msg_len_at. rewrite (rd_app pre hi _ (Z.of_nat (length pre)) eq_refl). cbn [mbind option_bind].
  change (hi :: lo :: rest) with ([hi] ++ lo :: rest). rewrite app_assoc, rd_app by (rewrite length_app; cbn [length]; lia). cbn [mbind option_bind]. f_equal.
  rewrite wrap_u_id by (unfold in_u; rewrite Z.shiftl_mul_pow2 by lia; lia). by rewrite lor_shiftl_add by lia.
Qed.

Section replay.
Context (host_be : bool) (cfg : SimConfig) (file : list Z).
Context (Hmode : sc_mode cfg = kReplay) (Hbytes : bytes_ok file).
Abbreviation fs := (frames_in file).

Definition read_as (v : list Visit) : Prop :=
  forall k m, v !! k = Some m -> exists raw, fs !! (k mod length fs)%nat = Some raw /\ vi_tick m = decoded host_be (table_of []) raw.

(** The feed having read [v]: the cursor behind [j] frames of the round. *)
Definition replay_at (v : list Visit) (f : SimFeedSource) : Prop := exists j rounds,
  replaying f file /\ sf_cfg f = cfg /\ sf_replay_cursor f = Z.of_nat (length (frames (take j fs))) /\ (j <= length fs)%nat /\
  length v = (rounds * length fs + j)%nat /\ read_as v /\ counted cfg v f.

Lemma read_as_snoc v m j rounds raw : read_as v -> length v = (rounds * length fs + j)%nat -> fs !! j = Some raw -> vi_tick m = decoded host_be (table_of []) raw ->
  read_as (v ++ [m]).
Proof.
  intros Hv Hl Hj Hm k m' Hk. apply lookup_app_Some in Hk as [Hk|[Hge Hk]]; [by apply Hv|].
  apply list_lookup_singleton_Some in Hk as [Hk <-]. exists raw. split; [|done]. assert (Hjl : (j < length fs)%nat) by by eapply lookup_lt_Some.
  replace k with (j + rounds * length fs)%nat by lia. by rewrite Nat.Div0.mod_add, Nat.mod_small.
Qed.

(** Behind the last frame the poll finds no length it accepts. *)
Lemma end_of_frames junk : file = frames fs ++ junk -> no_frame junk -> Z.of_nat (length (frames fs)) + 2 <= Z.of_nat (length file) ->
  exists n, simfeed.msg_len_at file (Z.of_nat (length (frames fs))) = Some n /\ (n =? 0) || (Z.of_nat (length file) <? Z.of_nat (length (frames fs)) + 2 + n) = true.
Proof.
  intros E Hj Hroom. assert (Hl : Z.of_nat (length file) = Z.of_nat (length (frames fs)) + Z.of_nat (length junk)) by (rewrite E at 1; rewrite length_app; lia).
  destruct junk as [|hi [|lo rest]]; [cbn [length] in *; lia..|]. exists (hi * 256 + lo). split.
  - rewrite E at 1. apply junk_len_at. pose proof Hbytes as Hb. rewrite E in Hb.
    apply Forall_app in Hb as [_ Hb]. apply Forall_cons in Hb as [H1 Hb]. apply Forall_cons in Hb as [H2 _]. apply Forall_cons; split; [exact H1|]. apply Forall_cons; split; [exact H2|constructor].
  - rewrite Hl. cbn [no_frame length] in *. lia.
Qed.

(** Going back to the start at the end of the file. *)
Lemma reset_at v f : replay_at v f -> replay_at v (if Z.of_nat (length file) <? sf_replay_cursor f + 2 then simfeed.set_cursor 0 f else f).
Proof.
  intros Hat. destruct (Z.ltb_spec (Z.of_nat (length file)) (sf_replay_cursor f + 2)) as [Hend|]; [|done].
  destruct Hat as (j & rounds & Hrep & Hc & Hcur & Hj & Hlen & Hread & Hcnt). destruct (frames_spec (length file) file Hbytes (le_n _)) as (junk & Efile & Hfr & _). fold fs in Efile, Hfr.
  assert (j = length fs) as ->.
  { destruct (decide (j = length fs)) as [|Hne]; [done|]. destruct (lookup_lt_is_Some_2 fs j ltac:(lia)) as [raw Hraw]. destruct (Forall_lookup_1 _ _ _ _ Hfr Hraw) as [_ Hrl].
    assert (Hfl : (length file = length (frames (take j fs)) + (length (frame raw) + length (frames (drop (S j) fs))) + length junk)%nat) by (rewrite Efile at 1; rewrite (frames_split fs j raw Hraw), !length_app; done).
    pose proof (frame_length raw). lia. }
  exists 0%nat, (S rounds). split; [by destruct Hrep|]. split; [done|]. split; [done|]. split; [lia|]. split; [lia|]. split; [done|]. by destruct Hcnt.
Qed.

(** One poll: the feed waits, or reads the next frame; at the last one it goes
    back to the start. *)
Lemma replay_poll v now f r base q : replay_at v f -> tick_queue r base q ->
  exists f' r' new, simfeed.poll host_be now f r = Some (Z.of_nat (length (forwarded new)), f', r') /\ replay_at (v ++ new) f' /\
    tick_queue r' base (q ++ forwarded new) /\ Forall (fun t => exists raw, bytes_ok raw /\ decoded host_be (table_of []) raw = Some t) (forwarded new).
Proof.
  intros (j & rounds & Hrep & Hc & Hcur & Hj & Hlen & Hread & Hcnt) Hq. unfold simfeed.poll. rewrite Hc, Hmode. unfold simfeed.poll_replay.
  destruct (frames_spec (length file) file Hbytes (le_n _)) as (junk & Efile & Hfr & Hjunk). fold fs in Efile, Hfr.
  destruct (simfeed.pace now _) as [ready p]. set (f0 := simfeed.set_pacing p f).
  assert (Hstay : forall g, replay_at v g -> exists f' r' new, Some (0, g, r) = Some (Z.of_nat (length (forwarded new)), f', r') /\ replay_at (v ++ new) f' /\
    tick_queue r' base (q ++ forwarded new) /\ Forall (fun t => exists raw, bytes_ok raw /\ decoded host_be (table_of []) raw = Some t) (forwarded new)).
  { intros g Hg. exists g, r, []. cbn [forwarded omap list_omap]. by rewrite !app_nil_r. }
  assert (H0 : replay_at v f0) by (exists j, rounds; do 6 (split; [by destruct Hrep|]); by destruct Hcnt).
  destruct ready; cbn [negb]; [|by apply Hstay]. destruct (kTickCapacity <=? ring.size r) eqn:Hfull; [by apply Hstay|].
  rewrite (hq_distance 22 ltac:(lia) empty_tick _ _ _ Hq) in Hfull. change (sf_replay f0) with (sf_replay f). rewrite (rp_file _ _ Hrep).
  clearbody f0. clear f p Hrep Hc Hcur Hj Hlen Hcnt.
  set (g := if _ <? _ then simfeed.set_cursor 0 f0 else f0). assert (Hg : replay_at v g) by by apply reset_at. clearbody g. clear H0 f0.
  destruct (Z.ltb_spec (Z.of_nat (length file)) (sf_replay_cursor g + 2)) as [|Hroom]; [by apply Hstay|].
  destruct Hg as (j' & rounds' & Hrep & Hc & Hcur & Hj & Hlen & _ & Hcnt). rewrite (rp_file _ _ Hrep), Hcur in *.
  destruct (decide (j' = length fs)) as [->|Hne].
  - destruct (end_of_frames junk Efile Hjunk) as (n & En & Hbad); [rewrite firstn_all in Hroom; lia|]. rewrite firstn_all, En. cbn [mbind option_bind]. rewrite Hbad.
    apply Hstay. exists 0%nat, (S rounds'). split; [by destruct Hrep|]. split; [done|]. split; [done|]. split; [lia|]. split; [lia|]. split; [done|]. by destruct Hcnt.
  - destruct (lookup_lt_is_Some_2 fs j' ltac:(lia)) as [raw Hraw]. pose proof (Forall_lookup_1 _ _ _ _ Hfr Hraw) as Hframe. destruct Hframe as [Hrb Hrl].
    set (pre := frames (take j' fs)) in *. set (post := frames (drop (S j') fs) ++ junk).
    assert (Ef : file = pre ++ frame raw ++ post) by (rewrite Efile, (frames_split fs j' raw Hraw); by rewrite <- !app_assoc).
    assert (En : simfeed.msg_len_at file (Z.of_nat (length pre)) = Some (Z.of_nat (length raw))) by (rewrite Ef; by apply frame_len_at).
    assert (Hfl : Z.of_nat (length file) = Z.of_nat (length pre) + Z.of_nat (length raw) + 2 + Z.of_nat (length post)).
    { rewrite Ef, !length_app. pose proof (frame_length raw). lia. }
    assert (Es : slice file (Z.of_nat (length pre) + 2) (Z.of_nat (length raw)) = Some raw).
    { rewrite Ef. unfold frame. rewrite <- app_assoc, app_assoc. apply slice_app; [rewrite length_app; cbn [put_u16_be length]; lia|done]. }
    rewrite En. cbn [mbind option_bind]. rewrite orb_false_intro by lia. rewrite Es. cbn [mbind option_bind sf_cfg simfeed.set_pacing sf_rng]. rewrite Hc.
    destruct (should_drop_allowed cfg (sf_rng g)) as (drop & x2 & -> & Hd0 & Hd1). cbn [mbind option_bind].
    set (m := mkVisit (decoded host_be (table_of []) raw) drop).
    assert (Hall : drops_allowed cfg (v ++ [m])) by (apply allowed_snoc; [apply Hcnt|exact Hd0|exact Hd1]).
    assert (Hread' : read_as (v ++ [m])) by (eapply read_as_snoc; [done|exact Hlen|exact Hraw|done]).
    assert (Hpre : Z.of_nat (length pre) + 2 + Z.of_nat (length raw) = Z.of_nat (length (frames (take (S j') fs)))).
    { rewrite (frames_take_S fs j' raw Hraw), length_app. pose proof (frame_length raw). fold pre. lia. }
    assert (Hat : forall f', replaying f' file -> sf_cfg f' = cfg -> sf_replay_cursor f' = Z.of_nat (length pre) + 2 + Z.of_nat (length raw) -> counted cfg (v ++ [m]) f' ->
              replay_at (v ++ [m]) f').
    { intros f' H1 H2 H3 H4. exists (S j'), rounds'. split; [done|]. split; [done|]. split; [congruence|]. split; [lia|]. split; [rewrite length_app; cbn [length]; lia|done]. }
    destruct drop.
    { eexists _, r, [m]. cbn [m forwarded omap list_omap vi_dropped]. rewrite app_nil_r. split; [done|]. split; [|done]. apply Hat; [destruct Hrep; split; try done; cbn; lia|done|by cbn; rewrite Hcur|].
      by eapply counted_dropped. }
    cbn [sf_symbols simfeed.set_pacing simfeed.set_order]. rewrite (rp_symbols _ _ Hrep).
    destruct (publish_decoded host_be (table_of []) raw r base q Hq Hrb (table_of_ok []) ltac:(lia)) as (r' & -> & Hq'). cbn [mbind option_bind]. cbn [m].
    destruct (decoded host_be (table_of []) raw) as [t|] eqn:Ed.
    + rewrite bool_decide_eq_true_2 by by eexists. eexists _, r', [mkVisit (Some t) false]. cbn [forwarded omap list_omap vi_dropped vi_tick]. split; [done|]. split; [|split; [done|]].
      * apply Hat; [destruct Hrep; split; try done; cbn; lia|done|by cbn; rewrite Hcur|]. by eapply counted_delivered.
      * constructor; [by exists raw|constructor].
    + rewrite bool_decide_eq_false_2 by by intros []. eexists _, r', [mkVisit None false]. cbn [forwarded omap list_omap vi_dropped vi_tick]. split; [done|]. split; [|split; [done|constructor]].
      apply Hat; [destruct Hrep; split; try done; cbn; lia|done|by cbn; rewrite Hcur|]. by eapply counted_refused.
Qed.
End replay.

(** ** The simulated feed *)
Section sim.
Context (host_be : bool) (cfg : SimConfig) (file : option (list Z)).

(** The feed having read [v] since its initialisation. *)
Inductive sim_at (v : list Visit) (f : SimFeedSource) : Prop :=
  | at_synthetic msgs ticks (Hmode : sc_mode cfg = kSynthetic) (Hstream : stream cfg 34200000000000 1 msgs) (Hticks : Forall2 (decodes_to cfg) msgs ticks)
      (Hcount : Z.of_nat (length ticks) = sc_prebuf_count cfg) (Hacc : Forall acceptable ticks)
      (Hat : synthetic_at host_be cfg msgs ticks (Z.min (sc_reorder_window cfg) (Z.of_nat (length ticks))) v f)
  | at_replay bytes (Hmode : sc_mode cfg = kReplay) (Hfile : file = Some bytes) (Hbytes : bytes_ok bytes) (Hat : replay_at host_be cfg bytes v f).

Lemma sim_at_order v f : sim_at v f -> source_order host_be cfg file v.
Proof.
  intros [msgs ticks Hmode Hstream Hticks Hcount _ (s & x & rounds & rest & _ & Hin & Hlt & Hread & Hv & _)|bytes Hmode -> Hbytes (j & rounds & _ & _ & _ & _ & _ & Hread & _)];
    unfold source_order; rewrite Hmode; [|exact Hread].
  exists msgs, ticks, (concat rounds ++ rest). split; [done|]. split; [done|]. split; [done|]. split; [|done]. rewrite <- Hcount.
  by eapply reading_in_rounds.
Qed.

Lemma sim_at_counted v f : sim_at v f -> counted cfg v f.
Proof. by intros [? ? _ _ _ _ _ (? & ? & ? & ? & _ & _ & _ & _ & _ & ?)|? _ _ _ (? & ? & _ & _ & _ & _ & _ & _ & ?)]. Qed.

(** What the decoder accepts, the engine is made for. *)
Lemma decoded_acceptable symbols raw t : bytes_ok raw -> symbols_ok symbols -> decoded host_be symbols raw = Some t -> acceptable t.
Proof.
  intros Hr Hs Hd. unfold decoded in Hd. destruct (decode_itch_ok host_be raw symbols empty_tick Hr Hs) as (b & t' & E & Ht).
  rewrite E in Hd. destruct b; [|done]. injection Hd as ->. by destruct (Ht eq_refl).
Qed.

Lemma sim_appends v now f r base q : sim_at v f -> tick_queue r base q ->
  exists f' r' new, simfeed.poll host_be now f r = Some (Z.of_nat (length (forwarded new)), f', r') /\ sim_at (v ++ new) f' /\
    tick_queue r' base (q ++ forwarded new) /\ Forall acceptable (forwarded new).
Proof.
  intros [msgs ticks Hmode Hstream Hticks Hcount Hacc Hat|bytes Hmode Hfile Hbytes Hat] Hq.
  - destruct (synthetic_poll host_be cfg msgs ticks Hmode Hticks _ v now f r base q Hat Hq) as (f' & r' & new & -> & Hat' & Hq' & Hnew).
    exists f', r', new. split; [done|]. split; [by eapply at_synthetic|]. split; [done|]. rewrite Forall_forall in Hacc. eapply Forall_impl; [exact Hnew|exact Hacc].
  - destruct (replay_poll host_be cfg bytes Hmode Hbytes v now f r base q Hat Hq) as (f' & r' & new & -> & Hat' & Hq' & Hnew).
    exists f', r', new. split; [done|]. split; [by eapply at_replay|]. split; [done|]. eapply Forall_impl; [exact Hnew|]. intros t (raw & Hr & Hd).
    eapply decoded_acceptable; [done|apply table_of_ok|done].
Qed.
End sim.
