(* ===== verification/Pipeline.v ===== *)
(** * The tick pipeline: feed, ring, consumer, book

    [IFeedSource] (luv_feed.hpp) is the interface of the feeds; [Consumer]
    (luv_consumer.hpp) takes the ticks out of the ring and runs the book engine.
    The feature extractor and the inference engine are interfaces here: they
    read the book and do not change it. *)
From Stdlib Require Import ZArith Lia ZifyBool.
From Stdlib Require SpecFloat.
From S2P Require Import Prelude Config Numeric Bytes OrderRefMap Level Lob BookSpec LobRefine LobTheorems SymbolTable Decode Ring Arena.
From S2P Require Import SimRng SimGen SimReorder SimFeed SimReplay FeedVisits.

Abbreviation TickRing := (SPSCRing TickMsg).

(** ** IFeedSource *)

(** A feed: what the rest of the pipeline calls. *)
Class FeedSource (F : Type) := { feed_poll : Z -> F -> TickRing -> option (Z * F * TickRing) }.

(** What it promises, [read_by v] holding of a feed that has read the messages [v]
    from its source: every poll succeeds and reads some more, appends to the ring
    the ticks of those that are neither dropped nor refused, in the order they
    were read, and reports their number; the book engine is made for them. *)
Class FeedLaws (F : Type) `{FeedSource F} (read_by : list Visit -> F -> Prop) := {
  feed_poll_appends v now f r base q : read_by v f -> tick_queue r base q ->
    exists f' r' new, feed_poll now f r = Some (Z.of_nat (length (forwarded new)), f', r') /\ read_by (v ++ new) f' /\
      tick_queue r' base (q ++ forwarded new) /\ Forall acceptable (forwarded new);
}.

(** ** Consumer *)
Class TickSinks (Fe AI : Type) := {
  features_init : Fe -> bool * Fe;
  features_update : LOBEngine -> Z -> TickMsg -> Fe -> Fe;
  infer_symbol : Fe -> Z -> AI -> AI;
}.

Record Consumer (Fe AI : Type) := mkConsumer {
  co_arena : bool;                 (* _arena is set *)
  co_lob : LOBEngine;
  co_features : Fe;
  co_ai : option AI;
  co_tick_count : Z;               (* uint64_t *)
  co_rejected_ticks : Z;           (* uint64_t *)
  co_running : bool;
}.
Arguments mkConsumer {Fe AI}.
Arguments co_arena {Fe AI}.
Arguments co_lob {Fe AI}.
Arguments co_features {Fe AI}.
Arguments co_ai {Fe AI}.
Arguments co_tick_count {Fe AI}.
Arguments co_rejected_ticks {Fe AI}.
Arguments co_running {Fe AI}.

Module consumer.
Section ops.
Context {Fe AI : Type} `{TickSinks Fe AI}.
Abbreviation Cons := (Consumer Fe AI).

(** [Consumer()]; the book engine and the extractor as they were built. *)
Definition fresh (lob : LOBEngine) (features : Fe) : Cons := mkConsumer false lob features None 0 0 false.

Definition init (arena_ok : bool) (slab : gmap Z PriceLevel) (mapped : bool) (c : Cons) : bool * Cons :=
  if negb arena_ok then (false, c)
  else
    let c := mkConsumer true (co_lob c) (co_features c) (co_ai c) (co_tick_count c) (co_rejected_ticks c) (co_running c) in
    let '(ok, lob) := lob_init true slab mapped (co_lob c) in
    let c := mkConsumer true lob (co_features c) (co_ai c) (co_tick_count c) (co_rejected_ticks c) (co_running c) in
    if negb ok then (false, c)
    else
      let '(ok, features) := features_init (co_features c) in
      let c := mkConsumer true lob features (co_ai c) (co_tick_count c) (co_rejected_ticks c) (co_running c) in
      if negb ok then (false, c)
      else (true, mkConsumer true lob features (co_ai c) 0 (co_rejected_ticks c) false).

Definition stop (c : Cons) : Cons :=
  mkConsumer (co_arena c) (co_lob c) (co_features c) (co_ai c) (co_tick_count c) (co_rejected_ticks c) false.

Definition set_ai_engine (ai : option AI) (c : Cons) : Cons :=
  mkConsumer (co_arena c) (co_lob c) (co_features c) ai (co_tick_count c) (co_rejected_ticks c) (co_running c).

Definition process_one (r : TickRing) (c : Cons) : bool * TickRing * Cons :=
  if negb (co_arena c) then (false, r, c)
  else match ring.try_peek kTickCapacity r with
  | None => (false, r, c)
  | Some slot =>
      let tick := ring.read_slot empty_tick slot r in
      if kSymbols <=? t_symbol_idx tick then
        (true, ring.consume r,
         mkConsumer (co_arena c) (co_lob c) (co_features c) (co_ai c) (co_tick_count c) (u64 (co_rejected_ticks c + 1)) (co_running c))
      else
        let lob := process_unlocked tick (co_lob c) in
        let features := features_update lob (t_symbol_idx tick) tick (co_features c) in
        let ai := infer_symbol features (t_symbol_idx tick) <$> co_ai c in
        (true, ring.consume r,
         mkConsumer (co_arena c) lob features ai (u64 (co_tick_count c + 1)) (co_rejected_ticks c) (co_running c))
  end.

(** The loop of [run], for as long as it is left running: [n] rounds. *)
Fixpoint run_rounds (n : nat) (r : TickRing) (c : Cons) : TickRing * Cons :=
  match n with
  | O => (r, c)
  | S n => let '(_, r, c) := process_one r c in run_rounds n r c
  end.

Definition run (n : nat) (r : TickRing) (c : Cons) : TickRing * Cons :=
  run_rounds n r (mkConsumer (co_arena c) (co_lob c) (co_features c) (co_ai c) (co_tick_count c) (co_rejected_ticks c) true).

Definition rejected_ticks (c : Cons) : Z := co_rejected_ticks c.
Definition ticks_processed (c : Cons) : Z := co_tick_count c.
End ops.
End consumer.

(** ** The simulated feed discharges the interface *)
#[export] Instance sim_source (host_be : bool) : FeedSource SimFeedSource := {| feed_poll := simfeed.poll host_be |}.
#[export] Instance sim_laws host_be cfg file : FeedLaws (H := sim_source host_be) SimFeedSource (sim_at host_be cfg file).
Proof. constructor. exact (sim_appends host_be cfg file). Qed.

(** ** Ingestion and consumption in any order *)
Inductive pipeline_step := Ingest (now : Z) | Consume.

Section pipeline.
Context {F Fe AI : Type} `{FeedSource F} `{TickSinks Fe AI}.

(** The producer and the consumer thread, call by call; the numbers the polls
    report are added up. *)
Definition pipeline_do (st : option (Z * F * TickRing * Consumer Fe AI)) (step : pipeline_step) : option (Z * F * TickRing * Consumer Fe AI) :=
  '(n, f, r, c) ← st;
  match step with
  | Ingest now => '(k, f, r) ← feed_poll now f r; Some (n + k, f, r, c)
  | Consume => let '(_, r, c) := consumer.process_one r c in Some (n, f, r, c)
  end.

Definition pipeline_run (steps : list pipeline_step) (f : F) (c : Consumer Fe AI) : option (Z * F * TickRing * Consumer Fe AI) :=
  foldl pipeline_do (Some (0, f, fresh_ring, c)) steps.

Definition in_engine (t : TickMsg) : bool := t_symbol_idx t <? kSymbols.

(** The consumer after the ticks [past] have gone through it. *)
Record consumed (c : Consumer Fe AI) (past : list TickMsg) : Prop := {
  cs_arena : co_arena c = true;
  cs_lob : co_lob c = run_ticks (filter (fun t => in_engine t = true) past);
  cs_count : co_tick_count c = u64 (Z.of_nat (length (filter (fun t => in_engine t = true) past)));
  cs_rejected : co_rejected_ticks c = u64 (Z.of_nat (length (filter (fun t => in_engine t = false) past)));
}.

Lemma process_one_consumed r c past q : tick_queue r (Z.of_nat (length past)) q -> consumed c past ->
  match q with
  | [] => consumer.process_one r c = (false, r, c)
  | t :: q' => exists r' c', consumer.process_one r c = (true, r', c') /\
      tick_queue r' (Z.of_nat (length (past ++ [t]))) q' /\ consumed c' (past ++ [t])
  end.
Proof.
  intros Hq [Ha Hl Hc Hr]. unfold consumer.process_one. rewrite Ha. cbn [negb]. rewrite tick_capacity, (try_peek_spec 22 ltac:(lia) empty_tick _ _ _ Hq).
  destruct q as [|t q']; [done|]. rewrite (read_queue 22 empty_tick _ _ _ _ Hq). apply pop_queue in Hq.
  replace (Z.of_nat (length past) + 1) with (Z.of_nat (length (past ++ [t]))) in Hq by (rewrite length_app; simpl; lia).
  assert (Hcase : in_engine t = negb (kSymbols <=? t_symbol_idx t)) by (unfold in_engine; lia).
  assert (Hadd : forall b, filter (fun t => in_engine t = b) (past ++ [t]) =
    filter (fun t => in_engine t = b) past ++ (if bool_decide (in_engine t = b) then [t] else [])).
  { intros b. rewrite filter_app. f_equal. case_bool_decide; [by rewrite filter_cons_True|by rewrite filter_cons_False]. }
  destruct (kSymbols <=? t_symbol_idx t); cbn [negb] in Hcase; eexists _, _; split_and!; try done;
    split; cbn [co_arena co_lob co_tick_count co_rejected_ticks]; rewrite ?Hadd, ?Hcase; cbn [bool_decide]; try done.
  all: repeat first [rewrite bool_decide_eq_true_2 by done | rewrite bool_decide_eq_false_2 by done]; rewrite ?app_nil_r, ?length_app; try done.
  - by rewrite Hr, u64_snoc.
  - unfold run_ticks. rewrite foldl_app. cbn [foldl]. by rewrite Hl.
  - by rewrite Hc, u64_snoc.
Qed.

Context {read_by : list Visit -> F -> Prop} `{!FeedLaws F read_by}.

(** The ticks of what the feed has read are those consumed followed by those
    queued. *)
Record pipeline_inv (st : option (Z * F * TickRing * Consumer Fe AI)) (v : list Visit) (past queued : list TickMsg) : Prop := {
  pi_ticks : forwarded v = past ++ queued;
  pi_state : exists f r c, st = Some (Z.of_nat (length (forwarded v)), f, r, c) /\ read_by v f /\
    tick_queue r (Z.of_nat (length past)) queued /\ consumed c past;
  pi_acceptable : Forall acceptable (forwarded v);
}.

Lemma pipeline_do_inv st step v past queued : pipeline_inv st v past queued ->
  exists v' past' queued', pipeline_inv (pipeline_do st step) v' past' queued'.
Proof.
  intros [Ev (f & r & c & -> & Hf & Hq & Hc) Ha]. destruct step as [now|]; cbn [pipeline_do mbind option_bind].
  - destruct (feed_poll_appends v now f r _ _ Hf Hq) as (f' & r' & new & -> & Hf' & Hq' & Hnew). cbn [mbind option_bind].
    assert (Eapp : forwarded (v ++ new) = forwarded v ++ forwarded new) by by unfold forwarded; rewrite omap_app.
    exists (v ++ new), past, (queued ++ forwarded new). split; rewrite Eapp; [by rewrite Ev, app_assoc| |by apply Forall_app].
    exists f', r', c. split_and!; try done. do 4 f_equal. rewrite length_app. lia.
  - pose proof (process_one_consumed r c past queued Hq Hc) as Hp. destruct queued as [|t q'].
    + rewrite Hp. exists v, past, []. split; [done| |done]. by exists f, r, c.
    + destruct Hp as (r' & c' & -> & Hq' & Hc'). exists v, (past ++ [t]), q'. split; [by rewrite <- app_assoc| |done]. exists f, r', c'. by split_and!.
Qed.

Lemma pipeline_run_inv steps f c : read_by [] f -> consumed c [] -> exists v past queued, pipeline_inv (pipeline_run steps f c) v past queued.
Proof.
  intros Hf Hc. unfold pipeline_run. induction steps as [|step steps IH] using rev_ind.
  - exists [], [], []. split; [done| |constructor]. exists f, fresh_ring, c. split_and!; [done|done|by apply fresh_holds|done].
  - rewrite foldl_app. destruct IH as (v & past & queued & Hinv). by apply (pipeline_do_inv _ step v past queued).
Qed.
End pipeline.

(** ** The pipeline on the simulated feed *)

(** The configurations [init] is called with: a synthetic one the generator is
    meant for, or a replay of some file of bytes. *)
Definition source_ok (cfg : SimConfig) (file : option (list Z)) : Prop :=
  SpecFloat.SFleb (simfeed.double_of 0) (sc_drop_rate cfg) = true /\ SpecFloat.SFleb (sc_drop_rate cfg) (simfeed.double_of 1) = true /\
  ((sc_mode cfg = kSynthetic /\ sim_ok cfg /\ 1 <= sc_prebuf_count cfg /\ 0 <= sc_reorder_window cfg /\ file = None) \/
   (sc_mode cfg = kReplay /\ is_Some (sc_replay_path cfg) /\ exists bytes, file = Some bytes /\ bytes_ok bytes /\ bytes <> [])).

(** What the generator draws, the book engine is made for. *)
Lemma generated_acceptable cfg ts seq t seq' : sim_ok cfg -> 0 <= ts < 2 ^ 63 -> 1 <= seq < 2 ^ 63 -> generated cfg ts seq t seq' -> acceptable t.
Proof.
  intros [Hn Hq Hq2 Hp Hp2 _] Hts Hseq Hg. unfold kSymbols, numeric.kMaxQuantity, numeric.kMaxPrice in *.
  pose proof (Z.div_le_upper_bound (sc_max_qty cfg) 2 500000000 ltac:(lia) ltac:(lia)).
  assert (Href : forall r, referable r seq -> 1 <= r < 2 ^ 63) by (unfold referable; lia).
  destruct Hg as [side sym price qty Hs Hside Hpr Hqt|sym qty ref mn Hs Hqt Hr%Href Hmn|sym qty ref Hs Hqt Hr%Href|sym ref Hs Hr%Href];
    unfold itch.kAddOrder, itch.kOrderExecuted, itch.kOrderCancel, itch.kOrderDelete, tick_flags.kPrintable, tick_flags.kBuy in *;
    (split; [split; unfold in_u, in_s in *; cbn [t_msg_type t_flags t_symbol_idx t_timestamp t_price t_qty t_order_ref t_match_num]; lia|intros _]);
    unfold well_formed, numeric.is_valid_quantity, numeric.is_valid_price, numeric.kMinQuantity, numeric.kMaxQuantity, numeric.kMinPrice, numeric.kMaxPrice, kSymbols;
    cbn [t_symbol_idx t_msg_type t_order_ref t_qty t_price t_match_num]; unfold itch.kAddOrder, itch.kAddOrderMPID, itch.kOrderExecuted, itch.kOrderExecPrice, itch.kOrderCancel, itch.kOrderDelete;
    cbn [Z.eqb Pos.eqb orb]; lia.
Qed.

Lemma stream_acceptable cfg ts seq msgs : sim_ok cfg -> stream cfg ts seq msgs -> 0 <= ts -> ts + 10000 * Z.of_nat (length msgs) < 2 ^ 63 ->
  1 <= seq -> seq + Z.of_nat (length msgs) < 2 ^ 63 -> exists ticks, Forall2 (decodes_to cfg) msgs ticks /\ Forall acceptable ticks.
Proof.
  intros Hok Hst. induction Hst as [|ts seq msg t seq' gap msgs Hg Hd Hgap Hst IH]; intros Ht0 Ht Hs0 Hs; cbn [length] in *.
  { by exists []. }
  pose proof (generated_next _ _ _ _ _ Hg). destruct IH as (ticks & Hf & Ha); [lia..|]. exists (t :: ticks). split; [by constructor|].
  constructor; [|done]. eapply generated_acceptable; [done| |  |exact Hg]; lia.
Qed.

Lemma init_ready host_be cfg file now : source_ok cfg file ->
  exists f, simfeed.init true host_be true file now (simfeed.fresh cfg) = Some (true, f) /\ sim_at host_be cfg file [] f.
Proof.
  intros (H0 & H1 & [(Hm & Hok & Hc & Hw & ->)|(Hm & [path Hp] & bytes & -> & Hb & Hne)]).
  - destruct (init_prepared host_be cfg now Hok Hm Hc Hw H0 H1) as (f & msgs & Hi & Hst & Hlen & Ht0 & Hd0 & _ & x & Hprep).
    exists f. split; [exact Hi|]. pose proof (so_count cfg Hok) as Hcnt. unfold in_u in Hcnt.
    destruct (stream_acceptable cfg _ _ msgs Hok Hst) as (ticks & Ht & Ha); [lia..|]. pose proof (Forall2_length _ _ _ Ht) as Hlt.
    assert (EN : sc_prebuf_count cfg = Z.of_nat (length ticks)) by lia. eapply at_synthetic; [done..|].
    rewrite EN in Hprep. eexists _, x, [], []. split; [exact Hprep|]. split; [|split; [cbn [length]; lia|split; [by split|split; [done|]]]].
    + split; [|split; [done|done]|done]. apply (fresh_round_start (Z.of_nat (length ticks))); lia.
    + split; [done|done|]. by split.
  - destruct (init_replaying host_be cfg path bytes now Hm Hp Hne H0 H1) as (f & Hi & Hf & Hcfg & Hcur & _ & Htot). exists f. split; [exact Hi|].
    eapply at_replay; [done..|]. exists 0%nat, 0%nat. do 3 (split; [done|]). split; [lia|]. split; [done|]. split; [done|].
    split; [unfold simfeed.total_messages; by rewrite Htot|unfold simfeed.total_dropped; by rewrite Htot|by split].
Qed.

(** The consumer as the engine builds and initialises it. *)
Definition new_consumer {Fe AI} `{TickSinks Fe AI} (fe : Fe) (ai : option AI) : bool * Consumer Fe AI :=
  consumer.init true ∅ true (consumer.set_ai_engine ai (consumer.fresh (mkEngine ∅ refmap.unmapped ∅ zero_stats) fe)).

(** Whatever the feed: the consumer is initialised, and polls and consumption
    in any order bring the ticks of what the feed reads to the book. *)
Lemma pipeline_exact {F Fe AI} `{FeedSource F} `{TickSinks Fe AI} (read_by : list Visit -> F -> Prop) `{!FeedLaws F read_by}
    (f : F) (fe fe' : Fe) (ai : option AI) (steps : list pipeline_step) : read_by [] f -> features_init fe = (true, fe') ->
  exists c v past queued f' r' c', new_consumer fe ai = (true, c) /\
    pipeline_run steps f c = Some (Z.of_nat (length (forwarded v)), f', r', c') /\ read_by v f' /\ forwarded v = past ++ queued /\
    tick_queue r' (Z.of_nat (length past)) queued /\ Forall acceptable (forwarded v) /\
    co_lob c' = run_ticks (filter (fun t => in_engine t = true) past) /\
    consumer.ticks_processed c' = u64 (Z.of_nat (length (filter (fun t => in_engine t = true) past))) /\
    consumer.rejected_ticks c' = u64 (Z.of_nat (length (filter (fun t => in_engine t = false) past))).
Proof.
  intros Hready Hfe. assert (Hc : exists c, new_consumer fe ai = (true, c) /\ consumed c []).
  { unfold new_consumer, consumer.init. cbn [negb consumer.set_ai_engine consumer.fresh co_lob co_features co_ai co_tick_count co_rejected_ticks co_running].
    destruct (lob_init true ∅ true (mkEngine ∅ refmap.unmapped ∅ zero_stats)) as [ok lob] eqn:El.
    assert (Hlob : ok = true /\ lob = lob_fresh) by (unfold lob_fresh; rewrite El; split; [|done]; change ok with (ok, lob).1; by rewrite <- El).
    destruct Hlob as [-> ->]. cbn [negb]. rewrite Hfe. cbn [negb]. eexists. split; [done|]. by split. }
  destruct Hc as (c & Hc & Hcons). destruct (pipeline_run_inv steps f c Hready Hcons) as (v & past & queued & [Ev (f' & r' & c' & Hrun & Hat & Hq & [_ Hl Hn Hr]) Ha]).
  exists c, v, past, queued, f', r', c'. by split_and!.
Qed.

(** C6: from the source of the feed to the book nothing is lost, repeated or
    reordered.  Let the simulated feed be initialised with any configuration it is
    meant for (synthetic or replay, any pacing, bursts, drop rate and reorder
    window, any replayed bytes), and let polls and [process_one] calls follow in
    any order at any times: no call reads out of bounds.  The feed has read the
    messages [visits] of its source in the order it is to read them: the generated
    ticks round after round, each once in a round and in their order when there is
    no window, or the frames of the file from its start again and again.  The
    ticks of those it has not dropped (their number is counted; none at a drop
    rate of 0) and that the decoder accepts are, in that order, those consumed
    followed by those in the ring; all of them pass the engine's validity guards,
    the book is the one the engine reaches on the consumed ticks in that order,
    and the counters agree, whatever the feature extractor and the inference
    engine do. *)
Theorem feed_to_book_exact {Fe AI} `{TickSinks Fe AI} (host_be : bool) (cfg : SimConfig) (file : option (list Z)) (now : Z)
    (fe fe' : Fe) (ai : option AI) (steps : list pipeline_step) (Hsource : source_ok cfg file) (Hfe : features_init fe = (true, fe')) :
  exists f c visits past queued f' r' c', simfeed.init true host_be true file now (simfeed.fresh cfg) = Some (true, f) /\ new_consumer fe ai = (true, c) /\
    pipeline_run (H := sim_source host_be) steps f c = Some (Z.of_nat (length (forwarded visits)), f', r', c') /\
    source_order host_be cfg file visits /\ drops_allowed cfg visits /\
    simfeed.total_messages f' = u64 (Z.of_nat (length (forwarded visits))) /\ simfeed.total_dropped f' = u64 (Z.of_nat (length (dropped visits))) /\
    forwarded visits = past ++ queued /\ tick_queue r' (Z.of_nat (length past)) queued /\ Forall acceptable (forwarded visits) /\
    co_lob c' = run_ticks (filter (fun t => in_engine t = true) past) /\
    consumer.ticks_processed c' = u64 (Z.of_nat (length (filter (fun t => in_engine t = true) past))) /\
    consumer.rejected_ticks c' = u64 (Z.of_nat (length (filter (fun t => in_engine t = false) past))).
Proof.
  destruct (init_ready host_be cfg file now Hsource) as (f & Hi & Hready).
  destruct (pipeline_exact (H := sim_source host_be) (sim_at host_be cfg file) f fe fe' ai steps Hready Hfe) as (c & v & past & queued & f' & r' & c' & Hc & Hrun & Hat & Hall).
  destruct (sim_at_counted _ _ _ _ _ Hat) as [C1 C2 C3]. exists f, c, v, past, queued, f', r', c'.
  do 3 (split; [done|]). split; [by eapply sim_at_order|]. by do 3 (split; [done|]).
Qed.

#[local] Instance no_sinks : TickSinks unit unit :=
  {| features_init fe := (true, fe); features_update _ _ _ fe := fe; infer_symbol _ _ ai := ai |}.

(** Three polls of four prepared messages: three ticks, one of them consumed. *)
Lemma feed_to_book_exact_witness :
  exists visits past queued n f' r' c', pipeline_run (H := sim_source false) [Ingest 0; Ingest 1; Consume; Ingest 2]
      (default (false, simfeed.fresh (small_sim 4)) (simfeed.init true false true None 0 (simfeed.fresh (small_sim 4)))).2 (new_consumer tt (Some tt)).2 =
    Some (n, f', r', c') /\ n = 3 /\ consumer.ticks_processed c' = 1 /\ source_order false (small_sim 4) None visits /\ forwarded visits = past ++ queued /\
    length (past ++ queued) = 3%nat /\ co_lob c' = run_ticks (filter (fun t => in_engine t = true) past).
Proof.
  destruct (feed_to_book_exact false (small_sim 4) None 0 tt tt (Some tt) [Ingest 0; Ingest 1; Consume; Ingest 2]) as
    (f & c & visits & past & queued & f' & r' & c' & Hi & Hc & Hrun & Hord & _ & _ & _ & Ev & Hq & Ha & Hl & Hn & _).
  - split; [reflexivity|]. split; [reflexivity|]. left. split_and!; [reflexivity| |cbn; lia|cbn; lia|reflexivity]. apply small_sim_ok. unfold in_u. lia.
  - reflexivity.
  - exists visits, past, queued, (Z.of_nat (length (forwarded visits))), f', r', c'. rewrite Hi, Hc. cbn [default snd]. split; [exact Hrun|].
    assert (Ef : f = (default (false, simfeed.fresh (small_sim 4)) (simfeed.init true false true None 0 (simfeed.fresh (small_sim 4)))).2) by by rewrite Hi.
    assert (Ec : c = (new_consumer tt (Some tt)).2) by by rewrite Hc.
    assert (E : (fun st => (st.1.1.1, co_tick_count st.2)) <$> pipeline_run (H := sim_source false) [Ingest 0; Ingest 1; Consume; Ingest 2] f c = Some (3, 1))
      by (rewrite Ef, Ec; vm_compute; reflexivity).
    rewrite Hrun in E. injection E as E1 E2. split; [exact E1|]. split; [exact E2|]. split; [exact Hord|]. split; [exact Ev|]. rewrite <- Ev. split; [lia|exact Hl].
Defined.
