(* ===== verification/WsUtf8.v ===== *)
(** * UTF-8 validation and close codes (luv_websocket_parse.hpp)

    [valid_utf8] scans a buffer in place; it accepts exactly the
    concatenations of the encodings of Unicode scalar values.  Text is a list
    of bytes, [None] for a null pointer; the result [None] is a read outside the
    buffer. *)
From Stdlib Require Import ZArith Lia ZifyBool.
From S2P Require Import Prelude Bytes.

(** ** valid_close_code *)
Definition valid_close_code (code : Z) : bool :=
  if (3000 <=? code) && (code <=? 4999) then true
  else (1000 <=? code) && (code <=? 1014) && negb (code =? 1004) && negb (code =? 1005) && negb (code =? 1006).

(** ** valid_utf8 *)

(** The branches on the first byte of a multi-byte form: the bits it
    contributes, the number of continuation bytes, the least code point. *)
Definition utf8_first (first : Z) : option (Z * nat * Z) :=
  if Z.land first 0xE0 =? 0xC0 then Some (Z.land first 0x1F, 1%nat, 0x80)
  else if Z.land first 0xF0 =? 0xE0 then Some (Z.land first 0x0F, 2%nat, 0x800)
  else if Z.land first 0xF8 =? 0xF0 then Some (Z.land first 0x07, 3%nat, 0x10000)
  else None.

(** The loop over the continuation bytes; [inl] when one of them is none. *)
Fixpoint utf8_continuation (count : nat) (text : list Z) (offset code_point : Z) : option (unit + Z * Z) :=
  match count with
  | O => Some (inr (offset, code_point))
  | S count =>
      next ← rd text offset;
      if negb (Z.land next 0xC0 =? 0x80) then Some (inl ())
      else utf8_continuation count text (offset + 1) (Z.lor (u32 (Z.shiftl code_point 6)) (Z.land next 0x3F))
  end.

(** The outer loop; every iteration consumes a byte. *)
Fixpoint utf8_scan (fuel : nat) (text : list Z) (size offset : Z) : option bool :=
  match fuel with
  | O => None
  | S fuel =>
      if offset <? size then
        first ← rd text offset;
        let offset := offset + 1 in
        if first <=? 0x7F then utf8_scan fuel text size offset
        else match utf8_first first with
        | None => Some false
        | Some (code_point, continuation_count, minimum) =>
            if size <? offset + Z.of_nat continuation_count then Some false
            else
              r ← utf8_continuation continuation_count text offset code_point;
              match r with
              | inl _ => Some false
              | inr (offset, code_point) =>
                  if (code_point <? minimum) || (0x10FFFF <? code_point)
                     || ((0xD800 <=? code_point) && (code_point <=? 0xDFFF))
                  then Some false
                  else utf8_scan fuel text size offset
              end
        end
      else Some true
  end.

Definition valid_utf8 (text : option (list Z)) (size : Z) : option bool :=
  match text with
  | None => Some (size =? 0)
  | Some text => utf8_scan (S (Z.to_nat size)) text size 0
  end.

(** ** Specification: the encoding of scalar values (RFC 3629) *)
Definition scalar (c : Z) : Prop := 0 <= c <= 0x10FFFF /\ ~ 0xD800 <= c <= 0xDFFF.

Definition cont (x : Z) : Z := 0x80 + x mod 64.

Definition utf8_encode (c : Z) : list Z :=
  if c <? 0x80 then [c]
  else if c <? 0x800 then [0xC0 + c / 64; cont c]
  else if c <? 0x10000 then [0xE0 + c / 4096; cont (c / 64); cont c]
  else [0xF0 + c / 262144; cont (c / 4096); cont (c / 64); cont c].

Definition utf8_text (l : list Z) : Prop := exists cps, Forall scalar cps /\ l = cps ≫= utf8_encode.

(** ** The scan, character by character *)
Definition is_cont (b : Z) : bool := (0x80 <=? b) && (b <? 0xC0).

Definition utf8_append (acc b : Z) : Z := acc * 64 + b mod 64.

(** The character at the head of a buffer and the bytes it takes. *)
Definition utf8_char (l : list Z) : option (Z * nat) :=
  match l with
  | [] => None
  | first :: rest =>
      if first <=? 0x7F then Some (first, 1%nat)
      else match utf8_first first with
      | None => None
      | Some (code_point, n, minimum) =>
          if (length rest <? n)%nat || negb (forallb is_cont (take n rest)) then None
          else
            let c := foldl utf8_append code_point (take n rest) in
            if (c <? minimum) || (0x10FFFF <? c) || ((0xD800 <=? c) && (c <=? 0xDFFF)) then None
            else Some (c, S n)
      end
  end.

Lemma utf8_first_spec b : in_u 8 b ->
  utf8_first b =
    if (0xC0 <=? b) && (b <? 0xE0) then Some (b - 0xC0, 1%nat, 0x80)
    else if (0xE0 <=? b) && (b <? 0xF0) then Some (b - 0xE0, 2%nat, 0x800)
    else if (0xF0 <=? b) && (b <? 0xF8) then Some (b - 0xF0, 3%nat, 0x10000)
    else None.
Proof.
  intros Hb. apply (bool_decide_eq_true_1 _). revert b Hb. apply all_bytes. by vm_compute.
Qed.

Lemma cont_bits b : in_u 8 b -> (Z.land b 0xC0 =? 0x80) = is_cont b /\ Z.land b 0x3F = b mod 64.
Proof.
  intros Hb. split.
  - apply Bool.eqb_prop. revert b Hb. apply (all_bytes (fun b => Bool.eqb (Z.land b 0xC0 =? 0x80) (is_cont b))). by vm_compute.
  - apply Z.eqb_eq. revert b Hb. apply (all_bytes (fun b => Z.land b 0x3F =? b mod 64)). by vm_compute.
Qed.

Lemma utf8_append_bound acc b : 0 <= acc -> acc * 64 <= utf8_append acc b < (acc + 1) * 64.
Proof. unfold utf8_append. pose proof (Z.mod_pos_bound b 64). lia. Qed.

Lemma utf8_continuation_spec n text off cp :
  bytes_ok text -> 0 <= off -> off + Z.of_nat n <= Z.of_nat (length text) -> 0 <= cp -> (cp + 1) * 64 ^ Z.of_nat n <= 2 ^ 32 ->
  let l := take n (drop (Z.to_nat off) text) in
  utf8_continuation n text off cp =
    Some (if forallb is_cont l then inr (off + Z.of_nat n, foldl utf8_append cp l) else inl ()).
Proof.
  intros Ht. revert off cp. induction n as [|n IH]; intros off cp Ho Hl Hc Hw l.
  - subst l. cbn. by rewrite Z.add_0_r.
  - subst l. cbn [utf8_continuation]. destruct (rd_is_Some text off) as [b Hb]; [lia|]. rewrite Hb. cbn [mbind option_bind].
    pose proof (rd_range _ _ _ Ht Hb) as Hr. destruct (cont_bits b Hr) as [H1 H2]. rewrite H1, H2.
    unfold rd in Hb. case_if_in Hb; [|done]. rewrite (drop_S text b (Z.to_nat off)) by done.
    cbn [take forallb]. destruct (is_cont b); [|done]. cbn [negb andb foldl].
    rewrite Nat2Z.inj_succ, Z.pow_succ_r in Hw by lia.
    assert (64 ^ Z.of_nat n >= 1) by lia.
    rewrite wrap_u_id by (unfold in_u; rewrite Z.shiftl_mul_pow2 by lia; nia).
    rewrite lor_shiftl_add by (pose proof (Z.mod_pos_bound b 64); lia). change (cp * 2 ^ 6 + b mod 64) with (utf8_append cp b).
    pose proof (utf8_append_bound cp b Hc). rewrite IH; [|lia|lia|lia|nia].
    replace (Z.to_nat (off + 1)) with (S (Z.to_nat off)) by lia.
    replace (off + 1 + Z.of_nat n) with (off + Z.of_nat (S n)) by lia. done.
Qed.

(** One iteration of the scan. *)
Lemma utf8_scan_step fuel text off :
  bytes_ok text -> 0 <= off < Z.of_nat (length text) ->
  utf8_scan (S fuel) text (Z.of_nat (length text)) off =
    match utf8_char (drop (Z.to_nat off) text) with
    | None => Some false
    | Some (_, n) => utf8_scan fuel text (Z.of_nat (length text)) (off + Z.of_nat n)
    end.
Proof.
  intros Ht Ho. cbn [utf8_scan]. case_if; [|lia]. destruct (rd_is_Some text off) as [b Hb]; [lia|].
  rewrite Hb. cbn [mbind option_bind]. pose proof (rd_range _ _ _ Ht Hb) as Hr.
  unfold rd in Hb. case_if_in Hb; [|done]. rewrite (drop_S text b (Z.to_nat off)) by done. cbn [utf8_char].
  destruct (b <=? 0x7F); [by rewrite Z.add_1_r|]. rewrite utf8_first_spec by done.
  assert (forall cp n m, 0 <= cp < 32 -> (n <= 3)%nat ->
    (if Z.of_nat (length text) <? off + 1 + Z.of_nat n then Some false
     else r ← utf8_continuation n text (off + 1) cp;
       match r with
       | inl _ => Some false
       | inr (offset, code_point) =>
           if (code_point <? m) || (0x10FFFF <? code_point) || ((0xD800 <=? code_point) && (code_point <=? 0xDFFF))
           then Some false else utf8_scan fuel text (Z.of_nat (length text)) offset
       end) =
    match (if (length (drop (S (Z.to_nat off)) text) <? n)%nat || negb (forallb is_cont (take n (drop (S (Z.to_nat off)) text))) then None
          else let c := foldl utf8_append cp (take n (drop (S (Z.to_nat off)) text)) in
            if (c <? m) || (0x10FFFF <? c) || ((0xD800 <=? c) && (c <=? 0xDFFF)) then None else Some (c, S n)) with
    | None => Some false
    | Some (_, n) => utf8_scan fuel text (Z.of_nat (length text)) (off + Z.of_nat n)
    end) as Hgen.
  { intros cp n m Hcp Hn. rewrite length_drop.
    destruct (length text - S (Z.to_nat off) <? n)%nat eqn:E1; cbn [orb].
    { case_if; [done|lia]. }
    case_if; [lia|]. rewrite utf8_continuation_spec; [|done|lia|lia|lia|].
    2:{ assert (64 ^ Z.of_nat n <= 64 ^ 3) by (apply Z.pow_le_mono_r; lia). nia. }
    replace (Z.to_nat (off + 1)) with (S (Z.to_nat off)) by lia. cbn [mbind option_bind].
    destruct (forallb is_cont _); cbn [negb]; [|done]. cbv zeta. case_if; [done|].
    f_equal. lia. }
  unfold in_u in Hr. change (2 ^ 8) with 256 in Hr.
  destruct ((192 <=? b) && (b <? 224)) eqn:E1; [apply Hgen; lia|].
  destruct ((224 <=? b) && (b <? 240)) eqn:E2; [apply Hgen; lia|].
  destruct ((240 <=? b) && (b <? 248)) eqn:E3; [apply Hgen; lia|done].
Qed.

(** ** Characters and encodings *)
Ltac cont_lia := unfold cont, utf8_append in *; Z.to_euclidean_division_equations; lia.

Lemma cont_is_cont x : is_cont (cont x) = true.
Proof. unfold is_cont. cont_lia. Qed.

Lemma cont_mod x : cont x mod 64 = x mod 64.
Proof. cont_lia. Qed.

Lemma utf8_encode_length c : (1 <= length (utf8_encode c))%nat.
Proof. unfold utf8_encode. repeat case_if; cbn; lia. Qed.

Lemma utf8_char_encode c rest : scalar c -> utf8_char (utf8_encode c ++ rest) = Some (c, length (utf8_encode c)).
Proof.
  intros [Hc Hs]. unfold utf8_encode. repeat case_if; cbn [app utf8_char length].
  - by case_if; [|lia].
  - case_if; [cont_lia|]. rewrite utf8_first_spec by (unfold in_u; cont_lia). case_if; [|cont_lia].
    cbn [take]. rewrite take_0. cbn [length forallb foldl Nat.ltb Nat.leb]. rewrite cont_is_cont. cbn [orb andb negb].
    assert (utf8_append (0xC0 + c / 64 - 0xC0) (cont c) = c) as -> by (unfold utf8_append; rewrite cont_mod; cont_lia).
    case_if; [lia|done].
  - case_if; [cont_lia|]. rewrite utf8_first_spec by (unfold in_u; cont_lia). case_if; [cont_lia|]. case_if; [|cont_lia].
    cbn [take]. rewrite take_0. cbn [length forallb foldl Nat.ltb Nat.leb]. rewrite !cont_is_cont. cbn [orb andb negb].
    assert (utf8_append (utf8_append (0xE0 + c / 4096 - 0xE0) (cont (c / 64))) (cont c) = c) as -> by (unfold utf8_append; rewrite !cont_mod; cont_lia).
    case_if; [lia|done].
  - case_if; [cont_lia|]. rewrite utf8_first_spec by (unfold in_u; cont_lia). case_if; [cont_lia|]. case_if; [cont_lia|]. case_if; [|cont_lia].
    cbn [take]. rewrite take_0. cbn [length forallb foldl Nat.ltb Nat.leb]. rewrite !cont_is_cont. cbn [orb andb negb].
    assert (utf8_append (utf8_append (utf8_append (0xF0 + c / 262144 - 0xF0) (cont (c / 4096))) (cont (c / 64))) (cont c) = c) as ->
      by (unfold utf8_append; rewrite !cont_mod; cont_lia).
    case_if; [lia|done].
Qed.

(** The continuation bytes of a character are determined by its value. *)
Lemma is_cont_eq b : is_cont b = true -> b = cont b.
Proof. unfold is_cont. cont_lia. Qed.

Lemma utf8_char_sound l c n :
  bytes_ok l -> utf8_char l = Some (c, n) -> scalar c /\ l = utf8_encode c ++ drop n l /\ n = length (utf8_encode c).
Proof.
  intros Hl H. destruct l as [|b l]; [done|]. cbn [utf8_char] in H. inversion Hl as [|? ? Hb Hl']; subst.
  destruct (b <=? 127) eqn:E0.
  { injection H as <- <-. unfold in_u in Hb. split; [unfold scalar; lia|]. unfold utf8_encode. case_if; [|lia].
    cbn. by rewrite drop_0. }
  rewrite utf8_first_spec in H by done.
  destruct ((192 <=? b) && (b <? 224)) eqn:E1; [|
    destruct ((224 <=? b) && (b <? 240)) eqn:E2; [|destruct ((240 <=? b) && (b <? 248)) eqn:E3; [|discriminate H]]].
  - destruct l as [|b1 l]; [done|]. cbn [length take Nat.ltb Nat.leb orb forallb] in H. rewrite take_0 in H. cbn [forallb foldl] in H.
    destruct (is_cont b1) eqn:C1; [|done]. cbn [andb negb] in H. apply is_cont_eq in C1.
    cbv zeta in H. case_if_in H; [done|]. injection H as <- <-.
    split; [unfold scalar; lia|]. cbn [drop]. unfold utf8_encode. clear Hl Hl'.
    case_if; [cont_lia|]. case_if; [|cont_lia]. cbn [app]. rewrite drop_0. split; [|done]. repeat f_equal; cont_lia.
  - destruct l as [|b1 [|b2 l]]; [done..|]. cbn [length take Nat.ltb Nat.leb orb forallb] in H. rewrite take_0 in H. cbn [forallb foldl] in H.
    destruct (is_cont b1) eqn:C1; [|done]. destruct (is_cont b2) eqn:C2; [|done]. cbn [andb negb] in H. apply is_cont_eq in C1, C2.
    cbv zeta in H. case_if_in H; [done|]. injection H as <- <-.
    split; [unfold scalar; lia|]. cbn [drop]. unfold utf8_encode. clear Hl Hl'.
    case_if; [cont_lia|]. case_if; [cont_lia|]. case_if; [|cont_lia]. cbn [app]. rewrite drop_0. split; [|done]. repeat f_equal; cont_lia.
  - destruct l as [|b1 [|b2 [|b3 l]]]; [done..|]. cbn [length take Nat.ltb Nat.leb orb forallb] in H. rewrite take_0 in H. cbn [forallb foldl] in H.
    destruct (is_cont b1) eqn:C1; [|done]. destruct (is_cont b2) eqn:C2; [|done]. destruct (is_cont b3) eqn:C3; [|done].
    cbn [andb negb] in H. apply is_cont_eq in C1, C2, C3.
    cbv zeta in H. case_if_in H; [done|]. injection H as <- <-.
    split; [unfold scalar; lia|]. cbn [drop]. unfold utf8_encode. clear Hl Hl'.
    case_if; [cont_lia|]. case_if; [cont_lia|]. case_if; [cont_lia|]. cbn [app]. rewrite drop_0. split; [|done]. repeat f_equal; cont_lia.
Qed.

Lemma utf8_text_step l : bytes_ok l -> l <> [] ->
  (utf8_text l <-> exists c n, utf8_char l = Some (c, n) /\ utf8_text (drop n l)).
Proof.
  intros Hb Hl. split.
  - intros ([|c cps] & Hs & ->); [done|]. inversion Hs; subst. exists c, (length (utf8_encode c)). cbn [mbind list_bind].
    rewrite utf8_char_encode by done. split; [done|]. rewrite drop_app_length. by exists cps.
  - intros (c & n & H & cps & Hs & Hd). destruct (utf8_char_sound _ _ _ Hb H) as (Hc & -> & _).
    exists (c :: cps). split; [by constructor|]. cbn [mbind list_bind]. by rewrite Hd.
Qed.

Lemma utf8_scan_exact fuel text off :
  bytes_ok text -> 0 <= off <= Z.of_nat (length text) -> (length text < fuel + Z.to_nat off)%nat ->
  exists b, utf8_scan fuel text (Z.of_nat (length text)) off = Some b /\ (b = true <-> utf8_text (drop (Z.to_nat off) text)).
Proof.
  intros Ht. revert off. induction fuel as [|fuel IH]; intros off Ho Hf; [lia|].
  destruct (decide (off = Z.of_nat (length text))) as [-> | Hne].
  { exists true. split; [cbn; case_if; [lia|done]|]. rewrite drop_ge by lia. split; [intros _; by exists []|done]. }
  rewrite utf8_scan_step by (done || lia).
  assert (bytes_ok (drop (Z.to_nat off) text)) as Hd by by apply Forall_drop.
  assert (drop (Z.to_nat off) text <> []) as Hn by (intros H%(f_equal length); rewrite length_drop in H; cbn in H; lia).
  pose proof (utf8_text_step _ Hd Hn) as Hst. destruct (utf8_char _) as [[c n]|] eqn:Hc.
  - destruct (utf8_char_sound _ _ _ Hd Hc) as (_ & He & Hn1).
    assert (Z.of_nat n <= Z.of_nat (length text) - off) as Hn2.
    { apply (f_equal length) in He. rewrite length_app, length_drop in He. lia. }
    pose proof (utf8_encode_length c) as Hpos.
    destruct (IH (off + Z.of_nat n)) as (b & Hb & Hiff); [lia..|]. exists b. split; [done|].
    rewrite Hst, Hiff. replace (Z.to_nat (off + Z.of_nat n)) with (Z.to_nat off + n)%nat by lia. rewrite <- drop_drop.
    split; [intros Hr; by exists c, n|]. intros (c' & n' & [= <- <-] & Hr). done.
  - exists false. split; [done|]. rewrite Hst. split; [done|]. by intros (? & ? & ? & _).
Qed.

(** Bytes behind the text are not read. *)
Lemma utf8_continuation_take n text size off cp :
  0 <= off -> off + Z.of_nat n <= Z.of_nat size ->
  utf8_continuation n (take size text) off cp = utf8_continuation n text off cp.
Proof.
  revert off cp. induction n as [|n IH]; intros off cp Ho Hn; [done|]. cbn [utf8_continuation].
  assert (rd (take size text) off = rd text off) as -> by (unfold rd; case_if; [|done]; apply lookup_take_lt; lia).
  destruct (rd text off); [|done]. cbn [mbind option_bind]. case_if; [done|]. apply IH; lia.
Qed.

Lemma utf8_continuation_offset n text off cp o c : utf8_continuation n text off cp = Some (inr (o, c)) -> o = off + Z.of_nat n.
Proof.
  revert off cp. induction n as [|n IH]; intros off cp H; cbn [utf8_continuation] in H; [injection H; lia|].
  destruct (rd text off); [|done]. cbn [mbind option_bind] in H. case_if_in H; [done|]. apply IH in H. lia.
Qed.

Lemma utf8_scan_take fuel text size off :
  0 <= off -> utf8_scan fuel (take size text) (Z.of_nat size) off = utf8_scan fuel text (Z.of_nat size) off.
Proof.
  revert off. induction fuel as [|fuel IH]; intros off Ho; [done|]. cbn [utf8_scan]. case_if; [|done].
  assert (rd (take size text) off = rd text off) as -> by (unfold rd; case_if; [|done]; apply lookup_take_lt; lia).
  destruct (rd text off) as [b|]; [|done]. cbn [mbind option_bind]. case_if; [apply IH; lia|].
  destruct (utf8_first b) as [[[cp n] m]|]; [|done]. case_if; [done|]. rewrite utf8_continuation_take by lia.
  destruct (utf8_continuation n text (off + 1) cp) as [[[]|[o c]]|] eqn:E; [done| |done]. cbn [mbind option_bind].
  apply utf8_continuation_offset in E. case_if; [done|]. apply IH. lia.
Qed.

(** [valid_utf8] depends on the bytes of the text only. *)
Lemma valid_utf8_take text size : (size <= length text)%nat ->
  valid_utf8 (Some text) (Z.of_nat size) = valid_utf8 (Some (take size text)) (Z.of_nat size).
Proof. intros Hs. unfold valid_utf8. by rewrite utf8_scan_take by lia. Qed.

Lemma valid_utf8_spec text : bytes_ok text ->
  exists b, valid_utf8 (Some text) (Z.of_nat (length text)) = Some b /\ (b = true <-> utf8_text text).
Proof.
  intros Ht. unfold valid_utf8. rewrite Nat2Z.id.
  destruct (utf8_scan_exact (S (length text)) text 0) as (b & Hb & Hiff); [done|lia|lia|]. by exists b.
Qed.

(** C38: UTF-8 validation is exact and safe: on any bytes, a text of [size]
    bytes inside its buffer is never read past its end, the scan ends, and the
    answer is true exactly when the text is a concatenation of RFC 3629
    encodings of Unicode scalar values (so overlong forms, surrogates, values
    above U+10FFFF, stray and truncated sequences are refused). *)
Theorem valid_utf8_exact (text : list Z) (size : nat) (Ht : bytes_ok text) (Hs : (size <= length text)%nat) :
  exists b, valid_utf8 (Some text) (Z.of_nat size) = Some b /\ (b = true <-> utf8_text (take size text)).
Proof.
  rewrite valid_utf8_take by done. destruct (valid_utf8_spec (take size text)) as (b & Hb & Hiff); [by apply Forall_take|].
  exists b. split; [|done]. rewrite length_take, Nat.min_l in Hb by done. done.
Qed.

(** Two, three and four byte characters and, behind the text, a byte that no text contains. *)
Example valid_utf8_exact_witness :
  let text := [0xC3; 0xA9; 0xE2; 0x82; 0xAC; 0xF0; 0x9F; 0x98; 0x80; 0xFF] in
  valid_utf8 (Some text) 9 = Some true /\ valid_utf8 (Some text) 10 = Some false /\
  exists b, valid_utf8 (Some text) (Z.of_nat 9) = Some b /\ (b = true <-> utf8_text (take 9 text)).
Proof.
  split; [by vm_compute|]. split; [by vm_compute|]. apply valid_utf8_exact; [|cbn; lia].
  repeat constructor; unfold in_u; cbn; lia.
Defined.
