(* ===== verification/WsFrame.v ===== *)
(** * WebSocket frames (frame of luv_websocket_parse.hpp)

    [frame] parses one client frame at the head of the connection's read
    buffer, unmasks its payload in place and keeps the state of a fragmented
    message.  The result [None] is an access outside the buffer or outside the
    fixed text buffer of the fragment state. *)
From Stdlib Require Import ZArith Lia ZifyBool.
From S2P Require Import Prelude Bytes WsUtf8.

Definition kMaxWebSocketMessageBytes : Z := 2048 - 14.

Inductive FrameResult := kIncomplete | kConsumed | kProtocolError | kMessageTooLarge | kInvalidUtf8.

#[global] Instance FrameResult_eq_dec : EqDecision FrameResult.
Proof. solve_decision. Defined.

Record Frame := mkFrame { fr_size : Z; fr_payload_offset : Z; fr_payload_size : Z; fr_opcode : Z }.

Record FragmentState := mkFragment {
  fs_fragmented : bool;
  fs_opcode : Z;
  fs_message_size : Z;
  fs_text : list Z
}.

(** [FragmentState{}]. *)
Definition fragment_init : FragmentState := mkFragment false 0 0 (replicate (Z.to_nat kMaxWebSocketMessageBytes) 0).

(** [memcpy] to an offset of a fixed array. *)
Definition memcpy (dst : list Z) (off : Z) (bs : list Z) : option (list Z) :=
  if (0 <=? off) && (off + Z.of_nat (length bs) <=? Z.of_nat (length dst)) then Some (put off bs dst) else None.

(** The loop that reads the 64-bit length. *)
Fixpoint read_length64 (n : nat) (input : list Z) (index acc : Z) : option Z :=
  match n with
  | O => Some acc
  | S n => b ← rd input (2 + index); read_length64 n input (index + 1) (Z.lor (u64 (Z.shiftl acc 8)) b)
  end.

(** The length selector: [inr (header_size, payload_size_64)] or the early
    result. *)
Definition frame_length (input : list Z) (size length_marker : Z) : option (FrameResult + Z * Z) :=
  if length_marker <=? 125 then Some (inr (2, length_marker))
  else if length_marker =? 126 then
    if size <? 4 then Some (inl kIncomplete)
    else
      b2 ← rd input 2; b3 ← rd input 3;
      let payload_size_64 := Z.lor (Z.shiftl b2 8) b3 in
      Some (if payload_size_64 <? 126 then inl kProtocolError else inr (4, payload_size_64))
  else if size <? 10 then Some (inl kIncomplete)
  else
    b2 ← rd input 2;
    if negb (Z.land b2 0x80 =? 0) then Some (inl kProtocolError)
    else
      payload_size_64 ← read_length64 8 input 0 0;
      Some (if payload_size_64 <=? 0xFFFF then inl kProtocolError else inr (10, payload_size_64)).

(** The unmasking loop, from byte [index] of the payload. *)
Fixpoint unmask (n : nat) (buffer : list Z) (header_size index : Z) : option (list Z) :=
  match n with
  | O => Some buffer
  | S n =>
      p ← rd buffer (header_size + 4 + index);
      k ← rd buffer (header_size + Z.land index 0x03);
      unmask n (lset (header_size + 4 + index) (Z.lxor p k) buffer) header_size (index + 1)
  end.

(** The checks on a close frame: the early result, if any. *)
Definition check_close (buffer : list Z) (payload payload_size : Z) : option (option FrameResult) :=
  if payload_size =? 1 then Some (Some kProtocolError)
  else
    code_ok ← (if 2 <=? payload_size then
                 b0 ← rd buffer payload; b1 ← rd buffer (payload + 1);
                 Some (valid_close_code (Z.lor (Z.shiftl b0 8) b1))
               else Some true);
    if negb code_ok then Some (Some kProtocolError)
    else if 2 <? payload_size then
      ok ← valid_utf8 (Some (drop (Z.to_nat (payload + 2)) buffer)) (payload_size - 2);
      Some (if negb ok then Some kInvalidUtf8 else None)
    else Some None.

(** The data frames: fragment assembly. *)
Definition assemble (buffer : list Z) (payload payload_size : Z) (final : bool) (opcode : Z) (state : FragmentState)
    : option (FrameResult * FragmentState) :=
  if opcode =? 0x00 then
    if negb (fs_fragmented state) then Some (kProtocolError, state)
    else if u64 (kMaxWebSocketMessageBytes - fs_message_size state) <? payload_size then Some (kMessageTooLarge, state)
    else
      r ← (if fs_opcode state =? 0x01 then
             bs ← slice buffer payload payload_size;
             text ← memcpy (fs_text state) (fs_message_size state) bs;
             let state := mkFragment (fs_fragmented state) (fs_opcode state) (fs_message_size state) text in
             if final then
               ok ← valid_utf8 (Some text) (fs_message_size state + payload_size);
               Some (negb ok, state)
             else Some (false, state)
           else Some (false, state));
      let '(invalid, state) := r in
      if invalid : bool then Some (kInvalidUtf8, state)
      else if final then Some (kConsumed, fragment_init)
      else Some (kConsumed, mkFragment (fs_fragmented state) (fs_opcode state)
                              (u64 (fs_message_size state + payload_size)) (fs_text state))
  else if (opcode =? 0x01) || (opcode =? 0x02) then
    if fs_fragmented state then Some (kProtocolError, state)
    else
      invalid ← (if (opcode =? 0x01) && final then
                   ok ← valid_utf8 (Some (drop (Z.to_nat payload) buffer)) payload_size; Some (negb ok)
                 else Some false);
      if invalid : bool then Some (kInvalidUtf8, state)
      else if negb final then
        text ← (if opcode =? 0x01 then bs ← slice buffer payload payload_size; memcpy (fs_text state) 0 bs
                else Some (fs_text state));
        Some (kConsumed, mkFragment true opcode payload_size text)
      else Some (kConsumed, state)
  else Some (kProtocolError, state).

Definition known_opcode (opcode : Z) : bool :=
  (opcode =? 0) || (opcode =? 1) || (opcode =? 2) || (opcode =? 8) || (opcode =? 9) || (opcode =? 10).

(** From the unmasked payload to the result. *)
Definition frame_body (buffer : list Z) (state : FragmentState) (output : Frame)
    (final : bool) (opcode header_size payload_size : Z) : option (FrameResult * list Z * FragmentState * Frame) :=
  let payload := header_size + 4 in
  early ← (if opcode =? 8 then check_close buffer payload payload_size else Some None);
  match early with
  | Some r => Some (r, buffer, state, output)
  | None =>
      rs ← (if Z.land opcode 0x08 =? 0 then assemble buffer payload payload_size final opcode state
            else Some (kConsumed, state));
      let '(r, state) := rs in
      Some (r, buffer, state,
            if decide (r = kConsumed) then mkFrame (header_size + 4 + payload_size) (header_size + 4) payload_size opcode
            else output)
  end.

(** Everything before the unmasking loop: an early result, or whether the frame
    is final, its opcode and the sizes of its header and payload. *)
Definition parse_header (input : list Z) (size : Z) : option (FrameResult + bool * Z * Z * Z) :=
  if size <? 2 then Some (inl kIncomplete)
  else
    first ← rd input 0; second ← rd input 1;
    let final := negb (Z.land first 0x80 =? 0) in
    let opcode := Z.land first 0x0F in
    if negb (known_opcode opcode) then Some (inl kProtocolError)
    else
      let masked := negb (Z.land second 0x80 =? 0) in
      let length_marker := Z.land second 0x7F in
      if negb (Z.land first 0x70 =? 0) || negb masked then Some (inl kProtocolError)
      else
        lengths ← frame_length input size length_marker;
        match lengths with
        | inl r => Some (inl r)
        | inr (header_size, payload_size_64) =>
            let control := negb (Z.land opcode 0x08 =? 0) in
            if control && (negb final || (125 <? payload_size_64)) then Some (inl kProtocolError)
            else if kMaxWebSocketMessageBytes <? payload_size_64 then Some (inl kMessageTooLarge)
            else if size <? header_size + 4 + payload_size_64 then Some (inl kIncomplete)
            else Some (inr (final, opcode, header_size, payload_size_64))
        end.

Definition frame (buffer : list Z) (size : Z) (state : FragmentState) (output : Frame)
    : option (FrameResult * list Z * FragmentState * Frame) :=
  header ← parse_header buffer size;
  match header with
  | inl r => Some (r, buffer, state, output)
  | inr (final, opcode, header_size, payload_size) =>
      buffer ← unmask (Z.to_nat payload_size) buffer header_size 0;
      frame_body buffer state output final opcode header_size payload_size
  end.

(** ** Specification: client frames and message assembly (RFC 6455) *)
Record client_frame := mkClient { cf_final : bool; cf_opcode : Z; cf_key : list Z; cf_payload : list Z }.

Definition cf_length (f : client_frame) : Z := Z.of_nat (length (cf_payload f)).

Definition client_frame_ok (f : client_frame) : Prop :=
  known_opcode (cf_opcode f) = true /\ bytes_ok (cf_key f) /\ length (cf_key f) = 4%nat /\ bytes_ok (cf_payload f) /\
  cf_length f <= kMaxWebSocketMessageBytes /\ (8 <= cf_opcode f -> cf_final f = true /\ cf_length f <= 125).

(** The shortest length form, with the mask bit. *)
Definition length_bytes (n : Z) : list Z := if n <=? 125 then [0x80 + n] else [0x80 + 126; n / 256; n mod 256].

Definition mask_from (key : list Z) (index : nat) (bs : list Z) : list Z :=
  imap (fun i b => Z.lxor b (default 0 (key !! ((index + i) mod 4)%nat))) bs.

Definition frame_header (f : client_frame) : list Z :=
  (0x80 * bit (cf_final f) + cf_opcode f) :: length_bytes (cf_length f) ++ cf_key f.

(** A frame on the wire, and the same frame after unmasking. *)
Definition encode_frame (f : client_frame) : list Z := frame_header f ++ mask_from (cf_key f) 0 (cf_payload f).
Definition plain_frame (f : client_frame) : list Z := frame_header f ++ cf_payload f.

Definition is_text (l : list Z) : bool := default false (valid_utf8 (Some l) (Z.of_nat (length l))).

(** The partial message: none, or the opcode and the bytes received so far. *)
Abbreviation assembly := (option (Z * list Z)).

(** A data frame, by the opcode. *)
Definition spec_data (a : assembly) (final : bool) (opcode : Z) (p : list Z) : FrameResult * assembly :=
  match a with
  | None =>
      if opcode =? 0 then (kProtocolError, a)
      else if (opcode =? 1) && final && negb (is_text p) then (kInvalidUtf8, a)
      else (kConsumed, if final then None else Some (opcode, p))
  | Some (op, bs) =>
      if negb (opcode =? 0) then (kProtocolError, a)
      else if kMaxWebSocketMessageBytes <? Z.of_nat (length (bs ++ p)) then (kMessageTooLarge, a)
      else if (op =? 1) && final && negb (is_text (bs ++ p)) then (kInvalidUtf8, a)
      else (kConsumed, if final then None else Some (op, bs ++ p))
  end.

(** The payload of a close frame: empty, or a status code and a UTF-8 reason. *)
Definition spec_close (p : list Z) : FrameResult :=
  match p with
  | [] => kConsumed
  | [_] => kProtocolError
  | b0 :: b1 :: reason =>
      if negb (valid_close_code (b0 * 256 + b1)) then kProtocolError
      else if negb (is_text reason) then kInvalidUtf8 else kConsumed
  end.

Definition spec_frame (a : assembly) (f : client_frame) : FrameResult * assembly :=
  if cf_opcode f =? 8 then (spec_close (cf_payload f), a)
  else if 8 <? cf_opcode f then (kConsumed, a)
  else spec_data a (cf_final f) (cf_opcode f) (cf_payload f).

(** The fragment state represents the partial message. *)
Definition assembles (state : FragmentState) (a : assembly) : Prop :=
  Z.of_nat (length (fs_text state)) = kMaxWebSocketMessageBytes /\ bytes_ok (fs_text state) /\
  match a with
  | None => fs_fragmented state = false
  | Some (op, bs) =>
      fs_fragmented state = true /\ fs_opcode state = op /\ (op = 1 \/ op = 2) /\ bytes_ok bs /\
      fs_message_size state = Z.of_nat (length bs) /\ Z.of_nat (length bs) <= kMaxWebSocketMessageBytes /\
      (op = 1 -> take (length bs) (fs_text state) = bs)
  end.

Lemma assembles_init : assembles fragment_init None.
Proof. split; [done|]. split; [|done]. apply Forall_replicate. unfold in_u. lia. Qed.

(** ** Unmasking *)
Lemma mask_from_cons key i b bs : mask_from key i (b :: bs) = Z.lxor b (default 0 (key !! (i mod 4)%nat)) :: mask_from key (S i) bs.
Proof.
  unfold mask_from. cbn [imap]. rewrite Nat.add_0_r. f_equal. apply imap_ext. intros j x _. unfold compose. by rewrite Nat.add_succ_r.
Qed.

Lemma mask_from_length key i bs : length (mask_from key i bs) = length bs.
Proof. apply length_imap. Qed.

Lemma mask_from_involutive key i bs : mask_from key i (mask_from key i bs) = bs.
Proof.
  revert i. induction bs as [|b bs IH]; intros i; [done|]. rewrite !mask_from_cons, IH.
  by rewrite Z.lxor_assoc, Z.lxor_nilpotent, Z.lxor_0_r.
Qed.

Lemma lxor_byte a b : in_u 8 a -> in_u 8 b -> in_u 8 (Z.lxor a b).
Proof.
  intros Ha Hb. unfold in_u in *. assert (0 <= Z.lxor a b) by (apply Z.lxor_nonneg; lia). split; [done|].
  destruct (decide (Z.lxor a b = 0)) as [E | E]; [lia|]. apply Z.log2_lt_pow2; [lia|].
  pose proof (Z.log2_lxor a b ltac:(lia) ltac:(lia)). 
  assert (Z.log2 a < 8) by (destruct (decide (a = 0)) as [-> | ?]; [done|apply Z.log2_lt_pow2; lia]).
  assert (Z.log2 b < 8) by (destruct (decide (b = 0)) as [-> | ?]; [done|apply Z.log2_lt_pow2; lia]). lia.
Qed.

Lemma key_byte key i : bytes_ok key -> in_u 8 (default 0 (key !! i)).
Proof.
  intros Hk. destruct (key !! i) eqn:E; [by eapply Forall_lookup_1 in E|]. unfold in_u. cbn. lia.
Qed.

Lemma mask_from_bytes key i bs : bytes_ok key -> bytes_ok bs -> bytes_ok (mask_from key i bs).
Proof.
  intros Hk Hb. revert i. induction Hb as [|b bs Hb Hbs IH]; intros i; [constructor|]. rewrite mask_from_cons.
  constructor; [|apply IH]. by apply lxor_byte, key_byte.
Qed.

Lemma unmask_spec pre key got todo rest :
  length key = 4%nat ->
  unmask (length todo) (pre ++ key ++ got ++ todo ++ rest) (Z.of_nat (length pre)) (Z.of_nat (length got)) =
    Some (pre ++ key ++ got ++ mask_from key (length got) todo ++ rest).
Proof.
  intros Hk. revert got. induction todo as [|b todo IH]; intros got; [done|].
  cbn [length unmask]. 
  assert (rd (pre ++ key ++ got ++ (b :: todo) ++ rest) (Z.of_nat (length pre) + 4 + Z.of_nat (length got)) = Some b) as ->.
  { rewrite !app_assoc, <- app_assoc. cbn [app]. apply rd_app. rewrite !length_app. lia. }
  cbn [mbind option_bind].
  assert (rd (pre ++ key ++ got ++ (b :: todo) ++ rest) (Z.of_nat (length pre) + Z.land (Z.of_nat (length got)) 3)
          = Some (default 0 (key !! (length got mod 4)%nat))) as ->.
  { change 3 with (2 ^ 2 - 1). rewrite land_mask by lia. change (2 ^ 2) with (Z.of_nat 4).
    rewrite <- Nat2Z.inj_mod.
    unfold rd. case_if; [|lia]. rewrite lookup_app_r by lia.
    assert (Z.to_nat (Z.of_nat (length pre) + Z.of_nat (length got mod 4)) - length pre = length got mod 4)%nat as -> by lia.
    pose proof (Nat.mod_upper_bound (length got) 4). rewrite lookup_app_l by lia.
    destruct (lookup_lt_is_Some_2 key (length got mod 4)) as [k ->]; [lia|]. done. }
  cbn [mbind option_bind].
  assert (lset (Z.of_nat (length pre) + 4 + Z.of_nat (length got)) (Z.lxor b (default 0 (key !! (length got mod 4)%nat)))
            (pre ++ key ++ got ++ (b :: todo) ++ rest) =
          pre ++ key ++ (got ++ [Z.lxor b (default 0 (key !! (length got mod 4)%nat))]) ++ todo ++ rest) as ->.
  { unfold lset. case_if; [|lia]. rewrite !app_assoc, <- (app_assoc _ (b :: todo)). cbn [app].
    rewrite insert_app_r_alt by (rewrite !length_app; lia).
    replace (Z.to_nat _ - length ((pre ++ key) ++ got))%nat with 0%nat by (rewrite !length_app; lia).
    cbn. by rewrite <- !app_assoc. }
  specialize (IH (got ++ [Z.lxor b (default 0 (key !! (length got mod 4)%nat))])).
  rewrite length_app in IH. cbn [length] in IH.
  replace (Z.of_nat (length got) + 1) with (Z.of_nat (length got + 1)) by lia. rewrite IH.
  rewrite mask_from_cons. rewrite Nat.add_1_r. by rewrite <- !app_assoc.
Qed.

(** ** The header *)
Lemma known_opcode_cases op : known_opcode op = true -> op = 0 \/ op = 1 \/ op = 2 \/ op = 8 \/ op = 9 \/ op = 10.
Proof. unfold known_opcode. lia. Qed.

Lemma first_byte fin op : known_opcode op = true ->
  let b := 0x80 * bit fin + op in
  in_u 8 b /\ negb (Z.land b 0x80 =? 0) = fin /\ Z.land b 0x0F = op /\ Z.land b 0x70 = 0.
Proof.
  intros H%known_opcode_cases b. subst b. unfold in_u.
  destruct fin; destruct H as [-> | [-> | [-> | [-> | [-> | ->]]]]]; vm_compute; repeat split; congruence.
Qed.

Lemma byte_bits b : in_u 8 b ->
  b = 0x80 * bit (negb (Z.land b 0x80 =? 0)) + Z.land b 0x7F /\ 0 <= Z.land b 0x7F < 128 /\
  (Z.land b 0x70 = 0 -> b = 0x80 * bit (negb (Z.land b 0x80 =? 0)) + Z.land b 0x0F).
Proof.
  intros Hb.
  pose proof (all_bytes (fun b => (b =? 0x80 * bit (negb (Z.land b 0x80 =? 0)) + Z.land b 0x7F) && (0 <=? Z.land b 0x7F)
    && (Z.land b 0x7F <? 128) && (negb (Z.land b 0x70 =? 0) || (b =? 0x80 * bit (negb (Z.land b 0x80 =? 0)) + Z.land b 0x0F)))
    ltac:(by vm_compute) b Hb) as H. cbn beta in H. lia.
Qed.

Lemma second_byte n : 0 <= n < 128 ->
  in_u 8 (0x80 + n) /\ (Z.land (0x80 + n) 0x80 =? 0) = false /\ Z.land (0x80 + n) 0x7F = n.
Proof.
  intros Hn. assert (in_u 8 (0x80 + n)) as Hb by (unfold in_u; lia). split; [done|].
  destruct (byte_bits _ Hb) as (H1 & H2 & _). unfold bit in H1. destruct (Z.land (0x80 + n) 0x80 =? 0); cbn [negb] in H1; lia.
Qed.

Lemma length16 hi lo : 0 <= lo < 256 -> Z.lor (Z.shiftl hi 8) lo = hi * 256 + lo.
Proof. intros. by rewrite lor_shiftl_add by lia. Qed.

Lemma length_bytes_length n : Z.of_nat (length (length_bytes n)) = if n <=? 125 then 1 else 3.
Proof. unfold length_bytes. by case_if. Qed.

Lemma frame_header_length f : length (cf_key f) = 4%nat ->
  Z.of_nat (length (frame_header f)) = 4 + (if cf_length f <=? 125 then 2 else 4).
Proof.
  intros Hk. unfold frame_header. cbn [length]. rewrite length_app. pose proof (length_bytes_length (cf_length f)). case_if; lia.
Qed.

Definition header_size_of (f : client_frame) : Z := if cf_length f <=? 125 then 2 else 4.

(** The first [size] bytes of a buffer are those of the encoded frame. *)
Definition agrees (buffer : list Z) (size : Z) (f : client_frame) : Prop :=
  forall i, 0 <= i < size -> i < Z.of_nat (length (encode_frame f)) -> rd buffer i = rd (encode_frame f) i.

Lemma encode_frame_length f : length (cf_key f) = 4%nat ->
  Z.of_nat (length (encode_frame f)) = header_size_of f + 4 + cf_length f /\ 2 <= header_size_of f <= 4 /\ 0 <= cf_length f.
Proof.
  intros Hk. pose proof (frame_header_length f Hk) as H. unfold encode_frame. rewrite length_app, mask_from_length.
  unfold header_size_of, cf_length in *. case_if; lia.
Qed.

(** What the parser reads of the header. *)
Lemma frame_length_encoded f buffer size :
  client_frame_ok f -> agrees buffer size f -> 2 <= size ->
  rd buffer 0 = Some (0x80 * bit (cf_final f) + cf_opcode f) /\
  exists second, rd buffer 1 = Some second /\ (Z.land second 0x80 =? 0) = false /\
    frame_length buffer size (Z.land second 0x7F) =
      Some (if size <? header_size_of f then inl kIncomplete else inr (header_size_of f, cf_length f)).
Proof.
  intros (Ho & Hk & Hk4 & Hp & Hl & _) Ha Hs. destruct (encode_frame_length f Hk4) as (Hlen & Hh & H0).
  split; [by rewrite Ha by lia|].
  assert (rd buffer 1 = rd (encode_frame f) 1) as -> by (apply Ha; lia).
  assert (header_size_of f = 4 -> 4 <= size -> rd buffer 2 = rd (encode_frame f) 2 /\ rd buffer 3 = rd (encode_frame f) 3) as H23
    by (intros; split; apply Ha; lia).
  clear Ha. unfold header_size_of, encode_frame, frame_header, length_bytes in *. unfold kMaxWebSocketMessageBytes in Hl.
  destruct (cf_length f <=? 125) eqn:E.
  - exists (0x80 + cf_length f). destruct (second_byte (cf_length f)) as (_ & H1 & H2); [lia|]. repeat split; [done|].
    rewrite H2. unfold frame_length. rewrite E. by case_if; [lia|].
  - exists (0x80 + 126). split; [done|]. split; [by vm_compute|]. change (Z.land (0x80 + 126) 0x7F) with 126.
    unfold frame_length. change (126 <=? 125) with false. change (126 =? 126) with true. cbv iota.
    case_if; [done|]. destruct H23 as [-> ->]; [done|lia|]. cbn [app]. unfold rd. change (0 <=? 2) with true. change (0 <=? 3) with true.
    change (Z.to_nat 2) with 2%nat. change (Z.to_nat 3) with 3%nat.
    cbn [lookup list_lookup mbind option_bind]. rewrite length16 by (apply Z.mod_pos_bound; lia).
    rewrite (Z.mul_comm (_ / 256)), <- Z.div_mod by lia. by case_if; [lia|].
Qed.

(** The header of the beginning of an encoded frame. *)
Lemma parse_header_agrees f buffer size :
  client_frame_ok f -> agrees buffer size f ->
  parse_header buffer size =
    Some (if size <? Z.of_nat (length (encode_frame f)) then inl kIncomplete
          else inr (cf_final f, cf_opcode f, header_size_of f, cf_length f)).
Proof.
  intros Hok Ha. pose proof Hok as (Ho & Hk & Hk4 & Hp & Hl & Hc). destruct (encode_frame_length f Hk4) as (-> & Hh & H0).
  unfold parse_header. destruct (size <? 2) eqn:E2.
  { by assert ((size <? header_size_of f + 4 + cf_length f) = true) as -> by lia. }
  destruct (frame_length_encoded f buffer size Hok Ha) as (H1 & second & H2 & H3 & H4); [lia|].
  rewrite H1, H2. cbn [mbind option_bind]. destruct (first_byte (cf_final f) _ Ho) as (_ & F1 & F2 & F3). cbv zeta in F1, F2, F3.
  rewrite F1, F2, F3, H3, Ho. cbn [negb orb Z.eqb]. rewrite H4. cbn [mbind option_bind].
  destruct (size <? header_size_of f) eqn:E4.
  { by assert ((size <? header_size_of f + 4 + cf_length f) = true) as -> by lia. }
  assert ((negb (Z.land (cf_opcode f) 8 =? 0) && (negb (cf_final f) || (125 <? cf_length f))) = false) as ->.
  { apply known_opcode_cases in Ho. destruct Ho as [E | [E | [E | [E | [E | E]]]]]; rewrite E in *; try done;
      destruct Hc as [-> ?]; try lia; cbn; lia. }
  assert ((kMaxWebSocketMessageBytes <? cf_length f) = false) as -> by lia.
  by destruct (size <? header_size_of f + 4 + cf_length f).
Qed.

Lemma rd_prefix l rest i : 0 <= i < Z.of_nat (length l) -> rd (l ++ rest) i = rd l i.
Proof. intros Hi. unfold rd. case_if; [|done]. apply lookup_app_l. lia. Qed.

Lemma agrees_app f rest size : agrees (encode_frame f ++ rest) size f.
Proof. intros i Hi Hl. apply rd_prefix. lia. Qed.

(** An encoded frame reaches [frame_body] with its plain payload. *)
Lemma frame_encoded f rest size state output :
  client_frame_ok f -> Z.of_nat (length (encode_frame f)) <= size ->
  frame (encode_frame f ++ rest) size state output =
    frame_body (plain_frame f ++ rest) state output (cf_final f) (cf_opcode f) (header_size_of f) (cf_length f).
Proof.
  intros Hok Hs. pose proof Hok as (Ho & Hk & Hk4 & Hp & Hl & Hc). unfold frame. rewrite (parse_header_agrees f) by (done || apply agrees_app).
  assert ((size <? Z.of_nat (length (encode_frame f))) = false) as -> by lia. cbn [mbind option_bind].
  assert (Z.to_nat (cf_length f) = length (cf_payload f)) as -> by apply Nat2Z.id.
  pose proof (unmask_spec ((0x80 * bit (cf_final f) + cf_opcode f) :: length_bytes (cf_length f)) (cf_key f) []
    (mask_from (cf_key f) 0 (cf_payload f)) rest Hk4) as Hu.
  cbn [length] in Hu. rewrite mask_from_length in Hu.
  assert (Z.of_nat (S (length (length_bytes (cf_length f)))) = header_size_of f) as Hhs.
  { pose proof (length_bytes_length (cf_length f)). unfold header_size_of. case_if; lia. }
  rewrite Hhs in Hu. unfold encode_frame, plain_frame, frame_header. cbn [app] in Hu |- *. rewrite <- !app_assoc.
  change (Z.of_nat 0) with 0 in Hu. rewrite Hu. cbn [mbind option_bind]. by rewrite mask_from_involutive.
Qed.

(** ** The payload *)
Lemma is_text_iff l : bytes_ok l -> (is_text l = true <-> utf8_text l).
Proof. intros Hl. unfold is_text. destruct (valid_utf8_spec l Hl) as (b & -> & H). done. Qed.

Lemma valid_utf8_prefix l rest size : bytes_ok l -> size = Z.of_nat (length l) ->
  valid_utf8 (Some (l ++ rest)) size = Some (is_text l).
Proof.
  intros Hl ->. rewrite valid_utf8_take by (rewrite length_app; lia). rewrite take_app_length.
  unfold is_text. by destruct (valid_utf8_spec l Hl) as (b & -> & _).
Qed.

Lemma memcpy_spec (dst bs : list Z) (n : nat) : (n + length bs <= length dst)%nat ->
  memcpy dst (Z.of_nat n) bs = Some (take n dst ++ bs ++ drop (n + length bs) dst).
Proof.
  intros Hl. unfold memcpy. case_if; [|lia]. f_equal. unfold put. rewrite Nat2Z.id.
  rewrite <- (take_drop n dst) at 1. rewrite <- (take_drop (length bs) (drop n dst)), drop_drop.
  assert (length (take n dst) = n) as Hn by (rewrite length_take; lia).
  pose proof (list_inserts_app_r bs (take n dst) (take (length bs) (drop n dst) ++ drop (n + length bs) dst) 0) as H.
  rewrite Hn, Nat.add_0_r in H. rewrite H, list_inserts_0_r; [done|]. rewrite length_take, length_drop. lia.
Qed.

(** The clauses of [assembles] about a partial message. *)
Ltac assembled :=
  cbn [fst snd fs_fragmented fs_opcode fs_message_size fs_text]; repeat split; try done;
  try (by apply Forall_app); rewrite ?length_app; unfold kMaxWebSocketMessageBytes in *; try lia.

Section Payload.
(** A plain frame in the read buffer. *)
Context (hdr p rest : list Z) (payload : Z).
Context (Hpayload : payload = Z.of_nat (length hdr)) (Hp : bytes_ok p) (Hrest : bytes_ok rest).

Lemma payload_drop : drop (Z.to_nat payload) (hdr ++ p ++ rest) = p ++ rest.
Proof using Hpayload. rewrite Hpayload, Nat2Z.id. apply drop_app_length. Qed.

Lemma check_close_spec :
  check_close (hdr ++ p ++ rest) payload (Z.of_nat (length p)) =
    Some (if decide (spec_close p = kConsumed) then None else Some (spec_close p)).
Proof using Hpayload Hp.
  unfold check_close. destruct p as [|b0 [|b1 reason]]; [done|done|]. inversion_clear Hp as [|?? Hb0 Ht]. inversion_clear Ht as [|?? Hb1 Hr].
  assert (Z.of_nat (length (b0 :: b1 :: reason)) = 2 + Z.of_nat (length reason)) as -> by (cbn; lia).
  case_if; [lia|]. assert ((2 <=? 2 + Z.of_nat (length reason)) = true) as -> by lia.
  assert (rd (hdr ++ (b0 :: b1 :: reason) ++ rest) payload = Some b0) as -> by by apply rd_app.
  assert (rd (hdr ++ (b0 :: b1 :: reason) ++ rest) (payload + 1) = Some b1) as ->.
  { replace (hdr ++ (b0 :: b1 :: reason) ++ rest) with ((hdr ++ [b0]) ++ b1 :: reason ++ rest) by by rewrite <- app_assoc.
    apply rd_app. rewrite length_app. cbn. lia. }
  cbn [mbind option_bind]. rewrite length16 by done. unfold spec_close.
  destruct (valid_close_code _); [|done]. cbn [negb].
  destruct reason as [|b2 reason]; [done|]. case_if; [|cbn in *; lia].
  replace (Z.to_nat (payload + 2)) with (length (hdr ++ [b0; b1])) by (rewrite length_app; cbn; lia).
  replace (hdr ++ (b0 :: b1 :: b2 :: reason) ++ rest) with ((hdr ++ [b0; b1]) ++ (b2 :: reason) ++ rest) by by rewrite <- app_assoc.
  rewrite drop_app_length, valid_utf8_prefix; [|done|cbn [length]; lia]. cbn [mbind option_bind]. by destruct (is_text _).
Qed.

Lemma assemble_spec final opcode state a :
  assembles state a -> opcode = 0 \/ opcode = 1 \/ opcode = 2 -> Z.of_nat (length p) <= kMaxWebSocketMessageBytes ->
  exists state', assemble (hdr ++ p ++ rest) payload (Z.of_nat (length p)) final opcode state =
    Some ((spec_data a final opcode p).1, state') /\ assembles state' (spec_data a final opcode p).2.
Proof using Hpayload Hp.
  intros (Ht & Htb & Ha) Ho Hl. unfold assemble.
  assert (slice (hdr ++ p ++ rest) payload (Z.of_nat (length p)) = Some p) as Hslice by by apply slice_app.
  pose proof payload_drop as Hdrop. destruct a as [[op bs]|]; cbn [spec_data].
  - destruct Ha as (Hf & Hop & Hop12 & Hbs & Hm & Hml & Htake). destruct (opcode =? 0) eqn:E0.
    + rewrite Hf, Hm, Hop, Hslice. cbn [negb mbind option_bind]. unfold kMaxWebSocketMessageBytes in *.
      rewrite wrap_u_id by (unfold in_u; lia). rewrite length_app, Nat2Z.inj_add.
      destruct (2048 - 14 - Z.of_nat (length bs) <? Z.of_nat (length p)) eqn:E1.
      { assert ((2048 - 14 <? Z.of_nat (length bs) + Z.of_nat (length p)) = true) as -> by lia.
        exists state. split; [done|]. split; [done|]. by repeat split. }
      assert ((2048 - 14 <? Z.of_nat (length bs) + Z.of_nat (length p)) = false) as -> by lia.
      destruct (op =? 1) eqn:E2.
      * rewrite memcpy_spec by lia. cbn [mbind option_bind]. rewrite Htake by lia.
        set (text := bs ++ p ++ drop (length bs + length p) (fs_text state)).
        assert (Z.of_nat (length text) = 2048 - 14) as Htl by (unfold text; rewrite !length_app, length_drop; lia).
        assert (bytes_ok text) as Htok by (unfold text; apply Forall_app; split; [done|]; apply Forall_app; split; [done|by apply Forall_drop]).
        destruct final; cbn [andb].
        -- cbn [fs_message_size]. assert (valid_utf8 (Some text) (Z.of_nat (length bs) + Z.of_nat (length p)) = Some (is_text (bs ++ p))) as ->.
           { unfold text. rewrite app_assoc. apply valid_utf8_prefix; [by apply Forall_app|rewrite length_app; lia]. }
           cbn [mbind option_bind]. destruct (is_text (bs ++ p)); cbn [negb]; [eexists; split; [done|apply assembles_init]|]. eexists. split; [done|]. split; [done|]. split; [done|].
           assembled. intros _. unfold text. by rewrite take_app_length.
        -- cbn [mbind option_bind fs_message_size]. rewrite wrap_u_id by (unfold in_u; lia). eexists. split; [done|]. split; [done|]. split; [done|].
           assembled. intros _. unfold text. rewrite <- length_app, app_assoc. apply take_app_length.
      * cbn [mbind option_bind andb]. destruct final; [eexists; split; [done|apply assembles_init]|]. rewrite Hm, wrap_u_id by (unfold in_u; lia). eexists. split; [done|].
        split; [done|]. split; [done|]. assembled.
    + cbn [negb]. assert (((opcode =? 1) || (opcode =? 2)) = true) as -> by lia. rewrite Hf. exists state. split; [done|]. split; [done|]. by repeat split.
  - rewrite Ha. destruct (opcode =? 0) eqn:E0; [by exists state|]. assert (((opcode =? 1) || (opcode =? 2)) = true) as -> by lia.
    rewrite Hdrop. destruct (opcode =? 1) eqn:E1; cbn [andb].
    + destruct final; cbn [negb].
      * rewrite valid_utf8_prefix by done. cbn [mbind option_bind]. destruct (is_text p); cbn [negb]; by exists state.
      * cbn [mbind option_bind]. rewrite Hslice. cbn [mbind option_bind]. unfold kMaxWebSocketMessageBytes in *. rewrite (memcpy_spec _ _ 0) by lia. cbn [mbind option_bind].
        eexists. split; [done|]. rewrite take_0. cbn [app Nat.add]. split; cbn [fs_fragmented fs_opcode fs_message_size fs_text].
        { rewrite length_app, length_drop. unfold kMaxWebSocketMessageBytes in *. lia. }
        split; [apply Forall_app; split; [done|by apply Forall_drop]|]. assembled. intros _. by rewrite take_app_length.
    + cbn [mbind option_bind]. destruct final; cbn [negb mbind option_bind]; [by exists state|].
      eexists. split; [done|]. split; [done|]. split; [done|]. assembled.
Qed.
End Payload.

(** The header and the payload of a consumed frame. *)
Definition output_of (f : client_frame) : Frame :=
  mkFrame (Z.of_nat (length (encode_frame f))) (header_size_of f + 4) (cf_length f) (cf_opcode f).

Lemma frame_body_spec f rest state output a :
  client_frame_ok f -> assembles state a ->
  let '(r, a') := spec_frame a f in
  exists state', frame_body (plain_frame f ++ rest) state output (cf_final f) (cf_opcode f) (header_size_of f) (cf_length f) =
      Some (r, plain_frame f ++ rest, state', if decide (r = kConsumed) then output_of f else output) /\
    assembles state' a'.
Proof.
  intros (Ho & Hk & Hk4 & Hp & Hl & Hc) Ha. destruct (encode_frame_length f Hk4) as (Hlen & Hh & H0).
  assert (header_size_of f + 4 = Z.of_nat (length (frame_header f))) as Hpay.
  { rewrite frame_header_length by done. unfold header_size_of. lia. }
  unfold output_of. rewrite Hlen. unfold plain_frame. rewrite <- app_assoc. unfold frame_body, spec_frame.
  destruct (cf_opcode f =? 8) eqn:E8.
  - unfold cf_length. rewrite check_close_spec by done. cbn [mbind option_bind].
    destruct (decide (spec_close (cf_payload f) = kConsumed)) as [-> | Hne].
    + assert (cf_opcode f = 8) as -> by lia. exists state. by cbn.
    + cbn iota beta. exists state. destruct (decide (spec_close (cf_payload f) = kConsumed)); [done|]. by split.
  - cbn [mbind option_bind]. apply known_opcode_cases in Ho. destruct (8 <? cf_opcode f) eqn:E9.
    + assert ((Z.land (cf_opcode f) 8 =? 0) = false) as -> by (destruct Ho as [E | [E | [E | [E | [E | E]]]]]; rewrite E in *; done).
      exists state. by cbn.
    + assert ((Z.land (cf_opcode f) 8 =? 0) = true) as -> by (destruct Ho as [E | [E | [E | [E | [E | E]]]]]; rewrite E in *; done).
      destruct (assemble_spec (frame_header f) (cf_payload f) rest _ Hpay Hp (cf_final f) (cf_opcode f) state a Ha) as (state' & Hs & Ha');
        [lia|done|]. unfold cf_length. rewrite Hs. destruct (spec_data a (cf_final f) (cf_opcode f) (cf_payload f)) as [r a'].
      cbn [mbind option_bind fst snd] in *. by exists state'.
Qed.

(** ** Every buffer: early results, and the frame that was parsed *)
Lemma frame_length_mono input size input' size' marker h :
  (forall i, 0 <= i < size -> rd input' i = rd input i) -> size <= size' ->
  frame_length input size marker = Some h -> h <> inl kIncomplete -> frame_length input' size' marker = Some h.
Proof.
  intros Ha Hs H Hne. unfold frame_length in *. case_if; [done|]. destruct (marker =? 126).
  - destruct (size <? 4) eqn:E; [congruence|]. assert ((size' <? 4) = false) as -> by lia. by rewrite !Ha by lia.
  - destruct (size <? 10) eqn:E; [congruence|]. assert ((size' <? 10) = false) as -> by lia. rewrite Ha by lia.
    assert (read_length64 8 input' 0 0 = read_length64 8 input 0 0) as ->; [|done].
    cbn [read_length64]. by rewrite !Ha by lia.
Qed.

Lemma parse_header_mono input size input' size' h :
  (forall i, 0 <= i < size -> rd input' i = rd input i) -> size <= size' ->
  parse_header input size = Some h -> h <> inl kIncomplete -> parse_header input' size' = Some h.
Proof.
  intros Ha Hs H Hne. unfold parse_header in *. destruct (size <? 2) eqn:E2; [congruence|].
  assert ((size' <? 2) = false) as -> by lia. rewrite !Ha by lia.
  destruct (rd input 0) as [first|]; [|done]. destruct (rd input 1) as [second|]; [|done]. cbn [mbind option_bind] in *.
  destruct (negb (known_opcode _)); [done|]. destruct (negb _ || negb _); [done|].
  destruct (frame_length input size (Z.land second 127)) as [l|] eqn:El; [|done]. cbn [mbind option_bind] in H.
  destruct (decide (l = inl kIncomplete)) as [-> | Hl]; [congruence|].
  rewrite (frame_length_mono _ _ _ _ _ _ Ha Hs El Hl). cbn [mbind option_bind]. destruct l as [r | [hs ps]]; [done|].
  destruct (_ && _); [done|]. destruct (_ <? ps); [done|]. destruct (size <? hs + 4 + ps) eqn:E; [congruence|].
  by assert ((size' <? hs + 4 + ps) = false) as -> by lia.
Qed.

Lemma read_length64_total n input index acc : 0 <= index -> 2 + index + Z.of_nat n <= Z.of_nat (length input) ->
  is_Some (read_length64 n input index acc).
Proof.
  revert index acc. induction n as [|n IH]; intros index acc Hi Hl; [by eexists|]. cbn [read_length64].
  destruct (rd_is_Some input (2 + index)) as [b ->]; [lia|]. apply IH; lia.
Qed.

(** The length selector never reads past [size] bytes, and the length it finds
    is the one its bytes spell. *)
Lemma frame_length_inv b0 b1 tail size :
  bytes_ok (b0 :: b1 :: tail) -> size <= Z.of_nat (length (b0 :: b1 :: tail)) -> Z.land b1 0x80 <> 0 ->
  exists h, frame_length (b0 :: b1 :: tail) size (Z.land b1 0x7F) = Some h /\
    match h with
    | inl r => r <> kConsumed
    | inr (hs, n) => 0 <= n /\ (n <= kMaxWebSocketMessageBytes ->
        exists tail', b1 :: tail = length_bytes n ++ tail' /\ hs = 1 + Z.of_nat (length (length_bytes n)))
    end.
Proof.
  intros Hb Hs Hm. inversion_clear Hb as [|?? Hb0 Hb']. inversion_clear Hb' as [|?? Hb1 Ht].
  destruct (byte_bits b1 Hb1) as (Hb1' & Hr & _). assert ((Z.land b1 128 =? 0) = false) as E by lia. rewrite E in Hb1'. cbn in Hb1'.
  unfold frame_length. destruct (Z.land b1 127 <=? 125) eqn:E1.
  { eexists. split; [done|]. split; [lia|]. intros _. exists tail. unfold length_bytes. rewrite E1. split; [|done]. cbn. f_equal. lia. }
  destruct (Z.land b1 127 =? 126) eqn:E2.
  - destruct (size <? 4) eqn:E3; [by eexists|]. destruct tail as [|b2 [|b3 tail]]; [cbn in Hs; lia..|].
    inversion_clear Ht as [|?? Hb2 Ht']. inversion_clear Ht' as [|?? Hb3 Ht]. unfold in_u in Hb2, Hb3. change (2 ^ 8) with 256 in *.
    change (rd (b0 :: b1 :: b2 :: b3 :: tail) 2) with (Some b2). change (rd (b0 :: b1 :: b2 :: b3 :: tail) 3) with (Some b3).
    cbn [mbind option_bind]. rewrite length16 by lia. eexists. split; [done|]. case_if; [done|]. split; [lia|]. intros _.
    exists tail. unfold length_bytes. assert ((b2 * 256 + b3 <=? 125) = false) as -> by lia. split; [|done]. cbn [app].
    repeat f_equal; Z.to_euclidean_division_equations; lia.
  - destruct (size <? 10) eqn:E3; [by eexists|]. destruct (rd_is_Some (b0 :: b1 :: tail) 2) as [b2 ->]; [lia|]. cbn [mbind option_bind].
    case_if; [by eexists|]. destruct (read_length64_total 8 (b0 :: b1 :: tail) 0 0) as [n ->]; [lia|lia|]. cbn [mbind option_bind].
    eexists. split; [done|]. case_if; [done|]. split; [lia|]. unfold kMaxWebSocketMessageBytes. lia.
Qed.

(** On any bytes: the header is read without leaving the [size] bytes, and when
    the parser goes on, the buffer starts with an encoded frame. *)
Lemma parse_header_inv buffer size :
  bytes_ok buffer -> size <= Z.of_nat (length buffer) ->
  exists h, parse_header buffer size = Some h /\
    match h with
    | inl r => r <> kConsumed
    | inr _ => exists f rest, client_frame_ok f /\ buffer = encode_frame f ++ rest /\ Z.of_nat (length (encode_frame f)) <= size
    end.
Proof.
  intros Hb Hs. unfold parse_header. destruct (size <? 2) eqn:E2; [by eexists|].
  destruct buffer as [|b0 [|b1 tail]]; [cbn in Hs; lia..|].
  change (rd (b0 :: b1 :: tail) 0) with (Some b0). change (rd (b0 :: b1 :: tail) 1) with (Some b1). cbn [mbind option_bind].
  destruct (known_opcode (Z.land b0 15)) eqn:Ho; [|by eexists]. cbn [negb].
  destruct (Z.land b1 128 =? 0) eqn:Em; [by rewrite orb_true_r; eexists|].
  destruct (Z.land b0 112 =? 0) eqn:Er; [|by eexists]. cbn [negb orb].
  destruct (frame_length_inv b0 b1 tail size Hb Hs) as (h & -> & Hh); [lia|]. cbn [mbind option_bind].
  destruct h as [r | [hs n]]; [by eexists|]. destruct Hh as [Hn Hh].
  destruct (negb (Z.land (Z.land b0 15) 8 =? 0) && _) eqn:Ec; [by eexists|].
  destruct (kMaxWebSocketMessageBytes <? n) eqn:Ek; [by eexists|]. destruct Hh as (tail' & Ht & ->); [lia|].
  destruct (size <? 1 + Z.of_nat (length (length_bytes n)) + 4 + n) eqn:Es; [by eexists|]. eexists. split; [done|].
  inversion_clear Hb as [|?? Hb0 Hb1]. rewrite Ht in Hb1 |- *. apply Forall_app in Hb1 as [_ Htail].
  assert (Z.of_nat (length (b0 :: b1 :: tail)) = 1 + Z.of_nat (length (length_bytes n)) + Z.of_nat (length tail')) as Hlen.
  { rewrite Ht. cbn [length]. rewrite length_app. lia. }
  destruct (byte_bits b0 Hb0) as (_ & _ & Hb0'). specialize (Hb0' ltac:(lia)).
  set (key := take 4 tail'). set (body := take (Z.to_nat n) (drop 4 tail')).
  assert (length key = 4%nat) as Hk by (unfold key; rewrite length_take; lia).
  assert (length body = Z.to_nat n) as Hbody by (unfold body; rewrite length_take, length_drop; lia).
  assert (bytes_ok key) as Hkb by by apply Forall_take.
  assert (bytes_ok body) as Hbb by by apply Forall_take, Forall_drop.
  exists (mkClient (negb (Z.land b0 128 =? 0)) (Z.land b0 15) key (mask_from key 0 body)), (drop (Z.to_nat n) (drop 4 tail')).
  assert (cf_length (mkClient (negb (Z.land b0 128 =? 0)) (Z.land b0 15) key (mask_from key 0 body)) = n) as Hcf.
  { unfold cf_length. cbn [cf_payload]. rewrite mask_from_length. lia. }
  split; [|split].
  - unfold client_frame_ok. rewrite Hcf. cbn [cf_opcode cf_key cf_payload cf_final].
    split; [done|]. split; [done|]. split; [done|]. split; [by apply mask_from_bytes|]. split; [lia|]. intros H8.
    assert ((Z.land (Z.land b0 15) 8 =? 0) = false) as E8.
    { apply known_opcode_cases in Ho. destruct Ho as [E | [E | [E | [E | [E | E]]]]]; rewrite E in H8 |- *; (lia || done). }
    rewrite E8 in Ec. clear -Ec. destruct (Z.land b0 128 =? 0); cbn in Ec |- *; [done|]. split; [done|lia].
  - unfold encode_frame, frame_header. rewrite Hcf. cbn [cf_opcode cf_key cf_payload cf_final]. rewrite mask_from_involutive, <- Hb0'.
    cbn [app]. f_equal. rewrite <- !app_assoc. f_equal. unfold key, body. by rewrite take_drop, take_drop.
  - pose proof (encode_frame_length (mkClient (negb (Z.land b0 128 =? 0)) (Z.land b0 15) key (mask_from key 0 body)) Hk) as (-> & _).
    rewrite Hcf. unfold header_size_of. rewrite Hcf. pose proof (length_bytes_length n). case_if; lia.
Qed.

(** A rejected frame leaves the partial message as it was; a complete frame is
    never reported incomplete. *)
Lemma spec_frame_rejects a f : (spec_frame a f).1 <> kConsumed -> (spec_frame a f).2 = a.
Proof. unfold spec_frame, spec_data. intros H. repeat (case_match || case_if); done. Qed.

Lemma spec_frame_complete a f : (spec_frame a f).1 <> kIncomplete.
Proof. unfold spec_frame, spec_data, spec_close. repeat (case_match || case_if); done. Qed.

(** The parser on any bytes: an early result that changes nothing, or a frame
    whose effect is that of the specification. *)
Lemma frame_cases buffer size state output a :
  bytes_ok buffer -> size <= Z.of_nat (length buffer) -> assembles state a ->
  (exists r, r <> kConsumed /\ parse_header buffer size = Some (inl r) /\ frame buffer size state output = Some (r, buffer, state, output)) \/
  (exists f rest state', client_frame_ok f /\ buffer = encode_frame f ++ rest /\ Z.of_nat (length (encode_frame f)) <= size /\
    frame buffer size state output =
      Some ((spec_frame a f).1, plain_frame f ++ rest, state',
            if decide ((spec_frame a f).1 = kConsumed) then output_of f else output) /\
    assembles state' (spec_frame a f).2).
Proof.
  intros Hb Hs Ha. destruct (parse_header_inv buffer size Hb Hs) as ([r | h] & Hp & Hh).
  - left. exists r. unfold frame. by rewrite Hp.
  - right. destruct Hh as (f & rest & Hf & -> & Hl). pose proof (frame_body_spec f rest state output a Hf Ha) as Hbody.
    destruct (spec_frame a f) as [r a'] eqn:E. destruct Hbody as (state' & Hbody & Ha'). exists f, rest, state'. rewrite E.
    split; [done|]. split; [done|]. split; [done|]. split; [|done]. rewrite frame_encoded by done. exact Hbody.
Qed.

(** Frames of a correct client: whatever follows them in the buffer and
    whatever was received before, a complete frame is unmasked in place and has
    the result and the effect on the partial message that RFC 6455 prescribes,
    and of a frame of which only a part has arrived nothing is consumed and
    nothing is changed, wherever it is cut. *)
Theorem frame_roundtrip f rest state output a
    (Hf : client_frame_ok f) (Ha : assembles state a) :
  (forall size, Z.of_nat (length (encode_frame f)) <= size ->
     exists state', frame (encode_frame f ++ rest) size state output =
         Some ((spec_frame a f).1, plain_frame f ++ rest, state',
               if decide ((spec_frame a f).1 = kConsumed) then output_of f else output) /\
       assembles state' (spec_frame a f).2) /\
  (forall cut stale, (cut < length (encode_frame f))%nat ->
     frame (take cut (encode_frame f) ++ stale) (Z.of_nat cut) state output =
       Some (kIncomplete, take cut (encode_frame f) ++ stale, state, output)).
Proof.
  split.
  - intros size Hs. rewrite frame_encoded by done. pose proof (frame_body_spec f rest state output a Hf Ha) as H.
    destruct (spec_frame a f) as [r a']. exact H.
  - intros cut stale Hc. unfold frame. rewrite (parse_header_agrees f); [|done|].
    + by case_if; [|lia].
    + intros i Hi _. rewrite rd_prefix by (rewrite length_take; lia). unfold rd. case_if; [|done]. apply lookup_take_lt. lia.
Qed.

(** A masked "Hi" with a fresh connection, complete and cut. *)
Example frame_roundtrip_witness :
  let f := mkClient true 1 [1; 2; 3; 4] [72; 105] in
  spec_frame None f = (kConsumed, None) /\ client_frame_ok f /\
  exists state', frame (encode_frame f ++ [7]) 9 fragment_init (mkFrame 0 0 0 0) =
    Some (kConsumed, plain_frame f ++ [7], state', mkFrame 8 6 2 1) /\ assembles state' None.
Proof.
  assert (client_frame_ok (mkClient true 1 [1; 2; 3; 4] [72; 105])) as Hf.
  { unfold client_frame_ok, kMaxWebSocketMessageBytes. cbn. repeat split; try done; try lia; repeat constructor; unfold in_u; cbn; lia. }
  split; [by vm_compute|]. split; [done|].
  destruct (frame_roundtrip _ [7] fragment_init (mkFrame 0 0 0 0) None Hf assembles_init) as [H _].
  destruct (H 9) as (state' & H1 & H2); [by vm_compute|]. exists state'. split; [exact H1|exact H2].
Defined.

(** C37: The parser is safe and sound on any bytes: it never reads outside the
    received bytes nor writes outside the payload and the 2034-byte text buffer,
    every result but a consumed frame before its payload leaves the buffer and
    the state untouched, the invariant of the fragment state is kept, and a
    frame is consumed only when the buffer starts with the encoding of a
    well-formed masked client frame that the assembly rules accept. *)
Theorem frame_safe_and_sound buffer size state output a
    (Hb : bytes_ok buffer) (Hs : size <= Z.of_nat (length buffer)) (Ha : assembles state a) :
  exists r buffer' state' output' a', frame buffer size state output = Some (r, buffer', state', output') /\
    length buffer' = length buffer /\ bytes_ok buffer' /\ assembles state' a' /\
    (r = kConsumed -> exists f rest, client_frame_ok f /\ buffer = encode_frame f ++ rest /\ buffer' = plain_frame f ++ rest /\
       spec_frame a f = (kConsumed, a') /\ output' = output_of f /\ 0 < fr_size output' <= size) /\
    (r <> kConsumed -> output' = output /\ a' = a) /\
    (r = kIncomplete -> buffer' = buffer /\ state' = state).
Proof.
  destruct (frame_cases buffer size state output a Hb Hs Ha) as [(r & Hr & _ & ->) | (f & rest & state' & Hf & -> & Hl & -> & Ha')].
  - exists r, buffer, state, output, a. split; [done|]. split; [done|]. split; [done|]. split; [done|]. by split; [intros ->|].
  - pose proof Hf as (_ & Hk & Hk4 & Hp & _). destruct (encode_frame_length f Hk4) as (Hlen & ? & ?).
    exists (spec_frame a f).1, (plain_frame f ++ rest), state', (if decide ((spec_frame a f).1 = kConsumed) then output_of f else output), (spec_frame a f).2.
    split; [done|]. split; [by unfold plain_frame, encode_frame; rewrite !length_app, mask_from_length|].
    split. { apply Forall_app in Hb as [He Hrest]. apply Forall_app; split; [|done]. unfold encode_frame in He. apply Forall_app in He as [Hh _]. by apply Forall_app. }
    split; [done|]. split; [|split].
    + intros Hc. rewrite Hc. exists f, rest. rewrite decide_True by done.
      split; [done|]. split; [done|]. split; [done|]. split; [by rewrite (surjective_pairing (spec_frame a f)), Hc|].
      split; [done|]. cbn [output_of fr_size]. lia.
    + intros Hc. rewrite decide_False by done. split; [done|]. by apply spec_frame_rejects.
    + intros Hc. by apply spec_frame_complete in Hc.
Qed.

(** An incomplete header and, in the same buffer, an unmasked frame. *)
Example frame_safe_and_sound_witness :
  frame [0x81; 0x02; 72; 105] 4 fragment_init (mkFrame 0 0 0 0) =
    Some (kProtocolError, [0x81; 0x02; 72; 105], fragment_init, mkFrame 0 0 0 0) /\
  exists r buffer' state' output' a', frame [0x81; 0x02; 72; 105] 1 fragment_init (mkFrame 0 0 0 0) = Some (r, buffer', state', output') /\
    length buffer' = 4%nat /\ bytes_ok buffer' /\ assembles state' a' /\ (r = kIncomplete -> buffer' = [0x81; 0x02; 72; 105] /\ state' = fragment_init).
Proof.
  split; [by vm_compute|].
  assert (bytes_ok [0x81; 0x02; 72; 105]) as Hb by (repeat constructor; unfold in_u; cbn; lia).
  destruct (frame_safe_and_sound [0x81; 0x02; 72; 105] 1 fragment_init (mkFrame 0 0 0 0) None Hb ltac:(cbn; lia) assembles_init)
    as (r & b & s & o & a & H1 & H2 & H3 & H4 & _ & _ & H5).
  exists r, b, s, o, a. split; [done|]. split; [done|]. split; [done|]. split; [done|]. exact H5.
Defined.
