(* ===== verification/WsKey.v ===== *)
(** * The WebSocket handshake key (luv_websocket_parse.hpp, luv_websocket.cpp)

    [decode_websocket_key], SHA-1, base64 and [make_accept].  A C string is the
    readable memory from its pointer on, [None] for a null pointer; the result
    [None] is a read outside that memory. *)
From Stdlib Require Import ZArith Lia ZifyBool.
From Stdlib Require String Ascii.
From S2P Require Import Prelude Bytes.
Import String.StringSyntax.
#[local] Delimit Scope string_scope with str.

Definition kDecodedKeyBytes : Z := 16.
Definition kWebSocketKeyBytes : Z := 24.
Definition kSha1Bytes : Z := 20.
Definition kAcceptBytes : Z := 28.
Definition kWebSocketGuid : list Z := Eval vm_compute in bytes_of_string "258EAFA5-E914-47DA-95CA-C5AB0DC85B11"%str.

(** ** Decoding the key *)
Definition base64_value (value : Z) : Z :=
  if (65 <=? value) && (value <=? 90) then value - 65
  else if (97 <=? value) && (value <=? 122) then value - 97 + 26
  else if (48 <=? value) && (value <=? 57) then value - 48 + 52
  else if value =? 43 then 62
  else if value =? 47 then 63
  else -1.

(** The bounded length scan; it ends after at most 25 characters. *)
Fixpoint key_length (fuel : nat) (key : list Z) (length : Z) : option Z :=
  match fuel with
  | O => None
  | S fuel =>
      if length <=? kWebSocketKeyBytes then
        c ← rd key length;
        if negb (c =? 0) then key_length fuel key (length + 1) else Some length
      else Some length
  end.

(** The loop over the first five quartets; [inl] is the early [return false]. *)
Fixpoint decode_quartets (n : nat) (key : list Z) (input output : Z) (decoded : list Z) : option (list Z + Z * list Z) :=
  match n with
  | O => Some (inr (output, decoded))
  | S n =>
      ka ← rd key input; kb ← rd key (input + 1); kc ← rd key (input + 2); kd ← rd key (input + 3);
      let a := base64_value ka in
      let b := base64_value kb in
      let c := base64_value kc in
      let d := base64_value kd in
      if (a <? 0) || (b <? 0) || (c <? 0) || (d <? 0) then Some (inl decoded)
      else
        let decoded := lset output (u8 (Z.lor (Z.shiftl a 2) (Z.shiftr b 4))) decoded in
        let decoded := lset (output + 1) (u8 (Z.lor (Z.shiftl b 4) (Z.shiftr c 2))) decoded in
        let decoded := lset (output + 2) (u8 (Z.lor (Z.shiftl c 6) d)) decoded in
        decode_quartets n key (input + 4) (output + 3) decoded
  end.

Definition decode_websocket_key (key : option (list Z)) (decoded : list Z) : option (bool * list Z) :=
  match key with
  | None => Some (false, decoded)
  | Some key =>
      length ← key_length 26 key 0;
      if negb (length =? kWebSocketKeyBytes) then Some (false, decoded)
      else
        k22 ← rd key 22; k23 ← rd key 23;
        if negb (k22 =? 61) || negb (k23 =? 61) then Some (false, decoded)
        else
          r ← decode_quartets 5 key 0 0 decoded;
          match r with
          | inl decoded => Some (false, decoded)
          | inr (output, decoded) =>
              ka ← rd key 20; kb ← rd key 21;
              let a := base64_value ka in
              let b := base64_value kb in
              if (a <? 0) || (b <? 0) || negb (Z.land b 0x0F =? 0) then Some (false, decoded)
              else
                let decoded := lset output (u8 (Z.lor (Z.shiftl a 2) (Z.shiftr b 4))) decoded in
                Some (output + 1 =? Z.of_nat (List.length decoded), decoded)
          end
  end.

(** ** Encoding *)
Definition kAlphabet : list Z :=
  Eval vm_compute in bytes_of_string "ABCDEFGHIJKLMNOPQRSTUVWXYZabcdefghijklmnopqrstuvwxyz0123456789+/"%str.

(** The characters of the group at the head of the remaining input. *)
Definition base64_group (input : list Z) : list Z :=
  let remaining := Z.of_nat (length input) in
  let triple := Z.lor (Z.lor (Z.shiftl (lget 0 input 0) 16) (if 1 <? remaining then Z.shiftl (lget 0 input 1) 8 else 0))
                      (if 2 <? remaining then lget 0 input 2 else 0) in
  [lget 0 kAlphabet (Z.land (Z.shiftr triple 18) 0x3F);
   lget 0 kAlphabet (Z.land (Z.shiftr triple 12) 0x3F);
   if 1 <? remaining then lget 0 kAlphabet (Z.land (Z.shiftr triple 6) 0x3F) else 61;
   if 2 <? remaining then lget 0 kAlphabet (Z.land triple 0x3F) else 61].

Fixpoint base64_groups (fuel : nat) (input : list Z) : list Z :=
  match fuel, input with
  | S fuel, _ :: _ => base64_group input ++ base64_groups fuel (drop 3 input)
  | _, _ => []
  end.

(** The encoding with its terminating NUL.  The source has it for the 20 bytes
    of a digest; here the input has any length. *)
Definition base64_encode (input : list Z) : list Z := base64_groups (length input) input ++ [0].

(** ** SHA-1 *)
Definition rotate_left (value bits : Z) : Z := Z.lor (u32 (Z.shiftl value bits)) (Z.shiftr value (32 - bits)).

(** The padded message: one or two blocks. *)
Definition sha1_pad (input : list Z) : list Z :=
  let input_size := Z.of_nat (length input) in
  let padded := lset input_size 0x80 (put 0 input (replicate 128 0)) in
  let padded_size := if input_size <? 56 then 64 else 128 in
  let bit_length := u64 (input_size * 8) in
  foldl (fun padded index => lset (padded_size - 1 - index) (u8 (Z.shiftr bit_length (index * 8))) padded) padded (zrange 0 8).

Definition sha1_load (padded : list Z) (offset : Z) : Z :=
  Z.lor (Z.lor (Z.lor (Z.shiftl (lget 0 padded offset) 24) (Z.shiftl (lget 0 padded (offset + 1)) 16))
               (Z.shiftl (lget 0 padded (offset + 2)) 8)) (lget 0 padded (offset + 3)).

(** The 80 words of the message schedule of a block. *)
Definition sha1_words (padded : list Z) (block : Z) : list Z :=
  let words := foldl (fun words index => lset index (sha1_load padded (block + index * 4)) words) (replicate 80 0) (zrange 0 16) in
  foldl (fun words index =>
    lset index (rotate_left (Z.lxor (Z.lxor (Z.lxor (lget 0 words (index - 3)) (lget 0 words (index - 8)))
                                            (lget 0 words (index - 14))) (lget 0 words (index - 16))) 1) words)
    words (zrange 16 64).

Definition sha1_state : Type := Z * Z * Z * Z * Z.

(** The round function and constant of a step. *)
Definition sha1_function (index b c d : Z) : Z * Z :=
  if index <? 20 then (Z.lor (Z.land b c) (Z.land (Z.lxor b UINT32_MAX) d), 0x5A827999)
  else if index <? 40 then (Z.lxor (Z.lxor b c) d, 0x6ED9EBA1)
  else if index <? 60 then (Z.lor (Z.lor (Z.land b c) (Z.land b d)) (Z.land c d), 0x8F1BBCDC)
  else (Z.lxor (Z.lxor b c) d, 0xCA62C1D6).

Definition sha1_step (words : list Z) (st : sha1_state) (index : Z) : sha1_state :=
  let '(a, b, c, d, e) := st in
  let '(function, constant) := sha1_function index b c d in
  let next := u32 (rotate_left a 5 + function + e + constant + lget 0 words index) in
  (next, a, rotate_left b 30, c, d).

Definition sha1_block (padded : list Z) (st : sha1_state) (block : Z) : sha1_state :=
  let words := sha1_words padded block in
  let '(s0, s1, s2, s3, s4) := st in
  let '(a, b, c, d, e) := foldl (sha1_step words) st (zrange 0 80) in
  (u32 (s0 + a), u32 (s1 + b), u32 (s2 + c), u32 (s3 + d), u32 (s4 + e)).

Definition sha1_init : sha1_state := (0x67452301, 0xEFCDAB89, 0x98BADCFE, 0x10325476, 0xC3D2E1F0).

(** The digest; an input of more than 119 bytes leaves [digest] as it was. *)
Definition sha1 (input digest : list Z) : list Z :=
  if 119 <? Z.of_nat (length input) then digest
  else
    let padded := sha1_pad input in
    let '(s0, s1, s2, s3, s4) :=
      foldl (sha1_block padded) sha1_init (if Z.of_nat (length input) <? 56 then [0] else [0; 64]) in
    [s0; s1; s2; s3; s4] ≫= (fun word => (fun byte => u8 (Z.shiftr word (24 - byte * 8))) <$> zrange 0 4).

(** [make_accept]: the answer and the accept string, if it was written. *)
Definition make_accept (key : option (list Z)) : option (bool * list Z) :=
  r ← decode_websocket_key key (replicate 16 0);
  if negb (fst r) then Some (false, [])
  else
    input ← slice (default [] key) 0 kWebSocketKeyBytes;
    Some (true, base64_encode (sha1 (input ++ kWebSocketGuid) (replicate 20 0))).

(** The example of RFC 6455, and the empty string of FIPS 180. *)
Example make_accept_rfc6455 :
  make_accept (Some (bytes_of_string "dGhlIHNhbXBsZSBub25jZQ=="%str ++ [0]))
  = Some (true, bytes_of_string "s3pPLMBiTxaQ9kYGzzhZRbK+xOo="%str ++ [0]).
Proof. by vm_compute. Qed.

Example sha1_empty : sha1 [] [] = [0xda; 0x39; 0xa3; 0xee; 0x5e; 0x6b; 0x4b; 0x0d; 0x32; 0x55; 0xbf; 0xef; 0x95; 0x60; 0x18; 0x90; 0xaf; 0xd8; 0x07; 0x09].
Proof. by vm_compute. Qed.

(** ** Characters and sextets *)
Lemma all_below (n : nat) (P : Z -> bool) : forallb P (zrange 0 n) = true -> forall v, 0 <= v < Z.of_nat n -> P v = true.
Proof. rewrite forallb_forall. intros H v Hv. apply H. apply list_elem_of_In, elem_of_zrange. lia. Qed.

Definition b64 (v : Z) : Z := lget 0 kAlphabet v.

Lemma base64_value_b64 v : 0 <= v < 64 -> base64_value (b64 v) = v /\ 0 < b64 v < 256 /\ b64 v <> 61.
Proof.
  intros Hv. pose proof (all_below 64 (fun v => (base64_value (b64 v) =? v) && (0 <? b64 v) && (b64 v <? 256) && negb (b64 v =? 61))
    ltac:(by vm_compute) v Hv) as H. cbn beta in H. lia.
Qed.

Lemma base64_value_spec c : in_u 8 c -> base64_value c < 64 /\ (0 <= base64_value c -> b64 (base64_value c) = c).
Proof.
  intros Hc. pose proof (all_bytes (fun c => (base64_value c <? 64) && ((base64_value c <? 0) || (b64 (base64_value c) =? c)))
    ltac:(by vm_compute) c Hc) as H. cbn beta in H. lia.
Qed.

(** The sextets of three bytes and the bytes of four sextets. *)
Definition sextets (x y z : Z) : list Z := [x / 4; x mod 4 * 16 + y / 16; y mod 16 * 4 + z / 64; z mod 64].

Ltac b64_lia := Z.to_euclidean_division_equations; lia.

Lemma list4 (a b c d a' b' c' d' : Z) : a = a' -> b = b' -> c = c' -> d = d' -> [a; b; c; d] = [a'; b'; c'; d'].
Proof. by intros -> -> -> ->. Qed.

Lemma triple_bits x y z : in_u 8 x -> in_u 8 y -> in_u 8 z ->
  let triple := Z.lor (Z.lor (Z.shiftl x 16) (Z.shiftl y 8)) z in
  [Z.land (Z.shiftr triple 18) 0x3F; Z.land (Z.shiftr triple 12) 0x3F; Z.land (Z.shiftr triple 6) 0x3F; Z.land triple 0x3F] = sextets x y z.
Proof.
  intros Hx Hy Hz triple. unfold in_u in *. assert (triple = x * 65536 + y * 256 + z) as ->.
  { subst triple. rewrite lor_shiftl_add by (rewrite ?Z.shiftl_mul_pow2 by lia; lia). rewrite Z.shiftl_mul_pow2 by lia.
    replace (x * 2 ^ 16 + y * 2 ^ 8) with (Z.shiftl (x * 256 + y) 8) by (rewrite Z.shiftl_mul_pow2 by lia; lia).
    rewrite lor_shiftl_add by lia. lia. }
  change 0x3F with (2 ^ 6 - 1). rewrite !land_mask by lia. rewrite !Z.shiftr_div_pow2 by lia. unfold sextets.
  change (2 ^ 18) with 262144. change (2 ^ 12) with 4096. change (2 ^ 6) with 64. change (2 ^ 8) with 256 in *.
  apply list4; b64_lia.
Qed.

Lemma base64_group_three x y z l : bytes_ok [x; y; z] -> base64_group (x :: y :: z :: l) = b64 <$> sextets x y z.
Proof.
  intros Hb. inversion_clear Hb as [|?? Hx Hb']. inversion_clear Hb' as [|?? Hy Hb]. inversion_clear Hb as [|?? Hz _].
  rewrite <- triple_bits by done. unfold base64_group.
  assert ((1 <? Z.of_nat (length (x :: y :: z :: l))) = true) as -> by (cbn [length]; lia).
  by assert ((2 <? Z.of_nat (length (x :: y :: z :: l))) = true) as -> by (cbn [length]; lia).
Qed.

Lemma base64_group_one x : in_u 8 x -> base64_group [x] = [b64 (x / 4); b64 (x mod 4 * 16); 61; 61].
Proof.
  intros Hx. pose proof (triple_bits x 0 0 Hx ltac:(unfold in_u; lia) ltac:(unfold in_u; lia)) as H. unfold sextets in H.
  rewrite Z.add_0_r in H. unfold base64_group, b64. change (lget 0 [x] 0) with x. cbn [length]. 
  change (1 <? Z.of_nat 1) with false. change (2 <? Z.of_nat 1) with false. cbv iota.
  change (Z.shiftl 0 8) with 0 in H. injection H as -> -> _ _. done.
Qed.

Lemma quartet_bytes a b c d : 0 <= a < 64 -> 0 <= b < 64 -> 0 <= c < 64 -> 0 <= d < 64 ->
  u8 (Z.lor (Z.shiftl a 2) (Z.shiftr b 4)) = a * 4 + b / 16 /\
  u8 (Z.lor (Z.shiftl b 4) (Z.shiftr c 2)) = b mod 16 * 16 + c / 4 /\
  u8 (Z.lor (Z.shiftl c 6) d) = c mod 4 * 64 + d.
Proof.
  intros Ha Hb Hc Hd. rewrite !Z.shiftr_div_pow2 by lia. unfold wrap_u.
  rewrite !lor_shiftl_add by (try lia; b64_lia). b64_lia.
Qed.

Lemma sextets_bytes a b c d : 0 <= a < 64 -> 0 <= b < 64 -> 0 <= c < 64 -> 0 <= d < 64 ->
  let x := a * 4 + b / 16 in let y := b mod 16 * 16 + c / 4 in let z := c mod 4 * 64 + d in
  bytes_ok [x; y; z] /\ sextets x y z = [a; b; c; d].
Proof.
  intros Ha Hb Hc Hd x y z. subst x y z. split.
  - repeat constructor; unfold in_u; change (2 ^ 8) with 256; b64_lia.
  - unfold sextets. apply list4; b64_lia.
Qed.

Lemma bytes_sextets x y z : bytes_ok [x; y; z] ->
  exists a b c d, sextets x y z = [a; b; c; d] /\ 0 <= a < 64 /\ 0 <= b < 64 /\ 0 <= c < 64 /\ 0 <= d < 64 /\
    a * 4 + b / 16 = x /\ b mod 16 * 16 + c / 4 = y /\ c mod 4 * 64 + d = z.
Proof.
  intros Hb. inversion_clear Hb as [|?? Hx Hb']. inversion_clear Hb' as [|?? Hy Hb]. inversion_clear Hb as [|?? Hz _].
  unfold in_u in *. change (2 ^ 8) with 256 in *. eexists _, _, _, _. split; [done|]. b64_lia.
Qed.

(** ** Whole groups *)
Definition base64_chars (l : list Z) : list Z := base64_groups (length l) l.

Lemma base64_groups_fuel fuel l : (length l <= fuel)%nat -> base64_groups fuel l = base64_chars l.
Proof.
  unfold base64_chars. remember (length l) as n eqn:Hn. revert fuel l Hn. induction n as [n IH] using lt_wf_ind.
  intros fuel l -> Hf. destruct l as [|x l]; [by destruct fuel|]. destruct fuel as [|fuel]; [cbn in Hf; lia|].
  cbn [length base64_groups]. f_equal. assert (length (drop 3 (x :: l)) <= length l)%nat as Hd by (rewrite length_drop; cbn [length]; lia).
  rewrite (IH (length (drop 3 (x :: l)))); [|cbn [length] in *; lia|done|cbn [length] in Hf; lia].
  symmetry. rewrite (IH (length (drop 3 (x :: l)))); [done|cbn [length] in *; lia|done|done].
Qed.

Lemma base64_chars_cons x l : base64_chars (x :: l) = base64_group (x :: l) ++ base64_chars (drop 3 (x :: l)).
Proof. unfold base64_chars at 1. cbn [length base64_groups]. f_equal. apply base64_groups_fuel. rewrite length_drop. cbn [length]. lia. Qed.

Lemma base64_chars_three x y z l : bytes_ok [x; y; z] -> base64_chars (x :: y :: z :: l) = (b64 <$> sextets x y z) ++ base64_chars l.
Proof. intros Hb. by rewrite base64_chars_cons, base64_group_three. Qed.

Lemma base64_chars_app n l1 l2 : bytes_ok l1 -> length l1 = (3 * n)%nat -> base64_chars (l1 ++ l2) = base64_chars l1 ++ base64_chars l2.
Proof.
  revert l1. induction n as [|n IH]; intros l1 Hb Hl; [by destruct l1|]. destruct l1 as [|x [|y [|z l1]]]; [cbn in Hl; lia..|].
  change (x :: y :: z :: l1) with ([x; y; z] ++ l1) in Hb. apply Forall_app in Hb as [H3 Hb]. cbn [app].
  rewrite !base64_chars_three by done. rewrite IH; [by rewrite app_assoc|done|cbn [length] in Hl; lia].
Qed.

Lemma base64_chars_length n l : bytes_ok l -> length l = (3 * n)%nat -> length (base64_chars l) = (4 * n)%nat.
Proof.
  revert l. induction n as [|n IH]; intros l Hb Hl; [by destruct l|]. destruct l as [|x [|y [|z l]]]; [cbn in Hl; lia..|].
  change (x :: y :: z :: l) with ([x; y; z] ++ l) in Hb. apply Forall_app in Hb as [H3 Hb].
  rewrite base64_chars_three, length_app by done. rewrite (IH l); [cbn [sextets fmap list_fmap length]; lia|done|cbn [length] in Hl; lia].
Qed.

Lemma base64_chars_inj n l1 l2 : bytes_ok l1 -> bytes_ok l2 -> length l1 = (3 * n)%nat -> length l2 = (3 * n)%nat ->
  base64_chars l1 = base64_chars l2 -> l1 = l2.
Proof.
  revert l1 l2. induction n as [|n IH]; intros l1 l2 Hb1 Hb2 Hl1 Hl2 H; [by destruct l1, l2|].
  destruct l1 as [|x [|y [|z l1]]]; [cbn in Hl1; lia..|]. destruct l2 as [|x' [|y' [|z' l2]]]; [cbn in Hl2; lia..|].
  change (x :: y :: z :: l1) with ([x; y; z] ++ l1) in Hb1. change (x' :: y' :: z' :: l2) with ([x'; y'; z'] ++ l2) in Hb2.
  apply Forall_app in Hb1 as [H3 Hb1], Hb2 as [H3' Hb2]. rewrite !base64_chars_three in H by done.
  destruct (bytes_sextets _ _ _ H3) as (a & b & c & d & E & Ha & Hb & Hc & Hd & <- & <- & <-).
  destruct (bytes_sextets _ _ _ H3') as (a' & b' & c' & d' & E' & Ha' & Hb' & Hc' & Hd' & <- & <- & <-).
  rewrite E, E' in H. cbn in H. injection H as H1 H2 H4 H5 H6.
  apply (f_equal base64_value) in H1, H2, H4, H5. rewrite !(fun v H => proj1 (base64_value_b64 v H)) in H1, H2, H4, H5 by done. subst.
  cbn [app] in *. repeat f_equal. apply IH; [done|done|cbn [length] in Hl1; lia|cbn [length] in Hl2; lia|done].
Qed.

(** ** The decoder *)
Lemma lset_app (out : list Z) x y junk : lset (Z.of_nat (length out)) x (out ++ y :: junk) = out ++ x :: junk.
Proof. unfold lset. case_if; [|lia]. rewrite Nat2Z.id. rewrite insert_app_r_alt, Nat.sub_diag by lia. done. Qed.

Lemma lset_snoc (out : list Z) x y junk i : i = Z.of_nat (length out) -> lset i x (out ++ y :: junk) = (out ++ [x]) ++ junk.
Proof. intros ->. by rewrite lset_app, <- app_assoc. Qed.

Lemma rd_at pre c post i : i = Z.of_nat (length pre) -> rd (pre ++ c :: post) i = Some c.
Proof. apply rd_app. Qed.

(** Four characters of the key. *)
Lemma rd_four pre a b c d post i : i = Z.of_nat (length pre) ->
  let key := pre ++ a :: b :: c :: d :: post in
  rd key i = Some a /\ rd key (i + 1) = Some b /\ rd key (i + 2) = Some c /\ rd key (i + 3) = Some d.
Proof.
  intros Hi key. split; [by apply rd_app|]. split; [|split].
  - change key with (pre ++ [a] ++ b :: c :: d :: post). rewrite app_assoc. apply rd_app. rewrite length_app. cbn. lia.
  - change key with (pre ++ [a; b] ++ c :: d :: post). rewrite app_assoc. apply rd_app. rewrite length_app. cbn. lia.
  - change key with (pre ++ [a; b; c] ++ d :: post). rewrite app_assoc. apply rd_app. rewrite length_app. cbn. lia.
Qed.

Lemma decode_quartets_spec n pre q post out junk :
  bytes_ok q -> length q = (4 * n)%nat -> (3 * n <= length junk)%nat ->
  exists r, decode_quartets n (pre ++ q ++ post) (Z.of_nat (length pre)) (Z.of_nat (length out)) (out ++ junk) = Some r /\
    match r with
    | inr (output, decoded) => exists bs, bytes_ok bs /\ length bs = (3 * n)%nat /\ q = base64_chars bs /\
        output = Z.of_nat (length (out ++ bs)) /\ decoded = (out ++ bs) ++ drop (3 * n) junk
    | inl _ => forall bs, bytes_ok bs -> length bs = (3 * n)%nat -> q <> base64_chars bs
    end.
Proof.
  revert pre q out junk. induction n as [|n IH]; intros pre q out junk Hq Hl Hj.
  - destruct q; [|done]. eexists. split; [done|]. exists []. rewrite app_nil_r. by repeat split.
  - destruct q as [|ka [|kb [|kc [|kd q]]]]; [cbn in Hl; lia..|]. destruct junk as [|j1 [|j2 [|j3 junk]]]; [cbn in Hj; lia..|].
    cbn [app decode_quartets]. destruct (rd_four pre ka kb kc kd (q ++ post) _ eq_refl) as (-> & -> & -> & ->). cbn [mbind option_bind].
    inversion_clear Hq as [|?? Ha Hq']. inversion_clear Hq' as [|?? Hb Hq]. inversion_clear Hq as [|?? Hc Hq']. inversion_clear Hq' as [|?? Hd Hq].
    destruct (base64_value_spec _ Ha) as [La Va], (base64_value_spec _ Hb) as [Lb Vb], (base64_value_spec _ Hc) as [Lc Vc], (base64_value_spec _ Hd) as [Ld Vd].
    case_if.
    + eexists. split; [done|]. cbn beta iota. intros bs Hbs Hlen Heq. destruct bs as [|x [|y [|z bs]]]; [cbn in Hlen; lia..|].
      change (x :: y :: z :: bs) with ([x; y; z] ++ bs) in Hbs. apply Forall_app in Hbs as [H3 _].
      rewrite base64_chars_three in Heq by done. destruct (bytes_sextets _ _ _ H3) as (a & b & c & d & E & Ra & Rb & Rc & Rd & _).
      rewrite E in Heq. cbn in Heq. injection Heq as -> -> -> -> _.
      rewrite !(fun v H => proj1 (base64_value_b64 v H)) in Heqb by done. lia.
    + destruct (quartet_bytes (base64_value ka) (base64_value kb) (base64_value kc) (base64_value kd)) as (-> & -> & ->); [lia..|].
      destruct (sextets_bytes (base64_value ka) (base64_value kb) (base64_value kc) (base64_value kd)) as [H3 Hsx]; [lia..|].
      cbv zeta in H3, Hsx. set (x := base64_value ka * 4 + _) in *. set (y := base64_value kb mod 16 * 16 + _) in *. set (z := base64_value kc mod 4 * 64 + _) in *.
      rewrite lset_snoc by done. rewrite lset_snoc by (rewrite length_app; cbn; lia). rewrite lset_snoc by (rewrite !length_app; cbn; lia).
      rewrite <- !(app_assoc out). cbn [app].
      destruct (IH (pre ++ [ka; kb; kc; kd]) q (out ++ [x; y; z]) junk) as (r & Hr & Hspec); [done|cbn [length] in Hl; lia|cbn [length] in Hj; lia|].
      rewrite <- (app_assoc pre), <- (app_assoc out) in Hr. cbn [app] in Hr |- *.
      replace (Z.of_nat (length pre) + 4) with (Z.of_nat (length (pre ++ [ka; kb; kc; kd]))) by (rewrite length_app; cbn; lia).
      replace (Z.of_nat (length out) + 3) with (Z.of_nat (length (out ++ [x; y; z]))) by (rewrite length_app; cbn; lia).
      exists r. split; [exact Hr|]. assert (Hq4 : [ka; kb; kc; kd] = b64 <$> sextets x y z).
      { rewrite Hsx. cbn [fmap list_fmap]. rewrite Va, Vb, Vc, Vd by lia. done. }
      destruct r as [dec | [o dec]].
      * intros bs Hbs Hlen Heq. destruct bs as [|x' [|y' [|z' bs]]]; [cbn in Hlen; lia..|].
        change (x' :: y' :: z' :: bs) with ([x'; y'; z'] ++ bs) in Hbs. apply Forall_app in Hbs as [H3' Hbs].
        rewrite base64_chars_three in Heq by done. apply (Hspec bs); [done|cbn [length] in Hlen; lia|]. by injection Heq as _ _ _ _ ->.
      * destruct Hspec as (bs & Hbs & Hlen & -> & -> & ->). exists ([x; y; z] ++ bs). split; [by apply Forall_app|].
        split; [cbn [length app]; lia|]. split; [cbn [app]; rewrite base64_chars_three, <- Hq4 by done; done|].
        rewrite <- !app_assoc. split; [done|]. cbn [app]. replace (3 * S n)%nat with (S (S (S (3 * n)))) by lia. done.
Qed.

Lemma key_length_spec fuel s rest i :
  Forall (fun c => 0 < c < 256) s -> 0 <= i <= Z.of_nat (length s) -> i <= 25 -> (26 <= fuel + Z.to_nat i)%nat ->
  key_length fuel (s ++ 0 :: rest) i = Some (Z.min (Z.of_nat (length s)) 25).
Proof.
  intros Hs. revert i. induction fuel as [|fuel IH]; intros i Hi H25 Hf; [lia|]. cbn [key_length]. unfold kWebSocketKeyBytes. case_if.
  - destruct (decide (i = Z.of_nat (length s))) as [-> | Hne].
    + rewrite rd_app by done. cbn. f_equal. lia.
    + destruct (lookup_lt_is_Some_2 s (Z.to_nat i)) as [c Hc]; [lia|].
      assert (rd (s ++ 0 :: rest) i = Some c) as -> by (unfold rd; case_if; [|lia]; by apply lookup_app_l_Some).
      cbn [mbind option_bind]. eapply Forall_lookup_1 in Hs; [|done]. case_if; [|lia]. apply IH; lia.
  - f_equal. lia.
Qed.

(** The last quartet: one byte. *)
Lemma sextets_one a b : 0 <= a < 64 -> 0 <= b < 64 -> Z.land b 0x0F = 0 ->
  let x := u8 (Z.lor (Z.shiftl a 2) (Z.shiftr b 4)) in in_u 8 x /\ a = x / 4 /\ b = x mod 4 * 16.
Proof.
  intros Ha Hb H x. destruct (quartet_bytes a b 0 0) as (Hx & _); [lia..|]. subst x. rewrite Hx.
  change 0x0F with (2 ^ 4 - 1) in H. rewrite land_mask in H by lia. change (2 ^ 4) with 16 in H. unfold in_u. change (2 ^ 8) with 256. b64_lia.
Qed.

Lemma one_sextets x : in_u 8 x -> let a := x / 4 in let b := x mod 4 * 16 in
  0 <= a < 64 /\ 0 <= b < 64 /\ Z.land b 0x0F = 0 /\ u8 (Z.lor (Z.shiftl a 2) (Z.shiftr b 4)) = x.
Proof.
  intros Hx a b. unfold in_u in Hx. change (2 ^ 8) with 256 in Hx.
  assert (0 <= a < 64 /\ 0 <= b < 64) as [Ha Hb] by (subst a b; b64_lia).
  destruct (quartet_bytes a b 0 0) as (-> & _); [lia..|]. split; [done|]. split; [done|].
  split; [change 0x0F with (2 ^ 4 - 1); rewrite land_mask by lia|]; subst a b; b64_lia.
Qed.

(** The encoding of sixteen bytes: twenty characters, two more, two pads. *)
Lemma base64_encode_16 bs x : bytes_ok bs -> length bs = 15%nat -> in_u 8 x ->
  base64_encode (bs ++ [x]) = base64_chars bs ++ [b64 (x / 4); b64 (x mod 4 * 16); 61; 61; 0] /\ length (base64_chars bs) = 20%nat.
Proof.
  intros Hb Hl Hx. unfold base64_encode. fold (base64_chars (bs ++ [x])). rewrite (base64_chars_app 5) by done.
  rewrite base64_chars_cons, base64_group_one by done. rewrite <- !app_assoc. split; [done|]. by apply (base64_chars_length 5).
Qed.

Lemma key_split bs : bytes_ok bs -> length bs = 16%nat ->
  exists bs' x, bs = bs' ++ [x] /\ bytes_ok bs' /\ in_u 8 x /\ length bs' = 15%nat.
Proof.
  intros Hb Hl. destruct bs as [|x bs _] using rev_ind; [done|]. apply Forall_app in Hb as [Hb Hx]. inversion_clear Hx.
  exists bs, x. rewrite length_app in Hl. cbn in Hl. split; [done|]. split; [done|]. split; [done|lia].
Qed.

Lemma key_parts (s : list Z) : length s = 24%nat -> exists q c0 c1 c2 c3, s = q ++ [c0; c1; c2; c3] /\ length q = 20%nat.
Proof.
  intros Hl. rewrite <- (take_drop 20 s). assert (length (drop 20 s) = 4%nat) as Hd by (rewrite length_drop; lia).
  destruct (drop 20 s) as [|c0 [|c1 [|c2 [|c3 [|]]]]]; try done. exists (take 20 s), c0, c1, c2, c3. split; [done|]. rewrite length_take. lia.
Qed.

(** What the characters of an encoded key are. *)
Lemma key_encoded q c0 c1 c2 c3 bs :
  length q = 20%nat -> bytes_ok bs -> length bs = 16%nat -> (q ++ [c0; c1; c2; c3]) ++ [0] = base64_encode bs ->
  exists bs' x, bs = bs' ++ [x] /\ bytes_ok bs' /\ in_u 8 x /\ length bs' = 15%nat /\
    q = base64_chars bs' /\ c0 = b64 (x / 4) /\ c1 = b64 (x mod 4 * 16) /\ c2 = 61 /\ c3 = 61.
Proof.
  intros Hq Hb Hl Heq. destruct (key_split bs Hb Hl) as (bs' & x & -> & Hb' & Hx & Hl').
  destruct (base64_encode_16 bs' x Hb' Hl' Hx) as [E HL]. rewrite E, <- app_assoc in Heq. apply app_inj_1 in Heq as [Heq1 Heq2]; [|lia].
  injection Heq2 as -> -> -> ->. by exists bs', x.
Qed.

Lemma decode_websocket_key_spec s rest decoded
    (Hs : Forall (fun c => 0 < c < 256) s) (Hd : length decoded = 16%nat) :
  exists b decoded', decode_websocket_key (Some (s ++ 0 :: rest)) decoded = Some (b, decoded') /\
    (b = true -> bytes_ok decoded' /\ length decoded' = 16%nat /\ s ++ [0] = base64_encode decoded') /\
    (forall bs, bytes_ok bs -> length bs = 16%nat -> s ++ [0] = base64_encode bs -> b = true /\ decoded' = bs).
Proof.
  unfold decode_websocket_key. rewrite key_length_spec by (done || lia). cbn [mbind option_bind]. unfold kWebSocketKeyBytes.
  destruct (decide (length s = 24%nat)) as [Hl | Hl].
  2:{ case_if; [|lia]. eexists _, _. split; [done|]. split; [done|]. intros bs Hb Hbl Heq. exfalso. apply Hl.
      destruct (key_split bs Hb Hbl) as (bs' & x & -> & Hb' & Hx & Hl'). destruct (base64_encode_16 bs' x Hb' Hl' Hx) as [E HL].
      rewrite E in Heq. apply (f_equal length) in Heq. rewrite !length_app, HL in Heq. cbn in Heq. lia. }
  case_if; [lia|]. destruct (key_parts s Hl) as (q & c0 & c1 & c2 & c3 & -> & Hq). rewrite <- app_assoc. cbn [app].
  assert (bytes_ok q) as Hqb.
  { apply Forall_app in Hs as [Hs _]. eapply Forall_impl; [done|]. intros c Hc. unfold in_u. cbn in Hc |- *. lia. }
  destruct (decode_quartets_spec 5 [] q (c0 :: c1 :: c2 :: c3 :: 0 :: rest) [] decoded Hqb Hq ltac:(lia)) as (r & Hr & Hspec).
  change (Z.of_nat (length [])) with 0 in Hr. cbn [app] in Hr.
  destruct (rd_four q c0 c1 c2 c3 (0 :: rest) 20) as (R0 & R1 & R2 & R3); [lia|].
  change (20 + 1) with 21 in R1. change (20 + 2) with 22 in R2. change (20 + 3) with 23 in R3. rewrite R0, R1, R2, R3, Hr. cbn [mbind option_bind].
  apply Forall_app in Hs as [_ Hs]. inversion_clear Hs as [|?? H0 Hs']. inversion_clear Hs' as [|?? H1 _].
  destruct (base64_value_spec c0) as [L0 V0]; [unfold in_u; lia|]. destruct (base64_value_spec c1) as [L1 V1]; [unfold in_u; lia|].
  destruct (negb (c2 =? 61) || negb (c3 =? 61)) eqn:Hpad.
  { eexists _, _. split; [done|]. split; [done|]. intros bs Hb Hbl Heq.
    destruct (key_encoded q c0 c1 c2 c3 bs) as (bs' & x & _ & _ & _ & _ & _ & _ & _ & -> & ->); done. }
  destruct r as [dec | [o dec]].
  { eexists _, _. split; [done|]. split; [done|]. intros bs Hb Hbl Heq.
    destruct (key_encoded q c0 c1 c2 c3 bs) as (bs' & x & _ & Hb' & _ & Hl' & -> & _); [done..|]. by destruct (Hspec bs'). }
  destruct Hspec as (bs0 & Hb0 & Hl0 & Hq0 & -> & ->). cbn [app] in *.
  destruct (_ || negb (Z.land (base64_value c1) 15 =? 0)) eqn:Hbits.
  { eexists _, _. split; [done|]. split; [done|]. intros bs Hb Hbl Heq.
    destruct (key_encoded q c0 c1 c2 c3 bs) as (bs' & x & _ & _ & Hx & _ & _ & -> & -> & _); [done..|].
    destruct (one_sextets x Hx) as (Ha & Hb1 & Hz & _). rewrite !(fun v H => proj1 (base64_value_b64 v H)) in Hbits by done. lia. }
  destruct (sextets_one (base64_value c0) (base64_value c1)) as (Hx & E0 & E1); [lia..|]. cbv zeta in Hx, E0, E1.
  set (x := u8 _) in *. assert (length (drop 15 decoded) = 1%nat) as Hj by (rewrite length_drop; lia).
  change (3 * 5)%nat with 15%nat. destruct (drop 15 decoded) as [|j [|]]; try done. rewrite lset_snoc, app_nil_r by done.
  destruct (base64_encode_16 bs0 x Hb0 Hl0 Hx) as [E HL]. eexists _, _. split; [done|].
  rewrite length_app, Hl0. split; [intros _|].
  - split; [apply Forall_app; by split; [|constructor]|]. split; [done|]. rewrite E, Hq0, <- E0, <- E1, V0, V1 by lia.
    rewrite <- app_assoc. cbn [app]. repeat f_equal; lia.
  - intros bs Hb Hbl Heq. split; [done|].
    destruct (key_encoded q c0 c1 c2 c3 bs) as (bs' & x' & -> & Hb' & Hx' & Hl' & Hq' & -> & -> & _); [done..|].
    destruct (one_sextets x' Hx') as (Ha & Hb1 & _ & Hv). cbv zeta in Hv. f_equal; [apply (base64_chars_inj 5); (done || congruence)|].
    f_equal. subst x. by rewrite !(fun v H => proj1 (base64_value_b64 v H)) by done.
Qed.

(** The accept string of a well-formed key has 28 characters and its NUL. *)
Lemma base64_encode_length_20 l : length l = 20%nat -> length (base64_encode l) = 29%nat.
Proof. intros Hl. do 20 (destruct l as [|? l]; [done|]). by destruct l. Qed.

Lemma sha1_length input digest : (length input <= 119)%nat -> length (sha1 input digest) = 20%nat.
Proof. intros Hi. unfold sha1. case_if; [lia|]. by destruct (foldl _ _ _) as [[[[a b] c] d] e]. Qed.

Lemma make_accept_total s : Forall (fun c => 0 < c < 256) s -> length s = 24%nat ->
  exists b accept, make_accept (Some (s ++ [0])) = Some (b, accept) /\ (b = true -> length accept = 29%nat).
Proof.
  intros Hs Hl. unfold make_accept. destruct (decode_websocket_key_spec s [] (replicate 16 0) Hs eq_refl) as (b & d & -> & _).
  cbn [mbind option_bind fst]. destruct b; cbn [negb]; [|by exists false, []]. change (default [] (Some (s ++ [0]))) with (s ++ [0]).
  assert (slice (s ++ [0]) 0 kWebSocketKeyBytes = Some s) as ->.
  { apply (slice_app [] s [0]); [done|]. by rewrite Hl. }
  eexists true, _. split; [done|]. intros _. apply base64_encode_length_20, sha1_length. rewrite length_app, Hl. cbn. lia.
Qed.

(** The key decoder is exact: on any C string it reads no character behind
    the terminator, and it accepts exactly the canonical base64 encodings of 16
    bytes (as [base64_encode] writes them, pad bits zero), giving those bytes. *)
Theorem websocket_key_exact s rest decoded
    (Hs : Forall (fun c => 0 < c < 256) s) (Hd : length decoded = 16%nat) :
  exists b decoded', decode_websocket_key (Some (s ++ 0 :: rest)) decoded = Some (b, decoded') /\
    (b = true -> bytes_ok decoded' /\ length decoded' = 16%nat /\ s ++ [0] = base64_encode decoded') /\
    (forall bs, bytes_ok bs -> length bs = 16%nat -> s ++ [0] = base64_encode bs -> b = true /\ decoded' = bs).
Proof. by apply decode_websocket_key_spec. Qed.

(** The key of the RFC's example, and one with a non-zero pad bit. *)
Example websocket_key_exact_witness :
  let good := bytes_of_string "dGhlIHNhbXBsZSBub25jZQ=="%str in
  fst <$> decode_websocket_key (Some (bytes_of_string "dGhlIHNhbXBsZSBub25jZR=="%str ++ [0])) (replicate 16 0) = Some false /\
  exists b d, decode_websocket_key (Some (good ++ 0 :: [])) (replicate 16 0) = Some (b, d) /\
    (b = true -> bytes_ok d /\ length d = 16%nat /\ good ++ [0] = base64_encode d) /\ b = true.
Proof.
  split; [by vm_compute|].
  destruct (websocket_key_exact (bytes_of_string "dGhlIHNhbXBsZSBub25jZQ=="%str) [] (replicate 16 0)) as (b & d & H1 & H2 & _);
    [by repeat constructor|done|].
  exists b, d. split; [exact H1|]. split; [exact H2|]. vm_compute in H1. by injection H1 as <- _.
Defined.
