(* ===== verification/WsFill.v ===== *)
(** * The JSON text of a fill (format_fill_json of luv_websocket.cpp)

    The text is written into a fixed buffer with checked appends.  The buffer
    and the number of bytes written so far are passed along; [false] is a text
    that does not fit.  [format_fill_json] stops at the first append that
    fails, as the source's [&&] does. *)
From Stdlib Require Import ZArith Lia ZifyBool.
From Stdlib Require String Ascii.
From S2P Require Import Prelude Numeric Bytes Config Guards Reconcile Recovery AuditLog ExecTypes Risk Gateway.
Import String.StringSyntax.
#[local] Delimit Scope string_scope with str.

(** The output buffer and [output_size]. *)
Abbreviation text_out := (list Z * Z)%type.

Definition append_bytes (bytes : list Z) (out : text_out) : text_out :=
  (put (snd out) bytes (fst out), snd out + Z.of_nat (length bytes)).

Definition append_literal (literal : list Z) (out : text_out) : bool * text_out :=
  if Z.of_nat (length (fst out)) - snd out <? Z.of_nat (length literal) then (false, out) else (true, append_bytes literal out).

(** The decimal digits of a value, last first: the do-while loop. *)
Fixpoint reversed_digits (fuel : nat) (value : Z) : list Z :=
  match fuel with
  | O => []
  | S fuel => 48 + value mod 10 :: (if value / 10 =? 0 then [] else reversed_digits fuel (value / 10))
  end.

Definition append_unsigned (value : Z) (out : text_out) : bool * text_out :=
  let reversed := reversed_digits 20 value in
  if Z.of_nat (length (fst out)) - snd out <? Z.of_nat (length reversed) then (false, out)
  else (true, append_bytes (reverse reversed) out).

Definition append_signed (value : Z) (out : text_out) : bool * text_out :=
  if 0 <=? value then append_unsigned value out
  else if snd out =? Z.of_nat (length (fst out)) then (false, out)
  else append_unsigned (u64 (0 - u64 value)) (append_bytes [45] out).

(** [&&] of two appends. *)
Definition and_then (r : bool * text_out) (f : text_out -> bool * text_out) : bool * text_out :=
  if fst r then f (snd r) else r.

Definition json_event : list Z := Eval vm_compute in
  bytes_of_string "{"%str ++ [34] ++ bytes_of_string "event"%str ++ [34; 58; 34] ++ bytes_of_string "fill"%str ++ [34; 44; 34] ++
  bytes_of_string "order_id"%str ++ [34; 58].
Definition json_filled_qty : list Z := Eval vm_compute in [44; 34] ++ bytes_of_string "filled_qty"%str ++ [34; 58].
Definition json_fill_price : list Z := Eval vm_compute in [44; 34] ++ bytes_of_string "fill_price"%str ++ [34; 58].
Definition json_timestamp_ns : list Z := Eval vm_compute in [44; 34] ++ bytes_of_string "timestamp_ns"%str ++ [34; 58].

Definition format_fill_json (output : list Z) (event : FillEvent) : bool * text_out :=
  and_then (and_then (and_then (and_then (and_then (and_then (and_then (and_then
    (append_literal json_event (output, 0))
    (append_unsigned (fe_order_id event)))
    (append_literal json_filled_qty))
    (append_signed (fe_filled_qty event)))
    (append_literal json_fill_price))
    (append_signed (fe_fill_price event)))
    (append_literal json_timestamp_ns))
    (append_unsigned (fe_timestamp_ns event)))
    (append_literal [125]).

(** ** Decimal text *)
Definition decimal (value : Z) : list Z := reverse (reversed_digits 20 value).
Definition decimal_signed (value : Z) : list Z := if 0 <=? value then decimal value else 45 :: decimal (- value).

(** Reading a decimal number: digits only, no superfluous zero. *)
Definition digit (c : Z) : Prop := 48 <= c <= 57.
Definition digits_value (l : list Z) : Z := foldl (fun acc c => acc * 10 + (c - 48)) 0 l.
Definition reads_unsigned (l : list Z) (value : Z) : Prop :=
  l <> [] /\ Forall digit l /\ digits_value l = value /\ (hd 0 l = 48 -> l = [48]).
Definition reads_signed (l : list Z) (value : Z) : Prop :=
  (0 <= value /\ reads_unsigned l value) \/ (value < 0 /\ exists l', l = 45 :: l' /\ reads_unsigned l' (- value)).

Lemma digits_value_snoc l c : digits_value (l ++ [c]) = digits_value l * 10 + (c - 48).
Proof. unfold digits_value. by rewrite foldl_app. Qed.

Lemma reversed_digits_spec fuel value : 0 <= value < 10 ^ Z.of_nat (S fuel) ->
  let l := reversed_digits (S fuel) value in
  Forall digit l /\ digits_value (reverse l) = value /\ (1 <= length l <= S fuel)%nat /\ (value <> 0 -> last l <> Some 48) /\ (value = 0 -> l = [48]).
Proof.
  revert value. induction fuel as [|fuel IH]; intros value Hv.
  - cbn [reversed_digits]. change (10 ^ Z.of_nat 1) with 10 in Hv. rewrite Z.div_small, Z.mod_small by lia. cbn.
    split; [constructor; [unfold digit; lia|constructor]|]. split; [lia|]. split; [lia|]. split; [intros H [= E]; lia|by intros ->].
  - set (n := S fuel) in *. cbn [reversed_digits]. pose proof (Z.mod_pos_bound value 10). pose proof (Z.div_mod value 10).
    case_if.
    + cbn. split; [constructor; [unfold digit; lia|constructor]|]. split; [lia|]. split; [lia|]. split; [intros Hne [= E]; lia|].
      intros ->. done.
    + destruct (IH (value / 10)) as (Hd & Hval & Hl & Hlast & _).
      { rewrite (Nat2Z.inj_succ n), Z.pow_succ_r in Hv by lia. split; [apply Z.div_pos; lia|apply Z.div_lt_upper_bound; lia]. }
      split; [constructor; [unfold digit; lia|done]|]. rewrite reverse_cons, digits_value_snoc, Hval.
      split; [lia|]. cbn [length]. split; [lia|]. split; [|intros ->; done].
      intros _. destruct (reversed_digits n (value / 10)) as [|c l] eqn:E; [cbn in Hl; lia|].
      change (last (48 + value mod 10 :: c :: l)) with (last (c :: l)). apply Hlast. lia.
Qed.

(** More fuel than digits changes nothing. *)
Lemma reversed_digits_fuel n m value : (1 <= n <= m)%nat -> 0 <= value < 10 ^ Z.of_nat n ->
  reversed_digits m value = reversed_digits n value.
Proof.
  revert m value. induction n as [|n IH]; intros m value Hn Hv; [lia|]. destruct m as [|m]; [lia|]. cbn [reversed_digits].
  case_if; [done|]. f_equal. rewrite Nat2Z.inj_succ, Z.pow_succ_r in Hv by lia.
  destruct n as [|n]; [change (10 ^ Z.of_nat 0) with 1 in Hv; rewrite Z.div_small in *; lia|].
  apply IH; [lia|]. split; [apply Z.div_pos; lia|apply Z.div_lt_upper_bound; lia].
Qed.

Lemma decimal_reads value : in_u 64 value -> reads_unsigned (decimal value) value /\ (length (decimal value) <= 20)%nat.
Proof.
  intros Hv. unfold decimal. destruct (reversed_digits_spec 19 value) as (Hd & Hval & Hl & Hlast & Hz).
  { unfold in_u in Hv. change (2 ^ 64) with 18446744073709551616 in Hv. change (10 ^ Z.of_nat 20) with 100000000000000000000. lia. }
  rewrite length_reverse. split; [|lia]. split; [intros E; apply (f_equal length) in E; rewrite length_reverse in E; cbn in E, Hl; lia|].
  split; [by apply Forall_reverse|]. split; [done|]. intros H48. destruct (decide (value = 0)) as [E | Hne]; [by rewrite (Hz E)|].
  exfalso. apply (Hlast Hne). rewrite <- head_reverse. destruct (reverse _) as [|c l] eqn:E; [|by cbn in H48 |- *; subst].
  apply (f_equal length) in E. rewrite length_reverse in E. cbn in E, Hl. lia.
Qed.

Lemma decimal_signed_reads value : in_s 64 value -> reads_signed (decimal_signed value) value /\ (length (decimal_signed value) <= 20)%nat.
Proof.
  intros Hv. unfold in_s in Hv. change (2 ^ (64 - 1)) with 9223372036854775808 in Hv. unfold decimal_signed. case_if.
  - destruct (decimal_reads value) as [H1 H2]; [unfold in_u; lia|]. split; [left; split; [lia|done]|done].
  - destruct (decimal_reads (- value)) as [H1 H2]; [unfold in_u; lia|]. split; [right; split; [lia|]; by eexists|].
    cbn [length]. enough (length (decimal (- value)) <= 19)%nat by lia.
    unfold decimal. destruct (reversed_digits_spec 18 (- value)) as (_ & _ & Hl & _); [change (10 ^ Z.of_nat 19) with 10000000000000000000; lia|].
    rewrite length_reverse. rewrite (reversed_digits_fuel 19 20); [lia|lia|]. change (10 ^ Z.of_nat 19) with 10000000000000000000. lia.
Qed.

(** ** The buffer *)

(** The text written so far at the head of the buffer. *)
Definition written (text buf : list Z) : text_out := (text ++ drop (length text) buf, Z.of_nat (length text)).

Lemma append_bytes_written text bytes buf : (length text + length bytes <= length buf)%nat ->
  append_bytes bytes (written text buf) = written (text ++ bytes) buf.
Proof.
  intros Hl. unfold append_bytes, written, put. cbn [fst snd]. rewrite Nat2Z.id, length_app. f_equal; [|lia].
  rewrite <- (Nat.add_0_r (length text)) at 1. rewrite list_inserts_app_r.
  rewrite <- (take_drop (length bytes) (drop (length text) buf)) at 1.
  rewrite list_inserts_0_r by (rewrite length_take, length_drop; lia). by rewrite drop_drop, app_assoc.
Qed.

Lemma written_capacity text buf : (length text <= length buf)%nat -> length (fst (written text buf)) = length buf.
Proof. intros H. unfold written. cbn [fst]. rewrite length_app, length_drop. lia. Qed.

Section Fits.
Context (text buf : list Z).

Lemma append_literal_fits literal : (length text + length literal <= length buf)%nat ->
  append_literal literal (written text buf) = (true, written (text ++ literal) buf).
Proof.
  intros Hl. unfold append_literal. rewrite written_capacity by lia. cbn [written snd]. case_if; [lia|]. by rewrite append_bytes_written.
Qed.

Lemma append_unsigned_fits value : in_u 64 value -> (length text + 20 <= length buf)%nat ->
  append_unsigned value (written text buf) = (true, written (text ++ decimal value) buf).
Proof.
  intros Hv Hl. destruct (decimal_reads value Hv) as [_ H20]. unfold append_unsigned. rewrite written_capacity by lia. fold (decimal value).
  assert (length (reversed_digits 20 value) = length (decimal value)) as -> by by unfold decimal; rewrite length_reverse.
  cbn [written snd]. case_if; [lia|]. by rewrite append_bytes_written by lia.
Qed.
End Fits.

Lemma append_signed_fits text buf value : in_s 64 value -> (length text + 21 <= length buf)%nat ->
  append_signed value (written text buf) = (true, written (text ++ decimal_signed value) buf).
Proof.
  intros Hv Hl. unfold append_signed, decimal_signed. unfold in_s in Hv. change (2 ^ (64 - 1)) with 9223372036854775808 in Hv.
  case_if; [apply append_unsigned_fits; [unfold in_u; lia|lia]|]. rewrite written_capacity by lia. cbn [written snd]. case_if; [lia|].
  rewrite append_bytes_written by (cbn [length]; lia).
  assert (u64 (0 - u64 value) = - value) as ->.
  { unfold wrap_u. rewrite Zminus_mod_idemp_r. rewrite Z.mod_small; [lia|]. change (2 ^ 64) with 18446744073709551616. lia. }
  rewrite append_unsigned_fits; [|unfold in_u; lia|rewrite length_app; cbn [length]; lia]. by rewrite <- app_assoc.
Qed.

Definition fill_ok (e : FillEvent) : Prop :=
  in_u 64 (fe_order_id e) /\ in_s 64 (fe_filled_qty e) /\ in_s 64 (fe_fill_price e) /\ in_u 64 (fe_timestamp_ns e).

Definition fill_text (e : FillEvent) : list Z :=
  json_event ++ decimal (fe_order_id e) ++ json_filled_qty ++ decimal_signed (fe_filled_qty e) ++
  json_fill_price ++ decimal_signed (fe_fill_price e) ++ json_timestamp_ns ++ decimal (fe_timestamp_ns e) ++ [125].

Lemma fill_text_length e : fill_ok e -> (0 < length (fill_text e) <= 157)%nat.
Proof.
  intros (H1 & H2 & H3 & H4). destruct (decimal_reads _ H1) as [_ L1], (decimal_signed_reads _ H2) as [_ L2], (decimal_signed_reads _ H3) as [_ L3],
    (decimal_reads _ H4) as [_ L4]. unfold fill_text. rewrite !length_app. cbn [length json_event json_filled_qty json_fill_price json_timestamp_ns]. lia.
Qed.

Lemma format_fill_json_text buf e : fill_ok e -> (157 <= length buf)%nat -> format_fill_json buf e = (true, written (fill_text e) buf).
Proof.
  intros (H1 & H2 & H3 & H4) Hb. destruct (decimal_reads _ H1) as [_ L1], (decimal_signed_reads _ H2) as [_ L2], (decimal_signed_reads _ H3) as [_ L3],
    (decimal_reads _ H4) as [_ L4]. unfold format_fill_json, and_then.
  change (buf, 0) with (written [] buf).
  repeat (first [rewrite append_literal_fits | rewrite append_unsigned_fits by (done || (rewrite ?length_app; cbn [length json_event json_filled_qty json_fill_price json_timestamp_ns]; lia))
    | rewrite append_signed_fits by (done || (rewrite ?length_app; cbn [length json_event json_filled_qty json_fill_price json_timestamp_ns]; lia))];
    [cbn [fst snd]|rewrite ?length_app; cbn [length json_event json_filled_qty json_fill_price json_timestamp_ns]; lia ..]).
  unfold fill_text. by rewrite <- !app_assoc.
Qed.

(** The text of a fill is complete and exact for every event: in the
    256-byte buffer of the broadcast (157 bytes are enough) formatting never
    fails, and the text is the four fields between the fixed literals, each a
    decimal number that reads back as the field, INT64_MIN included. *)
Theorem fill_json_exact (buf : list Z) (e : FillEvent) (He : fill_ok e) (Hb : (157 <= length buf)%nat) :
  exists d1 d2 d3 d4,
    let text := json_event ++ d1 ++ json_filled_qty ++ d2 ++ json_fill_price ++ d3 ++ json_timestamp_ns ++ d4 ++ [125] in
    format_fill_json buf e = (true, (text ++ drop (length text) buf, Z.of_nat (length text))) /\ (length text <= 157)%nat /\
    reads_unsigned d1 (fe_order_id e) /\ reads_signed d2 (fe_filled_qty e) /\ reads_signed d3 (fe_fill_price e) /\
    reads_unsigned d4 (fe_timestamp_ns e).
Proof.
  pose proof He as (H1 & H2 & H3 & H4).
  exists (decimal (fe_order_id e)), (decimal_signed (fe_filled_qty e)), (decimal_signed (fe_fill_price e)), (decimal (fe_timestamp_ns e)).
  split; [by apply format_fill_json_text|]. split; [by apply fill_text_length|].
  by repeat split; first [apply decimal_reads | apply decimal_signed_reads].
Qed.

Example fill_json_exact_witness :
  let e := mkFillEvent 7 (-9223372036854775808) 0 18446744073709551615 in
  fst (format_fill_json (replicate 100 0) e) = false /\
  exists d1 d2 d3 d4, fst (format_fill_json (replicate 256 0) e) = true /\
    reads_unsigned d1 7 /\ reads_signed d2 (-9223372036854775808) /\ reads_signed d3 0 /\ reads_unsigned d4 18446744073709551615.
Proof.
  split; [by vm_compute|].
  destruct (fill_json_exact (replicate 256 0) (mkFillEvent 7 (-9223372036854775808) 0 18446744073709551615)) as (d1 & d2 & d3 & d4 & H1 & _ & H2).
  - repeat split; vm_compute; congruence.
  - rewrite length_replicate. lia.
  - exists d1, d2, d3, d4. split; [by vm_compute|exact H2].
Defined.
