(* ===== verification/WsServer.v ===== *)
(** * The WebSocket server's worker (luv_websocket.hpp, luv_websocket.cpp)

    The operations the worker thread performs on its connections, the
    subscription table and the output buffers, in the poll build (the kqueue
    build's flush list is left out).  A connection is named by its index in the
    pool.  The results of [recv] and [send], the clock and [fcntl] are
    arguments; [::close] is recorded.  [None] is an access outside a buffer. *)
From Stdlib Require Import ZArith Lia ZifyBool.
From Stdlib Require String Ascii.
From S2P Require Import Prelude Numeric Bytes Config Guards Reconcile Recovery AuditLog ExecTypes Risk Gateway.
From S2P Require Import WsUtf8 WsFrame WsKey WsFill.
Import String.StringSyntax.
#[local] Delimit Scope string_scope with str.

Definition kReadBufferBytes : Z := 2048.
Definition kWriteBufferBytes : Z := 4096.
Definition kBackpressureCloseNs : Z := 5000000.
Definition kSubscriptionBuckets : Z := 2048.
Definition kSubscriptionMask : Z := kSubscriptionBuckets - 1.
Definition kLatencySampleMask : Z := 1024 - 1.
Definition kUpgradeQueueCapacity : Z := 1024.
Definition kMaxUpgradePreReadBytes : Z := 2048.
Definition kNoSubscriptionBucket : Z := 65535.
Definition POLLIN : Z := 1.
Definition POLLOUT : Z := 4.

(** ** Data *)
Record Connection := mkConn {
  cn_fd : Z;
  cn_order_id : Z;
  cn_last_ping_ns : Z;
  cn_last_pong_ns : Z;
  cn_write_blocked_since_ns : Z;
  cn_read_size : Z;
  cn_write_offset : Z;
  cn_write_size : Z;
  cn_subscription_bucket : Z;
  cn_subscription_prev : Z;
  cn_subscription_next : Z;
  cn_awaiting_pong : bool;
  cn_close_after_flush : bool;
  cn_fragmented_data : FragmentState;
  cn_write_waiting : bool;
  cn_read_buffer : list Z;
  cn_write_buffer : list Z
}.

(** [Connection{}]. *)
Definition conn_init : Connection :=
  mkConn (-1) 0 0 0 0 0 0 0 kNoSubscriptionBucket (-1) (-1) false false fragment_init false
    (replicate (Z.to_nat kReadBufferBytes) 0) (replicate (Z.to_nat kWriteBufferBytes) 0).

(** Assignments to groups of fields. *)
Definition set_input (size : Z) (frag : FragmentState) (buf : list Z) (c : Connection) : Connection :=
  mkConn (cn_fd c) (cn_order_id c) (cn_last_ping_ns c) (cn_last_pong_ns c) (cn_write_blocked_since_ns c) size
    (cn_write_offset c) (cn_write_size c) (cn_subscription_bucket c) (cn_subscription_prev c) (cn_subscription_next c)
    (cn_awaiting_pong c) (cn_close_after_flush c) frag (cn_write_waiting c) buf (cn_write_buffer c).
Definition set_output (offset size : Z) (buf : list Z) (c : Connection) : Connection :=
  mkConn (cn_fd c) (cn_order_id c) (cn_last_ping_ns c) (cn_last_pong_ns c) (cn_write_blocked_since_ns c) (cn_read_size c)
    offset size (cn_subscription_bucket c) (cn_subscription_prev c) (cn_subscription_next c)
    (cn_awaiting_pong c) (cn_close_after_flush c) (cn_fragmented_data c) (cn_write_waiting c) (cn_read_buffer c) buf.
Definition set_blocked (since : Z) (c : Connection) : Connection :=
  mkConn (cn_fd c) (cn_order_id c) (cn_last_ping_ns c) (cn_last_pong_ns c) since (cn_read_size c)
    (cn_write_offset c) (cn_write_size c) (cn_subscription_bucket c) (cn_subscription_prev c) (cn_subscription_next c)
    (cn_awaiting_pong c) (cn_close_after_flush c) (cn_fragmented_data c) (cn_write_waiting c) (cn_read_buffer c) (cn_write_buffer c).
Definition set_links (bucket prev next : Z) (c : Connection) : Connection :=
  mkConn (cn_fd c) (cn_order_id c) (cn_last_ping_ns c) (cn_last_pong_ns c) (cn_write_blocked_since_ns c) (cn_read_size c)
    (cn_write_offset c) (cn_write_size c) bucket prev next
    (cn_awaiting_pong c) (cn_close_after_flush c) (cn_fragmented_data c) (cn_write_waiting c) (cn_read_buffer c) (cn_write_buffer c).
Definition set_heartbeat (ping pong : Z) (awaiting : bool) (c : Connection) : Connection :=
  mkConn (cn_fd c) (cn_order_id c) ping pong (cn_write_blocked_since_ns c) (cn_read_size c)
    (cn_write_offset c) (cn_write_size c) (cn_subscription_bucket c) (cn_subscription_prev c) (cn_subscription_next c)
    awaiting (cn_close_after_flush c) (cn_fragmented_data c) (cn_write_waiting c) (cn_read_buffer c) (cn_write_buffer c).
Definition set_flags (closing waiting : bool) (c : Connection) : Connection :=
  mkConn (cn_fd c) (cn_order_id c) (cn_last_ping_ns c) (cn_last_pong_ns c) (cn_write_blocked_since_ns c) (cn_read_size c)
    (cn_write_offset c) (cn_write_size c) (cn_subscription_bucket c) (cn_subscription_prev c) (cn_subscription_next c)
    (cn_awaiting_pong c) closing (cn_fragmented_data c) waiting (cn_read_buffer c) (cn_write_buffer c).

Inductive BucketState := bEmpty | bOccupied | bTombstone.

#[global] Instance BucketState_eq_dec : EqDecision BucketState.
Proof. solve_decision. Defined.

Record SubscriptionBucket := mkBucket { sb_order_id : Z; sb_head : Z; sb_state : BucketState }.

Definition bucket_init : SubscriptionBucket := mkBucket 0 (-1) bEmpty.

(** An upgrade on its way to the worker; [up_pre_read] holds the
    [pre_read_size] bytes that arrived with the request. *)
Record Upgrade := mkUpgrade { up_fd : Z; up_order_id : Z; up_key : list Z; up_pre_read : list Z }.

Inductive UpgradeResult := uAccepted | uInvalidKey | uInvalidUpgrade | uPoolExhausted | uQueueFull.

(** The diagnostics counters, as [Server::Diagnostics] reports them. *)
Record Diagnostics := mkDiag {
  dg_completed_broadcasts : Z;
  dg_last_broadcast_latency_ns : Z;
  dg_last_fanout_count : Z;
  dg_queued_frames : Z;
  dg_dropped_frames : Z;
  dg_slow_client_closes : Z;
  dg_last_backpressure_close_ns : Z;
  dg_pings_sent : Z;
  dg_pongs_received : Z;
  dg_last_pong_rtt_ns : Z;
  dg_cleanup_count : Z
}.

Definition diag_init : Diagnostics := mkDiag 0 0 0 0 0 0 0 0 0 0 0.

Record Server := mkServer {
  sv_connections : list Connection;
  sv_subscriptions : list SubscriptionBucket;
  sv_poll_fds : list (Z * Z);              (* fd and events; entry n + 1 is connection n, entry 0 that of the wakeup pipe is not kept *)
  sv_active : Z;                           (* atomic uint32_t *)
  sv_reserved : Z;                         (* atomic uint32_t *)
  sv_diag : Diagnostics;
  sv_latency_samples : list Z;
  sv_ping_interval_ns : Z;
  sv_pong_timeout_ns : Z;
  sv_closed : list Z;                      (* descriptors passed to ::close, latest first *)
  sv_upgrades : list Upgrade               (* the SPSC queue, oldest first *)
}.

Definition max_connections (s : Server) : Z := Z.of_nat (length (sv_connections s)).
Definition conn (s : Server) (i : Z) : Connection := lget conn_init (sv_connections s) i.
Definition bucket (s : Server) (b : Z) : SubscriptionBucket := lget bucket_init (sv_subscriptions s) b.

(** [connections_ <= &connection < connections_ + max_connections_]. *)
Definition in_pool (s : Server) (i : Z) : bool := (0 <=? i) && (i <? max_connections s).

Definition with_connections (l : list Connection) (s : Server) : Server :=
  mkServer l (sv_subscriptions s) (sv_poll_fds s) (sv_active s) (sv_reserved s) (sv_diag s) (sv_latency_samples s)
    (sv_ping_interval_ns s) (sv_pong_timeout_ns s) (sv_closed s) (sv_upgrades s).
Definition with_subscriptions (l : list SubscriptionBucket) (s : Server) : Server :=
  mkServer (sv_connections s) l (sv_poll_fds s) (sv_active s) (sv_reserved s) (sv_diag s) (sv_latency_samples s)
    (sv_ping_interval_ns s) (sv_pong_timeout_ns s) (sv_closed s) (sv_upgrades s).
Definition with_poll_fds (l : list (Z * Z)) (s : Server) : Server :=
  mkServer (sv_connections s) (sv_subscriptions s) l (sv_active s) (sv_reserved s) (sv_diag s) (sv_latency_samples s)
    (sv_ping_interval_ns s) (sv_pong_timeout_ns s) (sv_closed s) (sv_upgrades s).
Definition with_counts (active reserved : Z) (closed : list Z) (s : Server) : Server :=
  mkServer (sv_connections s) (sv_subscriptions s) (sv_poll_fds s) active reserved (sv_diag s) (sv_latency_samples s)
    (sv_ping_interval_ns s) (sv_pong_timeout_ns s) closed (sv_upgrades s).
Definition with_diag (d : Diagnostics) (s : Server) : Server :=
  mkServer (sv_connections s) (sv_subscriptions s) (sv_poll_fds s) (sv_active s) (sv_reserved s) d (sv_latency_samples s)
    (sv_ping_interval_ns s) (sv_pong_timeout_ns s) (sv_closed s) (sv_upgrades s).
Definition with_samples (l : list Z) (s : Server) : Server :=
  mkServer (sv_connections s) (sv_subscriptions s) (sv_poll_fds s) (sv_active s) (sv_reserved s) (sv_diag s) l
    (sv_ping_interval_ns s) (sv_pong_timeout_ns s) (sv_closed s) (sv_upgrades s).

Definition with_upgrades (l : list Upgrade) (s : Server) : Server :=
  mkServer (sv_connections s) (sv_subscriptions s) (sv_poll_fds s) (sv_active s) (sv_reserved s) (sv_diag s) (sv_latency_samples s)
    (sv_ping_interval_ns s) (sv_pong_timeout_ns s) (sv_closed s) l.

Definition upd_conn (i : Z) (f : Connection -> Connection) (s : Server) : Server :=
  with_connections (lset i (f (conn s i)) (sv_connections s)) s.
Definition upd_bucket (b : Z) (x : SubscriptionBucket) (s : Server) : Server :=
  with_subscriptions (lset b x (sv_subscriptions s)) s.

(** Updates of the counters. *)
Definition count_fanout (latency fanout : Z) (d : Diagnostics) : Diagnostics :=
  mkDiag (u64 (dg_completed_broadcasts d + 1)) latency fanout (dg_queued_frames d) (dg_dropped_frames d) (dg_slow_client_closes d)
    (dg_last_backpressure_close_ns d) (dg_pings_sent d) (dg_pongs_received d) (dg_last_pong_rtt_ns d) (dg_cleanup_count d).
Definition count_frames (queued dropped : Z) (d : Diagnostics) : Diagnostics :=
  mkDiag (dg_completed_broadcasts d) (dg_last_broadcast_latency_ns d) (dg_last_fanout_count d) (u64 (dg_queued_frames d + queued))
    (u64 (dg_dropped_frames d + dropped)) (dg_slow_client_closes d)
    (dg_last_backpressure_close_ns d) (dg_pings_sent d) (dg_pongs_received d) (dg_last_pong_rtt_ns d) (dg_cleanup_count d).
Definition count_slow (interval : option Z) (d : Diagnostics) : Diagnostics :=
  mkDiag (dg_completed_broadcasts d) (dg_last_broadcast_latency_ns d) (dg_last_fanout_count d) (dg_queued_frames d) (dg_dropped_frames d)
    (u64 (dg_slow_client_closes d + 1)) (default (dg_last_backpressure_close_ns d) interval)
    (dg_pings_sent d) (dg_pongs_received d) (dg_last_pong_rtt_ns d) (dg_cleanup_count d).
Definition count_ping (d : Diagnostics) : Diagnostics :=
  mkDiag (dg_completed_broadcasts d) (dg_last_broadcast_latency_ns d) (dg_last_fanout_count d) (dg_queued_frames d) (dg_dropped_frames d)
    (dg_slow_client_closes d) (dg_last_backpressure_close_ns d) (u64 (dg_pings_sent d + 1)) (dg_pongs_received d) (dg_last_pong_rtt_ns d)
    (dg_cleanup_count d).
Definition count_pong (rtt : option Z) (d : Diagnostics) : Diagnostics :=
  mkDiag (dg_completed_broadcasts d) (dg_last_broadcast_latency_ns d) (dg_last_fanout_count d) (dg_queued_frames d) (dg_dropped_frames d)
    (dg_slow_client_closes d) (dg_last_backpressure_close_ns d) (dg_pings_sent d) (u64 (dg_pongs_received d + 1))
    (default (dg_last_pong_rtt_ns d) rtt) (dg_cleanup_count d).
Definition count_cleanup (d : Diagnostics) : Diagnostics :=
  mkDiag (dg_completed_broadcasts d) (dg_last_broadcast_latency_ns d) (dg_last_fanout_count d) (dg_queued_frames d) (dg_dropped_frames d)
    (dg_slow_client_closes d) (dg_last_backpressure_close_ns d) (dg_pings_sent d) (dg_pongs_received d) (dg_last_pong_rtt_ns d)
    (u64 (dg_cleanup_count d + 1)).

(** ** Outcomes of the system calls *)

(** A socket's unread bytes are a list; [RecvMax n] delivers up to [n] of them
    (at least one, and no more than asked for), or would block when there are
    none. *)
Inductive recv_outcome := RecvMax (n : Z) | RecvEof | RecvIntr | RecvAgain | RecvError.
Inductive send_outcome := SendBytes (n : Z) | SendIntr | SendAgain | SendError.

Module server.

(** ** Poll interest *)
Definition refresh_poll_interest (i : Z) (s : Server) : Server :=
  if negb (in_pool s i) then s
  else
    let c := conn s i in
    let events := if cn_fd c <? 0 then 0 else POLLIN in
    let events := if (0 <=? cn_fd c) && negb (cn_write_offset c =? cn_write_size c) then Z.lor events POLLOUT else events in
    with_poll_fds (lset (i + 1) (cn_fd c, events) (sv_poll_fds s)) s.

Definition clear_poll_interest (i : Z) (s : Server) : Server :=
  if negb (in_pool s i) then s
  else
    let s := upd_conn i (fun c => set_flags (cn_close_after_flush c) false c) s in
    with_poll_fds (lset (i + 1) (-1, 0) (sv_poll_fds s)) s.

Definition register_connection_io (i : Z) (s : Server) : bool * Server :=
  if (cn_fd (conn s i) <? 0) || negb (in_pool s i) then (false, s) else (true, refresh_poll_interest i s).

Definition set_write_interest (i : Z) (enabled : bool) (s : Server) : bool * Server :=
  let c := conn s i in
  if (cn_fd c <? 0) || negb (in_pool s i) then (false, s)
  else if Bool.eqb (cn_write_waiting c) enabled then (true, s)
  else (true, upd_conn i (fun c => set_flags (cn_close_after_flush c) enabled c) (refresh_poll_interest i s)).

(** ** The subscription table *)
Definition subscription_hash (order_id : Z) : Z :=
  let value := u64 (order_id + 0x9E3779B97F4A7C15) in
  let value := u64 (Z.lxor value (Z.shiftr value 30) * 0xBF58476D1CE4E5B9) in
  let value := u64 (Z.lxor value (Z.shiftr value 27) * 0x94D049BB133111EB) in
  u32 (Z.land (Z.lxor value (Z.shiftr value 31)) kSubscriptionMask).

Fixpoint find_loop (n : nat) (s : Server) (order_id index : Z) : Z :=
  match n with
  | O => -1
  | S n =>
      let b := bucket s index in
      if decide (sb_state b = bEmpty) then -1
      else if decide (sb_state b = bOccupied /\ sb_order_id b = order_id) then index
      else find_loop n s order_id (Z.land (index + 1) kSubscriptionMask)
  end.

Definition find_subscription (order_id : Z) (s : Server) : Z :=
  find_loop (Z.to_nat kSubscriptionBuckets) s order_id (subscription_hash order_id).

Definition occupied (order_id : Z) : SubscriptionBucket := mkBucket order_id (-1) bOccupied.

Fixpoint create_loop (n : nat) (order_id index first_tombstone : Z) (s : Server) : Z * Server :=
  match n with
  | O =>
      if negb (first_tombstone =? kSubscriptionBuckets) then (first_tombstone, upd_bucket first_tombstone (occupied order_id) s)
      else (-1, s)
  | S n =>
      let b := bucket s index in
      match sb_state b with
      | bEmpty =>
          let target := if first_tombstone =? kSubscriptionBuckets then index else first_tombstone in
          (target, upd_bucket target (occupied order_id) s)
      | bTombstone =>
          create_loop n order_id (Z.land (index + 1) kSubscriptionMask)
            (if first_tombstone =? kSubscriptionBuckets then index else first_tombstone) s
      | bOccupied =>
          if sb_order_id b =? order_id then (index, s)
          else create_loop n order_id (Z.land (index + 1) kSubscriptionMask) first_tombstone s
      end
  end.

Definition find_or_create_subscription (order_id : Z) (s : Server) : Z * Server :=
  create_loop (Z.to_nat kSubscriptionBuckets) order_id (subscription_hash order_id) kSubscriptionBuckets s.

Definition subscribe (i : Z) (s : Server) : bool * Server :=
  if (cn_fd (conn s i) <? 0) || negb (in_pool s i) then (false, s)
  else
    let '(bucket_index, s) := find_or_create_subscription (cn_order_id (conn s i)) s in
    if (bucket_index <? 0) || (kSubscriptionBuckets <=? bucket_index) then (false, s)
    else
      let b := bucket s bucket_index in
      let s := upd_conn i (set_links bucket_index (-1) (sb_head b)) s in
      let s := if 0 <=? sb_head b then
                 upd_conn (sb_head b) (fun c => set_links (cn_subscription_bucket c) i (cn_subscription_next c) c) s
               else s in
      (true, upd_bucket bucket_index (mkBucket (sb_order_id b) i (sb_state b)) s).

Definition unsubscribe (i : Z) (s : Server) : Server :=
  let c := conn s i in
  let bucket_index := cn_subscription_bucket c in
  if (bucket_index =? kNoSubscriptionBucket) || (kSubscriptionBuckets <=? bucket_index) || negb (in_pool s i) then s
  else
    let previous := cn_subscription_prev c in
    let next := cn_subscription_next c in
    let b := bucket s bucket_index in
    let s := if 0 <=? previous then
               upd_conn previous (fun c => set_links (cn_subscription_bucket c) (cn_subscription_prev c) next c) s
             else if sb_head b =? i then upd_bucket bucket_index (mkBucket (sb_order_id b) next (sb_state b)) s
             else s in
    let s := if 0 <=? next then
               upd_conn next (fun c => set_links (cn_subscription_bucket c) previous (cn_subscription_next c) c) s
             else s in
    let b := bucket s bucket_index in
    let s := if sb_head b <? 0 then upd_bucket bucket_index (mkBucket (sb_order_id b) (-1) bTombstone) s else s in
    upd_conn i (set_links kNoSubscriptionBucket (-1) (-1)) s.

(** ** Closing *)
Definition close (i : Z) (s : Server) : Server :=
  let fd := cn_fd (conn s i) in
  if fd <? 0 then s
  else
    let s := unsubscribe i s in
    let s := clear_poll_interest i s in
    let s := with_counts (sv_active s) (sv_reserved s) (fd :: sv_closed s) s in
    let s := upd_conn i (fun _ => conn_init) s in
    let s := with_counts (u32 (sv_active s - 1)) (u32 (sv_reserved s - 1)) (sv_closed s) s in
    with_diag (count_cleanup (sv_diag s)) s.

(** ** Output *)
Definition pending_bytes (c : Connection) : Z := u64 (cn_write_size c - cn_write_offset c).

Definition queue_bytes (i : Z) (bytes : list Z) (s : Server) : option (bool * Server) :=
  let c := conn s i in
  let count := Z.of_nat (length bytes) in
  if count =? 0 then Some (true, s)
  else if kWriteBufferBytes <? count then Some (false, s)
  else
    let pending := pending_bytes c in
    if kWriteBufferBytes <? pending + count then Some (false, s)
    else
      buf ← (if negb (cn_write_offset c =? 0) && negb (pending =? 0) then
               moved ← slice (cn_write_buffer c) (cn_write_offset c) pending; memcpy (cn_write_buffer c) 0 moved
             else Some (cn_write_buffer c));
      buf ← memcpy buf (u16 pending) bytes;
      Some (true, refresh_poll_interest i (upd_conn i (set_output 0 (u16 (pending + count)) buf) s)).

(** The header of a server frame: final, unmasked. *)
Definition server_header (opcode payload_size : Z) : list Z :=
  Z.lor 0x80 opcode :: (if payload_size <=? 125 then [payload_size] else [126; Z.shiftr payload_size 8; u8 payload_size]).

Definition queue_frame (i opcode : Z) (payload : list Z) (s : Server) : option (bool * Server) :=
  let payload_size := Z.of_nat (length payload) in
  if negb (Z.land opcode 0xF0 =? 0) || (0xFFFF <? payload_size) then Some (false, s)
  else
    let header := server_header opcode payload_size in
    if kWriteBufferBytes <? pending_bytes (conn s i) + Z.of_nat (length header) + payload_size then Some (false, s)
    else
      r ← queue_bytes i header s;
      if fst r : bool then queue_bytes i payload (snd r) else Some r.

Definition queue_close (i code : Z) (reason : list Z) (s : Server) : option (bool * Server) :=
  if 123 <? Z.of_nat (length reason) then Some (false, s)
  else queue_frame i 0x08 (u8 (Z.shiftr code 8) :: u8 code :: reason) s.

Definition close_with_code (i code : Z) (s : Server) : option (bool * Server) :=
  r ← queue_close i code [] s;
  if negb (fst r) then Some (false, close i (snd r))
  else Some (true, upd_conn i (fun c => set_flags true (cn_write_waiting c) c) (snd r)).

(** [flush]; [sent] is the outcome of its one [send]. *)
Definition flush (i timestamp_ns : Z) (sent : send_outcome) (s : Server) : bool * Server :=
  let c := conn s i in
  if cn_write_offset c =? cn_write_size c then
    let s := upd_conn i (fun c => set_blocked 0 (set_output 0 0 (cn_write_buffer c) c)) s in
    if cn_close_after_flush c then (false, close i s)
    else
      let '(ok, s) := set_write_interest i false s in
      if negb ok then (false, close i s) else (true, refresh_poll_interest i s)
  else
    let again s :=
      if cn_write_blocked_since_ns c =? 0 then
        let s := upd_conn i (set_blocked timestamp_ns) s in
        let '(ok, s) := set_write_interest i true s in
        if negb ok then (false, close i s) else (true, s)
      else if kBackpressureCloseNs <=? u64 (timestamp_ns - cn_write_blocked_since_ns c) then
        let s := with_diag (count_slow (Some (u64 (timestamp_ns - cn_write_blocked_since_ns c))) (sv_diag s)) s in
        (false, close i s)
      else (true, s) in
    match sent with
    | SendBytes n =>
        if 0 <? n then
          let offset := u16 (cn_write_offset c + n) in
          let all := offset =? cn_write_size c in
          let s := if all then upd_conn i (fun c => set_blocked 0 (set_output 0 0 (cn_write_buffer c) c)) s
                   else upd_conn i (fun c => set_blocked timestamp_ns (set_output offset (cn_write_size c) (cn_write_buffer c) c)) s in
          if all && cn_close_after_flush c then (false, close i s)
          else
            let '(ok, s) := set_write_interest i (negb (cn_write_offset (conn s i) =? cn_write_size (conn s i))) s in
            if negb ok then (false, close i s) else (true, refresh_poll_interest i s)
        else again s
    | SendIntr =>
        let '(ok, s) := set_write_interest i true s in
        if negb ok then (false, close i s) else (true, s)
    | SendError => (false, close i s)
    | SendAgain => again s
    end.

(** ** Input *)

(** The answer to a consumed control frame. *)
Definition answer_control (i opcode : Z) (payload : list Z) (timestamp_ns : Z) (s : Server) : option (FrameResult * bool * Server) :=
  if opcode =? 0x08 then
    r ← queue_frame i 0x08 payload s;
    if negb (fst r) then Some (kConsumed, true, close i (with_diag (count_slow None (sv_diag (snd r))) (snd r)))
    else Some (kConsumed, false, upd_conn i (fun c => set_flags true (cn_write_waiting c) c) (snd r))
  else if opcode =? 0x09 then
    r ← queue_frame i 0x0A payload s;
    if negb (fst r) then Some (kConsumed, true, close i (with_diag (count_slow None (sv_diag (snd r))) (snd r)))
    else Some (kConsumed, false, snd r)
  else if opcode =? 0x0A then
    let c := conn s i in
    let measured := cn_awaiting_pong c && (cn_last_ping_ns c <=? timestamp_ns) in
    let s := upd_conn i (fun c => set_heartbeat (cn_last_ping_ns c) timestamp_ns (if measured then false else cn_awaiting_pong c) c) s in
    Some (kConsumed, false, with_diag (count_pong (if measured then Some (timestamp_ns - cn_last_ping_ns c) else None) (sv_diag s)) s)
  else Some (kProtocolError, true, s).

(** The bytes behind the consumed frame move to the front of the buffer. *)
Definition discard_frame (i frame_size : Z) (s : Server) : option Server :=
  let c := conn s i in
  let remaining := u64 (cn_read_size c - frame_size) in
  buf ← (if negb (remaining =? 0) then
           moved ← slice (cn_read_buffer c) frame_size remaining; memcpy (cn_read_buffer c) 0 moved
         else Some (cn_read_buffer c));
  Some (upd_conn i (set_input (u16 remaining) (cn_fragmented_data c) buf) s).

Definition consume_frame (i timestamp_ns : Z) (s : Server) : option (FrameResult * Server) :=
  let c := conn s i in
  r ← frame (cn_read_buffer c) (cn_read_size c) (cn_fragmented_data c) (mkFrame 0 0 0 0);
  let '(result, buffer, state, parsed) := r in
  let s := upd_conn i (set_input (cn_read_size c) state buffer) s in
  if negb (bool_decide (result = kConsumed)) then Some (result, s)
  else
    let opcode := fr_opcode parsed in
    let control := negb (Z.land opcode 8 =? 0) in
    payload ← slice buffer (fr_payload_offset parsed) (fr_payload_size parsed);
    answered ← (if control then answer_control i opcode payload timestamp_ns s else Some (kConsumed, false, s));
    let '(result, returned, s) := answered in
    if returned : bool then Some (result, s)
    else
      s ← discard_frame i (fr_size parsed) s;
      Some (kConsumed, s).

(** The inner loop of [receive]: the early return, or go on to [recv]. *)
Fixpoint consume_all (fuel : nat) (i timestamp_ns : Z) (s : Server) : option (option bool * Server) :=
  match fuel with
  | O => None
  | S fuel =>
      r ← consume_frame i timestamp_ns s;
      let '(result, s) := r in
      let closing code := (r ← close_with_code i code s; Some (Some (fst r), snd r)) in
      match result with
      | kConsumed =>
          if (cn_fd (conn s i) <? 0) || cn_close_after_flush (conn s i) then Some (Some true, s)
          else consume_all fuel i timestamp_ns s
      | kProtocolError => closing 1002
      | kInvalidUtf8 => closing 1007
      | kMessageTooLarge => closing 1009
      | kIncomplete => Some (None, s)
      end
  end.

(** The bytes [recv] stores behind those of the buffer. *)
Definition store_received (i : Z) (bytes : list Z) (s : Server) : option Server :=
  let c := conn s i in
  buf ← memcpy (cn_read_buffer c) (cn_read_size c) bytes;
  Some (upd_conn i (set_input (u16 (cn_read_size c + Z.of_nat (length bytes))) (cn_fragmented_data c) buf) s).

(** The passes of [receive]; [recvs] are the outcomes of the [recv] calls in
    order (a call beyond them would block), [inbox] the unread bytes of the
    socket, of which the rest is returned. *)
Fixpoint receive_passes (passes : nat) (i timestamp_ns : Z) (recvs : list recv_outcome) (inbox : list Z) (s : Server)
    : option (bool * list Z * Server) :=
  match passes with
  | O => Some (true, inbox, s)
  | S passes =>
      r ← consume_all (S (Z.to_nat (cn_read_size (conn s i)))) i timestamp_ns s;
      let '(early, s) := r in
      match early with
      | Some b => Some (b, inbox, s)
      | None =>
          if cn_close_after_flush (conn s i) then Some (true, inbox, s)
          else if cn_read_size (conn s i) =? kReadBufferBytes then
            r ← close_with_code i 1009 s; Some (fst r, inbox, snd r)
          else
            let remaining := kReadBufferBytes - cn_read_size (conn s i) in
            match recvs with
            | RecvMax n :: recvs =>
                match inbox with
                | [] => Some (true, inbox, s)
                | _ :: _ =>
                    let count := Z.to_nat (Z.min (Z.max 1 n) remaining) in
                    s ← store_received i (take count inbox) s;
                    receive_passes passes i timestamp_ns recvs (drop count inbox) s
                end
            | RecvEof :: _ | RecvError :: _ => Some (false, inbox, close i s)
            | RecvIntr :: recvs => receive_passes passes i timestamp_ns recvs inbox s
            | RecvAgain :: _ | [] => Some (true, inbox, s)
            end
      end
  end.

Definition receive (i timestamp_ns : Z) (recvs : list recv_outcome) (inbox : list Z) (s : Server) : option (bool * list Z * Server) :=
  receive_passes 8 i timestamp_ns recvs inbox s.

(** ** Keep-alive *)
Definition service_keepalive (i timestamp_ns : Z) (sent : send_outcome) (s : Server) : option Server :=
  let c := conn s i in
  let pending := negb (cn_write_offset c =? cn_write_size c) in
  if cn_fd c <? 0 then Some s
  else if pending && (cn_write_blocked_since_ns c =? 0) then Some (snd (flush i timestamp_ns sent s))
  else if pending && negb (cn_write_blocked_since_ns c =? 0)
          && (kBackpressureCloseNs <=? u64 (timestamp_ns - cn_write_blocked_since_ns c)) then
    Some (close i (with_diag (count_slow (Some (u64 (timestamp_ns - cn_write_blocked_since_ns c))) (sv_diag s)) s))
  else if cn_close_after_flush c then Some s
  else if cn_awaiting_pong c then
    Some (if sv_pong_timeout_ns s <=? u64 (timestamp_ns - cn_last_ping_ns c) then close i s else s)
  else if (sv_ping_interval_ns s =? 0) || (u64 (timestamp_ns - cn_last_ping_ns c) <? sv_ping_interval_ns s) then Some s
  else
    r ← queue_frame i 0x09 [] s;
    if negb (fst r) then Some (close i (with_diag (count_slow None (sv_diag (snd r))) (snd r)))
    else
      let s := upd_conn i (fun c => set_heartbeat timestamp_ns (cn_last_pong_ns c) true c) (snd r) in
      Some (with_diag (count_ping (sv_diag s)) s).

(** ** Upgrades *)

(** [enqueue_upgrade], called by the HTTP thread; the admission lease and the
    compare-and-swap loop on [reserved_] are one step here. *)
Definition enqueue_upgrade (fd order_id : Z) (key : option (list Z)) (pre_read : option (list Z)) (pre_read_size : Z)
    (lease : bool) (s : Server) : option (UpgradeResult * Server) :=
  let reject r s := Some (r, with_counts (sv_active s) (sv_reserved s) (fd :: sv_closed s) s) in
  if fd <? 0 then Some (uInvalidKey, s)
  else
    decoded ← decode_websocket_key key (replicate 16 0);
    if negb (fst decoded) then reject uInvalidKey s
    else if (kMaxUpgradePreReadBytes <? pre_read_size) || (negb (pre_read_size =? 0) && bool_decide (pre_read = None)) then
      reject uInvalidUpgrade s
    else if negb lease then reject uQueueFull s
    else if max_connections s <=? sv_reserved s then reject uPoolExhausted s
    else
      let s := with_counts (sv_active s) (u32 (sv_reserved s + 1)) (sv_closed s) s in
      key ← slice (default [] key) 0 kWebSocketKeyBytes;
      bytes ← (if negb (pre_read_size =? 0) then slice (default [] pre_read) 0 pre_read_size else Some []);
      if kUpgradeQueueCapacity <=? Z.of_nat (length (sv_upgrades s)) then
        reject uQueueFull (with_counts (sv_active s) (u32 (sv_reserved s - 1)) (sv_closed s) s)
      else Some (uAccepted, with_upgrades (sv_upgrades s ++ [mkUpgrade fd order_id (key ++ [0]) bytes]) s).

Definition close_pending_upgrade (u : Upgrade) (s : Server) : Server :=
  with_counts (sv_active s) (u32 (sv_reserved s - 1)) (if 0 <=? up_fd u then up_fd u :: sv_closed s else sv_closed s) s.

(** The first free slot of the pool. *)
Definition free_slot (s : Server) : option (nat * Connection) := list_find (fun c => (cn_fd c <? 0) = true) (sv_connections s).

Definition upgrade_response (accept : list Z) : list Z :=
  bytes_of_string "HTTP/1.1 101 Switching Protocols"%str ++ [13; 10] ++
  bytes_of_string "Upgrade: websocket"%str ++ [13; 10] ++
  bytes_of_string "Connection: Upgrade"%str ++ [13; 10] ++
  bytes_of_string "Sec-WebSocket-Accept: "%str ++ accept ++ [13; 10; 13; 10].

(** [accept_upgrade]; [nonblocking] is the result of [make_nonblocking], [now]
    and [now2] the two readings of the clock.  [snprintf] stops at the NUL of
    the accept string. *)
Definition accept_upgrade (u : Upgrade) (nonblocking : bool) (now now2 : Z) (recvs : list recv_outcome) (inbox : list Z) (s : Server)
    : option (list Z * Server) :=
  if up_fd u <? 0 then Some (inbox, close_pending_upgrade u s)
  else match free_slot s with
  | None => Some (inbox, close_pending_upgrade u s)
  | Some (slot, _) =>
      accept ← make_accept (Some (up_key u));
      if negb (fst accept && nonblocking) then Some (inbox, close_pending_upgrade u s)
      else
        let i := Z.of_nat slot in
        let fresh := mkConn (up_fd u) (up_order_id u) now now 0 0 0 0 kNoSubscriptionBucket (-1) (-1) false false fragment_init false
                       (cn_read_buffer conn_init) (cn_write_buffer conn_init) in
        let s := upd_conn i (fun _ => fresh) s in
        s ← (if negb (Z.of_nat (length (up_pre_read u)) =? 0) then
               buf ← memcpy (cn_read_buffer fresh) 0 (up_pre_read u);
               Some (upd_conn i (set_input (Z.of_nat (length (up_pre_read u))) fragment_init buf) s)
             else Some s);
        let s := with_counts (u32 (sv_active s + 1)) (sv_reserved s) (sv_closed s) s in
        let '(registered, s) := register_connection_io i s in
        if negb registered then Some (inbox, close i s)
        else
          let '(subscribed, s) := subscribe i s in
          if negb subscribed then Some (inbox, close i s)
          else
            let response := upgrade_response (take (Z.to_nat kAcceptBytes) (snd accept)) in
            if 192 <=? Z.of_nat (length response) then Some (inbox, close i s)
            else
              r ← queue_bytes i response s;
              if negb (fst r) then Some (inbox, close i (snd r))
              else if negb (cn_read_size (conn (snd r) i) =? 0) then
                r ← receive i now2 recvs inbox (snd r); Some (snd (fst r), snd r)
              else Some (inbox, snd r)
  end.

(** ** Broadcast *)

(** The walk along the subscriber list; [fanout] counts the queued frames and
    [closed_at] is the clock read when a frame does not fit. *)
Fixpoint broadcast_loop (fuel : nat) (connection_index : Z) (order_id : Z) (payload : list Z) (closed_at : Z -> Z) (fanout : Z)
    (s : Server) : option (Z * Server) :=
  if connection_index <? 0 then Some (fanout, s)
  else match fuel with
  | O => None
  | S fuel =>
      let c := conn s connection_index in
      let next := cn_subscription_next c in
      if (cn_fd c <? 0) || cn_close_after_flush c || negb (cn_order_id c =? order_id) then
        broadcast_loop fuel next order_id payload closed_at fanout s
      else
        r ← queue_frame connection_index 0x01 payload s;
        let '(queued, s) := r in
        if queued : bool then
          broadcast_loop fuel next order_id payload closed_at (u32 (fanout + 1)) (with_diag (count_frames 1 0 (sv_diag s)) s)
        else
          let s := with_diag (count_frames 0 1 (sv_diag s)) s in
          let now := closed_at connection_index in
          let since := cn_write_blocked_since_ns (conn s connection_index) in
          let s := if 0 <=? cn_fd (conn s connection_index) then
                     close connection_index
                       (with_diag (count_slow (Some (if negb (since =? 0) && (since <=? now) then now - since else 0)) (sv_diag s)) s)
                   else s in
          broadcast_loop fuel next order_id payload closed_at fanout s
  end.

(** [broadcast] of a fill published at [published_ns]; [completed_ns] is the
    clock read at its end. *)
Definition broadcast (event : FillEvent) (published_ns completed_ns : Z) (closed_at : Z -> Z) (s : Server) : option Server :=
  let '(formatted, (text, payload_size)) := format_fill_json (replicate 256 0) event in
  let payload := take (Z.to_nat payload_size) text in
  r ← (if formatted && negb (payload_size =? 0) then
         let bucket_index := find_subscription (fe_order_id event) s in
         let head := if bucket_index <? 0 then -1 else sb_head (bucket s bucket_index) in
         broadcast_loop (length (sv_connections s)) head (fe_order_id event) payload closed_at 0 s
       else Some (0, s));
  let '(fanout, s) := r in
  let latency := if published_ns <=? completed_ns then completed_ns - published_ns else 0 in
  let completed := dg_completed_broadcasts (sv_diag s) in
  let s := with_samples (lset (Z.land completed kLatencySampleMask) latency (sv_latency_samples s)) s in
  Some (with_diag (count_fanout latency fanout (sv_diag s)) s).

(** ** Lifecycle *)
Fixpoint drop_upgrades (us : list Upgrade) (s : Server) : Server :=
  match us with [] => s | u :: us => drop_upgrades us (close_pending_upgrade u (with_upgrades us s)) end.

(** [start]; [running] is what the exchange returned, the other flags whether
    the storage is usable and the pipe and the thread could be created.  A null
    pool is an empty one. *)
Definition start (n : nat) (running storage_ok pipe_ok thread_ok : bool) (s : Server) : bool * Server :=
  if running then (false, s)
  else if negb storage_ok then (false, drop_upgrades (sv_upgrades s) s)
  else
    let s := with_subscriptions (replicate (Z.to_nat kSubscriptionBuckets) bucket_init) (with_connections (replicate n conn_init) s) in
    let s := with_samples (replicate 1024 0) s in
    if negb pipe_ok then
      let s := with_connections [] s in (false, drop_upgrades (sv_upgrades s) s)
    else
      let s := with_poll_fds (replicate (length (sv_poll_fds s)) (-1, 0)) s in
      if negb thread_ok then
        let s := with_connections [] s in (false, drop_upgrades (sv_upgrades s) s)
      else (true, s).

(** [stop], from the point where the producers are drained and the worker is
    joined. *)
Definition stop (s : Server) : Server :=
  let s := foldl (fun s i => close i s) s (zrange 0 (length (sv_connections s))) in
  let s := drop_upgrades (sv_upgrades s) s in
  let s := with_poll_fds (replicate (length (sv_poll_fds s)) (-1, 0)) (with_connections [] s) in
  with_counts 0 0 (sv_closed s) s.

End server.

(** A server as it is constructed, and after its first [start]. *)
Definition server_new (ping_interval pong_timeout : Z) : Server :=
  mkServer [] (replicate (Z.to_nat kSubscriptionBuckets) bucket_init) (replicate (S (Z.to_nat kWebSocketConnections)) (0, 0)) 0 0 diag_init
    (replicate 1024 0) ping_interval pong_timeout [] [].
Definition server_start (n : nat) (ping_interval pong_timeout : Z) : Server :=
  snd (server.start n false true true true (server_new ping_interval pong_timeout)).
