(* ===== verification/WsConn.v ===== *)
(** * One connection: its buffers and the frames it exchanges

    What the worker's operations do to a connection's output and input buffers,
    seen as byte queues, and that they touch nothing else. *)
From Stdlib Require Import ZArith Lia ZifyBool.
From S2P Require Import Prelude Bytes WsUtf8 WsFrame WsKey WsFill WsServer.

(** ** The pool *)
Lemma in_pool_iff s i : in_pool s i = true <-> 0 <= i < max_connections s.
Proof. unfold in_pool. lia. Qed.

Lemma max_connections_upd i f s : max_connections (upd_conn i f s) = max_connections s.
Proof. unfold max_connections, upd_conn, with_connections. cbn. by rewrite length_lset. Qed.

Lemma max_connections_bucket b x s : max_connections (upd_bucket b x s) = max_connections s.
Proof. done. Qed.

Lemma in_pool_upd i j f s : in_pool (upd_conn i f s) j = in_pool s j.
Proof. unfold in_pool. by rewrite max_connections_upd. Qed.

Lemma conn_upd_eq i f s : in_pool s i = true -> conn (upd_conn i f s) i = f (conn s i).
Proof. intros Hi%in_pool_iff. unfold conn at 1, upd_conn. cbn. apply lget_lset_eq. unfold max_connections in Hi. lia. Qed.

Lemma conn_upd_ne i j f s : i <> j -> conn (upd_conn i f s) j = conn s j.
Proof. intros Hij. unfold conn at 1, upd_conn. cbn. by apply lget_lset_ne. Qed.

Lemma conn_poll l s j : conn (with_poll_fds l s) j = conn s j.
Proof. done. Qed.

Lemma conn_diag d s j : conn (with_diag d s) j = conn s j.
Proof. done. Qed.

(** ** What an operation on one connection leaves alone *)

(** Nothing but the buffers, timers and flags of connection [i], the poll set
    and the counters differ. *)
Record local (i : Z) (s s' : Server) : Prop := {
  lo_max : max_connections s' = max_connections s;
  lo_subscriptions : sv_subscriptions s' = sv_subscriptions s;
  lo_active : sv_active s' = sv_active s;
  lo_reserved : sv_reserved s' = sv_reserved s;
  lo_closed : sv_closed s' = sv_closed s;
  lo_upgrades : sv_upgrades s' = sv_upgrades s;
  lo_times : sv_ping_interval_ns s' = sv_ping_interval_ns s /\ sv_pong_timeout_ns s' = sv_pong_timeout_ns s;
  lo_others : forall j, j <> i -> conn s' j = conn s j;
  lo_fd : cn_fd (conn s' i) = cn_fd (conn s i);
  lo_order : cn_order_id (conn s' i) = cn_order_id (conn s i);
  lo_links : cn_subscription_bucket (conn s' i) = cn_subscription_bucket (conn s i) /\
             cn_subscription_prev (conn s' i) = cn_subscription_prev (conn s i) /\
             cn_subscription_next (conn s' i) = cn_subscription_next (conn s i)
}.

Lemma local_refl i s : local i s s.
Proof. by constructor. Qed.

Lemma local_trans i s1 s2 s3 : local i s1 s2 -> local i s2 s3 -> local i s1 s3.
Proof.
  intros [] []. split; try congruence; [destruct lo_times0, lo_times1; split; congruence| |
    destruct lo_links0 as (? & ? & ?), lo_links1 as (? & ? & ?); repeat split; congruence].
  intros j Hj. rewrite lo_others1 by done. by apply lo_others0.
Qed.

Lemma local_in_pool i s s' j : local i s s' -> in_pool s' j = in_pool s j.
Proof. intros []. unfold in_pool. by rewrite lo_max0. Qed.

(** An update that keeps a connection's identity and links. *)
Definition keeps_identity (f : Connection -> Connection) : Prop :=
  forall c, cn_fd (f c) = cn_fd c /\ cn_order_id (f c) = cn_order_id c /\ cn_subscription_bucket (f c) = cn_subscription_bucket c /\
    cn_subscription_prev (f c) = cn_subscription_prev c /\ cn_subscription_next (f c) = cn_subscription_next c.

Lemma local_upd i f s : in_pool s i = true -> keeps_identity f -> local i s (upd_conn i f s).
Proof.
  intros Hi Hf. destruct (Hf (conn s i)) as (H1 & H2 & H3 & H4 & H5).
  split; try done; [apply max_connections_upd|intros j Hj; by apply conn_upd_ne|..]; by rewrite conn_upd_eq.
Qed.

Lemma local_poll i l s : local i s (with_poll_fds l s).
Proof. by split. Qed.

Lemma local_diag i d s : local i s (with_diag d s).
Proof. by split. Qed.

Lemma local_refresh i j s : local i s (server.refresh_poll_interest j s).
Proof. unfold server.refresh_poll_interest. case_if; [apply local_refl|apply local_poll]. Qed.

Lemma conn_refresh i j s : conn (server.refresh_poll_interest i s) j = conn s j.
Proof. unfold server.refresh_poll_interest. by case_if. Qed.

#[export] Hint Resolve local_refl local_upd local_poll local_diag local_refresh : luv.

Lemma set_write_interest_local i enabled s : in_pool s i = true ->
  let '(ok, s') := server.set_write_interest i enabled s in
  local i s s' /\ ok = negb (cn_fd (conn s i) <? 0) /\
  exists w, conn s' i = set_flags (cn_close_after_flush (conn s i)) w (conn s i).
Proof.
  intros Hi. unfold server.set_write_interest. rewrite Hi, orb_false_r.
  assert (conn s i = set_flags (cn_close_after_flush (conn s i)) (cn_write_waiting (conn s i)) (conn s i)) as Hsame by by destruct (conn s i).
  destruct (cn_fd (conn s i) <? 0) eqn:Efd; [by split; [apply local_refl|]; split; [|eexists]|].
  case_if; [by split; [apply local_refl|]; split; [|eexists]|].
  split; [|split; [done|]].
  - eapply local_trans; [apply local_refresh|apply local_upd; [|by intros c]]. by rewrite (local_in_pool i s) by apply local_refresh.
  - rewrite conn_upd_eq by (by rewrite (local_in_pool i s) by apply local_refresh). rewrite conn_refresh. by eexists.
Qed.

(** ** Closing *)

Lemma max_connections_unsubscribe i s : max_connections (server.unsubscribe i s) = max_connections s.
Proof.
  unfold server.unsubscribe. case_if; [done|]. rewrite max_connections_upd.
  repeat (case_if; rewrite ?max_connections_upd, ?max_connections_bucket; try done).
Qed.

Lemma max_connections_close i s : max_connections (server.close i s) = max_connections s.
Proof.
  unfold server.close. case_if; [done|].
  change (max_connections (upd_conn i (fun _ => conn_init) (server.clear_poll_interest i (server.unsubscribe i s))) = max_connections s).
  rewrite max_connections_upd. unfold server.clear_poll_interest. case_if; [apply max_connections_unsubscribe|].
  change (max_connections (upd_conn i (fun c => set_flags (cn_close_after_flush c) false c) (server.unsubscribe i s)) = max_connections s).
  rewrite max_connections_upd. apply max_connections_unsubscribe.
Qed.

(** Closing leaves the upgrade queue alone. *)
Lemma upgrades_close i s : sv_upgrades (server.close i s) = sv_upgrades s.
Proof.
  assert (sv_upgrades (server.unsubscribe i s) = sv_upgrades s) as Hu.
  { unfold server.unsubscribe. case_if; [done|]. cbv zeta. repeat (case_if; try done). }
  unfold server.close. case_if; [done|]. cbn [sv_upgrades with_diag with_counts upd_conn with_connections].
  unfold server.clear_poll_interest. by case_if.
Qed.

(** A closed slot is as good as new. *)
Lemma conn_close i s : in_pool s i = true -> 0 <= cn_fd (conn s i) -> conn (server.close i s) i = conn_init.
Proof.
  intros Hi Hfd. unfold server.close. case_if; [lia|].
  match goal with |- conn (with_diag _ (with_counts _ _ _ ?t)) i = _ => change (conn t i = conn_init) end.
  rewrite conn_upd_eq; [done|]. revert Hi. unfold in_pool.
  match goal with |- context [max_connections (with_counts _ _ _ ?t)] => change (max_connections (with_counts _ _ _ t)) with (max_connections t) end.
  assert (max_connections (server.clear_poll_interest i (server.unsubscribe i s)) = max_connections s) as ->; [|done].
  rewrite <- (max_connections_unsubscribe i s). unfold server.clear_poll_interest. case_if; [done|]. apply max_connections_upd.
Qed.

(** ** The output buffer as a byte queue *)
Record out_ok (c : Connection) : Prop := {
  oo_range : 0 <= cn_write_offset c <= cn_write_size c /\ cn_write_size c <= kWriteBufferBytes;
  oo_length : Z.of_nat (length (cn_write_buffer c)) = kWriteBufferBytes
}.

(** The bytes queued and not yet sent. *)
Definition unsent (c : Connection) : list Z :=
  take (Z.to_nat (cn_write_size c - cn_write_offset c)) (drop (Z.to_nat (cn_write_offset c)) (cn_write_buffer c)).

Lemma unsent_length c : out_ok c -> Z.of_nat (length (unsent c)) = cn_write_size c - cn_write_offset c.
Proof. intros [H1 H2]. unfold unsent. rewrite length_take, length_drop. lia. Qed.

Lemma pending_bytes_eq c : out_ok c -> server.pending_bytes c = Z.of_nat (length (unsent c)).
Proof.
  intros Ho. rewrite unsent_length by done. destruct Ho as [H1 _]. unfold server.pending_bytes. apply wrap_u_id.
  unfold kWriteBufferBytes in *. unfold in_u. lia.
Qed.

(** The output fields, after an operation that changes no others. *)
Definition same_but_output (c c' : Connection) : Prop := c' = set_output (cn_write_offset c') (cn_write_size c') (cn_write_buffer c') c.

Lemma set_output_fields o z b c : cn_write_offset (set_output o z b c) = o /\ cn_write_size (set_output o z b c) = z /\
  cn_write_buffer (set_output o z b c) = b.
Proof. done. Qed.

Lemma same_but_output_trans c1 c2 c3 : same_but_output c1 c2 -> same_but_output c2 c3 -> same_but_output c1 c3.
Proof. unfold same_but_output. intros -> ->. done. Qed.

Lemma same_but_output_refl c : same_but_output c c.
Proof. by destruct c. Qed.

Lemma memcpy_at (dst bs : list Z) off : 0 <= off -> off + Z.of_nat (length bs) <= Z.of_nat (length dst) ->
  memcpy dst off bs = Some (take (Z.to_nat off) dst ++ bs ++ drop (Z.to_nat off + length bs) dst).
Proof. intros H1 H2. rewrite <- (Z2Nat.id off) at 1 by lia. apply memcpy_spec. lia. Qed.

Lemma queue_bytes_spec i bytes s :
  in_pool s i = true -> out_ok (conn s i) ->
  if Z.of_nat (length (unsent (conn s i))) + Z.of_nat (length bytes) <=? kWriteBufferBytes then
    exists s', server.queue_bytes i bytes s = Some (true, s') /\ local i s s' /\ same_but_output (conn s i) (conn s' i) /\
      out_ok (conn s' i) /\ unsent (conn s' i) = unsent (conn s i) ++ bytes /\ sv_diag s' = sv_diag s
  else server.queue_bytes i bytes s = Some (false, s).
Proof.
  intros Hi Ho. unfold server.queue_bytes. pose proof (unsent_length _ Ho) as Hlen. rewrite pending_bytes_eq by done.
  destruct Ho as [[Hr1 Hr2] Hl]. unfold kWriteBufferBytes in *. set (c := conn s i) in *.
  destruct (Z.of_nat (length (unsent c)) + Z.of_nat (length bytes) <=? 4096) eqn:Efit.
  2:{ destruct (Z.of_nat (length bytes) =? 0) eqn:E0; [lia|]. case_if; [done|]. by case_if; [|lia]. }
  destruct (Z.of_nat (length bytes) =? 0) eqn:E0.
  { assert (bytes = []) as -> by (destruct bytes; [done|cbn in E0; lia]). exists s. rewrite app_nil_r.
    split; [done|]. split; [apply local_refl|]. split; [apply same_but_output_refl|]. split; [by split|done]. }
  case_if; [lia|]. case_if; [lia|].
  assert (exists buf, (if negb (cn_write_offset c =? 0) && negb (Z.of_nat (length (unsent c)) =? 0) then
       moved ← slice (cn_write_buffer c) (cn_write_offset c) (Z.of_nat (length (unsent c))); memcpy (cn_write_buffer c) 0 moved
     else Some (cn_write_buffer c)) = Some buf /\ Z.of_nat (length buf) = 4096 /\ take (length (unsent c)) buf = unsent c)
    as (buf & -> & Hbl & Hbt).
  { destruct (negb (cn_write_offset c =? 0)) eqn:E1; cbn [andb].
    - destruct (Z.of_nat (length (unsent c)) =? 0) eqn:E2; cbn [negb].
      + exists (cn_write_buffer c). split; [done|]. split; [done|]. destruct (unsent c); [by rewrite take_0|cbn in E2; lia].
      + assert (slice (cn_write_buffer c) (cn_write_offset c) (Z.of_nat (length (unsent c))) = Some (unsent c)) as ->.
        { unfold slice. rewrite Hl, Hlen. unfold unsent. case_if; [done|lia]. }
        cbn [mbind option_bind]. rewrite memcpy_at by lia. eexists. split; [done|]. change (Z.to_nat 0) with 0%nat.
        rewrite take_0. cbn [app Nat.add]. split; [rewrite length_app, length_drop; lia|]. by rewrite take_app_length.
    - exists (cn_write_buffer c). split; [done|]. split; [done|]. unfold unsent at 2.
      assert (cn_write_offset c = 0) as -> by lia. change (Z.to_nat 0) with 0%nat. rewrite drop_0. f_equal. lia. }
  cbn [mbind option_bind]. rewrite !wrap_u_id by (unfold in_u; lia). rewrite memcpy_at by lia. cbn [mbind option_bind]. rewrite Nat2Z.id, Hbt.
  set (buf' := unsent c ++ bytes ++ _). eexists. split; [done|].
  set (s1 := upd_conn i _ s).
  assert (conn s1 i = set_output 0 (Z.of_nat (length (unsent c)) + Z.of_nat (length bytes)) buf' c) as Hc1 by by apply conn_upd_eq.
  split; [apply (local_trans i s s1); [by apply local_upd|apply local_refresh]|]. rewrite conn_refresh, Hc1.
  split; [done|]. split; [split; cbn [cn_write_offset cn_write_size cn_write_buffer set_output]; unfold kWriteBufferBytes; [lia|unfold buf'; rewrite !length_app, length_drop; lia]|].
  split; [|by unfold server.refresh_poll_interest; case_if].
  unfold unsent at 1. cbn [cn_write_offset cn_write_size cn_write_buffer set_output]. change (Z.to_nat 0) with 0%nat. rewrite drop_0, Z.sub_0_r.
  unfold buf'. rewrite app_assoc. rewrite <- Nat2Z.inj_add, Nat2Z.id, <- length_app. by rewrite take_app_length.
Qed.

(** A server frame: header and payload. *)
Definition server_frame (opcode : Z) (payload : list Z) : list Z :=
  server.server_header opcode (Z.of_nat (length payload)) ++ payload.

Lemma server_header_length opcode n : (2 <= length (server.server_header opcode n) <= 4)%nat.
Proof. unfold server.server_header. case_if; cbn; lia. Qed.

Definition opcode_ok (opcode : Z) : Prop := 0 <= opcode < 16.

Lemma opcode_ok_bits opcode : opcode_ok opcode -> (Z.land opcode 0xF0 =? 0) = true.
Proof.
  intros H. assert (Hall : forallb (fun o => Z.land o 0xF0 =? 0) (zrange 0 16) = true) by by vm_compute.
  rewrite forallb_forall in Hall. apply Hall, list_elem_of_In, elem_of_zrange. unfold opcode_ok in H. lia.
Qed.

(** A frame is queued whole or not at all. *)
Lemma queue_frame_spec i opcode payload s :
  in_pool s i = true -> out_ok (conn s i) -> opcode_ok opcode -> Z.of_nat (length payload) <= kWriteBufferBytes ->
  if Z.of_nat (length (unsent (conn s i) ++ server_frame opcode payload)) <=? kWriteBufferBytes then
    exists s', server.queue_frame i opcode payload s = Some (true, s') /\ local i s s' /\ same_but_output (conn s i) (conn s' i) /\
      out_ok (conn s' i) /\ unsent (conn s' i) = unsent (conn s i) ++ server_frame opcode payload /\ sv_diag s' = sv_diag s
  else server.queue_frame i opcode payload s = Some (false, s).
Proof.
  intros Hi Ho Hop Hp. unfold server.queue_frame. rewrite opcode_ok_bits by done. rewrite pending_bytes_eq by done. unfold kWriteBufferBytes in *.
  assert ((negb true || (0xFFFF <? Z.of_nat (length payload))) = false) as -> by (cbn [negb orb]; lia).
  unfold server_frame. rewrite !length_app, !Nat2Z.inj_add.
  set (h := server.server_header opcode (Z.of_nat (length payload))). pose proof (server_header_length opcode (Z.of_nat (length payload))) as Hh. fold h in Hh.
  destruct (4096 <? Z.of_nat (length (unsent (conn s i))) + Z.of_nat (length h) + Z.of_nat (length payload)) eqn:E.
  { by case_if; [lia|]. }
  case_if; [|lia]. pose proof (queue_bytes_spec i h s Hi Ho) as H1. unfold kWriteBufferBytes in H1. case_if_in H1; [|lia].
  destruct H1 as (s1 & -> & Hl1 & Hs1 & Ho1 & Hu1 & Hd1). cbn [mbind option_bind fst snd].
  pose proof (queue_bytes_spec i payload s1) as H2. rewrite (local_in_pool i s s1 i Hl1) in H2. specialize (H2 Hi Ho1).
  rewrite Hu1, length_app, Nat2Z.inj_add in H2. unfold kWriteBufferBytes in H2. case_if_in H2; [|lia].
  destruct H2 as (s2 & -> & Hl2 & Hs2 & Ho2 & Hu2 & Hd2). exists s2. split; [done|]. split; [by eapply local_trans|].
  split; [by eapply same_but_output_trans|]. split; [done|]. split; [by rewrite Hu2, <- app_assoc|congruence].
Qed.

(** What [send] was given and took leaves the queue at its front. *)
Lemma unsent_advance c n since : out_ok c -> 0 <= n <= cn_write_size c - cn_write_offset c ->
  let c' := set_blocked since (set_output (cn_write_offset c + n) (cn_write_size c) (cn_write_buffer c) c) in
  out_ok c' /\ unsent c = take (Z.to_nat n) (unsent c) ++ unsent c'.
Proof.
  intros [H1 H2] Hn c'. split; [split; cbn; [lia|done]|]. rewrite <- (take_drop (Z.to_nat n) (unsent c)) at 1. f_equal. unfold unsent.
  cbn [cn_write_offset cn_write_size cn_write_buffer c' set_blocked set_output]. rewrite skipn_firstn_comm. rewrite drop_drop. f_equal; [lia|]. f_equal. lia.
Qed.

(** ** The input buffer *)
Record in_ok (c : Connection) : Prop := {
  io_range : 0 <= cn_read_size c <= kReadBufferBytes;
  io_length : Z.of_nat (length (cn_read_buffer c)) = kReadBufferBytes;
  io_bytes : bytes_ok (cn_read_buffer c)
}.

(** The bytes received and not yet consumed. *)
Definition unread (c : Connection) : list Z := take (Z.to_nat (cn_read_size c)) (cn_read_buffer c).

Lemma unread_length c : in_ok c -> Z.of_nat (length (unread c)) = cn_read_size c.
Proof. intros [H1 H2 _]. unfold unread. rewrite length_take. lia. Qed.

Lemma unread_bytes c : in_ok c -> bytes_ok (unread c).
Proof. intros [_ _ H]. by apply Forall_take. Qed.

(** The header parser sees the unread bytes only. *)
Lemma parse_header_take buffer size : 0 <= size <= Z.of_nat (length buffer) -> bytes_ok buffer ->
  parse_header (take (Z.to_nat size) buffer) size = parse_header buffer size.
Proof.
  intros Hs Hb. set (b := take (Z.to_nat size) buffer).
  assert (forall i, 0 <= i < size -> rd b i = rd buffer i) as Hag.
  { intros i Hi. unfold rd, b. case_if; [|done]. apply lookup_take_lt. lia. }
  assert (bytes_ok b) as Hbb by by apply Forall_take.
  destruct (parse_header_inv b size Hbb) as (h & H1 & _); [unfold b; rewrite length_take; lia|].
  destruct (parse_header_inv buffer size Hb) as (h' & H2 & _); [lia|]. rewrite H1, H2.
  destruct (decide (h = inl kIncomplete)) as [-> | Hn].
  - destruct (decide (h' = inl kIncomplete)) as [-> | Hn']; [done|].
    rewrite (parse_header_mono buffer size b size h') in H1 by (done || lia). done.
  - rewrite (parse_header_mono b size buffer size h) in H2; [done|intros; symmetry; by apply Hag|lia|done..].
Qed.

(** The answer a consumed frame gets. *)
Definition reply (f : client_frame) : list Z :=
  if cf_opcode f =? 8 then server_frame 8 (cf_payload f)
  else if cf_opcode f =? 9 then server_frame 10 (cf_payload f) else [].

(** A connection between calls. *)
Record conn_ok (c : Connection) (a : assembly) : Prop := {
  co_fd : 0 <= cn_fd c;
  co_in : in_ok c;
  co_out : out_ok c;
  co_assembles : assembles (cn_fragmented_data c) a
}.

(** The connection was closed in the course of an operation on it. *)
Definition gone (i : Z) (s s' : Server) : Prop :=
  in_pool s i = true /\ 0 <= cn_fd (conn s i) /\ exists s1, local i s s1 /\ s' = server.close i s1.

Lemma gone_conn i s s' : gone i s s' -> conn s' i = conn_init.
Proof.
  intros (Hi & Hfd & s1 & Hl & ->). apply conn_close; [by rewrite (local_in_pool i s s1)|by rewrite (lo_fd _ _ _ Hl)].
Qed.

Lemma gone_close i s s1 : in_pool s i = true -> 0 <= cn_fd (conn s i) -> local i s s1 -> gone i s (server.close i s1).
Proof. intros Hi Hfd Hl. split; [done|]. split; [done|]. by exists s1. Qed.

Lemma gone_local i s0 s s' : local i s0 s -> gone i s s' -> gone i s0 s'.
Proof.
  intros Hl0 (Hi & Hfd & s1 & Hl & ->). split; [by rewrite <- (local_in_pool i s0 s)|]. split; [by rewrite <- (lo_fd _ _ _ Hl0)|].
  exists s1. split; [by eapply local_trans|done].
Qed.

Lemma spec_payload f : client_frame_ok f -> opcode_ok (cf_opcode f) /\ Z.of_nat (length (cf_payload f)) <= kWriteBufferBytes.
Proof.
  intros (Ho & _ & _ & _ & Hl & _). unfold kWriteBufferBytes, kMaxWebSocketMessageBytes, cf_length, opcode_ok in *.
  apply known_opcode_cases in Ho. lia.
Qed.

(** The answers to control frames, at the level of the queue. *)
Lemma answer_control_spec i f ts s a :
  in_pool s i = true -> conn_ok (conn s i) a -> client_frame_ok f -> 8 <= cf_opcode f ->
  exists returned s', server.answer_control i (cf_opcode f) (cf_payload f) ts s = Some (kConsumed, returned, s') /\
    if returned : bool then gone i s s'
    else local i s s' /\ out_ok (conn s' i) /\ unsent (conn s' i) = unsent (conn s i) ++ reply f /\
      cn_close_after_flush (conn s' i) = cn_close_after_flush (conn s i) || (cf_opcode f =? 8) /\
      cn_read_size (conn s' i) = cn_read_size (conn s i) /\ cn_read_buffer (conn s' i) = cn_read_buffer (conn s i) /\
      cn_fragmented_data (conn s' i) = cn_fragmented_data (conn s i).
Proof.
  intros Hi [Hfd Hin Hout Has] Hf H8. destruct (spec_payload f Hf) as [_ Hp]. pose proof Hf as (Ho & _). apply known_opcode_cases in Ho.
  unfold server.answer_control, reply.
  destruct (cf_opcode f =? 8) eqn:E8; [|destruct (cf_opcode f =? 9) eqn:E9].
  - pose proof (queue_frame_spec i 8 (cf_payload f) s Hi Hout ltac:(unfold opcode_ok; lia) Hp) as Hq. case_if_in Hq.
    + destruct Hq as (s1 & -> & Hl & Hs & Ho1 & Hu & _). cbn [mbind option_bind fst snd negb]. eexists false, _. split; [done|].
      rewrite conn_upd_eq by (by rewrite (local_in_pool i s s1)). split; [|].
      { eapply local_trans; [done|]. apply local_upd; [by rewrite (local_in_pool i s s1)|by intros c]. }
      split; [destruct Ho1; by split|]. split; [exact Hu|]. rewrite orb_true_r. split; [done|]. rewrite Hs. done.
    + rewrite Hq. cbn [mbind option_bind fst snd negb]. eexists true, _. split; [done|].
      apply gone_close; [done|done|apply local_diag].
  - pose proof (queue_frame_spec i 10 (cf_payload f) s Hi Hout ltac:(unfold opcode_ok; lia) Hp) as Hq. case_if_in Hq.
    + destruct Hq as (s1 & -> & Hl & Hs & Ho1 & Hu & _). cbn [mbind option_bind fst snd negb]. eexists false, _. split; [done|].
      split; [done|]. split; [done|]. split; [done|]. rewrite orb_false_r. rewrite Hs. done.
    + rewrite Hq. cbn [mbind option_bind fst snd negb]. eexists true, _. split; [done|].
      apply gone_close; [done|done|apply local_diag].
  - assert (cf_opcode f = 10) as -> by lia. cbn [Z.eqb Pos.eqb]. eexists false, _. split; [done|].
    rewrite conn_diag, conn_upd_eq by done. rewrite app_nil_r, orb_false_r.
    split; [eapply local_trans; [|apply local_diag]; apply local_upd; [done|by intros c]|].
    split; [destruct Hout; by split|done].
Qed.

(** What is at the front of the unread bytes when they are refused. *)
Definition refused (a : assembly) (rest : list Z) (r : FrameResult) : Prop :=
  r <> kConsumed /\ r <> kIncomplete /\
  (parse_header rest (Z.of_nat (length rest)) = Some (inl r) \/
   exists f more, client_frame_ok f /\ rest = encode_frame f ++ more /\ (spec_frame a f).1 = r).

Definition waiting (rest : list Z) : Prop := parse_header rest (Z.of_nat (length rest)) = Some (inl kIncomplete).

(** Why an iteration of the parser stops. *)
Definition unread_then (r : FrameResult) (a : assembly) (rest : list Z) : Prop :=
  if decide (r = kIncomplete) then waiting rest else refused a rest r.

Lemma plain_frame_bytes f : client_frame_ok f -> bytes_ok (plain_frame f).
Proof.
  intros (Ho & Hk & Hk4 & Hp & Hl & _). unfold plain_frame, frame_header. unfold kMaxWebSocketMessageBytes in Hl.
  assert (0 <= cf_length f) by (unfold cf_length; lia).
  constructor; [by apply first_byte|]. apply Forall_app. split; [|done]. apply Forall_app. split; [|done].
  unfold length_bytes. case_if; repeat constructor; unfold in_u; change (2 ^ 8) with 256; try lia;
    Z.to_euclidean_division_equations; lia.
Qed.

(** The front of the buffer without the consumed frame. *)
Lemma discard_frame_spec i f more s a :
  in_pool s i = true -> 0 <= cn_fd (conn s i) -> out_ok (conn s i) -> assembles (cn_fragmented_data (conn s i)) a ->
  client_frame_ok f -> cn_read_buffer (conn s i) = plain_frame f ++ more -> bytes_ok more ->
  Z.of_nat (length (cn_read_buffer (conn s i))) = kReadBufferBytes ->
  Z.of_nat (length (encode_frame f)) <= cn_read_size (conn s i) <= kReadBufferBytes ->
  exists s', server.discard_frame i (Z.of_nat (length (encode_frame f))) s = Some s' /\ local i s s' /\ conn_ok (conn s' i) a /\
    unread (conn s' i) = take (Z.to_nat (cn_read_size (conn s i)) - length (encode_frame f)) more /\
    unsent (conn s' i) = unsent (conn s i) /\ cn_close_after_flush (conn s' i) = cn_close_after_flush (conn s i).
Proof.
  intros Hi Hfd Hout Has Hf Hbuf Hmore Hlen Hsz. unfold server.discard_frame, kReadBufferBytes in *. set (c := conn s i) in *.
  assert (length (plain_frame f) = length (encode_frame f)) as Hpl by by unfold plain_frame, encode_frame; rewrite !length_app, mask_from_length.
  pose proof Hf as (_ & Hk & Hk4 & Hp & _).
  assert (bytes_ok (plain_frame f)) as Hpb by by apply plain_frame_bytes.
  rewrite (wrap_u_id 64) by (unfold in_u; lia). set (rem := cn_read_size c - Z.of_nat (length (encode_frame f))) in *.
  assert (Z.to_nat (cn_read_size c) - length (encode_frame f) = Z.to_nat rem)%nat as -> by lia.
  assert (exists buf, (if negb (rem =? 0) then moved ← slice (cn_read_buffer c) (Z.of_nat (length (encode_frame f))) rem; memcpy (cn_read_buffer c) 0 moved
    else Some (cn_read_buffer c)) = Some buf /\ Z.of_nat (length buf) = 2048 /\ bytes_ok buf /\ take (Z.to_nat rem) buf = take (Z.to_nat rem) more)
    as (buf & -> & Hbl & Hbb & Hbt).
  { assert (bytes_ok (cn_read_buffer c)) as Hcb by (rewrite Hbuf; by apply Forall_app).
    rewrite Hbuf in Hlen. rewrite length_app in Hlen. destruct (rem =? 0) eqn:E0; cbn [negb].
    - exists (cn_read_buffer c). rewrite Hbuf, length_app. assert (Z.to_nat rem = 0%nat) as -> by lia. rewrite !take_0. repeat split; [lia|by rewrite <- Hbuf].
    - assert (slice (cn_read_buffer c) (Z.of_nat (length (encode_frame f))) rem = Some (take (Z.to_nat rem) more)) as ->.
      { unfold slice. rewrite Hbuf, length_app. case_if; [|lia]. rewrite Nat2Z.id, <- Hpl, drop_app_length. done. }
      cbn [mbind option_bind]. rewrite memcpy_at by (rewrite ?Hbuf, ?length_app, ?length_take; lia). eexists. split; [done|].
      change (Z.to_nat 0) with 0%nat. rewrite take_0. cbn [app Nat.add]. rewrite !length_app, !length_drop, !length_take, Hbuf, length_app.
      split; [lia|]. split; [apply Forall_app; split; [by apply Forall_take|]; apply Forall_drop; by rewrite <- Hbuf|].
      rewrite take_app_ge by (rewrite length_take; lia). rewrite length_take. 
      replace (Z.to_nat rem - Z.to_nat rem `min` length more)%nat with 0%nat by lia. by rewrite take_0, app_nil_r. }
  cbn [mbind option_bind]. rewrite wrap_u_id by (unfold in_u; lia). eexists. split; [done|].
  split; [apply local_upd; [done|by intros ?]|]. rewrite conn_upd_eq by done. fold c.
  split; [split; [done| |destruct Hout; by split|done]|].
  { split; cbn [cn_read_size cn_read_buffer set_input]; unfold kReadBufferBytes; [lia|done..]. }
  split; [exact Hbt|done].
Qed.

(** One iteration: refused or waiting, or a frame consumed. *)
Lemma consume_frame_spec i ts s a :
  in_pool s i = true -> conn_ok (conn s i) a ->
  exists r s', server.consume_frame i ts s = Some (r, s') /\
    ((r <> kConsumed /\ local i s s' /\ conn_ok (conn s' i) a /\ unread_then r a (unread (conn s i)) /\
      unsent (conn s' i) = unsent (conn s i) /\ cn_close_after_flush (conn s' i) = cn_close_after_flush (conn s i) /\
      (r = kIncomplete -> unread (conn s' i) = unread (conn s i))) \/
     (r = kConsumed /\ exists f rest a', client_frame_ok f /\ unread (conn s i) = encode_frame f ++ rest /\ spec_frame a f = (kConsumed, a') /\
      (gone i s s' \/
       (local i s s' /\ conn_ok (conn s' i) a' /\ unread (conn s' i) = rest /\ unsent (conn s' i) = unsent (conn s i) ++ reply f /\
        cn_close_after_flush (conn s' i) = cn_close_after_flush (conn s i) || (cf_opcode f =? 8))))).
Proof.
  intros Hi [Hfd Hin Hout Has]. pose proof Hin as [Hr Hl Hb]. unfold server.consume_frame. set (c := conn s i) in *.
  destruct (frame_cases (cn_read_buffer c) (cn_read_size c) (cn_fragmented_data c) (mkFrame 0 0 0 0) a Hb ltac:(lia) Has)
    as [(r & Hne & Hp & ->) | (f & more & state' & Hf & Hbuf & Hsz & -> & Has')]; cbn [mbind option_bind].
  - rewrite bool_decide_eq_false_2 by done. cbn [negb]. eexists r, _. split; [done|]. left. split; [done|].
    split; [apply local_upd; [done|by intros ?]|]. rewrite conn_upd_eq by done. fold c.
    split; [by split; [|split|destruct Hout; split|]|]. split; [|by repeat split].
    assert (parse_header (unread c) (Z.of_nat (length (unread c))) = Some (inl r)) as Hp'.
    { rewrite unread_length by done. unfold unread. by rewrite parse_header_take by (done || lia). }
    unfold unread_then. destruct (decide (r = kIncomplete)) as [-> | Hni]; [done|]. split; [done|]. split; [done|by left].
  - pose proof Hf as (Hop & Hk & Hk4 & Hpb & _). destruct (encode_frame_length f Hk4) as (HlenE & _ & _).
    assert (length (plain_frame f) = length (encode_frame f)) as Hpl by by unfold plain_frame, encode_frame; rewrite !length_app, mask_from_length.
    assert (bytes_ok more) as Hmore by (rewrite Hbuf in Hb; by apply Forall_app in Hb as [_ ?]).
    assert (bytes_ok (plain_frame f)) as Hplb by by apply plain_frame_bytes.
    assert (unread c = encode_frame f ++ take (Z.to_nat (cn_read_size c) - length (encode_frame f)) more) as Hun.
    { unfold unread. rewrite Hbuf, take_app_ge by lia. done. }
    set (s1 := upd_conn i _ s).
    assert (conn s1 i = set_input (cn_read_size c) state' (plain_frame f ++ more) c) as Hc1 by by apply conn_upd_eq.
    assert (local i s s1) as Hl1 by (apply local_upd; [done|by intros ?]).
    assert (in_pool s1 i = true) as Hi1 by by rewrite (local_in_pool i s s1).
    assert (Z.of_nat (length (plain_frame f ++ more)) = kReadBufferBytes) as Hlen1 by (rewrite <- Hl, Hbuf, !length_app; lia).
    destruct (spec_frame a f) as [r a'] eqn:Espec. cbn [fst snd] in *.
    destruct (decide (r = kConsumed)) as [-> | Hne].
    + rewrite bool_decide_eq_true_2 by done. cbn [negb fr_opcode fr_payload_offset fr_payload_size fr_size output_of].
      assert (slice (plain_frame f ++ more) (header_size_of f + 4) (cf_length f) = Some (cf_payload f)) as ->.
      { unfold plain_frame. rewrite <- app_assoc. apply slice_app; [|done]. rewrite frame_header_length by done. unfold header_size_of. lia. }
      cbn [mbind option_bind].
      assert (conn_ok (conn s1 i) a') as Hok1 by (rewrite Hc1; split; [done|split; [done|done|by apply Forall_app]|destruct Hout; by split|done]).
      assert (exists returned s2, (if negb (Z.land (cf_opcode f) 8 =? 0) then server.answer_control i (cf_opcode f) (cf_payload f) ts s1
          else Some (kConsumed, false, s1)) = Some (kConsumed, returned, s2) /\
        if returned : bool then gone i s1 s2
        else local i s1 s2 /\ out_ok (conn s2 i) /\ unsent (conn s2 i) = unsent (conn s1 i) ++ reply f /\
          cn_close_after_flush (conn s2 i) = cn_close_after_flush (conn s1 i) || (cf_opcode f =? 8) /\
          cn_read_size (conn s2 i) = cn_read_size (conn s1 i) /\ cn_read_buffer (conn s2 i) = cn_read_buffer (conn s1 i) /\
          cn_fragmented_data (conn s2 i) = cn_fragmented_data (conn s1 i)) as (returned & s2 & -> & Hans).
      { pose proof (known_opcode_cases _ Hop) as Hcases. destruct (8 <=? cf_opcode f) eqn:E8.
        - assert ((negb (Z.land (cf_opcode f) 8 =? 0)) = true) as -> by (destruct Hcases as [E | [E | [E | [E | [E | E]]]]]; rewrite E in *; done).
          by apply (answer_control_spec i f ts s1 a'); [| | |lia].
        - assert ((negb (Z.land (cf_opcode f) 8 =? 0)) = false) as -> by (destruct Hcases as [E | [E | [E | [E | [E | E]]]]]; rewrite E in *; done).
          exists false, s1. split; [done|]. unfold reply. assert ((cf_opcode f =? 8) = false) as -> by lia. assert ((cf_opcode f =? 9) = false) as -> by lia.
          rewrite app_nil_r, orb_false_r. split; [apply local_refl|]. by destruct Hok1. }
      cbn [mbind option_bind]. destruct returned.
      { eexists _, _. split; [done|]. right. split; [done|]. eexists f, _, a'. split; [done|]. split; [exact Hun|]. split; [done|].
        left. by eapply gone_local. }
      destruct Hans as (Hl2 & Ho2 & Hu2 & Hf2 & Hz2 & Hb2 & Hg2).
      destruct (discard_frame_spec i f more s2 a') as (s3 & H3 & Hl3 & Hok3 & Hun3 & Hu3 & Hf3); rewrite ?Hz2, ?Hb2, ?Hg2, ?Hc1; try done.
      { by rewrite (local_in_pool i s1 s2). } { rewrite (lo_fd _ _ _ Hl2), Hc1. done. } { cbn [cn_read_size set_input]. lia. }
      rewrite H3. cbn [mbind option_bind]. eexists _, _. split; [done|]. right. split; [done|]. eexists f, _, a'. split; [done|]. split; [exact Hun|].
      split; [done|]. right. split; [by eapply local_trans; [|eapply local_trans]|]. split; [done|].
      split; [rewrite Hun3, Hz2, Hc1; done|]. rewrite Hu3, Hu2, Hf3, Hf2, Hc1. done.
    + rewrite bool_decide_eq_false_2 by done. cbn [negb]. eexists r, s1. split; [done|]. left. split; [done|]. split; [done|]. rewrite Hc1.
      assert (r <> kIncomplete) as Hni. { pose proof (spec_frame_complete a f) as Hc. by rewrite Espec in Hc. }
      assert (a' = a) as ->. { pose proof (spec_frame_rejects a f) as Hc. rewrite Espec in Hc. by apply Hc. }
      split; [split; [done|split; [done|done|by apply Forall_app]|destruct Hout; by split|done]|].
      split; [|by repeat split]. unfold unread_then. rewrite decide_False by done. split; [done|]. split; [done|]. right.
      exists f. eexists. split; [done|]. split; [exact Hun|]. by rewrite Espec.
Qed.
