(* ===== verification/WsStream.v ===== *)
(** * The conversation on one WebSocket connection

    What [receive] and [flush] do to the byte streams of a connection: the
    answers depend on the bytes the client sent and not on how the network cut
    them. *)
From Stdlib Require Import ZArith Lia ZifyBool.
From S2P Require Import Prelude Bytes WsUtf8 WsFrame WsKey WsFill WsServer WsConn.

(** ** Streams of frames *)
Definition frames_bytes (fs : list client_frame) : list Z := fs ≫= encode_frame.
Definition replies (fs : list client_frame) : list Z := fs ≫= reply.
Definition no_close (fs : list client_frame) : Prop := Forall (fun f => cf_opcode f <> 8) fs.

(** Well-formed frames that the assembly rules accept one after the other. *)
Inductive accepts : assembly -> list client_frame -> assembly -> Prop :=
| accepts_nil a : accepts a [] a
| accepts_cons a f a' fs a'' :
    client_frame_ok f -> spec_frame a f = (kConsumed, a') -> accepts a' fs a'' -> accepts a (f :: fs) a''.

Lemma accepts_app a fs a' fs' a'' : accepts a fs a' -> accepts a' fs' a'' -> accepts a (fs ++ fs') a''.
Proof. induction 1; [done|]. intros H'. cbn. econstructor; eauto. Qed.

Lemma frames_bytes_app fs fs' : frames_bytes (fs ++ fs') = frames_bytes fs ++ frames_bytes fs'.
Proof. apply bind_app. Qed.

Lemma replies_app fs fs' : replies (fs ++ fs') = replies fs ++ replies fs'.
Proof. apply bind_app. Qed.

Lemma replies_cons f fs : replies (f :: fs) = reply f ++ replies fs.
Proof. done. Qed.

Lemma frames_bytes_cons f fs : frames_bytes (f :: fs) = encode_frame f ++ frames_bytes fs.
Proof. done. Qed.

(** The close code of a refusal, and the frame that carries it. *)
Definition close_code (r : FrameResult) : Z :=
  match r with kInvalidUtf8 => 1007 | kMessageTooLarge => 1009 | _ => 1002 end.
Definition close_frame (code : Z) : list Z := server_frame 8 [u8 (Z.shiftr code 8); u8 code].

(** How a conversation ends after the frames [fs]: with a close frame, which was
    answered like every control frame, or with the refusal of what follows. *)
Definition ends (fs : list client_frame) (a : assembly) (rest final : list Z) : Prop :=
  (exists fs0 f, fs = fs0 ++ [f] /\ cf_opcode f = 8 /\ no_close fs0 /\ final = []) \/
  (no_close fs /\ exists r, refused a rest r /\ final = close_frame (close_code r)).

(** ** close_with_code *)
Lemma close_with_code_spec i code s a :
  in_pool s i = true -> conn_ok (conn s i) a ->
  exists b s', server.close_with_code i code s = Some (b, s') /\
    (gone i s s' \/
     (b = true /\ local i s s' /\ conn_ok (conn s' i) a /\ cn_close_after_flush (conn s' i) = true /\
      unread (conn s' i) = unread (conn s i) /\ unsent (conn s' i) = unsent (conn s i) ++ close_frame code)).
Proof.
  intros Hi [Hfd Hin Hout Has]. unfold server.close_with_code, server.queue_close. cbn [length]. case_if; [lia|].
  pose proof (queue_frame_spec i 8 [u8 (Z.shiftr code 8); u8 code] s Hi Hout ltac:(unfold opcode_ok; lia) ltac:(cbn; unfold kWriteBufferBytes; lia)) as Hq.
  case_if_in Hq.
  - destruct Hq as (s1 & -> & Hl & Hs & Ho & Hu & _). cbn [mbind option_bind fst snd negb]. eexists _, _. split; [done|]. right. split; [done|].
    assert (in_pool s1 i = true) as Hi1 by by rewrite (local_in_pool i s s1). rewrite conn_upd_eq by done.
    split; [eapply local_trans; [done|]; apply local_upd; [done|by intros ?]|].
    split; [|split; [done|]; split; [by rewrite Hs|exact Hu]].
    rewrite Hs in Ho |- *. split; [done|destruct Hin; by split|destruct Ho; by split|done].
  - rewrite Hq. cbn [mbind option_bind fst snd negb]. eexists _, _. split; [done|]. left. by apply gone_close, local_refl.
Qed.

(** ** The inner loop *)
Lemma consume_all_spec fuel i ts s a :
  in_pool s i = true -> conn_ok (conn s i) a -> cn_close_after_flush (conn s i) = false -> (length (unread (conn s i)) < fuel)%nat ->
  exists early s', server.consume_all fuel i ts s = Some (early, s') /\
    ((early <> None /\ gone i s s') \/
     exists fs rest a', unread (conn s i) = frames_bytes fs ++ rest /\ accepts a fs a' /\ local i s s' /\ conn_ok (conn s' i) a' /\
       ((early = None /\ cn_close_after_flush (conn s' i) = false /\ no_close fs /\ waiting rest /\ unread (conn s' i) = rest /\
         unsent (conn s' i) = unsent (conn s i) ++ replies fs) \/
        (early <> None /\ cn_close_after_flush (conn s' i) = true /\
         exists final, ends fs a' rest final /\ unsent (conn s' i) = unsent (conn s i) ++ replies fs ++ final))).
Proof.
  revert s a. induction fuel as [|fuel IH]; intros s a Hi Hok Hcl Hlen; [lia|]. cbn [server.consume_all].
  destruct (consume_frame_spec i ts s a Hi Hok) as (r & s1 & -> & [(Hne & Hl & Hok1 & Hthen & Hu & Hf & Hun) | (-> & f & rest & a' & Hfok & Hun & Hsp & Hgo)]);
    cbn [mbind option_bind].
  - unfold unread_then in Hthen. destruct (decide (r = kIncomplete)) as [-> | Hni].
    + eexists None, s1. split; [done|]. right. exists [], (unread (conn s i)), a. rewrite app_nil_r.
      split; [done|]. split; [constructor|]. split; [done|]. split; [done|]. left. rewrite Hun by done. repeat split; try done; [congruence|constructor].
    + assert (in_pool s1 i = true) as Hi1 by by rewrite (local_in_pool i s s1).
      destruct (close_with_code_spec i (close_code r) s1 a Hi1 Hok1) as (b & s2 & Hc & Hcase).
      exists (Some b), s2. split.
      { destruct r; cbn [close_code] in Hc; try done; by rewrite Hc. }
      destruct Hcase as [Hg | (-> & Hl2 & Hok2 & Hf2 & _ & Hu2)]; [left; split; [done|by eapply gone_local]|]. right. exists [], (unread (conn s i)), a.
      split; [done|]. split; [constructor|]. split; [by eapply local_trans|]. split; [done|]. right. split; [done|]. split; [done|].
      exists (close_frame (close_code r)). split; [right; split; [constructor|by exists r]|]. by rewrite Hu2, Hu.
  - destruct Hgo as [Hg | (Hl & Hok1 & Hun1 & Hu1 & Hf1)].
    { rewrite (gone_conn _ _ _ Hg). cbn [cn_fd conn_init Z.ltb Z.compare orb]. exists (Some true), s1. split; [done|]. left. by split. }
    assert ((cn_fd (conn s1 i) <? 0) = false) as -> by (destruct Hok1; lia). cbn [orb]. rewrite Hf1, Hcl. cbn [orb].
    destruct (cf_opcode f =? 8) eqn:E8.
    + exists (Some true), s1. split; [done|]. right. exists [f], rest, a'. unfold frames_bytes, replies. cbn [mbind list_bind]. rewrite app_nil_r.
      split; [done|]. split; [econstructor; [done|done|constructor]|]. split; [done|]. split; [done|]. right. split; [done|].
      split; [by rewrite Hf1, Hcl|]. exists []. rewrite !app_nil_r. split; [|done]. left. exists [], f. repeat split; [lia|constructor].
    + assert (in_pool s1 i = true) as Hi1 by by rewrite (local_in_pool i s s1).
      destruct (IH s1 a' Hi1 Hok1) as (early & s2 & -> & Hcase); [by rewrite Hf1, Hcl| |].
      { rewrite Hun1. rewrite Hun, length_app in Hlen. pose proof Hfok as (_ & _ & Hk4 & _). pose proof (encode_frame_length f Hk4). lia. }
      exists early, s2. split; [done|]. destruct Hcase as [[Hne Hg] | (fs & rest' & a'' & Hun2 & Hacc & Hl2 & Hok2 & Hcase)];
        [left; split; [done|by eapply gone_local]|]. right.
      exists (f :: fs), rest', a''. split; [by rewrite Hun, <- Hun1, Hun2, frames_bytes_cons, app_assoc|].
      split; [by econstructor|]. split; [by eapply local_trans|]. split; [done|].
      assert (cf_opcode f <> 8) as Hn8 by lia. rewrite replies_cons.
      destruct Hcase as [(-> & Hf2 & Hnc & Hw & Hun3 & Hu3) | (Hne & Hf2 & final & Hends & Hu3)].
      * left. rewrite Hu3, Hu1, <- !app_assoc. repeat split; try done. by constructor.
      * right. split; [done|]. split; [done|]. exists final. rewrite Hu3, Hu1, <- !app_assoc. split; [|done].
        destruct Hends as [(fs0 & f' & -> & H8 & Hnc & ->) | (Hnc & r & Hr & ->)].
        -- left. exists (f :: fs0), f'. repeat split; try done. by constructor.
        -- right. split; [by constructor|]. by exists r.
Qed.

(** ** receive *)

(** An incomplete frame never fills the read buffer. *)
Lemma waiting_small rest : waiting rest -> Z.of_nat (length rest) < kReadBufferBytes.
Proof.
  unfold waiting, kReadBufferBytes. set (size := Z.of_nat (length rest)). unfold parse_header.
  destruct (size <? 2) eqn:E2; [lia|]. destruct (rd rest 0) as [first|]; [|done]. destruct (rd rest 1) as [second|]; [|done].
  cbn [mbind option_bind]. destruct (negb (known_opcode _)); [done|]. destruct (negb _ || negb _); [done|].
  assert (forall hs n, frame_length rest size (Z.land second 127) = Some (inr (hs, n)) -> hs <= 10) as Hhs.
  { intros hs n. unfold frame_length. case_if; [intros [= <- _]; lia|]. case_if.
    - case_if; [done|]. destruct (rd rest 2); [|done]. destruct (rd rest 3); [|done]. cbn [mbind option_bind]. case_if; intros [= <- _]; lia.
    - case_if; [done|]. destruct (rd rest 2); [|done]. cbn [mbind option_bind]. case_if; [done|].
      destruct (read_length64 8 rest 0 0); [|done]. cbn [mbind option_bind]. case_if; intros [= <- _]; lia. }
  assert (frame_length rest size (Z.land second 127) = Some (inl kIncomplete) -> size < 10) as Hinc.
  { unfold frame_length. case_if; [done|]. case_if.
    - case_if; [lia|]. destruct (rd rest 2); [|done]. destruct (rd rest 3); [|done]. cbn [mbind option_bind]. by case_if.
    - case_if; [lia|]. destruct (rd rest 2); [|done]. cbn [mbind option_bind]. case_if; [done|].
      destruct (read_length64 8 rest 0 0); [|done]. cbn [mbind option_bind]. by case_if. }
  destruct (frame_length rest size (Z.land second 127)) as [[r | [hs n]]|]; cbn [mbind option_bind]; [|specialize (Hhs _ _ eq_refl)|done].
  - intros [= ->]. specialize (Hinc eq_refl). lia.
  - destruct (_ && _); [done|]. unfold kMaxWebSocketMessageBytes. destruct (2048 - 14 <? n) eqn:En; [done|]. case_if; [lia|done].
Qed.

Lemma store_received_spec i bytes s a :
  in_pool s i = true -> conn_ok (conn s i) a -> bytes_ok bytes -> Z.of_nat (length (unread (conn s i))) + Z.of_nat (length bytes) <= kReadBufferBytes ->
  exists s', server.store_received i bytes s = Some s' /\ local i s s' /\ conn_ok (conn s' i) a /\
    unread (conn s' i) = unread (conn s i) ++ bytes /\ unsent (conn s' i) = unsent (conn s i) /\
    cn_close_after_flush (conn s' i) = cn_close_after_flush (conn s i).
Proof.
  intros Hi [Hfd Hin Hout Has] Hb Hfit. rewrite unread_length in Hfit by done. destruct Hin as [Hr Hl Hbb]. unfold server.store_received.
  unfold kReadBufferBytes in *. set (c := conn s i) in *. rewrite memcpy_at by lia. cbn [mbind option_bind].
  rewrite wrap_u_id by (unfold in_u; lia). eexists. split; [done|]. split; [apply local_upd; [done|by intros ?]|].
  rewrite conn_upd_eq by done. fold c.
  set (buf := take (Z.to_nat (cn_read_size c)) (cn_read_buffer c) ++ bytes ++ _).
  split; [split; [done| |destruct Hout; by split|done]|].
  { split; cbn [cn_read_size cn_read_buffer set_input]; unfold kReadBufferBytes; [lia|unfold buf; rewrite !length_app, length_take, length_drop; lia|].
    unfold buf. apply Forall_app; split; [by apply Forall_take|]. apply Forall_app; split; [done|by apply Forall_drop]. }
  split; [|done]. unfold unread. cbn [cn_read_size cn_read_buffer set_input].
  replace (Z.to_nat (cn_read_size c + Z.of_nat (length bytes))) with (length (take (Z.to_nat (cn_read_size c)) (cn_read_buffer c) ++ bytes))
    by (rewrite length_app, length_take; lia).
  unfold buf. rewrite app_assoc. apply take_app_length.
Qed.

(** What a call of [receive] makes of the bytes it takes from the socket. *)
Definition received (i : Z) (a : assembly) (s s' : Server) (drained : Prop) (got : list Z) : Prop :=
  gone i s s' \/
  exists fs rest a', unread (conn s i) ++ got = frames_bytes fs ++ rest /\ accepts a fs a' /\ local i s s' /\ conn_ok (conn s' i) a' /\
    ((cn_close_after_flush (conn s' i) = false /\ no_close fs /\ unread (conn s' i) = rest /\
      unsent (conn s' i) = unsent (conn s i) ++ replies fs /\ (drained -> waiting rest)) \/
     (cn_close_after_flush (conn s' i) = true /\
      exists final, ends fs a' rest final /\ unsent (conn s' i) = unsent (conn s i) ++ replies fs ++ final)).

Lemma ends_app fs1 fs2 a' rest final : no_close fs1 -> ends fs2 a' rest final -> ends (fs1 ++ fs2) a' rest final.
Proof.
  intros H1 [(fs0 & f & -> & H8 & Hnc & ->) | (Hnc & r & Hr & ->)].
  - left. exists (fs1 ++ fs0), f. rewrite app_assoc. repeat split; try done. by apply Forall_app.
  - right. split; [by apply Forall_app|]. by exists r.
Qed.

Lemma receive_passes_spec passes i ts recvs inbox s a :
  in_pool s i = true -> conn_ok (conn s i) a -> cn_close_after_flush (conn s i) = false -> bytes_ok inbox ->
  exists b inbox' s', server.receive_passes passes i ts recvs inbox s = Some (b, inbox', s') /\
    exists got, inbox = got ++ inbox' /\ received i a s s' (length recvs < passes)%nat got.
Proof.
  revert recvs inbox s a. induction passes as [|passes IH]; intros recvs inbox s a Hi Hok Hcl Hin.
  { exists true, inbox, s. split; [done|]. exists []. split; [done|]. right. exists [], (unread (conn s i)), a. rewrite !app_nil_r.
    split; [done|]. split; [constructor|]. split; [apply local_refl|]. split; [done|]. left. repeat split; try done; [constructor|lia]. }
  cbn [server.receive_passes].
  assert (Z.of_nat (length (unread (conn s i))) = cn_read_size (conn s i)) as Hlen by (apply unread_length; by destruct Hok).
  destruct (consume_all_spec (S (Z.to_nat (cn_read_size (conn s i)))) i ts s a Hi Hok Hcl) as (early & s1 & -> & Hcase); [lia|].
  cbn [mbind option_bind]. destruct Hcase as [[Hne Hg] | (fs & rest & a1 & Hun & Hacc & Hl & Hok1 & Hcase)].
  { destruct early as [b|]; [|done]. exists b, inbox, s1. split; [done|]. exists []. split; [done|]. by left. }
  destruct Hcase as [(-> & Hf1 & Hnc & Hw & Hun1 & Hu1) | (Hne & Hf1 & final & Hends & Hu1)].
  2:{ destruct early as [b|]; [|done]. exists b, inbox, s1. split; [done|]. exists []. split; [done|]. right.
      exists fs, rest, a1. rewrite app_nil_r. do 4 (split; [done|]). right. split; [done|]. by exists final. }
  rewrite Hf1. assert (in_pool s1 i = true) as Hi1 by by rewrite (local_in_pool i s s1).
  pose proof (waiting_small rest Hw) as Hsmall. rewrite <- Hun1 in Hsmall. rewrite unread_length in Hsmall by by destruct Hok1.
  case_if; [lia|].
  assert (received i a s s1 True []) as Hstop.
  { right. exists fs, rest, a1. rewrite app_nil_r. do 4 (split; [done|]). left. by repeat split. }
  assert (0 <= cn_fd (conn s1 i)) as Hfd by by destruct Hok1.
  assert (forall got s2, local i s1 s2 -> conn_ok (conn s2 i) a1 -> cn_close_after_flush (conn s2 i) = false ->
    unread (conn s2 i) = unread (conn s1 i) ++ got -> unsent (conn s2 i) = unsent (conn s1 i) ->
    forall recvs' inbox', inbox = got ++ inbox' -> bytes_ok inbox' -> (length recvs' < length recvs)%nat ->
    exists b inbox'' s', server.receive_passes passes i ts recvs' inbox' s2 = Some (b, inbox'', s') /\
      exists got, inbox = got ++ inbox'' /\ received i a s s' (length recvs < S passes)%nat got) as Hgo.
  { intros got s2 Hl2 Hok2 Hf2 Hun2 Hu2 recvs' inbox' Hbox Hinb Hrl.
    destruct (IH recvs' inbox' s2 a1) as (b & inbox'' & s' & Hrec & got' & Hbox' & Hres); [by rewrite (local_in_pool i s1 s2)|done..|].
    exists b, inbox'', s'. split; [done|]. exists (got ++ got'). split; [by rewrite Hbox, Hbox', app_assoc|].
    destruct Hres as [Hg | (fs2 & rest2 & a2 & Hun3 & Hacc2 & Hl3 & Hok3 & Hcase)];
      [left; by eapply gone_local; [|eapply gone_local]|]. right. exists (fs ++ fs2), rest2, a2.
    split; [rewrite frames_bytes_app, <- app_assoc, <- Hun3, Hun2, Hun1, app_assoc, Hun; by rewrite <- !app_assoc|].
    split; [by eapply accepts_app|]. split; [by eapply local_trans; [|eapply local_trans]|]. split; [done|].
    rewrite replies_app. destruct Hcase as [(Hf3 & Hnc2 & Hun4 & Hu3 & Hw2) | (Hf3 & final & Hends & Hu3)].
    - left. split; [done|]. split; [by apply Forall_app|]. split; [done|]. split; [by rewrite Hu3, Hu2, Hu1, app_assoc|]. intros Hd. apply Hw2. lia.
    - right. split; [done|]. exists final. split; [by apply ends_app|]. by rewrite Hu3, Hu2, Hu1, <- !app_assoc. }
  assert (forall Q, received i a s s1 True [] -> received i a s s1 Q []) as Hweak.
  { intros Q [Hg | (fs' & rest' & a' & H1 & H2 & H3 & H4 & [(H5 & H6 & H7 & H8 & H9) | H5])]; [by left|right..].
    - exists fs', rest', a'. do 4 (split; [done|]). left. do 4 (split; [done|]). intros _. by apply H9.
    - exists fs', rest', a'. do 4 (split; [done|]). by right. }
  destruct recvs as [|[n| | | |] recvs]; [by exists true, inbox, s1; split; [|exists []; split; [|apply Hweak]]|..].
  - destruct inbox as [|b0 inbox0]; [by exists true, [], s1; split; [|exists []; split; [|apply Hweak]]|].
    set (inbox := b0 :: inbox0) in *. set (count := Z.to_nat _).
    destruct (store_received_spec i (take count inbox) s1 a1 Hi1 Hok1) as (s2 & -> & Hl2 & Hok2 & Hun2 & Hu2 & Hf2); [by apply Forall_take| |].
    { rewrite unread_length by by destruct Hok1. rewrite length_take. unfold kReadBufferBytes in *. lia. }
    cbn [mbind option_bind]. eapply Hgo; [done|done|congruence|done|done|by rewrite take_drop|by apply Forall_drop|cbn; lia].
  - exists false, inbox, (server.close i s1). split; [done|]. exists []. split; [done|]. left. apply gone_close; [done| |done].
    by rewrite <- (lo_fd _ _ _ Hl).
  - eapply (Hgo [] s1); [apply local_refl|done|done|by rewrite app_nil_r|done|done|done|cbn; lia].
  - by exists true, inbox, s1; split; [|exists []; split; [|apply Hweak]].
  - exists false, inbox, (server.close i s1). split; [done|]. exists []. split; [done|]. left. apply gone_close; [done| |done].
    by rewrite <- (lo_fd _ _ _ Hl).
Qed.

(** ** flush *)

(** The bytes [send] took, of those it was given. *)
Definition taken (sent : send_outcome) (c : Connection) : list Z :=
  match sent with SendBytes n => take (Z.to_nat n) (unsent c) | _ => [] end.

(** [send] takes no more than it is given. *)
Definition send_ok (sent : send_outcome) (c : Connection) : Prop :=
  match sent with SendBytes n => n <= Z.of_nat (length (unsent c)) | _ => True end.

(** An output operation leaves the input alone; [lost] bytes left the queue. *)
Definition output_step (i : Z) (a : assembly) (s s' : Server) (lost : list Z) : Prop :=
  local i s s' /\ conn_ok (conn s' i) a /\ unread (conn s' i) = unread (conn s i) /\
  cn_close_after_flush (conn s' i) = cn_close_after_flush (conn s i) /\ unsent (conn s i) = lost ++ unsent (conn s' i).

Lemma output_step_upd i a s f lost :
  in_pool s i = true -> conn_ok (conn s i) a -> keeps_identity f ->
  (let c := conn s i in cn_read_size (f c) = cn_read_size c /\ cn_read_buffer (f c) = cn_read_buffer c /\
    cn_fragmented_data (f c) = cn_fragmented_data c /\ cn_close_after_flush (f c) = cn_close_after_flush c /\ out_ok (f c) /\
    unsent c = lost ++ unsent (f c)) ->
  output_step i a s (upd_conn i f s) lost.
Proof.
  intros Hi [Hfd Hin Hout Has] Hf (H1 & H2 & H3 & H4 & H5 & H6). unfold output_step. rewrite conn_upd_eq by done.
  split; [by apply local_upd|]. split; [|split; [unfold unread; by rewrite H1, H2|done]].
  destruct (Hf (conn s i)) as (F1 & _). split; [by rewrite F1| |done|by rewrite H3]. destruct Hin as [I1 I2 I3]. split; by rewrite ?H1, ?H2.
Qed.

Lemma output_step_refl i a s : conn_ok (conn s i) a -> output_step i a s s [].
Proof. intros H. split; [apply local_refl|]. by split. Qed.

Lemma output_step_refresh i a s s' lost : output_step i a s s' lost -> output_step i a s (server.refresh_poll_interest i s') lost.
Proof.
  intros (H1 & H2 & H3 & H4 & H5). unfold output_step. rewrite conn_refresh.
  split; [eapply local_trans; [done|apply local_refresh]|done].
Qed.

Lemma output_step_interest i a s s' enabled lost : in_pool s i = true -> output_step i a s s' lost ->
  exists s2, server.set_write_interest i enabled s' = (true, s2) /\ output_step i a s s2 lost.
Proof.
  intros Hi (H1 & H2 & H3 & H4 & H5). assert (in_pool s' i = true) as Hi' by by rewrite (local_in_pool i s s').
  pose proof (set_write_interest_local i enabled s' Hi') as Hw. destruct (server.set_write_interest i enabled s') as [ok s2].
  destruct Hw as (Hl & -> & w & Hc). destruct H2 as [Hfd Hin Hout Has]. exists s2.
  assert (negb (cn_fd (conn s' i) <? 0) = true) as -> by lia. split; [done|].
  unfold output_step. rewrite Hc. split; [by eapply local_trans|].
  split; [split; [done|destruct Hin; by split|destruct Hout; by split|done]|]. split; [exact H3|]. split; [exact H4|exact H5].
Qed.

Lemma flush_spec i ts sent s a :
  in_pool s i = true -> conn_ok (conn s i) a -> send_ok sent (conn s i) ->
  let '(b, s') := server.flush i ts sent s in gone i s s' \/ output_step i a s s' (taken sent (conn s i)).
Proof.
  intros Hi Hok Hsend. pose proof Hok as [Hfd Hin Hout Has]. pose proof Hout as [Hr Hl]. unfold server.flush. cbv zeta.
  destruct (cn_write_offset (conn s i) =? cn_write_size (conn s i)) eqn:Eempty.
  { destruct (cn_close_after_flush (conn s i)); [left; apply gone_close; [done|done|by apply local_upd; [|intros ?]]|]. assert (unsent (conn s i) = []) as Hu.
    { unfold unsent. replace (Z.to_nat _) with 0%nat by lia. by rewrite take_0. }
    assert (taken sent (conn s i) = []) as -> by (destruct sent; cbn; rewrite ?Hu; by rewrite ?take_nil).
    destruct (output_step_interest i a s (upd_conn i (fun c => set_blocked 0 (set_output 0 0 (cn_write_buffer c) c)) s) false []) as (s2 & -> & Hs2);
      [done| |right; by apply output_step_refresh].
    apply output_step_upd; [done|done|by intros ?|]. do 4 (split; [done|]). split; [|by rewrite Hu].
    split; cbn; unfold kWriteBufferBytes in *; lia. }
  assert (forall n, send_ok (SendBytes n) (conn s i) -> n <= 0 -> taken (SendBytes n) (conn s i) = []) as Hnone.
  { intros n _ Hn. cbn. replace (Z.to_nat n) with 0%nat by lia. by rewrite take_0. }
  assert (forall b, taken sent (conn s i) = [] -> let '(b, s') :=
      if cn_write_blocked_since_ns (conn s i) =? 0 then
        let '(ok, s) := server.set_write_interest i true (upd_conn i (set_blocked ts) s) in
        if negb ok then (false, server.close i s) else (true, s)
      else if kBackpressureCloseNs <=? u64 (ts - cn_write_blocked_since_ns (conn s i)) then
        (false, server.close i (with_diag (count_slow (Some (u64 (ts - cn_write_blocked_since_ns (conn s i)))) (sv_diag s)) s))
      else (b, s) in gone i s s' \/ output_step i a s s' (taken sent (conn s i))) as Hagain.
  { intros b ->. destruct (cn_write_blocked_since_ns (conn s i) =? 0).
    - destruct (output_step_interest i a s (upd_conn i (set_blocked ts) s) true []) as (s2 & -> & Hs2); [done| |by right].
      apply output_step_upd; [done|done|by intros ?|]. do 4 (split; [done|]). split; [by split|done].
    - case_if; [left; by apply gone_close, local_diag|right; by apply output_step_refl]. }
  destruct sent as [n| | |].
  - destruct (0 <? n) eqn:En; [|apply Hagain, Hnone; [done|lia]]. cbn in Hsend. rewrite unsent_length in Hsend by done.
    unfold kWriteBufferBytes in *. rewrite (wrap_u_id 16) by (unfold in_u; lia).
    set (all := cn_write_offset (conn s i) + n =? cn_write_size (conn s i)). set (s1 := if all then _ else _).
    destruct (unsent_advance (conn s i) n ts Hout ltac:(lia)) as [Hadv Hu].
    assert (output_step i a s s1 (take (Z.to_nat n) (unsent (conn s i)))) as Hs1.
    { unfold s1, all. case_if; (apply output_step_upd; [done|done|by intros ?|]); do 4 (split; [done|]); [|done].
      split; [split; cbn; unfold kWriteBufferBytes; lia|].
      rewrite take_ge by (pose proof (unsent_length _ Hout); lia). change (unsent (set_blocked 0 (set_output 0 0 (cn_write_buffer (conn s i)) (conn s i)))) with (@nil Z).
      by rewrite app_nil_r. }
    destruct (all && cn_close_after_flush (conn s i)); [left; apply gone_close; [done|done|by destruct Hs1]|].
    destruct (output_step_interest i a s s1 (negb (cn_write_offset (conn s1 i) =? cn_write_size (conn s1 i))) _ Hi Hs1) as (s2 & -> & Hs2).
    right. by apply output_step_refresh.
  - destruct (output_step_interest i a s s true [] Hi (output_step_refl i a s Hok)) as (s2 & -> & Hs2). by right.
  - by apply Hagain.
  - left. by apply gone_close, local_refl.
Qed.

(** ** Any call on an open connection *)

(** The connection was closed, or nothing but its own state has changed and that
    is well formed. *)
Definition outcome (i : Z) (s s' : Server) : Prop := gone i s s' \/ (local i s s' /\ exists a, conn_ok (conn s' i) a).

Lemma outcome_local i s0 s s' : local i s0 s -> outcome i s s' -> outcome i s0 s'.
Proof. intros Hl [Hg | [Hl' Ha]]; [left; by eapply gone_local|right]. split; [by eapply local_trans|done]. Qed.

Lemma flush_outcome i ts sent s a :
  in_pool s i = true -> conn_ok (conn s i) a -> send_ok sent (conn s i) -> outcome i s (server.flush i ts sent s).2.
Proof.
  intros Hi Hok Hs. pose proof (flush_spec i ts sent s a Hi Hok Hs) as H. destruct (server.flush i ts sent s) as [b s'].
  destruct H as [Hg | (Hl & Hok' & _)]; [by left|right]. split; [done|by exists a].
Qed.

(** What one more look at the buffer can queue once the close is decided: nothing,
    the answer of one more frame, or one more close frame. *)
Definition one_more (e : list Z) : Prop :=
  e = [] \/ (exists f, client_frame_ok f /\ e = reply f) \/ (exists r, r <> kConsumed /\ r <> kIncomplete /\ e = close_frame (close_code r)).

(** A call on a connection whose close is decided: the connection was closed, or
    the close is still pending and at most one more frame was looked at. *)
Definition closing_step (i : Z) (s s' : Server) : Prop :=
  gone i s s' \/
  (local i s s' /\ (exists a, conn_ok (conn s' i) a) /\ cn_close_after_flush (conn s' i) = true /\
   exists e, one_more e /\ unsent (conn s' i) = unsent (conn s i) ++ e).

Lemma closing_step_outcome i s s' : closing_step i s s' -> outcome i s s'.
Proof. intros [Hg | (Hl & Ha & _)]; [by left|by right]. Qed.

(** While the close is pending one frame is looked at. *)
Lemma consume_all_closing fuel i ts s a :
  in_pool s i = true -> conn_ok (conn s i) a -> cn_close_after_flush (conn s i) = true ->
  exists early s', server.consume_all (S fuel) i ts s = Some (early, s') /\ closing_step i s s' /\
    (early = None -> cn_close_after_flush (conn s' i) = true).
Proof.
  intros Hi Hok Hcl. cbn [server.consume_all].
  destruct (consume_frame_spec i ts s a Hi Hok) as (r & s1 & -> & [(Hne & Hl & Hok1 & _ & Hu & Hf & _) | (-> & f & rest & a' & Hfok & _ & _ & Hgo)]);
    cbn [mbind option_bind].
  - destruct (decide (r = kIncomplete)) as [-> | Hni].
    + eexists None, s1. split; [done|]. split; [|congruence]. right. split; [done|]. split; [by exists a|]. split; [congruence|].
      exists []. split; [by left|by rewrite app_nil_r].
    + assert (in_pool s1 i = true) as Hi1 by by rewrite (local_in_pool i s s1).
      destruct (close_with_code_spec i (close_code r) s1 a Hi1 Hok1) as (b & s2 & Hc & Hcase). exists (Some b), s2.
      split; [destruct r; cbn [close_code] in Hc; try done; by rewrite Hc|]. split; [|done].
      destruct Hcase as [Hg | (_ & Hl2 & Hok2 & Hf2 & _ & Hu2)]; [left; by eapply gone_local|right]. split; [by eapply local_trans|].
      split; [by exists a|]. split; [done|]. exists (close_frame (close_code r)). split; [right; right; by exists r|by rewrite Hu2, Hu].
  - destruct Hgo as [Hg | (Hl & Hok1 & _ & Hu & Hf)].
    + rewrite (gone_conn _ _ _ Hg). cbn [cn_fd conn_init Z.ltb Z.compare orb]. exists (Some true), s1. split; [done|]. split; [by left|done].
    + rewrite Hf, Hcl. rewrite orb_true_r. exists (Some true), s1. split; [done|]. split; [|done]. right. split; [done|]. split; [by exists a'|].
      split; [by rewrite Hf, Hcl|]. exists (reply f). split; [right; left; by exists f|done].
Qed.

(** On a closing connection [receive] takes nothing from the socket. *)
Lemma receive_closing i ts recvs inbox s a :
  in_pool s i = true -> conn_ok (conn s i) a -> cn_close_after_flush (conn s i) = true ->
  exists b s', server.receive i ts recvs inbox s = Some (b, inbox, s') /\ closing_step i s s'.
Proof.
  intros Hi Hok Hcl. unfold server.receive. generalize 7%nat as passes. intros passes. cbn [server.receive_passes].
  destruct (consume_all_closing (Z.to_nat (cn_read_size (conn s i))) i ts s a Hi Hok Hcl) as (early & s1 & -> & Hstep & Hnone).
  cbn [mbind option_bind]. destruct early as [b|]; [by exists b, s1|]. rewrite (Hnone eq_refl). by exists true, s1.
Qed.

(** [receive] is total on every open connection, and keeps it well formed. *)
Lemma receive_outcome i ts recvs inbox s a :
  in_pool s i = true -> conn_ok (conn s i) a -> bytes_ok inbox ->
  exists b inbox' s', server.receive i ts recvs inbox s = Some (b, inbox', s') /\ outcome i s s' /\ exists got, inbox = got ++ inbox'.
Proof.
  intros Hi Hok Hb. destruct (cn_close_after_flush (conn s i)) eqn:Hcl.
  - destruct (receive_closing i ts recvs inbox s a Hi Hok Hcl) as (b & s' & -> & Hstep).
    exists b, inbox, s'. split; [done|]. split; [by apply closing_step_outcome|by exists []].
  - destruct (receive_passes_spec 8 i ts recvs inbox s a Hi Hok Hcl Hb) as (b & inbox' & s' & Hrec & got & Hbox & Hres).
    exists b, inbox', s'. split; [exact Hrec|]. split; [|by exists got]. destruct Hres as [Hg | (fs & rest & a' & _ & _ & Hl & Hok' & _)]; [by left|right].
    split; [done|by exists a'].
Qed.

(** Keep-alive: flush, close, leave alone or queue a ping. *)
Lemma service_keepalive_outcome i ts sent s a :
  in_pool s i = true -> conn_ok (conn s i) a -> send_ok sent (conn s i) ->
  exists s', server.service_keepalive i ts sent s = Some s' /\ outcome i s s'.
Proof.
  intros Hi Hok Hs. pose proof Hok as [Hfd Hin Hout Has]. unfold server.service_keepalive.
  assert (outcome i s s) as Hsame by (right; split; [apply local_refl|by exists a]).
  case_if; [lia|]. case_if; [eexists; split; [done|by eapply flush_outcome]|].
  case_if; [eexists; split; [done|left; apply gone_close; [done|done|apply local_diag]]|]. case_if; [by eexists|].
  case_if; [eexists; split; [done|]; case_if; [left; by apply gone_close, local_refl|done]|]. case_if; [by eexists|].
  pose proof (queue_frame_spec i 9 [] s Hi Hout ltac:(unfold opcode_ok; lia) ltac:(cbn; unfold kWriteBufferBytes; lia)) as Hq. case_if_in Hq.
  - destruct Hq as (s1 & -> & Hl & Hsame1 & Ho & _). cbn [mbind option_bind fst snd negb]. eexists. split; [done|]. right.
    assert (in_pool s1 i = true) as Hi1 by by rewrite (local_in_pool i s s1).
    split; [eapply local_trans; [exact Hl|]; eapply local_trans; [|apply local_diag]; apply local_upd; [done|by intros ?]|].
    exists a. rewrite conn_diag, conn_upd_eq by done. rewrite Hsame1 in Ho |- *. split; [done|destruct Hin; by split|destruct Ho; by split|done].
  - rewrite Hq. cbn [mbind option_bind fst snd negb]. eexists. split; [done|]. left. apply gone_close; [done|done|apply local_diag].
Qed.

(** ** The conversation *)

(** [talks i s0 s got out]: from [s0] the worker reached [s] by calls of
    [receive] and [flush] on connection [i] as long as its descriptor is open, in any order,
    before and after a close was decided, and with any
    outcomes of the system calls; [got] are the bytes taken from the socket and
    [out] the bytes given to it, in order. *)
Inductive talks (i : Z) (s0 : Server) : Server -> list Z -> list Z -> Prop :=
| talks_start : talks i s0 s0 [] []
| talks_receive s got out ts recvs new inbox b s' :
    talks i s0 s got out -> 0 <= cn_fd (conn s i) -> bytes_ok (new ++ inbox) ->
    server.receive i ts recvs (new ++ inbox) s = Some (b, inbox, s') -> talks i s0 s' (got ++ new) out
| talks_flush s got out ts sent b s' :
    talks i s0 s got out -> 0 <= cn_fd (conn s i) -> send_ok sent (conn s i) ->
    server.flush i ts sent s = (b, s') -> talks i s0 s' got (out ++ taken sent (conn s i)).

(** A connection at the start of its conversation. *)
Definition starts (i : Z) (s : Server) : Prop :=
  in_pool s i = true /\ conn_ok (conn s i) None /\ cn_close_after_flush (conn s i) = false.

(** What the calls after the decision to close add to the output. *)
Inductive after_close : list Z -> Prop :=
| after_nothing : after_close []
| after_more es e : after_close es -> one_more e -> after_close (es ++ e).

(** Where a conversation stands. *)
Definition stands (i : Z) (s0 s : Server) (got out : list Z) : Prop :=
  gone i s0 s \/
  exists fs rest a, unread (conn s0 i) ++ got = frames_bytes fs ++ rest /\ accepts None fs a /\ local i s0 s /\
    ((cn_close_after_flush (conn s i) = false /\ conn_ok (conn s i) a /\ no_close fs /\ unread (conn s i) = rest /\
      out ++ unsent (conn s i) = unsent (conn s0 i) ++ replies fs) \/
     (cn_close_after_flush (conn s i) = true /\ (exists a', conn_ok (conn s i) a') /\
      exists final es, ends fs a rest final /\ after_close es /\
        out ++ unsent (conn s i) = unsent (conn s0 i) ++ replies fs ++ final ++ es)).

Lemma gone_fd i s0 s : gone i s0 s -> 0 <= cn_fd (conn s i) -> False.
Proof. intros Hg. rewrite (gone_conn _ _ _ Hg). cbn. lia. Qed.

Lemma stands_receive i s0 s got out ts recvs new inbox b s' :
  in_pool s0 i = true -> stands i s0 s got out -> 0 <= cn_fd (conn s i) -> bytes_ok (new ++ inbox) ->
  server.receive i ts recvs (new ++ inbox) s = Some (b, inbox, s') -> stands i s0 s' (got ++ new) out.
Proof.
  intros Hi [Hg | (fs & rest & a & Hbytes & Hacc & Hl & Hcase)] Hfd Hb Hrec; [by destruct (gone_fd _ _ _ Hg)|].
  assert (in_pool s i = true) as Hi1 by by rewrite (local_in_pool i s0 s).
  destruct Hcase as [(Hopen & Hok1 & Hnc & Hun & Hu) | (Hcl & [a' Hok1] & final & es & Hends & Hes & Hu)].
  - destruct (receive_passes_spec 8 i ts recvs (new ++ inbox) s a Hi1 Hok1 Hopen Hb) as (b' & inbox' & s'' & Hrec' & got' & Hbox & Hres).
    unfold server.receive in Hrec. rewrite Hrec in Hrec'. injection Hrec' as <- <- <-. apply app_inv_tail in Hbox as <-.
    destruct Hres as [Hg | (fs2 & rest2 & a2 & Hbytes2 & Hacc2 & Hl2 & Hok2 & Hcase)]; [left; by eapply gone_local|]. right. exists (fs ++ fs2), rest2, a2.
    split; [by rewrite frames_bytes_app, <- app_assoc, <- Hbytes2, Hun, app_assoc, Hbytes, <- app_assoc|].
    split; [by eapply accepts_app|]. split; [by eapply local_trans|]. rewrite replies_app.
    destruct Hcase as [(Hf2 & Hnc2 & Hun2 & Hu2 & _) | (Hf2 & final & Hends & Hu2)].
    + left. split; [done|]. split; [done|]. split; [by apply Forall_app|]. split; [done|]. by rewrite Hu2, app_assoc, Hu, <- app_assoc.
    + right. split; [done|]. split; [by exists a2|]. exists final, []. split; [by apply ends_app|]. split; [constructor|].
      by rewrite app_nil_r, Hu2, app_assoc, Hu, <- !app_assoc.
  - destruct (receive_closing i ts recvs (new ++ inbox) s a' Hi1 Hok1 Hcl) as (b' & s'' & Hrec' & Hstep). rewrite Hrec in Hrec'.
    injection Hrec' as <- Hbox <-. apply (app_inv_tail inbox [] new) in Hbox as <-. rewrite app_nil_r.
    destruct Hstep as [Hg | (Hl2 & Hok2 & Hcl2 & e & He & Hu2)]; [left; by eapply gone_local|]. right. exists fs, rest, a.
    split; [done|]. split; [done|]. split; [by eapply local_trans|]. right. split; [done|]. split; [done|].
    exists final, (es ++ e). split; [done|]. split; [by constructor|]. by rewrite Hu2, app_assoc, Hu, <- !app_assoc.
Qed.

Lemma stands_flush i s0 s got out ts sent b s' :
  in_pool s0 i = true -> stands i s0 s got out -> 0 <= cn_fd (conn s i) -> send_ok sent (conn s i) ->
  server.flush i ts sent s = (b, s') -> stands i s0 s' got (out ++ taken sent (conn s i)).
Proof.
  intros Hi [Hg | (fs & rest & a & Hbytes & Hacc & Hl & Hcase)] Hfd Hsend Hfl; [by destruct (gone_fd _ _ _ Hg)|].
  assert (in_pool s i = true) as Hi1 by by rewrite (local_in_pool i s0 s).
  assert (exists a', conn_ok (conn s i) a' /\ (cn_close_after_flush (conn s i) = false -> a' = a)) as (a' & Hok1 & Ha).
  { destruct Hcase as [(_ & Hok1 & _) | (Hcl & [a' Hok1] & _)]; [by exists a|]. exists a'. split; [done|congruence]. }
  pose proof (flush_spec i ts sent s a' Hi1 Hok1 Hsend) as Hspec. rewrite Hfl in Hspec.
  destruct Hspec as [Hg | (Hl2 & Hok2 & Hun2 & Hf2 & Hu2)]; [left; by eapply gone_local|]. right. exists fs, rest, a.
  split; [done|]. split; [done|]. split; [by eapply local_trans|].
  destruct Hcase as [(Hopen & _ & Hnc & Hun & Hu) | (Hcl & _ & final & es & Hends & Hes & Hu)]; [left|right].
  - split; [congruence|]. split; [by rewrite <- Ha|]. split; [done|]. split; [congruence|]. by rewrite <- Hu, Hu2, <- app_assoc.
  - split; [congruence|]. split; [by exists a'|]. exists final, es. split; [done|]. split; [done|]. by rewrite <- Hu, Hu2, <- app_assoc.
Qed.

Lemma talks_stands i s0 s got out : starts i s0 -> talks i s0 s got out -> stands i s0 s got out.
Proof.
  intros (Hi & Hok & Hcl) Ht. induction Ht as [|s got out ts recvs new inbox b s' _ IH Hfd Hb Hrec|s got out ts sent b s' _ IH Hfd Hsend Hfl].
  - right. exists [], (unread (conn s0 i)), None. rewrite !app_nil_r. split; [done|]. split; [constructor|]. split; [apply local_refl|].
    left. split; [done|]. split; [done|]. repeat split; try done. constructor.
  - by eapply stands_receive.
  - by eapply stands_flush.
Qed.


(** ** The frames of a stream are determined by its bytes *)
Lemma encode_frame_inj f f' more more' :
  client_frame_ok f -> client_frame_ok f' -> encode_frame f ++ more = encode_frame f' ++ more' -> f = f' /\ more = more'.
Proof.
  intros Hf Hf' Heq. set (b := encode_frame f ++ more) in *. set (size := Z.of_nat (length b)).
  pose proof (parse_header_agrees f b size Hf (agrees_app f more size)) as H1.
  assert (agrees b size f') as Hag by (rewrite Heq; apply agrees_app).
  rewrite (parse_header_agrees f' b size Hf' Hag) in H1.
  assert (Z.of_nat (length (encode_frame f)) <= size) by (unfold size, b; rewrite length_app; lia).
  assert (Z.of_nat (length (encode_frame f')) <= size) by (unfold size; rewrite Heq, length_app; lia).
  case_if_in H1; [lia|]. case_if_in H1; [lia|]. injection H1 as Efin Eop Ehs Elen.
  pose proof Hf as (_ & _ & Hk & _). pose proof Hf' as (_ & _ & Hk' & _).
  destruct (encode_frame_length f Hk) as [L1 _], (encode_frame_length f' Hk') as [L2 _].
  apply app_inj_1 in Heq as [Henc ->]; [|lia]. split; [|done].
  unfold encode_frame, frame_header in Henc. rewrite Efin, Eop, Elen in Henc. cbn [app] in Henc. injection Henc as Henc.
  rewrite <- !app_assoc in Henc. apply app_inv_head in Henc. apply app_inj_1 in Henc as [Ekey Emask]; [|lia].
  destruct f as [fin op key p], f' as [fin' op' key' p']. cbn [cf_final cf_opcode cf_key cf_payload] in *. subst. f_equal.
  by rewrite <- (mask_from_involutive key' 0 p), Emask, mask_from_involutive.
Qed.

Lemma waiting_no_frame f more : client_frame_ok f -> ~ waiting (encode_frame f ++ more).
Proof.
  intros Hf Hw. unfold waiting in Hw. rewrite (parse_header_agrees f) in Hw by (done || apply agrees_app). rewrite length_app in Hw.
  case_if_in Hw; [lia|done].
Qed.

(** Two readings of one stream: one is the other and some frames more. *)
Lemma frames_comparable fs fs' a b a' b' rest rest' :
  accepts a fs b -> accepts a' fs' b' -> frames_bytes fs ++ rest = frames_bytes fs' ++ rest' ->
  exists more, Forall client_frame_ok more /\
    ((fs' = fs ++ more /\ rest = frames_bytes more ++ rest') \/ (fs = fs' ++ more /\ rest' = frames_bytes more ++ rest)).
Proof.
  assert (forall a fs b, accepts a fs b -> Forall client_frame_ok fs) as Hall by (intros ??? Hacc; by induction Hacc; constructor).
  intros Hacc. revert fs' a' b'. induction Hacc as [a|a f a1 fs a2 Hf Hsp Hacc IH]; intros fs' a' b' Hacc' Heq.
  - exists fs'. split; [by eapply Hall|by left].
  - destruct Hacc' as [|? f' ? fs' ? Hf' _ Hacc']; rewrite !frames_bytes_cons, <- ?app_assoc in Heq.
    + exists (f :: fs). split; [constructor; [done|by eapply Hall]|]. right. split; [done|]. cbn in Heq. by rewrite frames_bytes_cons, <- app_assoc.
    + apply encode_frame_inj in Heq as [-> Heq]; [|done..].
      destruct (IH _ _ _ Hacc' Heq) as (more & Hm & [[-> Hr] | [-> Hr]]); exists more; (split; [done|]); [by left|by right].
Qed.

(** How much further the second of two conversations is: the frames [more], complete in
    the first one's buffer and answered by the second. *)
Definition ahead (i : Z) (s s' : Server) (out out' : list Z) (more : list client_frame) : Prop :=
  unread (conn s i) = frames_bytes more ++ unread (conn s' i) /\
  out' ++ unsent (conn s' i) = (out ++ unsent (conn s i)) ++ replies more.

(** C27: How the network and the kernel cut the stream does not matter: of two
    conversations that start alike and receive the same bytes, in whatever
    pieces and with whatever writes in between, and in which no close was decided yet,
    one is ahead of the other by some well-formed frames, which the other still holds complete in its buffer, and
    by exactly their answers; when neither holds a complete frame, both have produced the same bytes in total and hold the same
    incomplete frame. *)
Theorem ws_chunking_irrelevant (i : Z) (s0 s s' : Server) (got out out' : list Z)
    (Hstart : starts i s0) (Htalk : talks i s0 s got out) (Htalk' : talks i s0 s' got out')
    (Hopen : 0 <= cn_fd (conn s i) /\ cn_close_after_flush (conn s i) = false)
    (Hopen' : 0 <= cn_fd (conn s' i) /\ cn_close_after_flush (conn s' i) = false) :
  exists more, Forall client_frame_ok more /\ (ahead i s s' out out' more \/ ahead i s' s out' out more) /\
    (waiting (unread (conn s i)) -> waiting (unread (conn s' i)) -> more = []).
Proof.
  destruct Hopen as (Hfd & Hcl), Hopen' as (Hfd' & Hcl').
  destruct (talks_stands _ _ _ _ _ Hstart Htalk) as [Hg | (fs & rest & a & Hb & Hacc & _ & [(_ & _ & _ & Hun & Hu) | (Hf & _)])];
    [by destruct (gone_fd _ _ _ Hg)| |congruence].
  destruct (talks_stands _ _ _ _ _ Hstart Htalk') as [Hg | (fs' & rest' & a' & Hb' & Hacc' & _ & [(_ & _ & _ & Hun' & Hu') | (Hf & _)])];
    [by destruct (gone_fd _ _ _ Hg)| |congruence].
  unfold ahead. rewrite Hun, Hun', Hu, Hu'. rewrite Hb in Hb'.
  destruct (frames_comparable _ _ _ _ _ _ _ _ Hacc Hacc' Hb') as (more & Hm & Hcase). exists more. split; [done|].
  assert (forall x, waiting (frames_bytes more ++ x) -> more = []) as Hnil.
  { intros x Hw. destruct more as [|f more]; [done|]. apply Forall_cons in Hm as [Hf _]. rewrite frames_bytes_cons, <- app_assoc in Hw.
    by apply waiting_no_frame in Hw. }
  destruct Hcase as [[-> ->] | [-> ->]]; rewrite replies_app, (app_assoc (unsent (conn s0 i))).
  - split; [by left|]. intros Hw _. by eapply Hnil.
  - split; [by right|]. intros _ Hw. by eapply Hnil.
Qed.

(** ** A conversation *)

(** A pool of two slots; slot 0 serves descriptor 5. *)
Definition sample : Server := upd_conn 0 (fun c => mkConn 5 7 0 0 0 0 0 0 kNoSubscriptionBucket (-1) (-1) false false fragment_init false
  (cn_read_buffer c) (cn_write_buffer c)) (server_start 2 0 0).

Definition ping_hi : client_frame := mkClient true 9 [1; 2; 3; 4] [72; 105].

Definition after_receive (recvs : list recv_outcome) (inbox : list Z) (s : Server) : Server :=
  default s (snd <$> server.receive 0 1 recvs inbox s).

Lemma sample_starts : starts 0 sample.
Proof.
  split; [done|]. split; [|done]. split; [by vm_compute| | |exact assembles_init].
  - split; [by vm_compute|by vm_compute|]. change (cn_read_buffer (conn sample 0)) with (replicate (Z.to_nat kReadBufferBytes) 0).
    apply Forall_replicate. unfold in_u. lia.
  - split; by vm_compute.
Qed.

Lemma ping_hi_bytes : bytes_ok (encode_frame ping_hi).
Proof.
  let l := eval vm_compute in (encode_frame ping_hi) in change (bytes_ok l). repeat constructor; unfold in_u; cbn; lia.
Qed.

Definition whole : Server := after_receive [RecvMax 100] (encode_frame ping_hi) sample.
Definition cut1 : Server := after_receive [RecvIntr; RecvMax 3] (take 3 (encode_frame ping_hi)) sample.
Definition cut2 : Server := after_receive [RecvMax 1; RecvMax 9] (drop 3 (encode_frame ping_hi)) cut1.

Lemma whole_talks : talks 0 sample whole (encode_frame ping_hi) [].
Proof.
  apply (talks_receive 0 sample sample [] [] 1 [RecvMax 100] (encode_frame ping_hi) [] true); [constructor|by vm_compute| |by vm_compute].
  rewrite app_nil_r. apply ping_hi_bytes.
Qed.

Lemma cut2_talks : talks 0 sample cut2 (encode_frame ping_hi) [].
Proof.
  change (encode_frame ping_hi) with (([] ++ take 3 (encode_frame ping_hi)) ++ drop 3 (encode_frame ping_hi)).
  apply (talks_receive 0 sample cut1 _ [] 1 [RecvMax 1; RecvMax 9] _ [] true); [|by vm_compute| |by vm_compute].
  - apply (talks_receive 0 sample sample [] [] 1 [RecvIntr; RecvMax 3] _ [] true); [constructor|by vm_compute| |by vm_compute].
    rewrite app_nil_r. apply Forall_take, ping_hi_bytes.
  - rewrite app_nil_r. apply Forall_drop, ping_hi_bytes.
Qed.

(** A refused header, looked at twice: the close frame is repeated, and three of its bytes are sent. *)
Definition refused_once : Server := after_receive [RecvMax 9] [0x83; 0x80] sample.
Definition refused_twice : Server := after_receive [RecvMax 9] [1; 2; 3] refused_once.
Definition refused_sent : Server := snd (server.flush 0 2 (SendBytes 3) refused_twice).

Lemma refused_talks : talks 0 sample refused_sent [0x83; 0x80] [0x88; 2; 3].
Proof.
  apply (talks_flush 0 sample refused_twice _ [] 2 (SendBytes 3) true); [|by vm_compute|by vm_compute|].
  2: { unfold refused_sent. vm_compute. reflexivity. }
  apply (talks_receive 0 sample refused_once [0x83; 0x80] [] 1 [RecvMax 9] [] [1; 2; 3] true); [|by vm_compute| |by vm_compute].
  2: { repeat constructor; unfold in_u; lia. }
  apply (talks_receive 0 sample sample [] [] 1 [RecvMax 9] [0x83; 0x80] [] true); [constructor|by vm_compute| |by vm_compute].
  repeat constructor; unfold in_u; lia.
Qed.


Example ws_chunking_irrelevant_witness :
  unsent (conn whole 0) = [0x8A; 2; 72; 105] /\
  exists more, Forall client_frame_ok more /\ (ahead 0 whole cut2 [] [] more \/ ahead 0 cut2 whole [] [] more) /\
    (waiting (unread (conn whole 0)) -> waiting (unread (conn cut2 0)) -> more = []).
Proof.
  split; [by vm_compute|].
  refine (ws_chunking_irrelevant 0 sample whole cut2 (encode_frame ping_hi) [] [] sample_starts whole_talks cut2_talks _ _); split; by vm_compute.
Defined.

(** The ninth piece of a frame is not looked at: [receive] ends after its eighth
    pass with the bytes of the last [recv] unparsed, so a ping that arrives in
    eight reads stays unanswered until more bytes make the socket readable. *)
Example receive_leaves_complete_frame :
  let s := after_receive (replicate 8 (RecvMax 1)) (encode_frame ping_hi) sample in
  unread (conn s 0) = encode_frame ping_hi /\ unsent (conn s 0) = [] /\
  unsent (conn (after_receive [] [] s) 0) = [0x8A; 2; 72; 105].
Proof. vm_compute. repeat split. Qed.

(** While the close frame waits to be sent, every further [receive] refuses the
    same bytes again and queues another close frame. *)
Example refusal_is_repeated :
  let s := after_receive [RecvMax 9] [0x83; 0x80] sample in
  unsent (conn s 0) = close_frame 1002 /\
  unsent (conn (after_receive [] [] s) 0) = close_frame 1002 ++ close_frame 1002.
Proof. vm_compute. repeat split. Qed.

(** A frame refused for its payload is refused after it was unmasked in place, so the next
    [receive] masks it again: here the close frame with status 1005 is
    refused first and answered as a close frame with status 1000 then. *)
Example refused_frame_is_unmasked_twice :
  let s := after_receive [RecvMax 9] [0x88; 0x82; 0; 5; 0; 0; 0x03; 0xE8] sample in
  unsent (conn s 0) = close_frame 1002 /\
  unsent (conn (after_receive [] [] s) 0) = close_frame 1002 ++ close_frame 1000.
Proof. vm_compute. repeat split. Qed.
