(* ===== verification/WsIndex.v ===== *)
(** * The subscription index

    The open-addressing table of order ids and the doubly linked lists of
    connections that hang off its buckets, against a partition of the
    connections by order id.  Buckets are probed linearly; a bucket that loses
    its last subscriber becomes a tombstone. *)
From Stdlib Require Import ZArith Lia ZifyBool.
From stdpp Require Import functions.
From S2P Require Import Prelude Config Probe WsServer WsConn.

(** Case on the first decision of the goal. *)
Ltac goal_decide := match goal with |- context [decide ?P] => destruct (decide P) end.
Tactic Notation "goal_decide" "as" simple_intropattern(pat) := match goal with |- context [decide ?P] => destruct (decide P) as pat end.

(** ** The table *)
Definition kSubscriptionBits : Z := 11.

(** The key a bucket shows to the probe: 0 when empty, no order's key when
    deleted. *)
Definition bucket_key (s : Server) (b : Z) : Z :=
  match sb_state (bucket s b) with
  | bEmpty => 0
  | bTombstone => -1
  | bOccupied => sb_order_id (bucket s b) + 1
  end.

Abbreviation slot_of := (probe_slot kSubscriptionBits).
Abbreviation clear s := (clear_to kSubscriptionBits (bucket_key s)).

Lemma mask_bits : kSubscriptionMask = 2 ^ kSubscriptionBits - 1.
Proof. done. Qed.

Lemma buckets_bits : kSubscriptionBuckets = 2 ^ kSubscriptionBits.
Proof. done. Qed.

Lemma bits_pos : 0 <= kSubscriptionBits.
Proof. done. Qed.

#[export] Hint Resolve bits_pos : luv.

Lemma slot_range h d : 0 <= slot_of h d < kSubscriptionBuckets.
Proof. apply probe_slot_range, bits_pos. Qed.

Lemma subscription_hash_range id : 0 <= server.subscription_hash id < kSubscriptionBuckets.
Proof.
  unfold server.subscription_hash. rewrite mask_bits, land_mask by done. set (x := _ mod _).
  assert (0 <= x < 2 ^ kSubscriptionBits) as Hx by by apply Z.mod_pos_bound.
  change (2 ^ kSubscriptionBits) with 2048 in Hx. unfold kSubscriptionBuckets. rewrite wrap_u_id by (unfold in_u; lia). lia.
Qed.

(** Every bucket is on every probe sequence. *)
Lemma slot_onto h b : 0 <= b < kSubscriptionBuckets -> exists d, 0 <= d < kSubscriptionBuckets /\ b = slot_of h d.
Proof.
  intros Hb. rewrite buckets_bits in *. exists ((b - h) mod 2 ^ kSubscriptionBits). split; [by apply Z.mod_pos_bound|].
  unfold probe_slot. rewrite Zplus_mod_idemp_r. replace (h + (b - h)) with b by lia. by rewrite Z.mod_small.
Qed.

Lemma bucket_key_state s b : 0 <= sb_order_id (bucket s b) ->
  (bucket_key s b = 0 <-> sb_state (bucket s b) = bEmpty) /\
  (forall id, 0 <= id -> bucket_key s b = id + 1 <-> sb_state (bucket s b) = bOccupied /\ sb_order_id (bucket s b) = id).
Proof.
  unfold bucket_key. intros H. destruct (sb_state (bucket s b)); (split; [split; intros; first [done | lia] |]);
    intros id Hid; (split; [intros; first [lia | split; [done|lia]] | intros []; first [done | lia]]).
Qed.

(** Buckets in range hold unsigned order ids. *)
Definition ids_ok (s : Server) : Prop :=
  Z.of_nat (length (sv_subscriptions s)) = kSubscriptionBuckets /\ forall b, 0 <= sb_order_id (bucket s b).

(** The search of the source is the search of the shared library. *)
Lemma find_loop_probe n s id index : ids_ok s -> 0 <= id ->
  server.find_loop n s id index = default (-1) (probe_find (bucket_key s) kSubscriptionMask (id + 1) n index).
Proof.
  intros [_ Hids] Hid. revert index. induction n as [|n IH]; intros index; [done|]. cbn [server.find_loop]. rewrite probe_find_S.
  destruct (bucket_key_state s index (Hids index)) as [H0 Hk]. specialize (Hk id Hid).
  destruct (Z.eqb_spec (bucket_key s index) (id + 1)) as [E | E]; destruct (Z.eqb_spec (bucket_key s index) 0) as [E0 | E0]; [lia|..].
  - apply Hk in E as [E1 E2]. rewrite decide_False by congruence. by rewrite decide_True.
  - by rewrite decide_True by by apply H0.
  - rewrite decide_False by (intros ?; by apply E0, H0). rewrite decide_False by (intros ?; by apply E, Hk). apply IH.
Qed.

(** What the insertion loop returns, by where its first tombstone is. *)
Definition tombstone_seen (s : Server) (h d ft : Z) : Prop :=
  (ft = kSubscriptionBuckets /\ forall d', 0 <= d' < d -> sb_state (bucket s (slot_of h d')) = bOccupied) \/
  (exists e, 0 <= e < d /\ ft = slot_of h e /\ sb_state (bucket s ft) = bTombstone).

Definition creates (s : Server) (id h : Z) (r : Z * Server) : Prop :=
  (exists e t, 0 <= e < kSubscriptionBuckets /\ t = slot_of h e /\ clear s h (id + 1) e /\ sb_state (bucket s t) <> bOccupied /\
     r = (t, upd_bucket t (server.occupied id) s)) \/
  (r = (-1, s) /\ forall b, 0 <= b < kSubscriptionBuckets -> sb_state (bucket s b) = bOccupied).

Lemma create_loop_spec n s id h d ft : ids_ok s -> 0 <= id ->
  0 <= d -> d + Z.of_nat n = kSubscriptionBuckets -> clear s h (id + 1) d -> tombstone_seen s h d ft ->
  let r := server.create_loop n id (slot_of h d) ft s in
  match probe_find (bucket_key s) kSubscriptionMask (id + 1) n (slot_of h d) with
  | Some t => r = (t, s)
  | None => creates s id h r
  end.
Proof.
  intros [Hlen Hids] Hid. revert d ft. induction n as [|n IH]; intros d ft Hd Hn Hc Ht r; unfold r; clear r.
  - cbn [probe_find server.create_loop]. unfold creates. destruct Ht as [[-> Ht] | (e & He & Hft & Hs)].
    + rewrite Z.eqb_refl. right. split; [done|]. intros b Hb. destruct (slot_onto h b Hb) as (d' & Hd' & ->). apply Ht. lia.
    + left. exists e, ft. pose proof (slot_range h e) as Hr. rewrite <- Hft in Hr. case_if; [|lia].
      split; [lia|]. split; [done|]. split; [by eapply clear_to_mono; [|exact Hc]; lia|]. by rewrite Hs.
  - cbn [server.create_loop]. rewrite probe_find_S. destruct (bucket_key_state s (slot_of h d) (Hids _)) as [H0 Hk]. specialize (Hk id Hid).
    assert (forall ft', bucket_key s (slot_of h d) <> id + 1 -> bucket_key s (slot_of h d) <> 0 -> tombstone_seen s h (d + 1) ft' ->
      match probe_find (bucket_key s) kSubscriptionMask (id + 1) n (Z.land (slot_of h d + 1) kSubscriptionMask) with
      | Some t => server.create_loop n id (Z.land (slot_of h d + 1) kSubscriptionMask) ft' s = (t, s)
      | None => creates s id h (server.create_loop n id (Z.land (slot_of h d + 1) kSubscriptionMask) ft' s)
      end) as Hnext.
    { intros ft' Hne Hn0 Ht'. rewrite mask_bits, probe_slot_next by done. rewrite <- mask_bits. apply IH; [lia|lia| |done].
      by apply clear_to_succ. }
    assert (forall b, 0 <= b < kSubscriptionBuckets -> (b =? kSubscriptionBuckets) = false) as Hlt by lia.
    destruct (sb_state (bucket s (slot_of h d))) eqn:Es.
    + assert (bucket_key s (slot_of h d) = 0) as E0 by by apply H0. rewrite E0. destruct (Z.eqb_spec 0 (id + 1)); [lia|]. cbn [Z.eqb].
      left. destruct Ht as [[-> Ht] | (e & He & Hft & Hs)].
      * rewrite Z.eqb_refl. exists d, (slot_of h d). split; [lia|]. split; [done|]. split; [done|]. by rewrite Es.
      * pose proof (slot_range h e) as Hr. rewrite <- Hft in Hr. rewrite Hlt by done. exists e, ft. split; [lia|]. split; [done|].
        split; [by eapply clear_to_mono; [|exact Hc]; lia|]. by rewrite Hs.
    + destruct (Z.eqb_spec (bucket_key s (slot_of h d)) (id + 1)) as [E | E].
      * apply Hk in E as [_ E]. by rewrite E, Z.eqb_refl.
      * destruct (Z.eqb_spec (sb_order_id (bucket s (slot_of h d))) id) as [Eid | Eid]; [by destruct E; apply Hk|].
        destruct (Z.eqb_spec (bucket_key s (slot_of h d)) 0) as [E0 | E0]; [apply H0 in E0; congruence|].
        apply Hnext; [done|done|]. destruct Ht as [[-> Ht] | (e & He & Hft & Hs)]; [left; split; [done|]|right; exists e; split; [lia|done]].
        intros d' Hd'. destruct (Z.eq_dec d' d) as [-> | ]; [done|]. apply Ht. lia.
    + assert (bucket_key s (slot_of h d) = -1) as E1 by (unfold bucket_key; by rewrite Es).
      destruct (Z.eqb_spec (bucket_key s (slot_of h d)) (id + 1)); [lia|]. destruct (Z.eqb_spec (bucket_key s (slot_of h d)) 0); [lia|].
      apply Hnext; [done|done|]. right. destruct Ht as [[-> Ht] | (e & He & Hft & Hs)].
      * rewrite Z.eqb_refl. exists d. split; [lia|done].
      * pose proof (slot_range h e) as Hr. rewrite <- Hft in Hr. rewrite Hlt by done. exists e. split; [lia|done].
Qed.

(** An occupied bucket is found by the search for its order. *)
Record table_ok (s : Server) : Prop := {
  tb_ids : ids_ok s;
  tb_reach : forall b, 0 <= b < kSubscriptionBuckets -> sb_state (bucket s b) = bOccupied ->
    reachable kSubscriptionBits (bucket_key s) (server.subscription_hash (sb_order_id (bucket s b))) (sb_order_id (bucket s b) + 1) kSubscriptionBuckets b
}.

Lemma find_subscription_probe n s id : ids_ok s -> 0 <= id -> Z.of_nat n = kSubscriptionBuckets ->
  server.find_subscription id s = default (-1) (probe_find (bucket_key s) kSubscriptionMask (id + 1) n (server.subscription_hash id)).
Proof. intros Hids Hid Hn. rewrite <- find_loop_probe by done. unfold server.find_subscription. f_equal. lia. Qed.

Lemma find_or_create_loop n s id : Z.of_nat n = kSubscriptionBuckets ->
  server.find_or_create_subscription id s = server.create_loop n id (server.subscription_hash id) kSubscriptionBuckets s.
Proof. intros Hn. unfold server.find_or_create_subscription. f_equal. lia. Qed.

Lemma find_subscription_spec s id : table_ok s -> 0 <= id ->
  let b := server.find_subscription id s in
  if 0 <=? b then b < kSubscriptionBuckets /\ sb_state (bucket s b) = bOccupied /\ sb_order_id (bucket s b) = id
  else b = -1 /\ forall b, 0 <= b < kSubscriptionBuckets -> sb_state (bucket s b) = bOccupied -> sb_order_id (bucket s b) <> id.
Proof.
  intros [Hids Hreach] Hid b. pose proof (subscription_hash_range id) as Hh. unfold b, server.find_subscription. rewrite find_loop_probe by done. rewrite mask_bits.
  pose proof (fun t => probe_find_Some kSubscriptionBits bits_pos (bucket_key s) (server.subscription_hash id) (id + 1) (Z.to_nat kSubscriptionBuckets) t Hh ltac:(done)) as Hp.
  destruct (probe_find _ _ _ _ _) as [t|] eqn:E; cbn [default].
  - destruct (proj1 (Hp t) eq_refl) as [Hk Hr]. pose proof (reachable_range _ bits_pos _ _ _ _ _ Hr) as Ht.
    unfold Datatypes.id. rewrite <- buckets_bits in Ht. case_if; [|lia]. apply (proj2 (bucket_key_state s t (proj2 Hids t)) id Hid) in Hk. split; [lia|exact Hk].
  - cbn. split; [done|]. intros b' Hb' Hs Heq. specialize (Hreach b' Hb' Hs). rewrite Heq in Hreach.
    assert (None = Some b') by (apply Hp; split; [unfold bucket_key; rewrite Hs; lia|done]). done.
Qed.

(** At most one bucket per order. *)
Lemma table_unique s b b' : table_ok s -> 0 <= b < kSubscriptionBuckets -> 0 <= b' < kSubscriptionBuckets ->
  sb_state (bucket s b) = bOccupied -> sb_state (bucket s b') = bOccupied -> sb_order_id (bucket s b) = sb_order_id (bucket s b') -> b = b'.
Proof.
  intros [Hids Hreach] Hb Hb' Ho Ho' Heq. pose proof (Hreach b Hb Ho) as H1. pose proof (Hreach b' Hb' Ho') as H2. rewrite <- Heq in H2.
  apply (reachable_unique _ _ _ _ _ _ _ H1 H2); unfold bucket_key; [rewrite Ho|rewrite Ho']; lia.
Qed.

(** ** Chains *)

(** [seg s b p l n]: the connections [l] are linked in bucket [b], the first
    behind [p] and the last in front of [n]. *)
Fixpoint seg (s : Server) (b p : Z) (l : list Z) (n : Z) : Prop :=
  match l with
  | [] => True
  | i :: l =>
      in_pool s i = true /\ cn_subscription_bucket (conn s i) = b /\ cn_subscription_prev (conn s i) = p /\
      cn_subscription_next (conn s i) = hd n l /\ seg s b i l n
  end.

Definition last_of (p : Z) (l : list Z) : Z := default p (last l).

Lemma last_of_cons p i l : last_of p (i :: l) = last_of i l.
Proof. unfold last_of. rewrite last_cons. by destruct (last l). Qed.

Lemma hd_app (n : Z) l1 l2 : hd n (l1 ++ l2) = hd (hd n l2) l1.
Proof. by destruct l1. Qed.

Lemma chain_seg_app s b p l1 l2 n : seg s b p (l1 ++ l2) n <-> seg s b p l1 (hd n l2) /\ seg s b (last_of p l1) l2 n.
Proof.
  revert p. induction l1 as [|i l1 IH]; intros p; cbn [app seg]; [unfold last_of; cbn; tauto|].
  rewrite IH, last_of_cons, hd_app. tauto.
Qed.

Lemma seg_in s b p l n i : seg s b p l n -> i ∈ l -> in_pool s i = true /\ cn_subscription_bucket (conn s i) = b.
Proof.
  revert p. induction l as [|j l IH]; intros p; [by intros _ ?%not_elem_of_nil|]. intros (H1 & H2 & _ & _ & Hl) [-> | Hi]%elem_of_cons; [done|].
  by eapply IH.
Qed.

(** The links of a connection. *)
Definition links (c : Connection) : Z * Z * Z := (cn_subscription_bucket c, cn_subscription_prev c, cn_subscription_next c).

Lemma links_eq c b p n : links c = (b, p, n) <-> cn_subscription_bucket c = b /\ cn_subscription_prev c = p /\ cn_subscription_next c = n.
Proof. unfold links. split; [by intros [= <- <- <-]|by intros (-> & -> & ->)]. Qed.

Lemma chain_seg_ext s s' b p l n : max_connections s' = max_connections s ->
  (forall i, i ∈ l -> links (conn s' i) = links (conn s i)) -> seg s b p l n -> seg s' b p l n.
Proof.
  intros Hm. revert p. induction l as [|i l IH]; intros p Hl; [done|]. intros (H1 & H2 & H3 & H4 & H5). cbn [seg].
  specialize (Hl i ltac:(by left)) as Hi. apply links_eq in Hi as (-> & -> & ->).
  split; [unfold in_pool in *; by rewrite Hm|]. do 3 (split; [done|]). apply IH; [|done]. intros j Hj. apply Hl. by right.
Qed.

(** [C b] is the chain of bucket [b]. *)
Record chains_ok (s : Server) (C : Z -> list Z) : Prop := {
  ch_seg : forall b, 0 <= b < kSubscriptionBuckets -> seg s b (-1) (C b) (-1);
  ch_nodup : forall b, NoDup (C b);
  ch_head : forall b, 0 <= b < kSubscriptionBuckets -> sb_head (bucket s b) = hd (-1) (C b);
  ch_member : forall i, in_pool s i = true -> 0 <= cn_subscription_bucket (conn s i) < kSubscriptionBuckets ->
    i ∈ C (cn_subscription_bucket (conn s i));
  ch_linked : forall i, in_pool s i = true -> 0 <= cn_subscription_bucket (conn s i) < kSubscriptionBuckets \/
    cn_subscription_bucket (conn s i) = kNoSubscriptionBucket;
  ch_state : forall b, 0 <= b < kSubscriptionBuckets -> C b <> [] -> sb_state (bucket s b) = bOccupied;
  ch_order : forall b i, 0 <= b < kSubscriptionBuckets -> i ∈ C b -> cn_order_id (conn s i) = sb_order_id (bucket s b)
}.

(** Every occupied bucket has a subscriber. *)
Definition no_idle (s : Server) (C : Z -> list Z) : Prop :=
  forall b, 0 <= b < kSubscriptionBuckets -> sb_state (bucket s b) = bOccupied -> C b <> [].

Lemma ch_elem s C b i : chains_ok s C -> 0 <= b < kSubscriptionBuckets ->
  i ∈ C b <-> in_pool s i = true /\ cn_subscription_bucket (conn s i) = b.
Proof.
  intros [] Hb. split; [intros Hi; by eapply seg_in; [apply ch_seg0|]|]. intros [Hi <-]. by apply ch_member0.
Qed.

Lemma bucket_upd_eq b x s : 0 <= b < Z.of_nat (length (sv_subscriptions s)) -> bucket (upd_bucket b x s) b = x.
Proof. intros Hb. unfold bucket, upd_bucket. cbn. by apply lget_lset_eq. Qed.

Lemma bucket_upd_ne b b' x s : b <> b' -> bucket (upd_bucket b x s) b' = bucket s b'.
Proof. intros Hb. unfold bucket, upd_bucket. cbn. by apply lget_lset_ne. Qed.

Lemma bucket_upd_conn i f s b : bucket (upd_conn i f s) b = bucket s b.
Proof. done. Qed.

Lemma conn_upd_bucket b x s i : conn (upd_bucket b x s) i = conn s i.
Proof. done. Qed.

(** A table with one bucket rewritten, but not emptied. *)
Lemma table_write s b x : table_ok s -> 0 <= b < kSubscriptionBuckets -> 0 <= sb_order_id x ->
  sb_state x <> bEmpty ->
  (sb_state x = bOccupied -> reachable kSubscriptionBits (bucket_key s) (server.subscription_hash (sb_order_id x)) (sb_order_id x + 1) kSubscriptionBuckets b) ->
  (sb_state x = bOccupied -> forall b', 0 <= b' < kSubscriptionBuckets -> sb_state (bucket s b') = bOccupied -> sb_order_id (bucket s b') = sb_order_id x -> b' = b) ->
  table_ok (upd_bucket b x s).
Proof.
  intros [[Hlen Hids] Hreach] Hb Hx Hne Hr Hu.
  assert (forall b', bucket (upd_bucket b x s) b' = if decide (b = b') then x else bucket s b') as Hbk.
  { intros b'. case_decide as H; [subst b'; apply bucket_upd_eq; lia|by apply bucket_upd_ne]. }
  set (kx := match sb_state x with bEmpty => 0 | bTombstone => -1 | bOccupied => sb_order_id x + 1 end).
  assert (forall b', bucket_key (upd_bucket b x s) b' = if decide (b = b') then kx else bucket_key s b') as Hkey.
  { intros b'. unfold bucket_key. rewrite Hbk. by case_decide. }
  assert (kx <> 0) as Hkx by (unfold kx; destruct (sb_state x); (done || lia)).
  split; [split; [by unfold upd_bucket, with_subscriptions; cbn; rewrite length_lset|intros b'; rewrite Hbk; by case_decide]|].
  intros b' Hb' Hs. rewrite Hbk in Hs |- *. case_decide as Heq.
  - subst b'. destruct (Hr Hs) as (e & He & -> & Hc).
    exists e. split; [done|]. split; [done|]. intros d Hd. rewrite Hkey. case_decide as Heq; [|by apply Hc].
    apply probe_slot_inj in Heq; [lia|done|rewrite <- buckets_bits; lia..].
  - specialize (Hreach b' Hb' Hs). destruct (Z.eq_dec kx (sb_order_id (bucket s b') + 1)) as [Hk | Hk].
    + exfalso. apply Heq. symmetry. apply Hu; [|done|done|]; unfold kx in Hk; destruct (sb_state x) eqn:Es; (done || lia || (specialize (Hids b'); lia)).
    + by eapply reachable_write.
Qed.

(** ** Operations *)

(** Only links of connections and the subscription table differ. *)
Record relinked (s s' : Server) : Prop := {
  rl_server : s' = with_connections (sv_connections s') (with_subscriptions (sv_subscriptions s') s);
  rl_max : max_connections s' = max_connections s;
  rl_conn : forall j, conn s' j = set_links (cn_subscription_bucket (conn s' j)) (cn_subscription_prev (conn s' j)) (cn_subscription_next (conn s' j)) (conn s j)
}.

Lemma set_links_same c : set_links (cn_subscription_bucket c) (cn_subscription_prev c) (cn_subscription_next c) c = c.
Proof. by destruct c. Qed.

Lemma relinked_refl s : relinked s s.
Proof. split; [by destruct s|done|intros j; by rewrite set_links_same]. Qed.

Lemma relinked_trans s1 s2 s3 : relinked s1 s2 -> relinked s2 s3 -> relinked s1 s3.
Proof.
  intros [E1 M1 C1] [E2 M2 C2]. split; [by rewrite E2, E1|congruence|]. intros j. by rewrite C2, C1 at 1.
Qed.

Lemma relinked_upd i s b p n : relinked s (upd_conn i (set_links b p n) s).
Proof.
  split; [done|apply max_connections_upd|]. intros j. destruct (Z.eq_dec i j) as [<- | Hij].
  - destruct (in_pool s i) eqn:Hi; [by rewrite conn_upd_eq|].
    assert (conn (upd_conn i (set_links b p n) s) i = conn s i) as ->; [|by rewrite set_links_same].
    unfold conn at 1, upd_conn, conn. cbn. unfold in_pool, max_connections in Hi. unfold lget, lset. case_if; [|done].
    rewrite list_insert_ge by lia. done.
  - rewrite conn_upd_ne by done. by rewrite set_links_same.
Qed.

Lemma relinked_bucket b x s : relinked s (upd_bucket b x s).
Proof. split; [by destruct s|done|intros j; by rewrite conn_upd_bucket, set_links_same]. Qed.

(** Insertion of an order: afterwards the bucket exists, and nothing else has
    changed. *)
Lemma find_or_create_spec s C id : table_ok s -> chains_ok s C -> no_idle s C -> 0 <= id ->
  (exists b, 0 <= b < kSubscriptionBuckets /\ sb_state (bucket s b) <> bOccupied) ->
  exists b s', server.find_or_create_subscription id s = (b, s') /\ 0 <= b < kSubscriptionBuckets /\
    table_ok s' /\ chains_ok s' C /\ relinked s s' /\ sb_state (bucket s' b) = bOccupied /\ sb_order_id (bucket s' b) = id /\
    (forall b', 0 <= b' < kSubscriptionBuckets -> sb_state (bucket s' b') = bOccupied -> b' = b \/ C b' <> []) /\
    sv_connections s' = sv_connections s.
Proof.
  intros Ht Hc Hni Hid (bf & Hbf & Hfree). pose proof Ht as [[Hlen Hids] Hreach]. pose proof (subscription_hash_range id) as Hh.
  pose proof (find_subscription_spec s id Ht Hid) as Hfind.
  assert (exists n, Z.of_nat n = kSubscriptionBuckets) as [n Hn] by (exists (Z.to_nat kSubscriptionBuckets); apply Z2Nat.id; lia).
  rewrite (find_subscription_probe n) in Hfind by (try apply (conj Hlen Hids); done). rewrite (find_or_create_loop n) by done.
  pose proof (create_loop_spec n s id (server.subscription_hash id) 0 kSubscriptionBuckets (conj Hlen Hids) Hid ltac:(lia) Hn
    ltac:(intros ??; lia) ltac:(left; split; [done|intros; lia])) as Hcr. cbv zeta in Hcr, Hfind.
  rewrite probe_slot_0 in Hcr by done.
  destruct (probe_find _ _ _ _ _) as [t|] eqn:E; cbn [default] in Hfind; unfold Datatypes.id in Hfind.
  - rewrite Hcr. exists t, s. split; [done|]. 
    destruct (proj1 (probe_find_Some kSubscriptionBits bits_pos (bucket_key s) (server.subscription_hash id) (id + 1) n t Hh ltac:(rewrite Hn; done)) E)
      as [_ (e & _ & -> & _)]. pose proof (slot_range (server.subscription_hash id) e) as Hr. case_if_in Hfind; [|lia]. destruct Hfind as (_ & Hs & Ho). repeat (split; [done|]).
    split; [apply relinked_refl|]. do 2 (split; [done|]). split; [|done]. intros b' Hb' Hs'. right. by apply Hni.
  - cbn in Hfind. destruct Hfind as [_ Hnew]. destruct Hcr as [(e & t & He & Heq & Hclear & Hocc & ->) | (_ & Hall)]; [|by destruct Hfree; apply Hall].
    pose proof (slot_range (server.subscription_hash id) e) as Hr. rewrite <- Heq in Hr.
    assert (C t = []) as Hct. { destruct (decide (C t = [])) as [|Hne]; [done|]. destruct Hocc. by apply (ch_state _ _ Hc). }
    exists t, (upd_bucket t (server.occupied id) s). split; [done|]. split; [done|].
    split. { apply table_write; [done|done|done|done|intros _; by exists e|]. intros _ b' Hb' Hs' Ho'. by destruct (Hnew b' Hb' Hs'). }
    split; [|split; [apply relinked_bucket|]].
    + destruct Hc as [H1 H2 H3 H4 H5 H6 H7]. split; [by intros b Hb; apply (chain_seg_ext s); [|intros|apply H1]|done| |done|done| |].
      * intros b Hb. destruct (Z.eq_dec t b) as [<- | Hne]; [rewrite bucket_upd_eq by lia; by rewrite Hct|rewrite bucket_upd_ne by done; by apply H3].
      * intros b Hb Hne. destruct (Z.eq_dec t b) as [<- | Hne']; [by rewrite bucket_upd_eq by lia|rewrite bucket_upd_ne by done; by apply H6].
      * intros b i Hb Hi. destruct (Z.eq_dec t b) as [<- | Hne']; [rewrite Hct in Hi; by apply not_elem_of_nil in Hi|]. rewrite bucket_upd_ne by done. by apply H7.
    + rewrite bucket_upd_eq by lia. do 2 (split; [done|]). split; [|done]. intros b' Hb' Hs'.
      destruct (Z.eq_dec t b') as [<- | Hne]; [by left|]. right. rewrite bucket_upd_ne in Hs' by done. by apply Hni.
Qed.

(** Chains after an update of the links; [L] gives the new ones. *)
Lemma chains_link s C b i s' :
  chains_ok s C -> 0 <= b < kSubscriptionBuckets -> in_pool s i = true -> cn_subscription_bucket (conn s i) = kNoSubscriptionBucket ->
  sb_state (bucket s b) = bOccupied -> cn_order_id (conn s i) = sb_order_id (bucket s b) ->
  max_connections s' = max_connections s ->
  (forall j, cn_order_id (conn s' j) = cn_order_id (conn s j)) ->
  (forall j, links (conn s' j) = if decide (j = i) then (b, -1, hd (-1) (C b))
     else if decide (j ∈ take 1 (C b)) then (cn_subscription_bucket (conn s j), i, cn_subscription_next (conn s j)) else links (conn s j)) ->
  (forall b', bucket s' b' = if decide (b' = b) then mkBucket (sb_order_id (bucket s b)) i (sb_state (bucket s b)) else bucket s b') ->
  chains_ok s' (<[b := i :: C b]> C).
Proof.
  intros Hc Hb Hi Hun Hst Hord Hm Ho Hl Hbk. pose proof (ch_elem s C) as Hel.
  assert (forall b', 0 <= b' < kSubscriptionBuckets -> i ∉ C b') as Hni.
  { intros b' Hb' Hin. apply (Hel b' i Hc Hb') in Hin as [_ Hin]. rewrite Hun in Hin. unfold kNoSubscriptionBucket, kSubscriptionBuckets in *. lia. }
  assert (forall j, in_pool s' j = in_pool s j) as Hp by (intros j; unfold in_pool; by rewrite Hm).
  assert (forall j, cn_subscription_bucket (conn s' j) = if decide (j = i) then b else cn_subscription_bucket (conn s j)) as Hbj.
  { intros j. specialize (Hl j). unfold links in Hl. repeat case_decide; congruence. }
  assert (forall b', <[b:=i :: C b]> C b' = if decide (b' = b) then i :: C b else C b') as HC.
  { intros b'. case_decide as E; [by rewrite E, fn_lookup_insert|by rewrite fn_lookup_insert_ne]. }
  destruct Hc as [H1 H2 H3 H4 H5 H6 H7]. split.
  - intros b' Hb'. rewrite HC. case_decide as E.
    + subst b'. pose proof (Hl i) as Hli. rewrite decide_True in Hli by done. apply links_eq in Hli as (L1 & L2 & L3).
      cbn [seg]. rewrite Hp. do 4 (split; [done|]). specialize (H1 b Hb). specialize (Hni b Hb). destruct (C b) as [|h l] eqn:EC; [done|].
      cbn [seg] in H1 |- *. destruct H1 as (S1 & S2 & S3 & S4 & S5). rewrite not_elem_of_cons in Hni. destruct Hni as [Hne Hnl].
      pose proof (Hl h) as Hlh. rewrite decide_False, decide_True in Hlh by (try (by left); congruence). apply links_eq in Hlh as (-> & -> & ->).
      rewrite Hp. do 4 (split; [done|]). apply (chain_seg_ext s); [done| |done]. intros j Hj. rewrite Hl.
      assert (j <> i) by (intros ->; done). specialize (H2 b). rewrite EC in H2. apply NoDup_cons in H2 as [Hh _].
      rewrite decide_False by done. rewrite decide_False; [done|]. cbn [take]. rewrite list_elem_of_singleton. by intros ->.
    + apply (chain_seg_ext s); [done| |by apply H1]. intros j Hj. rewrite Hl. rewrite decide_False by (intros ->; by apply (Hni b')).
      rewrite decide_False; [done|]. intros Hj'. assert (j ∈ C b) as Hj'' by (rewrite <- (take_drop 1 (C b)); apply elem_of_app; by left).
      apply (Hel b j) in Hj'' as [_ E1]; [|by split|done]. apply (Hel b' j) in Hj as [_ E2]; [|by split|done]. congruence.
  - intros b'. rewrite HC. case_decide; [|done]. apply NoDup_cons. split; [by apply Hni|done].
  - intros b' Hb'. rewrite HC, Hbk. case_decide; [done|by apply H3].
  - intros j. rewrite Hp, Hbj, HC. intros Hj Hjb. destruct (decide (j = i)) as [-> | Hji].
    + rewrite decide_True by done. by left.
    + specialize (H4 j Hj Hjb). case_decide as E; [right; by rewrite <- E|done].
  - intros j. rewrite Hp, Hbj. intros Hj. case_decide; [by left|by apply H5].
  - intros b' Hb'. rewrite HC, Hbk. case_decide; [done|by apply H6].
  - intros b' j Hb'. rewrite HC, Hbk, Ho. case_decide as E; [|by apply H7]. cbn [sb_order_id]. rewrite elem_of_cons. intros [-> | Hj]; [done|by apply H7].
Qed.

(** The state of the table, the chains and the unlinked connections between
    operations. *)
Record index_ok (s : Server) (C : Z -> list Z) : Prop := {
  ix_table : table_ok s;
  ix_chains : chains_ok s C;
  ix_busy : no_idle s C
}.

(** Fewer connections than buckets, so some bucket is never occupied. *)
Lemma free_bucket s C : index_ok s C -> max_connections s < kSubscriptionBuckets ->
  exists b, 0 <= b < kSubscriptionBuckets /\ sb_state (bucket s b) <> bOccupied.
Proof.
  intros [Ht Hc Hn] Hmax. set (l := zrange 0 (Z.to_nat kSubscriptionBuckets)).
  destruct (decide (Forall (fun b => sb_state (bucket s b) = bOccupied) l)) as [Hall | Hex].
  2:{ apply not_Forall_Exists in Hex; [|apply _]. apply Exists_exists in Hex as (b & Hb & Hst). apply elem_of_zrange in Hb.
      exists b. split; [unfold kSubscriptionBuckets in *; lia|done]. }
  exfalso. rewrite Forall_forall in Hall.
  assert (forall b, b ∈ l -> 0 <= b < kSubscriptionBuckets) as Hl by (intros b Hb%elem_of_zrange; unfold kSubscriptionBuckets in *; lia).
  set (head b := hd (-1) (C b)).
  assert (forall b, b ∈ l -> head b ∈ C b) as Hh.
  { intros b Hb. specialize (Hn b (Hl b Hb) (Hall b Hb)). unfold head. destruct (C b); [done|by left]. }
  assert (NoDup (head <$> l)) as Hnd.
  { apply NoDup_fmap_2_strong; [|apply NoDup_zrange]. intros b b' Hb Hb' Heq. apply Hh in Hb as Hin, Hb' as Hin'. rewrite Heq in Hin.
    apply (ch_elem s C b _ Hc (Hl b Hb)) in Hin as [_ E]. apply (ch_elem s C b' _ Hc (Hl b' Hb')) in Hin' as [_ E']. congruence. }
  assert (head <$> l ⊆ zrange 0 (length (sv_connections s))) as Hsub.
  { intros i (b & -> & Hb)%list_elem_of_fmap. apply Hh in Hb as Hin. apply (ch_elem s C b _ Hc (Hl b Hb)) in Hin as [Hp _].
    apply in_pool_iff in Hp. apply elem_of_zrange. unfold max_connections in Hp. lia. }
  apply (NoDup_submseteq _ _ Hnd), submseteq_length in Hsub. unfold l in Hsub. rewrite length_fmap, !length_zrange in Hsub.
  unfold max_connections, kSubscriptionBuckets in *. lia.
Qed.

Lemma table_ext s s' : length (sv_subscriptions s') = length (sv_subscriptions s) -> (forall b, bucket s' b = bucket s b) -> table_ok s -> table_ok s'.
Proof.
  intros Heq Hb [[Hlen Hids] Hreach].
  assert (forall b, bucket_key s' b = bucket_key s b) as Hk by (intros b; unfold bucket_key; by rewrite Hb).
  split; [split; [by rewrite Heq|intros b; by rewrite Hb]|]. intros b Hr Hs. rewrite Hb in Hs |- *.
  destruct (Hreach b Hr Hs) as (d & Hd & Heqd & Hc). exists d. split; [done|]. split; [done|]. intros d' Hd'. rewrite Hk. by apply Hc.
Qed.

(** A bucket that stays occupied by its order. *)
Lemma table_head s b h : table_ok s -> 0 <= b < kSubscriptionBuckets -> sb_state (bucket s b) = bOccupied ->
  table_ok (upd_bucket b (mkBucket (sb_order_id (bucket s b)) h (sb_state (bucket s b))) s).
Proof.
  intros Ht Hb Hs. pose proof Ht as [[_ Hids] Hreach]. apply table_write; cbn [sb_order_id sb_state]; [done|done|apply Hids|by rewrite Hs|intros _; by apply Hreach|].
  intros _ b' Hb' Hs' Heq. by apply (table_unique s).
Qed.

Lemma links_set b p n c : links (set_links b p n c) = (b, p, n).
Proof. done. Qed.

(** Subscribing an unlinked open connection puts it at the head of the chain of
    its order, and never fails. *)
Lemma subscribe_spec s C i :
  index_ok s C -> max_connections s < kSubscriptionBuckets -> in_pool s i = true -> 0 <= cn_fd (conn s i) -> 0 <= cn_order_id (conn s i) ->
  cn_subscription_bucket (conn s i) = kNoSubscriptionBucket ->
  exists b s', server.subscribe i s = (true, s') /\ 0 <= b < kSubscriptionBuckets /\ index_ok s' (<[b := i :: C b]> C) /\ relinked s s'.
Proof.
  intros Hix Hmax Hi Hfd Hid Hun. pose proof Hix as [Ht Hc Hni]. unfold server.subscribe. rewrite Hi. assert ((cn_fd (conn s i) <? 0) = false) as -> by lia. cbn [negb orb].
  destruct (find_or_create_spec s C (cn_order_id (conn s i)) Ht Hc Hni Hid) as (b & s1 & -> & Hb & Ht1 & Hc1 & Hr1 & Hs1 & Ho1 & Hni1 & Hconn); [by eapply free_bucket|].
  assert (forall j, conn s1 j = conn s j) as Hcj by (intros j; unfold conn; by rewrite Hconn).
  assert (in_pool s1 i = true) as Hi1 by (unfold in_pool, max_connections; by rewrite Hconn).
  case_if; [lia|]. pose proof (ch_head _ _ Hc1 b Hb) as Hh. rewrite Hh.
  set (s2 := upd_conn i (set_links b (-1) (hd (-1) (C b))) s1). set (s3 := if 0 <=? hd (-1) (C b) then _ else s2).
  assert (relinked s1 s3) as Hr3.
  { apply (relinked_trans _ s2); [apply relinked_upd|]. unfold s3. case_if; [|apply relinked_refl]. apply (relinked_upd (hd (-1) (C b)) s2). }
  assert (sv_subscriptions s3 = sv_subscriptions s1) as Hsub by (unfold s3, s2; by case_if).
  assert (forall b', bucket s3 b' = bucket s1 b') as Hb3 by (intros b'; unfold bucket; by rewrite Hsub).
  exists b. eexists. split; [done|]. split; [done|]. rewrite <- (Hb3 b).
  assert (sv_subscriptions s3 = sv_subscriptions s1) by done.
  split; [|eapply relinked_trans; [exact Hr1|eapply relinked_trans; [exact Hr3|apply relinked_bucket]]].
  set (s4 := upd_bucket _ _ s3). assert (forall b', bucket s4 b' = if decide (b' = b) then mkBucket (sb_order_id (bucket s1 b)) i (sb_state (bucket s1 b)) else bucket s1 b') as Hb4.
  { intros b'. unfold s4. case_decide as E; [subst b'; rewrite bucket_upd_eq, Hb3; [done|]|by rewrite bucket_upd_ne, Hb3].
    rewrite Hsub. destruct Ht1 as [[-> _] _]. done. }
  split.
  - apply table_head; [by apply (table_ext s1); [rewrite Hsub| |]|done|by rewrite Hb3].
  - apply (chains_link s1 C b i s4); try done; [by rewrite Hcj|by rewrite Hcj, Ho1|apply Hr3|intros j; change (conn s4 j) with (conn s3 j); by rewrite (rl_conn _ _ Hr3 j)|].
    intros j. change (conn s4 j) with (conn s3 j). unfold s3. pose proof (ch_seg _ _ Hc1 b Hb) as Hseg.
    destruct (C b) as [|h l] eqn:EC; cbn [hd take].
    + rewrite (proj2 (Z.leb_gt 0 (-1))) by lia. case_decide as E; [subst j; unfold s2; by rewrite conn_upd_eq|].
      rewrite decide_False by apply not_elem_of_nil. unfold s2. by rewrite conn_upd_ne.
    + cbn [seg] in Hseg. destruct Hseg as (Hp & Hbh & _). assert (i <> h) as Hne.
      { intros <-. rewrite Hcj, Hun in Hbh. unfold kNoSubscriptionBucket, kSubscriptionBuckets in *. lia. }
      pose proof Hp as Hp'. apply in_pool_iff in Hp'. case_if; [|lia]. case_decide as E.
      * subst j. rewrite conn_upd_ne by done. unfold s2. by rewrite conn_upd_eq.
      * destruct (decide (j = h)) as [-> | Hjh].
        -- rewrite decide_True by by left. rewrite conn_upd_eq by (unfold s2; by rewrite in_pool_upd). unfold s2. rewrite conn_upd_ne by done. done.
        -- rewrite decide_False by by rewrite list_elem_of_singleton. rewrite conn_upd_ne by done. unfold s2. by rewrite conn_upd_ne.
  - intros b' Hb' Hs'. rewrite Hb4 in Hs'. destruct (decide (b' = b)) as [-> | Hne]; [by rewrite fn_lookup_insert|]. rewrite fn_lookup_insert_ne by done.
    destruct (Hni1 b' Hb' Hs') as [-> | ?]; done.
Qed.

(** A segment with another successor, or another predecessor. *)
Lemma seg_retail s s' b p l n n' : max_connections s' = max_connections s -> NoDup l ->
  (forall j, j ∈ l -> links (conn s' j) = if decide (last l = Some j) then (b, cn_subscription_prev (conn s j), n') else links (conn s j)) ->
  seg s b p l n -> seg s' b p l n'.
Proof.
  intros Hm. revert p. induction l as [|i l IH]; intros p Hnd Hl; [done|]. intros (H1 & H2 & H3 & H4 & H5). apply NoDup_cons in Hnd as [Hi Hnd].
  cbn [seg]. assert (in_pool s' i = true) as -> by (unfold in_pool in *; by rewrite Hm). split; [done|].
  pose proof (Hl i ltac:(by left)) as Hli. destruct l as [|j l].
  - rewrite decide_True in Hli by done. apply links_eq in Hli as (-> & -> & ->). by repeat split.
  - rewrite decide_False in Hli. 2:{ rewrite last_cons_cons. intros Hlast. apply Hi. apply last_Some in Hlast as [l' ->]. apply elem_of_app. right. by left. }
    apply links_eq in Hli as (-> & -> & ->). do 3 (split; [done|]). apply IH; [done| |done]. intros k Hk. rewrite Hl by by right. by rewrite last_cons_cons.
Qed.

Lemma seg_rehead s s' b p p' l n : max_connections s' = max_connections s -> NoDup l ->
  (forall j, j ∈ l -> links (conn s' j) = if decide (head l = Some j) then (b, p', cn_subscription_next (conn s j)) else links (conn s j)) ->
  seg s b p l n -> seg s' b p' l n.
Proof.
  intros Hm Hnd Hl. destruct l as [|i l]; [done|]. intros (H1 & H2 & H3 & H4 & H5). apply NoDup_cons in Hnd as [Hi Hnd].
  cbn [seg]. assert (in_pool s' i = true) as -> by (unfold in_pool in *; by rewrite Hm). split; [done|].
  pose proof (Hl i ltac:(by left)) as Hli. rewrite decide_True in Hli by done. apply links_eq in Hli as (-> & -> & ->). do 3 (split; [done|]).
  apply (chain_seg_ext s); [done| |done]. intros j Hj. rewrite Hl by by right. rewrite decide_False; [done|]. by intros [= ->].
Qed.

(** Chains after the removal of [i] from the chain of [b]. *)
Lemma chains_unlink s C b i l1 l2 s' :
  chains_ok s C -> 0 <= b < kSubscriptionBuckets -> C b = l1 ++ i :: l2 ->
  max_connections s' = max_connections s -> (forall j, cn_order_id (conn s' j) = cn_order_id (conn s j)) ->
  (forall j, links (conn s' j) = if decide (j = i) then (kNoSubscriptionBucket, -1, -1)
     else if decide (last l1 = Some j) then (b, cn_subscription_prev (conn s j), hd (-1) l2)
     else if decide (head l2 = Some j) then (b, last_of (-1) l1, cn_subscription_next (conn s j)) else links (conn s j)) ->
  (forall b', bucket s' b' = if decide (b' = b) then mkBucket (sb_order_id (bucket s b)) (hd (-1) (l1 ++ l2))
       (if decide (l1 ++ l2 = []) then bTombstone else bOccupied) else bucket s b') ->
  chains_ok s' (<[b := l1 ++ l2]> C).
Proof.
  intros Hc Hb HC Hm Ho Hl Hbk. pose proof (fun b' j => ch_elem s C b' j Hc) as Hel.
  assert (forall j, in_pool s' j = in_pool s j) as Hp by (intros j; unfold in_pool; by rewrite Hm).
  assert (forall b', <[b:=l1 ++ l2]> C b' = if decide (b' = b) then l1 ++ l2 else C b') as HC'.
  { intros b'. goal_decide as [E|E]; [by rewrite E, fn_lookup_insert|by rewrite fn_lookup_insert_ne]. }
  assert (NoDup (l1 ++ i :: l2)) as Hnd by (rewrite <- HC; apply (ch_nodup _ _ Hc)).
  pose proof Hnd as Hnd'. apply NoDup_app in Hnd' as (Hn1 & Hn12 & Hn2). apply NoDup_cons in Hn2 as [Hi2 Hn2].
  assert (i ∉ l1) as Hi1 by (intros H; apply (Hn12 i H); by left).
  assert (forall j, last l1 = Some j -> j ∈ l1) as Hlast by (intros j [l' ->]%last_Some; apply elem_of_app; right; by left).
  assert (forall j, head l2 = Some j -> j ∈ l2) as Hhead by (intros j [l' ->]%head_Some; by left).
  assert (forall j, j ∈ l1 ++ l2 -> j ∈ C b) as Hsub by (intros j; rewrite HC, !elem_of_app, elem_of_cons; tauto).
  assert (i ∈ C b) as Hib by (rewrite HC; apply elem_of_app; right; by left).
  assert (forall j, cn_subscription_bucket (conn s' j) = if decide (j = i) then kNoSubscriptionBucket else cn_subscription_bucket (conn s j)) as Hbj.
  { intros j. specialize (Hl j). unfold links in Hl. destruct (decide (j = i)); [congruence|]. destruct (decide (last l1 = Some j)), (decide (head l2 = Some j)); [..|congruence]; injection Hl as -> _ _; symmetry; apply (Hel b j Hb); apply Hsub, elem_of_app;
      first [left; by apply Hlast | right; by apply Hhead]. }
  assert (NoDup (l1 ++ l2)) as Hnd12 by (apply NoDup_app; split; [done|]; split; [|done]; intros j H1 H2; apply (Hn12 j H1); by right).
  destruct Hc as [H1 H2 H3 H4 H5 H6 H7]. split.
  - intros b' Hb'. rewrite HC'. goal_decide as [E|E].
    + subst b'. specialize (H1 b Hb). rewrite HC in H1. apply chain_seg_app in H1 as [S1 (_ & _ & _ & _ & S2)]. apply chain_seg_app. split.
      * eapply (seg_retail s); [done|done| |exact S1]. intros j Hj. rewrite Hl. rewrite decide_False by (by intros ->). repeat goal_decide; try done.
        exfalso. apply (Hn12 j Hj). right. by apply Hhead.
      * eapply (seg_rehead s); [done|done| |exact S2]. intros j Hj. rewrite Hl. rewrite decide_False by (by intros ->). rewrite decide_False; [done|].
        intros Hj'%Hlast. apply (Hn12 j Hj'). by right.
    + apply (chain_seg_ext s); [done| |by apply H1]. intros j Hj. rewrite Hl. apply (Hel b' j Hb') in Hj as [_ Hj].
      assert (j ∉ C b) as Hjb by (intros [_ ?]%(Hel b j Hb); congruence).
      rewrite decide_False by (by intros ->). rewrite decide_False by (intros ?%Hlast; apply Hjb, Hsub, elem_of_app; by left).
      rewrite decide_False by (intros ?%Hhead; apply Hjb, Hsub, elem_of_app; by right). done.
  - intros b'. rewrite HC'. by goal_decide.
  - intros b' Hb'. rewrite HC', Hbk. goal_decide; [done|by apply H3].
  - intros j. rewrite Hp, Hbj, HC'. intros Hj Hjb. destruct (decide (j = i)) as [-> | Hji]; [unfold kNoSubscriptionBucket, kSubscriptionBuckets in *; lia|].
    specialize (H4 j Hj Hjb). goal_decide as [E|E]; [|done]. rewrite E, HC in H4. revert H4. rewrite !elem_of_app, elem_of_cons. tauto.
  - intros j. rewrite Hp, Hbj. intros Hj. goal_decide; [by right|by apply H5].
  - intros b' Hb'. rewrite HC', Hbk. goal_decide; [|by apply H6]. intros Hne. cbn [sb_state]. by rewrite decide_False.
  - intros b' j Hb'. rewrite HC', Hbk, Ho. goal_decide as [E|E]; [|by apply H7]. cbn [sb_order_id]. intros Hj%Hsub. by apply H7.
Qed.


Lemma last_in l (x : Z) : last l = Some x -> x ∈ l.
Proof. intros [l' ->]%last_Some. apply elem_of_app. right. by left. Qed.

Lemma head_in l (x : Z) : head l = Some x -> x ∈ l.
Proof. intros [l' ->]%head_Some. by left. Qed.

Lemma last_of_cases l : (l = [] /\ last_of (-1) l = -1 /\ last l = None) \/ (exists x, last l = Some x /\ last_of (-1) l = x /\ x ∈ l /\ hd (-1) l ∈ l).
Proof.
  unfold last_of. destruct (last l) as [x|] eqn:E; [right|left; by apply last_None in E as ->].
  exists x. split; [done|]. split; [done|]. split; [by apply last_in|]. destruct l; [done|by left].
Qed.

Lemma hd_cases l : (l = [] /\ hd (-1) l = -1 /\ head l = None) \/ (exists x, head l = Some x /\ hd (-1) l = x /\ x ∈ l).
Proof. destruct l as [|x l]; [by left|]. right. exists x. repeat split. by left. Qed.

(** What [unsubscribe] does to the links and to the bucket. *)
Lemma unsubscribe_effect s C b i l1 l2 :
  chains_ok s C -> Z.of_nat (length (sv_subscriptions s)) = kSubscriptionBuckets -> 0 <= b < kSubscriptionBuckets -> C b = l1 ++ i :: l2 ->
  let s' := server.unsubscribe i s in
  relinked s s' /\ length (sv_subscriptions s') = length (sv_subscriptions s) /\
  (forall j, links (conn s' j) = if decide (j = i) then (kNoSubscriptionBucket, -1, -1)
     else if decide (last l1 = Some j) then (b, cn_subscription_prev (conn s j), hd (-1) l2)
     else if decide (head l2 = Some j) then (b, last_of (-1) l1, cn_subscription_next (conn s j)) else links (conn s j)) /\
  (forall b', bucket s' b' = if decide (b' = b) then mkBucket (sb_order_id (bucket s b)) (hd (-1) (l1 ++ l2))
       (if decide (l1 ++ l2 = []) then bTombstone else bOccupied) else bucket s b').
Proof.
  intros Hc Hlen Hb HC s'. assert (i ∈ C b) as Hib by (rewrite HC; apply elem_of_app; right; by left).
  assert (NoDup (l1 ++ i :: l2)) as Hnd by (rewrite <- HC; apply (ch_nodup _ _ Hc)).
  apply NoDup_app in Hnd as (_ & Hn12 & [Hi2 _]%NoDup_cons). assert (i ∉ l1) as Hi1 by (intros H; apply (Hn12 i H); by left).
  assert (forall j, j ∈ l1 \/ j ∈ l2 -> in_pool s j = true /\ cn_subscription_bucket (conn s j) = b /\ 0 <= j) as Hin.
  { intros j Hj. assert (j ∈ C b) as Hjb by (rewrite HC, elem_of_app, elem_of_cons; tauto).
    apply (ch_elem s C b j Hc Hb) in Hjb as [Hp ?]. pose proof Hp as Hp'. apply in_pool_iff in Hp'. split; [done|]. split; [done|lia]. }
  pose proof (ch_seg _ _ Hc b Hb) as Hseg. rewrite HC in Hseg. apply chain_seg_app in Hseg as [_ (Hi & Hbi & Hpi & Hni & _)].
  pose proof (ch_head _ _ Hc b Hb) as Hh. pose proof (ch_state _ _ Hc b Hb) as Hst. rewrite HC in Hh, Hst.
  assert (sb_state (bucket s b) = bOccupied) as Hocc by (apply Hst; by destruct l1). clear Hst.
  unfold s', server.unsubscribe. rewrite Hi, Hbi, Hpi, Hni. assert ((b =? kNoSubscriptionBucket) || (kSubscriptionBuckets <=? b) || negb true = false) as ->
    by (unfold kNoSubscriptionBucket, kSubscriptionBuckets in *; lia). cbn zeta.
  set (s1 := if 0 <=? last_of (-1) l1 then _ else _).
  assert (relinked s s1 /\ length (sv_subscriptions s1) = length (sv_subscriptions s) /\
    (forall j, links (conn s1 j) = if decide (last l1 = Some j) then (b, cn_subscription_prev (conn s j), hd (-1) l2) else links (conn s j)) /\
    (forall b', bucket s1 b' = if decide (b' = b) then mkBucket (sb_order_id (bucket s b)) (hd (-1) (l1 ++ l2)) bOccupied else bucket s b')) as (Hr1 & Hlen1 & Hl1 & Hb1).
  { unfold s1. destruct (last_of_cases l1) as [(-> & -> & ->) | (x & Hlast & -> & Hx & Hhd)].
    - cbn [app hd] in *. rewrite Hh, Z.eqb_refl. cbn [Z.leb Z.compare]. split; [apply relinked_bucket|].
      split; [by unfold upd_bucket; cbn; rewrite length_lset|]. split; [intros j; by rewrite decide_False|]. intros b'. rewrite Hocc.
      destruct (decide (b' = b)) as [-> | Hne]; [by rewrite bucket_upd_eq by lia|by rewrite bucket_upd_ne].
    - destruct (Hin x ltac:(by left)) as (Hxp & Hxb & Hx0). assert ((0 <=? x) = true) as -> by lia. split.
      { apply (relinked_upd x s). }
      split; [done|]. split.
      + intros j. destruct (decide (x = j)) as [<- | Hne]; [rewrite decide_True by done; rewrite conn_upd_eq by done; by rewrite links_set, Hxb|].
        rewrite conn_upd_ne by done. rewrite decide_False by congruence. done.
      + intros b'. rewrite bucket_upd_conn. destruct (decide (b' = b)) as [-> | Hne]; [|done]. destruct (bucket s b) as [o h st]. cbn in *. subst.
        destruct l1; [by apply not_elem_of_nil in Hx|done]. }
  set (s2 := if 0 <=? hd (-1) l2 then _ else s1).
  assert (relinked s s2 /\ sv_subscriptions s2 = sv_subscriptions s1 /\
    (forall j, links (conn s2 j) = if decide (last l1 = Some j) then (b, cn_subscription_prev (conn s j), hd (-1) l2)
       else if decide (head l2 = Some j) then (b, last_of (-1) l1, cn_subscription_next (conn s j)) else links (conn s j))) as (Hr2 & Hs2 & Hl2).
  { unfold s2. destruct (hd_cases l2) as [(-> & -> & ->) | (x & Hhead & Hhd & Hx)]; [|rewrite Hhd].
    - split; [done|]. split; [done|]. intros j. rewrite Hl1. by repeat case_decide.
    - destruct (Hin x ltac:(by right)) as (Hxp & Hxb & Hx0). assert ((0 <=? x) = true) as -> by lia. split.
      { apply (relinked_trans _ s1); [done|]. apply (relinked_upd x s1). }
      split; [done|]. intros j. assert (last l1 <> Some x) as Hnl by (intros H%last_in; apply (Hn12 x H); by right).
      assert (links (conn s1 x) = links (conn s x)) as Hx1 by (rewrite Hl1; by rewrite decide_False).
      assert (in_pool s1 x = true) as Hxp1 by (unfold in_pool; by rewrite (rl_max _ _ Hr1)).
      injection Hx1 as E1 E2 E3. destruct (decide (x = j)) as [<- | Hne].
      + rewrite decide_False, decide_True by done. rewrite conn_upd_eq by done. by rewrite links_set, E1, E3, Hxb.
      + rewrite conn_upd_ne by done. rewrite Hl1, Hhd. rewrite (decide_False (P := head l2 = Some j)) by congruence. done. }
  assert (forall b', bucket s2 b' = bucket s1 b') as Hb2 by (intros b'; unfold bucket; by rewrite Hs2). rewrite Hb2, Hb1, decide_True by done. cbn [sb_head sb_order_id].
  set (s3 := if hd (-1) (l1 ++ l2) <? 0 then _ else s2).
  assert (relinked s2 s3 /\ length (sv_subscriptions s3) = length (sv_subscriptions s) /\ sv_connections s3 = sv_connections s2 /\
    (forall b', bucket s3 b' = if decide (b' = b) then mkBucket (sb_order_id (bucket s b)) (hd (-1) (l1 ++ l2))
       (if decide (l1 ++ l2 = []) then bTombstone else bOccupied) else bucket s b')) as (Hr3 & Hlen3 & Hc3 & Hb3).
  { unfold s3. destruct (hd_cases (l1 ++ l2)) as [(E & -> & _) | (x & Hhead & -> & Hx)].
    - cbn [Z.ltb Z.compare]. split; [apply relinked_bucket|]. split; [unfold upd_bucket; cbn; by rewrite length_lset, Hs2|]. split; [done|].
      intros b'. rewrite (decide_True (P := l1 ++ l2 = [])) by done. destruct (decide (b' = b)) as [-> | Hne]; [rewrite bucket_upd_eq by (rewrite Hs2; lia); done|].
      rewrite bucket_upd_ne by done. by rewrite Hb2, Hb1, decide_False.
    - destruct (Hin x) as (_ & _ & Hx0); [by apply elem_of_app|]. assert ((x <? 0) = false) as -> by lia. split; [apply relinked_refl|].
      split; [by rewrite Hs2|]. split; [done|]. intros b'. rewrite (decide_False (P := l1 ++ l2 = [])) by (intros E; by rewrite E in Hhead). rewrite Hb2, Hb1.
      destruct (hd_cases (l1 ++ l2)) as [(E & _) | (x' & Hhead' & -> & _)]; [by rewrite E in Hhead|]. rewrite Hhead in Hhead'. by injection Hhead' as ->. }
  assert (in_pool s3 i = true) as Hi3 by (unfold in_pool; by rewrite (rl_max _ _ Hr3), (rl_max _ _ Hr2)).
  split; [eapply relinked_trans; [exact Hr2|eapply relinked_trans; [exact Hr3|apply relinked_upd]]|]. split; [done|]. split; [|done].
  intros j. destruct (decide (i = j)) as [<- | Hne]; [rewrite decide_True by done; by rewrite conn_upd_eq|]. rewrite conn_upd_ne by done. rewrite decide_False by done.
  assert (conn s3 j = conn s2 j) as -> by (unfold conn; by rewrite Hc3). apply Hl2.
Qed.

(** Unsubscribing takes the connection out of its chain; an order whose last
    subscriber leaves is forgotten. *)
Lemma unsubscribe_spec s C i :
  index_ok s C -> in_pool s i = true -> 0 <= cn_subscription_bucket (conn s i) < kSubscriptionBuckets ->
  let b := cn_subscription_bucket (conn s i) in
  let s' := server.unsubscribe i s in
  exists l1 l2, C b = l1 ++ i :: l2 /\ index_ok s' (<[b := l1 ++ l2]> C) /\ relinked s s' /\ links (conn s' i) = (kNoSubscriptionBucket, -1, -1).
Proof.
  intros [Ht Hc Hn] Hi Hb b s'. assert (i ∈ C b) as Hib by by apply (ch_elem s). apply list_elem_of_split in Hib as (l1 & l2 & HC).
  pose proof Ht as [[Hlen Hids] Hreach].
  destruct (unsubscribe_effect s C b i l1 l2 Hc Hlen Hb HC) as (Hr & Hlen' & Hl & Hbk). fold s' in Hr, Hlen', Hl, Hbk.
  exists l1, l2. split; [done|]. split; [|split; [done|by rewrite Hl, decide_True]].
  assert (sb_state (bucket s b) = bOccupied) as Hocc by (apply (ch_state _ _ Hc b Hb); rewrite HC; by destruct l1).
  split.
  - apply (table_ext (upd_bucket b (bucket s' b) s)); [by rewrite Hlen'; unfold upd_bucket; cbn; rewrite length_lset| |].
    { intros b'. destruct (decide (b' = b)) as [-> | Hne]; [by rewrite bucket_upd_eq by lia|]. rewrite bucket_upd_ne by done. by rewrite Hbk, decide_False. }
    rewrite Hbk, decide_True by done. apply table_write; cbn [sb_order_id sb_state]; [done|done|apply Hids|by goal_decide|intros _; by apply Hreach|].
    intros _ b' Hb' Hs' Heq. by apply (table_unique s).
  - apply (chains_unlink s C b i l1 l2 s'); try done; [apply Hr|]. intros j. by rewrite (rl_conn _ _ Hr j).
  - intros b' Hb'. rewrite Hbk. destruct (decide (b' = b)) as [-> | Hne]; [rewrite fn_lookup_insert|rewrite fn_lookup_insert_ne by done; by apply Hn].
    cbn [sb_state]. by goal_decide.
Qed.

(** Operations that leave the links of subscribed connections and the table
    alone keep the index. *)
Lemma index_ext s s' C : sv_subscriptions s' = sv_subscriptions s -> max_connections s' = max_connections s ->
  (forall j, in_pool s j = true -> cn_subscription_bucket (conn s' j) = cn_subscription_bucket (conn s j)) ->
  (forall j, in_pool s j = true -> 0 <= cn_subscription_bucket (conn s j) < kSubscriptionBuckets ->
     links (conn s' j) = links (conn s j) /\ cn_order_id (conn s' j) = cn_order_id (conn s j)) ->
  index_ok s C -> index_ok s' C.
Proof.
  intros Hs Hm Hbj Hl [Ht Hc Hn]. assert (forall b, bucket s' b = bucket s b) as Hb by (intros b; unfold bucket; by rewrite Hs).
  assert (forall j, in_pool s' j = in_pool s j) as Hp by (intros j; unfold in_pool; by rewrite Hm).
  pose proof (fun b j => ch_elem s C b j Hc) as Hel.
  assert (forall b j, 0 <= b < kSubscriptionBuckets -> j ∈ C b -> links (conn s' j) = links (conn s j) /\ cn_order_id (conn s' j) = cn_order_id (conn s j)) as Hlj.
  { intros b j Hr Hj. apply (Hel b j Hr) in Hj as [Hpj Hbb]. apply Hl; [done|by rewrite Hbb]. }
  split; [apply (table_ext s); [by rewrite Hs|done|done]| |intros b; rewrite Hb; apply Hn].
  destruct Hc as [H1 H2 H3 H4 H5 H6 H7]. split; [|done|intros b; rewrite Hb; apply H3|..].
  - intros b Hr. apply (chain_seg_ext s); [done| |by apply H1]. intros j Hj. by apply (Hlj b).
  - intros j. rewrite Hp. intros Hj. rewrite Hbj by done. by apply H4.
  - intros j. rewrite Hp. intros Hj. rewrite Hbj by done. by apply H5.
  - intros b. rewrite Hb. apply H6.
  - intros b j Hr Hj. rewrite Hb, (proj2 (Hlj b j Hr Hj)). by apply H7.
Qed.

(** The bucket of a connection is determined by the chains. *)
Lemma index_buckets s s' C C' j : index_ok s C -> index_ok s' C' -> max_connections s' = max_connections s ->
  (forall b, 0 <= b < kSubscriptionBuckets -> j ∈ C' b <-> j ∈ C b) -> in_pool s j = true ->
  cn_subscription_bucket (conn s' j) = cn_subscription_bucket (conn s j).
Proof.
  intros [_ Hc _] [_ Hc' _] Hm Hiff Hj. assert (in_pool s' j = true) as Hj' by (unfold in_pool in *; by rewrite Hm).
  destruct (ch_linked _ _ Hc j Hj) as [Hr | Hno].
  - pose proof (ch_member _ _ Hc j Hj Hr) as Hin. apply (Hiff _ Hr) in Hin. by apply (ch_elem s' C' _ _ Hc' Hr) in Hin as [_ ->].
  - destruct (ch_linked _ _ Hc' j Hj') as [Hr | Hno']; [|congruence].
    pose proof (ch_member _ _ Hc' j Hj' Hr) as Hin. apply (Hiff _ Hr) in Hin. by apply (ch_elem s C _ _ Hc Hr) in Hin as [_ ->].
Qed.
