(* ===== verification/WsWorker.v ===== *)
(** * The worker's invariant: slots, subscriptions and descriptors

    Every operation of the worker keeps the connection pool, the subscription
    index, the reservation counters and the account of the descriptors it was
    handed. *)
From Stdlib Require Import ZArith Lia ZifyBool.
From stdpp Require Import functions.
From S2P Require Import Prelude Numeric Bytes Config ExecTypes.
From S2P Require Import WsUtf8 WsFrame WsKey WsFill WsServer WsConn WsStream WsIndex.

(** ** Descriptors *)
Definition fds (s : Server) : list Z := cn_fd <$> sv_connections s.
Definition is_fd (fd : Z) : Prop := 0 <= fd.
Definition open_fds (s : Server) : list Z := filter is_fd (fds s).

Lemma fds_lookup s i : in_pool s i = true -> fds s !! Z.to_nat i = Some (cn_fd (conn s i)).
Proof.
  intros Hi%in_pool_iff. unfold fds, conn, lget, max_connections in *. rewrite list_lookup_fmap. case_if; [|lia].
  destruct (lookup_lt_is_Some_2 (sv_connections s) (Z.to_nat i)) as [c Hc]; [lia|]. by rewrite Hc.
Qed.

Lemma fds_length s : Z.of_nat (length (fds s)) = max_connections s.
Proof. unfold fds. by rewrite length_fmap. Qed.

Lemma fds_eq s s' : max_connections s' = max_connections s -> (forall j, in_pool s j = true -> cn_fd (conn s' j) = cn_fd (conn s j)) -> fds s' = fds s.
Proof.
  intros Hm Hf. apply list_eq. intros n. destruct (decide (n < length (fds s))%nat) as [Hn | Hn].
  - assert (in_pool s (Z.of_nat n) = true) as Hi by (apply in_pool_iff; rewrite <- fds_length; lia).
    assert (in_pool s' (Z.of_nat n) = true) as Hi' by (unfold in_pool in *; by rewrite Hm).
    apply fds_lookup in Hi' as H1. pose proof (fds_lookup s _ Hi) as H2. rewrite Nat2Z.id in H1, H2. rewrite H1, H2. f_equal. by apply Hf.
  - rewrite !lookup_ge_None_2; [done|lia|]. pose proof (fds_length s). pose proof (fds_length s'). lia.
Qed.

Lemma fds_change s s' i fd : in_pool s i = true -> max_connections s' = max_connections s -> cn_fd (conn s' i) = fd ->
  (forall j, in_pool s j = true -> j <> i -> cn_fd (conn s' j) = cn_fd (conn s j)) -> fds s' = <[Z.to_nat i := fd]> (fds s).
Proof.
  intros Hi Hm Hfd Hf. pose proof Hi as Hr. apply in_pool_iff in Hr. apply list_eq. intros n.
  destruct (decide (n < length (fds s))%nat) as [Hn | Hn].
  - assert (in_pool s (Z.of_nat n) = true) as Hj by (apply in_pool_iff; rewrite <- fds_length; lia).
    assert (in_pool s' (Z.of_nat n) = true) as Hj' by (unfold in_pool in *; by rewrite Hm).
    apply fds_lookup in Hj' as H1. rewrite Nat2Z.id in H1. rewrite H1. destruct (decide (Z.of_nat n = i)) as [<- | Hne].
    + rewrite Nat2Z.id, list_lookup_insert_eq by done. by rewrite Hfd.
    + rewrite list_lookup_insert_ne by lia. pose proof (fds_lookup s _ Hj) as H2. rewrite Nat2Z.id in H2. rewrite H2. f_equal. by apply Hf.
  - rewrite !lookup_ge_None_2; [done|rewrite length_insert; lia|]. pose proof (fds_length s). pose proof (fds_length s'). lia.
Qed.

(** One descriptor leaves or enters. *)
Lemma filter_insert_out (l : list Z) n x y : l !! n = Some x -> is_fd x -> ~ is_fd y -> filter is_fd l ≡ₚ x :: filter is_fd (<[n := y]> l).
Proof.
  intros Hl Hx Hy. rewrite insert_take_drop by (by eapply lookup_lt_Some). rewrite <- (take_drop_middle l n x Hl) at 1.
  rewrite !filter_app, !filter_cons. rewrite decide_True by done. rewrite decide_False by done. by rewrite Permutation_middle.
Qed.

Lemma filter_insert_in (l : list Z) n x y : l !! n = Some x -> ~ is_fd x -> is_fd y -> filter is_fd (<[n := y]> l) ≡ₚ y :: filter is_fd l.
Proof.
  intros Hl Hx Hy. rewrite insert_take_drop by (by eapply lookup_lt_Some). rewrite <- (take_drop_middle l n x Hl) at 3.
  rewrite !filter_app, !filter_cons. rewrite decide_True by done. rewrite decide_False by done. by rewrite Permutation_middle.
Qed.

(** ** The invariant *)

(** A queued upgrade: checked when it was queued. *)
Record upgrade_ok (u : Upgrade) : Prop := {
  uo_fd : 0 <= up_fd u;
  uo_order : in_u 64 (up_order_id u);
  uo_key : exists key, Forall (fun c => 0 < c < 256) key /\ length key = 24%nat /\ up_key u = key ++ [0];
  uo_pre_read : bytes_ok (up_pre_read u) /\ Z.of_nat (length (up_pre_read u)) <= kMaxUpgradePreReadBytes
}.

(** [worker_but P s handed]: the invariant, with the buffers well formed for the
    connections of [P]; [handed] are the descriptors the server was given. *)
Record worker_but (P : Z -> Prop) (s : Server) (handed : list Z) : Prop := {
  wk_index : exists C, index_ok s C;
  wk_max : max_connections s <= kWebSocketConnections;
  wk_free : forall i, in_pool s i = true -> cn_fd (conn s i) < 0 -> cn_subscription_bucket (conn s i) = kNoSubscriptionBucket;
  wk_linked : forall i, in_pool s i = true -> 0 <= cn_fd (conn s i) ->
    0 <= cn_subscription_bucket (conn s i) < kSubscriptionBuckets /\ in_u 64 (cn_order_id (conn s i));
  wk_conn : forall i, P i -> in_pool s i = true -> 0 <= cn_fd (conn s i) -> exists a, conn_ok (conn s i) a;
  wk_active : sv_active s = Z.of_nat (length (open_fds s));
  wk_reserved : sv_reserved s = Z.of_nat (length (open_fds s)) + Z.of_nat (length (sv_upgrades s));
  wk_bound : sv_reserved s <= max_connections s;
  wk_upgrades : Forall upgrade_ok (sv_upgrades s);
  wk_fds : handed ≡ₚ sv_closed s ++ (up_fd <$> sv_upgrades s) ++ open_fds s
}.

Definition worker_ok := worker_but (fun _ => True).

Lemma max_small s : max_connections s <= kWebSocketConnections -> max_connections s < kSubscriptionBuckets.
Proof. unfold kWebSocketConnections, kSubscriptionBuckets. lia. Qed.

(** Work on one open connection keeps all but its buffers. *)
Lemma local_but i s s' handed : local i s s' -> 0 <= cn_fd (conn s i) -> worker_ok s handed -> worker_but (fun j => j <> i) s' handed.
Proof.
  intros Hl Hopen [[C Hix] Hmax Hfree Hlink Hconn Hact Hres Hbd Hup Hfd]. pose proof Hl as [L1 L2 L3 L4 L5 L6 L7 L8 L9 L10 (L11 & L12 & L13)].
  assert (forall j, links (conn s' j) = links (conn s j) /\ cn_order_id (conn s' j) = cn_order_id (conn s j) /\ cn_fd (conn s' j) = cn_fd (conn s j)) as Hj.
  { intros j. destruct (Z.eq_dec j i) as [-> | Hne]; [unfold links; by rewrite L11, L12, L13|by rewrite L8]. }
  assert (forall j, in_pool s' j = in_pool s j) as Hp by (intros j; by apply (local_in_pool i)).
  assert (fds s' = fds s) as Hfds by (apply fds_eq; [done|intros j _; apply Hj]).
  assert (forall j, cn_subscription_bucket (conn s' j) = cn_subscription_bucket (conn s j)) as Hbj by (intros j; destruct (Hj j) as [Hlk _]; by injection Hlk).
  unfold open_fds in *. split.
  - exists C. apply (index_ext s); [done|done|intros j _; apply Hbj|intros j _ _; split; apply Hj|done].
  - by rewrite L1.
  - intros j. rewrite Hp, Hbj. destruct (Hj j) as (_ & _ & ->). apply Hfree.
  - intros j. rewrite Hp, Hbj. destruct (Hj j) as (_ & -> & ->). apply Hlink.
  - intros j Hne. rewrite Hp. rewrite L8 by done. by apply Hconn.
  - unfold open_fds. by rewrite L3, Hfds.
  - unfold open_fds. by rewrite L4, L6, Hfds.
  - by rewrite L4, L1.
  - by rewrite L6.
  - unfold open_fds. by rewrite L5, L6, Hfds.
Qed.

Lemma but_full i s handed : worker_but (fun j => j <> i) s handed -> (exists a, conn_ok (conn s i) a) -> worker_ok s handed.
Proof.
  intros [] Ha. split; try done. intros j _ Hj Hfd. destruct (Z.eq_dec j i) as [-> | Hne]; [done|by apply wk_conn0].
Qed.

(** ** Closing a connection *)

(** The account after the descriptor of slot [i] was closed. *)
Lemma close_effect s i C :
  index_ok s C -> in_pool s i = true -> 0 <= cn_fd (conn s i) -> 0 <= cn_subscription_bucket (conn s i) < kSubscriptionBuckets ->
  let b := cn_subscription_bucket (conn s i) in
  let s' := server.close i s in
  exists l1 l2, C b = l1 ++ i :: l2 /\ index_ok s' (<[b := l1 ++ l2]> C) /\ max_connections s' = max_connections s /\ conn s' i = conn_init /\
    (forall j, j <> i -> in_pool s j = true -> cn_subscription_bucket (conn s' j) = cn_subscription_bucket (conn s j)) /\
    (forall j, j <> i -> conn s' j = set_links (cn_subscription_bucket (conn s' j)) (cn_subscription_prev (conn s' j)) (cn_subscription_next (conn s' j)) (conn s j)) /\
    sv_active s' = u32 (sv_active s - 1) /\ sv_reserved s' = u32 (sv_reserved s - 1) /\ sv_closed s' = cn_fd (conn s i) :: sv_closed s /\
    sv_upgrades s' = sv_upgrades s /\ sv_diag s' = count_cleanup (sv_diag s).
Proof.
  intros Hix Hi Hfd Hb b s'. destruct (unsubscribe_spec s C i Hix Hi Hb) as (l1 & l2 & HC & Hix1 & Hr1 & Hl1).
  fold b in HC, Hix1. exists l1, l2. split; [done|]. set (s1 := server.unsubscribe i s) in *.
  assert (in_pool s1 i = true) as Hi1 by (unfold in_pool; by rewrite (rl_max _ _ Hr1)).
  assert (conn s' i = conn_init) as Hci by by apply conn_close.
  assert (max_connections s' = max_connections s) as Hm by apply max_connections_close.
  set (s2 := server.clear_poll_interest i s1).
  assert (s' = with_diag (count_cleanup (sv_diag s2)) (with_counts (u32 (sv_active s2 - 1)) (u32 (sv_reserved s2 - 1)) (cn_fd (conn s i) :: sv_closed s2)
    (upd_conn i (fun _ => conn_init) s2))) as Hs'.
  { unfold s', server.close. assert ((cn_fd (conn s i) <? 0) = false) as -> by lia. done. }
  assert (forall j, j <> i -> conn s' j = conn s1 j) as Hcj.
  { intros j Hj. rewrite Hs'. change (conn (upd_conn i (fun _ => conn_init) s2) j = conn s1 j). rewrite conn_upd_ne by done.
    unfold s2, server.clear_poll_interest. rewrite Hi1. cbn [negb]. by apply conn_upd_ne. }
  assert (sv_subscriptions s2 = sv_subscriptions s1 /\ sv_active s2 = sv_active s1 /\ sv_reserved s2 = sv_reserved s1 /\ sv_closed s2 = sv_closed s1 /\
    sv_upgrades s2 = sv_upgrades s1 /\ sv_diag s2 = sv_diag s1) as (S1 & S2 & S3 & S4 & S5 & S6).
  { unfold s2, server.clear_poll_interest. rewrite Hi1. done. }
  assert (sv_active s1 = sv_active s /\ sv_reserved s1 = sv_reserved s /\ sv_closed s1 = sv_closed s /\ sv_upgrades s1 = sv_upgrades s /\ sv_diag s1 = sv_diag s)
    as (R1 & R2 & R3 & R4 & R5) by (rewrite (rl_server _ _ Hr1); done).
  assert (index_ok s' (<[b:=l1 ++ l2]> C)) as Hix'.
  { apply (index_ext s1); [by rewrite Hs'|by rewrite Hm, (rl_max _ _ Hr1)|..|done].
    - intros j _. destruct (Z.eq_dec j i) as [-> | Hne]; [rewrite Hci; by injection Hl1 as ->|by rewrite Hcj].
    - intros j _ Hrange. destruct (Z.eq_dec j i) as [-> | Hne]; [|by rewrite Hcj]. exfalso. injection Hl1 as E _ _. rewrite E in Hrange.
      unfold kNoSubscriptionBucket, kSubscriptionBuckets in Hrange. lia. }
  split; [done|]. split; [done|]. split; [done|]. split.
  { intros j Hne Hj. apply (index_buckets s s' C _ j Hix Hix' Hm); [|done]. intros b' _. destruct (decide (b' = b)) as [-> | Hneb];
      [rewrite fn_lookup_insert, HC, !elem_of_app, elem_of_cons; tauto|by rewrite fn_lookup_insert_ne]. }
  split; [intros j Hne; rewrite Hcj by done; apply Hr1|].
  rewrite Hs'. unfold with_diag, with_counts, upd_conn, with_connections. cbn. rewrite S2, S3, S4, S5, S6, R1, R2, R3, R4, R5. done.
Qed.

Lemma close_ok i s handed : worker_but (fun j => j <> i) s handed -> in_pool s i = true -> 0 <= cn_fd (conn s i) -> worker_ok (server.close i s) handed.
Proof.
  intros [[C Hix] Hmax Hfree Hlink Hconn Hact Hres Hbd Hup Hfd] Hi Hopen. destruct (Hlink i Hi Hopen) as [Hb Hid].
  destruct (close_effect s i C Hix Hi Hopen Hb) as (l1 & l2 & HC & Hix' & Hm & Hci & Hbj & Hcj & Ha & Hr & Hcl & Hq & _). set (s' := server.close i s) in *.
  assert (forall j, in_pool s' j = in_pool s j) as Hp by (intros j; unfold in_pool; by rewrite Hm).
  assert (fds s' = <[Z.to_nat i := -1]> (fds s)) as Hfds.
  { apply fds_change; [done|done|by rewrite Hci|]. intros j _ Hne. by rewrite (Hcj j Hne). }
  pose proof (filter_insert_out (fds s) (Z.to_nat i) (cn_fd (conn s i)) (-1) (fds_lookup s i Hi) Hopen ltac:(unfold is_fd; lia)) as Hopen'.
  rewrite <- Hfds in Hopen'. fold (open_fds s) (open_fds s') in Hopen'. pose proof (Permutation_length Hopen') as Hlen. cbn [length] in Hlen.
  assert (max_connections s <= 1000) as Hmax' by done.
  assert (in_u 32 (sv_active s - 1) /\ in_u 32 (sv_reserved s - 1)) as [Ua Ur] by (unfold in_u; lia).
  split.
  - by eexists.
  - by rewrite Hm.
  - intros j. rewrite Hp. intros Hj. destruct (Z.eq_dec j i) as [-> | Hne]; [by rewrite Hci|]. rewrite Hbj by done. rewrite (Hcj j Hne). by apply Hfree.
  - intros j. rewrite Hp. intros Hj. destruct (Z.eq_dec j i) as [-> | Hne]; [rewrite Hci; cbn; lia|]. rewrite Hbj by done. rewrite (Hcj j Hne). by apply Hlink.
  - intros j _. rewrite Hp. intros Hj. destruct (Z.eq_dec j i) as [-> | Hne]; [rewrite Hci; cbn; lia|]. rewrite (Hcj j Hne). intros Hfj.
    destruct (Hconn j Hne Hj Hfj) as (a & [H1 H2 H3 H4]). exists a. split; [done|destruct H2; by split|destruct H3; by split|done].
  - rewrite Ha, wrap_u_id by done. lia.
  - rewrite Hr, Hq, wrap_u_id by done. lia.
  - rewrite Hr, Hm, wrap_u_id by done. lia.
  - by rewrite Hq.
  - rewrite Hcl, Hq, Hfd, Hopen'. cbn [app]. rewrite <- !Permutation_middle. done.
Qed.

Lemma gone_ok i s s' handed : worker_ok s handed -> gone i s s' -> worker_ok s' handed.
Proof.
  intros Hw (Hi & Hfd & s1 & Hl & ->). apply close_ok; [by eapply local_but|by rewrite (local_in_pool i s s1)|by rewrite (lo_fd _ _ _ Hl)].
Qed.

Lemma outcome_ok i s s' handed : worker_ok s handed -> 0 <= cn_fd (conn s i) -> outcome i s s' -> worker_ok s' handed.
Proof.
  intros Hw Hfd [Hg | [Hl Ha]]; [by eapply gone_ok|]. eapply but_full; [by eapply local_but|done].
Qed.

(** What no operation on an accepted connection changes. *)
Definition kept (s s' : Server) : Prop := max_connections s' = max_connections s /\ sv_upgrades s' = sv_upgrades s.

Lemma kept_trans s1 s2 s3 : kept s1 s2 -> kept s2 s3 -> kept s1 s3.
Proof. intros [] []. split; congruence. Qed.

Lemma close_kept i s : kept s (server.close i s).
Proof. split; [apply max_connections_close|apply upgrades_close]. Qed.

Lemma local_kept i s s' : local i s s' -> kept s s'.
Proof. intros []. by split. Qed.

Lemma outcome_kept i s s' : outcome i s s' -> kept s s'.
Proof. intros [(_ & _ & s1 & Hl & ->) | [Hl _]]; [eapply kept_trans; [by eapply local_kept|apply close_kept]|by eapply local_kept]. Qed.

(** ** Upgrades *)
Definition opened (s s2 : Server) (i : Z) (c : Connection) (us : list Upgrade) : Prop :=
  max_connections s2 = max_connections s /\ sv_subscriptions s2 = sv_subscriptions s /\ conn s2 i = c /\ (forall j, j <> i -> conn s2 j = conn s j) /\
  sv_active s2 = u32 (sv_active s + 1) /\ sv_reserved s2 = sv_reserved s /\ sv_closed s2 = sv_closed s /\ sv_upgrades s2 = us.

(** A slot taken by the upgrade at the head of the queue is subscribed to its
    order. *)
Lemma slot_opened s s2 handed u us i c :
  worker_ok s handed -> sv_upgrades s = u :: us -> in_pool s i = true -> cn_fd (conn s i) < 0 ->
  cn_fd c = up_fd u -> cn_order_id c = up_order_id u -> cn_subscription_bucket c = kNoSubscriptionBucket -> (exists a, conn_ok c a) ->
  opened s s2 i c us -> exists s3, server.subscribe i s2 = (true, s3) /\ worker_ok s3 handed /\ relinked s2 s3.
Proof.
  intros [[C Hix] Hmax Hfree Hlink Hconn Hact Hres Hbd Hup Hfds] Hq Hi Hneg Hfd Hid Hun Hok (Hm & Hsub & Hci & Hcj & Ha & Hr & Hcl & Hus).
  rewrite Hq in Hup, Hres, Hfds. apply Forall_cons in Hup as [Hu Hup]. cbn [length fmap list_fmap] in *.
  assert (forall j, in_pool s2 j = in_pool s j) as Hp2 by (intros j; unfold in_pool; by rewrite Hm).
  assert (index_ok s2 C) as Hix2.
  { apply (index_ext s); [done|done|..|done].
    - intros j Hj. destruct (Z.eq_dec j i) as [-> | Hne]; [rewrite Hci, Hun; symmetry; by apply Hfree|by rewrite Hcj].
    - intros j Hj Hrange. destruct (Z.eq_dec j i) as [-> | Hne]; [|by rewrite Hcj]. rewrite (Hfree i Hi Hneg) in Hrange.
      unfold kNoSubscriptionBucket, kSubscriptionBuckets in Hrange. lia. }
  destruct (subscribe_spec s2 C i) as (b & s3 & Hsubs & Hb & Hix3 & Hr3); try done.
  { apply max_small. by rewrite Hm. } { by rewrite Hp2. } { rewrite Hci, Hfd. apply Hu. } { rewrite Hci, Hid. apply Hu. } { by rewrite Hci. }
  exists s3. split; [done|]. split; [|done].
  assert (forall j, in_pool s3 j = in_pool s j) as Hp3 by (intros j; rewrite <- Hp2; unfold in_pool; by rewrite (rl_max _ _ Hr3)).
  assert (forall j, cn_fd (conn s3 j) = cn_fd (conn s2 j) /\ cn_order_id (conn s3 j) = cn_order_id (conn s2 j)) as Hc3 by (intros j; by rewrite (rl_conn _ _ Hr3 j)).
  assert (forall j, j <> i -> in_pool s j = true -> cn_subscription_bucket (conn s3 j) = cn_subscription_bucket (conn s j)) as Hbj.
  { intros j Hne Hj. rewrite <- Hcj by done. apply (index_buckets s2 s3 C _ j Hix2 Hix3 (rl_max _ _ Hr3)); [|by rewrite Hp2].
    intros b' _. destruct (decide (b' = b)) as [-> | Hneb]; [rewrite fn_lookup_insert, elem_of_cons; tauto|by rewrite fn_lookup_insert_ne]. }
  assert (0 <= cn_subscription_bucket (conn s3 i) < kSubscriptionBuckets) as Hbi.
  { assert (i ∈ (<[b:=i :: C b]> C) b) as Hin by (rewrite fn_lookup_insert; by left). by apply (ch_elem s3 _ b i (ix_chains _ _ Hix3) Hb) in Hin as [_ ->]. }
  assert (fds s3 = <[Z.to_nat i := up_fd u]> (fds s)) as Hf3.
  { apply fds_change; [done|by rewrite (rl_max _ _ Hr3)|by rewrite (proj1 (Hc3 i)), Hci|]. intros j _ Hne. rewrite (proj1 (Hc3 j)). by rewrite Hcj. }
  pose proof (filter_insert_in (fds s) (Z.to_nat i) (cn_fd (conn s i)) (up_fd u) (fds_lookup s i Hi) ltac:(unfold is_fd; lia) (uo_fd _ Hu)) as Hopen.
  rewrite <- Hf3 in Hopen. fold (open_fds s) (open_fds s3) in Hopen. pose proof (Permutation_length Hopen) as Hlen. cbn [length] in Hlen.
  assert (sv_active s3 = sv_active s2 /\ sv_reserved s3 = sv_reserved s2 /\ sv_closed s3 = sv_closed s2 /\ sv_upgrades s3 = sv_upgrades s2) as (R1 & R2 & R3 & R4)
    by (rewrite (rl_server _ _ Hr3); done).
  assert (max_connections s <= 1000) as Hmax' by done.
  split.
  - by eexists.
  - by rewrite (rl_max _ _ Hr3), Hm.
  - intros j. rewrite Hp3, (proj1 (Hc3 j)). intros Hj. destruct (Z.eq_dec j i) as [-> | Hne]; [rewrite Hci, Hfd; pose proof (uo_fd _ Hu); lia|].
    rewrite Hbj by done. rewrite Hcj by done. by apply Hfree.
  - intros j. rewrite Hp3, (proj1 (Hc3 j)), (proj2 (Hc3 j)). intros Hj. destruct (Z.eq_dec j i) as [-> | Hne]; [intros _; split; [done|]; rewrite Hci, Hid; apply Hu|].
    rewrite Hbj by done. rewrite Hcj by done. by apply Hlink.
  - intros j _. rewrite Hp3, (proj1 (Hc3 j)). intros Hj Hfj. rewrite (rl_conn _ _ Hr3 j).
    assert (exists a, conn_ok (conn s2 j) a) as (a & [H1 H2 H3 H4]).
    { destruct (Z.eq_dec j i) as [-> | Hne]; [by rewrite Hci|]. rewrite Hcj in Hfj |- * by done. by apply Hconn. }
    exists a. split; [done|destruct H2; by split|destruct H3; by split|done].
  - rewrite R1, Ha, wrap_u_id; [lia|unfold in_u; lia].
  - rewrite R2, R4, Hr, Hus. lia.
  - rewrite R2, Hr, (rl_max _ _ Hr3), Hm. done.
  - by rewrite R4, Hus.
  - rewrite R3, R4, Hcl, Hus, Hfds, Hopen. apply Permutation_app_head, Permutation_middle.
Qed.

Lemma free_slot_Some s : (length (open_fds s) < length (sv_connections s))%nat ->
  exists n c, server.free_slot s = Some (n, c) /\ in_pool s (Z.of_nat n) = true /\ cn_fd (conn s (Z.of_nat n)) < 0.
Proof.
  intros Hlt. unfold server.free_slot. destruct (list_find _ (sv_connections s)) as [[n c]|] eqn:E.
  - apply list_find_Some in E as (Hc & Hneg & _). exists n, c. split; [done|]. pose proof (lookup_lt_Some _ _ _ Hc).
    split; [apply in_pool_iff; unfold max_connections; lia|]. unfold conn, lget. case_if; [|lia]. rewrite Nat2Z.id, Hc. cbn. lia.
  - exfalso. apply list_find_None in E. assert (open_fds s = fds s) as Heq.
    { clear Hlt. unfold open_fds, fds. induction E as [|c l Hc _ IH]; [done|]. rewrite fmap_cons, filter_cons. rewrite decide_True by (unfold is_fd; lia).
      by f_equal. }
    rewrite Heq in Hlt. unfold fds in Hlt. rewrite length_fmap in Hlt. lia.
Qed.

Lemma pending_closed s u us handed : worker_ok s handed -> sv_upgrades s = u :: us ->
  worker_ok (server.close_pending_upgrade u (with_upgrades us s)) handed.
Proof.
  intros [[C Hix] Hmax Hfree Hlink Hconn Hact Hres Hbd Hup Hfds] Hq. rewrite Hq in Hup, Hres, Hfds. apply Forall_cons in Hup as [Hu Hup]. cbn [length fmap list_fmap] in *.
  unfold server.close_pending_upgrade. assert ((0 <=? up_fd u) = true) as -> by (destruct Hu; lia). assert (max_connections s <= 1000) by done.
  assert (u32 (sv_reserved s - 1) = sv_reserved s - 1) as Hr by (apply wrap_u_id; unfold in_u; lia).
  split; cbn [with_counts with_upgrades sv_active sv_reserved sv_closed sv_upgrades]; rewrite ?Hr; try done.
  - exists C. by apply (index_ext s).
  - change (open_fds (with_counts _ _ _ _)) with (open_fds s). lia.
  - change (sv_reserved s - 1 <= max_connections s). lia.
  - change (open_fds (with_counts _ _ _ _)) with (open_fds s). rewrite Hfds. cbn [app]. by rewrite <- Permutation_middle.
Qed.

Lemma response_length accept : length accept = 28%nat -> length (server.upgrade_response accept) = 129%nat.
Proof. intros Ha. unfold server.upgrade_response. rewrite !length_app, Ha. done. Qed.

(** The connection an upgrade starts with. *)
Definition fresh_connection (u : Upgrade) (now : Z) : Connection :=
  mkConn (up_fd u) (up_order_id u) now now 0 0 0 0 kNoSubscriptionBucket (-1) (-1) false false fragment_init false
    (cn_read_buffer conn_init) (cn_write_buffer conn_init).

Lemma fresh_ok u now : upgrade_ok u -> conn_ok (fresh_connection u now) None.
Proof.
  intros [Hfd _ _ _]. split; [exact Hfd| |by split|apply assembles_init]. split; [done|done|]. apply Forall_replicate. unfold in_u. lia.
Qed.

(** The bytes that came with the request are the first of the input. *)
Lemma pre_read_stored u now i s : upgrade_ok u -> in_pool s i = true ->
  let fresh := fresh_connection u now in
  let s1 := upd_conn i (fun _ => fresh) s in
  exists s2 c, (if negb (Z.of_nat (length (up_pre_read u)) =? 0) then
      buf ← memcpy (cn_read_buffer fresh) 0 (up_pre_read u); Some (upd_conn i (set_input (Z.of_nat (length (up_pre_read u))) fragment_init buf) s1)
    else Some s1) = Some s2 /\
    s2 = with_connections (sv_connections s2) s /\ max_connections s2 = max_connections s /\ (forall j, j <> i -> conn s2 j = conn s j) /\ conn s2 i = c /\
    cn_fd c = up_fd u /\ cn_order_id c = up_order_id u /\ cn_subscription_bucket c = kNoSubscriptionBucket /\ conn_ok c None /\ unsent c = [] /\
    unread c = up_pre_read u.
Proof.
  intros Hu Hi fresh s1. pose proof (fresh_ok u now Hu) as Hok. fold fresh in Hok. destruct Hu as [Hfd Hid _ [Hb Hl]]. unfold kMaxUpgradePreReadBytes in Hl.
  assert (conn s1 i = fresh) as Hc1 by by (unfold s1; rewrite conn_upd_eq).
  assert (forall j, j <> i -> conn s1 j = conn s j) as Hc1j by (intros j Hj; by apply conn_upd_ne).
  assert (max_connections s1 = max_connections s) as Hm1 by apply max_connections_upd.
  destruct (Z.of_nat (length (up_pre_read u)) =? 0) eqn:E0; cbn [negb].
  - exists s1, fresh. split; [done|]. split; [by unfold s1|]. split; [done|]. split; [done|]. split; [done|]. do 3 (split; [done|]). split; [done|].
    split; [done|]. destruct (up_pre_read u); [done|cbn in E0; lia].
  - assert (Z.of_nat (length (cn_read_buffer fresh)) = kReadBufferBytes) as Hlen by apply Hok. unfold kReadBufferBytes in Hlen.
    rewrite memcpy_at by lia. cbn [mbind option_bind]. change (Z.to_nat 0) with 0%nat. rewrite take_0. cbn [app Nat.add].
    set (buf := up_pre_read u ++ _). assert (length buf = 2048%nat) as Hbl by (unfold buf; rewrite length_app, length_drop; lia).
    exists (upd_conn i (set_input (Z.of_nat (length (up_pre_read u))) fragment_init buf) s1), (set_input (Z.of_nat (length (up_pre_read u))) fragment_init buf fresh).
    split; [done|]. split; [done|]. split; [by rewrite max_connections_upd|]. split; [intros j Hj; rewrite conn_upd_ne by done; by apply Hc1j|].
    split; [rewrite conn_upd_eq by (unfold s1; by rewrite in_pool_upd); by rewrite Hc1|]. do 3 (split; [done|]). split; [|split; [done|]].
    + destruct Hok as [H1 H2 H3 H4]. split; [done|split; cbn [cn_read_size cn_read_buffer set_input]; unfold kReadBufferBytes; [lia|lia|]|destruct H3; by split|exact assembles_init].
      unfold buf. apply Forall_app. split; [done|apply Forall_drop, H2].
    + unfold unread. cbn [cn_read_size cn_read_buffer set_input]. rewrite Nat2Z.id. unfold buf. by rewrite take_app_length.
Qed.

(** The first upgrade of the queue always finds a slot; it ends open, with the
    handshake response queued, or with its descriptor closed. *)
Lemma accept_upgrade_ok s u us handed nonblocking now now2 recvs inbox :
  worker_ok s handed -> sv_upgrades s = u :: us -> bytes_ok inbox ->
  exists inbox' s', server.accept_upgrade u nonblocking now now2 recvs inbox (with_upgrades us s) = Some (inbox', s') /\ worker_ok s' handed /\
    max_connections s' = max_connections s /\ sv_upgrades s' = us.
Proof.
  intros Hw Hq Hin. pose proof (pending_closed s u us handed Hw Hq) as Hpend. pose proof Hw as [_ _ _ _ _ _ Hres Hbd Hup _].
  rewrite Hq in Hup, Hres. apply Forall_cons in Hup as [Hu _]. pose proof Hu as [Hufd Huid (key & Hkey & Hkl & Hk) _]. cbn [length] in Hres.
  unfold server.accept_upgrade. case_if; [lia|].
  destruct (free_slot_Some (with_upgrades us s)) as (n & c0 & -> & Hi & Hneg).
  { change (length (open_fds s) < length (sv_connections s))%nat. unfold max_connections in Hbd. lia. }
  set (i := Z.of_nat n) in *. rewrite Hk. destruct (make_accept_total key Hkey Hkl) as (b & accept & -> & Hacc). cbn [mbind option_bind fst snd].
  case_if; [by eexists _, _|]. cbv zeta. destruct b; [|done]. specialize (Hacc eq_refl). fold (fresh_connection u now).
  destruct (pre_read_stored u now i (with_upgrades us s) Hu Hi) as (s2 & c & -> & Hs2 & Hm2 & Hj2 & Hi2 & Hcfd & Hcid & Hcun & Hcok & Hcu & _). cbn [mbind option_bind].
  set (s3 := with_counts _ _ _ s2). assert (in_pool s3 i = true) as Hi3 by (unfold in_pool in *; by rewrite <- Hm2 in Hi).
  unfold server.register_connection_io. rewrite Hi3. change (conn s3 i) with (conn s2 i). rewrite Hi2, Hcfd.
  assert ((up_fd u <? 0) = false) as -> by lia. cbn [orb negb]. set (s4 := server.refresh_poll_interest i s3).
  assert (opened s s4 i c us) as Hop.
  { unfold s4, server.refresh_poll_interest. rewrite Hi3. cbn [negb]. unfold s3, opened. rewrite Hs2. rewrite Hs2 in Hm2, Hj2, Hi2. done. }
  destruct (slot_opened s s4 handed u us i c Hw Hq Hi Hneg Hcfd Hcid Hcun ltac:(by exists None) Hop) as (s5 & -> & Hw5 & Hr5). cbn [negb].
  assert (length (take (Z.to_nat kAcceptBytes) accept) = 28%nat) as Hal by (rewrite length_take, Hacc; done). pose proof (response_length _ Hal) as Hrl.
  revert Hrl. generalize (server.upgrade_response (take (Z.to_nat kAcceptBytes) accept)) as response. intros response Hrl.
  case_if; [lia|]. assert (in_pool s5 i = true) as Hi5 by (unfold in_pool; rewrite (rl_max _ _ Hr5), (proj1 Hop); apply Hi).
  assert (conn s4 i = c) as Hc4 by apply Hop.
  assert (exists a, conn_ok (conn s5 i) a /\ unsent (conn s5 i) = []) as (a & Hok5 & Hu5).
  { rewrite (rl_conn _ _ Hr5 i), Hc4. exists None. split; [|done]. destruct Hcok as [H1 H2 H3 H4]. split; [done|destruct H2; by split|destruct H3; by split|done]. }
  pose proof (queue_bytes_spec i response s5 Hi5 (co_out _ _ Hok5)) as Hqb.
  rewrite Hu5, Hrl in Hqb. change (Z.of_nat (length []) + Z.of_nat 129 <=? kWriteBufferBytes) with true in Hqb. destruct Hqb as (s6 & -> & Hl6 & Hsame6 & Ho6 & _). cbn [mbind option_bind fst snd negb].
  assert (conn_ok (conn s6 i) a) as Hok6.
  { rewrite Hsame6 in Ho6 |- *. destruct Hok5 as [H1 H2 H3 H4]. split; [done|destruct H2; by split|destruct Ho6; by split|done]. }
  assert (worker_ok s6 handed) as Hw6 by (eapply but_full; [eapply local_but; [exact Hl6|apply Hok5|done]|by exists a]).
  assert (kept s2 s6) as [K1 K2].
  { apply (kept_trans _ s5); [|by eapply local_kept]. apply (kept_trans _ s4); [unfold s4, s3, server.refresh_poll_interest; by case_if|].
    split; [apply (rl_max _ _ Hr5)|by rewrite (rl_server _ _ Hr5)]. }
  assert (max_connections s6 = max_connections s) as K3 by (rewrite K1, Hm2; done). assert (sv_upgrades s6 = us) as K4 by (rewrite K2, Hs2; done).
  case_if; [|by eexists _, _]. destruct (receive_outcome i now2 recvs inbox s6 a) as (b' & inbox' & s' & -> & Hout & _); [by rewrite (local_in_pool i s5 s6)|done|done|].
  eexists _, _. split; [done|]. split; [eapply outcome_ok; [exact Hw6|apply Hok6|done]|].
  destruct (outcome_kept _ _ _ Hout) as [K5 K6]. cbn [snd]. split; congruence.
Qed.

(** What a caller passes for a string and for a buffer with its size. *)
Definition c_string (p : option (list Z)) : Prop :=
  match p with None => True | Some l => exists s rest, l = s ++ 0 :: rest /\ Forall (fun c => 0 < c < 256) s end.
Definition c_buffer (p : option (list Z)) (size : Z) : Prop :=
  0 <= size /\ match p with None => True | Some l => bytes_ok l /\ size <= Z.of_nat (length l) end.

(** The descriptors handed over, with one that may be invalid. *)
Definition hand (fd : Z) (handed : list Z) : list Z := if 0 <=? fd then fd :: handed else handed.

(** A descriptor the server closes at once. *)
Lemma rejected_ok fd s handed : worker_ok s handed -> 0 <= fd ->
  worker_ok (with_counts (sv_active s) (sv_reserved s) (fd :: sv_closed s) s) (hand fd handed).
Proof.
  intros [[C Hix] Hmax Hfree Hlink Hconn Hact Hres Hbd Hup Hfds] Hfd. unfold hand. case_if; [|lia].
  split; try done; [exists C; by apply (index_ext s)|]. cbn [sv_closed sv_upgrades with_counts]. change (open_fds (with_counts _ _ _ s)) with (open_fds s).
  by rewrite Hfds.
Qed.

Lemma slice_prefix (l : list Z) n : 0 <= n <= Z.of_nat (length l) -> slice l 0 n = Some (take (Z.to_nat n) l).
Proof. intros Hn. unfold slice. case_if; [|lia]. change (Z.to_nat 0) with 0%nat. by rewrite drop_0. Qed.

Lemma enqueue_upgrade_ok fd order_id key pre_read pre_read_size lease s handed :
  worker_ok s handed -> in_u 64 order_id -> c_string key -> c_buffer pre_read pre_read_size ->
  exists r s', server.enqueue_upgrade fd order_id key pre_read pre_read_size lease s = Some (r, s') /\ worker_ok s' (hand fd handed) /\
    (0 <= fd -> r <> uAccepted -> sv_closed s' = fd :: sv_closed s /\ sv_upgrades s' = sv_upgrades s) /\
    (r = uAccepted -> sv_closed s' = sv_closed s /\ exists u, sv_upgrades s' = sv_upgrades s ++ [u] /\ up_fd u = fd /\ up_order_id u = order_id).
Proof.
  intros Hw Hid Hkey [Hsz Hbuf]. unfold server.enqueue_upgrade. pose proof (rejected_ok fd s handed Hw) as Hrej.
  destruct (fd <? 0) eqn:Efd; [exists uInvalidKey, s; split; [done|]; split; [unfold hand; by case_if; [lia|]|]; split; [lia|done]|].
  specialize (Hrej ltac:(lia)). assert (decode_websocket_key key (replicate 16 0) = Some (false, replicate 16 0) \/ exists s rest, key = Some (s ++ 0 :: rest) /\
    Forall (fun c => 0 < c < 256) s /\ exists b d, decode_websocket_key key (replicate 16 0) = Some (b, d) /\ (b = true -> length s = 24%nat)) as Hdec.
  { destruct key as [key|]; [right|by left]. destruct Hkey as (str & rest & -> & Hstr). exists str, rest. split; [done|]. split; [done|].
    destruct (decode_websocket_key_spec str rest (replicate 16 0) Hstr eq_refl) as (b & d & Hd & Hspec & _). exists b, d. split; [done|].
    intros Hb. destruct (Hspec Hb) as (Hbs & Hl & Henc). apply (f_equal length) in Henc. rewrite length_app in Henc. cbn in Henc.
    destruct (key_split d Hbs Hl) as (bs' & x & -> & Hb' & Hx & Hl'). destruct (base64_encode_16 bs' x Hb' Hl' Hx) as [E HL].
    rewrite E, length_app, HL in Henc. cbn in Henc. lia. }
  assert (forall r, r <> uAccepted -> exists r' s', Some (r, with_counts (sv_active s) (sv_reserved s) (fd :: sv_closed s) s) = Some (r', s') /\ worker_ok s' (hand fd handed) /\
    (0 <= fd -> r' <> uAccepted -> sv_closed s' = fd :: sv_closed s /\ sv_upgrades s' = sv_upgrades s) /\
    (r' = uAccepted -> sv_closed s' = sv_closed s /\ exists u, sv_upgrades s' = sv_upgrades s ++ [u] /\ up_fd u = fd /\ up_order_id u = order_id)) as Hreject.
  { intros r Hr. eexists _, _. split; [done|]. split; [done|]. split; [done|]. by intros ->. }
  destruct Hdec as [-> | (str & rest & -> & Hstr & b & d & -> & Hlen)]; cbn [mbind option_bind fst negb]; [by apply Hreject|].
  destruct b; cbn [negb]; [|by apply Hreject]. specialize (Hlen eq_refl). case_if; [by apply Hreject|]. destruct lease; [|by apply Hreject]. cbn [negb].
  case_if; [by apply Hreject|]. change (default [] (Some (str ++ 0 :: rest))) with (str ++ 0 :: rest).
  assert (slice (str ++ 0 :: rest) 0 kWebSocketKeyBytes = Some str) as ->.
  { apply (slice_app [] str (0 :: rest)); [done|]. by rewrite Hlen. }
  assert (exists pre, (if negb (pre_read_size =? 0) then slice (default [] pre_read) 0 pre_read_size else Some []) = Some pre /\ bytes_ok pre /\
    Z.of_nat (length pre) <= kMaxUpgradePreReadBytes) as (pre & -> & Hpre & Hprel).
  { unfold kMaxUpgradePreReadBytes in *. destruct (pre_read_size =? 0) eqn:E0; cbn [negb] in *; [exists []; split; [done|]; split; [constructor|cbn; lia]|].
    destruct pre_read as [l|]; [|cbn in *; lia].
    destruct Hbuf as [Hl Hll]. cbn [default]. rewrite slice_prefix by done. eexists. split; [done|]. split; [by apply Forall_take|].
    rewrite length_take. cbn in Heqb. lia. }
  cbn [mbind option_bind]. destruct Hw as [[C Hix] Hmax Hfree Hlink Hconn Hact Hres Hbd Hup Hfds]. pose proof (Zle_0_nat (length (sv_upgrades s))).
  assert (max_connections s <= 1000) by done.
  case_if.
  - unfold kUpgradeQueueCapacity in *. cbn [sv_upgrades with_counts] in *. lia.
  - eexists _, _. split; [done|]. split.
    2:{ split; [done|]. intros _. split; [done|]. by eexists. }
    assert (u32 (sv_reserved s + 1) = sv_reserved s + 1) as Hr by (apply wrap_u_id; unfold in_u; lia).
    split; cbn [with_counts with_upgrades sv_active sv_reserved sv_closed sv_upgrades]; rewrite ?Hr; try done.
    + exists C. by apply (index_ext s).
    + change (open_fds (with_upgrades _ _)) with (open_fds s). rewrite length_app. cbn [length]. lia.
    + change (sv_reserved s + 1 <= max_connections s). lia.
    + apply Forall_app. split; [done|]. constructor; [|constructor]. split; [cbn; lia|done|by exists str|done].
    + change (open_fds (with_upgrades _ _)) with (open_fds s). unfold hand. case_if; [|lia]. rewrite Hfds, fmap_app. cbn [fmap list_fmap up_fd].
      rewrite <- !app_assoc. cbn [app]. rewrite <- !Permutation_middle. done.
Qed.
