(* ===== verification/WsBroadcast.v ===== *)
(** * Broadcasting a fill

    A fill reaches exactly the subscribers of its order: each gets one whole
    text frame behind what it was already sent, or is closed when the frame does
    not fit its buffer. *)
From Stdlib Require Import ZArith Lia ZifyBool.
From stdpp Require Import functions.
From S2P Require Import Prelude Numeric Bytes Config AuditLog ExecTypes.
From S2P Require Import WsUtf8 WsFrame WsKey WsFill WsServer WsConn WsStream WsIndex WsWorker.

(** A connection without its place in the index. *)
Definition core (c : Connection) : Connection := set_links kNoSubscriptionBucket (-1) (-1) c.

Lemma relinked_core s s' j : relinked s s' -> core (conn s' j) = core (conn s j).
Proof. intros Hr. by rewrite (rl_conn _ _ Hr j). Qed.

Lemma core_links b p n c c' : c' = set_links b p n c -> core c' = core c.
Proof. by intros ->. Qed.

Lemma core_fields c c' : core c = core c' -> cn_fd c = cn_fd c' /\ cn_order_id c = cn_order_id c' /\ unsent c = unsent c' /\
  cn_close_after_flush c = cn_close_after_flush c'.
Proof. destruct c, c'. by intros [= -> -> -> -> -> -> -> -> -> -> -> -> -> ->]. Qed.

Lemma worker_diag d s handed : worker_ok s handed -> worker_ok (with_diag d s) handed.
Proof. intros [[C Hix] H1 H2 H3 H4 H5 H6 H7 H8 H9]. split; try done. exists C. by apply (index_ext s). Qed.

Lemma filter_bool_ext (f g : Z -> bool) (l : list Z) : (forall j, j ∈ l -> f j = g j) -> filter (fun j => f j = true) l = filter (fun j => g j = true) l.
Proof.
  induction l as [|x l IH]; intros H; [done|]. rewrite !filter_cons. rewrite (H x) by by left. rewrite IH; [done|]. intros j Hj. apply H. by right.
Qed.

Lemma NoDup_middle_unique (l1 l2 m1 m2 : list Z) i : NoDup (l1 ++ i :: l2) -> l1 ++ i :: l2 = m1 ++ i :: m2 -> l1 = m1 /\ l2 = m2.
Proof.
  revert m1. induction l1 as [|x l1 IH]; intros [|y m1] Hnd Heq; cbn in *; [by injection Heq|..].
  - injection Heq as <- ->. apply NoDup_cons in Hnd as [Hi _]. destruct Hi. apply elem_of_app. right. by left.
  - injection Heq as -> <-. apply NoDup_cons in Hnd as [Hi _]. destruct Hi. apply elem_of_app. right. by left.
  - injection Heq as -> Heq. apply NoDup_cons in Hnd as [_ Hnd]. by destruct (IH m1 Hnd Heq) as [-> ->].
Qed.

(** The chain of a bucket holds open connections of its order. *)
Lemma chain_open s C b i handed : worker_ok s handed -> index_ok s C -> 0 <= b < kSubscriptionBuckets -> i ∈ C b ->
  in_pool s i = true /\ 0 <= cn_fd (conn s i) /\ cn_subscription_bucket (conn s i) = b /\ exists a, conn_ok (conn s i) a.
Proof.
  intros Hw Hix Hb Hi. apply (ch_elem s C b i (ix_chains _ _ Hix) Hb) in Hi as [Hp Hbi].
  destruct (Z.le_gt_cases 0 (cn_fd (conn s i))) as [Hfd | Hneg].
  - split; [done|]. split; [done|]. split; [done|]. by apply (wk_conn _ _ _ Hw).
  - pose proof (wk_free _ _ _ Hw i Hp Hneg) as Hno. rewrite Hbi in Hno. unfold kNoSubscriptionBucket, kSubscriptionBuckets in *. lia.
Qed.

Section Broadcast.
Context (payload : list Z) (Hpayload : Z.of_nat (length payload) <= kWriteBufferBytes).

(** Whether the frame fits behind what is queued. *)
Definition has_room (c : Connection) : bool := Z.of_nat (length (unsent c ++ server_frame 1 payload)) <=? kWriteBufferBytes.

(** What a fill does to one subscriber of its order. *)
Definition reached (c c' : Connection) : Prop :=
  if cn_close_after_flush c then core c' = core c
  else if has_room c then same_but_output (core c) (core c') /\ unsent c' = unsent c ++ server_frame 1 payload
  else core c' = conn_init.

Definition served (c : Connection) : bool := negb (cn_close_after_flush c) && has_room c.

Lemma reached_core c1 c2 c1' c2' : core c1 = core c2 -> core c1' = core c2' -> reached c1 c1' -> reached c2 c2'.
Proof.
  intros Heq Heq'. destruct (core_fields _ _ Heq) as (_ & _ & Hu & Hc). destruct (core_fields _ _ Heq') as (_ & _ & Hu' & _).
  unfold reached, has_room. rewrite Hu, Hc, Heq, Heq', Hu'. done.
Qed.

Lemma served_core c1 c2 : core c1 = core c2 -> served c1 = served c2.
Proof. intros Heq. destruct (core_fields _ _ Heq) as (_ & _ & Hu & Hc). unfold served, has_room. by rewrite Hu, Hc. Qed.

(** One step of the walk: the connection at its position is reached, the others
    and the rest of the chain are as they were. *)
Lemma broadcast_step s C b i l1 l2 handed order_id closed_at fanout fuel :
  worker_ok s handed -> index_ok s C -> 0 <= b < kSubscriptionBuckets -> C b = l1 ++ i :: l2 -> cn_order_id (conn s i) = order_id ->
  exists s' C' l1', server.broadcast_loop (S fuel) i order_id payload closed_at fanout s =
      server.broadcast_loop fuel (hd (-1) l2) order_id payload closed_at (if served (conn s i) then u32 (fanout + 1) else fanout) s' /\
    worker_ok s' handed /\ index_ok s' C' /\ C' b = l1' ++ l2 /\ max_connections s' = max_connections s /\
    (forall j, j <> i -> core (conn s' j) = core (conn s j)) /\ reached (conn s i) (conn s' i) /\
    sv_closed s' = (if negb (cn_close_after_flush (conn s i)) && negb (has_room (conn s i)) then [cn_fd (conn s i)] else []) ++ sv_closed s /\
    sv_upgrades s' = sv_upgrades s /\ dg_completed_broadcasts (sv_diag s') = dg_completed_broadcasts (sv_diag s).
Proof.
  intros Hw Hix Hb HC Hord. destruct (chain_open s C b i handed Hw Hix Hb) as (Hp & Hfd & Hbi & a & Hok); [rewrite HC; apply elem_of_app; right; by left|].
  pose proof (ch_seg _ _ (ix_chains _ _ Hix) b Hb) as Hseg. rewrite HC in Hseg. apply chain_seg_app in Hseg as [_ (_ & _ & _ & Hnext & _)].
  pose proof Hp as Hr. apply in_pool_iff in Hr. cbn [server.broadcast_loop]. case_if; [lia|]. cbv zeta. rewrite Hnext, Hord, Z.eqb_refl. cbn [negb].
  assert ((cn_fd (conn s i) <? 0) = false) as -> by lia. cbn [orb]. rewrite orb_false_r. unfold reached, served.
  destruct (cn_close_after_flush (conn s i)) eqn:Ecl; cbn [negb andb].
  { exists s, C, (l1 ++ [i]). split; [done|]. split; [done|]. split; [done|]. split; [by rewrite HC, <- app_assoc|]. by repeat split. }
  pose proof (queue_frame_spec i 1 payload s Hp (co_out _ _ Hok) ltac:(unfold opcode_ok; lia) Hpayload) as Hq.
  unfold has_room. destruct (_ <=? kWriteBufferBytes) eqn:Eroom; cbn [negb andb app].
  - destruct Hq as (s1 & -> & Hl & Hs & Ho & Hu & Hd). cbn [mbind option_bind].
    exists (with_diag (count_frames 1 0 (sv_diag s1)) s1), C, (l1 ++ [i]). split; [done|].
    assert (worker_ok s1 handed) as Hw1.
    { eapply but_full; [by eapply local_but|]. exists a. rewrite Hs in Ho |- *. destruct Hok as [H1 H2 H3 H4]. split; [done|destruct H2; by split|destruct Ho; by split|done]. }
    pose proof Hl as [L1 L2 L3 L4 L5 L6 L7 L8 L9 L10 (L11 & L12 & L13)].
    split; [by apply worker_diag|]. split.
    { apply (index_ext s); [exact L2|exact L1|..|exact Hix]; intros j _; rewrite conn_diag; (destruct (Z.eq_dec j i) as [-> | Hne]; [|by rewrite L8]); [done|].
      intros _. split; [|done]. unfold links. by rewrite L11, L12, L13. }
    split; [by rewrite HC, <- app_assoc|]. split; [exact L1|]. split; [intros j Hj; rewrite conn_diag; by rewrite L8|].
    split; [rewrite conn_diag; split; [by rewrite Hs|done]|]. split; [exact L5|]. split; [exact L6|]. cbn. by rewrite Hd.
  - rewrite Hq. cbn [mbind option_bind]. set (d := count_frames 0 1 (sv_diag s)).
    set (s1 := with_diag d s). change (conn s1 i) with (conn s i). assert ((0 <=? cn_fd (conn s i)) = true) as -> by lia.
    set (d2 := count_slow _ (sv_diag s1)). assert (worker_ok (with_diag d2 s1) handed) as Hw1 by by do 2 apply worker_diag.
    assert (index_ok (with_diag d2 s1) C) as Hix1 by by apply (index_ext s).
    destruct (close_effect (with_diag d2 s1) i C Hix1 Hp Hfd) as (m1 & m2 & HC1 & Hix2 & Hm & Hci & _ & Hcj & _ & _ & Hcl & _ & Hdg).
    { change (conn (with_diag d2 s1) i) with (conn s i). by rewrite Hbi. }
    change (conn (with_diag d2 s1) i) with (conn s i) in HC1, Hix2, Hcl. rewrite Hbi in HC1, Hix2. rewrite HC1 in HC.
    destruct (NoDup_middle_unique l1 l2 m1 m2 i) as [<- <-]; [rewrite <- HC, <- HC1; apply (ch_nodup _ _ (ix_chains _ _ Hix))|by rewrite <- HC|].
    eexists _, (<[b:=l1 ++ l2]> C), l1. split; [done|]. split.
    { apply close_ok; [|done|done]. by eapply local_but; [apply local_refl| |]. }
    split; [done|]. split; [by rewrite fn_lookup_insert|]. split; [done|]. split; [intros j Hj; by eapply core_links, Hcj|].
    split; [by rewrite Hci|]. split; [done|]. split; [exact (upgrades_close i (with_diag d2 s1))|]. by rewrite Hdg.
Qed.

(** The walk along a chain. *)
Lemma broadcast_loop_spec l : forall fuel s C b l1 handed order_id closed_at fanout,
  (length l <= fuel)%nat -> worker_ok s handed -> index_ok s C -> 0 <= b < kSubscriptionBuckets -> C b = l1 ++ l ->
  (forall i, i ∈ l -> cn_order_id (conn s i) = order_id) -> 0 <= fanout -> fanout + Z.of_nat (length l) < 2 ^ 32 ->
  exists s', server.broadcast_loop fuel (hd (-1) l) order_id payload closed_at fanout s =
      Some (fanout + Z.of_nat (length (filter (fun i => served (conn s i) = true) l)), s') /\
    worker_ok s' handed /\ max_connections s' = max_connections s /\
    (forall j, j ∉ l -> core (conn s' j) = core (conn s j)) /\ (forall j, j ∈ l -> reached (conn s j) (conn s' j)) /\ sv_upgrades s' = sv_upgrades s /\
    dg_completed_broadcasts (sv_diag s') = dg_completed_broadcasts (sv_diag s).
Proof.
  induction l as [|i l IH]; intros fuel s C b l1 handed order_id closed_at fanout Hfuel Hw Hix Hb HC Hord Hf Hf32.
  - exists s. split; [|do 3 (split; [done|]); split; [intros j Hj; by apply not_elem_of_nil in Hj|done]]. cbn [hd filter list_filter length]. rewrite Z.add_0_r. by destruct fuel.
  - destruct fuel as [|fuel]; [cbn in Hfuel; lia|]. cbn [hd length] in *.
    assert (NoDup (l1 ++ i :: l)) as Hnd by (rewrite <- HC; apply (ch_nodup _ _ (ix_chains _ _ Hix))). apply NoDup_app in Hnd as (_ & _ & [Hi Hnd]%NoDup_cons).
    destruct (broadcast_step s C b i l1 l handed order_id closed_at fanout fuel Hw Hix Hb HC (Hord i ltac:(by left)))
      as (s1 & C1 & l1' & -> & Hw1 & Hix1 & HC1 & Hm1 & Hj1 & Hi1 & _ & Hq1 & Hd1).
    assert (forall j, j ∈ l -> core (conn s1 j) = core (conn s j)) as Hrest by (intros j Hj; apply Hj1; by intros ->).
    destruct (IH fuel s1 C1 b l1' handed order_id closed_at (if served (conn s i) then u32 (fanout + 1) else fanout)) as (s' & Heq & Hw' & Hm' & Hout & Hin & Hq' & Hd');
      [lia|done|done|done|done| |destruct (served (conn s i)); [apply wrap_u_range; lia|done]|..].
    { intros j Hj. destruct (core_fields _ _ (Hrest j Hj)) as (_ & -> & _). apply Hord. by right. }
    { destruct (served (conn s i)); [|lia]. rewrite wrap_u_id by (unfold in_u; lia). lia. }
    exists s'. rewrite Heq. split; [|split; [done|]; split; [congruence|]; split; [|split; [|split; congruence]]].
    + f_equal. f_equal. rewrite filter_cons.
      assert (filter (fun j => served (conn s1 j) = true) l = filter (fun j => served (conn s j) = true) l) as ->.
      { apply filter_bool_ext. intros j Hj. by rewrite (served_core _ _ (Hrest j Hj)). }
      destruct (served (conn s i)); [rewrite decide_True by done; rewrite wrap_u_id by (unfold in_u; lia); cbn [length]; lia|].
      rewrite decide_False by done. done.
    + intros j [Hne Hj]%not_elem_of_cons. rewrite Hout by done. by apply Hj1.
    + intros j [-> | Hj]%elem_of_cons.
      * eapply reached_core; [done| |exact Hi1]. symmetry. by apply Hout.
      * eapply reached_core; [by apply Hrest|done|]. by apply Hin.
Qed.

End Broadcast.
