(* ===== verification/WsHistory.v ===== *)
(** * Histories of the WebSocket server

    The states the server reaches by any sequence of operations, with any
    outcomes of the system calls, and what holds in all of them. *)
From Stdlib Require Import ZArith Lia ZifyBool.
From Stdlib Require String Ascii.
From stdpp Require Import functions.
From S2P Require Import Prelude Numeric Bytes Config AuditLog ExecTypes Risk Gateway.
From S2P Require Import WsUtf8 WsFrame WsKey WsFill WsServer WsConn WsStream WsIndex WsWorker WsBroadcast.
Import String.StringSyntax.
#[local] Delimit Scope string_scope with str.

(** ** Subscribers *)
Definition subscriber (s : Server) (order_id i : Z) : bool :=
  in_pool s i && (0 <=? cn_fd (conn s i)) && (cn_order_id (conn s i) =? order_id).

Lemma subscriber_iff s id i : subscriber s id i = true <-> in_pool s i = true /\ 0 <= cn_fd (conn s i) /\ cn_order_id (conn s i) = id.
Proof. unfold subscriber. rewrite !andb_true_iff, Z.leb_le, Z.eqb_eq. tauto. Qed.

Definition slots (s : Server) : list Z := zrange 0 (length (sv_connections s)).

Lemma elem_of_slots s i : i ∈ slots s <-> in_pool s i = true.
Proof. unfold slots. rewrite elem_of_zrange, in_pool_iff. unfold max_connections. lia. Qed.

(** The subscribers of an order with a bucket are its chain. *)
Lemma chain_subscribers s C b handed : worker_ok s handed -> index_ok s C -> 0 <= b < kSubscriptionBuckets -> sb_state (bucket s b) = bOccupied ->
  forall i, i ∈ C b <-> subscriber s (sb_order_id (bucket s b)) i = true.
Proof.
  intros Hw Hix Hb Hocc i. rewrite subscriber_iff. split.
  - intros Hi. destruct (chain_open s C b i handed Hw Hix Hb Hi) as (Hp & Hfd & _). split; [done|]. split; [done|].
    by apply (ch_order _ _ (ix_chains _ _ Hix)).
  - intros (Hp & Hfd & Hord). destruct (wk_linked _ _ _ Hw i Hp Hfd) as [Hr _]. set (b' := cn_subscription_bucket (conn s i)) in *.
    pose proof (ch_member _ _ (ix_chains _ _ Hix) i Hp Hr) as Hi. fold b' in Hi.
    assert (b' = b) as <-; [|done]. apply (table_unique s); [apply Hix|done|done| |done|].
    + apply (ch_state _ _ (ix_chains _ _ Hix) b' Hr). intros E. rewrite E in Hi. by apply not_elem_of_nil in Hi.
    + by rewrite <- (ch_order _ _ (ix_chains _ _ Hix) b' i Hr Hi).
Qed.

Lemma find_subscribers s C id handed : worker_ok s handed -> index_ok s C -> 0 <= id ->
  let b := server.find_subscription id s in
  if 0 <=? b then b < kSubscriptionBuckets /\ forall i, i ∈ C b <-> subscriber s id i = true
  else forall i, subscriber s id i = false.
Proof.
  intros Hw Hix Hid b. pose proof (find_subscription_spec s id (ix_table _ _ Hix) Hid) as Hf. fold b in Hf. cbv zeta in Hf.
  destruct (0 <=? b) eqn:Eb.
  - destruct Hf as (Hb & Hocc & Hord). split; [done|]. rewrite <- Hord. by apply (chain_subscribers s C b handed); [| |lia|].
  - destruct Hf as [_ Hnone]. intros i. destruct (subscriber s id i) eqn:E; [|done]. apply subscriber_iff in E as (Hp & Hfd & Hord). exfalso.
    destruct (wk_linked _ _ _ Hw i Hp Hfd) as [Hr _]. pose proof (ch_member _ _ (ix_chains _ _ Hix) i Hp Hr) as Hi.
    apply (Hnone (cn_subscription_bucket (conn s i)) Hr).
    + apply (ch_state _ _ (ix_chains _ _ Hix) _ Hr). intros E. rewrite E in Hi. by apply not_elem_of_nil in Hi.
    + by rewrite <- (ch_order _ _ (ix_chains _ _ Hix) _ i Hr Hi).
Qed.

(** The chain is the list of subscribers. *)
Lemma chain_permutation s C b id handed : worker_ok s handed -> index_ok s C -> (forall i, i ∈ C b <-> subscriber s id i = true) ->
  C b ≡ₚ filter (fun i => subscriber s id i = true) (slots s).
Proof.
  intros Hw Hix Hiff. apply NoDup_Permutation; [apply (ch_nodup _ _ (ix_chains _ _ Hix))|apply NoDup_filter, NoDup_zrange|].
  intros i. rewrite list_elem_of_filter, elem_of_slots, Hiff. split; [|tauto]. intros H. split; [done|]. by apply subscriber_iff in H as (? & _).
Qed.

Lemma chain_length s C b : index_ok s C -> 0 <= b < kSubscriptionBuckets -> (length (C b) <= length (sv_connections s))%nat.
Proof.
  intros Hix Hb. rewrite <- (length_zrange 0 (length (sv_connections s))). apply submseteq_length, NoDup_submseteq; [apply (ch_nodup _ _ (ix_chains _ _ Hix))|].
  intros i Hi. apply (ch_elem s C b i (ix_chains _ _ Hix) Hb) in Hi as [Hp _]. by apply elem_of_slots.
Qed.

(** ** broadcast *)
Lemma broadcast_spec e published completed closed_at s handed : worker_ok s handed -> fill_ok e ->
  exists s', server.broadcast e published completed closed_at s = Some s' /\ worker_ok s' handed /\ kept s s' /\
    (forall i, in_pool s i = true -> if subscriber s (fe_order_id e) i then reached (fill_text e) (conn s i) (conn s' i) else core (conn s' i) = core (conn s i)) /\
    dg_last_fanout_count (sv_diag s') =
      Z.of_nat (length (filter (fun i => subscriber s (fe_order_id e) i && served (fill_text e) (conn s i) = true) (slots s))) /\
    dg_completed_broadcasts (sv_diag s') = u64 (dg_completed_broadcasts (sv_diag s) + 1).
Proof.
  intros Hw He. destruct (wk_index _ _ _ Hw) as [C Hix]. pose proof (fill_text_length e He) as Hlen. destruct He as (Hid & He).
  unfold server.broadcast. rewrite format_fill_json_text by (done || (rewrite length_replicate; lia)).
  unfold written. cbn [fst snd]. rewrite Nat2Z.id, take_app_length.
  assert ((true && negb (Z.of_nat (length (fill_text e)) =? 0)) = true) as -> by lia. cbv zeta.
  assert (Z.of_nat (length (fill_text e)) <= kWriteBufferBytes) as Hfit by (unfold kWriteBufferBytes; lia).
  pose proof (find_subscribers s C (fe_order_id e) handed Hw Hix ltac:(apply Hid)) as Hfind. cbv zeta in Hfind.
  set (b := server.find_subscription (fe_order_id e) s) in *. set (sub i := subscriber s (fe_order_id e) i) in *.
  assert (exists s1, server.broadcast_loop (length (sv_connections s)) (if b <? 0 then -1 else sb_head (bucket s b)) (fe_order_id e) (fill_text e) closed_at 0 s =
      Some (Z.of_nat (length (filter (fun i => sub i && served (fill_text e) (conn s i) = true) (slots s))), s1) /\ worker_ok s1 handed /\ kept s s1 /\
    (forall i, in_pool s i = true -> if sub i then reached (fill_text e) (conn s i) (conn s1 i) else core (conn s1 i) = core (conn s i)) /\
    dg_completed_broadcasts (sv_diag s1) = dg_completed_broadcasts (sv_diag s)) as (s1 & -> & Hw1 & Hk1 & Hr1 & Hd1).
  - destruct (0 <=? b) eqn:Eb.
    + destruct Hfind as [Hb Hiff]. assert ((b <? 0) = false) as -> by lia. rewrite (ch_head _ _ (ix_chains _ _ Hix) b) by lia.
      pose proof (chain_length s C b Hix ltac:(lia)) as Hcl. assert (Z.of_nat (length (sv_connections s)) <= 1000) as Hmax by apply (wk_max _ _ _ Hw).
      destruct (broadcast_loop_spec (fill_text e) Hfit (C b) (length (sv_connections s)) s C b [] handed (fe_order_id e) closed_at 0)
        as (s1 & Heq & Hw1 & Hm1 & Hout & Hin & Hq1 & Hd1); [done|done|done|lia|done| |done|lia|].
      { intros i Hi. apply Hiff, subscriber_iff in Hi. tauto. }
      exists s1. rewrite Heq. split; [|split; [done|]; split; [by split|]; split; [|done]].
      * rewrite Z.add_0_l. do 3 f_equal. rewrite (chain_permutation s C b (fe_order_id e) handed Hw Hix Hiff). rewrite list_filter_filter.
        apply Permutation_length. erewrite list_filter_iff; [done|]. intros i. cbv beta. rewrite andb_true_iff. tauto.
      * intros i Hi. unfold sub. destruct (subscriber s (fe_order_id e) i) eqn:E; [apply Hin; by apply Hiff|apply Hout].
        intros Hc%Hiff. unfold sub in Hc. congruence.
    + assert ((b <? 0) = true) as -> by lia. exists s. split; [|split; [done|]; split; [by split|]; split; [|done]].
      * assert (filter (fun i => sub i && served (fill_text e) (conn s i) = true) (slots s) = []) as ->.
        { induction (slots s) as [|i l IH]; [done|]. rewrite filter_cons, decide_False, IH; [done|]. unfold sub. by rewrite Hfind. }
        by destruct (length (sv_connections s)).
      * intros i _. unfold sub. by rewrite Hfind.
  - cbn [mbind option_bind]. eexists. split; [done|]. split.
    { apply worker_diag. destruct Hw1 as [[C1 Hix1] H1 H2 H3 H4 H5 H6 H7 H8 H9]. split; try done. exists C1. by apply (index_ext s1). }
    split; [exact Hk1|]. split; [exact Hr1|]. split; [done|]. cbn. by rewrite Hd1.
Qed.

(** ** Reachable states *)

(** [serves n ping pong s handed]: a server of [n] slots reached [s] after the
    descriptors [handed] were handed over, latest first. *)
Inductive serves (n : nat) (ping pong : Z) : Server -> list Z -> Prop :=
| sv_start : serves n ping pong (server_start n ping pong) []
| sv_enqueue s handed fd order_id key pre_read pre_read_size lease r s' :
    serves n ping pong s handed -> in_u 64 order_id -> c_string key -> c_buffer pre_read pre_read_size ->
    server.enqueue_upgrade fd order_id key pre_read pre_read_size lease s = Some (r, s') -> serves n ping pong s' (hand fd handed)
| sv_accept s handed u us nonblocking now now2 recvs inbox inbox' s' :
    serves n ping pong s handed -> sv_upgrades s = u :: us -> bytes_ok inbox ->
    server.accept_upgrade u nonblocking now now2 recvs inbox (with_upgrades us s) = Some (inbox', s') -> serves n ping pong s' handed
| sv_receive s handed i ts recvs inbox b inbox' s' :
    serves n ping pong s handed -> in_pool s i = true -> 0 <= cn_fd (conn s i) -> bytes_ok inbox ->
    server.receive i ts recvs inbox s = Some (b, inbox', s') -> serves n ping pong s' handed
| sv_flush s handed i ts sent b s' :
    serves n ping pong s handed -> in_pool s i = true -> 0 <= cn_fd (conn s i) -> send_ok sent (conn s i) ->
    server.flush i ts sent s = (b, s') -> serves n ping pong s' handed
| sv_keepalive s handed i ts sent s' :
    serves n ping pong s handed -> in_pool s i = true -> send_ok sent (conn s i) ->
    server.service_keepalive i ts sent s = Some s' -> serves n ping pong s' handed
| sv_hangup s handed i :
    serves n ping pong s handed -> in_pool s i = true -> serves n ping pong (server.close i s) handed
| sv_restart s handed :
    serves n ping pong s handed -> serves n ping pong (snd (server.start n false true true true (server.stop s))) handed
| sv_broadcast s handed e published completed closed_at s' :
    serves n ping pong s handed -> fill_ok e -> server.broadcast e published completed closed_at s = Some s' -> serves n ping pong s' handed.

(** A fresh pool on top of an account without open or queued descriptors. *)
Lemma fresh_pool_ok n s handed : Z.of_nat n <= kWebSocketConnections -> sv_active s = 0 -> sv_reserved s = 0 -> sv_upgrades s = [] ->
  sv_connections s = replicate n conn_init -> sv_subscriptions s = replicate (Z.to_nat kSubscriptionBuckets) bucket_init -> handed ≡ₚ sv_closed s ->
  worker_ok s handed.
Proof.
  intros Hn Ha Hr Hq Hc Hsub Hcl.
  assert (forall i, conn s i = conn_init) as Hconn.
  { intros i. unfold conn, lget. rewrite Hc. case_if; [|done]. destruct (replicate n conn_init !! Z.to_nat i) as [c|] eqn:E; [|done]. by apply lookup_replicate in E as [-> _]. }
  assert (forall b, bucket s b = bucket_init) as Hbk.
  { intros b. unfold bucket, lget. rewrite Hsub. case_if; [|done]. destruct (replicate _ bucket_init !! Z.to_nat b) as [c|] eqn:E; [|done]. by apply lookup_replicate in E as [-> _]. }
  assert (fds s = replicate n (-1)) as Hfds by (unfold fds; by rewrite Hc, fmap_replicate).
  assert (open_fds s = []) as Hopen.
  { unfold open_fds. rewrite Hfds. clear. induction n as [|n IH]; [done|]. cbn [replicate]. rewrite filter_cons, decide_False; [done|]. unfold is_fd. lia. }
  assert (max_connections s = Z.of_nat n) as Hmax by (unfold max_connections; by rewrite Hc, length_replicate).
  split; rewrite ?Hopen, ?Hq, ?Ha, ?Hr, ?Hmax; try done.
  - exists (fun _ => []). split.
    + split; [split; [rewrite Hsub, length_replicate; unfold kSubscriptionBuckets; lia|intros b; by rewrite Hbk]|]. intros b _. by rewrite Hbk.
    + split; [done|intros b; constructor|intros b _; by rewrite Hbk|..]; try done.
      * intros i _. rewrite Hconn. cbn. unfold kNoSubscriptionBucket, kSubscriptionBuckets. lia.
      * intros i _. right. by rewrite Hconn.
      * intros b i _ Hi. by apply not_elem_of_nil in Hi.
    + intros b _. by rewrite Hbk.
  - intros i _ _. by rewrite Hconn.
  - intros i _. rewrite Hconn. cbn. lia.
  - intros i _ _. rewrite Hconn. cbn. lia.
  - lia.
  - by rewrite app_nil_r.
Qed.

Lemma close_open s i handed : worker_ok s handed -> in_pool s i = true -> worker_ok (server.close i s) handed.
Proof.
  intros Hw Hi. destruct (Z.le_gt_cases 0 (cn_fd (conn s i))) as [Hfd | Hneg].
  - apply (gone_ok i s); [done|]. by apply gone_close, local_refl.
  - unfold server.close. by case_if; [|lia].
Qed.

Lemma close_pool_slot s i handed : worker_ok s handed -> in_pool s i = true ->
  cn_fd (conn (server.close i s) i) < 0 /\ forall j, j <> i -> cn_fd (conn (server.close i s) j) = cn_fd (conn s j).
Proof.
  intros Hw Hi. destruct (Z.le_gt_cases 0 (cn_fd (conn s i))) as [Hfd | Hneg].
  - destruct (wk_index _ _ _ Hw) as [C Hix]. destruct (wk_linked _ _ _ Hw i Hi Hfd) as [Hb _].
    destruct (close_effect s i C Hix Hi Hfd Hb) as (_ & _ & _ & _ & _ & Hci & _ & Hcj & _). split; [by rewrite Hci|]. intros j Hj. by rewrite (Hcj j Hj).
  - unfold server.close. by case_if; [|lia].
Qed.

Lemma stop_closes l s handed : worker_ok s handed -> (forall i, i ∈ l -> in_pool s i = true) ->
  let s' := foldl (fun s i => server.close i s) s l in
  worker_ok s' handed /\ kept s s' /\ (forall i, i ∈ l \/ cn_fd (conn s i) < 0 -> cn_fd (conn s' i) < 0).
Proof.
  revert s. induction l as [|i l IH]; intros s Hw Hl; cbn [foldl]; [split; [done|]; split; [done|]; intros i [Hi | Hi]; [by apply not_elem_of_nil in Hi|done]|].
  pose proof (Hl i ltac:(by left)) as Hi. destruct (close_pool_slot s i handed Hw Hi) as [Hci Hcj].
  destruct (IH (server.close i s)) as (Hw' & Hk & Hneg); [by apply close_open| |].
  { intros j Hj. unfold in_pool. rewrite (proj1 (close_kept i s)). apply Hl. by right. }
  split; [done|]. split; [eapply kept_trans; [apply close_kept|done]|]. intros j Hj. apply Hneg. destruct (Z.eq_dec j i) as [-> | Hne]; [by right|].
  rewrite Hcj by done. destruct Hj as [[? | ?]%elem_of_cons | ?]; [done|by left|by right].
Qed.

Lemma drop_upgrades_spec us : forall s handed, worker_ok s handed -> sv_upgrades s = us ->
  let s' := server.drop_upgrades us s in worker_ok s' handed /\ sv_upgrades s' = [] /\ sv_connections s' = sv_connections s.
Proof.
  induction us as [|u us IH]; intros s handed Hw Hq; [done|]. cbn [server.drop_upgrades].
  destruct (IH (server.close_pending_upgrade u (with_upgrades us s)) handed) as (Hw' & Hq' & Hc'); [by apply pending_closed|done|].
  split; [done|]. split; [done|]. by rewrite Hc'.
Qed.

Lemma stop_spec s handed : worker_ok s handed ->
  sv_closed (server.stop s) ≡ₚ handed /\ sv_connections (server.stop s) = [] /\ sv_upgrades (server.stop s) = [] /\
  sv_active (server.stop s) = 0 /\ sv_reserved (server.stop s) = 0.
Proof.
  intros Hw. unfold server.stop. fold (slots s). destruct (stop_closes (slots s) s handed Hw) as (Hw1 & [Hm1 _] & Hneg); [intros i; apply elem_of_slots|].
  cbv zeta. set (s1 := foldl _ _ _) in *. destruct (drop_upgrades_spec (sv_upgrades s1) s1 handed Hw1 eq_refl) as (Hw2 & Hq2 & Hc2).
  set (s2 := server.drop_upgrades _ s1) in *.
  assert (open_fds s2 = []) as Hopen.
  { destruct (open_fds s2) as [|fd l] eqn:E; [done|]. exfalso. assert (fd ∈ open_fds s2) as Hfd by (rewrite E; by left).
    apply list_elem_of_filter in Hfd as [Hpos Hfd]. unfold fds in Hfd. rewrite Hc2 in Hfd. apply list_elem_of_lookup in Hfd as [k Hk].
    assert (in_pool s1 (Z.of_nat k) = true) as Hi.
    { apply in_pool_iff. apply lookup_lt_Some in Hk. rewrite length_fmap in Hk. unfold max_connections. lia. }
    pose proof (fds_lookup s1 _ Hi) as Hf. unfold fds in Hf. rewrite Nat2Z.id, Hk in Hf. injection Hf as ->.
    assert (cn_fd (conn s1 (Z.of_nat k)) < 0) as Hneg'; [|unfold is_fd in Hpos; lia]. apply Hneg. left. apply elem_of_slots. unfold in_pool in *. by rewrite <- Hm1. }
  split; [|done]. cbn [sv_closed with_counts with_poll_fds with_connections]. pose proof (wk_fds _ _ _ Hw2) as Hp. rewrite Hq2, Hopen in Hp.
  cbn [fmap list_fmap app] in Hp. by rewrite app_nil_r in Hp.
Qed.

Lemma restart_ok n s handed : Z.of_nat n <= kWebSocketConnections -> worker_ok s handed ->
  worker_ok (snd (server.start n false true true true (server.stop s))) handed.
Proof.
  intros Hn Hw. destruct (stop_spec s handed Hw) as (Hcl & _ & Hq & Ha & Hr). by apply (fresh_pool_ok n).
Qed.

Lemma serves_ok n ping pong s handed : Z.of_nat n <= kWebSocketConnections -> serves n ping pong s handed -> worker_ok s handed.
Proof.
  intros Hn Hs. induction Hs as [|s handed fd order_id key pre_read size lease r s' _ IH Hid Hkey Hbuf Heq|s handed u us nb now now2 recvs inbox inbox' s' _ IH Hq Hb Heq
    |s handed i ts recvs inbox b inbox' s' _ IH Hi Hfd Hb Heq|s handed i ts sent b s' _ IH Hi Hfd Hs' Heq|s handed i ts sent s' _ IH Hi Hs' Heq|s handed i _ IH Hi
    |s handed _ IH|s handed e p c ca s' _ IH He Heq].
  - by apply (fresh_pool_ok n).
  - destruct (enqueue_upgrade_ok fd order_id key pre_read size lease s handed IH Hid Hkey Hbuf) as (r' & s'' & Heq' & Hw & _). rewrite Heq in Heq'. by injection Heq' as _ ->.
  - destruct (accept_upgrade_ok s u us handed nb now now2 recvs inbox IH Hq Hb) as (i' & s'' & Heq' & Hw & _). rewrite Heq in Heq'. by injection Heq' as _ ->.
  - destruct (wk_conn _ _ _ IH i I Hi Hfd) as [a Ha]. destruct (receive_outcome i ts recvs inbox s a Hi Ha Hb) as (b' & i' & s'' & Heq' & Hout & _).
    rewrite Heq in Heq'. injection Heq' as _ _ <-. by eapply outcome_ok.
  - destruct (wk_conn _ _ _ IH i I Hi Hfd) as [a Ha]. pose proof (flush_outcome i ts sent s a Hi Ha Hs') as Hout. rewrite Heq in Hout. by eapply outcome_ok.
  - destruct (Z.le_gt_cases 0 (cn_fd (conn s i))) as [Hfd | Hneg].
    + destruct (wk_conn _ _ _ IH i I Hi Hfd) as [a Ha]. destruct (service_keepalive_outcome i ts sent s a Hi Ha Hs') as (s'' & Heq' & Hout).
      rewrite Heq in Heq'. injection Heq' as <-. by eapply outcome_ok.
    + unfold server.service_keepalive in Heq. case_if_in Heq; [by injection Heq as <-|lia].
  - by apply close_open.
  - by apply restart_ok.
  - destruct (broadcast_spec e p c ca s handed IH He) as (s'' & Heq' & Hw & _). rewrite Heq in Heq'. by injection Heq' as ->.
Qed.

(** ** What holds in every reachable state *)

(** The connections met by following [subscription_next] from [i]. *)
Fixpoint walk (fuel : nat) (s : Server) (i : Z) : list Z :=
  match fuel with
  | O => []
  | S fuel => if i <? 0 then [] else i :: walk fuel s (cn_subscription_next (conn s i))
  end.

Lemma seg_walk s b p l fuel : seg s b p l (-1) -> (length l <= fuel)%nat -> walk fuel s (hd (-1) l) = l.
Proof.
  revert p fuel. induction l as [|i l IH]; intros p fuel Hseg Hf; [by destruct fuel|]. destruct fuel as [|fuel]; [cbn in Hf; lia|].
  destruct Hseg as (Hp & _ & _ & Hn & Hseg). apply in_pool_iff in Hp. cbn [hd walk]. case_if; [lia|]. f_equal. rewrite Hn. apply (IH i); [done|cbn in Hf; lia].
Qed.

(** C25: The subscription index is exact in every state the server can reach: for
    every order id the lookup in the open-addressing table, with its tombstones,
    and the walk along the links of the bucket it finds, give exactly the open
    connections that subscribed to that order, each once. *)
Theorem ws_index_exact (n : nat) (ping pong : Z) (s : Server) (handed : list Z) (order_id : Z)
    (Hn : Z.of_nat n <= kWebSocketConnections) (Hs : serves n ping pong s handed) (Hid : in_u 64 order_id) :
  let b := server.find_subscription order_id s in
  let l := walk (length (sv_connections s)) s (if b <? 0 then -1 else sb_head (bucket s b)) in
  NoDup l /\ forall i, i ∈ l <-> in_pool s i = true /\ 0 <= cn_fd (conn s i) /\ cn_order_id (conn s i) = order_id.
Proof.
  intros b l. pose proof (serves_ok n ping pong s handed Hn Hs) as Hw. destruct (wk_index _ _ _ Hw) as [C Hix].
  pose proof (find_subscribers s C order_id handed Hw Hix ltac:(apply Hid)) as Hf. cbv zeta in Hf. fold b in Hf. unfold l.
  setoid_rewrite <- subscriber_iff. destruct (0 <=? b) eqn:Eb.
  - destruct Hf as [Hb Hiff]. assert ((b <? 0) = false) as -> by lia. rewrite (ch_head _ _ (ix_chains _ _ Hix) b) by lia.
    erewrite seg_walk; [|apply (ch_seg _ _ (ix_chains _ _ Hix)); lia|apply chain_length; [done|lia]].
    split; [apply (ch_nodup _ _ (ix_chains _ _ Hix))|done].
  - assert ((b <? 0) = true) as -> by lia. assert (walk (length (sv_connections s)) s (-1) = []) as -> by by destruct (length _).
    split; [constructor|]. intros i. rewrite Hf. split; [by intros ?%not_elem_of_nil|done].
Qed.

(** C24: No descriptor is lost or closed twice: in every reachable state the
    descriptors handed to the server are, one for one, those it closed, those
    that wait in the upgrade queue and those of open connections; the active
    count is the number of open connections, the reserved count that of the open and
    the queued ones and never more than the pool, and the next upgrade, every
    receive, keep-alive and broadcast run to their end without leaving a buffer. *)
Theorem ws_descriptors_accounted (n : nat) (ping pong : Z) (s : Server) (handed : list Z)
    (Hn : Z.of_nat n <= kWebSocketConnections) (Hs : serves n ping pong s handed) :
  handed ≡ₚ sv_closed s ++ (up_fd <$> sv_upgrades s) ++ open_fds s /\
  sv_active s = Z.of_nat (length (open_fds s)) /\
  sv_reserved s = Z.of_nat (length (open_fds s)) + Z.of_nat (length (sv_upgrades s)) /\ sv_reserved s <= max_connections s /\
  (forall u us nonblocking now now2 recvs inbox, sv_upgrades s = u :: us -> bytes_ok inbox ->
     is_Some (server.accept_upgrade u nonblocking now now2 recvs inbox (with_upgrades us s))) /\
  (forall i ts recvs inbox, in_pool s i = true -> 0 <= cn_fd (conn s i) -> bytes_ok inbox -> is_Some (server.receive i ts recvs inbox s)) /\
  (forall i ts sent, in_pool s i = true -> 0 <= cn_fd (conn s i) -> send_ok sent (conn s i) -> is_Some (server.service_keepalive i ts sent s)) /\
  (forall e published completed closed_at, fill_ok e -> is_Some (server.broadcast e published completed closed_at s)).
Proof.
  pose proof (serves_ok n ping pong s handed Hn Hs) as Hw. split; [apply Hw|]. split; [apply Hw|]. split; [apply Hw|]. split; [apply Hw|].
  split; [|split; [|split]].
  - intros u us nonblocking now now2 recvs inbox Hq Hb. destruct (accept_upgrade_ok s u us handed nonblocking now now2 recvs inbox Hw Hq Hb) as (? & ? & -> & _). done.
  - intros i ts recvs inbox Hi Hfd Hb. destruct (wk_conn _ _ _ Hw i I Hi Hfd) as [a Ha].
    by destruct (receive_outcome i ts recvs inbox s a Hi Ha Hb) as (? & ? & ? & -> & _).
  - intros i ts sent Hi Hfd Hsend. destruct (wk_conn _ _ _ Hw i I Hi Hfd) as [a Ha].
    by destruct (service_keepalive_outcome i ts sent s a Hi Ha Hsend) as (? & -> & _).
  - intros e p c ca He. by destruct (broadcast_spec e p c ca s handed Hw He) as (? & -> & _).
Qed.

(** C23: A fill reaches exactly its subscribers: in every reachable state a
    broadcast ends, appends one whole text frame with the fill's text to the
    unsent bytes of every open connection of that order that is not closing and
    has room for it, closes those without room, leaves every other connection as
    it was (up to its place in the index), and counts the frames it queued. *)
Theorem ws_broadcast_exact (n : nat) (ping pong : Z) (s : Server) (handed : list Z) (e : FillEvent) (published completed : Z) (closed_at : Z -> Z)
    (Hn : Z.of_nat n <= kWebSocketConnections) (Hs : serves n ping pong s handed) (He : fill_ok e) :
  exists s', server.broadcast e published completed closed_at s = Some s' /\
    (forall i, in_pool s i = true ->
       let c := conn s i in let c' := conn s' i in
       if negb (subscriber s (fe_order_id e) i && negb (cn_close_after_flush c)) then core c' = core c
       else if has_room (fill_text e) c then same_but_output (core c) (core c') /\ unsent c' = unsent c ++ server_frame 1 (fill_text e)
       else core c' = conn_init) /\
    dg_last_fanout_count (sv_diag s') =
      Z.of_nat (length (filter (fun i => subscriber s (fe_order_id e) i && served (fill_text e) (conn s i) = true) (slots s))).
Proof.
  destruct (broadcast_spec e published completed closed_at s handed (serves_ok n ping pong s handed Hn Hs) He) as (s' & Hb & _ & _ & Hr & Hc & _).
  exists s'. split; [done|]. split; [|done]. intros i Hi c c'. specialize (Hr i Hi). fold c c' in Hr. unfold reached in Hr.
  destruct (subscriber s (fe_order_id e) i); cbn [andb negb]; [|done]. destruct (cn_close_after_flush c); done.
Qed.

(** ** A history *)

(** A pool of two slots; two clients subscribe to orders 7 and 8, the second
    arrives with a ping in the same read as its request. *)
Definition demo_key : option (list Z) := Eval vm_compute in Some (bytes_of_string "dGhlIHNhbXBsZSBub25jZQ=="%str ++ [0]).
Definition enqueued (fd order_id : Z) (pre : option (list Z)) (s : Server) : Server :=
  default s (snd <$> server.enqueue_upgrade fd order_id demo_key pre (Z.of_nat (length (default [] pre))) true s).
Definition accepted (s : Server) : Server :=
  match sv_upgrades s with u :: us => default s (snd <$> server.accept_upgrade u true 1 2 [] [] (with_upgrades us s)) | [] => s end.
Definition demo : Server := accepted (accepted (enqueued 6 8 (Some (encode_frame ping_hi)) (enqueued 5 7 None (server_start 2 0 0)))).

Lemma demo_key_ok : c_string demo_key.
Proof. exists (bytes_of_string "dGhlIHNhbXBsZSBub25jZQ=="%str), []. split; [done|]. by repeat constructor. Qed.

Lemma accepted_serves n ping pong s handed : Z.of_nat n <= kWebSocketConnections -> serves n ping pong s handed -> serves n ping pong (accepted s) handed.
Proof.
  intros Hn Hs. pose proof (serves_ok n ping pong s handed Hn Hs) as Hw. unfold accepted. destruct (sv_upgrades s) as [|u us] eqn:Hq; [done|].
  destruct (accept_upgrade_ok s u us handed true 1 2 [] [] Hw Hq) as (inbox' & s' & Ha & _); [constructor|]. rewrite Ha.
  eapply sv_accept; [exact Hs|exact Hq| |exact Ha]. constructor.
Qed.

Lemma demo_serves : serves 2 0 0 demo (hand 6 (hand 5 [])).
Proof.
  unfold demo. do 2 (apply accepted_serves; [done|]). set (s1 := enqueued 5 7 None (server_start 2 0 0)).
  assert (serves 2 0 0 s1 (hand 5 [])) as H1.
  { eapply (sv_enqueue 2 0 0 _ [] 5 7 demo_key None 0 true uAccepted); [constructor|done|exact demo_key_ok|done|by vm_compute]. }
  eapply (sv_enqueue 2 0 0 _ _ 6 8 demo_key (Some (encode_frame ping_hi)) 8 true uAccepted); [exact H1|done|exact demo_key_ok| |by vm_compute].
  split; [done|]. split; [exact ping_hi_bytes|by vm_compute].
Qed.

Example ws_index_exact_witness :
  let b := server.find_subscription 8 demo in
  walk 2 demo (if b <? 0 then -1 else sb_head (bucket demo b)) = [1] /\
  forall i, i ∈ [1] <-> in_pool demo i = true /\ 0 <= cn_fd (conn demo i) /\ cn_order_id (conn demo i) = 8.
Proof.
  cbv zeta. assert (in_u 64 8) as H8 by done. assert (Z.of_nat 2 <= kWebSocketConnections) as H2 by done.
  assert (walk 2 demo (if server.find_subscription 8 demo <? 0 then -1 else sb_head (bucket demo (server.find_subscription 8 demo))) = [1]) as Hw by by vm_compute.
  split; [exact Hw|]. pose proof (ws_index_exact 2 0 0 demo _ 8 H2 demo_serves H8) as H. cbv zeta in H.
  assert (length (sv_connections demo) = 2%nat) as Hl by by vm_compute. rewrite Hl, Hw in H. exact (proj2 H).
Defined.

Example ws_descriptors_accounted_witness :
  [6; 5] ≡ₚ [] ++ [] ++ [5; 6] /\ sv_reserved demo = 2 /\ is_Some (server.receive 1 3 [RecvMax 4] [0x89] demo).
Proof.
  destruct (ws_descriptors_accounted 2 0 0 demo _ ltac:(done) demo_serves) as (H1 & _ & _ & _ & _ & H2 & _).
  assert (sv_closed demo = [] /\ sv_upgrades demo = [] /\ open_fds demo = [5; 6]) as (E1 & E2 & E3) by (split; [|split]; by vm_compute).
  rewrite E1, E2, E3 in H1. split; [exact H1|]. split; [by vm_compute|]. apply H2; [by vm_compute|by vm_compute|]. by repeat constructor.
Defined.

(** Order 8 fills: client 6, which was answered its ping, gets the frame. *)
Example ws_broadcast_exact_witness :
  let e := mkFillEvent 8 5 (-100) 3 in
  exists s', server.broadcast e 1 2 (fun _ => 0) demo = Some s' /\ core (conn s' 0) = core (conn demo 0) /\
    unsent (conn s' 1) = unsent (conn demo 1) ++ server_frame 1 (fill_text e) /\ dg_last_fanout_count (sv_diag s') = 1.
Proof.
  intros e. destruct (ws_broadcast_exact 2 0 0 demo _ e 1 2 (fun _ => 0) ltac:(done) demo_serves) as (s' & Hb & Hi & Hc); [by repeat split|].
  exists s'. split; [exact Hb|]. pose proof (Hi 0 ltac:(by vm_compute)) as H0. pose proof (Hi 1 ltac:(by vm_compute)) as H1. cbv zeta in H0, H1.
  assert (subscriber demo (fe_order_id e) 0 && negb (cn_close_after_flush (conn demo 0)) = false) as E0 by by vm_compute.
  assert (subscriber demo (fe_order_id e) 1 && negb (cn_close_after_flush (conn demo 1)) = true) as E1 by by vm_compute.
  assert (has_room (fill_text e) (conn demo 1) = true) as E2 by by vm_compute.
  assert (length (filter (fun i => subscriber demo (fe_order_id e) i && served (fill_text e) (conn demo i) = true) (slots demo)) = 1%nat) as E3 by by vm_compute.
  rewrite E0 in H0. rewrite E1, E2 in H1. rewrite E3 in Hc. split; [exact H0|]. split; [exact (proj2 H1)|exact Hc].
Defined.
