(* ===== verification/WsTurn.v ===== *)
(** * The worker's loop and the end of its life (luv_websocket.cpp)

    One turn of [Server::run] in the poll build, with the clock, the results of
    [poll], [recv], [send] and [fcntl] as its input, and [stop].  The producers'
    pushes happen between turns: they only append to the two queues, of which a
    turn consumes the front. *)
From Stdlib Require Import ZArith Lia ZifyBool.
From stdpp Require Import functions.
From S2P Require Import Prelude Numeric Bytes Config AuditLog ExecTypes Risk Gateway.
From S2P Require Import WsUtf8 WsFrame WsKey WsFill WsServer WsConn WsStream WsIndex WsWorker WsBroadcast WsHistory.

Definition kMaintenanceIntervalNs : Z := 1000000.
Definition kMaximumMaintenanceDeferralNs : Z := 1000000.
Definition kPostFillQuietPeriodNs : Z := 50000.
Definition kMaxUpgradesPerTurn : nat := 16.
Definition kMaxFillsPerTurn : nat := 128.
Definition kEventQueueCapacity : Z := 1024.
Definition POLLPRI : Z := 2.
Definition POLLERR : Z := 8.
Definition POLLHUP : Z := 16.
Definition POLLNVAL : Z := 32.

(** The server with what its worker keeps besides: the queue of published fills
    with their times, oldest first, and two deadlines. *)
Record Worker := mkWorker {
  w_server : Server;
  w_events : list (FillEvent * Z);
  w_next_maintenance_ns : Z;
  w_last_fill_activity_ns : Z
}.

(** What the system does in the course of a turn.  [send] takes up to the
    pending bytes, so the amount is cut to them. *)
Record TurnInput := mkInput {
  ti_broadcast : nat -> Z * (Z -> Z);                                      (* clock at the end of a broadcast, at a close *)
  ti_activity : Z;                                                         (* clock after the fills *)
  ti_accept : nat -> bool * Z * Z * list recv_outcome * list Z;            (* fcntl, two readings of the clock, recv and its bytes *)
  ti_now : Z;
  ti_keepalive : Z -> send_outcome;
  ti_ready : Z;                                                            (* result of poll *)
  ti_wake : Z;                                                             (* revents of the wakeup pipe *)
  ti_revents : Z -> Z;                                                     (* revents of a connection *)
  ti_io_now : Z;
  ti_recv : Z -> list recv_outcome * list Z;
  ti_send : Z -> send_outcome
}.

Definition send_up_to (c : Connection) (sent : send_outcome) : send_outcome :=
  match sent with SendBytes n => SendBytes (Z.min n (server.pending_bytes c)) | _ => sent end.

Module worker.

(** ** The two queues *)
Fixpoint dispatch_fills (budget : nat) (k : nat) (input : TurnInput) (events : list (FillEvent * Z)) (s : Server)
    : option (nat * list (FillEvent * Z) * Server) :=
  match budget, events with
  | S budget, (event, published_ns) :: events =>
      s ← server.broadcast event published_ns (fst (ti_broadcast input k)) (snd (ti_broadcast input k)) s;
      dispatch_fills budget (S k) input events s
  | _, _ => Some (k, events, s)
  end.

Fixpoint process_upgrades (budget : nat) (k : nat) (input : TurnInput) (s : Server) : option Server :=
  match budget, sv_upgrades s with
  | S budget, u :: us =>
      let '(nonblocking, now, now2, recvs, inbox) := ti_accept input k in
      r ← server.accept_upgrade u nonblocking now now2 recvs inbox (with_upgrades us s);
      process_upgrades budget (S k) input (snd r)
  | _, _ => Some s
  end.

(** The loops over the pool. *)
Fixpoint for_each (l : list Z) (f : Z -> Server -> option Server) (s : Server) : option Server :=
  match l with [] => Some s | i :: l => s ← f i s; for_each l f s end.

Definition keepalive_one (input : TurnInput) (i : Z) (s : Server) : option Server :=
  server.service_keepalive i (ti_now input) (send_up_to (conn s i) (ti_keepalive input i)) s.

(** ** Socket I/O of one connection *)
Definition has (events mask : Z) : bool := negb (Z.land events mask =? 0).

Definition service_io (input : TurnInput) (i : Z) (s : Server) : option Server :=
  if cn_fd (conn s i) <? 0 then Some s
  else
    let events := ti_revents input i in
    s ← (if has events (Z.lor POLLIN POLLPRI) then
           r ← server.receive i (ti_io_now input) (fst (ti_recv input i)) (snd (ti_recv input i)) s; Some (snd r)
         else Some s);
    let c := conn s i in
    let s := if (0 <=? cn_fd c) && (has events POLLOUT || (cn_close_after_flush c && negb (cn_write_offset c =? cn_write_size c))) then
               snd (server.flush i (ti_io_now input) (send_up_to c (ti_send input i)) s)
             else s in
    let c := conn s i in
    Some (if (0 <=? cn_fd c) && has events (Z.lor (Z.lor POLLERR POLLHUP) POLLNVAL)
             && (negb (cn_close_after_flush c) || (cn_write_offset c =? cn_write_size c)) then server.close i s
          else s).

(** ** How long [poll] may sleep *)
Definition poll_timeout (queue_work_remains recently_filled maintenance_due : bool) (now last_fill next_maintenance : Z) : Z :=
  if queue_work_remains then 0
  else
    let deadline := next_maintenance in
    let deadline :=
      if recently_filled then
        let quiet_deadline := if UINT64_MAX - kPostFillQuietPeriodNs <? last_fill then UINT64_MAX else last_fill + kPostFillQuietPeriodNs in
        if maintenance_due && (now <? quiet_deadline) then quiet_deadline
        else if (now <? quiet_deadline) && (quiet_deadline <? deadline) then quiet_deadline
        else deadline
      else deadline in
    if now <? deadline then
      let milliseconds := u64 (u64 (deadline - now) + 1000000 - 1) / 1000000 in
      if INT32_MAX <? milliseconds then INT32_MAX else milliseconds
    else 0.

Definition nonempty {A} (l : list A) : bool := match l with [] => false | _ => true end.

(** ** One turn; the result is the timeout given to [poll]. *)
Definition turn (input : TurnInput) (w : Worker) : option (Z * Worker) :=
  r ← dispatch_fills kMaxFillsPerTurn 0 input (w_events w) (w_server w);
  let '(fills_processed, events, s) := r in
  let last_fill := if negb (Nat.eqb fills_processed 0) then ti_activity input else w_last_fill_activity_ns w in
  s ← process_upgrades kMaxUpgradesPerTurn 0 input s;
  let queue_work_remains := nonempty events || nonempty (sv_upgrades s) in
  let now := ti_now input in
  let next := w_next_maintenance_ns w in
  let recently_filled := negb (last_fill =? 0) && (last_fill <=? now) && (u64 (now - last_fill) <? kPostFillQuietPeriodNs) in
  let maintenance_due := next <=? now in
  let maintenance_must_run := maintenance_due && (negb recently_filled || (kMaximumMaintenanceDeferralNs <=? u64 (now - next))) in
  s ← (if maintenance_must_run then for_each (slots s) (keepalive_one input) s else Some s);
  let next := if maintenance_must_run then (if UINT64_MAX - kMaintenanceIntervalNs <? now then UINT64_MAX else now + kMaintenanceIntervalNs) else next in
  let timeout_ms := poll_timeout queue_work_remains recently_filled maintenance_due now last_fill next in
  s ← (if (0 <? ti_ready input)
           && negb (negb queue_work_remains && has (ti_wake input) (Z.lor (Z.lor (Z.lor POLLIN POLLPRI) POLLERR) POLLHUP)) then
         for_each (slots s) (service_io input) s
       else Some s);
  Some (timeout_ms, mkWorker s events next last_fill).

(** ** Publishing and stopping *)
Definition publish (event : FillEvent) (published_ns : Z) (lease : bool) (w : Worker) : bool * Worker :=
  if negb lease then (false, w)
  else if kEventQueueCapacity <=? Z.of_nat (length (w_events w)) then (false, w)
  else (true, mkWorker (w_server w) (w_events w ++ [(event, published_ns)]) (w_next_maintenance_ns w) (w_last_fill_activity_ns w)).

Definition stop (w : Worker) : Worker := mkWorker (server.stop (w_server w)) [] 0 0.

Definition start (n : nat) (running storage_ok pipe_ok thread_ok : bool) (now : Z) (w : Worker) : bool * Worker :=
  let '(started, s) := server.start n running storage_ok pipe_ok thread_ok (w_server w) in
  (started,
   if running || negb storage_ok || negb pipe_ok then mkWorker s (w_events w) (w_next_maintenance_ns w) (w_last_fill_activity_ns w)
   else mkWorker s (w_events w) (u64 (now + kMaintenanceIntervalNs)) 0).

End worker.

(** ** A turn is a sequence of the worker's operations *)
Record input_ok (input : TurnInput) : Prop := {
  in_accept : forall k, bytes_ok (snd (ti_accept input k));
  in_recv : forall i, bytes_ok (snd (ti_recv input i));
  in_now : in_u 64 (ti_now input)
}.

Lemma send_up_to_ok c a sent : conn_ok c a -> send_ok (send_up_to c sent) c.
Proof. intros Hok. destruct sent; cbn; [|done..]. rewrite pending_bytes_eq by apply Hok. lia. Qed.

Section Turn.
Context (n : nat) (ping pong : Z) (Hn : Z.of_nat n <= kWebSocketConnections).
Context (input : TurnInput) (Hin : input_ok input).
Context (handed : list Z).

Definition reach (s : Server) : Prop := serves n ping pong s handed.

Lemma reach_worker s : reach s -> worker_ok s handed.
Proof. apply serves_ok, Hn. Qed.

Lemma reach_conn s i : reach s -> in_pool s i = true -> 0 <= cn_fd (conn s i) -> exists a, conn_ok (conn s i) a.
Proof. intros Hs. by apply (wk_conn _ _ _ (reach_worker s Hs)). Qed.

Lemma dispatch_fills_spec budget : forall k events s, reach s -> Forall (fun ev => fill_ok (fst ev)) events ->
  exists s', worker.dispatch_fills budget k input events s = Some ((k + Nat.min budget (length events))%nat, drop budget events, s') /\ reach s' /\ kept s s'.
Proof.
  induction budget as [|budget IH]; intros k events s Hs Hev; [exists s; cbn; by rewrite Nat.add_0_r|].
  destruct events as [|[e p] events]; [exists s; cbn; by rewrite Nat.add_0_r|]. apply Forall_cons in Hev as [He Hev]. cbn [worker.dispatch_fills].
  destruct (broadcast_spec e p (fst (ti_broadcast input k)) (snd (ti_broadcast input k)) s handed (reach_worker s Hs) He) as (s1 & Hb & _ & Hk1 & _).
  rewrite Hb. cbn [mbind option_bind]. assert (reach s1) as Hs1 by (by eapply sv_broadcast).
  destruct (IH (S k) events s1 Hs1 Hev) as (s' & -> & Hs' & Hk'). exists s'. split; [|split; [done|by eapply kept_trans]].
  cbn [length Nat.min drop]. do 3 f_equal. lia.
Qed.

Lemma process_upgrades_spec budget : forall k s, reach s ->
  exists s', worker.process_upgrades budget k input s = Some s' /\ reach s' /\ max_connections s' = max_connections s /\ sv_upgrades s' = drop budget (sv_upgrades s).
Proof.
  induction budget as [|budget IH]; intros k s Hs; [by exists s|]. cbn [worker.process_upgrades]. destruct (sv_upgrades s) as [|u us] eqn:Hq; [exists s; by rewrite Hq|].
  pose proof (in_accept _ Hin k) as Hb. destruct (ti_accept input k) as [[[[nb now] now2] recvs] inbox]. cbn [snd] in Hb.
  destruct (accept_upgrade_ok s u us handed nb now now2 recvs inbox (reach_worker s Hs) Hq Hb) as (inbox' & s1 & Ha & _ & Hm & Hq1). rewrite Ha. cbn [mbind option_bind snd].
  assert (reach s1) as Hs1 by (by eapply sv_accept). destruct (IH (S k) s1 Hs1) as (s' & -> & Hs' & Hm' & Hq'). exists s'. rewrite Hq', Hq1. split; [done|]. split; [done|].
  split; [congruence|done].
Qed.

Lemma for_each_spec f l : (forall i s, in_pool s i = true -> reach s -> exists s', f i s = Some s' /\ reach s' /\ kept s s') ->
  forall s, reach s -> (forall i, i ∈ l -> in_pool s i = true) -> exists s', worker.for_each l f s = Some s' /\ reach s' /\ kept s s'.
Proof.
  intros Hf. induction l as [|i l IH]; intros s Hs Hl; [by exists s|]. cbn [worker.for_each].
  destruct (Hf i s (Hl i ltac:(by left)) Hs) as (s1 & -> & Hs1 & Hk1). cbn [mbind option_bind].
  destruct (IH s1 Hs1) as (s' & -> & Hs' & Hk'); [|exists s'; split; [done|]; split; [done|by eapply kept_trans]].
  intros j Hj. unfold in_pool. rewrite (proj1 Hk1). apply Hl. by right.
Qed.

Lemma keepalive_one_spec i s : in_pool s i = true -> reach s -> exists s', worker.keepalive_one input i s = Some s' /\ reach s' /\ kept s s'.
Proof.
  intros Hi Hs. unfold worker.keepalive_one. destruct (Z.le_gt_cases 0 (cn_fd (conn s i))) as [Hfd | Hneg].
  - destruct (reach_conn s i Hs Hi Hfd) as [a Ha]. pose proof (send_up_to_ok _ a (ti_keepalive input i) Ha) as Hsend.
    destruct (service_keepalive_outcome i (ti_now input) _ s a Hi Ha Hsend) as (s' & Heq & Hout). rewrite Heq. exists s'. split; [done|].
    split; [by eapply sv_keepalive|by eapply outcome_kept].
  - exists s. unfold server.service_keepalive. by case_if; [|lia].
Qed.

Lemma service_io_spec i s : in_pool s i = true -> reach s -> exists s', worker.service_io input i s = Some s' /\ reach s' /\ kept s s'.
Proof.
  intros Hi Hs. unfold worker.service_io. destruct (cn_fd (conn s i) <? 0) eqn:Efd; [by exists s|]. destruct (reach_conn s i Hs Hi ltac:(lia)) as [a Ha].
  assert (exists s1, (if worker.has (ti_revents input i) (Z.lor POLLIN POLLPRI) then
      r ← server.receive i (ti_io_now input) (fst (ti_recv input i)) (snd (ti_recv input i)) s; Some (snd r) else Some s) = Some s1 /\ reach s1 /\ kept s s1)
    as (s1 & -> & Hs1 & Hk1).
  { case_if; [|by exists s]. destruct (receive_outcome i (ti_io_now input) (fst (ti_recv input i)) (snd (ti_recv input i)) s a Hi Ha (in_recv _ Hin i))
      as (b & inbox' & s1 & Heq & Hout & _). rewrite Heq. exists s1. split; [done|]. split; [eapply sv_receive; [exact Hs|done|lia|apply (in_recv _ Hin i)|exact Heq]|by eapply outcome_kept]. }
  cbn [mbind option_bind]. cbv zeta. assert (in_pool s1 i = true) as Hi1 by (unfold in_pool; by rewrite (proj1 Hk1)).
  set (s2 := if (0 <=? cn_fd (conn s1 i)) && _ then _ else s1). assert (reach s2 /\ kept s1 s2) as [Hs2 Hk2].
  { unfold s2. destruct (0 <=? cn_fd (conn s1 i)) eqn:Efd1; cbn [andb]; [|done]. case_if; [|done]. destruct (reach_conn s1 i Hs1 Hi1 ltac:(lia)) as [a1 Ha1].
    pose proof (send_up_to_ok _ a1 (ti_send input i) Ha1) as Hsend. pose proof (flush_outcome i (ti_io_now input) _ s1 a1 Hi1 Ha1 Hsend) as Hout.
    split; [|by eapply outcome_kept]. destruct (server.flush i (ti_io_now input) (send_up_to (conn s1 i) (ti_send input i)) s1) as [b s2'] eqn:Hfl.
    eapply sv_flush; [exact Hs1|done|lia|exact Hsend|exact Hfl]. }
  assert (in_pool s2 i = true) as Hi2 by (unfold in_pool; by rewrite (proj1 Hk2)).
  eexists. split; [done|]. case_if; [|split; [done|by eapply kept_trans]].
  split; [by apply sv_hangup|]. eapply kept_trans; [exact Hk1|]. eapply kept_trans; [exact Hk2|apply close_kept].
Qed.

End Turn.

(** ** Deadlines *)
Lemma poll_timeout_spec qwr recent due now last next : in_u 64 now -> in_u 64 last -> in_u 64 next ->
  (recent = true -> last <= now) ->
  let t := worker.poll_timeout qwr recent due now last next in
  0 <= t <= INT32_MAX /\ (qwr = true -> t = 0) /\ (t <= 1 \/ now + (t - 1) * 1000000 < next).
Proof.
  intros Hnow Hlast Hnext Hrec. unfold in_u in *. change (2 ^ 64) with 18446744073709551616 in *. unfold worker.poll_timeout. cbv zeta.
  destruct qwr; [lia|]. unfold kPostFillQuietPeriodNs. set (quiet := if UINT64_MAX - 50000 <? last then _ else _).
  assert (quiet <= last + 50000 /\ quiet < 18446744073709551616) as Hq by (unfold quiet; case_if; lia).
  set (deadline := if recent then _ else next).
  assert (deadline < 18446744073709551616 /\ (now < deadline -> deadline <= next \/ deadline <= now + 50000)) as [Hd1 Hd2].
  { unfold deadline. destruct recent; [specialize (Hrec eq_refl)|lia]. repeat case_if; lia. }
  clearbody deadline. destruct (now <? deadline) eqn:Ed; [|lia]. rewrite (wrap_u_id 64 (deadline - now)) by (unfold in_u; change (2 ^ 64) with 18446744073709551616; lia).
  unfold wrap_u. change (2 ^ 64) with 18446744073709551616. set (x := deadline - now + 1000000 - 1) in *.
  assert (0 <= x mod 18446744073709551616 <= x) as Hx by (split; [apply Z.mod_pos_bound; lia|apply Z.mod_le; lia]).
  set (m := x mod 18446744073709551616) in *. clearbody m. pose proof (Z.div_mod m 1000000 ltac:(lia)) as Hdm. pose proof (Z.mod_pos_bound m 1000000 ltac:(lia)).
  assert (0 <= m / 1000000) by (apply Z.div_pos; lia). case_if; (split; [lia|]); (split; [done|]); destruct Hd2; lia.
Qed.

Lemma u64_diff a b : in_u 64 a -> in_u 64 b -> b <= a -> u64 (a - b) = a - b.
Proof. intros Ha Hb Hab. apply wrap_u_id. unfold in_u in *. lia. Qed.

(** C28: A turn of the worker's loop always comes to its end, whatever the clock
    and the sockets do, and is a sequence of the operations above, so that all
    that holds of their histories holds between turns; it takes the oldest fills
    and upgrades up to its budgets and leaves the rest in order; maintenance is
    never more than the deferral interval overdue when it ends; and the sleep it
    asks of [poll] is an [int], none while work is queued, and at most the
    millisecond that contains the next deadline. *)
Theorem ws_turn_exact (n : nat) (ping pong : Z) (w : Worker) (handed : list Z) (input : TurnInput)
    (Hn : Z.of_nat n <= kWebSocketConnections) (Hs : serves n ping pong (w_server w) handed) (Hin : input_ok input)
    (Hev : Forall (fun ev => fill_ok (fst ev)) (w_events w))
    (Htimes : in_u 64 (w_next_maintenance_ns w) /\ in_u 64 (w_last_fill_activity_ns w) /\ in_u 64 (ti_activity input)) :
  exists t w', worker.turn input w = Some (t, w') /\ serves n ping pong (w_server w') handed /\
    w_events w' = drop kMaxFillsPerTurn (w_events w) /\ sv_upgrades (w_server w') = drop kMaxUpgradesPerTurn (sv_upgrades (w_server w)) /\
    in_u 64 (w_next_maintenance_ns w') /\ ti_now input < w_next_maintenance_ns w' + kMaximumMaintenanceDeferralNs /\
    0 <= t <= INT32_MAX /\ (w_events w' <> [] \/ sv_upgrades (w_server w') <> [] -> t = 0) /\
    (t <= 1 \/ ti_now input + (t - 1) * 1000000 < w_next_maintenance_ns w').
Proof.
  destruct Htimes as (Hnext & Hlast & Hact). pose proof (in_now _ Hin) as Hnow. unfold worker.turn.
  destruct (dispatch_fills_spec n ping pong Hn input handed kMaxFillsPerTurn 0 (w_events w) (w_server w) Hs Hev) as (s1 & -> & Hs1 & [_ Hq1]). cbn [mbind option_bind].
  set (last := if negb _ then ti_activity input else w_last_fill_activity_ns w). assert (in_u 64 last) as Hlast' by (unfold last; by case_if).
  destruct (process_upgrades_spec n ping pong Hn input Hin handed kMaxUpgradesPerTurn 0 s1 Hs1) as (s2 & -> & Hs2 & _ & Hq2). cbn [mbind option_bind]. cbv zeta.
  set (events := drop kMaxFillsPerTurn (w_events w)). set (qwr := worker.nonempty events || worker.nonempty (sv_upgrades s2)). set (now := ti_now input) in *.
  set (next := w_next_maintenance_ns w) in *. set (recent := negb (last =? 0) && (last <=? now) && _).
  set (due := next <=? now). set (must := due && _).
  assert (exists s3, (if must then worker.for_each (slots s2) (worker.keepalive_one input) s2 else Some s2) = Some s3 /\ serves n ping pong s3 handed /\ kept s2 s3)
    as (s3 & -> & Hs3 & [_ Hq3]).
  { case_if; [|by exists s2]. apply (for_each_spec n ping pong handed); [|done|intros i; apply elem_of_slots]. by apply keepalive_one_spec. }
  cbn [mbind option_bind]. set (next' := if must then _ else next).
  assert (in_u 64 next' /\ now < next' + 1000000) as [Hnext' Hdef].
  { unfold next', must, due, kMaintenanceIntervalNs, kMaximumMaintenanceDeferralNs in *. destruct (next <=? now) eqn:Edue; cbn [andb]; [|split; [done|lia]].
    rewrite u64_diff by (done || lia). unfold in_u in *. change (2 ^ 64) with 18446744073709551616 in *. repeat case_if; lia. }
  pose proof (poll_timeout_spec qwr recent due now last next' Hnow Hlast' Hnext' ltac:(unfold recent; lia)) as (Ht1 & Ht2 & Ht3).
  set (t := worker.poll_timeout _ _ _ _ _ _) in *.
  assert (exists s4, (if (0 <? ti_ready input) && negb (negb qwr && worker.has (ti_wake input) (Z.lor (Z.lor (Z.lor POLLIN POLLPRI) POLLERR) POLLHUP)) then
      worker.for_each (slots s3) (worker.service_io input) s3 else Some s3) = Some s4 /\ serves n ping pong s4 handed /\ kept s3 s4) as (s4 & -> & Hs4 & [_ Hq4]).
  { case_if; [|by exists s3]. apply (for_each_spec n ping pong handed); [|done|intros i; apply elem_of_slots]. by apply service_io_spec. }
  cbn [mbind option_bind]. exists t. eexists. split; [done|]. cbn [w_server w_events w_next_maintenance_ns]. split; [done|]. split; [done|].
  split; [by rewrite Hq4, Hq3, Hq2, Hq1|]. split; [done|]. split; [done|]. split; [done|]. split; [|done].
  intros Hwork. apply Ht2. unfold qwr. rewrite Hq4, Hq3 in Hwork. destruct events; [|done]. destruct (sv_upgrades s2); [by destruct Hwork|done].
Qed.

(** ** stop *)
(** Stopping gives everything back: from every reachable state, [stop] closes
    every descriptor the server was handed and had not closed yet, each of them
    once, and leaves an empty pool, empty queues and zero counts. *)
Theorem ws_stop_releases (n : nat) (ping pong : Z) (w : Worker) (handed : list Z)
    (Hn : Z.of_nat n <= kWebSocketConnections) (Hs : serves n ping pong (w_server w) handed) :
  let w' := worker.stop w in
  sv_closed (w_server w') ≡ₚ handed /\ sv_connections (w_server w') = [] /\ sv_upgrades (w_server w') = [] /\ w_events w' = [] /\
  sv_active (w_server w') = 0 /\ sv_reserved (w_server w') = 0.
Proof.
  destruct (stop_spec (w_server w) handed (serves_ok n ping pong _ _ Hn Hs)) as (H1 & H2 & H3 & H4). done.
Qed.

(** The demonstration server takes a turn, in which order 8 fills and client 5
    hangs up, and is stopped. *)
Definition demo_worker : Worker := mkWorker demo [(mkFillEvent 8 5 (-100) 3, 1)] 0 0.
Definition demo_input : TurnInput :=
  mkInput (fun _ => (2, fun _ => 0)) 2 (fun _ => (true, 0, 0, [], [])) 2000000 (fun _ => SendAgain) 1 0
    (fun i => if i =? 0 then POLLHUP else POLLOUT) 2000001 (fun _ => ([], [])) (fun _ => SendBytes 10).

Example ws_turn_exact_witness :
  (fst <$> worker.turn demo_input demo_worker) = Some 1 /\
  exists t w', worker.turn demo_input demo_worker = Some (t, w') /\ w_events w' = [] /\ 2000000 < w_next_maintenance_ns w' + 1000000.
Proof.
  split; [by vm_compute|].
  destruct (ws_turn_exact 2 0 0 demo_worker _ demo_input ltac:(done) demo_serves) as (t & w' & Ht & _ & He & _ & _ & Hd & _).
  - split; [intros k; constructor|intros i; constructor|done].
  - by repeat constructor.
  - done.
  - exists t, w'. split; [exact Ht|]. split; [exact He|exact Hd].
Defined.

Example ws_stop_releases_witness :
  sv_closed (w_server (worker.stop demo_worker)) ≡ₚ [6; 5] /\ sv_reserved (w_server (worker.stop demo_worker)) = 0.
Proof.
  destruct (ws_stop_releases 2 0 0 demo_worker _ ltac:(done) demo_serves) as (H1 & _ & _ & _ & _ & H2). split; [exact H1|exact H2].
Defined.
