(* ===== verification/WsLease.v ===== *)
(** * The admission lease (luv_websocket.hpp, luv_websocket.cpp)

    One admission word guards each producer path of the server: a closed bit and
    the number of producers inside.  The threads interleave at every atomic
    access; [stop] goes on to tear the server down once it has closed the word
    and read a zero count. *)
From Stdlib Require Import ZArith Lia ZifyBool.
From S2P Require Import Prelude.

Definition kAdmissionClosedBit : Z := 2147483648.
Definition kAdmissionRefMask : Z := UINT32_MAX - kAdmissionClosedBit.

Definition close_admission (admission : Z) : Z := Z.lor admission kAdmissionClosedBit.
Definition open_admission : Z := 0.

(** The loop of [wait_for_admission_drain] ends. *)
Definition drained (admission : Z) : bool := Z.land admission kAdmissionRefMask =? 0.

(** [acquire_admission] gives up on the observed word. *)
Definition refuses (observed : Z) : bool :=
  negb (Z.land observed kAdmissionClosedBit =? 0) || (Z.land observed kAdmissionRefMask =? kAdmissionRefMask).

Definition acquired (observed : Z) : Z := u32 (observed + 1).
Definition release_admission (admission : Z) : Z := u32 (admission - 1).

(** A producer: outside, between its load and its compare-and-swap, or inside. *)
Inductive Producer := pOutside | pObserved (observed : Z) | pInside.

(** The controlling thread: the server is open, [stop] has closed the word, the
    count was seen drained and the server is down. *)
Inductive Stage := sOpen | sClosing | sDown.

Record Lease := mkLease { ls_word : Z; ls_producers : list Producer; ls_stage : Stage }.

Definition set_producer (k : nat) (p : Producer) (l : Lease) : Lease :=
  mkLease (ls_word l) (<[k := p]> (ls_producers l)) (ls_stage l).

Inductive lease_step : Lease -> Lease -> Prop :=
| p_load k l : ls_producers l !! k = Some pOutside -> lease_step l (set_producer k (pObserved (ls_word l)) l)
| p_refuse k o l : ls_producers l !! k = Some (pObserved o) -> refuses o = true -> lease_step l (set_producer k pOutside l)
| p_acquire k o l : ls_producers l !! k = Some (pObserved o) -> refuses o = false -> ls_word l = o ->
    lease_step l (mkLease (acquired o) (<[k := pInside]> (ls_producers l)) (ls_stage l))
| p_retry k o l : ls_producers l !! k = Some (pObserved o) -> refuses o = false ->
    lease_step l (set_producer k (pObserved (ls_word l)) l)
| p_release k l : ls_producers l !! k = Some pInside ->
    lease_step l (mkLease (release_admission (ls_word l)) (<[k := pOutside]> (ls_producers l)) (ls_stage l))
| s_close l : ls_stage l = sOpen -> lease_step l (mkLease (close_admission (ls_word l)) (ls_producers l) sClosing)
| s_busy l : ls_stage l = sClosing -> drained (ls_word l) = false -> lease_step l l
| s_drained l : ls_stage l = sClosing -> drained (ls_word l) = true -> lease_step l (mkLease (ls_word l) (ls_producers l) sDown)
| s_open l : ls_stage l = sDown -> lease_step l (mkLease open_admission (ls_producers l) sOpen).

(** Both words start closed, the server down. *)
Definition lease_init (producers : nat) : Lease := mkLease kAdmissionClosedBit (replicate producers pOutside) sDown.

Inductive lease_reach (producers : nat) : Lease -> Prop :=
| lr_init : lease_reach producers (lease_init producers)
| lr_step l l' : lease_reach producers l -> lease_step l l' -> lease_reach producers l'.

(** ** The invariant *)
Definition is_inside (p : Producer) : Prop := match p with pInside => True | _ => False end.
#[global] Instance is_inside_dec p : Decision (is_inside p).
Proof. destruct p; cbn; apply _. Defined.

Definition inside (l : Lease) : nat := length (filter is_inside (ls_producers l)).

Definition closed_bit (st : Stage) : Z := match st with sOpen => 0 | _ => kAdmissionClosedBit end.

Lemma land_bit b n : 0 <= b <= 1 -> 0 <= n < 2 ^ 31 -> Z.land (b * 2 ^ 31 + n) (2 ^ 31) = b * 2 ^ 31.
Proof.
  intros Hb Hn. apply Z.bits_inj'. intros i Hi. rewrite Z.land_spec, Z.pow2_bits_eqb by lia. destruct (Z.eqb_spec 31 i) as [<- | Hne].
  - rewrite andb_true_r, !Z.testbit_odd, !Z.shiftr_div_pow2 by lia. rewrite Z.div_add_l, Z.div_mul, Z.div_small by lia. f_equal. lia.
  - rewrite andb_false_r. assert (b = 0 \/ b = 1) as [-> | ->] by lia; [by rewrite Z.bits_0|]. rewrite Z.mul_1_l, Z.pow2_bits_eqb by lia. lia.
Qed.

(** What the word means: the bit of the stage and the count of those inside. *)
Lemma word_bits c n : (c = 0 \/ c = kAdmissionClosedBit) -> 0 <= n <= kAdmissionRefMask ->
  Z.land (c + n) kAdmissionClosedBit = c /\ Z.land (c + n) kAdmissionRefMask = n /\ (c = 0 -> close_admission (c + n) = kAdmissionClosedBit + n).
Proof.
  intros Hc Hn. change kAdmissionRefMask with (2 ^ 31 - 1) in *. change kAdmissionClosedBit with (2 ^ 31) in *.
  assert (exists b, 0 <= b <= 1 /\ c = b * 2 ^ 31) as (b & Hb & ->) by (destruct Hc as [-> | ->]; [by exists 0|by exists 1]).
  split; [apply land_bit; lia|]. split; [rewrite land_mask by lia; rewrite Z.add_comm, Z.mod_add by lia; apply Z.mod_small; lia|].
  intros ->. unfold close_admission. rewrite Z.lor_comm, Z.add_0_l. change kAdmissionClosedBit with (Z.shiftl 1 31).
  rewrite lor_shiftl_add by lia. lia.
Qed.

(** One producer enters or leaves. *)
Lemma inside_insert (l : list Producer) k p q : l !! k = Some p ->
  Z.of_nat (length (filter is_inside (<[k := q]> l))) =
  Z.of_nat (length (filter is_inside l)) - bit (bool_decide (is_inside p)) + bit (bool_decide (is_inside q)).
Proof.
  intros Hk. rewrite insert_take_drop by (by eapply lookup_lt_Some). rewrite <- (take_drop_middle l k p Hk) at 3.
  rewrite !filter_app, !filter_cons, !length_app. destruct (decide (is_inside p)) as [Hp|Hp], (decide (is_inside q)) as [Hq|Hq];
    rewrite ?(bool_decide_eq_true_2 _ Hp), ?(bool_decide_eq_false_2 _ Hp), ?(bool_decide_eq_true_2 _ Hq), ?(bool_decide_eq_false_2 _ Hq);
    cbn [length bit]; lia.
Qed.

Record lease_ok (l : Lease) : Prop := {
  lo_word : ls_word l = closed_bit (ls_stage l) + Z.of_nat (inside l);
  lo_few : Z.of_nat (length (ls_producers l)) < kAdmissionRefMask;
  lo_down : ls_stage l = sDown -> inside l = 0%nat
}.

Lemma inside_le l : (inside l <= length (ls_producers l))%nat.
Proof. apply length_filter. Qed.

(** The parts of the word, in a state of the invariant. *)
Lemma lease_word l : lease_ok l ->
  Z.land (ls_word l) kAdmissionClosedBit = closed_bit (ls_stage l) /\ Z.land (ls_word l) kAdmissionRefMask = Z.of_nat (inside l) /\
  in_u 32 (ls_word l) /\ in_u 32 (ls_word l + 1) /\ (inside l <> 0%nat -> in_u 32 (ls_word l - 1)).
Proof.
  intros [-> Hfew _]. pose proof (inside_le l). unfold kAdmissionRefMask, kAdmissionClosedBit in *. unfold in_u. change (2 ^ 32) with 4294967296.
  destruct (word_bits (closed_bit (ls_stage l)) (Z.of_nat (inside l))) as (H1 & H2 & _).
  { unfold closed_bit. destruct (ls_stage l); auto. } { unfold kAdmissionRefMask, kAdmissionClosedBit. lia. }
  split; [done|]. split; [done|]. unfold closed_bit, kAdmissionClosedBit. destruct (ls_stage l); lia.
Qed.

Lemma lease_step_ok l l' : lease_step l l' -> lease_ok l -> lease_ok l' /\ length (ls_producers l') = length (ls_producers l) /\
  (ls_stage l <> sOpen -> Z.of_nat (inside l') <= Z.of_nat (inside l)).
Proof.
  intros Hs Hok. pose proof (lease_word l Hok) as (Hc & Hm & Hu & Hu1 & Hum). pose proof Hok as [Hw Hfew Hdown]. unfold inside in *.
  assert (forall k p q w, ls_producers l !! k = Some p -> let n' := Z.of_nat (length (filter is_inside (<[k := q]> (ls_producers l)))) in
    w = closed_bit (ls_stage l) + n' -> (ls_stage l <> sOpen -> n' <= Z.of_nat (length (filter is_inside (ls_producers l)))) ->
    let l'' := mkLease w (<[k := q]> (ls_producers l)) (ls_stage l) in
    lease_ok l'' /\ length (ls_producers l'') = length (ls_producers l) /\
    (ls_stage l <> sOpen -> Z.of_nat (length (filter is_inside (ls_producers l''))) <= Z.of_nat (length (filter is_inside (ls_producers l))))) as Hupd.
  { intros k p q w Hk n' Heq Hle l''. split; [|split; [cbn; by rewrite length_insert|exact Hle]]. split; [done|cbn; by rewrite length_insert|].
    cbn. intros Hd. specialize (Hdown Hd). unfold inside. cbn. specialize (Hle ltac:(by rewrite Hd)). lia. }
  destruct Hs as [k l Hk|k o l Hk Hr|k o l Hk Hr Ho|k o l Hk Hr|k l Hk|l Hst|l Hst Hd|l Hst Hd|l Hst]; unfold set_producer.
  - apply (Hupd k _ _ _ Hk); rewrite (inside_insert _ k _ _ Hk); cbn; lia.
  - apply (Hupd k _ _ _ Hk); rewrite (inside_insert _ k _ _ Hk); cbn; lia.
  - subst o. apply (Hupd k _ _ _ Hk); rewrite (inside_insert _ k _ _ Hk); cbn; [unfold acquired; rewrite wrap_u_id by done; lia|].
    intros Hst. exfalso. unfold refuses in Hr. rewrite Hc in Hr. unfold closed_bit, kAdmissionClosedBit in Hr. by destruct (ls_stage l).
  - apply (Hupd k _ _ _ Hk); rewrite (inside_insert _ k _ _ Hk); cbn; lia.
  - assert (inside l <> 0%nat) as Hne.
    { unfold inside. intros E. pose proof (inside_insert _ k _ pOutside Hk) as Hi. cbn in Hi. lia. }
    apply (Hupd k _ _ _ Hk); rewrite (inside_insert _ k _ _ Hk); cbn; [unfold release_admission; rewrite wrap_u_id by (by apply Hum); lia|lia].
  - split; [|done]. split; cbn; [|done|done]. rewrite Hw, Hst. cbn [closed_bit].
    apply (word_bits 0 (Z.of_nat (inside l))); [by left|pose proof (inside_le l); unfold kAdmissionRefMask, kAdmissionClosedBit in *; lia|done].
  - done.
  - split; [|done]. split; cbn; [by rewrite Hw, Hst|done|]. intros _. unfold drained in Hd. rewrite Hm in Hd. unfold inside. cbn. lia.
  - split; [|done]. split; cbn; [|done|done]. specialize (Hdown Hst). unfold inside. cbn. rewrite Hdown. done.
Qed.

Lemma lease_reach_ok n l : Z.of_nat n < kAdmissionRefMask -> lease_reach n l -> lease_ok l.
Proof.
  intros Hn. induction 1 as [|l l' _ IH Hs]; [|by destruct (lease_step_ok l l' Hs IH)].
  assert (filter is_inside (replicate n pOutside) = []) as Hf by (clear; induction n as [|n IH]; [done|]; cbn [replicate]; rewrite filter_cons, decide_False by (by intros []); done).
  split; cbn; unfold inside; cbn; rewrite ?Hf; [done|by rewrite length_replicate|done].
Qed.

Lemma inside_none l k : inside l = 0%nat -> ls_producers l !! k <> Some pInside.
Proof. intros H Hk. pose proof (inside_insert _ k _ pOutside Hk) as Hi. unfold inside in H. cbn in Hi. lia. Qed.

(** C29: Teardown and producers exclude each other under every interleaving: when
    [stop] has closed the admission word and read a zero count, no producer is
    inside, and none gets in before the word is opened again, not even one that
    loaded the word before it was closed; while the word is closed the number
    inside never grows, and the drain loop ends exactly when it is zero. *)
Theorem ws_lease_exclusive (n : nat) (l : Lease) (Hn : Z.of_nat n < kAdmissionRefMask) (Hl : lease_reach n l) :
  (ls_stage l = sDown -> forall k, ls_producers l !! k <> Some pInside) /\
  (ls_stage l <> sOpen -> forall l', lease_step l l' -> (inside l' <= inside l)%nat) /\
  (drained (ls_word l) = true <-> inside l = 0%nat) /\
  (ls_stage l = sClosing -> forall k, ls_producers l !! k = Some pInside -> exists l', lease_step l l' /\ inside l = S (inside l')).
Proof.
  pose proof (lease_reach_ok n l Hn Hl) as Hok. pose proof (lease_word l Hok) as (_ & Hm & _).
  split; [intros Hd k; by apply inside_none, (lo_down _ Hok)|]. split.
  - intros Hst l' Hs. destruct (lease_step_ok l l' Hs Hok) as (_ & _ & Hle). specialize (Hle Hst). lia.
  - split; [unfold drained; rewrite Hm; lia|]. intros _ k Hk. eexists. split; [by apply p_release|].
    pose proof (inside_insert _ k _ pOutside Hk) as Hi. unfold inside. cbn in Hi |- *. lia.
Qed.

(** Two producers: one is inside and one has loaded the open word when [stop]
    closes it; the second retries and is refused. *)
Example ws_lease_exclusive_witness :
  exists l, lease_reach 2 l /\ ls_stage l = sDown /\ ls_producers l = [pOutside; pOutside] /\ forall k, ls_producers l !! k <> Some pInside.
Proof.
  set (l0 := mkLease 0 [pOutside; pOutside] sOpen). set (l1 := set_producer 0 (pObserved 0) l0). set (l2 := set_producer 1 (pObserved 0) l1).
  set (l3 := mkLease 1 [pInside; pObserved 0] sOpen). set (l4 := mkLease (2147483648 + 1) [pInside; pObserved 0] sClosing).
  set (l5 := mkLease (2147483648 + 1) [pInside; pObserved (2147483648 + 1)] sClosing). set (l6 := mkLease (2147483648 + 1) [pInside; pOutside] sClosing).
  set (l7 := mkLease 2147483648 [pOutside; pOutside] sClosing). set (l8 := mkLease 2147483648 [pOutside; pOutside] sDown).
  assert (lease_reach 2 l8) as H8.
  { apply (lr_step _ l7); [|by apply (s_drained l7)]. apply (lr_step _ l6); [|by apply (p_release 0 l6)]. apply (lr_step _ l5); [|by apply (p_refuse 1 (2147483648 + 1) l5)].
    apply (lr_step _ l4); [|by apply (p_retry 1 0 l4)]. apply (lr_step _ l3); [|by apply (s_close l3)]. apply (lr_step _ l2); [|by apply (p_acquire 0 0 l2)].
    apply (lr_step _ l1); [|by apply (p_load 1 l1)]. apply (lr_step _ l0); [|by apply (p_load 0 l0)]. apply (lr_step _ (lease_init 2)); [constructor|by apply (s_open (lease_init 2))]. }
  exists l8. split; [exact H8|]. split; [done|]. split; [done|]. apply (proj1 (ws_lease_exclusive 2 l8 ltac:(done) H8)). done.
Defined.
