(* ===== verification/MoldUdp.v ===== *)
(** * MoldUDP64 (luv_moldudp64.hpp)

    The downstream packet: a 20-byte header and [message_count] messages, each
    behind its two-byte length; and the request packet for a retransmission.  A
    pointer is an [option]; [None] as the result of a function is a read or a
    write outside the buffer.  A message that [next] hands out is the range of
    the packet it points to. *)
From Stdlib Require Import ZArith Lia ZifyBool.
From S2P Require Import Prelude Bytes Decode WsFrame SimGen SimReplay.

Module mold.

Definition kHeaderSize : Z := 20.

Record Header := mkHeader {
  sequence : Z;                    (* uint64_t *)
  message_count : Z;               (* uint16_t *)
}.

Definition read_be16 (data : list Z) (off : Z) : option Z :=
  hi ← rd data off; lo ← rd data (off + 1); Some (u16 (Z.lor (Z.shiftl hi 8) lo)).

(** The loop of [read_be64]. *)
Fixpoint read_be (n : nat) (data : list Z) (off value : Z) : option Z :=
  match n with
  | O => Some value
  | S n => b ← rd data off; read_be n data (off + 1) (Z.lor (u64 (Z.shiftl value 8)) b)
  end.

Definition read_be64 (data : list Z) (off : Z) : option Z := read_be 8 data off 0.

(** [None] in the result is [false]; [header] is then left as it was. *)
Definition parse_header (data : option (list Z)) (size : Z) : option (option Header) :=
  match data with
  | None => Some None
  | Some d =>
      if size <? kHeaderSize then Some None
      else sequence ← read_be64 d 10; message_count ← read_be16 d 18; Some (Some (mkHeader sequence message_count))
  end.

(** The loop of [validate_message_block] from an offset: the offset behind the
    last message, or [None] for [return false]. *)
Fixpoint block_loop (n : nat) (d : list Z) (size offset : Z) : option (option Z) :=
  match n with
  | O => Some (Some offset)
  | S n =>
      if u64 (size - offset) <? 2 then Some None
      else
        length ← read_be16 d offset;
        let offset := u64 (offset + 2) in
        if (length =? 0) || (u64 (size - offset) <? length) then Some None
        else block_loop n d size (u64 (offset + length))
  end.

Definition validate_message_block (data : option (list Z)) (size message_count : Z) : option bool :=
  match data with
  | None => Some false
  | Some d =>
      if size <? kHeaderSize then Some false
      else r ← block_loop (Z.to_nat message_count) d size kHeaderSize; Some (match r with Some offset => offset =? size | None => false end)
  end.

Record MessageIterator := mkIterator {
  mi_data : option (list Z);
  mi_size : Z;                     (* size_t *)
  mi_offset : Z;                   (* size_t *)
  mi_invalid : bool;
}.

(** [MessageIterator(data, size)] *)
Definition iterator (data : option (list Z)) (size : Z) : MessageIterator := mkIterator data size kHeaderSize false.

(** The message with its length, or [None] for [false]. *)
Definition next (it : MessageIterator) : option (option (list Z * Z) * MessageIterator) :=
  match mi_data it with
  | None => Some (None, it)
  | Some d =>
      let size := mi_size it in
      let invalid := fun offset => mkIterator (Some d) size offset true in
      if mi_invalid it || (mi_offset it =? size) then Some (None, it)
      else if (size <? mi_offset it) || (u64 (size - mi_offset it) <? 2) then Some (None, invalid (mi_offset it))
      else
        length ← read_be16 d (mi_offset it);
        let offset := u64 (mi_offset it + 2) in
        if (length =? 0) || (u64 (size - offset) <? length) then Some (None, invalid offset)
        else
          message ← slice d offset length;
          Some (Some (message, length), mkIterator (Some d) size (u64 (offset + length)) false)
  end.

Definition valid (it : MessageIterator) : bool := negb (mi_invalid it).

(** [while (messages.next(message, length))] with a body that keeps the message. *)
Fixpoint messages (fuel : nat) (it : MessageIterator) : option (list (list Z * Z) * MessageIterator) :=
  match fuel with
  | O => None
  | S fuel =>
      '(m, it) ← next it;
      match m with
      | None => Some ([], it)
      | Some m => '(ms, it) ← messages fuel it; Some (m :: ms, it)
      end
  end.

Record RequestPacket := mkRequestPacket {
  rp_session : list Z;             (* char[10] *)
  rp_sequence : Z;                 (* uint64_t *)
  rp_requested_count : Z;          (* uint16_t *)
}.

Definition request_packet_init : RequestPacket := mkRequestPacket (replicate 10 0) 0 0.

Definition format_request (req : RequestPacket) (buffer : option (list Z)) (size : Z) : option (bool * option (list Z)) :=
  match buffer with
  | None => Some (false, None)
  | Some buf =>
      if size <? 20 then Some (false, Some buf)
      else
        buf ← memcpy buf 0 (rp_session req);
        buf ← memcpy buf 10 ((fun i => Z.land (Z.shiftr (rp_sequence req) ((7 - i) * 8)) 0xFF) <$> zrange 0 8);
        buf ← memcpy buf 18 [Z.land (Z.shiftr (rp_requested_count req) 8) 0xFF; Z.land (rp_requested_count req) 0xFF];
        Some (true, Some buf)
  end.

Definition parse_request (data : option (list Z)) (size : Z) : option (option RequestPacket) :=
  match data with
  | None => Some None
  | Some d =>
      if size <? 20 then Some None
      else
        session ← slice d 0 10;
        sequence ← read_be64 d 10;
        requested_count ← read_be16 d 18;
        Some (Some (mkRequestPacket session sequence requested_count))
  end.

End mold.

(** ** Numbers *)
Lemma be_value_two a b : be_value [a; b] = a * 256 + b.
Proof. unfold be_value. cbn. lia. Qed.

Lemma read_be16_at pre a b post : in_u 8 a -> in_u 8 b -> mold.read_be16 (pre ++ a :: b :: post) (Z.of_nat (length pre)) = Some (be_value [a; b]).
Proof.
  intros Ha Hb. unfold mold.read_be16, in_u in *. rewrite (rd_app pre _ _ (Z.of_nat (length pre))) by done. cbn [mbind option_bind].
  change (pre ++ a :: b :: post) with (pre ++ [a] ++ b :: post). rewrite app_assoc, rd_app by (rewrite length_app; simpl; lia). cbn [mbind option_bind].
  rewrite lor_shiftl_add, be_value_two by lia. f_equal. apply wrap_u_id. unfold in_u. lia.
Qed.

Lemma read_be_at n : forall pre l post v, length l = n -> bytes_ok l -> 0 <= v -> v * 256 ^ Z.of_nat n + be_value l < 2 ^ 64 ->
  mold.read_be n (pre ++ l ++ post) (Z.of_nat (length pre)) v = Some (v * 256 ^ Z.of_nat n + be_value l).
Proof.
  induction n as [|n IH]; intros pre l post v Hl Hb Hv Hr; destruct l as [|x l]; try done; cbn [mold.read_be].
  { f_equal. unfold be_value. cbn. lia. }
  injection Hl as Hl. apply Forall_cons in Hb as [Hx Hb]. rewrite be_value_cons, Hl in *. cbn [app]. rewrite (rd_app pre _ _ (Z.of_nat (length pre))) by done. cbn [mbind option_bind].
  pose proof (be_value_range l Hb) as Hlr. rewrite Hl in Hlr. unfold in_u in Hx. rewrite Nat2Z.inj_succ, Z.pow_succ_r in * by lia.
  pose proof (Z.pow_pos_nonneg 256 (Z.of_nat n)). assert (Hs : v * 256 + x < 2 ^ 64) by nia.
  rewrite (wrap_u_id 64) by (unfold in_u; rewrite Z.shiftl_mul_pow2 by lia; lia). rewrite lor_shiftl_add by lia.
  change (pre ++ x :: l ++ post) with (pre ++ [x] ++ l ++ post). rewrite app_assoc.
  replace (Z.of_nat (length pre) + 1) with (Z.of_nat (length (pre ++ [x]))) by (rewrite length_app; simpl; lia).
  rewrite IH by (try done; change (2 ^ 8) with 256; nia). f_equal. change (2 ^ 8) with 256. nia.
Qed.

Lemma read_be64_at pre l post : length l = 8%nat -> bytes_ok l -> mold.read_be64 (pre ++ l ++ post) (Z.of_nat (length pre)) = Some (be_value l).
Proof.
  intros Hl Hb. pose proof (be_value_range l Hb) as Hr. rewrite Hl in Hr. unfold mold.read_be64. rewrite read_be_at; [f_equal; lia|done|done|lia|].
  change (256 ^ Z.of_nat 8) with (2 ^ 64) in *. lia.
Qed.

(** ** Frames *)
Lemma two_bytes a b : in_u 8 a -> in_u 8 b -> in_u 16 (be_value [a; b]) /\ put_u16_be (be_value [a; b]) = [a; b].
Proof.
  intros Ha Hb. assert (Hn : in_u 16 (be_value [a; b])) by (rewrite be_value_two; unfold in_u in *; lia). split; [done|].
  apply be_value_inj; [exact (proj1 byte_lists _)|by constructor; [|constructor]|reflexivity|by apply put_u16_value].
Qed.

Lemma frame_inj m m' x y : framable m -> framable m' -> frame m ++ x = frame m' ++ y -> m = m' /\ x = y.
Proof.
  intros [_ Hm] [_ Hm'] E. unfold frame in E. rewrite <- !app_assoc in E. apply app_inj_1 in E as [En E]; [|done].
  apply (f_equal be_value) in En. rewrite !put_u16_value in En by (unfold in_u; lia). apply app_inj_1 in E as [-> ->]; [done|lia].
Qed.

Lemma frames_inj l : forall l', Forall framable l -> Forall framable l' -> frames l = frames l' -> l = l'.
Proof.
  assert (Hne : forall m ms, frames (m :: ms) <> []) by (intros m ms E; apply (f_equal length) in E; cbn in E; done).
  induction l as [|m l IH]; intros [|m' l'] Hl Hl' E; [done|by destruct (Hne m' l')|by destruct (Hne m l)|].
  apply Forall_cons in Hl as [Hm Hl], Hl' as [Hm' Hl']. destruct (frame_inj m m' (frames l) (frames l') Hm Hm' E) as [-> E']. by rewrite (IH l').
Qed.

Lemma frames_count l : (length l <= length (frames l))%nat.
Proof.
  induction l as [|m l IH]; [done|]. change (frames (m :: l)) with (frame m ++ frames l). pose proof (frame_length m). rewrite length_app. cbn [length]. lia.
Qed.

Lemma frame_bytes m : framable m -> bytes_ok (frame m).
Proof. intros [Hb _]. apply Forall_app. split; [exact (proj1 byte_lists _)|done]. Qed.

(** What cannot begin a message. *)
Definition stuck (l : list Z) : Prop := l <> [] /\
  ((length l < 2)%nat \/ exists a b post, l = a :: b :: post /\ (be_value [a; b] = 0 \/ Z.of_nat (length post) < be_value [a; b])).

Lemma frame_view l : bytes_ok l -> l = [] \/ (exists m post, framable m /\ l = frame m ++ post) \/ stuck l.
Proof.
  intros Hl. destruct l as [|a [|b post]]; [by left|right; right; split; [done|left; simpl; lia]|]. right.
  apply Forall_cons in Hl as [Ha Hl]. apply Forall_cons in Hl as [Hb Hp]. destruct (two_bytes a b Ha Hb) as [Hn Hput]. set (n := be_value [a; b]) in *.
  destruct (decide (n = 0 \/ Z.of_nat (length post) < n)) as [Hd|Hd]; [right; split; [done|right; by exists a, b, post]|]. left. unfold in_u in Hn.
  assert (Hlen : Z.of_nat (length (take (Z.to_nat n) post)) = n) by (rewrite length_take; lia).
  exists (take (Z.to_nat n) post), (drop (Z.to_nat n) post). split; [split; [by apply Forall_take|lia]|]. unfold frame. by rewrite Hlen, Hput, <- app_assoc, take_drop.
Qed.

Lemma stuck_no_frame l m post : stuck l -> framable m -> l <> frame m ++ post.
Proof.
  intros [_ Hs] [_ Hm] ->. unfold frame in Hs. destruct Hs as [Hs|(a & b & p & E & Hs)]; [rewrite !length_app in Hs; simpl in Hs; lia|].
  rewrite <- app_assoc in E. assert (Ep : [a; b] = put_u16_be (Z.of_nat (length m)) /\ p = m ++ post) by (unfold put_u16_be in *; by injection E as -> -> ->).
  destruct Ep as [Ep ->]. rewrite Ep, put_u16_value, length_app in Hs by (unfold in_u; lia). lia.
Qed.

(** ** Walking a packet *)
Section walk.
Context (d : list Z) (Hd : bytes_ok d) (Hsmall : Z.of_nat (length d) < 2 ^ 63).

Abbreviation size := (Z.of_nat (length d)).
Abbreviation at_offset pre := (mold.mkIterator (Some d) size (Z.of_nat (length pre)) false).

Lemma length_field pre a b post : d = pre ++ a :: b :: post -> mold.read_be16 d (Z.of_nat (length pre)) = Some (be_value [a; b]).
Proof. intros ->. apply Forall_app in Hd as [_ [Ha [Hb _]%Forall_cons]%Forall_cons]. by apply read_be16_at. Qed.

(** Both walkers at a complete message, and at bytes that are none. *)
Lemma room_frame pre m post : framable m -> d = pre ++ frame m ++ post ->
  mold.read_be16 d (Z.of_nat (length pre)) = Some (Z.of_nat (length m)) /\ (u64 (size - Z.of_nat (length pre)) <? 2) = false /\
  u64 (Z.of_nat (length pre) + 2) = Z.of_nat (length pre) + 2 /\ u64 (Z.of_nat (length pre) + 2 + Z.of_nat (length m)) = Z.of_nat (length (pre ++ frame m)) /\
  (Z.of_nat (length m) =? 0) || (u64 (size - (Z.of_nat (length pre) + 2)) <? Z.of_nat (length m)) = false /\
  slice d (Z.of_nat (length pre) + 2) (Z.of_nat (length m)) = Some m.
Proof.
  intros Hm E. pose proof (frame_length m) as Hf. assert (Hs : size = Z.of_nat (length pre) + (Z.of_nat (length m) + 2) + Z.of_nat (length post)) by (rewrite E, !length_app; lia).
  pose proof Hm as [_ Hl]. split_and!.
  - unfold frame in E. rewrite (length_field pre (u8 (Z.shiftr (Z.of_nat (length m)) 8)) (u8 (Z.of_nat (length m))) (m ++ post)) by by rewrite E, <- app_assoc.
    f_equal. apply put_u16_value. unfold in_u. lia.
  - rewrite wrap_u_id by (unfold in_u; lia). lia.
  - apply wrap_u_id. unfold in_u. lia.
  - rewrite wrap_u_id, length_app by (unfold in_u; lia). lia.
  - rewrite wrap_u_id by (unfold in_u; lia). lia.
  - rewrite E. unfold frame. rewrite <- app_assoc, app_assoc. apply slice_app; [rewrite length_app; simpl; lia|done].
Qed.

Lemma room_stuck pre l : stuck l -> d = pre ++ l ->
  (u64 (size - Z.of_nat (length pre)) <? 2) = true \/
  ((u64 (size - Z.of_nat (length pre)) <? 2) = false /\ u64 (Z.of_nat (length pre) + 2) = Z.of_nat (length pre) + 2 /\
   exists n, mold.read_be16 d (Z.of_nat (length pre)) = Some n /\ (n =? 0) || (u64 (size - (Z.of_nat (length pre) + 2)) <? n) = true).
Proof.
  intros [Hne Hs] E. assert (Hl : size = Z.of_nat (length pre) + Z.of_nat (length l)) by (rewrite E, length_app; lia).
  rewrite wrap_u_id by (unfold in_u; lia). destruct Hs as [Hs|(a & b & post & -> & Hs)]; [left; lia|right]. cbn [length] in Hl. split; [lia|].
  rewrite !wrap_u_id by (unfold in_u; lia). split; [done|]. exists (be_value [a; b]). split; [by apply (length_field pre a b post)|lia].
Qed.

Lemma next_frame pre m post : framable m -> d = pre ++ frame m ++ post ->
  mold.next (at_offset pre) = Some (Some (m, Z.of_nat (length m)), at_offset (pre ++ frame m)).
Proof.
  intros Hm E. destruct (room_frame pre m post Hm E) as (Hn & Hr & H2 & Ho & Hok & Hsl). pose proof (frame_length m).
  assert (Hs : size = Z.of_nat (length pre) + Z.of_nat (length (frame m)) + Z.of_nat (length post)) by (rewrite E, !length_app; lia).
  unfold mold.next. cbn [mold.mi_data mold.mi_size mold.mi_offset mold.mi_invalid orb]. destruct (Z.eqb_spec (Z.of_nat (length pre)) size); [lia|].
  destruct (Z.ltb_spec size (Z.of_nat (length pre))); [lia|]. cbn [orb]. rewrite Hr, Hn. cbn [mbind option_bind]. rewrite H2, Hok, Hsl. cbn [mbind option_bind]. by rewrite Ho.
Qed.

Lemma next_end : mold.next (at_offset d) = Some (None, at_offset d).
Proof. unfold mold.next. cbn [mold.mi_data mold.mi_size mold.mi_offset mold.mi_invalid orb]. by rewrite Z.eqb_refl. Qed.

Lemma next_stuck pre l : stuck l -> d = pre ++ l -> exists offset, mold.next (at_offset pre) = Some (None, mold.mkIterator (Some d) size offset true).
Proof.
  intros Hs E. assert (Hl : size = Z.of_nat (length pre) + Z.of_nat (length l)) by (rewrite E, length_app; lia). pose proof Hs as [Hne _].
  unfold mold.next. cbn [mold.mi_data mold.mi_size mold.mi_offset mold.mi_invalid orb]. destruct (Z.eqb_spec (Z.of_nat (length pre)) size); [destruct l; simpl in *; [done|lia]|].
  destruct (Z.ltb_spec size (Z.of_nat (length pre))); [lia|]. cbn [orb].
  destruct (room_stuck pre l Hs E) as [->|(-> & H2 & k & -> & Hbad)]; [by eexists|]. cbn [mbind option_bind]. rewrite H2, Hbad. by eexists.
Qed.

(** The iterator from any offset: the complete messages that follow. *)
Lemma messages_from fuel : forall pre l, (length l < fuel)%nat -> d = pre ++ l -> exists msgs rest it,
  l = frames msgs ++ rest /\ Forall framable msgs /\ (rest = [] \/ stuck rest) /\
  mold.messages fuel (at_offset pre) = Some ((fun m => (m, Z.of_nat (length m))) <$> msgs, it) /\ mold.valid it = bool_decide (rest = []).
Proof.
  induction fuel as [|fuel IH]; intros pre l Hf E; [lia|]. cbn [mold.messages].
  assert (Hl : bytes_ok l) by (rewrite E in Hd; by apply Forall_app in Hd as [_ ?]). destruct (frame_view l Hl) as [->|[(m & post & Hm & ->)|Hs]].
  - rewrite app_nil_r in E. exists [], [], (at_offset d). rewrite <- E, next_end. split_and!; [done|constructor|by left|done|done].
  - rewrite (next_frame pre m post Hm E). cbn [mbind option_bind]. rewrite app_assoc in E. pose proof (frame_length m). rewrite length_app in Hf.
    destruct (IH (pre ++ frame m) post ltac:(lia) E) as (msgs & rest & it & -> & Hms & Hrest & -> & Hv). cbn [mbind option_bind].
    exists (m :: msgs), rest, it. split_and!; [unfold frames; cbn; by rewrite <- app_assoc|by constructor|done|done|done].
  - destruct (next_stuck pre l Hs E) as (offset & ->). cbn [mbind option_bind]. exists [], l, (mold.mkIterator (Some d) size offset true).
    split_and!; [done|constructor|by right|done|]. symmetry. apply bool_decide_eq_false_2, Hs.
Qed.

(** [validate_message_block] from any offset. *)
Lemma block_from n : forall pre l, d = pre ++ l -> exists r, mold.block_loop n d size (Z.of_nat (length pre)) = Some r /\
  forall offset, r = Some offset <-> exists msgs post, Forall framable msgs /\ length msgs = n /\ l = frames msgs ++ post /\ offset = Z.of_nat (length (pre ++ frames msgs)).
Proof.
  induction n as [|n IH]; intros pre l E; cbn [mold.block_loop].
  { eexists. split; [done|]. intros offset. split; [intros [= <-]; exists [], l; by rewrite app_nil_r|]. intros (msgs & post & _ & Hn & _ & ->).
    apply nil_length_inv in Hn as ->. by rewrite app_nil_r. }
  assert (Hl : bytes_ok l) by (rewrite E in Hd; by apply Forall_app in Hd as [_ ?]).
  assert (Hno : (forall m post, framable m -> l <> frame m ++ post) -> forall offset, None = Some offset <->
            exists msgs post, Forall framable msgs /\ length msgs = S n /\ l = frames msgs ++ post /\ offset = Z.of_nat (length (pre ++ frames msgs))).
  { intros Hnf offset. split; [done|]. intros (msgs & post & Hms & Hlen & Hfr & _). destruct msgs as [|m msgs]; [done|]. apply Forall_cons in Hms as [Hm _].
    unfold frames in Hfr. cbn in Hfr. rewrite <- app_assoc in Hfr. by destruct (Hnf m _ Hm Hfr). }
  destruct (frame_view l Hl) as [->|[(m & post & Hm & ->)|Hs]].
  - rewrite app_nil_r in E. replace (Z.of_nat (length pre)) with size by by rewrite E. rewrite Z.sub_diag. eexists. split; [done|]. apply Hno. intros m post _ E0.
    apply (f_equal length) in E0. pose proof (frame_length m). rewrite length_app in E0. simpl in E0. lia.
  - destruct (room_frame pre m post Hm E) as (Hn & -> & H2 & Ho & Hok & _). rewrite Hn. cbn [mbind option_bind]. rewrite H2, Hok, Ho. rewrite app_assoc in E.
    destruct (IH (pre ++ frame m) post E) as (r & -> & Hr). eexists. split; [done|]. intros offset. rewrite Hr. split.
    + intros (msgs & post' & Hms & Hlen & -> & ->). exists (m :: msgs), post'. unfold frames. cbn. rewrite <- !app_assoc. split_and!; [by constructor|by rewrite Hlen|done|done].
    + intros (msgs & post' & Hms & Hlen & Hfr & ->). destruct msgs as [|m' msgs]; [done|]. apply Forall_cons in Hms as [Hm' Hms]. unfold frames in *. cbn in Hfr, Hlen |- *.
      rewrite <- app_assoc in Hfr. destruct (frame_inj _ _ _ _ Hm Hm' Hfr) as [<- ->]. exists msgs, post'. rewrite <- !app_assoc. split_and!; [done|lia|done|done].
  - destruct (room_stuck pre l Hs E) as [->|(-> & H2 & k & -> & Hbad)]; [|cbn [mbind option_bind]; rewrite H2, Hbad]; (eexists; split; [done|]); apply Hno; intros m post Hm; by apply stuck_no_frame.
Qed.

End walk.

(** ** The retransmission request *)
Record request_ok (req : mold.RequestPacket) : Prop := {
  ro_session : length (mold.rp_session req) = 10%nat /\ bytes_ok (mold.rp_session req);
  ro_sequence : in_u 64 (mold.rp_sequence req);
  ro_count : in_u 16 (mold.rp_requested_count req);
}.

Lemma shifted_bytes_be v : (fun i => Z.land (Z.shiftr v ((7 - i) * 8)) 0xFF) <$> zrange 0 8 = put_u64_be v.
Proof.
  change (zrange 0 8) with [0; 1; 2; 3; 4; 5; 6; 7]. unfold put_u64_be, wrap_u. cbn [fmap list_fmap]. change 0xFF with (Z.ones 8).
  rewrite !Z.land_ones by lia. cbn [Z.sub Z.mul Z.opp Z.add Z.pos_sub Pos.pred_double Pos.mul]. by rewrite Z.shiftr_0_r.
Qed.

Lemma memcpy_mid pre old post bs : length bs = length old ->
  memcpy (pre ++ old ++ post) (Z.of_nat (length pre)) bs = Some (pre ++ bs ++ post).
Proof.
  intros Hl. rewrite memcpy_spec by (rewrite !length_app; lia). rewrite take_app_length, Hl, <- length_app. by rewrite (app_assoc pre old post), drop_app_length.
Qed.

(** A packet: its header and its messages, nothing else. *)
Definition packs (d head : list Z) (msgs : list (list Z)) : Prop := length head = 20%nat /\ Forall framable msgs /\ d = head ++ frames msgs.

Lemma validate_exact d count : bytes_ok d -> Z.of_nat (length d) < 2 ^ 63 -> 0 <= count ->
  exists b, mold.validate_message_block (Some d) (Z.of_nat (length d)) count = Some b /\
    (b = true <-> exists head msgs, packs d head msgs /\ Z.of_nat (length msgs) = count).
Proof.
  intros Hd Hs Hc. unfold mold.validate_message_block, mold.kHeaderSize. destruct (Z.ltb_spec (Z.of_nat (length d)) 20).
  { eexists. split; [done|]. split; [done|]. intros (head & msgs & (Hh & _ & ->) & _). rewrite length_app in *. lia. }
  assert (E : d = take 20 d ++ drop 20 d) by by rewrite take_drop. assert (Hh : length (take 20 d) = 20%nat) by (rewrite length_take; lia).
  destruct (block_from d Hd Hs (Z.to_nat count) _ _ E) as (r & Hr & Hoff). rewrite Hh in Hr. change (Z.of_nat 20) with 20 in Hr. rewrite Hr. cbn [mbind option_bind]. eexists. split; [done|].
  split.
  - destruct r as [offset|]; [|done]. intros ->%Z.eqb_eq. destruct (proj1 (Hoff _) eq_refl) as (msgs & post & Hms & Hlen & Ef & Ho).
    assert (Hpost : post = []). { apply nil_length_inv. apply (f_equal length) in E. rewrite Ef, !length_app in E. rewrite length_app in Ho. lia. } subst post. rewrite app_nil_r in Ef.
    exists (take 20 d), msgs. split; [split; [done|split; [done|by rewrite <- Ef]]|lia].
  - intros (head & msgs & (Hhd & Hms & Ed) & Hlen). assert (Et : take 20 d = head /\ drop 20 d = frames msgs).
    { rewrite Ed, <- Hhd. by rewrite take_app_length, drop_app_length. } destruct Et as [Et Ef]. rewrite (proj2 (Hoff (Z.of_nat (length d)))); [lia|].
    exists msgs, []. rewrite app_nil_r, Ef, Et, <- Ed. split_and!; [done|lia|done|done].
Qed.

(** C21: both readers of a MoldUDP64 packet are exact.  For every buffer of bytes
    [validate_message_block] returns, reads nothing outside it, and is true if
    and only if the buffer is a header followed by exactly that many messages,
    each non-empty and behind its length, and no other byte.  The iterator over
    any buffer that has room for a header terminates and hands out exactly the
    complete messages that follow the header, up to the first bytes that are
    none; it is valid at the end if and only if there are no such bytes.  In
    particular it hands out all the messages of a validated packet. *)
Theorem mold_packet_exact (d : list Z) (Hd : bytes_ok d) (Hlen : 20 <= Z.of_nat (length d) < 2 ^ 63) :
  (forall count, in_u 16 count -> exists b, mold.validate_message_block (Some d) (Z.of_nat (length d)) count = Some b /\
     (b = true <-> exists head msgs, packs d head msgs /\ Z.of_nat (length msgs) = count)) /\
  exists head msgs rest it, d = head ++ frames msgs ++ rest /\ length head = 20%nat /\ Forall framable msgs /\
    (forall m post, framable m -> rest <> frame m ++ post) /\
    mold.messages (S (length d)) (mold.iterator (Some d) (Z.of_nat (length d))) = Some ((fun m => (m, Z.of_nat (length m))) <$> msgs, it) /\
    mold.valid it = bool_decide (rest = []).
Proof.
  split; [intros count Hc; apply validate_exact; [done|lia|unfold in_u in Hc; lia]|].
  assert (E : d = take 20 d ++ drop 20 d) by by rewrite take_drop. assert (Hh : length (take 20 d) = 20%nat) by (rewrite length_take; lia).
  destruct (messages_from d Hd ltac:(lia) (S (length d)) (take 20 d) (drop 20 d)) as (msgs & rest & it & Hl & Hms & Hrest & Hrun & Hv); [rewrite length_drop; lia|done|].
  rewrite Hh in Hrun. exists (take 20 d), msgs, rest, it. rewrite <- Hl. split_and!; [done|done|done| |exact Hrun|exact Hv].
  intros m post Hm. destruct Hrest as [->|Hst]; [|by apply stuck_no_frame]. intros E0. apply (f_equal length) in E0. pose proof (frame_length m). rewrite length_app in E0. simpl in E0. lia.
Qed.

Lemma mold_packet_exact_witness : exists head msgs rest it, replicate 18 0 ++ [0; 2] ++ frames [[1; 2]; [3]] = head ++ frames msgs ++ rest /\
  Forall framable msgs /\ length head = 20%nat /\
  mold.messages 28 (mold.iterator (Some (replicate 18 0 ++ [0; 2] ++ frames [[1; 2]; [3]])) 27) = Some ((fun m => (m, Z.of_nat (length m))) <$> msgs, it) /\
  ((fun m => (m, Z.of_nat (length m))) <$> msgs) = [([1; 2], 2); ([3], 1)].
Proof.
  destruct (mold_packet_exact (replicate 18 0 ++ [0; 2] ++ frames [[1; 2]; [3]])) as (_ & head & msgs & rest & it & E & Hh & Hms & _ & Hrun & _).
  - apply (bool_decide_unpack _). vm_compute. exact I.
  - vm_compute. split; [discriminate|reflexivity].
  - exists head, msgs, rest, it. split; [exact E|]. split; [exact Hms|]. split; [exact Hh|]. split; [exact Hrun|].
    assert (Ec : fst <$> mold.messages 28 (mold.iterator (Some (replicate 18 0 ++ [0; 2] ++ frames [[1; 2]; [3]])) 27) = Some [([1; 2], 2); ([3], 1)]) by (vm_compute; reflexivity).
    change (mold.messages 28 (mold.iterator (Some (replicate 18 0 ++ [0; 2] ++ frames [[1; 2]; [3]])) 27) = Some ((fun m => (m, Z.of_nat (length m))) <$> msgs, it)) in Hrun.
    rewrite Hrun in Ec. injection Ec as Ec. exact Ec.
Defined.

(** a formatted request is read back.  A request with a ten-byte session is
    written into the first twenty bytes of any buffer that has them, the rest of
    the buffer stays, and [parse_request] of the result gives the request; a
    buffer with less room is refused and left alone. *)
Theorem mold_request_roundtrip (req : mold.RequestPacket) (buf : list Z) (Hreq : request_ok req) (size := Z.of_nat (length buf)) :
  (size < 20 -> mold.format_request req (Some buf) size = Some (false, Some buf) /\ mold.parse_request (Some buf) size = Some None) /\
  (20 <= size -> exists packet, length packet = 20%nat /\ mold.format_request req (Some buf) size = Some (true, Some (packet ++ drop 20 buf)) /\
     mold.parse_request (Some (packet ++ drop 20 buf)) size = Some (Some req)).
Proof.
  destruct Hreq as [[Hs Hb] Hq Hc]. subst size. set (size := Z.of_nat (length buf)). assert (Hsize : size = Z.of_nat (length buf)) by done. clearbody size. unfold mold.format_request, mold.parse_request. split; intros Hz; destruct (Z.ltb_spec size 20); try lia; [done|].
  rewrite shifted_bytes_be. set (count := [_; _]). assert (Ecount : count = put_u16_be (mold.rp_requested_count req)).
  { unfold count, put_u16_be, wrap_u. change 0xFF with (Z.ones 8). by rewrite !Z.land_ones by lia. }
  clearbody count. subst count. set (sess := mold.rp_session req) in *. set (sq := put_u64_be _). set (ct := put_u16_be _).
  assert (E : buf = [] ++ take 10 buf ++ take 8 (drop 10 buf) ++ take 2 (drop 18 buf) ++ drop 20 buf).
  { pose proof (take_drop 10 buf) as E1. pose proof (take_drop 8 (drop 10 buf)) as E2. pose proof (take_drop 2 (drop 18 buf)) as E3.
    rewrite drop_drop in E2, E3. cbn [Nat.add app] in *. by rewrite E3, E2, E1. }
  assert (Hsq : length sq = 8%nat) by reflexivity. assert (Hct : length ct = 2%nat) by reflexivity.
  assert (Es : Z.of_nat (length (sess ++ sq)) = 18) by (rewrite length_app; simpl; lia).
  exists (sess ++ sq ++ ct). split; [rewrite !length_app; simpl; lia|]. rewrite <- !app_assoc. split.
  { rewrite E at 1. rewrite (memcpy_mid [] (take 10 buf)) by (rewrite length_take; lia). cbn [mbind option_bind app].
    replace 10 with (Z.of_nat (length sess)) by lia. rewrite (memcpy_mid sess (take 8 (drop 10 buf))) by (rewrite length_take, length_drop; lia). cbn [mbind option_bind].
    rewrite (app_assoc sess sq), <- Es, memcpy_mid by (rewrite length_take, length_drop; lia). cbn [mbind option_bind]. by rewrite <- app_assoc. }
  assert (E0 : slice (sess ++ sq ++ ct ++ drop 20 buf) 0 10 = Some sess) by (apply (slice_app [] sess); [done|lia]). rewrite E0. cbn [mbind option_bind].
  replace 10 with (Z.of_nat (length sess)) by lia. rewrite (read_be64_at sess sq) by (done || apply byte_lists). cbn [mbind option_bind].
  assert (Ec : mold.read_be16 (sess ++ sq ++ ct ++ drop 20 buf) 18 = Some (mold.rp_requested_count req)).
  { rewrite <- Es. rewrite (app_assoc sess sq). unfold ct, put_u16_be. cbn [app]. rewrite read_be16_at by (apply wrap_u_range; lia). f_equal. by apply put_u16_value. }
  rewrite Ec. cbn [mbind option_bind]. unfold sq. rewrite put_u64_value by done. by destruct req.
Qed.

Lemma mold_request_roundtrip_witness : exists packet, mold.format_request (mold.mkRequestPacket (zrange 65 10) 258 7) (Some (replicate 24 9)) 24 = Some (true, Some (packet ++ [9; 9; 9; 9])) /\
  mold.parse_request (Some (packet ++ [9; 9; 9; 9])) 24 = Some (Some (mold.mkRequestPacket (zrange 65 10) 258 7)).
Proof.
  destruct (mold_request_roundtrip (mold.mkRequestPacket (zrange 65 10) 258 7) (replicate 24 9)) as [_ H].
  - split; [split; [reflexivity|apply (bool_decide_unpack _); vm_compute; exact I]| |]; unfold in_u; cbn; lia.
  - destruct H as (packet & _ & Hf & Hp); [cbn; lia|]. exists packet. split; [exact Hf|exact Hp].
Defined.
