(* ===== verification/DpdkFeed.v ===== *)
(** * DpdkFeedSource (luv_feed_dpdk.hpp): the feed from the network

    Packets come from the packet I/O layer (packet_io.h), whose answers are
    arguments: the result of [packet_io_init], and for each call of
    [packet_io_rx] the packets it delivers when [requested] are asked for.  The
    sequence tracker and the breaker are those of luv_safety.hpp, the packets
    are read by luv_moldudp64.hpp.  [None] is undefined behaviour: more packets
    than the array of [poll] holds, or an access outside a packet. *)
From Stdlib Require Import ZArith Lia ZifyBool.
From S2P Require Import Prelude Config Numeric Bytes SymbolTable Lob BookSpec LobRefine LobTheorems Decode Ring Arena Guards SimGen SimReorder SimFeed SimReplay FeedVisits MoldUdp Pipeline.

Record DpdkConfig := mkDpdkConfig {
  dc_port_id : Z;                  (* uint16_t *)
  dc_rx_queue_id : Z;              (* uint16_t *)
  dc_burst_size : Z;               (* uint16_t *)
  dc_nb_rx_desc : Z;               (* uint16_t *)
  dc_mempool_size : Z;             (* uint32_t *)
  dc_mbuf_cache : Z;               (* uint16_t *)
  dc_mtu : Z;                      (* uint16_t *)
  dc_payload_offset : Z;           (* uint32_t *)
  dc_allow_simulation : bool;
}.

(** [DpdkConfig{}]; the arguments for the EAL are not read. *)
Definition default_dpdk : DpdkConfig := mkDpdkConfig 0 0 32 1024 8191 256 1500 42 false.

(** What the packet I/O layer answers about one packet. *)
Record Packet := mkPacket {
  pk_contiguous : bool;
  pk_len : Z;                      (* uint32_t *)
  pk_data : option (list Z);
}.

Record DpdkFeedSource := mkDpdkFeed {
  df_cfg : DpdkConfig;
  df_arena : bool;                 (* _arena is set *)
  df_symbols : SymbolTable;
  df_initialised : bool;
  df_using_simulation : bool;
  df_simulation : SimFeedSource;
  df_total_msgs : Z;               (* uint64_t *)
  df_total_bytes : Z;              (* uint64_t *)
  df_sequence : SequenceTracker;
  df_sequence_breaker : CircuitBreaker;
}.

Module dpdk.

Definition kMaxBurst : Z := 64.

(** [DpdkFeedSource(cfg)]; [symbols] is the table as its owner filled it. *)
Definition fresh (cfg : DpdkConfig) (symbols : SymbolTable) : DpdkFeedSource :=
  mkDpdkFeed cfg false symbols false false (simfeed.fresh default_sim) 0 0 seqtrack.fresh (breaker.create 1 0).

Definition set_mode (arena initialised using_simulation : bool) (sim : SimFeedSource) (f : DpdkFeedSource) : DpdkFeedSource :=
  mkDpdkFeed (df_cfg f) arena (df_symbols f) initialised using_simulation sim (df_total_msgs f) (df_total_bytes f) (df_sequence f) (df_sequence_breaker f).
Definition count_bytes (n : Z) (f : DpdkFeedSource) : DpdkFeedSource :=
  mkDpdkFeed (df_cfg f) (df_arena f) (df_symbols f) (df_initialised f) (df_using_simulation f) (df_simulation f)
    (df_total_msgs f) (u64 (df_total_bytes f + n)) (df_sequence f) (df_sequence_breaker f).
Definition count_msg (f : DpdkFeedSource) : DpdkFeedSource :=
  mkDpdkFeed (df_cfg f) (df_arena f) (df_symbols f) (df_initialised f) (df_using_simulation f) (df_simulation f)
    (u64 (df_total_msgs f + 1)) (df_total_bytes f) (df_sequence f) (df_sequence_breaker f).
Definition set_guards (t : SequenceTracker) (b : CircuitBreaker) (f : DpdkFeedSource) : DpdkFeedSource :=
  mkDpdkFeed (df_cfg f) (df_arena f) (df_symbols f) (df_initialised f) (df_using_simulation f) (df_simulation f)
    (df_total_msgs f) (df_total_bytes f) t b.

(** [io_init] is the result of [packet_io_init(1, 1)]; the arguments behind it
    are those of the simulated feed's [init]. *)
Definition init (arena_ok : bool) (io_init : Z) (host_be mapped : bool) (file : option (list Z)) (now : Z) (f : DpdkFeedSource) : option (bool * DpdkFeedSource) :=
  if negb arena_ok then Some (false, f)
  else if negb (io_init =? 0) then
    if negb (dc_allow_simulation (df_cfg f)) then Some (false, set_mode true (df_initialised f) (df_using_simulation f) (df_simulation f) f)
    else
      '(ok, sim) ← simfeed.init arena_ok host_be mapped file now (df_simulation f);
      Some (ok, set_mode true (df_initialised f) true sim f)
  else Some (true, set_mode true true (df_using_simulation f) (df_simulation f) f).

(** [while (messages.next(raw_message, message_len))]; the iterator ends after
    at most the bytes of the packet. *)
Fixpoint message_loop (fuel : nat) (host_be : bool) (it : mold.MessageIterator) (f : DpdkFeedSource) (r : TickRing) (decoded : Z)
    : option (Z * DpdkFeedSource * TickRing) :=
  match fuel with
  | O => None
  | S fuel =>
      '(m, it) ← mold.next it;
      match m with
      | None => Some (decoded, f, r)
      | Some (raw_message, message_len) =>
          published ← simfeed.publish host_be raw_message message_len (df_symbols f) r;
          match published with
          | inl _ => Some (decoded, f, r)
          | inr (true, r) => message_loop fuel host_be it (count_msg f) r (u32 (decoded + 1))
          | inr (false, r) => message_loop fuel host_be it f r decoded
          end
      end
  end.

Definition process_packet (host_be : bool) (packet : Packet) (f : DpdkFeedSource) (r : TickRing) : option (Z * DpdkFeedSource * TickRing) :=
  if negb (pk_contiguous packet) then Some (0, f, r)
  else
    let packet_len := pk_len packet in
    let offset := dc_payload_offset (df_cfg f) in
    if negb (breaker.allow_const (df_sequence_breaker f)) || (packet_len <? u32 (offset + 20)) then Some (0, f, r)
    else
      match pk_data packet with
      | None => Some (0, f, r)
      | Some data =>
          payload ← slice data offset (Z.of_nat (length data) - offset);
          let payload_len := u32 (packet_len - offset) in
          let f := count_bytes packet_len f in
          parsed ← mold.parse_header (Some payload) payload_len;
          match parsed with
          | None => Some (0, f, r)
          | Some header =>
              valid ← mold.validate_message_block (Some payload) payload_len (mold.message_count header);
              if negb valid then Some (0, f, r)
              else
                let '(result, tracker) := seqtrack.observe (mold.sequence header) (df_sequence f) in
                match result with
                | kGap | kOutOfOrder | kDuplicate => Some (0, set_guards tracker (breaker.trip 0 (df_sequence_breaker f)) f, r)
                | _ =>
                    message_loop (S (length payload)) host_be (mold.iterator (Some payload) payload_len)
                      (set_guards tracker (df_sequence_breaker f) f) r 0
                end
          end
      end.

(** The loop of [poll] over the packets; a null pointer is skipped.  The list
    is what has been given back to [packet_io_packet_free], in that order. *)
Fixpoint packet_loop (host_be : bool) (packets : list (option Packet)) (f : DpdkFeedSource) (r : TickRing) (decoded : Z)
    : option (list (option Packet) * (Z * DpdkFeedSource * TickRing)) :=
  match packets with
  | [] => Some ([], (decoded, f, r))
  | packet :: packets =>
      '(k, f, r) ← match packet with Some p => process_packet host_be p f r | None => Some (0, f, r) end;
      '(freed, result) ← packet_loop host_be packets f r (u32 (decoded + k));
      Some (packet :: freed, result)
  end.

(** [rx] is [packet_io_rx] as a function of [requested]. *)
Definition poll (host_be : bool) (now : Z) (rx : Z -> list (option Packet)) (f : DpdkFeedSource) (r : TickRing)
    : option (list (option Packet) * (Z * DpdkFeedSource * TickRing)) :=
  if df_using_simulation f then
    '(k, sim, r) ← simfeed.poll host_be now (df_simulation f) r;
    Some ([], (k, set_mode (df_arena f) (df_initialised f) true sim f, r))
  else if negb (df_initialised f) then Some ([], (0, f, r))
  else
    let requested := if kMaxBurst <? dc_burst_size (df_cfg f) then kMaxBurst else dc_burst_size (df_cfg f) in
    let packets := rx requested in
    if kMaxBurst <? Z.of_nat (length packets) then None else packet_loop host_be packets f r 0.

Definition total_messages (f : DpdkFeedSource) : Z := if df_using_simulation f then simfeed.total_messages (df_simulation f) else df_total_msgs f.
Definition total_bytes (f : DpdkFeedSource) : Z := if df_using_simulation f then simfeed.total_bytes (df_simulation f) else df_total_bytes f.
Definition sequence_healthy (f : DpdkFeedSource) : bool := breaker.allow_const (df_sequence_breaker f).
Definition sequence_gaps (f : DpdkFeedSource) : Z := sq_gaps (df_sequence f).

(** [shutdown], which is the destructor; [true] when it ends the packet I/O. *)
Definition shutdown (f : DpdkFeedSource) : bool * DpdkFeedSource :=
  if df_using_simulation f then (false, set_mode (df_arena f) (df_initialised f) false (df_simulation f) f)
  else if df_initialised f then (true, set_mode (df_arena f) false false (df_simulation f) f)
  else (false, f).

(** Polls at given times: the freed packets and the sum of the results. *)
Fixpoint polls (host_be : bool) (rxs : list (Z * (Z -> list (option Packet)))) (f : DpdkFeedSource) (r : TickRing)
    : option (list (option Packet) * (Z * DpdkFeedSource * TickRing)) :=
  match rxs with
  | [] => Some ([], (0, f, r))
  | (now, rx) :: rxs =>
      '(freed, (k, f, r)) ← poll host_be now rx f r;
      '(freed', (n, f, r)) ← polls host_be rxs f r;
      Some (freed ++ freed', (k + n, f, r))
  end.

End dpdk.

(** ** Delivering the messages of a packet *)
Definition room (q : list TickMsg) : nat := Z.to_nat (kTickCapacity - Z.of_nat (length q)).

(** The ticks that the messages give while the ring has room. *)
Definition delivered (host_be : bool) (symbols : SymbolTable) (msgs : list (list Z)) (q : list TickMsg) : list TickMsg :=
  take (room q) (omap (decoded host_be symbols) msgs).

Definition add_msgs (n : nat) (f : DpdkFeedSource) : DpdkFeedSource :=
  mkDpdkFeed (df_cfg f) (df_arena f) (df_symbols f) (df_initialised f) (df_using_simulation f) (df_simulation f)
    (u64 (df_total_msgs f + Z.of_nat n)) (df_total_bytes f) (df_sequence f) (df_sequence_breaker f).

Lemma count_add n f : add_msgs n (dpdk.count_msg f) = add_msgs (S n) f.
Proof. unfold add_msgs, dpdk.count_msg. cbn. f_equal. unfold wrap_u. rewrite Zplus_mod_idemp_l. f_equal. lia. Qed.

Lemma add_none f : in_u 64 (df_total_msgs f) -> add_msgs 0 f = f.
Proof. intros H. unfold add_msgs. change (Z.of_nat 0) with 0. rewrite Z.add_0_r, wrap_u_id by done. by destruct f. Qed.

Lemma count_typed f : in_u 64 (df_total_msgs (dpdk.count_msg f)).
Proof. apply wrap_u_range. lia. Qed.

Section deliver.
Context (host_be : bool) (symbols : SymbolTable) (Hsymbols : symbols_ok symbols).

Lemma queue_bound r base q : tick_queue r base q -> Z.of_nat (length q) <= kTickCapacity.
Proof. intros Hq. rewrite tick_capacity. apply (hq_size _ _ _ _ _ Hq). Qed.

Lemma publish_full r base q raw len : tick_queue r base q -> Z.of_nat (length q) = kTickCapacity -> simfeed.publish host_be raw len symbols r = Some (inl tt).
Proof.
  intros Hq Hl. unfold simfeed.publish. rewrite tick_capacity in *. rewrite (try_claim_spec 22 ltac:(lia) empty_tick r base q Hq).
  destruct (Z.ltb_spec (Z.of_nat (length q)) (2 ^ 22)); [lia|done].
Qed.

Lemma delivered_full msgs q : Z.of_nat (length q) = kTickCapacity -> delivered host_be symbols msgs q = [].
Proof. intros Hl. unfold delivered, room. by rewrite Hl, Z.sub_diag. Qed.

Lemma delivered_none m msgs q : decoded host_be symbols m = None -> delivered host_be symbols (m :: msgs) q = delivered host_be symbols msgs q.
Proof. intros E. unfold delivered. cbn. by rewrite E. Qed.

Lemma delivered_some m msgs q t : decoded host_be symbols m = Some t -> Z.of_nat (length q) < kTickCapacity ->
  delivered host_be symbols (m :: msgs) q = t :: delivered host_be symbols msgs (q ++ [t]).
Proof.
  intros E Hl. unfold delivered, room. cbn. rewrite E, length_app. cbn [length].
  replace (Z.to_nat (kTickCapacity - Z.of_nat (length q))) with (S (Z.to_nat (kTickCapacity - Z.of_nat (length q + 1)))) by lia. done.
Qed.

Lemma delivered_app msgs1 msgs2 q : delivered host_be symbols (msgs1 ++ msgs2) q =
  delivered host_be symbols msgs1 q ++ delivered host_be symbols msgs2 (q ++ delivered host_be symbols msgs1 q).
Proof.
  unfold delivered, room. rewrite omap_app, take_app, length_app, length_take. f_equal. f_equal. lia.
Qed.

Lemma message_loop_ok d (Hd : bytes_ok d) (Hsmall : Z.of_nat (length d) < 2 ^ 63) msgs : forall fuel pre f r base q k,
  Forall framable msgs -> d = pre ++ frames msgs -> (length msgs < fuel)%nat -> df_symbols f = symbols -> in_u 64 (df_total_msgs f) ->
  tick_queue r base q -> 0 <= k <= Z.of_nat (length q) -> let new := delivered host_be symbols msgs q in
  exists r', dpdk.message_loop fuel host_be (mold.mkIterator (Some d) (Z.of_nat (length d)) (Z.of_nat (length pre)) false) f r k =
      Some (k + Z.of_nat (length new), add_msgs (length new) f, r') /\ tick_queue r' base (q ++ new).
Proof.
  induction msgs as [|m msgs IH]; intros fuel pre f r base q k Hms E Hf Hsy Ht Hq Hk new; (destruct fuel as [|fuel]; [simpl in Hf; lia|]); cbn [dpdk.message_loop].
  { unfold frames in E. cbn in E. rewrite app_nil_r in E. subst new. unfold delivered. cbn [omap list_omap]. rewrite take_nil. cbn [length].
    replace (Z.of_nat (length pre)) with (Z.of_nat (length d)) by by rewrite E. rewrite next_end, add_none, app_nil_r, Z.add_0_r by done. exists r. by split. }
  apply Forall_cons in Hms as [Hm Hms]. change (frames (m :: msgs)) with (frame m ++ frames msgs) in E. rewrite (next_frame d Hd Hsmall pre m _ Hm E). cbn [mbind option_bind]. rewrite Hsy.
  pose proof (queue_bound _ _ _ Hq) as Hcap. destruct (decide (Z.of_nat (length q) = kTickCapacity)) as [Hfull|Hroom].
  { rewrite (publish_full r base q) by done. subst new. rewrite delivered_full by done. cbn [mbind option_bind length]. rewrite add_none, app_nil_r, Z.add_0_r by done. exists r. by split. }
  destruct (publish_decoded host_be symbols m r base q Hq (proj1 Hm) Hsymbols ltac:(lia)) as (r1 & -> & Hq1). cbn [mbind option_bind]. rewrite app_assoc in E. cbn [length] in Hf.
  destruct (decoded host_be symbols m) as [t|] eqn:Ed; cbn [option_list] in Hq1.
  - rewrite bool_decide_eq_true_2 by by eexists. rewrite wrap_u_id by (unfold in_u; rewrite tick_capacity in Hcap; lia).
    destruct (IH fuel (pre ++ frame m) (dpdk.count_msg f) r1 base (q ++ [t]) (k + 1) Hms E ltac:(lia) Hsy (count_typed f) Hq1) as (r' & Hrun & Hq');
      [rewrite length_app; simpl; lia|]. exists r'. subst new. rewrite (delivered_some m msgs q t Ed) by lia. rewrite Hrun, count_add, <- app_assoc in *.
    split; [|done]. cbn [length]. by replace (k + Z.of_nat (S (length (delivered host_be symbols msgs (q ++ [t]))))) with (k + 1 + Z.of_nat (length (delivered host_be symbols msgs (q ++ [t])))) by lia.
  - rewrite bool_decide_eq_false_2 by by intros []. rewrite app_nil_r in Hq1.
    destruct (IH fuel (pre ++ frame m) f r1 base q k Hms E ltac:(lia) Hsy Ht Hq1 Hk) as (r' & Hrun & Hq'). exists r'. subst new. by rewrite (delivered_none m msgs q Ed).
Qed.

End deliver.

(** ** What a packet carries *)
Definition header_sequence (head : list Z) : Z := be_value (take 8 (drop 10 head)).
Definition header_count (head : list Z) : Z := be_value (drop 18 head).

Lemma parse_header_ok head rest size : bytes_ok head -> length head = 20%nat -> 20 <= size ->
  mold.parse_header (Some (head ++ rest)) size = Some (Some (mold.mkHeader (header_sequence head) (header_count head))).
Proof.
  intros Hb Hl Hs. unfold mold.parse_header, mold.kHeaderSize. destruct (Z.ltb_spec size 20); [lia|].
  assert (E1 : head ++ rest = take 10 head ++ take 8 (drop 10 head) ++ drop 18 head ++ rest).
  { pose proof (take_drop 10 head) as E1. pose proof (take_drop 8 (drop 10 head)) as E2. rewrite drop_drop in E2. cbn [Nat.add] in E2.
    rewrite (app_assoc (take 8 _)), E2, app_assoc. by rewrite E1. }
  assert (Hs1 : mold.read_be64 (head ++ rest) 10 = Some (header_sequence head)).
  { rewrite E1. replace 10 with (Z.of_nat (length (take 10 head))) by (rewrite length_take; lia).
    apply read_be64_at; [rewrite length_take, length_drop; lia|]. by apply Forall_take, Forall_drop. }
  assert (Hs2 : mold.read_be16 (head ++ rest) 18 = Some (header_count head)).
  { assert (H18 : bytes_ok (drop 18 head)) by by apply Forall_drop. unfold header_count. destruct (drop 18 head) as [|a [|b [|? ?]]] eqn:Ed;
      apply (f_equal length) in Ed as Hd; rewrite length_drop in Hd; simpl in Hd; try lia. apply Forall_cons in H18 as [Ha [Hb' _]%Forall_cons].
    pose proof (take_drop 18 head) as E. rewrite Ed in E. rewrite <- E at 1. rewrite <- app_assoc. cbn [app].
    replace 18 with (Z.of_nat (length (take 18 head))) by (rewrite length_take; lia). by apply read_be16_at. }
  by rewrite Hs1, Hs2.
Qed.

Section feed.
Context (host_be : bool) (symbols : SymbolTable) (Hsymbols : symbols_ok symbols) (offset : Z) (Hoffset : 0 <= offset < 2 ^ 32 - 20).

(** The bytes of a packet that lies in one piece, as the I/O layer promises them. *)
Definition packet_ok (p : Packet) : Prop := in_u 32 (pk_len p) /\
  forall data, pk_contiguous p = true -> pk_data p = Some data -> bytes_ok data /\ Z.of_nat (length data) = pk_len p.

(** The packet holds a well-formed MoldUDP64 packet behind the offset. *)
Definition carries (p : Packet) (seq : Z) (msgs : list (list Z)) : Prop := exists data head,
  pk_contiguous p = true /\ pk_data p = Some data /\ offset + 20 <= pk_len p /\ packs (drop (Z.to_nat offset) data) head msgs /\
  header_sequence head = seq /\ header_count head = Z.of_nat (length msgs).

Definition arrives (p : option Packet) (b : option (Z * list (list Z))) : Prop :=
  match b with
  | Some (seq, msgs) => exists p', p = Some p' /\ carries p' seq msgs
  | None => forall p' seq msgs, p = Some p' -> ~ carries p' seq msgs
  end.

(** What [process_packet] reads of a packet that is long enough. *)
Lemma packet_read p data : packet_ok p -> pk_contiguous p = true -> pk_data p = Some data -> offset + 20 <= pk_len p ->
  let d := drop (Z.to_nat offset) data in bytes_ok d /\ u32 (pk_len p - offset) = Z.of_nat (length d) /\ 20 <= Z.of_nat (length d) < 2 ^ 63 /\
  slice data offset (Z.of_nat (length data) - offset) = Some d /\
  mold.parse_header (Some d) (Z.of_nat (length d)) = Some (Some (mold.mkHeader (header_sequence (take 20 d)) (header_count (take 20 d)))) /\ in_u 16 (header_count (take 20 d)).
Proof.
  intros [Hp32 Hp] Hc Hdata Hlen d. destruct (Hp data Hc Hdata) as [Hb Hl]. unfold in_u in Hp32. assert (Hd : bytes_ok d) by by apply Forall_drop.
  assert (Hdl : Z.of_nat (length d) = pk_len p - offset) by (unfold d; rewrite length_drop; lia). assert (Hh : length (take 20 d) = 20%nat) by (rewrite length_take; lia).
  split_and!; [done| |lia|lia| | |].
  - rewrite Hdl. apply wrap_u_id. unfold in_u. lia.
  - unfold slice. case_if; [|lia]. f_equal. apply take_ge. fold d. lia.
  - rewrite <- (take_drop 20 d) at 1. apply parse_header_ok; [by apply Forall_take|done|lia].
  - unfold header_count, in_u. pose proof (be_value_range (drop 18 (take 20 d)) ltac:(by apply Forall_drop, Forall_take)) as Hr.
    rewrite length_drop, Hh in Hr. change (256 ^ Z.of_nat (20 - 18)) with (2 ^ 16) in Hr. done.
Qed.

Lemma packs_head d head msgs : packs d head msgs -> take 20 d = head /\ drop 20 d = frames msgs.
Proof. intros (Hh & _ & ->). rewrite <- Hh. by rewrite take_app_length, drop_app_length. Qed.

Lemma carries_unique p seq msgs seq' msgs' : carries p seq msgs -> carries p seq' msgs' -> seq = seq' /\ msgs = msgs'.
Proof.
  intros (data & head & _ & Hd & _ & Hpk & <- & _) (data' & head' & _ & Hd' & _ & Hpk' & <- & _). rewrite Hd in Hd'. injection Hd' as <-.
  destruct (packs_head _ _ _ Hpk) as [Eh Ef], (packs_head _ _ _ Hpk') as [Eh' Ef']. rewrite Eh in Eh'. rewrite Ef in Ef'. subst head'. split; [done|].
  destruct Hpk as (_ & Hm & _), Hpk' as (_ & Hm' & _). by apply frames_inj.
Qed.

Lemma arrives_carried p b seq msgs : arrives (Some p) b -> carries p seq msgs -> b = Some (seq, msgs).
Proof.
  intros Hb Hc. destruct b as [[seq' msgs']|]; [|by destruct (Hb p _ _ eq_refl Hc)]. destruct Hb as (p' & [= <-] & Hc'). by destruct (carries_unique _ _ _ _ _ Hc Hc') as [-> ->].
Qed.

(** The packets that carry something are those that pass the two checks. *)
Lemma arrives_total p : packet_ok p -> exists b, arrives (Some p) b.
Proof.
  intros Hp. destruct (decide (pk_contiguous p = true /\ offset + 20 <= pk_len p)) as [[Hc Hl]|Hno];
    [|exists None; intros p' seq msgs [= <-] (data & head & Hc & _ & Hl & _); by destruct Hno].
  destruct (pk_data p) as [data|] eqn:Hdata; [|exists None; intros p' seq msgs [= <-] (data & head & _ & Hd & _); by rewrite Hdata in Hd].
  destruct (packet_read p data Hp Hc Hdata Hl) as (Hb & _ & Hlen & _ & _ & Hcnt). set (d := drop (Z.to_nat offset) data) in *.
  destruct (validate_exact d (header_count (take 20 d)) Hb ltac:(lia) ltac:(unfold in_u in Hcnt; lia)) as (b & _ & Hv). destruct b.
  - destruct (proj1 Hv eq_refl) as (head & msgs & Hpk & Hn). destruct (packs_head _ _ _ Hpk) as [Eh _]. exists (Some (header_sequence head, msgs)), p. split; [done|].
    exists data, head. rewrite Eh in *. by split_and!.
  - exists None. intros p' seq msgs [= <-] (data' & head & _ & Hd' & _ & Hpk & _ & Hn). rewrite Hdata in Hd'. injection Hd' as <-.
    destruct (packs_head d head msgs Hpk) as [Eh _]. assert (false = true) by (apply Hv; exists head, msgs; by rewrite Eh). done.
Qed.

(** ** The abstract feed *)

(** Up to the first packet that is not the next one in sequence. *)
Definition feed_state : Type := option Z * bool.

Definition feed_step (st : feed_state) (b : option (Z * list (list Z))) : feed_state * list (list Z) :=
  match st, b with
  | (next, true), Some (seq, msgs) =>
      if bool_decide (next = None \/ next = Some seq) then ((Some (u64 (seq + 1)), true), msgs) else ((next, false), [])
  | _, _ => (st, [])
  end.

Record tracks (st : feed_state) (f : DpdkFeedSource) : Prop := {
  tr_live : df_initialised f = true /\ df_using_simulation f = false;
  tr_config : dc_payload_offset (df_cfg f) = offset;
  tr_symbols : df_symbols f = symbols;
  tr_typed : in_u 64 (df_total_msgs f);
  tr_up : breaker.allow_const (df_sequence_breaker f) = snd st;
  tr_next : snd st = true -> match fst st with None => sq_initialized (df_sequence f) = false | Some n => sq_initialized (df_sequence f) = true /\ sq_next (df_sequence f) = n end;
}.

Lemma tracks_bytes st n f : tracks st f -> tracks st (dpdk.count_bytes n f).
Proof. intros [H1 H2 H3 H4 H5 H6]. by split. Qed.

Lemma tracks_msgs st n f : tracks st f -> tracks st (add_msgs n f).
Proof. intros [H1 H2 H3 H4 H5 H6]. split; try done. apply wrap_u_range. lia. Qed.

Lemma observe_step st f seq msgs : tracks st f -> snd st = true ->
  let '(result, tracker) := seqtrack.observe seq (df_sequence f) in
  match feed_step st (Some (seq, msgs)) with
  | (st', out) => if snd st' then (result = kFirst \/ result = kNext) /\ out = msgs /\ tracks st' (dpdk.set_guards tracker (df_sequence_breaker f) f)
                  else (result = kGap \/ result = kOutOfOrder \/ result = kDuplicate) /\ out = [] /\ tracks st' (dpdk.set_guards tracker (breaker.trip 0 (df_sequence_breaker f)) f)
  end.
Proof.
  intros [H1 H2 H3 H4 H5 H6] Hup. specialize (H6 Hup). destruct st as [next up]. cbn [fst snd] in *. destruct up; [|done]. unfold feed_step, seqtrack.observe. destruct next as [n|].
  - destruct H6 as [-> ->]. cbn [negb]. destruct (Z.eqb_spec seq n) as [->|Hne].
    + rewrite bool_decide_eq_true_2 by by right. cbn [snd]. split_and!; [by right|done|]. by split.
    + rewrite (bool_decide_eq_false_2 (Some n = None \/ Some n = Some seq)) by (intros [Hn|Hn]; congruence). case_if; cbn [snd]; [split_and!; [case_if; tauto|done|by split]|split_and!; [by left|done|by split]].
  - rewrite H6. cbn [negb]. rewrite bool_decide_eq_true_2 by by left. cbn [snd]. split_and!; [by left|done|]. by split.
Qed.

Lemma feed_step_none st : feed_step st None = (st, []).
Proof. by destruct st as [next []]. Qed.

Lemma feed_step_down next b : feed_step (next, false) b = ((next, false), []).
Proof. by destruct b as [[]|]. Qed.

(** The outcome of a step that gives the ticks of [out]. *)
Definition advances (st' : feed_state) (out : list (list Z)) (f : DpdkFeedSource) base (q : list TickMsg) (result : option (Z * DpdkFeedSource * TickRing)) (k : Z) : Prop :=
  let new := delivered host_be symbols out q in
  exists f' r', result = Some (k + Z.of_nat (length new), f', r') /\ tracks st' f' /\ tick_queue r' base (q ++ new) /\ df_cfg f' = df_cfg f /\
    df_total_msgs f' = u64 (df_total_msgs f + Z.of_nat (length new)).

Lemma advances_nothing st f g base q r : tracks st g -> df_cfg g = df_cfg f -> df_total_msgs g = df_total_msgs f -> tick_queue r base q -> advances st [] f base q (Some (0, g, r)) 0.
Proof.
  intros Ht Hc Hm Hq. unfold advances, delivered. cbn [omap list_omap]. rewrite take_nil, app_nil_r. cbn [length]. exists g, r. split_and!; try done.
  rewrite Hm, Z.add_0_r, wrap_u_id; [done|]. rewrite <- Hm. apply (tr_typed _ _ Ht).
Qed.

Lemma process_packet_ok p b st f r base q : packet_ok p -> arrives (Some p) b -> tracks st f -> tick_queue r base q ->
  let '(st', out) := feed_step st b in advances st' out f base q (dpdk.process_packet host_be p f r) 0.
Proof.
  intros Hp Hb Ht Hq. pose proof Ht as [_ Hoff Hsy Hty Hup _]. assert (Hquiet : (forall seq msgs, ~ carries p seq msgs) -> b = None).
  { intros Hno. destruct b as [[seq msgs]|]; [|done]. destruct Hb as (p' & [= <-] & Hc). by destruct (Hno seq msgs). }
  assert (Hstay : b = None -> let '(st', out) := feed_step st b in advances st' out f base q (Some (0, f, r)) 0).
  { intros ->. rewrite feed_step_none. by apply advances_nothing. }
  unfold dpdk.process_packet. destruct (pk_contiguous p) eqn:Hc; cbn [negb]; [|apply Hstay, Hquiet; intros seq msgs (data & head & Hc' & _); congruence].
  rewrite Hoff, Hup, (wrap_u_id 32 (offset + 20)) by (unfold in_u; lia). destruct st as [next up]. cbn [snd] in *.
  destruct up; cbn [negb orb]; [|rewrite feed_step_down; by apply advances_nothing].
  destruct (Z.ltb_spec (pk_len p) (offset + 20)) as [Hshort|Hlong]; [apply Hstay, Hquiet; intros seq msgs (data & head & _ & _ & Hl & _); lia|].
  destruct (pk_data p) as [data|] eqn:Hdata; [|apply Hstay, Hquiet; intros seq msgs (data & head & _ & Hd & _); congruence].
  destruct (packet_read p data Hp Hc Hdata Hlong) as (Hdb & -> & Hdl & -> & Hhead & Hcnt). cbn [mbind option_bind]. set (d := drop (Z.to_nat offset) data) in *.
  rewrite Hhead. cbn [mbind option_bind mold.message_count mold.sequence].
  destruct (validate_exact d (header_count (take 20 d)) Hdb ltac:(lia) ltac:(unfold in_u in Hcnt; lia)) as (v & -> & Hv). cbn [mbind option_bind].
  set (g := dpdk.count_bytes (pk_len p) f). assert (Hg : tracks (next, true) g) by by apply tracks_bytes. destruct v; cbn [negb].
  - destruct (proj1 Hv eq_refl) as (head & msgs & Hpk & Hn). destruct (packs_head _ _ _ Hpk) as [Eh _]. rewrite Eh in *.
    assert (Eb : b = Some (header_sequence head, msgs)).
    { apply (arrives_carried p); [done|]. exists data, head. by split_and!. }
    subst b. pose proof (observe_step (next, true) g (header_sequence head) msgs Hg eq_refl) as Hobs. change (df_sequence f) with (df_sequence g).
    destruct (seqtrack.observe (header_sequence head) (df_sequence g)) as [result tracker], (feed_step _ _) as [[next' up'] out]. cbn [snd] in Hobs.
    destruct up', Hobs as (Hres & -> & Hg').
    + assert (Hloop : advances (next', true) msgs f base q (dpdk.message_loop (S (length d)) host_be (mold.iterator (Some d) (Z.of_nat (length d))) (dpdk.set_guards tracker (df_sequence_breaker g) g) r 0) 0).
      { destruct Hpk as (Hhl & Hms & Ed). assert (Hcount : (length msgs <= length (frames msgs))%nat) by apply frames_count. assert (E20 : mold.iterator (Some d) (Z.of_nat (length d)) = mold.mkIterator (Some d) (Z.of_nat (length d)) (Z.of_nat (length head)) false) by by rewrite Hhl.
        rewrite E20. set (h := dpdk.set_guards _ _ _) in *.
        destruct (message_loop_ok host_be symbols Hsymbols d Hdb ltac:(lia) msgs (S (length d)) head h r base q 0 Hms Ed) as (r' & -> & Hq');
          [rewrite Ed, length_app; lia|apply (tr_symbols _ _ Hg')|apply (tr_typed _ _ Hg')|done|lia|].
        exists (add_msgs (length (delivered host_be symbols msgs q)) h), r'. split_and!; [done|by apply tracks_msgs|done|done|done]. }
      by destruct Hres as [-> | ->].
    + assert (Hstop : advances (next', false) [] f base q (Some (0, dpdk.set_guards tracker (breaker.trip 0 (df_sequence_breaker g)) g, r)) 0) by by apply advances_nothing.
      by destruct Hres as [-> |[-> | ->]].
  - assert (b = None) as ->; [|rewrite feed_step_none; by apply advances_nothing]. apply Hquiet. intros seq msgs (data' & head & _ & Hd' & _ & Hpk & _ & Hn).
    rewrite Hdata in Hd'. injection Hd' as <-. destruct (packs_head d head msgs Hpk) as [Eh _]. assert (false = true); [|done]. apply Hv. exists head, msgs. by rewrite Eh.
Qed.

Lemma advances_trans st2 out1 out2 f base q k f1 result : let new1 := delivered host_be symbols out1 q in
  df_cfg f1 = df_cfg f -> df_total_msgs f1 = u64 (df_total_msgs f + Z.of_nat (length new1)) ->
  advances st2 out2 f1 base (q ++ new1) result (k + Z.of_nat (length new1)) -> advances st2 (out1 ++ out2) f base q result k.
Proof.
  intros new1 Hc Hm (f' & r' & -> & Ht & Hq & Hc' & Hm'). unfold advances. rewrite delivered_app. fold new1. exists f', r'.
  rewrite length_app, Nat2Z.inj_add, !Z.add_assoc, app_assoc. split_and!; try done; [congruence|]. rewrite Hm', Hm. unfold wrap_u. by rewrite Zplus_mod_idemp_l.
Qed.

Fixpoint feed_run (st : feed_state) (blocks : list (option (Z * list (list Z)))) : feed_state * list (list Z) :=
  match blocks with
  | [] => (st, [])
  | b :: blocks => let '(st, out) := feed_step st b in let '(st, rest) := feed_run st blocks in (st, out ++ rest)
  end.

Lemma feed_run_app bs1 bs2 : forall st, feed_run st (bs1 ++ bs2) = let '(st, out1) := feed_run st bs1 in let '(st, out2) := feed_run st bs2 in (st, out1 ++ out2).
Proof.
  induction bs1 as [|b bs1 IH]; intros st; cbn [feed_run app]; [by destruct (feed_run st bs2)|].
  destruct (feed_step st b) as [st1 o]. rewrite IH. destruct (feed_run st1 bs1) as [st2 o1], (feed_run st2 bs2). by rewrite app_assoc.
Qed.

Definition slot_ok (p : option Packet) : Prop := match p with Some p => packet_ok p | None => True end.

Lemma packet_loop_ok packets : forall blocks st f r base q k, Forall slot_ok packets -> Forall2 arrives packets blocks -> tracks st f -> tick_queue r base q ->
  0 <= k <= Z.of_nat (length q) -> let '(st', out) := feed_run st blocks in
  exists result, dpdk.packet_loop host_be packets f r k = Some (packets, result) /\ advances st' out f base q (Some result) k.
Proof.
  induction packets as [|p packets IH]; intros blocks st f r base q k Hp Hb Ht Hq Hk; inversion Hb as [|? b ? bs Hbp Hbs]; subst; cbn [feed_run dpdk.packet_loop].
  { exists (k, f, r). split; [done|]. unfold advances, delivered. cbn [omap list_omap]. rewrite take_nil, app_nil_r. exists f, r. cbn [length].
    rewrite !Z.add_0_r, wrap_u_id by apply (tr_typed _ _ Ht). by split_and!. }
  apply Forall_cons in Hp as [Hpo Hp]. destruct (feed_step st b) as [st1 out1] eqn:Es.
  assert (Hstep : advances st1 out1 f base q (match p with Some p => dpdk.process_packet host_be p f r | None => Some (0, f, r) end) 0).
  { destruct p as [p|]; [pose proof (process_packet_ok p b st f r base q Hpo Hbp Ht Hq) as Ha; by rewrite Es in Ha|].
    destruct b as [[seq msgs]|]; [by destruct Hbp as (? & ? & _)|]. rewrite feed_step_none in Es. injection Es as <- <-. by apply advances_nothing. }
  destruct Hstep as (f1 & r1 & -> & Ht1 & Hq1 & Hc1 & Hm1). cbn [mbind option_bind]. set (new1 := delivered host_be symbols out1 q) in *.
  pose proof (queue_bound _ _ _ Hq1) as Hcap. rewrite tick_capacity, length_app in Hcap. rewrite Z.add_0_l, wrap_u_id by (unfold in_u; lia).
  specialize (IH bs st1 f1 r1 base (q ++ new1) (k + Z.of_nat (length new1)) Hp Hbs Ht1 Hq1 ltac:(rewrite length_app; lia)).
  destruct (feed_run st1 bs) as [st2 out2]. destruct IH as (result & -> & Ha). cbn [mbind option_bind]. exists result. split; [done|]. by apply (advances_trans _ _ _ _ _ _ _ f1).
Qed.

(** *** A history of polls *)
Definition burst (f : DpdkFeedSource) : Z := Z.min dpdk.kMaxBurst (dc_burst_size (df_cfg f)).

(** The packets that the calls of [packet_io_rx] deliver. *)
Definition received (f : DpdkFeedSource) (rxs : list (Z * (Z -> list (option Packet)))) : list (option Packet) := rxs ≫= fun rx => rx.2 (burst f).

Definition rx_ok (f : DpdkFeedSource) (rx : Z * (Z -> list (option Packet))) : Prop :=
  Z.of_nat (length (rx.2 (burst f))) <= dpdk.kMaxBurst /\ Forall slot_ok (rx.2 (burst f)).

Lemma poll_ok now rx blocks st f r base q : rx_ok f (now, rx) -> Forall2 arrives (rx (burst f)) blocks -> tracks st f -> tick_queue r base q ->
  let '(st', out) := feed_run st blocks in
  exists result, dpdk.poll host_be now rx f r = Some (rx (burst f), result) /\ advances st' out f base q (Some result) 0.
Proof.
  intros [Hl Hp] Hb Ht Hq. cbn [snd] in *. pose proof Ht as [[Hi Hs] _ _ _ _ _]. unfold dpdk.poll. rewrite Hi, Hs. cbn [negb].
  assert (Er : (if dpdk.kMaxBurst <? dc_burst_size (df_cfg f) then dpdk.kMaxBurst else dc_burst_size (df_cfg f)) = burst f) by (unfold burst; case_if; lia).
  rewrite Er. destruct (Z.ltb_spec dpdk.kMaxBurst (Z.of_nat (length (rx (burst f))))); [lia|]. by apply packet_loop_ok; [..|lia].
Qed.

Lemma polls_ok rxs : forall blocks st f r base q, Forall (rx_ok f) rxs -> Forall2 arrives (received f rxs) blocks -> tracks st f -> tick_queue r base q ->
  let '(st', out) := feed_run st blocks in
  exists result, dpdk.polls host_be rxs f r = Some (received f rxs, result) /\ advances st' out f base q (Some result) 0.
Proof.
  induction rxs as [|[now rx] rxs IH]; intros blocks st f r base q Hp Hb Ht Hq; cbn [dpdk.polls].
  { inversion Hb; subst. cbn [feed_run]. exists (0, f, r). split; [done|]. by apply advances_nothing. }
  apply Forall_cons in Hp as [Hp1 Hp]. change (received f ((now, rx) :: rxs)) with (rx (burst f) ++ received f rxs) in *.
  apply Forall2_app_inv_l in Hb as (bs1 & bs2 & Hb1 & Hb2 & ->). rewrite feed_run_app.
  pose proof (poll_ok now rx bs1 st f r base q Hp1 Hb1 Ht Hq) as H1. destruct (feed_run st bs1) as [st1 out1].
  destruct H1 as (res & -> & f1 & r1 & [= ->] & Ht1 & Hq1 & Hc1 & Hm1). cbn [mbind option_bind]. assert (Eb : received f1 rxs = received f rxs) by (unfold received, burst; by rewrite Hc1).
  assert (Hp' : Forall (rx_ok f1) rxs) by (unfold rx_ok, burst in *; by rewrite Hc1). rewrite <- Eb in Hb2.
  specialize (IH bs2 st1 f1 r1 base _ Hp' Hb2 Ht1 Hq1). destruct (feed_run st1 bs2) as [st2 out2]. destruct IH as (res2 & -> & Ha). cbn [mbind option_bind]. rewrite Eb.
  destruct Ha as (f2 & r2 & [= ->] & Ht2 & Hq2 & Hc2 & Hm2). eexists. split; [done|].
  apply (advances_trans _ _ _ _ _ _ _ f1 _ Hc1 Hm1). exists f2, r2. by rewrite !Z.add_0_l.
Qed.

(** The messages that get through: of the packets up to the first one whose
    sequence number is not the successor of the one before. *)
Fixpoint in_sequence (next : option Z) (blocks : list (Z * list (list Z))) : list (Z * list (list Z)) :=
  match blocks with
  | [] => []
  | (seq, msgs) :: blocks => if bool_decide (next = None \/ next = Some seq) then (seq, msgs) :: in_sequence (Some (u64 (seq + 1))) blocks else []
  end.

Lemma feed_run_down next blocks : feed_run (next, false) blocks = ((next, false), []).
Proof. induction blocks as [|b blocks IH]; [done|]. cbn [feed_run]. by rewrite feed_step_down, IH. Qed.

Lemma feed_run_prefix blocks : forall next, let good := in_sequence next (omap id blocks) in
  snd (feed_run (next, true) blocks) = good ≫= snd /\ snd (fst (feed_run (next, true) blocks)) = bool_decide (length good = length (omap id blocks)).
Proof.
  induction blocks as [|b blocks IH]; intros next good; [done|]. cbn [feed_run]. destruct b as [[seq msgs]|].
  - cbn [feed_step]. subst good. cbn [omap list_omap id in_sequence]. destruct (bool_decide _) eqn:Eb.
    + destruct (IH (Some (u64 (seq + 1)))) as [E1 E2]. destruct (feed_run (Some (u64 (seq + 1)), true) blocks) as [st out]. cbn [fst snd] in *. rewrite E1, E2. split; [done|].
      cbn [length]. apply bool_decide_ext. lia.
    + rewrite feed_run_down. split; [done|]. symmetry. apply bool_decide_eq_false_2. cbn. lia.
  - rewrite feed_step_none. subst good. cbn [omap list_omap id]. destruct (IH next) as [E1 E2]. by destruct (feed_run (next, true) blocks).
Qed.
End feed.

(** ** The feed from its initialisation *)
Lemma arrives_all offset packets : 0 <= offset < 2 ^ 32 - 20 -> Forall slot_ok packets -> exists blocks, Forall2 (arrives offset) packets blocks.
Proof.
  intros Ho. induction 1 as [|p packets Hp Hps [blocks IH]]; [by exists []|]. assert (Hb : exists b, arrives offset p b).
  { destruct p as [p|]; [by apply arrives_total|]. by exists None. }
  destruct Hb as [b Hb]. exists (b :: blocks). by constructor.
Qed.

Lemma arrives_framable offset packets blocks : Forall2 (arrives offset) packets blocks -> Forall (fun b => Forall framable b.2) (omap id blocks).
Proof.
  induction 1 as [|p b packets blocks Hb _ IH]; [constructor|]. destruct b as [[seq msgs]|]; [|done]. cbn [omap list_omap id]. constructor; [|done].
  by destruct Hb as (p' & _ & data & head & _ & _ & _ & (_ & Hm & _) & _).
Qed.

Lemma in_sequence_framable blocks : forall next, Forall (fun b => Forall framable b.2) blocks -> Forall framable (in_sequence next blocks ≫= snd).
Proof.
  induction blocks as [|[seq msgs] blocks IH]; intros next Hb; [constructor|]. apply Forall_cons in Hb as [Hm Hb]. cbn [in_sequence]. case_if; [|constructor].
  change (Forall framable (msgs ++ (in_sequence (Some (u64 (seq + 1))) blocks ≫= snd))). apply Forall_app. split; [done|by apply IH].
Qed.

Lemma delivered_acceptable host_be symbols msgs q : symbols_ok symbols -> Forall framable msgs -> Forall acceptable (delivered host_be symbols msgs q).
Proof.
  intros Hs Hm. apply Forall_take, Forall_forall. intros t (m & Hin & Hd)%list_elem_of_omap. rewrite Forall_forall in Hm. destruct (Hm m Hin) as [Hb _].
  by apply (decoded_acceptable host_be symbols m).
Qed.

Lemma fresh_tracks cfg symbols host_be mapped file now : exists f, dpdk.init true 0 host_be mapped file now (dpdk.fresh cfg symbols) = Some (true, f) /\
  tracks symbols (dc_payload_offset cfg) (None, true) f /\ df_cfg f = cfg /\ df_total_msgs f = 0.
Proof. eexists. split; [reflexivity|]. split; [|done]. by split. Qed.

(** The ring is empty at first, and nothing is taken out of it. *)
Lemma live_history cfg (ops : list sym_op) host_be mapped file now rxs : let f0 := dpdk.fresh cfg (table_of ops) in
  0 <= dc_payload_offset cfg < 2 ^ 32 - 20 -> Forall (rx_ok f0) rxs ->
  exists f blocks good ticks f' r', dpdk.init true 0 host_be mapped file now f0 = Some (true, f) /\ Forall2 (arrives (dc_payload_offset cfg)) (received f0 rxs) blocks /\
    good = in_sequence None (omap id blocks) /\ ticks = delivered host_be (table_of ops) (good ≫= snd) [] /\
    dpdk.polls host_be rxs f fresh_ring = Some (received f0 rxs, (Z.of_nat (length ticks), f', r')) /\ tick_queue r' 0 ticks /\ Forall acceptable ticks /\
    dpdk.sequence_healthy f' = bool_decide (length good = length (omap id blocks)) /\ dpdk.total_messages f' = u64 (Z.of_nat (length ticks)).
Proof.
  intros f0 Ho Hrx. destruct (fresh_tracks cfg (table_of ops) host_be mapped file now) as (f & Hi & Ht & Hc & Hm).
  assert (Eb : burst f = burst f0) by (unfold burst; by rewrite Hc). assert (Er : received f rxs = received f0 rxs) by (unfold received; by rewrite Eb).
  assert (Hslots : Forall slot_ok (received f0 rxs)).
  { unfold received. apply Forall_bind. eapply Forall_impl; [exact Hrx|]. by intros rx [_ ?]. }
  destruct (arrives_all (dc_payload_offset cfg) _ Ho Hslots) as [blocks Hb].
  pose proof (polls_ok host_be (table_of ops) (table_of_ok ops) (dc_payload_offset cfg) Ho rxs blocks (None, true) f fresh_ring 0 []) as Hp.
  destruct (feed_run_prefix blocks None) as [Eout Eup]. destruct (feed_run (None, true) blocks) as [st' out]. cbn [fst snd] in Eout, Eup.
  destruct Hp as (result & Hpolls & Ha); [unfold rx_ok in *; by rewrite Eb|by rewrite Er|done|by apply fresh_holds|].
  destruct Ha as (f' & r' & Eres & Ht' & Hq & _ & Hm'). injection Eres as ->. rewrite app_nil_l in Hq.
  remember (delivered host_be (table_of ops) out []) as ticks eqn:Et. rewrite Z.add_0_l, Er in Hpolls. rewrite Hm, Z.add_0_l in Hm'. rewrite Eout in Et.
  exists f, blocks, (in_sequence None (omap id blocks)), ticks, f', r'. do 2 (split; [done|]). split; [reflexivity|]. split; [exact Et|]. split; [exact Hpolls|].
  split; [exact Hq|].
  split; [rewrite Et; apply delivered_acceptable; [apply table_of_ok|by eapply in_sequence_framable, arrives_framable]|].
  destruct Ht' as [[_ Hs] _ _ _ Hup _]. unfold dpdk.sequence_healthy, dpdk.total_messages. rewrite Hs, Hup. by split.
Qed.

(** C20: what the network feed delivers.  Let the feed be initialised on a
    working packet layer, with any table of symbols, and let any polls follow,
    each handed any packets (at most as many as its array holds; null pointers,
    packets in pieces, short, damaged or foreign packets among them).  Then no
    poll reads outside a packet; every packet is given back once and in order;
    the ring holds, in order and nothing else, the decodable messages of the
    well-formed MoldUDP64 packets up to the first one whose sequence number is
    not the successor of the one before it, as far as the ring has room; all of
    them are acceptable to the book; the results and [total_messages] count
    them; and [sequence_healthy] tells whether there was such a first one. *)
Theorem dpdk_feed_exact (cfg : DpdkConfig) (ops : list sym_op) (host_be mapped : bool) (file : option (list Z)) (now : Z)
    (rxs : list (Z * (Z -> list (option Packet)))) (f0 := dpdk.fresh cfg (table_of ops))
    (Hoffset : 0 <= dc_payload_offset cfg < 2 ^ 32 - 20) (Hrx : Forall (rx_ok f0) rxs) :
  exists f blocks good ticks f' r', dpdk.init true 0 host_be mapped file now f0 = Some (true, f) /\ Forall2 (arrives (dc_payload_offset cfg)) (received f0 rxs) blocks /\
    good = in_sequence None (omap id blocks) /\ ticks = delivered host_be (table_of ops) (good ≫= snd) [] /\
    dpdk.polls host_be rxs f fresh_ring = Some (received f0 rxs, (Z.of_nat (length ticks), f', r')) /\ tick_queue r' 0 ticks /\ Forall acceptable ticks /\
    dpdk.sequence_healthy f' = bool_decide (length good = length (omap id blocks)) /\ dpdk.total_messages f' = u64 (Z.of_nat (length ticks)).
Proof. exact (live_history cfg ops host_be mapped file now rxs Hoffset Hrx). Qed.

(** MoldUDP64 numbers messages: a packet of [n] messages is followed by the one
    whose number is greater by [n].  The tracker counts packets, so a stream of
    a conforming sender stops at the first packet that does not hold exactly one
    message (a heartbeat holds none). *)
Theorem dpdk_message_numbers_stop_feed (cfg : DpdkConfig) (ops : list sym_op) (host_be mapped : bool) (file : option (list Z)) (now : Z)
    (rxs : list (Z * (Z -> list (option Packet)))) (f0 := dpdk.fresh cfg (table_of ops)) (p1 p2 : Packet) (rest : list (option Packet))
    (seq : Z) (msgs msgs' : list (list Z)) (Hoffset : 0 <= dc_payload_offset cfg < 2 ^ 32 - 20) (Hrx : Forall (rx_ok f0) rxs)
    (Hreceived : received f0 rxs = Some p1 :: Some p2 :: rest) (H1 : carries (dc_payload_offset cfg) p1 seq msgs)
    (H2 : carries (dc_payload_offset cfg) p2 (u64 (seq + Z.of_nat (length msgs))) msgs') (Hcount : Z.of_nat (length msgs) <> 1) (Hsmall : Z.of_nat (length msgs) < 2 ^ 16) :
  exists f f' r' ticks, dpdk.init true 0 host_be mapped file now f0 = Some (true, f) /\ ticks = delivered host_be (table_of ops) msgs [] /\
    dpdk.polls host_be rxs f fresh_ring = Some (received f0 rxs, (Z.of_nat (length ticks), f', r')) /\ tick_queue r' 0 ticks /\ dpdk.sequence_healthy f' = false.
Proof.
  destruct (live_history cfg ops host_be mapped file now rxs Hoffset Hrx) as (f & blocks & good & ticks & f' & r' & Hi & Hb & Hg & Et & Hrun & Hq & _ & Hup & _).
  fold f0 in Hb. rewrite Hreceived in Hb. apply Forall2_cons_inv_l in Hb as (b1 & bs1 & Hb1 & Hb' & ->). apply Forall2_cons_inv_l in Hb' as (b2 & bs2 & Hb2 & _ & ->).
  rewrite (arrives_carried _ _ _ _ _ Hb1 H1), (arrives_carried _ _ _ _ _ Hb2 H2) in *. cbn [omap list_omap id] in *.
  assert (Hne : u64 (seq + 1) <> u64 (seq + Z.of_nat (length msgs))).
  { unfold wrap_u. intros E. apply (f_equal (fun z => (z - seq) mod 2 ^ 64)) in E. rewrite !Zminus_mod_idemp_l in E.
    replace (seq + 1 - seq) with 1 in E by lia. replace (seq + Z.of_nat (length msgs) - seq) with (Z.of_nat (length msgs)) in E by lia. rewrite !Z.mod_small in E by lia. lia. }
  assert (Eg : good = [(seq, msgs)]).
  { rewrite Hg. cbn [in_sequence]. rewrite (bool_decide_eq_true_2 (None = None \/ _)) by by left. rewrite bool_decide_eq_false_2 by (intros [|]; congruence). done. }
  assert (E : good ≫= snd = msgs) by (rewrite Eg; cbn; apply app_nil_r). rewrite E in Et. rewrite bool_decide_eq_false_2 in Hup by (rewrite Eg; cbn [length]; lia).
  exists f, f', r', ticks. by split_and!.
Qed.

(** *** Two packets *)
Definition demo_header (seq count : Z) : list Z := replicate 10 0 ++ put_u64_be seq ++ put_u16_be count.
Definition demo_packet (seq : Z) (msgs : list (list Z)) : option Packet :=
  let data := replicate 42 0 ++ demo_header seq (Z.of_nat (length msgs)) ++ frames msgs in Some (mkPacket true (Z.of_nat (length data)) (Some data)).
Definition demo_delete : list Z := delete_message 1.
Definition demo_rx (packets : list (option Packet)) : Z * (Z -> list (option Packet)) := (0, fun n => take (Z.to_nat n) packets).
Definition demo_polls : list (Z * (Z -> list (option Packet))) :=
  [demo_rx [demo_packet 5 [demo_delete; demo_delete]; None]; demo_rx [demo_packet 6 [demo_delete]]; demo_rx [demo_packet 9 [demo_delete]; demo_packet 10 [demo_delete]]].

Lemma slot_check data : bool_decide (bytes_ok data) = true -> Z.of_nat (length data) < 2 ^ 32 -> slot_ok (Some (mkPacket true (Z.of_nat (length data)) (Some data))).
Proof. intros Hb%bool_decide_eq_true_1 Hl. split; [unfold in_u; cbn; lia|]. by intros d _ [= <-]. Qed.

Lemma demo_packet_ok seq n : in_u 64 seq -> (n < 3)%nat -> slot_ok (demo_packet seq (replicate n demo_delete)).
Proof.
  intros Hs Hn. apply slot_check.
  - apply bool_decide_eq_true_2. assert (Hd : Forall bytes_ok (replicate n (frame demo_delete))) by (apply Forall_replicate, (bool_decide_unpack _); by vm_compute).
    apply Forall_app. split; [apply (bool_decide_unpack _); by vm_compute|]. apply Forall_app. split.
    + apply Forall_app. split; [apply (bool_decide_unpack _); by vm_compute|]. apply Forall_app. split; [apply byte_lists|exact (proj1 byte_lists _)].
    + unfold frames. apply Forall_bind. induction n as [|n IH]; [constructor|]. cbn [replicate] in *. apply Forall_cons in Hd as [Hd1 Hd]. constructor; [exact Hd1|]. apply IH; [lia|exact Hd].
  - destruct n as [|[|[|n]]]; [by vm_compute|by vm_compute|by vm_compute|lia].
Qed.

Lemma demo_polls_ok : Forall (rx_ok (dpdk.fresh default_dpdk (table_of []))) demo_polls.
Proof.
  assert (Hp : forall seq n, in_u 64 seq -> (n < 3)%nat -> slot_ok (demo_packet seq (replicate n demo_delete))) by apply demo_packet_ok.
  constructor; [|constructor; [|constructor; [|constructor]]]; (split; [done|]); cbn [demo_rx snd].
  - constructor; [apply (Hp 5 2%nat); [unfold in_u|]; lia|]. constructor; [done|constructor].
  - constructor; [apply (Hp 6 1%nat); [unfold in_u|]; lia|constructor].
  - constructor; [apply (Hp 9 1%nat); [unfold in_u|]; lia|]. constructor; [apply (Hp 10 1%nat); [unfold in_u|]; lia|constructor].
Qed.

Lemma dpdk_feed_exact_witness : exists f blocks good ticks f' r', dpdk.init true 0 false true None 0 (dpdk.fresh default_dpdk (table_of [])) = Some (true, f) /\
  good = in_sequence None (omap id blocks) /\ dpdk.polls false demo_polls f fresh_ring = Some (received (dpdk.fresh default_dpdk (table_of [])) demo_polls, (3, f', r')) /\
  tick_queue r' 0 ticks /\ length ticks = 3%nat /\ dpdk.sequence_healthy f' = false /\ good <> omap id blocks.
Proof.
  destruct (dpdk_feed_exact default_dpdk [] false true None 0 demo_polls ltac:(cbn; lia) demo_polls_ok) as
    (f & blocks & good & ticks & f' & r' & Hi & _ & Hg & _ & Hrun & Hq & _ & Hup & _).
  assert (Ec : (fun x => (x.2.1.1, dpdk.sequence_healthy x.2.1.2)) <$> dpdk.polls false demo_polls f fresh_ring = Some (3, false)).
  { cbn in Hi. injection Hi as <-. vm_compute. reflexivity. }
  rewrite Hrun in Ec. apply (inj Some) in Ec. cbn [fst snd] in Ec. apply pair_eq in Ec as [En Eh]. exists f, blocks, good, ticks, f', r'.
  split; [exact Hi|]. split; [exact Hg|]. split; [rewrite <- En; exact Hrun|]. split; [exact Hq|]. split; [lia|]. split; [exact Eh|].
  intros E. rewrite Eh in Hup. symmetry in Hup. apply bool_decide_eq_false_1 in Hup. apply Hup. by rewrite E.
Defined.

(** ** The network feed in the pipeline *)
Section source.
Context (host_be : bool) (cfg : DpdkConfig) (Hoffset : 0 <= dc_payload_offset cfg < 2 ^ 32 - 20).
Context (ops : list sym_op) (io : Z -> Z -> list (option Packet)).

(** [io now] is what [packet_io_rx] does at the time [now]. *)
Context (Hio : forall now, rx_ok (dpdk.fresh cfg (table_of ops)) (now, io now)).

Lemma feed_run_framable blocks : forall st, Forall (fun b => Forall framable b.2) (omap id blocks) -> Forall framable (feed_run st blocks).2.
Proof.
  induction blocks as [|b blocks IH]; intros st Hb; [constructor|]. cbn [feed_run]. destruct b as [[seq msgs]|].
  - cbn [omap list_omap id] in Hb. apply Forall_cons in Hb as [Hm Hb]. destruct (feed_step st (Some (seq, msgs))) as [st1 out] eqn:E.
    specialize (IH st1 Hb). destruct (feed_run st1 blocks) as [st2 rest]. apply Forall_app. split; [|done].
    unfold feed_step in E. destruct st as [next []]; [|injection E as _ <-; constructor]. destruct (bool_decide _); injection E as _ <-; [done|constructor].
  - rewrite feed_step_none. specialize (IH st Hb). by destruct (feed_run st blocks).
Qed.

Definition dpdk_ready (f : DpdkFeedSource) : Prop := df_cfg f = cfg /\ exists st, tracks (table_of ops) (dc_payload_offset cfg) st f.

Definition dpdk_poll (now : Z) (f : DpdkFeedSource) (r : TickRing) : option (Z * DpdkFeedSource * TickRing) := snd <$> dpdk.poll host_be now (io now) f r.

Lemma dpdk_appends now f r base q : dpdk_ready f -> tick_queue r base q ->
  exists f' r' new, dpdk_poll now f r = Some (Z.of_nat (length new), f', r') /\ dpdk_ready f' /\ tick_queue r' base (q ++ new) /\ Forall acceptable new.
Proof.
  intros [Hc [st Ht]] Hq. assert (Eb : burst f = burst (dpdk.fresh cfg (table_of ops))) by (unfold burst; by rewrite Hc).
  assert (Hrx : rx_ok f (now, io now)) by (unfold rx_ok; rewrite Eb; apply Hio).
  destruct (arrives_all (dc_payload_offset cfg) (io now (burst f)) Hoffset (proj2 Hrx)) as [blocks Hb].
  pose proof (poll_ok host_be (table_of ops) (table_of_ok ops) (dc_payload_offset cfg) Hoffset now (io now) blocks st f r base q Hrx Hb Ht Hq) as Hp.
  pose proof (feed_run_framable blocks st (arrives_framable _ _ _ Hb)) as Hms. destruct (feed_run st blocks) as [st' out].
  destruct Hp as (result & Hpoll & f' & r' & Eres & Ht' & Hq' & Hc' & _). injection Eres as ->. unfold dpdk_poll. rewrite Hpoll.
  exists f', r', (delivered host_be (table_of ops) out q). split; [done|]. split; [split; [congruence|by exists st']|]. split; [done|]. apply delivered_acceptable; [apply table_of_ok|done].
Qed.

#[export] Instance dpdk_source : FeedSource DpdkFeedSource := {| feed_poll := dpdk_poll |}.

(** The messages read are not told apart here: all that are forwarded count. *)
#[export] Instance dpdk_laws : FeedLaws DpdkFeedSource (fun _ => dpdk_ready).
Proof.
  constructor. intros v now f r base q Hf Hq. destruct (dpdk_appends now f r base q Hf Hq) as (f' & r' & new & Hp & Hf' & Hq' & Ha).
  exists f', r', ((fun t => mkVisit (Some t) false) <$> new).
  assert (E : forwarded ((fun t => mkVisit (Some t) false) <$> new) = new) by (clear; induction new as [|t new IH]; [done|]; unfold forwarded in *; cbn in *; by rewrite IH).
  by rewrite E.
Qed.

(** From the network to the book: whatever arrives, every call succeeds, and the
    ring and the book hold as many ticks as the polls reported. *)
Theorem dpdk_to_book {Fe AI} `{TickSinks Fe AI} (mapped : bool) (file : option (list Z)) (now : Z) (fe fe' : Fe) (ai : option AI) (steps : list pipeline_step)
    (Hfe : features_init fe = (true, fe')) :
  exists f c past queued f' r' c', dpdk.init true 0 host_be mapped file now (dpdk.fresh cfg (table_of ops)) = Some (true, f) /\ new_consumer fe ai = (true, c) /\
    pipeline_run (H := dpdk_source) steps f c = Some (Z.of_nat (length (past ++ queued)), f', r', c') /\
    tick_queue r' (Z.of_nat (length past)) queued /\ Forall acceptable (past ++ queued) /\
    co_lob c' = run_ticks (filter (fun t => in_engine t = true) past).
Proof.
  destruct (fresh_tracks cfg (table_of ops) host_be mapped file now) as (f & Hi & Ht & Hc & _).
  destruct (pipeline_exact (H := dpdk_source) (fun _ => dpdk_ready) f fe fe' ai steps (conj Hc (ex_intro _ _ Ht)) Hfe) as (c & v & past & queued & f' & r' & c' & Hn & Hrun & _ & Ev & Hq & Ha & Hl & _).
  rewrite Ev in *. by exists f, c, past, queued, f', r', c'.
Qed.
End source.
