(* ===== verification/HttpWire.v ===== *)
(** * HTTP request framing (luv_wire_parse.hpp)

    [wire::request]: the request line, the header fields and the length of the
    body, from the bytes received so far. *)
From Stdlib Require Import ZArith Lia ZifyBool.
From Stdlib Require String Ascii.
From S2P Require Import Prelude Bytes Text ExecTypes WsFill.
Import String.StringSyntax.
#[local] Delimit Scope string_scope with str.

Module wire.
Inductive Status := incomplete | complete | invalid | too_large.
#[global] Instance Status_eq_dec : EqDecision Status.
Proof. solve_decision. Defined.

Record Request := mkRequest {
  status : Status;
  header_size : Z;            (* size_t *)
  required_size : Z;          (* size_t *)
  method : list Z;
  path : list Z;
}.

Definition lower (c : Z) : Z := if (65 <=? c) && (c <=? 90) then c + 32 else c.

Fixpoint equal (a b : list Z) : bool :=
  match a, b with
  | [], [] => true
  | x :: a, y :: b => (lower x =? lower y) && equal a b
  | _, _ => false
  end.

Definition token_punctuation : list Z := Eval vm_compute in bytes_of_string "!#$%&'*+-.^_`|~"%str.

Definition token (c : Z) : bool :=
  ((97 <=? c) && (c <=? 122)) || ((65 <=? c) && (c <=? 90)) || ((48 <=? c) && (c <=? 57))
  || match find [c] token_punctuation with Some _ => true | None => false end.

Definition blank (c : Z) : bool := (c =? 32) || (c =? 9).

Fixpoint trim_front (v : list Z) : list Z :=
  match v with
  | c :: r => if blank c then trim_front r else v
  | [] => []
  end.

Definition trim (v : list Z) : list Z := reverse (trim_front (reverse (trim_front v))).

Definition name_authorization : list Z := Eval vm_compute in bytes_of_string "authorization"%str.
Definition name_host : list Z := Eval vm_compute in bytes_of_string "host"%str.
Definition name_upgrade : list Z := Eval vm_compute in bytes_of_string "upgrade"%str.
Definition name_connection : list Z := Eval vm_compute in bytes_of_string "connection"%str.
Definition name_websocket_key : list Z := Eval vm_compute in bytes_of_string "sec-websocket-key"%str.
Definition name_websocket_version : list Z := Eval vm_compute in bytes_of_string "sec-websocket-version"%str.
Definition name_transfer_encoding : list Z := Eval vm_compute in bytes_of_string "transfer-encoding"%str.
Definition name_content_length : list Z := Eval vm_compute in bytes_of_string "content-length"%str.
Definition version_text : list Z := Eval vm_compute in bytes_of_string "HTTP/1.1"%str.

Definition unique : list (list Z) :=
  [name_authorization; name_host; name_upgrade; name_connection; name_websocket_key; name_websocket_version].

(** What the loop over the fields keeps. *)
Record Framing := mkFraming { fm_length : Z; fm_seen_length : bool; fm_seen : Z }.

(** The inner loop over [unique], from its [i]-th entry; [None] is a duplicate. *)
Fixpoint check_unique (i : Z) (names : list (list Z)) (name : list Z) (seen : Z) : option Z :=
  match names with
  | [] => Some seen
  | u :: names =>
      if equal name u then
        if negb (Z.land seen (Z.shiftl 1 i) =? 0) then None
        else check_unique (i + 1) names name (Z.lor seen (Z.shiftl 1 i))
      else check_unique (i + 1) names name seen
  end.

Fixpoint add_digits (value : list Z) (length : Z) : Status + Z :=
  match value with
  | [] => inr length
  | c :: value =>
      if (c <? 48) || (57 <? c) then inl invalid
      else
        let digit := c - 48 in
        if (UINT64_MAX - digit) / 10 <? length then inl too_large
        else add_digits value (length * 10 + digit)
  end.

(** One header field: the failure or the framing behind it. *)
Definition field_step (field : list Z) (fm : Framing) : Status + Framing :=
  match find [58] field with
  | None | Some O => inl invalid
  | Some colon =>
      let name := take colon field in
      if negb (forallb token name) then inl invalid
      else
        let value := trim (drop (S colon) field) in
        if existsb (fun c => ((c <? 32) && negb (c =? 9)) || (c =? 127)) value then inl invalid
        else
          match check_unique 0 unique name (fm_seen fm) with
          | None => inl invalid
          | Some seen =>
              if equal name name_transfer_encoding then inl invalid
              else if equal name name_content_length then
                if fm_seen_length fm || bool_decide (value = []) then inl invalid
                else
                  match add_digits value (fm_length fm) with
                  | inl s => inl s
                  | inr length => inr (mkFraming length true seen)
                  end
              else inr (mkFraming (fm_length fm) (fm_seen_length fm) seen)
          end
  end.

(** The loop over the fields; [None] when no line end follows a field. *)
Fixpoint fields_loop (fuel : nat) (bytes : list Z) (pos end_ : nat) (fm : Framing) : option (Status + Framing) :=
  if (end_ <=? pos)%nat then Some (inr fm)
  else
    match fuel with
    | O => None
    | S fuel =>
        next ← find_at CRLF bytes pos;
        match field_step (substr pos (next - pos) bytes) fm with
        | inl s => Some (inl s)
        | inr fm => fields_loop fuel bytes (next + 2) end_ fm
        end
    end.

Definition request (bytes : list Z) (limit : Z) : option Request :=
  match find (CRLF ++ CRLF) bytes with
  | None => Some (mkRequest (if limit <=? Z.of_nat (length bytes) then too_large else incomplete) 0 0 [] [])
  | Some end_ =>
      let size := Z.of_nat end_ + 4 in
      let fail s m p := Some (mkRequest s size 0 m p) in
      if limit <? size then fail too_large [] []
      else
        first ← find CRLF bytes;
        let line := take first bytes in
        match find [32] line with
        | None => fail invalid [] []
        | Some space =>
            let m := take space line in
            let line := drop (S space) line in
            match find [32] line with
            | None => fail invalid m []
            | Some space =>
                let p := take space line in
                if bool_decide (m = []) || (7 <? Z.of_nat (length m)) || bool_decide (p = []) || (127 <? Z.of_nat (length p))
                   || negb (hd 0 p =? 47) || negb (bool_decide (drop (S space) line = version_text)) then fail invalid m p
                else if negb (forallb token m) then fail invalid m p
                else if existsb (fun c => (c <=? 32) || (127 <=? c)) p then fail invalid m p
                else
                  r ← fields_loop (length bytes) bytes (first + 2) end_ (mkFraming 0 false 0);
                  match r with
                  | inl s => fail s m p
                  | inr fm =>
                      if limit - size <? fm_length fm then fail too_large m p
                      else
                        let required := size + fm_length fm in
                        Some (mkRequest (if Z.of_nat (length bytes) <? required then incomplete else complete) size required m p)
                  end
            end
        end
  end.
End wire.
