(* ===== verification/HttpRequest.v ===== *)
(** * What the request parser accepts

    Request heads as data, their text, and the proof that [wire::request]
    recognises exactly the prefixes of well-formed requests: no header is
    ambiguous, and the length of the body has one reading. *)
From Stdlib Require Import ZArith Lia ZifyBool.
From S2P Require Import Prelude Bytes Text ExecTypes WsFill HttpWire.
Import wire.

(** ** Heads *)
Record Head := mkHead {
  hd_method : list Z;
  hd_path : list Z;
  hd_fields : list (list Z * list Z);  (* name, text behind the colon *)
}.

Definition field_line (f : list Z * list Z) : list Z := f.1 ++ 58 :: f.2.
Definition request_line (h : Head) : list Z := hd_method h ++ 32 :: hd_path h ++ 32 :: version_text.
Definition lines (ls : list (list Z)) : list Z := concat ((fun l => l ++ CRLF) <$> ls).
Definition render (h : Head) : list Z := request_line h ++ CRLF ++ lines (field_line <$> hd_fields h) ++ CRLF.

Definition named (name : list Z) (f : list Z * list Z) : bool := equal f.1 name.
Definition fields_named (name : list Z) (fs : list (list Z * list Z)) : list (list Z * list Z) := filter (fun f => named name f) fs.
Definition value_of (f : list Z * list Z) : list Z := trim f.2.

Definition plain (c : Z) : Prop := ((c <? 32) && negb (c =? 9)) || (c =? 127) = false.
Definition visible (c : Z) : Prop := (c <=? 32) || (127 <=? c) = false.

Record field_ok (f : list Z * list Z) : Prop := {
  fo_name : f.1 <> [];
  fo_token : forallb token f.1 = true;
  fo_value : Forall plain (value_of f);
  fo_encoding : named name_transfer_encoding f = false;
  fo_length : named name_content_length f = true -> value_of f <> [] /\ Forall digit (value_of f);
}.

(** The fields are fine and none of the framing fields appears twice. *)
Record fields_ok (fs : list (list Z * list Z)) : Prop := {
  fs_each : Forall field_ok fs;
  fs_unique : forall u, u ∈ unique -> (length (fields_named u fs) <= 1)%nat;
  fs_length : (length (fields_named name_content_length fs) <= 1)%nat;
}.

Record head_ok (h : Head) : Prop := {
  ho_method : hd_method h <> [] /\ (length (hd_method h) <= 7)%nat /\ forallb token (hd_method h) = true;
  ho_path : hd 0 (hd_path h) = 47 /\ (length (hd_path h) <= 127)%nat /\ Forall visible (hd_path h);
  ho_fields : fields_ok (hd_fields h);
}.

Definition content_length (fs : list (list Z * list Z)) : Z :=
  match fields_named name_content_length fs with
  | f :: _ => digits_value (value_of f)
  | [] => 0
  end.

(** ** Characters *)
Lemma find_char_mem c s : (exists k, find [c] s = Some k) <-> c ∈ s.
Proof.
  destruct (find [c] s) as [k|] eqn:E; split; intros H.
  - apply find_char_Some in E as [-> _]. set_solver.
  - eauto.
  - by destruct H.
  - by apply find_char_None in E.
Qed.

Lemma token_range c : token c = true -> 33 <= c <= 126 /\ c <> 58.
Proof.
  unfold token. rewrite !orb_true_iff, !andb_true_iff. intros H.
  destruct (find [c] token_punctuation) as [k|] eqn:E; [|destruct H as [[[]|]|]; lia || done].
  assert (Hm : c ∈ token_punctuation) by (apply find_char_mem; eauto). clear -Hm.
  unfold token_punctuation in Hm. rewrite !elem_of_cons, elem_of_nil in Hm. lia.
Qed.

Lemma tokens_range c l : forallb token l = true -> c ∈ l -> 33 <= c <= 126 /\ c <> 58.
Proof. intros Ht Hc. rewrite forallb_forall in Ht. apply token_range, Ht. by apply list_elem_of_In. Qed.

Lemma trim_front_split v : exists a, v = a ++ trim_front v /\ Forall (fun c => blank c = true) a.
Proof.
  induction v as [|c v [a [E Ha]]]; [by exists []|]. cbn [trim_front]. destruct (blank c) eqn:B; [|by exists []].
  exists (c :: a). cbn. rewrite <- E. split; [done|by constructor].
Qed.

Lemma trim_split v : exists a b, v = a ++ trim v ++ b /\ Forall (fun c => blank c = true) (a ++ b).
Proof.
  destruct (trim_front_split v) as (a & E & Ha). destruct (trim_front_split (reverse (trim_front v))) as (b & E' & Hb).
  exists a, (reverse b). split; [|apply Forall_app; split; [done|by apply Forall_reverse]].
  rewrite E at 1. f_equal. unfold trim. rewrite <- reverse_app, <- E'. by rewrite reverse_involutive.
Qed.

Lemma field_char f c : field_ok f -> c ∈ field_line f -> 32 <= c \/ c = 9.
Proof.
  intros [_ Ht Hv _ _]. unfold field_line. rewrite elem_of_app, elem_of_cons. intros [Hc|[->|Hc]]; [|lia|].
  - destruct (tokens_range _ _ Ht Hc). lia.
  - destruct (trim_split f.2) as (a & b & E & Hb). rewrite E in Hc. rewrite Forall_forall in Hb.
    unfold value_of in Hv. rewrite Forall_forall in Hv. rewrite elem_of_app, elem_of_app in Hc. unfold plain, blank in *.
    destruct Hc as [Hc|[Hc|Hc]]; [specialize (Hb c ltac:(set_solver))|specialize (Hv c Hc)|specialize (Hb c ltac:(set_solver))]; lia.
Qed.

Lemma request_line_char h c : head_ok h -> c ∈ request_line h -> 32 <= c.
Proof.
  intros [(_ & _ & Ht) (_ & _ & Hv) _]. unfold request_line. rewrite elem_of_app, elem_of_cons, elem_of_app, elem_of_cons.
  rewrite Forall_forall in Hv. unfold visible in Hv.
  intros [Hc|[->|[Hc|[->|Hc]]]]; [destruct (tokens_range _ _ Ht Hc); lia|lia|specialize (Hv c Hc); lia|lia|].
  unfold version_text in Hc. rewrite !elem_of_cons, elem_of_nil in Hc. lia.
Qed.

(** ** Lines *)
Definition clean (l : list Z) : Prop := find CRLF l = None.

Lemma clean_chars l : 13 ∉ l -> clean l.
Proof. intros H. apply find_first_None. intros a r ->. apply H. set_solver. Qed.

Lemma find_CRLF l s : clean l -> find CRLF (l ++ CRLF ++ s) = Some (length l).
Proof.
  intros Hc. apply find_first_Some. split; [by exists l, s|]. intros l' r' E. destruct (decide (length l <= length l')%nat); [done|].
  exfalso. unfold clean in Hc. rewrite find_first_None in Hc. apply app_eq_inv in E as [(k & -> & E)|(k & -> & E)].
  - destruct k as [|c [|c' k]]; cbn in *; [rewrite app_nil_r in *; lia|by inversion E|].
    injection E as <- <- E. by apply (Hc l' k).
  - rewrite length_app in *. lia.
Qed.

Lemma starts_false_app p l : starts p l = false <-> forall r, l <> p ++ r.
Proof.
  split.
  - intros H r E. assert (starts p l = true) by (apply starts_iff; eauto). congruence.
  - intros H. destruct (starts p l) eqn:E; [|done]. apply starts_iff in E as [r E]. by destruct (H r).
Qed.

Lemma clean_cons c l : clean (c :: l) -> clean l.
Proof. unfold clean. rewrite !find_first_None. intros H a r ->. by apply (H (c :: a) r). Qed.

(** The blank line is the first line end that another one follows. *)
Lemma find_blank_line l s : clean l ->
  find (CRLF ++ CRLF) (l ++ CRLF ++ s) = if starts CRLF s then Some (length l) else Nat.add (length l + 2) <$> find (CRLF ++ CRLF) s.
Proof.
  induction l as [|c l IH]; intros Hc.
  - cbn [app length]. change (CRLF ++ s) with (13 :: 10 :: s). destruct (starts CRLF s) eqn:E.
    + apply starts_iff in E as [r ->]. done.
    + cbn [find]. change (starts (CRLF ++ CRLF) (13 :: 10 :: s)) with (starts CRLF s). rewrite E.
      change (starts (CRLF ++ CRLF) (10 :: s)) with false. cbn match. by destruct (find (CRLF ++ CRLF) s).
  - cbn [find app length]. rewrite (proj2 (starts_false_app _ _)).
    2:{ intros r E. destruct l as [|c' l]; cbn in E; [by inversion E|]. injection E as -> -> E.
        unfold clean in Hc. rewrite find_first_None in Hc. by apply (Hc [] l). }
    rewrite (IH (clean_cons _ _ Hc)). destruct (starts CRLF s); [done|]. by destruct (find (CRLF ++ CRLF) s).
Qed.

Lemma lines_cons l ls : lines (l :: ls) = l ++ CRLF ++ lines ls.
Proof. unfold lines. cbn. by rewrite <- app_assoc. Qed.

Lemma find_blank l0 ls r : clean l0 -> Forall (fun l => clean l /\ l <> []) ls ->
  find (CRLF ++ CRLF) (l0 ++ CRLF ++ lines ls ++ CRLF ++ r) = Some (length (l0 ++ lines ls)).
Proof.
  intros Hl0 Hls. revert l0 Hl0. induction Hls as [|l ls [Hl Hne] _ IH]; intros l0 Hl0; rewrite find_blank_line by done.
  - cbn [lines concat fmap list_fmap app]. by rewrite starts_app, app_nil_r.
  - rewrite lines_cons, (proj2 (starts_false_app _ _)).
    + rewrite <- !app_assoc, IH by done. cbn [fmap option_fmap option_map]. f_equal. rewrite !length_app. cbn [length CRLF]. lia.
    + intros s E. destruct l as [|c [|c' l]]; [done| |]; cbn in E; [by inversion E|]. injection E as -> -> E.
      unfold clean in Hl. rewrite find_first_None in Hl. by apply (Hl [] l).
Qed.

(** A buffer with a blank line, as lines. *)
Lemma cut_lines bytes k : find (CRLF ++ CRLF) bytes = Some k ->
  exists l0 ls r, bytes = l0 ++ CRLF ++ lines ls ++ CRLF ++ r /\ clean l0 /\ Forall (fun l => clean l /\ l <> []) ls.
Proof.
  revert bytes. induction k as [k IH] using lt_wf_ind. intros bytes Hk.
  destruct (find CRLF bytes) as [j|] eqn:Hj.
  2:{ exfalso. apply find_split in Hk. rewrite find_first_None in Hj. apply (Hj (take k bytes) (CRLF ++ drop (k + 4) bytes)).
      rewrite Hk at 1. by rewrite <- app_assoc. }
  apply find_first_Some in Hj as [(l0 & s & -> & Hj) Hmin].
  assert (Hl0 : clean l0).
  { apply find_first_None. intros a r ->. specialize (Hmin a (r ++ CRLF ++ s) ltac:(by rewrite <- !app_assoc)).
    rewrite !length_app in *. cbn in *. lia. }
  rewrite find_blank_line in Hk by done. destruct (starts CRLF s) eqn:Hs.
  - apply starts_iff in Hs as [r ->]. by exists l0, [], r.
  - apply fmap_Some in Hk as (k' & Hk' & ->). destruct (IH k' ltac:(lia) s Hk') as (l1 & ls & r & -> & Hl1 & Hls).
    exists l0, (l1 :: ls), r. split; [by rewrite lines_cons, <- !app_assoc|].
    split; [done|]. constructor; [split; [done|]|done]. intros ->. done.
Qed.


Lemma lines_length l ls : (length l + 2 + length (lines ls))%nat = length (lines (l :: ls)).
Proof. rewrite lines_cons, !length_app. cbn. lia. Qed.

(** ** The loop over the fields, line by line *)
Fixpoint steps (ls : list (list Z)) (fm : Framing) : Status + Framing :=
  match ls with
  | [] => inr fm
  | l :: ls =>
      match field_step l fm with
      | inl s => inl s
      | inr fm => steps ls fm
      end
  end.

Lemma fields_loop_steps fuel pre ls r fm : Forall (fun l => clean l /\ l <> []) ls -> (length ls <= fuel)%nat ->
  fields_loop fuel (pre ++ lines ls ++ CRLF ++ r) (length pre) (length (pre ++ lines ls) - 2) fm = Some (steps ls fm).
Proof.
  intros Hls. revert fuel pre fm. induction Hls as [|l ls [Hl Hne] Hls IH]; intros fuel pre fm Hf.
  - destruct fuel; cbn [fields_loop steps]; rewrite length_app; cbn [lines fmap list_fmap concat length];
      destruct (Nat.leb_spec (length pre + 0 - 2) (length pre)); done || lia.
  - destruct fuel as [|fuel]; [cbn in Hf; lia|]. cbn [fields_loop steps]. rewrite length_app, <- lines_length.
    assert (0 < length l)%nat by (destruct l; [done|cbn; lia]).
    destruct (Nat.leb_spec (length pre + (length l + 2 + length (lines ls)) - 2) (length pre)); [lia|].
    unfold find_at, substr. rewrite drop_app_length, lines_cons, <- !app_assoc, find_CRLF by done. cbn [fmap option_fmap option_map mbind option_bind].
    replace (length pre + length l - length pre)%nat with (length l) by lia. rewrite take_app_length.
    destruct (field_step l fm) as [s|fm']; [done|].
    replace (length pre + length l + 2)%nat with (length (pre ++ l ++ CRLF)) by (rewrite !length_app; cbn; lia).
    replace (pre ++ l ++ CRLF ++ lines ls ++ CRLF ++ r) with ((pre ++ l ++ CRLF) ++ lines ls ++ CRLF ++ r) by by rewrite <- !app_assoc.
    replace (length pre + (length l + 2 + length (lines ls)) - 2)%nat with (length ((pre ++ l ++ CRLF) ++ lines ls) - 2)%nat
      by (rewrite !length_app; cbn; lia).
    apply IH. cbn in Hf. lia.
Qed.

(** ** One field *)
Lemma land_bit_zero a i : 0 <= i -> (Z.land a (Z.shiftl 1 i) =? 0) = negb (Z.testbit a i).
Proof.
  intros Hi. rewrite Z.shiftl_1_l. destruct (Z.testbit a i) eqn:E; cbn.
  - apply Z.eqb_neq. intros H. assert (Ht : Z.testbit (Z.land a (2 ^ i)) i = true) by (by rewrite Z.land_spec, E, Z.pow2_bits_true).
    by rewrite H, Z.bits_0 in Ht.
  - apply Z.eqb_eq, Z.bits_inj'. intros j Hj. rewrite Z.land_spec, Z.bits_0, Z.pow2_bits_eqb by done.
    destruct (Z.eqb_spec i j) as [<-|]; [by rewrite E|apply andb_false_r].
Qed.

Lemma check_unique_spec names name : forall i seen, 0 <= i ->
  match check_unique i names name seen with
  | Some seen' =>
      (forall j u, names !! j = Some u -> equal name u = true -> Z.testbit seen (i + Z.of_nat j) = false) /\
      (forall k, 0 <= k -> Z.testbit seen' k = true <->
         Z.testbit seen k = true \/ exists j u, names !! j = Some u /\ equal name u = true /\ k = i + Z.of_nat j)
  | None => exists j u, names !! j = Some u /\ equal name u = true /\ Z.testbit seen (i + Z.of_nat j) = true
  end.
Proof.
  induction names as [|u names IH]; intros i seen Hi; cbn [check_unique].
  - split; [done|]. intros k Hk. split; [by left|]. intros [H|(j & u & [=] & _)]; done.
  - assert (Hshift : forall j : nat, i + 1 + Z.of_nat j = i + Z.of_nat (S j)) by lia.
    destruct (equal name u) eqn:Eu.
    + rewrite land_bit_zero, negb_involutive by done. destruct (Z.testbit seen i) eqn:Et.
      { exists 0%nat, u. rewrite Z.add_0_r. done. }
      specialize (IH (i + 1) (Z.lor seen (Z.shiftl 1 i)) ltac:(lia)).
      assert (Hbit : forall k, 0 <= k -> Z.testbit (Z.lor seen (Z.shiftl 1 i)) k = Z.testbit seen k || (i =? k)).
      { intros k Hk. by rewrite Z.lor_spec, Z.shiftl_1_l, Z.pow2_bits_eqb. }
      destruct (check_unique (i + 1) names name (Z.lor seen (Z.shiftl 1 i))) as [seen'|].
      * destruct IH as [H1 H2]. split.
        -- intros [|j] v; cbn; [intros [= <-] _; by rewrite Z.add_0_r|]. intros Hv Hn. specialize (H1 j v Hv Hn).
           rewrite Hshift, Hbit in H1 by lia. by apply orb_false_iff in H1 as [? _].
        -- intros k Hk. rewrite H2, Hbit, orb_true_iff, Z.eqb_eq by done. split.
           ++ intros [[H|<-]|(j & v & Hv & Hn & ->)]; [by left|right; exists 0%nat, u; rewrite Z.add_0_r; done|].
              right. exists (S j), v. by rewrite <- Hshift.
           ++ intros [H|([|j] & v & Hv & Hn & ->)]; [by left; left|left; right; lia|]. right. exists j, v. by rewrite Hshift.
      * destruct IH as (j & v & Hv & Hn & Hb). rewrite Hshift, Hbit in Hb by lia. exists (S j), v.
        destruct (Z.eqb_spec i (i + Z.of_nat (S j))); [lia|]. by rewrite orb_false_r in Hb.
    + specialize (IH (i + 1) seen ltac:(lia)). destruct (check_unique (i + 1) names name seen) as [seen'|].
      * destruct IH as [H1 H2]. split.
        -- intros [|j] v; cbn; [intros [= <-]; congruence|]. rewrite <- Hshift. apply H1.
        -- intros k Hk. rewrite H2 by done. split.
           ++ intros [H|(j & v & Hv & Hn & ->)]; [by left|]. right. exists (S j), v. by rewrite <- Hshift.
           ++ intros [H|([|j] & v & Hv & Hn & ->)]; [by left|cbn in Hv; congruence|]. right. exists j, v. by rewrite Hshift.
      * destruct IH as (j & v & Hv & Hn & Hb). exists (S j), v. by rewrite <- Hshift.
Qed.

Lemma add_digits_spec v : forall acc, 0 <= acc <= UINT64_MAX ->
  let total := foldl (fun a c => a * 10 + (c - 48)) acc v in
  match add_digits v acc with
  | inr n => Forall digit v /\ n = total /\ 0 <= n <= UINT64_MAX
  | inl too_large => Forall digit v -> UINT64_MAX < total
  | inl invalid => ~ Forall digit v
  | inl _ => False
  end.
Proof.
  induction v as [|c v IH]; intros acc Hacc; cbn [add_digits foldl]; [done|]. cbn zeta.
  case_if; [rewrite Forall_cons; unfold digit; lia|].
  assert (Hd : digit c) by (unfold digit; lia). unfold digit in Hd.
  assert (Hdiv : (UINT64_MAX - (c - 48)) / 10 < acc <-> UINT64_MAX < acc * 10 + (c - 48)).
  { pose proof (Z.div_mod (UINT64_MAX - (c - 48)) 10). pose proof (Z.mod_pos_bound (UINT64_MAX - (c - 48)) 10). lia. }
  case_if.
  - rewrite Forall_cons. intros [_ Hv]. assert (Hm : forall a w, Forall digit w -> UINT64_MAX < a -> UINT64_MAX < foldl (fun a c => a * 10 + (c - 48)) a w).
    { clear. intros a w Hw. revert a. induction Hw as [|c w Hc _ IH]; intros a Ha; [done|]. cbn. apply IH. unfold digit in Hc. lia. }
    apply Hm; [done|lia].
  - specialize (IH (acc * 10 + (c - 48)) ltac:(lia)). cbn zeta in IH. destruct (add_digits v _) as [[]|n]; rewrite ?Forall_cons; try tauto.
    split; [split; [done|tauto]|tauto].
Qed.

Lemma fields_named_snoc u fs f : fields_named u (fs ++ [f]) = fields_named u fs ++ (if named u f then [f] else []).
Proof.
  unfold fields_named. rewrite filter_app. f_equal. destruct (named u f) eqn:E.
  - by rewrite filter_cons_True by by rewrite E.
  - rewrite filter_cons_False; [done|]. rewrite E. intros [].
Qed.

Lemma at_most_one {A} (l : list A) x : (length l <= 1)%nat -> (length (l ++ [x]) <= 1)%nat <-> l = [].
Proof. intros Hl. rewrite length_app. cbn. destruct l; cbn in *; [split; [done|lia]|]. split; [lia|done]. Qed.

Lemma fields_ok_snoc fs f : fields_ok fs ->
  fields_ok (fs ++ [f]) <-> field_ok f /\ (forall u, u ∈ unique -> named u f = true -> fields_named u fs = []) /\
    (named name_content_length f = true -> fields_named name_content_length fs = []).
Proof.
  intros [He Hu Hl]. split.
  - intros [He' Hu' Hl']. apply Forall_app in He' as [_ Hf%Forall_inv]. split; [done|]. split.
    + intros u Hin Hn. specialize (Hu' u Hin). rewrite fields_named_snoc, Hn in Hu'. apply at_most_one in Hu'; auto.
    + intros Hn. rewrite fields_named_snoc, Hn in Hl'. by apply at_most_one in Hl'.
  - intros (Hf & Hu' & Hl'). split.
    + apply Forall_app. split; [done|by constructor].
    + intros u Hin. rewrite fields_named_snoc. destruct (named u f) eqn:E; [|rewrite app_nil_r; auto]. rewrite Hu'; done.
    + rewrite fields_named_snoc. destruct (named _ f) eqn:E; [|by rewrite app_nil_r]. rewrite Hl'; done.
Qed.

Lemma content_length_snoc fs f : (named name_content_length f = true -> fields_named name_content_length fs = []) ->
  content_length (fs ++ [f]) = if named name_content_length f then digits_value (value_of f) else content_length fs.
Proof.
  intros H. unfold content_length. rewrite fields_named_snoc. destruct (named _ f); [by rewrite H|by rewrite app_nil_r].
Qed.

(** The framing describes the fields read so far. *)
Record tracks (fs : list (list Z * list Z)) (fm : Framing) : Prop := {
  tk_seen : forall j u, unique !! j = Some u -> Z.testbit (fm_seen fm) (Z.of_nat j) = true <-> fields_named u fs <> [];
  tk_seen_length : fm_seen_length fm = true <-> fields_named name_content_length fs <> [];
  tk_length : fm_length fm = content_length fs;
  tk_range : 0 <= fm_length fm <= UINT64_MAX;
}.

Lemma field_line_colon f : field_ok f -> find [58] (field_line f) = Some (length f.1).
Proof.
  intros [_ Ht _ _ _]. apply (find_after 58 [] f.1 f.2). intros Hc. by destruct (tokens_range _ _ Ht Hc).
Qed.

Lemma plain_values v : existsb (fun c => ((c <? 32) && negb (c =? 9)) || (c =? 127)) v = false <-> Forall plain v.
Proof.
  rewrite Forall_forall. unfold plain. split.
  - intros H c Hc. apply not_true_iff_false. intros Ht. apply not_true_iff_false in H. apply H, existsb_exists. exists c.
    by rewrite <- list_elem_of_In.
  - intros H. apply not_true_iff_false. intros (c & Hc & Ht)%existsb_exists. rewrite <- list_elem_of_In in Hc.
    specialize (H c Hc). congruence.
Qed.

(** What [field_step] means for the fields read so far and this one. *)
Section Step.
Context (fs : list (list Z * list Z)) (fm : Framing) (Hfs : fields_ok fs) (Htk : tracks fs fm).

Lemma tracks_snoc f seen len : (forall u, u ∈ unique -> named u f = true -> fields_named u fs = []) ->
  (forall k, 0 <= k -> Z.testbit seen k = true <-> Z.testbit (fm_seen fm) k = true \/
     exists j u, unique !! j = Some u /\ named u f = true /\ k = 0 + Z.of_nat j) ->
  len = content_length (fs ++ [f]) -> 0 <= len <= UINT64_MAX ->
  tracks (fs ++ [f]) (mkFraming len (fm_seen_length fm || named name_content_length f) seen).
Proof.
  destruct Htk as [Hs Hsl Hlen Hr]. intros Hu Hseen Hl Hlr. split; cbn; [| |done|done].
  - intros j u Hj. rewrite Hseen, (Hs j u Hj), fields_named_snoc by lia. split.
    + intros [H|(j' & u' & Hj' & Hn & Ek)]; [by intros [? _]%app_eq_nil|].
      assert (j' = j) as -> by lia. rewrite Hj in Hj'. injection Hj' as <-. rewrite Hn. by intros [_ ?]%app_eq_nil.
    + intros H. destruct (named u f) eqn:E; [right; exists j, u; repeat split; done || lia|]. left. by rewrite app_nil_r in H.
  - rewrite orb_true_iff, Hsl, fields_named_snoc. destruct (named _ f).
    + split; [intros _; by intros [_ ?]%app_eq_nil|by right].
    + rewrite app_nil_r. split; [by intros [?|?]|by left].
Qed.

Definition step_means (f : list Z * list Z) (r : Status + Framing) : Prop :=
  match r with
  | inr fm' => fields_ok (fs ++ [f]) /\ tracks (fs ++ [f]) fm'
  | inl too_large => fields_ok (fs ++ [f]) -> UINT64_MAX < content_length (fs ++ [f])
  | inl invalid => ~ fields_ok (fs ++ [f])
  | inl _ => False
  end.

Lemma field_step_field f : find [58] (field_line f) = Some (length f.1) -> f.1 <> [] -> step_means f (field_step (field_line f) fm).
Proof.
  intros Hk Hne. unfold field_step. rewrite Hk. destruct (length f.1) as [|k] eqn:Elen; [by apply length_zero_iff_nil in Elen|].
  assert (En : take (S k) (field_line f) = f.1) by (unfold field_line; by rewrite <- Elen, take_app_length).
  assert (Ev : drop (S (S k)) (field_line f) = f.2).
  { unfold field_line. rewrite <- Elen, <- Nat.add_1_r, <- drop_drop, drop_app_length. done. }
  rewrite En, Ev. change (trim f.2) with (value_of f). change (equal f.1) with (fun u => named u f). cbn beta.
  pose proof (fields_ok_snoc fs f Hfs) as Hsnoc. destruct Htk as [Hs Hsl Hlen Hr].
  destruct (forallb token f.1) eqn:Et; cbn [negb]; [|intros ([] & _)%Hsnoc; congruence].
  destruct (existsb _ (value_of f)) eqn:Ex; [intros ([_ _ ?%plain_values] & _)%Hsnoc; congruence|]. apply plain_values in Ex.
  pose proof (check_unique_spec unique f.1 0 (fm_seen fm) ltac:(lia)) as Hu. change (equal f.1) with (fun u => named u f) in Hu. cbn beta in Hu.
  destruct (check_unique 0 unique f.1 (fm_seen fm)) as [seen|].
  2:{ destruct Hu as (j & u & Hj & Hn & Hb). rewrite Z.add_0_l, (Hs j u Hj) in Hb. intros (_ & Hu & _)%Hsnoc.
      apply Hb, Hu; [by eapply list_elem_of_lookup_2|done]. }
  destruct Hu as [Hu Hseen].
  assert (Hu' : forall u, u ∈ unique -> named u f = true -> fields_named u fs = []).
  { intros u [j Hj]%list_elem_of_lookup Hn. destruct (fields_named u fs) eqn:E; [done|]. specialize (Hu j u Hj Hn).
    rewrite Z.add_0_l in Hu. assert (Z.testbit (fm_seen fm) (Z.of_nat j) = true) by (apply (Hs j u Hj); by rewrite E). congruence. }
  destruct (named name_transfer_encoding f) eqn:Ete; [intros ([] & _)%Hsnoc; congruence|].
  destruct (named name_content_length f) eqn:Ecl.
  - assert (Hfirst : fm_seen_length fm = false -> fields_named name_content_length fs = []).
    { intros E. destruct (fields_named name_content_length fs) eqn:E'; [done|]. assert (fm_seen_length fm = true) by (by apply Hsl).
      congruence. }
    destruct (fm_seen_length fm) eqn:Esl; cbn [orb].
    { intros (_ & _ & H)%Hsnoc. apply (proj1 Hsl); [done|]. by apply H. }
    case_bool_decide as Ev0; [intros ([_ _ _ _ H] & _)%Hsnoc; by destruct (H Ecl)|].
    assert (Hclen : fm_length fm = 0) by (rewrite Hlen; unfold content_length; by rewrite Hfirst).
    assert (Hcl : content_length (fs ++ [f]) = digits_value (value_of f)) by (rewrite content_length_snoc, Ecl; auto).
    pose proof (add_digits_spec (value_of f) (fm_length fm) Hr) as Ha. rewrite Hclen in Ha |- *. cbn zeta in Ha.
    change (foldl _ 0 (value_of f)) with (digits_value (value_of f)) in Ha.
    destruct (add_digits (value_of f) 0) as [[]|n]; cbn; try done.
    + intros ([_ _ _ _ H] & _)%Hsnoc. by destruct (H Ecl).
    + rewrite Hcl. intros ([_ _ _ _ H] & _)%Hsnoc. destruct (H Ecl). auto.
    + destruct Ha as (Hd & -> & Hn). split; [apply Hsnoc; split; [by split|]; split; auto|].
      replace true with (fm_seen_length fm || named name_content_length f) by (by rewrite Esl, Ecl). apply tracks_snoc; auto.
  - cbn. split; [apply Hsnoc; split; [split; done || congruence|]; split; [done|congruence]|].
    replace (fm_seen_length fm) with (fm_seen_length fm || named name_content_length f) by (by rewrite Ecl, orb_false_r).
    apply tracks_snoc; auto. rewrite content_length_snoc, Ecl; congruence.
Qed.

Lemma field_step_cases l :
  match field_step l fm with
  | inr fm' => exists f, l = field_line f /\ fields_ok (fs ++ [f]) /\ tracks (fs ++ [f]) fm'
  | inl too_large => forall f, l = field_line f -> fields_ok (fs ++ [f]) -> UINT64_MAX < content_length (fs ++ [f])
  | inl invalid => forall f, l = field_line f -> ~ fields_ok (fs ++ [f])
  | inl _ => False
  end.
Proof.
  assert (Hbad : forall f, l = field_line f -> fields_ok (fs ++ [f]) -> find [58] l = Some (length f.1) /\ f.1 <> []).
  { intros f -> [Hf _]%fields_ok_snoc; [|done]. split; [by apply field_line_colon|apply Hf]. }
  destruct (find [58] l) as [[|k]|] eqn:Hk.
  - unfold field_step. rewrite Hk. intros f Hl [[= E] Hne]%(Hbad f Hl). destruct f.1; done.
  - set (f := (take (S k) l, drop (S (S k)) l)). assert (Hlt := find_Some_length _ _ _ Hk).
    assert (Hlen : length f.1 = S k) by (unfold f; cbn [fst]; rewrite length_take; lia).
    assert (Hl : l = field_line f) by (apply find_char_Some in Hk as [Hk _]; done).
    assert (Huniq : forall g, l = field_line g -> fields_ok (fs ++ [g]) -> g = f).
    { intros [n v] Eg [[= E] _]%(Hbad _ Eg). cbn in E. unfold f. rewrite Eg. unfold field_line. cbn [fst snd].
      rewrite E, take_app_length, <- Nat.add_1_r, <- drop_drop, drop_app_length. done. }
    assert (Hm : step_means f (field_step l fm)).
    { rewrite Hl at 1. apply field_step_field; [by rewrite <- Hl, Hlen|]. by destruct f.1. }
    destruct (field_step l fm) as [[]|fm']; cbn in Hm; try done.
    + intros g Eg Hg. by rewrite (Huniq g Eg Hg) in Hg.
    + intros g Eg Hg. rewrite (Huniq g Eg Hg). apply Hm. by rewrite <- (Huniq g Eg Hg).
    + exists f. tauto.
  - unfold field_step. rewrite Hk. intros f Hl [? _]%(Hbad f Hl). done.
Qed.
End Step.

(** ** All fields *)
Lemma field_line_inj f g : field_ok f -> field_ok g -> field_line f = field_line g -> f = g.
Proof.
  intros Hf Hg E. assert (El := field_line_colon f Hf). rewrite E, field_line_colon in El by done. injection El as El.
  destruct f as [n v], g as [n' v']. unfold field_line in E. cbn in *. apply app_inj_1 in E as [-> E]; [by injection E as ->|done].
Qed.

Lemma fields_named_app u fs gs : fields_named u (fs ++ gs) = fields_named u fs ++ fields_named u gs.
Proof. apply filter_app. Qed.

Lemma fields_ok_prefix fs f gs : fields_ok (fs ++ f :: gs) -> fields_ok (fs ++ [f]).
Proof.
  rewrite (cons_middle f fs gs), app_assoc. intros [He Hu Hl]. split.
  - by apply Forall_app in He as [He _].
  - intros u Hin. specialize (Hu u Hin). rewrite fields_named_app, length_app in Hu. lia.
  - rewrite fields_named_app, length_app in Hl. lia.
Qed.

Lemma content_length_app fs gs : content_length fs <> 0 -> content_length (fs ++ gs) = content_length fs.
Proof. unfold content_length. rewrite fields_named_app. by destruct (fields_named _ fs). Qed.

Lemma steps_cases ls fs fm : fields_ok fs -> tracks fs fm ->
  match steps ls fm with
  | inr fm' => exists gs, ls = field_line <$> gs /\ fields_ok (fs ++ gs) /\ tracks (fs ++ gs) fm'
  | inl too_large => forall gs, ls = field_line <$> gs -> fields_ok (fs ++ gs) -> UINT64_MAX < content_length (fs ++ gs)
  | inl invalid => forall gs, ls = field_line <$> gs -> ~ fields_ok (fs ++ gs)
  | inl _ => False
  end.
Proof.
  revert fs fm. induction ls as [|l ls IH]; intros fs fm Hfs Htk; cbn [steps].
  { exists []. by rewrite app_nil_r. }
  pose proof (field_step_cases fs fm Hfs Htk l) as Hstep.
  assert (Hfirst : forall gs, l :: ls = field_line <$> gs -> exists g gs', gs = g :: gs' /\ l = field_line g /\ ls = field_line <$> gs').
  { intros [|g gs'] E; [done|]. injection E as -> ->. eauto. }
  destruct (field_step l fm) as [[]|fm1]; try done.
  - intros gs (g & gs' & -> & Hl & _)%Hfirst Hok. by apply (Hstep g Hl), (fields_ok_prefix _ _ gs').
  - intros gs (g & gs' & -> & Hl & _)%Hfirst Hok. specialize (Hstep g Hl (fields_ok_prefix _ _ _ Hok)).
    rewrite cons_middle, app_assoc, content_length_app; lia.
  - destruct Hstep as (f & Hl & Hok1 & Htk1). specialize (IH _ _ Hok1 Htk1).
    assert (Hsame : forall gs, l :: ls = field_line <$> gs -> fields_ok (fs ++ gs) -> exists gs', gs = f :: gs' /\ ls = field_line <$> gs').
    { intros gs (g & gs' & -> & Hl' & Hls)%Hfirst Hok. exists gs'. split; [|done]. f_equal. apply field_line_inj; [| |congruence].
      - destruct Hok as [He _ _]. by apply Forall_app in He as [_ He%Forall_inv].
      - destruct Hok1 as [He _ _]. by apply Forall_app in He as [_ He%Forall_inv]. }
    destruct (steps ls fm1) as [[]|fm2]; try done.
    + intros gs E Hok. destruct (Hsame gs E Hok) as (gs' & -> & Els). apply (IH gs' Els). by rewrite <- app_assoc.
    + intros gs E Hok. destruct (Hsame gs E Hok) as (gs' & -> & Els). rewrite cons_middle, app_assoc in Hok |- *. by apply IH.
    + destruct IH as (gs & -> & Hok & Ht). exists (f :: gs). rewrite Hl. rewrite <- app_assoc in Hok, Ht. done.
Qed.

Lemma fmap_lines_inj gs gs' : fields_ok gs -> fields_ok gs' -> field_line <$> gs = field_line <$> gs' -> gs = gs'.
Proof.
  intros [He _ _] [He' _ _]. revert gs' He'. induction He as [|g gs Hg _ IH]; intros gs' He' E.
  - by destruct gs'.
  - destruct He' as [|g' gs' Hg' He']; [done|]. injection E as E1 E2. f_equal; [by apply field_line_inj|by apply IH].
Qed.

(** ** Heads and their lines *)
Lemma clean_render h : head_ok h -> clean (request_line h) /\ Forall (fun l => clean l /\ l <> []) (field_line <$> hd_fields h).
Proof.
  intros Hh. split.
  - apply clean_chars. intros Hc%request_line_char; [lia|done].
  - apply Forall_fmap, (Forall_impl _ _ _ (fs_each _ (ho_fields _ Hh))). intros f Hf. split.
    + apply clean_chars. intros Hc%field_char; [lia|done].
    + unfold field_line. destruct f.1; done.
Qed.

Lemma lines_unique l0 l0' ls ls' r r' : clean l0 -> clean l0' -> Forall (fun l => clean l /\ l <> []) ls ->
  Forall (fun l => clean l /\ l <> []) ls' ->
  l0 ++ CRLF ++ lines ls ++ CRLF ++ r = l0' ++ CRLF ++ lines ls' ++ CRLF ++ r' -> l0 = l0' /\ ls = ls' /\ r = r'.
Proof.
  intros Hl0 Hl0' Hls. revert l0 l0' ls' Hl0 Hl0'.
  assert (Hfirst : forall l0 l0' s s', clean l0 -> clean l0' -> l0 ++ CRLF ++ s = l0' ++ CRLF ++ s' -> l0 = l0' /\ s = s').
  { intros a b s s' Ha Hb E. assert (El := find_CRLF a s Ha). rewrite E, find_CRLF in El by done. injection El as El.
    apply app_inj_1 in E as [-> E]; [|done]. by apply app_inv_head in E. }
  induction Hls as [|l ls [Hl Hne] _ IH]; intros l0 l0' ls' Hl0 Hl0' Hls' [-> E]%Hfirst; try done.
  - destruct Hls' as [|l' ls' [Hl' Hne'] _]; [by apply app_inv_head, app_inv_head in E as ->|]. rewrite lines_cons, <- !app_assoc in E.
    apply (Hfirst []) in E as [<- _]; done.
  - rewrite lines_cons, <- !app_assoc in E. destruct Hls' as [|l' ls' [Hl' Hne'] Hls'].
    + symmetry in E. apply (Hfirst []) in E as [<- _]; done.
    + rewrite lines_cons, <- !app_assoc in E. destruct (IH l l' ls' Hl Hl' Hls' E) as (-> & -> & ->). done.
Qed.

Lemma content_length_nonneg fs : fields_ok fs -> 0 <= content_length fs.
Proof.
  intros [He _ _]. unfold content_length. destruct (fields_named name_content_length fs) as [|f l] eqn:E; [lia|].
  assert (Hin : f ∈ fields_named name_content_length fs) by (rewrite E; left). unfold fields_named in Hin.
  apply list_elem_of_filter in Hin as [Hn%Is_true_true Hin]. rewrite Forall_forall in He. destruct (fo_length f (He f Hin) Hn) as [_ Hd].
  unfold digits_value. assert (H : forall a, 0 <= a -> 0 <= foldl (fun acc c => acc * 10 + (c - 48)) a (value_of f)); [|apply H; lia].
  induction Hd as [|c v Hc _ IH]; intros a Ha; [done|]. cbn. apply IH. unfold digit in Hc. lia.
Qed.

(** The checks on the request line. *)
Definition line_fails (m p rest : list Z) : bool :=
  bool_decide (m = []) || (7 <? Z.of_nat (length m)) || bool_decide (p = []) || (127 <? Z.of_nat (length p))
  || negb (hd 0 p =? 47) || negb (bool_decide (rest = version_text)).

Lemma line_checks m p rest gs : line_fails m p rest = false -> forallb token m = true -> existsb (fun c => (c <=? 32) || (127 <=? c)) p = false ->
  fields_ok gs -> rest = version_text /\ head_ok (mkHead m p gs).
Proof.
  unfold line_fails. intros H Ht Hv Hgs. split_guards.
  repeat match goal with H : bool_decide _ = _ |- _ => first [apply bool_decide_eq_true in H | apply bool_decide_eq_false in H] end.
  split; [done|]. split; cbn; [split; [done|split; [lia|done]]|split; [lia|split; [lia|]]|done].
  apply Forall_forall. intros c Hc. unfold visible. apply not_true_iff_false. intros Ht'.
  assert (existsb (fun c => (c <=? 32) || (127 <=? c)) p = true) by (apply existsb_exists; exists c; by rewrite <- list_elem_of_In). congruence.
Qed.

Lemma visible_path p : Forall visible p -> existsb (fun c => (c <=? 32) || (127 <=? c)) p = false.
Proof.
  intros H. apply not_true_iff_false. intros (c & Hc & Ht)%existsb_exists. rewrite <- list_elem_of_In in Hc.
  rewrite Forall_forall in H. specialize (H c Hc). unfold visible in H. congruence.
Qed.

Lemma head_line_checks h : head_ok h -> line_fails (hd_method h) (hd_path h) version_text = false /\
  existsb (fun c => (c <=? 32) || (127 <=? c)) (hd_path h) = false.
Proof.
  intros [(Hm & Hl & Ht) (Hp & Hl' & Hv) _]. split; [|by apply visible_path]. unfold line_fails.
  rewrite !bool_decide_eq_false_2, bool_decide_eq_true_2 by (done || (intros E; by rewrite E in Hp)). lia.
Qed.

Lemma find_method h : head_ok h -> find [32] (request_line h) = Some (length (hd_method h)).
Proof.
  intros [(_ & _ & Ht) _ _]. apply (find_after 32 [] (hd_method h)). intros Hc. destruct (tokens_range _ _ Ht Hc). lia.
Qed.

Lemma find_path h : head_ok h -> find [32] (hd_path h ++ 32 :: version_text) = Some (length (hd_path h)).
Proof.
  intros [_ (_ & _ & Hv) _]. apply (find_after 32 [] (hd_path h)). intros Hc. rewrite Forall_forall in Hv. specialize (Hv _ Hc).
  unfold visible in Hv. lia.
Qed.

Lemma drop_S_app {A} (l : list A) x r : drop (S (length l)) (l ++ x :: r) = r.
Proof. by rewrite <- Nat.add_1_r, <- drop_drop, drop_app_length. Qed.

(** The method and path of a well-formed request line. *)
Definition parse_line (l0 : list Z) : option (list Z * list Z) :=
  sp ← find [32] l0;
  let line := drop (S sp) l0 in
  sp' ← find [32] line;
  let m := take sp l0 in
  let p := take sp' line in
  if line_fails m p (drop (S sp') line) || negb (forallb token m) || existsb (fun c => (c <=? 32) || (127 <=? c)) p then None
  else Some (m, p).

Lemma parse_line_head h : head_ok h -> parse_line (request_line h) = Some (hd_method h, hd_path h).
Proof.
  intros Hh. unfold parse_line. rewrite find_method by done. cbn [mbind option_bind]. unfold request_line.
  rewrite drop_S_app, find_path by done. cbn [mbind option_bind]. rewrite !take_app_length, drop_S_app.
  destruct (head_line_checks h Hh) as [-> ->]. destruct Hh as [(_ & _ & ->) _ _]. done.
Qed.

Lemma parse_line_Some l0 m p gs : parse_line l0 = Some (m, p) -> fields_ok gs ->
  l0 = request_line (mkHead m p gs) /\ head_ok (mkHead m p gs).
Proof.
  unfold parse_line. destruct (find [32] l0) as [sp|] eqn:F1; [|done]. cbn [mbind option_bind].
  destruct (find [32] (drop (S sp) l0)) as [sp'|] eqn:F2; [|done]. cbn [mbind option_bind].
  case_if; [done|]. intros [= <- <-] Hgs. split_guards.
  destruct (line_checks _ _ _ gs ltac:(eassumption) ltac:(eassumption) ltac:(eassumption) Hgs) as [Ev Hok]. split; [|done].
  apply find_char_Some in F1 as [E1 _]. apply find_char_Some in F2 as [E2 _]. unfold request_line. cbn [hd_method hd_path].
  rewrite E1 at 1. by rewrite E2, Ev at 1.
Qed.

(** ** The verdict *)
Definition head_size (h : Head) : Z := Z.of_nat (length (render h)).
Definition body_size (h : Head) : Z := content_length (hd_fields h).
Definition fits (limit : Z) (h : Head) : Prop := head_size h + body_size h <= limit.
Definition describes (h : Head) (r : Request) : Prop :=
  header_size r = head_size h /\ required_size r = head_size h + body_size h /\ method r = hd_method h /\ path r = hd_path h.

(** [bytes] starts with the well-formed head [h], [rest] behind it. *)
Definition begins (bytes : list Z) (h : Head) (rest : list Z) : Prop := bytes = render h ++ rest /\ head_ok h.

Definition verdict (bytes : list Z) (limit : Z) (r : Request) : Prop :=
  match status r with
  | complete => exists h rest, begins bytes h rest /\ fits limit h /\ describes h r /\ body_size h <= Z.of_nat (length rest)
  | incomplete =>
      (find (CRLF ++ CRLF) bytes = None /\ Z.of_nat (length bytes) < limit /\ header_size r = 0 /\ required_size r = 0) \/
      (exists h rest, begins bytes h rest /\ fits limit h /\ describes h r /\ Z.of_nat (length rest) < body_size h)
  | invalid => required_size r = 0 /\ forall more h rest, ~ begins (bytes ++ more) h rest
  | too_large => required_size r = 0 /\ forall more h rest, begins (bytes ++ more) h rest -> ~ fits limit h
  end.

Lemma lines_count ls : (length ls <= length (lines ls))%nat.
Proof. induction ls as [|l ls IH]; [done|]. rewrite <- lines_length. cbn [length]. lia. Qed.

Lemma tracks_nil : tracks [] (mkFraming 0 false 0).
Proof.
  split; cbn; [|by split|done|lia]. intros j u _. unfold fields_named. rewrite Z.testbit_0_l by lia. by split.
Qed.

Lemma fields_ok_nil : fields_ok [].
Proof. split; [constructor|intros; cbn; lia|cbn; lia]. Qed.

Section Verdict.
Context (l0 : list Z) (ls : list (list Z)) (r : list Z) (limit : Z).
Context (Hl0 : clean l0) (Hls : Forall (fun l => clean l /\ l <> []) ls).
Notation bytes := (l0 ++ CRLF ++ lines ls ++ CRLF ++ r).
Notation size := (Z.of_nat (length (l0 ++ lines ls)) + 4).

Lemma begins_lines more h rest : begins (bytes ++ more) h rest ->
  l0 = request_line h /\ ls = field_line <$> hd_fields h /\ r ++ more = rest /\ head_size h = size.
Proof.
  intros [E Hh]. destruct (clean_render h Hh). unfold render in E. rewrite <- !app_assoc in E. apply lines_unique in E; [|done..].
  destruct E as (-> & -> & ->). split; [done|split; [done|split; [done|]]]. unfold head_size, render. rewrite !length_app. cbn [length CRLF]. lia.
Qed.

Lemma fields_loop_lines : fields_loop (length bytes) bytes (length l0 + 2) (length (l0 ++ lines ls)) (mkFraming 0 false 0) =
  Some (steps ls (mkFraming 0 false 0)).
Proof.
  replace bytes with ((l0 ++ CRLF) ++ lines ls ++ CRLF ++ r) by by rewrite <- app_assoc.
  replace (length l0 + 2)%nat with (length (l0 ++ CRLF)) by (rewrite length_app; done).
  replace (length (l0 ++ lines ls)) with (length ((l0 ++ CRLF) ++ lines ls) - 2)%nat by (rewrite !length_app; cbn; lia).
  apply fields_loop_steps; [done|]. rewrite !length_app. pose proof (lines_count ls). lia.
Qed.

(** [request] on lines: the size, the request line, the fields, the body. *)
Lemma request_lines : exists m p, request bytes limit = Some
  (if limit <? size then mkRequest too_large size 0 [] []
   else match parse_line l0 with
   | None => mkRequest invalid size 0 m p
   | Some (m, p) =>
       match steps ls (mkFraming 0 false 0) with
       | inl s => mkRequest s size 0 m p
       | inr fm =>
           if limit - size <? fm_length fm then mkRequest too_large size 0 m p
           else mkRequest (if Z.of_nat (length bytes) <? size + fm_length fm then incomplete else complete) size (size + fm_length fm) m p
       end
   end).
Proof.
  unfold request. rewrite find_blank, find_CRLF by done. cbn [mbind option_bind]. rewrite take_app_length, fields_loop_lines.
  unfold parse_line. destruct (limit <? size); [by exists [], []|].
  destruct (find [32] l0) as [sp|]; cbn [mbind option_bind]; [|by exists [], []].
  destruct (find [32] (drop (S sp) l0)) as [sp'|]; cbn [mbind option_bind]; [|by eexists _, _].
  unfold line_fails. match goal with |- context [if ?b || ?c || ?d then None else _] => destruct b, c, d; cbn [negb orb] end; try by eexists _, _.
  eexists [], []. destruct (steps ls _) as [s|fm]; [done|]. by destruct (limit - size <? fm_length fm).
Qed.

Lemma verdict_lines : limit <= UINT64_MAX -> exists q, request bytes limit = Some q /\ verdict bytes limit q.
Proof.
  intros Hmax. destruct request_lines as (m0 & p0 & Hq). eexists. split; [exact Hq|]. clear Hq.
  assert (Hsz : forall q, status q = too_large -> required_size q = 0 ->
    (forall h more rest, begins (bytes ++ more) h rest -> limit < size + body_size h) -> verdict bytes limit q).
  { intros q Hs Hz H. unfold verdict. rewrite Hs. split; [done|]. intros more h rest Hb Hfit. specialize (H h more rest Hb).
    destruct (begins_lines _ _ _ Hb) as (_ & _ & _ & Hsize). unfold fits in Hfit. lia. }
  assert (Hpos : forall h more rest, begins (bytes ++ more) h rest -> 0 <= body_size h).
  { intros h more rest [_ [_ _ Hf]]. by apply content_length_nonneg. }
  destruct (Z.ltb_spec limit size) as [Hlim|Hlim].
  { apply Hsz; [done|done|]. intros h more rest Hb. specialize (Hpos _ _ _ Hb). lia. }
  destruct (parse_line l0) as [[m p]|] eqn:Hp.
  2:{ split; [done|]. intros more h rest Hb. destruct (begins_lines _ _ _ Hb) as (E & _). rewrite E, parse_line_head in Hp; [done|apply Hb]. }
  pose proof (steps_cases ls [] (mkFraming 0 false 0) fields_ok_nil tracks_nil) as Hst. cbn [app] in Hst.
  destruct (steps ls _) as [[]|fm]; try done.
  - split; [done|]. intros more h rest Hb. destruct (begins_lines _ _ _ Hb) as (_ & E & _). apply (Hst _ E), ho_fields, Hb.
  - apply Hsz; [done|done|]. intros h more rest Hb. destruct (begins_lines _ _ _ Hb) as (_ & E & _).
    specialize (Hst _ E (ho_fields _ (proj2 Hb))). change (content_length (hd_fields h)) with (body_size h) in Hst. lia.
  - destruct Hst as (gs & Els & Hgs & [_ _ Hlen _]). destruct (parse_line_Some _ _ _ _ Hp Hgs) as [El0 Hh].
    set (h := mkHead m p gs) in *. change (content_length gs) with (body_size h) in Hlen.
    assert (Hb : begins bytes h r).
    { split; [|done]. unfold render. rewrite <- !app_assoc, <- El0. unfold h. cbn [hd_fields]. by rewrite <- Els. }
    destruct (begins_lines [] h r ltac:(by rewrite app_nil_r)) as (_ & _ & _ & Hsize).
    assert (Hlb : Z.of_nat (length bytes) = size + Z.of_nat (length r)).
    { destruct Hb as [-> _]. rewrite length_app. unfold head_size in Hsize. lia. }
    destruct (Z.ltb_spec (limit - size) (fm_length fm)).
    + apply Hsz; [done|done|]. intros h' more rest Hb'. destruct (begins_lines _ _ _ Hb') as (_ & E & _).
      assert (Hbody : body_size h' = body_size h); [|lia]. unfold body_size. f_equal. unfold h. cbn [hd_fields]. rewrite Els in E.
      apply (fmap_lines_inj _ _ (ho_fields _ (proj2 Hb')) Hgs). done.
    + assert (Hd : forall st, describes h (mkRequest st size (size + fm_length fm) m p)) by (intros st; unfold describes; cbn; lia || (split; [lia|split; [lia|done]])).
      destruct (Z.ltb_spec (Z.of_nat (length bytes)) (size + fm_length fm)); unfold verdict; cbn [status].
      * right. exists h, r. split; [done|]. split; [unfold fits; lia|]. split; [apply Hd|lia].
      * exists h, r. split; [done|]. split; [unfold fits; lia|]. split; [apply Hd|lia].
Qed.
End Verdict.

(** [request] always returns, with the right verdict. *)
Lemma request_verdict bytes limit : limit <= UINT64_MAX -> exists q, request bytes limit = Some q /\ verdict bytes limit q.
Proof.
  intros Hmax. destruct (find (CRLF ++ CRLF) bytes) as [k|] eqn:Hk.
  - destruct (cut_lines _ _ Hk) as (l0 & ls & r & -> & Hl0 & Hls). by apply verdict_lines.
  - unfold request. rewrite Hk. eexists. split; [done|]. unfold verdict. destruct (Z.leb_spec limit (Z.of_nat (length bytes))); cbn; [|by left].
    split; [done|]. intros more h rest [E Hh] Hfit. unfold fits, body_size in Hfit. pose proof (content_length_nonneg _ (ho_fields _ Hh)).
    enough (Z.of_nat (length bytes) < head_size h) by lia. unfold head_size. apply Nat2Z.inj_lt.
    destruct (decide (length bytes < length (render h))%nat) as [|Hge]; [done|]. exfalso. rewrite find_first_None in Hk.
    assert (E' : bytes = render h ++ drop (length (render h)) bytes).
    { rewrite <- (take_drop (length (render h)) bytes) at 1. f_equal. rewrite <- (take_app_le bytes more) by lia. rewrite E. apply take_app_length. }
    destruct (clean_render h Hh) as [Hc Hcs]. assert (Hb := find_blank _ _ (drop (length (render h)) bytes) Hc Hcs).
    apply find_split in Hb. rewrite E' in Hk. unfold render in Hk at 1. rewrite <- !app_assoc in Hk. rewrite Hb in Hk. by apply (Hk _ _ eq_refl).
Qed.

Lemma begins_unique bytes h h' rest rest' : begins bytes h rest -> begins bytes h' rest' -> h = h' /\ rest = rest'.
Proof.
  intros [E Hh] [E' Hh']. rewrite E in E'. destruct (clean_render h Hh), (clean_render h' Hh'). unfold render in E'. rewrite <- !app_assoc in E'.
  apply lines_unique in E' as (El & Els & ->); [|done..]. apply fmap_lines_inj in Els; [|apply ho_fields; done..].
  assert (Hp := parse_line_head h Hh). rewrite El, parse_line_head in Hp by done. injection Hp as Hm Hp.
  destruct h, h'. cbn in *. by subst.
Qed.

(** What is decided once the blank line has arrived stays decided. *)
Lemma request_grows bytes more limit q : request bytes limit = Some q -> find (CRLF ++ CRLF) bytes <> None ->
  exists q', request (bytes ++ more) limit = Some q' /\ header_size q' = header_size q /\ required_size q' = required_size q /\
    (status q <> incomplete -> status q' = status q).
Proof.
  intros Hq Hb. destruct (find (CRLF ++ CRLF) bytes) as [k|] eqn:Hk; [|done]. destruct (cut_lines _ _ Hk) as (l0 & ls & r & -> & Hl0 & Hls).
  destruct (request_lines l0 ls r limit Hl0 Hls) as (m & p & E). rewrite E in Hq. apply (inj Some) in Hq as <-.
  destruct (request_lines l0 ls (r ++ more) limit Hl0 Hls) as (m' & p' & E'). rewrite <- !app_assoc. eexists. split; [exact E'|]. clear E E'.
  destruct (limit <? _); [done|]. destruct (parse_line l0) as [[]|]; [|done]. destruct (steps ls _) as [s|fm]; [done|].
  destruct (limit - _ <? fm_length fm); [done|]. cbn [status header_size required_size]. split; [done|]. split; [done|]. intros Hne.
  destruct (Z.ltb_spec (Z.of_nat (length (l0 ++ CRLF ++ lines ls ++ CRLF ++ r))) (Z.of_nat (length (l0 ++ lines ls)) + 4 + fm_length fm)); [done|].
  destruct (Z.ltb_spec (Z.of_nat (length (l0 ++ CRLF ++ lines ls ++ CRLF ++ r ++ more))) (Z.of_nat (length (l0 ++ lines ls)) + 4 + fm_length fm)); [|done].
  rewrite !length_app in *. lia.
Qed.

(** C33: the request parser recognises exactly the prefixes of well-formed
    requests that fit its limit, for every input: [complete] is one head (the
    only one these bytes begin with) and the body its content-length announces,
    [incomplete] is waiting for the rest, and on [invalid] and [too_large] no
    further bytes could have made the request acceptable. *)
Theorem http_request_exact bytes limit : limit <= UINT64_MAX ->
  exists q, request bytes limit = Some q /\
  match status q with
  | complete => exists h rest, begins bytes h rest /\ (forall h' rest', begins bytes h' rest' -> h' = h) /\
      describes h q /\ fits limit h /\ body_size h <= Z.of_nat (length rest)
  | incomplete =>
      (find (CRLF ++ CRLF) bytes = None /\ Z.of_nat (length bytes) < limit) \/
      (exists h rest, begins bytes h rest /\ describes h q /\ fits limit h /\ Z.of_nat (length rest) < body_size h)
  | invalid => forall more h rest, ~ begins (bytes ++ more) h rest
  | too_large => forall more h rest, begins (bytes ++ more) h rest -> ~ fits limit h
  end.
Proof.
  intros Hmax. destruct (request_verdict bytes limit Hmax) as (q & Hq & Hv). exists q. split; [done|]. unfold verdict in Hv.
  destruct (status q); [|destruct Hv as (h & rest & Hb & Hv)|apply Hv..].
  - destruct Hv as [(? & ? & _)|(h & rest & Hb & ? & ? & ?)]; [by left|]. right. by exists h, rest.
  - exists h, rest. split; [done|]. split; [intros h' rest' Hb'; by destruct (begins_unique _ _ _ _ _ Hb' Hb)|]. tauto.
Qed.

(** A request with a two-byte body is complete. *)
Definition sample_head : Head := mkHead [71] [47] [(name_content_length, [32; 50])].
Lemma http_request_exact_witness : 2047 <= UINT64_MAX /\
  exists q, request (render sample_head ++ [123; 125]) 2047 = Some q /\ status q = complete /\
  exists h rest, begins (render sample_head ++ [123; 125]) h rest /\ describes h q /\ fits 2047 h.
Proof.
  split; [by vm_compute|]. destruct (http_request_exact (render sample_head ++ [123; 125]) 2047) as (q & Hq & Hs); [by vm_compute|].
  assert (E : status <$> request (render sample_head ++ [123; 125]) 2047 = Some complete) by (by vm_compute).
  rewrite Hq in E. apply (inj Some) in E. rewrite E in Hs. exists q. split; [exact Hq|]. split; [exact E|].
  destruct Hs as (h & rest & Hb & _ & Hd & Hf & _). by exists h, rest.
Defined.
