(* ===== verification/HttpHeaders.v ===== *)
(** * Header fields and the upgrade handshake (luv_websocket_parse.hpp)

    [header], [header_has_token] and [handshake] read the fields of a request
    that [wire::request] has accepted; they agree with the fields of its head. *)
From Stdlib Require Import ZArith Lia ZifyBool.
From Stdlib Require String Ascii.
From S2P Require Import Prelude Numeric Bytes Text Config Guards Reconcile Recovery AuditLog ExecTypes WsFill HttpWire HttpRequest WsKey.
Import String.StringSyntax.
#[local] Delimit Scope string_scope with str.
Import wire.

(** ** Reading a field *)
Definition ascii_lower (c : Z) : Z := if (65 <=? c) && (c <=? 90) then c - 65 + 97 else c.

Definition ascii_equal (left right : list Z) : bool :=
  (length left =? length right)%nat && forallb (fun p => ascii_lower p.1 =? ascii_lower p.2) (zip left right).

(** The loop of [header] over the lines of a C string; [line] is the position
    of the line end before the next field.  The result is the bytes of the
    range, or nothing; the outer [None] is lack of fuel. *)
Fixpoint header_loop (fuel : nat) (request : list Z) (line block_end : nat) (wanted_name : list Z) : option (option (list Z)) :=
  match fuel with
  | O => None
  | S fuel =>
      if negb (line <? block_end)%nat then Some None
      else
        let line := (line + 2)%nat in
        if (block_end <=? line)%nat then Some None
        else
          match find_at CRLF request line with
          | None => Some None
          | Some line_end =>
              if (block_end <? line_end)%nat then Some None
              else
                let text := substr line (line_end - line) request in
                match find [58] text with
                | Some colon =>
                    if ascii_equal (take colon text) wanted_name then Some (Some (trim (drop (S colon) text)))
                    else header_loop fuel request line_end block_end wanted_name
                | None => header_loop fuel request line_end block_end wanted_name
                end
          end
  end.

Definition header (request : list Z) (block_end : nat) (wanted_name : list Z) : option (option (list Z)) :=
  match find CRLF request with
  | None => Some None
  | Some line => header_loop (S (length request)) request line block_end wanted_name
  end.

Definition separator (c : Z) : bool := (c =? 32) || (c =? 9) || (c =? 44).

Fixpoint skip_separators (v : list Z) : list Z :=
  match v with
  | c :: r => if separator c then skip_separators r else v
  | [] => []
  end.

Definition trim_back (v : list Z) : list Z := reverse (trim_front (reverse v)).

Fixpoint has_token_loop (fuel : nat) (value token : list Z) : option bool :=
  match fuel with
  | O => None
  | S fuel =>
      if bool_decide (value = []) then Some false
      else
        let value := skip_separators value in
        let token_end := default (length value) (find [44] value) in
        if ascii_equal (trim_back (take token_end value)) token then Some true
        else has_token_loop fuel (drop (S token_end) value) token
  end.

Definition header_has_token (value : option (list Z)) (token : list Z) : option bool :=
  match value with
  | None => Some false
  | Some v => has_token_loop (S (length v)) v token
  end.

Definition kGet : list Z := Eval vm_compute in bytes_of_string "GET"%str.
Definition kKeyHeader : list Z := Eval vm_compute in bytes_of_string "Sec-WebSocket-Key"%str.
Definition kVersionHeader : list Z := Eval vm_compute in bytes_of_string "Sec-WebSocket-Version"%str.
Definition kConnectionHeader : list Z := Eval vm_compute in bytes_of_string "Connection"%str.
Definition kUpgradeHeader : list Z := Eval vm_compute in bytes_of_string "Upgrade"%str.
Definition kWebsocketToken : list Z := Eval vm_compute in bytes_of_string "websocket"%str.
Definition kVersion13 : list Z := Eval vm_compute in bytes_of_string "13"%str.

(** [handshake]; the header block is copied into a zeroed array. *)
Definition handshake (bytes : list Z) : option bool :=
  r ← request bytes 2047;
  if negb (bool_decide (status r = complete)) || negb (bool_decide (method r = kGet)) || negb (required_size r =? header_size r) then Some false
  else
    block ← slice bytes 0 (header_size r);
    copy ← cstr (block ++ replicate (2048 - length block) 0);
    let end_ := (Z.to_nat (header_size r) - 4)%nat in
    k ← header copy end_ kKeyHeader;
    v ← header copy end_ kVersionHeader;
    match k, v with
    | Some k, Some v =>
        if negb (Z.of_nat (length k) =? 24) || negb (ascii_equal v kVersion13) then Some false
        else
          connection ← header copy end_ kConnectionHeader;
          upgraded ← header_has_token connection kUpgradeHeader;
          if negb upgraded then Some false
          else
            upgrade ← header copy end_ kUpgradeHeader;
            websocket ← header_has_token upgrade kWebsocketToken;
            if negb websocket then Some false
            else
              decoded ← decode_websocket_key (Some (k ++ [0])) (replicate 16 0);
              Some (fst decoded)
    | _, _ => Some false
    end.

(** ** The fields of the head *)
Definition field_value (name : list Z) (h : Head) : option (list Z) := value_of <$> head (fields_named name (hd_fields h)).

Lemma ascii_equal_equal l r : ascii_equal l r = equal l r.
Proof.
  assert (Hlow : forall c, ascii_lower c = lower c) by (intros c; unfold ascii_lower, lower; case_if; lia).
  unfold ascii_equal. revert r. induction l as [|a l IH]; intros [|b r]; cbn; try done. rewrite <- IH, !Hlow. cbn.
  destruct (length l =? length r)%nat, (lower a =? lower b); done.
Qed.

Lemma drop_app_plus {A} (l k : list A) n : drop (length l + n) (l ++ k) = drop n k.
Proof. by rewrite <- drop_drop, drop_app_length. Qed.

Lemma header_loop_fields fs pre tail name fuel : Forall field_ok fs -> (length fs < fuel)%nat ->
  header_loop fuel (pre ++ CRLF ++ lines (field_line <$> fs) ++ CRLF ++ tail) (length pre) (length (pre ++ lines (field_line <$> fs))) name
  = Some (value_of <$> head (fields_named name fs)).
Proof.
  intros Hfs. revert pre fuel. induction Hfs as [|f fs Hf Hfs IH]; intros pre [|fuel] Hfuel; cbn [length] in Hfuel; try lia; cbn [header_loop].
  - cbn [fmap list_fmap lines concat]. rewrite app_nil_r. destruct (Nat.ltb_spec (length pre) (length pre)); [lia|done].
  - cbn [fmap list_fmap]. set (l := field_line f). set (ls := field_line <$> fs).
    assert (Hl : clean l) by (apply clean_chars; intros Hc%field_char; [lia|done]).
    rewrite length_app, <- lines_length.
    destruct (Nat.ltb_spec (length pre) (length pre + (length l + 2 + length (lines ls)))); [|lia]. cbn [negb].
    assert (l <> []) by (unfold l, field_line; by destruct f.1). assert (0 < length l)%nat by (by destruct l; [|cbn; lia]).
    destruct (Nat.leb_spec (length pre + (length l + 2 + length (lines ls))) (length pre + 2)); [lia|].
    unfold find_at, substr. rewrite drop_app_plus, lines_cons, <- !app_assoc.
    change (drop 2 (CRLF ++ ?x)) with x. rewrite find_CRLF by done. cbn [fmap option_fmap option_map].
    destruct (Nat.ltb_spec (length pre + (length l + 2 + length (lines ls))) (length pre + 2 + length l)); [lia|].
    replace (length pre + 2 + length l - (length pre + 2))%nat with (length l) by lia. rewrite take_app_length.
    unfold l at 1 2 3. rewrite field_line_colon by done. unfold field_line at 1 2. rewrite take_app_length, drop_S_app, ascii_equal_equal.
    fold (named name f). unfold fields_named. destruct (named name f) eqn:En; [by rewrite filter_cons_True by by rewrite En|].
    rewrite filter_cons_False by (rewrite En; intros []). fold (fields_named name fs).
    specialize (IH (pre ++ CRLF ++ l) fuel ltac:(lia)). fold ls in IH.
    replace (length (pre ++ CRLF ++ l)) with (length pre + 2 + length l)%nat in IH by (rewrite !length_app; cbn; lia).
    replace (length ((pre ++ CRLF ++ l) ++ lines ls)) with (length pre + (length l + 2 + length (lines ls)))%nat in IH by (rewrite !length_app; cbn; lia).
    by rewrite <- !app_assoc in IH.
Qed.

(** [header] on a block that [request] accepted: the value of the named field. *)
Lemma header_head h tail name : head_ok h -> header (render h ++ tail) (length (render h) - 4) name = Some (field_value name h).
Proof.
  intros Hh. destruct (clean_render h Hh) as [Hl _]. unfold header, render. rewrite <- !app_assoc, find_CRLF by done.
  replace (length (request_line h ++ CRLF ++ lines (field_line <$> hd_fields h) ++ CRLF) - 4)%nat
    with (length (request_line h ++ lines (field_line <$> hd_fields h))) by (rewrite !length_app; cbn [length CRLF]; lia).
  apply header_loop_fields; [apply (fs_each _ (ho_fields _ Hh))|]. rewrite !length_app. pose proof (lines_count (field_line <$> hd_fields h)) as Hc.
  rewrite length_fmap in Hc. lia.
Qed.

(** ** Comma-separated tokens *)
Fixpoint split_commas (v : list Z) : list (list Z) :=
  match v with
  | [] => [[]]
  | c :: r => if c =? 44 then [] :: split_commas r
              else match split_commas r with e :: es => (c :: e) :: es | [] => [[c]] end
  end.

Definition lists_token (token v : list Z) : bool := existsb (fun e => equal (trim e) token) (split_commas v).

Lemma split_commas_cons v : exists e es, split_commas v = e :: es.
Proof. induction v as [|c v (e & es & E)]; [by exists [], []|]. cbn. rewrite E. destruct (c =? 44); eauto. Qed.

Lemma trim_blank c v : blank c = true -> trim (c :: v) = trim v.
Proof. intros Hb. unfold trim. cbn. by rewrite Hb. Qed.

Lemma lists_token_skip token v : token <> [] -> lists_token token (skip_separators v) = lists_token token v.
Proof.
  intros Ht. unfold lists_token. induction v as [|c v IH]; [done|]. cbn [skip_separators split_commas]. destruct (separator c) eqn:Es; [|done].
  rewrite IH. destruct (Z.eqb_spec c 44) as [->|Hc].
  - cbn [existsb]. change (trim []) with (@nil Z). by destruct token.
  - destruct (split_commas_cons v) as (e & es & ->). cbn [existsb]. rewrite trim_blank; [done|]. unfold separator in Es. unfold blank. lia.
Qed.

Lemma split_commas_find v : split_commas v = match find [44] v with
  | None => [v] | Some k => take k v :: split_commas (drop (S k) v) end.
Proof.
  induction v as [|c v IH]; [done|]. cbn [split_commas]. destruct (Z.eqb_spec c 44) as [->|Hc]; [done|].
  assert (E : find [44] (c :: v) = S <$> find [44] v).
  { cbn [find starts]. destruct (Z.eqb_spec 44 c); [lia|]. by destruct v. }
  rewrite E, IH. by destruct (find [44] v).
Qed.

Lemma skip_separators_front v : trim_front (skip_separators v) = skip_separators v.
Proof.
  induction v as [|c v IH]; [done|]. cbn. destruct (separator c) eqn:Es; [done|]. cbn. destruct (blank c) eqn:Eb; [|done].
  unfold separator, blank in *. lia.
Qed.

Lemma trim_skipped v k : trim (take k (skip_separators v)) = trim_back (take k (skip_separators v)).
Proof.
  unfold trim. fold (trim_back (trim_front (take k (skip_separators v)))). f_equal. pose proof (skip_separators_front v) as H.
  destruct (skip_separators v) as [|c w]; [by destruct k|]. destruct k; [done|]. cbn in *. destruct (blank c); [|done].
  exfalso. assert (Hl : forall l, (length (trim_front l) <= length l)%nat) by (intros l; induction l; cbn; [lia|case_if; cbn; lia]).
  specialize (Hl w). rewrite H in Hl. cbn in Hl. lia.
Qed.

Lemma has_token_spec fuel v token : token <> [] -> (length v < fuel)%nat -> has_token_loop fuel v token = Some (lists_token token v).
Proof.
  intros Ht. revert v. induction fuel as [|fuel IH]; intros v Hf; [lia|]. cbn [has_token_loop]. case_bool_decide as Hv.
  { subst. unfold lists_token. cbn. change (trim []) with (@nil Z). by destruct token. }
  rewrite <- (lists_token_skip _ v Ht), ascii_equal_equal, <- trim_skipped. set (w := skip_separators v).
  assert (Hw : (length w <= length v)%nat).
  { unfold w. clear. induction v as [|c v IH]; cbn; [lia|]. case_if; cbn; lia. }
  unfold lists_token at 1. rewrite split_commas_find. destruct (find [44] w) as [k|] eqn:Hk; cbn [default existsb].
  - destruct (equal _ token); [done|]. apply IH. rewrite length_drop. apply find_Some_length in Hk. cbn in Hk. lia.
  - rewrite firstn_all. destruct (equal _ token); [done|]. cbn [orb]. rewrite drop_ge by lia. rewrite IH by (cbn; destruct v; [done|cbn in *; lia]).
    unfold lists_token. cbn. change (trim []) with (@nil Z). by destruct token.
Qed.

(** ** The handshake *)

(** What [handshake] is to ask of a request head: GET without a body, version 13,
    the token "Upgrade" in the list of the field Connection and "websocket" in
    that of Upgrade, and a key that is the base64 of the sixteen bytes [nonce].
    This is not the whole of RFC 6455, section 4.2.1: [rfc6455_opening] below. *)
Record asks_upgrade (h : Head) (nonce : list Z) : Prop := {
  ur_method : hd_method h = kGet;
  ur_body : body_size h = 0;
  ur_key : exists k, field_value kKeyHeader h = Some k /\ k ++ [0] = base64_encode nonce;
  ur_nonce : bytes_ok nonce /\ length nonce = 16%nat;
  ur_version : field_value kVersionHeader h = Some kVersion13;
  ur_connection : exists v, field_value kConnectionHeader h = Some v /\ lists_token kUpgradeHeader v = true;
  ur_upgrade : exists v, field_value kUpgradeHeader h = Some v /\ lists_token kWebsocketToken v = true;
}.

Lemma render_no_nul h : head_ok h -> 0 ∉ render h.
Proof.
  intros Hh. unfold render, lines. rewrite !not_elem_of_app. split; [intros Hc%request_line_char; [lia|done]|]. split; [set_solver|]. split; [|set_solver].
  rewrite list_elem_of_In, in_concat. intros (l & Hl & Hc). rewrite <- list_elem_of_In in Hl. apply list_elem_of_fmap in Hl as (? & -> & Hl).
  apply list_elem_of_fmap in Hl as (f & -> & Hf). rewrite <- list_elem_of_In in Hc. apply elem_of_app in Hc as [Hc|Hc]; [|set_solver].
  assert (He := fs_each _ (ho_fields _ Hh)). rewrite Forall_forall in He. apply field_char in Hc; [lia|by apply He].
Qed.

Lemma cstr_block h n : head_ok h -> (length (render h) < n)%nat -> cstr (render h ++ replicate (n - length (render h)) 0) = Some (render h).
Proof.
  intros Hh Hn. destruct (n - length (render h))%nat as [|k] eqn:E; [lia|]. cbn [replicate]. by apply cstr_app, render_no_nul.
Qed.

Lemma value_bytes name h k : bytes_ok (render h) -> head_ok h -> field_value name h = Some k -> Forall (fun c => 0 < c < 256) k.
Proof.
  intros Hb Hh. unfold field_value. rewrite fmap_Some. intros (f & Hf & ->).
  assert (Hin : f ∈ hd_fields h).
  { unfold fields_named in Hf. apply head_Some_elem_of in Hf. by apply list_elem_of_filter in Hf as [_ Hf]. }
  assert (Hsub : forall c, c ∈ value_of f -> c ∈ render h).
  { intros c Hc. unfold render, lines. rewrite !elem_of_app. right; right; left. rewrite list_elem_of_In, in_concat. exists (field_line f ++ CRLF).
    rewrite <- !list_elem_of_In. split; [apply list_elem_of_fmap; exists (field_line f); split; [done|apply list_elem_of_fmap; eauto]|].
    destruct (trim_split f.2) as (a & b & E & _). unfold field_line, value_of in *. rewrite E. set_solver. }
  apply Forall_forall. intros c Hc. unfold bytes_ok in Hb. rewrite Forall_forall in Hb. assert (H := Hb c (Hsub c Hc)). unfold in_u in H.
  assert (c <> 0) by (intros ->; by apply (render_no_nul h Hh), Hsub). lia.
Qed.

Lemma equal_digits v : Forall digit v -> forall w, equal w v = true <-> w = v.
Proof.
  intros Hv. induction Hv as [|c v Hc _ IH]; intros [|d w]; cbn; try (split; done || congruence).
  rewrite andb_true_iff, Z.eqb_eq, IH. unfold lower, digit in *. split.
  - intros [E ->]. destruct (Z.leb_spec 65 c), (Z.leb_spec c 90), (Z.leb_spec 65 d), (Z.leb_spec d 90); cbn in E; f_equal; lia.
  - intros [= -> ->]. done.
Qed.

Lemma header_token name token h : token <> [] ->
  header_has_token (field_value name h) token = Some (match field_value name h with Some v => lists_token token v | None => false end).
Proof. intros Ht. unfold header_has_token. destruct (field_value name h); [|done]. apply has_token_spec; [done|lia]. Qed.

(** The checks behind the framing ones, on the fields. *)
Definition field_checks (h : Head) : option bool :=
  match field_value kKeyHeader h, field_value kVersionHeader h with
  | Some k, Some v =>
      if negb (Z.of_nat (length k) =? 24) || negb (equal v kVersion13) then Some false
      else if negb (match field_value kConnectionHeader h with Some v => lists_token kUpgradeHeader v | None => false end) then Some false
      else if negb (match field_value kUpgradeHeader h with Some v => lists_token kWebsocketToken v | None => false end) then Some false
      else decoded ← decode_websocket_key (Some (k ++ [0])) (replicate 16 0); Some (fst decoded)
  | _, _ => Some false
  end.

Lemma handshake_fields bytes h rest r : begins bytes h rest -> head_size h <= 2047 -> request bytes 2047 = Some r -> status r = complete -> describes h r ->
  hd_method h = kGet -> body_size h = 0 -> handshake bytes = field_checks h.
Proof.
  intros [-> Hh] Hsz Hr Hs (Eh & Er & Em & _) Hm Hb. unfold handshake. rewrite Hr. cbn [mbind option_bind].
  rewrite Hs, Em, Er, Eh, Hm, Hb, !bool_decide_eq_true_2 by done. cbn [negb orb]. rewrite Z.add_0_r, Z.eqb_refl. cbn [negb].
  assert (Hsl : slice (render h ++ rest) 0 (head_size h) = Some (render h)) by (by apply (slice_app [] (render h) rest)).
  rewrite Hsl. cbn [mbind option_bind]. rewrite cstr_block by (done || (unfold head_size in Hsz; lia)). cbn [mbind option_bind].
  replace (Z.to_nat (head_size h)) with (length (render h)) by (unfold head_size; lia).
  assert (Hhead : forall name, header (render h) (length (render h) - 4) name = Some (field_value name h)).
  { intros name. rewrite <- (app_nil_r (render h)) at 1. by apply header_head. }
  unfold field_checks. rewrite !Hhead. cbn [mbind option_bind]. destruct (field_value kKeyHeader h), (field_value kVersionHeader h); try done.
  rewrite ascii_equal_equal, !header_token by done. done.
Qed.

(** A request that [handshake] turns down for its framing does not ask for an upgrade. *)
Lemma handshake_framing bytes : exists r, request bytes 2047 = Some r /\
  ((exists h rest, begins bytes h rest /\ head_size h <= 2047 /\ describes h r /\ status r = complete /\ hd_method h = kGet /\ body_size h = 0) \/
   (handshake bytes = Some false /\ forall h rest nonce, begins bytes h rest -> head_size h <= 2047 -> ~ asks_upgrade h nonce)).
Proof.
  destruct (request_verdict bytes 2047 ltac:(lia)) as (r & Hr & Hv). exists r. split; [done|].
  destruct (decide (status r = complete /\ method r = kGet /\ required_size r = header_size r)) as [(Hs & Hm & Hsz)|Hn].
  - left. unfold verdict in Hv. rewrite Hs in Hv. destruct Hv as (h & rest & Hb & Hfit & Hd & _). exists h, rest.
    destruct Hd as (Eh & Er & Em & Ep). assert (0 <= body_size h) by (apply content_length_nonneg, ho_fields, Hb). unfold fits in Hfit.
    do 2 (split; [done || lia|]). split; [done|]. split; [done|]. split; [congruence|lia].
  - right. split.
    + unfold handshake. rewrite Hr. cbn [mbind option_bind].
      destruct (bool_decide (status r = complete)) eqn:E1; [|done]. destruct (bool_decide (method r = kGet)) eqn:E2; [|done].
      apply bool_decide_eq_true in E1, E2. destruct (Z.eqb_spec (required_size r) (header_size r)); [by destruct Hn|done].
    + intros h rest nonce Hb Hsz Hu. apply Hn. destruct Hu as [Hm Hbody _ _ _ _ _]. unfold verdict in Hv.
      assert (Hfit : fits 2047 h) by (unfold fits; lia).
      assert (Hsame : forall h' rest', begins bytes h' rest' -> describes h' r -> method r = kGet /\ required_size r = header_size r).
      { intros h' rest' Hb' (Eh & Er & Em & _). destruct (begins_unique _ _ _ _ _ Hb' Hb) as [-> _]. split; [congruence|lia]. }
      destruct (status r).
      * destruct Hv as [(Hk & _)|(h' & rest' & Hb' & _ & _ & Hlt)].
        { destruct Hb as [-> Hh]. destruct (clean_render h Hh) as [Hc Hcs]. assert (Hf := find_blank _ _ rest Hc Hcs).
          unfold render in Hk. rewrite <- !app_assoc in Hk. by rewrite Hf in Hk. }
        destruct (begins_unique _ _ _ _ _ Hb' Hb) as [-> _]. lia.
      * destruct Hv as (h' & rest' & Hb' & _ & Hd & _). split; [done|by apply (Hsame h' rest')].
      * destruct Hv as [_ Hv]. destruct (Hv [] h rest). by rewrite app_nil_r.
      * destruct Hv as [_ Hv]. destruct (Hv [] h rest); [by rewrite app_nil_r|done].
Qed.

Ltac turned_down := exists false; split; [done|]; split; [done|]; intros (nonce & [? ? (? & ? & ?) ? ? (? & ? & ?) (? & ? & ?)]); congruence.

Lemma field_checks_spec h : head_ok h -> bytes_ok (render h) -> hd_method h = kGet -> body_size h = 0 ->
  exists b, field_checks h = Some b /\ (b = true <-> exists nonce, asks_upgrade h nonce).
Proof.
  intros Hh Hbytes Hm Hbody. unfold field_checks.
  destruct (field_value kKeyHeader h) as [k|] eqn:Ek; [|turned_down]. destruct (field_value kVersionHeader h) as [v|] eqn:Ev; [|turned_down].
  assert (H13 : Forall digit kVersion13) by (repeat constructor; unfold digit; lia).
  destruct (Z.eqb_spec (Z.of_nat (length k)) 24) as [Hlen|Hlen]; cbn [negb orb].
  2:{ exists false. split; [done|]. split; [done|]. intros (nonce & [_ _ (k' & Ek' & Hk') [Hn1 Hn2] _ _ _]). assert (k' = k) as -> by congruence.
      apply (f_equal length) in Hk'. destruct (key_split nonce Hn1 Hn2) as (bs' & x & -> & Hb' & Hx & Hl').
      destruct (base64_encode_16 bs' x Hb' Hl' Hx) as [E HL]. rewrite E, !length_app, HL in Hk'. cbn in Hk'. lia. }
  destruct (equal v kVersion13) eqn:E13; cbn [negb].
  2:{ exists false. split; [done|]. split; [done|]. intros (nonce & [_ _ _ _ Ev' _ _]). assert (v = kVersion13) as -> by congruence.
      by rewrite (proj2 (equal_digits _ H13 _) eq_refl) in E13. }
  apply (equal_digits _ H13) in E13 as ->.
  destruct (field_value kConnectionHeader h) as [vc|] eqn:Ec; [|turned_down]. destruct (lists_token kUpgradeHeader vc) eqn:Lc; [|turned_down].
  destruct (field_value kUpgradeHeader h) as [vu|] eqn:Eu; [|turned_down]. destruct (lists_token kWebsocketToken vu) eqn:Lu; [|turned_down].
  destruct (decode_websocket_key_spec k [] (replicate 16 0) (value_bytes _ _ _ Hbytes Hh Ek) eq_refl) as (b & d & -> & Hsound & Hcompl).
  exists b. cbn. split; [done|]. split.
  - intros Hbt. destruct (Hsound Hbt) as (Hd1 & Hd2 & Hd3). exists d. split; try done; [by exists k|by exists vc|by exists vu].
  - intros (nonce & [_ _ (k' & Ek' & Hk') [Hn1 Hn2] _ _ _]). assert (k' = k) as -> by congruence. by destruct (Hcompl nonce Hn1 Hn2 Hk').
Qed.

Lemma handshake_returns bytes : bytes_ok bytes -> is_Some (handshake bytes).
Proof.
  intros Hbytes. destruct (handshake_framing bytes) as (r & Hr & [(h & rest & Hb & Hsz & Hd & Hs & Hm & Hbody)|[-> _]]); [|done].
  rewrite (handshake_fields bytes h rest r) by done. destruct Hb as [-> Hh]. apply Forall_app in Hbytes as [Hb _].
  by destruct (field_checks_spec h Hh Hb Hm Hbody) as (b & -> & _).
Qed.


(** An upgrade request of a browser. *)
Definition sample_upgrade : list Z :=
  kGet ++ 32 :: 47 :: 32 :: version_text ++ CRLF
  ++ kUpgradeHeader ++ 58 :: kWebsocketToken ++ CRLF
  ++ kConnectionHeader ++ 58 :: bytes_of_string "keep-alive, upgrade"%str ++ CRLF
  ++ kKeyHeader ++ 58 :: 32 :: bytes_of_string "dGhlIHNhbXBsZSBub25jZQ=="%str ++ CRLF
  ++ kVersionHeader ++ 58 :: kVersion13 ++ CRLF ++ CRLF.

(** *** The opening handshake of RFC 6455

    Section 4.2.1 asks besides for a Host field, and says nothing of a body. *)
Definition kHostHeader : list Z := Eval vm_compute in bytes_of_string "Host"%str.
Record rfc6455_opening (h : Head) (nonce : list Z) : Prop := {
  ro_get : hd_method h = kGet;
  ro_host : is_Some (field_value kHostHeader h);
  ro_upgrade : exists v, field_value kUpgradeHeader h = Some v /\ lists_token kWebsocketToken v = true;
  ro_connection : exists v, field_value kConnectionHeader h = Some v /\ lists_token kUpgradeHeader v = true;
  ro_key : exists k, field_value kKeyHeader h = Some k /\ k ++ [0] = base64_encode nonce /\ bytes_ok nonce /\ length nonce = 16%nat;
  ro_version : field_value kVersionHeader h = Some kVersion13;
}.

Lemma opening_asks h nonce : body_size h = 0 -> rfc6455_opening h nonce -> asks_upgrade h nonce.
Proof. intros Hb [H1 _ H3 H4 (k & H5 & H6 & H7 & H8) H9]. split; try done. by exists k. Qed.

(** Every opening handshake of the RFC that is a head as the parser takes it,
    without a body, is accepted. *)
Theorem ws_handshake_takes_openings bytes h rest nonce : bytes_ok bytes -> begins bytes h rest -> head_size h <= 2047 -> body_size h = 0 ->
  rfc6455_opening h nonce -> handshake bytes = Some true.
Proof.
  intros Hbytes [E Hh] Hsz Hbody Ho. destruct (handshake_framing bytes) as (r & Hr & [(h' & rest' & Hb' & _ & Hd & Hs & Hm & _)|[_ Hno]]).
  2:{ destruct (Hno h rest nonce (conj E Hh) Hsz). by apply opening_asks. }
  destruct (begins_unique _ _ _ _ _ Hb' (conj E Hh)) as [-> ->]. rewrite (handshake_fields bytes h rest r) by done.
  destruct (field_checks_spec h Hh) as (b & -> & Hiff); [rewrite E in Hbytes; by apply Forall_app in Hbytes as [? _]|done|done|].
  f_equal. apply Hiff. exists nonce. by apply opening_asks.
Qed.

(** The Host field is not asked for; a target in absolute form is refused. *)
Theorem ws_handshake_without_host : find kHostHeader sample_upgrade = None /\ handshake sample_upgrade = Some true.
Proof. by vm_compute. Qed.

Definition absolute_upgrade : list Z :=
  kGet ++ 32 :: bytes_of_string "http://h/"%str ++ 32 :: version_text ++ CRLF ++ kHostHeader ++ 58 :: 104 :: CRLF ++ drop (length kGet + 3 + length version_text + 2) sample_upgrade.
Theorem ws_handshake_absolute_target : handshake absolute_upgrade = Some false.
Proof. by vm_compute. Qed.
