(* ===== verification/HttpJson.v ===== *)
(** * The order a request body describes (luv_http_server.cpp)

    The JSON members of POST /api/v1/orders and the numbers in a path.  A
    [const char*] is the C string it points to, [None] a null pointer. *)
From Stdlib Require Import ZArith Lia ZifyBool.
From Stdlib Require String Ascii.
From S2P Require Import Prelude Numeric Bytes Text Config ExecTypes WsFill HttpWire HttpRequest.
Import String.StringSyntax.
#[local] Delimit Scope string_scope with str.

Definition is_digit (c : Z) : bool := (48 <=? c) && (c <=? 57).

(** The digits at the front as a [uint64_t], with the text behind them;
    [None] on overflow. *)
Fixpoint read_digits (text : list Z) (parsed : Z) : option (Z * list Z) :=
  match text with
  | c :: r =>
      if is_digit c then
        let digit := c - 48 in
        if (UINT64_MAX - digit) / 10 <? parsed then None else read_digits r (parsed * 10 + digit)
      else Some (parsed, text)
  | [] => Some (parsed, [])
  end.

Definition starts_digit (text : list Z) : bool := match text with c :: _ => is_digit c | [] => false end.

Definition number (text : option (list Z)) : option (Z * list Z) :=
  match text with
  | None => None
  | Some text => if starts_digit text then read_digits text 0 else None
  end.

Fixpoint skip_colons (text : list Z) : list Z :=
  match text with
  | c :: r => if (c =? 32) || (c =? 9) || (c =? 58) then skip_colons r else text
  | [] => []
  end.

(** The text of the member [key]: behind its first occurrence in quotes. *)
Definition value (body key : list Z) : option (list Z) :=
  let needle := [34] ++ key ++ [34] in
  if 48 <=? Z.of_nat (length needle) then None
  else
    found ← find needle body;
    Some (skip_colons (drop (found + length needle) body)).

Fixpoint json_value_end (text : list Z) : bool :=
  match text with
  | c :: r => if (c =? 32) || (c =? 9) || (c =? 13) || (c =? 10) then json_value_end r else (c =? 44) || (c =? 125)
  | [] => true
  end.

Definition json_uint64 (text : option (list Z)) : option Z :=
  r ← number text;
  if json_value_end (snd r) then Some (fst r) else None.

Definition text_buy : list Z := Eval vm_compute in bytes_of_string "buy"%str ++ [34].
Definition text_sell : list Z := Eval vm_compute in bytes_of_string "sell"%str ++ [34].

Definition json_side (text : option (list Z)) : option Z :=
  match text with
  | Some (c :: text) =>
      if negb (c =? 34) then None
      else if starts text_buy text then if json_value_end (drop 4 text) then Some exec.kBuy else None
      else if starts text_sell text then if json_value_end (drop 5 text) then Some exec.kSell else None
      else None
  | _ => None
  end.

(** The digits behind the point: at most four. *)
Fixpoint read_fraction (text : list Z) (fractional digits : Z) : option (Z * Z * list Z) :=
  match text with
  | c :: r =>
      if is_digit c then
        if digits =? 4 then None else read_fraction r (fractional * 10 + (c - 48)) (digits + 1)
      else Some (fractional, digits, text)
  | [] => Some (fractional, digits, [])
  end.

Definition json_decimal_price (text : option (list Z)) : option Z :=
  r ← number text;
  let '(whole, text) := r in
  f ← match text with
      | c :: rest =>
          if c =? 46 then
            f ← read_fraction rest 0 0;
            if snd (fst f) =? 0 then None else Some f
          else Some (0, 0, text)
      | [] => Some (0, 0, text)
      end;
  let '(fractional, digits, text) := f in
  if negb (json_value_end text) then None
  else
    let fractional := fractional * 10 ^ (4 - digits) in
    if (INT64_MAX - fractional) / 10000 <? whole then None
    else Some (whole * 10000 + fractional).

Definition symbol_char (c : Z) : bool :=
  ((65 <=? c) && (c <=? 90)) || ((97 <=? c) && (c <=? 122)) || ((48 <=? c) && (c <=? 57)) || (c =? 46) || (c =? 45).

Definition symbol_upper (c : Z) : Z := if (97 <=? c) && (c <=? 122) then c - 97 + 65 else c.

(** The characters of a ticker up to the closing quote: their hash and number. *)
Fixpoint read_symbol (text : list Z) (hash length : Z) : option (Z * Z * list Z) :=
  match text with
  | c :: r =>
      if c =? 34 then Some (hash, length, text)
      else if (length =? 8) || negb (symbol_char c) then None
      else read_symbol r (u32 (Z.lxor hash (symbol_upper c) * 16777619)) (length + 1)
  | [] => Some (hash, length, [])
  end.

Definition json_symbol_index (text : option (list Z)) : option Z :=
  match text with
  | Some (c :: text) =>
      if negb (c =? 34) then None
      else
        r ← read_symbol text 2166136261 0;
        let '(hash, length, text) := r in
        match text with
        | q :: rest => if (q =? 34) && negb (length =? 0) && json_value_end rest then Some (hash mod kSymbols) else None
        | [] => None
        end
  | _ => None
  end.

Definition key_symbol_idx : list Z := Eval vm_compute in bytes_of_string "symbol_idx"%str.
Definition key_symbol : list Z := Eval vm_compute in bytes_of_string "symbol"%str.
Definition key_side : list Z := Eval vm_compute in bytes_of_string "side"%str.
Definition key_qty : list Z := Eval vm_compute in bytes_of_string "qty"%str.
Definition key_price : list Z := Eval vm_compute in bytes_of_string "price"%str.

(** [submit_order]; [now] is the clock.  The order's id is set by the caller. *)
Definition submit_order (body : list Z) (now : Z) : option OrderIntent :=
  let symbol_idx := value body key_symbol_idx in
  let symbol := value body key_symbol in
  let price_text := value body key_price in
  if Bool.eqb (bool_decide (symbol_idx = None)) (bool_decide (symbol = None)) then None
  else
    qty ← json_uint64 (value body key_qty);
    if INT64_MAX <? qty then None
    else
      side ← json_side (value body key_side);
      r ← (if negb (bool_decide (symbol_idx = None)) then
             parsed ← json_uint64 symbol_idx;
             if kSymbols <=? parsed then None
             else
               legacy ← json_uint64 price_text;
               if INT64_MAX <? legacy then None else Some (u16 parsed, legacy)
           else
             index ← json_symbol_index symbol;
             price ← json_decimal_price price_text;
             Some (index, price));
      Some (mkIntent (fst r) side qty (snd r) now now 0 exec.kDay).

(** A number behind a prefix of the path, and nothing else. *)
Definition path_number (path prefix : list Z) : option Z :=
  if negb (starts prefix path) then None
  else
    r ← number (Some (drop (length prefix) path));
    if bool_decide (snd r = []) then Some (fst r) else None.
