(* ===== verification/HttpOrder.v ===== *)
(** * Order bodies that round-trip

    An order printed as a JSON object, its members in any order, is read back
    as that order; whatever is read is in range. *)
From Stdlib Require Import ZArith Lia ZifyBool.
From Stdlib Require String Ascii.
From S2P Require Import Prelude Numeric Bytes Text Config ExecTypes WsFill HttpWire HttpRequest HttpJson.
Import String.StringSyntax.
#[local] Delimit Scope string_scope with str.

(** ** Text between quotes *)
Fixpoint quoted (segs : list (list Z)) : list Z :=
  match segs with
  | [] => []
  | s :: segs => 34 :: s ++ quoted segs
  end.

(** The segments behind the first one that is [key], another following it. *)
Fixpoint behind (key : list Z) (segs : list (list Z)) : option (list (list Z)) :=
  match segs with
  | [] | [_] => None
  | s :: segs => if bool_decide (s = key) then Some segs else behind key segs
  end.

Definition bare (l : list Z) : Prop := 34 ∉ l.

Lemma find_skip c p l s : c ∉ l -> find (c :: p) (l ++ s) = Nat.add (length l) <$> find (c :: p) s.
Proof.
  induction l as [|d l IH]; intros Hc; [cbn [app length]; by destruct (find (c :: p) s)|]. rewrite not_elem_of_cons in Hc. destruct Hc as [Hcd Hc].
  cbn [app find starts]. destruct (Z.eqb_spec c d); [done|]. cbn [andb]. rewrite IH by done. by destruct (find (c :: p) s).
Qed.

Lemma starts_quoted key s segs : bare key -> bare s ->
  starts (key ++ [34]) (s ++ quoted segs) = bool_decide (s = key) && negb (bool_decide (segs = [])).
Proof.
  intros Hk Hs. destruct (starts (key ++ [34]) (s ++ quoted segs)) eqn:E.
  - apply starts_iff in E as [r E]. rewrite <- app_assoc in E. assert (Hf := find_after 34 [] key r Hk). rewrite <- E in Hf.
    destruct segs as [|s' segs].
    + cbn [quoted] in Hf. rewrite app_nil_r in Hf. assert (Hn : find [34] s = None) by by apply find_char_None. congruence.
    + cbn [quoted] in E, Hf. assert (Hf' := find_after 34 [] s (s' ++ quoted segs) Hs). cbn [app] in Hf'. rewrite Hf' in Hf. injection Hf as Hl.
      apply app_inj_1 in E as [-> _]; [|done]. by rewrite (bool_decide_eq_true_2 (key = key)), bool_decide_eq_false_2.
  - symmetry. apply not_true_iff_false. intros H. rewrite andb_true_iff, negb_true_iff, bool_decide_eq_true, bool_decide_eq_false in H. destruct H as [-> Hne].
    destruct segs as [|s' segs]; [done|]. apply (proj1 (starts_false_app _ _) E (s' ++ quoted segs)). cbn [quoted]. by rewrite <- app_assoc.
Qed.

Lemma find_quoted key segs : bare key -> Forall bare segs ->
  match find ([34] ++ key ++ [34]) (quoted segs) with
  | Some k => exists segs' s', behind key segs = Some (s' :: segs') /\ drop (k + length ([34] ++ key ++ [34])) (quoted segs) = s' ++ quoted segs'
  | None => behind key segs = None
  end.
Proof.
  intros Hk Hs. induction Hs as [|s segs Hs Hsegs IH]; [done|]. cbn [quoted find]. change (starts ([34] ++ key ++ [34]) (34 :: ?x)) with (starts (key ++ [34]) x).
  rewrite starts_quoted by done. destruct segs as [|s' segs].
  - cbn [quoted behind]. rewrite (bool_decide_eq_true_2 ([] = [])), andb_false_r, app_nil_r by done.
    assert (E : find ([34] ++ key ++ [34]) s = None); [|by rewrite E].
    apply find_first_None. intros l r ->. apply Hs. set_solver.
  - cbn [behind]. rewrite (bool_decide_eq_false_2 (s' :: segs = [])), andb_true_r by done. case_bool_decide as E.
    + subst s. exists segs, s'. split; [done|]. cbn [quoted Nat.add]. change ([34] ++ key ++ [34]) with (34 :: key ++ [34]). cbn [length drop].
      rewrite length_app. cbn [length]. rewrite <- drop_drop, drop_app_length. done.
    + change ([34] ++ key ++ [34]) with (34 :: key ++ [34]) in *. rewrite find_skip by done.
      destruct (find (34 :: key ++ [34]) (quoted (s' :: segs))) as [k|]; [|done]. cbn [fmap option_fmap option_map].
      destruct IH as (segs' & s'' & Hb & Hd). exists segs', s''. split; [done|]. rewrite <- Hd.
      change (34 :: s ++ quoted (s' :: segs)) with ((34 :: s) ++ quoted (s' :: segs)).
      set (n := length (34 :: key ++ [34])) in *. rewrite <- (drop_app_length (34 :: s) (quoted (s' :: segs))) at 2. rewrite drop_drop.
      f_equal. cbn [length]. lia.
Qed.

(** ** Objects *)
Record Member := mkMember { mb_key : list Z; mb_quoted : bool; mb_text : list Z }.

Definition member_segs (m : Member) (stop : Z) : list (list Z) :=
  if mb_quoted m then [mb_key m; [58]; mb_text m; [stop]] else [mb_key m; 58 :: mb_text m ++ [stop]].

Fixpoint object_segs (ms : list Member) : list (list Z) :=
  match ms with
  | [] => []
  | [m] => member_segs m 125
  | m :: ms => member_segs m 44 ++ object_segs ms
  end.

(** The object with these members. *)
Definition object (ms : list Member) : list Z := 123 :: quoted (object_segs ms).

Definition form (m : Member) : list Z := if mb_quoted m then 34 :: mb_text m ++ [34] else mb_text m.

Record member_ok (m : Member) : Prop := {
  mo_key : bare (mb_key m);
  mo_text : bare (mb_text m);
  mo_number : mb_quoted m = false -> starts_digit (mb_text m) = true;
}.

(** A key that only a member of that name shows in quotes. *)
Definition plain_key (key : list Z) (ms : list Member) : Prop :=
  bare key /\ (58 ∉ key) /\ key <> [44] /\ key <> [125] /\ Forall (fun m => mb_quoted m = true -> mb_text m <> key) ms.

Lemma behind_member key m stop rest : plain_key key [m] -> stop = 44 \/ stop = 125 -> mb_key m <> key ->
  behind key (member_segs m stop ++ rest) = behind key rest.
Proof.
  intros (_ & H58 & H44 & H125 & Hq%Forall_inv) Hstop Hne. unfold member_segs.
  assert (Hs : [stop] <> key) by (destruct Hstop as [-> | ->]; congruence). assert (Hc : [58] <> key) by (intros <-; apply H58; left).
  destruct (mb_quoted m); cbn [app behind].
  - rewrite (bool_decide_eq_false_2 _ Hne), (bool_decide_eq_false_2 _ Hc), (bool_decide_eq_false_2 _ (Hq eq_refl)).
    destruct rest; [done|]. by rewrite (bool_decide_eq_false_2 _ Hs).
  - rewrite (bool_decide_eq_false_2 _ Hne). destruct rest; [done|]. rewrite bool_decide_eq_false_2; [done|]. intros <-. apply H58. left.
Qed.

Lemma plain_key_sub key m ms : plain_key key (m :: ms) -> plain_key key [m] /\ plain_key key ms.
Proof. intros (H1 & H2 & H3 & H4 & H5). apply Forall_cons in H5 as [H5 H6]. split; (do 4 (split; [done|])); [by constructor|done]. Qed.

Lemma behind_absent key ms : plain_key key ms -> key ∉ (mb_key <$> ms) -> behind key (object_segs ms) = None.
Proof.
  induction ms as [|m ms IH]; intros Hk Hin; [done|]. apply plain_key_sub in Hk as [Hm Hk]. cbn in Hin. rewrite not_elem_of_cons in Hin.
  destruct Hin as [Hne Hin]. cbn [object_segs]. destruct ms as [|m' ms].
  - rewrite <- (app_nil_r (member_segs m 125)), behind_member; auto.
  - rewrite behind_member; auto.
Qed.

Lemma behind_present key m ms : plain_key key ms -> NoDup (mb_key <$> ms) -> m ∈ ms -> mb_key m = key ->
  exists s segs stop tail, behind key (object_segs ms) = Some (s :: segs) /\ s ++ quoted segs = 58 :: form m ++ stop :: tail /\ (stop = 44 \/ stop = 125).
Proof.
  assert (Here : forall stop rest, stop = 44 \/ stop = 125 ->
    exists s segs tail, behind (mb_key m) (member_segs m stop ++ rest) = Some (s :: segs) /\ s ++ quoted segs = 58 :: form m ++ stop :: tail).
  { intros stop rest Hs. unfold member_segs, form. destruct (mb_quoted m); cbn [app behind]; rewrite bool_decide_eq_true_2 by done.
    - exists [58], (mb_text m :: [stop] :: rest), (quoted rest). split; [done|]. cbn [quoted app]. by rewrite <- app_assoc.
    - exists (58 :: mb_text m ++ [stop]), rest, (quoted rest). split; [done|]. cbn [app]. by rewrite <- app_assoc. }
  induction ms as [|m0 ms IH]; intros Hk Hnd Hin Em; [by apply not_elem_of_nil in Hin|]. apply plain_key_sub in Hk as [Hm Hk].
  cbn in Hnd. apply NoDup_cons in Hnd as [Hni Hnd]. cbn [object_segs]. apply elem_of_cons in Hin as [<-|Hin].
  - rewrite <- Em. destruct ms as [|m' ms].
    + destruct (Here 125 [] ltac:(by right)) as (s & segs & tail & Hb & E). rewrite app_nil_r in Hb. exists s, segs, 125, tail. auto.
    + destruct (Here 44 (object_segs (m' :: ms)) ltac:(by left)) as (s & segs & tail & Hb & E). exists s, segs, 44, tail. auto.
  - destruct ms as [|m' ms]; [by apply not_elem_of_nil in Hin|]. rewrite behind_member; [|done|by left|].
    + by apply IH.
    + intros E. apply Hni. rewrite E, <- Em. by apply list_elem_of_fmap_2.
Qed.

Lemma object_bare ms : Forall member_ok ms -> Forall bare (object_segs ms).
Proof.
  assert (Hm : forall m stop, member_ok m -> stop = 44 \/ stop = 125 -> Forall bare (member_segs m stop)).
  { intros m stop [Hk Ht _] Hs. unfold member_segs, bare in *. destruct (mb_quoted m); repeat constructor; set_solver by lia. }
  induction 1 as [|m ms Hok _ IH]; [constructor|]. cbn [object_segs]. destruct ms; [by apply Hm; auto|]. apply Forall_app. split; [by apply Hm; auto|done].
Qed.

Lemma value_object key ms : Forall member_ok ms -> plain_key key ms -> NoDup (mb_key <$> ms) -> (length key < 46)%nat ->
  (key ∉ (mb_key <$> ms) -> value (object ms) key = None) /\
  (forall m, m ∈ ms -> mb_key m = key -> exists stop tail, value (object ms) key = Some (form m ++ stop :: tail) /\ (stop = 44 \/ stop = 125)).
Proof.
  intros Hms Hk Hnd Hlen. unfold value, object. assert (Hl : length ([34] ++ key ++ [34]) = (length key + 2)%nat) by (rewrite !length_app; cbn; lia).
  destruct (Z.leb_spec 48 (Z.of_nat (length ([34] ++ key ++ [34])))) as [|_]; [lia|].
  assert (Hf := find_quoted key _ (proj1 Hk) (object_bare ms Hms)).
  assert (Hsk : find ([34] ++ key ++ [34]) (123 :: quoted (object_segs ms)) = S <$> find ([34] ++ key ++ [34]) (quoted (object_segs ms))) by done.
  rewrite Hsk. clear Hsk Hl Hlen. destruct (find ([34] ++ key ++ [34]) (quoted (object_segs ms))) as [k|]; cbn [fmap option_fmap option_map mbind option_bind].
  - destruct Hf as (segs & s & Hb & Hd). cbn [drop Nat.add]. rewrite Hd. split.
    + intros Hni. by rewrite (behind_absent key ms Hk Hni) in Hb.
    + intros m Hin Em. destruct (behind_present key m ms Hk Hnd Hin Em) as (s0 & segs0 & stop & tail & Hb' & E & Hs).
      rewrite Hb in Hb'. injection Hb' as <- <-. exists stop, tail. split; [|done]. rewrite E. f_equal. cbn [skip_colons orb Z.eqb Pos.eqb].
      rewrite Forall_forall in Hms. destruct (Hms m Hin) as [_ _ Hn]. unfold form. destruct (mb_quoted m); [done|].
      specialize (Hn eq_refl). destruct (mb_text m) as [|c t]; [done|]. cbn in Hn. unfold is_digit in Hn. cbn [app skip_colons]. case_if; [lia|done].
  - split; [done|]. intros m Hin Em. destruct (behind_present key m ms Hk Hnd Hin Em) as (? & ? & ? & ? & Hb & _). congruence.
Qed.

(** ** Numbers *)
Definition total (acc : Z) (l : list Z) : Z := foldl (fun a c => a * 10 + (c - 48)) acc l.

Lemma is_digit_iff c : is_digit c = true <-> digit c.
Proof. unfold is_digit, digit. lia. Qed.

Lemma total_ge acc l : Forall digit l -> 0 <= acc -> acc <= total acc l.
Proof.
  intros Hl. revert acc. induction Hl as [|c l Hc _ IH]; intros acc Ha; [cbn; lia|]. cbn. unfold digit in Hc.
  specialize (IH (acc * 10 + (c - 48)) ltac:(lia)). unfold total in IH. lia.
Qed.

(** [read_digits] reads the longest run of digits, or overflows. *)
Lemma read_digits_run l rest acc : Forall digit l -> starts_digit rest = false -> 0 <= acc <= UINT64_MAX ->
  read_digits (l ++ rest) acc = if UINT64_MAX <? total acc l then None else Some (total acc l, rest).
Proof.
  intros Hl Hr. revert acc. induction Hl as [|c l Hc Hl IH]; intros acc Ha.
  - cbn [app total foldl]. destruct (Z.ltb_spec UINT64_MAX acc); [lia|]. destruct rest as [|c r]; [done|]. cbn in Hr |- *. by rewrite Hr.
  - cbn [app read_digits]. rewrite (proj2 (is_digit_iff c) Hc). unfold digit in Hc.
    assert (Hdiv : (UINT64_MAX - (c - 48)) / 10 < acc <-> UINT64_MAX < acc * 10 + (c - 48)).
    { pose proof (Z.div_mod (UINT64_MAX - (c - 48)) 10). pose proof (Z.mod_pos_bound (UINT64_MAX - (c - 48)) 10). lia. }
    change (total acc (c :: l)) with (total (acc * 10 + (c - 48)) l).
    destruct (Z.ltb_spec ((UINT64_MAX - (c - 48)) / 10) acc).
    + pose proof (total_ge (acc * 10 + (c - 48)) l Hl ltac:(lia)). destruct (Z.ltb_spec UINT64_MAX (total (acc * 10 + (c - 48)) l)); [done|lia].
    + apply IH. lia.
Qed.

(** The longest run of digits at the front. *)
Lemma digit_run text : exists l rest, text = l ++ rest /\ Forall digit l /\ starts_digit rest = false /\ (starts_digit text = true -> l <> []).
Proof.
  induction text as [|c text (l & rest & -> & Hl & Hr & _)]; [by exists [], []|]. destruct (is_digit c) eqn:Ec.
  - exists (c :: l), rest. split; [done|]. split; [constructor; [by apply is_digit_iff|done]|]. done.
  - exists [], (c :: l ++ rest). split; [done|]. split; [done|]. split; [done|]. cbn. congruence.
Qed.

Lemma number_run l rest : Forall digit l -> l <> [] -> starts_digit rest = false -> digits_value l <= UINT64_MAX ->
  number (Some (l ++ rest)) = Some (digits_value l, rest).
Proof.
  intros Hl Hne Hr Hv. unfold number. destruct l as [|c l]; [done|]. inversion Hl as [|? ? Hc Hl']; subst. cbn [app starts_digit].
  rewrite (proj2 (is_digit_iff c) Hc). change (c :: l ++ rest) with ((c :: l) ++ rest). rewrite read_digits_run by (done || lia).
  change (total 0 (c :: l)) with (digits_value (c :: l)). destruct (Z.ltb_spec UINT64_MAX (digits_value (c :: l))); [lia|done].
Qed.

Lemma number_inv text v rest : number (Some text) = Some (v, rest) ->
  exists l, text = l ++ rest /\ Forall digit l /\ l <> [] /\ v = digits_value l /\ 0 <= v <= UINT64_MAX.
Proof.
  unfold number. destruct (starts_digit text) eqn:Hs; [|done]. destruct (digit_run text) as (l & r & -> & Hl & Hr & Hne).
  rewrite read_digits_run by (done || lia). case_if; [done|]. intros [= <- <-]. exists l. split; [done|]. split; [done|]. split; [auto|]. split; [done|].
  pose proof (total_ge 0 l Hl ltac:(lia)). lia.
Qed.

Definition stops (stop : Z) : Prop := stop = 44 \/ stop = 125.

Lemma json_uint64_decimal v stop tail : in_u 64 v -> stops stop -> json_uint64 (Some (decimal v ++ stop :: tail)) = Some v.
Proof.
  intros Hv Hs. destruct (decimal_reads v Hv) as [(Hne & Hd & Hval & _) _]. unfold json_uint64, in_u in *. change (2 ^ 64) with 18446744073709551616 in Hv.
  rewrite number_run by (done || lia || (destruct Hs as [-> | ->]; done)). cbn [mbind option_bind snd fst]. rewrite Hval.
  by destruct Hs as [-> | ->].
Qed.

Lemma json_uint64_range text v : json_uint64 text = Some v -> 0 <= v <= UINT64_MAX.
Proof.
  unfold json_uint64. destruct text as [text|]; [|done]. destruct (number (Some text)) as [[v' rest]|] eqn:E; [|done]. cbn.
  apply number_inv in E as (l & _ & _ & _ & _ & Hv). case_if; [|done]. by intros [= <-].
Qed.

(** ** Sides and tickers *)
Definition side_text (side : Z) : list Z := if side =? exec.kBuy then take 3 text_buy else take 4 text_sell.

Lemma json_side_text side stop tail : side = exec.kBuy \/ side = exec.kSell -> stops stop ->
  json_side (Some ((34 :: side_text side ++ [34]) ++ stop :: tail)) = Some side.
Proof. intros [-> | ->] [-> | ->]; done. Qed.

Lemma json_side_range text side : json_side text = Some side -> side = exec.kBuy \/ side = exec.kSell.
Proof. unfold json_side. destruct text as [[|c text]|]; [done| |done]. repeat (case_if; try done); intros [= <-]; auto. Qed.

(** The index of a ticker: FNV-1a over its upper-case letters. *)
Definition ticker_hash (t : list Z) : Z := foldl (fun h c => u32 (Z.lxor h (symbol_upper c) * 16777619)) 2166136261 t.
Definition ticker_ok (t : list Z) : Prop := t <> [] /\ (length t <= 8)%nat /\ forallb symbol_char t = true.

Lemma read_symbol_run t rest hash n : forallb symbol_char t = true -> 0 <= n -> n + Z.of_nat (length t) <= 8 ->
  read_symbol (t ++ 34 :: rest) hash n = Some (foldl (fun h c => u32 (Z.lxor h (symbol_upper c) * 16777619)) hash t, n + Z.of_nat (length t), 34 :: rest).
Proof.
  revert hash n. induction t as [|c t IH]; intros hash n; cbn [app read_symbol forallb foldl length].
  - intros _ _ _. cbn. by rewrite Z.add_0_r.
  - rewrite andb_true_iff. intros [Hc Ht] Hn Hl. assert (Hq : (c =? 34) = false) by (unfold symbol_char in Hc; lia). rewrite Hq, Hc.
    destruct (Z.eqb_spec n 8); [lia|]. cbn [negb orb]. rewrite IH by (done || lia). f_equal. f_equal. f_equal. lia.
Qed.

Lemma json_symbol_text t stop tail : ticker_ok t -> stops stop -> json_symbol_index (Some ((34 :: t ++ [34]) ++ stop :: tail)) = Some (ticker_hash t mod kSymbols).
Proof.
  intros (Hne & Hl & Ht) Hs. unfold json_symbol_index. cbn [app]. rewrite Z.eqb_refl. cbn [negb].
  rewrite <- app_assoc. cbn [app]. rewrite read_symbol_run by (done || lia). cbn [mbind option_bind]. fold (ticker_hash t).
  destruct (Z.eqb_spec (0 + Z.of_nat (length t)) 0); [destruct t; [done|cbn in *; lia]|]. destruct Hs as [-> | ->]; done.
Qed.

Lemma json_symbol_range text i : json_symbol_index text = Some i -> 0 <= i < kSymbols.
Proof.
  unfold json_symbol_index. destruct text as [[|c text]|]; [done| |done]. case_if; [done|].
  destruct (read_symbol text _ 0) as [[[h n] [|q rest]]|]; [done| |done]. cbn. case_if; [|done]. intros [= <-]. apply Z.mod_pos_bound. done.
Qed.

(** ** Prices *)
Definition price_text (w f : list Z) : list Z := w ++ (match f with [] => [] | _ => 46 :: f end).
Definition price_value (w f : list Z) : Z := digits_value w * 10000 + digits_value f * 10 ^ (4 - Z.of_nat (length f)).

(** A decimal price at most [INT64_MAX] ten-thousandths. *)
Record price_ok (w f : list Z) : Prop := {
  po_whole : w <> [] /\ Forall digit w;
  po_fraction : Forall digit f /\ (length f <= 4)%nat;
  po_range : price_value w f <= INT64_MAX;
}.

Lemma read_fraction_run f rest acc n : Forall digit f -> starts_digit rest = false -> 0 <= n -> n + Z.of_nat (length f) <= 4 ->
  read_fraction (f ++ rest) acc n = Some (total acc f, n + Z.of_nat (length f), rest).
Proof.
  intros Hf Hr. revert acc n. induction Hf as [|c f Hc _ IH]; intros acc n Hn Hl; cbn [app read_fraction length] in *.
  - rewrite Z.add_0_r. destruct rest as [|c r]; [done|]. cbn in Hr |- *. by rewrite Hr.
  - rewrite (proj2 (is_digit_iff c) Hc). destruct (Z.eqb_spec n 4); [lia|]. rewrite IH by lia. f_equal. f_equal. f_equal. lia.
Qed.

Lemma read_fraction_inv text : forall acc n v d rest, 0 <= n <= 4 -> read_fraction text acc n = Some (v, d, rest) ->
  exists f, text = f ++ rest /\ Forall digit f /\ v = total acc f /\ d = n + Z.of_nat (length f) /\ d <= 4.
Proof.
  induction text as [|c text IH]; intros acc n v d rest Hn; cbn [read_fraction].
  - intros [= <- <- <-]. exists []. cbn. split; [done|]. split; [done|]. lia.
  - destruct (is_digit c) eqn:Ec.
    + destruct (Z.eqb_spec n 4); [done|]. intros (f & -> & Hf & -> & -> & Hd)%IH; [|lia]. exists (c :: f). split; [done|].
      split; [constructor; [by apply is_digit_iff|done]|]. split; [done|]. cbn [length]. lia.
    + intros [= <- <- <-]. exists []. cbn. split; [done|]. split; [done|]. lia.
Qed.

Lemma value_end_stop rest : json_value_end rest = true -> starts_digit rest = false /\ (forall r, rest <> 46 :: r).
Proof.
  destruct rest as [|c rest]; [done|]. cbn. intros H. unfold is_digit. split; [|intros r [= -> ->]; done].
  apply not_true_iff_false. intros Hd. case_if_in H; lia.
Qed.

Lemma scaled_range w f : Forall digit w -> Forall digit f -> (length f <= 4)%nat ->
  0 <= digits_value w /\ 0 <= digits_value f * 10 ^ (4 - Z.of_nat (length f)).
Proof.
  intros Hw Hf Hl. pose proof (total_ge 0 w Hw ltac:(lia)). pose proof (total_ge 0 f Hf ltac:(lia)).
  change (total 0 ?l) with (digits_value l) in *. split; [done|]. apply Z.mul_nonneg_nonneg; [done|]. apply Z.pow_nonneg. lia.
Qed.

Lemma price_bound w x : 0 <= x -> 0 <= w -> ((INT64_MAX - x) / 10000 <? w) = negb (w * 10000 + x <=? INT64_MAX).
Proof.
  intros Hx Hw. pose proof (Z.div_mod (INT64_MAX - x) 10000). pose proof (Z.mod_pos_bound (INT64_MAX - x) 10000). lia.
Qed.

(** [json_decimal_price] reads exactly the decimal prices in range. *)
Lemma json_decimal_price_exact text p : json_decimal_price (Some text) = Some p <->
  exists w f rest, text = price_text w f ++ rest /\ price_ok w f /\ json_value_end rest = true /\ p = price_value w f.
Proof.
  unfold json_decimal_price. split.
  - destruct (number (Some text)) as [[whole text']|] eqn:En; [|done]. cbn [mbind option_bind].
    apply number_inv in En as (w & -> & Hw & Hwne & -> & Hr).
    assert (Hsplit : forall f rest fr d, text' = (match f with [] => [] | _ => 46 :: f end) ++ rest -> Forall digit f -> (length f <= 4)%nat ->
      fr = digits_value f -> d = Z.of_nat (length f) ->
      (if negb (json_value_end rest) then None else let fractional := fr * 10 ^ (4 - d) in
       if (INT64_MAX - fractional) / 10000 <? digits_value w then None else Some (digits_value w * 10000 + fractional)) = Some p ->
      exists w0 f0 rest0, w ++ text' = price_text w0 f0 ++ rest0 /\ price_ok w0 f0 /\ json_value_end rest0 = true /\ p = price_value w0 f0).
    { intros f rest fr d -> Hf Hl -> -> Hp. destruct (scaled_range w f Hw Hf Hl) as [H1 H2]. destruct (json_value_end rest) eqn:Ee; [|done].
      cbn [negb] in Hp. cbn zeta in Hp. rewrite price_bound in Hp by done. case_if_in Hp; [done|]. injection Hp as <-.
      exists w, f, rest. unfold price_text. rewrite <- app_assoc. split; [done|]. split; [|done]. split; [done|done|]. unfold price_value. lia. }
    destruct text' as [|c rest]; [apply (Hsplit [] [] 0 0); (done || cbn; lia)|]. destruct (Z.eqb_spec c 46) as [->|Hc]; [|apply (Hsplit [] (c :: rest) 0 0); (done || cbn; lia)].
    destruct (read_fraction rest 0 0) as [[[fr d] rest']|] eqn:Ef; [|done]. cbn [mbind option_bind fst snd].
    apply read_fraction_inv in Ef as (f & -> & Hf & -> & -> & Hd); [|lia]. destruct (Z.eqb_spec (0 + Z.of_nat (length f)) 0); [done|]. cbn [mbind option_bind].
    apply (Hsplit f rest'); [|done|lia|done|lia]. destruct f; [cbn in *; lia|done].
  - intros (w & f & rest & -> & [[Hwne Hw] [Hf Hl] Hr] & He & ->). destruct (value_end_stop rest He) as [Hs Hdot].
    destruct (scaled_range w f Hw Hf Hl) as [H1 H2]. unfold price_value in *. unfold price_text. rewrite <- app_assoc.
    assert (Hnum : forall r, starts_digit r = false -> number (Some (w ++ r)) = Some (digits_value w, r)) by (intros r Hsr; apply number_run; [done..|lia]).
    destruct f as [|c f].
    + rewrite Hnum by done. cbn [mbind option_bind app]. change (digits_value []) with 0 in *. change (Z.of_nat (length [])) with 0 in *.
      assert (E : (match rest with c :: r => if c =? 46 then f ← read_fraction r 0 0; if snd (fst f) =? 0 then None else Some f else Some (0, 0, rest)
        | [] => Some (0, 0, rest) end) = Some (0, 0, rest)).
      { destruct rest as [|c r]; [done|]. destruct (Z.eqb_spec c 46) as [->|]; [by destruct (Hdot r)|done]. }
      rewrite E. cbn [mbind option_bind]. rewrite He. cbn [negb]. rewrite price_bound by done. case_if; [lia|done].
    + cbn [app]. rewrite Hnum by done. cbn [mbind option_bind Z.eqb Pos.eqb]. change (c :: f ++ rest) with ((c :: f) ++ rest).
      rewrite read_fraction_run by (done || lia). cbn [mbind option_bind fst snd]. destruct (Z.eqb_spec (0 + Z.of_nat (length (c :: f))) 0); [cbn in *; lia|].
      cbn [mbind option_bind]. rewrite He, Z.add_0_l. cbn [negb]. change (total 0 ?l) with (digits_value l). rewrite price_bound by done. case_if; [lia|done].
Qed.

(** ** Orders *)
Definition numeric_members (symbol side qty price : Z) : list Member :=
  [mkMember key_symbol_idx false (decimal symbol); mkMember key_side true (side_text side);
   mkMember key_qty false (decimal qty); mkMember key_price false (decimal price)].

Definition ticker_members (ticker : list Z) (side qty : Z) (w f : list Z) : list Member :=
  [mkMember key_symbol true ticker; mkMember key_side true (side_text side);
   mkMember key_qty false (decimal qty); mkMember key_price false (price_text w f)].

(** A ticker no member is called. *)
Definition free_ticker (t : list Z) : Prop := ticker_ok t /\ t ∉ [key_symbol; key_side; key_qty; key_price].

Definition side_ok (side : Z) : Prop := side = exec.kBuy \/ side = exec.kSell.

Definition intent_typed (o : OrderIntent) : Prop :=
  0 <= oi_symbol_idx o < kSymbols /\ side_ok (oi_side o) /\ 0 <= oi_qty o <= INT64_MAX /\ 0 <= oi_price o <= INT64_MAX.

Lemma digits_bare l : Forall digit l -> bare l.
Proof. intros Hl Hq. rewrite Forall_forall in Hl. specialize (Hl 34 Hq). unfold digit in Hl. lia. Qed.

Lemma symbol_bare t : forallb symbol_char t = true -> bare t.
Proof. rewrite forallb_forall. intros H Hq. rewrite list_elem_of_In in Hq. by specialize (H 34 Hq). Qed.

Definition member_keys : list (list Z) := [key_symbol_idx; key_symbol; key_side; key_qty; key_price].

Lemma member_key_facts key : key ∈ member_keys ->
  bare key /\ (58 ∉ key) /\ key <> [44] /\ key <> [125] /\ (length key < 46)%nat /\ side_text exec.kBuy <> key /\ side_text exec.kSell <> key.
Proof.
  set (fine := fun k => bool_decide (bare k /\ (58 ∉ k) /\ k <> [44] /\ k <> [125] /\ (length k < 46)%nat /\
    side_text exec.kBuy <> k /\ side_text exec.kSell <> k)).
  assert (Hall : forallb fine member_keys = true) by by vm_compute. rewrite forallb_forall in Hall.
  intros Hk. rewrite list_elem_of_In in Hk. exact (proj1 (bool_decide_eq_true _) (Hall key Hk)).
Qed.

Lemma decimal_ok key v : key ∈ member_keys -> in_u 64 v -> member_ok (mkMember key false (decimal v)).
Proof.
  intros Hk Hv. destruct (decimal_reads v Hv) as [(Hne & Hd & _) _]. split; [by apply member_key_facts|by apply digits_bare|]. intros _. cbn [mb_text].
  destruct (decimal v) as [|c l]; [done|]. apply is_digit_iff. by inversion Hd.
Qed.

Lemma side_member_ok side : side_ok side -> member_ok (mkMember key_side true (side_text side)).
Proof. intros Hs. split; [apply member_key_facts; set_solver| |done]. destruct Hs as [-> | ->]; apply (bool_decide_unpack (bare _)); by vm_compute. Qed.

Lemma price_member_ok w f : price_ok w f -> member_ok (mkMember key_price false (price_text w f)).
Proof.
  intros [[Hne Hw] [Hf _] _]. split; cbn [mb_key mb_text].
  - apply member_key_facts. set_solver.
  - unfold price_text, bare. rewrite elem_of_app. intros [H|H]; [by apply (digits_bare w Hw)|]. destruct f as [|c f]; [by apply not_elem_of_nil in H|].
    apply elem_of_cons in H as [H|H]; [lia|]. by apply (digits_bare _ Hf).
  - intros _. unfold price_text. destruct w as [|c w]; [done|]. apply is_digit_iff. by inversion Hw.
Qed.

(** The members of an object, in any order. *)
Section Members.
Context (ms ms0 : list Member) (Hp : ms ≡ₚ ms0) (Hok : Forall member_ok ms0) (Hnd : NoDup (mb_key <$> ms0)).
Context (Hquoted : Forall (fun m => mb_quoted m = true -> mb_text m ∉ member_keys) ms0).

Lemma members_plain key : key ∈ member_keys -> plain_key key ms.
Proof.
  intros Hk. destruct (member_key_facts key Hk) as (H1 & H2 & H3 & H4 & _). do 4 (split; [done|]). rewrite Hp.
  apply (Forall_impl _ _ _ Hquoted). intros m Hm Hq E. apply (Hm Hq). by rewrite E.
Qed.

Lemma member_absent key : key ∈ member_keys -> key ∉ (mb_key <$> ms0) -> value (object ms) key = None.
Proof.
  intros Hk Ha. rewrite <- Hp in Hok, Hnd, Ha. destruct (member_key_facts key Hk) as (_ & _ & _ & _ & Hl & _).
  by apply (value_object key ms Hok (members_plain key Hk) Hnd Hl).
Qed.

Lemma member_present m : mb_key m ∈ member_keys -> m ∈ ms0 -> exists stop tail, value (object ms) (mb_key m) = Some (form m ++ stop :: tail) /\ stops stop.
Proof.
  intros Hk Hm. rewrite <- Hp in Hok, Hnd, Hm. destruct (member_key_facts _ Hk) as (_ & _ & _ & _ & Hl & _).
  by apply (value_object _ ms Hok (members_plain _ Hk) Hnd Hl).
Qed.
End Members.

Lemma side_not_key side : side_ok side -> side_text side ∉ member_keys.
Proof. intros Hs Hin. destruct (member_key_facts _ Hin) as (_ & _ & _ & _ & _ & H1 & H2). by destruct Hs as [-> | ->]. Qed.

Lemma in_u64_int v : 0 <= v <= INT64_MAX -> in_u 64 v.
Proof. intros Hv. unfold in_u. change (2 ^ 64) with 18446744073709551616. lia. Qed.

Lemma numeric_members_read ms symbol side qty price now : ms ≡ₚ numeric_members symbol side qty price ->
  0 <= symbol < kSymbols -> side_ok side -> 0 <= qty <= INT64_MAX -> 0 <= price <= INT64_MAX ->
  submit_order (object ms) now = Some (mkIntent symbol side qty price now now 0 exec.kDay).
Proof.
  intros Hp Hs Hside Hq Hpr. unfold kSymbols in Hs. set (ms0 := numeric_members symbol side qty price) in *.
  assert (Hok : Forall member_ok ms0).
  { repeat apply Forall_cons_2; [apply decimal_ok; [set_solver|apply in_u64_int; lia]|by apply side_member_ok|apply decimal_ok; [set_solver|by apply in_u64_int]..|constructor]. }
  assert (Hnd : NoDup (mb_key <$> ms0)) by (apply (bool_decide_unpack _); by vm_compute).
  assert (Hqt : Forall (fun m => mb_quoted m = true -> mb_text m ∉ member_keys) ms0).
  { repeat apply Forall_cons_2; try done. intros _. by apply side_not_key. }
  assert (Hread := fun m => member_present ms ms0 Hp Hok Hnd Hqt m).
  destruct (Hread (mkMember key_symbol_idx false (decimal symbol)) ltac:(set_solver) ltac:(set_solver)) as (st1 & tl1 & E1 & S1).
  destruct (Hread (mkMember key_side true (side_text side)) ltac:(set_solver) ltac:(set_solver)) as (st2 & tl2 & E2 & S2).
  destruct (Hread (mkMember key_qty false (decimal qty)) ltac:(set_solver) ltac:(set_solver)) as (st3 & tl3 & E3 & S3).
  destruct (Hread (mkMember key_price false (decimal price)) ltac:(set_solver) ltac:(set_solver)) as (st4 & tl4 & E4 & S4).
  assert (E5 : value (object ms) key_symbol = None) by (apply (member_absent ms ms0); [done..|set_solver|by apply (bool_decide_unpack _); vm_compute]).
  cbn [mb_key form mb_quoted mb_text] in E1, E2, E3, E4. unfold submit_order. rewrite E1, E2, E3, E4, E5.
  rewrite !json_uint64_decimal by (try apply in_u64_int; lia || done). rewrite json_side_text by done. cbn [mbind option_bind].
  rewrite (bool_decide_eq_false_2 (Some _ = None)), (bool_decide_eq_true_2 (None = None)) by done. cbn [Bool.eqb negb].
  destruct (Z.ltb_spec INT64_MAX qty); [lia|]. unfold kSymbols. destruct (Z.leb_spec 512 symbol); [lia|]. destruct (Z.ltb_spec INT64_MAX price); [lia|].
  cbn [mbind option_bind fst snd]. rewrite wrap_u_id by (unfold in_u; lia). done.
Qed.

Lemma ticker_members_read ms ticker side qty w f now : ms ≡ₚ ticker_members ticker side qty w f ->
  free_ticker ticker -> side_ok side -> 0 <= qty <= INT64_MAX -> price_ok w f ->
  submit_order (object ms) now = Some (mkIntent (ticker_hash ticker mod kSymbols) side qty (price_value w f) now now 0 exec.kDay).
Proof.
  intros Hp [Ht Hfree] Hside Hq Hpr. set (ms0 := ticker_members ticker side qty w f) in *.
  assert (Hidx : ticker <> key_symbol_idx) by (destruct Ht as (_ & Ht & _); intros ->; cbn in Ht; lia).
  assert (Hok : Forall member_ok ms0).
  { repeat apply Forall_cons_2; [|by apply side_member_ok|apply decimal_ok; [set_solver|by apply in_u64_int]|by apply price_member_ok|constructor].
    split; [apply member_key_facts; set_solver|apply symbol_bare, Ht|done]. }
  assert (Hnd : NoDup (mb_key <$> ms0)) by (apply (bool_decide_unpack _); by vm_compute).
  assert (Hqt : Forall (fun m => mb_quoted m = true -> mb_text m ∉ member_keys) ms0).
  { repeat apply Forall_cons_2; try done; intros _; [|by apply side_not_key]. cbn [mb_text]. unfold member_keys. rewrite elem_of_cons. by intros [?|?]. }
  assert (Hread := fun m => member_present ms ms0 Hp Hok Hnd Hqt m).
  destruct (Hread (mkMember key_symbol true ticker) ltac:(set_solver) ltac:(set_solver)) as (st1 & tl1 & E1 & S1).
  destruct (Hread (mkMember key_side true (side_text side)) ltac:(set_solver) ltac:(set_solver)) as (st2 & tl2 & E2 & S2).
  destruct (Hread (mkMember key_qty false (decimal qty)) ltac:(set_solver) ltac:(set_solver)) as (st3 & tl3 & E3 & S3).
  destruct (Hread (mkMember key_price false (price_text w f)) ltac:(set_solver) ltac:(set_solver)) as (st4 & tl4 & E4 & S4).
  assert (E5 : value (object ms) key_symbol_idx = None) by (apply (member_absent ms ms0); [done..|set_solver|by apply (bool_decide_unpack _); vm_compute]).
  cbn [mb_key form mb_quoted mb_text] in E1, E2, E3, E4. unfold submit_order. rewrite E1, E2, E3, E4, E5.
  rewrite json_uint64_decimal by (try apply in_u64_int; lia || done). rewrite json_side_text, json_symbol_text by done. cbn [mbind option_bind].
  rewrite (bool_decide_eq_false_2 (Some _ = None)), (bool_decide_eq_true_2 (None = None)) by done. cbn [Bool.eqb negb].
  destruct (Z.ltb_spec INT64_MAX qty); [lia|].
  assert (Ep : json_decimal_price (Some (price_text w f ++ st4 :: tl4)) = Some (price_value w f)).
  { apply json_decimal_price_exact. exists w, f, (st4 :: tl4). split; [done|]. split; [done|]. split; [|done]. by destruct S4 as [-> | ->]. }
  rewrite Ep. done.
Qed.

Lemma submit_order_typed body now o : submit_order body now = Some o -> intent_typed o /\ oi_now_ns o = now /\ oi_alpha_timestamp_ns o = now /\ oi_time_in_force o = exec.kDay.
Proof.
  unfold submit_order. set (si := value body key_symbol_idx). set (sy := value body key_symbol). case_if; [done|].
  destruct (json_uint64 (value body key_qty)) as [q|] eqn:Eq; [|done]. cbn [mbind option_bind]. apply json_uint64_range in Eq. case_if; [done|].
  destruct (json_side (value body key_side)) as [sd|] eqn:Es; [|done]. cbn [mbind option_bind]. apply json_side_range in Es.
  destruct (negb (bool_decide (si = None))).
  - destruct (json_uint64 si) as [v|] eqn:Ev; [|done]. cbn [mbind option_bind]. apply json_uint64_range in Ev. destruct (Z.leb_spec kSymbols v) as [|Hv]; [done|].
    destruct (json_uint64 (value body key_price)) as [pr|] eqn:Ep; [|done]. cbn [mbind option_bind]. apply json_uint64_range in Ep. case_if; [done|].
    cbn [mbind option_bind fst snd]. intros [= <-]. unfold intent_typed, kSymbols in *. cbn. rewrite wrap_u_id by (unfold in_u; lia). repeat split; done || lia.
  - destruct (json_symbol_index sy) as [v|] eqn:Ev; [|done]. cbn [mbind option_bind]. apply json_symbol_range in Ev.
    destruct (value body key_price) as [text|]; [|done]. destruct (json_decimal_price (Some text)) as [pr|] eqn:Ep; [|done].
    apply json_decimal_price_exact in Ep as (w & f & rest & _ & [[_ Hw] [Hf Hl] Hr] & _ & ->). cbn [mbind option_bind fst snd]. intros [= <-].
    destruct (scaled_range w f Hw Hf Hl). unfold price_value in *. unfold intent_typed. cbn. repeat split; done || lia.
Qed.

(** C35: the order in a request body is read exactly.  Printed as a JSON object
    with its members in any order, in the form with a symbol index and a
    fixed-point price or in the form with a decimal price and a ticker that is not
    spelled like the name of a member, it is read back as that order, the price scaled without rounding; and from any
    body whatever is read has an index, a side, a quantity and a price in
    range. *)
Theorem http_order_exact ms now :
  (forall symbol side qty price, ms ≡ₚ numeric_members symbol side qty price ->
     0 <= symbol < kSymbols -> side_ok side -> 0 <= qty <= INT64_MAX -> 0 <= price <= INT64_MAX ->
     submit_order (object ms) now = Some (mkIntent symbol side qty price now now 0 exec.kDay)) /\
  (forall ticker side qty w f, ms ≡ₚ ticker_members ticker side qty w f ->
     free_ticker ticker -> side_ok side -> 0 <= qty <= INT64_MAX -> price_ok w f ->
     submit_order (object ms) now = Some (mkIntent (ticker_hash ticker mod kSymbols) side qty (price_value w f) now now 0 exec.kDay)) /\
  (forall body o, submit_order body now = Some o -> intent_typed o /\ oi_now_ns o = now).
Proof.
  split; [intros; by apply numeric_members_read|]. split; [intros; by apply ticker_members_read|].
  intros body o Ho. destruct (submit_order_typed body now o Ho) as (? & ? & _). done.
Qed.

(** A ticker with a decimal price, the members in reverse. *)
Lemma http_order_exact_witness :
  submit_order (object (reverse (ticker_members [65; 66] exec.kSell 5 [49] [50; 53]))) 3 =
    Some (mkIntent (ticker_hash [65; 66] mod kSymbols) exec.kSell 5 12500 3 3 0 exec.kDay).
Proof.
  destruct (http_order_exact (reverse (ticker_members [65; 66] exec.kSell 5 [49] [50; 53])) 3) as (_ & H & _).
  apply (H [65; 66] exec.kSell 5 [49] [50; 53]).
  - apply reverse_Permutation.
  - split; [split; [done|]; split; [cbn; lia|done]|apply (bool_decide_unpack _); by vm_compute].
  - by right.
  - by vm_compute.
  - split; [split; [done|apply (bool_decide_unpack _); by vm_compute]|split; [apply (bool_decide_unpack _); by vm_compute|cbn; lia]|by vm_compute].
Defined.

(** A ticker in lower case that is called like a member is taken for that
    member: this body is well-formed JSON for one share of QTY at 2 dollars. *)
Lemma http_order_ticker_named_like_member :
  let ms := ticker_members key_qty exec.kBuy 1 [50] [] in
  ticker_ok key_qty /\ submit_order (object ms) 0 = None /\
  submit_order (object (ticker_members (symbol_upper <$> key_qty) exec.kBuy 1 [50] [])) 0 <> None.
Proof. split; [split; [done|]; split; [cbn; lia|done]|]. split; by vm_compute. Qed.

(** The first occurrence of a member's name counts, at any depth: a nested
    object's quantity is taken for the order's. *)
Lemma http_order_takes_nested_member :
  let body := [123] ++ bytes_of_string "'meta':{'qty':7},'symbol_idx':1,'side':'buy','qty':5,'price':9}"%str in
  oi_qty <$> submit_order ((fun c => if c =? 39 then 34 else c) <$> body) 0 = Some 7.
Proof. by vm_compute. Qed.
