(* ===== verification/HttpKeys.v ===== *)
(** * Bearer keys (luv_http_server.hpp, luv_http_server.cpp)

    [BearerKeyStore]: a fixed table of keys, and a validation that compares the
    presented token with every key to its full width. *)
From Stdlib Require Import ZArith Lia ZifyBool.
From S2P Require Import Prelude Bytes.

Definition kMaxBearerTokenBytes : Z := 64.
Definition kMaxApiKeys : Z := 32.

Record Key := mkKey {
  ky_length : Z;              (* uint8_t *)
  ky_value : list Z;          (* char[kMaxBearerTokenBytes] *)
}.
Definition key_init : Key := mkKey 0 (replicate 64 0).
Definition BearerKeyStore : Type := list Key.

Module keystore.
Definition fresh : BearerKeyStore := replicate 32 key_init.

(** The first key without a length takes the token. *)
Fixpoint put_key (token : list Z) (keys : BearerKeyStore) : bool * BearerKeyStore :=
  match keys with
  | [] => (false, [])
  | k :: keys =>
      if ky_length k =? 0 then
        (true, mkKey (u8 (Z.of_nat (length token))) (token ++ drop (length token) (ky_value k)) :: keys)
      else let r := put_key token keys in (fst r, k :: snd r)
  end.

(** [token] is a C string, [None] the null pointer. *)
Definition add (token : option (list Z)) (keys : BearerKeyStore) : bool * BearerKeyStore :=
  match token with
  | None => (false, keys)
  | Some token =>
      let length := Z.min (Z.of_nat (length token)) kMaxBearerTokenBytes in
      if (length =? 0) || (kMaxBearerTokenBytes <=? length) then (false, keys) else put_key token keys
  end.

Definition key_diff (token : list Z) (k : Key) : Z :=
  foldl (fun diff i => Z.lor diff (Z.lxor (lget 0 (ky_value k) i) (lget 0 token i)))
    (u8 (Z.lxor (ky_length k) (Z.of_nat (length token)))) (zrange 0 64).

Definition validate (token : option (list Z)) (keys : BearerKeyStore) : bool :=
  match token with
  | None => false
  | Some token =>
      if (Z.of_nat (length token) =? 0) || (kMaxBearerTokenBytes <=? Z.of_nat (length token)) then false
      else
        let match_ := foldl (fun m k => Z.lor m (bit ((key_diff token k =? 0) && negb (ky_length k =? 0)))) 0 keys in
        negb (match_ =? 0)
  end.
End keystore.
Import keystore.

(** ** The tokens of a store *)
Definition key_of (token : list Z) : Key := mkKey (Z.of_nat (length token)) (token ++ replicate (64 - length token) 0).
Definition token_fits (token : list Z) : Prop := (1 <= length token < 64)%nat.
#[export] Instance token_fits_dec token : Decision (token_fits token).
Proof. unfold token_fits. apply _. Defined.

(** [keys] is the table after [tokens] were added. *)
Definition stores_tokens (keys : BearerKeyStore) (tokens : list (list Z)) : Prop :=
  (length tokens <= 32)%nat /\ Forall token_fits tokens /\ keys = (key_of <$> tokens) ++ replicate (32 - length tokens) key_init.

Lemma put_key_full token (tokens : list (list Z)) rest : Forall token_fits tokens ->
  put_key token ((key_of <$> tokens) ++ rest) = (fst (put_key token rest), (key_of <$> tokens) ++ snd (put_key token rest)).
Proof.
  induction 1 as [|t tokens Ht _ IH]; cbn [fmap list_fmap app]; [by destruct (put_key token rest)|]. cbn [put_key].
  destruct (Z.eqb_spec (ky_length (key_of t)) 0) as [E|]; [cbn in E; unfold token_fits in Ht; lia|]. by rewrite IH.
Qed.

Lemma add_spec token keys tokens : stores_tokens keys tokens ->
  let accepted := bool_decide (token_fits token) && bool_decide (length tokens < 32)%nat in
  fst (add (Some token) keys) = accepted /\ stores_tokens (snd (add (Some token) keys)) (if accepted then tokens ++ [token] else tokens).
Proof.
  intros (Hl & Ht & ->). unfold add, kMaxBearerTokenBytes. cbn zeta. set (keys := _ ++ _).
  assert (Hguard : ((Z.of_nat (length token) `min` 64 =? 0) || (64 <=? Z.of_nat (length token) `min` 64)) = negb (bool_decide (token_fits token))).
  { unfold token_fits. case_bool_decide; lia. }
  rewrite Hguard. case_bool_decide as Hf; cbn [negb andb]; [|by repeat split].
  unfold keys. rewrite put_key_full by done. case_bool_decide as H32; cbn [andb fst snd].
  - destruct (32 - length tokens)%nat as [|n] eqn:En; [lia|]. cbn [replicate put_key ky_length key_init]. cbn [Z.eqb fst snd]. split; [done|].
    split; [rewrite length_app; cbn; lia|]. split; [apply Forall_app; split; [done|by constructor]|].
    rewrite fmap_app, <- app_assoc. f_equal. cbn [fmap list_fmap app]. f_equal; [|f_equal; rewrite length_app; cbn; lia].
    unfold token_fits in Hf. unfold key_of. rewrite wrap_u_id by (unfold in_u; lia). unfold key_init, ky_value. by rewrite drop_replicate.
  - assert (E : (32 - length tokens = 0)%nat) by lia. rewrite E. cbn. split; [done|]. rewrite app_nil_r.
    split; [done|]. split; [done|]. by rewrite E, app_nil_r.
Qed.

Lemma lor_zero a b : Z.lor a b = 0 <-> a = 0 /\ b = 0.
Proof. apply Z.lor_eq_0_iff. Qed.

Lemma foldl_lor_zero {A} (f : A -> Z) l a : foldl (fun d x => Z.lor d (f x)) a l = 0 <-> a = 0 /\ Forall (fun x => f x = 0) l.
Proof.
  revert a. induction l as [|x l IH]; intros a; cbn; [split; [done|by intros [? _]]|]. rewrite IH, lor_zero, Forall_cons. tauto.
Qed.

Lemma lget_padded l i : 0 <= i < 64 -> (length l <= 64)%nat -> lget 0 (l ++ replicate (64 - length l) 0) i = lget 0 l i.
Proof.
  intros Hi Hl. unfold lget. case_if; [|done]. destruct (decide (Z.to_nat i < length l)%nat).
  - by rewrite lookup_app_l.
  - rewrite lookup_app_r by lia. rewrite lookup_replicate_2 by lia. by rewrite lookup_ge_None_2 by lia.
Qed.

(** A key has no difference with its own token only. *)
Lemma key_diff_zero t token : token_fits t -> token_fits token -> key_diff token (key_of t) = 0 <-> token = t.
Proof.
  unfold token_fits. intros Ht Htok. unfold key_diff. rewrite foldl_lor_zero. cbn [ky_length ky_value key_of]. split.
  - intros [Hlen Hall]. assert (El : length t = length token).
    { rewrite wrap_u_id in Hlen; [apply Z.lxor_eq in Hlen; lia|]. unfold in_u. split; [apply Z.lxor_nonneg; lia|].
      destruct (Z.eq_dec (Z.lxor (Z.of_nat (length t)) (Z.of_nat (length token))) 0) as [->|Hne]; [lia|].
      apply Z.log2_lt_pow2; [pose proof (proj2 (Z.lxor_nonneg (Z.of_nat (length t)) (Z.of_nat (length token))) ltac:(lia)); lia|].
      eapply Z.le_lt_trans; [apply Z.log2_lxor; lia|]. apply Z.max_lub_lt; apply Z.log2_lt_pow2; lia. }
    apply list_eq. intros i. destruct (decide (i < length t)%nat) as [Hi|Hi].
    + rewrite Forall_forall in Hall. specialize (Hall (Z.of_nat i)). rewrite elem_of_zrange in Hall. specialize (Hall ltac:(lia)).
      apply Z.lxor_eq in Hall. rewrite lget_padded in Hall by lia. unfold lget in Hall. rewrite Nat2Z.id in Hall. case_if_in Hall; [|lia].
      destruct (lookup_lt_is_Some_2 t i Hi) as [x Hx], (lookup_lt_is_Some_2 token i ltac:(lia)) as [y Hy]. rewrite Hx, Hy in *. cbn in Hall. congruence.
    + rewrite !lookup_ge_None_2; [done|lia..].
  - intros ->. rewrite Z.lxor_nilpotent. split; [done|]. apply Forall_forall. intros i Hi%elem_of_zrange. rewrite lget_padded by lia. apply Z.lxor_nilpotent.
Qed.

Lemma validate_stored token keys tokens : stores_tokens keys tokens -> validate (Some token) keys = true <-> token ∈ tokens.
Proof.
  intros (Hl & Ht & ->). unfold validate, kMaxBearerTokenBytes. rewrite Forall_forall in Ht.
  destruct ((Z.of_nat (length token) =? 0) || (64 <=? Z.of_nat (length token))) eqn:Hf.
  { split; [done|]. intros Hin. specialize (Ht _ Hin). unfold token_fits in Ht. lia. }
  assert (Hfit : token_fits token) by (unfold token_fits; lia).
  rewrite negb_true_iff, Z.eqb_neq, foldl_lor_zero. split.
  - intros Hn. destruct (decide (token ∈ tokens)) as [|Hni]; [done|]. destruct Hn. split; [done|]. apply Forall_app. split.
    + apply Forall_fmap, Forall_forall. intros t Hin. unfold compose. destruct (Z.eqb_spec (key_diff token (key_of t)) 0) as [E|]; [|done].
      apply (key_diff_zero t token (Ht t Hin) Hfit) in E. by subst.
    + apply Forall_forall. intros k [-> _]%elem_of_replicate. cbn. by rewrite andb_false_r.
  - intros Hin [_ Hall]. apply Forall_app in Hall as [Hall _]. rewrite Forall_fmap, Forall_forall in Hall. specialize (Hall token Hin). unfold compose in Hall.
    rewrite (proj2 (key_diff_zero token token Hfit Hfit) eq_refl) in Hall. cbn in Hall. destruct (Z.eqb_spec (Z.of_nat (length token)) 0); [unfold token_fits in Hfit; lia|done].
Qed.

(** A sequence of [add] calls. *)
Definition add_all (tokens : list (option (list Z))) (keys : BearerKeyStore) : BearerKeyStore := foldl (fun k t => snd (add t k)) keys tokens.

(** The tokens among them that may be keys, and those there is room for. *)
Definition fitting (tokens : list (option (list Z))) : list (list Z) := filter token_fits (omap id tokens).
Definition first_keys (tokens : list (option (list Z))) : list (list Z) := take 32 (fitting tokens).

Lemma fresh_stores : stores_tokens fresh [].
Proof. split; [cbn; lia|]. split; [constructor|done]. Qed.

Lemma fitting_snoc ts t : fitting (ts ++ [t]) = fitting ts ++ (match t with Some token => if decide (token_fits token) then [token] else [] | None => [] end).
Proof. unfold fitting. rewrite omap_app, filter_app. f_equal. destruct t as [token|]; [|done]. cbn [omap list_omap id]. rewrite filter_cons, filter_nil. done. Qed.

Lemma add_all_stores ts : stores_tokens (add_all ts fresh) (first_keys ts).
Proof.
  induction ts as [|t ts IH] using rev_ind; [exact fresh_stores|]. unfold add_all. rewrite foldl_app. fold (add_all ts fresh). cbn [foldl].
  unfold first_keys in *. rewrite fitting_snoc. destruct t as [token|]; [|by rewrite app_nil_r].
  destruct (add_spec token _ _ IH) as [_ Hs]. rewrite length_take in Hs. case_bool_decide as Hf; [rewrite decide_True by done|rewrite decide_False by done; by rewrite app_nil_r].
  case_bool_decide as H32; cbn [andb] in Hs.
  - rewrite take_ge in Hs by lia. rewrite take_ge by (rewrite length_app; cbn [length]; lia). exact Hs.
  - rewrite take_app_le by lia. exact Hs.
Qed.

(** C36: the key store holds the keys it was given.  After any sequence of [add]
    calls, [validate] accepts a token exactly if it is one of the first 32 tokens
    of 1 to 63 bytes among their arguments, and nothing for a null pointer; and
    the next [add] returns true exactly if its token has 1 to 63 bytes and fewer
    than 32 such tokens came before it. *)
Theorem http_keys_exact ts (keys := add_all ts fresh) :
  (forall token, validate (Some token) keys = true <-> token ∈ first_keys ts) /\ validate None keys = false /\
  (forall t, fst (add t keys) = true <-> exists token, t = Some token /\ token_fits token /\ (length (fitting ts) < 32)%nat).
Proof.
  pose proof (add_all_stores ts) as Hs. fold keys in Hs. split; [intros token; by apply validate_stored|]. split; [done|]. intros [token|]; [|split; [done|by intros (? & ? & _)]].
  destruct (add_spec token keys _ Hs) as [-> _]. rewrite andb_true_iff, !bool_decide_eq_true. unfold first_keys. rewrite length_take. split.
  - intros [Hf H32]. exists token. split; [done|]. split; [done|lia].
  - intros (? & [= <-] & Hf & H32). split; [done|lia].
Qed.
