(* ===== verification/HttpBridge.v ===== *)
(** * The execution bridge (luv_http_server.hpp, luv_http_server.cpp)

    Two SPSC queues between the HTTP thread and the owner of the gateway, and
    the slot for a response that found its queue full.  Whatever order the two
    sides call it in, the requests are executed one by one in the order they
    were admitted, and each query, cancellation and positions request is
    answered exactly once, in that order. *)
From Stdlib Require Import ZArith Lia ZifyBool.
From S2P Require Import Prelude Numeric Bytes Config Ring Guards Reconcile Recovery AuditLog ExecTypes Risk Gateway Accounts GatewayBooks.

(** ** Data *)
Inductive Command := kSubmit | kQuery | kCancel | kPositions.
#[global] Instance Command_eq_dec : EqDecision Command.
Proof. solve_decision. Defined.

Inductive OrderStatus := kPending | kLive | kPartial | kCancelled | kDone | kRejected | kNotFound.
#[global] Instance OrderStatus_eq_dec : EqDecision OrderStatus.
Proof. solve_decision. Defined.

Record OrderSnapshot := mkSnapshot {
  os_order_id : Z;            (* uint64_t *)
  os_price : Z;               (* int64_t *)
  os_quantity : Z;            (* int64_t *)
  os_filled_quantity : Z;     (* int64_t *)
  os_symbol_idx : Z;          (* uint16_t *)
  os_side : Z;                (* uint8_t *)
  os_status : OrderStatus;
  os_reject_mask : Z;         (* uint8_t *)
}.
Definition snapshot_of_id (order_id : Z) : OrderSnapshot := mkSnapshot order_id 0 0 0 0 exec.kBuy kNotFound 0.

Record PositionSnapshot := mkPosition { ps_symbol_idx : Z; ps_net_position : Z; ps_gross_exposure : Z }.

Record Request := mkRequest { rq_command : Command; rq_request_id : Z; rq_order_id : Z; rq_order : OrderIntent }.
Definition request_init : Request := mkRequest kSubmit 0 0 (mkIntent 0 exec.kBuy 0 0 0 0 0 exec.kDay).

Record AcceptedSubmission := mkAccepted { as_order_id : Z; as_quantity : Z; as_symbol_idx : Z; as_accepted : bool }.
Definition nothing_accepted : AcceptedSubmission := mkAccepted 0 0 0 false.

(** The array of positions is the list of its first [position_count] entries. *)
Record Response := mkResponse { rp_request_id : Z; rp_order : OrderSnapshot; rp_positions : list PositionSnapshot }.
Definition response_init : Response := mkResponse 0 (snapshot_of_id 0) [].

Definition kRequestCapacity : Z := 256.
Definition kResponseCapacity : Z := 8.

Record ExecutionBridge := mkBridge {
  br_requests : SPSCRing Request;
  br_responses : SPSCRing Response;
  br_deferred : option Response;      (* deferred_response_ while has_deferred_response_ *)
}.
Definition fresh_bridge : ExecutionBridge := mkBridge fresh_ring fresh_ring None.

(** ** Operations *)
Module bridge.
Definition submit (request : Request) (b : ExecutionBridge) : bool * ExecutionBridge :=
  let '(ok, r) := ring.try_push kRequestCapacity request (br_requests b) in (ok, mkBridge r (br_responses b) (br_deferred b)).

Definition try_take_response (b : ExecutionBridge) : option Response * ExecutionBridge :=
  let '(r, q) := ring.try_pop kResponseCapacity response_init (br_responses b) in (r, mkBridge (br_requests b) q (br_deferred b)).

Definition push_response (response : Response) (b : ExecutionBridge) : bool * ExecutionBridge :=
  let '(ok, r) := ring.try_push kResponseCapacity response (br_responses b) in (ok, mkBridge (br_requests b) r (br_deferred b)).

Definition defer (response : option Response) (b : ExecutionBridge) : ExecutionBridge := mkBridge (br_requests b) (br_responses b) response.

Definition snapshot (order : ActiveOrder) : OrderSnapshot :=
  mkSnapshot (ao_order_id order) (ao_price order) (ao_qty order + ao_filled_qty order) (ao_filled_qty order) (u16 (ao_symbol_idx order)) (ao_side order)
    (if ao_state order =? 1 then kLive else if ao_state order =? 2 then kPartial else if ao_state order =? 3 then kDone else kNotFound) 0.

Section ops.
Context {AJ RJ : Type} `{Journal AJ AuditEvent} `{Journal RJ RecoveryEvent}.
Abbreviation Gateway := (ExecutionGateway AJ RJ).

(** The loop over the symbols of a positions request. *)
Fixpoint positions (symbols : list Z) (g : Gateway) : list PositionSnapshot :=
  match symbols with
  | [] => []
  | symbol :: symbols =>
      match gateway.query_position symbol g with
      | None => []
      | Some r =>
          if negb (rs_net_position r =? 0) || negb (rs_gross_exposure r =? 0)
          then mkPosition symbol (rs_net_position r) (rs_gross_exposure r) :: positions symbols g
          else positions symbols g
      end
  end.

(** The switch over the commands that are answered; [now] is the clock a
    cancellation reads. *)
Definition answer (request : Request) (now : Z) (g : Gateway) : Response * Gateway :=
  match rq_command request with
  | kQuery =>
      (mkResponse (rq_request_id request)
        (match gateway.query_order (rq_order_id request) g with Some o => snapshot o | None => snapshot_of_id (rq_order_id request) end) [], g)
  | kCancel =>
      let '(ok, g) := gateway.cancel_order (rq_order_id request) now g in
      (mkResponse (rq_request_id request)
        (mkSnapshot (rq_order_id request) 0 0 0 0 exec.kBuy (if ok then kCancelled else kNotFound) 0) [], g)
  | kPositions => (mkResponse (rq_request_id request) (snapshot_of_id 0) (positions (zrange 0 (Z.to_nat kSymbols)) g), g)
  | kSubmit => (mkResponse (rq_request_id request) (snapshot_of_id 0) [], g)
  end.

(** [process_one] behind the flush of a deferred response: its result, what it
    reports as accepted, the packet and the two owners.  The null [outbound] is
    a packet that the caller forgets. *)
Definition serve_next (flushed : bool) (packet : OutboundPacket) (now : Z) (b : ExecutionBridge) (g : Gateway) :
    bool * AcceptedSubmission * OutboundPacket * ExecutionBridge * Gateway :=
  match ring.try_pop kRequestCapacity request_init (br_requests b) with
  | (None, _) => (flushed, nothing_accepted, packet, b, g)
  | (Some request, r) =>
      let b := mkBridge r (br_responses b) (br_deferred b) in
      if bool_decide (rq_command request = kSubmit) then
        let '(decision, packet, g) := gateway.try_build (rq_order request) packet g in
        let accepted := if rd_pass decision =? 0 then nothing_accepted
          else mkAccepted (oi_client_order_id (rq_order request)) (oi_qty (rq_order request)) (oi_symbol_idx (rq_order request)) true in
        (true, accepted, packet, b, g)
      else
        let '(response, g) := answer request now g in
        let '(ok, b) := push_response response b in
        (true, nothing_accepted, packet, if ok : bool then b else defer (Some response) b, g)
  end.

Definition process_one (packet : OutboundPacket) (now : Z) (b : ExecutionBridge) (g : Gateway) :
    bool * AcceptedSubmission * OutboundPacket * ExecutionBridge * Gateway :=
  match br_deferred b with
  | Some response =>
      let '(ok, b) := push_response response b in
      if negb ok then (false, nothing_accepted, packet, b, g) else serve_next true packet now (defer None b) g
  | None => serve_next false packet now b g
  end.
End ops.
End bridge.

(** ** The queues *)
Lemma push_spec {T} k (blank : T) r base q v : 0 <= k <= 63 -> holds_queue k blank r base q ->
  let ok := Z.of_nat (length q) <? 2 ^ k in
  fst (ring.try_push (2 ^ k) v r) = ok /\ holds_queue k blank (snd (ring.try_push (2 ^ k) v r)) base (if ok then q ++ [v] else q).
Proof.
  intros Hk H. cbn zeta. unfold ring.try_push. rewrite (try_claim_spec k Hk blank r base q H). destruct (Z.ltb_spec (Z.of_nat (length q)) (2 ^ k)); [|done].
  split; [done|]. by apply push_queue.
Qed.

Lemma pop_spec {T} k (blank : T) r base q : 0 <= k <= 63 -> holds_queue k blank r base q ->
  fst (ring.try_pop (2 ^ k) blank r) = head q /\ exists base', holds_queue k blank (snd (ring.try_pop (2 ^ k) blank r)) base' (tail q).
Proof.
  intros Hk H. unfold ring.try_pop. rewrite (try_peek_spec k Hk blank r base q H). destruct q as [|v q]; [split; [done|by exists base]|].
  cbn [fst snd head tail]. split; [f_equal; by eapply read_queue|]. exists (base + 1). by eapply pop_queue.
Qed.

(** The bridge with pending requests [Q], responses [R] and a spilled one [D]. *)
Definition bridge_holds (b : ExecutionBridge) (Q : list Request) (R : list Response) (D : option Response) : Prop :=
  (exists base, holds_queue 8 request_init (br_requests b) base Q) /\
  (exists base, holds_queue 3 response_init (br_responses b) base R) /\ br_deferred b = D.

Lemma fresh_bridge_holds : bridge_holds fresh_bridge [] [] None.
Proof. split; [|split; [|done]]; exists 0; by apply fresh_holds. Qed.

Lemma bridge_bounds b Q R D : bridge_holds b Q R D -> Z.of_nat (length Q) <= 256 /\ Z.of_nat (length R) <= 8.
Proof. intros ((? & [_ _ HQ _]) & (? & [_ _ HR _]) & _). split; [exact HQ|exact HR]. Qed.

Lemma submit_spec b Q R D req : bridge_holds b Q R D ->
  let ok := Z.of_nat (length Q) <? 256 in
  fst (bridge.submit req b) = ok /\ bridge_holds (snd (bridge.submit req b)) (if ok then Q ++ [req] else Q) R D.
Proof.
  intros ((base & HQ) & HR & HD). destruct (push_spec 8 _ _ _ _ req ltac:(lia) HQ) as [Hok HQ']. unfold bridge.submit, kRequestCapacity.
  change (2 ^ 8) with 256 in *. destruct (ring.try_push 256 req (br_requests b)) as [ok r]. cbn in *. split; [done|]. split; [by exists base|done].
Qed.

Lemma push_response_spec b Q R D resp : bridge_holds b Q R D ->
  let ok := Z.of_nat (length R) <? 8 in
  fst (bridge.push_response resp b) = ok /\ bridge_holds (snd (bridge.push_response resp b)) Q (if ok then R ++ [resp] else R) D.
Proof.
  intros (HQ & (base & HR) & HD). destruct (push_spec 3 _ _ _ _ resp ltac:(lia) HR) as [Hok HR']. unfold bridge.push_response, kResponseCapacity.
  change (2 ^ 3) with 8 in *. destruct (ring.try_push 8 resp (br_responses b)) as [ok r]. cbn in *. split; [done|]. split; [done|]. split; [by exists base|done].
Qed.

Lemma take_spec b Q R D : bridge_holds b Q R D ->
  fst (bridge.try_take_response b) = head R /\ bridge_holds (snd (bridge.try_take_response b)) Q (tail R) D.
Proof.
  intros (HQ & (base & HR) & HD). destruct (pop_spec 3 _ _ _ _ ltac:(lia) HR) as [Hok HR']. unfold bridge.try_take_response, kResponseCapacity.
  change (2 ^ 3) with 8 in *. destruct (ring.try_pop 8 response_init (br_responses b)) as [r q]. cbn in *. split; [done|]. split; [done|]. split; [done|done].
Qed.

(** What the bridge holds, read off by taking everything out of its queues: the
    requests not yet executed; the responses not yet taken, the deferred one
    last. *)
Fixpoint popped {T} (n : nat) (capacity : Z) (blank : T) (r : SPSCRing T) : list T :=
  match n with
  | O => []
  | S n => match ring.try_pop capacity blank r with (Some x, r) => x :: popped n capacity blank r | (None, _) => [] end
  end.
Definition bridge_pending (b : ExecutionBridge) : list Request := popped (Z.to_nat kRequestCapacity) kRequestCapacity request_init (br_requests b).
Definition bridge_ready (b : ExecutionBridge) : list Response := popped (Z.to_nat kResponseCapacity) kResponseCapacity response_init (br_responses b).
Definition bridge_waiting (b : ExecutionBridge) : list Response := bridge_ready b ++ option_list (br_deferred b).

Lemma popped_exact {T} k (blank : T) n : 0 <= k <= 63 -> forall r base q, holds_queue k blank r base q -> (length q <= n)%nat -> popped n (2 ^ k) blank r = q.
Proof.
  intros Hk. induction n as [|n IH]; intros r base q Hq Hn; [by destruct q; [|cbn [length] in Hn; lia]|]. cbn [popped].
  destruct (pop_spec k blank r base q Hk Hq) as [Hp (base' & Hq')]. destruct (ring.try_pop (2 ^ k) blank r) as [o r']. cbn [fst snd] in *. subst o.
  destruct q as [|x q]; [done|]. cbn [head tail length] in *. f_equal. apply (IH r' base'); [done|lia].
Qed.

Lemma bridge_contents b Q R D : bridge_holds b Q R D -> bridge_pending b = Q /\ bridge_ready b = R /\ bridge_waiting b = R ++ option_list D.
Proof.
  intros Hb. destruct (bridge_bounds b Q R D Hb) as [HQ HR]. destruct Hb as ((b1 & H1) & (b2 & H2) & HD).
  assert (EQ : bridge_pending b = Q) by exact (popped_exact 8 request_init 256 ltac:(lia) _ b1 Q H1 ltac:(lia)).
  assert (ER : bridge_ready b = R) by exact (popped_exact 3 response_init 8 ltac:(lia) _ b2 R H2 ltac:(lia)). split; [done|]. split; [done|]. unfold bridge_waiting. by rewrite ER, HD.
Qed.

(** ** Serial execution *)
Section serial.
Context {AJ RJ : Type} `{Journal AJ AuditEvent} `{Journal RJ RecoveryEvent}.
Abbreviation Gateway := (ExecutionGateway AJ RJ).

(** One request on the gateway: its response, if it is answered. *)
Definition execute (req : Request) (packet : OutboundPacket) (now : Z) (g : Gateway) : list Response * Gateway :=
  if bool_decide (rq_command req = kSubmit) then ([], (gateway.try_build (rq_order req) packet g).2)
  else ([(bridge.answer req now g).1], (bridge.answer req now g).2).

(** What the owner of the gateway does: the requests, and its other calls. *)
Inductive serial_event :=
  | Executed (req : Request) (packet : OutboundPacket) (now : Z)
  | Owner (op : gateway_op).

Definition serial_step (e : serial_event) (st : list Response * Gateway) : list Response * Gateway :=
  match e with
  | Executed req packet now => (st.1 ++ (execute req packet now st.2).1, (execute req packet now st.2).2)
  | Owner op => (st.1, (gateway_step op st.2).2)
  end.

Definition serial_run (es : list serial_event) (g : Gateway) : list Response * Gateway := foldl (fun st e => serial_step e st) ([], g) es.

Definition requests_of (es : list serial_event) : list Request :=
  omap (fun e => match e with Executed req _ _ => Some req | Owner _ => None end) es.

Lemma serial_run_snoc es e g : serial_run (es ++ [e]) g = serial_step e (serial_run es g).
Proof. unfold serial_run. by rewrite foldl_app. Qed.

Lemma requests_of_snoc es e : requests_of (es ++ [e]) = requests_of es ++ (match e with Executed req _ _ => [req] | Owner _ => [] end).
Proof. unfold requests_of. rewrite omap_app. by destruct e. Qed.

(** ** One call of [process_one] *)

(** What serving the head of [Q] leaves, from responses [R1]. *)
Definition served (flushed : bool) (Q : list Request) (R1 : list Response) (packet : OutboundPacket) (now : Z) (g : Gateway)
    (r : bool * AcceptedSubmission * OutboundPacket * ExecutionBridge * Gateway) : Prop :=
  let '(ok, _, _, b', g') := r in
  match Q with
  | [] => ok = flushed /\ bridge_holds b' [] R1 None /\ g' = g
  | req :: Q' => ok = true /\ g' = (execute req packet now g).2 /\
      exists R2 D2, bridge_holds b' Q' R2 D2 /\ R2 ++ option_list D2 = R1 ++ (execute req packet now g).1
  end.

Lemma serve_next_spec flushed b Q R packet now (g : Gateway) : bridge_holds b Q R None ->
  served flushed Q R packet now g (bridge.serve_next flushed packet now b g).
Proof.
  intros ((base & HQ) & HR & HD). unfold bridge.serve_next, kRequestCapacity.
  destruct (pop_spec 8 _ _ _ _ ltac:(lia) HQ) as [Hpop (base' & HQ')]. change (2 ^ 8) with 256 in *.
  destruct (ring.try_pop 256 request_init (br_requests b)) as [o r]. cbn [fst snd] in Hpop, HQ'. subst o. destruct Q as [|req Q']; cbn [head tail] in *.
  { split; [done|]. split; [|done]. split; [by exists base|done]. }
  unfold served, execute. case_bool_decide as Hc.
  - destruct (gateway.try_build (rq_order req) packet g) as [[d p] g']. cbn [fst snd]. split; [done|]. split; [done|].
    exists R, None. split; [split; [by exists base'|done]|]. by rewrite !app_nil_r.
  - set (b1 := mkBridge r (br_responses b) (br_deferred b)). assert (Hb1 : bridge_holds b1 Q' R None) by (split; [by exists base'|done]).
    destruct (bridge.answer req now g) as [resp g']. cbn [fst snd]. destruct (push_response_spec b1 Q' R None resp Hb1) as [Hok Hb2].
    destruct (bridge.push_response resp b1) as [ok b2]. cbn [fst snd] in Hok, Hb2. split; [done|]. split; [done|]. rewrite Hok in *.
    destruct (Z.of_nat (length R) <? 8).
    + exists (R ++ [resp]), None. split; [done|]. by rewrite app_nil_r.
    + exists R, (Some resp). split; [|done]. by destruct Hb2 as (HQ2 & HR2 & _).
Qed.

Lemma process_served b Q R D packet now (g : Gateway) : bridge_holds b Q R D -> (D = None \/ Z.of_nat (length R) < 8) ->
  served (bool_decide (is_Some D)) Q (R ++ option_list D) packet now g (bridge.process_one packet now b g).
Proof.
  intros Hb Hroom. unfold bridge.process_one. assert (HD := proj2 (proj2 Hb)). rewrite HD. destruct D as [resp|]; cbn [option_list].
  - destruct Hroom as [|Hroom]; [done|]. destruct (push_response_spec b Q R (Some resp) resp Hb) as [Hok Hb'].
    destruct (bridge.push_response resp b) as [ok b1]. cbn [fst snd] in Hok, Hb'. rewrite Hok in *.
    destruct (Z.ltb_spec (Z.of_nat (length R)) 8); [|lia]. cbn [negb]. apply serve_next_spec. by destruct Hb' as (HQ1 & HR1 & _).
  - rewrite app_nil_r. by apply serve_next_spec.
Qed.

(** With the responses full and one spilled nothing happens. *)
Lemma process_blocked b Q R resp packet now (g : Gateway) : bridge_holds b Q R (Some resp) -> ~ Z.of_nat (length R) < 8 ->
  bridge.process_one packet now b g = (false, nothing_accepted, packet, snd (bridge.push_response resp b), g) /\
  bridge_holds (snd (bridge.push_response resp b)) Q R (Some resp).
Proof.
  intros Hb Hfull. unfold bridge.process_one. destruct (push_response_spec b Q R (Some resp) resp Hb) as [Hok Hb']. destruct Hb as (HQ & HR & HD). rewrite HD.
  destruct (bridge.push_response resp b) as [ok b1]. cbn [fst snd] in *. rewrite Hok in *. destruct (Z.ltb_spec (Z.of_nat (length R)) 8); [lia|done].
Qed.

(** ** Histories *)
Inductive bridge_op :=
  | BSubmit (req : Request)
  | BProcess (packet : OutboundPacket) (now : Z)
  | BTake
  | BOwner (op : gateway_op).

(** The bridge and the gateway, with the requests admitted and the responses
    taken so far. *)
Record bridge_run := mkRun { bn_bridge : ExecutionBridge; bn_gateway : Gateway; bn_admitted : list Request; bn_taken : list Response }.

Definition bridge_step (st : bridge_run) (op : bridge_op) : bridge_run :=
  match op with
  | BSubmit req =>
      let '(ok, b) := bridge.submit req (bn_bridge st) in
      mkRun b (bn_gateway st) (if ok : bool then bn_admitted st ++ [req] else bn_admitted st) (bn_taken st)
  | BProcess packet now =>
      let '(_, _, _, b, g) := bridge.process_one packet now (bn_bridge st) (bn_gateway st) in
      mkRun b g (bn_admitted st) (bn_taken st)
  | BTake =>
      let '(r, b) := bridge.try_take_response (bn_bridge st) in
      mkRun b (bn_gateway st) (bn_admitted st) (bn_taken st ++ option_list r)
  | BOwner op => mkRun (bn_bridge st) (gateway_step op (bn_gateway st)).2 (bn_admitted st) (bn_taken st)
  end.

Definition bridge_history (ops : list bridge_op) (g : Gateway) : bridge_run := foldl bridge_step (mkRun fresh_bridge g [] []) ops.

(** The run is the serial execution [es], with [Q] still to be executed and
    the responses [W] still to be taken. *)
Record run_serial (g0 : Gateway) (st : bridge_run) (es : list serial_event) (Q : list Request) (W : list Response) : Prop := {
  rs_holds : exists R D, bridge_holds (bn_bridge st) Q R D /\ W = R ++ option_list D;
  rs_admitted : bn_admitted st = requests_of es ++ Q;
  rs_serial : serial_run es g0 = (bn_taken st ++ W, bn_gateway st);
}.

Lemma bridge_step_serial g0 st op es Q W : run_serial g0 st es Q W -> exists es' Q' W', run_serial g0 (bridge_step st op) es' Q' W'.
Proof.
  intros [(R & D & Hb & ->) Ha Hs]. destruct op as [req|packet now| |op]; cbn [bridge_step].
  - destruct (submit_spec _ _ _ _ req Hb) as [Hok Hb']. destruct (bridge.submit req (bn_bridge st)) as [ok b]. cbn [fst snd] in *. subst ok.
    exists es. eexists _, _. split; cbn; [exists R, D; split; [exact Hb'|done]| |done]. rewrite Ha. destruct (_ <? 256); [by rewrite app_assoc|done].
  - destruct (decide (D = None \/ Z.of_nat (length R) < 8)) as [Hroom|Hroom].
    + assert (Hp := process_served _ _ _ _ packet now (bn_gateway st) Hb Hroom).
      destruct (bridge.process_one packet now (bn_bridge st) (bn_gateway st)) as [[[[ok ac] p] b] g]. cbn in Hp. destruct Q as [|req Q].
      * destruct Hp as (_ & Hb' & ->). exists es, [], (R ++ option_list D). split; cbn; [|done|done]. exists (R ++ option_list D), None. split; [done|]. by rewrite app_nil_r.
      * destruct Hp as (_ & -> & R2 & D2 & Hb' & E). exists (es ++ [Executed req packet now]), Q, (R2 ++ option_list D2). split; cbn.
        -- by exists R2, D2.
        -- by rewrite Ha, requests_of_snoc, <- app_assoc.
        -- rewrite serial_run_snoc, Hs. cbn [serial_step fst snd]. rewrite E, <- !app_assoc. done.
    + destruct D as [resp|]; [|destruct Hroom; by left]. destruct (process_blocked _ _ _ resp packet now (bn_gateway st) Hb) as [-> Hb']; [tauto|].
      exists es, Q, (R ++ [resp]). split; cbn; [by exists R, (Some resp)|done|done].
  - destruct (take_spec _ _ _ _ Hb) as [Hr Hb']. destruct (bridge.try_take_response (bn_bridge st)) as [r b]. cbn [fst snd] in *. subst r.
    exists es, Q, (tail R ++ option_list D). split; cbn; [by exists (tail R), D|done|]. rewrite Hs. f_equal. rewrite <- app_assoc. f_equal. by destruct R.
  - exists (es ++ [Owner op]), Q, (R ++ option_list D). split; cbn; [by exists R, D| |].
    + by rewrite requests_of_snoc, app_nil_r.
    + rewrite serial_run_snoc, Hs. done.
Qed.

Lemma bridge_history_serial ops g : exists es Q W, run_serial g (bridge_history ops g) es Q W.
Proof.
  unfold bridge_history. induction ops as [|op ops IH] using rev_ind.
  - exists [], [], []. split; [|done|done]. exists [], None. split; [apply fresh_bridge_holds|done].
  - rewrite foldl_app. destruct IH as (es & Q & W & Hr). by eapply bridge_step_serial.
Qed.

(** The ids of the requests that are answered. *)
Definition answered_ids (reqs : list Request) : list Z := rq_request_id <$> filter (fun r => rq_command r <> kSubmit) reqs.

Lemma execute_ids req packet now (g : Gateway) : rp_request_id <$> (execute req packet now g).1 = answered_ids [req].
Proof.
  unfold execute, answered_ids. rewrite filter_cons, filter_nil. case_bool_decide as Hc.
  - rewrite decide_False by (intros H1; by apply H1). done.
  - rewrite decide_True by done. cbn. unfold bridge.answer. destruct (rq_command req); try done. by destruct (gateway.cancel_order _ now g).
Qed.

Lemma serial_ids es (g : Gateway) : rp_request_id <$> (serial_run es g).1 = answered_ids (requests_of es).
Proof.
  induction es as [|e es IH] using rev_ind; [done|]. rewrite serial_run_snoc, requests_of_snoc. unfold answered_ids in *. rewrite filter_app, fmap_app, <- IH.
  destruct e as [req packet now|op]; cbn [serial_step fst]; [|by rewrite app_nil_r]. rewrite fmap_app. f_equal. apply execute_ids.
Qed.

(** A response of the execution is the gateway's answer to a request. *)
Lemma serial_response es (g : Gateway) r : r ∈ (serial_run es g).1 -> exists es1 req packet now es2,
  es = es1 ++ Executed req packet now :: es2 /\ rq_command req <> kSubmit /\ r = (bridge.answer req now (serial_run es1 g).2).1.
Proof.
  induction es as [|e es IH] using rev_ind; [by intros ?%not_elem_of_nil|]. rewrite serial_run_snoc. intros Hr.
  assert (Hold : r ∈ (serial_run es g).1 -> exists es1 req packet now es2, es ++ [e] = es1 ++ Executed req packet now :: es2 /\
    rq_command req <> kSubmit /\ r = (bridge.answer req now (serial_run es1 g).2).1).
  { intros Hin. destruct (IH Hin) as (es1 & req & packet & now & es2 & -> & Hne & ->). exists es1, req, packet, now, (es2 ++ [e]). by rewrite <- app_assoc. }
  destruct e as [req packet now|op]; cbn [serial_step fst] in Hr; [|by apply Hold]. apply elem_of_app in Hr as [Hr|Hr]; [by apply Hold|].
  unfold execute in Hr. case_bool_decide as Hc; cbn [fst] in Hr; [by apply not_elem_of_nil in Hr|]. apply list_elem_of_singleton in Hr as ->.
  by exists es, req, packet, now, [].
Qed.

Lemma positions_length symbols (g : Gateway) : (length (bridge.positions symbols g) <= length symbols)%nat.
Proof. induction symbols as [|y l IH]; cbn; [lia|]. destruct (gateway.query_position y g) as [p|]; [|cbn; lia]. case_if; cbn [length]; lia. Qed.

Lemma answer_positions req now (g : Gateway) : (length (rp_positions (bridge.answer req now g).1) <= 512)%nat.
Proof.
  unfold bridge.answer. destruct (rq_command req); cbn [fst rp_positions length]; [lia|lia|destruct (gateway.cancel_order _ now g); cbn; lia|].
  etrans; [apply positions_length|]. unfold zrange. rewrite length_fmap, length_seq. done.
Qed.

(** ** Both sides at work *)

(** A call of each side. *)
Definition round (packet : OutboundPacket) (now : Z) : list bridge_op := [BProcess packet now; BTake].
Definition rounds (n : nat) (packet : OutboundPacket) (now : Z) (st : bridge_run) : bridge_run := foldl bridge_step st (concat (replicate n (round packet now))).

Lemma served_work st Q R D packet now : bridge_holds (bn_bridge st) Q R D -> (D = None \/ Z.of_nat (length R) < 8) ->
  exists Q' R' D', bridge_holds (bn_bridge (bridge_step st (BProcess packet now))) Q' R' D' /\
    (2 * length Q' + length (R' ++ option_list D') <= 2 * length Q + length (R ++ option_list D))%nat /\
    (Q <> [] -> (2 * length Q' + length (R' ++ option_list D') < 2 * length Q + length (R ++ option_list D))%nat) /\ (Q = [] -> R' = R ++ option_list D).
Proof.
  intros Hb Hroom. cbn [bridge_step]. pose proof (process_served _ _ _ _ packet now (bn_gateway st) Hb Hroom) as Hp.
  destruct (bridge.process_one packet now (bn_bridge st) (bn_gateway st)) as [[[[ok ac] p] b] g]. cbn [bn_bridge] in *. unfold served in Hp. destruct Q as [|req Q].
  - destruct Hp as (_ & Hb' & _). exists [], (R ++ option_list D), None. cbn [option_list]. rewrite app_nil_r. split_and!; done.
  - destruct Hp as (_ & _ & R2 & D2 & Hb' & E). exists Q, R2, D2. rewrite E. assert (Hl : (length (execute req packet now (bn_gateway st)).1 <= 1)%nat) by (unfold execute; case_bool_decide; cbn; lia).
    rewrite length_app. cbn [length]. split; [done|]. split; [lia|]. split; [intros _; lia|done].
Qed.

(** A round does some of the work, and leaves what was admitted. *)
Lemma round_work st packet now Q R D : bridge_holds (bn_bridge st) Q R D ->
  let st' := foldl bridge_step st (round packet now) in
  bn_admitted st' = bn_admitted st /\ exists Q' R' D', bridge_holds (bn_bridge st') Q' R' D' /\
    (2 * length Q' + length (R' ++ option_list D') <= 2 * length Q + length (R ++ option_list D) - 1)%nat.
Proof.
  intros Hb st'. unfold st', round. cbn [foldl]. split.
  { cbn [bridge_step]. destruct (bridge.process_one _ _ _ _) as [[[[? ?] ?] b] g]. cbn [bn_admitted bn_bridge bn_gateway bn_taken]. by destruct (bridge.try_take_response b). }
  set (st1 := bridge_step st (BProcess packet now)).
  assert (H1 : exists Q1 R1 D1, bridge_holds (bn_bridge st1) Q1 R1 D1 /\ (2 * length Q1 + length (R1 ++ option_list D1) <= 2 * length Q + length (R ++ option_list D))%nat /\
    (R1 = [] -> (2 * length Q1 + length (R1 ++ option_list D1) <= 2 * length Q + length (R ++ option_list D) - 1)%nat)).
  { destruct (decide (D = None \/ Z.of_nat (length R) < 8)) as [Hroom|Hroom].
    - destruct (served_work st Q R D packet now Hb Hroom) as (Q1 & R1 & D1 & Hb1 & Hle & Hlt & Hnil). exists Q1, R1, D1. split; [done|]. split; [done|]. intros ->.
      destruct Q as [|req Q]; [|specialize (Hlt ltac:(done)); lia]. specialize (Hnil eq_refl). rewrite <- Hnil in *. cbn [length] in *. lia.
    - destruct D as [resp|]; [|destruct Hroom; by left]. destruct (process_blocked _ _ _ resp packet now (bn_gateway st) Hb) as [Ep Hb']; [tauto|].
      exists Q, R, (Some resp). unfold st1. cbn [bridge_step]. rewrite Ep. cbn [bn_bridge]. split; [done|]. split; [done|]. intros ->. destruct Hroom. right. cbn. lia. }
  destruct H1 as (Q1 & R1 & D1 & Hb1 & Hle & Hnil). cbn [bridge_step]. destruct (take_spec _ _ _ _ Hb1) as [_ Hb2]. destruct (bridge.try_take_response (bn_bridge st1)) as [r b]. cbn [fst snd bn_bridge] in *.
  exists Q1, (tail R1), D1. split; [done|]. destruct R1 as [|x R1]; [cbn [tail]; by apply Hnil|]. cbn [tail]. rewrite !length_app in *. cbn [length] in *. lia.
Qed.

Lemma rounds_work n packet now : forall st Q R D, bridge_holds (bn_bridge st) Q R D ->
  bn_admitted (rounds n packet now st) = bn_admitted st /\ exists Q' R' D', bridge_holds (bn_bridge (rounds n packet now st)) Q' R' D' /\
    (2 * length Q' + length (R' ++ option_list D') <= 2 * length Q + length (R ++ option_list D) - n)%nat.
Proof.
  unfold rounds. induction n as [|n IH]; intros st Q R D Hb; cbn [replicate concat foldl]; [split; [done|]; exists Q, R, D; split; [done|lia]|].
  rewrite foldl_app. destruct (round_work st packet now Q R D Hb) as [Ha (Q1 & R1 & D1 & Hb1 & Hle)]. destruct (IH _ _ _ _ Hb1) as [Ha' (Q2 & R2 & D2 & Hb2 & Hle2)].
  split; [congruence|]. exists Q2, R2, D2. split; [done|lia].
Qed.

Lemma rounds_history n packet now ops g : exists ops', rounds n packet now (bridge_history ops g) = bridge_history ops' g.
Proof. exists (ops ++ concat (replicate n (round packet now))). unfold rounds, bridge_history. by rewrite foldl_app. Qed.

(** C32: the bridge executes serially.  In whatever order the HTTP thread and
    the gateway's owner call it, the gateway has executed, one by one and in the
    order of admission, the admitted requests but those in the request queue,
    between the owner's other calls.  The responses of that execution, in its
    order, are those taken so far followed by those in the bridge: at most eight
    in the response queue and one deferred.  A call of [try_take_response] takes
    the first of the queue; a call of [process_one] executes the first pending
    request unless the queue is full and one is deferred; and once both sides
    have been called often enough, in turn and at least 521 times each, every admitted request has been
    executed and each query, cancellation and positions request among them has
    been answered exactly once, in order. *)
Theorem http_bridge_serial (ops : list bridge_op) (g : Gateway) :
  let st := bridge_history ops g in
  let pending := bridge_pending (bn_bridge st) in
  let waiting := bridge_waiting (bn_bridge st) in
  exists es,
    bn_admitted st = requests_of es ++ pending /\
    serial_run es g = (bn_taken st ++ waiting, bn_gateway st) /\
    rp_request_id <$> (bn_taken st ++ waiting) = answered_ids (requests_of es) /\
    Z.of_nat (length pending) <= 256 /\ Z.of_nat (length waiting) <= 9 /\
    bn_taken (bridge_step st BTake) = bn_taken st ++ option_list (head (bridge_ready (bn_bridge st))) /\
    (forall req rest packet now, pending = req :: rest -> Z.of_nat (length waiting) <= 8 ->
       bn_gateway (bridge_step st (BProcess packet now)) = (execute req packet now (bn_gateway st)).2) /\
    (forall n packet now, 521 <= Z.of_nat n -> let st' := rounds n packet now st in
       bn_admitted st' = bn_admitted st /\ rp_request_id <$> bn_taken st' = answered_ids (bn_admitted st)).
Proof.
  intros st pending waiting. destruct (bridge_history_serial ops g) as (es & Q & W & [(R & D & Hb & ->) Ha Hs]). fold st in Hb, Ha, Hs.
  destruct (bridge_contents _ _ _ _ Hb) as (EQ & ER & EW). unfold pending, waiting. rewrite EQ, ER, EW. destruct (bridge_bounds _ _ _ _ Hb) as [HQ HR].
  exists es. split; [done|]. split; [done|]. split; [rewrite <- (serial_ids es g); by rewrite Hs|]. split; [done|]. split; [rewrite length_app; destruct D; cbn; lia|]. split; [|split].
  - cbn [bridge_step]. destruct (take_spec _ _ _ _ Hb) as [Hr _]. destruct (bridge.try_take_response (bn_bridge st)) as [r b]. cbn [fst bn_taken] in *. by rewrite Hr.
  - intros req rest packet now -> Hw. cbn [bridge_step].
    assert (Hp := process_served _ _ _ _ packet now (bn_gateway st) Hb). destruct (bridge.process_one packet now (bn_bridge st) (bn_gateway st)) as [[[[ok ac] p] b] g'].
    apply Hp. destruct D as [resp|]; [right|by left]. rewrite length_app in Hw. cbn in Hw. lia.
  - intros n packet now Hn. set (st' := rounds n packet now st). destruct (rounds_work n packet now st Q R D Hb) as [Hadm (Q' & R' & D' & Hb' & Hle)]. fold st' in Hadm, Hb'. split; [exact Hadm|].
    destruct (rounds_history n packet now ops g) as [ops' Eops]. fold st st' in Eops. clearbody st'. destruct (bridge_history_serial ops' g) as (es' & Q2 & W2 & [(R2 & D2 & Hb2 & ->) Ha2 Hs2]). rewrite <- Eops in *.
    destruct (bridge_contents _ _ _ _ Hb') as (E1 & _ & E2). destruct (bridge_contents _ _ _ _ Hb2) as (E3 & _ & E4).
    assert (Hbound : (2 * length Q + length (R ++ option_list D) <= n)%nat) by (assert (length (option_list D) <= 1)%nat by (destruct D; cbn; lia); rewrite length_app; lia).
    assert (Q2 = []) as -> by (rewrite <- E3, E1; destruct Q'; [done|cbn [length] in Hle; lia]).
    assert (EW2 : R2 ++ option_list D2 = []) by (rewrite <- E4, E2; destruct (R' ++ option_list D'); [done|cbn [length] in Hle; lia]).
    rewrite EW2, app_nil_r in Hs2. rewrite <- Hadm, Ha2, app_nil_r, <- (serial_ids es' g), Hs2. reflexivity.
Qed.
End serial.
