(* ===== verification/HttpServer.v ===== *)
(** * The HTTP server (luv_http_server.hpp, luv_http_server.cpp)

    [HttpServer]: a fixed table of clients served by one I/O thread.  A client
    is named by its index in the table.  What the system answers (descriptors,
    the clock, the outcomes of [recv] and [send]) is an argument of each
    operation; a call interrupted by a signal is repeated, a call beyond the
    outcomes given would block.  [None] is an access outside a buffer. *)
From Stdlib Require Import ZArith Lia ZifyBool.
From Stdlib Require String Ascii.
From S2P Require Import Prelude Numeric Bytes Text Config Ring Guards Reconcile Recovery AuditLog ExecTypes Risk Gateway.
From S2P Require Import WsFill WsFrame WsKey WsServer HttpWire HttpHeaders HttpJson HttpKeys HttpBridge.
Import String.StringSyntax.
#[local] Delimit Scope string_scope with str.

Definition kMaxClientSlots : Z := 64.
Definition kMaxAcceptsPerTurn : Z := 16.
Definition kMaxRequestBytes : Z := 2048.
Definition kMaxClientReadBytes : Z := 4096.
Definition kMaxPendingExecutionResponses : Z := 8.
Definition kMaxInlineResponseBytes : Z := 1024.
Definition kMaxPositionsJsonBytes : Z := 64 * 1024.
Definition kResponseWriteTimeoutNs : Z := 5000000000.
Definition kDefaultWriteChunkBytes : Z := 16 * 1024.
Definition kNoClientSlot : Z := UINT32_MAX.

(** ** Data *)
Record ServerConfig := mkConfig {
  cf_bind_address : bool;             (* not the null pointer *)
  cf_response_wait_ms : Z;            (* uint32_t *)
  cf_max_write_chunk_bytes : Z;       (* uint32_t *)
  cf_first_order_id : Z;              (* uint32_t *)
}.

Record ClientSlot := mkClient {
  cl_fd : Z;
  cl_deadline_ns : Z;                 (* uint64_t *)
  cl_request_id : Z;                  (* uint64_t *)
  cl_incoming_size : Z;               (* size_t *)
  cl_header_size : Z;                 (* size_t *)
  cl_required_size : Z;               (* size_t *)
  cl_command : Command;
  cl_header_complete : bool;
  cl_waiting_response : bool;
  cl_sending_response : bool;
  cl_owns_positions_body : bool;
  cl_outgoing_size : Z;               (* size_t *)
  cl_outgoing_offset : Z;             (* size_t *)
  cl_positions_body_offset : Z;       (* size_t *)
  cl_incoming : list Z;               (* char[kMaxClientReadBytes] *)
  cl_outgoing : list Z;               (* char[kMaxInlineResponseBytes] *)
}.
Definition client_init : ClientSlot :=
  mkClient (-1) 0 0 0 0 0 kSubmit false false false false 0 0 0 (replicate 4096 0) (replicate 1024 0).

Definition set_incoming (size : Z) (buf : list Z) (c : ClientSlot) : ClientSlot :=
  mkClient (cl_fd c) (cl_deadline_ns c) (cl_request_id c) size (cl_header_size c) (cl_required_size c) (cl_command c) (cl_header_complete c)
    (cl_waiting_response c) (cl_sending_response c) (cl_owns_positions_body c) (cl_outgoing_size c) (cl_outgoing_offset c)
    (cl_positions_body_offset c) buf (cl_outgoing c).
Definition set_framing (header required : Z) (c : ClientSlot) : ClientSlot :=
  mkClient (cl_fd c) (cl_deadline_ns c) (cl_request_id c) (cl_incoming_size c) header required (cl_command c) true
    (cl_waiting_response c) (cl_sending_response c) (cl_owns_positions_body c) (cl_outgoing_size c) (cl_outgoing_offset c)
    (cl_positions_body_offset c) (cl_incoming c) (cl_outgoing c).
Definition set_waiting (request_id : Z) (command : Command) (deadline_ns : Z) (c : ClientSlot) : ClientSlot :=
  mkClient (cl_fd c) deadline_ns request_id (cl_incoming_size c) (cl_header_size c) (cl_required_size c) command (cl_header_complete c)
    true (cl_sending_response c) (cl_owns_positions_body c) (cl_outgoing_size c) (cl_outgoing_offset c)
    (cl_positions_body_offset c) (cl_incoming c) (cl_outgoing c).
Definition stop_waiting (c : ClientSlot) : ClientSlot :=
  mkClient (cl_fd c) (cl_deadline_ns c) (cl_request_id c) (cl_incoming_size c) (cl_header_size c) (cl_required_size c) (cl_command c)
    (cl_header_complete c) false (cl_sending_response c) (cl_owns_positions_body c) (cl_outgoing_size c) (cl_outgoing_offset c)
    (cl_positions_body_offset c) (cl_incoming c) (cl_outgoing c).
Definition set_sending (size : Z) (buf : list Z) (deadline_ns : Z) (c : ClientSlot) : ClientSlot :=
  mkClient (cl_fd c) deadline_ns (cl_request_id c) (cl_incoming_size c) (cl_header_size c) (cl_required_size c) (cl_command c)
    (cl_header_complete c) false true (cl_owns_positions_body c) size 0 0 (cl_incoming c) buf.
Definition set_owns (owns : bool) (body_offset : Z) (c : ClientSlot) : ClientSlot :=
  mkClient (cl_fd c) (cl_deadline_ns c) (cl_request_id c) (cl_incoming_size c) (cl_header_size c) (cl_required_size c) (cl_command c)
    (cl_header_complete c) (cl_waiting_response c) (cl_sending_response c) owns (cl_outgoing_size c) (cl_outgoing_offset c)
    body_offset (cl_incoming c) (cl_outgoing c).
Definition set_offsets (outgoing body : Z) (c : ClientSlot) : ClientSlot :=
  mkClient (cl_fd c) (cl_deadline_ns c) (cl_request_id c) (cl_incoming_size c) (cl_header_size c) (cl_required_size c) (cl_command c)
    (cl_header_complete c) (cl_waiting_response c) (cl_sending_response c) (cl_owns_positions_body c) (cl_outgoing_size c) outgoing
    body (cl_incoming c) (cl_outgoing c).
(** The slot of [close_client] and of an accepted connection. *)
Definition reset_client (fd deadline_ns : Z) (c : ClientSlot) : ClientSlot :=
  mkClient fd deadline_ns 0 0 0 0 kSubmit false false false false 0 0 0 (lset 0 0 (cl_incoming c)) (lset 0 0 (cl_outgoing c)).

(** What the peers, the bridge and the system see, latest first. *)
Inductive Event :=
  | EvAccepted (i fd : Z)             (* the connection of client [i] *)
  | EvReceived (i : Z) (bytes : list Z)
  | EvAsked (i : Z) (request : Request)     (* the bridge took client [i]'s request *)
  | EvAnswered (i : Z) (response : Response)  (* the response was for client [i] *)
  | EvSent (i : Z) (bytes : list Z)   (* bytes the system took for client [i] *)
  | EvClosed (i fd : Z)
  | EvRefused (fd : Z) (bytes : list Z)  (* a connection without a slot: one send, then close *)
  | EvDropped (fd : Z).

Record HttpServer := mkHttp {
  hs_bridge : ExecutionBridge;
  hs_keys : BearerKeyStore;
  hs_config : ServerConfig;
  hs_next_order_id : Z;               (* uint32_t *)
  hs_next_request_id : Z;             (* g_next_http_request_id, uint64_t *)
  hs_websocket : option Server;
  hs_outstanding : list Z;            (* outstanding_response_ids_ *)
  hs_clients : list ClientSlot;
  hs_body : list Z;                   (* positions_body_, char[kMaxPositionsJsonBytes] *)
  hs_body_size : Z;
  hs_body_owner : Z;                  (* uint32_t *)
  hs_listener : Z;                    (* fd_ *)
  hs_running : bool;
  hs_joinable : bool;                 (* thread_.joinable() *)
  hs_log : list Event;
}.

Definition client (s : HttpServer) (i : Z) : ClientSlot := lget client_init (hs_clients s) i.

Definition with_bridge (b : ExecutionBridge) (s : HttpServer) : HttpServer :=
  mkHttp b (hs_keys s) (hs_config s) (hs_next_order_id s) (hs_next_request_id s) (hs_websocket s) (hs_outstanding s) (hs_clients s)
    (hs_body s) (hs_body_size s) (hs_body_owner s) (hs_listener s) (hs_running s) (hs_joinable s) (hs_log s).
Definition with_ids (order_id request_id : Z) (s : HttpServer) : HttpServer :=
  mkHttp (hs_bridge s) (hs_keys s) (hs_config s) order_id request_id (hs_websocket s) (hs_outstanding s) (hs_clients s)
    (hs_body s) (hs_body_size s) (hs_body_owner s) (hs_listener s) (hs_running s) (hs_joinable s) (hs_log s).
Definition with_websocket (w : option Server) (s : HttpServer) : HttpServer :=
  mkHttp (hs_bridge s) (hs_keys s) (hs_config s) (hs_next_order_id s) (hs_next_request_id s) w (hs_outstanding s) (hs_clients s)
    (hs_body s) (hs_body_size s) (hs_body_owner s) (hs_listener s) (hs_running s) (hs_joinable s) (hs_log s).
Definition with_outstanding (l : list Z) (s : HttpServer) : HttpServer :=
  mkHttp (hs_bridge s) (hs_keys s) (hs_config s) (hs_next_order_id s) (hs_next_request_id s) (hs_websocket s) l (hs_clients s)
    (hs_body s) (hs_body_size s) (hs_body_owner s) (hs_listener s) (hs_running s) (hs_joinable s) (hs_log s).
Definition with_clients (l : list ClientSlot) (s : HttpServer) : HttpServer :=
  mkHttp (hs_bridge s) (hs_keys s) (hs_config s) (hs_next_order_id s) (hs_next_request_id s) (hs_websocket s) (hs_outstanding s) l
    (hs_body s) (hs_body_size s) (hs_body_owner s) (hs_listener s) (hs_running s) (hs_joinable s) (hs_log s).
Definition with_body (body : list Z) (size owner : Z) (s : HttpServer) : HttpServer :=
  mkHttp (hs_bridge s) (hs_keys s) (hs_config s) (hs_next_order_id s) (hs_next_request_id s) (hs_websocket s) (hs_outstanding s) (hs_clients s)
    body size owner (hs_listener s) (hs_running s) (hs_joinable s) (hs_log s).
Definition with_thread (listener : Z) (running joinable : bool) (s : HttpServer) : HttpServer :=
  mkHttp (hs_bridge s) (hs_keys s) (hs_config s) (hs_next_order_id s) (hs_next_request_id s) (hs_websocket s) (hs_outstanding s) (hs_clients s)
    (hs_body s) (hs_body_size s) (hs_body_owner s) listener running joinable (hs_log s).
Definition logged (e : Event) (s : HttpServer) : HttpServer :=
  mkHttp (hs_bridge s) (hs_keys s) (hs_config s) (hs_next_order_id s) (hs_next_request_id s) (hs_websocket s) (hs_outstanding s) (hs_clients s)
    (hs_body s) (hs_body_size s) (hs_body_owner s) (hs_listener s) (hs_running s) (hs_joinable s) (e :: hs_log s).
Definition upd_client (i : Z) (f : ClientSlot -> ClientSlot) (s : HttpServer) : HttpServer :=
  with_clients (lset i (f (client s i)) (hs_clients s)) s.

(** What the system answers to the calls of one operation. *)
Record Env := mkEnv {
  en_order_ns : Z;                    (* the clock in [submit_order] *)
  en_now_ns : Z;                      (* the clock for the deadline *)
  en_sent : list send_outcome;        (* [send] *)
  en_dup : Z;                         (* [dup] *)
  en_lease : bool;                    (* the lease of [enqueue_upgrade] *)
}.

(** ** Texts *)
Definition json_error (name : list Z) : list Z :=
  [123; 34] ++ bytes_of_string "error"%str ++ [34; 58; 34] ++ name ++ [34; 125].
Definition field_text (name : list Z) : list Z := [34] ++ name ++ [34; 58].

Definition reason_200 : list Z := Eval vm_compute in bytes_of_string "OK"%str.
Definition reason_202 : list Z := Eval vm_compute in bytes_of_string "Accepted"%str.
Definition reason_400 : list Z := Eval vm_compute in bytes_of_string "Bad Request"%str.
Definition reason_401 : list Z := Eval vm_compute in bytes_of_string "Unauthorized"%str.
Definition reason_404 : list Z := Eval vm_compute in bytes_of_string "Not Found"%str.
Definition reason_408 : list Z := Eval vm_compute in bytes_of_string "Request Timeout"%str.
Definition reason_413 : list Z := Eval vm_compute in bytes_of_string "Payload Too Large"%str.
Definition reason_503 : list Z := Eval vm_compute in bytes_of_string "Service Unavailable"%str.
Definition reason_504 : list Z := Eval vm_compute in bytes_of_string "Gateway Timeout"%str.
Definition reason_500 : list Z := Eval vm_compute in bytes_of_string "Internal Server Error"%str.

Definition error_too_large : list Z := Eval vm_compute in json_error (bytes_of_string "request_too_large"%str).
Definition error_framing : list Z := Eval vm_compute in json_error (bytes_of_string "invalid_request_framing"%str).
Definition error_unauthorized : list Z := Eval vm_compute in json_error (bytes_of_string "unauthorized"%str).
Definition error_bad_request : list Z := Eval vm_compute in json_error (bytes_of_string "bad_request"%str).
Definition error_upgrade : list Z := Eval vm_compute in json_error (bytes_of_string "invalid_websocket_upgrade"%str).
Definition error_key : list Z := Eval vm_compute in json_error (bytes_of_string "Invalid WebSocket key"%str).
Definition error_pool : list Z := Eval vm_compute in json_error (bytes_of_string "Connection pool exhausted"%str).
Definition error_slots : list Z := Eval vm_compute in json_error (bytes_of_string "connection_pool_exhausted"%str).
Definition error_order : list Z := Eval vm_compute in json_error (bytes_of_string "invalid_order"%str).
Definition error_order_ids : list Z := Eval vm_compute in json_error (bytes_of_string "order_id_exhausted"%str).
Definition error_queue_full : list Z := Eval vm_compute in json_error (bytes_of_string "queue_full"%str).
Definition error_not_found : list Z := Eval vm_compute in json_error (bytes_of_string "not_found"%str).
Definition error_request_ids : list Z := Eval vm_compute in json_error (bytes_of_string "request_id_exhausted"%str).
Definition error_positions_busy : list Z := Eval vm_compute in json_error (bytes_of_string "positions_response_busy"%str).
Definition error_responses_full : list Z := Eval vm_compute in json_error (bytes_of_string "response_queue_full"%str).
Definition error_positions_large : list Z := Eval vm_compute in json_error (bytes_of_string "positions_response_too_large"%str).
Definition error_format : list Z := Eval vm_compute in json_error (bytes_of_string "response_format_failed"%str).
Definition error_timeout : list Z := Eval vm_compute in json_error (bytes_of_string "execution_timeout"%str).
Definition error_request_timeout : list Z := Eval vm_compute in json_error (bytes_of_string "request_timeout"%str).

Definition status_line : list Z := Eval vm_compute in bytes_of_string "HTTP/1.1 "%str.
Definition content_type : list Z := Eval vm_compute in
  [13; 10] ++ bytes_of_string "Content-Type: application/json"%str ++ [13; 10] ++ bytes_of_string "Content-Length: "%str.
Definition connection_close : list Z := Eval vm_compute in [13; 10] ++ bytes_of_string "Connection: close"%str ++ [13; 10; 13; 10].

(** The header of a reply; [status] has three digits. *)
Definition response_header (status : Z) (reason : list Z) (body_size : Z) : list Z :=
  status_line ++ decimal_signed status ++ [32] ++ reason ++ content_type ++ decimal body_size ++ connection_close.

Definition name (s : OrderStatus) : list Z :=
  match s with
  | kPending => bytes_of_string "pending"%str
  | kLive => bytes_of_string "live"%str
  | kPartial => bytes_of_string "partial"%str
  | kCancelled => bytes_of_string "cancelled"%str
  | kDone => bytes_of_string "done"%str
  | kRejected => bytes_of_string "rejected"%str
  | kNotFound => bytes_of_string "not_found"%str
  end.

Definition field_order_id : list Z := Eval vm_compute in field_text (bytes_of_string "order_id"%str).
Definition field_status : list Z := Eval vm_compute in field_text (bytes_of_string "status"%str).
Definition field_symbol_idx : list Z := Eval vm_compute in field_text (bytes_of_string "symbol_idx"%str).
Definition field_qty : list Z := Eval vm_compute in field_text (bytes_of_string "qty"%str).
Definition field_filled_qty : list Z := Eval vm_compute in field_text (bytes_of_string "filled_qty"%str).
Definition field_price : list Z := Eval vm_compute in field_text (bytes_of_string "price"%str).
Definition field_net_position : list Z := Eval vm_compute in field_text (bytes_of_string "net_position"%str).
Definition field_gross_exposure : list Z := Eval vm_compute in field_text (bytes_of_string "gross_exposure"%str).
Definition text_accepted : list Z := Eval vm_compute in [34] ++ bytes_of_string "accepted"%str ++ [34].
Definition positions_prefix : list Z := Eval vm_compute in [123] ++ field_text (bytes_of_string "positions"%str) ++ [91].

Definition accepted_json (order_id : Z) : list Z :=
  [123] ++ field_order_id ++ decimal order_id ++ [44] ++ field_status ++ text_accepted ++ [125].

Definition order_json (o : OrderSnapshot) : list Z :=
  [123] ++ field_order_id ++ decimal (os_order_id o) ++ [44] ++ field_status ++ [34] ++ name (os_status o) ++ [34; 44]
  ++ field_symbol_idx ++ decimal (os_symbol_idx o) ++ [44] ++ field_qty ++ decimal_signed (os_quantity o) ++ [44]
  ++ field_filled_qty ++ decimal_signed (os_filled_quantity o) ++ [44] ++ field_price ++ decimal_signed (os_price o) ++ [125].

Definition position_json (p : PositionSnapshot) : list Z :=
  [123] ++ field_symbol_idx ++ decimal (ps_symbol_idx p) ++ [44] ++ field_net_position ++ decimal_signed (ps_net_position p) ++ [44]
  ++ field_gross_exposure ++ decimal_signed (ps_gross_exposure p) ++ [125].

(** The two words [sscanf] reads: white space, then up to [n] other characters. *)
Definition is_space (c : Z) : bool := ((9 <=? c) && (c <=? 13)) || (c =? 32).

Fixpoint skip_space (text : list Z) : list Z :=
  match text with
  | c :: r => if is_space c then skip_space r else text
  | [] => []
  end.

Fixpoint scan_chars (n : nat) (text : list Z) : list Z * list Z :=
  match n, text with
  | S n, c :: r => if is_space c then ([], text) else let w := scan_chars n r in (c :: fst w, snd w)
  | _, _ => ([], text)
  end.

Definition scan_word (n : nat) (text : list Z) : option (list Z * list Z) :=
  let w := scan_chars n (skip_space text) in
  if bool_decide (fst w = []) then None else Some w.

Definition kPost : list Z := Eval vm_compute in bytes_of_string "POST"%str.
Definition kDelete : list Z := Eval vm_compute in bytes_of_string "DELETE"%str.
Definition kBearer : list Z := Eval vm_compute in bytes_of_string "Bearer"%str.
Definition kAuthorizationHeader : list Z := Eval vm_compute in bytes_of_string "Authorization"%str.
Definition path_orders : list Z := Eval vm_compute in bytes_of_string "/api/v1/orders"%str.
Definition path_order : list Z := Eval vm_compute in bytes_of_string "/api/v1/orders/"%str.
Definition path_positions : list Z := Eval vm_compute in bytes_of_string "/api/v1/positions"%str.
Definition path_stream : list Z := Eval vm_compute in bytes_of_string "/api/v1/stream/"%str.

Module http.

(** ** Reservations *)
Definition take_order_id (s : HttpServer) : Z * HttpServer :=
  let id := hs_next_order_id s in
  if id =? 0 then (0, s) else (id, with_ids (if id =? UINT32_MAX then 0 else id + 1) (hs_next_request_id s) s).

Definition take_http_request_id (s : HttpServer) : Z * HttpServer :=
  let id := hs_next_request_id s in
  if id =? 0 then (0, s) else (id, with_ids (hs_next_order_id s) (if id =? UINT64_MAX then 0 else id + 1) s).

Definition acquire_client (s : HttpServer) : option Z :=
  (fun x => Z.of_nat (fst x)) <$> list_find (fun c => (cl_fd c <? 0) = true) (hs_clients s).

(** The first entry equal to [old] becomes [new]. *)
Definition replace_first (old new : Z) (l : list Z) : option (list Z) :=
  (fun x => <[fst x := new]> l) <$> list_find (fun id => id = old) l.

Definition reserve_response_id (request_id : Z) (s : HttpServer) : bool * HttpServer :=
  if request_id =? 0 then (false, s)
  else match replace_first 0 request_id (hs_outstanding s) with
       | Some l => (true, with_outstanding l s)
       | None => (false, s)
       end.

Definition release_response_id (request_id : Z) (s : HttpServer) : bool * HttpServer :=
  if request_id =? 0 then (false, s)
  else match replace_first request_id 0 (hs_outstanding s) with
       | Some l => (true, with_outstanding l s)
       | None => (false, s)
       end.

Definition reserve_positions_body (i : Z) (s : HttpServer) : bool * HttpServer :=
  if cl_owns_positions_body (client s i) || negb (hs_body_owner s =? kNoClientSlot) then (false, s)
  else (true, upd_client i (fun c => set_owns true (cl_positions_body_offset c) c) (with_body (hs_body s) 0 i s)).

Definition release_positions_body (i : Z) (s : HttpServer) : HttpServer :=
  if negb (cl_owns_positions_body (client s i)) then s
  else
    let s := if hs_body_owner s =? i then with_body (hs_body s) 0 kNoClientSlot s else s in
    upd_client i (set_owns false 0) s.

(** ** Closing *)
Definition close_client (i : Z) (s : HttpServer) : HttpServer :=
  let descriptor := cl_fd (client s i) in
  let s := release_positions_body i s in
  let s := upd_client i (reset_client (-1) 0) s in
  if 0 <=? descriptor then logged (EvClosed i descriptor) s else s.

Definition close_all_clients (s : HttpServer) : HttpServer :=
  foldl (fun s i => close_client i s) s (zrange 0 (length (hs_clients s))).

Definition close_socket (s : HttpServer) : HttpServer := with_thread (-1) (hs_running s) (hs_joinable s) s.

(** ** Sending *)

(** The outcome of the one write of a turn, interruptions repeated. *)
Fixpoint send_once (outcomes : list send_outcome) : send_outcome :=
  match outcomes with
  | SendIntr :: outcomes => send_once outcomes
  | o :: _ => o
  | [] => SendAgain
  end.

Definition flush_client (i : Z) (outcomes : list send_outcome) (s : HttpServer) : option HttpServer :=
  let c := client s i in
  if (cl_fd c <? 0) || negb (cl_sending_response c) then Some s
  else
    let write (bytes : list Z) (offset total : Z) (advance : Z -> ClientSlot -> ClientSlot) :=
      let configured := if cf_max_write_chunk_bytes (hs_config s) =? 0 then kDefaultWriteChunkBytes else cf_max_write_chunk_bytes (hs_config s) in
      let remaining := total - offset in
      let send_size := if remaining <? configured then remaining else configured in
      chunk ← slice bytes offset send_size;
      match send_once outcomes with
      | SendBytes n =>
          if 0 <? n then
            let taken := take (Z.to_nat (Z.min n send_size)) chunk in
            Some (logged (EvSent i taken) (upd_client i (advance (offset + Z.of_nat (length taken))) s))
          else Some (close_client i s)
      | SendAgain | SendIntr => Some s
      | SendError => Some (close_client i s)
      end in
    if cl_outgoing_offset c <? cl_outgoing_size c then
      write (cl_outgoing c) (cl_outgoing_offset c) (cl_outgoing_size c) (fun o c => set_offsets o (cl_positions_body_offset c) c)
    else if cl_owns_positions_body c && (cl_positions_body_offset c <? hs_body_size s) then
      write (hs_body s) (cl_positions_body_offset c) (hs_body_size s) (fun o c => set_offsets (cl_outgoing_offset c) o c)
    else Some (close_client i s).

Definition queue_inline_json (i status : Z) (reason body : list Z) (env : Env) (s : HttpServer) : option HttpServer :=
  if cl_fd (client s i) <? 0 then Some s
  else
    let s := release_positions_body i s in
    let header := response_header status reason (Z.of_nat (length body)) in
    let header_size := Z.of_nat (length header) in
    if (kMaxInlineResponseBytes <=? header_size) || (kMaxInlineResponseBytes - header_size <? Z.of_nat (length body)) then Some (close_client i s)
    else
      buf ← memcpy (cl_outgoing (client s i)) 0 (header ++ [0]);
      buf ← memcpy buf header_size body;
      let s := upd_client i (set_sending (header_size + Z.of_nat (length body)) buf (u64 (en_now_ns env + kResponseWriteTimeoutNs))) s in
      flush_client i (en_sent env) s.

(** The loop over the positions: the text so far, [None] when it does not fit.
    Nothing reads what a failed serialisation left in the buffer. *)
Fixpoint positions_text (first : bool) (l : list PositionSnapshot) (text : list Z) : option (list Z) :=
  match l with
  | [] => Some text
  | p :: l =>
      let entry := (if first then [] else [44]) ++ position_json p in
      if kMaxPositionsJsonBytes - Z.of_nat (length text) <=? Z.of_nat (length entry) then None
      else positions_text false l (text ++ entry)
  end.

Definition queue_positions_json (i : Z) (response : Response) (env : Env) (s : HttpServer) : option HttpServer :=
  if (cl_fd (client s i) <? 0) || negb (cl_owns_positions_body (client s i)) then Some s
  else
    match positions_text true (rp_positions response) positions_prefix with
    | None => queue_inline_json i 500 reason_500 error_positions_large env s
    | Some text =>
        if kMaxPositionsJsonBytes <? Z.of_nat (length text) + 3 then queue_inline_json i 500 reason_500 error_positions_large env s
        else
          body ← memcpy (hs_body s) 0 (text ++ [93; 125; 0]);
          let s := with_body body (Z.of_nat (length text) + 2) (hs_body_owner s) s in
          let header := response_header 200 reason_200 (hs_body_size s) in
          if kMaxInlineResponseBytes <=? Z.of_nat (length header) then queue_inline_json i 500 reason_500 error_format env s
          else
            buf ← memcpy (cl_outgoing (client s i)) 0 (header ++ [0]);
            let s := upd_client i (set_sending (Z.of_nat (length header)) buf (u64 (en_now_ns env + kResponseWriteTimeoutNs))) s in
            flush_client i (en_sent env) s
    end.

Definition send_response (i : Z) (response : Response) (env : Env) (s : HttpServer) : option HttpServer :=
  if bool_decide (cl_command (client s i) = kPositions) then queue_positions_json i response env s
  else
    let body := order_json (rp_order response) in
    if 256 <=? Z.of_nat (length body) then queue_inline_json i 500 reason_500 error_format env s
    else
      let missing := bool_decide (os_status (rp_order response) = kNotFound) in
      queue_inline_json i (if missing then 404 else 200) (if missing then reason_404 else reason_200) body env s.

(** ** Requests *)

(** The check of the bearer token; [end_] is the end of the header block. *)
Definition authorized (incoming : list Z) (end_ : nat) (keys : BearerKeyStore) : option bool :=
  authorization ← header incoming end_ kAuthorizationHeader;
  match authorization with
  | None => Some false
  | Some a =>
      if (Z.of_nat (length a) <=? 7) || negb (ascii_equal (take 6 a) kBearer) then Some false
      else
        separator ← rd a 6;
        if negb ((separator =? 32) || (separator =? 9)) then Some false
        else
          let auth := wire.trim_front (drop 6 a) in
          Some (negb (bool_decide (auth = [])) && keystore.validate (Some auth) keys)
  end.

(** GET on a stream path with a WebSocket server: the upgrade. *)
Definition dispatch_upgrade (i : Z) (incoming path : list Z) (end_ : nat) (websocket : Server) (env : Env) (s : HttpServer) : option HttpServer :=
  let c := client s i in
  key_header ← header incoming end_ kKeyHeader;
  version ← header incoming end_ kVersionHeader;
  let version_ok := match version with Some v => ascii_equal v kVersion13 | None => false end in
  upgrade ← header incoming end_ kUpgradeHeader;
  connection ← header incoming end_ kConnectionHeader;
  upgrade_ok ← header_has_token upgrade kWebsocketToken;
  connection_ok ← header_has_token connection kUpgradeHeader;
  match path_number path path_stream, key_header with
  | Some id, Some k =>
      if negb upgrade_ok || negb connection_ok || negb version_ok then queue_inline_json i 400 reason_400 error_upgrade env s
      else
        block ← slice (cl_incoming c) 0 (cl_header_size c);
        shakes ← (if 32 <=? Z.of_nat (length k) then Some false else handshake block);
        if negb shakes then queue_inline_json i 400 reason_400 error_key env s
        else
          key ← memcpy (replicate 32 0) 0 k;
          if negb (cl_required_size c =? cl_header_size c) || (cl_incoming_size c <? cl_header_size c)
          then queue_inline_json i 400 reason_400 error_upgrade env s
          else
            let pre_read_size := cl_incoming_size c - cl_header_size c in
            if kMaxUpgradePreReadBytes <? pre_read_size then queue_inline_json i 400 reason_400 error_upgrade env s
            else
              let retained := en_dup env in
              r ← (if retained <? 0 then Some (uQueueFull, websocket)
                   else server.enqueue_upgrade retained id (Some key) (Some (drop (Z.to_nat (cl_header_size c)) (cl_incoming c)))
                          pre_read_size (en_lease env) websocket);
              let s := with_websocket (Some (snd r)) s in
              match fst r with
              | uAccepted => Some (close_client i s)
              | uInvalidKey => queue_inline_json i 400 reason_400 error_key env s
              | uInvalidUpgrade => queue_inline_json i 400 reason_400 error_upgrade env s
              | _ => queue_inline_json i 503 reason_503 error_pool env s
              end
  | _, _ => queue_inline_json i 400 reason_400 error_upgrade env s
  end.

(** POST of an order. *)
Definition dispatch_order (i : Z) (body : list Z) (env : Env) (s : HttpServer) : option HttpServer :=
  match submit_order body (en_order_ns env) with
  | None => queue_inline_json i 400 reason_400 error_order env s
  | Some order =>
      let '(id, s) := take_order_id s in
      if id =? 0 then queue_inline_json i 503 reason_503 error_order_ids env s
      else
        let order := mkIntent (oi_symbol_idx order) (oi_side order) (oi_qty order) (oi_price order) (oi_alpha_timestamp_ns order)
                       (oi_now_ns order) id (oi_time_in_force order) in
        let request := mkRequest kSubmit 0 0 order in
        let '(ok, b) := bridge.submit request (hs_bridge s) in
        let s := with_bridge b s in
        if negb ok then queue_inline_json i 503 reason_503 error_queue_full env s
        else
          let s := logged (EvAsked i request) s in
          let text := accepted_json id in
          if 96 <=? Z.of_nat (length text) then queue_inline_json i 500 reason_500 error_format env s
          else queue_inline_json i 202 reason_202 text env s
  end.

(** The other commands wait for the owner's response. *)
Definition dispatch_command (i : Z) (command : Command) (order_id : Z) (env : Env) (s : HttpServer) : option HttpServer :=
  let '(request_id, s) := take_http_request_id s in
  if request_id =? 0 then queue_inline_json i 503 reason_503 error_request_ids env s
  else
    let '(reserved, s) := if bool_decide (command = kPositions) then reserve_positions_body i s else (true, s) in
    if negb reserved then queue_inline_json i 503 reason_503 error_positions_busy env s
    else
      let '(outstanding, s) := reserve_response_id request_id s in
      if negb outstanding then queue_inline_json i 503 reason_503 error_responses_full env (release_positions_body i s)
      else
        let request := mkRequest command request_id order_id (rq_order request_init) in
        let '(ok, b) := bridge.submit request (hs_bridge s) in
        let s := with_bridge b s in
        if negb ok then queue_inline_json i 503 reason_503 error_queue_full env (release_positions_body i (snd (release_response_id request_id s)))
        else
          let s := logged (EvAsked i request) s in
          Some (upd_client i (set_waiting request_id command (u64 (en_now_ns env + cf_response_wait_ms (hs_config s) * 1000000))) s).

(** The routes besides the upgrade; the bytes behind the body are cut off. *)
Definition dispatch_rest (i : Z) (method path : list Z) (env : Env) (s : HttpServer) : option HttpServer :=
  let c := client s i in
  _ ← rd (cl_incoming c) (cl_required_size c);
  let s := upd_client i (fun c => set_incoming (cl_incoming_size c) (lset (cl_required_size c) 0 (cl_incoming c)) c) s in
  if bool_decide (method = kPost) && bool_decide (path = path_orders) then
    body ← cstr (drop (Z.to_nat (cl_header_size c)) (cl_incoming (client s i)));
    dispatch_order i body env s
  else if bool_decide (method = kGet) && bool_decide (path = path_positions) then dispatch_command i kPositions 0 env s
  else
    match path_number path path_order with
    | Some id =>
        if bool_decide (method = kGet) then dispatch_command i kQuery id env s
        else if bool_decide (method = kDelete) then dispatch_command i kCancel id env s
        else queue_inline_json i 404 reason_404 error_not_found env s
    | None => queue_inline_json i 404 reason_404 error_not_found env s
    end.

Definition dispatch_client (i : Z) (env : Env) (s : HttpServer) : option HttpServer :=
  let c := client s i in
  incoming ← cstr (cl_incoming c);
  let end_ := (Z.to_nat (cl_header_size c) - 4)%nat in
  allowed ← authorized incoming end_ (hs_keys s);
  if negb allowed then queue_inline_json i 401 reason_401 error_unauthorized env s
  else
    match scan_word 7 incoming with
    | None => queue_inline_json i 400 reason_400 error_bad_request env s
    | Some (method, text) =>
        match scan_word 127 text with
        | None => queue_inline_json i 400 reason_400 error_bad_request env s
        | Some (path, _) =>
            match hs_websocket s with
            | Some websocket =>
                if bool_decide (method = kGet) && starts path_stream path then dispatch_upgrade i incoming path end_ websocket env s
                else dispatch_rest i method path env s
            | None => dispatch_rest i method path env s
            end
        end
    end.

(** What is received goes behind the bytes of the buffer; the first complete
    header block fixes the framing.  [inl] is a reply that has been queued. *)
Definition store_bytes (i : Z) (bytes : list Z) (env : Env) (s : HttpServer) : option (HttpServer + HttpServer) :=
  let c := client s i in
  let size := cl_incoming_size c + Z.of_nat (length bytes) in
  buf ← memcpy (cl_incoming c) (cl_incoming_size c) (bytes ++ [0]);
  let s := logged (EvReceived i bytes) (upd_client i (set_incoming size buf) s) in
  if cl_header_complete c then Some (inr s)
  else
    text ← slice buf 0 size;
    parsed ← wire.request text (kMaxRequestBytes - 1);
    match wire.status parsed with
    | wire.invalid => r ← queue_inline_json i 400 reason_400 error_framing env s; Some (inl r)
    | wire.too_large => r ← queue_inline_json i 413 reason_413 error_framing env s; Some (inl r)
    | _ =>
        if negb (wire.required_size parsed =? 0)
        then Some (inr (upd_client i (set_framing (wire.header_size parsed) (wire.required_size parsed)) s))
        else Some (inr s)
    end.

Definition request_complete (c : ClientSlot) : bool := cl_header_complete c && (cl_required_size c <=? cl_incoming_size c).

(** The loop of [read_client]; [inl] is an early return, [inr] the end of the
    loop.  [recvs] are the outcomes of [recv], [inbox] the unread bytes of the
    socket, of which the rest is returned. *)
Fixpoint read_loop (i : Z) (recvs : list recv_outcome) (inbox : list Z) (env : Env) (s : HttpServer) : option (list Z * (HttpServer + HttpServer)) :=
  let c := client s i in
  if cl_fd c <? 0 then Some (inbox, inr s)
  else
    let read_limit := if cl_header_complete c then kMaxClientReadBytes else kMaxRequestBytes in
    if read_limit <=? cl_incoming_size c + 1 then
      if negb (cl_header_complete c) then r ← queue_inline_json i 413 reason_413 error_too_large env s; Some (inbox, inl r)
      else Some (inbox, inr s)
    else
      match recvs with
      | RecvMax n :: recvs =>
          match inbox with
          | [] => Some (inbox, inr s)
          | _ :: _ =>
              let count := Z.to_nat (Z.min (Z.max 1 n) (read_limit - cl_incoming_size c - 1)) in
              r ← store_bytes i (take count inbox) env s;
              match r with
              | inl s => Some (drop count inbox, inl s)
              | inr s => read_loop i recvs (drop count inbox) env s
              end
          end
      | RecvEof :: _ => if request_complete c then Some (inbox, inr s) else Some (inbox, inl (close_client i s))
      | RecvIntr :: recvs => read_loop i recvs inbox env s
      | RecvAgain :: _ | [] => Some (inbox, inr s)
      | RecvError :: _ => Some (inbox, inl (close_client i s))
      end.

Definition read_client (i : Z) (recvs : list recv_outcome) (inbox : list Z) (env : Env) (s : HttpServer) : option (list Z * HttpServer) :=
  r ← read_loop i recvs inbox env s;
  match snd r with
  | inl s => Some (fst r, s)
  | inr s =>
      if (0 <=? cl_fd (client s i)) && request_complete (client s i) then s ← dispatch_client i env s; Some (fst r, s)
      else Some (fst r, s)
  end.

(** ** Accepting *)

(** What [accept] gives: a descriptor, whether it could be made non-blocking
    and the clock; an interruption; or nothing. *)
Inductive accept_outcome := Accepted (fd : Z) (nonblocking : bool) (now : Z) | AcceptIntr | AcceptNone.

Definition refusal : list Z := Eval vm_compute in response_header 503 reason_503 (Z.of_nat (length error_slots)) ++ error_slots.

(** The list ends where [accept] would block or the server stops running. *)
Fixpoint accept_clients (budget : nat) (outcomes : list accept_outcome) (s : HttpServer) : HttpServer :=
  match budget, outcomes with
  | S budget', Accepted fd nonblocking now :: outcomes =>
      if negb nonblocking then accept_clients budget' outcomes (logged (EvDropped fd) s)
      else
        match acquire_client s with
        | None => accept_clients budget' outcomes (logged (EvRefused fd refusal) s)
        | Some i =>
            let deadline := u64 (now + cf_response_wait_ms (hs_config s) * 1000000) in
            accept_clients budget' outcomes (logged (EvAccepted i fd) (upd_client i (reset_client fd deadline) s))
        end
  | S _, AcceptIntr :: outcomes => accept_clients budget outcomes s
  | _, _ => s
  end.

(** ** Responses and deadlines *)

(** The client that waits for a response. *)
Definition waits_for (request_id : Z) (c : ClientSlot) : bool :=
  negb (cl_fd c <? 0) && cl_waiting_response c && (cl_request_id c =? request_id).

Definition deliver (response : Response) (env : Env) (s : HttpServer) : option HttpServer :=
  let '(ours, s) := release_response_id (rp_request_id response) s in
  if negb ours then Some s
  else
    match list_find (fun c => waits_for (rp_request_id response) c = true) (hs_clients s) with
    | None => Some s
    | Some (n, _) =>
        let i := Z.of_nat n in
        send_response i response env (logged (EvAnswered i response) (upd_client i stop_waiting s))
    end.

(** [drain_responses] ends because the queue holds at most its capacity and
    the owner's pushes meanwhile are other steps; [n] bounds the passes. *)
Fixpoint drain_responses (n : nat) (env : nat -> Env) (s : HttpServer) : option HttpServer :=
  match n with
  | O => Some s
  | S n =>
      let '(r, b) := bridge.try_take_response (hs_bridge s) in
      match r with
      | None => Some s
      | Some response => s ← deliver response (env n) (with_bridge b s); drain_responses n env s
      end
  end.

Definition expire_client (now : Z) (env : Z -> Env) (s : HttpServer) (i : Z) : option HttpServer :=
  let c := client s i in
  if (cl_fd c <? 0) || (now <? cl_deadline_ns c) then Some s
  else if cl_sending_response c then Some (close_client i s)
  else if cl_waiting_response c then queue_inline_json i 504 reason_504 error_timeout (env i) s
  else queue_inline_json i 408 reason_408 error_request_timeout (env i) s.

Fixpoint each_client (l : list Z) (f : HttpServer -> Z -> option HttpServer) (s : HttpServer) : option HttpServer :=
  match l with [] => Some s | i :: l => s ← f s i; each_client l f s end.

Definition expire_clients (now : Z) (env : Z -> Env) (s : HttpServer) : option HttpServer :=
  each_client (zrange 0 (length (hs_clients s))) (expire_client now env) s.

(** ** The event loop *)
Definition has (events mask : Z) : bool := negb (Z.land events mask =? 0).
Definition POLLPRI : Z := 2.
Definition POLLERR : Z := 8.
Definition POLLHUP : Z := 16.
Definition POLLNVAL : Z := 32.

(** The events a client is polled for. *)
Definition poll_events (c : ClientSlot) : Z :=
  if cl_sending_response c then POLLOUT else if negb (cl_waiting_response c) then POLLIN else 0.

(** What the system answers in a turn. *)
Record TurnInput := mkInput {
  ti_ready : Z;                                 (* result of poll *)
  ti_accept : list accept_outcome;              (* with POLLIN on the listener *)
  ti_revents : Z -> Z;                          (* revents of a client *)
  ti_send : Z -> list send_outcome;             (* flush_client *)
  ti_recv : Z -> list recv_outcome * list Z;    (* read_client *)
  ti_read_env : Z -> Env;
  ti_drain_env : nat -> Env;
  ti_now : Z;
  ti_expire_env : Z -> Env;
}.

Definition serve_client (input : TurnInput) (s : HttpServer) (i : Z) : option HttpServer :=
  if cl_fd (client s i) <? 0 then Some s
  else
    let events := ti_revents input i in
    s ← (if cl_sending_response (client s i) && has events POLLOUT then flush_client i (ti_send input i) s else Some s);
    let c := client s i in
    s ← (if (0 <=? cl_fd c) && negb (cl_sending_response c) && negb (cl_waiting_response c) && has events (Z.lor POLLIN POLLPRI)
         then r ← read_client i (fst (ti_recv input i)) (snd (ti_recv input i)) (ti_read_env input i) s; Some (snd r)
         else Some s);
    Some (if (0 <=? cl_fd (client s i)) && has events (Z.lor (Z.lor POLLERR POLLHUP) POLLNVAL) then close_client i s else s).

(** One pass of [serve]; the clients polled are those open when it starts. *)
Definition turn (input : TurnInput) (s : HttpServer) : option HttpServer :=
  let polled := filter (fun i => (cl_fd (client s i) <? 0) = false) (zrange 0 (length (hs_clients s))) in
  s ← (if 0 <? ti_ready input
       then each_client polled (serve_client input) (accept_clients (Z.to_nat kMaxAcceptsPerTurn) (ti_accept input) s)
       else Some s);
  s ← drain_responses (Z.to_nat kResponseCapacity) (ti_drain_env input) s;
  expire_clients (ti_now input) (ti_expire_env input) s.

(** ** Lifecycle *)

(** [serve] behind its loop. *)
Definition serve_exit (s : HttpServer) : HttpServer :=
  let s := close_socket (close_all_clients s) in with_thread (hs_listener s) false (hs_joinable s) s.

(** [start]; [listener] is the descriptor when socket, fcntl, inet_pton, bind,
    listen and getsockname succeed, [thread_ok] whether the thread starts. *)
Definition start (listener : option Z) (thread_ok : bool) (s : HttpServer) : bool * HttpServer :=
  if hs_running s || hs_joinable s || negb (cf_bind_address (hs_config s)) then (false, s)
  else
    let s := with_body (hs_body s) 0 kNoClientSlot (with_outstanding (replicate (length (hs_outstanding s)) 0) s) in
    match listener with
    | None => (false, close_socket s)
    | Some fd => if thread_ok then (true, with_thread fd true true s) else (false, with_thread (-1) false false s)
    end.

(** [stop]; joining waits for the worker's last pass and its exit. *)
Definition stop (s : HttpServer) : HttpServer :=
  let s := if hs_joinable s then serve_exit (with_thread (hs_listener s) false true s) else s in
  with_thread (hs_listener s) false false s.
End http.

(** A server before [start]. *)
Definition http_new (keys : BearerKeyStore) (config : ServerConfig) (next_request_id : Z) (websocket : option Server) (b : ExecutionBridge) : HttpServer :=
  mkHttp b keys config (cf_first_order_id config) next_request_id websocket (replicate 8 0) (replicate 64 client_init)
    (replicate (Z.to_nat kMaxPositionsJsonBytes) 0) 0 kNoClientSlot (-1) false false [].
