(* ===== verification/HttpExchange.v ===== *)
(** * Exchanges: what a peer of the HTTP server sees

    The log of the server cut into connections, and the response that each is
    entitled to: a function of the bytes received, of the request the bridge
    took from it and of the response the bridge gave back. *)
From Stdlib Require Import ZArith Lia ZifyBool.
From S2P Require Import Prelude Numeric Bytes Text Config Ring Guards Reconcile Recovery AuditLog ExecTypes Risk Gateway.
From S2P Require Import WsFill WsFrame WsKey WsServer HttpWire HttpRequest HttpHeaders HttpJson HttpKeys HttpBridge HttpServer.

(** ** Connections *)

(** One connection of a slot. *)
Record Exchange := mkExchange {
  ex_fd : Z;
  ex_received : list Z;
  ex_asked : list Request;
  ex_answers : list Response;
  ex_sent : list Z;
  ex_closed : bool;
}.

(** What happens on a slot without an open connection. *)
Definition stray : Exchange := mkExchange (-1) [] [] [] [] true.

Definition on_open (f : Exchange -> Exchange) (k : list Exchange) : list Exchange :=
  match k with
  | x :: k' => if ex_closed x then stray :: k else f x :: k'
  | [] => [stray]
  end.

Definition event_step (i : Z) (e : Event) (k : list Exchange) : list Exchange :=
  match e with
  | EvAccepted j fd => if j =? i then mkExchange fd [] [] [] [] false :: k else k
  | EvReceived j bytes =>
      if j =? i then on_open (fun x => mkExchange (ex_fd x) (ex_received x ++ bytes) (ex_asked x) (ex_answers x) (ex_sent x) false) k else k
  | EvAsked j request =>
      if j =? i then on_open (fun x => mkExchange (ex_fd x) (ex_received x) (request :: ex_asked x) (ex_answers x) (ex_sent x) false) k else k
  | EvAnswered j response =>
      if j =? i then on_open (fun x => mkExchange (ex_fd x) (ex_received x) (ex_asked x) (response :: ex_answers x) (ex_sent x) false) k else k
  | EvSent j bytes =>
      if j =? i then on_open (fun x => mkExchange (ex_fd x) (ex_received x) (ex_asked x) (ex_answers x) (ex_sent x ++ bytes) false) k else k
  | EvClosed j fd =>
      if j =? i then on_open (fun x => mkExchange (if ex_fd x =? fd then fd else -1) (ex_received x) (ex_asked x) (ex_answers x) (ex_sent x) true) k else k
  | EvRefused _ _ | EvDropped _ => k
  end.

(** The connections of slot [i], the latest first. *)
Definition story (i : Z) (log : list Event) : list Exchange := foldr (event_step i) [] log.

(** The requests that the bridge took, in order. *)
Definition asked (log : list Event) : list Request := reverse (omap (fun e => match e with EvAsked _ r => Some r | _ => None end) log).

(** ** Entitlement *)

(** The head carries a bearer token of the store. *)
Definition bearer (keys : BearerKeyStore) (h : Head) : Prop :=
  exists scheme blanks token, field_value kAuthorizationHeader h = Some (scheme ++ blanks ++ token) /\
    wire.equal scheme kBearer = true /\ blanks <> [] /\ Forall (fun c => wire.blank c = true) blanks /\
    hd 0 token <> 32 /\ hd 0 token <> 9 /\ keystore.validate (Some token) keys = true.

Definition path_id (prefix path : list Z) (id : Z) : Prop := path_number path prefix = Some id.

(** The request that head and body ask for; the body of an order is read up to
    a NUL. *)
Inductive asks (h : Head) (body : list Z) : Request -> Prop :=
  | asks_submit now o id : hd_method h = kPost -> hd_path h = path_orders ->
      (exists text, cstr (body ++ [0]) = Some text /\ submit_order text now = Some o) -> 0 < id <= UINT32_MAX ->
      asks h body (mkRequest kSubmit 0 0 (mkIntent (oi_symbol_idx o) (oi_side o) (oi_qty o) (oi_price o) (oi_alpha_timestamp_ns o) (oi_now_ns o) id (oi_time_in_force o)))
  | asks_positions id : hd_method h = kGet -> hd_path h = path_positions -> 0 < id <= UINT64_MAX ->
      asks h body (mkRequest kPositions id 0 (rq_order request_init))
  | asks_query id order_id : hd_method h = kGet -> path_id path_order (hd_path h) order_id -> 0 < id <= UINT64_MAX ->
      asks h body (mkRequest kQuery id order_id (rq_order request_init))
  | asks_cancel id order_id : hd_method h = kDelete -> path_id path_order (hd_path h) order_id -> 0 < id <= UINT64_MAX ->
      asks h body (mkRequest kCancel id order_id (rq_order request_init)).

(** The bytes are one authorized request for [req]. *)
Definition requested (keys : BearerKeyStore) (received : list Z) (req : Request) : Prop :=
  exists h rest, begins received h rest /\ fits 2047 h /\ body_size h <= Z.of_nat (length rest) /\ bearer keys h /\
    asks h (take (Z.to_nat (body_size h)) rest) req.

(** ** Responses *)
Definition reply_text (status : Z) (reason body : list Z) : list Z := response_header status reason (Z.of_nat (length body)) ++ body.

Definition positions_json (l : list PositionSnapshot) : list Z :=
  positions_prefix ++ concat (match position_json <$> l with [] => [] | p :: ps => p :: (cons 44 <$> ps) end) ++ [93; 125].

Definition unauthorized_reply : list Z := reply_text 401 reason_401 error_unauthorized.

(** Without a request in the bridge. *)
Definition refusals : list (list Z) :=
  [unauthorized_reply; reply_text 400 reason_400 error_framing; reply_text 413 reason_413 error_framing;
   reply_text 400 reason_400 error_upgrade; reply_text 400 reason_400 error_key; reply_text 503 reason_503 error_pool;
   reply_text 400 reason_400 error_order; reply_text 503 reason_503 error_order_ids; reply_text 503 reason_503 error_queue_full;
   reply_text 404 reason_404 error_not_found; reply_text 503 reason_503 error_request_ids; reply_text 503 reason_503 error_positions_busy;
   reply_text 503 reason_503 error_responses_full; reply_text 408 reason_408 error_request_timeout].

(** To a request in the bridge before it is answered. *)
Definition unanswered_reply (req : Request) : list Z :=
  if bool_decide (rq_command req = kSubmit) then reply_text 202 reason_202 (accepted_json (oi_client_order_id (rq_order req)))
  else reply_text 504 reason_504 error_timeout.

Definition answer_reply (req : Request) (resp : Response) : list Z :=
  if bool_decide (rq_command req = kPositions) then reply_text 200 reason_200 (positions_json (rp_positions resp))
  else if bool_decide (os_status (rp_order resp) = kNotFound) then reply_text 404 reason_404 (order_json (rp_order resp))
  else reply_text 200 reason_200 (order_json (rp_order resp)).

(** [text] is the response for these bytes, this request and this answer. *)
Definition entitled (keys : BearerKeyStore) (x : Exchange) (text : list Z) : Prop :=
  match ex_asked x, ex_answers x with
  | [], [] => text ∈ refusals /\ (text = unauthorized_reply -> forall h rest, begins (ex_received x) h rest -> ~ bearer keys h)
  | [req], [] => requested keys (ex_received x) req /\ text = unanswered_reply req
  | [req], [resp] => requested keys (ex_received x) req /\ rq_command req <> kSubmit /\ rp_request_id resp = rq_request_id req /\ text = answer_reply req resp
  | _, _ => False
  end.

Record exchange_good (keys : BearerKeyStore) (x : Exchange) : Prop := {
  eg_fd : 0 <= ex_fd x;
  eg_text : exists text, entitled keys x text /\ ex_sent x `prefix_of` text;
}.

(** ** The log *)

(** An event of slot [i]. *)
Definition event_of (i : Z) (e : Event) : Prop :=
  match e with
  | EvAccepted j _ | EvReceived j _ | EvAsked j _ | EvAnswered j _ | EvSent j _ | EvClosed j _ => j = i
  | EvRefused _ _ | EvDropped _ => True
  end.

Lemma story_app i l l' : story i (l ++ l') = foldr (event_step i) (story i l') l.
Proof. unfold story. by rewrite foldr_app. Qed.

Lemma story_other i j new log : Forall (event_of i) new -> j <> i -> story j (new ++ log) = story j log.
Proof.
  intros Hn Hne. rewrite story_app. induction Hn as [|e new He Hn IH]; [done|]. cbn [foldr]. rewrite IH.
  destruct e; cbn [event_of event_step] in *; subst; try (destruct (Z.eqb_spec i j); [by subst|]); done.
Qed.

Lemma asked_app l l' : asked (l ++ l') = asked l' ++ asked l.
Proof. unfold asked. by rewrite omap_app, reverse_app. Qed.
