(* ===== verification/HttpConn.v ===== *)
(** * One client of the HTTP server: the invariant and the sending side

    [slot_ok] relates a slot of the table to its connections in the log.
    [touches] says what an operation on one client leaves alone.  Closing,
    flushing and queueing a response keep the invariant of the slot. *)
From Stdlib Require Import ZArith Lia ZifyBool.
From S2P Require Import Prelude Numeric Bytes Text Config Ring Guards Reconcile Recovery AuditLog ExecTypes Risk Gateway.
From S2P Require Import WsFill WsFrame WsKey WsServer WsConn HttpWire HttpRequest HttpHeaders HttpJson HttpKeys HttpBridge HttpServer HttpExchange.

(** ** The invariant of a slot *)

Record sized (c : ClientSlot) : Prop := {
  sz_incoming : length (cl_incoming c) = 4096%nat;
  sz_outgoing : length (cl_outgoing c) = 1024%nat;
  sz_bytes : bytes_ok (cl_incoming c);
}.

(** The bytes of the body that belongs to a client's response. *)
Definition view (s : HttpServer) (c : ClientSlot) : list Z := if cl_owns_positions_body c then take (Z.to_nat (hs_body_size s)) (hs_body s) else [].

(** The buffer holds what was received, a NUL behind it. *)
Record received_ok (c : ClientSlot) (x : Exchange) : Prop := {
  rv_size : cl_incoming_size c = Z.of_nat (length (ex_received x));
  rv_buffer : exists junk, cl_incoming c = ex_received x ++ 0 :: junk;
  rv_head : if cl_header_complete c
    then exists h rest, begins (ex_received x) h rest /\ fits 2047 h /\ cl_header_size c = head_size h /\ cl_required_size c = head_size h + body_size h
    else cl_incoming_size c < 2047;
}.

Record reading_ok (c : ClientSlot) (x : Exchange) : Prop := {
  ro_flags : cl_waiting_response c = false /\ cl_sending_response c = false /\ cl_owns_positions_body c = false;
  ro_exchange : ex_asked x = [] /\ ex_answers x = [] /\ ex_sent x = [];
  ro_received : received_ok c x;
}.

Record waiting_ok (keys : BearerKeyStore) (c : ClientSlot) (x : Exchange) : Prop := {
  wo_flags : cl_waiting_response c = true /\ cl_sending_response c = false;
  wo_exchange : exists req, ex_asked x = [req] /\ ex_answers x = [] /\ ex_sent x = [] /\ requested keys (ex_received x) req /\
    rq_command req <> kSubmit /\ cl_request_id c = rq_request_id req /\ cl_command c = rq_command req;
  wo_owns : cl_owns_positions_body c = true <-> cl_command c = kPositions;
}.

Record sending_ok (keys : BearerKeyStore) (body : list Z) (c : ClientSlot) (x : Exchange) : Prop := {
  so_flags : cl_waiting_response c = false /\ cl_sending_response c = true;
  so_sizes : 0 <= cl_outgoing_offset c <= cl_outgoing_size c /\ cl_outgoing_size c <= 1024 /\ 0 <= cl_positions_body_offset c <= Z.of_nat (length body);
  so_order : cl_outgoing_offset c < cl_outgoing_size c -> cl_positions_body_offset c = 0;
  so_text : entitled keys x (take (Z.to_nat (cl_outgoing_size c)) (cl_outgoing c) ++ body);
  so_sent : ex_sent x = take (Z.to_nat (cl_outgoing_offset c)) (cl_outgoing c) ++ take (Z.to_nat (cl_positions_body_offset c)) body;
}.

Definition live_ok (keys : BearerKeyStore) (body : list Z) (c : ClientSlot) (x : Exchange) : Prop :=
  reading_ok c x \/ waiting_ok keys c x \/ sending_ok keys body c x.

Definition past (keys : BearerKeyStore) (x : Exchange) : Prop := exchange_good keys x /\ ex_closed x = true.

(** What the table and the shared body buffer always are. *)
Record table_ok (s : HttpServer) : Prop := {
  tb_clients : length (hs_clients s) = 64%nat;
  tb_body : Z.of_nat (length (hs_body s)) = 65536;
  tb_body_size : 0 <= hs_body_size s <= 65536;
}.

Definition in_table (i : Z) : Prop := 0 <= i < 64.

(** Client [i] is open on exchange [x]. *)
Record opened (s : HttpServer) (i : Z) (x : Exchange) (k : list Exchange) : Prop := {
  op_range : in_table i;
  op_table : table_ok s;
  op_sized : sized (client s i);
  op_owner : cl_owns_positions_body (client s i) = true <-> hs_body_owner s = i;
  op_fd : 0 <= cl_fd (client s i);
  op_same : ex_fd x = cl_fd (client s i);
  op_open : ex_closed x = false;
  op_story : story i (hs_log s) = x :: k;
  op_past : Forall (past (hs_keys s)) k;
}.

(** Slot [i] is free. *)
Record free (s : HttpServer) (i : Z) : Prop := {
  fr_range : in_table i;
  fr_table : table_ok s;
  fr_sized : sized (client s i);
  fr_owner : hs_body_owner s <> i;
  fr_fd : cl_fd (client s i) < 0;
  fr_flags : cl_waiting_response (client s i) = false /\ cl_sending_response (client s i) = false /\ cl_owns_positions_body (client s i) = false;
  fr_past : Forall (past (hs_keys s)) (story i (hs_log s));
}.

Definition slot_ok (s : HttpServer) (i : Z) : Prop :=
  free s i \/ exists x k, opened s i x k /\ live_ok (hs_keys s) (view s (client s i)) (client s i) x.

(** ** What an operation on client [i] leaves alone *)
Definition outer (s : HttpServer) :=
  (hs_bridge s, hs_keys s, hs_config s, hs_next_order_id s, hs_next_request_id s, hs_websocket s, hs_outstanding s, hs_listener s, hs_running s, hs_joinable s).

(** Bytes sent and closings. *)
Definition output_of (i : Z) (e : Event) : Prop := match e with EvSent j _ | EvClosed j _ | EvReceived j _ => j = i | _ => False end.

Record touches (i : Z) (s s' : HttpServer) : Prop := {
  lc_outer : outer s' = outer s;
  lc_length : length (hs_clients s') = length (hs_clients s);
  lc_clients : forall j, j <> i -> client s' j = client s j;
  lc_log : exists new, hs_log s' = new ++ hs_log s /\ Forall (output_of i) new;
  lc_body : length (hs_body s') = length (hs_body s) /\ (hs_body_owner s <> i -> hs_body s' = hs_body s /\ hs_body_size s' = hs_body_size s /\ hs_body_owner s' = hs_body_owner s);
  lc_owner : hs_body_owner s = i -> hs_body_owner s' = i \/ hs_body_owner s' = kNoClientSlot;
}.

Lemma output_event i e : output_of i e -> event_of i e.
Proof. by destruct e. Qed.

Lemma touches_refl i s : touches i s s.
Proof. split; [done..| |done|by left]. by exists []. Qed.

Lemma touches_trans i s1 s2 s3 : i <> kNoClientSlot -> touches i s1 s2 -> touches i s2 s3 -> touches i s1 s3.
Proof.
  intros Hi [A1 A2 A3 (n1 & A4 & A5) [A6 A7] A8] [B1 B2 B3 (n2 & B4 & B5) [B6 B7] B8]. split; [congruence|congruence| | | |].
  - intros j Hj. rewrite B3 by done. by apply A3.
  - exists (n2 ++ n1). split; [by rewrite B4, A4, app_assoc|by apply Forall_app].
  - split; [congruence|]. intros Ho. destruct (A7 Ho) as (E1 & E2 & E3). destruct B7 as (E4 & E5 & E6); [congruence|]. by rewrite E4, E5, E6.
  - intros Ho. destruct (A8 Ho) as [Ho'|Ho']; [by apply B8|]. right. destruct B7 as (_ & _ & E); [congruence|]. congruence.
Qed.

(** ** Clients of an updated table *)
Lemma client_upd i f s : 0 <= i < Z.of_nat (length (hs_clients s)) -> client (upd_client i f s) i = f (client s i).
Proof. intros Hi. unfold client, upd_client. cbn. by apply lget_lset_eq. Qed.

Lemma client_upd_ne i j f s : j <> i -> client (upd_client i f s) j = client s j.
Proof. intros Hj. unfold client, upd_client. cbn. apply lget_lset_ne. done. Qed.

Lemma touches_upd i f s : touches i s (upd_client i f s).
Proof.
  split; cbn; [done|by rewrite length_lset|intros j Hj; by apply client_upd_ne|by exists []|done|by left].
Qed.

Lemma touches_logged i e s : output_of i e -> touches i s (logged e s).
Proof. intros He. split; cbn; [done..| |done|by left]. exists [e]. split; [done|by constructor]. Qed.

Lemma in_table_kNo i : in_table i -> i <> kNoClientSlot.
Proof. unfold in_table, kNoClientSlot. lia. Qed.

Lemma touches_table i s s' : touches i s s' -> table_ok s -> 0 <= hs_body_size s' <= 65536 -> table_ok s'.
Proof. intros [_ Hl _ _ [Hb _] _] [Hc Ht _] Hs. split; [congruence|congruence|done]. Qed.

(** The other slots. *)
Lemma touches_slot i j s s' : touches i s s' -> table_ok s' -> i <> j -> slot_ok s j -> slot_ok s' j.
Proof.
  intros [Ho Hl Hc (new & Hnew & Hout) [Hb Hb'] Hown] Ht Hij Hs. injection Ho as _ Hk _ _ _ _ _ _ _ _.
  assert (Hst : story j (hs_log s') = story j (hs_log s)).
  { rewrite Hnew. apply (story_other i); [|done]. eapply Forall_impl; [exact Hout|]. apply output_event. }
  assert (Hcj : client s' j = client s j) by by apply Hc.
  assert (Howner : in_table j -> hs_body_owner s' = j <-> hs_body_owner s = j).
  { intros Hj. destruct (decide (hs_body_owner s = i)) as [E|E]; [|by destruct (Hb' E) as (_ & _ & ->)].
    pose proof (in_table_kNo j Hj). destruct (Hown E); split; congruence. }
  destruct Hs as [[H1 H2 H3 H4 H5 H6 H7]|(x & k & [H1 H2 H3 H4 H5 H6 H7 H8 H9] & Hlive)].
  - left. split; rewrite ?Hcj, ?Hst, ?Hk; try done. by rewrite Howner.
  - right. exists x, k. split; [split; rewrite ?Hcj, ?Hst, ?Hk; try done; by rewrite Howner|].
    assert (Hv : view s' (client s' j) = view s (client s j)).
    { rewrite Hcj. unfold view. destruct (cl_owns_positions_body (client s j)); [|done]. destruct Hb' as (-> & -> & _); [|done]. rewrite (proj1 H4 eq_refl). congruence. }
    by rewrite Hv, Hk, Hcj.
Qed.

(** ** Closing *)
Lemma lset_bytes i c l : bytes_ok l -> in_u 8 c -> bytes_ok (lset i c l).
Proof. intros Hl Hc. unfold lset. case_if; [by apply Forall_insert|done]. Qed.

Lemma sized_reset fd deadline c : sized c -> sized (reset_client fd deadline c).
Proof. intros [H1 H2 H3]. split; cbn [reset_client cl_incoming cl_outgoing]; rewrite ?length_lset; [done|done|]. apply lset_bytes; [done|by vm_compute]. Qed.

Lemma release_spec s i : in_table i -> table_ok s -> (cl_owns_positions_body (client s i) = true <-> hs_body_owner s = i) ->
  let s' := http.release_positions_body i s in
  touches i s s' /\ table_ok s' /\ hs_log s' = hs_log s /\ hs_body_owner s' <> i /\
  exists offset, client s' i = set_owns false offset (client s i).
Proof.
  intros Hi Ht Ho s'. unfold s', http.release_positions_body. destruct (cl_owns_positions_body (client s i)) eqn:E; cbn [negb].
  - rewrite (proj1 Ho eq_refl), Z.eqb_refl. set (s1 := with_body (hs_body s) 0 kNoClientSlot s).
    pose proof (in_table_kNo i Hi) as Hno. assert (T1 : touches i s s1).
    { split; cbn; [done..|by exists []| |by right]. split; [done|]. intros Hc. by destruct Hc, Ho as [-> _]. }
    pose proof (touches_upd i (set_owns false 0) s1) as T2. assert (T : touches i s (upd_client i (set_owns false 0) s1)) by by eapply touches_trans.
    split; [done|]. split; [apply (touches_table _ _ _ T Ht); cbn; lia|]. split; [done|]. split; [done|]. exists 0. rewrite client_upd; [done|].
    change (hs_clients s1) with (hs_clients s). destruct Ht as [-> _ _]. unfold in_table in Hi. lia.
  - split; [apply touches_refl|]. split; [done|]. split; [done|]. split; [by intros ?%Ho|]. exists (cl_positions_body_offset (client s i)).
    destruct (client s i); cbn in *. by subst.
Qed.

Lemma table_upd i f s : table_ok s -> table_ok (upd_client i f s).
Proof. intros [H1 H2 H3]. split; cbn; rewrite ?length_lset; done. Qed.

Lemma client_upd_table i f s : in_table i -> table_ok s -> client (upd_client i f s) i = f (client s i).
Proof. intros Hi [H _ _]. apply client_upd. unfold in_table in Hi. lia. Qed.

(** [close_client] on any slot. *)
Lemma close_spec s i : in_table i -> table_ok s -> sized (client s i) -> (cl_owns_positions_body (client s i) = true <-> hs_body_owner s = i) ->
  let s' := http.close_client i s in
  touches i s s' /\ table_ok s' /\ sized (client s' i) /\ hs_body_owner s' <> i /\ cl_fd (client s' i) = -1 /\
  (cl_waiting_response (client s' i) = false /\ cl_sending_response (client s' i) = false /\ cl_owns_positions_body (client s' i) = false) /\
  hs_log s' = if 0 <=? cl_fd (client s i) then EvClosed i (cl_fd (client s i)) :: hs_log s else hs_log s.
Proof.
  intros Hi Ht Hs Ho s'. unfold s', http.close_client. destruct (release_spec s i Hi Ht Ho) as (T1 & Ht1 & Hl1 & Ho1 & offset & Hc1).
  set (s1 := http.release_positions_body i s) in *. set (s2 := upd_client i (reset_client (-1) 0) s1).
  assert (Hc2 : client s2 i = reset_client (-1) 0 (client s1 i)) by by apply client_upd_table.
  assert (T2 : touches i s s2) by (eapply touches_trans; [by apply in_table_kNo|done|apply touches_upd]).
  assert (Hs2 : sized (client s2 i)) by (rewrite Hc2, Hc1; apply sized_reset; by destruct Hs).
  assert (Ht2 : table_ok s2) by by apply table_upd.
  destruct (0 <=? cl_fd (client s i)); cbn [hs_log logged upd_client with_clients hs_body_owner].
  - split; [by eapply touches_trans; [by apply in_table_kNo|exact T2|apply touches_logged]|]. split; [by destruct Ht2|].
    change (client (logged _ s2) i) with (client s2 i). split; [done|]. split; [done|]. rewrite Hc2. split; [done|]. split; [done|]. by rewrite <- Hl1.
  - split; [done|]. split; [done|]. split; [done|]. split; [done|]. rewrite Hc2. done.
Qed.

Lemma outer_keys s s' : outer s' = outer s -> hs_keys s' = hs_keys s.
Proof. by intros [=]. Qed.

Lemma close_opened s i x k : opened s i x k -> exchange_good (hs_keys s) x -> touches i s (http.close_client i s) /\ free (http.close_client i s) i.
Proof.
  intros [H1 H2 H3 H4 H5 H6 H7 H8 H9] Hx. destruct (close_spec s i H1 H2 H3 H4) as (T & Ht & Hs & Ho & Hfd & Hfl & Hl). split; [done|].
  pose proof (outer_keys _ _ (lc_outer _ _ _ T)) as Hk. split; try done; [lia|]. rewrite Hk, Hl. destruct (Z.leb_spec 0 (cl_fd (client s i))); [|lia].
  cbn [story foldr event_step]. rewrite Z.eqb_refl. fold (story i (hs_log s)). rewrite H8. cbn [on_open]. rewrite H7, H6, Z.eqb_refl.
  constructor; [|done]. destruct Hx as [Hx1 Hx2]. split; [|done]. split; cbn; [lia|]. exact Hx2.
Qed.

Lemma close_free s i : free s i -> touches i s (http.close_client i s) /\ free (http.close_client i s) i.
Proof.
  intros [H1 H2 H3 H4 H5 (F1 & F2 & F3) H7]. destruct (close_spec s i H1 H2 H3) as (T & Ht & Hs & Ho & Hfd & Hfl & Hl).
  { split; [by rewrite F3|done]. }
  split; [done|]. pose proof (outer_keys _ _ (lc_outer _ _ _ T)) as Hk. split; try done; [lia|]. rewrite Hk, Hl. by destruct (Z.leb_spec 0 (cl_fd (client s i))); [lia|].
Qed.

(** ** What an open exchange is owed *)
Lemma refusal_good keys x text : text ∈ refusals -> text <> unauthorized_reply -> ex_asked x = [] -> ex_answers x = [] -> entitled keys x text.
Proof. intros Ht Hne Ha Hb. unfold entitled. rewrite Ha, Hb. done. Qed.

Lemma take_prefix_take {A} (l : list A) n m : (n <= m)%nat -> take n l `prefix_of` take m l.
Proof. intros Hn. exists (take (m - n) (drop n l)). rewrite take_take_drop. f_equal. lia. Qed.

Lemma live_good keys body c x : 0 <= ex_fd x -> live_ok keys body c x -> exchange_good keys x.
Proof.
  intros Hfd [[_ (Ha & Hb & Hs) _]|[[_ (req & Ha & Hb & Hs & Hreq & _) _]|[_ (Ho & _ & Hbo) Hord Ht Hs]]]; (split; [done|]).
  - exists (reply_text 408 reason_408 error_request_timeout). split; [|rewrite Hs; by apply prefix_nil].
    apply refusal_good; [|by vm_compute|done|done]. by apply (bool_decide_unpack _); vm_compute.
  - exists (unanswered_reply req). split; [|rewrite Hs; by apply prefix_nil]. unfold entitled. by rewrite Ha, Hb.
  - eexists. split; [exact Ht|]. rewrite Hs. destruct (decide (cl_outgoing_offset c < cl_outgoing_size c)) as [Hlt|Hge].
    + rewrite Hord by done. change (take (Z.to_nat 0) body) with (@nil Z). rewrite app_nil_r. etrans; [apply (take_prefix_take _ _ (Z.to_nat (cl_outgoing_size c))); lia|].
      by apply prefix_app_r.
    + replace (cl_outgoing_offset c) with (cl_outgoing_size c) by lia. apply prefix_app. eexists. symmetry. apply take_drop.
Qed.

(** ** Open clients under updates *)
Lemma opened_upd s i x k f : opened s i x k -> sized (f (client s i)) -> cl_fd (f (client s i)) = cl_fd (client s i) ->
  cl_owns_positions_body (f (client s i)) = cl_owns_positions_body (client s i) -> opened (upd_client i f s) i x k.
Proof.
  intros [H1 H2 H3 H4 H5 H6 H7 H8 H9] Hs Hf Ho. split; rewrite ?client_upd_table, ?Hf, ?Ho by done; try done. by apply table_upd.
Qed.

Lemma opened_logged s i x k e x' : opened s i x k -> event_step i e (x :: k) = x' :: k -> ex_fd x' = ex_fd x -> ex_closed x' = false ->
  opened (logged e s) i x' k.
Proof.
  intros [H1 H2 H3 H4 H5 H6 H7 H8 H9] He Hf Hc. split; cbn [logged hs_log hs_keys]; try done.
  - by destruct H2.
  - by rewrite Hf.
  - unfold story in *. cbn [foldr]. by rewrite H8.
Qed.

Definition sent_more (bytes : list Z) (x : Exchange) : Exchange :=
  mkExchange (ex_fd x) (ex_received x) (ex_asked x) (ex_answers x) (ex_sent x ++ bytes) false.

Lemma event_sent i bytes x k : ex_closed x = false -> event_step i (EvSent i bytes) (x :: k) = sent_more bytes x :: k.
Proof. intros Hc. cbn. by rewrite Z.eqb_refl, Hc. Qed.

Lemma opened_sent s i x k bytes : opened s i x k -> opened (logged (EvSent i bytes) s) i (sent_more bytes x) k.
Proof. intros Ho. eapply opened_logged; [done|apply event_sent, Ho|done|done]. Qed.

Lemma sized_offsets o b c : sized c -> sized (set_offsets o b c).
Proof. by intros [? ? ?]. Qed.

(** ** Flushing *)
Lemma take_length_take {A} n (l : list A) : take (length (take n l)) l = take n l.
Proof. rewrite length_take. destruct (Nat.min_spec n (length l)) as [[_ ->]|[H ->]]; [done|]. by rewrite !take_ge by lia. Qed.

(** Free or sending: where an operation leaves the client it replies to. *)
Definition settled (s : HttpServer) (i : Z) : Prop :=
  free s i \/ exists x k, opened s i x k /\ sending_ok (hs_keys s) (view s (client s i)) (client s i) x.

Lemma settled_slot s i : settled s i -> slot_ok s i.
Proof. intros [Hf|(x & k & Ho & Hs)]; [by left|]. right. exists x, k. split; [done|by right; right]. Qed.

Lemma settled_not_waiting s i : settled s i -> cl_waiting_response (client s i) = false.
Proof. intros [[_ _ _ _ _ [H _] _]|(x & k & _ & [[H _] _ _ _ _])]; done. Qed.

(** One write of [bytes] from [offset]: [advance] stores the new offset. *)
Lemma write_ok s i x k (bytes : list Z) offset total chunk (advance : Z -> ClientSlot -> ClientSlot) :
  opened s i x k -> 0 <= offset -> offset <= total -> total <= Z.of_nat (length bytes) -> exchange_good (hs_keys s) x ->
  (forall o c, cl_fd (advance o c) = cl_fd c /\ cl_owns_positions_body (advance o c) = cl_owns_positions_body c /\ (sized c -> sized (advance o c))) ->
  (forall m, (m <= Z.to_nat (total - offset))%nat ->
     sending_ok (hs_keys s) (view s (client s i)) (advance (offset + Z.of_nat m) (client s i)) (sent_more (take m (drop (Z.to_nat offset) bytes)) x)) ->
  (sending_ok (hs_keys s) (view s (client s i)) (client s i) x) ->
  forall outcomes, exists s', (
    let remaining := total - offset in
    let send_size := if remaining <? chunk then remaining else chunk in
    piece ← slice bytes offset send_size;
    match http.send_once outcomes with
    | SendBytes n =>
        if 0 <? n then
          let taken := take (Z.to_nat (Z.min n send_size)) piece in
          Some (logged (EvSent i taken) (upd_client i (advance (offset + Z.of_nat (length taken))) s))
        else Some (http.close_client i s)
    | SendAgain | SendIntr => Some s
    | SendError => Some (http.close_client i s)
    end) = Some s' /\ touches i s s' /\ settled s' i.
Proof.
  intros Ho H0 Hot Htl Hg Hadv Hsend Hnow outcomes. cbv zeta. set (size := if _ <? chunk then _ else _).
  assert (Hsz : size <= total - offset) by (unfold size; case_if; lia). unfold slice.
  destruct (Z.leb_spec 0 offset); [|lia]. destruct (Z.leb_spec (offset + size) (Z.of_nat (length bytes))); [|lia]. cbn [andb mbind option_bind].
  assert (Hclose : touches i s (http.close_client i s) /\ settled (http.close_client i s) i).
  { destruct (close_opened s i x k Ho Hg) as [T F]. split; [done|by left]. }
  assert (Hstay : touches i s s /\ settled s i).
  { split; [apply touches_refl|]. right. exists x, k. split; [done|done]. }
  destruct (http.send_once outcomes) as [n| | |]; [|by eexists..]. destruct (0 <? n); [|by eexists].
  rewrite take_take. set (taken := take _ (drop _ bytes)). eexists. split; [done|].
  set (m := length taken). assert (Hm : (m <= Z.to_nat (total - offset))%nat) by (unfold m, taken; rewrite length_take; lia).
  assert (Ht : taken = take m (drop (Z.to_nat offset) bytes)) by (unfold m, taken; by rewrite take_length_take).
  destruct (Hadv (offset + Z.of_nat m) (client s i)) as (A1 & A2 & A3). pose proof (op_table _ _ _ _ Ho) as Htb. pose proof (op_range _ _ _ _ Ho) as Hi.
  split; [by eapply touches_trans; [by apply in_table_kNo|apply touches_upd|apply touches_logged]|].
  right. exists (sent_more taken x), k. split.
  - apply opened_sent, opened_upd; [done|apply A3; by destruct Ho|done|done].
  - change (client (logged _ ?t) i) with (client t i). rewrite client_upd_table by done.
    assert (Hv : view (logged (EvSent i taken) (upd_client i (advance (offset + Z.of_nat m)) s)) (advance (offset + Z.of_nat m) (client s i)) = view s (client s i)).
    { unfold view. by rewrite A2. }
    rewrite Hv. specialize (Hsend m Hm). by rewrite <- Ht in Hsend.
Qed.

Lemma flush_ok s i x k outcomes : opened s i x k -> sending_ok (hs_keys s) (view s (client s i)) (client s i) x ->
  exists s', http.flush_client i outcomes s = Some s' /\ touches i s s' /\ settled s' i.
Proof.
  intros Ho Hs. assert (Hg : exchange_good (hs_keys s) x).
  { eapply live_good; [pose proof (op_fd _ _ _ _ Ho); rewrite (op_same _ _ _ _ Ho); lia|by right; right]. }
  pose proof Hs as [[Hw Hsend] (Hoff & Hsz & Hbo) Hord Htext Hsent]. pose proof (op_sized _ _ _ _ Ho) as [_ Hl _].
  unfold http.flush_client. rewrite Hsend. destruct (Z.ltb_spec (cl_fd (client s i)) 0) as [?|_]; [pose proof (op_fd _ _ _ _ Ho); lia|]. cbn [orb negb].
  destruct (Z.ltb_spec (cl_outgoing_offset (client s i)) (cl_outgoing_size (client s i))) as [Hlt|Hge].
  - eapply (write_ok s i x k (cl_outgoing (client s i)) (cl_outgoing_offset (client s i)) (cl_outgoing_size (client s i)) _
      (fun o c => set_offsets o (cl_positions_body_offset c) c)); try done; [lia..| |].
    + intros o c. split; [done|]. split; [done|]. apply sized_offsets.
    + intros m Hm. set (c := client s i) in *. split; cbn [set_offsets cl_waiting_response cl_sending_response cl_outgoing_offset cl_outgoing_size cl_positions_body_offset cl_outgoing]; [done|lia| |exact Htext|].
      * intros _. by apply Hord.
      * cbn [sent_more ex_sent]. rewrite Hsent, Hord by done. change (take (Z.to_nat 0) (view s c)) with (@nil Z). rewrite !app_nil_r, take_take_drop. f_equal. lia.
  - destruct (cl_owns_positions_body (client s i)) eqn:Eo; cbn [andb].
    2:{ destruct (close_opened s i x k Ho Hg) as [T F]. eexists. split; [done|]. split; [done|by left]. }
    destruct (op_table _ _ _ _ Ho) as [_ Hbl Hbs].
    destruct (Z.ltb_spec (cl_positions_body_offset (client s i)) (hs_body_size s)) as [Hlt'|_].
    2:{ destruct (close_opened s i x k Ho Hg) as [T F]. eexists. split; [done|]. split; [done|by left]. }
    assert (Hv : view s (client s i) = take (Z.to_nat (hs_body_size s)) (hs_body s)) by (unfold view; by rewrite Eo).
    assert (Hvl : Z.of_nat (length (view s (client s i))) = hs_body_size s) by (rewrite Hv, length_take; lia).
    eapply (write_ok s i x k (hs_body s) (cl_positions_body_offset (client s i)) (hs_body_size s) _
      (fun o c => set_offsets (cl_outgoing_offset c) o c)); try done; [lia..| |].
    + intros o c. split; [done|]. split; [done|]. apply sized_offsets.
    + intros m Hm. set (c := client s i) in *. split; cbn [set_offsets cl_waiting_response cl_sending_response cl_outgoing_offset cl_outgoing_size cl_positions_body_offset cl_outgoing]; [done|lia|lia|exact Htext|].
      cbn [sent_more ex_sent]. rewrite Hsent, <- app_assoc. f_equal. rewrite Hv.
      rewrite !take_take, !Nat.min_l by lia. rewrite take_take_drop. f_equal. lia.
Qed.

(** ** Queueing a response *)
Lemma opened_release s i x k : opened s i x k -> touches i s (http.release_positions_body i s) /\ opened (http.release_positions_body i s) i x k /\
  view (http.release_positions_body i s) (client (http.release_positions_body i s) i) = [].
Proof.
  intros [H1 H2 H3 H4 H5 H6 H7 H8 H9]. destruct (release_spec s i H1 H2 H4) as (T & Ht & Hl & Ho & offset & Hc). split; [done|].
  rewrite Hc. split; [|done]. split; rewrite ?Hc, ?Hl, ?(outer_keys _ _ (lc_outer _ _ _ T)); cbn [set_owns cl_owns_positions_body cl_fd]; try done.
  by destruct H3.
Qed.

Lemma memcpy_head (dst bs : list Z) : (length bs <= length dst)%nat -> memcpy dst 0 bs = Some (bs ++ drop (length bs) dst).
Proof. intros H. by rewrite memcpy_at by lia. Qed.

(** The header with its NUL, then a body over the NUL. *)
Lemma memcpy_reply (dst header body : list Z) : (length header < length dst)%nat -> (length header + length body <= length dst)%nat ->
  (buf ← memcpy dst 0 (header ++ [0]); memcpy buf (Z.of_nat (length header)) body) = Some (header ++ body ++ drop (length header + length body) (header ++ 0 :: drop (S (length header)) dst)).
Proof.
  intros H1 H2. rewrite memcpy_head by (rewrite length_app; cbn; lia). rewrite length_app. cbn [length mbind option_bind]. rewrite Nat.add_1_r.
  rewrite <- app_assoc. cbn [app]. rewrite memcpy_at; [|lia|].
  - by rewrite Nat2Z.id, take_app_length.
  - rewrite length_app. cbn [length]. rewrite length_drop. lia.
Qed.

Lemma live_slot s i x k : opened s i x k -> live_ok (hs_keys s) (view s (client s i)) (client s i) x -> slot_ok s i.
Proof. intros Ho Hl. right. by exists x, k. Qed.

(** The state that [queue_inline_json] and [queue_positions_json] flush. *)
Lemma sending_opened s i x k size buf deadline : opened s i x k -> ex_sent x = [] -> length buf = 1024%nat -> 0 <= size <= 1024 ->
  entitled (hs_keys s) x (take (Z.to_nat size) buf ++ view s (client s i)) ->
  let s' := upd_client i (set_sending size buf deadline) s in
  touches i s s' /\ opened s' i x k /\ sending_ok (hs_keys s') (view s' (client s' i)) (client s' i) x.
Proof.
  intros Ho Hx Hb Hs He s'. split; [apply touches_upd|]. pose proof (op_sized _ _ _ _ Ho) as [S1 S2 S3].
  split; [by apply opened_upd|]. unfold s'. rewrite client_upd_table by (by destruct Ho).
  split; cbn [set_sending cl_waiting_response cl_sending_response cl_outgoing_offset cl_outgoing_size cl_positions_body_offset cl_outgoing]; [done|lia|done|exact He|].
  by rewrite Hx.
Qed.

Definition short (status : Z) (reason body : list Z) : Prop :=
  Z.of_nat (length (response_header status reason (Z.of_nat (length body)))) < 1024 /\ Z.of_nat (length (reply_text status reason body)) <= 1024.

Lemma queue_inline_ok s i x k status reason body env : opened s i x k -> ex_sent x = [] -> short status reason body ->
  entitled (hs_keys s) x (reply_text status reason body) ->
  exists s', http.queue_inline_json i status reason body env s = Some s' /\ touches i s s' /\ settled s' i.
Proof.
  intros Ho Hx [Hh Hr] He. unfold http.queue_inline_json. destruct (Z.ltb_spec (cl_fd (client s i)) 0) as [?|_]; [pose proof (op_fd _ _ _ _ Ho); lia|].
  destruct (opened_release s i x k Ho) as (T1 & Ho1 & Hv1). set (s1 := http.release_positions_body i s) in *.
  unfold reply_text in *. set (header := response_header status reason (Z.of_nat (length body))) in *. rewrite length_app in Hr.
  unfold kMaxInlineResponseBytes. destruct (Z.leb_spec 1024 (Z.of_nat (length header))); [lia|].
  destruct (Z.ltb_spec (1024 - Z.of_nat (length header)) (Z.of_nat (length body))); [lia|]. cbn [orb]. pose proof (op_sized _ _ _ _ Ho1) as [_ Hl _].
  assert (Hm := memcpy_reply (cl_outgoing (client s1 i)) header body ltac:(lia) ltac:(lia)).
  destruct (memcpy _ 0 (header ++ [0])) as [buf|]; [|done]. cbn [mbind option_bind] in *. rewrite Hm. cbn [mbind option_bind].
  set (buf' := header ++ body ++ _) in *. set (size := Z.of_nat (length header) + Z.of_nat (length body)).
  assert (Hk : hs_keys s1 = hs_keys s) by apply (outer_keys _ _ (lc_outer _ _ _ T1)).
  destruct (sending_opened s1 i x k size buf' (u64 (en_now_ns env + kResponseWriteTimeoutNs)) Ho1 Hx) as (T2 & Ho2 & Hs2).
  - unfold buf'. rewrite !length_app, length_drop, length_app. cbn [length]. rewrite length_drop. lia.
  - unfold size. lia.
  - rewrite Hv1, app_nil_r, Hk. unfold size, buf'. rewrite app_assoc, take_app_length' by (rewrite length_app; lia). exact He.
  - destruct (flush_ok _ i x k (en_sent env) Ho2 Hs2) as (s' & Hf & T3 & Hok). exists s'. split; [exact Hf|]. split; [|done].
    pose proof (in_table_kNo i (op_range _ _ _ _ Ho)). by do 2 (eapply touches_trans; [done|done|]).
Qed.

(** ** The texts fit *)
Lemma decimal_length v : (length (decimal v) <= 20)%nat.
Proof.
  unfold decimal. rewrite length_reverse. enough (H : forall n v, (length (reversed_digits n v) <= n)%nat) by apply (H 20%nat).
  induction n as [|n IH]; intros w; [cbn; lia|]. cbn [reversed_digits]. case_if; cbn [length]; [lia|]. specialize (IH (w / 10)). lia.
Qed.

Lemma decimal_signed_length v : (length (decimal_signed v) <= 21)%nat.
Proof. unfold decimal_signed. pose proof (decimal_length v). pose proof (decimal_length (- v)). case_if; cbn [length]; lia. Qed.

Lemma header_length status reason n : (length (response_header status reason n) <= length reason + 140)%nat.
Proof.
  unfold response_header. rewrite !length_app. pose proof (decimal_signed_length status). pose proof (decimal_length n).
  change (length status_line) with 9%nat. change (length content_type) with 50%nat. change (length connection_close) with 23%nat. cbn [length]. lia.
Qed.

Lemma short_body status reason body : (length reason <= 30)%nat -> (length body <= 256)%nat -> short status reason body.
Proof.
  intros Hr Hb. pose proof (header_length status reason (Z.of_nat (length body))). unfold short, reply_text. rewrite length_app. lia.
Qed.

Lemma name_length st : (length (name st) <= 9)%nat.
Proof. destruct st; vm_compute; lia. Qed.

Lemma order_json_length o : (length (order_json o) < 256)%nat.
Proof.
  unfold order_json. rewrite !length_app. pose proof (decimal_length (os_order_id o)). pose proof (decimal_length (os_symbol_idx o)).
  pose proof (decimal_signed_length (os_quantity o)). pose proof (decimal_signed_length (os_filled_quantity o)). pose proof (decimal_signed_length (os_price o)).
  pose proof (name_length (os_status o)).
  change (length field_order_id) with 11%nat. change (length field_status) with 9%nat. change (length field_symbol_idx) with 13%nat.
  change (length field_qty) with 6%nat. change (length field_filled_qty) with 13%nat. change (length field_price) with 8%nat. cbn [length]. lia.
Qed.

Lemma accepted_json_length id : (length (accepted_json id) < 96)%nat.
Proof.
  unfold accepted_json. rewrite !length_app. pose proof (decimal_length id).
  change (length field_order_id) with 11%nat. change (length field_status) with 9%nat. change (length text_accepted) with 10%nat. cbn [length]. lia.
Qed.

Lemma position_json_length p : (length (position_json p) <= 112)%nat.
Proof.
  unfold position_json. rewrite !length_app. pose proof (decimal_length (ps_symbol_idx p)).
  pose proof (decimal_signed_length (ps_net_position p)). pose proof (decimal_signed_length (ps_gross_exposure p)).
  change (length field_symbol_idx) with 13%nat. change (length field_net_position) with 15%nat. change (length field_gross_exposure) with 17%nat. cbn [length]. lia.
Qed.

(** The entries of the positions text, with the commas between them. *)
Definition entries (first : bool) (l : list PositionSnapshot) : list Z :=
  concat (match position_json <$> l with [] => [] | p :: ps => (if first then p else 44 :: p) :: (cons 44 <$> ps) end).

Lemma entries_cons first p l : entries first (p :: l) = (if first then [] else [44]) ++ position_json p ++ entries false l.
Proof. unfold entries. cbn [fmap list_fmap concat]. destruct l; cbn; destruct first; cbn; by rewrite ?app_nil_r. Qed.

Lemma positions_text_spec l first text : Z.of_nat (length text) + 113 * Z.of_nat (length l) < 65536 ->
  http.positions_text first l text = Some (text ++ entries first l) /\ Z.of_nat (length (text ++ entries first l)) <= Z.of_nat (length text) + 113 * Z.of_nat (length l).
Proof.
  revert first text. induction l as [|p l IH]; intros first text Hl; cbn [http.positions_text length] in *.
  { change (entries first []) with (@nil Z). rewrite app_nil_r. split; [done|lia]. }
  set (entry := (if first then [] else [44]) ++ position_json p). pose proof (position_json_length p).
  assert (He : (length entry <= 113)%nat) by (unfold entry; rewrite length_app; destruct first; cbn [length]; lia).
  unfold kMaxPositionsJsonBytes. destruct (Z.leb_spec (64 * 1024 - Z.of_nat (length text)) (Z.of_nat (length entry))); [lia|].
  destruct (IH false (text ++ entry)) as [-> Hlen]; [rewrite length_app; lia|]. rewrite entries_cons, <- !app_assoc in *. unfold entry in *. rewrite <- !app_assoc in *.
  split; [done|]. etrans; [exact Hlen|]. rewrite !length_app in *. lia.
Qed.

Lemma positions_json_entries l : positions_json l = positions_prefix ++ entries true l ++ [93; 125].
Proof. unfold positions_json, entries. by destruct l. Qed.

(** ** Answers *)
Lemma queue_positions_ok s i x k req resp env : opened s i x k -> cl_owns_positions_body (client s i) = true -> ex_sent x = [] ->
  (length (rp_positions resp) <= 512)%nat -> rq_command req = kPositions -> entitled (hs_keys s) x (answer_reply req resp) ->
  exists s', http.queue_positions_json i resp env s = Some s' /\ touches i s s' /\ settled s' i.
Proof.
  intros Ho Hown Hx Hlen Hcmd He. unfold answer_reply in He. rewrite bool_decide_eq_true_2 in He by done. rewrite positions_json_entries in He.
  unfold http.queue_positions_json. destruct (Z.ltb_spec (cl_fd (client s i)) 0) as [?|_]; [pose proof (op_fd _ _ _ _ Ho); lia|]. rewrite Hown. cbn [orb negb].
  destruct (positions_text_spec (rp_positions resp) true positions_prefix) as [-> Hl]; [change (length positions_prefix) with 14%nat; lia|].
  change (length positions_prefix) with 14%nat in Hl. set (text := positions_prefix ++ entries true (rp_positions resp)) in *.
  unfold kMaxPositionsJsonBytes. destruct (Z.ltb_spec (64 * 1024) (Z.of_nat (length text) + 3)); [lia|].
  destruct (op_table _ _ _ _ Ho) as [Hcl Hbl Hbs]. rewrite memcpy_head by (rewrite length_app; cbn [length]; lia). cbn [mbind option_bind hs_body_size with_body].
  set (buf := (text ++ [93; 125; 0]) ++ drop (length (text ++ [93; 125; 0])) (hs_body s)). set (n := Z.of_nat (length text) + 2). set (s1 := with_body buf n (hs_body_owner s) s).
  set (header := response_header 200 reason_200 n). assert (Hh := header_length 200 reason_200 n). fold header in Hh. change (length reason_200) with 2%nat in Hh.
  unfold kMaxInlineResponseBytes. destruct (Z.leb_spec 1024 (Z.of_nat (length header))); [lia|].
  change (client s1 i) with (client s i). pose proof (op_sized _ _ _ _ Ho) as [_ Hol _].
  rewrite memcpy_head by (rewrite length_app; cbn [length]; lia). cbn [mbind option_bind].
  assert (Hbuf : length buf = length (hs_body s)) by (unfold buf; rewrite length_app, length_drop, !length_app; cbn [length]; lia).
  assert (Howner : hs_body_owner s = i) by by apply Ho.
  assert (T1 : touches i s s1).
  { split; cbn; [done..|by exists []| |by left]. split; [done|by intros []]. }
  assert (Ho1 : opened s1 i x k).
  { destruct Ho as [H1 H2 H3 H4 H5 H6 H7 H8 H9]. split; try done. split; unfold s1; cbn [with_body hs_clients hs_body hs_body_size]; [done|lia|unfold n; lia]. }
  assert (Hview : view s1 (client s1 i) = text ++ [93; 125]).
  { unfold view. change (client s1 i) with (client s i). rewrite Hown. cbn [s1 with_body hs_body_size hs_body]. unfold buf, n.
    replace (text ++ [93; 125; 0]) with ((text ++ [93; 125]) ++ [0]) by by rewrite <- app_assoc. rewrite <- app_assoc, take_app_length'; [done|].
    rewrite length_app. cbn [length]. lia. }
  destruct (sending_opened s1 i x k (Z.of_nat (length header)) ((header ++ [0]) ++ drop (length (header ++ [0])) (cl_outgoing (client s i)))
    (u64 (en_now_ns env + kResponseWriteTimeoutNs)) Ho1 Hx) as (T2 & Ho2 & Hs2).
  - rewrite length_app, length_drop, length_app. cbn [length]. lia.
  - lia.
  - rewrite Hview, <- app_assoc, take_app_length' by lia. change (hs_keys s1) with (hs_keys s). unfold reply_text in He. unfold text, header, n.
    rewrite <- app_assoc. replace (Z.of_nat (length text) + 2) with (Z.of_nat (length (positions_prefix ++ entries true (rp_positions resp) ++ [93; 125]))); [exact He|].
    unfold text. rewrite !length_app. cbn [length]. lia.
  - destruct (flush_ok _ i x k (en_sent env) Ho2 Hs2) as (s' & Hf & T3 & Hok). exists s'. split; [exact Hf|]. split; [|done].
    pose proof (in_table_kNo i (op_range _ _ _ _ Ho)). by do 2 (eapply touches_trans; [done|done|]).
Qed.

(** [send_response] for the client whose answer it is. *)
Lemma send_response_ok s i x k req resp env : opened s i x k -> ex_sent x = [] -> cl_command (client s i) = rq_command req ->
  (cl_owns_positions_body (client s i) = true <-> cl_command (client s i) = kPositions) -> (length (rp_positions resp) <= 512)%nat ->
  entitled (hs_keys s) x (answer_reply req resp) ->
  exists s', http.send_response i resp env s = Some s' /\ touches i s s' /\ settled s' i.
Proof.
  intros Ho Hx Hc Hown Hl He. unfold http.send_response. case_bool_decide as Hp; [apply (queue_positions_ok s i x k req); try done; [by apply Hown|congruence]|].
  pose proof (order_json_length (rp_order resp)). destruct (Z.leb_spec 256 (Z.of_nat (length (order_json (rp_order resp))))); [lia|].
  unfold answer_reply in He. rewrite bool_decide_eq_false_2 in He by congruence.
  case_bool_decide; (eapply queue_inline_ok; [exact Ho|done|apply short_body; [vm_compute; lia|lia]|exact He]).
Qed.
