(* ===== verification/HttpRead.v ===== *)
(** * Reading a request

    What [read_loop] leaves: the received bytes in the buffer with the framing
    of their head, or a refusal on its way.  Then what [dispatch_client] reads
    of a complete head: the token, the two words and the body. *)
From Stdlib Require Import ZArith Lia ZifyBool.
From S2P Require Import Prelude Numeric Bytes Text Config Ring Guards Reconcile Recovery AuditLog ExecTypes Risk Gateway.
From S2P Require Import WsFill WsFrame WsKey WsServer WsConn HttpWire HttpRequest HttpHeaders HttpJson HttpKeys HttpBridge HttpServer HttpExchange HttpConn.

(** ** Receiving *)
Definition received_more (bytes : list Z) (x : Exchange) : Exchange :=
  mkExchange (ex_fd x) (ex_received x ++ bytes) (ex_asked x) (ex_answers x) (ex_sent x) false.

Lemma opened_received s i x k bytes : opened s i x k -> opened (logged (EvReceived i bytes) s) i (received_more bytes x) k.
Proof. intros Ho. eapply opened_logged; [done| |done|done]. cbn. by rewrite Z.eqb_refl, (op_open _ _ _ _ Ho). Qed.

Lemma refused s i x k status reason body env : opened s i x k -> ex_asked x = [] -> ex_answers x = [] -> ex_sent x = [] -> short status reason body ->
  reply_text status reason body ∈ refusals -> reply_text status reason body <> unauthorized_reply ->
  exists s', http.queue_inline_json i status reason body env s = Some s' /\ touches i s s' /\ settled s' i.
Proof. intros Ho Ha Hb Hx Hs Ht Hne. eapply queue_inline_ok; [done..|]. by apply refusal_good. Qed.

(** The closed texts are short and in the list. *)
Ltac refuse := eapply refused; [eassumption|done|done|done|split; by vm_compute|by apply (bool_decide_unpack _); vm_compute|by vm_compute].

Lemma begins_more bytes more h rest : begins bytes h rest -> begins (bytes ++ more) h (rest ++ more).
Proof. intros [-> Hh]. split; [by rewrite app_assoc|done]. Qed.

(** What [request] says of the received bytes, as the framing of the slot. *)
Lemma framed bytes q : wire.request bytes 2047 = Some q ->
  match wire.status q with
  | wire.invalid | wire.too_large => True
  | _ => if wire.required_size q =? 0 then Z.of_nat (length bytes) < 2047
         else exists h rest, begins bytes h rest /\ fits 2047 h /\ wire.header_size q = head_size h /\ wire.required_size q = head_size h + body_size h
  end.
Proof.
  intros Hq. destruct (request_verdict bytes 2047 ltac:(lia)) as (q' & Hq' & Hv). assert (q' = q) as -> by congruence. unfold verdict in Hv.
  assert (Hdesc : forall h rest, begins bytes h rest -> fits 2047 h -> describes h q ->
    if wire.required_size q =? 0 then Z.of_nat (length bytes) < 2047
    else exists h rest, begins bytes h rest /\ fits 2047 h /\ wire.header_size q = head_size h /\ wire.required_size q = head_size h + body_size h).
  { intros h rest Hb Hf (E1 & E2 & _). assert (0 <= body_size h) by apply content_length_nonneg, ho_fields, Hb.
    assert (0 < head_size h) by (unfold head_size, render; rewrite !length_app; cbn [length CRLF]; lia).
    destruct (Z.eqb_spec (wire.required_size q) 0); [lia|]. by exists h, rest. }
  destruct (wire.status q); try done.
  - destruct Hv as [(_ & Hl & _ & ->)|(h & rest & Hb & Hf & Hd & _)]; [done|by eapply Hdesc].
  - destruct Hv as (h & rest & Hb & Hf & Hd & _). by eapply Hdesc.
Qed.

(** What [store_bytes] gives: a refusal, or the client with more bytes. *)
Definition stored (i : Z) (k : list Exchange) (s : HttpServer) (r : HttpServer + HttpServer) : Prop :=
  match r with
  | inl s' => touches i s s' /\ settled s' i
  | inr s' => touches i s s' /\ exists x', opened s' i x' k /\ reading_ok (client s' i) x'
  end.

Lemma stored_trans i k s1 s2 r : in_table i -> touches i s1 s2 -> stored i k s2 r -> stored i k s1 r.
Proof.
  intros Hi%in_table_kNo T. destruct r as [s'|s']; intros [T' H]; (split; [by eapply touches_trans|done]).
Qed.

(** The bytes behind those of the buffer, with a NUL. *)
Lemma append_received (c : ClientSlot) x bytes : sized c -> received_ok c x -> bytes_ok bytes -> cl_incoming_size c + Z.of_nat (length bytes) <= 4095 ->
  exists buf junk, memcpy (cl_incoming c) (cl_incoming_size c) (bytes ++ [0]) = Some buf /\ buf = (ex_received x ++ bytes) ++ 0 :: junk /\
    length buf = 4096%nat /\ bytes_ok buf.
Proof.
  intros [S1 _ S3] [Hsz [junk Hbuf] _] Hbytes Hfit. assert (Hlen := f_equal length Hbuf). rewrite S1, length_app in Hlen. cbn [length] in Hlen.
  rewrite memcpy_at by (rewrite ?length_app; cbn [length]; lia). set (rest := drop _ _). eexists _, rest. split; [done|].
  assert (Ht : take (Z.to_nat (cl_incoming_size c)) (cl_incoming c) = ex_received x) by (rewrite Hbuf; apply take_app_length'; lia).
  rewrite Ht. split; [by rewrite <- !app_assoc|]. unfold rest, bytes_ok in *. split.
  - rewrite !length_app, length_drop, ?length_app. cbn [length]. lia.
  - rewrite !Forall_app. split; [rewrite <- Ht; by apply Forall_take|]. split; [|by apply Forall_drop].
    split; [done|]. constructor; [by vm_compute|constructor].
Qed.

(** The client with the new bytes; the framing is not yet looked at. *)
Lemma received_opened s i x k bytes buf junk : opened s i x k -> reading_ok (client s i) x -> buf = (ex_received x ++ bytes) ++ 0 :: junk ->
  length buf = 4096%nat -> bytes_ok buf ->
  let size := cl_incoming_size (client s i) + Z.of_nat (length bytes) in
  let s' := logged (EvReceived i bytes) (upd_client i (set_incoming size buf) s) in
  touches i s s' /\ opened s' i (received_more bytes x) k /\ client s' i = set_incoming size buf (client s i) /\
  (forall (complete : bool) header required,
     (if complete then exists h rest, begins (ex_received x ++ bytes) h rest /\ fits 2047 h /\ header = head_size h /\ required = head_size h + body_size h else size < 2047) ->
     forall c, c = (if complete then set_framing header required (set_incoming size buf (client s i)) else set_incoming size buf (client s i)) ->
     complete || negb (cl_header_complete (client s i)) = true -> reading_ok c (received_more bytes x)).
Proof.
  intros Ho [Hfl Hx [Hsz _ _]] Hbuf Hl Hb size s'. pose proof (op_sized _ _ _ _ Ho) as [S1 S2 S3]. pose proof (op_range _ _ _ _ Ho) as Hi.
  split; [eapply touches_trans; [by apply in_table_kNo|apply touches_upd|by apply touches_logged]|].
  split; [by apply opened_received, opened_upd|]. split; [by apply client_upd_table; [|destruct Ho]|].
  assert (Hsize : size = Z.of_nat (length (ex_received x ++ bytes))) by (unfold size; rewrite length_app; lia).
  intros [|] header required Hf c -> Hc; (split; [done|done|]); (split; [exact Hsize|by eexists|]); cbn in *; [exact Hf|].
  apply negb_true_iff in Hc. by rewrite Hc.
Qed.

Lemma store_bytes_ok s i x k bytes env : opened s i x k -> reading_ok (client s i) x -> bytes_ok bytes ->
  cl_incoming_size (client s i) + Z.of_nat (length bytes) <= 4095 ->
  exists r, http.store_bytes i bytes env s = Some r /\ stored i k s r.
Proof.
  intros Ho Hr Hbytes Hfit. pose proof (op_range _ _ _ _ Ho) as Hi.
  destruct (append_received (client s i) x bytes) as (buf & junk & Hm & Hbuf & Hl & Hb); [by destruct Ho|by destruct Hr|done|done|].
  destruct (received_opened s i x k bytes buf junk Ho Hr Hbuf Hl Hb) as (T1 & Ho1 & Hc1 & Hread). unfold http.store_bytes. rewrite Hm. cbn [mbind option_bind].
  set (size := cl_incoming_size (client s i) + Z.of_nat (length bytes)) in *. set (s1 := logged _ _) in *.
  destruct (cl_header_complete (client s i)) eqn:Ecomp.
  { destruct Hr as [_ _ [_ _ Hhead]]. rewrite Ecomp in Hhead. destruct Hhead as (h & rest & Hbeg & Hf & E1 & E2). eexists. split; [done|].
    split; [done|]. eexists. split; [exact Ho1|]. rewrite Hc1. apply (Hread true (cl_header_size (client s i)) (cl_required_size (client s i))); [|destruct (client s i); cbn in *; by rewrite Ecomp|done].
    exists h, (rest ++ bytes). split; [by apply begins_more|done]. }
  assert (Hsl : slice buf 0 size = Some (ex_received x ++ bytes)).
  { rewrite Hbuf. apply (slice_app [] _); [done|]. destruct Hr as [_ _ [Hsz _ _]]. unfold size. rewrite length_app. lia. }
  rewrite Hsl. cbn [mbind option_bind]. change (kMaxRequestBytes - 1) with 2047.
  destruct (request_verdict (ex_received x ++ bytes) 2047 ltac:(lia)) as (q & Hq & _). rewrite Hq. cbn [mbind option_bind]. assert (Hfr := framed _ _ Hq).
  assert (Hsz : size = Z.of_nat (length (ex_received x ++ bytes))) by (destruct Hr as [_ _ [Hsz _ _]]; unfold size; rewrite length_app; lia). rewrite <- Hsz in Hfr.
  destruct Hr as [_ (Ha & Hans & Hx) _].
  assert (Hgo : (if wire.required_size q =? 0 then size < 2047
      else exists h rest, begins (ex_received x ++ bytes) h rest /\ fits 2047 h /\ wire.header_size q = head_size h /\ wire.required_size q = head_size h + body_size h) ->
    stored i k s (if negb (wire.required_size q =? 0) then inr (upd_client i (set_framing (wire.header_size q) (wire.required_size q)) s1) else inr s1)).
  { intros Hf. destruct (wire.required_size q =? 0); cbn [negb].
    - split; [done|]. eexists. split; [exact Ho1|]. rewrite Hc1. by apply (Hread false 0 0).
    - split; [eapply touches_trans; [by apply in_table_kNo|done|apply touches_upd]|]. eexists. split; [apply opened_upd; [exact Ho1|by destruct Ho1 as [_ _ [? ? ?]]|done|done]|].
      rewrite client_upd_table by (done || apply Ho1). rewrite Hc1. by apply (Hread true (wire.header_size q) (wire.required_size q)). }
  destruct (wire.status q).
  1-2: case_if; (eexists; split; [done|by apply Hgo]).
  - assert (Hrf : exists s', http.queue_inline_json i 400 reason_400 error_framing env s1 = Some s' /\ touches i s1 s' /\ settled s' i) by refuse.
    destruct Hrf as (s' & -> & Hs'). eexists. split; [done|]. by apply (stored_trans i k s s1 (inl s')).
  - assert (Hrf : exists s', http.queue_inline_json i 413 reason_413 error_framing env s1 = Some s' /\ touches i s1 s' /\ settled s' i) by refuse.
    destruct Hrf as (s' & -> & Hs'). eexists. split; [done|]. by apply (stored_trans i k s s1 (inl s')).
Qed.

Lemma reading_good s i x k : opened s i x k -> reading_ok (client s i) x -> exchange_good (hs_keys s) x.
Proof.
  intros Ho Hr. eapply (live_good _ []); [pose proof (op_fd _ _ _ _ Ho); rewrite (op_same _ _ _ _ Ho); lia|by left].
Qed.

Lemma close_settled s i x k : opened s i x k -> exchange_good (hs_keys s) x -> touches i s (http.close_client i s) /\ settled (http.close_client i s) i.
Proof. intros Ho Hg. destruct (close_opened s i x k Ho Hg) as [T F]. split; [done|by left]. Qed.

Lemma read_loop_ok i k env recvs : forall s x inbox, opened s i x k -> reading_ok (client s i) x -> bytes_ok inbox ->
  exists inbox' r, http.read_loop i recvs inbox env s = Some (inbox', r) /\ stored i k s r.
Proof.
  induction recvs as [|o recvs IH]; intros s x inbox Ho Hr Hb; cbn [http.read_loop];
    (destruct (Z.ltb_spec (cl_fd (client s i)) 0) as [?|_]; [pose proof (op_fd _ _ _ _ Ho); lia|]);
    set (limit := if cl_header_complete (client s i) then kMaxClientReadBytes else kMaxRequestBytes);
    (assert (Hstay : stored i k s (inr s)) by (split; [apply touches_refl|by exists x]));
    (assert (Hclose : stored i k s (inl (http.close_client i s))) by (by eapply close_settled, reading_good));
    (assert (Hlimit : limit <= 4096 /\ (limit <= cl_incoming_size (client s i) + 1 -> cl_header_complete (client s i) = true));
     [pose proof Hr as [_ _ [_ _ Hh]]; unfold limit, kMaxClientReadBytes, kMaxRequestBytes; destruct (cl_header_complete (client s i)); split; lia || done|]);
    (destruct (Z.leb_spec limit (cl_incoming_size (client s i) + 1)) as [Hfull|Hroom]; [rewrite (proj2 Hlimit Hfull); by eexists _, _|]).
  - by eexists _, _.
  - destruct o as [n| | | |]; [|by case_if; eexists _, _|by apply (IH s x)|by eexists _, _|by eexists _, _].
    destruct inbox as [|b inbox]; [by eexists _, _|]. set (count := Z.to_nat _).
    destruct (store_bytes_ok s i x k (take count (b :: inbox)) env Ho Hr) as (r & -> & Hs); [by apply Forall_take| |].
    { assert (0 <= cl_incoming_size (client s i)) by (destruct Hr as [_ _ [-> _ _]]; lia). rewrite length_take. unfold count. lia. }
    cbn [mbind option_bind]. destruct r as [s'|s']; [by eexists _, _|]. destruct Hs as (T & x' & Ho' & Hr').
    destruct (IH s' x' (drop count (b :: inbox)) Ho' Hr') as (inbox' & r & E & Hs); [by apply Forall_drop|]. exists inbox', r. split; [done|].
    eapply stored_trans; [apply Ho|done|done].
Qed.

(** ** The head of a complete request *)

(** The buffer as a C string: the head and what follows it up to a NUL. *)
Lemma cstr_head h rest junk : head_ok h -> exists tail, cstr ((render h ++ rest) ++ 0 :: junk) = Some (render h ++ tail).
Proof.
  intros Hh. assert (Hc : forall l, 0 ∉ l -> forall t, cstr t <> None -> exists u, cstr (l ++ t) = Some (l ++ u)).
  { induction l as [|a l IH]; intros Hn t Ht; cbn; [destruct (cstr t) as [u|]; [by exists u|done]|].
    apply not_elem_of_cons in Hn as [Ha Hl]. destruct (Z.eqb_spec a 0); [congruence|]. destruct (IH Hl t Ht) as [u ->]. by exists u. }
  rewrite <- app_assoc. apply Hc; [by apply render_no_nul|]. assert (Hs : is_Some (cstr (rest ++ 0 :: junk))) by (apply cstr_is_Some; set_solver).
  by destruct Hs as [? ->].
Qed.

(** The text up to the NUL does not depend on what follows. *)
Lemma cstr_cut l r : cstr (l ++ 0 :: r) = cstr (l ++ [0]).
Proof. induction l as [|a l IH]; cbn; [done|]. case_if; [done|]. by rewrite IH. Qed.

Lemma scan_word_exact n w rest : w <> [] -> (length w <= n)%nat -> Forall (fun c => is_space c = false) w ->
  scan_word n (w ++ 32 :: rest) = Some (w, 32 :: rest).
Proof.
  intros Hne Hl Hw. unfold scan_word. assert (skip_space (w ++ 32 :: rest) = w ++ 32 :: rest) as ->.
  { destruct Hw as [|c w Hc _]; [done|]. cbn. by rewrite Hc. }
  assert (scan_chars n (w ++ 32 :: rest) = (w, 32 :: rest)) as ->.
  { clear Hne. revert n Hl. induction Hw as [|c w Hc Hw IH]; intros [|n] Hl; cbn in *; try done; [lia|]. rewrite Hc, IH by lia. done. }
  by rewrite bool_decide_eq_false_2.
Qed.

Lemma scan_word_space n text : scan_word n (32 :: text) = scan_word n text.
Proof. done. Qed.

Lemma visible_not_space c : 33 <= c <= 126 -> is_space c = false.
Proof. unfold is_space. lia. Qed.

(** [sscanf] finds the method and the path. *)
Lemma scan_request h tail : head_ok h -> exists rest,
  scan_word 7 (render h ++ tail) = Some (hd_method h, 32 :: rest) /\ exists rest', scan_word 127 (32 :: rest) = Some (hd_path h, rest').
Proof.
  intros [(Hm1 & Hm2 & Hm3) (Hp1 & Hp2 & Hp3) _]. unfold render, request_line. rewrite <- !app_assoc. cbn [app]. rewrite <- !app_assoc. cbn [app].
  eexists. split; [apply scan_word_exact; [done|done|]|].
  - apply Forall_forall. intros c Hc. apply visible_not_space. destruct (tokens_range _ _ Hm3 Hc). lia.
  - eexists. rewrite scan_word_space. apply scan_word_exact; [by destruct (hd_path h)|done|]. eapply Forall_impl; [exact Hp3|]. intros c Hc.
    apply visible_not_space. unfold visible in Hc. lia.
Qed.

(** ** The bearer token *)
Lemma trim_front_blanks a v : Forall (fun c => wire.blank c = true) a -> wire.blank (hd 0 v) = false -> wire.trim_front (a ++ v) = v.
Proof.
  intros Ha Hv. induction Ha as [|c a Hc Ha IH]; [destruct v as [|c v]; cbn in *; [done|by rewrite Hv]|]. cbn. by rewrite Hc.
Qed.

Lemma trim_front_head v : wire.blank (hd 0 (wire.trim_front v)) = false.
Proof. induction v as [|c v IH]; [done|]. cbn. destruct (wire.blank c) eqn:E; [done|exact E]. Qed.

Lemma equal_length a b : wire.equal a b = true -> length a = length b.
Proof. revert b. induction a as [|x a IH]; intros [|y b]; cbn; try done. rewrite andb_true_iff. intros [_ H]. f_equal. by apply IH. Qed.

Lemma validate_nonempty keys : keystore.validate (Some []) keys = false.
Proof. done. Qed.

(** What [authorized] computes from the value of the field. *)
Definition bearer_value (keys : BearerKeyStore) (a : list Z) : Prop :=
  exists scheme blanks token, a = scheme ++ blanks ++ token /\ wire.equal scheme kBearer = true /\ blanks <> [] /\
    Forall (fun c => wire.blank c = true) blanks /\ hd 0 token <> 32 /\ hd 0 token <> 9 /\ keystore.validate (Some token) keys = true.

Lemma blank_iff c : wire.blank c = false <-> c <> 32 /\ c <> 9.
Proof. unfold wire.blank. lia. Qed.

Lemma bearer_value_spec keys a :
  (7 < Z.of_nat (length a) /\ wire.equal (take 6 a) kBearer = true /\ (exists c, a !! 6%nat = Some c /\ wire.blank c = true) /\
   keystore.validate (Some (wire.trim_front (drop 6 a))) keys = true) <-> bearer_value keys a.
Proof.
  split.
  - intros (Hl & Heq & (c & Hc & Hb) & Hv). destruct (trim_front_split (drop 6 a)) as (blanks & E & Hbl).
    exists (take 6 a), blanks, (wire.trim_front (drop 6 a)). rewrite <- E, take_drop. pose proof (trim_front_head (drop 6 a)) as Hh. apply blank_iff in Hh as [H1 H2].
    do 2 (split; [done|]). split; [|done]. intros ->. cbn [app] in E. rewrite <- E in H1, H2.
    assert (Hc' : drop 6 a !! 0%nat = Some c) by by rewrite lookup_drop. destruct (drop 6 a) as [|d r]; [done|]. cbn in Hc', H1, H2. injection Hc' as ->.
    unfold wire.blank in Hb. lia.
  - intros (scheme & blanks & token & -> & Heq & Hne & Hbl & H1 & H2 & Hv). pose proof (equal_length _ _ Heq) as Hl. change (length kBearer) with 6%nat in Hl.
    assert (token <> []) by (intros ->; by rewrite validate_nonempty in Hv). destruct blanks as [|c blanks]; [done|]. apply Forall_cons in Hbl as Hbl'. destruct Hbl' as [Hc _].
    rewrite take_app_length', drop_app_length' by done. rewrite trim_front_blanks by (done || by apply blank_iff).
    split; [rewrite !length_app; destruct token; [done|]; cbn [length]; lia|]. split; [done|]. split; [|done]. exists c. split; [|done].
    rewrite lookup_app_r by lia. rewrite Hl. done.
Qed.

Lemma authorized_spec keys h tail : head_ok h ->
  exists b, http.authorized (render h ++ tail) (length (render h) - 4) keys = Some b /\ (b = true <-> bearer keys h).
Proof.
  intros Hh. unfold http.authorized. rewrite header_head by done. cbn [mbind option_bind].
  assert (Hb : bearer keys h <-> exists a, field_value kAuthorizationHeader h = Some a /\ bearer_value keys a).
  { split; [intros (sc & bl & tk & E & H); eexists; split; [exact E|by exists sc, bl, tk]|intros (a & E & sc & bl & tk & -> & H); by exists sc, bl, tk]. }
  setoid_rewrite Hb. clear Hb. destruct (field_value kAuthorizationHeader h) as [a|]; [|exists false; split; [done|]; split; [done|by intros (? & ? & _)]].
  assert (Hb : (exists a', Some a = Some a' /\ bearer_value keys a') <-> bearer_value keys a) by (split; [intros (? & [= <-] & ?); done|by exists a]).
  setoid_rewrite Hb. setoid_rewrite <- bearer_value_spec. clear Hb. rewrite ascii_equal_equal.
  destruct (Z.leb_spec (Z.of_nat (length a)) 7); cbn [orb]; [exists false; split; [done|]; split; [done|intros; lia]|].
  destruct (wire.equal (take 6 a) kBearer); cbn [negb]; [|exists false; split; [done|]; split; [done|by intros (_ & ? & _)]].
  unfold rd. change (Z.to_nat 6) with 6%nat. change (0 <=? 6) with true. cbv iota. destruct (lookup_lt_is_Some_2 a 6 ltac:(lia)) as [c Hc]. rewrite Hc. cbn [mbind option_bind].
  fold (wire.blank c). destruct (wire.blank c) eqn:Eb; cbn [negb].
  - eexists. split; [done|]. rewrite andb_true_iff, negb_true_iff, bool_decide_eq_false. split.
    + intros [_ Hv]. split; [lia|]. split; [done|]. split; [by exists c|done].
    + intros (_ & _ & _ & Hv). split; [|done]. intros E. by rewrite E, validate_nonempty in Hv.
  - exists false. split; [done|]. split; [done|]. intros (_ & _ & (c' & Hc' & Hb') & _). congruence.
Qed.

(** ** The body *)
(** The C string behind the head once the bytes behind the body are cut off. *)
Lemma body_text h rest junk : 0 <= body_size h <= Z.of_nat (length rest) ->
  cstr (drop (Z.to_nat (head_size h)) (lset (head_size h + body_size h) 0 ((render h ++ rest) ++ 0 :: junk))) = cstr (take (Z.to_nat (body_size h)) rest ++ [0]).
Proof.
  intros Hb. set (n := Z.to_nat (body_size h)).
  assert (exists a r, (render h ++ rest) ++ 0 :: junk = (render h ++ take n rest) ++ a :: r) as (a & r & E).
  { destruct (drop n rest ++ 0 :: junk) as [|a r] eqn:Ed; [apply (f_equal length) in Ed; rewrite length_app in Ed; cbn in Ed; lia|]. exists a, r.
    rewrite <- (app_assoc (render h) (take n rest)), <- Ed, (app_assoc (take n rest)), take_drop. by rewrite <- app_assoc. }
  rewrite E. replace (head_size h + body_size h) with (Z.of_nat (length (render h ++ take n rest))) by (rewrite length_app, length_take; unfold head_size, n; lia).
  rewrite lset_app, <- app_assoc, drop_app_length' by (unfold head_size; lia). apply cstr_cut.
Qed.
