(* ===== verification/HttpInvariant.v ===== *)
(** * The invariant of the HTTP server

    Every slot is in order, the clients that wait can be answered, and the
    server's view of the bridge is that of a run of the bridge with the owner of
    the gateway.  Each reservation and each step on the bridge keeps it. *)
From Stdlib Require Import ZArith Lia ZifyBool.
From S2P Require Import Prelude Numeric Bytes Text Config Ring Guards Reconcile Recovery AuditLog ExecTypes Risk Gateway.
From S2P Require Import WsFill WsFrame WsKey WsServer WsWorker HttpWire HttpRequest HttpHeaders HttpJson HttpKeys HttpBridge HttpServer HttpExchange HttpConn HttpRead.

(** ** The bridge's requests and answers in the log *)
Definition answers (log : list Event) : list Response := omap (fun e => match e with EvAnswered _ r => Some r | _ => None end) log.

Definition order_ids (reqs : list Request) : list Z := (fun r => oi_client_order_id (rq_order r)) <$> filter (fun r => rq_command r = kSubmit) reqs.

(** The ids given out so far, none twice, when [next] is to be given out next;
    0 once they are exhausted. *)
Record given_out (next max : Z) (ids : list Z) : Prop := {
  go_next : 0 <= next <= max;
  go_unique : NoDup ids;
  go_below : Forall (fun id => 0 < id <= max /\ (next = 0 \/ id < next)) ids;
}.

(** [id] has been taken but not given out. *)
Definition fresh_id (next max : Z) (ids : list Z) (id : Z) : Prop := 0 < id <= max /\ (next = 0 \/ id < next) /\ id ∉ ids.

Lemma give_out next max ids id : given_out next max ids -> fresh_id next max ids id -> given_out next max (ids ++ [id]).
Proof.
  intros [H1 H2 H3] (Hr & Hb & Hn). split; [done| |by apply Forall_app_2, Forall_singleton].
  apply NoDup_app. split; [done|]. split; [|apply NoDup_singleton]. by intros a Ha ->%list_elem_of_singleton.
Qed.

Lemma take_id next max ids : given_out next max ids -> next <> 0 ->
  let next' := if next =? max then 0 else next + 1 in given_out next' max ids /\ fresh_id next' max ids next.
Proof.
  intros [H1 H2 H3] Hne next'. unfold next'. split.
  - split; [case_if; lia|done|]. eapply Forall_impl; [exact H3|]. intros id [Hid Hb]. split; [done|]. case_if; lia.
  - split; [lia|]. split; [case_if; lia|]. intros Hn. rewrite Forall_forall in H3. destruct (H3 _ Hn). lia.
Qed.

(** The requests and answers of an exchange are in the log. *)
Definition from_log (log : list Event) (x : Exchange) : Prop :=
  Forall (fun r => r ∈ asked log) (ex_asked x) /\ Forall (fun r => r ∈ answers log) (ex_answers x).

Lemma on_open_from log f k : from_log log stray -> (forall x, from_log log x -> from_log log (f x)) -> Forall (from_log log) k -> Forall (from_log log) (on_open f k).
Proof.
  intros Hs Hf Hk. destruct k as [|x k]; cbn; [by constructor|]. apply Forall_cons in Hk as Hk'. destruct Hk' as [Hx Hk']. case_if; constructor; auto.
Qed.

Lemma from_log_cons e log x : from_log log x -> from_log (e :: log) x.
Proof.
  intros [H1 H2]. split; eapply Forall_impl; try done; intros r Hr.
  - change (e :: log) with ([e] ++ log). rewrite asked_app. set_solver.
  - unfold answers in *. cbn [omap list_omap]. destruct e; try done. by right.
Qed.

Lemma story_from_log i log : Forall (from_log log) (story i log).
Proof.
  induction log as [|e log IH]; [constructor|]. unfold story in *. cbn [foldr].
  assert (Hold : Forall (from_log (e :: log)) (foldr (event_step i) [] log)) by (eapply Forall_impl; [exact IH|]; intros; by apply from_log_cons).
  assert (Hstray : from_log (e :: log) stray) by (split; constructor).
  destruct e; cbn [event_step]; try match goal with |- context [?a =? i] => destruct (a =? i) end; try done;
    first [apply on_open_from; [done|intros x [H1 H2]; split; cbn [ex_asked ex_answers]; try done|done]|by constructor].
  - constructor; [|done]. change (EvAsked i0 request :: log) with ([EvAsked i0 request] ++ log). rewrite asked_app. apply elem_of_app. right. by apply list_elem_of_singleton.
  - constructor; [|done]. by left.
Qed.

Lemma story_asked i log x r : x ∈ story i log -> r ∈ ex_asked x -> r ∈ asked log.
Proof. intros Hx Hr. pose proof (story_from_log i log) as Hs. rewrite Forall_forall in Hs. destruct (Hs x Hx) as [Ha _]. rewrite Forall_forall in Ha. by apply Ha. Qed.

Lemma story_answered i log x r : x ∈ story i log -> r ∈ ex_answers x -> r ∈ answers log.
Proof. intros Hx Hr. pose proof (story_from_log i log) as Hs. rewrite Forall_forall in Hs. destruct (Hs x Hx) as [_ Ha]. rewrite Forall_forall in Ha. by apply Ha. Qed.

Section invariant.
Context {AJ RJ : Type} `{Journal AJ AuditEvent} `{Journal RJ RecoveryEvent}.
Abbreviation Gateway := (ExecutionGateway AJ RJ).
Abbreviation Run := (@bridge_run AJ RJ).

(** The gateway at the start, and the requests of earlier servers on the same
    bridge. *)
Context (g0 : Gateway) (before : list Request).

(** ** The invariant *)

(** The server's bridge is that of the run [st], which the server drives. *)
Record linked (st : Run) (s : HttpServer) : Prop := {
  lk_reach : exists ops, st = bridge_history ops g0;
  lk_bridge : bn_bridge st = hs_bridge s;
  lk_asked : bn_admitted st = before ++ asked (hs_log s);
  lk_answers : Forall (fun r => r ∈ bn_taken st) (answers (hs_log s));
  lk_order_ids : given_out (hs_next_order_id s) UINT32_MAX (order_ids (asked (hs_log s)));
  lk_request_ids : given_out (hs_next_request_id s) UINT64_MAX (answered_ids (before ++ asked (hs_log s)));
}.

Definition websocket_ok (w : option Server) : Prop := match w with Some w => exists handed, worker_ok w handed | None => True end.

(** A client that waits will be found when its response comes. *)
Definition awaits (st : Run) (s : HttpServer) (c : ClientSlot) : Prop :=
  cl_waiting_response c = true -> cl_request_id c ∈ hs_outstanding s /\ cl_request_id c ∉ rp_request_id <$> bn_taken st.

(** Two clients wait for different responses. *)
Definition apart (c c' : ClientSlot) : Prop := cl_waiting_response c = true -> cl_waiting_response c' = true -> cl_request_id c <> cl_request_id c'.

(** The invariant, but for slot [i]; no slot is excepted when [i] is -1. *)
Record server_but (i : Z) (st : Run) (s : HttpServer) : Prop := {
  sb_table : table_ok s;
  sb_linked : linked st s;
  sb_websocket : websocket_ok (hs_websocket s);
  sb_slots : forall j, in_table j -> j <> i -> slot_ok s j;
  sb_waiting : forall j, in_table j -> j <> i -> awaits st s (client s j);
  sb_distinct : forall j j', in_table j -> in_table j' -> j <> i -> j' <> i -> j <> j' -> apart (client s j) (client s j');
}.
Definition server_ok (st : Run) (s : HttpServer) : Prop := server_but (-1) st s.

Lemma server_split i st s : server_ok st s -> in_table i ->
  server_but i st s /\ slot_ok s i /\ awaits st s (client s i) /\ (forall j, in_table j -> j <> i -> apart (client s i) (client s j)).
Proof.
  intros [H1 H2 H3 H4 H5 H6] Hi. assert (forall j, in_table j -> j <> -1) by (unfold in_table; intros; lia).
  split; [|split; [by apply H4; auto|split; [by apply H5; auto|intros; by apply H6; auto]]].
  split; try done; [intros j Hj _; apply H4; auto|intros j Hj _; apply H5; auto|]. intros j j' Hj Hj' _ _. apply H6; auto.
Qed.

Lemma server_join i st s : server_but i st s -> slot_ok s i -> awaits st s (client s i) ->
  (forall j, in_table j -> j <> i -> apart (client s i) (client s j)) -> server_ok st s.
Proof.
  intros [H1 H2 H3 H4 H5 H6] Hs Hw Ha. split; try done.
  - intros j Hj _. destruct (decide (j = i)) as [->|?]; [done|]. by apply H4.
  - intros j Hj _. destruct (decide (j = i)) as [->|?]; [done|]. by apply H5.
  - intros j j' Hj Hj' _ _ Hne. destruct (decide (j = i)) as [->|?]; [by apply Ha; auto|]. destruct (decide (j' = i)) as [->|?]; [|by apply H6].
    intros Hw1 Hw2 E. by apply (Ha j Hj ltac:(done)).
Qed.

Lemma server_settled i st s : server_but i st s -> settled s i -> server_ok st s.
Proof.
  intros Hb Hs. pose proof (settled_not_waiting _ _ Hs) as Hn.
  apply (server_join i); [done|by apply settled_slot|intros Hw; congruence|intros j _ _ Hw; congruence].
Qed.

(** ** Steps on one client *)
Lemma output_quiet i l : Forall (output_of i) l -> asked l = [] /\ answers l = [].
Proof.
  unfold asked. induction 1 as [|e l He _ [IH1 IH2]]; [done|]. destruct e; try done; cbn; (split; [exact IH1|exact IH2]).
Qed.

Lemma linked_same st s s' : linked st s -> hs_bridge s' = hs_bridge s -> hs_next_order_id s' = hs_next_order_id s -> hs_next_request_id s' = hs_next_request_id s ->
  asked (hs_log s') = asked (hs_log s) -> answers (hs_log s') = answers (hs_log s) -> linked st s'.
Proof. intros [H1 H2 H3 H4 H5 H6] E1 E2 E3 E4 E5. split; rewrite ?E1, ?E2, ?E3, ?E4, ?E5; done. Qed.

Lemma but_touches i st s s' : server_but i st s -> touches i s s' -> table_ok s' -> server_but i st s'.
Proof.
  intros [H1 H2 H3 H4 H5 H6] T Ht. pose proof T as [Ho Hl Hc (new & Hnew & Hout) _ _]. injection Ho as E1 E2 E3 E4 E5 E6 E7 _ _ _.
  destruct (output_quiet _ _ Hout) as [Ha Hb]. split; [done| |by rewrite E6| | |].
  - eapply linked_same; [exact H2|done..| |]; rewrite Hnew; [by rewrite asked_app, Ha, app_nil_r|]. unfold answers in *. by rewrite omap_app, Hb.
  - intros j Hj Hne. apply (touches_slot i j s); [done|done|congruence|by apply H4].
  - intros j Hj Hne. rewrite Hc by done. unfold awaits. rewrite E7. by apply H5.
  - intros j j' Hj Hj' Hne Hne'. rewrite !Hc by done. by apply H6.
Qed.

Lemma settled_table s i : settled s i -> table_ok s.
Proof. intros [[_ ? _ _ _ _ _]|(x & k & [_ ? _ _ _ _ _ _ _] & _)]; done. Qed.

(** An operation that replies to client [i]. *)
Lemma server_reply i st s s' : server_but i st s -> touches i s s' -> settled s' i -> server_ok st s'.
Proof. intros Hb T Hs. apply (server_settled i); [|done]. eapply but_touches; [done|done|by eapply settled_table]. Qed.

(** ** Changes besides the clients *)
Definition inner (s : HttpServer) := (hs_clients s, hs_body s, hs_body_size s, hs_body_owner s, hs_keys s, hs_log s).

Lemma inner_slot s s' j : inner s' = inner s -> (slot_ok s j -> slot_ok s' j) /\ client s' j = client s j /\ (table_ok s -> table_ok s') /\
  (forall x k, opened s j x k -> opened s' j x k).
Proof.
  intros [= E1 E2 E3 E4 E5 E6]. assert (Hc : client s' j = client s j) by (unfold client; by rewrite E1).
  assert (Ht : table_ok s -> table_ok s') by (intros []; split; by rewrite ?E1, ?E2, ?E3).
  assert (Hop : forall x k, opened s j x k -> opened s' j x k).
  { intros x k [H1 H2 H3 H4 H5 H6 H7 H8 H9]. split; rewrite ?Hc, ?E4, ?E5, ?E6; auto. }
  split; [|done]. intros [[H1 H2 H3 H4 H5 H6 H7]|(x & k & Ho & Hl)].
  - left. split; rewrite ?Hc, ?E4, ?E5, ?E6; auto.
  - right. exists x, k. split; [by apply Hop|]. unfold view in *. rewrite Hc, E2, E3, E5. done.
Qed.

Lemma but_inner i st st' s s' : server_but i st s -> inner s' = inner s -> linked st' s' -> websocket_ok (hs_websocket s') ->
  (forall j, in_table j -> j <> i -> awaits st s (client s j) -> awaits st' s' (client s j)) -> server_but i st' s'.
Proof.
  intros [H1 H2 H3 H4 H5 H6] E Hl Hw Ha. split; [by apply (inner_slot s s' 0 E)|done|done| | |].
  - intros j Hj Hne. apply (inner_slot s s' j E). by apply H4.
  - intros j Hj Hne. destruct (inner_slot s s' j E) as (_ & -> & _). by apply Ha, H5.
  - intros j j'. destruct (inner_slot s s' j E) as (_ & -> & _). destruct (inner_slot s s' j' E) as (_ & -> & _). apply H6.
Qed.

Lemma but_order_id i st s : server_but i st s ->
  let r := http.take_order_id s in
  server_but i st r.2 /\ inner r.2 = inner s /\ hs_bridge r.2 = hs_bridge s /\
  (r.1 <> 0 -> fresh_id (hs_next_order_id r.2) UINT32_MAX (order_ids (asked (hs_log s))) r.1).
Proof.
  intros Hs r. subst r. unfold http.take_order_id. pose proof (sb_linked _ _ _ Hs) as Hlk.
  destruct (Z.eqb_spec (hs_next_order_id s) 0) as [E|E]; cbn [fst snd]; [done|].
  destruct (take_id _ _ _ (lk_order_ids _ _ Hlk) E) as [Hg Hf]. split; [|done].
  eapply but_inner; [done|done| |apply Hs|by intros; apply Hs]. destruct Hlk as [H1' H2' H3' H4' H5' H6']. split; try done.
Qed.

Lemma but_request_id i st s : server_but i st s ->
  let r := http.take_http_request_id s in
  server_but i st r.2 /\ inner r.2 = inner s /\ hs_bridge r.2 = hs_bridge s /\
  (r.1 <> 0 -> fresh_id (hs_next_request_id r.2) UINT64_MAX (answered_ids (before ++ asked (hs_log s))) r.1).
Proof.
  intros Hs r. subst r. unfold http.take_http_request_id. pose proof (sb_linked _ _ _ Hs) as Hlk.
  destruct (Z.eqb_spec (hs_next_request_id s) 0) as [E|E]; cbn [fst snd]; [done|].
  destruct (take_id _ _ _ (lk_request_ids _ _ Hlk) E) as [Hg Hf]. split; [|done].
  eapply but_inner; [done|done| |apply Hs|by intros; apply Hs]. destruct Hlk as [H1' H2' H3' H4' H5' H6']. split; try done.
Qed.

(** ** Waiting clients *)
Lemma waiting_request st s j : linked st s -> in_table j -> slot_ok s j -> cl_waiting_response (client s j) = true ->
  0 < cl_request_id (client s j) /\ cl_request_id (client s j) ∈ answered_ids (before ++ asked (hs_log s)).
Proof.
  intros Hlk Hj [[_ _ _ _ _ [Hw _] _]|(x & k & Ho & Hlive)] Hwait; [congruence|].
  destruct Hlive as [[[Hw _] _ _]|[[_ (req & Ha & _ & _ & (h & rest & _ & _ & _ & _ & Hasks) & Hne & Hid & _) _]|[[Hw _] _ _ _ _]]]; [congruence| |congruence].
  rewrite Hid. split; [destruct Hasks; cbn in *; done || lia|].
  unfold answered_ids. apply list_elem_of_fmap. exists req. split; [done|]. apply list_elem_of_filter. split; [done|]. apply elem_of_app. right.
  apply (story_asked j _ x); [rewrite (op_story _ _ _ _ Ho); by left|]. rewrite Ha. by left.
Qed.

Lemma replace_first_spec old new l l' : http.replace_first old new l = Some l' -> new ∈ l' /\ forall a, a ∈ l -> a <> old -> a ∈ l'.
Proof.
  unfold http.replace_first. destruct (list_find _ l) as [[n y]|] eqn:E; [|done]. cbn. intros [= <-].
  apply list_find_Some in E as (Hn & -> & _). split.
  - apply list_elem_of_lookup. exists n. apply list_lookup_insert_eq. by eapply lookup_lt_Some.
  - intros a Ha Hne. apply list_elem_of_lookup in Ha as [m Hm]. apply list_elem_of_lookup. exists m.
    rewrite list_lookup_insert_ne; [done|]. intros ->. congruence.
Qed.

Lemma replace_first_is_Some old new l : old ∈ l -> is_Some (http.replace_first old new l).
Proof. intros Ho. unfold http.replace_first. destruct (list_find_elem_of (fun id => id = old) l old Ho eq_refl) as [[n y] ->]. by eexists. Qed.

Lemma but_outstanding i st s l : server_but i st s ->
  (forall j, in_table j -> j <> i -> cl_waiting_response (client s j) = true -> cl_request_id (client s j) ∈ hs_outstanding s -> cl_request_id (client s j) ∈ l) ->
  server_but i st (with_outstanding l s).
Proof.
  intros Hs Hl. eapply but_inner; [done|done| |apply Hs|].
  - eapply linked_same; [apply Hs|done..].
  - intros j Hj Hne Ha Hw. destruct (Ha Hw). split; [by apply Hl|done].
Qed.

(** A new id reserves a place, if there is one. *)
Lemma but_reserve_id i st s id : server_but i st s ->
  let r := http.reserve_response_id id s in
  server_but i st r.2 /\ inner r.2 = inner s /\ hs_bridge r.2 = hs_bridge s /\ hs_next_request_id r.2 = hs_next_request_id s /\ (r.1 = true -> id ∈ hs_outstanding r.2).
Proof.
  intros Hs r. subst r. unfold http.reserve_response_id. destruct (id =? 0); [done|].
  destruct (http.replace_first 0 id (hs_outstanding s)) as [l|] eqn:E; [|done]. destruct (replace_first_spec _ _ _ _ E) as [Hin Hold].
  cbn [fst snd]. split; [|done]. apply but_outstanding; [done|]. intros j Hj Hne Hw Hm. apply Hold; [done|].
  destruct (waiting_request st s j); [apply Hs|done|by apply Hs|done|lia].
Qed.

(** Releasing an id that no other client waits for. *)
Lemma but_release_id i st s id : server_but i st s ->
  (forall j, in_table j -> j <> i -> cl_waiting_response (client s j) = true -> cl_request_id (client s j) <> id) ->
  let r := http.release_response_id id s in
  server_but i st r.2 /\ inner r.2 = inner s /\ hs_bridge r.2 = hs_bridge s /\ (id <> 0 -> id ∈ hs_outstanding s -> r.1 = true).
Proof.
  intros Hs Hne r. subst r. unfold http.release_response_id. destruct (Z.eqb_spec id 0); [done|].
  destruct (http.replace_first id 0 (hs_outstanding s)) as [l|] eqn:E.
  - destruct (replace_first_spec _ _ _ _ E) as [_ Hold]. cbn [fst snd]. split; [|done].
    apply but_outstanding; [done|]. intros j Hj Hji Hw Hm. apply Hold; [done|]. by apply Hne.
  - split; [done|]. split; [done|]. split; [done|]. intros _ Hin. destruct (replace_first_is_Some _ 0 _ Hin) as [? ?]. congruence.
Qed.

(** ** Requests *)
Definition asked_more (req : Request) (x : Exchange) : Exchange :=
  mkExchange (ex_fd x) (ex_received x) (req :: ex_asked x) (ex_answers x) (ex_sent x) false.

Lemma opened_asked s i x k req : opened s i x k -> opened (logged (EvAsked i req) s) i (asked_more req x) k.
Proof. intros Ho. eapply opened_logged; [done| |done|done]. cbn. by rewrite Z.eqb_refl, (op_open _ _ _ _ Ho). Qed.

(** The ids a request takes. *)
Definition fresh_request (s : HttpServer) (req : Request) : Prop :=
  if bool_decide (rq_command req = kSubmit) then fresh_id (hs_next_order_id s) UINT32_MAX (order_ids (asked (hs_log s))) (oi_client_order_id (rq_order req))
  else fresh_id (hs_next_request_id s) UINT64_MAX (answered_ids (before ++ asked (hs_log s))) (rq_request_id req).

Lemma ids_snoc reqs req : order_ids (reqs ++ [req]) = order_ids reqs ++ (if bool_decide (rq_command req = kSubmit) then [oi_client_order_id (rq_order req)] else []) /\
  answered_ids (reqs ++ [req]) = answered_ids reqs ++ (if bool_decide (rq_command req = kSubmit) then [] else [rq_request_id req]).
Proof.
  unfold order_ids, answered_ids. rewrite !filter_app, !fmap_app, !filter_cons, !filter_nil. case_bool_decide as Hc.
  - rewrite decide_True, decide_False by (done || tauto). done.
  - rewrite decide_False, decide_True by done. done.
Qed.

Lemma but_event i st st' s s' e : server_but i st s -> inner s' = inner s -> hs_websocket s' = hs_websocket s -> event_of i e -> linked st' (logged e s') ->
  (forall j, in_table j -> j <> i -> awaits st s (client s j) -> awaits st' s' (client s j)) -> server_but i st' (logged e s').
Proof.
  intros [H1 H2 H3 H4 H5 H6] Hin Hw He Hl Ha. split; [destruct (inner_slot s s' 0 Hin) as (_ & _ & Ht & _); by destruct (Ht H1)|done|by rewrite <- Hw in H3| | |].
  - intros j Hj Hne. destruct (inner_slot s s' j Hin) as (Hslot & _). specialize (Hslot (H4 j Hj Hne)).
    assert (Hst : story j (hs_log (logged e s')) = story j (hs_log s')) by (apply (story_other i j [e]); [by constructor|done]).
    destruct Hslot as [[F1 F2 F3 F4 F5 F6 F7]|(x & k & [O1 O2 O3 O4 O5 O6 O7 O8 O9] & Hlive)].
    + left. split; rewrite ?Hst; try done. by destruct F2.
    + right. exists x, k. split; [|done]. split; rewrite ?Hst; try done. by destruct O2.
  - intros j Hj Hne. change (client (logged e s') j) with (client s' j). destruct (inner_slot s s' j Hin) as (_ & -> & _).
    by apply (Ha j Hj Hne), H5.
  - intros j j'. change (client (logged e s') j) with (client s' j). change (client (logged e s') j') with (client s' j').
    destruct (inner_slot s s' j Hin) as (_ & -> & _). destruct (inner_slot s s' j' Hin) as (_ & -> & _). apply H6.
Qed.

(** [submit]: the bridge takes the request, or is full. *)
Lemma but_submit i st s req : server_but i st s -> fresh_request s req ->
  let r := bridge.submit req (hs_bridge s) in
  let st' := bridge_step st (BSubmit req) in
  bn_gateway st' = bn_gateway st /\ bn_taken st' = bn_taken st /\
  server_but i st' (if r.1 then logged (EvAsked i req) (with_bridge r.2 s) else with_bridge r.2 s).
Proof.
  intros Hs Hf r st'. pose proof (sb_linked _ _ _ Hs) as [L1 L2 L3 L4 L5 L6]. subst r st'. cbn [bridge_step]. rewrite L2.
  destruct (bridge.submit req (hs_bridge s)) as [ok b] eqn:E. cbn [fst snd bn_gateway bn_taken]. split; [done|]. split; [done|].
  set (st' := mkRun b _ _ _). assert (Hreach : exists ops, st' = bridge_history ops g0).
  { destruct L1 as [ops ->]. exists (ops ++ [BSubmit req]). unfold bridge_history. rewrite foldl_app. fold (bridge_history ops g0). cbn [foldl bridge_step]. by rewrite L2, E. }
  destruct ok.
  - assert (Hlog : asked (hs_log (logged (EvAsked i req) (with_bridge b s))) = asked (hs_log s) ++ [req]).
    { exact (asked_app [EvAsked i req] (hs_log s)). }
    eapply but_event; [exact Hs|done..| |done]. split; cbn [bn_admitted bn_bridge st']; rewrite ?Hlog.
    + done.
    + done.
    + by rewrite L3, app_assoc.
    + done.
    + destruct (ids_snoc (asked (hs_log s)) req) as [-> _]. unfold fresh_request in Hf. case_bool_decide; [by apply give_out|by rewrite app_nil_r].
    + rewrite app_assoc. destruct (ids_snoc (before ++ asked (hs_log s)) req) as [_ ->]. unfold fresh_request in Hf. case_bool_decide; [by rewrite app_nil_r|by apply give_out].
  - eapply but_inner; [exact Hs|done| |apply Hs|done]. by split.
Qed.

(** What has been taken out was asked for. *)
Lemma taken_ids st s : linked st s -> forall id, id ∈ rp_request_id <$> bn_taken st -> id ∈ answered_ids (before ++ asked (hs_log s)).
Proof.
  intros [[ops E] _ Ha _ _ _] id Hid. rewrite <- Ha. destruct (bridge_history_serial ops g0) as (es & Q & W & [_ Hadm Hser]). rewrite <- E in *.
  rewrite Hadm. pose proof (serial_ids es g0) as Hs. rewrite Hser in Hs. cbn [fst] in Hs. unfold answered_ids in *. rewrite filter_app, fmap_app, <- Hs, fmap_app. set_solver.
Qed.

(** ** Reserving the positions body *)
Lemma but_reserve_body i st s x k : server_but i st s -> opened s i x k ->
  let r := http.reserve_positions_body i s in
  server_but i st r.2 /\ opened r.2 i x k /\ hs_bridge r.2 = hs_bridge s /\ hs_next_request_id r.2 = hs_next_request_id s /\ hs_log r.2 = hs_log s /\
  (if r.1 then cl_owns_positions_body (client r.2 i) = true else r.2 = s).
Proof.
  intros Hs Ho r. subst r. unfold http.reserve_positions_body. destruct (cl_owns_positions_body (client s i)) eqn:Eo; cbn [orb fst snd]; [done|].
  destruct (Z.eqb_spec (hs_body_owner s) kNoClientSlot) as [En|]; cbn [negb]; [|done]. cbn [fst snd].
  pose proof (op_range _ _ _ _ Ho) as Hi. pose proof (op_table _ _ _ _ Ho) as Ht.
  set (s1 := with_body (hs_body s) 0 i s). set (f := fun c => set_owns true (cl_positions_body_offset c) c). set (s2 := upd_client i f s1).
  assert (Ht1 : table_ok s1) by (destruct Ht; split; cbn; done || lia). assert (Ht2 : table_ok s2) by by apply table_upd.
  assert (Hc : client s2 i = f (client s i)) by (change (f (client s i)) with (f (client s1 i)); by apply client_upd_table).
  assert (Hother : forall j, j <> i -> client s2 j = client s j) by (intros j Hj; exact (client_upd_ne i j f s1 Hj)).
  destruct Hs as [H1 H2 H3 H4 H5 H6]. split.
  - split; [done|by eapply linked_same|done| | |].
    + intros j Hj Hne. pose proof (Hother j Hne) as Hcj.
      assert (Hno : cl_owns_positions_body (client s j) = false).
      { destruct (H4 j Hj Hne) as [[_ _ _ _ _ (_ & _ & ->) _]|(x' & k' & [_ _ _ Hown _ _ _ _ _] & _)]; [done|].
        apply not_true_iff_false. rewrite Hown, En. intros <-. by apply in_table_kNo in Hj. }
      destruct (H4 j Hj Hne) as [[F1 F2 F3 F4 F5 F6 F7]|(x' & k' & [O1 O2 O3 O4 O5 O6 O7 O8 O9] & Hlive)].
      * left. split; rewrite ?Hcj; done || (cbn; congruence).
      * right. exists x', k'. split; [split; rewrite ?Hcj; try done; cbn; rewrite Hno; split; congruence|].
        unfold view in *. rewrite Hcj, Hno in *. done.
    + intros j Hj Hne. rewrite Hother by done. apply H5; done.
    + intros j j' Hj Hj' Hne Hne'. rewrite !Hother by done. by apply H6.
  - split; [|rewrite Hc; done]. destruct Ho as [O1 O2 O3 O4 O5 O6 O7 O8 O9]. split; rewrite ?Hc; try done. by destruct O3.
Qed.
End invariant.
