(* ===== verification/HttpDispatch.v ===== *)
(** * Dispatching a request

    What [dispatch_client] does to the server: every branch replies to the
    client, hands it to the WebSocket server, or leaves it waiting for the
    answer to a request that its head and body ask for. *)
From Stdlib Require Import ZArith Lia ZifyBool.
From S2P Require Import Prelude Numeric Bytes Text Config Ring Guards Reconcile Recovery AuditLog ExecTypes Risk Gateway.
From S2P Require Import WsFill WsFrame WsKey WsServer WsWorker HttpWire HttpRequest HttpHeaders HttpJson HttpOrder HttpKeys HttpBridge HttpServer HttpExchange HttpConn HttpRead HttpInvariant.

Section dispatch.
Context {AJ RJ : Type} `{Journal AJ AuditEvent} `{Journal RJ RecoveryEvent}.
Abbreviation Gateway := (ExecutionGateway AJ RJ).
Abbreviation Run := (@bridge_run AJ RJ).
Context (g0 : Gateway) (before : list Request).
Abbreviation server_ok := (server_ok g0 before).
Abbreviation server_but := (server_but g0 before).

(** ** Outcomes *)

(** What no operation on clients changes. *)
Definition kept (s : HttpServer) := (hs_keys s, hs_config s, hs_listener s, hs_running s, hs_joinable s).

(** The operation returns and keeps the invariant; the gateway is not touched. *)
Definition goes_on (st : Run) (s : HttpServer) (r : option HttpServer) : Prop :=
  exists st' s', r = Some s' /\ server_ok st' s' /\ bn_gateway st' = bn_gateway st /\ kept s' = kept s.

Lemma touches_kept i s s' : touches i s s' -> kept s' = kept s.
Proof. intros [Ho _ _ _ _ _]. injection Ho as _ Hk Hc _ _ _ _ Hl Hr Hj. unfold kept. by rewrite Hk, Hc, Hl, Hr, Hj. Qed.

Lemma goes_on_from st st1 s s1 r : bn_gateway st1 = bn_gateway st -> kept s1 = kept s -> goes_on st1 s1 r -> goes_on st s r.
Proof. intros Hg Hk (st' & s' & Hr & Hok & Hg' & Hk'). exists st', s'. split; [done|]. split; [done|]. split; congruence. Qed.

Lemma goes_on_reply i st s r : server_but i st s -> (exists s', r = Some s' /\ touches i s s' /\ settled s' i) -> goes_on st s r.
Proof.
  intros Hb (s' & -> & T & Hs). exists st, s'. split; [done|]. split; [by eapply server_reply|]. split; [done|by eapply touches_kept].
Qed.

(** A client that has not been replied to. *)
Record unreplied (s : HttpServer) (i : Z) (x : Exchange) (k : list Exchange) : Prop := {
  un_opened : opened s i x k;
  un_asked : ex_asked x = [];
  un_answers : ex_answers x = [];
  un_sent : ex_sent x = [];
}.

Lemma unreplied_inner s s' i x k : inner s' = inner s -> unreplied s i x k -> unreplied s' i x k.
Proof. intros E [H1 H2 H3 H4]. split; try done. destruct (inner_slot s s' i E) as (_ & _ & _ & Ho). by apply Ho. Qed.

(** A refusal: the client is told and the state is otherwise as it was. *)
Lemma refuse_goes_on i st s x k status reason body env : server_but i st s -> unreplied s i x k -> short status reason body ->
  reply_text status reason body ∈ refusals -> reply_text status reason body <> unauthorized_reply ->
  goes_on st s (http.queue_inline_json i status reason body env s).
Proof. intros Hb [Ho Ha Hans Hx] Hs Ht Hne. eapply goes_on_reply; [done|]. by eapply refused. Qed.

(** Refusing after the positions body has been given back. *)
Lemma release_goes_on i st s x k status reason body env : server_but i st s -> unreplied s i x k -> short status reason body ->
  reply_text status reason body ∈ refusals -> reply_text status reason body <> unauthorized_reply ->
  goes_on st s (http.queue_inline_json i status reason body env (http.release_positions_body i s)).
Proof.
  intros Hb [Ho Ha Hans Hx] Hs Ht Hne. destruct (opened_release s i x k Ho) as (T & Ho' & _).
  eapply goes_on_from; [done|by eapply touches_kept|]. eapply refuse_goes_on; [|by split|done..].
  eapply but_touches; [done|done|by destruct Ho'].
Qed.

(** The closed refusals. *)
Ltac refusal := first [eapply refuse_goes_on | eapply release_goes_on]; [eassumption|eassumption|split; by vm_compute|by apply (bool_decide_unpack _); vm_compute|by vm_compute].

(** ** Orders *)
Lemma dispatch_order_ok i st s x k text env : server_but i st s -> unreplied s i x k ->
  (forall o id, submit_order text (en_order_ns env) = Some o -> 0 < id <= UINT32_MAX ->
     requested (hs_keys s) (ex_received x) (mkRequest kSubmit 0 0
       (mkIntent (oi_symbol_idx o) (oi_side o) (oi_qty o) (oi_price o) (oi_alpha_timestamp_ns o) (oi_now_ns o) id (oi_time_in_force o)))) ->
  goes_on st s (http.dispatch_order i text env s).
Proof.
  intros Hb Hu Hreq. unfold http.dispatch_order. destruct (submit_order text (en_order_ns env)) as [o|]; [|refusal].
  destruct (but_order_id g0 before i st s Hb) as (Hb1 & Hi1 & _ & Hfresh). destruct (http.take_order_id s) as [id s1] eqn:Et. cbn [fst snd] in *.
  assert (Hk1 : kept s1 = kept s) by (revert Et; unfold http.take_order_id; case_if; intros [= _ <-]; done).
  pose proof (unreplied_inner _ _ _ _ _ Hi1 Hu) as Hu1. destruct (Z.eqb_spec id 0) as [?|Hid]; [eapply goes_on_from; [done|exact Hk1|refusal]|].
  specialize (Hfresh Hid). set (req := mkRequest kSubmit 0 0 _). assert (Hlog : hs_log s1 = hs_log s) by by injection Hi1.
  assert (Hf : fresh_request before s1 req) by (unfold fresh_request; cbn; by rewrite Hlog).
  destruct (but_submit g0 before i st s1 req Hb1 Hf) as (Hg & _ & Hb2). destruct (bridge.submit req (hs_bridge s1)) as [ok b]. cbn [fst snd] in Hb2.
  destruct ok; cbn [negb]; cbv iota in Hb2.
  2:{ eapply (goes_on_from _ _ _ (with_bridge b s1)); [exact Hg|exact Hk1|]. assert (unreplied (with_bridge b s1) i x k) by by apply (unreplied_inner s1). refusal. }
  pose proof (accepted_json_length id). destruct (Z.leb_spec 96 (Z.of_nat (length (accepted_json id)))); [lia|].
  eapply (goes_on_from _ _ _ (logged _ (with_bridge b s1))); [exact Hg|exact Hk1|]. eapply goes_on_reply; [exact Hb2|]. destruct Hu as [Ho Ha Hans Hx].
  eapply queue_inline_ok; [apply opened_asked; eapply (proj2 (proj2 (proj2 (inner_slot s1 (with_bridge b s1) i eq_refl)))), un_opened, Hu1|done|apply short_body; [vm_compute; lia|lia]|].
  unfold entitled. cbn [asked_more ex_asked ex_answers ex_received]. rewrite Ha, Hans. split; [|done].
  assert (hs_keys (logged (EvAsked i req) (with_bridge b s1)) = hs_keys s) as -> by (cbn; by injection Hi1). apply Hreq; [done|by destruct Hfresh].
Qed.

(** ** Queries, cancellations and positions *)

(** The client that waits now. *)
Lemma wait_ok i st s x k req deadline : server_but i st (logged (EvAsked i req) s) -> unreplied s i x k ->
  requested (hs_keys s) (ex_received x) req -> rq_command req <> kSubmit -> (cl_owns_positions_body (client s i) = true <-> rq_command req = kPositions) ->
  cl_sending_response (client s i) = false -> rq_request_id req ∈ hs_outstanding s -> rq_request_id req ∉ rp_request_id <$> bn_taken st ->
  (forall j, in_table j -> j <> i -> cl_waiting_response (client s j) = true -> cl_request_id (client s j) <> rq_request_id req) ->
  server_ok st (upd_client i (set_waiting (rq_request_id req) (rq_command req) deadline) (logged (EvAsked i req) s)).
Proof.
  intros Hb [Ho Ha Hans Hx] Hreq Hne Hown Hsend Hin Hnew Hdist. set (s1 := logged _ s) in *. set (f := set_waiting _ _ _). set (s2 := upd_client i f s1).
  pose proof (opened_asked s i x k req Ho) as Ho1. fold s1 in Ho1. pose proof (op_range _ _ _ _ Ho) as Hi. pose proof (op_table _ _ _ _ Ho1) as Ht1.
  assert (T : touches i s1 s2) by apply touches_upd. assert (Hc : client s2 i = f (client s i)) by by apply (client_upd_table i f s1).
  assert (Ho2 : opened s2 i (asked_more req x) k) by (apply opened_upd; [done|by destruct Ho1 as [_ _ [? ? ?]]|done|done]).
  apply (server_join g0 before i).
  - eapply but_touches; [done|done|by apply table_upd].
  - eapply live_slot; [done|]. right; left. rewrite Hc. split; [done| |exact Hown]. exists req. cbn [asked_more ex_asked ex_answers ex_sent ex_received]. rewrite Ha.
    done.
  - unfold awaits. rewrite Hc. done.
  - intros j Hj Hj'. unfold apart. rewrite Hc. assert (client s2 j = client s j) as -> by exact (client_upd_ne i j f s1 Hj'). intros _ Hw E. by apply (Hdist j Hj Hj' Hw).
Qed.

(** The last part of [dispatch_command], when everything is reserved. *)
Lemma submit_command_ok i st s x k req deadline env : server_but i st s -> unreplied s i x k -> rq_command req <> kSubmit ->
  requested (hs_keys s) (ex_received x) req -> fresh_id (hs_next_request_id s) UINT64_MAX (answered_ids (before ++ asked (hs_log s))) (rq_request_id req) ->
  rq_request_id req ∈ hs_outstanding s -> (cl_owns_positions_body (client s i) = true <-> rq_command req = kPositions) -> cl_sending_response (client s i) = false ->
  goes_on st s (let '(ok, b) := bridge.submit req (hs_bridge s) in
    let s := with_bridge b s in
    if negb ok then http.queue_inline_json i 503 reason_503 error_queue_full env (http.release_positions_body i (snd (http.release_response_id (rq_request_id req) s)))
    else let s := logged (EvAsked i req) s in Some (upd_client i (set_waiting (rq_request_id req) (rq_command req) deadline) s)).
Proof.
  intros Hb Hu Hne Hreq Hfresh Hin Hown Hsend. assert (Hf : fresh_request before s req) by (unfold fresh_request; by rewrite bool_decide_eq_false_2).
  pose proof (sb_linked _ _ _ _ _ Hb) as Hlk.
  assert (Hdist : forall j, in_table j -> j <> i -> cl_waiting_response (client s j) = true -> cl_request_id (client s j) <> rq_request_id req).
  { intros j Hj Hji Hw E. destruct (waiting_request g0 before st s j Hlk Hj (sb_slots _ _ _ _ _ Hb j Hj Hji) Hw) as [_ Hm].
    destruct Hfresh as (_ & _ & Hnot). by rewrite E in Hm. }
  destruct (but_submit g0 before i st s req Hb Hf) as (Hg & Htk & Hb2). destruct (bridge.submit req (hs_bridge s)) as [ok b]. cbn [fst snd] in Hb2.
  assert (Hu2 : unreplied (with_bridge b s) i x k) by by apply (unreplied_inner s).
  destruct ok; cbn [negb]; cbv iota in Hb2.
  - eexists _, _. split; [done|]. split; [|split; [exact Hg|done]]. apply (wait_ok i _ (with_bridge b s) x k); try done.
    rewrite Htk. intros Hm. destruct Hfresh as (_ & _ & Hnot). by apply Hnot, (taken_ids g0 before st s Hlk).
  - destruct (but_release_id g0 before i _ _ (rq_request_id req) Hb2 Hdist) as (Hb3 & Hi3 & _).
    assert (Hk3 : kept (http.release_response_id (rq_request_id req) (with_bridge b s)).2 = kept s).
    { unfold http.release_response_id. case_if; [done|]. by destruct (http.replace_first _ 0 _). }
    pose proof (unreplied_inner _ _ _ _ _ Hi3 Hu2) as Hu3. eapply goes_on_from; [exact Hg|exact Hk3|]. refusal.
Qed.

Lemma dispatch_command_ok i st s x k command order_id env : server_but i st s -> unreplied s i x k -> command <> kSubmit ->
  (forall id, 0 < id <= UINT64_MAX -> requested (hs_keys s) (ex_received x) (mkRequest command id order_id (rq_order request_init))) ->
  cl_owns_positions_body (client s i) = false -> cl_sending_response (client s i) = false ->
  goes_on st s (http.dispatch_command i command order_id env s).
Proof.
  intros Hb Hu Hne Hreq Hown Hsend. unfold http.dispatch_command.
  destruct (but_request_id g0 before i st s Hb) as (Hb1 & Hi1 & _ & Hfresh). destruct (http.take_http_request_id s) as [id s1] eqn:Et. cbn [fst snd] in *.
  assert (Hk1 : kept s1 = kept s) by (revert Et; unfold http.take_http_request_id; case_if; intros [= _ <-]; done).
  pose proof (unreplied_inner _ _ _ _ _ Hi1 Hu) as Hu1. destruct (Z.eqb_spec id 0) as [?|Hid]; [eapply goes_on_from; [done|exact Hk1|refusal]|].
  specialize (Hfresh Hid). assert (Hcl : client s1 i = client s i) by by apply (inner_slot s s1 i Hi1). injection Hi1 as _ _ _ _ Hkeys Hlog.
  assert (Hres : exists ok s2, (if bool_decide (command = kPositions) then http.reserve_positions_body i s1 else (true, s1)) = (ok, s2) /\
    server_but i st s2 /\ unreplied s2 i x k /\ kept s2 = kept s /\ hs_next_request_id s2 = hs_next_request_id s1 /\ hs_log s2 = hs_log s /\ cl_sending_response (client s2 i) = false /\
    (ok = true -> cl_owns_positions_body (client s2 i) = true <-> command = kPositions)).
  { case_bool_decide as Hc.
    - destruct (but_reserve_body g0 before i st s1 x k Hb1 (un_opened _ _ _ _ Hu1)) as (Hb2 & Ho2 & _ & Hn2 & Hl2 & Hr).
      destruct (http.reserve_positions_body i s1) as [ok s2] eqn:E2. cbn [fst snd] in *. exists ok, s2. split; [done|]. split; [done|]. split; [destruct Hu1; by split|].
      assert (Hs2 : kept s2 = kept s1 /\ cl_sending_response (client s2 i) = cl_sending_response (client s1 i)).
      { revert E2. unfold http.reserve_positions_body. case_if; intros [= <- <-]; [done|]. split; [done|].
        rewrite client_upd; [done|]. destruct Hu1 as [Ho1 _ _ _]. destruct (op_table _ _ _ _ Ho1) as [Hl _ _]. pose proof (op_range _ _ _ _ Ho1) as Hi. unfold in_table in Hi. cbn. lia. }
      destruct Hs2 as [-> ->]. split; [done|]. split; [done|]. split; [congruence|]. split; [by rewrite Hcl|]. intros ->. by rewrite Hr.
    - exists true, s1. split; [done|]. split; [done|]. split; [done|]. split; [done|]. split; [done|]. split; [done|]. rewrite Hcl. split; [done|]. intros _. by rewrite Hown. }
  destruct Hres as (ok & s2 & -> & Hb2 & Hu2 & Hk2 & Hn2 & Hlog2 & Hsend2 & Hown2). destruct ok; cbn [negb]; [|eapply goes_on_from; [done|exact Hk2|refusal]].
  destruct (but_reserve_id g0 before i st s2 id Hb2) as (Hb3 & Hi3 & _ & Hn3 & Hin). destruct (http.reserve_response_id id s2) as [ok3 s3] eqn:E3. cbn [fst snd] in *.
  assert (Hk3 : kept s3 = kept s).
  { rewrite <- Hk2. revert E3. unfold http.reserve_response_id. case_if; [by intros [= _ <-]|]. by destruct (http.replace_first 0 id _); intros [= _ <-]. }
  pose proof (unreplied_inner _ _ _ _ _ Hi3 Hu2) as Hu3. assert (Hcl3 : client s3 i = client s2 i) by by apply (inner_slot s2 s3 i Hi3).
  injection Hi3 as _ _ _ _ Hkeys3 Hlog3. destruct ok3; cbn [negb]; [|eapply goes_on_from; [done|exact Hk3|refusal]].
  eapply goes_on_from; [done|exact Hk3|]. assert (hs_keys s3 = hs_keys s) by by injection Hk3.
  apply (submit_command_ok i st s3 x k (mkRequest command id order_id (rq_order request_init)) (u64 (en_now_ns env + cf_response_wait_ms (hs_config s3) * 1000000)) env); try done; cbn [rq_command rq_request_id].
  - rewrite H1. apply Hreq. by destruct Hfresh.
  - rewrite Hn3, Hn2, Hlog3, Hlog2. done.
  - by apply Hin.
  - rewrite Hcl3. by apply Hown2.
  - by rewrite Hcl3.
Qed.

(** ** A complete request *)
Record dispatching (s : HttpServer) (i : Z) (x : Exchange) (k : list Exchange) (h : Head) (rest : list Z) : Prop := {
  di_unreplied : unreplied s i x k;
  di_flags : cl_sending_response (client s i) = false /\ cl_owns_positions_body (client s i) = false;
  di_begins : begins (ex_received x) h rest;
  di_fits : fits 2047 h;
  di_body : 0 <= body_size h <= Z.of_nat (length rest);
  di_sizes : cl_header_size (client s i) = head_size h /\ cl_required_size (client s i) = head_size h + body_size h /\
    cl_incoming_size (client s i) = Z.of_nat (length (ex_received x));
  di_buffer : exists junk, cl_incoming (client s i) = (render h ++ rest) ++ 0 :: junk;
}.

Lemma reading_dispatching s i x k : opened s i x k -> reading_ok (client s i) x -> http.request_complete (client s i) = true ->
  exists h rest, dispatching s i x k h rest.
Proof.
  intros Ho [(Hw & Hs & Hown) (Ha & Hans & Hx) [Hsz [junk Hbuf] Hh]] Hc. unfold http.request_complete in Hc. apply andb_true_iff in Hc as [Hc1 Hc2].
  rewrite Hc1 in Hh. destruct Hh as (h & rest & Hb & Hf & E1 & E2). exists h, rest. pose proof (proj1 Hb) as E. pose proof (f_equal length E) as El. rewrite length_app in El.
  pose proof (content_length_nonneg _ (ho_fields _ (proj2 Hb))). unfold http.request_complete, body_size, head_size in *.
  split; [by split|done|done|done|unfold body_size; lia|done|exists junk; by rewrite <- E].
Qed.

(** What the WebSocket server is handed. *)
Lemma key_string k : Forall (fun c => 0 < c < 256) k -> (length k < 32)%nat -> c_string (Some (k ++ drop (length k) (replicate 32 0))).
Proof.
  intros Hk Hl. exists k, (replicate (31 - length k) 0). split; [|done]. f_equal. rewrite drop_replicate. by replace (32 - length k)%nat with (S (31 - length k)) by lia.
Qed.

Lemma path_number_range path prefix v : path_number path prefix = Some v -> in_u 64 v.
Proof.
  unfold path_number. destruct (starts prefix path); [|done]. cbn [negb]. destruct (number _) as [[v' r]|] eqn:E; [|done]. cbn [mbind option_bind fst snd].
  case_bool_decide; [|done]. intros [= <-]. destruct (number_inv _ _ _ E) as (l & _ & _ & _ & _ & Hv). unfold in_u. change (2 ^ 64) with 18446744073709551616. lia.
Qed.

Lemma dispatch_upgrade_ok i st s x k h rest tail w env : server_but i st s -> dispatching s i x k h rest -> hs_websocket s = Some w ->
  goes_on st s (http.dispatch_upgrade i (render h ++ tail) (hd_path h) (length (render h) - 4) w env s).
Proof.
  intros Hb [Hu _ [Ex Hh] Hfit Hbody (E1 & E2 & E3) (junk & Hbuf)] Hw. unfold http.dispatch_upgrade. rewrite !header_head by done. cbn [mbind option_bind].
  rewrite !header_token by done. cbn [mbind option_bind]. set (upgrade_ok := match field_value kUpgradeHeader h with Some _ => _ | None => _ end).
  set (connection_ok := match field_value kConnectionHeader h with Some _ => _ | None => _ end). set (version_ok := match field_value kVersionHeader h with Some _ => _ | None => _ end).
  assert (Hbytes : bytes_ok ((render h ++ rest) ++ 0 :: junk)) by (rewrite <- Hbuf; apply Hu). apply Forall_app in Hbytes as [Hbytes _].
  destruct (path_number (hd_path h) path_stream) as [id|] eqn:Eid; [|refusal]. apply path_number_range in Eid.
  destruct (field_value kKeyHeader h) as [key|] eqn:Ek; [|refusal]. destruct (negb upgrade_ok || _ || _); [refusal|].
  assert (Hsl : slice (cl_incoming (client s i)) 0 (cl_header_size (client s i)) = Some (render h)).
  { rewrite Hbuf, E1, <- app_assoc. by apply (slice_app [] (render h)). }
  rewrite Hsl. cbn [mbind option_bind]. apply Forall_app in Hbytes as [Hrb _].
  destruct (Z.leb_spec 32 (Z.of_nat (length key))) as [Hlong|Hshort]; [cbn [mbind option_bind negb]; refusal|].
  destruct (handshake_returns (render h) Hrb) as [shakes ->]. cbn [mbind option_bind]. destruct shakes; cbn [negb]; [|refusal].
  rewrite memcpy_head by (rewrite length_replicate; lia). cbn [mbind option_bind]. destruct (negb _ || _) eqn:Esz; [refusal|].
  destruct (kMaxUpgradePreReadBytes <? _); [refusal|].
  assert (Hlen : Z.of_nat (length (drop (Z.to_nat (cl_header_size (client s i))) (cl_incoming (client s i)))) >= cl_incoming_size (client s i) - cl_header_size (client s i)).
  { rewrite length_drop, Hbuf, length_app, <- Ex, E3. unfold head_size in *. cbn [length]. lia. }
  assert (Hws := sb_websocket _ _ _ _ _ Hb). rewrite Hw in Hws. destruct Hws as [handed Hws].
  assert (Henq : exists r w', (if en_dup env <? 0 then Some (uQueueFull, w)
      else server.enqueue_upgrade (en_dup env) id (Some (key ++ drop (length key) (replicate 32 0))) (Some (drop (Z.to_nat (cl_header_size (client s i))) (cl_incoming (client s i))))
             (cl_incoming_size (client s i) - cl_header_size (client s i)) (en_lease env) w) = Some (r, w') /\ websocket_ok (Some w')).
  { case_if; [exists uQueueFull, w; split; [done|by exists handed]|].
    destruct (enqueue_upgrade_ok (en_dup env) id (Some (key ++ drop (length key) (replicate 32 0)))
      (Some (drop (Z.to_nat (cl_header_size (client s i))) (cl_incoming (client s i)))) (cl_incoming_size (client s i) - cl_header_size (client s i)) (en_lease env) w handed Hws Eid)
      as (r & w' & -> & Hw' & _); [apply key_string; [by eapply value_bytes|lia]| |by exists r, w'; split; [done|eexists]].
    split; [lia|]. split; [apply Forall_drop, Hu|lia]. }
  destruct Henq as (r & w' & -> & Hws'). cbn [mbind option_bind fst snd]. set (s1 := with_websocket (Some w') s).
  assert (Hb1 : server_but i st s1) by (eapply but_inner; [exact Hb|done|by eapply linked_same; [apply Hb|done..]|done|done]).
  assert (Hu1 : unreplied s1 i x k) by by apply (unreplied_inner s). apply (goes_on_from st st s s1); [done|done|].
  destruct r; try refusal. eapply goes_on_reply; [exact Hb1|]. eexists. split; [done|]. destruct Hu1 as [Ho1 Ha1 Hans1 Hx1]. eapply close_settled; [done|].
  split; [rewrite (op_same _ _ _ _ Ho1); apply Ho1|]. exists (reply_text 408 reason_408 error_request_timeout). split; [|rewrite Hx1; by apply prefix_nil].
  apply refusal_good; [by apply (bool_decide_unpack _); vm_compute|by vm_compute|done|done].
Qed.

(** ** The routes *)

(** Cutting the buffer behind the body changes nothing else. *)
Lemma cut_dispatching i st s x k h rest : server_but i st s -> dispatching s i x k h rest ->
  let s' := upd_client i (fun c => set_incoming (cl_incoming_size c) (lset (cl_required_size c) 0 (cl_incoming c)) c) s in
  server_but i st s' /\ unreplied s' i x k /\ kept s' = kept s /\
  client s' i = set_incoming (cl_incoming_size (client s i)) (lset (cl_required_size (client s i)) 0 (cl_incoming (client s i))) (client s i).
Proof.
  intros Hb [[Ho Ha Hans Hx] _ _ _ _ _ _] s'. pose proof (op_sized _ _ _ _ Ho) as [S1 S2 S3].
  assert (Hc : client s' i = set_incoming (cl_incoming_size (client s i)) (lset (cl_required_size (client s i)) 0 (cl_incoming (client s i))) (client s i)).
  { exact (client_upd_table i (fun c => set_incoming (cl_incoming_size c) (lset (cl_required_size c) 0 (cl_incoming c)) c) s (op_range _ _ _ _ Ho) (op_table _ _ _ _ Ho)). }
  assert (T : touches i s s') by apply touches_upd. split; [eapply but_touches; [done|done|apply table_upd; by destruct Ho]|].
  split; [split; try done|by split]. apply opened_upd; [done| |done|done].
  split; cbn [set_incoming cl_incoming cl_outgoing]; [by rewrite length_lset|done|]. apply lset_bytes; [done|by vm_compute].
Qed.

Lemma dispatch_rest_ok i st s x k h rest env : server_but i st s -> dispatching s i x k h rest -> bearer (hs_keys s) h ->
  goes_on st s (http.dispatch_rest i (hd_method h) (hd_path h) env s).
Proof.
  intros Hb Hd Hbearer. destruct (cut_dispatching i st s x k h rest Hb Hd) as (Hb1 & Hu1 & Hk1 & Hc1).
  destruct Hd as [Hu [Hsend Hown] Hbeg Hfit Hbody (E1 & E2 & E3) (junk & Hbuf)]. unfold http.dispatch_rest.
  assert (Hrd : is_Some (rd (cl_incoming (client s i)) (cl_required_size (client s i)))).
  { apply rd_is_Some. pose proof (op_sized _ _ _ _ (un_opened _ _ _ _ Hu)) as [-> _ _]. unfold fits, head_size in *. lia. }
  destruct Hrd as [b ->]. cbn [mbind option_bind]. set (s1 := upd_client i _ s) in *.
  assert (Hk : hs_keys s1 = hs_keys s) by done.
  assert (Hreq : forall req, asks h (take (Z.to_nat (body_size h)) rest) req -> requested (hs_keys s1) (ex_received x) req).
  { intros req Hreq. rewrite Hk. exists h, rest. split; [done|]. split; [done|]. split; [lia|]. done. }
  assert (Hsend1 : cl_sending_response (client s1 i) = false) by by rewrite Hc1.
  assert (Hown1 : cl_owns_positions_body (client s1 i) = false) by by rewrite Hc1.
  destruct (bool_decide (hd_method h = kPost) && _) eqn:Epost.
  { apply andb_true_iff in Epost as [Em Ep]. apply bool_decide_eq_true in Em, Ep. rewrite Hc1, Hbuf, E1, E2. cbn [set_incoming cl_incoming]. rewrite body_text by done.
    assert (Htext : is_Some (cstr (take (Z.to_nat (body_size h)) rest ++ [0]))) by (apply cstr_is_Some; set_solver).
    destruct Htext as [text Htext]. rewrite Htext. cbn [mbind option_bind]. eapply goes_on_from; [done|exact Hk1|]. eapply dispatch_order_ok; [exact Hb1|exact Hu1|].
    intros o id Horder Hid. apply Hreq. eapply asks_submit; [done|done|by exists text|done]. }
  destruct (bool_decide (hd_method h = kGet) && _) eqn:Epos.
  { apply andb_true_iff in Epos as [Em Ep]. apply bool_decide_eq_true in Em, Ep. eapply goes_on_from; [done|exact Hk1|].
    eapply dispatch_command_ok; try done. intros id Hid. apply Hreq. by constructor. }
  destruct (path_number (hd_path h) path_order) as [id|] eqn:Eid; [|eapply goes_on_from; [done|exact Hk1|refusal]].
  destruct (bool_decide (hd_method h = kGet)) eqn:Em; [|destruct (bool_decide (hd_method h = kDelete)) eqn:Em'; [|eapply goes_on_from; [done|exact Hk1|refusal]]].
  - apply bool_decide_eq_true in Em. eapply goes_on_from; [done|exact Hk1|]. eapply dispatch_command_ok; try done. intros rid Hrid. apply Hreq. by constructor.
  - apply bool_decide_eq_true in Em'. eapply goes_on_from; [done|exact Hk1|]. eapply dispatch_command_ok; try done. intros rid Hrid. apply Hreq. by constructor.
Qed.

Lemma dispatch_client_ok i st s x k env : server_but i st s -> opened s i x k -> reading_ok (client s i) x -> http.request_complete (client s i) = true ->
  goes_on st s (http.dispatch_client i env s).
Proof.
  intros Hb Ho Hr Hc. destruct (reading_dispatching s i x k Ho Hr Hc) as (h & rest & Hd). pose proof Hd as [Hu _ Hbeg Hfit Hbody (E1 & E2 & E3) (junk & Hbuf)].
  unfold http.dispatch_client. destruct (cstr_head h rest junk (proj2 Hbeg)) as [tail Htail]. rewrite Hbuf, Htail. cbn [mbind option_bind]. rewrite E1.
  replace (Z.to_nat (head_size h) - 4)%nat with (length (render h) - 4)%nat by (unfold head_size; lia).
  destruct (authorized_spec (hs_keys s) h tail (proj2 Hbeg)) as (b & -> & Hauth). cbn [mbind option_bind]. destruct b; cbn [negb].
  - destruct (scan_request h tail (proj2 Hbeg)) as (rest1 & -> & rest2 & ->). assert (Hbearer : bearer (hs_keys s) h) by by apply Hauth.
    destruct (hs_websocket s) as [w|] eqn:Ew; [|by eapply dispatch_rest_ok]. case_if; [|by eapply dispatch_rest_ok].
    by eapply dispatch_upgrade_ok.
  - eapply goes_on_reply; [exact Hb|]. destruct Hu as [_ Ha Hans Hx]. eapply queue_inline_ok; [exact Ho|done|split; by vm_compute|].
    unfold entitled. rewrite Ha, Hans. split; [by apply (bool_decide_unpack _); vm_compute|]. intros _ h' rest' Hbeg' Hbear.
    destruct (begins_unique _ _ _ _ _ Hbeg' Hbeg) as [-> _]. by apply Hauth in Hbear.
Qed.

(** ** [read_client] *)
Lemma read_client_ok i st s x k recvs inbox env : server_but i st s -> opened s i x k -> reading_ok (client s i) x -> bytes_ok inbox ->
  exists inbox' r, http.read_client i recvs inbox env s = (r ← r; Some (inbox', r)) /\ goes_on st s r.
Proof.
  intros Hb Ho Hr Hin. unfold http.read_client. destruct (read_loop_ok i k env recvs s x inbox Ho Hr Hin) as (inbox' & r & -> & Hs). cbn [mbind option_bind fst snd].
  exists inbox'. destruct r as [s'|s'].
  - exists (Some s'). split; [done|]. eapply goes_on_reply; [exact Hb|]. exists s'. by destruct Hs.
  - destruct Hs as (T & x' & Ho' & Hr'). assert (Hb' : server_but i st s') by (eapply but_touches; [done|done|by destruct Ho']).
    destruct (Z.leb_spec 0 (cl_fd (client s' i))); [|pose proof (op_fd _ _ _ _ Ho'); lia]. cbn [andb].
    destruct (http.request_complete (client s' i)) eqn:Ec.
    + exists (http.dispatch_client i env s'). split; [done|]. eapply goes_on_from; [done|by eapply touches_kept|by eapply dispatch_client_ok].
    + exists (Some s'). split; [done|]. exists st, s'. split; [done|]. split; [|split; [done|by eapply touches_kept]].
      assert (Hnw : cl_waiting_response (client s' i) = false) by apply Hr'.
      apply (server_join g0 before i); [done|by eapply live_slot; [|left]|intros Hw; congruence|intros j _ _ Hw; congruence].
Qed.

End dispatch.
