(* ===== verification/HttpTurn.v ===== *)
(** * Turns of the HTTP server

    Responses, deadlines, accepting and the event loop, on the invariant of
    HttpInvariant. *)
From Stdlib Require Import ZArith Lia ZifyBool.
From S2P Require Import Prelude Numeric Bytes Text Config Ring Guards Reconcile Recovery AuditLog ExecTypes Risk Gateway.
From S2P Require Import WsFill WsFrame WsKey WsServer WsWorker HttpWire HttpRequest HttpHeaders HttpJson HttpKeys HttpBridge HttpServer HttpExchange HttpConn HttpRead HttpInvariant HttpDispatch.

Section turn.
Context {AJ RJ : Type} `{Journal AJ AuditEvent} `{Journal RJ RecoveryEvent}.
Abbreviation Gateway := (ExecutionGateway AJ RJ).
Abbreviation Run := (@bridge_run AJ RJ).
Context (g0 : Gateway) (before : list Request).
Abbreviation server_ok := (server_ok g0 before).
Abbreviation server_but := (server_but g0 before).
Abbreviation goes_on := (goes_on g0 before).

Lemma goes_on_here st s : server_ok st s -> goes_on st s (Some s).
Proof. intros Hs. by exists st, s. Qed.

Lemma goes_on_bind st s r (f : HttpServer -> option HttpServer) : goes_on st s r ->
  (forall st' s', server_ok st' s' -> bn_gateway st' = bn_gateway st -> kept s' = kept s -> goes_on st' s' (f s')) -> goes_on st s (r ≫= f).
Proof.
  intros (st' & s' & -> & Hok & Hg & Hk) Hf. cbn [mbind option_bind]. eapply goes_on_from; [exact Hg|exact Hk|by apply Hf].
Qed.

(** ** Taking a response *)
Lemma take_step st s : server_ok st s ->
  let r := bridge.try_take_response (hs_bridge s) in
  let st1 := bridge_step st BTake in
  bn_gateway st1 = bn_gateway st /\ linked g0 before st1 (with_bridge r.2 s) /\ bn_taken st1 = bn_taken st ++ option_list r.1 /\
  (forall resp, r.1 = Some resp -> (length (rp_positions resp) <= 512)%nat).
Proof.
  intros Hs r st1. destruct (sb_linked _ _ _ _ _ Hs) as [L1 L2 L3 L4 L5 L6]. subst r st1. cbn [bridge_step]. rewrite L2.
  destruct (bridge.try_take_response (hs_bridge s)) as [r b] eqn:E. cbn [fst snd bn_gateway bn_taken]. split; [done|].
  set (st1 := mkRun b _ _ _). assert (Hreach : exists ops, st1 = bridge_history ops g0).
  { destruct L1 as [ops ->]. exists (ops ++ [BTake]). unfold bridge_history. rewrite foldl_app. fold (bridge_history ops g0). cbn [foldl bridge_step]. by rewrite L2, E. }
  split; [split; try done; cbn; eapply Forall_impl; [exact L4|set_solver]|]. split; [done|].
  intros resp ->. destruct Hreach as [ops Eops]. destruct (bridge_history_serial ops g0) as (es & Q & W & [_ _ Hser]). rewrite <- Eops in Hser.
  assert (Hin : resp ∈ (serial_run es g0).1) by (rewrite Hser; cbn; set_solver).
  destruct (serial_response es g0 resp Hin) as (es1 & req & packet & now & es2 & _ & _ & ->). apply answer_positions.
Qed.

(** ** Delivering it *)
Definition answered_more (resp : Response) (x : Exchange) : Exchange :=
  mkExchange (ex_fd x) (ex_received x) (ex_asked x) (resp :: ex_answers x) (ex_sent x) false.

(** No client waits for this response. *)
Lemma nobody_waits st st1 s s1 resp : server_ok st s -> inner s1 = inner s -> hs_websocket s1 = hs_websocket s -> hs_outstanding s1 = hs_outstanding s ->
  linked g0 before st1 s1 -> bn_taken st1 = bn_taken st ++ [resp] ->
  (forall j, in_table j -> cl_waiting_response (client s j) = true -> cl_request_id (client s j) <> rp_request_id resp) -> server_ok st1 s1.
Proof.
  intros Hs Hi Hw Ho Hl Htk Hno. eapply but_inner; [exact Hs|done|done|rewrite Hw; apply Hs|]. intros j Hj _ Ha Hwj. rewrite Ho. destruct (Ha Hwj) as [Hin Hnot].
  split; [done|]. rewrite Htk, fmap_app. apply not_elem_of_app. split; [done|]. cbn. intros Heq%list_elem_of_singleton. by apply (Hno j Hj Hwj).
Qed.

Lemma lookup_client s j : table_ok s -> in_table j -> hs_clients s !! Z.to_nat j = Some (client s j).
Proof.
  intros [Hl _ _] Hj. unfold in_table in Hj. destruct (lookup_lt_is_Some_2 (hs_clients s) (Z.to_nat j) ltac:(lia)) as [c Hc]. rewrite Hc. unfold client, lget.
  case_if; [|lia]. by rewrite Hc.
Qed.

(** The client that waits gets the response. *)
Lemma deliver_to st s i x k resp env : server_but i st s -> opened s i x k -> waiting_ok (hs_keys s) (client s i) x -> resp ∈ bn_taken st ->
  (length (rp_positions resp) <= 512)%nat -> cl_request_id (client s i) = rp_request_id resp ->
  goes_on st s (http.send_response i resp env (logged (EvAnswered i resp) (upd_client i stop_waiting s))).
Proof.
  intros Hb Ho [Hfl (req & Ha & Hans & Hx & Hreq & Hne & Hid & Hcmd) Hown] Hin Hlen Hrid.
  set (s1 := upd_client i stop_waiting s). set (s2 := logged (EvAnswered i resp) s1). pose proof (op_range _ _ _ _ Ho) as Hi. pose proof (op_table _ _ _ _ Ho) as Ht.
  assert (T : touches i s s1) by apply touches_upd. assert (Hb1 : server_but i st s1) by (eapply but_touches; [done|done|by apply table_upd]).
  assert (Ho1 : opened s1 i x k) by (apply opened_upd; [done|by destruct Ho as [_ _ [? ? ?]]|done|done]).
  assert (Hc1 : client s1 i = stop_waiting (client s i)) by by apply client_upd_table.
  assert (Hb2 : server_but i st s2).
  { eapply but_event; [exact Hb1|done|done|done| |done]. destruct (sb_linked _ _ _ _ _ Hb1) as [L1 L2 L3 L4 L5 L6]. split; try done. by constructor. }
  assert (Ho2 : opened s2 i (answered_more resp x) k).
  { eapply opened_logged; [exact Ho1| |done|done]. cbn. by rewrite Z.eqb_refl, (op_open _ _ _ _ Ho1). }
  apply (goes_on_from g0 before st st s s2); [done|exact (touches_kept i s s1 T)|]. eapply goes_on_reply; [exact Hb2|].
  eapply (send_response_ok s2 i (answered_more resp x) k req); try done; change (client s2 i) with (client s1 i); rewrite ?Hc1; try done.
  unfold entitled. cbn [answered_more ex_asked ex_answers ex_received]. rewrite Ha, Hans. split; [done|]. split; [done|]. split; [congruence|done].
Qed.

(** A waiting client has reserved the place of its id. *)
Lemma waiting_reserved st s j : server_ok st s -> in_table j -> cl_waiting_response (client s j) = true ->
  0 < cl_request_id (client s j) /\ cl_request_id (client s j) ∈ hs_outstanding s /\ exists x k, opened s j x k /\ waiting_ok (hs_keys s) (client s j) x.
Proof.
  intros Hs Hj Hw. destruct (server_split g0 before j st s Hs Hj) as (Hb & Hslot & Ha & _).
  split; [by destruct (waiting_request g0 before st s j (sb_linked _ _ _ _ _ Hs) Hj Hslot Hw)|]. split; [by apply Ha|].
  destruct Hslot as [[_ _ _ _ _ [Hw' _] _]|(x & k & Ho & [[[Hw' _] _ _]|[Hwok|[[Hw' _] _ _ _ _]]])]; [congruence|congruence|by exists x, k|congruence].
Qed.

(** The search for the client that waits. *)
Lemma find_waiting s id : table_ok s -> (forall j, in_table j -> cl_waiting_response (client s j) = true -> 0 <= cl_fd (client s j)) ->
  match list_find (fun c => http.waits_for id c = true) (hs_clients s) with
  | Some (n, _) => in_table (Z.of_nat n) /\ cl_waiting_response (client s (Z.of_nat n)) = true /\ cl_request_id (client s (Z.of_nat n)) = id
  | None => forall j, in_table j -> cl_waiting_response (client s j) = true -> cl_request_id (client s j) <> id
  end.
Proof.
  intros Ht Hfd. destruct (list_find _ (hs_clients s)) as [[n c]|] eqn:Ef.
  - apply list_find_Some in Ef as (Hn & Hc & _). assert (Hi : in_table (Z.of_nat n)) by (apply lookup_lt_Some in Hn; destruct Ht; unfold in_table; lia).
    pose proof (lookup_client s _ Ht Hi) as Hcl. rewrite Nat2Z.id, Hn in Hcl. injection Hcl as <-. unfold http.waits_for in Hc.
    apply andb_true_iff in Hc as [Hc Hrid]. apply andb_true_iff in Hc as [_ Hw]. by apply Z.eqb_eq in Hrid.
  - intros j Hj Hw E. rewrite list_find_None, Forall_forall in Ef.
    assert (Hin : client s j ∈ hs_clients s) by (eapply list_elem_of_lookup_2, lookup_client; done). apply (Ef _ Hin). unfold http.waits_for. rewrite Hw, E, Z.eqb_refl.
    specialize (Hfd j Hj Hw). destruct (Z.ltb_spec (cl_fd (client s j)) 0); [lia|done].
Qed.

Lemma deliver_ok st st1 s b resp env : server_ok st s -> linked g0 before st1 (with_bridge b s) -> bn_gateway st1 = bn_gateway st ->
  bn_taken st1 = bn_taken st ++ [resp] -> (length (rp_positions resp) <= 512)%nat -> goes_on st s (http.deliver resp env (with_bridge b s)).
Proof.
  intros Hs Hl Hg Htk Hlen. unfold http.deliver, http.release_response_id. set (id := rp_request_id resp). set (s1 := with_bridge b s) in *.
  pose proof (sb_table _ _ _ _ _ Hs) as Ht. assert (Hres := fun j => waiting_reserved st s j Hs).
  assert (Hstay : (forall j, in_table j -> cl_waiting_response (client s j) = true -> cl_request_id (client s j) <> id) -> goes_on st s (Some s1)).
  { intros Hno. apply (goes_on_from g0 before st st1 s s1); [done|done|]. apply goes_on_here. by eapply (nobody_waits st st1 s s1 resp). }
  destruct (Z.eqb_spec id 0) as [E0|Hid]; cbn [negb].
  { apply Hstay. intros j Hj Hw. destruct (Hres j Hj Hw). lia. }
  change (hs_outstanding s1) with (hs_outstanding s). destruct (http.replace_first id 0 (hs_outstanding s)) as [l|] eqn:El; cbn [negb].
  2:{ apply Hstay. intros j Hj Hw E. destruct (Hres j Hj Hw) as (_ & Hin & _). rewrite E in Hin. destruct (replace_first_is_Some id 0 _ Hin) as [? ?]. congruence. }
  destruct (replace_first_spec _ _ _ _ El) as [_ Hold]. set (s2 := with_outstanding l s1). assert (Hl2 : linked g0 before st1 s2) by by eapply linked_same.
  assert (Hkeep : forall i, (forall j, in_table j -> j <> i -> cl_waiting_response (client s j) = true -> cl_request_id (client s j) <> id) -> server_but i st s -> server_but i st1 s2).
  { intros i Hno Hb. eapply but_inner; [exact Hb|done|done|apply Hs|]. intros j Hj Hji Ha Hw. destruct (Ha Hw) as [Hin Hnot]. split; [by apply Hold; [|apply Hno]|].
    rewrite Htk, fmap_app. apply not_elem_of_app. split; [done|]. cbn. intros Heq%list_elem_of_singleton. by apply (Hno j Hj Hji Hw). }
  apply (goes_on_from g0 before st st1 s s2); [done|done|].
  pose proof (find_waiting s id Ht) as Hfind. change (hs_clients s2) with (hs_clients s). destruct (list_find _ (hs_clients s)) as [[n c]|].
  - destruct Hfind as (Hi & Hw & Hrid). { intros j Hj Hw. destruct (Hres j Hj Hw) as (_ & _ & x & k & Ho & _). apply Ho. }
    destruct (Hres _ Hi Hw) as (_ & _ & x & k & Ho & Hwok). destruct (server_split g0 before (Z.of_nat n) st s Hs Hi) as (Hb & _ & _ & Hap).
    eapply (deliver_to st1 s2 _ x k); try done.
    + apply Hkeep; [|done]. intros j Hj Hji Hwj E. apply (Hap j Hj Hji Hw Hwj). congruence.
    + destruct (inner_slot s s2 (Z.of_nat n) eq_refl) as (_ & _ & _ & Hop). by apply Hop.
    + rewrite Htk. set_solver.
  - apply goes_on_here. apply Hkeep; [|exact Hs]. intros j Hj _. apply Hfind; [|done]. intros j' Hj' Hw'. destruct (Hres j' Hj' Hw') as (_ & _ & x & k & Ho & _). apply Ho.
Qed.

Lemma drain_ok n env : forall st s, server_ok st s -> goes_on st s (http.drain_responses n env s).
Proof.
  induction n as [|n IH]; intros st s Hs; cbn [http.drain_responses]; [by apply goes_on_here|].
  destruct (take_step st s Hs) as (Hg & Hl & Htk & Hlen). destruct (bridge.try_take_response (hs_bridge s)) as [[resp|] b]; cbn [fst snd option_list] in *.
  - apply goes_on_bind; [|intros; by apply IH]. eapply deliver_ok; [exact Hs|exact Hl|exact Hg|exact Htk|by apply Hlen].
  - by apply goes_on_here.
Qed.

(** Delivering leaves the bridge alone, so that a turn takes every response that
    is queued. *)
Definition same_bridge (s : HttpServer) (r : option HttpServer) : Prop := forall s', r = Some s' -> hs_bridge s' = hs_bridge s.

Lemma release_bridge i s : hs_bridge (http.release_positions_body i s) = hs_bridge s.
Proof. unfold http.release_positions_body. destruct (negb _); [done|]. by destruct (hs_body_owner s =? i). Qed.

Lemma close_bridge i s : hs_bridge (http.close_client i s) = hs_bridge s.
Proof. unfold http.close_client. rewrite <- (release_bridge i s). by destruct (0 <=? _). Qed.

Lemma flush_bridge i outcomes s : same_bridge s (http.flush_client i outcomes s).
Proof.
  intros s'. unfold http.flush_client. cbn zeta.
  destruct (_ || _); [by intros [= <-]|].
  case_if; [|case_if; [|intros [= <-]; apply close_bridge]];
    (destruct (slice _ _ _); cbn [mbind option_bind]; [|done]; destruct (http.send_once outcomes); try case_if; intros [= <-]; done || apply close_bridge).
Qed.

Lemma inline_bridge i status reason body env s : same_bridge s (http.queue_inline_json i status reason body env s).
Proof.
  intros s'. unfold http.queue_inline_json. cbn zeta. destruct (_ <? 0); [by intros [= <-]|]. rewrite <- (release_bridge i s).
  destruct (_ || _); [intros [= <-]; apply close_bridge|]. destruct (memcpy _ 0 _); cbn [mbind option_bind]; [|done]. destruct (memcpy _ _ _); cbn [mbind option_bind]; [|done].
  intros Hf. by rewrite (flush_bridge _ _ _ _ Hf).
Qed.

Lemma positions_bridge i resp env s : same_bridge s (http.queue_positions_json i resp env s).
Proof.
  intros s'. unfold http.queue_positions_json. destruct (_ || _); [by intros [= <-]|]. destruct (http.positions_text _ _ _); [|apply inline_bridge].
  destruct (_ <? _); [apply inline_bridge|]. destruct (memcpy (hs_body s) _ _); cbn [mbind option_bind]; [|done].
  destruct (_ <=? _); [intros Hf; by rewrite (inline_bridge _ _ _ _ _ _ _ Hf)|]. destruct (memcpy _ _ _); cbn [mbind option_bind]; [|done].
  intros Hf. by rewrite (flush_bridge _ _ _ _ Hf).
Qed.

Lemma deliver_bridge resp env s : same_bridge s (http.deliver resp env s).
Proof.
  intros s'. unfold http.deliver, http.release_response_id. destruct (_ =? 0); cbn [negb]; [by intros [= <-]|].
  destruct (http.replace_first _ _ _); cbn [negb]; [|by intros [= <-]]. destruct (list_find _ _) as [[n c]|]; [|by intros [= <-]].
  unfold http.send_response. case_bool_decide; [intros Hf; by rewrite (positions_bridge _ _ _ _ _ Hf)|].
  destruct (_ <=? _); intros Hf; by rewrite (inline_bridge _ _ _ _ _ _ _ Hf).
Qed.

Lemma expire_bridge now env l : forall s, same_bridge s (http.each_client l (http.expire_client now env) s).
Proof.
  induction l as [|i l IH]; intros s s'; cbn [http.each_client]; [by intros [= <-]|].
  destruct (http.expire_client now env s i) as [s1|] eqn:E; cbn [mbind option_bind]; [|done]. intros Hl. rewrite (IH _ _ Hl). clear Hl. revert E.
  unfold http.expire_client. destruct (_ || _); [by intros [= <-]|]. destruct (cl_sending_response _); [intros [= <-]; apply close_bridge|].
  destruct (cl_waiting_response _); apply inline_bridge.
Qed.

Lemma drain_takes_all n env : forall s s' Q R D, bridge_holds (hs_bridge s) Q R D -> (length R <= n)%nat -> http.drain_responses n env s = Some s' ->
  bridge_holds (hs_bridge s') Q [] D.
Proof.
  induction n as [|n IH]; intros s s' Q R D Hb Hn; cbn [http.drain_responses]; [intros [= <-]; destruct R; [done|cbn in Hn; lia]|].
  destruct (take_spec _ _ _ _ Hb) as [Hr Hb']. destruct (bridge.try_take_response (hs_bridge s)) as [r b]. cbn [fst snd] in *. subst r.
  destruct R as [|resp R]; [by intros [= <-]|]. cbn [head tail length] in *.
  destruct (http.deliver resp (env n) (with_bridge b s)) as [s1|] eqn:E; cbn [mbind option_bind]; [|done].
  apply (IH _ _ _ R); [by rewrite (deliver_bridge _ _ _ _ E)|lia].
Qed.

(** ** Deadlines *)
Lemma expire_ok st s i now env : server_ok st s -> in_table i -> goes_on st s (http.expire_client now env s i).
Proof.
  intros Hs Hi. unfold http.expire_client. destruct (server_split g0 before i st s Hs Hi) as (Hb & Hslot & _).
  destruct (_ || _) eqn:Eg; [by apply goes_on_here|]. apply orb_false_iff in Eg as [Hfd _].
  destruct Hslot as [[_ _ _ _ Hfd' _ _]|(x & k & Ho & [Hr|[Hw|Hsend]])]; [lia| | |].
  - pose proof Hr as [(-> & -> & _) (Ha & Hans & Hx) _]. eapply goes_on_reply; [exact Hb|]. refuse.
  - pose proof Hw as [[-> ->] (req & Ha & Hans & Hx & Hreq & Hne & _) _]. eapply goes_on_reply; [exact Hb|].
    eapply queue_inline_ok; [exact Ho|done|split; by vm_compute|]. unfold entitled. rewrite Ha, Hans. split; [done|]. unfold unanswered_reply. by rewrite bool_decide_eq_false_2.
  - pose proof Hsend as [[-> ->] _ _ _ _]. eapply goes_on_reply; [exact Hb|]. eexists. split; [done|]. eapply close_settled; [done|].
    eapply live_good; [rewrite (op_same _ _ _ _ Ho); apply Ho|by right; right].
Qed.

Lemma each_client_ok l (f : HttpServer -> Z -> option HttpServer) : Forall in_table l -> (forall st s i, server_ok st s -> in_table i -> goes_on st s (f s i)) ->
  forall st s, server_ok st s -> goes_on st s (http.each_client l f s).
Proof.
  intros Hl Hf. induction Hl as [|i l Hi Hl IH]; intros st s Hs; cbn [http.each_client]; [by apply goes_on_here|].
  apply goes_on_bind; [by apply Hf|]. intros st' s' Hs' _ _. by apply IH.
Qed.

Lemma table_range s : table_ok s -> Forall in_table (zrange 0 (length (hs_clients s))).
Proof. intros [-> _ _]. apply Forall_forall. intros i Hi. apply list_elem_of_fmap in Hi as (n & -> & Hn). apply elem_of_seq in Hn. unfold in_table. lia. Qed.

Lemma expire_clients_ok st s now env : server_ok st s -> goes_on st s (http.expire_clients now env s).
Proof. intros Hs. apply each_client_ok; [eapply table_range, Hs|intros; by apply expire_ok|done]. Qed.

(** ** Polled clients *)
Definition input_ok (input : http.TurnInput) : Prop :=
  (forall i, bytes_ok (snd (http.ti_recv input i))) /\ Forall (fun o => match o with http.Accepted fd _ _ => 0 <= fd | _ => True end) (http.ti_accept input).

Lemma flush_goes_on st s i outs : server_ok st s -> in_table i -> goes_on st s (if cl_sending_response (client s i) && outs.1 then http.flush_client i outs.2 s else Some s).
Proof.
  intros Hs Hi. destruct (cl_sending_response (client s i)) eqn:Es; cbn [andb]; [|by apply goes_on_here]. destruct outs.1; [|by apply goes_on_here].
  destruct (server_split g0 before i st s Hs Hi) as (Hb & [[_ _ _ _ _ (_ & Hs' & _) _]|(x & k & Ho & Hlive)] & _); [congruence|].
  destruct Hlive as [[(_ & Hs' & _) _ _]|[[[_ Hs'] _ _]|Hsend]]; [congruence|congruence|]. eapply goes_on_reply; [exact Hb|]. by eapply flush_ok.
Qed.

Lemma read_goes_on st s i (ready : bool) recvs inbox env : server_ok st s -> in_table i -> bytes_ok inbox ->
  goes_on st s (if (0 <=? cl_fd (client s i)) && negb (cl_sending_response (client s i)) && negb (cl_waiting_response (client s i)) && ready
     then r ← http.read_client i recvs inbox env s; Some (snd r) else Some s).
Proof.
  intros Hs Hi Hin. destruct (_ && ready) eqn:Eg; [|by apply goes_on_here]. apply andb_true_iff in Eg as [Eg _]. apply andb_true_iff in Eg as [Eg Hw]. apply andb_true_iff in Eg as [Hfd Hse].
  apply negb_true_iff in Hw, Hse. destruct (server_split g0 before i st s Hs Hi) as (Hb & [[_ _ _ _ Hfd' _ _]|(x & k & Ho & Hlive)] & _); [lia|].
  destruct Hlive as [Hr|[[[Hw' _] _ _]|[[_ Hs'] _ _ _ _]]]; [|congruence|congruence].
  destruct (read_client_ok g0 before i st s x k recvs inbox env Hb Ho Hr Hin) as (inbox' & r & -> & Hg). by destruct r.
Qed.

Lemma close_goes_on st s i : server_ok st s -> in_table i -> goes_on st s (Some (http.close_client i s)) /\ cl_fd (client (http.close_client i s) i) < 0.
Proof.
  intros Hs Hi. destruct (server_split g0 before i st s Hs Hi) as (Hb & [Hf|(x & k & Ho & Hlive)] & _).
  - destruct (close_free s i Hf) as [T F]. split; [|apply F]. eapply goes_on_reply; [exact Hb|]. eexists. split; [done|]. split; [done|by left].
  - assert (Hg : exchange_good (hs_keys s) x) by (eapply live_good; [rewrite (op_same _ _ _ _ Ho); apply Ho|done]).
    destruct (close_opened s i x k Ho Hg) as [T F]. split; [|apply F]. eapply goes_on_reply; [exact Hb|]. eexists. split; [done|]. split; [done|by left].
Qed.

Lemma serve_client_ok input st s i : input_ok input -> server_ok st s -> in_table i -> goes_on st s (http.serve_client input s i).
Proof.
  intros [Hin _] Hs Hi. unfold http.serve_client. case_if; [by apply goes_on_here|].
  apply goes_on_bind; [apply (flush_goes_on st s i (http.has (http.ti_revents input i) POLLOUT, http.ti_send input i) Hs Hi)|]. intros st1 s1 Hs1 _ _.
  apply goes_on_bind; [by apply read_goes_on|]. intros st2 s2 Hs2 _ _. case_if; [by apply close_goes_on|by apply goes_on_here].
Qed.

(** ** Accepting *)

(** An event that belongs to no slot. *)
Lemma outside_ok st s e : server_ok st s -> match e with EvRefused _ _ | EvDropped _ => True | _ => False end -> server_ok st (logged e s).
Proof.
  intros Hs He. eapply but_event; [exact Hs|done|done|by destruct e| |done]. eapply linked_same; [apply Hs|done..| |]; by destruct e.
Qed.

Lemma admit_ok st s i fd deadline : server_ok st s -> in_table i -> cl_fd (client s i) < 0 -> 0 <= fd ->
  server_ok st (logged (EvAccepted i fd) (upd_client i (reset_client fd deadline) s)).
Proof.
  intros Hs Hi Hfree Hfd. destruct (server_split g0 before i st s Hs Hi) as (Hb & [Hf|(x & k & Ho & _)] & _); [|pose proof (op_fd _ _ _ _ Ho); lia].
  pose proof Hf as [_ Ht Hsz Hown _ _ Hpast]. set (s1 := upd_client i (reset_client fd deadline) s). set (s2 := logged (EvAccepted i fd) s1).
  assert (Hc : client s2 i = reset_client fd deadline (client s i)) by by apply (client_upd_table i (reset_client fd deadline) s).
  assert (T : touches i s s1) by apply touches_upd. assert (Ht1 : table_ok s1) by by apply table_upd.
  assert (Hb1 : server_but i st s1) by by eapply but_touches.
  assert (Hb2 : server_but i st s2) by (eapply but_event; [exact Hb1|done|done|done| |done]; by eapply linked_same; [apply Hb1|done..]).
  set (x := mkExchange fd [] [] [] [] false). assert (Hst : story i (hs_log s2) = x :: story i (hs_log s)) by (cbn; by rewrite Z.eqb_refl).
  assert (Ho : opened s2 i x (story i (hs_log s))).
  { split; rewrite ?Hc; try done; [by destruct Ht1|by apply sized_reset]. }
  assert (Hr : reading_ok (client s2 i) x).
  { rewrite Hc. split; [done|done|]. split; [done| |done]. destruct Hsz as [Hl _ _]. cbn [reset_client cl_incoming x ex_received].
    destruct (cl_incoming (client s i)) as [|a junk]; [done|]. by exists junk. }
  apply (server_join g0 before i); [done|by eapply live_slot; [|left]|intros Hw; by rewrite Hc in Hw|intros j _ _ Hw; by rewrite Hc in Hw].
Qed.

Lemma acquire_free s i : table_ok s -> http.acquire_client s = Some i -> in_table i /\ cl_fd (client s i) < 0.
Proof.
  intros Ht. unfold http.acquire_client. destruct (list_find _ (hs_clients s)) as [[n c]|] eqn:Ef; [|done]. cbn. intros [= <-].
  apply list_find_Some in Ef as (Hn & Hc & _). assert (Hi : in_table (Z.of_nat n)) by (apply lookup_lt_Some in Hn; destruct Ht; unfold in_table; lia).
  split; [done|]. pose proof (lookup_client s _ Ht Hi) as Hcl. rewrite Nat2Z.id, Hn in Hcl. injection Hcl as <-. lia.
Qed.

Lemma accept_ok budget outcomes : forall st s, server_ok st s -> Forall (fun o => match o with http.Accepted fd _ _ => 0 <= fd | _ => True end) outcomes ->
  server_ok st (http.accept_clients budget outcomes s) /\ kept (http.accept_clients budget outcomes s) = kept s.
Proof.
  revert budget. induction outcomes as [|o outcomes IH]; intros budget st s Hs Ho; [by destruct budget|].
  apply Forall_cons in Ho as [Hfd Ho]. destruct budget as [|budget]; [done|]. destruct o as [fd nonblocking now| |]; cbn [http.accept_clients]; [|by apply IH|done].
  destruct nonblocking; cbn [negb].
  2:{ destruct (IH budget st (logged (EvDropped fd) s)) as [H1 H2]; [by apply outside_ok|done|]. done. }
  destruct (http.acquire_client s) as [i|] eqn:Ea.
  - destruct (acquire_free s i (sb_table _ _ _ _ _ Hs) Ea) as [Hi Hfree]. set (s1 := logged _ _).
    destruct (IH budget st s1) as [H1 H2]; [by apply admit_ok|done|]. done.
  - destruct (IH budget st (logged (EvRefused fd http.refusal) s)) as [H1 H2]; [by apply outside_ok|done|]. done.
Qed.

(** ** Turns *)
Lemma polled_ok input st s : input_ok input -> server_ok st s ->
  goes_on st s (if 0 <? http.ti_ready input
    then http.each_client (filter (fun i => (cl_fd (client s i) <? 0) = false) (zrange 0 (length (hs_clients s)))) (http.serve_client input)
      (http.accept_clients (Z.to_nat kMaxAcceptsPerTurn) (http.ti_accept input) s)
    else Some s).
Proof.
  intros Hin Hs. case_if; [|by apply goes_on_here]. destruct (accept_ok (Z.to_nat kMaxAcceptsPerTurn) (http.ti_accept input) st s Hs (proj2 Hin)) as [Hs1 Hk1].
  eapply goes_on_from; [done|exact Hk1|]. apply each_client_ok; [|intros; by apply serve_client_ok|done].
  apply Forall_forall. intros i [_ Hi]%list_elem_of_filter. pose proof (table_range s (sb_table _ _ _ _ _ Hs)) as Hr. rewrite Forall_forall in Hr. by apply Hr.
Qed.

Lemma turn_ok input st s : input_ok input -> server_ok st s -> goes_on st s (http.turn input s).
Proof.
  intros Hin Hs. unfold http.turn. apply goes_on_bind; [by apply polled_ok|].
  intros st1 s1 Hs1 _ _. apply goes_on_bind; [by apply drain_ok|]. intros st2 s2 Hs2 _ _. by apply expire_clients_ok.
Qed.

(** A turn takes every response that the queue held. *)
Lemma turn_takes_all input st s s' : input_ok input -> server_ok st s -> http.turn input s = Some s' -> bridge_ready (hs_bridge s') = [].
Proof.
  intros Hin Hs. unfold http.turn. set (polled := filter _ _). set (first := if 0 <? _ then _ else _).
  assert (H1 : goes_on st s first) by by apply polled_ok. destruct H1 as (st1 & s1 & -> & Hs1 & _). cbn [mbind option_bind].
  destruct (http.drain_responses _ _ s1) as [s2|] eqn:E; cbn [mbind option_bind]; [|done].
  destruct (sb_linked _ _ _ _ _ Hs1) as [[ops Eops] Hbr _ _ _ _]. destruct (bridge_history_serial ops g0) as (es & Q & W & [(R & D & Hb & _) _ _]).
  rewrite <- Eops, Hbr in Hb. destruct (bridge_bounds _ _ _ _ Hb) as [_ HR].
  assert (Hle : (length R <= Z.to_nat kResponseCapacity)%nat) by (unfold kResponseCapacity; lia). pose proof (drain_takes_all _ _ _ _ _ _ _ Hb Hle E) as Hb2.
  intros Hx. rewrite (expire_bridge _ _ _ _ _ Hx). by destruct (bridge_contents _ _ _ _ Hb2) as (_ & -> & _).
Qed.

(** ** Start and stop *)
Definition all_free (s : HttpServer) : Prop := forall i, in_table i -> cl_fd (client s i) < 0.

Lemma close_loop_ok l : forall st s, server_ok st s -> Forall in_table l ->
  let s' := foldl (fun s i => http.close_client i s) s l in
  server_ok st s' /\ kept s' = kept s /\ length (hs_clients s') = length (hs_clients s) /\ (forall i, in_table i -> cl_fd (client s i) < 0 \/ i ∈ l -> cl_fd (client s' i) < 0).
Proof.
  induction l as [|i l IH]; intros st s Hs Hl; cbn [foldl]; [split; [done|]; split; [done|]; split; [done|]; intros i _ [?|?%not_elem_of_nil]; done|].
  apply Forall_cons in Hl as [Hi Hl].
  destruct (server_split g0 before i st s Hs Hi) as (Hb & Hslot & _).
  assert (Hclose : touches i s (http.close_client i s) /\ free (http.close_client i s) i).
  { destruct Hslot as [Hf|(x & k & Ho & Hlive)]; [by apply close_free|]. eapply close_opened; [done|].
    eapply live_good; [rewrite (op_same _ _ _ _ Ho); apply Ho|done]. }
  destruct Hclose as [T F]. assert (Hs1 : server_ok st (http.close_client i s)) by (eapply server_reply; [exact Hb|done|by left]).
  destruct (IH st _ Hs1 Hl) as (H1 & H2 & H3 & H4). split; [done|]. split; [rewrite H2; by eapply touches_kept|]. split; [rewrite H3; apply T|].
  intros j Hj Hor. apply H4; [done|]. destruct (decide (j = i)) as [->|Hne]; [left; apply F|]. rewrite (lc_clients _ _ _ T j Hne).
  destruct Hor as [?|[->|?]%elem_of_cons]; [by left|done|by right].
Qed.

Lemma close_all_ok st s : server_ok st s -> server_ok st (http.close_all_clients s) /\ kept (http.close_all_clients s) = kept s /\ all_free (http.close_all_clients s).
Proof.
  intros Hs. unfold http.close_all_clients. destruct (close_loop_ok (zrange 0 (length (hs_clients s))) st s Hs) as (H1 & H2 & _ & H4); [apply table_range, Hs|].
  split; [done|]. split; [done|]. intros i Hi. apply H4; [done|]. right. destruct (sb_table _ _ _ _ _ Hs) as [Hl _ _]. apply list_elem_of_fmap. exists (Z.to_nat i).
  unfold in_table in Hi. split; [lia|]. apply elem_of_seq. lia.
Qed.

Lemma thread_ok st s a b c : server_ok st s -> server_ok st (with_thread a b c s).
Proof. intros Hs. eapply but_inner; [exact Hs|done|by eapply linked_same; [apply Hs|done..]|apply Hs|done]. Qed.

Lemma serve_exit_ok st s : server_ok st s -> server_ok st (http.serve_exit s) /\ all_free (http.serve_exit s) /\ hs_keys (http.serve_exit s) = hs_keys s.
Proof.
  intros Hs. destruct (close_all_ok st s Hs) as (H1 & H2 & H3). unfold http.serve_exit, http.close_socket. split; [by do 2 apply thread_ok|]. split; [done|]. by injection H2.
Qed.

(** With every slot free the reservations can be forgotten. *)
Lemma forget_ok st s : server_ok st s -> all_free s -> server_ok st (with_body (hs_body s) 0 kNoClientSlot (with_outstanding (replicate (length (hs_outstanding s)) 0) s)).
Proof.
  intros Hs Hfree. pose proof Hs as [[T1 T2 T3] H2 H3 H4 H5 H6].
  assert (Hslots : forall j, in_table j -> free s j).
  { intros j Hj. destruct (H4 j Hj ltac:(unfold in_table in Hj; lia)) as [?|(x & k & Ho & _)]; [done|]. pose proof (op_fd _ _ _ _ Ho). specialize (Hfree j Hj). lia. }
  split; [split; cbn; done || lia|by eapply linked_same|done| | |done].
  - intros j Hj _. left. destruct (Hslots j Hj) as [F1 [F2 F2' F2''] F3 F4 F5 F6 F7].
    split; [done|split; cbn; done || lia|done|cbn; by apply not_eq_sym, in_table_kNo|done..].
  - intros j Hj _ Hw. destruct (Hslots j Hj) as [_ _ _ _ _ (Hw' & _) _]. change (cl_waiting_response (client s j) = true) in Hw. congruence.
Qed.

End turn.
