(* ===== verification/HttpHistory.v ===== *)
(** * Histories of the HTTP server

    The server with its peers, the WebSocket server beside it and the owner of
    the gateway on the other side of the bridge, in any order of their steps.
    What every peer then sees, and what was executed for it. *)
From Stdlib Require Import ZArith Lia ZifyBool.
From Stdlib Require String Ascii.
From S2P Require Import Prelude Numeric Bytes Text Config Ring Guards Reconcile Recovery AuditLog ExecTypes Risk Gateway GatewayBooks.
From S2P Require Import WsFill WsFrame WsKey WsServer WsWorker HttpWire HttpRequest HttpHeaders HttpJson HttpKeys HttpBridge HttpServer HttpExchange HttpConn HttpRead HttpInvariant HttpDispatch HttpTurn.
Import String.StringSyntax.
#[local] Delimit Scope string_scope with str.

Section history.
Context {AJ RJ : Type} `{Journal AJ AuditEvent} `{Journal RJ RecoveryEvent}.
Abbreviation Gateway := (ExecutionGateway AJ RJ).

(** ** Steps *)
Inductive http_op :=
  | HStart (listener : option Z) (thread_ok : bool)
  | HTurn (input : http.TurnInput)            (* one pass of [serve] *)
  | HExit                                     (* [poll] failed *)
  | HStop
  | HWebsocket (w : Server)                   (* what the WebSocket worker made of its server *)
  | HOwner (packet : OutboundPacket) (now : Z)  (* [process_one] *)
  | HGateway (op : gateway_op).               (* the owner's other calls *)

Definition op_ok (op : http_op) : Prop :=
  match op with
  | HTurn input => input_ok input
  | HWebsocket w => websocket_ok (Some w)
  | _ => True
  end.

Definition http_step (op : http_op) (s : HttpServer) (g : Gateway) : option (HttpServer * Gateway) :=
  match op with
  | HStart listener thread_ok => Some ((http.start listener thread_ok s).2, g)
  | HTurn input => if hs_running s then s ← http.turn input s; Some (s, g) else Some (s, g)
  | HExit => Some (if hs_running s then http.serve_exit s else s, g)
  | HStop => Some (http.stop s, g)
  | HWebsocket w => Some (match hs_websocket s with Some _ => with_websocket (Some w) s | None => s end, g)
  | HOwner packet now => let '(_, _, _, b, g) := bridge.process_one packet now (hs_bridge s) g in Some (with_bridge b s, g)
  | HGateway op => Some (s, (gateway_step op g).2)
  end.

Fixpoint http_run (ops : list http_op) (s : HttpServer) (g : Gateway) : option (HttpServer * Gateway) :=
  match ops with
  | [] => Some (s, g)
  | op :: ops => r ← http_step op s g; http_run ops r.1 r.2
  end.

(** ** The invariant over a history *)
Context (g0 : Gateway) (before : list bridge_op).

(** The bridge and the gateway as earlier servers left them. *)
Definition left_over : @bridge_run AJ RJ := bridge_history before g0.

Record start_ok (config : ServerConfig) (next_request_id : Z) (websocket : option Server) : Prop := {
  st_order_id : 0 <= cf_first_order_id config <= UINT32_MAX;
  st_request_id : given_out next_request_id UINT64_MAX (answered_ids (bn_admitted left_over));
  st_websocket : websocket_ok websocket;
}.

Record run_ok (keys : BearerKeyStore) (s : HttpServer) (g : Gateway) : Prop := {
  rn_server : exists st, server_ok g0 (bn_admitted left_over) st s /\ bn_gateway st = g;
  rn_keys : hs_keys s = keys;
  rn_running : hs_running s = true -> hs_joinable s = true;
  rn_idle : hs_running s = false -> all_free s;
}.

Lemma new_ok keys config next websocket : start_ok config next websocket ->
  run_ok keys (http_new keys config next websocket (bn_bridge left_over)) (bn_gateway left_over).
Proof.
  intros [H1 H2 H3]. set (s := http_new _ _ _ _ _). assert (Hc : forall i, client s i = client_init).
  { intros i. unfold client, lget. case_if; [|done]. cbn [s http_new hs_clients]. destruct (decide (Z.to_nat i < 64)%nat) as [Hlt|Hge].
    - by rewrite lookup_replicate_2.
    - by rewrite lookup_ge_None_2 by (rewrite length_replicate; lia). }
  assert (Ht : table_ok s) by (split; [done|cbn [s http_new hs_body]; rewrite length_replicate; by vm_compute|cbn; lia]).
  split; [|done|done|intros _ i _; by rewrite Hc]. exists left_over. split; [|done]. split; [done| |done| | |].
  - split; [by exists before|done|cbn; by rewrite app_nil_r|constructor| |cbn; by rewrite app_nil_r]. split; [done|constructor|constructor].
  - intros j Hj _. left. split; rewrite ?Hc; try done; [|by apply not_eq_sym, in_table_kNo].
    split; [done|done|]. apply (bool_decide_unpack _). by vm_compute.
  - intros j _ _. by rewrite Hc.
  - intros j j' _ _ _ _ _. by rewrite !Hc.
Qed.

Lemma owner_ok st s packet now : server_ok g0 (bn_admitted left_over) st s ->
  let '(_, _, _, b, g) := bridge.process_one packet now (hs_bridge s) (bn_gateway st) in
  exists st', server_ok g0 (bn_admitted left_over) st' (with_bridge b s) /\ bn_gateway st' = g.
Proof.
  intros Hs. destruct (sb_linked _ _ _ _ _ Hs) as [L1 L2 L3 L4 L5 L6]. destruct (bridge.process_one packet now (hs_bridge s) (bn_gateway st)) as [[[[ok ac] p] b] g] eqn:E.
  exists (bridge_step st (BProcess packet now)). cbn [bridge_step]. rewrite L2, E. split; [|done]. eapply but_inner; [exact Hs|done| |apply Hs|done]. split; try done.
  destruct L1 as [ops ->]. exists (ops ++ [BProcess packet now]). unfold bridge_history. rewrite foldl_app. fold (bridge_history ops g0). cbn [foldl bridge_step]. by rewrite L2, E.
Qed.

Lemma gateway_op_ok st s op : server_ok g0 (bn_admitted left_over) st s ->
  exists st', server_ok g0 (bn_admitted left_over) st' s /\ bn_gateway st' = (gateway_step op (bn_gateway st)).2.
Proof.
  intros Hs. destruct (sb_linked _ _ _ _ _ Hs) as [L1 L2 L3 L4 L5 L6]. exists (bridge_step st (BOwner op)). split; [|done].
  eapply but_inner; [exact Hs|done| |apply Hs|done]. split; try done.
  destruct L1 as [ops ->]. exists (ops ++ [BOwner op]). unfold bridge_history. by rewrite foldl_app.
Qed.

Lemma http_start_ok keys s g listener ok : run_ok keys s g -> run_ok keys (http.start listener ok s).2 g.
Proof.
  intros [(st & Hs & Hg) Hk Hr Hi]. unfold http.start. destruct (_ || negb (cf_bind_address _)) eqn:Eg; cbn [snd]; [split; try done; by exists st|].
  apply orb_false_iff in Eg as [Eg _]. apply orb_false_iff in Eg as [Er Ej]. specialize (Hi Er). pose proof (forget_ok g0 _ st s Hs Hi) as Hf.
  destruct listener as [fd|]; [destruct ok|]; cbn [snd]; (split; [exists st; split; [by apply thread_ok|done]|done|cbn; by rewrite ?Er|done]).
Qed.

Lemma http_stop_ok keys s g : run_ok keys s g -> run_ok keys (http.stop s) g.
Proof.
  intros [(st & Hs & Hg) Hk Hr Hi]. unfold http.stop. destruct (hs_joinable s) eqn:Ej.
  - pose proof (thread_ok g0 _ st s (hs_listener s) false true Hs) as Hs'. destruct (serve_exit_ok g0 _ st _ Hs') as (H1 & H2 & H3).
    split; [exists st; split; [by apply thread_ok|done]| |done|done]. cbn in H3 |- *. congruence.
  - split; [exists st; split; [by apply thread_ok|done]|done|done|]. intros _. apply Hi. destruct (hs_running s); [specialize (Hr eq_refl); congruence|done].
Qed.

Lemma http_step_ok keys op s g : op_ok op -> run_ok keys s g -> exists s' g', http_step op s g = Some (s', g') /\ run_ok keys s' g'.
Proof.
  intros Hop Hrun. pose proof Hrun as [(st & Hs & Hg) Hk Hr Hi]. destruct op as [listener ok|input| | |w|packet now|op]; cbn [http_step].
  - eexists _, _. split; [done|]. by apply http_start_ok.
  - destruct (hs_running s) eqn:Er; [|by eexists _, _]. destruct (turn_ok g0 _ input st s Hop Hs) as (st' & s' & -> & Hs' & Hg' & Hk'). cbn [mbind option_bind].
    eexists _, _. split; [done|]. injection Hk' as K1 _ _ K2 K3. split; [exists st'; split; [done|congruence]|congruence|rewrite K3; auto|congruence].
  - destruct (hs_running s) eqn:Er; [|by eexists _, _]. eexists _, _. split; [done|]. destruct (serve_exit_ok g0 _ st s Hs) as (H1 & H2 & H3).
    split; [by exists st|congruence|done|done].
  - eexists _, _. split; [done|]. by apply http_stop_ok.
  - eexists _, _. split; [done|]. destruct (hs_websocket s); [|done]. split; [exists st; split; [|done]|done|done|done].
    eapply but_inner; [exact Hs|done|by eapply linked_same; [apply Hs|done..]|done|done].
  - pose proof (owner_ok st s packet now Hs) as Ho. rewrite Hg in Ho. destruct (bridge.process_one packet now (hs_bridge s) g) as [[[[? ?] ?] b] g'].
    destruct Ho as (st' & Hs' & Hg'). eexists _, _. split; [done|]. split; [by exists st'|done|done|done].
  - destruct (gateway_op_ok st s op Hs) as (st' & Hs' & Hg'). eexists _, _. split; [done|]. split; [exists st'; split; [done|congruence]|done|done|done].
Qed.

Lemma http_run_ok keys ops : forall s g, Forall op_ok ops -> run_ok keys s g -> exists s' g', http_run ops s g = Some (s', g') /\ run_ok keys s' g'.
Proof.
  induction ops as [|op ops IH]; intros s g Hops Hr; cbn [http_run]; [by exists s, g|]. apply Forall_cons in Hops as [Hop Hops].
  destruct (http_step_ok keys op s g Hop Hr) as (s' & g' & -> & Hr'). cbn [mbind option_bind fst snd]. by apply IH.
Qed.

Lemma new_run_ok keys config next websocket ops : start_ok config next websocket -> Forall op_ok ops ->
  exists s g, http_run ops (http_new keys config next websocket (bn_bridge left_over)) (bn_gateway left_over) = Some (s, g) /\ run_ok keys s g.
Proof. intros Hs Hops. apply http_run_ok; [done|by apply new_ok]. Qed.

(** ** What the peers see *)
Lemma slot_exchanges st s i : server_ok g0 (bn_admitted left_over) st s -> in_table i ->
  let k := story i (hs_log s) in
  Forall (exchange_good (hs_keys s)) k /\ Forall (fun x => ex_closed x = true) (tail k) /\
  (0 <= cl_fd (client s i) <-> exists x, head k = Some x /\ ex_closed x = false /\ ex_fd x = cl_fd (client s i)).
Proof.
  intros Hs Hi k. assert (Hpast : forall l, Forall (past (hs_keys s)) l -> Forall (exchange_good (hs_keys s)) l /\ Forall (fun x => ex_closed x = true) l).
  { intros l Hl. split; (eapply Forall_impl; [exact Hl|by intros x []]). }
  destruct (server_split g0 _ i st s Hs Hi) as (_ & [Hf|(x & k' & Ho & Hlive)] & _).
  - destruct (Hpast _ (fr_past _ _ Hf)) as [H1 H2]. fold k in H1, H2. split; [done|]. destruct k as [|x k']; [split; [done|]; split; [pose proof (fr_fd _ _ Hf); lia|by intros (? & ? & _)]|].
    apply Forall_cons in H2 as [Hx H2]. split; [done|]. split; [pose proof (fr_fd _ _ Hf); lia|]. intros (x' & [= <-] & Hc & _). congruence.
  - unfold k. rewrite (op_story _ _ _ _ Ho). destruct (Hpast _ (op_past _ _ _ _ Ho)) as [H1 H2]. split; [|split; [done|]].
    + constructor; [|done]. eapply live_good; [rewrite (op_same _ _ _ _ Ho); apply Ho|done].
    + split; [|intros _; apply Ho]. intros _. exists x. split; [done|]. split; apply Ho.
Qed.

(** C7: every connection gets one response, and the one it is entitled to.
    After any sequence of turns, starts and stops, with any answers of the
    system, any bytes received, and any steps of the WebSocket server and of the
    gateway's owner in between, the server has not left a buffer, and what it
    sent on each connection, open or closed, is a prefix of the one response that
    the received bytes, the request the bridge took and the gateway's answer
    call for.  A request was taken only from a well-formed head with a token of
    the key store that asks for it; each accepted descriptor is open in one slot
    or closed, once. *)
Theorem http_exchange_exact keys config next websocket ops : start_ok config next websocket -> Forall op_ok ops ->
  exists s g, http_run ops (http_new keys config next websocket (bn_bridge left_over)) (bn_gateway left_over) = Some (s, g) /\
  forall i, in_table i ->
    let k := story i (hs_log s) in
    Forall (exchange_good keys) k /\ Forall (fun x => ex_closed x = true) (tail k) /\
    (0 <= cl_fd (client s i) <-> exists x, head k = Some x /\ ex_closed x = false /\ ex_fd x = cl_fd (client s i)).
Proof.
  intros Hs Hops. destruct (new_run_ok keys config next websocket ops Hs Hops) as (s & g & E & [(st & Hok & _) <- _ _]). exists s, g. split; [done|].
  intros i Hi. by apply (slot_exchanges st).
Qed.

(** ** What was executed for them *)
Lemma fmap_unique {A B} (f : A -> B) l x y : NoDup (f <$> l) -> x ∈ l -> y ∈ l -> f x = f y -> x = y.
Proof.
  intros Hn (i & Hi)%list_elem_of_lookup (j & Hj)%list_elem_of_lookup E.
  assert (Ei : (f <$> l) !! i = Some (f x)) by by rewrite list_lookup_fmap, Hi. assert (Ej : (f <$> l) !! j = Some (f x)) by by rewrite list_lookup_fmap, Hj, E.
  pose proof (NoDup_lookup _ _ _ _ Hn Ei Ej) as ->. congruence.
Qed.

(** Requests that are answered are told apart by their ids. *)
Lemma answered_unique reqs req req' : NoDup (answered_ids reqs) -> req ∈ reqs -> req' ∈ reqs -> rq_command req <> kSubmit -> rq_command req' <> kSubmit ->
  rq_request_id req = rq_request_id req' -> req = req'.
Proof. intros Hn Hr Hr' Hc Hc'. apply (fmap_unique _ _ _ _ Hn); by apply list_elem_of_filter. Qed.

Lemma answer_id req now (g : Gateway) : rp_request_id (bridge.answer req now g).1 = rq_request_id req.
Proof. unfold bridge.answer. destruct (rq_command req); try done. by destruct (gateway.cancel_order _ now g). Qed.

Lemma requests_elem (es1 : list (serial_event)) req packet now es2 : req ∈ requests_of (es1 ++ Executed req packet now :: es2).
Proof. unfold requests_of. rewrite omap_app. cbn. set_solver. Qed.

(** The exchange of an answer: its request was executed, with that answer. *)
Lemma answered_executed st s i x resp (es : list serial_event) Q W : server_ok g0 (bn_admitted left_over) st s -> in_table i ->
  bn_admitted st = requests_of es ++ Q -> serial_run es g0 = (bn_taken st ++ W, bn_gateway st) -> x ∈ story i (hs_log s) -> ex_answers x = [resp] ->
  exists req es1 packet now es2, ex_asked x = [req] /\ es = es1 ++ Executed req packet now :: es2 /\ resp = (bridge.answer req now (serial_run es1 g0).2).1.
Proof.
  intros Hs Hi Hadm Hser Hx Hans. destruct (slot_exchanges st s i Hs Hi) as (Hgood & _). rewrite Forall_forall in Hgood. destruct (Hgood x Hx) as [_ (text & He & _)].
  unfold entitled in He. rewrite Hans in He. destruct (ex_asked x) as [|req [|? ?]] eqn:Ea; [done| |done]. destruct He as (_ & Hne & Hid & _).
  destruct (sb_linked _ _ _ _ _ Hs) as [_ _ L3 L4 _ L6]. rewrite Forall_forall in L4.
  assert (Hin : resp ∈ (serial_run es g0).1) by (rewrite Hser; apply elem_of_app; left; apply L4, (story_answered i _ x); [done|rewrite Hans; by left]).
  destruct (serial_response es g0 resp Hin) as (es1 & req' & packet & now & es2 & -> & Hne' & ->). rewrite answer_id in Hid.
  exists req', es1, packet, now, es2. split; [|done]. f_equal. eapply (answered_unique (bn_admitted left_over ++ asked (hs_log s))); try done.
  - apply L6.
  - apply elem_of_app. right. apply (story_asked i _ x); [done|]. rewrite Ea. by left.
  - rewrite <- L3, Hadm. apply elem_of_app. left. apply requests_elem.
Qed.

(** A waiting client's request or its answer is still in the bridge. *)
Lemma waiting_pending st s i (es : list serial_event) Q W : server_ok g0 (bn_admitted left_over) st s -> in_table i ->
  bn_admitted st = requests_of es ++ Q -> serial_run es g0 = (bn_taken st ++ W, bn_gateway st) -> cl_waiting_response (client s i) = true ->
  exists x req, head (story i (hs_log s)) = Some x /\ ex_asked x = [req] /\ (req ∈ Q \/ rq_request_id req ∈ rp_request_id <$> W).
Proof.
  intros Hs Hi Hadm Hser Hw. destruct (waiting_reserved g0 _ st s i Hs Hi Hw) as (_ & _ & x & k & Ho & [_ (req & Ha & _ & _ & _ & Hne & Hid & _) _]).
  exists x, req. rewrite (op_story _ _ _ _ Ho). split; [done|]. split; [done|]. destruct (sb_linked _ _ _ _ _ Hs) as [_ _ L3 _ _ _].
  assert (Hin : req ∈ requests_of es ++ Q).
  { rewrite <- Hadm, L3. apply elem_of_app. right. apply (story_asked i _ x); [rewrite (op_story _ _ _ _ Ho); by left|rewrite Ha; by left]. }
  apply elem_of_app in Hin as [Hin|Hin]; [right|by left]. destruct (server_split g0 _ i st s Hs Hi) as (_ & _ & Haw & _). destruct (Haw Hw) as [_ Hnot].
  rewrite Hid in Hnot. pose proof (serial_ids es g0) as Hids. rewrite Hser in Hids. cbn [fst] in Hids. rewrite fmap_app in Hids.
  assert (Hmem : rq_request_id req ∈ answered_ids (requests_of es)) by (unfold answered_ids; apply list_elem_of_fmap_2, list_elem_of_filter; done).
  rewrite <- Hids in Hmem. apply elem_of_app in Hmem as [?|?]; done.
Qed.

(** C8: the answers are the gateway's, and none is lost.  In every history the
    requests that the server's clients put into the bridge are executed one by one
    in that order (after those of earlier servers), all but those still in the
    request queue.  The responses of that execution are, in its order, those the
    server has taken and those in the bridge.  An exchange that was answered had
    asked for exactly one request, and its answer is the gateway's answer at the
    moment that request was executed; a client that still waits has its request in
    the request queue or its response in the bridge, so no response was taken and
    not given to a client that waits for it.  Each further turn of the running
    server takes every response that is queued.  No order id is given out twice. *)
Theorem http_answers_executed keys config next websocket ops : start_ok config next websocket -> Forall op_ok ops ->
  exists s g, http_run ops (http_new keys config next websocket (bn_bridge left_over)) (bn_gateway left_over) = Some (s, g) /\
  let pending := bridge_pending (hs_bridge s) in
  let waiting := bridge_waiting (hs_bridge s) in
  exists es taken,
    bn_admitted left_over ++ asked (hs_log s) = requests_of es ++ pending /\ serial_run es g0 = (taken ++ waiting, g) /\
    (forall i x resp, in_table i -> x ∈ story i (hs_log s) -> ex_answers x = [resp] -> resp ∈ taken /\
       exists req es1 packet now es2, ex_asked x = [req] /\ es = es1 ++ Executed req packet now :: es2 /\ resp = (bridge.answer req now (serial_run es1 g0).2).1) /\
    (forall i, in_table i -> cl_waiting_response (client s i) = true ->
       exists x req, head (story i (hs_log s)) = Some x /\ ex_asked x = [req] /\ (req ∈ pending \/ rq_request_id req ∈ rp_request_id <$> waiting)) /\
    (forall input, input_ok input -> hs_running s = true ->
       exists s', http_step (HTurn input) s g = Some (s', g) /\ bridge_ready (hs_bridge s') = []) /\
    NoDup (order_ids (asked (hs_log s))).
Proof.
  intros Hs Hops. destruct (new_run_ok keys config next websocket ops Hs Hops) as (s & g & E & [(st & Hok & Hg) _ _ _]). exists s, g. split; [done|].
  pose proof (sb_linked _ _ _ _ _ Hok) as [[bops Ebops] Hbr L3 L4 L5 _]. destruct (bridge_history_serial bops g0) as (es & Q & W & [(R & D & Hb & ->) Hadm Hser]).
  rewrite <- Ebops in *. rewrite Hbr in Hb. destruct (bridge_contents _ _ _ _ Hb) as (EQ & _ & EW). rewrite EQ, EW.
  exists es, (bn_taken st). split; [congruence|]. split; [congruence|]. split_and!.
  - intros i x resp Hi Hx Ha. split; [|by apply (answered_executed st s i x resp es Q (R ++ option_list D))].
    rewrite Forall_forall in L4. apply L4, (story_answered i _ x); [done|rewrite Ha; by left].
  - intros i Hi Hw. by apply (waiting_pending st s i es Q (R ++ option_list D)).
  - intros input Hin Hrun. cbn [http_step]. rewrite Hrun. destruct (turn_ok g0 _ input st s Hin Hok) as (st' & s' & Et & _).
    exists s'. rewrite Et. split; [done|]. by eapply turn_takes_all.
  - apply L5.
Qed.

End history.

(** ** An order and a query *)
Definition quoted (l : list Z) : list Z := (fun c => if c =? 39 then 34 else c) <$> l.
Definition demo_keys : BearerKeyStore := (keystore.add (Some [107]) keystore.fresh).2.
Definition demo_head (line : list Z) (n : Z) : list Z :=
  line ++ [32] ++ wire.version_text ++ CRLF ++ kAuthorizationHeader ++ [58; 32] ++ kBearer ++ [32; 107] ++ CRLF
  ++ wire.name_content_length ++ [58] ++ decimal n ++ CRLF ++ CRLF.
Definition demo_order : list Z := quoted (bytes_of_string "{'symbol_idx':1,'side':'buy','qty':100,'price':1500000}"%str).
Definition demo_post : list Z := demo_head (kPost ++ [32] ++ path_orders) (Z.of_nat (length demo_order)) ++ demo_order.
Definition demo_query : list Z := demo_head (kGet ++ [32] ++ path_order ++ [49]) 0.

Definition demo_env : Env := mkEnv 1000 1000 [SendBytes 7; SendBytes 1000] 9 true.
(** A turn at time [now]: the connections accepted, and what each client's
    socket has to read. *)
Definition demo_turn (now : Z) (accepted : list Z) (inbox : Z -> list Z) : http_op :=
  HTurn (http.mkInput 1 ((fun fd => http.Accepted fd true now) <$> accepted) (fun _ => Z.lor POLLIN POLLOUT) (fun _ => [SendBytes 1000])
    (fun i => ([RecvMax 20; RecvMax 4096], inbox i)) (fun _ => demo_env) (fun _ => demo_env) now (fun _ => demo_env)).
Definition demo_ops : list http_op :=
  [HStart (Some 5) true; demo_turn 0 [7; 8] (fun _ => []); demo_turn 1 [] (fun i => if i =? 0 then demo_post else demo_query);
   HOwner empty_packet 1000; HOwner empty_packet 1000; demo_turn 2 [] (fun _ => []); demo_turn 3 [] (fun _ => []); demo_turn 4 [] (fun _ => [])].
Definition demo_gateway : ExecutionGateway unit unit :=
  gateway.set_recovery_ledger (Some tt) (gateway.set_audit_log (Some tt) (gateway.init true ∅ (gateway.fresh 10)).2).
Definition demo_config : ServerConfig := mkConfig true 100 0 1.
#[local] Notation demo_left := (@left_over unit unit accepting accepting demo_gateway []).
#[local] Notation demo_run :=
  (@http_run unit unit accepting accepting demo_ops (http_new demo_keys demo_config 1 None (bn_bridge demo_left)) (bn_gateway demo_left)).

Lemma demo_start : @start_ok unit unit accepting accepting demo_gateway [] demo_config 1 None.
Proof. split; [cbn; lia| |done]. split; [lia|constructor|constructor]. Qed.

Lemma demo_ops_ok : Forall op_ok demo_ops.
Proof.
  assert (Ht : forall now accepted inbox, Forall (fun fd => 0 <= fd) accepted -> (forall i, bytes_ok (inbox i)) -> op_ok (demo_turn now accepted inbox)).
  { intros now accepted inbox Ha Hb. split; [done|]. cbn. by apply Forall_fmap. }
  assert (Hp : bytes_ok demo_post) by (apply (bool_decide_unpack _); by vm_compute).
  assert (Hq : bytes_ok demo_query) by (apply (bool_decide_unpack _); by vm_compute).
  assert (Hn : forall now, op_ok (demo_turn now [] (fun _ => []))) by (intros; apply Ht; [constructor|intros; constructor]).
  unfold demo_ops. apply Forall_cons. split; [done|]. apply Forall_cons. split; [apply Ht; [repeat constructor; lia|intros; constructor]|].
  apply Forall_cons. split; [apply Ht; [constructor|]; intros i; by destruct (i =? 0)|]. do 2 (apply Forall_cons; split; [done|]).
  do 3 (apply Forall_cons; split; [apply Hn|]). constructor.
Qed.

(** The order is accepted and the query answered. *)
Lemma http_exchange_exact_witness : exists s g, demo_run = Some (s, g) /\
  (ex_sent <$> story 0 (hs_log s)) = [reply_text 202 reason_202 (accepted_json 1)] /\ Forall (exchange_good demo_keys) (story 0 (hs_log s)) /\
  ex_closed <$> story 1 (hs_log s) = [true].
Proof.
  destruct (@http_exchange_exact unit unit accepting accepting demo_gateway [] demo_keys demo_config 1 None demo_ops demo_start demo_ops_ok) as (s & g & E & Hall).
  assert (Hi : in_table 0) by (unfold in_table; lia). pose proof (proj1 (Hall 0 Hi)) as Hg. cbv zeta in Hg. exists s, g. split; [exact E|].
  assert (Ec : (fun r => (ex_sent <$> story 0 (hs_log r.1), ex_closed <$> story 1 (hs_log r.1))) <$> demo_run = Some ([reply_text 202 reason_202 (accepted_json 1)], [true])) by (by vm_compute).
  rewrite E in Ec. apply (inj Some) in Ec. apply pair_eq in Ec as [E1 E2]. split; [exact E1|]. split; [exact Hg|exact E2].
Defined.

Lemma http_answers_executed_witness : exists s g x resp req es1 packet now es2, demo_run = Some (s, g) /\
  x ∈ story 1 (hs_log s) /\ ex_answers x = [resp] /\ os_status (rp_order resp) = kLive /\ ex_asked x = [req] /\
  resp = (bridge.answer (H0:=accepting) req now (@serial_run unit unit accepting accepting es1 demo_gateway).2).1 /\
  Executed req packet now :: es2 <> [].
Proof.
  destruct (@http_answers_executed unit unit accepting accepting demo_gateway [] demo_keys demo_config 1 None demo_ops demo_start demo_ops_ok)
    as (s & g & E & es & taken & _ & _ & Hans & _).
  assert (Ec : (fun r => (fun x => os_status ∘ rp_order <$> ex_answers x) <$> story 1 (hs_log r.1)) <$> demo_run = Some [[kLive]]) by (by vm_compute).
  rewrite E in Ec. apply (inj Some) in Ec. cbn [fst] in Ec.
  destruct (story 1 (hs_log s)) as [|x [|? ?]] eqn:Es; [done| |done]. cbn [fmap list_fmap] in Ec. injection Ec as Ec.
  destruct (ex_answers x) as [|resp [|? ?]] eqn:Ex; [done| |done]. cbn in Ec. injection Ec as Ec.
  destruct (Hans 1 x resp) as (_ & req & es1 & packet & now & es2 & Hreq & _ & Hresp); [unfold in_table; lia|rewrite Es; by left|exact Ex|].
  exists s, g, x, resp, req, es1, packet, now, es2. split; [exact E|]. split; [rewrite Es; by left|]. split; [exact Ex|]. split; [exact Ec|]. split; [exact Hreq|]. split; [exact Hresp|done].
Defined.
