(* ===== verification/Slots.v ===== *)
(** * Tables of slots with a flag

    Several classes keep their orders in an array of fixed size whose elements
    carry a flag [active]: an order goes into the first slot that is free, is
    found by a walk over the slots and leaves by clearing the flag.  What such a
    table holds is the collection of its active elements. *)
From Stdlib Require Import ZArith Lia ZifyBool.
From S2P Require Import Prelude.

(** Addition in [int64_t]; overflow is undefined. *)
Definition s64_add (a b : Z) : option Z := if (INT64_MIN <=? a + b) && (a + b <=? INT64_MAX) then Some (a + b) else None.

Section slots.
Context {T : Type} (active : T -> bool).

(** The first slot that is free. *)
Definition first_free (slots : list T) : option nat := fst <$> list_find (fun o => active o = false) slots.

(** The first active slot with a property. *)
Definition find_active (P : T -> Prop) `{forall x, Decision (P x)} (slots : list T) : option (nat * T) :=
  list_find (fun o => active o = true /\ P o) slots.

Definition actives (slots : list T) : list T := filter (fun o => active o = true) slots.

Lemma actives_app l1 l2 : actives (l1 ++ l2) = actives l1 ++ actives l2.
Proof. apply filter_app. Qed.

Lemma actives_cons x l : actives (x :: l) = if active x then x :: actives l else actives l.
Proof. unfold actives. rewrite filter_cons. by destruct (active x). Qed.

Lemma actives_elem x l : x ∈ actives l <-> active x = true /\ x ∈ l.
Proof. unfold actives. by rewrite list_elem_of_filter. Qed.

Lemma actives_length l : (length (actives l) <= length l)%nat.
Proof. apply length_filter. Qed.

(** What is done to one slot. *)
Lemma slot_split (l : list T) i x y : l !! i = Some x -> l = take i l ++ x :: drop (S i) l /\ <[i:=y]> l = take i l ++ y :: drop (S i) l.
Proof.
  intros Hi. split; [by rewrite take_drop_middle|]. apply insert_take_drop. by eapply lookup_lt_Some.
Qed.

Lemma change_slot l i x y : l !! i = Some x -> exists rest,
  actives l ≡ₚ (if active x then x :: rest else rest) /\ actives (<[i:=y]> l) ≡ₚ (if active y then y :: rest else rest).
Proof.
  intros Hi. destruct (slot_split l i x y Hi) as [E1 E2]. exists (actives (take i l) ++ actives (drop (S i) l)). split.
  - rewrite E1 at 1. rewrite actives_app, actives_cons. destruct (active x); [by rewrite Permutation_middle|done].
  - rewrite E2, actives_app, actives_cons. destruct (active y); [by rewrite Permutation_middle|done].
Qed.

Lemma fill_slot l i y : first_free l = Some i -> active y = true -> actives (<[i:=y]> l) ≡ₚ y :: actives l.
Proof.
  intros ([j x] & (Hi & Hf & _)%list_find_Some & E)%fmap_Some Hy. cbn in E. subst j. destruct (change_slot l i x y Hi) as (rest & E1 & E2).
  rewrite Hf in E1. rewrite Hy in E2. by rewrite E2, E1.
Qed.

Lemma clear_slot l i x y : l !! i = Some x -> active x = true -> active y = false -> actives l ≡ₚ x :: actives (<[i:=y]> l).
Proof. intros Hi Hx Hy. destruct (change_slot l i x y Hi) as (rest & E1 & E2). rewrite Hx in E1. rewrite Hy in E2. by rewrite E1, E2. Qed.

Lemma set_slot l i x y : l !! i = Some x -> active x = true -> active y = true -> exists rest, actives l ≡ₚ x :: rest /\ actives (<[i:=y]> l) ≡ₚ y :: rest.
Proof. intros Hi Hx Hy. destruct (change_slot l i x y Hi) as (rest & E1 & E2). rewrite Hx in E1. rewrite Hy in E2. by exists rest. Qed.

Lemma free_exists l : (length (actives l) < length l)%nat -> exists i, first_free l = Some i.
Proof.
  intros Hl. unfold first_free. destruct (list_find (fun o => active o = false) l) as [[i x]|] eqn:E; [by exists i|]. apply list_find_None in E. exfalso.
  induction E as [|x l Hx E IH]; [simpl in Hl; lia|]. rewrite actives_cons in Hl. destruct (active x); [|done]. simpl in Hl. lia.
Qed.

(** The walk finds an element if and only if one is active. *)
Lemma find_active_spec (P : T -> Prop) `{forall x, Decision (P x)} l :
  match find_active P l with
  | Some (i, x) => l !! i = Some x /\ active x = true /\ P x
  | None => forall x, x ∈ actives l -> ~ P x
  end.
Proof.
  unfold find_active. destruct (list_find _ l) as [[i x]|] eqn:E.
  - apply list_find_Some in E as (Hi & [Hx HP] & _). by split_and!.
  - apply list_find_None in E. rewrite Forall_forall in E. intros x [Ha Hin]%actives_elem HP. by apply (E x Hin).
Qed.
End slots.

Lemma zsum_perm l l' : l ≡ₚ l' -> zsum l = zsum l'.
Proof. unfold zsum. induction 1; cbn [foldr]; lia. Qed.

Lemma zsum_nonneg l : Forall (Z.le 0) l -> 0 <= zsum l.
Proof. unfold zsum. induction 1; cbn [foldr]; lia. Qed.

(** A part of the elements has a part of the sum. *)
Lemma zsum_filter_le {A} (f : A -> Z) (P Q : A -> Prop) `{forall x, Decision (P x)} `{forall x, Decision (Q x)} l :
  (forall x, x ∈ l -> P x -> Q x) -> Forall (fun x => 0 <= f x) l -> zsum (f <$> filter P l) <= zsum (f <$> filter Q l).
Proof.
  intros HPQ Hl. induction Hl as [|x l Hx Hl IH]; [done|]. rewrite !filter_cons.
  assert (IH' : zsum (f <$> filter P l) <= zsum (f <$> filter Q l)) by (apply IH; intros y Hy; apply HPQ; by right).
  specialize (HPQ x ltac:(by left)). destruct (decide (P x)), (decide (Q x)); cbn [fmap list_fmap]; rewrite ?zsum_cons; try lia. tauto.
Qed.
