(* ===== verification/Auction.v ===== *)
(** * AuctionCrossEngine (luv_auction.hpp): the opening and closing cross

    The orders of an auction and the price that the imbalance message shows.
    Sums of quantities are in [int64_t]: [None] is an overflow. *)
From Stdlib Require Import ZArith Lia ZifyBool.
From stdpp Require Import sorting.
From S2P Require Import Prelude ExecTypes Slots.

Inductive ImbalanceSide := kNone | kBuyImbalance | kSellImbalance.

Record AuctionOrder := mkAuctionOrder {
  ao_order_id : Z;                 (* uint64_t *)
  ao_symbol_idx : Z;               (* uint16_t *)
  ao_side : Z;                     (* uint8_t *)
  ao_price : Z;                    (* int64_t *)
  ao_qty : Z;                      (* int64_t *)
  ao_is_market : bool;
  ao_active : bool;
}.

Record NoiiSnapshot := mkNoii {
  no_symbol_idx : Z;
  no_indicative_match_price : Z;
  no_paired_qty : Z;
  no_imbalance_qty : Z;
  no_imbalance_side : ImbalanceSide;
  no_far_price : Z;
  no_near_price : Z;
}.

Record AuctionCrossEngine := mkAuction { au_orders : list AuctionOrder; au_order_count : Z (* size_t *) }.

Module auction.

Definition kMaxAuctionOrders : Z := 2048.

(** [AuctionOrder{}] and [NoiiSnapshot{}] *)
Definition order_init : AuctionOrder := mkAuctionOrder 0 0 exec.kBuy 0 0 false false.
Definition noii_init : NoiiSnapshot := mkNoii 0 0 0 0 kNone 0 0.

Definition fresh : AuctionCrossEngine := mkAuction (replicate (Z.to_nat kMaxAuctionOrders) order_init) 0.

Definition deactivate (o : AuctionOrder) : AuctionOrder :=
  mkAuctionOrder (ao_order_id o) (ao_symbol_idx o) (ao_side o) (ao_price o) (ao_qty o) (ao_is_market o) false.

Definition add_auction_order (order_id symbol_idx side price qty : Z) (is_market : bool) (a : AuctionCrossEngine) : bool * AuctionCrossEngine :=
  if (kMaxAuctionOrders <=? au_order_count a) || (qty <=? 0) then (false, a)
  else
    match first_free ao_active (au_orders a) with
    | Some i =>
        let o := mkAuctionOrder order_id symbol_idx side (if is_market then 0 else price) qty is_market true in
        (true, mkAuction (<[i := o]> (au_orders a)) (u64 (au_order_count a + 1)))
    | None => (false, a)
    end.

(** The prices of the limit orders of a symbol, each once. *)
Definition add_level (symbol_idx : Z) (levels : list Z) (o : AuctionOrder) : list Z :=
  if ao_active o && (ao_symbol_idx o =? symbol_idx) && negb (ao_is_market o) then
    if negb (bool_decide (ao_price o ∈ levels)) && (Z.of_nat (length levels) <? kMaxAuctionOrders) then levels ++ [ao_price o] else levels
  else levels.

Definition price_levels (symbol_idx : Z) (orders : list AuctionOrder) : list Z := foldl (add_level symbol_idx) [] orders.

(** The quantities that would buy and sell at a price. *)
Fixpoint volumes (symbol_idx price : Z) (orders : list AuctionOrder) (buy sell : Z) : option (Z * Z) :=
  match orders with
  | [] => Some (buy, sell)
  | o :: orders =>
      if negb (ao_active o) || negb (ao_symbol_idx o =? symbol_idx) then volumes symbol_idx price orders buy sell
      else if ao_side o =? exec.kBuy then
        if ao_is_market o || (price <=? ao_price o) then buy ← s64_add buy (ao_qty o); volumes symbol_idx price orders buy sell
        else volumes symbol_idx price orders buy sell
      else
        if ao_is_market o || (ao_price o <=? price) then sell ← s64_add sell (ao_qty o); volumes symbol_idx price orders buy sell
        else volumes symbol_idx price orders buy sell
  end.

(** The loop over the sorted prices: the best price, what is paired at it and
    the imbalance. *)
Fixpoint best_loop (symbol_idx : Z) (orders : list AuctionOrder) (prices : list Z) (best_price max_paired min_imbalance : Z) : option Z :=
  match prices with
  | [] => Some best_price
  | test_p :: prices =>
      '(buy_vol, sell_vol) ← volumes symbol_idx test_p orders 0 0;
      let paired := Z.min buy_vol sell_vol in
      let imbalance := Z.abs (buy_vol - sell_vol) in
      if (max_paired <? paired) || ((paired =? max_paired) && (imbalance <? min_imbalance))
      then best_loop symbol_idx orders prices test_p paired imbalance
      else best_loop symbol_idx orders prices best_price max_paired min_imbalance
  end.

Definition compute_noii (symbol_idx reference_price : Z) (a : AuctionCrossEngine) : option NoiiSnapshot :=
  let levels := price_levels symbol_idx (au_orders a) in
  if bool_decide (levels = []) then Some (mkNoii symbol_idx reference_price 0 0 kNone 0 0)
  else
    best_price ← best_loop symbol_idx (au_orders a) (merge_sort Z.le levels) reference_price 0 INT64_MAX;
    '(total_buy, total_sell) ← volumes symbol_idx best_price (au_orders a) 0 0;
    Some (mkNoii symbol_idx best_price (Z.min total_buy total_sell) (Z.abs (total_buy - total_sell))
            (if total_sell <? total_buy then kBuyImbalance else if total_buy <? total_sell then kSellImbalance else kNone) 0 0).

Definition reset (a : AuctionCrossEngine) : AuctionCrossEngine := mkAuction (deactivate <$> au_orders a) 0.

Definition order_count (a : AuctionCrossEngine) : Z := au_order_count a.

End auction.

(** ** The auction as a collection of orders *)
Inductive auction_op := AAdd (order_id symbol_idx side price qty : Z) (is_market : bool) | AReset.

Definition auction_do (a : AuctionCrossEngine) (op : auction_op) : AuctionCrossEngine :=
  match op with
  | AAdd id symbol side price qty market => (auction.add_auction_order id symbol side price qty market a).2
  | AReset => auction.reset a
  end.

Definition auction_run (ops : list auction_op) : AuctionCrossEngine := foldl auction_do auction.fresh ops.

(** What has been accepted since the last reset: positive quantities, up to the
    size of the table; a market order has no price. *)
Definition book_do (book : list AuctionOrder) (op : auction_op) : list AuctionOrder :=
  match op with
  | AAdd id symbol side price qty market =>
      if (Z.of_nat (length book) <? auction.kMaxAuctionOrders) && (0 <? qty) then book ++ [mkAuctionOrder id symbol side (if market then 0 else price) qty market true]
      else book
  | AReset => []
  end.

Definition auction_book (ops : list auction_op) : list AuctionOrder := foldl book_do [] ops.

Record holds_book (a : AuctionCrossEngine) (book : list AuctionOrder) : Prop := {
  hb_size : length (au_orders a) = Z.to_nat auction.kMaxAuctionOrders;
  hb_orders : actives ao_active (au_orders a) ≡ₚ book;
  hb_count : au_order_count a = Z.of_nat (length book);
  hb_positive : Forall (fun o => 0 < ao_qty o) book;
}.

Lemma holds_capacity a book : holds_book a book -> (length book <= Z.to_nat auction.kMaxAuctionOrders)%nat.
Proof. intros [Hs Ho _ _]. rewrite <- Ho, <- Hs. apply actives_length. Qed.

Lemma actives_inactive l : Forall (fun o => ao_active o = false) l -> actives ao_active l = [].
Proof. induction 1 as [|o l Ho Hl IH]; [done|]. by rewrite actives_cons, Ho. Qed.

Lemma auction_do_holds a book op : holds_book a book -> holds_book (auction_do a op) (book_do book op).
Proof.
  intros Hb. pose proof (holds_capacity a book Hb) as Hcap. pose proof Hb as [Hs Ho Hc Hp]. destruct op as [id symbol side price qty market|]; cbn [auction_do book_do].
  - unfold auction.add_auction_order. rewrite Hc. unfold auction.kMaxAuctionOrders in *. destruct (Z.ltb_spec (Z.of_nat (length book)) 2048), (Z.ltb_spec 0 qty); cbn [andb];
      try (destruct (_ || _) eqn:E; [done|lia]). destruct (_ || _) eqn:E; [lia|].
    destruct (free_exists ao_active (au_orders a)) as [i Hi]; [rewrite Ho, Hs; lia|]. rewrite Hi. cbn [snd]. set (o := mkAuctionOrder _ _ _ _ _ _ _). split; cbn [au_orders au_order_count].
    + by rewrite length_insert.
    + rewrite (fill_slot ao_active (au_orders a) i o Hi eq_refl), Ho. by rewrite Permutation_app_comm.
    + rewrite wrap_u_id, length_app by (unfold in_u; lia). simpl. lia.
    + apply Forall_app. split; [done|]. by constructor.
  - split; cbn [auction.reset au_orders au_order_count]; [by rewrite length_fmap| |done|constructor].
    rewrite actives_inactive; [done|]. apply Forall_fmap, Forall_forall. done.
Qed.

Lemma auction_run_holds ops : holds_book (auction_run ops) (auction_book ops).
Proof.
  unfold auction_run, auction_book. induction ops as [|op ops IH] using rev_ind; [|rewrite !foldl_app; by apply auction_do_holds].
  split; cbn [foldl auction.fresh au_orders au_order_count]; [by rewrite length_replicate| |done|constructor].
  rewrite actives_inactive; [done|]. by apply Forall_replicate.
Qed.

(** ** Volumes at a price *)
Definition for_symbol (symbol : Z) (o : AuctionOrder) : Prop := ao_symbol_idx o = symbol.
Definition buys (symbol p : Z) (o : AuctionOrder) : Prop := for_symbol symbol o /\ ao_side o = exec.kBuy /\ (ao_is_market o = true \/ p <= ao_price o).
Definition sells (symbol p : Z) (o : AuctionOrder) : Prop := for_symbol symbol o /\ ao_side o <> exec.kBuy /\ (ao_is_market o = true \/ ao_price o <= p).
#[export] Instance for_symbol_dec symbol o : Decision (for_symbol symbol o).
Proof. unfold for_symbol. apply _. Defined.
#[export] Instance buys_dec symbol p o : Decision (buys symbol p o).
Proof. unfold buys. apply _. Defined.
#[export] Instance sells_dec symbol p o : Decision (sells symbol p o).
Proof. unfold sells. apply _. Defined.

Definition interest (symbol : Z) (book : list AuctionOrder) : Z := zsum (ao_qty <$> filter (for_symbol symbol) book).
Definition buy_volume (symbol : Z) (book : list AuctionOrder) (p : Z) : Z := zsum (ao_qty <$> filter (buys symbol p) book).
Definition sell_volume (symbol : Z) (book : list AuctionOrder) (p : Z) : Z := zsum (ao_qty <$> filter (sells symbol p) book).

Definition paired (symbol : Z) (book : list AuctionOrder) (p : Z) : Z := Z.min (buy_volume symbol book p) (sell_volume symbol book p).
Definition imbalance (symbol : Z) (book : list AuctionOrder) (p : Z) : Z := Z.abs (buy_volume symbol book p - sell_volume symbol book p).

(** The prices at which a limit order of the symbol stands. *)
Definition limit_price (symbol : Z) (book : list AuctionOrder) (p : Z) : Prop :=
  exists o, o ∈ book /\ for_symbol symbol o /\ ao_is_market o = false /\ ao_price o = p.

Lemma volume_perm (P : AuctionOrder -> Prop) `{forall o, Decision (P o)} book book' : book ≡ₚ book' -> zsum (ao_qty <$> filter P book) = zsum (ao_qty <$> filter P book').
Proof. intros E. apply zsum_perm. by rewrite E. Qed.

Section volumes.
Context (symbol : Z) (book : list AuctionOrder) (Hpos : Forall (fun o => 0 < ao_qty o) book).

Lemma quantities_nonneg : Forall (fun o => 0 <= ao_qty o) book.
Proof. eapply Forall_impl; [exact Hpos|]. cbn. lia. Qed.

Lemma volume_nonneg (P : AuctionOrder -> Prop) `{forall o, Decision (P o)} : 0 <= zsum (ao_qty <$> filter P book).
Proof. apply zsum_nonneg, Forall_fmap, Forall_forall. intros o [_ Ho]%list_elem_of_filter. pose proof quantities_nonneg as Hq. rewrite Forall_forall in Hq. by apply Hq. Qed.

Lemma volumes_bounds p : 0 <= buy_volume symbol book p <= interest symbol book /\ 0 <= sell_volume symbol book p <= interest symbol book.
Proof.
  split; (split; [apply volume_nonneg|]); apply zsum_filter_le; try exact quantities_nonneg; intros o _; by intros (? & _).
Qed.

Lemma buy_volume_antitone p q : p <= q -> buy_volume symbol book q <= buy_volume symbol book p.
Proof. intros Hpq. apply zsum_filter_le; [|exact quantities_nonneg]. intros o _ (Hs & Hb & [Hm|Hp]); (split; [done|split; [done|]]); [by left|right; lia]. Qed.

Lemma sell_volume_monotone p q : p <= q -> sell_volume symbol book p <= sell_volume symbol book q.
Proof. intros Hpq. apply zsum_filter_le; [|exact quantities_nonneg]. intros o _ (Hs & Hb & [Hm|Hp]); (split; [done|split; [done|]]); [by left|right; lia]. Qed.

(** Between two limit prices nothing changes. *)
Lemma buy_volume_gap p q : (forall x, limit_price symbol book x -> ~ (p <= x < q)) -> p <= q -> buy_volume symbol book q = buy_volume symbol book p.
Proof.
  intros Hno Hpq. apply Z.le_antisymm; [by apply buy_volume_antitone|]. apply zsum_filter_le; [|exact quantities_nonneg].
  intros o Ho (Hs & Hb & Hp). split; [done|]. split; [done|]. destruct (ao_is_market o) eqn:Hm; [by left|]. destruct Hp as [|Hp]; [done|]. right.
  assert (~ p <= ao_price o < q) by (apply Hno; by exists o). lia.
Qed.

Lemma sell_volume_gap p q : (forall x, limit_price symbol book x -> ~ (p < x <= q)) -> p <= q -> sell_volume symbol book p = sell_volume symbol book q.
Proof.
  intros Hno Hpq. apply Z.le_antisymm; [by apply sell_volume_monotone|]. apply zsum_filter_le; [|exact quantities_nonneg].
  intros o Ho (Hs & Hb & Hp). split; [done|]. split; [done|]. destruct (ao_is_market o) eqn:Hm; [by left|]. destruct Hp as [|Hp]; [done|]. right.
  assert (~ p < ao_price o <= q) by (apply Hno; by exists o). lia.
Qed.

Lemma greatest (l : list Z) : l <> [] -> exists m, m ∈ l /\ forall x, x ∈ l -> x <= m.
Proof.
  induction l as [|a l IH]; [done|]. intros _. destruct l as [|b l]; [exists a; split; [by left|]; intros x ->%list_elem_of_singleton; lia|].
  destruct IH as (m & Hm & Hmax); [done|]. destruct (decide (a <= m)); [exists m|exists a]; (split; [set_solver|]); intros x [->|Hx]%elem_of_cons; try lia; specialize (Hmax x Hx); lia.
Qed.

(** No price pairs more than the best limit price. *)
Lemma limit_prices_suffice (levels : list Z) : levels <> [] -> (forall p, p ∈ levels <-> limit_price symbol book p) ->
  forall q, exists p, p ∈ levels /\ paired symbol book q <= paired symbol book p.
Proof.
  intros Hne Hlev q. destruct (decide (filter (fun p => p <= q) levels = [])) as [Hnone|Hsome].
  - assert (Habove : forall p, p ∈ levels -> q < p).
    { intros p Hp. destruct (Z.leb_spec p q); [|done]. exfalso. assert (Hf : p ∈ filter (fun p => p <= q) levels) by by apply list_elem_of_filter. rewrite Hnone in Hf. by apply not_elem_of_nil in Hf. }
    destruct (greatest (Z.opp <$> levels)) as (m & Hm & Hmin); [by destruct levels|]. apply list_elem_of_fmap in Hm as (p & -> & Hp). exists p. split; [done|].
    pose proof (Habove p Hp). unfold paired. rewrite (buy_volume_gap q p); [|intros x Hx%Hlev Hr|lia].
    + pose proof (sell_volume_monotone q p ltac:(lia)). lia.
    + specialize (Hmin (- x) ltac:(by apply list_elem_of_fmap_2)). lia.
  - destruct (greatest _ Hsome) as (p & [Hpq Hp]%list_elem_of_filter & Hmax). exists p. split; [done|].
    unfold paired. rewrite (sell_volume_gap p q); [|intros x Hx%Hlev Hr|done].
    + pose proof (buy_volume_antitone p q Hpq). lia.
    + assert (x <= p) by (apply Hmax, list_elem_of_filter; split; [lia|done]). lia.
Qed.
End volumes.

(** ** The code's loops *)
Lemma s64_add_ok a b : 0 <= a -> 0 <= b -> a + b <= INT64_MAX -> s64_add a b = Some (a + b).
Proof. intros. unfold s64_add. case_if; [done|lia]. Qed.

Lemma filter_cons_sum (P : AuctionOrder -> Prop) `{forall o, Decision (P o)} o l :
  zsum (ao_qty <$> filter P (o :: l)) = (if decide (P o) then ao_qty o else 0) + zsum (ao_qty <$> filter P l).
Proof. rewrite filter_cons. by destruct (decide (P o)). Qed.

Lemma volumes_ok symbol p slots : forall b s, let book := actives ao_active slots in Forall (fun o => 0 < ao_qty o) book -> 0 <= b -> 0 <= s ->
  b + interest symbol book <= INT64_MAX -> s + interest symbol book <= INT64_MAX ->
  auction.volumes symbol p slots b s = Some (b + buy_volume symbol book p, s + sell_volume symbol book p).
Proof.
  induction slots as [|o slots IH]; intros b s book Hpos Hb Hs Hbi Hsi; cbn [auction.volumes]; [unfold book, buy_volume, sell_volume; cbn; do 2 f_equal; lia|].
  unfold book in *. clear book. rewrite actives_cons in *. destruct (ao_active o) eqn:Ha; cbn [negb orb]; [|by apply IH].
  apply Forall_cons in Hpos as [Ho Hpos]. cbn in Ho. set (book := actives ao_active slots) in *. pose proof (volume_nonneg book Hpos (for_symbol symbol)) as Hi. fold (interest symbol book) in Hi.
  unfold interest, buy_volume, sell_volume in Hbi, Hsi |- *. rewrite !filter_cons_sum in *. fold (interest symbol book) in *. fold (buy_volume symbol book p). fold (sell_volume symbol book p).
  destruct (Z.eqb_spec (ao_symbol_idx o) symbol) as [E|E]; cbn [negb].
  - rewrite decide_True in Hbi, Hsi by done. destruct (Z.eqb_spec (ao_side o) exec.kBuy) as [Eb|Eb].
    + rewrite (decide_False (P := sells symbol p o)) by (intros (_ & Hn & _); done). destruct (_ || _) eqn:Ec.
      * rewrite decide_True by (split_and!; [done|done|apply orb_true_iff in Ec as [?|?]; [by left|right; lia]]). rewrite s64_add_ok by lia. cbn [mbind option_bind]. rewrite IH by (done || lia). do 2 f_equal; lia.
      * apply orb_false_iff in Ec as [Em Ep]. rewrite decide_False by (intros (_ & _ & [?|?]); [congruence|lia]). rewrite IH by (done || lia). do 2 f_equal; lia.
    + rewrite (decide_False (P := buys symbol p o)) by (intros (_ & Hn & _); done). destruct (_ || _) eqn:Ec.
      * rewrite decide_True by (split_and!; [done|done|apply orb_true_iff in Ec as [?|?]; [by left|right; lia]]). rewrite s64_add_ok by lia. cbn [mbind option_bind]. rewrite IH by (done || lia). do 2 f_equal; lia.
      * apply orb_false_iff in Ec as [Em Ep]. rewrite decide_False by (intros (_ & _ & [?|?]); [congruence|lia]). rewrite IH by (done || lia). do 2 f_equal; lia.
  - rewrite !decide_False in * by (try (intros (? & _); done); done). rewrite IH by (done || lia). do 2 f_equal; lia.
Qed.

Lemma price_levels_ok symbol slots : Z.of_nat (length slots) <= auction.kMaxAuctionOrders ->
  forall p, p ∈ auction.price_levels symbol slots <-> limit_price symbol (actives ao_active slots) p.
Proof.
  intros Hlen. unfold auction.price_levels. assert (Hinv : (length (foldl (auction.add_level symbol) [] slots) <= length slots)%nat /\
    forall p, p ∈ foldl (auction.add_level symbol) [] slots <-> limit_price symbol (actives ao_active slots) p); [|by apply Hinv].
  induction slots as [|o slots IH] using rev_ind; [split; [done|]; intros p; split; [by intros ?%not_elem_of_nil|by intros (o & ?%not_elem_of_nil & _)]|].
  rewrite length_app in Hlen. simpl in Hlen. destruct IH as [Hl Hp]; [lia|]. rewrite foldl_app, length_app, actives_app, actives_cons. cbn [foldl length actives].
  set (levels := foldl (auction.add_level symbol) [] slots) in *. set (book := actives ao_active slots) in *. change (actives ao_active []) with (@nil AuctionOrder).
  unfold auction.add_level. assert (Hold : forall l p, limit_price symbol book p -> limit_price symbol (book ++ l) p) by (intros l p (x & Hx & ?); exists x; split; [set_solver|done]).
  destruct (ao_active o && (ao_symbol_idx o =? symbol) && negb (ao_is_market o)) eqn:Ec.
  - apply andb_true_iff in Ec as [[Ha Es]%andb_true_iff Em%negb_true_iff]. rewrite Ha. apply Z.eqb_eq in Es.
    assert (Hnew : forall p, limit_price symbol (book ++ [o]) p <-> limit_price symbol book p \/ p = ao_price o).
    { intros p. split; [intros (x & [Hx| ->%list_elem_of_singleton]%elem_of_app & Hr); [left; by exists x|right; by destruct Hr as (_ & _ & <-)]|].
      intros [?| ->]; [by apply Hold|]. exists o. split; [set_solver|done]. }
    destruct (bool_decide (ao_price o ∈ levels)) eqn:Eb; cbn [negb andb].
    + apply bool_decide_eq_true_1 in Eb. split; [lia|]. intros p. rewrite Hnew, <- Hp. split; [by left|]. by intros [?| ->].
    + destruct (Z.ltb_spec (Z.of_nat (length levels)) auction.kMaxAuctionOrders); [|lia]. rewrite length_app. split; [simpl; lia|].
      intros p. rewrite elem_of_app, list_elem_of_singleton, Hnew, Hp. done.
  - split; [lia|]. intros p. rewrite Hp. split; [apply Hold|]. intros (x & [Hx|Hx]%elem_of_app & Hr); [by exists x|]. destruct (ao_active o); [|by apply not_elem_of_nil in Hx].
    apply list_elem_of_singleton in Hx as ->. destruct Hr as (Es & Em & _). unfold for_symbol in Es. rewrite Es, Z.eqb_refl, Em in Ec. done.
Qed.

(** The order in which the loop prefers prices. *)
Definition preferred (symbol : Z) (book : list AuctionOrder) (p q : Z) : Prop :=
  paired symbol book q < paired symbol book p \/
  (paired symbol book q = paired symbol book p /\ (imbalance symbol book p < imbalance symbol book q \/ (imbalance symbol book p = imbalance symbol book q /\ p <= q))).

Section best.
Context (symbol : Z) (slots : list AuctionOrder) (book := actives ao_active slots).
Context (Hpos : Forall (fun o => 0 < ao_qty o) book) (Htotal : interest symbol book < INT64_MAX).

Lemma volumes_at p : auction.volumes symbol p slots 0 0 = Some (buy_volume symbol book p, sell_volume symbol book p).
Proof. apply volumes_ok; [done|lia|lia| |]; fold book; lia. Qed.

Lemma best_loop_ok prices : forall seen best, best ∈ seen -> (forall q, q ∈ seen -> preferred symbol book best q) -> StronglySorted Z.le (seen ++ prices) ->
  exists b, auction.best_loop symbol slots prices best (paired symbol book best) (imbalance symbol book best) = Some b /\
    b ∈ seen ++ prices /\ forall q, q ∈ seen ++ prices -> preferred symbol book b q.
Proof.
  induction prices as [|p prices IH]; intros seen best Hin Hbest Hsorted; cbn [auction.best_loop]; [rewrite app_nil_r in *; by exists best|].
  rewrite volumes_at. cbn [mbind option_bind]. fold (paired symbol book p). fold (imbalance symbol book p).
  assert (Hlt : forall q, q ∈ seen -> q <= p). { intros q Hq. eapply (StronglySorted_app_1_elem_of Z.le); [exact Hsorted|done|by left]. }
  assert (E : seen ++ p :: prices = (seen ++ [p]) ++ prices) by by rewrite <- app_assoc. rewrite E in *.
  destruct (_ || _) eqn:Ec.
  - apply (IH (seen ++ [p])); [set_solver| |done]. intros q [Hq| ->%list_elem_of_singleton]%elem_of_app; [|unfold preferred; lia]. specialize (Hbest q Hq). unfold preferred in *. lia.
  - apply (IH (seen ++ [p])); [set_solver| |done]. intros q [Hq| ->%list_elem_of_singleton]%elem_of_app; [by apply Hbest|]. specialize (Hlt best Hin). unfold preferred. lia.
Qed.

Lemma best_price_ok reference prices : prices <> [] -> StronglySorted Z.le prices ->
  exists b, auction.best_loop symbol slots prices reference 0 INT64_MAX = Some b /\ b ∈ prices /\ forall q, q ∈ prices -> preferred symbol book b q.
Proof.
  destruct prices as [|p prices]; [done|]. intros _ Hsorted. cbn [auction.best_loop]. rewrite volumes_at. cbn [mbind option_bind]. fold (paired symbol book p). fold (imbalance symbol book p).
  destruct (volumes_bounds symbol book Hpos p) as [Hb Hs]. destruct (_ || _) eqn:Ec; [|unfold paired, imbalance in Ec; lia].
  apply (best_loop_ok prices [p]); [by left| |done]. intros q ->%list_elem_of_singleton. unfold preferred. lia.
Qed.
End best.

(** C31: the indicative price of the auction is optimal.  After any sequence of
    additions and resets, for a symbol whose orders sum up to less than the
    largest [int64_t]: [compute_noii] overflows nowhere and returns.  Without a
    limit order for the symbol the message has the reference price and shows
    nothing paired and no imbalance, whatever market orders there are.  With one
    the price is that of a limit order; what the message calls paired and imbalance are the paired
    volume and the imbalance there, with its side; no price whatever, limit price
    or not, pairs more; and among the limit prices that pair as much it has the
    least imbalance, and of those with the same imbalance it is the lowest.  The
    volumes are those of the accepted orders: of positive quantity, as many as
    the table holds. *)
Theorem auction_price_optimal (ops : list auction_op) (symbol reference : Z) (book := auction_book ops) (Htotal : interest symbol book < INT64_MAX) :
  exists n, auction.compute_noii symbol reference (auction_run ops) = Some n /\ no_symbol_idx n = symbol /\
    let p := no_indicative_match_price n in
    ((forall q, ~ limit_price symbol book q) -> n = mkNoii symbol reference 0 0 kNone 0 0) /\
    ((exists q, limit_price symbol book q) ->
       limit_price symbol book p /\ no_paired_qty n = paired symbol book p /\ no_imbalance_qty n = imbalance symbol book p /\
       no_imbalance_side n = (if sell_volume symbol book p <? buy_volume symbol book p then kBuyImbalance
                              else if buy_volume symbol book p <? sell_volume symbol book p then kSellImbalance else kNone) /\
       (forall q, paired symbol book q <= no_paired_qty n) /\
       (forall q, limit_price symbol book q -> paired symbol book q = no_paired_qty n ->
          no_imbalance_qty n < imbalance symbol book q \/ (no_imbalance_qty n = imbalance symbol book q /\ p <= q))).
Proof.
  pose proof (auction_run_holds ops) as [Hs Ho _ Hp]. set (slots := au_orders (auction_run ops)) in *. set (actual := actives ao_active slots) in *.
  assert (Hpos : Forall (fun o => 0 < ao_qty o) actual) by by rewrite Ho.
  assert (Hv : (forall p, buy_volume symbol actual p = buy_volume symbol book p) /\ (forall p, sell_volume symbol actual p = sell_volume symbol book p)).
  { split; intros p; by apply volume_perm. } destruct Hv as [Hvb Hvs].
  assert (Hint : interest symbol actual = interest symbol book) by by apply volume_perm.
  assert (Hlim : forall p, p ∈ auction.price_levels symbol slots <-> limit_price symbol book p).
  { intros p. rewrite price_levels_ok by (rewrite Hs; done). fold actual. unfold limit_price. by setoid_rewrite Ho. }
  unfold auction.compute_noii. fold slots. set (levels := auction.price_levels symbol slots) in *. destruct (decide (levels = [])) as [E|E].
  { rewrite bool_decide_eq_true_2 by done. eexists. split; [done|]. split; [done|]. split; [done|]. intros [q Hq%Hlim]. rewrite E in Hq. by apply not_elem_of_nil in Hq. }
  rewrite bool_decide_eq_false_2 by done. assert (Hsorted : StronglySorted Z.le (merge_sort Z.le levels)) by (apply (StronglySorted_merge_sort Z.le)).
  assert (Hmem : forall p, p ∈ merge_sort Z.le levels <-> limit_price symbol book p) by (intros p; by rewrite merge_sort_Permutation).
  destruct (best_price_ok symbol slots Hpos ltac:(fold actual; lia) reference (merge_sort Z.le levels)) as (b & -> & Hb & Hbest); [|done|].
  { intros En. pose proof (merge_sort_Permutation Z.le levels) as Hperm. rewrite En in Hperm. by apply Permutation_nil_l in Hperm. }
  cbn [mbind option_bind]. rewrite (volumes_at symbol slots Hpos) by (fold actual; lia). fold actual. cbn [mbind option_bind]. eexists. split; [done|]. split; [done|].
  cbn [no_indicative_match_price no_paired_qty no_imbalance_qty no_imbalance_side]. rewrite Hvb, Hvs. split; [intros Hnone; by destruct (Hnone b (proj1 (Hmem b) Hb))|]. intros _.
  assert (Hpref : forall q, limit_price symbol book q -> preferred symbol book b q).
  { intros q Hq%Hmem. specialize (Hbest q Hq). fold actual in Hbest. unfold preferred, paired, imbalance in *. by rewrite !Hvb, !Hvs in Hbest. }
  split; [by apply Hmem|]. split_and!; try done.
  - intros q. destruct (limit_prices_suffice symbol book Hp levels E Hlim q) as (p & Hpl%Hlim & Hle). specialize (Hpref p Hpl). fold (paired symbol book b). unfold preferred in Hpref. lia.
  - intros q Hq Heq. specialize (Hpref q Hq). fold (paired symbol book b) in Heq. fold (imbalance symbol book b). unfold preferred in Hpref. lia.
Qed.

(** The book of the program's own test. *)
Definition demo_auction : list auction_op :=
  [AAdd 1 1 exec.kBuy 10050 500 false; AAdd 2 1 exec.kBuy 10040 300 false; AAdd 3 1 exec.kBuy 10030 200 false;
   AAdd 4 1 exec.kSell 10030 400 false; AAdd 5 1 exec.kSell 10040 350 false; AAdd 6 1 exec.kSell 10060 500 false].

Lemma auction_price_optimal_witness : exists n, auction.compute_noii 1 10000 (auction_run demo_auction) = Some n /\
  no_indicative_match_price n = 10040 /\ no_paired_qty n = 750 /\ no_imbalance_qty n = 50 /\ no_imbalance_side n = kBuyImbalance /\
  forall q, paired 1 (auction_book demo_auction) q <= 750.
Proof.
  destruct (auction_price_optimal demo_auction 1 10000) as (n & Hn & _ & _ & Hopt); [vm_compute; reflexivity|].
  assert (Ec : (fun n => (no_indicative_match_price n, no_paired_qty n, no_imbalance_qty n, no_imbalance_side n)) <$> auction.compute_noii 1 10000 (auction_run demo_auction) =
            Some (10040, 750, 50, kBuyImbalance)) by (vm_compute; reflexivity).
  rewrite Hn in Ec. apply (inj Some) in Ec. injection Ec as E1 E2 E3 E4. exists n. split; [exact Hn|]. split; [exact E1|]. split; [exact E2|]. split; [exact E3|]. split; [exact E4|].
  destruct Hopt as (_ & _ & _ & _ & Hall & _).
  - exists 10050, (mkAuctionOrder 1 1 exec.kBuy 10050 500 false true). split; [left|]. by split_and!.
  - intros q. rewrite <- E2. apply Hall.
Defined.

(** Two market orders that meet are not paired: without a limit order the
    message says that nothing is. *)
Theorem auction_market_orders_unpaired reference (ops := [AAdd 1 1 exec.kBuy 0 100 true; AAdd 2 1 exec.kSell 0 100 true]) :
  paired 1 (auction_book ops) reference = 100 /\ no_paired_qty <$> auction.compute_noii 1 reference (auction_run ops) = Some 0.
Proof. split; [|by vm_compute]. unfold paired, buy_volume, sell_volume. by vm_compute. Qed.

(** Two accepted quantities whose sum is undefined behaviour. *)
Theorem auction_volume_overflows (ops := [AAdd 1 1 exec.kBuy 10 INT64_MAX false; AAdd 2 1 exec.kBuy 10 1 false]) :
  length (auction_book ops) = 2%nat /\ auction.compute_noii 1 0 (auction_run ops) = None.
Proof. by vm_compute. Qed.
