(* ===== verification/DarkPool.v ===== *)
(** * DarkPoolEngine (luv_dark_pool.hpp): resting orders and crosses

    [std::sort] is an argument of the match: the order in which it leaves
    elements that compare equal is not specified.  [None] is the overflow of an
    addition in [int64_t]. *)
From Stdlib Require Import ZArith Lia ZifyBool.
From stdpp Require Import sorting.
From S2P Require Import Prelude ExecTypes Slots.

Inductive DisplayMode := kDisplayed | kHidden | kMidpointPeg.
#[export] Instance DisplayMode_eq_dec : EqDecision DisplayMode.
Proof. solve_decision. Defined.

Record DarkOrder := mkDark {
  dk_order_id : Z;                 (* uint64_t *)
  dk_firm_id : Z;                  (* uint32_t *)
  dk_symbol_idx : Z;               (* uint16_t *)
  dk_side : Z;                     (* uint8_t *)
  dk_display_mode : DisplayMode;
  dk_price : Z;                    (* int64_t *)
  dk_qty : Z;                      (* int64_t *)
  dk_min_qty : Z;                  (* int64_t *)
  dk_priority_ts_ns : Z;           (* uint64_t *)
  dk_active : bool;
}.

Record MatchFill := mkFill {
  fl_maker_order_id : Z;
  fl_taker_order_id : Z;
  fl_symbol_idx : Z;
  fl_match_price : Z;
  fl_match_qty : Z;
  fl_is_midpoint : bool;
}.

Record DarkPoolEngine := mkPool { dp_orders : list DarkOrder; dp_order_count : Z (* size_t *) }.

(** What a taker brings. *)
Record Taker := mkTaker {
  tk_order_id : Z;
  tk_firm_id : Z;
  tk_symbol_idx : Z;
  tk_side : Z;
  tk_price : Z;
  tk_qty : Z;
}.

Module darkpool.

Definition kMaxRestingOrders : Z := 1024.

Definition order_init : DarkOrder := mkDark 0 0 0 exec.kBuy kDisplayed 0 0 0 0 false.
Definition fresh : DarkPoolEngine := mkPool (replicate (Z.to_nat kMaxRestingOrders) order_init) 0.

Definition with_qty (qty : Z) (active : bool) (o : DarkOrder) : DarkOrder :=
  mkDark (dk_order_id o) (dk_firm_id o) (dk_symbol_idx o) (dk_side o) (dk_display_mode o) (dk_price o) qty (dk_min_qty o) (dk_priority_ts_ns o) active.

Definition add_order (order_id firm_id symbol_idx side : Z) (mode : DisplayMode) (price qty min_qty ts_ns : Z) (p : DarkPoolEngine) : bool * DarkPoolEngine :=
  if (kMaxRestingOrders <=? dp_order_count p) || (qty <=? 0) then (false, p)
  else
    match first_free dk_active (dp_orders p) with
    | Some i => (true, mkPool (<[i := mkDark order_id firm_id symbol_idx side mode price qty min_qty ts_ns true]> (dp_orders p)) (u64 (dp_order_count p + 1)))
    | None => (false, p)
    end.

Definition cancel_order (order_id : Z) (p : DarkPoolEngine) : bool * DarkPoolEngine :=
  match find_active dk_active (fun o => dk_order_id o = order_id) (dp_orders p) with
  | Some (i, o) => (true, mkPool (<[i := with_qty (dk_qty o) false o]> (dp_orders p)) (u64 (dp_order_count p - 1)))
  | None => (false, p)
  end.

Section match_cross.
Context (sort : (nat -> nat -> bool) -> list nat -> list nat).
Context (t : Taker) (midpoint_price : Z).

Definition effective_price (o : DarkOrder) : Z := if bool_decide (dk_display_mode o = kMidpointPeg) then midpoint_price else dk_price o.

Definition candidate (o : DarkOrder) : bool :=
  if negb (dk_active o) || negb (dk_symbol_idx o =? tk_symbol_idx t) || (dk_side o =? tk_side t) then false
  else if dk_firm_id o =? tk_firm_id t then false
  else if tk_side t =? exec.kBuy then effective_price o <=? tk_price t else tk_price t <=? effective_price o.

(** The comparison of the sort. *)
Definition comes_before (oa ob : DarkOrder) : bool :=
  let pa := effective_price oa in
  let pb := effective_price ob in
  if negb (pa =? pb) then (if tk_side t =? exec.kBuy then pa <? pb else pb <? pa)
  else
    let disp_a := if bool_decide (dk_display_mode oa = kDisplayed) then 0 else 1 in
    let disp_b := if bool_decide (dk_display_mode ob = kDisplayed) then 0 else 1 in
    if negb (disp_a =? disp_b) then disp_a <? disp_b else dk_priority_ts_ns oa <? dk_priority_ts_ns ob.

Definition candidate_indices (orders : list DarkOrder) : list nat :=
  filter (fun i => candidate (nth i orders order_init) = true) (seq 0 (length orders)).

(** The loop over the sorted candidates. *)
Fixpoint fill_loop (max_fills : Z) (indices : list nat) (remaining_taker_qty : Z) (fills : list MatchFill) (p : DarkPoolEngine) : list MatchFill * DarkPoolEngine :=
  match indices with
  | [] => (fills, p)
  | idx :: indices =>
      if (Z.of_nat (length fills) <? max_fills) && (0 <? remaining_taker_qty) then
        let maker := nth idx (dp_orders p) order_init in
        let fill_qty := Z.min remaining_taker_qty (dk_qty maker) in
        if (0 <? dk_min_qty maker) && (fill_qty <? dk_min_qty maker) then fill_loop max_fills indices remaining_taker_qty fills p
        else
          let fill := mkFill (dk_order_id maker) (tk_order_id t) (tk_symbol_idx t) (effective_price maker) fill_qty (bool_decide (dk_display_mode maker = kMidpointPeg)) in
          let left := dk_qty maker - fill_qty in
          let maker := with_qty left (negb (left =? 0)) maker in
          fill_loop max_fills indices (remaining_taker_qty - fill_qty) (fills ++ [fill])
            (mkPool (<[idx := maker]> (dp_orders p)) (if left =? 0 then u64 (dp_order_count p - 1) else dp_order_count p))
      else (fills, p)
  end.
End match_cross.

(** The fills are what is written to [out_fills]; [out_ok] is whether the
    pointer is not null. *)
Definition match_cross (sort : (nat -> nat -> bool) -> list nat -> list nat) (t : Taker) (best_bid best_ask : Z) (out_ok : bool) (max_fills : Z) (p : DarkPoolEngine)
    : option (list MatchFill * DarkPoolEngine) :=
  if negb out_ok || (max_fills =? 0) || (tk_qty t <=? 0) then Some ([], p)
  else
    sum ← s64_add best_bid best_ask;
    let midpoint_price := Z.quot sum 2 in
    let orders := dp_orders p in
    let indices := sort (fun a b => comes_before t midpoint_price (nth a orders order_init) (nth b orders order_init)) (candidate_indices t midpoint_price orders) in
    Some (fill_loop t midpoint_price max_fills indices (tk_qty t) [] p).

Definition active_orders (p : DarkPoolEngine) : Z := dp_order_count p.

End darkpool.

(** ** What std::sort needs and gives *)
Record strict_weak {A} (less : A -> A -> bool) : Prop := {
  sw_irreflexive a : less a a = false;
  sw_transitive a b c : less a b = true -> less b c = true -> less a c = true;
  sw_ties a b c : less a b = false -> less b a = false -> less b c = false -> less c b = false -> less a c = false /\ less c a = false;
}.

(** No element is before one that precedes it. *)
Definition in_order {A} (less : A -> A -> bool) (l : list A) : Prop := forall i j a b, l !! i = Some a -> l !! j = Some b -> (i < j)%nat -> less b a = false.

Definition sort_ok (sort : (nat -> nat -> bool) -> list nat -> list nat) : Prop :=
  forall less l, strict_weak less -> sort less l ≡ₚ l /\ in_order less (sort less l).

(** ** The priority of the resting orders

    What the comparison of the sort and the choice of the candidates are to mean,
    told without them. *)

(** The price an order trades at: its own, or the midpoint for a pegged one. *)
Definition trade_price (mid : Z) (o : DarkOrder) : Z := match dk_display_mode o with kMidpointPeg => mid | _ => dk_price o end.

(** A resting order that the taker can meet: of its symbol, on the other side,
    of another firm, at a price within its limit. *)
Definition can_meet (t : Taker) (mid : Z) (o : DarkOrder) : Prop :=
  dk_symbol_idx o = tk_symbol_idx t /\ dk_side o <> tk_side t /\ dk_firm_id o <> tk_firm_id t /\
  (if decide (tk_side t = exec.kBuy) then trade_price mid o <= tk_price t else tk_price t <= trade_price mid o).
#[export] Instance can_meet_dec t mid o : Decision (can_meet t mid o).
Proof. unfold can_meet. destruct (decide (tk_side t = exec.kBuy)); apply _. Defined.

(** A price better for the taker. *)
Definition better_price (t : Taker) (pa pb : Z) : Prop := if decide (tk_side t = exec.kBuy) then pa < pb else pb < pa.

(** Priority: the better price; at one price the displayed before the others;
    then the earlier. *)
Definition priority (t : Taker) (mid : Z) (a b : DarkOrder) : Prop :=
  better_price t (trade_price mid a) (trade_price mid b) \/
  (trade_price mid a = trade_price mid b /\
    ((dk_display_mode a = kDisplayed /\ dk_display_mode b <> kDisplayed) \/
     ((dk_display_mode a = kDisplayed <-> dk_display_mode b = kDisplayed) /\ dk_priority_ts_ns a < dk_priority_ts_ns b))).

(** Nobody stands behind one he has priority over. *)
Definition by_priority (t : Taker) (mid : Z) (queue : list DarkOrder) : Prop :=
  forall i j a b, queue !! i = Some a -> queue !! j = Some b -> (i < j)%nat -> ~ priority t mid b a.

Lemma effective_trade mid o : darkpool.effective_price mid o = trade_price mid o.
Proof. unfold darkpool.effective_price, trade_price. by destruct (dk_display_mode o). Qed.

Lemma candidate_can_meet t mid o : dk_active o = true -> darkpool.candidate t mid o = true <-> can_meet t mid o.
Proof.
  intros Ha. unfold darkpool.candidate, can_meet. rewrite Ha, effective_trade. cbn [negb orb].
  destruct (Z.eqb_spec (dk_symbol_idx o) (tk_symbol_idx t)), (Z.eqb_spec (dk_side o) (tk_side t)), (Z.eqb_spec (dk_firm_id o) (tk_firm_id t)); cbn [negb orb]; try tauto; try (split; [done|tauto]).
  destruct (Z.eqb_spec (tk_side t) exec.kBuy); [rewrite decide_True by done|rewrite decide_False by done]; rewrite Z.leb_le; tauto.
Qed.

Lemma comes_before_priority t mid a b : darkpool.comes_before t mid a b = true <-> priority t mid a b.
Proof.
  unfold darkpool.comes_before, priority, better_price. rewrite !effective_trade. generalize (trade_price mid a), (trade_price mid b). intros pa pb.
  destruct (Z.eqb_spec (tk_side t) exec.kBuy) as [E|E]; [rewrite decide_True by done|rewrite decide_False by done];
    (destruct (Z.eqb_spec pa pb); cbn [negb]; [|rewrite Z.ltb_lt; lia]);
    destruct (decide (dk_display_mode a = kDisplayed)) as [Da|Da], (decide (dk_display_mode b = kDisplayed)) as [Db|Db];
    rewrite ?(bool_decide_eq_true_2 _ Da), ?(bool_decide_eq_false_2 _ Da), ?(bool_decide_eq_true_2 _ Db), ?(bool_decide_eq_false_2 _ Db);
    destruct (Z.ltb_spec (dk_priority_ts_ns a) (dk_priority_ts_ns b)); cbn; (split; [intros ?; try done; right; tauto|]);
    (intros [?|(_ & [[? ?]|[? ?]])]; try done; try lia; tauto).
Qed.

(** The keys of the comparison, as integers. *)
Definition price_key (t : Taker) (mid : Z) (o : DarkOrder) : Z :=
  if tk_side t =? exec.kBuy then darkpool.effective_price mid o else - darkpool.effective_price mid o.
Definition display_key (o : DarkOrder) : Z := if bool_decide (dk_display_mode o = kDisplayed) then 0 else 1.

Lemma comes_before_keys t mid a b : darkpool.comes_before t mid a b = true <->
  price_key t mid a < price_key t mid b \/ (price_key t mid a = price_key t mid b /\
    (display_key a < display_key b \/ (display_key a = display_key b /\ dk_priority_ts_ns a < dk_priority_ts_ns b))).
Proof.
  unfold darkpool.comes_before, price_key. fold (display_key a). fold (display_key b). generalize (darkpool.effective_price mid a), (darkpool.effective_price mid b), (display_key a), (display_key b).
  intros pa pb da db. destruct (tk_side t =? exec.kBuy), (Z.eqb_spec pa pb), (Z.eqb_spec da db); cbn [negb]; lia.
Qed.

(** It is a strict weak order, as the sort requires. *)
Lemma comes_before_weak {A} t mid (f : A -> DarkOrder) : strict_weak (fun a b => darkpool.comes_before t mid (f a) (f b)).
Proof.
  split.
  - intros a. apply not_true_is_false. rewrite comes_before_keys. lia.
  - intros a b c. rewrite !comes_before_keys. lia.
  - intros a b c. rewrite <- !not_true_iff_false, !comes_before_keys. lia.
Qed.

(** ** The reference: quantities taken in priority order *)
Definition unacceptable (rem : Z) (o : DarkOrder) : bool := (0 <? dk_min_qty o) && (Z.min rem (dk_qty o) <? dk_min_qty o).

Fixpoint takes (max : Z) (queue : list DarkOrder) (n rem : Z) : list Z :=
  match queue with
  | [] => []
  | o :: queue =>
      if (n <? max) && (0 <? rem) && negb (unacceptable rem o) then Z.min rem (dk_qty o) :: takes max queue (n + 1) (rem - Z.min rem (dk_qty o))
      else 0 :: takes max queue n rem
  end.

Definition fill_for (t : Taker) (mid : Z) (oq : DarkOrder * Z) : MatchFill :=
  mkFill (dk_order_id oq.1) (tk_order_id t) (tk_symbol_idx t) (trade_price mid oq.1) oq.2 (bool_decide (dk_display_mode oq.1 = kMidpointPeg)).

(** One fill for each order of which something is taken. *)
Definition fills_of (t : Taker) (mid : Z) (queue : list DarkOrder) (taken : list Z) : list MatchFill :=
  fill_for t mid <$> filter (fun oq => 0 < oq.2) (zip queue taken).

(** An order of which [q] was taken, and what stays of the orders. *)
Definition less_taken (o : DarkOrder) (q : Z) : DarkOrder :=
  mkDark (dk_order_id o) (dk_firm_id o) (dk_symbol_idx o) (dk_side o) (dk_display_mode o) (dk_price o) (dk_qty o - q) (dk_min_qty o) (dk_priority_ts_ns o) true.
Definition remains (queue : list DarkOrder) (taken : list Z) : list DarkOrder :=
  zip queue taken ≫= fun oq => if dk_qty oq.1 - oq.2 =? 0 then [] else [less_taken oq.1 oq.2].

Definition resting (o : DarkOrder) : Prop := dk_active o = true /\ 0 < dk_qty o.

Lemma with_same o : resting o -> less_taken o 0 = o.
Proof. intros [Ha _]. unfold less_taken. rewrite Z.sub_0_r, <- Ha. by destruct o. Qed.

Lemma takes_length max queue : forall n rem, length (takes max queue n rem) = length queue.
Proof. induction queue as [|o queue IH]; intros n rem; [done|]. cbn [takes]. destruct (_ && _); cbn [length]; by rewrite IH. Qed.

Lemma takes_stop max queue n rem : (n <? max) && (0 <? rem) = false -> takes max queue n rem = replicate (length queue) 0.
Proof. intros Hs. induction queue as [|o queue IH]; [done|]. cbn [takes]. rewrite Hs. cbn [andb length replicate]. by rewrite IH. Qed.

Lemma nothing_taken t mid queue : Forall resting queue -> fills_of t mid queue (replicate (length queue) 0) = [] /\ remains queue (replicate (length queue) 0) = queue.
Proof.
  unfold fills_of, remains. induction 1 as [|o queue Ho _ [IH1 IH2]]; [done|]. cbn [length replicate zip zip_with].
  change (zip_with pair queue (replicate (length queue) 0)) with (zip queue (replicate (length queue) 0)). rewrite filter_cons_False by (cbn; lia). split; [done|].
  cbn [mbind list_bind fst snd]. destruct (Z.eqb_spec (dk_qty o - 0) 0) as [E|]; [destruct Ho; lia|]. rewrite with_same by done. cbn [app]. f_equal. exact IH2.
Qed.

(** ** The loop against the reference *)
Section loop.
Context (t : Taker) (mid max : Z).

Abbreviation at_slot orders i := (nth i orders darkpool.order_init).

Definition held (orders : list DarkOrder) (i : nat) : Prop := exists o, orders !! i = Some o /\ resting o.

Lemma at_held orders i o : orders !! i = Some o -> at_slot orders i = o.
Proof. intros Hi. by apply nth_lookup_Some with (d := darkpool.order_init) in Hi. Qed.

Lemma untouched (orders : list DarkOrder) i o indices : i ∉ indices ->
  ((fun j => at_slot (<[i:=o]> orders) j) <$> indices) = ((fun j => at_slot orders j) <$> indices) /\ (Forall (held orders) indices -> Forall (held (<[i:=o]> orders)) indices).
Proof.
  intros Hi. assert (Hne : forall j, j ∈ indices -> <[i:=o]> orders !! j = orders !! j) by (intros j Hj; apply list_lookup_insert_ne; congruence). split.
  - apply list_fmap_ext. intros k j Hk. specialize (Hne j ltac:(by eapply list_elem_of_lookup_2)). rewrite !nth_lookup. by rewrite Hne.
  - rewrite !Forall_forall. intros H j Hj. destruct (H j Hj) as (o' & Ho' & Hr). exists o'. by rewrite Hne.
Qed.

Lemma fill_loop_ok indices : forall rem fills p others, NoDup indices -> Forall (held (dp_orders p)) indices ->
  let queue := (fun i => at_slot (dp_orders p) i) <$> indices in
  actives dk_active (dp_orders p) ≡ₚ others ++ queue -> 0 <= rem -> dp_order_count p = Z.of_nat (length (actives dk_active (dp_orders p))) -> dp_order_count p < 2 ^ 64 ->
  let taken := takes max queue (Z.of_nat (length fills)) rem in
  exists p', darkpool.fill_loop t mid max indices rem fills p = (fills ++ fills_of t mid queue taken, p') /\
    actives dk_active (dp_orders p') ≡ₚ others ++ remains queue taken /\ length (dp_orders p') = length (dp_orders p) /\
    dp_order_count p' = Z.of_nat (length (actives dk_active (dp_orders p'))).
Proof.
  induction indices as [|idx indices IH]; intros rem fills p others Hnd Hocc queue Hact Hrem Hcount Hsmall taken; cbn [darkpool.fill_loop].
  { exists p. unfold taken, queue in *. cbn [fmap list_fmap takes] in *. by rewrite app_nil_r. }
  apply NoDup_cons in Hnd as [Hidx Hnd]. pose proof Hocc as Hall. apply Forall_cons in Hocc as [(o & Ho & Hr) Hocc].
  assert (Hq : Forall resting queue).
  { apply Forall_fmap. eapply Forall_impl; [exact Hall|]. intros i (x & Hx & Hxr). cbn. by rewrite (at_held _ _ _ Hx). }
  destruct ((Z.of_nat (length fills) <? max) && (0 <? rem)) eqn:Hgo.
  2:{ exists p. destruct (nothing_taken t mid queue Hq) as [E1 E2]. unfold taken. rewrite takes_stop by done. rewrite E1, E2, app_nil_r. by split_and!. }
  subst taken. subst queue. cbn [fmap list_fmap] in *. rewrite (at_held _ _ _ Ho) in *. set (queue := (fun i => at_slot (dp_orders p) i) <$> indices) in *.
  cbn [takes]. rewrite Hgo. cbn [andb]. fold (unacceptable rem o). destruct (unacceptable rem o) eqn:Hbad; cbn [negb].
  - destruct (IH rem fills p (others ++ [o])) as (p' & -> & Hact' & Hlen' & Hcount'); try done; [by rewrite Hact, <- app_assoc|]. fold queue in Hact' |- *. set (taken := takes _ queue _ _) in *. exists p'.
    unfold fills_of, remains in *. cbn [zip zip_with]. change (zip_with pair queue taken) with (zip queue taken). rewrite filter_cons_False by (cbn; lia).
    split; [done|]. split; [|done]. rewrite Hact'. cbn [mbind list_bind fst snd]. destruct Hr as [Ha Hpos]. destruct (Z.eqb_spec (dk_qty o - 0) 0); [lia|].
    rewrite with_same by done. by rewrite <- app_assoc.
  - set (f := Z.min rem (dk_qty o)). destruct Hr as [Ha Hpos]. assert (Hf : 0 < f) by (unfold f; lia).
    set (maker := darkpool.with_qty (dk_qty o - f) (negb (dk_qty o - f =? 0)) o). set (p1 := mkPool (<[idx:=maker]> (dp_orders p)) _).
    destruct (untouched (dp_orders p) idx maker indices Hidx) as [Equeue Hocc1].
    destruct (change_slot dk_active (dp_orders p) idx o maker Ho) as (rest & E1 & E2). rewrite Ha in E1.
    assert (Erest : rest ≡ₚ others ++ queue). { apply (Permutation_cons_inv (a := o)). rewrite <- E1, Hact. by rewrite Permutation_middle. }
    set (left := if dk_qty o - f =? 0 then [] else [maker]). assert (Hact1 : actives dk_active (dp_orders p1) ≡ₚ (others ++ left) ++ queue).
    { etransitivity; [exact E2|]. unfold left. change (dk_active maker) with (negb (dk_qty o - f =? 0)). destruct (dk_qty o - f =? 0); cbn [negb]; [by rewrite app_nil_r|].
      rewrite Erest, <- app_assoc. cbn [app]. by rewrite Permutation_middle. }
    assert (Hc1 : dp_order_count p1 = Z.of_nat (length (actives dk_active (dp_orders p1)))).
    { assert (Hn : dp_order_count p = Z.of_nat (length others + S (length queue))) by (rewrite Hcount, Hact, length_app; done).
      rewrite Hact1, !length_app. cbn [p1 dp_order_count]. rewrite Hn in *. unfold left. destruct (dk_qty o - f =? 0); cbn [length]; [|lia]. rewrite wrap_u_id by (unfold in_u; lia). lia. }
    specialize (IH (rem - f) (fills ++ [fill_for t mid (o, f)]) p1 (others ++ left) Hnd (Hocc1 Hocc)). cbn [p1 dp_orders] in IH. rewrite Equeue in IH. fold queue in IH.
    destruct IH as (p' & Hrun & Hact' & Hlen' & Hcount'); [exact Hact1|unfold f; lia|exact Hc1| |].
    { cbn [p1 dp_order_count]. destruct (dk_qty o - f =? 0); [|done]. apply wrap_u_range. lia. }
    rewrite length_app in Hrun, Hact'. cbn [length] in Hrun, Hact'. rewrite Nat2Z.inj_add in Hrun, Hact'. change (Z.of_nat 1) with 1 in *. set (taken := takes max queue _ _) in *.
    exists p'. unfold fills_of, remains in *. cbn [zip zip_with]. change (zip_with pair queue taken) with (zip queue taken). rewrite filter_cons_True by done. cbn [fmap list_fmap].
    split.
    { transitivity (darkpool.fill_loop t mid max indices (rem - f) (fills ++ [fill_for t mid (o, f)]) p1); [unfold fill_for; cbn [fst snd]; by rewrite <- effective_trade|]. by rewrite Hrun, <- app_assoc. }
    split; [|split; [by rewrite Hlen', length_insert|done]]. rewrite Hact', <- app_assoc. f_equiv. cbn [mbind list_bind fst snd]. f_equiv.
    unfold left, maker. destruct (dk_qty o - f =? 0); done.
Qed.
End loop.

(** ** The greedy law *)
Definition before (i : nat) (taken : list Z) : Z := zsum (take i taken).
Definition filled_before (i : nat) (taken : list Z) : Z := Z.of_nat (length (filter (Z.lt 0) (take i taken))).

Lemma before_mono taken i j : Forall (Z.le 0) taken -> (i <= j)%nat -> before i taken <= before j taken /\ filled_before i taken <= filled_before j taken.
Proof.
  intros Hn Hij. unfold before, filled_before. replace (take j taken) with (take i taken ++ take (j - i) (drop i taken)) by (rewrite take_take_drop; f_equal; lia).
  rewrite zsum_app, filter_app, length_app. pose proof (zsum_nonneg (take (j - i) (drop i taken)) ltac:(by apply Forall_take, Forall_drop)). lia.
Qed.

Lemma before_next taken i q : taken !! i = Some q -> before (S i) taken = before i taken + q /\ filled_before (S i) taken = filled_before i taken + (if 0 <? q then 1 else 0).
Proof.
  intros Hi. unfold before, filled_before. rewrite (take_S_r _ _ _ Hi), zsum_app, zsum_cons, filter_app, length_app. split; [unfold zsum; cbn [foldr]; lia|].
  rewrite filter_cons. cbn [filter list_filter]. destruct (Z.ltb_spec 0 q); [rewrite decide_True by done|rewrite decide_False by lia]; simpl; lia.
Qed.

(** What the [i]-th order of the queue gives: all it can, if the taker still
    wants some, may have another fill and offers the order its minimum. *)
Definition greedy (max wanted : Z) (queue : list DarkOrder) (taken : list Z) : Prop := length taken = length queue /\
  forall i o q, queue !! i = Some o -> taken !! i = Some q -> let r := wanted - before i taken in 0 <= r /\
    q = (if (filled_before i taken <? max) && (0 <? r) && negb (unacceptable r o) then Z.min r (dk_qty o) else 0).

Lemma takes_greedy max queue : forall n rem, Forall resting queue -> 0 <= rem -> length (takes max queue n rem) = length queue /\
  forall i o q, queue !! i = Some o -> takes max queue n rem !! i = Some q -> let r := rem - before i (takes max queue n rem) in 0 <= r /\
    q = (if (n + filled_before i (takes max queue n rem) <? max) && (0 <? r) && negb (unacceptable r o) then Z.min r (dk_qty o) else 0).
Proof.
  induction queue as [|x queue IH]; intros n rem Hq Hrem; (split; [apply takes_length|]); [done|]. apply Forall_cons in Hq as [[Hx Hpos] Hq]. intros [|i] o q Hi Ht; cbn [takes] in *.
  - cbn in Hi. injection Hi as <-. unfold before, filled_before. rewrite take_0. unfold zsum. cbn. rewrite Z.sub_0_r, Z.add_0_r. split; [done|].
    destruct (_ && _); cbn in Ht; by injection Ht as <-.
  - cbn in Hi. destruct ((n <? max) && (0 <? rem) && negb (unacceptable rem x)) eqn:Ec; cbn in Ht.
    + set (f := Z.min rem (dk_qty x)) in *. assert (Hf : 0 < f <= rem) by (unfold f; lia). destruct (IH (n + 1) (rem - f) Hq ltac:(lia)) as [_ IH']. specialize (IH' i o q Hi Ht). cbn zeta in IH'.
      set (taken := takes max queue (n + 1) (rem - f)) in *. assert (E : before (S i) (f :: taken) = f + before i taken /\ filled_before (S i) (f :: taken) = 1 + filled_before i taken).
      { unfold before, filled_before. cbn [take]. rewrite zsum_cons, filter_cons_True by lia. cbn [length]. lia. } destruct E as [-> ->].
      replace (rem - (f + before i taken)) with (rem - f - before i taken) by lia. by replace (n + (1 + filled_before i taken)) with (n + 1 + filled_before i taken) by lia.
    + destruct (IH n rem Hq Hrem) as [_ IH']. specialize (IH' i o q Hi Ht). cbn zeta in IH'. set (taken := takes max queue n rem) in *.
      assert (E : before (S i) (0 :: taken) = before i taken /\ filled_before (S i) (0 :: taken) = filled_before i taken).
      { unfold before, filled_before. cbn [take]. rewrite zsum_cons, filter_cons_False by lia. lia. } by destruct E as [-> ->].
Qed.

(** Consequences: nobody is passed over, and no one gets more than there is. *)
Section greedy.
Context (max wanted : Z) (queue : list DarkOrder) (taken : list Z) (Hg : greedy max wanted queue taken) (Hq : Forall resting queue) (Hwanted : 0 <= wanted) (Hmax : 0 <= max).

Lemma greedy_at i q : taken !! i = Some q -> exists o, queue !! i = Some o /\ resting o /\ 0 <= wanted - before i taken /\
  q = (if (filled_before i taken <? max) && (0 <? wanted - before i taken) && negb (unacceptable (wanted - before i taken) o) then Z.min (wanted - before i taken) (dk_qty o) else 0).
Proof.
  intros Hi. destruct Hg as [Hl Hall]. destruct (lookup_lt_is_Some_2 queue i) as [o Ho]; [rewrite <- Hl; by eapply lookup_lt_Some|]. exists o. split; [done|].
  split; [by eapply Forall_lookup_1|]. by apply Hall.
Qed.

Lemma taken_nonneg : Forall (Z.le 0) taken.
Proof.
  apply Forall_lookup_2. intros i q Hi. destruct (greedy_at i q Hi) as (o & _ & [_ Hpos] & Hr & ->). destruct (_ && _); lia.
Qed.

Lemma taken_total : before (length taken) taken <= wanted /\ filled_before (length taken) taken <= max.
Proof.
  assert (Hall : forall i, (i <= length taken)%nat -> before i taken <= wanted /\ filled_before i taken <= max); [|by apply Hall].
  induction i as [|i IH]; intros Hi; [unfold before, filled_before; rewrite take_0; cbn; lia|].
  destruct (lookup_lt_is_Some_2 taken i ltac:(lia)) as [q Ht]. destruct (before_next taken i q Ht) as [-> ->]. destruct (greedy_at i q Ht) as (o & _ & [_ Hpos] & Hr & Eq).
  destruct ((filled_before i taken <? max) && (0 <? wanted - before i taken) && negb (unacceptable (wanted - before i taken) o)) eqn:Ec; [|subst q; cbn; lia].
  split_guards. destruct (0 <? q); lia.
Qed.

Lemma not_passed_over i j o q q' : (i < j)%nat -> queue !! i = Some o -> taken !! i = Some q -> taken !! j = Some q' -> 0 < q' ->
  q = dk_qty o \/ (q = 0 /\ unacceptable (wanted - before i taken) o = true).
Proof.
  intros Hij Ho Hi Hj Hq'. destruct (greedy_at i q Hi) as (o' & Ho' & [_ Hpos] & Hr & Eq). rewrite Ho in Ho'. injection Ho' as <-.
  destruct (greedy_at j q' Hj) as (oj & _ & _ & _ & Eq'). destruct ((filled_before j taken <? max) && (0 <? wanted - before j taken) && negb (unacceptable (wanted - before j taken) oj)) eqn:Ecj; [|lia].
  split_guards. destruct (before_mono taken (S i) j taken_nonneg ltac:(lia)) as [Hm1 Hm2]. destruct (before_next taken i q Hi) as [E1 E2]. rewrite E1, E2 in *.
  destruct (unacceptable (wanted - before i taken) o) eqn:Eu; [right; split; [|done]; rewrite Eq; by rewrite andb_false_r|left].
  assert (Hn : 0 <= q) by (pose proof taken_nonneg as Hn; rewrite Forall_lookup in Hn; by eapply Hn). cbn [negb] in Eq. rewrite andb_true_r in Eq.
  destruct ((filled_before i taken <? max) && (0 <? wanted - before i taken)) eqn:Ec; [lia|]. subst q. cbn in *. lia.
Qed.
End greedy.

(** ** The pool over its history *)
Inductive dark_op :=
  | DAdd (order_id firm_id symbol_idx side : Z) (mode : DisplayMode) (price qty min_qty ts_ns : Z)
  | DCancel (order_id : Z)
  | DMatch (t : Taker) (best_bid best_ask : Z) (out_ok : bool) (max_fills : Z).

Definition dark_do (sort : (nat -> nat -> bool) -> list nat -> list nat) (p : option DarkPoolEngine) (op : dark_op) : option DarkPoolEngine :=
  p ← p;
  match op with
  | DAdd id firm symbol side mode price qty min ts => Some (darkpool.add_order id firm symbol side mode price qty min ts p).2
  | DCancel id => Some (darkpool.cancel_order id p).2
  | DMatch t bid ask out_ok max => snd <$> darkpool.match_cross sort t bid ask out_ok max p
  end.

Definition dark_run (sort : (nat -> nat -> bool) -> list nat -> list nat) (ops : list dark_op) : option DarkPoolEngine := foldl (dark_do sort) (Some darkpool.fresh) ops.

(** The orders that rest in the pool. *)
Definition pool (p : DarkPoolEngine) : list DarkOrder := actives dk_active (dp_orders p).

Record pool_ok (p : DarkPoolEngine) : Prop := {
  po_size : length (dp_orders p) = Z.to_nat darkpool.kMaxRestingOrders;
  po_count : dp_order_count p = Z.of_nat (length (pool p));
  po_resting : Forall resting (pool p);
}.

Lemma pool_small p : pool_ok p -> 0 <= dp_order_count p <= 1024.
Proof. intros [Hs Hc _]. pose proof (actives_length dk_active (dp_orders p)) as Hl. fold (pool p) in Hl. rewrite Hs in Hl. unfold darkpool.kMaxRestingOrders in Hl. lia. Qed.

Lemma add_pool_ok id firm symbol side mode price qty min ts p : pool_ok p -> pool_ok (darkpool.add_order id firm symbol side mode price qty min ts p).2.
Proof.
  intros Hp. pose proof (pool_small p Hp) as Hsm. destruct Hp as [Hs Hc Hr]. unfold darkpool.add_order. destruct (_ || _) eqn:E; [done|]. unfold darkpool.kMaxRestingOrders in E.
  destruct (first_free dk_active (dp_orders p)) as [i|] eqn:Ei; [|done]. cbn [snd]. set (o := mkDark _ _ _ _ _ _ _ _ _ _).
  pose proof (fill_slot dk_active (dp_orders p) i o Ei eq_refl) as Hf. split; unfold pool in *; cbn [dp_orders dp_order_count]; [by rewrite length_insert| |].
  - rewrite Hf. cbn [length]. rewrite wrap_u_id by (unfold in_u; lia). lia.
  - rewrite Hf. constructor; [|done]. split; [done|]. cbn. lia.
Qed.

Lemma cancel_pool_ok id p : pool_ok p -> pool_ok (darkpool.cancel_order id p).2.
Proof.
  intros Hp. pose proof (pool_small p Hp) as Hsm. destruct Hp as [Hs Hc Hr]. unfold darkpool.cancel_order.
  pose proof (find_active_spec dk_active (fun o => dk_order_id o = id) (dp_orders p)) as Hf. destruct (find_active _ _ _) as [[i o]|]; [|done]. destruct Hf as (Hi & Ha & _). cbn [snd].
  pose proof (clear_slot dk_active (dp_orders p) i o (darkpool.with_qty (dk_qty o) false o) Hi Ha eq_refl) as Hcl. fold (pool p) in Hcl. rewrite Hcl in Hc, Hr. cbn [length] in Hc.
  split; unfold pool; cbn [dp_orders dp_order_count]; [by rewrite length_insert| |by apply Forall_cons in Hr as [_ ?]]. rewrite wrap_u_id by (unfold in_u; lia). lia.
Qed.

Lemma candidate_active t mid o : darkpool.candidate t mid o = true -> dk_active o = true.
Proof. unfold darkpool.candidate. destruct (dk_active o); [done|]. done. Qed.

Lemma candidates_at t mid orders : ((fun i => nth i orders darkpool.order_init) <$> darkpool.candidate_indices t mid orders) =
  filter (fun o => darkpool.candidate t mid o = true) (actives dk_active orders).
Proof.
  assert (E : filter (fun o => darkpool.candidate t mid o = true) (actives dk_active orders) = filter (fun o => darkpool.candidate t mid o = true) orders).
  { unfold actives. apply list_filter_filter_l. intros o. apply candidate_active. }
  rewrite E. clear E. unfold darkpool.candidate_indices.
  assert (Hgen : forall pre, ((fun i => nth i (pre ++ orders) darkpool.order_init) <$> filter (fun i => darkpool.candidate t mid (nth i (pre ++ orders) darkpool.order_init) = true) (seq (length pre) (length orders))) =
            filter (fun o => darkpool.candidate t mid o = true) orders); [|by apply (Hgen [])].
  induction orders as [|o orders IH]; intros pre; [done|]. cbn [length seq]. rewrite !filter_cons. rewrite nth_middle. specialize (IH (pre ++ [o])). rewrite length_app, Nat.add_1_r, <- app_assoc in IH.
  cbn [app] in IH. destruct (decide _); [|exact IH]. cbn [fmap list_fmap]. rewrite nth_middle. by rewrite IH.
Qed.


(** *** One cross *)
Definition midpoint (best_bid best_ask : Z) : Z := Z.quot (best_bid + best_ask) 2.

(** The orders that a taker can meet, and those it leaves alone. *)
Definition eligible (t : Taker) (mid : Z) (p : DarkPoolEngine) : list DarkOrder := filter (can_meet t mid) (pool p).
Definition bystanders (t : Taker) (mid : Z) (p : DarkPoolEngine) : list DarkOrder := filter (fun o => ~ can_meet t mid o) (pool p).

Lemma eligible_candidates t mid p : filter (fun o => darkpool.candidate t mid o = true) (pool p) = eligible t mid p.
Proof.
  unfold eligible, pool, actives. induction (dp_orders p) as [|o l IH]; [done|]. rewrite (filter_cons (fun o => dk_active o = true)).
  destruct (decide (dk_active o = true)) as [Ha|_]; [|exact IH]. pose proof (candidate_can_meet t mid o Ha) as Hiff.
  rewrite (filter_cons (fun o => darkpool.candidate t mid o = true)), (filter_cons (can_meet t mid)), IH. by destruct (decide (can_meet t mid o)), (decide (darkpool.candidate t mid o = true)); try tauto.
Qed.

Lemma in_order_map {A B} (less : B -> B -> bool) (f : A -> B) l : in_order (fun a b => less (f a) (f b)) l -> in_order less (f <$> l).
Proof.
  intros H i j x y Hx Hy Hij. apply list_lookup_fmap_Some in Hx as (a & -> & Ha). apply list_lookup_fmap_Some in Hy as (b & -> & Hb). by apply (H i j).
Qed.

Record crossed (t : Taker) (mid max : Z) (p : DarkPoolEngine) (queue : list DarkOrder) (taken : list Z) (fills : list MatchFill) (p' : DarkPoolEngine) : Prop := {
  cr_queue : queue ≡ₚ eligible t mid p;
  cr_order : by_priority t mid queue;
  cr_greedy : greedy max (tk_qty t) queue taken;
  cr_fills : fills = fills_of t mid queue taken;
  cr_pool : pool p' ≡ₚ bystanders t mid p ++ remains queue taken;
}.

Lemma remains_ok queue taken : Forall resting queue -> (forall i o q, queue !! i = Some o -> taken !! i = Some q -> q <= dk_qty o) -> Forall resting (remains queue taken).
Proof.
  intros Hq Hle. unfold remains. apply Forall_bind, Forall_lookup_2. intros i [o q] Hi. apply lookup_zip_Some in Hi as [Ho Ht]. specialize (Hle i o q Ho Ht).
  change (Forall resting (if dk_qty o - q =? 0 then [] else [less_taken o q])).
  destruct (Z.eqb_spec (dk_qty o - q) 0); constructor; [|constructor]. split; [done|]. cbn. lia.
Qed.

Lemma match_crossed sort t bid ask max p : sort_ok sort -> pool_ok p -> 0 < max -> 0 < tk_qty t -> in_s 64 (bid + ask) ->
  exists queue taken fills p', darkpool.match_cross sort t bid ask true max p = Some (fills, p') /\ crossed t (midpoint bid ask) max p queue taken fills p' /\ pool_ok p'.
Proof.
  intros Hsort Hp Hmax Hqty Hsum. pose proof (pool_small p Hp) as Hsm. pose proof Hp as [Hs Hc Hr]. set (mid := midpoint bid ask).
  assert (Ec : darkpool.match_cross sort t bid ask true max p =
    Some (darkpool.fill_loop t mid max (sort (fun a b => darkpool.comes_before t mid (nth a (dp_orders p) darkpool.order_init) (nth b (dp_orders p) darkpool.order_init))
            (darkpool.candidate_indices t mid (dp_orders p))) (tk_qty t) [] p)).
  { unfold darkpool.match_cross. destruct (_ || _) eqn:E; [cbn in E; lia|]. unfold s64_add. unfold in_s in Hsum. destruct (_ && _) eqn:E2; [done|lia]. }
  rewrite Ec. clear Ec. set (f := fun i => nth i (dp_orders p) darkpool.order_init). set (less := fun a b => darkpool.comes_before t mid (f a) (f b)). change (fun a b => darkpool.comes_before t mid _ _) with less.
  destruct (Hsort less (darkpool.candidate_indices t mid (dp_orders p)) (comes_before_weak t mid f)) as [Hperm Hord]. set (indices := sort less _) in *.
  assert (Hqueue : f <$> indices ≡ₚ eligible t mid p) by (rewrite Hperm; unfold f; rewrite candidates_at; by rewrite <- eligible_candidates). set (queue := f <$> indices) in *.
  assert (Hrest : Forall resting queue). { rewrite Hqueue. apply Forall_forall. intros o [_ Ho]%list_elem_of_filter. rewrite Forall_forall in Hr. by apply Hr. }
  assert (Hocc : Forall (held (dp_orders p)) indices).
  { rewrite Hperm. apply Forall_forall. intros i [Hi Hin]%list_elem_of_filter. apply elem_of_seq in Hin. destruct (lookup_lt_is_Some_2 (dp_orders p) i ltac:(lia)) as [o Ho].
    exists o. split; [done|]. rewrite (at_held _ _ _ Ho) in Hi. rewrite Forall_forall in Hr. apply Hr, actives_elem. split; [by eapply candidate_active|by eapply list_elem_of_lookup_2]. }
  destruct (fill_loop_ok t mid max indices (tk_qty t) [] p (bystanders t mid p)) as (p' & Hrun & Hact & Hlen & Hcount); try done.
  { rewrite Hperm. apply NoDup_filter, NoDup_seq. }
  { fold f. fold queue. rewrite Hqueue. fold (pool p). unfold eligible, bystanders. rewrite Permutation_app_comm. by rewrite filter_app_complement. }
  { lia. } { lia. }
  fold f in Hrun, Hact. fold queue in Hrun, Hact. cbn [length] in Hrun, Hact. change (Z.of_nat 0) with 0 in *. set (taken := takes max queue 0 (tk_qty t)) in *.
  assert (Hg : greedy max (tk_qty t) queue taken). { destruct (takes_greedy max queue 0 (tk_qty t) Hrest ltac:(lia)) as [Hl Hg]. split; [done|]. intros i o q Ho Ht. apply (Hg i o q Ho Ht). }
  exists queue, taken, (fills_of t mid queue taken), p'. split; [by rewrite Hrun|]. split.
  - split; try done. intros i j a b Ha Hb Hij Hba%comes_before_priority.
    rewrite (in_order_map (darkpool.comes_before t mid) f indices Hord i j a b Ha Hb Hij) in Hba. done.
  - split; [by rewrite Hlen|done|]. unfold pool. rewrite Hact. apply Forall_app. split.
    + apply Forall_forall. intros o [_ Ho]%list_elem_of_filter. rewrite Forall_forall in Hr. by apply Hr.
    + apply remains_ok; [done|]. intros i o q Ho Ht. destruct (Hg) as [_ Hlaw]. destruct (Hlaw i o q Ho Ht) as [_ ->]. rewrite Forall_lookup in Hrest. destruct (Hrest i o Ho) as [_ Hpos]. destruct (_ && _); lia.
Qed.

(** The calls are well typed, and the quotes do not overflow when added. *)
Definition dark_op_ok (op : dark_op) : Prop := match op with DMatch _ bid ask _ max => in_s 64 (bid + ask) /\ 0 <= max | _ => True end.

Lemma dark_run_ok sort ops : sort_ok sort -> Forall dark_op_ok ops -> exists p, dark_run sort ops = Some p /\ pool_ok p.
Proof.
  intros Hsort. unfold dark_run. induction ops as [|op ops IH] using rev_ind; intros Hops.
  - exists darkpool.fresh. split; [done|]. assert (E : pool darkpool.fresh = []).
    { unfold pool, darkpool.fresh. cbn [dp_orders]. generalize (Z.to_nat darkpool.kMaxRestingOrders) as n. induction n as [|n IH]; [done|]. cbn [replicate]. by rewrite actives_cons. }
    split; rewrite ?E; [apply length_replicate|done|constructor].
  - apply Forall_app in Hops as [Hops [Hop _]%Forall_cons]. destruct (IH Hops) as (p & E & Hp). rewrite foldl_app, E. cbn [foldl dark_do mbind option_bind]. destruct op as [| |t bid ask out_ok max].
    + eexists. split; [done|]. by apply add_pool_ok.
    + eexists. split; [done|]. by apply cancel_pool_ok.
    + destruct Hop as [Hsum Hmax]. destruct (negb out_ok || (max =? 0) || (tk_qty t <=? 0)) eqn:Ec; [unfold darkpool.match_cross; rewrite Ec; by exists p|].
      split_guards. destruct out_ok; [|done]. destruct (match_crossed sort t bid ask max p Hsort Hp ltac:(lia) ltac:(lia) Hsum) as (? & ? & ? & p' & -> & _ & Hp'). by exists p'.
Qed.

Lemma fill_elem t mid queue taken fl : fl ∈ fills_of t mid queue taken <-> exists i o q, queue !! i = Some o /\ taken !! i = Some q /\ 0 < q /\ fl = fill_for t mid (o, q).
Proof.
  unfold fills_of. rewrite list_elem_of_fmap. split.
  - intros ([o q] & -> & [Hq Hin]%list_elem_of_filter). apply list_elem_of_lookup in Hin as [i Hi]. apply lookup_zip_Some in Hi as [Ho Ht]. by exists i, o, q.
  - intros (i & o & q & Ho & Ht & Hq & ->). exists (o, q). split; [done|]. apply list_elem_of_filter. split; [done|]. apply list_elem_of_lookup. exists i. by apply lookup_zip_Some.
Qed.

Lemma fills_quantity t mid queue : forall taken, Forall (Z.le 0) taken -> length taken = length queue ->
  zsum (fl_match_qty <$> fills_of t mid queue taken) = zsum taken /\ Z.of_nat (length (fills_of t mid queue taken)) = filled_before (length taken) taken.
Proof.
  unfold fills_of, filled_before. induction queue as [|o queue IH]; intros [|q taken] Hn Hl; try done. apply Forall_cons in Hn as [Hq Hn]. injection Hl as Hl. destruct (IH taken Hn Hl) as [E1 E2].
  rewrite firstn_all in *. rewrite !length_fmap in *. cbn [zip zip_with]. change (zip_with pair queue taken) with (zip queue taken). rewrite !filter_cons. cbn [snd].
  destruct (decide (0 < q)); cbn [fmap list_fmap length]; rewrite ?zsum_cons; cbn [fill_for fl_match_qty snd]; lia.
Qed.

(** C30: a cross of the dark pool serves the resting orders by priority.  In
    every state the pool reaches by additions, cancellations and crosses, and
    whatever [std::sort] makes of ties: the cross returns; the orders that the
    taker can meet (other side, same symbol, another firm, a price within the
    taker's limit, a pegged order trading at the midpoint) stand in a queue in
    which nobody is behind one he has priority over: a better price, at one price
    the displayed before the others, then the earlier; each order of the
    queue gives all it has, or all the taker still wants, if the taker may have
    another fill and the order's minimum is met, and nothing otherwise, so that
    no order is passed over for one behind it unless its minimum was not met;
    the fills are exactly these quantities, at the order's price (or the
    midpoint), never worse than the taker's limit, never more than the taker
    wants nor more than [max_fills]; and the pool is left with the other orders
    and the rests.  The number [active_orders] gives is the size of the pool. *)
Theorem dark_cross_by_priority (sort : (nat -> nat -> bool) -> list nat -> list nat) (ops : list dark_op) (t : Taker) (best_bid best_ask max : Z) (mid := midpoint best_bid best_ask)
    (Hsort : sort_ok sort) (Hops : Forall dark_op_ok ops) (Hmax : 0 < max) (Hqty : 0 < tk_qty t) (Hsum : in_s 64 (best_bid + best_ask)) :
  exists p queue taken fills p', dark_run sort ops = Some p /\ darkpool.match_cross sort t best_bid best_ask true max p = Some (fills, p') /\
    queue ≡ₚ eligible t mid p /\ by_priority t mid queue /\ greedy max (tk_qty t) queue taken /\
    fills = fills_of t mid queue taken /\ pool p' ≡ₚ bystanders t mid p ++ remains queue taken /\
    (forall i j o q q', (i < j)%nat -> queue !! i = Some o -> taken !! i = Some q -> taken !! j = Some q' -> 0 < q' ->
       q = dk_qty o \/ (q = 0 /\ unacceptable (tk_qty t - before i taken) o = true)) /\
    zsum (fl_match_qty <$> fills) <= tk_qty t /\ Z.of_nat (length fills) <= max /\
    (forall fl, fl ∈ fills -> 0 < fl_match_qty fl /\ if tk_side t =? exec.kBuy then fl_match_price fl <= tk_price t else tk_price t <= fl_match_price fl) /\
    darkpool.active_orders p' = Z.of_nat (length (pool p')).
Proof.
  destruct (dark_run_ok sort ops Hsort Hops) as (p & Erun & Hp). destruct (match_crossed sort t best_bid best_ask max p Hsort Hp Hmax Hqty Hsum) as (queue & taken & fills & p' & Ecross & Hcr & Hp').
  destruct Hcr as [C1 C2 C3 C4 C5]. fold mid in C1, C2, C4, C5. exists p, queue, taken, fills, p'. do 7 (split; [done|]).
  assert (Hel : forall o, o ∈ queue -> resting o /\ can_meet t mid o).
  { intros o Ho. rewrite C1 in Ho. apply list_elem_of_filter in Ho as [Hc Ho]. pose proof (po_resting p Hp) as Hr. rewrite Forall_forall in Hr. by split; [apply Hr|]. }
  assert (Hrest : Forall resting queue) by (apply Forall_forall; intros o Ho; by apply Hel).
  pose proof (taken_nonneg max (tk_qty t) queue taken C3 Hrest) as Hn. destruct (taken_total max (tk_qty t) queue taken C3 Hrest ltac:(lia) ltac:(lia)) as [Ht1 Ht2].
  destruct (fills_quantity t mid queue taken Hn (proj1 C3)) as [E1 E2]. unfold before in Ht1. rewrite firstn_all in Ht1.
  split; [intros i j o q q' Hij Ho Hi Hj Hq'; by apply (not_passed_over max (tk_qty t) queue taken C3 Hrest i j o q q')|].
  split; [rewrite C4, E1; done|]. split; [rewrite C4, E2; done|]. split; [|apply (po_count p' Hp')].
  intros fl Hfl. rewrite C4 in Hfl. apply fill_elem in Hfl as (i & o & q & Ho & _ & Hq & ->). cbn [fill_for fl_match_qty fl_match_price fst snd]. split; [done|].
  destruct (Hel o ltac:(by eapply list_elem_of_lookup_2)) as [_ (_ & _ & _ & Hc)]. destruct (Z.eqb_spec (tk_side t) exec.kBuy); [by rewrite decide_True in Hc|by rewrite decide_False in Hc].
Qed.

(** *** A sort that meets the contract, and a cross *)
Definition not_after {A} (less : A -> A -> bool) (a b : A) : Prop := less b a = false.
#[export] Instance not_after_dec {A} (less : A -> A -> bool) : RelDecision (not_after less).
Proof. intros a b. unfold not_after. apply _. Defined.

Definition stable_sort (less : nat -> nat -> bool) (l : list nat) : list nat := merge_sort (not_after less) l.

Lemma sorted_in_order {A} (less : A -> A -> bool) l : StronglySorted (not_after less) l -> in_order less l.
Proof.
  induction 1 as [|a l Hs IH Ha]; intros i j x y Hx Hy Hij; [done|]. destruct j as [|j]; [lia|]. cbn in Hy. destruct i as [|i]; cbn in Hx.
  - injection Hx as <-. rewrite Forall_lookup in Ha. by apply (Ha j).
  - apply (IH i j); done || lia.
Qed.

Lemma stable_sort_ok : sort_ok stable_sort.
Proof.
  intros less l [Hirr Htr Hties]. unfold stable_sort. set (R := not_after less). split; [apply merge_sort_Permutation|]. apply sorted_in_order.
  assert (Htotal : Total R). { intros a b. unfold R, not_after. destruct (less b a) eqn:E1; [|by left]. right. destruct (less a b) eqn:E2; [|done]. pose proof (Htr _ _ _ E1 E2). by rewrite Hirr in *. }
  assert (Htrans : Transitive R).
  { intros a b c Hab Hbc. unfold R, not_after in *. destruct (less c a) eqn:E; [|done]. destruct (less a b) eqn:E1.
    - by rewrite (Htr c a b E E1) in Hbc.
    - destruct (less b c) eqn:E2; [by rewrite (Htr b c a E2 E) in Hab|]. destruct (Hties a b c E1 Hab E2 Hbc) as [_ Hx]. congruence. }
  by apply (StronglySorted_merge_sort R).
Qed.

Definition demo_pool : list dark_op :=
  [DAdd 1 10 1 exec.kSell kDisplayed 105 100 0 30; DAdd 2 11 1 exec.kSell kHidden 104 50 0 20; DAdd 3 12 1 exec.kSell kMidpointPeg 0 80 60 10;
   DAdd 4 99 1 exec.kSell kDisplayed 100 500 0 5; DAdd 5 13 1 exec.kSell kDisplayed 104 40 0 40].
Definition demo_taker : Taker := mkTaker 77 99 1 exec.kBuy 105 150.

Definition fill_summary (r : list MatchFill * DarkPoolEngine) : list (Z * Z * Z) := (fun f => (fl_maker_order_id f, fl_match_price f, fl_match_qty f)) <$> r.1.

(** The midpoint order comes first, the displayed one at 104 before the hidden
    one; the order of the taker's own firm is left alone. *)
Lemma dark_cross_by_priority_witness : exists p fills p', dark_run stable_sort demo_pool = Some p /\
  darkpool.match_cross stable_sort demo_taker 102 104 true 8 p = Some (fills, p') /\
  fill_summary (fills, p') = [(3, 103, 80); (5, 104, 40); (2, 104, 30)] /\ zsum (fl_match_qty <$> fills) <= 150.
Proof.
  destruct (dark_cross_by_priority stable_sort demo_pool demo_taker 102 104 8 stable_sort_ok) as (p & queue & taken & fills & p' & Er & Ec & _ & _ & _ & _ & _ & _ & Hz & _).
  - repeat (constructor; [exact I|]). constructor.
  - reflexivity.
  - reflexivity.
  - unfold in_s. cbn. lia.
  - exists p, fills, p'. split; [exact Er|]. split; [exact Ec|]. split; [|exact Hz].
    assert (E : fill_summary <$>
              (p ← dark_run stable_sort demo_pool; darkpool.match_cross stable_sort demo_taker 102 104 true 8 p) = Some [(3, 103, 80); (5, 104, 40); (2, 104, 30)]) by (vm_compute; reflexivity).
    rewrite Er in E. cbn [mbind option_bind] in E. rewrite Ec in E. apply (inj Some) in E. exact E.
Defined.

(** An order that holds less than its minimum, because the minimum was too
    large from the start or because a fill has left less, gives nothing to any
    taker and stays in the pool until it is cancelled. *)
Theorem dark_rest_below_minimum_stuck max wanted queue taken i o q : greedy max wanted queue taken -> queue !! i = Some o -> taken !! i = Some q ->
  0 < dk_min_qty o -> dk_qty o < dk_min_qty o -> q = 0.
Proof.
  intros [_ Hg] Ho Hq Hmin Hless. destruct (Hg i o q Ho Hq) as [_ ->]. assert (Hu : unacceptable (wanted - before i taken) o = true) by (unfold unacceptable; lia).
  rewrite Hu. by rewrite andb_false_r.
Qed.
