(* ===== verification/Mbo.v ===== *)
(** * Level3MarketByOrderBook (luv_mbo.hpp): single orders and their queue

    The book is a table of slots; seen from outside it is a finite map from
    order ids to orders.  Differences and sums of quantities are in [int64_t]:
    [None] is an overflow. *)
From Stdlib Require Import ZArith Lia ZifyBool.
From S2P Require Import Prelude ExecTypes Slots.

Record MboOrder := mkMbo {
  mo_order_id : Z;                 (* uint64_t *)
  mo_symbol_idx : Z;               (* uint16_t *)
  mo_side : Z;                     (* uint8_t *)
  mo_price : Z;                    (* int64_t *)
  mo_qty : Z;                      (* int64_t *)
  mo_priority_ts : Z;              (* uint64_t *)
  mo_active : bool;
}.

Record Level3MarketByOrderBook := mkMboBook { mb_orders : list MboOrder; mb_order_count : Z (* size_t *) }.

Module mbo.

Definition kMaxOrders : Z := 4096.

Definition order_init : MboOrder := mkMbo 0 0 exec.kBuy 0 0 0 false.
Definition fresh : Level3MarketByOrderBook := mkMboBook (replicate (Z.to_nat kMaxOrders) order_init) 0.

Definition has_id (order_id : Z) (o : MboOrder) : Prop := mo_order_id o = order_id.
#[global] Instance has_id_dec order_id o : Decision (has_id order_id o).
Proof. unfold has_id. apply _. Defined.

Definition deactivate (o : MboOrder) : MboOrder := mkMbo (mo_order_id o) (mo_symbol_idx o) (mo_side o) (mo_price o) (mo_qty o) (mo_priority_ts o) false.

(** An order taken out of its slot, and one replaced in its slot. *)
Definition remove (i : nat) (o : MboOrder) (b : Level3MarketByOrderBook) : Level3MarketByOrderBook :=
  mkMboBook (<[i := deactivate o]> (mb_orders b)) (u64 (mb_order_count b - 1)).
Definition put (i : nat) (o : MboOrder) (b : Level3MarketByOrderBook) : Level3MarketByOrderBook := mkMboBook (<[i := o]> (mb_orders b)) (mb_order_count b).

Definition add_order (order_id symbol side price qty ts : Z) (b : Level3MarketByOrderBook) : bool * Level3MarketByOrderBook :=
  if (kMaxOrders <=? mb_order_count b) || (qty <=? 0) then (false, b)
  else
    match find_active mo_active (has_id order_id) (mb_orders b) with
    | Some _ => (false, b)
    | None =>
        match first_free mo_active (mb_orders b) with
        | Some i => (true, mkMboBook (<[i := mkMbo order_id symbol side price qty ts true]> (mb_orders b)) (u64 (mb_order_count b + 1)))
        | None => (false, b)
        end
    end.

Definition modify_order (order_id new_qty new_price new_ts : Z) (b : Level3MarketByOrderBook) : bool * Level3MarketByOrderBook :=
  match find_active mo_active (has_id order_id) (mb_orders b) with
  | Some (i, o) =>
      if new_qty <=? 0 then (true, remove i o b)
      else
        let ts := if negb (new_price =? mo_price o) || (mo_qty o <? new_qty) then new_ts else mo_priority_ts o in
        (true, put i (mkMbo (mo_order_id o) (mo_symbol_idx o) (mo_side o) new_price new_qty ts (mo_active o)) b)
  | None => (false, b)
  end.

Definition cancel_order (order_id : Z) (b : Level3MarketByOrderBook) : bool * Level3MarketByOrderBook :=
  match find_active mo_active (has_id order_id) (mb_orders b) with Some (i, o) => (true, remove i o b) | None => (false, b) end.

Definition execute_order (order_id exec_qty : Z) (b : Level3MarketByOrderBook) : option (bool * Level3MarketByOrderBook) :=
  match find_active mo_active (has_id order_id) (mb_orders b) with
  | Some (i, o) =>
      if mo_qty o <=? exec_qty then Some (true, remove i o b)
      else
        qty ← s64_add (mo_qty o) (- exec_qty);
        Some (true, put i (mkMbo (mo_order_id o) (mo_symbol_idx o) (mo_side o) (mo_price o) qty (mo_priority_ts o) (mo_active o)) b)
  | None => Some (false, b)
  end.

(** The condition of the second loop: same level, another order, earlier. *)
Definition is_ahead (target o : MboOrder) : bool :=
  (mo_symbol_idx o =? mo_symbol_idx target) && (mo_side o =? mo_side target) && (mo_price o =? mo_price target) &&
  negb (mo_order_id o =? mo_order_id target) && (mo_priority_ts o <? mo_priority_ts target).

Fixpoint sum_ahead (target : MboOrder) (orders : list MboOrder) (ahead_qty : Z) : option Z :=
  match orders with
  | [] => Some ahead_qty
  | o :: orders =>
      if mo_active o && is_ahead target o then ahead_qty ← s64_add ahead_qty (mo_qty o); sum_ahead target orders ahead_qty
      else sum_ahead target orders ahead_qty
  end.

Definition compute_queue_ahead (order_id : Z) (b : Level3MarketByOrderBook) : option Z :=
  match find_active mo_active (has_id order_id) (mb_orders b) with
  | Some (_, target) => sum_ahead target (mb_orders b) 0
  | None => Some (-1)
  end.

Definition order_count (b : Level3MarketByOrderBook) : Z := mb_order_count b.

End mbo.

(** ** The book as a map *)
Inductive mbo_op :=
  | MAdd (order_id symbol side price qty ts : Z)
  | MModify (order_id new_qty new_price new_ts : Z)
  | MCancel (order_id : Z)
  | MExecute (order_id exec_qty : Z)
  | MQueueAhead (order_id : Z).

(** A call with its result, [0] and [1] for a [bool]. *)
Definition mbo_do (op : mbo_op) (b : Level3MarketByOrderBook) : option (Z * Level3MarketByOrderBook) :=
  let answer := fun r : bool * Level3MarketByOrderBook => (bit r.1, r.2) in
  match op with
  | MAdd id symbol side price qty ts => Some (answer (mbo.add_order id symbol side price qty ts b))
  | MModify id qty price ts => Some (answer (mbo.modify_order id qty price ts b))
  | MCancel id => Some (answer (mbo.cancel_order id b))
  | MExecute id qty => answer <$> mbo.execute_order id qty b
  | MQueueAhead id => (fun q => (q, b)) <$> mbo.compute_queue_ahead id b
  end.

Fixpoint mbo_run (ops : list mbo_op) (b : Level3MarketByOrderBook) : option (list Z * Level3MarketByOrderBook) :=
  match ops with
  | [] => Some ([], b)
  | op :: ops => '(r, b) ← mbo_do op b; '(rs, b) ← mbo_run ops b; Some (r :: rs, b)
  end.

(** The specification: the live orders by id. *)
Abbreviation live_orders := (gmap Z MboOrder).

Definition queue_ahead (M : live_orders) (target : MboOrder) : Z := zsum (mo_qty <$> filter (fun o => mbo.is_ahead target o = true) (snd <$> map_to_list M)).

Definition spec_do (op : mbo_op) (M : live_orders) : Z * live_orders :=
  match op with
  | MAdd id symbol side price qty ts =>
      if (Z.of_nat (size M) <? mbo.kMaxOrders) && (0 <? qty) && bool_decide (M !! id = None) then (1, <[id := mkMbo id symbol side price qty ts true]> M) else (0, M)
  | MModify id qty price ts =>
      match M !! id with
      | None => (0, M)
      | Some o =>
          if qty <=? 0 then (1, delete id M)
          else
            let keeps := bool_decide (price = mo_price o /\ qty <= mo_qty o) in
            (1, <[id := mkMbo id (mo_symbol_idx o) (mo_side o) price qty (if keeps then mo_priority_ts o else ts) true]> M)
      end
  | MCancel id => match M !! id with None => (0, M) | Some _ => (1, delete id M) end
  | MExecute id qty =>
      match M !! id with
      | None => (0, M)
      | Some o => if mo_qty o <=? qty then (1, delete id M)
                  else (1, <[id := mkMbo id (mo_symbol_idx o) (mo_side o) (mo_price o) (mo_qty o - qty) (mo_priority_ts o) true]> M)
      end
  | MQueueAhead id => (match M !! id with None => -1 | Some o => queue_ahead M o end, M)
  end.

Fixpoint spec_run (ops : list mbo_op) (M : live_orders) : list Z * live_orders :=
  match ops with
  | [] => ([], M)
  | op :: ops => let '(r, M) := spec_do op M in let '(rs, M) := spec_run ops M in (r :: rs, M)
  end.

(** Quantities of at most [2^50], and no negative executions. *)
Definition mbo_op_ok (op : mbo_op) : Prop :=
  match op with
  | MAdd _ _ _ _ qty _ => qty <= 2 ^ 50
  | MModify _ qty _ _ => qty <= 2 ^ 50
  | MExecute _ qty => 0 <= qty
  | _ => True
  end.

Record represents (b : Level3MarketByOrderBook) (M : live_orders) : Prop := {
  rm_size : length (mb_orders b) = Z.to_nat mbo.kMaxOrders;
  rm_orders : actives mo_active (mb_orders b) ≡ₚ snd <$> map_to_list M;
  rm_count : mb_order_count b = Z.of_nat (size M);
  rm_live id o : M !! id = Some o -> mo_order_id o = id /\ mo_active o = true /\ 0 < mo_qty o <= 2 ^ 50;
}.

Lemma values_lookup (M : live_orders) o : o ∈ (snd <$> map_to_list M) <-> exists id, M !! id = Some o.
Proof.
  rewrite list_elem_of_fmap. split; [intros ([id x] & -> & Hin%elem_of_map_to_list); by exists id|]. intros [id Hid]. exists (id, o). split; [done|by apply elem_of_map_to_list].
Qed.

Lemma values_insert (M : live_orders) id o : M !! id = None -> (snd <$> map_to_list (<[id := o]> M)) ≡ₚ o :: (snd <$> map_to_list M).
Proof. intros Hid. by rewrite map_to_list_insert. Qed.

Lemma values_delete (M : live_orders) id o : M !! id = Some o -> (snd <$> map_to_list M) ≡ₚ o :: (snd <$> map_to_list (delete id M)).
Proof. intros Hid. rewrite <- (values_insert (delete id M) id o) by apply lookup_delete_eq. by rewrite insert_delete_id. Qed.

Section represents.
Context (b : Level3MarketByOrderBook) (M : live_orders) (Hr : represents b M).

Lemma live_small : Z.of_nat (size M) <= 4096 /\ length (actives mo_active (mb_orders b)) = size M.
Proof.
  destruct Hr as [Hs Ho Hc _]. assert (E : length (actives mo_active (mb_orders b)) = size M) by (by rewrite Ho, length_fmap, length_map_to_list). split; [|done].
  pose proof (actives_length mo_active (mb_orders b)) as Hl. rewrite E, Hs in Hl. unfold mbo.kMaxOrders in Hl. lia.
Qed.

(** The walk over the slots is the lookup in the map. *)
Lemma walk_lookup id : match find_active mo_active (mbo.has_id id) (mb_orders b) with
  | Some (i, o) => mb_orders b !! i = Some o /\ mo_active o = true /\ M !! id = Some o
  | None => M !! id = None
  end.
Proof.
  pose proof (find_active_spec mo_active (mbo.has_id id) (mb_orders b)) as Hf. destruct (find_active _ _ _) as [[i o]|].
  - destruct Hf as (Hi & Ha & Hid). split_and!; [done|done|]. assert (Hin : o ∈ actives mo_active (mb_orders b)) by (apply actives_elem; split; [done|by eapply list_elem_of_lookup_2]).
    rewrite (rm_orders _ _ Hr) in Hin. apply values_lookup in Hin as [id' Hid']. destruct (rm_live _ _ Hr _ _ Hid') as [E _]. unfold mbo.has_id in Hid. congruence.
  - destruct (M !! id) as [o|] eqn:E; [|done]. exfalso. apply (Hf o); [|by apply (rm_live _ _ Hr)]. rewrite (rm_orders _ _ Hr). apply values_lookup. by exists id.
Qed.

Lemma remove_represents i o id : mb_orders b !! i = Some o -> mo_active o = true -> M !! id = Some o -> represents (mbo.remove i o b) (delete id M).
Proof.
  intros Hi Ha Hid. pose proof live_small as [Hsm _]. destruct Hr as [Hs Ho Hc Hl]. pose proof (Permutation_length (values_delete M id o Hid)) as Hsz.
  cbn [length] in Hsz. rewrite !length_fmap, !length_map_to_list in Hsz.
  split; cbn [mbo.remove mb_orders mb_order_count].
  - by rewrite length_insert.
  - apply (Permutation_cons_inv (a := o)). rewrite <- (clear_slot mo_active (mb_orders b) i o (mbo.deactivate o) Hi Ha eq_refl), Ho. by apply values_delete.
  - rewrite wrap_u_id by (unfold in_u; lia). lia.
  - intros id' o' H'. apply lookup_delete_Some in H' as [_ H']. by apply Hl.
Qed.

Lemma put_represents i o o' id : mb_orders b !! i = Some o -> mo_active o = true -> M !! id = Some o -> mo_order_id o' = id -> mo_active o' = true -> 0 < mo_qty o' <= 2 ^ 50 ->
  represents (mbo.put i o' b) (<[id := o']> M).
Proof.
  intros Hi Ha Hid Eid Ea Hq. destruct Hr as [Hs Ho Hc Hl]. split; cbn [mbo.put mb_orders mb_order_count].
  - by rewrite length_insert.
  - destruct (set_slot mo_active (mb_orders b) i o o' Hi Ha Ea) as (rest & E1 & E2). rewrite E2. rewrite <- insert_delete_eq, values_insert by apply lookup_delete_eq.
    f_equiv. apply (Permutation_cons_inv (a := o)). by rewrite <- E1, Ho, <- values_delete.
  - by rewrite map_size_insert_Some by by eexists.
  - intros id' x H'. apply lookup_insert_Some in H' as [[<- <-]|[_ H']]; [done|by apply Hl].
Qed.

Lemma sum_ahead_ok target orders : forall acc, Forall (fun o => 0 <= mo_qty o <= 2 ^ 50) (actives mo_active orders) -> 0 <= acc ->
  acc + 2 ^ 50 * Z.of_nat (length (actives mo_active orders)) <= INT64_MAX ->
  mbo.sum_ahead target orders acc = Some (acc + zsum (mo_qty <$> filter (fun o => mbo.is_ahead target o = true) (actives mo_active orders))).
Proof.
  induction orders as [|o orders IH]; intros acc Hq Hacc Hmax; cbn [mbo.sum_ahead]; [unfold zsum; cbn; f_equal; lia|]. rewrite actives_cons in *.
  destruct (mo_active o); cbn [andb]; [|by apply IH]. apply Forall_cons in Hq as [Ho Hq]. cbn [length] in Hmax. rewrite filter_cons. destruct (mbo.is_ahead target o); cbn [decide].
  - rewrite decide_True by done. unfold s64_add. destruct (_ && _) eqn:E; [|lia]. cbn [mbind option_bind]. rewrite IH by (done || lia). cbn [fmap list_fmap]. rewrite zsum_cons. f_equal. lia.
  - rewrite decide_False by done. apply IH; done || lia.
Qed.

Lemma mbo_do_ok op : mbo_op_ok op -> exists r M' b', spec_do op M = (r, M') /\ mbo_do op b = Some (r, b') /\ represents b' M'.
Proof.
  intros Hop. pose proof live_small as [Hsm Hact]. pose proof Hr as [Hs Ho Hc Hl]. destruct op as [id symbol side price qty ts|id qty price ts|id|id qty|id]; cbn [spec_do mbo_do mbo_op_ok] in *; pose proof (walk_lookup id) as Hw.
  - unfold mbo.add_order. rewrite Hc. unfold mbo.kMaxOrders in *. destruct (_ || _) eqn:E; [exists 0, M, b; destruct (_ && _) eqn:E2; [lia|done]|].
    destruct (find_active _ _ _) as [[i o]|]; [destruct Hw as (_ & _ & Hw)|]; rewrite Hw.
    { exists 0, M, b. rewrite bool_decide_eq_false_2 by done. by rewrite andb_false_r. }
    destruct (free_exists mo_active (mb_orders b)) as [i Hi]; [rewrite Hact, Hs; lia|]. rewrite Hi. set (o := mkMbo _ _ _ _ _ _ _). exists 1, (<[id := o]> M). eexists.
    destruct (_ && _) eqn:E2; [|rewrite bool_decide_eq_true_2 in E2 by done; lia]. split; [done|]. split; [done|]. split; cbn [snd mb_orders mb_order_count].
    + by rewrite length_insert.
    + by rewrite (fill_slot mo_active (mb_orders b) i o Hi eq_refl), values_insert, Ho.
    + rewrite map_size_insert_None by done. rewrite wrap_u_id by (unfold in_u; lia). lia.
    + intros id' x H'. apply lookup_insert_Some in H' as [[<- <-]|[_ H']]; [|by apply Hl]. cbn. split_and!; [done|done|lia|lia].
  - unfold mbo.modify_order. destruct (find_active _ _ _) as [[i o]|]; [destruct Hw as (Hi & Ha & Hw)|]; rewrite Hw; [|by exists 0, M, b]. destruct (Hl id o Hw) as (Eid & _ & Hq).
    destruct (Z.leb_spec qty 0); [exists 1, (delete id M); eexists; split; [done|]; split; [done|]; by apply remove_represents|]. eexists _, _, _. split; [done|]. split; [done|]. cbn [snd].
    rewrite Eid, Ha.
    assert (E : (if negb (price =? mo_price o) || (mo_qty o <? qty) then ts else mo_priority_ts o) = (if bool_decide (price = mo_price o /\ qty <= mo_qty o) then mo_priority_ts o else ts))
      by (destruct (bool_decide _) eqn:Eb; [apply bool_decide_eq_true_1 in Eb|apply bool_decide_eq_false_1 in Eb]; destruct (_ || _) eqn:E; done || lia).
    rewrite E. apply (put_represents i o); done.
  - unfold mbo.cancel_order. destruct (find_active _ _ _) as [[i o]|]; [destruct Hw as (Hi & Ha & Hw)|]; rewrite Hw; [|by exists 0, M, b].
    exists 1, (delete id M). eexists. split; [done|]. split; [done|]. by apply remove_represents.
  - unfold mbo.execute_order. destruct (find_active _ _ _) as [[i o]|]; [destruct Hw as (Hi & Ha & Hw)|]; rewrite Hw; [|by exists 0, M, b]. destruct (Hl id o Hw) as (Eid & _ & Hq).
    destruct (Z.leb_spec (mo_qty o) qty); [exists 1, (delete id M); eexists; split; [done|]; split; [done|]; by apply remove_represents|].
    unfold s64_add. destruct (_ && _) eqn:E; [|lia]. cbn [mbind option_bind fmap option_fmap option_map]. eexists _, _, _. split; [done|]. split; [done|]. cbn [snd]. rewrite Eid, Ha. apply (put_represents i o); try done. cbn. lia.
  - unfold mbo.compute_queue_ahead. destruct (find_active _ _ _) as [[i o]|]; [destruct Hw as (Hi & Ha & Hw)|]; rewrite Hw; [|by exists (-1), M, b]. exists (queue_ahead M o), M, b. split; [done|]. split; [|done].
    rewrite sum_ahead_ok; [|rewrite Ho; apply Forall_forall; intros x [id' Hx]%values_lookup; destruct (Hl id' x Hx) as (_ & _ & ?); lia|lia|rewrite Hact; lia].
    cbn. do 2 f_equal. unfold queue_ahead. apply zsum_perm. by rewrite Ho.
Qed.
End represents.

Lemma fresh_represents : represents mbo.fresh ∅.
Proof.
  split; [apply length_replicate| |done|by intros id o H]. rewrite map_to_list_empty. unfold mbo.fresh. cbn [mb_orders]. generalize (Z.to_nat mbo.kMaxOrders) as n.
  induction n as [|n IH]; [done|]. cbn [replicate]. by rewrite actives_cons.
Qed.

(** the order table is a finite map.  For every sequence of calls with
    quantities of at most [2^50] and no negative execution, no sum overflows and
    every result is the one of the map from ids to live orders: an id is added
    once while it lives and while there is room; a change keeps the place in the
    queue if and only if the price stays and the quantity does not grow; an
    execution of all that is left removes the order; and what
    [compute_queue_ahead] answers is the quantity of the other orders at the
    same symbol, side and price with an earlier time stamp.  [order_count] is
    the number of live orders. *)
Theorem mbo_refines_map (ops : list mbo_op) (Hops : Forall mbo_op_ok ops) :
  exists b, mbo_run ops mbo.fresh = Some ((spec_run ops ∅).1, b) /\ represents b (spec_run ops ∅).2 /\ mbo.order_count b = Z.of_nat (size (spec_run ops ∅).2).
Proof.
  assert (Hgen : forall ops b M, Forall mbo_op_ok ops -> represents b M -> exists b', mbo_run ops b = Some ((spec_run ops M).1, b') /\ represents b' (spec_run ops M).2).
  { clear. induction ops as [|op ops IH]; intros b M Hops Hr; [by exists b|]. apply Forall_cons in Hops as [Hop Hops]. cbn [mbo_run spec_run].
    destruct (mbo_do_ok b M Hr op Hop) as (r & M' & b' & -> & -> & Hr'). cbn [mbind option_bind]. destruct (IH b' M' Hops Hr') as (b2 & -> & Hr2). cbn [mbind option_bind].
    destruct (spec_run ops M') as [rs M2]. by exists b2. }
  destruct (Hgen ops mbo.fresh ∅ Hops fresh_represents) as (b & Hrun & Hr). exists b. split; [done|]. split; [done|]. apply (rm_count _ _ Hr).
Qed.

Lemma mbo_refines_map_witness : exists b, mbo_run [MAdd 1 7 0 100 30 5; MAdd 2 7 0 100 20 6; MAdd 1 7 0 100 9 7; MModify 1 40 100 8; MQueueAhead 1; MExecute 2 20; MQueueAhead 1; MCancel 2] mbo.fresh =
  Some ([1; 1; 0; 1; 20; 1; 0; 0], b) /\ mbo.order_count b = 1.
Proof.
  destruct (mbo_refines_map [MAdd 1 7 0 100 30 5; MAdd 2 7 0 100 20 6; MAdd 1 7 0 100 9 7; MModify 1 40 100 8; MQueueAhead 1; MExecute 2 20; MQueueAhead 1; MCancel 2]) as (b & Hrun & _ & Hc).
  - repeat (constructor; [cbn; lia || exact I|]). constructor.
  - exists b. split; [rewrite Hrun; vm_compute; reflexivity|]. rewrite Hc. vm_compute. reflexivity.
Defined.

(** A negative execution is not refused: it makes the order larger. *)
Theorem mbo_negative_execution_grows : (fun r => r.1) <$> mbo_run [MAdd 1 7 0 100 10 5; MAdd 2 7 0 100 1 6; MExecute 1 (-5); MQueueAhead 2] mbo.fresh = Some [1; 1; 1; 15].
Proof. vm_compute. reflexivity. Qed.
