(* ===== verification/OuchFlow.v ===== *)
(** * The venue's answers (luv_ouch.hpp): Parser and OrderFlowAdapter

    A message of the venue is a two-byte length and a body.  The parser reads
    one message from a buffer; the adapter turns it into a report of the gateway.
    [None] as the result of a function is a read outside the buffer.  The clocks
    and the answer of the fill callback that the gateway's report functions ask
    for are arguments. *)
From Stdlib Require Import ZArith Lia ZifyBool.
From S2P Require Import Prelude Bytes Decode Reconcile Recovery AuditLog ExecTypes Risk Gateway GatewayBooks SimGen SimReplay MoldUdp.

Inductive EventType := kAccepted | kRejected | kExecuted | kCanceled | kReplaced.

Record Event := mkEvent {
  ev_type : EventType;
  ev_order_id : Z;                 (* uint64_t *)
  ev_quantity : Z;                 (* int64_t *)
  ev_price : Z;                    (* int64_t *)
  ev_reason : Z;                   (* uint8_t *)
}.

Module ouchflow.

Definition kAcceptedLength : Z := 9.
Definition kRejectedLength : Z := 10.
Definition kExecutedLength : Z := 13.
Definition kCanceledLength : Z := 9.
Definition kReplacedLength : Z := 17.
Definition kMaxBodyLength : Z := kReplacedLength.

(** [detail::be32], [detail::be64] *)
Definition be32 (data : list Z) (off : Z) : option Z :=
  b0 ← rd data off; b1 ← rd data (off + 1); b2 ← rd data (off + 2); b3 ← rd data (off + 3);
  Some (Z.lor (Z.lor (Z.lor (u32 (Z.shiftl b0 24)) (u32 (Z.shiftl b1 16))) (u32 (Z.shiftl b2 8))) b3).

Fixpoint be64_loop (n : nat) (data : list Z) (off value : Z) : option Z :=
  match n with
  | O => Some value
  | S n => b ← rd data off; be64_loop n data (off + 1) (Z.lor (u64 (Z.shiftl value 8)) b)
  end.

Definition be64 (data : list Z) (off : Z) : option Z := be64_loop 8 data off 0.

(** The switch over the type of the body, which starts at offset 2. *)
Definition parse_body (data : list Z) (body_length order_id kind : Z) : option (option Event) :=
  if kind =? 65 (* A *) then
    if negb (body_length =? kAcceptedLength) then Some None else Some (Some (mkEvent kAccepted order_id 0 0 0))
  else if kind =? 74 (* J *) then
    if negb (body_length =? kRejectedLength) then Some None
    else reason ← rd data (2 + 9); Some (Some (mkEvent kRejected order_id 0 0 reason))
  else if kind =? 69 (* E *) then
    if negb (body_length =? kExecutedLength) then Some None
    else
      quantity ← be32 data (2 + 9);
      if quantity <=? 0 then Some None else Some (Some (mkEvent kExecuted order_id quantity 0 0))
  else if kind =? 67 (* C *) then
    if negb (body_length =? kCanceledLength) then Some None else Some (Some (mkEvent kCanceled order_id 0 0 0))
  else if kind =? 85 (* U *) then
    if negb (body_length =? kReplacedLength) then Some None
    else
      quantity ← be32 data (2 + 9); price ← be32 data (2 + 13);
      if (quantity <=? 0) || (price <=? 0) then Some None else Some (Some (mkEvent kReplaced order_id quantity price 0))
  else Some None.

(** The event, [None] for [false], and [consumed]. *)
Definition parse (data : option (list Z)) (length : Z) : option (option Event * Z) :=
  match data with
  | None => Some (None, 0)
  | Some d =>
      if length <? 2 then Some (None, 0)
      else
        b0 ← rd d 0; b1 ← rd d 1;
        let body_length := Z.lor (Z.shiftl b0 8) b1 in
        if (body_length <? 9) || (kMaxBodyLength <? body_length) || (length <? body_length + 2) then Some (None, 0)
        else
          order_id ← be64 d (2 + 1);
          if order_id =? 0 then Some (None, 0)
          else
            kind ← rd d 2;
            parsed ← parse_body d body_length order_id kind;
            Some (parsed, match parsed with Some _ => body_length + 2 | None => 0 end)
  end.

(** [consume]: its result, [consumed], the fill event that the callback saw and
    the gateway. *)
Definition consume {AJ RJ : Type} `{Journal AJ AuditEvent} `{Journal RJ RecoveryEvent} (data : option (list Z)) (length symbol now_ns utc_now : Z) (accepts : bool)
    (g : ExecutionGateway AJ RJ) : option (bool * Z * option FillEvent * ExecutionGateway AJ RJ) :=
  '(event, consumed) ← parse data length;
  match event with
  | None => Some (false, consumed, None, g)
  | Some event =>
      match ev_type event with
      | kExecuted =>
          let '(ok, fill, g) := gateway.apply_execution_report symbol (mkExecReport (ev_order_id event) (ev_quantity event) false) now_ns utc_now accepts g in
          Some (ok, consumed, fill, g)
      | kCanceled => let '(ok, g) := gateway.apply_cancel_report symbol (ev_order_id event) now_ns g in Some (ok, consumed, None, g)
      | kReplaced =>
          let '(ok, g) := gateway.apply_replace_report symbol (ev_order_id event) (ev_quantity event) (ev_price event) now_ns g in Some (ok, consumed, None, g)
      | kRejected => let '(ok, g) := gateway.apply_reject_report symbol (ev_order_id event) now_ns g in Some (ok, consumed, None, g)
      | kAccepted => Some (true, consumed, None, g)
      end
  end.

End ouchflow.

(** ** The messages of the venue *)
Definition ouch_kind (t : EventType) : Z := match t with kAccepted => 65 | kRejected => 74 | kExecuted => 69 | kCanceled => 67 | kReplaced => 85 end.

Definition ouch_fields (e : Event) : list Z :=
  match ev_type e with
  | kAccepted | kCanceled => []
  | kRejected => [ev_reason e]
  | kExecuted => put_u32_be (ev_quantity e)
  | kReplaced => put_u32_be (ev_quantity e) ++ put_u32_be (ev_price e)
  end.

Definition ouch_body (e : Event) : list Z := ouch_kind (ev_type e) :: put_u64_be (ev_order_id e) ++ ouch_fields e.

(** Fields in the range of their encoding, the others at their default. *)
Definition event_ok (e : Event) : Prop :=
  0 < ev_order_id e < 2 ^ 64 /\
  match ev_type e with
  | kAccepted | kCanceled => ev_quantity e = 0 /\ ev_price e = 0 /\ ev_reason e = 0
  | kRejected => ev_quantity e = 0 /\ ev_price e = 0 /\ in_u 8 (ev_reason e)
  | kExecuted => 0 < ev_quantity e < 2 ^ 32 /\ ev_price e = 0 /\ ev_reason e = 0
  | kReplaced => 0 < ev_quantity e < 2 ^ 32 /\ 0 < ev_price e < 2 ^ 32 /\ ev_reason e = 0
  end.

Lemma put_u32_bytes v : bytes_ok (put_u32_be v).
Proof. exact (proj1 (proj2 byte_lists) v). Qed.
Lemma put_u64_bytes v : bytes_ok (put_u64_be v).
Proof. exact (proj1 (proj2 (proj2 (proj2 byte_lists))) v). Qed.

Definition fields_length (t : EventType) : nat := match t with kAccepted | kCanceled => 0 | kRejected => 1 | kExecuted => 4 | kReplaced => 8 end.

Lemma ouch_fields_ok e : event_ok e -> bytes_ok (ouch_fields e) /\ length (ouch_fields e) = fields_length (ev_type e).
Proof.
  intros [_ He]. unfold ouch_fields. destruct (ev_type e); (split; [|reflexivity]).
  - constructor.
  - constructor; [apply He|constructor].
  - apply put_u32_bytes.
  - constructor.
  - apply Forall_app. split; apply put_u32_bytes.
Qed.

Lemma ouch_body_length e : event_ok e -> length (ouch_body e) = (9 + fields_length (ev_type e))%nat.
Proof. intros He. unfold ouch_body. cbn [length]. rewrite length_app, (proj2 (ouch_fields_ok e He)). reflexivity. Qed.

Lemma ouch_kind_byte t : in_u 8 (ouch_kind t).
Proof. destruct t; unfold in_u; cbn; lia. Qed.

Lemma ouch_body_framable e : event_ok e -> framable (ouch_body e).
Proof.
  intros He. split; [|rewrite ouch_body_length by done; destruct (ev_type e); cbn; lia].
  constructor; [apply ouch_kind_byte|]. apply Forall_app. split; [apply put_u64_bytes|by apply ouch_fields_ok].
Qed.

(** The meaning of a body. *)
Definition read_fields (t : EventType) (id : Z) (fields : list Z) : option Event :=
  match t with
  | kAccepted | kCanceled => if (length fields =? 0)%nat then Some (mkEvent t id 0 0 0) else None
  | kRejected => match fields with [reason] => Some (mkEvent t id 0 0 reason) | _ => None end
  | kExecuted => if (length fields =? 4)%nat && (0 <? be_value fields) then Some (mkEvent t id (be_value fields) 0 0) else None
  | kReplaced => if (length fields =? 8)%nat && (0 <? be_value (take 4 fields)) && (0 <? be_value (drop 4 fields)) then Some (mkEvent t id (be_value (take 4 fields)) (be_value (drop 4 fields)) 0) else None
  end.

Definition event_type (kind : Z) : option EventType :=
  if kind =? 65 then Some kAccepted else if kind =? 74 then Some kRejected else if kind =? 69 then Some kExecuted
  else if kind =? 67 then Some kCanceled else if kind =? 85 then Some kReplaced else None.

Definition read_body (m : list Z) : option Event :=
  match m with
  | kind :: rest =>
      if (length rest <? 8)%nat || (be_value (take 8 rest) =? 0) then None
      else t ← event_type kind; read_fields t (be_value (take 8 rest)) (drop 8 rest)
  | [] => None
  end.

Lemma event_type_kind kind t : event_type kind = Some t <-> kind = ouch_kind t.
Proof.
  unfold event_type. split.
  - repeat (case_if; [intros [= <-]; cbn; lia|]). done.
  - intros ->. by destruct t.
Qed.

Lemma read_fields_ok e : event_ok e -> read_fields (ev_type e) (ev_order_id e) (ouch_fields e) = Some e.
Proof.
  intros [_ He]. unfold ouch_fields. destruct e as [t id qty price reason]. cbn [ev_type ev_order_id ev_quantity ev_price ev_reason] in *. destruct t; cbn [read_fields length].
  - destruct He as (-> & -> & ->). reflexivity.
  - destruct He as (-> & -> & _). reflexivity.
  - destruct He as (Hq & -> & ->). rewrite put_u32_value by (unfold in_u; lia). destruct (_ && _) eqn:E; [done|]. cbn [length put_u32_be] in E. lia.
  - destruct He as (-> & -> & ->). reflexivity.
  - destruct He as (Hq & Hp & ->). change (take 4 (put_u32_be qty ++ put_u32_be price)) with (put_u32_be qty). change (drop 4 (put_u32_be qty ++ put_u32_be price)) with (put_u32_be price).
    rewrite !put_u32_value by (unfold in_u; lia). destruct (_ && _) eqn:E; [done|]. change (length (put_u32_be qty ++ put_u32_be price)) with 8%nat in E. lia.
Qed.

Lemma be_four l : bytes_ok l -> length l = 4%nat -> in_u 32 (be_value l) /\ put_u32_be (be_value l) = l.
Proof.
  intros Hb Hl. pose proof (be_value_range l Hb) as Hr. rewrite Hl in Hr. assert (Hin : in_u 32 (be_value l)) by (unfold in_u; change (256 ^ Z.of_nat 4) with (2 ^ 32) in Hr; lia). split; [done|].
  apply be_value_inj; [apply put_u32_bytes|done|by rewrite Hl|by apply put_u32_value].
Qed.

Lemma be_eight l : bytes_ok l -> length l = 8%nat -> in_u 64 (be_value l) /\ put_u64_be (be_value l) = l.
Proof.
  intros Hb Hl. pose proof (be_value_range l Hb) as Hr. rewrite Hl in Hr. assert (Hin : in_u 64 (be_value l)) by (unfold in_u; change (256 ^ Z.of_nat 8) with (2 ^ 64) in Hr; lia). split; [done|].
  apply be_value_inj; [apply put_u64_bytes|done|by rewrite Hl|by apply put_u64_value].
Qed.

Lemma read_fields_inv t id l e : 0 < id < 2 ^ 64 -> bytes_ok l -> read_fields t id l = Some e -> event_ok e /\ ev_type e = t /\ ev_order_id e = id /\ ouch_fields e = l.
Proof.
  intros Hid Hb. destruct t; cbn [read_fields].
  - case_if; [intros [= <-]|done]. destruct l; [|cbn [length] in *; lia]. repeat split; cbn; lia.
  - destruct l as [|reason [|? ?]]; try done. intros [= <-]. apply Forall_cons in Hb as [Hr _]. unfold in_u in *. repeat split; cbn; lia.
  - case_if; [intros [= <-]|done]. split_guards. destruct (be_four l Hb ltac:(lia)) as [Hin E]. unfold in_u in Hin. split; [repeat split; cbn; lia|]. done.
  - case_if; [intros [= <-]|done]. destruct l; [|cbn [length] in *; lia]. repeat split; cbn; lia.
  - case_if; [intros [= <-]|done]. split_guards. destruct (be_four (take 4 l) (Forall_take _ _ _ Hb) ltac:(rewrite length_take; lia)) as [HA E1].
    destruct (be_four (drop 4 l) (Forall_drop _ _ _ Hb) ltac:(rewrite length_drop; lia)) as [HB E2]. unfold in_u in *. split; [repeat split; cbn; lia|]. split; [done|]. split; [done|].
    unfold ouch_fields. cbn [ev_type ev_quantity ev_price]. by rewrite E1, E2, take_drop.
Qed.

(** A body is read as an event if and only if it is the body of that event. *)
Lemma read_body_exact m e : bytes_ok m -> read_body m = Some e <-> event_ok e /\ m = ouch_body e.
Proof.
  intros Hb. split.
  - destruct m as [|kind rest]; [done|]. cbn [read_body]. case_if; [done|]. split_guards. apply Forall_cons in Hb as [_ Hb]. destruct (event_type kind) as [t|] eqn:Et; [|done]. apply event_type_kind in Et.
    pose proof (Forall_drop _ 8 _ Hb) as Hbd. destruct (be_eight (take 8 rest) (Forall_take _ _ _ Hb) ltac:(rewrite length_take; lia)) as [Hin E8]. unfold in_u in Hin. cbn [mbind option_bind]. intros E. apply read_fields_inv in E as (He & Ht & Hid & Hf); [|lia|exact Hbd].
    split; [done|]. unfold ouch_body. by rewrite Ht, Hid, Hf, E8, take_drop, Et.
  - intros [He ->]. unfold ouch_body. cbn [read_body]. assert (Ht : take 8 (put_u64_be (ev_order_id e) ++ ouch_fields e) = put_u64_be (ev_order_id e)) by by apply take_app_length'.
    assert (Hd : drop 8 (put_u64_be (ev_order_id e) ++ ouch_fields e) = ouch_fields e) by by apply drop_app_length'. rewrite Ht, Hd.
    pose proof He as [Hid _]. rewrite put_u64_value by (unfold in_u; lia). rewrite (proj2 (event_type_kind (ouch_kind (ev_type e)) (ev_type e)) eq_refl). cbn [mbind option_bind].
    destruct (_ || _) eqn:E; [|by apply read_fields_ok]. rewrite length_app in E. change (length (put_u64_be (ev_order_id e))) with 8%nat in E. lia.
Qed.

(** ** The parser on a buffer *)
Lemma be64_at pre l post : length l = 8%nat -> bytes_ok l -> ouchflow.be64 (pre ++ l ++ post) (Z.of_nat (length pre)) = Some (be_value l).
Proof.
  intros Hl Hb. rewrite <- (read_be64_at pre l post Hl Hb). unfold ouchflow.be64, mold.read_be64. generalize (Z.of_nat (length pre)) as off, 0 as v, 8%nat as n. intros off v n.
  revert off v. induction n as [|n IH]; intros off v; [done|]. cbn [ouchflow.be64_loop mold.read_be]. destruct (rd _ _); cbn [mbind option_bind]; [apply IH|done].
Qed.

Lemma rd_within pre l post k x off : off = Z.of_nat (length pre) + Z.of_nat k -> l !! k = Some x -> rd (pre ++ l ++ post) off = Some x.
Proof.
  intros -> Hk. unfold rd. destruct (_ <=? _) eqn:E; [|lia]. rewrite lookup_app_r by lia. replace (_ - _)%nat with k by lia. rewrite lookup_app_l; [done|]. by eapply lookup_lt_Some.
Qed.

Lemma be32_at pre l post : length l = 4%nat -> bytes_ok l -> ouchflow.be32 (pre ++ l ++ post) (Z.of_nat (length pre)) = Some (be_value l).
Proof.
  intros Hl Hb. destruct l as [|a [|b [|c [|d [|? ?]]]]]; try done. clear Hl. unfold ouchflow.be32.
  rewrite (rd_within pre [a; b; c; d] post 0 a (Z.of_nat (length pre))), (rd_within pre [a; b; c; d] post 1 b (Z.of_nat (length pre) + 1)),
    (rd_within pre [a; b; c; d] post 2 c (Z.of_nat (length pre) + 2)), (rd_within pre [a; b; c; d] post 3 d (Z.of_nat (length pre) + 3)) by (reflexivity || lia).
  cbn [mbind option_bind]. f_equal. apply Forall_cons in Hb as [Ha [Hb [Hc [Hd _]%Forall_cons]%Forall_cons]%Forall_cons]. unfold in_u in *.
  rewrite !wrap_u_id by (unfold in_u; rewrite Z.shiftl_mul_pow2 by lia; lia). unfold be_value. cbn [foldl].
  replace (Z.shiftl a 24) with (Z.shiftl (Z.shiftl (Z.shiftl a 8) 8) 8) by (rewrite !Z.shiftl_shiftl by lia; reflexivity).
  replace (Z.shiftl b 16) with (Z.shiftl (Z.shiftl b 8) 8) by (rewrite !Z.shiftl_shiftl by lia; reflexivity).
  rewrite <- !Z.shiftl_lor. rewrite !lor_shiftl_add by lia. lia.
Qed.

(** The body with its kind, its order id and its fields. *)
Lemma parse_body_frame a b kind id8 fields post id : length id8 = 8%nat -> bytes_ok fields ->
  ouchflow.parse_body ([a; b; kind] ++ id8 ++ fields ++ post) (9 + Z.of_nat (length fields)) id kind = Some (t ← event_type kind; read_fields t id fields).
Proof.
  intros Hid Hb. set (d := [a; b; kind] ++ id8 ++ fields ++ post).
  assert (H32 : forall k l1 l2 off, fields = k ++ l1 ++ l2 -> length l1 = 4%nat -> off = 11 + Z.of_nat (length k) -> ouchflow.be32 d off = Some (be_value l1)).
  { intros k l1 l2 off Ef Hl1 ->. replace d with (([a; b; kind] ++ id8 ++ k) ++ l1 ++ l2 ++ post) by (unfold d; rewrite Ef; by rewrite <- !app_assoc).
    replace (11 + _) with (Z.of_nat (length ([a; b; kind] ++ id8 ++ k))) by (rewrite !length_app; cbn [length]; lia). apply be32_at; [done|]. rewrite Ef in Hb. by apply Forall_app in Hb as [_ [Hb _]%Forall_app]. }
  assert (Hpos : forall l : list Z, bytes_ok l -> 0 <= be_value l) by (intros l Hl; by apply be_value_range).
  unfold ouchflow.parse_body, event_type, ouchflow.kAcceptedLength, ouchflow.kRejectedLength, ouchflow.kExecutedLength, ouchflow.kCanceledLength, ouchflow.kReplacedLength. change (2 + 9) with 11. change (2 + 13) with 15.
  destruct (kind =? 65); [|destruct (kind =? 74); [|destruct (kind =? 69); [|destruct (kind =? 67); [|destruct (kind =? 85); [|done]]]]]; cbn [mbind option_bind read_fields].
  - destruct fields; [done|]. cbn [length]. destruct (negb _) eqn:E; [done|lia].
  - destruct fields as [|reason [|? ?]]; [done| |cbn [length]; destruct (negb _) eqn:E; [done|lia]]. cbn [length]. unfold d. rewrite app_assoc.
    by rewrite (rd_within ([a; b; kind] ++ id8) [reason] post 0 reason 11) by (rewrite ?length_app; cbn [length]; (done || lia)).
  - destruct (negb _) eqn:E; [destruct (_ && _) eqn:E2; [lia|done]|]. rewrite (H32 [] fields [] 11) by (rewrite ?app_nil_r; (done || cbn [length]; lia)). cbn [mbind option_bind].
    destruct (_ <=? 0) eqn:E1, (_ && _) eqn:E2; done || lia.
  - destruct fields; [done|]. cbn [length]. destruct (negb _) eqn:E; [done|lia].
  - destruct (negb _) eqn:E; [destruct (_ && _) eqn:E2; [lia|done]|]. assert (Hl : length fields = 8%nat) by lia.
    rewrite (H32 [] (take 4 fields) (drop 4 fields) 11) by (rewrite ?app_nil_l, ?take_drop, ?length_take; cbn [length]; (done || lia)).
    rewrite (H32 (take 4 fields) (drop 4 fields) [] 15) by (rewrite ?app_nil_r, ?take_drop, ?length_drop, ?length_take; cbn [length]; (done || lia)). cbn [mbind option_bind].
    destruct (_ || _) eqn:E1, (_ && _) eqn:E2; done || lia.
Qed.

Section on_frame.
Context (m post : list Z) (Hm : framable m) (Hsmall : Z.of_nat (length (frame m ++ post)) < 2 ^ 63).

Lemma frame_head : exists a b, frame m ++ post = a :: b :: m ++ post /\ Z.lor (Z.shiftl a 8) b = Z.of_nat (length m).
Proof.
  destruct Hm as [_ Hl]. unfold frame, put_u16_be. eexists _, _. split; [reflexivity|]. assert (Hin : in_u 16 (Z.of_nat (length m))) by (unfold in_u; lia).
  pose proof (put_u16_value _ Hin) as Hv. unfold put_u16_be in Hv. rewrite be_value_two in Hv. pose proof (u8_in (Z.of_nat (length m))). unfold in_u in *. rewrite lor_shiftl_add by lia. done.
Qed.

Lemma long_bodies : 18 <= Z.of_nat (length m) -> read_body m = None.
Proof.
  destruct (read_body m) as [e|] eqn:E; [|done]. apply read_body_exact in E as [He Em]; [|apply Hm]. rewrite Em, ouch_body_length by done. destruct (ev_type e); cbn; lia.
Qed.

Lemma short_bodies : Z.of_nat (length m) < 9 -> read_body m = None.
Proof. destruct m as [|k rest]; [done|]. cbn [length read_body]. intros Hl. case_if; [done|lia]. Qed.

Lemma parse_frame : ouchflow.parse (Some (frame m ++ post)) (Z.of_nat (length (frame m ++ post))) =
  Some (read_body m, match read_body m with Some _ => Z.of_nat (length m) + 2 | None => 0 end).
Proof.
  destruct frame_head as (a & b & E & En). pose proof Hm as [Hb Hl]. rewrite E. unfold ouchflow.parse. cbn [length]. rewrite length_app.
  change (rd (a :: b :: m ++ post) 0) with (Some a). change (rd (a :: b :: m ++ post) 1) with (Some b). cbn [mbind option_bind]. rewrite En. unfold ouchflow.kMaxBodyLength, ouchflow.kReplacedLength.
  destruct (_ <? 2) eqn:E2; [lia|]. clear E2. destruct (_ || _) eqn:E2; [destruct (decide (Z.of_nat (length m) < 9)); [by rewrite short_bodies|rewrite long_bodies; [done|lia]]|]. split_guards.
  destruct m as [|kind rest]; [cbn in *; lia|]. cbn [length] in *. clear E. apply Forall_cons in Hb as [Hk Hb]. cbn [read_body].
  assert (Er : (kind :: rest) ++ post = kind :: take 8 rest ++ drop 8 rest ++ post) by (cbn [app]; by rewrite app_assoc, take_drop).
  assert (Hid : length (take 8 rest) = 8%nat) by (rewrite length_take; lia). assert (Hbi : bytes_ok (take 8 rest)) by by apply Forall_take. assert (Hbf : bytes_ok (drop 8 rest)) by by apply Forall_drop.
  assert (Hlf : Z.of_nat (S (length rest)) = 9 + Z.of_nat (length (drop 8 rest))) by (rewrite length_drop; lia). rewrite Er, Hlf. destruct (length rest <? 8)%nat eqn:E8; [lia|]. clear E8 Er.
  revert Hid Hbi Hbf. generalize (take 8 rest) as id8, (drop 8 rest) as fields. intros id8 fields Hid Hbi Hbf.
  change (a :: b :: kind :: id8 ++ fields ++ post) with ([a; b; kind] ++ id8 ++ fields ++ post). change (2 + 1) with (Z.of_nat (length [a; b; kind])). rewrite be64_at by done. cbn [mbind option_bind].
  destruct (_ =? 0); [by rewrite orb_true_r|]. rewrite orb_false_r. change (rd ([a; b; kind] ++ id8 ++ fields ++ post) 2) with (Some kind). cbn [mbind option_bind].
  by rewrite parse_body_frame.
Qed.

End on_frame.

(** No message begins here: too few bytes have come, or they are no message. *)
Definition begins_none (d : list Z) : Prop := forall e rest, event_ok e -> d <> frame (ouch_body e) ++ rest.

Lemma parse_view d : bytes_ok d -> Z.of_nat (length d) < 2 ^ 63 ->
  (exists e rest, event_ok e /\ d = frame (ouch_body e) ++ rest /\ ouchflow.parse (Some d) (Z.of_nat (length d)) = Some (Some e, Z.of_nat (length (frame (ouch_body e))))) \/
  (begins_none d /\ ouchflow.parse (Some d) (Z.of_nat (length d)) = Some (None, 0)).
Proof.
  intros Hd Hsmall. destruct (frame_view d Hd) as [->|[(m & post & Hm & ->)|Hs]].
  - right. split; [|done]. intros e rest _ E. by apply (f_equal length) in E.
  - destruct (read_body m) as [e|] eqn:Er.
    + left. rewrite parse_frame, Er by done. apply read_body_exact in Er as [He ->]; [|apply Hm]. exists e, post. split_and!; [done|done|]. do 2 f_equal. unfold frame. rewrite length_app. cbn [length put_u16_be]. lia.
    + right. rewrite parse_frame, Er by done. split; [|done]. intros e rest He E. destruct (frame_inj m (ouch_body e) post rest Hm (ouch_body_framable e He) E) as [-> _].
      assert (Ee : read_body (ouch_body e) = Some e) by (apply read_body_exact; [apply (ouch_body_framable e He)|done]). congruence.
  - right. split; [intros e rest He; apply stuck_no_frame; [done|by apply ouch_body_framable]|]. destruct Hs as [_ Hs]. unfold ouchflow.parse.
    destruct (Z.ltb_spec (Z.of_nat (length d)) 2); [done|]. destruct Hs as [Hs|(a & b & post & -> & Hs)]; [lia|]. apply Forall_cons in Hd as [Ha [Hb _]%Forall_cons].
    change (rd (a :: b :: post) 0) with (Some a). change (rd (a :: b :: post) 1) with (Some b). cbn [mbind option_bind]. unfold in_u in *. rewrite lor_shiftl_add by lia. rewrite be_value_two in Hs. cbn [length].
    destruct (_ || _) eqn:E; [done|]. change (2 ^ 8) with 256 in E. lia.
Qed.

(** [Parser::parse] recognises the venue's messages exactly.  On every
    buffer it reads inside the buffer and returns; it is [true] if and only if
    the buffer begins with the length and the body of an event whose fields are
    in range, and then the event is that one and [consumed] the length of the
    message; otherwise [consumed] is 0. *)
Theorem ouch_message_exact (d : list Z) (Hd : bytes_ok d) (Hsmall : Z.of_nat (length d) < 2 ^ 63) :
  exists r n, ouchflow.parse (Some d) (Z.of_nat (length d)) = Some (r, n) /\
    (forall e, r = Some e <-> event_ok e /\ exists rest, d = frame (ouch_body e) ++ rest) /\
    n = match r with Some e => Z.of_nat (length (frame (ouch_body e))) | None => 0 end.
Proof.
  destruct (parse_view d Hd Hsmall) as [(e & rest & He & -> & Ep)|[Hn Ep]]; eexists _, _; (split; [exact Ep|]); (split; [|done]).
  - intros e'. split; [intros [= <-]; split; [done|by exists rest]|]. intros (He' & rest' & E). f_equal.
    destruct (frame_inj _ _ _ _ (ouch_body_framable e He) (ouch_body_framable e' He') E) as [Eb _].
    assert (H1 : read_body (ouch_body e) = Some e) by (apply read_body_exact; [apply (ouch_body_framable e He)|done]).
    assert (H2 : read_body (ouch_body e') = Some e') by (apply read_body_exact; [apply (ouch_body_framable e' He')|done]). congruence.
  - intros e. split; [done|]. intros (He & rest & ->). by destruct (Hn e rest He).
Qed.

Lemma ouch_message_exact_witness : ouchflow.parse (Some [0; 13; 69; 0; 0; 0; 0; 0; 0; 0; 42; 0; 0; 0; 25; 7]) 16 = Some (Some (mkEvent kExecuted 42 25 0 0), 15).
Proof.
  destruct (ouch_message_exact [0; 13; 69; 0; 0; 0; 0; 0; 0; 0; 42; 0; 0; 0; 25; 7]) as (r & n & E & Hr & Hn).
  - apply (bool_decide_unpack _). vm_compute. exact I.
  - reflexivity.
  - assert (Ee : r = Some (mkEvent kExecuted 42 25 0 0)).
    { apply Hr. split; [repeat split; cbn; lia|]. exists [7]. vm_compute. reflexivity. }
    change 16 with (Z.of_nat (length [0; 13; 69; 0; 0; 0; 0; 0; 0; 0; 42; 0; 0; 0; 25; 7])). rewrite E, Hn, Ee. vm_compute. reflexivity.
Defined.

(** ** A stream of messages and the gateway *)
Section stream.
Context {AJ RJ : Type} `{Journal AJ AuditEvent} `{Journal RJ RecoveryEvent}.
Abbreviation Gateway := (ExecutionGateway AJ RJ).
Implicit Types (g : Gateway).

(** The call of the gateway that an event stands for; an acceptance is none. *)
Definition venue_op (symbol : Z) (clock : Z * Z * bool) (e : Event) : option gateway_op :=
  let '(now_ns, utc_now, accepts) := clock in
  match ev_type e with
  | kAccepted => None
  | kRejected => Some (RejectReport symbol (ev_order_id e) now_ns)
  | kExecuted => Some (ExecReport symbol (mkExecReport (ev_order_id e) (ev_quantity e) false) now_ns utc_now accepts)
  | kCanceled => Some (CancelReport symbol (ev_order_id e) now_ns)
  | kReplaced => Some (ReplaceReport symbol (ev_order_id e) (ev_quantity e) (ev_price e) now_ns)
  end.

Definition ouch_deliver (symbol : Z) (clock : Z * Z * bool) (e : Event) g : Gateway := match venue_op symbol clock e with Some op => (gateway_step op g).2 | None => g end.

(** The events from number [k] on, each at its time. *)
Fixpoint ouch_deliver_all (symbol : Z) (clocks : nat -> Z * Z * bool) (k : nat) (es : list Event) g : Gateway :=
  match es with
  | [] => g
  | e :: es => ouch_deliver_all symbol clocks (S k) es (ouch_deliver symbol (clocks k) e g)
  end.

(** A caller that consumes from a buffer what it holds of messages: their
    number, the bytes that stay and the gateway. *)
Fixpoint ouch_drain (fuel : nat) (symbol : Z) (clocks : nat -> Z * Z * bool) (k : nat) (d : list Z) g : option (nat * list Z * Gateway) :=
  match fuel with
  | O => None
  | S fuel =>
      let '(now_ns, utc_now, accepts) := clocks k in
      '(_, consumed, _, g) ← ouchflow.consume (Some d) (Z.of_nat (length d)) symbol now_ns utc_now accepts g;
      if consumed =? 0 then Some (k, d, g) else ouch_drain fuel symbol clocks (S k) (drop (Z.to_nat consumed) d) g
  end.

(** The bytes arrive in pieces. *)
Fixpoint ouch_receive (symbol : Z) (clocks : nat -> Z * Z * bool) (k : nat) (buffer : list Z) (chunks : list (list Z)) g : option (nat * list Z * Gateway) :=
  match chunks with
  | [] => Some (k, buffer, g)
  | chunk :: chunks =>
      '(k, buffer, g) ← ouch_drain (S (length (buffer ++ chunk))) symbol clocks k (buffer ++ chunk) g;
      ouch_receive symbol clocks k buffer chunks g
  end.

Lemma consume_event symbol now utc acc d g e n : ouchflow.parse (Some d) (Z.of_nat (length d)) = Some (Some e, n) ->
  exists ok fill, ouchflow.consume (Some d) (Z.of_nat (length d)) symbol now utc acc g = Some (ok, n, fill, ouch_deliver symbol (now, utc, acc) e g).
Proof.
  intros Ep. unfold ouchflow.consume, ouch_deliver, venue_op. rewrite Ep. cbn [mbind option_bind]. destruct (ev_type e); cbn [gateway_step].
  - by eexists _, _.
  - destruct (gateway.apply_reject_report _ _ _ _). by eexists _, _.
  - destruct (gateway.apply_execution_report _ _ _ _ _ _) as [[ok fill] g']. by eexists _, _.
  - destruct (gateway.apply_cancel_report _ _ _ _). by eexists _, _.
  - destruct (gateway.apply_replace_report _ _ _ _ _ _). by eexists _, _.
Qed.

Lemma ouch_drain_exact symbol clocks fuel : forall d k g, bytes_ok d -> Z.of_nat (length d) < 2 ^ 63 -> (length d < fuel)%nat ->
  exists es tail, d = frames (ouch_body <$> es) ++ tail /\ Forall event_ok es /\ begins_none tail /\ bytes_ok tail /\
    ouch_drain fuel symbol clocks k d g = Some ((k + length es)%nat, tail, ouch_deliver_all symbol clocks k es g).
Proof.
  induction fuel as [|fuel IH]; intros d k g Hd Hsmall Hf; [lia|]. cbn [ouch_drain]. destruct (clocks k) as [[now utc] acc] eqn:Ec. destruct (parse_view d Hd Hsmall) as [(e & rest & He & -> & Ep)|[Hn Ep]].
  - destruct (consume_event symbol now utc acc _ g e _ Ep) as (ok & fill & ->). cbn [mbind option_bind]. pose proof (frame_length (ouch_body e)) as Hfl. destruct (_ =? 0) eqn:E0; [lia|]. rewrite Nat2Z.id, drop_app_length.
    rewrite length_app in Hf, Hsmall. apply Forall_app in Hd as [_ Hd]. destruct (IH rest (S k) (ouch_deliver symbol (now, utc, acc) e g) Hd ltac:(lia) ltac:(lia)) as (es & tail & -> & Hes & Ht & Hb & ->).
    exists (e :: es), tail. split; [change (frames (ouch_body <$> e :: es)) with (frame (ouch_body e) ++ frames (ouch_body <$> es)); by rewrite <- app_assoc|]. split; [by constructor|]. split; [done|]. split; [done|].
    cbn [length ouch_deliver_all]. rewrite Ec. do 3 f_equal. lia.
  - exists [], d. unfold ouchflow.consume. rewrite Ep. cbn. rewrite Nat.add_0_r. by split_and!.
Qed.

Lemma ouch_deliver_all_app symbol clocks es es' : forall k g, ouch_deliver_all symbol clocks k (es ++ es') g = ouch_deliver_all symbol clocks (k + length es) es' (ouch_deliver_all symbol clocks k es g).
Proof. induction es as [|e es IH]; intros k g; cbn [app ouch_deliver_all length]; [by rewrite Nat.add_0_r|]. rewrite IH. by rewrite Nat.add_succ_r. Qed.

(** the venue's stream reaches the gateway exactly.  For every sequence of
    received pieces, cut anywhere, a caller that keeps the bytes [consume] has
    not taken and calls it again with them and the next piece has, after the
    last piece, made exactly the report calls of the messages the stream begins
    with, in their order and each once; what it keeps is the rest of the stream,
    from the first byte at which no message begins.  Nothing is read outside the
    buffer, and the calls end. *)
Theorem ouch_stream_exact symbol clocks chunks g (stream := concat chunks) (Hbytes : bytes_ok stream) (Hsmall : Z.of_nat (length stream) < 2 ^ 63) :
  exists es tail, stream = frames (ouch_body <$> es) ++ tail /\ Forall event_ok es /\ begins_none tail /\
    ouch_receive symbol clocks 0 [] chunks g = Some (length es, tail, ouch_deliver_all symbol clocks 0 es g).
Proof.
  assert (Hgen : forall chunks buffer k g, bytes_ok (buffer ++ concat chunks) -> Z.of_nat (length (buffer ++ concat chunks)) < 2 ^ 63 -> begins_none buffer ->
    exists es tail, buffer ++ concat chunks = frames (ouch_body <$> es) ++ tail /\ Forall event_ok es /\ begins_none tail /\
      ouch_receive symbol clocks k buffer chunks g = Some ((k + length es)%nat, tail, ouch_deliver_all symbol clocks k es g)).
  { clear. induction chunks as [|chunk chunks IH]; intros buffer k g Hb Hs Hn; cbn [ouch_receive concat] in *.
    - rewrite app_nil_r in *. exists [], buffer. cbn. rewrite Nat.add_0_r. by split_and!.
    - rewrite app_assoc in *. pose proof Hb as [Hb1 Hb2]%Forall_app. pose proof Hs as Hs'. rewrite length_app in Hs'.
      destruct (ouch_drain_exact symbol clocks (S (length (buffer ++ chunk))) (buffer ++ chunk) k g Hb1 ltac:(lia) ltac:(lia)) as (es & tail & E & Hes & Ht & Hbt & ->). cbn [mbind option_bind].
      rewrite E in Hb, Hs |- *. rewrite <- app_assoc in Hb, Hs |- *. apply Forall_app in Hb as [_ Hb]. rewrite length_app in Hs.
      destruct (IH tail (k + length es)%nat (ouch_deliver_all symbol clocks k es g) Hb ltac:(lia) Ht) as (es' & tail' & E' & Hes' & Ht' & ->). exists (es ++ es'), tail'.
      rewrite E', fmap_app, length_app, ouch_deliver_all_app. unfold frames. rewrite bind_app, <- app_assoc. split; [done|]. split; [by apply Forall_app|]. split; [done|]. do 3 f_equal. lia. }
  apply (Hgen chunks [] 0%nat g); [done|done|]. intros e rest _ E. by apply (f_equal length) in E.
Qed.

(** A message that is not one of the five, or has a field out of range, stops the
    stream: whatever comes behind it, nothing more is consumed. *)
Theorem ouch_malformed_blocks symbol clocks k m more g : framable m -> (forall e, event_ok e -> m <> ouch_body e) -> bytes_ok more -> Z.of_nat (length (frame m ++ more)) < 2 ^ 63 ->
  ouch_drain 1 symbol clocks k (frame m ++ more) g = Some (k, frame m ++ more, g).
Proof.
  intros Hm Hno Hmore Hsmall. cbn [ouch_drain]. destruct (clocks k) as [[now utc] acc]. unfold ouchflow.consume. rewrite parse_frame by done.
  destruct (read_body m) as [e|] eqn:E; [|done]. apply read_body_exact in E as [He ->]; [|apply Hm]. by destruct (Hno e He).
Qed.
End stream.

(** A buy of 100 and a sell of 40; the venue executes 60 of the first and
    cancels the second.  The stream is cut inside the first message. *)
Definition demo_orders : list gateway_op := [TryBuild (mkIntent 1 0 100 1500000 1000 1000 7 0); TryBuild (mkIntent 1 1 40 1510000 1000 1000 8 0)].
Definition ouch_gateway : ExecutionGateway unit unit :=
  (@gateway_history unit unit accepting accepting demo_orders (gateway.set_recovery_ledger (Some tt) (gateway.set_audit_log (Some tt) (gateway.init true ∅ (gateway.fresh 10)).2))).2.
Definition demo_chunks : list (list Z) := [[0; 13; 69; 0; 0]; [0; 0; 0; 0; 0; 7; 0; 0; 0; 60; 0; 9; 67; 0; 0; 0; 0; 0; 0; 0; 8; 0]].
Definition demo_summary (r : nat * list Z * ExecutionGateway unit unit) : nat * list Z * Z * option Z :=
  let '(k, tail, g) := r in (k, tail, gw_pending g, (fun E => rs_net_position (risk_of E 1)) <$> gw_arena g).

Lemma ouch_stream_exact_witness : exists es tail, concat demo_chunks = frames (ouch_body <$> es) ++ tail /\ length es = 2%nat /\ tail = [0] /\
  demo_summary <$> @ouch_receive unit unit accepting accepting 1 (fun _ => (1100, 5000, true)) 0 [] demo_chunks ouch_gateway = Some (2%nat, [0], 1, Some 100).
Proof.
  destruct (@ouch_stream_exact unit unit accepting accepting 1 (fun _ => (1100, 5000, true)) demo_chunks ouch_gateway) as (es & tail & E & _ & _ & Er).
  - apply (bool_decide_unpack _). vm_compute. exact I.
  - reflexivity.
  - assert (Ec : demo_summary <$> @ouch_receive unit unit accepting accepting 1 (fun _ => (1100, 5000, true)) 0 [] demo_chunks ouch_gateway = Some (2%nat, [0], 1, Some 100)) by (vm_compute; reflexivity).
    exists es, tail. split; [exact E|]. rewrite Er in Ec |- *. pose proof Ec as Ec'. cbn [fmap option_fmap option_map demo_summary] in Ec'. injection Ec' as E1 E2 _ _. split; [exact E1|]. split; [exact E2|exact Ec].
Defined.
