(* ===== verification/FixParse.v ===== *)
(** * FIX messages (FixMessageView of luv_fix.hpp)

    The view of a message: its fields in order, the values as the bytes they
    point to.  Characters are bytes in [0, 256).  [None] as the result of a
    function is a read outside the buffer. *)
From Stdlib Require Import ZArith Lia ZifyBool.
From S2P Require Import Prelude Numeric Bytes Text WsFill HttpJson HttpOrder.

Record FixField := mkField { ff_tag : Z; ff_val : list Z }.

Record FixMessageView := mkView { mv_fields : list FixField; mv_raw_len : Z (* size_t *) }.

Module tag.
Definition MsgSeqNum : Z := 34.
Definition MsgType : Z := 35.
End tag.

Module fix_view.

Definition kMaxFields : nat := 64.
Definition SOH : Z := 1.

(** The loops over digits of [parse] and [get_int], with the check before each
    step; [None] is the early return. *)
Fixpoint digits_loop (width limit : Z) (l : list Z) (val : Z) : option Z :=
  match l with
  | [] => Some val
  | c :: l =>
      if (c <? 48) || (57 <? c) then None
      else
        let digit := c - 48 in
        if (limit - digit) / 10 <? val then None else digits_loop width limit l (wrap_u width (val * 10 + digit))
  end.

(** Where the value ends: at the first SOH, or at the first bar if no SOH
    follows, or at the end. *)
Definition value_end (l : list Z) : nat :=
  match find [SOH] l with
  | Some k => k
  | None => match find [124] l with Some k => k | None => length l end
  end.

(** The loop over the fields, with the room for more of them. *)
Fixpoint parse_loop (room : nat) (ptr : list Z) (fields : list FixField) : bool * list FixField :=
  let finish := (0 <? Z.of_nat (length fields), fields) in
  match room with
  | O => finish
  | S room =>
      match ptr with
      | [] => finish
      | _ =>
          match find [61] ptr with
          | None => finish
          | Some eq =>
              if (eq =? 0)%nat then (false, fields)
              else
                match digits_loop 32 UINT32_MAX (take eq ptr) 0 with
                | None => (false, fields)
                | Some tag =>
                    let val := drop (S eq) ptr in
                    let delim := value_end val in
                    parse_loop room (drop (S delim) val) (fields ++ [mkField tag (take delim val)])
                end
          end
      end
  end.

Definition parse (buf : option (list Z)) (len : Z) : option (bool * FixMessageView) :=
  match buf with
  | None => Some (false, mkView [] len)
  | Some buf =>
      if len <? 10 then Some (false, mkView [] len)
      else
        d ← slice buf 0 len;
        if negb (starts [56; 61] d) then Some (false, mkView [] len)
        else let '(ok, fields) := parse_loop kMaxFields d [] in Some (ok, mkView fields len)
  end.

Definition get (tag : Z) (v : FixMessageView) : list Z :=
  match list_find (fun f => ff_tag f = tag) (mv_fields v) with Some (_, f) => ff_val f | None => [] end.

Definition get_int (tag default_val : Z) (v : FixMessageView) : Z :=
  match get tag v with
  | [] => default_val
  | c :: sv =>
      let neg := c =? 45 in
      let text := if neg then sv else c :: sv in
      let limit := INT64_MAX + (if neg then 1 else 0) in
      if bool_decide (text = []) then default_val
      else
        match digits_loop 64 limit text 0 with
        | None => default_val
        | Some val => if neg && (val =? INT64_MAX + 1) then INT64_MIN else if neg then - s64 val else s64 val
        end
  end.

Definition get_char (tag default_val : Z) (v : FixMessageView) : Z := match get tag v with [] => default_val | c :: _ => c end.

Definition msg_type (v : FixMessageView) : list Z := get tag.MsgType v.
Definition seq_num (v : FixMessageView) : Z := u64 (get_int tag.MsgSeqNum 0 v).

(** The search backwards, from index [i - 1], for a delimiter and [10=]. *)
Fixpoint checksum_tag (i : nat) (buf : list Z) : option (option nat) :=
  match i with
  | O => Some None
  | S i =>
      w ← slice buf (Z.of_nat i) 4;
      if starts [SOH; 49; 48; 61] w || starts [124; 49; 48; 61] w then Some (Some (S i)) else checksum_tag i buf
  end.

(** Up to [n] digits. *)
Fixpoint checksum_digits (n : nat) (buf : list Z) (off actual : Z) : option Z :=
  match n with
  | O => Some actual
  | S n => c ← rd buf off; if (48 <=? c) && (c <=? 57) then checksum_digits n buf (off + 1) (u32 (actual * 10 + (c - 48))) else Some actual
  end.

Definition byte_sum (l : list Z) : Z := foldl (fun sum c => u32 (sum + c)) 0 l.

Definition verify_checksum (buf : option (list Z)) (len : Z) : option bool :=
  match buf with
  | None => Some false
  | Some buf =>
      if len <? 7 then Some false
      else
        ck ← checksum_tag (Z.to_nat (len - 7)) buf;
        match ck with
        | None => Some false
        | Some ck_tag =>
            prefix ← slice buf 0 (Z.of_nat ck_tag);
            let expected := byte_sum prefix mod 256 in
            actual ← checksum_digits 3 buf (Z.of_nat ck_tag + 3) 0;
            Some (expected =? actual)
        end
  end.

End fix_view.

(** ** Numbers *)
Lemma digits_loop_run w limit l : 0 <= w -> 9 <= limit < 2 ^ w -> forall acc, 0 <= acc <= limit ->
  fix_view.digits_loop w limit l acc = if forallb is_digit l && (total acc l <=? limit) then Some (total acc l) else None.
Proof.
  intros Hw Hlim. induction l as [|c l IH]; intros acc Ha; cbn [fix_view.digits_loop forallb].
  { change (total acc []) with acc. cbn [andb]. by rewrite (proj2 (Z.leb_le acc limit)) by lia. }
  change (total acc (c :: l)) with (total (acc * 10 + (c - 48)) l). destruct (is_digit c) eqn:Ec; unfold is_digit in Ec; [|destruct (_ || _) eqn:E; [done|lia]].
  destruct (_ || _) eqn:E; [lia|]. clear E. cbn [andb]. pose proof (Z.div_mod (limit - (c - 48)) 10). pose proof (Z.mod_pos_bound (limit - (c - 48)) 10).
  destruct (_ <? acc) eqn:E.
  - destruct (forallb is_digit l) eqn:Ed; [|done]. cbn [andb]. assert (Hd : Forall digit l) by (apply Forall_forall; intros x Hx; apply is_digit_iff; rewrite forallb_forall in Ed; by apply Ed, list_elem_of_In).
    pose proof (total_ge (acc * 10 + (c - 48)) l Hd ltac:(lia)). destruct (_ <=? limit) eqn:E2; [lia|done].
  - rewrite wrap_u_id by (unfold in_u; lia). apply IH. lia.
Qed.

Lemma digits_loop_exact w limit l : 0 <= w -> 9 <= limit < 2 ^ w ->
  match fix_view.digits_loop w limit l 0 with
  | Some v => Forall digit l /\ v = digits_value l /\ 0 <= v <= limit
  | None => ~ (Forall digit l /\ digits_value l <= limit)
  end.
Proof.
  intros Hw Hlim. rewrite digits_loop_run by lia. change (total 0 l) with (digits_value l).
  assert (Hf : forallb is_digit l = true <-> Forall digit l).
  { rewrite forallb_forall, Forall_forall. split; intros H x Hx; [apply is_digit_iff, H; by apply list_elem_of_In|apply is_digit_iff, H; by apply list_elem_of_In]. }
  destruct (forallb is_digit l); cbn [andb]; [|intros [H%Hf _]; done]. assert (Ed : Forall digit l) by by apply Hf. pose proof (total_ge 0 l Ed ltac:(lia)) as Hge. change (total 0 l) with (digits_value l) in Hge.
  destruct (_ <=? limit) eqn:E; [by split_and!; try lia|intros [_ H]; lia].
Qed.

(** An integer as the text of a field: digits, with a minus or without. *)
Definition signed_text (l : list Z) (z : Z) : Prop :=
  exists ds, ds <> [] /\ Forall digit ds /\ ((l = ds /\ z = digits_value ds) \/ (l = 45 :: ds /\ z = - digits_value ds)).

Lemma digit_head c ds : Forall digit (c :: ds) -> c <> 45.
Proof. intros [Hc _]%Forall_cons. unfold digit in Hc. lia. Qed.

Lemma signed_text_decimal z : in_s 64 z -> signed_text (decimal_signed z) z.
Proof.
  intros [Hr _]%decimal_signed_reads. destruct Hr as [[_ (Hne & Hd & Hv & _)]|[_ (l & E & Hne & Hd & Hv & _)]].
  - exists (decimal_signed z). split; [done|]. split; [done|]. by left.
  - exists l. split; [done|]. split; [done|]. right. split; [done|lia].
Qed.

Lemma get_int_spec tag default v :
  (exists z, in_s 64 z /\ signed_text (fix_view.get tag v) z /\ fix_view.get_int tag default v = z) \/
  ((forall z, in_s 64 z -> ~ signed_text (fix_view.get tag v) z) /\ fix_view.get_int tag default v = default).
Proof.
  unfold fix_view.get_int. destruct (fix_view.get tag v) as [|c sv].
  { right. split; [|done]. intros z _ (ds & Hne & _ & [[<- _]|[[=] _]]). done. }
  assert (Hlim : forall b : bool, 9 <= INT64_MAX + (if b then 1 else 0) < 2 ^ 64) by (intros []; lia).
  destruct (Z.eqb_spec c 45) as [->|Hc].
  - case_bool_decide as Es.
    { right. split; [|done]. subst sv. intros z _ (ds & Hne & Hd & [[<- _]|[[= <-] _]]); [by apply digit_head in Hd|done]. }
    pose proof (digits_loop_exact 64 (INT64_MAX + 1) sv ltac:(lia) (Hlim true)) as Hx. destruct (fix_view.digits_loop _ _ _ _) as [val|].
    + left. destruct Hx as (Hd & -> & Hv). exists (- digits_value sv). split; [unfold in_s; lia|]. split; [exists sv; split; [done|]; split; [done|]; by right|].
      cbn [andb]. destruct (Z.eqb_spec (digits_value sv) (INT64_MAX + 1)) as [->|]; [done|]. rewrite wrap_s_id; [done|lia|unfold in_s in *; lia].
    + right. split; [|done]. intros z Hz (ds & Hne & Hd & [[<- _]|[[= <-] ->]]); [by apply digit_head in Hd|]. apply Hx. split; [done|]. unfold in_s in *. lia.
  - rewrite bool_decide_eq_false_2 by done. pose proof (digits_loop_exact 64 (INT64_MAX + 0) (c :: sv) ltac:(lia) (Hlim false)) as Hx. destruct (fix_view.digits_loop _ _ _ _) as [val|].
    + left. destruct Hx as (Hd & -> & Hv). exists (digits_value (c :: sv)). split; [unfold in_s in *; lia|]. split; [exists (c :: sv); split; [done|]; split; [done|]; by left|].
      cbn [andb]. rewrite wrap_s_id; [done|lia|unfold in_s in *; lia].
    + right. split; [|done]. intros z Hz (ds & Hne & Hd & [[<- ->]|[[= -> _] _]]); [|done]. apply Hx. split; [done|]. unfold in_s in *. lia.
Qed.

Lemma signed_text_unique l z z' : signed_text l z -> signed_text l z' -> z = z'.
Proof.
  intros (ds & _ & Hd & [[-> ->]|[-> ->]]) (ds' & _ & Hd' & [[E ->]|[E ->]]); try (injection E as <-); try (subst; done).
  - subst. by apply digit_head in Hd.
  - subst. by apply digit_head in Hd'.
Qed.

Lemma get_int_reads tag default v z : in_s 64 z -> signed_text (fix_view.get tag v) z -> fix_view.get_int tag default v = z.
Proof.
  intros Hz Ht. destruct (get_int_spec tag default v) as [(z' & _ & Ht' & ->)|[Hno _]]; [by apply (signed_text_unique (fix_view.get tag v))|by destruct (Hno z)].
Qed.

(** [get_int] reads integers exactly: if the first field with the tag holds
    an optional minus and at least one digit, and the number is an [int64_t], it
    returns the number; in every other case, a number that is too large or too
    small included, it returns the default. *)
Theorem fix_int_exact (v : FixMessageView) (tag default : Z) :
  (forall z, in_s 64 z -> signed_text (fix_view.get tag v) z -> fix_view.get_int tag default v = z) /\
  ((forall z, in_s 64 z -> ~ signed_text (fix_view.get tag v) z) -> fix_view.get_int tag default v = default).
Proof.
  split; [intros z Hz Ht; by apply get_int_reads|]. intros Hno. destruct (get_int_spec tag default v) as [(z & Hz & Ht & _)|[_ E]]; [by destruct (Hno z)|done].
Qed.

(** ** Fields *)

(** A field as it is sent. *)
Definition fix_field (f : FixField) : list Z := decimal (ff_tag f) ++ 61 :: ff_val f ++ [1].
Definition fix_text (fs : list FixField) : list Z := fs ≫= fix_field.
Definition field_ok (f : FixField) : Prop := in_u 32 (ff_tag f) /\ 1 ∉ ff_val f.

Lemma fix_text_cons f fs : fix_text (f :: fs) = fix_field f ++ fix_text fs.
Proof. done. Qed.

Lemma fix_text_app fs fs' : fix_text (fs ++ fs') = fix_text fs ++ fix_text fs'.
Proof. apply bind_app. Qed.

Lemma tag_digits t : in_u 32 t -> decimal t <> [] /\ Forall digit (decimal t) /\ digits_value (decimal t) = t.
Proof. intros Ht. destruct (decimal_reads t) as [(H1 & H2 & H3 & _) _]; [unfold in_u in *; lia|done]. Qed.

Lemma tag_read t : in_u 32 t -> fix_view.digits_loop 32 UINT32_MAX (decimal t) 0 = Some t.
Proof.
  intros Ht. destruct (tag_digits t Ht) as (_ & Hd & Hv). pose proof (digits_loop_exact 32 UINT32_MAX (decimal t) ltac:(lia) ltac:(lia)) as Hx. unfold in_u in Ht.
  destruct (fix_view.digits_loop _ _ _ _); [destruct Hx as (_ & -> & _); by rewrite Hv|]. destruct Hx. split; [done|]. rewrite Hv. lia.
Qed.

Lemma digits_no c l : Forall digit l -> ~ digit c -> c ∉ l.
Proof. rewrite Forall_forall. intros H Hc Hin. by apply Hc, H. Qed.

Lemma drop_past (l : list Z) c r : drop (S (length l)) (l ++ c :: r) = r.
Proof. by induction l. Qed.

(** One turn of the loop takes one field. *)
Lemma parse_field room f rest fields : field_ok f ->
  fix_view.parse_loop (S room) (fix_field f ++ rest) fields = fix_view.parse_loop room rest (fields ++ [f]).
Proof.
  intros [Ht Hv]. destruct f as [t val]. cbn [ff_tag ff_val] in *. destruct (tag_digits t Ht) as (Hne & Hd & _). unfold fix_field. cbn [ff_tag ff_val]. rewrite <- app_assoc. cbn [app]. rewrite <- app_assoc. cbn [app].
  assert (Heq : find [61] (decimal t ++ 61 :: val ++ 1 :: rest) = Some (length (decimal t))).
  { apply (find_after 61 [] (decimal t) (val ++ 1 :: rest)). apply digits_no; [done|]. unfold digit. lia. }
  cbn [fix_view.parse_loop]. rewrite Heq. assert (Hcons : exists c l, decimal t ++ 61 :: val ++ 1 :: rest = c :: l) by (destruct (decimal t); by eexists _, _).
  destruct Hcons as (c & l & E). rewrite E at 1. clear c l E.
  destruct (length (decimal t) =? 0)%nat eqn:E0; [destruct (decimal t); done|]. rewrite take_app_length, tag_read by done.
  rewrite drop_past.
  assert (Hend : fix_view.value_end (val ++ 1 :: rest) = length val) by (unfold fix_view.value_end; pose proof (find_after 1 [] val rest Hv) as Hf; cbn [app] in Hf; unfold fix_view.SOH; by rewrite Hf). rewrite Hend.
  by rewrite take_app_length, drop_past.
Qed.

Lemma parse_fields fs : forall room fields, (length fs <= room)%nat -> Forall field_ok fs ->
  fix_view.parse_loop room (fix_text fs) fields = (0 <? Z.of_nat (length (fields ++ fs)), fields ++ fs).
Proof.
  induction fs as [|f fs IH]; intros room fields Hr Hfs.
  - rewrite app_nil_r. by destruct room.
  - apply Forall_cons in Hfs as [Hf Hfs]. cbn [length] in Hr. destruct room as [|room]; [lia|]. rewrite fix_text_cons, parse_field by done. rewrite IH by (done || lia). by rewrite <- app_assoc.
Qed.

Lemma fix_text_starts val fs : exists rest, fix_text (mkField 8 val :: fs) = 56 :: 61 :: rest.
Proof. rewrite fix_text_cons. by eexists. Qed.

Lemma parse_all val fs (all := mkField 8 val :: fs) : Forall field_ok all -> (length all <= 64)%nat -> 10 <= Z.of_nat (length (fix_text all)) ->
  fix_view.parse (Some (fix_text all)) (Z.of_nat (length (fix_text all))) = Some (true, mkView all (Z.of_nat (length (fix_text all)))).
Proof.
  intros Hok Hroom Hlen. unfold fix_view.parse. destruct (_ <? 10) eqn:E; [lia|]. clear E. unfold slice. destruct (_ && _) eqn:E; [|lia]. clear E. rewrite Nat2Z.id. cbn [Z.to_nat]. rewrite drop_0, firstn_all. cbn [mbind option_bind].
  destruct (fix_text_starts val fs) as [rest Er]. fold all in Er. rewrite Er. cbn [starts]. cbn [Z.eqb Pos.eqb andb negb]. rewrite <- Er. by rewrite parse_fields.
Qed.

(** what is written field by field is parsed field by field.  Up to 64
    fields with a tag of 32 bits and a value without the separator, the first
    with tag 8: the view of their text has these fields, in this order and
    nothing else, and a tag's value is the one of its first field. *)
Theorem fix_fields_roundtrip (val : list Z) (fs : list FixField) (all := mkField 8 val :: fs)
    (Hok : Forall field_ok all) (Hroom : (length all <= 64)%nat) (Hlen : 10 <= Z.of_nat (length (fix_text all))) :
  fix_view.parse (Some (fix_text all)) (Z.of_nat (length (fix_text all))) = Some (true, mkView all (Z.of_nat (length (fix_text all)))).
Proof. by apply parse_all. Qed.

Lemma fix_fields_roundtrip_witness :
  let fs := [mkField 35 [68]; mkField 38 [53; 48; 48]; mkField 4294967295 [124; 61]] in
  fix_view.parse (Some (fix_text (mkField 8 [70; 73; 88] :: fs))) 32 = Some (true, mkView (mkField 8 [70; 73; 88] :: fs) 32) /\ Z.of_nat (length (fix_text (mkField 8 [70; 73; 88] :: fs))) = 32.
Proof.
  cbv zeta. split; [|vm_compute; reflexivity].
  apply (fix_fields_roundtrip [70; 73; 88] [mkField 35 [68]; mkField 38 [53; 48; 48]; mkField 4294967295 [124; 61]]).
  - repeat (constructor; [split; [split; vm_compute; congruence|apply (bool_decide_unpack _); vm_compute; exact I]|]). constructor.
  - cbn. lia.
  - vm_compute. congruence.
Defined.

(** The text of a field in a message from elsewhere: its tag may have zeros in
    front, and a bar or the end of the message may end it. *)
Definition field_text (text : list Z) (f : FixField) : Prop :=
  exists ds delim, text = ds ++ 61 :: ff_val f ++ delim /\ ds <> [] /\ Forall digit ds /\ digits_value ds = ff_tag f /\ in_u 32 (ff_tag f) /\
    ((delim = [1] /\ 1 ∉ ff_val f) \/ (1 ∉ ff_val f ++ delim /\ 124 ∉ ff_val f /\ (delim = [124] \/ delim = []))).

Lemma value_end_spec l : exists delim, l = take (fix_view.value_end l) l ++ delim ++ drop (S (fix_view.value_end l)) l /\
  ((delim = [1] /\ 1 ∉ take (fix_view.value_end l) l) \/
   (1 ∉ take (fix_view.value_end l) l ++ delim /\ 124 ∉ take (fix_view.value_end l) l /\ (delim = [124] \/ delim = []))).
Proof.
  unfold fix_view.value_end, fix_view.SOH. destruct (find [1] l) as [k|] eqn:E1; [apply find_char_Some in E1 as [E1 Hn]; exists [1]; split; [done|by left]|]. apply find_char_None in E1.
  destruct (find [124] l) as [k|] eqn:E2.
  - apply find_char_Some in E2 as [E2 Hn]. exists [124]. split; [done|]. right. split; [|split; [done|by left]]. intros H. apply E1. rewrite E2. set_solver.
  - apply find_char_None in E2. exists []. rewrite firstn_all, drop_ge by lia. split; [by rewrite app_nil_r|]. right. rewrite app_nil_r. split_and!; [done|done|by right].
Qed.

Lemma parse_loop_sound room : forall ptr acc ok fs, fix_view.parse_loop room ptr acc = (ok, fs) ->
  exists new texts rest, fs = acc ++ new /\ ptr = concat texts ++ rest /\ Forall2 field_text texts new /\ (length new <= room)%nat /\
    (ok = true -> fs <> [] /\ (rest = [] \/ 61 ∉ rest \/ length new = room)).
Proof.
  induction room as [|room IH]; intros ptr acc ok fs; cbn [fix_view.parse_loop].
  { intros [= <- <-]. exists [], [], ptr. rewrite app_nil_r. split_and!; try done. intros H. split; [intros ->; done|]. by right; right. }
  assert (Hstop : forall ok', ok' = (0 <? Z.of_nat (length acc)) \/ ok' = false -> (ok' = true -> ptr = [] \/ 61 ∉ ptr) -> (ok', acc) = (ok, fs) ->
    exists new texts rest, fs = acc ++ new /\ ptr = concat texts ++ rest /\ Forall2 field_text texts new /\ (length new <= S room)%nat /\
      (ok = true -> fs <> [] /\ (rest = [] \/ 61 ∉ rest \/ length new = S room))).
  { intros ok' Hok Hno [= <- <-]. exists [], [], ptr. rewrite app_nil_r. split_and!; try done; [cbn; lia|]. intros ->. split; [|destruct (Hno eq_refl); tauto]. intros ->. by destruct Hok. }
  destruct ptr as [|c ptr']; [apply Hstop; [by left|by left]|]. set (ptr := c :: ptr') in *. destruct (find [61] ptr) as [eq|] eqn:Eq; [|apply find_char_None in Eq; apply Hstop; [by left|by right]].
  destruct (eq =? 0)%nat eqn:E0; [apply Hstop; [by right|done]|]. destruct (fix_view.digits_loop _ _ _ _) as [t|] eqn:Et; [|apply Hstop; [by right|done]]. clear Hstop.
  pose proof (digits_loop_exact 32 UINT32_MAX (take eq ptr) ltac:(lia) ltac:(lia)) as Hx. rewrite Et in Hx. destruct Hx as (Hd & -> & Hr). apply find_char_Some in Eq as [Eq _].
  set (val := drop (S eq) ptr) in *. destruct (value_end_spec val) as (delim & Eval & Hdelim). set (e := fix_view.value_end val) in *.
  intros (new & texts & rest & -> & Er & Hf & Hl & Hok)%IH. set (f := mkField (digits_value (take eq ptr)) (take e val)).
  exists (f :: new), ((take eq ptr ++ 61 :: take e val ++ delim) :: texts), rest. split; [by rewrite <- app_assoc|]. split.
  { rewrite Eq at 1. rewrite Eval at 1. rewrite Er. cbn [concat]. by rewrite <- !app_assoc, <- app_comm_cons, <- !app_assoc. }
  split; [constructor; [|done]|]. { exists (take eq ptr), delim. split_and!; try done; [|unfold in_u, f; cbn [ff_tag]; lia]. intros En. apply (f_equal length) in En. rewrite length_take in En. cbn [length] in En. subst ptr. cbn [length] in En. lia. }
  cbn [length]. split; [lia|]. intros H. destruct (Hok H) as [Hne Hcase]. split; [done|]. destruct Hcase as [->|[?|<-]]; [by left|by right; left|by right; right].
Qed.

(** [parse] on any bytes.  It returns, reads inside the buffer and keeps at
    most 64 fields; the fields are those of a text the message begins with, in
    order: digits that give the tag, a tag of 32 bits, [=], the value up to its
    separator.  If it answers [true] there is a field, and what is behind the
    last one is empty, has no [=] or is the 65th field. *)
Theorem fix_parse_sound (d : list Z) : exists ok v, fix_view.parse (Some d) (Z.of_nat (length d)) = Some (ok, v) /\
  exists texts rest, d = concat texts ++ rest /\ Forall2 field_text texts (mv_fields v) /\ (length (mv_fields v) <= 64)%nat /\
    (ok = true -> mv_fields v <> [] /\ starts [56; 61] d = true /\ (rest = [] \/ 61 ∉ rest \/ length (mv_fields v) = 64%nat)).
Proof.
  unfold fix_view.parse. destruct (_ <? 10); [exists false, (mkView [] (Z.of_nat (length d))); split; [done|]; exists [], d; split_and!; [done|constructor|cbn; lia|done]|].
  unfold slice. destruct (_ && _) eqn:E; [|lia]. clear E. rewrite Nat2Z.id. cbn [Z.to_nat]. rewrite drop_0, firstn_all. cbn [mbind option_bind].
  destruct (starts [56; 61] d) eqn:Es; cbn [negb]; [|exists false, (mkView [] (Z.of_nat (length d))); split; [done|]; exists [], d; split_and!; [done|constructor|cbn; lia|done]].
  destruct (fix_view.parse_loop _ _ _) as [ok fs] eqn:Ep. eexists _, _. split; [done|]. apply parse_loop_sound in Ep as (new & texts & rest & -> & Ed & Hf & Hl & Hok). cbn [app mv_fields] in *.
  exists texts, rest. split_and!; try done. intros H. destruct (Hok H) as [H1 H2]. by split_and!.
Qed.

(** ** The checksum *)
Lemma byte_sum_zsum l : fix_view.byte_sum l mod 256 = zsum l mod 256.
Proof.
  unfold fix_view.byte_sum. assert (Hgen : forall l a, foldl (fun sum c => u32 (sum + c)) a l mod 256 = (a + zsum l) mod 256); [|apply (Hgen l 0)].
  clear l. induction l as [|c l IH]; intros a; [cbn; f_equal; unfold zsum; cbn; lia|]. cbn [foldl]. rewrite IH, zsum_cons. unfold wrap_u. change (2 ^ 32) with (256 * 2 ^ 24).
  rewrite <- Z.add_mod_idemp_l, Z.mod_mod_divide, Z.add_mod_idemp_l by (lia || by exists (2 ^ 24)). f_equal. lia.
Qed.

(** The eight last bytes of a message. *)
Definition trailer (a b c x : Z) : list Z := [1; 49; 48; 61; a; b; c; x].
Definition trailer_digits (a b c : Z) : option Z := fix_view.checksum_digits 3 [a; b; c] 0 0.

Lemma checksum_digits_at n : forall pre l post actual, length l = n -> fix_view.checksum_digits n (pre ++ l ++ post) (Z.of_nat (length pre)) actual = fix_view.checksum_digits n l 0 actual.
Proof.
  assert (Hgen : forall m pre l post actual k, (k + m <= length l)%nat ->
    fix_view.checksum_digits m (pre ++ l ++ post) (Z.of_nat (length pre) + Z.of_nat k) actual = fix_view.checksum_digits m l (Z.of_nat k) actual).
  { induction m as [|m IH]; intros pre l post actual k Hk; [done|]. cbn [fix_view.checksum_digits].
    assert (E : rd (pre ++ l ++ post) (Z.of_nat (length pre) + Z.of_nat k) = rd l (Z.of_nat k)).
    { unfold rd. rewrite !(proj2 (Z.leb_le 0 _)) by lia. rewrite lookup_app_r by lia. replace (_ - _)%nat with k by lia. rewrite Nat2Z.id. apply lookup_app_l. lia. }
    rewrite E. destruct (rd l _) as [c|]; [|done]. cbn [mbind option_bind]. case_if; [|done]. replace (Z.of_nat (length pre) + Z.of_nat k + 1) with (Z.of_nat (length pre) + Z.of_nat (S k)) by lia.
    replace (Z.of_nat k + 1) with (Z.of_nat (S k)) by lia. apply IH. lia. }
  intros pre l post actual Hl. replace (Z.of_nat (length pre)) with (Z.of_nat (length pre) + Z.of_nat 0) by lia. rewrite Hgen by lia. done.
Qed.

Lemma verify_trailer body a b c x : fix_view.verify_checksum (Some (body ++ trailer a b c x)) (Z.of_nat (length (body ++ trailer a b c x))) =
  (actual ← trailer_digits a b c; Some ((zsum body + 1) mod 256 =? actual)).
Proof.
  unfold fix_view.verify_checksum. rewrite length_app. cbn [length trailer]. destruct (_ <? 7) eqn:E; [lia|]. clear E. replace (Z.to_nat _) with (S (length body)) by lia. cbn [fix_view.checksum_tag].
  change (trailer a b c x) with ([1; 49; 48; 61] ++ [a; b; c; x]). rewrite (slice_app body [1; 49; 48; 61] [a; b; c; x]) by done. cbn [mbind option_bind]. unfold fix_view.SOH. cbn [starts Z.eqb Pos.eqb andb orb mbind option_bind].
  assert (Epre : slice (body ++ [1; 49; 48; 61] ++ [a; b; c; x]) 0 (Z.of_nat (S (length body))) = Some (body ++ [1])).
  { change (body ++ [1; 49; 48; 61] ++ [a; b; c; x]) with (body ++ [1] ++ [49; 48; 61; a; b; c; x]). rewrite app_assoc. apply (slice_app [] (body ++ [1])); [done|]. rewrite length_app. cbn [length]. lia. }
  rewrite Epre. cbn [mbind option_bind]. rewrite byte_sum_zsum, zsum_app. change (zsum [1]) with 1.
  replace (body ++ [1; 49; 48; 61] ++ [a; b; c; x]) with ((body ++ [1; 49; 48; 61]) ++ [a; b; c] ++ [x]) by by rewrite <- app_assoc.
  replace (Z.of_nat (S (length body)) + 3) with (Z.of_nat (length (body ++ [1; 49; 48; 61]))) by (rewrite length_app; cbn [length]; lia). by rewrite checksum_digits_at.
Qed.

(** the checksum detects every change of one byte.  A message that verifies
    does not verify any more when one byte before the separator of its checksum
    field is another byte. *)
Theorem fix_checksum_detects (body : list Z) (a b c x : Z) (i : nat) (old new : Z) (message := fun body => body ++ trailer a b c x)
    (Hverified : fix_view.verify_checksum (Some (message body)) (Z.of_nat (length (message body))) = Some true)
    (Hold : body !! i = Some old) (Hbytes : in_u 8 old /\ in_u 8 new) (Hnew : new <> old) :
  fix_view.verify_checksum (Some (message (<[i := new]> body))) (Z.of_nat (length (message (<[i := new]> body)))) = Some false.
Proof.
  unfold message in *. rewrite verify_trailer in *. destruct (trailer_digits a b c) as [actual|]; [|done]. cbn [mbind option_bind] in *. injection Hverified as Hv%Z.eqb_eq. f_equal. apply Z.eqb_neq. intros E.
  assert (Hsum : zsum (<[i:=new]> body) = zsum body + new - old).
  { rewrite <- (take_drop_middle body i old Hold) at 2. rewrite insert_take_drop by by eapply lookup_lt_Some. rewrite !zsum_app, !zsum_cons. lia. }
  rewrite Hsum in E. destruct Hbytes as [H1 H2]. unfold in_u in *. change (2 ^ 8) with 256 in *.
  assert (Hd : (new - old) mod 256 = 0) by (replace (new - old) with (zsum body + new - old + 1 - (zsum body + 1)) by lia; rewrite Zminus_mod, E, Hv, Z.sub_diag; done).
  apply Z.mod_divide in Hd as [q Hq]; [|lia]. lia.
Qed.

Lemma fix_checksum_detects_witness : fix_view.verify_checksum (Some ([56; 61; 70] ++ trailer 49 56 56 1)) 11 = Some true /\ fix_view.verify_checksum (Some ([56; 61; 71] ++ trailer 49 56 56 1)) 11 = Some false.
Proof.
  split; [vm_compute; reflexivity|]. apply (fix_checksum_detects [56; 61; 70] 49 56 56 1 2 70 71); [vm_compute; reflexivity|reflexivity|split; split; vm_compute; congruence|discriminate].
Defined.

(** Fewer digits than three are taken for a checksum, whatever stands behind
    them. *)
Theorem fix_checksum_short_accepted : fix_view.verify_checksum (Some ([56; 61; 139] ++ trailer 49 33 34 1)) 11 = Some true.
Proof. vm_compute. reflexivity. Qed.

(** The comment asks for [8=FIX]; any value passes. *)
Theorem fix_begin_string_unchecked : (fun r => r.1) <$> fix_view.parse (Some (fix_text [mkField 8 [88; 77; 76]; mkField 35 [68]])) 11 = Some true.
Proof. vm_compute. reflexivity. Qed.
