(* ===== verification/FixSession.v ===== *)
(** * FIX sessions (FixSession of luv_fix.hpp)

    Sequence numbers and the messages a session writes.  A text that [snprintf]
    writes is given field by field; [size - 1] of its bytes and a NUL stay in the
    array, its length is what [snprintf] returns.  [None] is a read or a write
    outside an array.  Texts are shorter than the largest [int]. *)
From Stdlib Require Import ZArith Lia ZifyBool.
From Stdlib Require String Ascii.
From S2P Require Import Prelude Numeric Bytes Text WsFill WsFrame HttpJson HttpOrder FixParse.
Import String.StringSyntax.
#[local] Delimit Scope string_scope with str.

Inductive SessionState := kDisconnected | kLogonSent | kActive | kLogoutSent.

Record FixSession := mkFixSession {
  fx_sender_comp_id : list Z;
  fx_target_comp_id : list Z;
  fx_state : SessionState;
  fx_next_in_seq : Z;              (* uint64_t *)
  fx_next_out_seq : Z;             (* uint64_t *)
}.

Module fix_session.

(** [FixSession(sender_comp_id, target_comp_id)] *)
Definition fresh (sender target : list Z) : FixSession := mkFixSession sender target kDisconnected 1 1.

Definition with_state (st : SessionState) (s : FixSession) : FixSession :=
  mkFixSession (fx_sender_comp_id s) (fx_target_comp_id s) st (fx_next_in_seq s) (fx_next_out_seq s).
Definition with_next_in (n : Z) (s : FixSession) : FixSession :=
  mkFixSession (fx_sender_comp_id s) (fx_target_comp_id s) (fx_state s) n (fx_next_out_seq s).
Definition with_next_out (n : Z) (s : FixSession) : FixSession :=
  mkFixSession (fx_sender_comp_id s) (fx_target_comp_id s) (fx_state s) (fx_next_in_seq s) n.

(** The result, [out_gap_detected] and [out_expected_seq] if it is written. *)
Definition handle_inbound_seq (seq_num : Z) (s : FixSession) : bool * bool * option Z * FixSession :=
  if fx_next_in_seq s <? seq_num then (false, true, Some (fx_next_in_seq s), s)
  else if seq_num =? fx_next_in_seq s then (true, false, None, with_next_in (u64 (fx_next_in_seq s + 1)) s)
  else (false, false, None, s).

Definition on_logon (s : FixSession) : FixSession := with_state kActive s.
Definition on_logout (s : FixSession) : FixSession := with_state kDisconnected s.

(** What [%.*s] writes of a string view. *)
Fixpoint printed (l : list Z) : list Z :=
  match l with
  | [] => []
  | c :: l => if c =? 0 then [] else c :: printed l
  end.

Definition sending_time : list Z := Eval vm_compute in bytes_of_string "20260908-00:00:00.000"%str.
Definition begin_string : list Z := Eval vm_compute in bytes_of_string "FIX.4.4"%str.

(** The fields every body begins with. *)
Definition header_fields (msg_type : Z) (seq : Z) (s : FixSession) : list FixField :=
  [mkField 35 [msg_type]; mkField 49 (printed (fx_sender_comp_id s)); mkField 56 (printed (fx_target_comp_id s)); mkField 34 (decimal seq); mkField 52 sending_time].

Definition prefix_fields (body_len : Z) : list FixField := [mkField 8 begin_string; mkField 9 (decimal body_len)].

(** [snprintf] of a text into an array of a size, and [memcpy] of all of the text
    out of the array. *)
Definition snprintf_bytes (size : nat) (text : list Z) : list Z := match size with O => [] | S n => take n text ++ [0] end.
Definition copied (size : nat) (text : list Z) : option (list Z) :=
  if (length text <=? size)%nat then Some (take (length text) (snprintf_bytes size text)) else None.

(** [10=%03u] and the separator. *)
Definition checksum_text (cksum : Z) : list Z := [49; 48; 61; 48 + cksum / 100; 48 + cksum / 10 mod 10; 48 + cksum mod 10; 1].

(** Prefix, body, checksum: the length and the buffer. *)
Definition finish (body_size : nat) (body out_buf : list Z) (max_len : Z) : option (Z * list Z) :=
  let prefix := fix_text (prefix_fields (Z.of_nat (length body))) in
  let prefix_len := Z.of_nat (length prefix) in
  let total_payload := prefix_len + Z.of_nat (length body) in
  out_buf ← memcpy out_buf 0 prefix;
  text ← copied body_size body;
  out_buf ← memcpy out_buf prefix_len text;
  payload ← slice out_buf 0 total_payload;
  let trailer := checksum_text (fix_view.byte_sum payload mod 256) in
  out_buf ← memcpy out_buf total_payload (snprintf_bytes (Z.to_nat (u64 (max_len - total_payload))) trailer);
  Some (total_payload + Z.of_nat (length trailer), out_buf).

Definition report_fields (seq clordid order_id exec_id exec_type ord_status : Z) (symbol : list Z) (side order_qty price cum_qty leaves_qty : Z) (s : FixSession) : list FixField :=
  header_fields 56 seq s ++
  [mkField 11 (decimal clordid); mkField 37 (decimal order_id); mkField 17 (decimal exec_id); mkField 150 [exec_type]; mkField 39 [ord_status]; mkField 55 (printed symbol);
   mkField 54 [side]; mkField 38 (decimal_signed order_qty); mkField 44 (decimal_signed price); mkField 14 (decimal_signed cum_qty); mkField 151 (decimal_signed leaves_qty)].

Definition format_execution_report (out_buf : option (list Z)) (max_len clordid order_id exec_id exec_type ord_status : Z) (symbol : list Z)
    (side order_qty price cum_qty leaves_qty : Z) (s : FixSession) : option (Z * option (list Z) * FixSession) :=
  match out_buf with
  | None => Some (0, None, s)
  | Some out =>
      if max_len <? 128 then Some (0, Some out, s)
      else
        let seq := fx_next_out_seq s in
        let s' := with_next_out (u64 (seq + 1)) s in
        let body := fix_text (report_fields seq clordid order_id exec_id exec_type ord_status symbol side order_qty price cum_qty leaves_qty s) in
        let prefix_len := Z.of_nat (length (fix_text (prefix_fields (Z.of_nat (length body))))) in
        if (Z.of_nat (length body) <=? 0) || (prefix_len <=? 0) then Some (0, Some out, s')
        else
          let total_payload := prefix_len + Z.of_nat (length body) in
          if max_len <? total_payload + 16 then Some (0, Some out, s')
          else '(n, out) ← finish 512 body out max_len; Some (n, Some out, s')
  end.

Definition format_logon (out_buf : option (list Z)) (max_len heartbeat_sec : Z) (s : FixSession) : option (Z * option (list Z) * FixSession) :=
  match out_buf with
  | None => Some (0, None, s)
  | Some out =>
      if max_len <? 128 then Some (0, Some out, s)
      else
        let seq := fx_next_out_seq s in
        let body := fix_text (header_fields 65 seq s ++ [mkField 98 [48]; mkField 108 (decimal heartbeat_sec)]) in
        '(n, out) ← finish 256 body out max_len; Some (n, Some out, with_next_out (u64 (seq + 1)) s)
  end.

Definition format_heartbeat (out_buf : option (list Z)) (max_len : Z) (test_req_id : list Z) (s : FixSession) : option (Z * option (list Z) * FixSession) :=
  match out_buf with
  | None => Some (0, None, s)
  | Some out =>
      if max_len <? 128 then Some (0, Some out, s)
      else
        let seq := fx_next_out_seq s in
        let body := fix_text (header_fields 48 seq s ++ (if bool_decide (test_req_id = []) then [] else [mkField 112 (printed test_req_id)])) in
        '(n, out) ← finish 256 body out max_len; Some (n, Some out, with_next_out (u64 (seq + 1)) s)
  end.

End fix_session.

(** ** Inbound sequence numbers *)
Fixpoint inbound_run (seqs : list Z) (s : FixSession) : list (bool * bool * option Z) * FixSession :=
  match seqs with
  | [] => ([], s)
  | n :: seqs => let '(r, s) := fix_session.handle_inbound_seq n s in let '(rs, s) := inbound_run seqs s in (r :: rs, s)
  end.

(** The numbers that were accepted. *)
Definition inbound_accepted (seqs : list Z) (answers : list (bool * bool * option Z)) : list Z := fst <$> filter (fun x => x.2.1.1 = true) (zip seqs answers).

Lemma inbound_accepted_cons n seqs a answers : inbound_accepted (n :: seqs) (a :: answers) = (if a.1.1 then [n] else []) ++ inbound_accepted seqs answers.
Proof. unfold inbound_accepted. cbn [zip zip_with]. rewrite filter_cons. cbn [snd]. by destruct (a.1.1). Qed.

Lemma zrange_cons a n : zrange a (S n) = a :: zrange (a + 1) n.
Proof. unfold zrange. cbn [seq fmap list_fmap]. f_equal; [lia|]. rewrite <- (fmap_S_seq 0 n). rewrite <- list_fmap_compose. apply list_fmap_ext. intros i x _. cbn. lia. Qed.

(** Inbound messages are accepted in order and once.  For any sequence of
    received numbers, of fewer than the counter can hold: the accepted ones are
    exactly the successive numbers from the expected one on; a number is
    accepted if and only if it is the expected one at that moment, and one beyond
    it is reported as a gap with the expected number. *)
Theorem fix_inbound_in_order (seqs : list Z) (s : FixSession) (H1 : 1 <= fx_next_in_seq s) (H2 : fx_next_in_seq s + Z.of_nat (length seqs) < 2 ^ 64) :
  let '(answers, s') := inbound_run seqs s in
  inbound_accepted seqs answers = zrange (fx_next_in_seq s) (length (inbound_accepted seqs answers)) /\
  fx_next_in_seq s' = fx_next_in_seq s + Z.of_nat (length (inbound_accepted seqs answers)) /\ length answers = length seqs /\
  forall i n a, seqs !! i = Some n -> answers !! i = Some a ->
    let expected := fx_next_in_seq s + Z.of_nat (length (inbound_accepted (take i seqs) (take i answers))) in
    a = (n =? expected, expected <? n, if expected <? n then Some expected else None).
Proof.
  revert s H1 H2. induction seqs as [|n seqs IH]; intros s H1 H2; cbn [inbound_run].
  { split; [done|]. split; [cbn; lia|]. by split. }
  cbn [length] in H2. set (e := fx_next_in_seq s) in *. destruct (fix_session.handle_inbound_seq n s) as [a s1] eqn:Ea.
  assert (Ha : a = (n =? e, e <? n, if e <? n then Some e else None) /\ fx_next_in_seq s1 = e + (if n =? e then 1 else 0)).
  { unfold fix_session.handle_inbound_seq in Ea. fold e in Ea. destruct (Z.ltb_spec e n), (Z.eqb_spec n e); try lia; injection Ea as <- <-; (split; [done|]); try (fold e; lia).
    cbn [fix_session.with_next_in fx_next_in_seq]. fold e. rewrite wrap_u_id; [lia|unfold in_u; lia]. }
  destruct Ha as [Ea' Es]. specialize (IH s1 ltac:(rewrite Es; destruct (n =? e); lia) ltac:(rewrite Es; destruct (n =? e); lia)). destruct (inbound_run seqs s1) as [answers s'].
  destruct IH as (I1 & I2 & I3 & I4). rewrite inbound_accepted_cons, Ea'. cbn [fst]. split; [|split; [|split; [cbn [length]; lia|]]].
  - destruct (Z.eqb_spec n e) as [->|]; [|rewrite Es, Z.add_0_r in I1; done]. cbn [app length]. rewrite zrange_cons. f_equal. by rewrite Es in I1.
  - rewrite I2, Es, length_app. destruct (n =? e); cbn [length]; lia.
  - intros [|i] m b; cbn [lookup list_lookup]; [intros [= <-] [= <-]; cbn; by rewrite Z.add_0_r|]. intros Hm Hb. specialize (I4 i m b Hm Hb). cbv zeta in I4. cbn [take]. rewrite inbound_accepted_cons. cbn [fst].
    rewrite Es in I4. rewrite length_app. replace (e + Z.of_nat (length (if n =? e then [n] else []) + length (inbound_accepted (take i seqs) (take i answers))))
      with (e + (if n =? e then 1 else 0) + Z.of_nat (length (inbound_accepted (take i seqs) (take i answers)))) by (destruct (n =? e); cbn [length]; lia). exact I4.
Qed.

Lemma fix_inbound_in_order_witness : let '(answers, s') := inbound_run [5; 1; 1; 2; 4] (fix_session.fresh [76] [67]) in
  inbound_accepted [5; 1; 1; 2; 4] answers = [1; 2] /\ fx_next_in_seq s' = 3 /\ answers !! 4%nat = Some (false, true, Some 3).
Proof.
  assert (H := fix_inbound_in_order [5; 1; 1; 2; 4] (fix_session.fresh [76] [67])). destruct (inbound_run _ _) as [answers s'] eqn:E. vm_compute in E. injection E as <- <-.
  destruct H as (_ & H & _ & Hi); [cbn; lia|cbn; lia|]. split; [vm_compute; reflexivity|]. split; [rewrite H; vm_compute; reflexivity|]. reflexivity.
Defined.

(** ** Texts *)
Definition plain (l : list Z) : Prop := 0 ∉ l /\ 1 ∉ l.

Lemma printed_plain l : 0 ∉ l -> fix_session.printed l = l.
Proof.
  induction l as [|c l IH]; intros Hn; [done|]. cbn [fix_session.printed]. destruct (Z.eqb_spec c 0) as [->|]; [destruct Hn; by left|]. rewrite IH; [done|]. intros H. apply Hn. by right.
Qed.

Lemma digits_no_soh l : Forall digit l -> 1 ∉ l.
Proof. intros H. apply digits_no; [done|]. unfold digit. lia. Qed.

Lemma unsigned_field v : in_u 64 v -> 1 ∉ decimal v /\ (length (decimal v) <= 20)%nat.
Proof. intros [(_ & Hd & _) Hl]%decimal_reads. split; [by apply digits_no_soh|done]. Qed.

Lemma signed_field v : in_s 64 v -> 1 ∉ decimal_signed v /\ (length (decimal_signed v) <= 20)%nat.
Proof.
  intros [Hr Hl]%decimal_signed_reads. split; [|done]. destruct Hr as [[_ (_ & Hd & _)]|[_ (l & -> & _ & Hd & _)]]; [by apply digits_no_soh|].
  intros [H|H]%elem_of_cons; [lia|]. by apply (digits_no_soh l).
Qed.

(** Fields with a tag of at most three digits: the length of their text. *)
Definition short_tag (f : FixField) : Prop := in_u 32 (ff_tag f) /\ (length (decimal (ff_tag f)) <= 3)%nat.

Lemma known_field t v : 0 <= t < 1000 -> 1 ∉ v -> field_ok (mkField t v).
Proof. intros Ht Hv. split; [unfold in_u; cbn [ff_tag]; lia|done]. Qed.

Lemma known_tag t v : 0 <= t < 1000 -> short_tag (mkField t v).
Proof.
  intros Ht. split; [unfold in_u; cbn [ff_tag]; lia|]. cbn [ff_tag]. unfold decimal. rewrite length_reverse. destruct (reversed_digits_spec 2 t) as (_ & _ & Hl & _); [cbn; lia|].
  rewrite (reversed_digits_fuel 3 20); [lia|lia|cbn; lia].
Qed.

Lemma fix_text_length fs : Forall short_tag fs -> (length (fix_text fs) <= length fs * 5 + length (fs ≫= ff_val))%nat.
Proof.
  induction 1 as [|f fs [_ Hf] _ IH]; [done|]. rewrite fix_text_cons, length_app. unfold fix_field. cbn [mbind list_bind]. rewrite !length_app. cbn [length]. rewrite length_app. cbn [length]. lia.
Qed.

(** A text of fields ends with the separator. *)
Lemma fix_text_last f fs : exists body, fix_text (f :: fs) = body ++ [1].
Proof.
  revert f. induction fs as [|g fs IH]; intros f; rewrite fix_text_cons.
  - exists (decimal (ff_tag f) ++ 61 :: ff_val f). unfold fix_text. cbn [mbind list_bind]. rewrite app_nil_r. unfold fix_field. by rewrite <- app_assoc.
  - destruct (IH g) as [body ->]. exists (fix_field f ++ body). by rewrite app_assoc.
Qed.

(** ** The buffer *)
Lemma memcpy_append t rest bs : (length bs <= length rest)%nat -> memcpy (t ++ rest) (Z.of_nat (length t)) bs = Some (t ++ bs ++ drop (length bs) rest).
Proof. intros Hl. rewrite memcpy_spec by (rewrite length_app; lia). rewrite take_app_length, <- drop_drop, drop_app_length. done. Qed.

Lemma copied_all size text : (length text < size)%nat -> fix_session.copied size text = Some text.
Proof.
  intros Hl. unfold fix_session.copied. destruct (_ <=? _)%nat eqn:E; [|lia]. destruct size as [|n]; [lia|]. cbn [fix_session.snprintf_bytes]. f_equal. rewrite (take_ge text n) by lia. by rewrite take_app_length.
Qed.

(** The message that a body becomes. *)
Definition message_fields (body : list FixField) : list FixField := fix_session.prefix_fields (Z.of_nat (length (fix_text body))) ++ body.
Definition checksum_digits_of (cksum : Z) : list Z := [48 + cksum / 100; 48 + cksum / 10 mod 10; 48 + cksum mod 10].
Definition with_checksum (fs : list FixField) : list FixField := fs ++ [mkField 10 (checksum_digits_of (zsum (fix_text fs) mod 256))].

Lemma checksum_readable c : in_u 8 c -> trailer_digits (48 + c / 100) (48 + c / 10 mod 10) (48 + c mod 10) = Some c.
Proof.
  set (P := fun c : Z => bool_decide (trailer_digits (48 + c / 100) (48 + c / 10 mod 10) (48 + c mod 10) = Some c)).
  assert (HP : forallb P (zrange 0 256) = true) by (vm_compute; reflexivity). intros Hc. by apply (bool_decide_eq_true_1 _ (all_bytes P HP c Hc)).
Qed.

Lemma with_checksum_text fs : fix_text (with_checksum fs) = fix_text fs ++ fix_session.checksum_text (zsum (fix_text fs) mod 256).
Proof. unfold with_checksum. rewrite fix_text_app. reflexivity. Qed.

Lemma with_checksum_verifies f fs (text := fix_text (with_checksum (f :: fs))) : fix_view.verify_checksum (Some text) (Z.of_nat (length text)) = Some true.
Proof.
  unfold text. clear text. rewrite with_checksum_text. set (c := zsum (fix_text (f :: fs)) mod 256). assert (Hc : in_u 8 c) by (apply Z.mod_pos_bound; lia). destruct (fix_text_last f fs) as [body Eb].
  assert (E : fix_text (f :: fs) ++ fix_session.checksum_text c = body ++ trailer (48 + c / 100) (48 + c / 10 mod 10) (48 + c mod 10) 1) by (rewrite Eb, <- app_assoc; reflexivity).
  rewrite E, verify_trailer, checksum_readable by done. cbn [mbind option_bind]. f_equal. apply Z.eqb_eq. unfold c. rewrite Eb, zsum_app. reflexivity.
Qed.

(** What [finish] writes when there is room. *)
Lemma assemble_ok size body out max_len (text := fix_text (with_checksum (message_fields body))) : max_len = Z.of_nat (length out) -> max_len < 2 ^ 63 ->
  (length (fix_text body) < size)%nat -> Z.of_nat (length text) < max_len ->
  exists rest, fix_session.finish size (fix_text body) out max_len = Some (Z.of_nat (length text), text ++ rest).
Proof.
  intros -> Hmax Hsize Hroom. unfold text in *. clear text. rewrite with_checksum_text in *. set (payload := fix_text (message_fields body)) in *.
  set (prefix := fix_text (fix_session.prefix_fields (Z.of_nat (length (fix_text body))))). assert (Ep : payload = prefix ++ fix_text body) by apply fix_text_app.
  rewrite length_app in Hroom. change (length (fix_session.checksum_text _)) with 7%nat in Hroom. assert (Hlp : length payload = (length prefix + length (fix_text body))%nat) by (rewrite Ep; apply length_app).
  unfold fix_session.finish. fold prefix. change (memcpy out 0 prefix) with (memcpy ([] ++ out) (Z.of_nat (@length Z [])) prefix). rewrite memcpy_append by lia. cbn [mbind option_bind app].
  rewrite copied_all by done. cbn [mbind option_bind]. rewrite memcpy_append by (rewrite length_drop; lia). cbn [mbind option_bind].
  assert (Eb : forall x, prefix ++ fix_text body ++ x = [] ++ payload ++ x) by (intros x; rewrite Ep; by rewrite <- app_assoc). rewrite Eb.
  rewrite slice_app by (cbn [length]; lia). cbn [mbind option_bind app]. rewrite byte_sum_zsum. set (tr := fix_session.checksum_text _).
  replace (Z.of_nat (length prefix) + Z.of_nat (length (fix_text body))) with (Z.of_nat (length payload)) by lia.
  rewrite (wrap_u_id 64) by (unfold in_u; lia). destruct (Z.to_nat _) as [|n] eqn:En; [lia|]. cbn [fix_session.snprintf_bytes]. rewrite (take_ge tr n) by (change (length tr) with 7%nat; lia).
  rewrite memcpy_append by (rewrite !length_drop, length_app; change (length tr) with 7%nat; cbn [length]; lia). cbn [mbind option_bind]. eexists. do 2 f_equal; [rewrite length_app; lia|]. by rewrite <- !app_assoc.
Qed.

(** ** Messages *)
Inductive outgoing :=
  | OReport (clordid order_id exec_id exec_type ord_status : Z) (symbol : list Z) (side order_qty price cum_qty leaves_qty : Z)
  | OLogon (heartbeat_sec : Z)
  | OHeartbeat (test_req_id : list Z).

Definition send (m : outgoing) (out : list Z) (s : FixSession) : option (Z * option (list Z) * FixSession) :=
  let max_len := Z.of_nat (length out) in
  match m with
  | OReport clordid order_id exec_id exec_type ord_status symbol side order_qty price cum_qty leaves_qty =>
      fix_session.format_execution_report (Some out) max_len clordid order_id exec_id exec_type ord_status symbol side order_qty price cum_qty leaves_qty s
  | OLogon heartbeat_sec => fix_session.format_logon (Some out) max_len heartbeat_sec s
  | OHeartbeat test_req_id => fix_session.format_heartbeat (Some out) max_len test_req_id s
  end.

(** The fields behind the standard header. *)
Definition own_fields (m : outgoing) : list FixField :=
  match m with
  | OReport clordid order_id exec_id exec_type ord_status symbol side order_qty price cum_qty leaves_qty =>
      [mkField 11 (decimal clordid); mkField 37 (decimal order_id); mkField 17 (decimal exec_id); mkField 150 [exec_type]; mkField 39 [ord_status]; mkField 55 symbol;
       mkField 54 [side]; mkField 38 (decimal_signed order_qty); mkField 44 (decimal_signed price); mkField 14 (decimal_signed cum_qty); mkField 151 (decimal_signed leaves_qty)]
  | OLogon heartbeat_sec => [mkField 98 [48]; mkField 108 (decimal heartbeat_sec)]
  | OHeartbeat id => if bool_decide (id = []) then [] else [mkField 112 id]
  end.

Definition out_type (m : outgoing) : Z := match m with OReport _ _ _ _ _ _ _ _ _ _ _ => 56 | OLogon _ => 65 | OHeartbeat _ => 48 end.
Definition out_text (m : outgoing) : list Z := match m with OReport _ _ _ _ _ symbol _ _ _ _ _ => symbol | OLogon _ => [] | OHeartbeat id => id end.

Definition out_body (m : outgoing) (s : FixSession) : list FixField :=
  [mkField 35 [out_type m]; mkField 49 (fx_sender_comp_id s); mkField 56 (fx_target_comp_id s); mkField 34 (decimal (fx_next_out_seq s)); mkField 52 fix_session.sending_time] ++ own_fields m.

Definition out_message (m : outgoing) (s : FixSession) : list FixField := with_checksum (message_fields (out_body m s)).

Definition room_ok (m : outgoing) : Prop :=
  plain (out_text m) /\
  match m with
  | OReport clordid order_id exec_id exec_type ord_status symbol side order_qty price cum_qty leaves_qty =>
      Forall (in_u 64) [clordid; order_id; exec_id] /\ 1 ∉ [exec_type; ord_status; side] /\ Forall (in_s 64) [order_qty; price; cum_qty; leaves_qty]
  | OLogon heartbeat_sec => in_u 32 heartbeat_sec
  | OHeartbeat _ => True
  end.

(** Identifiers without NUL and separator, and room for them. *)
Record fix_session_ok (m : outgoing) (s : FixSession) : Prop := {
  so_sender : plain (fx_sender_comp_id s);
  so_target : plain (fx_target_comp_id s);
  so_seq : in_u 64 (fx_next_out_seq s);
  so_message : room_ok m;
  so_short : (length (fx_sender_comp_id s) + length (fx_target_comp_id s) + length (out_text m) <= 120)%nat;
}.

Section send.
Context (m : outgoing) (s : FixSession) (Hok : fix_session_ok m s).

Lemma own_fields_ok : Forall field_ok (own_fields m) /\ Forall short_tag (own_fields m) /\
  (length (own_fields m) * 5 + length (own_fields m ≫= ff_val) <= (match m with OReport _ _ _ _ _ _ _ _ _ _ _ => 198 | _ => 31 end) + length (out_text m))%nat.
Proof.
  pose proof (so_message _ _ Hok) as [[H0 H1] Hm]. destruct m as [clordid order_id exec_id exec_type ord_status symbol side order_qty price cum_qty leaves_qty|hb|id]; cbn [own_fields out_text] in *.
  - destruct Hm as ([[S1 L1]%unsigned_field [[S2 L2]%unsigned_field [[S3 L3]%unsigned_field _]%Forall_cons]%Forall_cons]%Forall_cons & Hc & [[S4 L4]%signed_field [[S5 L5]%signed_field [[S6 L6]%signed_field [[S7 L7]%signed_field _]%Forall_cons]%Forall_cons]%Forall_cons]%Forall_cons).
    assert (Hs : 1 ∉ [exec_type] /\ 1 ∉ [ord_status] /\ 1 ∉ [side]) by (clear -Hc; set_solver). destruct Hs as (C1 & C2 & C3). split; [|split].
    + repeat (apply Forall_cons; split; [apply known_field; [lia|assumption]|]). constructor.
    + repeat (apply Forall_cons; split; [apply known_tag; lia|]). constructor.
    + cbn [mbind list_bind ff_val]. rewrite !length_app. cbn [length]. lia.
  - destruct (unsigned_field hb) as [S1 L1]; [unfold in_u in *; lia|]. assert (H48 : 1 ∉ [48]) by (clear; set_solver). split; [|split].
    + repeat (apply Forall_cons; split; [apply known_field; [lia|assumption]|]). constructor.
    + repeat (apply Forall_cons; split; [apply known_tag; lia|]). constructor.
    + cbn [mbind list_bind ff_val]. rewrite !length_app. cbn [length]. lia.
  - case_bool_decide; [split; [constructor|split; [constructor|cbn; lia]]|]. split; [|split].
    + constructor; [by apply known_field|constructor].
    + constructor; [by apply known_tag|constructor].
    + cbn [mbind list_bind ff_val]. rewrite !length_app. cbn [length]. lia.
Qed.

Lemma out_body_ok : Forall field_ok (out_body m s) /\ Forall short_tag (out_body m s) /\
  (length (fix_text (out_body m s)) <= (match m with OReport _ _ _ _ _ _ _ _ _ _ _ => 385 | _ => 218 end))%nat.
Proof.
  destruct own_fields_ok as (O1 & O2 & O3). destruct Hok as [[_ P1] [_ P2] Hseq _ Hshort]. destruct (unsigned_field _ Hseq) as [S1 L1].
  assert (Hd : forall c, c <> 1 -> 1 ∉ [c]) by (intros c Hc Hin; apply list_elem_of_singleton in Hin; congruence).
  assert (HS : Forall short_tag (out_body m s)).
  { unfold out_body. do 5 (apply Forall_cons; split; [apply known_tag; lia|]). exact O2. }
  split; [|split; [done|]].
  - unfold out_body. apply Forall_cons; split; [apply known_field; [lia|apply Hd; by destruct m]|]. do 3 (apply Forall_cons; split; [apply known_field; [lia|assumption]|]).
    apply Forall_cons; split; [|exact O1]. apply known_field; [lia|]. apply (bool_decide_unpack _). vm_compute. exact I.
  - pose proof (fix_text_length _ HS) as Hl. unfold out_body in Hl at 2 3. cbn [app length mbind list_bind ff_val] in Hl. rewrite !length_app in Hl. cbn [length] in Hl. change (length fix_session.sending_time) with 21%nat in Hl.
    destruct m; cbn [out_text] in *; lia.
Qed.

Lemma own_fields_short : (length (own_fields m) <= 11)%nat.
Proof. destruct m; cbn; try lia. case_bool_decide; cbn; lia. Qed.

(** The whole message: its fields, and how long it is. *)
Lemma out_message_ok : Forall field_ok (out_message m s) /\ (length (out_message m s) <= 19)%nat /\ 10 <= Z.of_nat (length (fix_text (out_message m s))) < 500 /\
  exists fs, out_message m s = mkField 8 fix_session.begin_string :: fs.
Proof.
  destruct out_body_ok as (B1 & B2 & B3). set (n := length (fix_text (out_body m s))) in *. assert (Hn : (n <= 385)%nat) by (destruct m; lia).
  destruct (unsigned_field (Z.of_nat n) ltac:(unfold in_u; lia)) as [S1 L1]. set (payload := message_fields (out_body m s)). set (c := zsum (fix_text payload) mod 256).
  assert (Hd : Forall digit (checksum_digits_of c)).
  { assert (Hc : 0 <= c < 256) by (apply Z.mod_pos_bound; lia). pose proof (Z.mod_pos_bound (c / 10) 10). pose proof (Z.mod_pos_bound c 10). pose proof (Z.div_pos c 100). pose proof (Z.div_lt_upper_bound c 100 10).
    unfold checksum_digits_of, digit. repeat constructor; lia. }
  assert (Hsplit : out_message m s = mkField 8 fix_session.begin_string :: mkField 9 (decimal (Z.of_nat n)) :: out_body m s ++ [mkField 10 (checksum_digits_of c)]) by done.
  assert (Hbs : 1 ∉ fix_session.begin_string) by (apply (bool_decide_unpack _); vm_compute; exact I).
  split; [|split; [|split]].
  - rewrite Hsplit. apply Forall_cons; split; [apply known_field; [lia|assumption]|]. apply Forall_cons; split; [apply known_field; [lia|assumption]|]. apply Forall_app. split; [done|].
    apply Forall_cons; split; [|constructor]. apply known_field; [lia|by apply digits_no_soh].
  - rewrite Hsplit. pose proof own_fields_short. cbn [length]. rewrite length_app. unfold out_body. cbn [app length]. lia.
  - assert (Hshort : Forall short_tag [mkField 8 fix_session.begin_string; mkField 9 (decimal (Z.of_nat n))]) by (repeat (apply Forall_cons; split; [apply known_tag; lia|]); constructor).
    pose proof (fix_text_length _ Hshort) as Hl. cbn [mbind list_bind ff_val] in Hl. rewrite !length_app in Hl. cbn [length] in Hl. change (length fix_session.begin_string) with 7%nat in Hl.
    unfold out_message. rewrite with_checksum_text, length_app. change (length (fix_session.checksum_text _)) with 7%nat. unfold message_fields. rewrite fix_text_app, length_app. fold n.
    change (fix_session.prefix_fields (Z.of_nat n)) with [mkField 8 fix_session.begin_string; mkField 9 (decimal (Z.of_nat n))]. split; [|lia].
    rewrite fix_text_cons, length_app. change (length (fix_field (mkField 8 fix_session.begin_string))) with 10%nat. lia.
  - rewrite Hsplit. by eexists.
Qed.

Lemma session_sends out : (512 <= length out)%nat -> Z.of_nat (length out) < 2 ^ 63 -> exists rest,
  send m out s = Some (Z.of_nat (length (fix_text (out_message m s))), Some (fix_text (out_message m s) ++ rest), fix_session.with_next_out (u64 (fx_next_out_seq s + 1)) s).
Proof.
  intros Hl Hmax. destruct out_body_ok as (_ & _ & B3). destruct out_message_ok as (_ & _ & Hlen & _). pose proof Hok as [[P0 _] [P1 _] _ [[P2 _] _] _].
  assert (Hrun : forall size, (length (fix_text (out_body m s)) < size)%nat -> exists rest,
    fix_session.finish size (fix_text (out_body m s)) out (Z.of_nat (length out)) = Some (Z.of_nat (length (fix_text (out_message m s))), fix_text (out_message m s) ++ rest)).
  { intros size Hsize. apply assemble_ok; [done|done|done|]. fold (out_message m s). lia. }
  assert (Hhead : forall t, fix_session.header_fields t (fx_next_out_seq s) s = [mkField 35 [t]; mkField 49 (fx_sender_comp_id s); mkField 56 (fx_target_comp_id s); mkField 34 (decimal (fx_next_out_seq s)); mkField 52 fix_session.sending_time]).
  { intros t. unfold fix_session.header_fields. by rewrite !printed_plain. }
  assert (Hroom : (Z.of_nat (length out) <? 128) = false) by lia.
  destruct m as [clordid order_id exec_id exec_type ord_status symbol side order_qty price cum_qty leaves_qty|hb|id]; cbn [send out_text] in *.
  - unfold fix_session.format_execution_report. rewrite Hroom. set (body := fix_session.report_fields _ _ _ _ _ _ _ _ _ _ _ _ _).
    assert (Eb : body = out_body (OReport clordid order_id exec_id exec_type ord_status symbol side order_qty price cum_qty leaves_qty) s) by (unfold body, fix_session.report_fields; rewrite Hhead, printed_plain by done; done).
    rewrite Eb. clear body Eb. set (M := OReport _ _ _ _ _ _ _ _ _ _ _) in *. destruct (Hrun 512%nat ltac:(lia)) as [rest Er]. exists rest.
    assert (Etext : length (fix_text (out_message M s)) = (length (fix_text (fix_session.prefix_fields (Z.of_nat (length (fix_text (out_body M s)))))) + length (fix_text (out_body M s)) + 7)%nat).
    { unfold out_message. rewrite with_checksum_text, length_app. unfold message_fields. rewrite fix_text_app, length_app. done. }
    assert (Hpos : forall f fs, (0 < length (fix_text (f :: fs)))%nat) by (intros f fs; destruct (fix_text_last f fs) as [b ->]; rewrite length_app; cbn [length]; lia).
    pose proof (Hpos (mkField 35 [out_type M]) (tail (out_body M s))) as Hp1. change (mkField 35 [out_type M] :: tail (out_body M s)) with (out_body M s) in Hp1.
    pose proof (Hpos (mkField 8 fix_session.begin_string) [mkField 9 (decimal (Z.of_nat (length (fix_text (out_body M s)))))]) as Hp2. fold (fix_session.prefix_fields (Z.of_nat (length (fix_text (out_body M s))))) in Hp2.
    destruct (_ || _) eqn:E1; [lia|]. destruct (_ <? _ + 16) eqn:E2; [lia|]. by rewrite Er.
  - unfold fix_session.format_logon. rewrite Hroom, Hhead. destruct (Hrun 256%nat ltac:(lia)) as [rest Er]. exists rest. change (_ ++ [mkField 98 [48]; mkField 108 (decimal hb)]) with (out_body (OLogon hb) s). by rewrite Er.
  - unfold fix_session.format_heartbeat. rewrite Hroom, Hhead, (printed_plain id) by done. destruct (Hrun 256%nat ltac:(lia)) as [rest Er]. exists rest.
    change (_ ++ (if bool_decide (id = []) then [] else [mkField 112 id])) with (out_body (OHeartbeat id) s). by rewrite Er.
Qed.
End send.

(** what a session sends can be read.  For an execution report, a logon or a
    heartbeat whose texts have neither NUL nor separator and at most 120 bytes
    together with the identifiers, in a buffer of at least 512 bytes: the
    message is written inside the buffer and its arrays, its length is returned
    and one sequence number is used; the written bytes verify their checksum;
    parsed they have exactly the fields of the message in order, body length and
    checksum included; and the view gives back the message type, the sequence
    number and the quantities. *)
Theorem fix_session_roundtrip (m : outgoing) (s : FixSession) (out : list Z) (Hok : fix_session_ok m s) (Hout : (512 <= length out)%nat) (Hmax : Z.of_nat (length out) < 2 ^ 63) :
  exists n out', send m out s = Some (n, Some out', fix_session.with_next_out (u64 (fx_next_out_seq s + 1)) s) /\ 0 < n < Z.of_nat (length out) /\
    let text := take (Z.to_nat n) out' in
    text = fix_text (out_message m s) /\ fix_view.verify_checksum (Some text) n = Some true /\
    exists v, fix_view.parse (Some text) n = Some (true, v) /\ mv_fields v = out_message m s /\
      fix_view.msg_type v = [out_type m] /\ (fx_next_out_seq s <= INT64_MAX -> fix_view.seq_num v = fx_next_out_seq s) /\
      match m with
      | OReport _ _ _ _ _ symbol _ order_qty price cum_qty leaves_qty =>
          fix_view.get 55 v = symbol /\ fix_view.get_int 38 0 v = order_qty /\ fix_view.get_int 44 0 v = price /\ fix_view.get_int 14 0 v = cum_qty /\ fix_view.get_int 151 0 v = leaves_qty
      | _ => True
      end.
Proof.
  destruct (session_sends m s Hok out Hout Hmax) as [rest Es]. destruct (out_message_ok m s Hok) as (Hf & Hc & Hl & fs & Efs). set (text := fix_text (out_message m s)) in *.
  exists (Z.of_nat (length text)), (text ++ rest). split; [done|]. split; [lia|]. cbv zeta. rewrite Nat2Z.id, take_app_length. split; [done|]. split.
  { unfold text, out_message, message_fields, fix_session.prefix_fields. apply with_checksum_verifies. }
  exists (mkView (out_message m s) (Z.of_nat (length text))). split.
  { unfold text in *. clear text. rewrite Efs in *. apply parse_all; [done|cbn [length] in *; lia|lia]. }
  split; [done|]. split; [done|]. pose proof (so_seq _ _ Hok) as Hseq. split.
  { intros Hs. unfold fix_view.seq_num. assert (Hin : in_s 64 (fx_next_out_seq s)) by (unfold in_u, in_s in *; lia).
    rewrite (get_int_reads _ _ _ (fx_next_out_seq s) Hin); [by apply wrap_u_id|].
    assert (Ed : decimal_signed (fx_next_out_seq s) = decimal (fx_next_out_seq s)) by (unfold decimal_signed; rewrite (proj2 (Z.leb_le 0 _)); [done|apply Hseq]).
    change (signed_text (decimal (fx_next_out_seq s)) (fx_next_out_seq s)). rewrite <- Ed. by apply signed_text_decimal. }
  pose proof (so_message _ _ Hok) as [_ Hm]. destruct m as [? ? ? ? ? symbol ? order_qty price cum_qty leaves_qty| |]; [|done|done].
  destruct Hm as (_ & _ & [Q1 [Q2 [Q3 [Q4 _]%Forall_cons]%Forall_cons]%Forall_cons]%Forall_cons). split; [done|]. split_and!; by apply get_int_reads, signed_text_decimal.
Qed.

(** *** A session and its messages *)
Definition demo_sender : list Z := Eval vm_compute in bytes_of_string "LUV_EXCH"%str.
Definition demo_target : list Z := Eval vm_compute in bytes_of_string "CLIENT"%str.
Definition demo_symbol : list Z := Eval vm_compute in bytes_of_string "AAPL"%str.
Definition demo_session : FixSession := fix_session.fresh demo_sender demo_target.
Definition demo_report : outgoing := OReport 1001 50001 90001 50 50 demo_symbol 49 500 (-15000) 500 0.

Lemma demo_session_ok : fix_session_ok demo_report demo_session.
Proof.
  split; [split; apply (bool_decide_unpack _); vm_compute; exact I|split; apply (bool_decide_unpack _); vm_compute; exact I|split; vm_compute; congruence| |cbn; lia].
  split; [split; apply (bool_decide_unpack _); vm_compute; exact I|]. split; [repeat (constructor; [split; vm_compute; congruence|]); constructor|].
  split; [apply (bool_decide_unpack _); vm_compute; exact I|]. repeat (constructor; [split; vm_compute; congruence|]). constructor.
Qed.

Lemma fix_session_roundtrip_witness : exists n out', send demo_report (replicate 512 0) demo_session = Some (n, Some out', fix_session.with_next_out 2 demo_session) /\ n = 160 /\
  fix_view.verify_checksum (Some (take (Z.to_nat n) out')) n = Some true /\ exists v, fix_view.parse (Some (take (Z.to_nat n) out')) n = Some (true, v) /\ fix_view.get_int 44 0 v = -15000.
Proof.
  destruct (fix_session_roundtrip demo_report demo_session (replicate 512 0) demo_session_ok) as (n & out' & Es & _ & _ & Hc & v & Hp & _ & _ & _ & _ & _ & Hq & _).
  - rewrite length_replicate. lia.
  - rewrite length_replicate. lia.
  - exists n, out'. split; [exact Es|]. split; [|split; [exact Hc|exists v; split; [exact Hp|exact Hq]]].
    assert (En : (fun r => r.1.1) <$> send demo_report (replicate 512 0) demo_session = Some 160) by (vm_compute; reflexivity). rewrite Es in En. apply (inj Some) in En. exact En.
Defined.

(** A logon does not look at the size of the buffer: it is written beyond it, or
    the length that is returned is not the one of what was written. *)
Theorem fix_logon_overflows_buffer (s := fix_session.fresh (replicate 40 65) (replicate 40 66)) : send (OLogon 30) (replicate 128 0) s = None.
Proof. vm_compute. reflexivity. Qed.

Theorem fix_logon_length_beyond_buffer (s := fix_session.fresh (replicate 20 65) (replicate 33 66)) :
  exists out s', send (OLogon 30) (replicate 128 0) s = Some (131, Some out, s') /\ length out = 128%nat /\ fix_view.verify_checksum (Some out) 128 = Some false.
Proof. eexists _, _. split; [vm_compute; reflexivity|]. split; vm_compute; reflexivity. Qed.

(** An execution report that does not fit uses a sequence number. *)
Theorem fix_refused_report_uses_number : (fun r => (r.1.1, fx_next_out_seq r.2)) <$> send demo_report (replicate 128 0) demo_session = Some (0, 2).
Proof. vm_compute. reflexivity. Qed.
