(* ===== verification/RingStore.v ===== *)
(** * Arrays written round and round

    An array of a power of two of elements in which the element number [i] goes
    to the slot [i & (size - 1)] keeps the latest elements. *)
From Stdlib Require Import ZArith Lia ZifyBool.
From S2P Require Import Prelude.

Section ring_store.
Context {T : Type} (bits : nat).

Definition ring_size : nat := (2 ^ bits)%nat.
Definition ring_slot (i : Z) : nat := Z.to_nat (Z.land i (Z.of_nat ring_size - 1)).
Definition ring_put (i : Z) (x : T) (l : list T) : list T := <[ring_slot i := x]> l.

(** The elements from number [first] on. *)
Definition ring_store (first : Z) (xs l : list T) : list T := (foldl (fun '(i, l) x => (i + 1, ring_put i x l)) (first, l) xs).2.

Lemma ring_size_pos : (0 < ring_size)%nat.
Proof. unfold ring_size. pose proof (Nat.pow_nonzero 2 bits). lia. Qed.

Lemma ring_slot_mod i : 0 <= i -> Z.of_nat (ring_slot i) = i mod Z.of_nat ring_size.
Proof.
  intros Hi. unfold ring_slot, ring_size. rewrite Nat2Z.inj_pow. change (Z.of_nat 2) with 2. replace (2 ^ Z.of_nat bits - 1) with (Z.ones (Z.of_nat bits)) by (rewrite Z.ones_equiv; lia).
  rewrite Z.land_ones by lia. pose proof (Z.mod_pos_bound i (2 ^ Z.of_nat bits)). lia.
Qed.

Lemma ring_slot_lt i : 0 <= i -> (ring_slot i < ring_size)%nat.
Proof. intros Hi. pose proof (ring_slot_mod i Hi). pose proof ring_size_pos. pose proof (Z.mod_pos_bound i (Z.of_nat ring_size)). lia. Qed.

(** Two numbers that are less than the size apart have different slots. *)
Lemma ring_slot_inj i j : 0 <= i -> i < j < i + Z.of_nat ring_size -> ring_slot i <> ring_slot j.
Proof.
  intros Hi Hj E. pose proof (ring_slot_mod i Hi) as Ei. pose proof (ring_slot_mod j ltac:(lia)) as Ej. rewrite E in Ei. pose proof ring_size_pos.
  assert (Hd : (j - i) mod Z.of_nat ring_size = 0) by (rewrite Zminus_mod, <- Ei, <- Ej, Z.sub_diag; done). rewrite Z.mod_small in Hd by lia. lia.
Qed.

Lemma ring_put_length i x l : length (ring_put i x l) = length l.
Proof. apply length_insert. Qed.

Lemma ring_store_counter first xs l : (foldl (fun '(i, l) x => (i + 1, ring_put i x l)) (first, l) xs).1 = first + Z.of_nat (length xs).
Proof. induction xs as [|x xs IH] using rev_ind; [cbn; lia|]. rewrite foldl_app, length_app. cbn [foldl]. destruct (foldl _ _ _) as [i l']. cbn in *. lia. Qed.

Lemma ring_store_snoc first xs x l : ring_store first (xs ++ [x]) l = ring_put (first + Z.of_nat (length xs)) x (ring_store first xs l).
Proof. unfold ring_store. rewrite foldl_app. cbn [foldl]. pose proof (ring_store_counter first xs l) as Hc. destruct (foldl _ _ _) as [i l']. cbn in *. by rewrite Hc. Qed.

Lemma ring_store_length first xs l : length (ring_store first xs l) = length l.
Proof. induction xs as [|x xs IH] using rev_ind; [done|]. by rewrite ring_store_snoc, ring_put_length. Qed.

(** An element stays until as many as the size have come after it. *)
Lemma ring_store_lookup first xs l i x : 0 <= first -> length l = ring_size -> xs !! i = Some x -> (length xs <= i + ring_size)%nat ->
  ring_store first xs l !! ring_slot (first + Z.of_nat i) = Some x.
Proof.
  intros Hf Hl. induction xs as [|y xs IH] using rev_ind; [done|]. rewrite length_app, ring_store_snoc. cbn [length]. intros Hi Hlen. destruct (decide (i = length xs)) as [->|Hne].
  - rewrite list_lookup_middle in Hi by done. injection Hi as <-. apply list_lookup_insert_eq. rewrite ring_store_length, Hl. apply ring_slot_lt. lia.
  - pose proof (lookup_lt_Some _ _ _ Hi) as Hlt. rewrite length_app in Hlt. cbn [length] in Hlt. rewrite lookup_app_l in Hi by lia. unfold ring_put. rewrite list_lookup_insert_ne; [apply IH; done || lia|].
    intros E. symmetry in E. revert E. apply ring_slot_inj; lia.
Qed.
End ring_store.
