(* ===== verification/DropCopy.v ===== *)
(** * DropCopySession (luv_drop_copy.hpp): copies of executions and their replay

    The copies go into an array of 1024 that is written round and round; a
    replay walks over what the array still holds. *)
From Stdlib Require Import ZArith Lia ZifyBool.
From S2P Require Import Prelude Bytes RingStore.

Record DropCopyMessage := mkDropCopy {
  dm_seq_num : Z;                  (* uint64_t *)
  dm_firm_id : Z;                  (* uint32_t *)
  dm_symbol_idx : Z;               (* uint16_t *)
  dm_msg_type : Z;                 (* char *)
  dm_exec_type : Z;                (* char *)
  dm_price : Z;                    (* int64_t *)
  dm_qty : Z;                      (* int64_t *)
  dm_order_id : Z;                 (* uint64_t *)
  dm_exec_id : Z;                  (* uint64_t *)
  dm_ts_ns : Z;                    (* uint64_t *)
}.

Record DropCopySession := mkDropSession {
  dc_subscriber_id : list Z;
  dc_target_id : list Z;
  dc_seq_num : Z;                  (* uint64_t *)
  dc_count : Z;                    (* size_t *)
  dc_buffer : list DropCopyMessage;
}.

Module dropcopy.

Definition kReplayBits : nat := 10.
Definition kReplayBufferSize : Z := 1024.

Definition message_init : DropCopyMessage := mkDropCopy 0 0 0 56 48 0 0 0 0 0.
Definition fresh (subscriber target : list Z) : DropCopySession := mkDropSession subscriber target 1 0 (replicate (Z.to_nat kReplayBufferSize) message_init).

(** [out_msg] is the message returned. *)
Definition publish_execution (firm_id symbol_idx exec_type price qty order_id exec_id ts_ns : Z) (s : DropCopySession) : bool * DropCopyMessage * DropCopySession :=
  let cur_seq := dc_seq_num s in
  let msg := mkDropCopy cur_seq firm_id symbol_idx 56 exec_type price qty order_id exec_id ts_ns in
  (true, msg, mkDropSession (dc_subscriber_id s) (dc_target_id s) (u64 (cur_seq + 1)) (u64 (dc_count s + 1)) (ring_put kReplayBits (dc_count s) msg (dc_buffer s))).

Definition in_range (begin_seq end_seq : Z) (m : DropCopyMessage) : bool := (begin_seq <=? dm_seq_num m) && (dm_seq_num m <=? end_seq).

(** The loop, from slot [i] for [n] slots, with what is written so far; [None] is
    a read outside the buffer. *)
Fixpoint replay_slots (n : nat) (i total_avail begin_seq end_seq max_replay_count : Z) (written : list DropCopyMessage) (s : DropCopySession) : option (list DropCopyMessage) :=
  match n with
  | O => Some written
  | S n =>
      if Z.of_nat (length written) <? max_replay_count then
        m ← dc_buffer s !! ring_slot kReplayBits (u64 (dc_count s - total_avail + i));
        replay_slots n (i + 1) total_avail begin_seq end_seq max_replay_count (if in_range begin_seq end_seq m then written ++ [m] else written) s
      else Some written
  end.

(** What is written to the caller's buffer; [out_ok] is whether it is not null. *)
Definition replay_range (begin_seq end_seq : Z) (out_ok : bool) (max_replay_count : Z) (s : DropCopySession) : option (list DropCopyMessage) :=
  if negb out_ok || (max_replay_count =? 0) || (end_seq <? begin_seq) then Some []
  else
    let total_avail := Z.min (dc_count s) kReplayBufferSize in
    replay_slots (Z.to_nat total_avail) 0 total_avail begin_seq end_seq max_replay_count [] s.

Definition next_seq_num (s : DropCopySession) : Z := dc_seq_num s.

End dropcopy.

(** ** The history of the copies *)
Record Execution := mkExecution { ex_firm : Z; ex_symbol : Z; ex_type : Z; ex_price : Z; ex_qty : Z; ex_order : Z; ex_exec : Z; ex_ts : Z }.

Definition publish_copy (s : DropCopySession) (e : Execution) : DropCopySession :=
  (dropcopy.publish_execution (ex_firm e) (ex_symbol e) (ex_type e) (ex_price e) (ex_qty e) (ex_order e) (ex_exec e) (ex_ts e) s).2.

(** Copy number [n], from 1 on. *)
Definition copy_of (n : Z) (e : Execution) : DropCopyMessage := mkDropCopy n (ex_firm e) (ex_symbol e) 56 (ex_type e) (ex_price e) (ex_qty e) (ex_order e) (ex_exec e) (ex_ts e).
Definition copies (es : list Execution) : list DropCopyMessage := imap (fun i e => copy_of (Z.of_nat i + 1) e) es.

Lemma copies_snoc es e : copies (es ++ [e]) = copies es ++ [copy_of (Z.of_nat (length es) + 1) e].
Proof. unfold copies. rewrite imap_app. cbn. by rewrite Nat.add_0_r. Qed.

Lemma copies_length es : length (copies es) = length es.
Proof. apply length_imap. Qed.

Definition session_after (subscriber target : list Z) (es : list Execution) : DropCopySession := foldl publish_copy (dropcopy.fresh subscriber target) es.

Lemma session_exact subscriber target es (s := session_after subscriber target es) : Z.of_nat (length es) < 2 ^ 64 - 1 ->
  dc_seq_num s = Z.of_nat (length es) + 1 /\ dc_count s = Z.of_nat (length es) /\ dc_buffer s = ring_store dropcopy.kReplayBits 0 (copies es) (dc_buffer (dropcopy.fresh subscriber target)).
Proof.
  unfold s. clear s. induction es as [|e es IH] using rev_ind; intros Hl; [done|]. rewrite length_app in *. cbn [length] in *. unfold session_after in *. rewrite foldl_app. cbn [foldl].
  destruct (IH ltac:(lia)) as (I1 & I2 & I3). set (s := foldl publish_copy _ es) in *. unfold publish_copy, dropcopy.publish_execution. cbn [snd dc_seq_num dc_count dc_buffer]. rewrite copies_snoc, ring_store_snoc, copies_length, I1, I2, <- I3.
  rewrite !wrap_u_id by (unfold in_u; lia). split; [lia|]. split; [lia|]. done.
Qed.

(** What the array holds of the copies: the last 1024. *)
Definition kept_copies (es : list Execution) : list DropCopyMessage := drop (length es - 1024) (copies es).

Section replay.
Context (subscriber target : list Z) (es : list Execution) (Hes : Z.of_nat (length es) < 2 ^ 63).
Abbreviation s := (session_after subscriber target es).

Lemma slot_holds i : (i < length (kept_copies es))%nat -> exists m, kept_copies es !! i = Some m /\
  dc_buffer s !! ring_slot dropcopy.kReplayBits (u64 (dc_count s - Z.min (dc_count s) dropcopy.kReplayBufferSize + Z.of_nat i)) = Some m.
Proof.
  intros Hi. destruct (lookup_lt_is_Some_2 _ _ Hi) as [m Hm]. exists m. split; [done|]. destruct (session_exact subscriber target es ltac:(lia)) as (_ & -> & ->). unfold kept_copies in Hi, Hm. rewrite length_drop, copies_length in Hi.
  rewrite lookup_drop in Hm. unfold dropcopy.kReplayBufferSize. rewrite wrap_u_id by (unfold in_u; lia).
  replace (Z.of_nat (length es) - Z.min (Z.of_nat (length es)) 1024 + Z.of_nat i) with (0 + Z.of_nat (length es - 1024 + i)) by lia.
  apply ring_store_lookup; [done|apply length_replicate|done|]. rewrite copies_length. change (ring_size dropcopy.kReplayBits) with 1024%nat. lia.
Qed.

Lemma replay_slots_exact begin_seq end_seq max n : forall i written, (i + n = length (kept_copies es))%nat ->
  dropcopy.replay_slots n (Z.of_nat i) (Z.min (dc_count s) dropcopy.kReplayBufferSize) begin_seq end_seq max written s =
  Some (written ++ take (Z.to_nat (max - Z.of_nat (length written))) (filter (fun m => dropcopy.in_range begin_seq end_seq m = true) (drop i (kept_copies es)))).
Proof.
  induction n as [|n IH]; intros i written Hn; cbn [dropcopy.replay_slots]; [rewrite drop_ge by lia; by rewrite filter_nil, take_nil, app_nil_r|].
  destruct (Z.ltb_spec (Z.of_nat (length written)) max) as [Hlt|Hge]; [|replace (Z.to_nat _) with 0%nat by lia; by rewrite take_0, app_nil_r].
  destruct (slot_holds i ltac:(lia)) as (m & Hm & ->). cbn [mbind option_bind]. replace (Z.of_nat i + 1) with (Z.of_nat (S i)) by lia. rewrite IH by lia.
  rewrite (drop_S _ _ _ Hm), filter_cons. destruct (dropcopy.in_range begin_seq end_seq m) eqn:E; cbn [decide].
  - rewrite decide_True by done. rewrite length_app. cbn [length]. replace (Z.to_nat (max - Z.of_nat (length written))) with (S (Z.to_nat (max - Z.of_nat (length written + 1)))) by lia. cbn [take]. by rewrite <- app_assoc.
  - by rewrite decide_False by done.
Qed.
End replay.

(** a replay gives back what was copied.  After any executions, a replay of a
    range writes exactly the copies with a number in the range, in their order
    and unchanged, as far as they are among the last 1024 and the caller has
    room; the copies are numbered from 1 on without a gap.  It reads inside the
    array. *)
Theorem drop_copy_replay_exact (subscriber target : list Z) (es : list Execution) (begin_seq end_seq max : Z) (s := session_after subscriber target es)
    (Hes : Z.of_nat (length es) < 2 ^ 63) (Hmax : 0 < max) :
  dropcopy.replay_range begin_seq end_seq true max s = Some (take (Z.to_nat max) (filter (fun m => begin_seq <= dm_seq_num m <= end_seq) (drop (length es - 1024) (copies es)))) /\
  dropcopy.next_seq_num s = Z.of_nat (length es) + 1.
Proof.
  destruct (session_exact subscriber target es ltac:(lia)) as (E1 & E2 & _). fold s in E1, E2. split; [|done]. unfold dropcopy.replay_range. cbn [negb orb]. destruct (Z.eqb_spec max 0); [lia|]. cbn [orb].
  assert (Hfe : forall l : list DropCopyMessage, filter (fun m => dropcopy.in_range begin_seq end_seq m = true) l = filter (fun m => begin_seq <= dm_seq_num m <= end_seq) l).
  { intros l. apply list_filter_iff. intros m. unfold dropcopy.in_range. lia. }
  destruct (Z.ltb_spec end_seq begin_seq) as [Hlt|Hge].
  - assert (Hnone : forall l : list DropCopyMessage, filter (fun m => begin_seq <= dm_seq_num m <= end_seq) l = []).
    { induction l as [|m l IH]; [done|]. rewrite filter_cons, decide_False by lia. apply IH. }
    rewrite Hnone. by rewrite take_nil.
  - pose proof (replay_slots_exact subscriber target es Hes begin_seq end_seq max (length (kept_copies es)) 0 [] ltac:(lia)) as Hr. fold s in Hr. change (Z.of_nat 0) with 0 in Hr.
    assert (Hk : Z.to_nat (Z.min (dc_count s) dropcopy.kReplayBufferSize) = length (kept_copies es)) by (rewrite E2; unfold kept_copies, dropcopy.kReplayBufferSize; rewrite length_drop, copies_length; lia).
    rewrite Hk, Hr. cbn [app length]. rewrite drop_0, Hfe. do 2 f_equal. lia.
Qed.

Definition demo_executions : list Execution := (fun i => mkExecution 100 1 50 (15000 + i) (100 * i) (1000 + i) (5000 + i) (i * 1000)) <$> zrange 1 5.

Definition copy_summary (ms : list DropCopyMessage) : list (Z * Z) := (fun m => (dm_seq_num m, dm_price m)) <$> ms.

Lemma drop_copy_replay_exact_witness : copy_summary <$> dropcopy.replay_range 2 4 true 2 (session_after [80] [76] demo_executions) = Some [(2, 15002); (3, 15003)].
Proof. destruct (drop_copy_replay_exact [80] [76] demo_executions 2 4 2) as [-> _]; [cbn; lia|lia|vm_compute; reflexivity]. Defined.
